(* ===== verification/_CoqProject ===== *)
-Q . S2P
Prelude.v
Monad.v
Links.v
KState.v
Bitmap.v
Sched.v
Pend.v
Inv.v
MInv.v
RingBuf.v
ObjInv.v
Resched.v
Block.v
Prio.v
PrioInv.v
Tick.v
Sem.v
Mutex.v
MutexDel.v
Event.v
Queue.v
BufQueue.v
Create.v
Task.v
TaskDel.v
Timer.v
TimerInv.v
TimerTask.v
TimerApi.v
Sys.v
Kernel.v
Check.v
Fifo.v
MmBlk.v
SList.v
EvList.v
EvInv.v
EvOps.v
SpecEv.v
Rpc.v
RpcBuf.v
RpcSys.v
RpcInv.v
RpcExec.v
SpecRpc.v
UTask.v
UTaskInv.v
SpecUTask.v
EvSvr.v
EvSvrInv.v
SpecEvSvr.v
TimeConv.v
Lpm.v
WorkQueue.v
WqInv.v
WqExec.v
SpecWq.v
MmHeap.v
MmRep.v
MmList.v
MmOps.v
SpecMm.v
KvBlock.v
KvSet.v
KvRep.v
KvStore.v
KvOps.v
KvGc.v
KvVerify.v
KvBoot.v
Demo.v
SpecLpm.v
SpecIpc.v
SpecQueue.v
SpecLife.v
SpecTimer.v
SpecKv.v
SpecTask.v
SpecKernel.v
SpecData.v
