(* ===== verification/Prelude.v ===== *)
(** * Verification of the core of the PHY6212 SDK

    The SDK runs a Bluetooth system-on-chip (a single Cortex-M0) on the Rhino
    real-time kernel, src/csi/csi_kernel/rhino.  This library models the
    kernel as it is built for this chip - one processor, 62 priorities, 64-bit
    ticks, round-robin scheduling, statically allocated objects, no
    statistics - and components the system is built on: work queues, the
    heap, the key-value store in flash memory, the micro-services with
    their remote procedure calls, event subscriptions and event service, and
    the low-power mode; and proves them correct.

    ** The program and its model

    The kernel keeps tasks in circular lists: one ready list per priority, one
    waiting list per kernel object, one list of tasks with a timeout.  A
    bitmap finds the highest ready priority.  Semaphores, mutexes with priority
    inheritance, event flags, message queues and buffer queues block tasks on
    their waiting lists and wake them.  The tick interrupt wakes tasks whose
    time is over.  A timer task serves software timers.

    Every function is a definition of the same name in the state-and-fault
    monad [st]; a NULL or dangling pointer or an index out of range is a
    fault.  The error handler of the build prints a message and loops forever;
    a call that reaches it has no result, like one that faults.  Integers are [Z] with explicit wrap-around.  Addresses of tasks and
    objects are numbers, memory is a map per kind of record; the links of
    lists are explicit memory ([links]).  A context switch changes the running
    task at the place where the port code requests it; a call that blocks
    returns the rest of its code, which runs when the task is scheduled again.

    - Prelude: machine integers, record update, tactics.  Monad: the monad and
      total correctness [wp].  Links: k_list.h over any state with a link
      memory (class [HasLinks]).
    - KState: the types of core/include, the globals of k_obj.c, the error
      handler (k_err.c, driver/yoc_impl.c), the port
      (arch/arm/cm0/tspend/port_s.S, k_critical.h), the kernel monad [M], the
      lists of the kernel.
    - Bitmap: k_bitmap.h, common/k_ffs.c.  Sched: k_sched.c.  Pend: k_pend.c and
      the list part of k_tick.c.  Prio: the priority functions of k_mutex.c
      and k_task.c.
    - Inv, MInv, ObjInv: the invariants: lists and control blocks agree
      ([kinv]), mutex ownership and priority inheritance ([minv], [pinv]), no
      lost wake-up and well-formed queues ([obj_inv]).  Resched: the boundary
      invariant [kwf] that holds whenever the kernel is not running.
      PrioInv: priority inheritance is maintained.  Block: blocking and waking
      under the invariants.
    - Tick (k_tick.c, k_time.c), Sem (k_sem.c, k_task_sem.c), Mutex and
      MutexDel (k_mutex.c), Event (k_event.c), RingBuf (k_ringbuf.c), Queue
      (k_queue.c), BufQueue (k_buf_queue.c), Create (object creation at run
      time), Task and TaskDel (k_task.c), Sys (k_sys.c).
    - Kernel: the kernel as a state machine whose steps are interface calls by
      the running task or by an interrupt handler.
    - Timer, TimerInv, TimerTask, TimerApi: k_timer.c.  The timer list is
      separate memory that only the timer task touches; the task is a
      coroutine between its blocking calls; the interface sends it commands
      as bytes through a buffer queue.
    - Fifo: common/k_fifo.c.  MmBlk: k_mm_blk.c.  TimeConv: the conversions of
      k_time.c, for any tick rate.
    - WorkQueue: k_workqueue.c as pieces of code of tasks, timers and workers
      that interleave in any order, over link memory of its own; creating and
      deleting a queue take several pieces each, one per critical section or
      kernel call, and several deletions of a queue may be under way;
      semaphores and timers are reduced to a count and to armed or not.  WqInv: the invariant
      [winv], and queues that are created and deleted.  WqExec: every action
      keeps the invariant.
    - Check: a decidable condition that implies [kwf].  Demo: a system of eight
      tasks booted by the kernel's own functions; its states are the inputs
      of the witnesses.

    The heap (src/csi/libs/mm, src/kernel/misc/malloc.c) hands out chunks of
    one region; free chunks are joined with their neighbours and kept in one
    list, ordered by size, that runs through an array of buckets.  Its memory
    is a map of 32-bit words, so that headers, list links and the contents of
    blocks are the same memory, as in the code.

    - MmHeap: the functions.  MmRep: sequences of chunks, linked lists of nodes,
      buckets, and the invariant [hrep]: the words hold the chunks [cs] and the
      list of the free ones.  MmList, MmOps: what the list operations,
      [mm_malloc], [mm_free] and [mm_initialize] do to [cs].

    The key-value store (src/kernel/fs/kv2) keeps keys and values as records
    in blocks of flash memory and a cache of their places in RAM.  Writing
    flash memory is a parameter (class [FlashOps], with what NOR flash
    guarantees as class [NorFlash]; SpecKv has an instance).

    - KvBlock: block.c.  KvSet: kvset.c and kv2.c.  KvRep: the records in a
      block and the operations of block.c on them.  KvStore: the invariant of
      the store, lookup.  KvOps: setting and removing.  KvGc: garbage
      collection.  KvVerify, KvBoot: start-up from any consistent contents of
      flash memory, duplicates included.

    Event lists (src/kernel/uService/event.c) hold events with their
    subscriptions in singly linked lists of allocated nodes; allocation is a
    parameter that may fail (class [Allocator]); freed nodes leave the memory.

    - SList: the singly linked lists of aos/list.h and misc/list.c, over any
      state with such nodes (class [HasSLinks]).  EvList: event.c.  EvInv: the
      memory as a list of events.  EvOps: the operations on it, the
      abstract list of subscriptions, and that the operations implement it.

    Remote procedure calls (src/kernel/uService/rpc.c, uservice.c, utask.c)
    carry values from callers to a service task and back in a buffer that both
    sides share; a list in the service task tells the second side that is done
    with a buffer to free it.

    - Rpc: rpc.c.  A freed buffer leaves the memory; bytes are undefined until
      they are written; words at unaligned addresses fault.  RpcSys: callers,
      queue and service task as a state machine whose schedules interleave
      them in any order.  RpcBuf: the values in a buffer.  RpcInv: what rpc.c
      does to memory, and the stages of the life of a buffer, told by
      counting who refers to it.  RpcExec: every action keeps them.
    - UTask: the lists of service tasks and of their services (utask.c,
      uservice.c).  UTaskInv: what the lists mean and how operations change it.

    The event service (src/kernel/uService/event_svr.c) puts event lists behind
    remote procedure calls, keeps events that are published with a delay in a
    list ordered by time, and has a second task that publishes them and waits
    for descriptors.

    - EvSvr: clients, service and select task as actions that interleave; calls
      travel as bytes; finding the place of a delayed event and inserting it
      are two actions, because the code has no lock around them.  EvSvrInv: the delayed events in memory, the
      abstract service, and that every action implements it.

    Low-power mode (src/modules/lpm/lpm.c, the board's pm.c under
    src/boards/phyplus/ch6121_evb, aos_kernel_suspend and aos_kernel_resume of
    src/kernel/misc/kernel.c): when nothing is ready the idle task stops the
    tick, sets the RTC to wake the chip before the next deadline and makes up
    for the ticks that passed.

    - Lpm: the functions, with what registers and the link layer return as
      inputs, among them the counter by which the code tracks the RC oscillator
      (the board has the tracking on, hal_init in system.c); ticks at which
      nobody is due only count; the arithmetic of the RTC.

    ** What is proved

    - SpecKernel: along every sequence of calls within the calling contract no
      call faults and [kwf] holds, and every call ends but for the two that
      exceed a counter of the kernel and stop in the error handler; the running task has the highest
      ready priority; priorities are inherited through mutexes; a waiting task
      waits for something that is not available.
    - SpecIpc, SpecQueue, SpecLife, SpecTask: each operation, started in any
      well-formed state, ends in one of the outcomes of a relation that lists
      its branches with condition, result and effect, and in a well-formed
      state; deletion wakes every waiting task; messages arrive; timeouts are
      exact, across the wrap-around of the tick counter; SpecQueue also shows
      that every service refuses objects of another type.
    - SpecTimer: between two waits the timer task ends without a fault, for
      commands with times in range; as long as it runs on
      time every timer is run at its tick; commands arrive and do what they
      say; two theorems show where the code fails.
    - SpecData: linked lists, ready queue, ring buffers, byte FIFO and block pool
      implement sequences; two more theorems about defects.
    - SpecMm: along every run of a client that allocates, frees and writes,
      with sizes that do not overflow, nothing faults, blocks
      are disjoint and their contents stay; when all are freed the heap is one
      chunk again; allocation is best fit.  Examples show what [malloc] and
      [calloc] do when sizes overflow, and that [realloc] reads too far.
    - SpecKv: the store implements a finite map as long as garbage collection
      has nothing to move; a power failure while a value
      is replaced loses neither; start-up rebuilds the map from flash memory;
      garbage collection ends and keeps the map in flash memory, but hides
      the keys it moves until the next start (two examples).
    - SpecEv: event lists answer like an abstract list of subscriptions for
      every sequence of calls, and free all they allocate; descriptor 0 is
      never waited for.
    - SpecRpc: under every schedule no buffer is used after it was freed or
      freed twice, caller and service never use its values at once, no reply
      is lost, and no buffer is left when the calls are over, if none was refused
      and no handler answered into a call without a buffer; values come out as
      they were put in, if they lie at multiples of 4.  A value of odd length makes the next put trap, and a
      call that does not get into the queue loses its buffer.
    - SpecUTask: the lists of tasks and services are right after every sequence of
      calls in which new tasks can be completed; a task that cannot be
      completed corrupts the list of tasks, and ending one on memory of the
      caller frees that memory.
    - SpecEvSvr: the service implements the abstract one under every schedule
      that does not let the select task in while a delayed event is being
      inserted (an example shows the race); delayed events are published when
      they are due and in order, until the clock reaches 2^32 milliseconds.
    - SpecWq: every accepted work is run once and in order, and none is left
      behind by a queue with a worker; the list of all queues, creating and
      deleting queues, each outcome with its effect; cancelling does not stop a
      delayed work that ran before or whose timer cannot be told, and a work
      submitted while its queue is deleted is lost.
    - SpecLpm: with the oscillator tracked or not, sleeping is invisible to the
      kernel - its state is the one the
      ticks would have left, provided the chip is up again within the time the
      board allows for it; the RTC is set before every deadline; the OSAL clock
      follows the RTC (less one tick when that overflows), while the kernel
      clock drops the parts of ticks.  With tracking the average period has to
      be within 5 percent of 32768 Hz.
    - TimeConv: no wait ends more than a tick late, nor early at rates that
      divide 1000; how early at other rates.

    ** Fuel and bounds

    Loops over linked lists take the number of links, nodes or words in
    memory, plus one, as fuel; every list consists of different nodes, so that
    this is enough, and the theorems state that the code ends in a result.
    The loops along chains of mutexes and owners take the number of mutexes or
    tasks; the loops over a flash block its number of bytes, those over blocks
    and cache entries their number.  A loop whose end depends on the clock
    recurses over the readings of the clock.  Where a loop of the code does not
    end, a theorem says so for every fuel.

    ** Not modelled

    The contents of stacks and registers; user hooks (empty here), tracing and
    statistics; the code under options this chip does not use: more than one
    processor, dynamic allocation of kernel objects, the TLSF heap of the
    kernel, the error detection of the heap; preemption inside a kernel
    function between two critical sections (each call is one step; interrupt
    handlers are steps of their own; work queues and remote procedure calls are
    modelled in pieces that interleave); the callbacks of timers and events and
    the handlers of works (they are recorded); preemption of the event service
    inside a pass over the delayed events, or in a call but at the place where a
    delayed event is inserted.
    Outside these components: drivers and the registers they save and restore
    around a sleep; the wrappers of the AOS and CSI interfaces, which check
    their arguments, call the kernel and translate its status codes; the older
    event loop; and the vendored Bluetooth and network stacks. *)

From stdpp Require Export base gmap list fin_maps strings sorting.
From Stdlib Require Export ZArith Lia.

#[global] Set Default Goal Selector "!".
Open Scope Z_scope.

(** ** Machine integers

    A [w]-bit unsigned C integer is a [Z] in [[0, 2^w)]; arithmetic that can
    leave that range is followed by an explicit wrap-around. *)

Definition wrap (w z : Z) : Z := z mod 2 ^ w.
Abbreviation u8 := (wrap 8).
Abbreviation u32 := (wrap 32).
Abbreviation u64 := (wrap 64).

(** The value of a [w]-bit pattern read as a two's complement integer. *)
Definition sign (w z : Z) : Z :=
  let r := wrap w z in if r <? 2 ^ (w - 1) then r else r - 2 ^ w.
Abbreviation i32 := (sign 32).
Abbreviation i64 := (sign 64).

Lemma wrap_range w z : 0 <= w -> 0 <= wrap w z < 2 ^ w.
Proof. intros ?. apply Z.mod_pos_bound. apply Z.pow_pos_nonneg; lia. Qed.

Lemma wrap_small w z : 0 <= z < 2 ^ w -> wrap w z = z.
Proof. apply Z.mod_small. Qed.

(** Signed and unsigned readings agree modulo [2^w]. *)
Lemma wrap_sign w z : 0 <= w -> wrap w (sign w z) = wrap w z.
Proof.
  intros Hw. unfold sign, wrap. pose proof (Z.pow_pos_nonneg 2 w ltac:(lia) Hw).
  destruct (_ <? _); [apply Zmod_mod|].
  rewrite <- (Z_mod_plus_full (z mod 2 ^ w - 2 ^ w) 1), Z.mul_1_l, Z.sub_add. apply Zmod_mod.
Qed.

(** The difference of two counters read as signed numbers. *)
Lemma sign_sub w a b : 0 <= w -> sign w (sign w a - sign w b) = sign w (a - b).
Proof.
  intros Hw. unfold sign at 1 4. assert (wrap w (sign w a - sign w b) = wrap w (a - b)) as ->; [|done].
  pose proof (wrap_sign w a Hw) as Ea. pose proof (wrap_sign w b Hw) as Eb. unfold wrap in *.
  rewrite (Zminus_mod (sign w a)), Ea, Eb. symmetry. apply Zminus_mod.
Qed.

Lemma sign_small w z : wrap w z < 2 ^ (w - 1) -> sign w z = wrap w z.
Proof. intros H. unfold sign. by rewrite (proj2 (Z.ltb_lt _ _) H). Qed.

Lemma Z_land_le_l a b : 0 <= a -> 0 <= b -> Z.land a b <= a.
Proof.
  intros ??. rewrite <- (Z2N.id a), <- (Z2N.id b) by done.
  rewrite <- N2Z.inj_land. apply N2Z.inj_le, N.land_le_l.
Qed.

(** ** Record field update

    [field_setter mk p] builds the function that replaces field [p] of a
    record, by abstracting [p] in the record's eta expansion. *)
Ltac field_setter eta p :=
  let e := eval cbv beta delta [eta] in eta in
  match eval pattern p in e with
  | ?f _ => let r := eval cbv beta in (fun v => f (fun _ => v)) in exact r
  end.

(** ** Automation *)

Create HintDb rhino.

(** Split conjunctions and existentials of the context. *)
Ltac deex :=
  repeat match goal with
  | H : ex _ |- _ => destruct H
  | H : _ /\ _ |- _ => destruct H
  end.

(** Case analysis on the scrutinee of a [match] or [if] of the goal. *)
Ltac dmatch :=
  match goal with
  | |- context [match ?x with _ => _ end] =>
      lazymatch x with
      | context [match _ with _ => _ end] => fail
      | _ => let E := fresh "E" in destruct x eqn:E
      end
  end.
