(* ===== verification/Monad.v ===== *)
(** * The state-and-fault monad

    A computation maps a state to a result and a state, or does not get
    there ([None]): it faults - a NULL, uninitialised or wrongly typed pointer
    is followed, or an array is read out of range - or it hangs in an endless
    loop.  The kernel and the timer service are both written in it,
    each over a state of its own; [wp] is total correctness. *)

From S2P Require Import Prelude.

Definition st (S A : Type) : Type := S -> option (A * S).

Section Monad.
Context {S : Type}.

Definition ret {A} (a : A) : st S A := fun s => Some (a, s).
Definition fault {A} : st S A := fun _ => None.
Definition hang {A} : st S A := fun _ => None.
Definition bind {A B} (m : st S A) (k : A -> st S B) : st S B :=
  fun s => match m s with Some (a, s') => k a s' | None => None end.
Definition lift {A} (o : option A) : st S A :=
  match o with Some a => ret a | None => fault end.
Definition gets {A} (f : S -> A) : st S A := fun s => Some (f s, s).
Definition modify (f : S -> S) : st S unit := fun s => Some (tt, f s).
Definition when (b : bool) (m : st S unit) : st S unit := if b then m else ret tt.
End Monad.

Declare Scope kernel_scope.
Delimit Scope kernel_scope with K.
Notation "x <- m ;; k" := (bind m (fun x => k))
  (at level 100, m at next level, right associativity) : kernel_scope.
Notation "m ;; k" := (bind m (fun _ => k))
  (at level 100, right associativity) : kernel_scope.
Open Scope kernel_scope.

(** ** Total correctness

    [wp m Q s]: from [s], [m] does not fault or hang and ends in a result and state
    that satisfy [Q]. *)
Definition wp {S A} (m : st S A) (Q : A -> S -> Prop) (s : S) : Prop :=
  match m s with Some (a, s') => Q a s' | None => False end.

Section Wp.
Context {S A B : Type}.
Implicit Types (m : st S A) (k : A -> st S B) (s : S).

Lemma wp_ret (a : A) Q s : Q a s -> wp (ret a) Q s.
Proof. done. Qed.

Lemma wp_bind m k Q s : wp m (fun a s' => wp (k a) Q s') s -> wp (bind m k) Q s.
Proof. unfold wp, bind. by destruct (m s) as [[a s']|]. Qed.

(** A computation that gets to a point where it does not go on. *)
Lemma stuck_bind m k s : wp m (fun a s' => k a s' = None) s -> bind m k s = None.
Proof. unfold wp, bind. by destruct (m s) as [[a s']|]. Qed.

(** Back from a sequence of steps to a sequential composition. *)
Lemma wp_fold m k Q s : wp (bind m k) Q s -> wp m (fun a s' => wp (k a) Q s') s.
Proof. unfold wp, bind. by destruct (m s) as [[a s']|]. Qed.

Lemma wp_mono m (P Q : A -> S -> Prop) s :
  wp m P s -> (forall a s', P a s' -> Q a s') -> wp m Q s.
Proof. unfold wp. destruct (m s) as [[a s']|]; auto. Qed.

Lemma wp_gets (f : S -> A) Q s : Q (f s) s -> wp (gets f) Q s.
Proof. done. Qed.

Lemma wp_lift (o : option A) (a : A) Q s : o = Some a -> Q a s -> wp (lift o) Q s.
Proof. by intros ->. Qed.

(** A total run, as an equation. *)
Lemma wp_run m Q s : wp m Q s -> exists a s', m s = Some (a, s') /\ Q a s'.
Proof. unfold wp. destruct (m s) as [[a s']|]; [eauto | done]. Qed.

Lemma run_wp m Q s a s' : m s = Some (a, s') -> Q a s' -> wp m Q s.
Proof. unfold wp. by intros ->. Qed.
End Wp.

Lemma wp_assoc {S A B D} (m : st S A) (k : A -> st S B) (f : B -> st S D) Q (s : S) :
  wp (bind (bind m k) f) Q s -> wp (bind m (fun a => bind (k a) f)) Q s.
Proof. unfold wp, bind. by destruct (m s) as [[a s']|]. Qed.

(** Three commands run as one, then the rest. *)
Lemma wp_group3 {S A B D E} (m1 : st S A) (m2 : A -> st S B) (m3 : A -> st S D) (k : D -> st S E) Q (s : S) :
  wp (bind (bind m1 (fun a => bind (m2 a) (fun _ => m3 a))) k) Q s ->
  wp (bind m1 (fun a => bind (m2 a) (fun _ => bind (m3 a) k))) Q s.
Proof.
  unfold wp, bind. destruct (m1 s) as [[a1 s1]|]; [|done]. by destruct (m2 a1 s1) as [[a2 s2]|].
Qed.

(** Symbolic execution of the operations that do not depend on the state. *)
Ltac mstep :=
  lazymatch goal with
  | |- wp (bind _ _) _ _ => apply wp_bind
  | |- wp (ret _) _ _ => apply wp_ret
  | |- wp (gets _) _ _ => apply wp_gets; cbn beta iota
  | |- wp (when true _) _ _ => unfold when at 1
  | |- wp (when false _) _ _ => unfold when at 1
  | |- wp (lift (Some _)) _ _ => apply wp_ret
  | |- wp (lift _) _ _ => eapply wp_lift; [ by eauto |]
  end.
Ltac msteps := repeat mstep.
