(* ===== verification/Links.v ===== *)
(** * Intrusive circular lists (k_list.h)

    Link memory, the list operations of k_list.h, and the refinement that
    makes the rest of the kernel readable: a family of disjoint circular
    lists in memory behaves like a family of sequences, insertion and
    removal being insertion and removal in one sequence.

    The operations work on any state with a link memory: [HasLinks] is that
    interface.  The kernel state implements it with the nodes of tasks and
    objects, the timer service with the nodes of timers. *)

From stdpp Require Import functions.
From S2P Require Import Prelude.
From S2P Require Import Monad.

(** ** Link memory

    The [next] and [prev] fields of all [klist_t] in memory, one map per
    field, for nodes with addresses in [N].  A node absent from a map has a
    NULL or uninitialised link. *)
Record links (N : Type) `{Countable N} := mkL { k_next : gmap N N; k_prev : gmap N N }.
Arguments mkL {N _ _} _ _.
Arguments k_next {N _ _} _.
Arguments k_prev {N _ _} _.

(** States with a link memory. *)
Class HasLinks (S N : Type) `{Countable N} := mkHasLinks {
  links_of : S -> links N;
  with_links : links N -> S -> S;
  links_of_with l s : links_of (with_links l s) = l;
  with_links_with l l' s : with_links l (with_links l' s) = with_links l s;
}.

(** ** Operations *)

Section Ops.
Context {S N : Type} `{HasLinks S N}.

Definition put_links (l : links N) : st S unit := modify (with_links l).
Definition get_next (n : N) : st S N := l <- gets links_of ;; lift (k_next l !! n).
Definition get_prev (n : N) : st S N := l <- gets links_of ;; lift (k_prev l !! n).
Definition put_next (n v : N) : st S unit :=
  l <- gets links_of ;; put_links (mkL (<[n := v]> (k_next l)) (k_prev l)).
Definition put_prev (n v : N) : st S unit :=
  l <- gets links_of ;; put_links (mkL (k_next l) (<[n := v]> (k_prev l))).

Definition klist_init (list_head : N) : st S unit :=
  put_next list_head list_head ;;
  put_prev list_head list_head.

Definition is_klist_empty (list : N) : st S bool :=
  n <- get_next list ;; ret (bool_decide (n = list)).

Definition klist_insert (head element : N) : st S unit :=
  hp <- get_prev head ;;
  put_prev element hp ;;
  put_next element head ;;
  hp' <- get_prev head ;;
  put_next hp' element ;;
  put_prev head element.

Definition klist_add (head element : N) : st S unit :=
  put_prev element head ;;
  hn <- get_next head ;;
  put_next element hn ;;
  hn' <- get_next head ;;
  put_prev hn' element ;;
  put_next head element.

Definition klist_rm (element : N) : st S unit :=
  ep <- get_prev element ;;
  en <- get_next element ;;
  put_next ep en ;;
  en' <- get_next element ;;
  ep' <- get_prev element ;;
  put_prev en' ep'.

Definition klist_rm_init (element : N) : st S unit :=
  klist_rm element ;;
  put_prev element element ;;
  put_next element element.

(** ** Searching a list

    The loop shared by the sorted insertions of the kernel: from the first
    element on, stop at the first node that satisfies [stop] or at the list
    head.  The fuel is the number of nodes in memory. *)

Fixpoint klist_scan (fuel : nat) (stop : N -> st S bool) (q list_end : N) : st S N :=
  match fuel with
  | O => fault
  | Datatypes.S f =>
      if bool_decide (q = list_end) then ret q
      else
        b <- stop q ;;
        if b : bool then ret q
        else q' <- get_next q ;; klist_scan f stop q' list_end
  end.

Definition list_fuel : st S nat := l <- gets links_of ;; ret (Datatypes.S (size (k_next l))).
End Ops.

(** ** Segments and rings of link memory *)

Section Segments.
Context {N : Type} `{CN : Countable N}.
Implicit Types (l : links N).

(** [dseg l a ns b]: following [next] from [a] visits the nodes [ns] and then
    reaches [b], and the [prev] links agree. *)
Fixpoint dseg (l : links N) (a : N) (ns : list N) (b : N) : Prop :=
  match ns with
  | [] => k_next l !! a = Some b /\ k_prev l !! b = Some a
  | x :: r => k_next l !! a = Some x /\ k_prev l !! x = Some a /\ dseg l x r b
  end.

Definition ring (l : links N) (ns : list N) : Prop :=
  match ns with [] => True | x :: r => dseg l x r x end.

Definition ins_mem (l : links N) (head p e : N) : links N :=
  mkL (<[p := e]> (<[e := head]> (k_next l))) (<[head := e]> (<[e := p]> (k_prev l))).

Definition rm_mem (l : links N) (p n : N) : links N :=
  mkL (<[p := n]> (k_next l)) (<[n := p]> (k_prev l)).

Lemma dseg_app l a r1 m r2 b :
  dseg l a (r1 ++ m :: r2) b <-> dseg l a r1 m /\ dseg l m r2 b.
Proof. revert a. induction r1 as [|x r1 IH]; intros a; simpl; [|rewrite IH]; tauto. Qed.

Lemma dseg_frame l l' a ns b :
  (forall n, n ∈ a :: ns -> k_next l' !! n = k_next l !! n) ->
  (forall n, n ∈ ns ++ [b] -> k_prev l' !! n = k_prev l !! n) ->
  dseg l a ns b -> dseg l' a ns b.
Proof.
  revert a. induction ns as [|x ns IH]; intros a Hn Hp; simpl.
  - rewrite Hn, Hp by set_solver. done.
  - rewrite Hn by set_solver. rewrite (Hp x) by set_solver.
    intros (? & ? & ?). split_and!; [done..|]. apply IH; [| |done]; set_solver.
Qed.

Lemma ring_frame l l' ns :
  (forall n, n ∈ ns -> k_next l' !! n = k_next l !! n /\ k_prev l' !! n = k_prev l !! n) ->
  ring l ns -> ring l' ns.
Proof.
  destruct ns as [|x r]; simpl; [done|]. intros H.
  apply dseg_frame; intros n Hn; apply H; set_solver.
Qed.

Lemma ring_rotate l a b : ring l (a ++ b) -> ring l (b ++ a).
Proof.
  destruct a as [|x a], b as [|y b]; simpl; rewrite ?app_nil_r; try done.
  rewrite !dseg_app. tauto.
Qed.

(** The neighbours of the first node of a ring. *)
Lemma ring_prev l x r : ring l (x :: r) -> k_prev l !! x = Some (List.last r x).
Proof.
  simpl. destruct r as [|p r] using rev_ind; simpl; [tauto|].
  rewrite List.last_last, dseg_app. simpl. tauto.
Qed.

Lemma ring_next l x r : ring l (x :: r) -> k_next l !! x = Some (hd x r).
Proof. destruct r; simpl; tauto. Qed.

Lemma ring_insert l x r e :
  NoDup (x :: r) -> e ∉ x :: r -> ring l (x :: r) ->
  ring (ins_mem l x (List.last r x) e) (x :: r ++ [e]).
Proof.
  intros Hnd He. destruct r as [|p r] using rev_ind; simpl.
  - assert (x <> e) by set_solver. intros _. by simplify_map_eq.
  - rewrite List.last_last, <- app_assoc; simpl. rewrite !dseg_app. simpl.
    intros (Hs & _). apply NoDup_cons in Hnd as [Hx Hnd].
    apply NoDup_app in Hnd as (Hnr & Hpr & _).
    assert (p <> e /\ x <> e /\ p <> x) as (? & ? & ?) by set_solver.
    split_and!; [|by simplify_map_eq..].
    eapply dseg_frame; [| |exact Hs]; intros n Hn; simpl.
    + rewrite !lookup_insert_ne; [done| |]; set_solver.
    + rewrite !lookup_insert_ne; [done| |]; set_solver.
Qed.

Lemma ring_rm l e r :
  NoDup (e :: r) -> ring l (e :: r) ->
  ring (rm_mem l (List.last r e) (hd e r)) r.
Proof.
  intros Hnd. destruct r as [|x r]; [done|]. simpl hd.
  destruct r as [|p r _] using rev_ind; simpl.
  - intros _. by simplify_map_eq.
  - change (x :: r ++ [p]) with ((x :: r) ++ [p]).
    rewrite List.last_last, !dseg_app. simpl. intros (? & ? & Hs & ? & ?).
    apply NoDup_cons in Hnd as [He Hnd]. apply NoDup_cons in Hnd as [Hx Hnd].
    apply NoDup_app in Hnd as (Hnr & Hpr & _).
    assert (match r ++ [p] with [] => x | _ :: _ => p end = p) as -> by by destruct r.
    split; [|by simplify_map_eq].
    eapply dseg_frame; [| |exact Hs]; intros n Hn; simpl.
    + rewrite lookup_insert_ne; [done|]. set_solver.
    + rewrite lookup_insert_ne; [done|]. set_solver.
Qed.
End Segments.

(** ** Families of disjoint rings *)

Section Rings.
Context {N : Type} `{CN : Countable N} {I : Type} `{EI : EqDecision I}.
Implicit Types (G : I -> list N) (i j : I) (l : links N) (e q : N).

Record rings l G : Prop := mkRings {
  rings_ring : forall i, ring l (G i);
  rings_nodup : forall i, NoDup (G i);
  rings_disj : forall i j n, n ∈ G i -> n ∈ G j -> i = j;
}.

(** A node that is in no ring. *)
Definition unlinked G e : Prop := forall i, e ∉ G i.

Lemma rings_update l l' G i ns :
  rings l G -> ring l' ns -> NoDup ns ->
  (forall n j, n ∈ ns -> n ∈ G j -> i = j) ->
  (forall n, (exists j, i <> j /\ n ∈ G j) ->
     k_next l' !! n = k_next l !! n /\ k_prev l' !! n = k_prev l !! n) ->
  rings l' (<[i := ns]> G).
Proof.
  intros HG Hr Hnd Hd Hf. split; intros j; destruct (decide (i = j)) as [<-|Hj];
    rewrite ?fn_lookup_insert, ?fn_lookup_insert_ne by done; try done.
  - eapply ring_frame; [|apply HG]. intros n Hn. apply Hf. eauto.
  - apply HG.
  - intros k n Hn Hk. destruct (decide (i = k)) as [<-|Hk']; [done|].
    rewrite fn_lookup_insert_ne in Hk by done. eauto.
  - intros k n Hn Hk. destruct (decide (i = k)) as [<-|Hk'].
    + rewrite fn_lookup_insert in Hk. symmetry. eauto.
    + rewrite fn_lookup_insert_ne in Hk by done. by eapply HG.
Qed.

Lemma rings_rotate l G i a b :
  rings l G -> G i = a ++ b -> rings l (<[i := b ++ a]> G).
Proof.
  intros HG Hi. apply (rings_update l l); [done| | | |done].
  - apply ring_rotate. rewrite <- Hi. apply HG.
  - rewrite Permutation_app_comm, <- Hi. apply HG.
  - intros n j Hn Hj. eapply HG; [|done]. rewrite Hi. set_solver.
Qed.

(** Re-indexing by pointwise equal families. *)
Lemma rings_ext l G G' : rings l G -> (forall i, G' i = G i) -> rings l G'.
Proof. intros [] H; split; intros i; rewrite ?H; auto. intros j n. rewrite H. eauto. Qed.

Lemma rings_insert l G i a q b e :
  rings l G -> G i = a ++ q :: b -> unlinked G e ->
  rings (ins_mem l q (List.last (b ++ a) q) e) (<[i := a ++ e :: q :: b]> G).
Proof.
  intros HG Hi He.
  assert (Hnd : NoDup (q :: b ++ a)).
  { pose proof (rings_nodup _ _ HG i) as H. rewrite Hi in H.
    by rewrite <- (Permutation_app_comm a (q :: b)). }
  assert (Hr : ring l (q :: b ++ a)).
  { apply (ring_rotate _ a (q :: b)). rewrite <- Hi. apply HG. }
  assert (Hei : e ∉ q :: b ++ a) by (specialize (He i); rewrite Hi in He; set_solver).
  pose proof (ring_insert _ _ _ _ Hnd Hei Hr) as Hr'.
  apply (rings_update l); [done| | | |].
  - change (e :: q :: b) with ([e] ++ q :: b). rewrite app_assoc.
    apply ring_rotate. simpl. by rewrite app_assoc.
  - assert (a ++ e :: q :: b ≡ₚ e :: q :: b ++ a) as -> by solve_Permutation.
    by constructor.
  - intros n j Hn Hj. destruct (decide (n = e)) as [->|]; [by destruct (He j)|].
    eapply HG; [|done]. rewrite Hi. set_solver.
  - intros n (j & Hij & Hn). simpl.
    assert (n ∉ q :: b ++ a).
    { intros Hq. apply Hij. eapply HG; [|done]. rewrite Hi. set_solver. }
    assert (n <> e) by (intros ->; by destruct (He j)).
    assert (n <> List.last (b ++ a) q).
    { intros ->. destruct (b ++ a) as [|p r] using rev_ind; simpl in *; [set_solver|].
      rewrite List.last_last in *. set_solver. }
    rewrite !lookup_insert_ne by set_solver. done.
Qed.

Lemma rings_rm l G i a e b :
  rings l G -> G i = a ++ e :: b ->
  rings (rm_mem l (List.last (b ++ a) e) (hd e (b ++ a))) (<[i := a ++ b]> G).
Proof.
  intros HG Hi.
  assert (Hnd : NoDup (e :: b ++ a)).
  { pose proof (rings_nodup _ _ HG i) as H. rewrite Hi in H.
    by rewrite <- (Permutation_app_comm a (e :: b)). }
  assert (Hr : ring l (e :: b ++ a)).
  { apply (ring_rotate _ a (e :: b)). rewrite <- Hi. apply HG. }
  pose proof (ring_rm _ _ _ Hnd Hr) as Hr'.
  assert (Hin : forall n, n ∈ e :: b ++ a -> n ∈ G i) by (rewrite Hi; set_solver).
  assert (List.last (b ++ a) e ∈ e :: b ++ a /\ hd e (b ++ a) ∈ e :: b ++ a) as [Hl Hh].
  { destruct (b ++ a) as [|p r] using rev_ind; simpl; [set_solver|].
    rewrite List.last_last. destruct r; set_solver. }
  apply (rings_update l); [done| | | |].
  - by apply ring_rotate.
  - apply NoDup_cons in Hnd as [_ ?]. by rewrite (Permutation_app_comm a b).
  - intros n j Hn Hj. eapply HG; [|done]. apply Hin. set_solver.
  - intros n (j & Hij & Hn). simpl.
    rewrite !lookup_insert_ne; [done| |]; intros Heq; subst n; apply Hij;
      first [exact (rings_disj _ _ HG _ _ _ (Hin _ Hl) Hn)
            |exact (rings_disj _ _ HG _ _ _ (Hin _ Hh) Hn)].
Qed.

Lemma rings_init l G i n :
  rings l G -> G i = [] -> unlinked G n ->
  rings (mkL (<[n := n]> (k_next l)) (<[n := n]> (k_prev l))) (<[i := [n]]> G).
Proof.
  intros HG Hi Hn. apply (rings_update l); [done| | | |].
  - simpl. by simplify_map_eq.
  - apply NoDup_singleton.
  - intros m j Hm Hj. apply list_elem_of_singleton in Hm as ->. by destruct (Hn j).
  - intros m (j & Hj & Hm). simpl. rewrite !lookup_insert_ne; [done| |]; intros ->; by destruct (Hn j).
Qed.

(** The link memory of a node outside every ring is irrelevant. *)
Lemma rings_frame l l' G :
  rings l G ->
  (forall n, (exists i, n ∈ G i) -> k_next l' !! n = k_next l !! n /\ k_prev l' !! n = k_prev l !! n) ->
  rings l' G.
Proof. intros [] H. split; [|done..]. intros i. eapply ring_frame; eauto. Qed.
End Rings.

(** ** The operations refine the sequences *)

Section Refine.
Context {S N : Type} `{HL : HasLinks S N}.

Lemma klist_insert_run head e p s :
  k_prev (links_of s) !! head = Some p -> e <> head ->
  klist_insert head e s = Some (tt, with_links (ins_mem (links_of s) head p e) s).
Proof.
  intros Hp Hne. unfold klist_insert, get_prev, put_prev, put_next, put_links, modify, gets, bind.
  rewrite Hp. simpl. rewrite !links_of_with. simpl. rewrite lookup_insert_ne, Hp by done. simpl.
  by rewrite !links_of_with, !with_links_with.
Qed.

Lemma klist_rm_run e p n s :
  k_prev (links_of s) !! e = Some p -> k_next (links_of s) !! e = Some n ->
  klist_rm e s = Some (tt, with_links (rm_mem (links_of s) p n) s).
Proof.
  intros Hp Hn. unfold klist_rm, get_prev, get_next, put_prev, put_next, put_links, modify, gets, bind.
  rewrite Hp. simpl. rewrite Hn. simpl. rewrite !links_of_with. simpl.
  assert (<[p:=n]> (k_next (links_of s)) !! e = Some n) as ->.
  { destruct (decide (p = e)) as [->|]; by simplify_map_eq. }
  simpl. rewrite !links_of_with. simpl. rewrite Hp. simpl. by rewrite links_of_with, with_links_with.
Qed.

Context {I : Type} `{EI : EqDecision I}.
Implicit Types (G : I -> list N) (i : I) (e q : N) (s : S).

Lemma rings_split_ring l G i a q b :
  rings l G -> G i = a ++ q :: b -> ring l (q :: b ++ a).
Proof. intros HG Hi. apply (ring_rotate _ a (q :: b)). rewrite <- Hi. apply HG. Qed.

Lemma wp_klist_init G i n (Q : unit -> S -> Prop) s :
  rings (links_of s) G -> G i = [] -> unlinked G n ->
  (forall l', rings l' (<[i := [n]]> G) -> Q tt (with_links l' s)) ->
  wp (klist_init n) Q s.
Proof.
  intros HG Hi Hn HQ. red. simpl. rewrite links_of_with, with_links_with. simpl. apply HQ. by apply rings_init.
Qed.

Lemma wp_is_klist_empty G i h ns Q s :
  rings (links_of s) G -> G i = h :: ns ->
  Q (bool_decide (ns = [])) s -> wp (is_klist_empty h) Q s.
Proof.
  intros HG Hi HQ. pose proof (rings_ring _ _ HG i) as Hr. rewrite Hi in Hr.
  pose proof (rings_nodup _ _ HG i) as Hnd. rewrite Hi in Hnd.
  apply ring_next in Hr. unfold is_klist_empty, get_next. msteps.
  destruct ns as [|x ns]; simpl in Hr |- *.
  - rewrite bool_decide_true in HQ by done. by rewrite bool_decide_true by done.
  - rewrite bool_decide_false in HQ by done. rewrite bool_decide_false; [done|].
    intros ->. inversion Hnd; set_solver.
Qed.

Lemma wp_klist_insert G i a q b e (Q : unit -> S -> Prop) s :
  rings (links_of s) G -> G i = a ++ q :: b -> unlinked G e ->
  (forall l', rings l' (<[i := a ++ e :: q :: b]> G) -> Q tt (with_links l' s)) ->
  wp (klist_insert q e) Q s.
Proof.
  intros HG Hi He HQ. pose proof (rings_split_ring _ _ _ _ _ _ HG Hi) as Hr.
  eapply run_wp; [apply klist_insert_run; [by apply ring_prev|]|].
  - specialize (He i). rewrite Hi in He. set_solver.
  - apply HQ. by apply rings_insert.
Qed.

Lemma wp_klist_rm G i a e b (Q : unit -> S -> Prop) s :
  rings (links_of s) G -> G i = a ++ e :: b ->
  (forall l', rings l' (<[i := a ++ b]> G) -> Q tt (with_links l' s)) ->
  wp (klist_rm e) Q s.
Proof.
  intros HG Hi HQ. pose proof (rings_split_ring _ _ _ _ _ _ HG Hi) as Hr.
  eapply run_wp; [apply klist_rm_run; [by apply ring_prev|by apply ring_next]|].
  apply HQ. by apply rings_rm.
Qed.

Lemma wp_get_next G i a q b Q s :
  rings (links_of s) G -> G i = a ++ q :: b -> Q (hd q (b ++ a)) s -> wp (get_next q) Q s.
Proof.
  intros HG Hi HQ. pose proof (rings_split_ring _ _ _ _ _ _ HG Hi) as Hr.
  unfold get_next. msteps. eapply wp_lift; [by apply ring_next|done].
Qed.


Lemma ring_size (l : links N) ns : NoDup ns -> ring l ns -> (length ns <= size (k_next l))%nat.
Proof.
  intros Hnd Hr.
  assert (Hd : (list_to_set ns : gset N) ⊆ dom (k_next l)).
  { intros n Hn. apply elem_of_list_to_set in Hn. apply elem_of_dom.
    apply list_elem_of_split in Hn as (a & b & ->).
    apply ring_rotate, ring_next in Hr. by rewrite Hr. }
  apply subseteq_size in Hd. rewrite size_list_to_set in Hd by done.
  by rewrite size_dom in Hd.
Qed.

Lemma wp_klist_scan G i h l1 l2 (stop : N -> st S bool) (f : N -> bool) fuel Q s :
  rings (links_of s) G -> G i = h :: l1 ++ l2 ->
  (forall n, n ∈ l2 -> stop n s = Some (f n, s)) ->
  (length l2 < fuel)%nat ->
  (forall m1 m2, l2 = m1 ++ m2 -> Forall (fun n => f n = false) m1 ->
     (forall x, head m2 = Some x -> f x = true) ->
     Q (hd h m2) s) ->
  wp (klist_scan fuel stop (hd h l2) h) Q s.
Proof.
  intros HG. revert fuel l1. induction l2 as [|x l2 IH]; intros fuel l1 Hi Hstop Hf HQ;
    (destruct fuel as [|fuel]; [simpl in Hf; lia|]); simpl.
  - rewrite bool_decide_true by done. apply wp_ret. by apply (HQ [] []).
  - rewrite bool_decide_false.
    2:{ pose proof (rings_nodup _ _ HG i) as Hnd. rewrite Hi in Hnd. intros ->.
        inversion Hnd. set_solver. }
    apply wp_bind. eapply run_wp; [apply Hstop; set_solver|].
    destruct (f x) eqn:Ex.
    + apply wp_ret. apply (HQ [] (x :: l2)); [done..|]. intros ? [= <-]. done.
    + apply wp_bind. apply (wp_get_next G i (h :: l1) x l2); [done..|].
      assert (hd x (l2 ++ h :: l1) = hd h l2) as -> by by destruct l2.
      apply (IH fuel (l1 ++ [x])).
      * rewrite Hi. by rewrite <- app_assoc.
      * intros n Hn. apply Hstop. set_solver.
      * simpl in Hf. lia.
      * intros m1 m2 -> Hm1 Hm2. apply (HQ (x :: m1) m2); [done| |done]. by constructor.
Qed.

(** With the fuel the code uses. *)
Lemma wp_scan_list G i h ns (stop : N -> st S bool) (f : N -> bool) Q s :
  rings (links_of s) G -> G i = h :: ns ->
  (forall n, n ∈ ns -> stop n s = Some (f n, s)) ->
  (forall m1 m2, ns = m1 ++ m2 -> Forall (fun n => f n = false) m1 ->
     (forall x, head m2 = Some x -> f x = true) ->
     Q (hd h m2) s) ->
  wp (fuel <- list_fuel ;; q <- get_next h ;; klist_scan fuel stop q h) Q s.
Proof.
  intros HG Hi Hstop HQ. unfold list_fuel. msteps.
  apply (wp_get_next G i [] h ns); [done..|]. rewrite app_nil_r.
  apply (wp_klist_scan G i h [] ns _ f); [done..| |done].
  pose proof (ring_size (links_of s) (G i) (rings_nodup _ _ HG i) (rings_ring _ _ HG i)) as Hl.
  rewrite Hi in Hl. simpl in Hl. lia.
Qed.
End Refine.
