(* ===== verification/KState.v ===== *)
(** * Kernel data, kernel state and the kernel monad

    The C types of the Rhino headers (k_err.h, k_task.h, k_obj.h, k_sched.h,
    k_sem.h, k_mutex.h, k_event.h, k_sys.h), the global state of
    k_internal.h, and the state-and-fault monad in which every kernel
    function is written. *)

From stdpp Require Import functions.
From S2P Require Import Prelude.
From S2P Require Import Monad.
From S2P Require Import Links.

(** ** Configuration (k_config.h, k_default_config.h, k_sys.h) *)

Definition RHINO_CONFIG_PRI_MAX : Z := 62.
Definition RHINO_IDLE_PRI : Z := RHINO_CONFIG_PRI_MAX - 1.
Definition RHINO_CONFIG_TIME_SLICE_DEFAULT : Z := 50.
Definition RHINO_CONFIG_INTRPT_MAX_NESTED_LEVEL : Z := 188.
Definition SCHED_MAX_LOCK_COUNT : Z := 200.
Definition RHINO_NO_WAIT : Z := 0.
(** [(uint64_t)-1]: RHINO_CONFIG_64_BIT_TYPE is 1. *)
Definition RHINO_WAIT_FOREVER : Z := 2 ^ 64 - 1.
Definition KSCHED_FIFO : Z := 0.
Definition KSCHED_RR : Z := 1.
Definition K_OBJ_STATIC_ALLOC : Z := 1.
Definition K_OBJ_DYN_ALLOC : Z := 2.

(** ** Status codes (k_err.h) *)
Inductive kstat_t :=
  | RHINO_SUCCESS | RHINO_SYS_FATAL_ERR | RHINO_SYS_SP_ERR | RHINO_RUNNING
  | RHINO_STOPPED | RHINO_INV_PARAM | RHINO_NULL_PTR | RHINO_INV_ALIGN
  | RHINO_KOBJ_TYPE_ERR | RHINO_KOBJ_DEL_ERR | RHINO_KOBJ_DOCKER_EXIST
  | RHINO_KOBJ_BLK | RHINO_KOBJ_SET_FULL | RHINO_NOTIFY_FUNC_EXIST
  | RHINO_MM_POOL_SIZE_ERR | RHINO_MM_ALLOC_SIZE_ERR | RHINO_MM_FREE_ADDR_ERR
  | RHINO_MM_CORRUPT_ERR | RHINO_DYN_MEM_PROC_ERR | RHINO_NO_MEM
  | RHINO_RINGBUF_FULL | RHINO_RINGBUF_EMPTY
  | RHINO_SCHED_DISABLE | RHINO_SCHED_ALREADY_ENABLED
  | RHINO_SCHED_LOCK_COUNT_OVF | RHINO_INV_SCHED_WAY
  | RHINO_TASK_INV_STACK_SIZE | RHINO_TASK_NOT_SUSPENDED
  | RHINO_TASK_DEL_NOT_ALLOWED | RHINO_TASK_SUSPEND_NOT_ALLOWED
  | RHINO_SUSPENDED_COUNT_OVF | RHINO_BEYOND_MAX_PRI
  | RHINO_PRI_CHG_NOT_ALLOWED | RHINO_INV_TASK_STATE | RHINO_IDLE_TASK_EXIST
  | RHINO_NO_PEND_WAIT | RHINO_BLK_ABORT | RHINO_BLK_TIMEOUT | RHINO_BLK_DEL
  | RHINO_BLK_INV_STATE | RHINO_BLK_POOL_SIZE_ERR
  | RHINO_TIMER_STATE_INV | RHINO_NO_THIS_EVENT_OPT
  | RHINO_BUF_QUEUE_INV_SIZE | RHINO_BUF_QUEUE_SIZE_ZERO | RHINO_BUF_QUEUE_FULL
  | RHINO_BUF_QUEUE_MSG_SIZE_OVERFLOW | RHINO_QUEUE_FULL | RHINO_QUEUE_NOT_FULL
  | RHINO_SEM_OVF | RHINO_SEM_TASK_WAITING
  | RHINO_MUTEX_NOT_RELEASED_BY_OWNER | RHINO_MUTEX_OWNER_NESTED
  | RHINO_MUTEX_NESTED_OVF
  | RHINO_INTRPT_NESTED_LEVEL_OVERFLOW | RHINO_INV_INTRPT_NESTED_LEVEL
  | RHINO_NOT_CALLED_BY_INTRPT | RHINO_TRY_AGAIN
  | RHINO_WORKQUEUE_EXIST | RHINO_WORKQUEUE_NOT_EXIST
  | RHINO_WORKQUEUE_WORK_EXIST | RHINO_WORKQUEUE_BUSY
  | RHINO_WORKQUEUE_WORK_RUNNING
  | RHINO_TASK_STACK_OVF | RHINO_INTRPT_STACK_OVF.

#[export] Instance kstat_eq_dec : EqDecision kstat_t.
Proof. solve_decision. Defined.

(** ** Task and object states (k_task.h, k_obj.h) *)
Inductive task_stat_t :=
  | K_SEED | K_RDY | K_PEND | K_SUSPENDED | K_PEND_SUSPENDED
  | K_SLEEP | K_SLEEP_SUSPENDED | K_DELETED.

#[export] Instance task_stat_eq_dec : EqDecision task_stat_t.
Proof. solve_decision. Defined.

Inductive blk_policy_t := BLK_POLICY_PRI | BLK_POLICY_FIFO.

#[export] Instance blk_policy_eq_dec : EqDecision blk_policy_t.
Proof. solve_decision. Defined.

Inductive blk_state_t :=
  | BLK_FINISH | BLK_ABORT | BLK_TIMEOUT | BLK_DEL | BLK_INVALID.

#[export] Instance blk_state_eq_dec : EqDecision blk_state_t.
Proof. solve_decision. Defined.

Inductive kobj_type_t :=
  | RHINO_OBJ_TYPE_NONE | RHINO_SEM_OBJ_TYPE | RHINO_MUTEX_OBJ_TYPE
  | RHINO_QUEUE_OBJ_TYPE | RHINO_BUF_QUEUE_OBJ_TYPE | RHINO_TIMER_OBJ_TYPE
  | RHINO_EVENT_OBJ_TYPE | RHINO_MM_BLK_OBJ_TYPE | RHINO_MM_OBJ_TYPE.

#[export] Instance kobj_type_eq_dec : EqDecision kobj_type_t.
Proof. solve_decision. Defined.

(** ** Addresses

    [tid] is the address of a [ktask_t], [oid] the address of a kernel
    object.  Every object starts with its [blk_obj_t], so that the casts
    between [ksem_t *], [kmutex_t *], ... and [blk_obj_t *] are the identity
    on [oid].  [knode] is the address of a [klist_t] embedded in a task or
    in an object, or of the global list head [g_tick_head]. *)
Abbreviation tid := nat (only parsing).
Abbreviation oid := nat (only parsing).

Inductive knode :=
  | NTask (t : tid)   (* &task->task_list *)
  | NTick (t : tid)   (* &task->tick_list *)
  | NBlk (o : oid)    (* &obj->blk_obj.blk_list *)
  | NTickHead.        (* &g_tick_head *)

#[export] Instance knode_eq_dec : EqDecision knode.
Proof. solve_decision. Defined.

#[export] Instance knode_countable : Countable knode.
Proof.
  refine (inj_countable'
    (fun n => match n with
              | NTask t => inl (inl t) | NTick t => inl (inr t)
              | NBlk o => inr (inl o) | NTickHead => inr (inr tt) end)
    (fun x => match x with
              | inl (inl t) => NTask t | inl (inr t) => NTick t
              | inr (inl o) => NBlk o | inr (inr _) => NTickHead end) _).
  by intros [].
Defined.

(** ** [ktask_t] (k_task.h)

    The fields the kernel logic reads; stack contents and the fields of
    disabled options are left out. *)
Record ktask_t := mkTask {
  suspend_count : Z;          (* uint8_t *)
  task_mutex_list : option oid;
  tick_match : Z;             (* uint64_t *)
  tick_remain : Z;            (* uint64_t *)
  tick_head : option knode;
  task_msg : Z;               (* void * *)
  task_bq_msg_size : Z;
  task_state : task_stat_t;
  blk_state : blk_state_t;
  task_blk_obj : option oid;
  task_sem_obj : option oid;
  time_slice : Z;             (* uint32_t *)
  time_total : Z;             (* uint32_t *)
  pend_flags : Z;             (* uint32_t *)
  pend_info : option nat;     (* uint32_t * *)
  pend_option : Z;            (* uint8_t *)
  sched_policy : Z;
  prio : Z;                   (* uint8_t *)
  b_prio : Z;                 (* uint8_t *)
  task_mm_alloc_flag : Z;
}.

Definition ktask_eta (x : ktask_t) : ktask_t :=
  mkTask (suspend_count x) (task_mutex_list x) (tick_match x) (tick_remain x)
    (tick_head x) (task_msg x) (task_bq_msg_size x) (task_state x) (blk_state x)
    (task_blk_obj x) (task_sem_obj x) (time_slice x) (time_total x)
    (pend_flags x) (pend_info x) (pend_option x) (sched_policy x) (prio x)
    (b_prio x) (task_mm_alloc_flag x).

Definition set_suspend_count : Z -> ktask_t -> ktask_t := ltac:(field_setter ktask_eta suspend_count).
Definition set_task_mutex_list : option oid -> ktask_t -> ktask_t := ltac:(field_setter ktask_eta task_mutex_list).
Definition set_tick_match : Z -> ktask_t -> ktask_t := ltac:(field_setter ktask_eta tick_match).
Definition set_tick_remain : Z -> ktask_t -> ktask_t := ltac:(field_setter ktask_eta tick_remain).
Definition set_tick_head : option knode -> ktask_t -> ktask_t := ltac:(field_setter ktask_eta tick_head).
Definition set_task_msg : Z -> ktask_t -> ktask_t := ltac:(field_setter ktask_eta task_msg).
Definition set_task_bq_msg_size : Z -> ktask_t -> ktask_t := ltac:(field_setter ktask_eta task_bq_msg_size).
Definition set_task_state : task_stat_t -> ktask_t -> ktask_t := ltac:(field_setter ktask_eta task_state).
Definition set_blk_state : blk_state_t -> ktask_t -> ktask_t := ltac:(field_setter ktask_eta blk_state).
Definition set_task_blk_obj : option oid -> ktask_t -> ktask_t := ltac:(field_setter ktask_eta task_blk_obj).
Definition set_task_sem_obj : option oid -> ktask_t -> ktask_t := ltac:(field_setter ktask_eta task_sem_obj).
Definition set_time_slice : Z -> ktask_t -> ktask_t := ltac:(field_setter ktask_eta time_slice).
Definition set_time_total : Z -> ktask_t -> ktask_t := ltac:(field_setter ktask_eta time_total).
Definition set_pend_flags : Z -> ktask_t -> ktask_t := ltac:(field_setter ktask_eta pend_flags).
Definition set_pend_info : option nat -> ktask_t -> ktask_t := ltac:(field_setter ktask_eta pend_info).
Definition set_pend_option : Z -> ktask_t -> ktask_t := ltac:(field_setter ktask_eta pend_option).
Definition set_sched_policy : Z -> ktask_t -> ktask_t := ltac:(field_setter ktask_eta sched_policy).
Definition set_prio : Z -> ktask_t -> ktask_t := ltac:(field_setter ktask_eta prio).
Definition set_b_prio : Z -> ktask_t -> ktask_t := ltac:(field_setter ktask_eta b_prio).

(** ** Kernel objects (k_obj.h, k_sem.h, k_mutex.h, k_event.h) *)
Record blk_obj_t := mkBlk { blk_policy : blk_policy_t; obj_type : kobj_type_t }.

Definition set_obj_type (ty : kobj_type_t) (b : blk_obj_t) : blk_obj_t :=
  mkBlk (blk_policy b) ty.

Record ksem_t := mkSem {
  count : Z;        (* sem_count_t = uint32_t *)
  peak_count : Z;
  sem_mm_alloc_flag : Z;
}.

Record kmutex_t := mkMutex {
  mutex_task : option tid;
  mutex_list : option oid;
  owner_nested : Z; (* mutex_nested_t = uint32_t *)
  mutex_mm_alloc_flag : Z;
}.

Record kevent_t := mkEvent {
  flags : Z;        (* uint32_t *)
  event_mm_alloc_flag : Z;
}.

(** [k_ringbuf_t] (k_ringbuf.h): the buffer and the offsets of [head] and
    [tail] in it. *)
Record k_ringbuf_t := mkRB {
  rb_mem : list Z;
  rb_head : nat;
  rb_tail : nat;
  rb_freesize : nat;
  rb_type : Z;
  rb_blk_size : nat;
}.

(** [kqueue_t] with its [msg_q_t] (k_queue.h). *)
Record kqueue_t := mkQueue {
  q_ringbuf : k_ringbuf_t;
  queue_start : nat; (* address of the storage *)
  q_size : Z;       (* size_t *)
  q_cur_num : Z;
  q_peak_num : Z;
  q_mm_alloc_flag : Z;
}.

(** [kbuf_queue_t] (k_buf_queue.h). *)
Record kbuf_queue_t := mkBufq {
  bq_ringbuf : k_ringbuf_t;
  max_msg_size : Z; (* size_t *)
  bq_cur_num : Z;
  bq_peak_num : Z;
  min_free_buf_size : Z;
  bq_mm_alloc_flag : Z;
}.

(** The object store: the common header of every object and the part that
    follows it, by kind. *)
Record kobjs := mkObjs {
  blks : gmap oid blk_obj_t;
  sems : gmap oid ksem_t;
  mutexes : gmap oid kmutex_t;
  events : gmap oid kevent_t;
  kqueues : gmap oid kqueue_t;
  bufqs : gmap oid kbuf_queue_t;
}.

Definition kobjs_eta (x : kobjs) : kobjs :=
  mkObjs (blks x) (sems x) (mutexes x) (events x) (kqueues x) (bufqs x).

Definition set_blks : gmap oid blk_obj_t -> kobjs -> kobjs := ltac:(field_setter kobjs_eta blks).
Definition set_sems : gmap oid ksem_t -> kobjs -> kobjs := ltac:(field_setter kobjs_eta sems).
Definition set_mutexes : gmap oid kmutex_t -> kobjs -> kobjs := ltac:(field_setter kobjs_eta mutexes).
Definition set_events : gmap oid kevent_t -> kobjs -> kobjs := ltac:(field_setter kobjs_eta events).
Definition set_kqueues : gmap oid kqueue_t -> kobjs -> kobjs := ltac:(field_setter kobjs_eta kqueues).
Definition set_bufqs : gmap oid kbuf_queue_t -> kobjs -> kobjs := ltac:(field_setter kobjs_eta bufqs).

(** ** Global state (k_internal.h) *)

Abbreviation lmem := (links knode).

(** [runqueue_t] (k_sched.h); the head of a ready list is a task's own node. *)
Record runqueue_t := mkRq {
  cur_list_item : list (option knode);
  task_bit_map : list Z;
  highest_pri : Z;
}.

(** Scalars of k_internal.h for the single CPU of this port, and the two
    pieces of processor state the port code works on: PRIMASK and the
    PendSV pending bit of ICSR. *)
Record kglob := mkG {
  g_sys_stat : kstat_t;
  g_idle_task_spawned : Z;
  g_sched_lock : Z;
  g_intrpt_nested_level : Z;
  g_preferred_ready_task : option tid;
  g_active_task : option tid;
  g_tick_count : Z;
  primask : bool;
  pendsv : bool;
}.

Definition kglob_eta (x : kglob) : kglob :=
  mkG (g_sys_stat x) (g_idle_task_spawned x) (g_sched_lock x)
    (g_intrpt_nested_level x) (g_preferred_ready_task x) (g_active_task x)
    (g_tick_count x) (primask x) (pendsv x).

Definition set_g_sys_stat : kstat_t -> kglob -> kglob := ltac:(field_setter kglob_eta g_sys_stat).
Definition set_g_idle_task_spawned : Z -> kglob -> kglob := ltac:(field_setter kglob_eta g_idle_task_spawned).
Definition set_g_sched_lock : Z -> kglob -> kglob := ltac:(field_setter kglob_eta g_sched_lock).
Definition set_g_intrpt_nested_level : Z -> kglob -> kglob := ltac:(field_setter kglob_eta g_intrpt_nested_level).
Definition set_g_preferred_ready_task : option tid -> kglob -> kglob := ltac:(field_setter kglob_eta g_preferred_ready_task).
Definition set_g_active_task : option tid -> kglob -> kglob := ltac:(field_setter kglob_eta g_active_task).
Definition set_g_tick_count : Z -> kglob -> kglob := ltac:(field_setter kglob_eta g_tick_count).
Definition set_primask : bool -> kglob -> kglob := ltac:(field_setter kglob_eta primask).
Definition set_pendsv : bool -> kglob -> kglob := ltac:(field_setter kglob_eta pendsv).

(** The whole kernel state. [umem] holds the caller's variables that the
    kernel writes later through a saved pointer. *)
Record kstate := mkK {
  lm : lmem;
  rq : runqueue_t;
  tcbs : gmap tid ktask_t;
  gl : kglob;
  ob : kobjs;
  umem : gmap nat Z;
}.

Definition with_lm (l : lmem) (s : kstate) : kstate :=
  mkK l (rq s) (tcbs s) (gl s) (ob s) (umem s).

#[export] Instance kstate_links : HasLinks kstate knode :=
  mkHasLinks kstate knode _ _ lm with_lm (fun _ _ => eq_refl) (fun _ _ _ => eq_refl).

(** The monad of the kernel. *)
Abbreviation M := (st kstate).

(** Result of a call that may give up the processor: either it returned, or
    it switched context and [k] is the code that runs when the calling task
    is scheduled again. *)
Inductive callres (A : Type) :=
  | Returned (a : A)
  | Switched (k : M A).
Arguments Returned {A} a.
Arguments Switched {A} k.

(** ** Primitive accesses *)

Definition set_lm (l : lmem) : M unit :=
  fun s => Some (tt, mkK l (rq s) (tcbs s) (gl s) (ob s) (umem s)).
Definition set_rq (q : runqueue_t) : M unit :=
  fun s => Some (tt, mkK (lm s) q (tcbs s) (gl s) (ob s) (umem s)).
Definition set_tcbs (tc : gmap tid ktask_t) : M unit :=
  fun s => Some (tt, mkK (lm s) (rq s) tc (gl s) (ob s) (umem s)).
Definition mod_gl (f : kglob -> kglob) : M unit :=
  fun s => Some (tt, mkK (lm s) (rq s) (tcbs s) (f (gl s)) (ob s) (umem s)).
Definition mod_ob (f : kobjs -> kobjs) : M unit :=
  fun s => Some (tt, mkK (lm s) (rq s) (tcbs s) (gl s) (f (ob s)) (umem s)).
Definition set_umem (u : gmap nat Z) : M unit :=
  fun s => Some (tt, mkK (lm s) (rq s) (tcbs s) (gl s) (ob s) u).

(** [task->field] and [task->field = v]. *)
Definition task_get (t : tid) : M ktask_t :=
  tc <- gets tcbs ;; lift (tc !! t).
Definition task_upd (t : tid) (f : ktask_t -> ktask_t) : M unit :=
  tc <- gets tcbs ;; x <- lift (tc !! t) ;; set_tcbs (<[t := f x]> tc).

(** [g_active_task[cpu_cur_get()]]; following it while it is NULL faults. *)
Definition active_get : M tid :=
  g <- gets gl ;; lift (g_active_task g).

Definition blk_get (o : oid) : M blk_obj_t := x <- gets ob ;; lift (blks x !! o).
Definition blk_put (o : oid) (b : blk_obj_t) : M unit :=
  mod_ob (fun x => set_blks (<[o := b]> (blks x)) x).
Definition sem_get (o : oid) : M ksem_t := x <- gets ob ;; lift (sems x !! o).
Definition sem_put (o : oid) (v : ksem_t) : M unit :=
  mod_ob (fun x => set_sems (<[o := v]> (sems x)) x).
Definition mutex_get (o : oid) : M kmutex_t := x <- gets ob ;; lift (mutexes x !! o).
Definition mutex_put (o : oid) (v : kmutex_t) : M unit :=
  mod_ob (fun x => set_mutexes (<[o := v]> (mutexes x)) x).
Definition event_get (o : oid) : M kevent_t := x <- gets ob ;; lift (events x !! o).
Definition event_put (o : oid) (v : kevent_t) : M unit :=
  mod_ob (fun x => set_events (<[o := v]> (events x)) x).
Definition queue_get (o : oid) : M kqueue_t := x <- gets ob ;; lift (kqueues x !! o).
Definition queue_put (o : oid) (v : kqueue_t) : M unit :=
  mod_ob (fun x => set_kqueues (<[o := v]> (kqueues x)) x).
Definition bufq_get (o : oid) : M kbuf_queue_t := x <- gets ob ;; lift (bufqs x !! o).
Definition bufq_put (o : oid) (v : kbuf_queue_t) : M unit :=
  mod_ob (fun x => set_bufqs (<[o := v]> (bufqs x)) x).

(** The caller's memory: a variable is one cell, a byte buffer a run of
    cells.  [cells_read] gives the mapped cells from [a] on, at most [n]. *)
Definition umem_put (a : nat) (v : Z) : M unit := um <- gets umem ;; set_umem (<[a := v]> um).

Fixpoint cells_write (um : gmap nat Z) (a : nat) (bs : list Z) : gmap nat Z :=
  match bs with [] => um | b :: r => cells_write (<[a := b]> um) (S a) r end.

Fixpoint cells_read (um : gmap nat Z) (a n : nat) : list Z :=
  match n with
  | O => []
  | S k => match um !! a with Some b => b :: cells_read um (S a) k | None => [] end
  end.

Definition umem_copy (a : nat) (bs : list Z) : M unit := um <- gets umem ;; set_umem (cells_write um a bs).

(** The error handler of the build, [soc_err_proc] (driver/yoc_impl.c), prints
    the code and then loops forever; [k_err_proc] (k_err.c) calls it. *)
Definition soc_err_proc (e : kstat_t) : M unit := hang.
Definition k_err_proc (e : kstat_t) : M unit := soc_err_proc e.

(** ** Processor port (port.h, arch/arm/cm0/tspend/port_s.S)

    [PendSV_Handler] makes the preferred task the active one.  It has the
    lowest exception priority: it runs when it is pending, PRIMASK is clear
    and no interrupt handler is active. *)
Definition PendSV_Handler : M unit :=
  mod_gl (fun g => set_pendsv false (set_g_active_task (g_preferred_ready_task g) g)).

Definition pendsv_taken (g : kglob) : bool :=
  pendsv g && negb (primask g) && (g_intrpt_nested_level g =? 0).

Definition cpu_intrpt_save : M bool :=
  g <- gets gl ;; mod_gl (set_primask true) ;; ret (primask g).

Definition cpu_intrpt_restore (psr : bool) : M unit :=
  mod_gl (set_primask psr) ;;
  g <- gets gl ;;
  when (pendsv_taken g) PendSV_Handler.

(** Both request a context switch through ICSR. *)
Definition cpu_task_switch : M unit := mod_gl (set_pendsv true).
Definition cpu_intrpt_switch : M unit := mod_gl (set_pendsv true).

(** RHINO_CRITICAL_ENTER/EXIT (k_critical.h, statistics disabled). *)
Definition critical_enter : M bool := cpu_intrpt_save.
Definition critical_exit (psr : bool) : M unit := cpu_intrpt_restore psr.

(** ** Symbolic execution of kernel code *)
Lemma wp_put_links (l : lmem) (Q : unit -> kstate -> Prop) s :
  Q tt (mkK l (rq s) (tcbs s) (gl s) (ob s) (umem s)) -> wp (put_links l) Q s.
Proof. done. Qed.

Ltac wstep :=
  lazymatch goal with
  | |- wp (set_lm _) _ _ => red; cbn [set_lm]
  | |- wp (put_links _) _ _ => apply wp_put_links
  | |- wp (set_rq _) _ _ => red; cbn [set_rq]
  | |- wp (set_tcbs _) _ _ => red; cbn [set_tcbs]
  | |- wp (mod_gl _) _ _ => red; cbn [mod_gl]
  | |- wp (mod_ob _) _ _ => red; cbn [mod_ob]
  | |- wp (set_umem _) _ _ => red; cbn [set_umem]
  | |- _ => mstep
  end.
Ltac wsteps := repeat (wstep; cbn [links_of kstate_links lm rq tcbs gl ob umem]).

(** * The lists of the kernel

    The list operations on the kernel state: the link memory is [lm], the
    nodes are those of tasks and objects. *)

(** [krhino_list_entry(node, ktask_t, task_list)] and
    [krhino_list_entry(node, ktask_t, tick_list)]: the address of a list
    head is not inside a task. *)
Definition task_of (n : knode) : M tid :=
  match n with NTask t => ret t | _ => fault end.
Definition tick_task_of (n : knode) : M tid :=
  match n with NTick t => ret t | _ => fault end.
