(* ===== verification/Bitmap.v ===== *)
(** * Priority bitmaps (k_bitmap.h, k_ffs.c)

    A bitmap is an array of 32-bit words; bit [nr] is bit [31 - nr mod 32] of
    word [nr / 32], so that the first set bit is found by counting leading
    zeros.  The main results say what [krhino_find_first_bit] returns: the
    least set bit number of the array. *)

From S2P Require Import Prelude.

(** ** Operations *)

Definition BITMAP_UNIT_SIZE : Z := 32.
Definition BITMAP_MASK (nr : Z) : Z :=
  u32 (Z.shiftl 1 (BITMAP_UNIT_SIZE - 1 - Z.land nr 31)).
Definition BITMAP_WORD (nr : Z) : Z := Z.shiftr nr 5.

Definition krhino_bitmap_set (bitmap : list Z) (nr : Z) : option (list Z) :=
  w ← bitmap !! Z.to_nat (BITMAP_WORD nr);
  Some (<[Z.to_nat (BITMAP_WORD nr) := Z.lor w (BITMAP_MASK nr)]> bitmap).

Definition krhino_bitmap_clear (bitmap : list Z) (nr : Z) : option (list Z) :=
  w ← bitmap !! Z.to_nat (BITMAP_WORD nr);
  Some (<[Z.to_nat (BITMAP_WORD nr) := Z.land w (u32 (Z.lnot (BITMAP_MASK nr)))]> bitmap).

(** The loop over zero words; running off the array is a fault. *)
Fixpoint skip_zero_words (bitmap : list Z) (nr : Z) : option (Z * Z) :=
  match bitmap with
  | [] => None
  | w :: rest => if w =? 0 then skip_zero_words rest (nr + BITMAP_UNIT_SIZE)
                 else Some (w, nr)
  end.

(** One [if (!(tmp & mask)) { tmp <<= k; nr += k; }]. *)
Definition ffb_step (mask k : Z) (p : Z * Z) : Z * Z :=
  let '(tmp, nr) := p in
  if Z.land tmp mask =? 0 then (u32 (Z.shiftl tmp k), nr + k) else (tmp, nr).

(** RHINO_CONFIG_LITTLE_ENDIAN is 1 and RHINO_CONFIG_BITMAP_HW is 0. *)
Definition krhino_find_first_bit (bitmap : list Z) : option Z :=
  p ← skip_zero_words bitmap 0;
  let p := ffb_step 0xFFFF0000 16 p in
  let p := ffb_step 0xFF000000 8 p in
  let p := ffb_step 0xF0000000 4 p in
  let '(tmp, nr) := ffb_step 0xC0000000 2 p in
  Some (if Z.land tmp 0x80000000 =? 0 then nr + 1 else nr).

(** k_ffs.c *)
Definition ffs32_msb (bitmap : Z) : option Z :=
  if bitmap =? 0 then Some 0
  else n ← krhino_find_first_bit [bitmap]; Some (32 - n).

Definition ffs32_lsb (bitmap : Z) : option Z :=
  if bitmap =? 0 then Some 0
  else
    let x := Z.land bitmap (u32 (- bitmap)) in
    lsbit ← krhino_find_first_bit [x]; Some (32 - lsbit).

(** ** Meaning of a bitmap *)

Definition word_ok (w : Z) : Prop := 0 <= w < 2 ^ 32.

(** Bit number [nr] of the array. *)
Definition bitmap_bit (bitmap : list Z) (nr : Z) : bool :=
  match bitmap !! Z.to_nat (nr / 32) with
  | Some w => Z.testbit w (31 - nr mod 32)
  | None => false
  end.

(** ** Words *)

Lemma land_mask_zero w j :
  0 <= j <= 32 -> word_ok w ->
  Z.land w (Z.shiftl (Z.ones (32 - j)) j) = 0 <-> w < 2 ^ j.
Proof.
  intros Hj [Hw0 Hw1].
  assert (Z.land w (Z.shiftl (Z.ones (32 - j)) j) = w / 2 ^ j * 2 ^ j) as ->.
  { rewrite <- Z.shiftr_div_pow2, <- Z.shiftl_mul_pow2 by lia.
    apply Z.bits_inj'. intros i Hi.
    rewrite Z.land_spec, !Z.shiftl_spec, Z.testbit_ones by lia.
    destruct (Z.leb_spec 0 (i - j)); simpl.
    - rewrite Z.shiftr_spec, Z.sub_add by lia.
      destruct (Z.ltb_spec (i - j) (32 - j)); [by rewrite andb_true_r|].
      rewrite andb_false_r. symmetry. destruct (decide (w = 0)) as [->|]; [apply Z.testbit_0_l|].
      apply Z.bits_above_log2; [lia|]. apply Z.log2_lt_pow2; [lia|].
      eapply Z.lt_le_trans; [done|]. apply Z.pow_le_mono_r; lia.
    - rewrite andb_false_r. symmetry. by apply Z.testbit_neg_r. }
  pose proof (Z.pow_pos_nonneg 2 j). split.
  - intros H0. destruct (Z.eq_mul_0 (w / 2 ^ j) (2 ^ j)) as [H1 _].
    destruct (H1 H0) as [Hd|]; [|lia]. apply Z.div_small_iff in Hd; lia.
  - intros. rewrite Z.div_small by lia. lia.
Qed.

Lemma land_high_zero w mask j :
  0 <= j <= 32 -> word_ok w -> mask = Z.shiftl (Z.ones (32 - j)) j ->
  (Z.land w mask =? 0) = (w <? 2 ^ j).
Proof.
  intros ? ? ->. destruct (Z.ltb_spec w (2 ^ j)).
  - apply Z.eqb_eq. by apply land_mask_zero.
  - apply Z.eqb_neq. rewrite land_mask_zero by done. lia.
Qed.

(** A step keeps [nr + (31 - log2 tmp)] and brings [tmp] above [2^(32-k)]. *)
Lemma ffb_step_spec mask k j tmp nr tmp' nr' :
  0 < k -> 0 <= j -> j + k = 32 ->
  mask = Z.shiftl (Z.ones k) j ->
  word_ok tmp -> 2 ^ (32 - 2 * k) <= tmp -> 2 * k <= 32 ->
  ffb_step mask k (tmp, nr) = (tmp', nr') ->
  word_ok tmp' /\ 2 ^ j <= tmp' /\ nr' - Z.log2 tmp' = nr - Z.log2 tmp.
Proof.
  intros Hk Hj Hjk -> Hw Hlo H2k. unfold ffb_step.
  rewrite (land_high_zero _ _ j); [|lia|done|by replace (32 - j) with k by lia].
  pose proof (Z.pow_pos_nonneg 2 (32 - 2 * k)).
  destruct (Z.ltb_spec tmp (2 ^ j)) as [Hlt|Hge]; intros [= <- <-]; [|by split_and!].
  assert (Hs : Z.shiftl tmp k = tmp * 2 ^ k) by (apply Z.shiftl_mul_pow2; lia).
  assert (E32 : 2 ^ 32 = 2 ^ j * 2 ^ k) by (rewrite <- Z.pow_add_r by lia; f_equal; lia).
  assert (Ej : 2 ^ j = 2 ^ (32 - 2 * k) * 2 ^ k) by (rewrite <- Z.pow_add_r by lia; f_equal; lia).
  pose proof (Z.pow_pos_nonneg 2 k).
  rewrite Hs, wrap_small by (split; [|rewrite E32]; nia).
  split_and!.
  - split; [|rewrite E32]; nia.
  - rewrite Ej. nia.
  - rewrite Z.log2_mul_pow2 by lia. lia.
Qed.

Lemma skip_zero_words_spec bm nr w nr' :
  skip_zero_words bm nr = Some (w, nr') ->
  exists k, nr' = nr + 32 * Z.of_nat k /\ bm !! k = Some w /\ w <> 0 /\
    forall j, (j < k)%nat -> bm !! j = Some 0.
Proof.
  revert nr. induction bm as [|x bm IH]; intros nr; simpl; [done|].
  destruct (Z.eqb_spec x 0) as [->|Hx].
  - intros (k & -> & Hk & Hw & Hj)%IH. exists (S k). unfold BITMAP_UNIT_SIZE.
    split_and!; [lia|done|done|]. intros [|j] ?; simpl; [done|]. apply Hj. lia.
  - intros [= -> ->]. exists 0%nat. split_and!; [lia|done|done|lia].
Qed.

Lemma skip_zero_words_total bm nr :
  (exists w, w ∈ bm /\ w <> 0) -> is_Some (skip_zero_words bm nr).
Proof.
  revert nr. induction bm as [|x bm IH]; intros nr (w & Hw & Hn); simpl; [set_solver|].
  destruct (Z.eqb_spec x 0) as [->|]; [|by eexists].
  apply IH. exists w. split; [|done]. set_solver.
Qed.

Lemma find_first_bit_run bm w nr :
  skip_zero_words bm 0 = Some (w, nr) -> word_ok w -> w <> 0 ->
  krhino_find_first_bit bm = Some (nr + (31 - Z.log2 w)).
Proof.
  intros Hs Hw Hn0. unfold krhino_find_first_bit. rewrite Hs. unfold mbind, option_bind. cbv zeta beta iota.
  destruct (ffb_step 0xFFFF0000 16 (w, nr)) as [t1 n1] eqn:E1.
  apply (ffb_step_spec _ _ 16) in E1 as (W1 & L1 & D1); [|first [lia|done|unfold word_ok in *; lia]..].
  destruct (ffb_step 0xFF000000 8 (t1, n1)) as [t2 n2] eqn:E2.
  apply (ffb_step_spec _ _ 24) in E2 as (W2 & L2 & D2); [|first [lia|done]..].
  destruct (ffb_step 0xF0000000 4 (t2, n2)) as [t3 n3] eqn:E3.
  apply (ffb_step_spec _ _ 28) in E3 as (W3 & L3 & D3); [|first [lia|done]..].
  destruct (ffb_step 0xC0000000 2 (t3, n3)) as [t4 n4] eqn:E4.
  apply (ffb_step_spec _ _ 30) in E4 as (W4 & L4 & D4); [|first [lia|done]..].
  cbv iota beta. rewrite (land_high_zero t4 _ 31) by done. f_equal. destruct W4.
  destruct (Z.ltb_spec t4 (2 ^ 31)).
  - assert (Z.log2 t4 = 30) by (apply Z.log2_unique; lia). lia.
  - assert (Z.log2 t4 = 31) by (apply Z.log2_unique; lia). lia.
Qed.

(** The bit of a word, counted from the most significant one. *)
Lemma word_first_bit w :
  word_ok w -> w <> 0 ->
  Z.testbit w (31 - (31 - Z.log2 w)) = true /\ 0 <= 31 - Z.log2 w < 32 /\
  forall m, 0 <= m < 31 - Z.log2 w -> Z.testbit w (31 - m) = false.
Proof.
  intros [Hw0 Hw1] Hn. assert (Hl : Z.log2 w < 32) by (apply Z.log2_lt_pow2; lia).
  pose proof (Z.log2_nonneg w). split_and!; [|lia|lia|].
  - replace (31 - (31 - Z.log2 w)) with (Z.log2 w) by lia. apply Z.bit_log2. lia.
  - intros m Hm. apply Z.bits_above_log2; lia.
Qed.

(** The first set bit: it is set, it is in the array, every smaller one is
    clear. *)
Definition first_bit (bm : list Z) (n : Z) : Prop :=
  0 <= n < 32 * Z.of_nat (length bm) /\ bitmap_bit bm n = true /\
  forall m, 0 <= m < n -> bitmap_bit bm m = false.

Lemma div_mod_word k r : 0 <= r < 32 -> (32 * k + r) / 32 = k /\ (32 * k + r) mod 32 = r.
Proof. intros. split; [symmetry; eapply Z.div_unique|symmetry; eapply Z.mod_unique]; eauto. Qed.

Lemma find_first_bit_first bm :
  Forall word_ok bm -> (exists w, w ∈ bm /\ w <> 0) ->
  exists n, krhino_find_first_bit bm = Some n /\ first_bit bm n.
Proof.
  intros Hok Hex. destruct (skip_zero_words_total bm 0 Hex) as [[w nr] Hs].
  pose proof (skip_zero_words_spec _ _ _ _ Hs) as (k & -> & Hk & Hw & Hz).
  assert (Hwok : word_ok w) by (eapply Forall_lookup_1; eauto).
  destruct (word_first_bit w Hwok Hw) as (Hb & Hr & Hm).
  exists (0 + 32 * Z.of_nat k + (31 - Z.log2 w)).
  split; [by apply find_first_bit_run|]. rewrite Z.add_0_l.
  pose proof (lookup_lt_Some _ _ _ Hk).
  destruct (div_mod_word (Z.of_nat k) (31 - Z.log2 w) Hr) as [E1 E2].
  split_and!; [lia|lia| |].
  - unfold bitmap_bit. by rewrite E1, E2, Nat2Z.id, Hk.
  - intros m Hm'. unfold bitmap_bit.
    pose proof (Z.div_mod m 32 ltac:(lia)) as Dm.
    pose proof (Z.mod_pos_bound m 32 ltac:(lia)).
    destruct (decide (m / 32 = Z.of_nat k)) as [Hq|Hne].
    + rewrite Hq, Nat2Z.id, Hk. apply Hm. lia.
    + rewrite (Hz (Z.to_nat (m / 32))); [apply Z.testbit_0_l|].
      assert (0 <= m / 32) by (apply Z.div_pos; lia). lia.
Qed.

Lemma first_bit_unique bm n n' : first_bit bm n -> first_bit bm n' -> n = n'.
Proof.
  intros (? & B & L) (? & B' & L'). destruct (Z.lt_trichotomy n n') as [?|[?|?]]; [|done|].
  - rewrite L' in B by lia. done.
  - rewrite L in B' by lia. done.
Qed.

(** A set bit makes some word non-zero. *)
Lemma bitmap_bit_nonzero bm m : bitmap_bit bm m = true -> exists w, w ∈ bm /\ w <> 0.
Proof.
  unfold bitmap_bit. destruct (bm !! _) as [w|] eqn:E; [|done]. intros Hb. exists w.
  split; [by eapply list_elem_of_lookup_2|]. intros ->. by rewrite Z.testbit_0_l in Hb.
Qed.

(** ** Setting and clearing *)

Lemma BITMAP_MASK_pow nr : 0 <= nr -> BITMAP_MASK nr = 2 ^ (31 - nr mod 32).
Proof.
  intros. unfold BITMAP_MASK, BITMAP_UNIT_SIZE.
  assert (Z.land nr 31 = nr mod 32) as -> by exact (Z.land_ones nr 5 ltac:(lia)).
  pose proof (Z.mod_pos_bound nr 32 ltac:(lia)).
  rewrite Z.shiftl_1_l. replace (32 - 1 - nr mod 32) with (31 - nr mod 32) by lia.
  apply wrap_small. split; [apply Z.pow_nonneg; lia|]. apply Z.pow_lt_mono_r; lia.
Qed.

Lemma BITMAP_WORD_div nr : BITMAP_WORD nr = nr / 32.
Proof. unfold BITMAP_WORD. by rewrite Z.shiftr_div_pow2 by lia. Qed.

Lemma bitmap_bit_update bm nr m w' :
  0 <= nr < 32 * Z.of_nat (length bm) -> 0 <= m ->
  bitmap_bit (<[Z.to_nat (nr / 32) := w']> bm) m =
  if decide (m / 32 = nr / 32) then Z.testbit w' (31 - m mod 32) else bitmap_bit bm m.
Proof.
  intros Hnr Hm. unfold bitmap_bit.
  assert (0 <= nr / 32 < Z.of_nat (length bm)).
  { split; [apply Z.div_pos; lia|]. apply Z.div_lt_upper_bound; lia. }
  assert (0 <= m / 32) by (apply Z.div_pos; lia). case_decide as Hd.
  - rewrite Hd, list_lookup_insert_eq by lia. done.
  - rewrite list_lookup_insert_ne by lia. done.
Qed.

Lemma same_bit_iff m nr : 0 <= m -> 0 <= nr -> m / 32 = nr / 32 -> (31 - m mod 32 = 31 - nr mod 32 <-> m = nr).
Proof.
  intros ?? Hd. pose proof (Z.div_mod m 32 ltac:(lia)). pose proof (Z.div_mod nr 32 ltac:(lia)).
  rewrite Hd in *. lia.
Qed.

Lemma bitmap_word_lookup (bm : list Z) nr :
  0 <= nr < 32 * Z.of_nat (length bm) -> exists w, bm !! Z.to_nat (nr / 32) = Some w.
Proof.
  intros. apply lookup_lt_is_Some. assert (nr / 32 < Z.of_nat (length bm)) by (apply Z.div_lt_upper_bound; lia).
  assert (0 <= nr / 32) by (apply Z.div_pos; lia). lia.
Qed.

Lemma bitmap_set_spec bm nr :
  Forall word_ok bm -> 0 <= nr < 32 * Z.of_nat (length bm) ->
  exists bm', krhino_bitmap_set bm nr = Some bm' /\ length bm' = length bm /\
    Forall word_ok bm' /\
    forall m, 0 <= m -> bitmap_bit bm' m = bool_decide (m = nr) || bitmap_bit bm m.
Proof.
  intros Hok Hnr. destruct (bitmap_word_lookup bm nr Hnr) as [w Hw].
  unfold krhino_bitmap_set. rewrite BITMAP_WORD_div, Hw. simpl.
  rewrite BITMAP_MASK_pow by lia. pose proof (Z.mod_pos_bound nr 32 ltac:(lia)).
  eexists. split; [done|]. split_and!.
  - apply length_insert.
  - apply Forall_insert; [done|]. assert (word_ok w) as [] by (eapply Forall_lookup_1; eauto).
    split; [apply Z.lor_nonneg; split; [lia|apply Z.pow_nonneg; lia]|].
    destruct (decide (w = 0)) as [->|].
    + rewrite Z.lor_0_l. apply Z.pow_lt_mono_r; lia.
    + pose proof (Z.pow_pos_nonneg 2 (31 - nr mod 32)).
      apply Z.log2_lt_cancel. rewrite Z.log2_lor, !Z.log2_pow2 by lia.
      apply Z.max_lub_lt; [apply Z.log2_lt_pow2; lia|lia].
  - intros m Hm. rewrite bitmap_bit_update by done. case_decide as Hd.
    + rewrite Z.lor_spec, Z.pow2_bits_eqb by lia. unfold bitmap_bit at 1. rewrite Hd, Hw, orb_comm.
      f_equal. apply eq_bool_prop_intro. rewrite bool_decide_spec, Is_true_true, Z.eqb_eq.
      rewrite <- (same_bit_iff m nr) by lia. split; congruence.
    + by rewrite bool_decide_false by congruence.
Qed.

Lemma bitmap_clear_spec bm nr :
  Forall word_ok bm -> 0 <= nr < 32 * Z.of_nat (length bm) ->
  exists bm', krhino_bitmap_clear bm nr = Some bm' /\ length bm' = length bm /\
    Forall word_ok bm' /\
    forall m, 0 <= m -> bitmap_bit bm' m = negb (bool_decide (m = nr)) && bitmap_bit bm m.
Proof.
  intros Hok Hnr. destruct (bitmap_word_lookup bm nr Hnr) as [w Hw].
  unfold krhino_bitmap_clear. rewrite BITMAP_WORD_div, Hw. simpl.
  rewrite BITMAP_MASK_pow by lia. pose proof (Z.mod_pos_bound nr 32 ltac:(lia)).
  pose proof (wrap_range 32 (Z.lnot (2 ^ (31 - nr mod 32))) ltac:(lia)) as Hr.
  eexists. split; [done|]. split_and!.
  - apply length_insert.
  - apply Forall_insert; [done|]. assert (word_ok w) as [] by (eapply Forall_lookup_1; eauto).
    split; [apply Z.land_nonneg; lia|]. eapply Z.le_lt_trans; [apply Z_land_le_l; lia|lia].
  - intros m Hm. pose proof (Z.mod_pos_bound m 32 ltac:(lia)).
    rewrite bitmap_bit_update by done. case_decide as Hd.
    + rewrite Z.land_spec. unfold wrap. rewrite Z.mod_pow2_bits_low, Z.lnot_spec, Z.pow2_bits_eqb by lia.
      unfold bitmap_bit at 1. rewrite Hd, Hw, andb_comm. do 2 f_equal.
      apply eq_bool_prop_intro. rewrite bool_decide_spec, Is_true_true, Z.eqb_eq.
      rewrite <- (same_bit_iff m nr) by lia. split; congruence.
    + by rewrite bool_decide_false by congruence.
Qed.

(** ** First and last set bit of a word (k_ffs.c) *)

(** Bit [k] of [w] is set and no bit below it is. *)
Definition low_bit (w k : Z) : Prop := 0 <= k /\ Z.testbit w k = true /\ forall j, 0 <= j < k -> Z.testbit w j = false.

Lemma odd_part w : 0 < w -> exists k m, 0 <= k /\ 0 <= m /\ w = 2 ^ k * (2 * m + 1).
Proof.
  destruct w as [|p|p]; [lia| |lia]. intros _. induction p as [p IH|p IH|].
  - exists 0, (Z.pos p). lia.
  - destruct IH as (k & m & Hk & Hm & E). exists (k + 1), m. split_and!; [lia..|].
    rewrite Z.pow_add_r, (Pos2Z.inj_xO p), E by lia. lia.
  - exists 0, 0. lia.
Qed.

Lemma low_bit_odd_part k m : 0 <= k -> 0 <= m -> low_bit (2 ^ k * (2 * m + 1)) k.
Proof.
  intros Hk Hm. rewrite Z.mul_comm, <- Z.shiftl_mul_pow2 by done. split_and!; [done| |].
  - rewrite Z.shiftl_spec, Z.sub_diag by done. apply Z.testbit_odd_0.
  - intros j Hj. rewrite Z.shiftl_spec by lia. apply Z.testbit_neg_r. lia.
Qed.

Lemma land_neg w : 0 < w < 2 ^ 32 -> exists k, low_bit w k /\ k < 32 /\ Z.land w (u32 (- w)) = 2 ^ k.
Proof.
  intros Hw. destruct (odd_part w ltac:(lia)) as (k & m & Hk & Hm & E). exists k.
  assert (Hk32 : 2 ^ k < 2 ^ 32) by nia. apply Z.pow_lt_mono_r_iff in Hk32; [|lia..].
  split_and!; [rewrite E; by apply low_bit_odd_part|done|].
  unfold wrap. rewrite <- Z.land_ones by lia. rewrite Z.land_assoc, <- (Z.land_comm (Z.ones 32)), Z.land_assoc.
  rewrite (Z.land_comm (Z.ones 32)), Z.land_ones, (Z.mod_small w) by lia. clear Hw.
  replace (- w) with (2 ^ k * (2 * Z.lnot m + 1)) by (rewrite E; unfold Z.lnot; lia). rewrite E.
  rewrite !(Z.mul_comm (2 ^ k)), <- !Z.shiftl_mul_pow2, <- Z.shiftl_land by done.
  assert (Z.land (2 * m + 1) (2 * Z.lnot m + 1) = 1) as ->; [|by rewrite Z.shiftl_1_l].
  apply Z.bits_inj'. intros i Hi. rewrite Z.land_spec. destruct (Z.eq_dec i 0) as [->|Hi0].
  - by rewrite !Z.testbit_odd_0.
  - replace i with (Z.succ (i - 1)) by lia. rewrite !Z.testbit_odd_succ by lia.
    rewrite Z.lnot_spec by lia. rewrite andb_negb_r. symmetry. apply (Z.bits_above_log2 1); simpl; lia.
Qed.

Lemma ffs32_msb_spec w : 0 < w < 2 ^ 32 -> ffs32_msb w = Some (Z.log2 w + 1).
Proof.
  intros Hw. unfold ffs32_msb. rewrite (proj2 (Z.eqb_neq w 0)) by lia.
  rewrite (find_first_bit_run [w] w 0); [simpl; f_equal; lia| |unfold word_ok; lia|lia].
  simpl. by rewrite (proj2 (Z.eqb_neq w 0)) by lia.
Qed.

Lemma ffs32_lsb_spec w : 0 < w < 2 ^ 32 -> exists k, low_bit w k /\ ffs32_lsb w = Some (k + 1).
Proof.
  intros Hw. destruct (land_neg w Hw) as (k & Hk & Hk32 & E). exists k. split; [done|].
  unfold ffs32_lsb. rewrite (proj2 (Z.eqb_neq w 0)) by lia. rewrite E. destruct Hk as [Hk0 _].
  pose proof (Z.pow_pos_nonneg 2 k ltac:(lia) Hk0). assert (2 ^ k < 2 ^ 32) by (apply Z.pow_lt_mono_r; lia).
  rewrite (find_first_bit_run [2 ^ k] (2 ^ k) 0); [simpl; f_equal; rewrite Z.log2_pow2 by done; lia| |unfold word_ok; lia|lia].
  simpl. by rewrite (proj2 (Z.eqb_neq (2 ^ k) 0)) by lia.
Qed.
