(* ===== verification/Sched.v ===== *)
(** * Scheduler (k_sched.c)

    The ready queue: one circular list per priority whose head
    [cur_list_item[p]] is the next task to run, a priority bitmap and the
    highest ready priority; scheduler locking, rescheduling and round-robin
    time slices.

    The queues of the kernel (ready lists, lists of blocked tasks, the tick
    list) are described by an abstract family [A : lid -> list tid]; [srep]
    relates it to link memory and the ready queue.  Every operation is proved
    to act on [A] as the list operation it stands for. *)

From stdpp Require Import functions.
From S2P Require Import Prelude.
From S2P Require Import Monad.
From S2P Require Import Links.
From S2P Require Import KState.
From S2P Require Import Bitmap.

(** ** Operations *)

Definition krhino_sched_disable : M kstat_t :=
  psr <- critical_enter ;;
  g <- gets gl ;;
  if 0 <? g_intrpt_nested_level g then
    critical_exit psr ;; ret RHINO_NOT_CALLED_BY_INTRPT
  else if SCHED_MAX_LOCK_COUNT <=? g_sched_lock g then
    critical_exit psr ;; ret RHINO_SCHED_LOCK_COUNT_OVF
  else
    mod_gl (fun g => set_g_sched_lock (u8 (g_sched_lock g + 1)) g) ;;
    critical_exit psr ;;
    ret RHINO_SUCCESS.

Definition get_cur (pri : Z) : M (option knode) :=
  q <- gets rq ;; lift (cur_list_item q !! Z.to_nat pri).
Definition put_cur (pri : Z) (v : option knode) : M unit :=
  q <- gets rq ;;
  lift (cur_list_item q !! Z.to_nat pri) ;;
  set_rq (mkRq (<[Z.to_nat pri := v]> (cur_list_item q)) (task_bit_map q) (highest_pri q)).
Definition put_bitmap (b : list Z) : M unit :=
  q <- gets rq ;; set_rq (mkRq (cur_list_item q) b (highest_pri q)).
Definition put_highest (p : Z) : M unit :=
  q <- gets rq ;; set_rq (mkRq (cur_list_item q) (task_bit_map q) p).

(** Single-CPU variant. *)
Definition preferred_cpu_ready_task_get : M unit :=
  q <- gets rq ;;
  node <- get_cur (highest_pri q) ;;
  n <- lift node ;;
  t <- task_of n ;;
  mod_gl (set_g_preferred_ready_task (Some t)).

Definition core_sched : M unit :=
  psr <- cpu_intrpt_save ;;
  g <- gets gl ;;
  if 0 <? g_intrpt_nested_level g then cpu_intrpt_restore psr
  else if 0 <? g_sched_lock g then cpu_intrpt_restore psr
  else
    preferred_cpu_ready_task_get ;;
    g' <- gets gl ;;
    if bool_decide (g_preferred_ready_task g' = g_active_task g') then
      cpu_intrpt_restore psr
    else
      cpu_task_switch ;;
      cpu_intrpt_restore psr.

(** RHINO_CRITICAL_EXIT_SCHED *)
Definition critical_exit_sched (psr : bool) : M unit :=
  critical_exit psr ;; core_sched.

Definition krhino_sched_enable : M kstat_t :=
  psr <- critical_enter ;;
  g <- gets gl ;;
  if 0 <? g_intrpt_nested_level g then
    critical_exit psr ;; ret RHINO_NOT_CALLED_BY_INTRPT
  else if g_sched_lock g =? 0 then
    critical_exit psr ;; ret RHINO_SCHED_ALREADY_ENABLED
  else
    mod_gl (fun g => set_g_sched_lock (u8 (g_sched_lock g - 1)) g) ;;
    g' <- gets gl ;;
    if 0 <? g_sched_lock g' then
      critical_exit psr ;; ret RHINO_SCHED_DISABLE
    else
      critical_exit_sched psr ;;
      ret RHINO_SUCCESS.

Definition runqueue_init : M unit :=
  q <- gets rq ;;
  set_rq (mkRq (replicate (Z.to_nat RHINO_CONFIG_PRI_MAX) None) (task_bit_map q) RHINO_CONFIG_PRI_MAX).

Definition ready_list_init (task : tid) : M unit :=
  x <- task_get task ;;
  put_cur (prio x) (Some (NTask task)) ;;
  klist_init (NTask task) ;;
  q <- gets rq ;;
  b <- lift (krhino_bitmap_set (task_bit_map q) (prio x)) ;;
  put_bitmap b ;;
  when (prio x <? highest_pri q) (put_highest (prio x)).

Definition is_ready_list_empty (pri : Z) : M bool :=
  c <- get_cur pri ;; ret (bool_decide (c = None)).

Definition ready_list_add_tail (task : tid) : M unit :=
  x <- task_get task ;;
  e <- is_ready_list_empty (prio x) ;;
  if e : bool then ready_list_init task
  else
    c <- get_cur (prio x) ;; n <- lift c ;;
    klist_insert n (NTask task).

Definition ready_list_add_head (task : tid) : M unit :=
  x <- task_get task ;;
  e <- is_ready_list_empty (prio x) ;;
  if e : bool then ready_list_init task
  else
    c <- get_cur (prio x) ;; n <- lift c ;;
    klist_insert n (NTask task) ;;
    put_cur (prio x) (Some (NTask task)).

Definition ready_list_add (task : tid) : M unit :=
  x <- task_get task ;;
  a <- active_get ;;
  y <- task_get a ;;
  if prio x =? prio y then ready_list_add_tail task else ready_list_add_head task.

Definition ready_list_rm (task : tid) : M unit :=
  x <- task_get task ;;
  let pri := prio x in
  c <- get_cur pri ;;
  n <- lift c ;;
  nx <- get_next n ;;
  if negb (bool_decide (n = nx)) then
    when (bool_decide (n = NTask task)) (put_cur pri (Some nx)) ;;
    klist_rm (NTask task)
  else
    put_cur pri None ;;
    q <- gets rq ;;
    b <- lift (krhino_bitmap_clear (task_bit_map q) pri) ;;
    put_bitmap b ;;
    if negb (pri =? highest_pri q) then ret tt
    else
      i <- lift (krhino_find_first_bit b) ;;
      if 0 <=? i then put_highest (u8 i) else k_err_proc RHINO_SYS_FATAL_ERR.

Definition ready_list_head_to_tail (task : tid) : M unit :=
  x <- task_get task ;;
  c <- get_cur (prio x) ;; n <- lift c ;;
  nx <- get_next n ;;
  put_cur (prio x) (Some nx).

(** RHINO_CONFIG_SCHED_RR is 1. *)
Definition time_slice_update : M unit :=
  psr <- critical_enter ;;
  a <- active_get ;;
  y <- task_get a ;;
  let task_pri := prio y in
  head <- get_cur task_pri ;;
  e <- is_ready_list_empty task_pri ;;
  if e : bool then critical_exit psr
  else
    n <- lift head ;;
    task <- task_of n ;;
    x <- task_get task ;;
    if sched_policy x =? KSCHED_FIFO then critical_exit psr
    else
      nx <- get_next n ;;
      if bool_decide (nx = n) then critical_exit psr
      else
        when (0 <? time_slice x) (task_upd task (fun v => set_time_slice (u32 (time_slice v - 1)) v)) ;;
        x' <- task_get task ;;
        if 0 <? time_slice x' then critical_exit psr
        else
          ready_list_head_to_tail task ;;
          task_upd task (fun v => set_time_slice (time_total v) v) ;;
          critical_exit psr.

(** ** Abstract queues *)

Inductive lid := LReady (p : Z) | LBlk (o : oid) | LTick.

#[export] Instance lid_eq_dec : EqDecision lid.
Proof. solve_decision. Defined.

Definition node_of (i : lid) (t : tid) : knode :=
  match i with LTick => NTick t | _ => NTask t end.

(** The sentinel node of a list; ready lists have none. *)
Definition hdr (bl : gmap oid blk_obj_t) (i : lid) : list knode :=
  match i with
  | LReady _ => []
  | LBlk o => match bl !! o with Some _ => [NBlk o] | None => [] end
  | LTick => [NTickHead]
  end.

Abbreviation queues := (lid -> list tid) (only parsing).

Definition nodes (bl : gmap oid blk_obj_t) (A : queues) (i : lid) : list knode :=
  hdr bl i ++ (node_of i <$> A i).

(** The list node of [t] used by list [i] is in no list. *)
Definition tfree (A : queues) (i : lid) (t : tid) : Prop :=
  forall j, node_of j t = node_of i t -> t ∉ A j.

(** [h] is the highest (numerically least) priority with a ready task. *)
Definition is_highest (A : queues) (h : Z) : Prop :=
  (forall p, 0 <= p < h -> A (LReady p) = []) /\
  (0 <= h < RHINO_CONFIG_PRI_MAX /\ A (LReady h) <> [] \/
   h = RHINO_CONFIG_PRI_MAX).

Record rq_rep (q : runqueue_t) (A : queues) : Prop := mkRqRep {
  rq_len : length (cur_list_item q) = Z.to_nat RHINO_CONFIG_PRI_MAX;
  rq_cur : forall p, 0 <= p < RHINO_CONFIG_PRI_MAX ->
    cur_list_item q !! Z.to_nat p = Some (NTask <$> head (A (LReady p)));
  rq_out : forall p, ~ (0 <= p < RHINO_CONFIG_PRI_MAX) -> A (LReady p) = [];
  rq_words : length (task_bit_map q) = 2%nat /\ Forall word_ok (task_bit_map q);
  rq_bits : forall p, 0 <= p ->
    bitmap_bit (task_bit_map q) p = bool_decide (A (LReady p) <> []);
  rq_high : is_highest A (highest_pri q);
}.

(** Link memory and ready queue represent the abstract queues. *)
Record srep (l : lmem) (q : runqueue_t) (bl : gmap oid blk_obj_t) (A : queues) : Prop := mkSrep {
  srep_rings : rings l (nodes bl A);
  srep_rq : rq_rep q A;
}.

(** ** Facts about the representation *)

Section Rep.
Implicit Types (A : queues) (bl : gmap oid blk_obj_t) (i : lid) (t : tid).

Lemma nodes_update bl A i ts j :
  nodes bl (<[i := ts]> A) j = (<[i := hdr bl i ++ (node_of i <$> ts)]> (nodes bl A)) j.
Proof.
  unfold nodes. destruct (decide (i = j)) as [<-|Hj].
  - by rewrite !fn_lookup_insert.
  - by rewrite !fn_lookup_insert_ne.
Qed.

Lemma rings_nodes_update l bl A i ts ns :
  rings l (<[i := ns]> (nodes bl A)) -> ns = hdr bl i ++ (node_of i <$> ts) ->
  rings l (nodes bl (<[i := ts]> A)).
Proof. intros HG ->. eapply rings_ext; [exact HG|]. intros j. apply nodes_update. Qed.

Lemma hdr_not_task bl i j t : node_of i t ∉ hdr bl j.
Proof.
  destruct j; simpl; [set_solver|destruct (bl !! o)|]; destruct i; set_solver.
Qed.

Lemma nodes_unlinked bl A i t : tfree A i t -> unlinked (nodes bl A) (node_of i t).
Proof.
  intros Hf j. unfold nodes. intros [Hh|Hn]%elem_of_app; [by eapply hdr_not_task|].
  apply list_elem_of_fmap in Hn as (t' & He & Ht').
  assert (t' = t) as -> by (destruct i, j; simpl in He; congruence).
  by apply (Hf j).
Qed.

(** Two lists that use the same node of a task are the same list. *)
Lemma nodes_disj l bl A i j t :
  rings l (nodes bl A) -> node_of i t = node_of j t -> t ∈ A i -> t ∈ A j -> i = j.
Proof.
  intros HG Hn Hi Hj. eapply (rings_disj _ _ HG _ _ (node_of i t)); unfold nodes;
    apply elem_of_app; right; [|rewrite Hn]; by apply list_elem_of_fmap_2.
Qed.

Lemma nodes_nodup l bl A i : rings l (nodes bl A) -> NoDup (A i).
Proof.
  intros HG. pose proof (rings_nodup _ _ HG i) as H. unfold nodes in H.
  apply NoDup_app in H as (_ & _ & H). by eapply NoDup_fmap_1.
Qed.

(** After removing [t] from its list, its node is free. *)
Lemma tfree_removed l bl A i a t b :
  rings l (nodes bl A) -> A i = a ++ t :: b -> tfree (<[i := a ++ b]> A) i t.
Proof.
  intros HG Hi j Hj. destruct (decide (i = j)) as [<-|Hne].
  - rewrite fn_lookup_insert. pose proof (nodes_nodup _ _ _ i HG) as Hnd. rewrite Hi in Hnd.
    apply NoDup_app in Hnd as (_ & Hd & Hnd). apply NoDup_cons in Hnd as [? _]. set_solver.
  - rewrite fn_lookup_insert_ne by done. intros Hin. apply Hne.
    eapply nodes_disj; eauto. rewrite Hi. set_solver.
Qed.

Lemma node_of_inj i t t' : node_of i t = node_of i t' -> t = t'.
Proof. destruct i; simpl; congruence. Qed.
End Rep.

(** Removing a task's node from whatever list [i] it is in. *)
Lemma wp_task_rm bl A i a t b (Q : unit -> kstate -> Prop) s :
  rings (lm s) (nodes bl A) -> A i = a ++ t :: b ->
  (forall l', rings l' (nodes bl (<[i := a ++ b]> A)) -> Q tt (with_lm l' s)) ->
  wp (klist_rm (node_of i t)) Q s.
Proof.
  intros HG Hi HQ.
  apply (wp_klist_rm (nodes bl A) i (hdr bl i ++ (node_of i <$> a)) _ (node_of i <$> b)); [done| |].
  - unfold nodes. rewrite Hi, fmap_app, <- app_assoc. done.
  - intros l' Hl'. apply HQ. eapply rings_nodes_update; [exact Hl'|].
    by rewrite fmap_app, <- app_assoc.
Qed.

(** Inserting a task's node before the node of the task that follows, or
    before the sentinel. *)
Lemma wp_task_insert bl A i h a t b (Q : unit -> kstate -> Prop) s :
  rings (lm s) (nodes bl A) -> hdr bl i = [h] -> A i = a ++ b -> tfree A i t ->
  (forall l', rings l' (nodes bl (<[i := a ++ t :: b]> A)) -> Q tt (with_lm l' s)) ->
  wp (klist_insert (hd h (node_of i <$> b)) (node_of i t)) Q s.
Proof.
  intros HG Hh Hi Hf HQ. pose proof (nodes_unlinked bl A i t Hf) as Hu.
  destruct b as [|y b]; simpl.
  - apply (wp_klist_insert (nodes bl A) i [] h (node_of i <$> a)); [done| |done|].
    + unfold nodes. by rewrite Hh, Hi, app_nil_r.
    + intros l' Hl'. apply HQ. eapply rings_nodes_update.
      * apply (rings_rotate _ _ i [node_of i t] (h :: (node_of i <$> a))) in Hl'.
        -- eapply rings_ext; [exact Hl'|]. intros j. symmetry.
           destruct (decide (i = j)) as [<-|]; [by rewrite !fn_lookup_insert|].
           by rewrite !fn_lookup_insert_ne.
        -- by rewrite fn_lookup_insert.
      * rewrite Hh, fmap_app. done.
  - apply (wp_klist_insert (nodes bl A) i (h :: (node_of i <$> a)) (node_of i y) (node_of i <$> b)); [done| |done|].
    + unfold nodes. by rewrite Hh, Hi, fmap_app.
    + intros l' Hl'. apply HQ. eapply rings_nodes_update; [exact Hl'|]. by rewrite Hh, fmap_app.
Qed.

Definition with_lq (l : lmem) (q : runqueue_t) (s : kstate) : kstate :=
  mkK l q (tcbs s) (gl s) (ob s) (umem s).

Lemma with_lq_id s : with_lq (lm s) (rq s) s = s.
Proof. by destruct s. Qed.

(** ** The ready queue under updates of one ready list *)

Section RqRep.
Implicit Types (A : queues) (q : runqueue_t) (p : Z) (t : tid).

Lemma is_highest_ext A A' h :
  (forall p, A' (LReady p) = [] <-> A (LReady p) = []) -> is_highest A h -> is_highest A' h.
Proof.
  intros He [Hlt Hh]. split.
  - intros p Hp. by apply He, Hlt.
  - destruct Hh as [[? Hn]|?]; [left|by right]. split; [done|]. by rewrite He.
Qed.

Lemma is_highest_unique A h h' :
  is_highest A h -> is_highest A h' -> h = h'.
Proof.
  intros [L1 H1] [L2 H2]. unfold RHINO_CONFIG_PRI_MAX in *.
  destruct (Z.lt_trichotomy h h') as [?|[?|?]]; [|done|].
  - destruct H1 as [[? N]|?]; [|lia]. destruct N. apply L2. lia.
  - destruct H2 as [[? N]|?]; [|lia]. destruct N. apply L1. lia.
Qed.

(** The list stays non-empty and its head is [v]. *)
Lemma rq_rep_nonempty q A p ts :
  rq_rep q A -> 0 <= p < RHINO_CONFIG_PRI_MAX -> A (LReady p) <> [] -> ts <> [] ->
  rq_rep (mkRq (<[Z.to_nat p := NTask <$> head ts]> (cur_list_item q)) (task_bit_map q) (highest_pri q))
    (<[LReady p := ts]> A).
Proof.
  intros [Hl Hc Ho Hw Hb Hh] Hp Hne Hts.
  assert (He : forall p', (<[LReady p := ts]> A) (LReady p') = [] <-> A (LReady p') = []).
  { intros p'. destruct (decide (p = p')) as [<-|Hn].
    - by rewrite fn_lookup_insert.
    - by rewrite fn_lookup_insert_ne by congruence. }
  split; simpl.
  - by rewrite length_insert.
  - intros p' Hp'. destruct (decide (p = p')) as [<-|Hn].
    + rewrite fn_lookup_insert, list_lookup_insert_eq; [done|]. rewrite Hl. lia.
    + rewrite fn_lookup_insert_ne by congruence. rewrite list_lookup_insert_ne by lia. by apply Hc.
  - intros p' Hp'. rewrite He. by apply Ho.
  - done.
  - intros p' Hp'. rewrite Hb by done. apply bool_decide_ext. by rewrite He.
  - by eapply is_highest_ext.
Qed.

Lemma rq_rep_same_head q A p ts :
  rq_rep q A -> 0 <= p < RHINO_CONFIG_PRI_MAX -> A (LReady p) <> [] ->
  ts <> [] -> head ts = head (A (LReady p)) -> rq_rep q (<[LReady p := ts]> A).
Proof.
  intros Hq Hp Hne Hts Hhd. pose proof (rq_rep_nonempty _ _ p ts Hq Hp Hne Hts) as H.
  rewrite Hhd, list_insert_id in H; [by destruct q|]. by apply Hq.
Qed.

Lemma rq_rep_first q A p t b :
  rq_rep q A -> 0 <= p < RHINO_CONFIG_PRI_MAX -> A (LReady p) = [] ->
  krhino_bitmap_set (task_bit_map q) p = Some b ->
  rq_rep (mkRq (<[Z.to_nat p := Some (NTask t)]> (cur_list_item q)) b
            (if p <? highest_pri q then p else highest_pri q))
    (<[LReady p := [t]]> A).
Proof.
  intros [Hl Hc Ho [Hw1 Hw2] Hb [Hlt Hh]] Hp Hemp Hset.
  destruct (bitmap_set_spec (task_bit_map q) p Hw2) as (b' & Hset' & Hlb & Hwb & Hbb).
  { unfold RHINO_CONFIG_PRI_MAX in Hp. rewrite Hw1. lia. }
  rewrite Hset in Hset'. injection Hset' as <-.
  split; simpl.
  - by rewrite length_insert.
  - intros p' Hp'. destruct (decide (p = p')) as [<-|Hn].
    + rewrite fn_lookup_insert, list_lookup_insert_eq; [done|]. rewrite Hl. lia.
    + rewrite fn_lookup_insert_ne by congruence. rewrite list_lookup_insert_ne by lia. by apply Hc.
  - intros p' Hp'. destruct (decide (p = p')) as [<-|Hn]; [lia|].
    rewrite fn_lookup_insert_ne by congruence. by apply Ho.
  - by rewrite Hlb.
  - intros p' Hp'. rewrite Hbb by done. destruct (decide (p = p')) as [<-|Hn].
    + rewrite fn_lookup_insert, !bool_decide_true by done. done.
    + rewrite fn_lookup_insert_ne, bool_decide_false by congruence. by apply Hb.
  - unfold is_highest. destruct (Z.ltb_spec p (highest_pri q)) as [Hph|Hph]; split.
    + intros p' Hp'. rewrite fn_lookup_insert_ne by (injection 1; lia). apply Hlt. lia.
    + left. by rewrite fn_lookup_insert.
    + intros p' Hp'. rewrite fn_lookup_insert_ne by (injection 1; lia). by apply Hlt.
    + destruct Hh as [[? Hn]|Hh]; [|unfold RHINO_CONFIG_PRI_MAX in *; lia]. left. split; [done|].
      destruct (decide (p = highest_pri q)) as [Heq|]; [by rewrite Heq, fn_lookup_insert|].
      by rewrite fn_lookup_insert_ne by congruence.
Qed.

(** Some other task stays ready. *)
Definition has_ready A : Prop := exists p, A (LReady p) <> [].

Lemma rq_rep_last q A p b :
  rq_rep q A -> 0 <= p < RHINO_CONFIG_PRI_MAX -> A (LReady p) <> [] ->
  has_ready (<[LReady p := []]> A) ->
  krhino_bitmap_clear (task_bit_map q) p = Some b ->
  (p <> highest_pri q ->
    rq_rep (mkRq (<[Z.to_nat p := None]> (cur_list_item q)) b (highest_pri q)) (<[LReady p := []]> A)) /\
  (p = highest_pri q -> exists i, krhino_find_first_bit b = Some i /\ 0 <= i < RHINO_CONFIG_PRI_MAX /\
    rq_rep (mkRq (<[Z.to_nat p := None]> (cur_list_item q)) b i) (<[LReady p := []]> A)).
Proof.
  intros [Hl Hc Ho [Hw1 Hw2] Hb [Hlt Hh]] Hp Hne [p0 Hp0] Hclr.
  destruct (bitmap_clear_spec (task_bit_map q) p Hw2) as (b' & Hclr' & Hlb & Hwb & Hbb).
  { unfold RHINO_CONFIG_PRI_MAX in Hp. rewrite Hw1. lia. }
  rewrite Hclr in Hclr'. injection Hclr' as <-.
  assert (Hout : forall p', ~ (0 <= p' < RHINO_CONFIG_PRI_MAX) -> (<[LReady p := []]> A) (LReady p') = []).
  { intros p' Hp'. destruct (decide (p = p')) as [<-|Hn]; [lia|].
    rewrite fn_lookup_insert_ne by congruence. by apply Ho. }
  assert (Hbits : forall p', 0 <= p' -> bitmap_bit b p' = bool_decide ((<[LReady p := []]> A) (LReady p') <> [])).
  { intros p' Hp'. rewrite Hbb by done. destruct (decide (p = p')) as [<-|Hn].
    - rewrite fn_lookup_insert, bool_decide_true, bool_decide_false by (done || naive_solver). done.
    - rewrite fn_lookup_insert_ne, (bool_decide_false (p' = p)) by congruence. by apply Hb. }
  assert (Hrep : forall h, is_highest (<[LReady p := []]> A) h ->
    rq_rep (mkRq (<[Z.to_nat p := None]> (cur_list_item q)) b h) (<[LReady p := []]> A)).
  { intros h Hh'. split; simpl; [by rewrite length_insert| |done|by rewrite Hlb|done|done].
    intros p' Hp'. destruct (decide (p = p')) as [<-|Hn].
    - rewrite fn_lookup_insert, list_lookup_insert_eq; [done|]. rewrite Hl. lia.
    - rewrite fn_lookup_insert_ne by congruence. rewrite list_lookup_insert_ne by lia. by apply Hc. }
  split.
  - intros Hph. apply Hrep. split.
    + intros p' Hp'. destruct (decide (p = p')) as [<-|Hn]; [by rewrite fn_lookup_insert|].
      rewrite fn_lookup_insert_ne by congruence. by apply Hlt.
    + destruct Hh as [[? Hn]|Hh]; [left|by right]. split; [done|].
      by rewrite fn_lookup_insert_ne by congruence.
  - intros Hph.
    assert (0 <= p0 < RHINO_CONFIG_PRI_MAX) as Hr0.
    { destruct (decide (0 <= p0 < RHINO_CONFIG_PRI_MAX)) as [?|Hn]; [done|]. by destruct Hp0; apply Hout. }
    destruct (find_first_bit_first b) as (i & Hi & Hir & Hib & Hil); [done| |].
    { apply (bitmap_bit_nonzero b p0). rewrite Hbits by lia. by apply bool_decide_true. }
    exists i. rewrite Hbits in Hib by lia. apply bool_decide_eq_true in Hib.
    assert (0 <= i < RHINO_CONFIG_PRI_MAX).
    { destruct (decide (0 <= i < RHINO_CONFIG_PRI_MAX)) as [?|Hn]; [done|]. by destruct Hib; apply Hout. }
    split_and!; [done|lia|lia|]. apply Hrep. split; [|by left].
    intros p' Hp'. specialize (Hil p' Hp'). rewrite Hbits in Hil by lia.
    apply bool_decide_eq_false in Hil. by apply dec_stable.
Qed.
End RqRep.

(** ** The operations act on the abstract queues *)

Ltac wacc := unfold task_get, get_cur, put_cur, put_bitmap, put_highest, is_ready_list_empty; wsteps.

Section Ops.
Implicit Types (A : queues) (bl : gmap oid blk_obj_t) (t : tid) (x : ktask_t) (s : kstate).

Lemma wp_task_get t x Q s : tcbs s !! t = Some x -> Q x s -> wp (task_get t) Q s.
Proof. intros. unfold task_get. by wsteps. Qed.

Lemma wp_get_cur bl A p Q s :
  srep (lm s) (rq s) bl A -> 0 <= p < RHINO_CONFIG_PRI_MAX ->
  Q (NTask <$> head (A (LReady p))) s -> wp (get_cur p) Q s.
Proof.
  intros Hs Hp HQ. unfold get_cur. wsteps. eapply wp_lift; [|exact HQ].
  by apply (rq_cur _ _ (srep_rq _ _ _ _ Hs)).
Qed.

Lemma wp_put_cur bl A p v Q s :
  srep (lm s) (rq s) bl A -> 0 <= p < RHINO_CONFIG_PRI_MAX ->
  Q tt (with_lq (lm s) (mkRq (<[Z.to_nat p := v]> (cur_list_item (rq s)))
          (task_bit_map (rq s)) (highest_pri (rq s))) s) ->
  wp (put_cur p v) Q s.
Proof.
  intros Hs Hp HQ. unfold put_cur. wsteps. eapply wp_lift; [|].
  - by apply (rq_cur _ _ (srep_rq _ _ _ _ Hs)).
  - wsteps. exact HQ.
Qed.

Lemma wp_ready_list_init bl A t x (Q : unit -> kstate -> Prop) s :
  srep (lm s) (rq s) bl A -> tcbs s !! t = Some x -> 0 <= prio x < RHINO_CONFIG_PRI_MAX ->
  A (LReady (prio x)) = [] -> tfree A (LReady (prio x)) t ->
  (forall l' q', srep l' q' bl (<[LReady (prio x) := [t]]> A) -> Q tt (with_lq l' q' s)) ->
  wp (ready_list_init t) Q s.
Proof.
  intros Hs Ht Hp He Hf HQ. unfold ready_list_init. apply wp_bind, (wp_task_get _ x); [done|].
  apply wp_bind, (wp_put_cur bl A); [done..|].
  apply wp_bind, (wp_klist_init (nodes bl A) (LReady (prio x))).
  { apply Hs. } { unfold nodes. by rewrite He. } { by apply (nodes_unlinked bl A (LReady (prio x))). }
  intros l' Hl'. wsteps.
  pose proof (rq_words _ _ (srep_rq _ _ _ _ Hs)) as [Hw1 Hw2].
  destruct (bitmap_set_spec (task_bit_map (rq s)) (prio x) Hw2) as (b & Hb & _).
  { unfold RHINO_CONFIG_PRI_MAX in Hp. rewrite Hw1. lia. }
  eapply wp_lift; [exact Hb|]. wsteps. unfold put_bitmap. wsteps. simpl.
  pose proof (rq_rep_first _ _ _ t _ (srep_rq _ _ _ _ Hs) Hp He Hb) as Hr.
  destruct (prio x <? highest_pri (rq s)); unfold when, put_highest; wsteps;
    apply HQ; (split; [|exact Hr]); by eapply rings_nodes_update.
Qed.

Lemma wp_ready_list_add_tail bl A t x (Q : unit -> kstate -> Prop) s :
  srep (lm s) (rq s) bl A -> tcbs s !! t = Some x -> 0 <= prio x < RHINO_CONFIG_PRI_MAX ->
  tfree A (LReady (prio x)) t ->
  (forall l' q', srep l' q' bl (<[LReady (prio x) := A (LReady (prio x)) ++ [t]]> A) -> Q tt (with_lq l' q' s)) ->
  wp (ready_list_add_tail t) Q s.
Proof.
  intros Hs Ht Hp Hf HQ. unfold ready_list_add_tail, is_ready_list_empty.
  apply wp_bind, (wp_task_get _ x); [done|]. wsteps. apply (wp_get_cur bl A); [done..|]. wsteps.
  destruct (A (LReady (prio x))) as [|y r] eqn:EA; simpl.
  - by apply (wp_ready_list_init bl A t x).
  - apply wp_bind, (wp_get_cur bl A); [done..|]. rewrite EA. wsteps.
    apply (wp_klist_insert (nodes bl A) (LReady (prio x)) [] (NTask y) (NTask <$> r)).
    { apply Hs. } { unfold nodes. by rewrite EA. } { by apply (nodes_unlinked bl A (LReady (prio x))). }
    intros l' Hl'. apply (HQ l' (rq s)). split.
    + apply (rings_rotate _ _ (LReady (prio x)) [NTask t] (NTask y :: (NTask <$> r))) in Hl';
        [|by rewrite fn_lookup_insert].
      eapply rings_nodes_update; [|done]. eapply rings_ext; [exact Hl'|]. intros j.
      destruct (decide (LReady (prio x) = j)) as [<-|].
      * rewrite !fn_lookup_insert. simpl. by rewrite fmap_app.
      * by rewrite !fn_lookup_insert_ne.
    + apply rq_rep_same_head; [apply Hs|done|by rewrite EA|done|by rewrite EA].
Qed.

Lemma wp_ready_list_add_head bl A t x (Q : unit -> kstate -> Prop) s :
  srep (lm s) (rq s) bl A -> tcbs s !! t = Some x -> 0 <= prio x < RHINO_CONFIG_PRI_MAX ->
  tfree A (LReady (prio x)) t ->
  (forall l' q', srep l' q' bl (<[LReady (prio x) := t :: A (LReady (prio x))]> A) -> Q tt (with_lq l' q' s)) ->
  wp (ready_list_add_head t) Q s.
Proof.
  intros Hs Ht Hp Hf HQ. unfold ready_list_add_head, is_ready_list_empty.
  apply wp_bind, (wp_task_get _ x); [done|]. wsteps. apply (wp_get_cur bl A); [done..|]. wsteps.
  destruct (A (LReady (prio x))) as [|y r] eqn:EA; simpl.
  - by apply (wp_ready_list_init bl A t x).
  - apply wp_bind, (wp_get_cur bl A); [done..|]. rewrite EA. wsteps.
    apply (wp_klist_insert (nodes bl A) (LReady (prio x)) [] (NTask y) (NTask <$> r)).
    { apply Hs. } { unfold nodes. by rewrite EA. } { by apply (nodes_unlinked bl A (LReady (prio x))). }
    intros l' Hl'.
    assert (Hl2 : rings l' (nodes bl (<[LReady (prio x) := t :: y :: r]> A))) by by eapply rings_nodes_update.
    unfold put_cur. wsteps. eapply wp_lift; [by apply (rq_cur _ _ (srep_rq _ _ _ _ Hs))|]. wsteps.
    apply HQ. split; [done|].
    apply (rq_rep_nonempty _ _ _ (t :: y :: r)); [apply Hs|done|by rewrite EA|done].
Qed.

(** Where the task goes: behind its equals when it has the priority of the
    running task, in front of them otherwise. *)
Definition add_pos (p_new p_active : Z) (t : tid) (ts : list tid) : list tid :=
  if p_new =? p_active then ts ++ [t] else t :: ts.

Lemma wp_ready_list_add bl A t x a y (Q : unit -> kstate -> Prop) s :
  srep (lm s) (rq s) bl A -> tcbs s !! t = Some x -> 0 <= prio x < RHINO_CONFIG_PRI_MAX ->
  g_active_task (gl s) = Some a -> tcbs s !! a = Some y ->
  tfree A (LReady (prio x)) t ->
  (forall l' q', srep l' q' bl
     (<[LReady (prio x) := add_pos (prio x) (prio y) t (A (LReady (prio x)))]> A) -> Q tt (with_lq l' q' s)) ->
  wp (ready_list_add t) Q s.
Proof.
  intros Hs Ht Hp Ha Hy Hf HQ. unfold ready_list_add, active_get.
  apply wp_bind, (wp_task_get _ x); [done|]. wsteps.
  apply (wp_task_get _ y); [done|]. unfold add_pos in HQ.
  destruct (prio x =? prio y).
  - by apply (wp_ready_list_add_tail bl A t x).
  - by apply (wp_ready_list_add_head bl A t x).
Qed.

Lemma wp_ready_list_rm bl A t x a b (Q : unit -> kstate -> Prop) s :
  srep (lm s) (rq s) bl A -> tcbs s !! t = Some x -> 0 <= prio x < RHINO_CONFIG_PRI_MAX ->
  A (LReady (prio x)) = a ++ t :: b -> has_ready (<[LReady (prio x) := a ++ b]> A) ->
  (forall l' q', srep l' q' bl (<[LReady (prio x) := a ++ b]> A) -> Q tt (with_lq l' q' s)) ->
  wp (ready_list_rm t) Q s.
Proof.
  intros Hs Ht Hp HA Hr HQ. unfold ready_list_rm.
  apply wp_bind, (wp_task_get _ x); [done|]. apply wp_bind, (wp_get_cur bl A); [done..|].
  assert (Hhd : exists y r, a ++ t :: b = y :: r) by (destruct a; eauto).
  destruct Hhd as (y & r & Eyr). rewrite HA, Eyr. wsteps.
  apply (wp_get_next (nodes bl A) (LReady (prio x)) [] (NTask y) (NTask <$> r)).
  { apply Hs. } { unfold nodes. by rewrite HA, Eyr. }
  rewrite app_nil_r.
  pose proof (nodes_nodup _ _ _ (LReady (prio x)) (srep_rings _ _ _ _ Hs)) as Hnd. rewrite HA in Hnd.
  destruct r as [|z r]; simpl.
  - rewrite bool_decide_true by done. simpl.
    assert (a = [] /\ y = t /\ b = []) as (-> & -> & ->) by (destruct a as [|? []]; simplify_eq/=; done).
    apply wp_bind, (wp_put_cur bl A); [done..|]. wsteps.
    pose proof (rq_words _ _ (srep_rq _ _ _ _ Hs)) as [Hw1 Hw2].
    destruct (bitmap_clear_spec (task_bit_map (rq s)) (prio x) Hw2) as (bm & Hb & _).
    { unfold RHINO_CONFIG_PRI_MAX in Hp. rewrite Hw1. lia. }
    eapply wp_lift; [exact Hb|]. wsteps. unfold put_bitmap. wsteps. simpl.
    destruct (rq_rep_last _ _ _ _ (srep_rq _ _ _ _ Hs) Hp ltac:(by rewrite HA) Hr Hb) as [H1 H2].
    assert (Hrg : rings (lm s) (nodes bl (<[LReady (prio x) := []]> A))).
    { eapply (rings_nodes_update _ _ _ _ _ []); [|done].
      apply (rings_update (lm s)); [apply Hs|done|constructor|set_solver|done]. }
    destruct (Z.eqb_spec (prio x) (highest_pri (rq s))) as [Hh|Hh]; simpl.
    + destruct (H2 Hh) as (i & Hi & Hir & Hrep). apply wp_bind. eapply wp_lift; [exact Hi|].
      rewrite (proj2 (Z.leb_le 0 i)) by lia. unfold put_highest. wsteps. apply HQ. split; [done|].
      simpl. unfold RHINO_CONFIG_PRI_MAX in *. by rewrite wrap_small by lia.
    + wsteps. apply HQ. split; auto.
  - rewrite bool_decide_false by (intros [= ->]; rewrite Eyr in Hnd; inversion Hnd; set_solver). simpl.
    assert (Hn2 : a ++ b <> []) by (destruct a as [|? []]; simplify_eq/=; done).
    assert (Hrm : forall (q' : runqueue_t), rq_rep q' (<[LReady (prio x) := a ++ b]> A) ->
      wp (klist_rm (NTask t)) Q (with_lq (lm s) q' s)).
    { intros q' Hq'. apply (wp_task_rm bl A (LReady (prio x)) a t b); [apply Hs|done|].
      intros l' Hl'. apply (HQ l' q'). by split. }
    destruct a as [|y' a]; simplify_eq/=.
    + rewrite bool_decide_true by done. apply wp_bind, (wp_put_cur bl A); [done..|].
      apply Hrm. apply (rq_rep_nonempty _ _ _ (z :: r)); [apply Hs|done|by rewrite HA|done].
    + rewrite bool_decide_false by (intros [= ->]; inversion Hnd; set_solver).
      unfold when. wsteps. rewrite <- (with_lq_id s). apply (Hrm (rq s)).
      apply rq_rep_same_head; [apply Hs|done|by rewrite HA|done|by rewrite HA].
Qed.

Lemma wp_ready_list_head_to_tail bl A t x y r (Q : unit -> kstate -> Prop) s :
  srep (lm s) (rq s) bl A -> tcbs s !! t = Some x -> 0 <= prio x < RHINO_CONFIG_PRI_MAX ->
  A (LReady (prio x)) = y :: r ->
  (forall q', srep (lm s) q' bl (<[LReady (prio x) := r ++ [y]]> A) -> Q tt (with_lq (lm s) q' s)) ->
  wp (ready_list_head_to_tail t) Q s.
Proof.
  intros Hs Ht Hp HA HQ. unfold ready_list_head_to_tail.
  apply wp_bind, (wp_task_get _ x); [done|]. apply wp_bind, (wp_get_cur bl A); [done..|].
  rewrite HA. wsteps.
  apply (wp_get_next (nodes bl A) (LReady (prio x)) [] (NTask y) (NTask <$> r)).
  { apply Hs. } { unfold nodes. by rewrite HA. }
  rewrite app_nil_r. apply (wp_put_cur bl A); [done..|]. apply HQ. split.
  - eapply rings_nodes_update.
    + apply (rings_rotate _ _ (LReady (prio x)) [NTask y] (NTask <$> r)); [apply Hs|].
      unfold nodes. by rewrite HA.
    + simpl. by rewrite fmap_app.
  - replace (Some (hd (NTask y) (NTask <$> r))) with (NTask <$> head (r ++ [y])) by by destruct r.
    apply rq_rep_nonempty; [apply Hs|done|by rewrite HA|by destruct r].
Qed.
End Ops.
