(* ===== verification/Pend.v ===== *)
(** * Blocking and waking (k_pend.c, and the tick list of k_tick.c)

    A task that blocks leaves the ready queue, joins the list of the object
    it waits for (by priority, or in FIFO order) and, when it has a timeout,
    the tick list, which is ordered by remaining time. *)

From stdpp Require Import functions.
From S2P Require Import Prelude.
From S2P Require Import Monad.
From S2P Require Import Links.
From S2P Require Import KState.
From S2P Require Import Bitmap.
From S2P Require Import Sched.

(** ** The tick list (k_tick.c) *)

Definition tick_list_init : M unit := klist_init NTickHead.

(** The loop's test: [(task_iter_temp->tick_match - g_tick_count) > val]. *)
Definition tick_later (val : Z) (q : knode) : M bool :=
  g <- gets gl ;;
  t <- tick_task_of q ;;
  y <- task_get t ;;
  ret (val <? u64 (tick_match y - g_tick_count g)).

Definition tick_list_pri_insert (head : knode) (task : tid) : M unit :=
  x <- task_get task ;;
  q <- (fuel <- list_fuel ;; q <- get_next head ;;
        klist_scan fuel (tick_later (tick_remain x)) q head) ;;
  klist_insert q (NTick task).

Definition tick_list_insert (task : tid) (time : Z) : M unit :=
  if 0 <? time then
    g <- gets gl ;;
    task_upd task (set_tick_match (u64 (g_tick_count g + time))) ;;
    task_upd task (set_tick_remain time) ;;
    tick_list_pri_insert NTickHead task ;;
    task_upd task (set_tick_head (Some NTickHead))
  else ret tt.

Definition tick_list_rm (task : tid) : M unit :=
  x <- task_get task ;;
  match tick_head x with
  | Some _ => klist_rm (NTick task) ;; task_upd task (set_tick_head None)
  | None => ret tt
  end.

(** ** Blocked tasks (k_pend.c) *)

(** The loop's test: [krhino_list_entry(tmp, ...)->prio > task->prio]. *)
Definition prio_lower (p : Z) (q : knode) : M bool :=
  t <- task_of q ;; y <- task_get t ;; ret (p <? prio y).

Definition pend_list_add (head : knode) (task : tid) : M unit :=
  x <- task_get task ;;
  q <- (fuel <- list_fuel ;; q <- get_next head ;;
        klist_scan fuel (prio_lower (prio x)) q head) ;;
  klist_insert q (NTask task).

(** The common part of [pend_task_wakeup] and [pend_task_rm]: the two
    functions differ in the last [blk_state] they store. *)
Definition pend_task_unblock (task : tid) (bs : blk_state_t) : M unit :=
  x <- task_get task ;;
  match task_state x with
  | K_PEND =>
      klist_rm (NTask task) ;;
      ready_list_add task ;;
      task_upd task (set_task_state K_RDY)
  | K_PEND_SUSPENDED =>
      klist_rm (NTask task) ;;
      task_upd task (set_task_state K_SUSPENDED)
  | _ => k_err_proc RHINO_SYS_FATAL_ERR
  end ;;
  tick_list_rm task ;;
  task_upd task (set_blk_state bs) ;;
  task_upd task (set_task_blk_obj None).

Definition pend_task_wakeup (task : tid) : M unit := pend_task_unblock task BLK_FINISH.
Definition pend_task_rm (task : tid) : M unit := pend_task_unblock task BLK_DEL.

Definition pend_to_blk_obj (blk_obj : oid) (task : tid) (timeout : Z) : M unit :=
  task_upd task (set_task_blk_obj (Some blk_obj)) ;;
  when (negb (timeout =? RHINO_WAIT_FOREVER)) (tick_list_insert task timeout) ;;
  task_upd task (set_task_state K_PEND) ;;
  ready_list_rm task ;;
  b <- blk_get blk_obj ;;
  if bool_decide (blk_policy b = BLK_POLICY_FIFO) then
    klist_insert (NBlk blk_obj) (NTask task)
  else
    pend_list_add (NBlk blk_obj) task.

Definition pend_list_reorder (task : tid) : M unit :=
  x <- task_get task ;;
  o <- lift (task_blk_obj x) ;;
  b <- blk_get o ;;
  when (bool_decide (blk_policy b = BLK_POLICY_PRI)) (
    klist_rm (NTask task) ;;
    pend_list_add (NBlk o) task).

Definition pend_state_end_proc (task : tid) : M kstat_t :=
  x <- task_get task ;;
  match blk_state x with
  | BLK_FINISH => ret RHINO_SUCCESS
  | BLK_ABORT => ret RHINO_BLK_ABORT
  | BLK_TIMEOUT => ret RHINO_BLK_TIMEOUT
  | BLK_DEL => ret RHINO_BLK_DEL
  | BLK_INVALID => k_err_proc RHINO_BLK_INV_STATE ;; ret RHINO_BLK_INV_STATE
  end.

(** The tail of every blocking call: the code after RHINO_CRITICAL_EXIT_SCHED
    runs when the task is scheduled again and reports why it was woken. *)
Definition pend_end : M kstat_t :=
  psr <- cpu_intrpt_save ;;
  a <- active_get ;;
  st <- pend_state_end_proc a ;;
  cpu_intrpt_restore psr ;;
  ret st.

(** [while (!is_klist_empty(head)) f(first task)], with the number of nodes
    as fuel. *)
Fixpoint drain (fuel : nat) (f : tid -> M unit) (head : knode) : M unit :=
  match fuel with
  | O => fault
  | S n =>
      e <- is_klist_empty head ;;
      if e : bool then ret tt
      else
        nx <- get_next head ;;
        t <- task_of nx ;;
        f t ;; drain n f head
  end.

Definition drain_list (f : tid -> M unit) (head : knode) : M unit :=
  fuel <- list_fuel ;; drain fuel f head.
