(* ===== verification/Inv.v ===== *)
(** * The kernel invariant

    [kinv s A] couples the kernel's data structures with the control blocks:
    a task is linked in the ready list of its priority exactly when it is
    [K_RDY], in the list of the object it waits for exactly when it is
    blocked, in the tick list exactly when [tick_head] is set; lists of
    priority-ordered objects are sorted; an idle task is always ready. *)

From stdpp Require Import functions.
From S2P Require Import Prelude.
From S2P Require Import Monad.
From S2P Require Import Links.
From S2P Require Import KState.
From S2P Require Import Bitmap.
From S2P Require Import Sched.
From S2P Require Import Pend.

(** ** Definitions *)

Definition pended (st : task_stat_t) : bool :=
  match st with K_PEND | K_PEND_SUSPENDED => true | _ => false end.
Definition sleeping (st : task_stat_t) : bool :=
  match st with K_SLEEP | K_SLEEP_SUSPENDED => true | _ => false end.

Definition prio_of (tc : gmap tid ktask_t) (t : tid) : Z := default 0 (prio <$> tc !! t).

Definition prio_sorted (tc : gmap tid ktask_t) (ts : list tid) : Prop :=
  StronglySorted (fun u v => prio_of tc u <= prio_of tc v) ts.

(** Time left until task [u] is due. *)
Definition tick_rest (g : kglob) (tc : gmap tid ktask_t) (u : tid) : Z :=
  u64 (default 0 (tick_match <$> tc !! u) - g_tick_count g).

(** The tick list is ordered by the time left, which is below 2^63: the
    signed comparison of the tick handler then reads it correctly. *)
Definition tick_sorted (g : kglob) (tc : gmap tid ktask_t) (ts : list tid) : Prop :=
  StronglySorted (fun u v => tick_rest g tc u <= tick_rest g tc v) ts /\
  Forall (fun u => tick_rest g tc u < 2 ^ 63) ts.

Record task_ok (bl : gmap oid blk_obj_t) (x : ktask_t) : Prop := mkTaskOk {
  ok_prio : 0 <= prio x < RHINO_CONFIG_PRI_MAX;
  ok_blk : pended (task_state x) = true ->
    exists o, task_blk_obj x = Some o /\ is_Some (bl !! o);
  ok_tick : tick_head x <> None -> pended (task_state x) = true \/ sleeping (task_state x) = true;
  ok_sleep : sleeping (task_state x) = true -> tick_head x <> None;
}.

(** The lists task [x] is in, by its fields. *)
Definition in_list (x : ktask_t) (i : lid) : Prop :=
  match i with
  | LReady p => task_state x = K_RDY /\ prio x = p
  | LBlk o => pended (task_state x) = true /\ task_blk_obj x = Some o
  | LTick => tick_head x <> None
  end.

Record kinv (s : kstate) (A : queues) : Prop := mkKinv {
  ki_rep : srep (lm s) (rq s) (blks (ob s)) A;
  ki_mem : forall t i, t ∈ A i <-> exists x, tcbs s !! t = Some x /\ in_list x i;
  ki_task : forall t x, tcbs s !! t = Some x -> task_ok (blks (ob s)) x;
  ki_sorted : forall o b, blks (ob s) !! o = Some b -> blk_policy b = BLK_POLICY_PRI ->
    prio_sorted (tcbs s) (A (LBlk o));
  ki_tick : tick_sorted (gl s) (tcbs s) (A LTick);
  ki_idle : A (LReady RHINO_IDLE_PRI) <> [];
  ki_active : exists a x, g_active_task (gl s) = Some a /\ tcbs s !! a = Some x;
}.

(** Remove a task from a list. *)
Definition lrm (t : tid) (ts : list tid) : list tid := filter (fun u => u <> t) ts.

(** ** List facts *)

Section Lists.
Implicit Types (t u : tid) (ts a b : list tid).

Lemma lrm_id t ts : t ∉ ts -> lrm t ts = ts.
Proof.
  unfold lrm. induction ts as [|u ts IH]; intros Hn; [done|].
  rewrite filter_cons. rewrite decide_True by set_solver. f_equal. apply IH. set_solver.
Qed.

Lemma lrm_split t a b : NoDup (a ++ t :: b) -> lrm t (a ++ t :: b) = a ++ b.
Proof.
  intros Hnd. apply NoDup_app in Hnd as (_ & Hd & Hnd). apply NoDup_cons in Hnd as [Hb _].
  unfold lrm. rewrite filter_app, filter_cons, decide_False by naive_solver.
  f_equal; apply lrm_id; [|done]. intros Ha. apply (Hd t); set_solver.
Qed.

Lemma elem_of_lrm t u ts : u ∈ lrm t ts <-> u <> t /\ u ∈ ts.
Proof. unfold lrm. by rewrite list_elem_of_filter. Qed.

Lemma lrm_cons_ne t u ts : u <> t -> lrm t (u :: ts) = u :: lrm t ts.
Proof. intros. unfold lrm. by rewrite filter_cons, decide_True. Qed.

Lemma lrm_nonempty t u ts : u ∈ ts -> u <> t -> lrm t ts <> [].
Proof. intros Hu Hne Hnil. assert (u ∈ lrm t ts) by by apply elem_of_lrm. rewrite Hnil in *. set_solver. Qed.

Lemma StronglySorted_lrm (R : tid -> tid -> Prop) t ts :
  StronglySorted R ts -> StronglySorted R (lrm t ts).
Proof.
  induction 1 as [|u ts Hs IH Hf]; [constructor|]. unfold lrm. rewrite filter_cons.
  case_decide; [|done]. constructor; [done|].
  apply Forall_forall. intros v Hv. apply elem_of_lrm in Hv as [_ Hv].
  by eapply (proj1 (Forall_forall _ _) Hf).
Qed.

Lemma StronglySorted_impl (R R' : tid -> tid -> Prop) ts :
  (forall u v, u ∈ ts -> v ∈ ts -> R u v -> R' u v) -> StronglySorted R ts -> StronglySorted R' ts.
Proof.
  intros Hi. induction 1 as [|u ts Hs IH Hf]; [constructor|]. constructor.
  - apply IH. intros. apply Hi; set_solver.
  - apply Forall_forall. intros v Hv. apply Hi; [set_solver..|].
    by eapply (proj1 (Forall_forall _ _) Hf).
Qed.

Lemma StronglySorted_insert (R : tid -> tid -> Prop) a t b :
  StronglySorted R (a ++ b) -> Forall (fun u => R u t) a -> Forall (R t) b ->
  StronglySorted R (a ++ t :: b).
Proof.
  intros Hs Ha Hb. induction a as [|u a IH]; simpl in *; [by constructor|].
  apply Forall_cons in Ha as [Hu Ha]. apply StronglySorted_inv in Hs as [Hs Hf]. constructor.
  - by apply IH.
  - apply Forall_app in Hf as [? ?]. apply Forall_app; split; [done|]. by constructor.
Qed.
End Lists.

Lemma prio_of_lookup tc t x : tc !! t = Some x -> prio_of tc t = prio x.
Proof. unfold prio_of. by intros ->. Qed.

Lemma prio_of_insert_ne tc t u x : u <> t -> prio_of (<[t := x]> tc) u = prio_of tc u.
Proof. intros. unfold prio_of. by rewrite lookup_insert_ne. Qed.

Lemma prio_sorted_insert_ne tc t x ts : t ∉ ts -> prio_sorted tc ts -> prio_sorted (<[t := x]> tc) ts.
Proof.
  intros Hn. apply StronglySorted_impl. intros u v Hu Hv.
  rewrite !prio_of_insert_ne by (intros ->; done). done.
Qed.

Lemma prio_sorted_same_prio tc t x y ts :
  tc !! t = Some x -> prio y = prio x -> prio_sorted tc ts -> prio_sorted (<[t := y]> tc) ts.
Proof.
  intros Ht Hp. apply StronglySorted_impl. intros u v _ _. unfold prio_of.
  destruct (decide (u = t)) as [->|], (decide (v = t)) as [->|];
    simplify_map_eq; rewrite ?Hp; done.
Qed.

Lemma tick_rest_insert_ne g tc t u x : u <> t -> tick_rest g (<[t := x]> tc) u = tick_rest g tc u.
Proof. intros. unfold tick_rest. by rewrite lookup_insert_ne. Qed.

Lemma tick_rest_same_match g tc t x y u :
  tc !! t = Some x -> tick_match y = tick_match x -> tick_rest g (<[t := y]> tc) u = tick_rest g tc u.
Proof.
  intros Ht E. destruct (decide (u = t)) as [->|]; [|by apply tick_rest_insert_ne].
  unfold tick_rest. by rewrite lookup_insert_eq, Ht; simpl; rewrite E.
Qed.

Lemma tick_sorted_ext g tc g' tc' ts :
  (forall u, u ∈ ts -> tick_rest g' tc' u = tick_rest g tc u) -> tick_sorted g tc ts -> tick_sorted g' tc' ts.
Proof.
  intros He [Hs Hf]. split.
  - eapply StronglySorted_impl; [|exact Hs]. intros u v Hu Hv. by rewrite !He.
  - apply Forall_forall. intros u Hu. rewrite He by done. by eapply (proj1 (Forall_forall _ _) Hf).
Qed.

Lemma tick_sorted_same_match g tc t x y ts :
  tc !! t = Some x -> tick_match y = tick_match x -> tick_sorted g tc ts -> tick_sorted g (<[t := y]> tc) ts.
Proof. intros Ht E. apply tick_sorted_ext. intros u _. by eapply tick_rest_same_match. Qed.

Lemma tick_sorted_lrm g tc t ts : tick_sorted g tc ts -> tick_sorted g tc (lrm t ts).
Proof.
  intros [Hs Hf]. split; [by apply StronglySorted_lrm|].
  apply Forall_forall. intros u [_ Hu]%elem_of_lrm. by eapply (proj1 (Forall_forall _ _) Hf).
Qed.

(** ** Re-establishing the invariant *)

Lemma rq_rep_ext q A A' : rq_rep q A -> (forall p, A' (LReady p) = A (LReady p)) -> rq_rep q A'.
Proof.
  intros [Hl Hc Ho Hw Hb Hh] He. split; [done| | |done| |].
  - intros p Hp. rewrite He. by apply Hc.
  - intros p Hp. rewrite He. by apply Ho.
  - intros p Hp. rewrite He. by apply Hb.
  - eapply is_highest_ext; [|exact Hh]. intros p. by rewrite He.
Qed.

Lemma srep_ext l q bl A A' : srep l q bl A -> (forall i, A' i = A i) -> srep l q bl A'.
Proof.
  intros [Hr Hq] He. split; [|eapply rq_rep_ext; eauto].
  eapply rings_ext; [exact Hr|]. intros i. unfold nodes. by rewrite He.
Qed.

(** Header changes that keep the set of objects keep the lists. *)
Lemma srep_blks l q bl bl' A :
  srep l q bl A -> (forall o, is_Some (bl' !! o) <-> is_Some (bl !! o)) -> srep l q bl' A.
Proof.
  intros [Hr Hq] Hd. split; [|done]. eapply rings_ext; [exact Hr|]. intros i. unfold nodes. f_equal.
  destruct i as [p|o|]; [done| |done]. simpl. specialize (Hd o).
  destruct (bl !! o), (bl' !! o); try done.
  - by destruct (proj2 Hd ltac:(eauto)).
  - by destruct (proj1 Hd ltac:(eauto)).
Qed.

Section Kinv.
Implicit Types (s : kstate) (A : queues) (t : tid) (x y : ktask_t) (i : lid).

Lemma kinv_in s A t x i : kinv s A -> tcbs s !! t = Some x -> t ∈ A i <-> in_list x i.
Proof.
  intros HI Ht. rewrite (ki_mem _ _ HI). split; [|eauto]. intros (y & Hy & ?). by simplify_eq.
Qed.

Lemma kinv_split s A t x i :
  kinv s A -> tcbs s !! t = Some x -> in_list x i ->
  exists a b, A i = a ++ t :: b /\ lrm t (A i) = a ++ b.
Proof.
  intros HI Ht Hi. apply (kinv_in _ _ _ _ _ HI Ht) in Hi.
  apply list_elem_of_split in Hi as (a & b & Hab). exists a, b. split; [done|].
  rewrite Hab. apply lrm_split. rewrite <- Hab.
  by eapply nodes_nodup, srep_rings, ki_rep.
Qed.

Lemma kinv_nodup s A i : kinv s A -> NoDup (A i).
Proof. intros HI. by eapply nodes_nodup, srep_rings, ki_rep. Qed.

(** Only task [t] changes: it moves from the lists [A] has it in to those
    its new fields say. *)
Lemma kinv_update s A t x' A' l' q' :
  kinv s A -> is_Some (tcbs s !! t) ->
  srep l' q' (blks (ob s)) A' ->
  (forall u i, u <> t -> u ∈ A' i <-> u ∈ A i) ->
  (forall i, t ∈ A' i <-> in_list x' i) ->
  task_ok (blks (ob s)) x' ->
  (forall o b, blks (ob s) !! o = Some b -> blk_policy b = BLK_POLICY_PRI ->
     prio_sorted (<[t := x']> (tcbs s)) (A' (LBlk o))) ->
  tick_sorted (gl s) (<[t := x']> (tcbs s)) (A' LTick) ->
  A' (LReady RHINO_IDLE_PRI) <> [] ->
  kinv (mkK l' q' (<[t := x']> (tcbs s)) (gl s) (ob s) (umem s)) A'.
Proof.
  intros HI [x Ht] Hs Ho Ht' Hok Hso Htk Hid. split; simpl; [done| | |done|done|done|].
  - intros u i. destruct (decide (u = t)) as [->|Hne].
    + rewrite Ht'. rewrite lookup_insert_eq. naive_solver.
    + rewrite Ho by done. rewrite lookup_insert_ne by done. apply (ki_mem _ _ HI).
  - intros u y. destruct (decide (u = t)) as [->|Hne].
    + rewrite lookup_insert_eq. by intros [= <-].
    + rewrite lookup_insert_ne by done. apply (ki_task _ _ HI).
  - destruct (ki_active _ _ HI) as (a & y & Ha & Hy). exists a.
    destruct (decide (a = t)) as [->|Hne]; simplify_map_eq; eauto.
Qed.

(** The fields that place a task are unchanged. *)
Definition same_place x y : Prop :=
  task_state y = task_state x /\ prio y = prio x /\ task_blk_obj y = task_blk_obj x /\
  tick_head y = tick_head x /\ tick_match y = tick_match x.

Lemma kinv_same_place s A t x y :
  kinv s A -> tcbs s !! t = Some x -> same_place x y ->
  kinv (mkK (lm s) (rq s) (<[t := y]> (tcbs s)) (gl s) (ob s) (umem s)) A.
Proof.
  intros HI Ht (E1 & E2 & E3 & E4 & E5). apply (kinv_update s A); try done.
  - apply HI.
  - intros i. rewrite (kinv_in _ _ _ _ _ HI Ht). destruct i; simpl; by rewrite ?E1, ?E2, ?E3, ?E4.
  - destruct (ki_task _ _ HI _ _ Ht). split; rewrite ?E1, ?E2, ?E3, ?E4; done.
  - intros o b Ho Hb. eapply prio_sorted_same_prio; [done..|]. by eapply ki_sorted.
  - eapply tick_sorted_same_match; [done..|]. apply HI.
  - apply HI.
Qed.
End Kinv.

(** ** Sorted insertion *)

(** Insert [t] before the first task that satisfies [f]. *)
Fixpoint insert_before (f : tid -> bool) (t : tid) (ts : list tid) : list tid :=
  match ts with
  | [] => [t]
  | u :: r => if f u then t :: ts else u :: insert_before f t r
  end.

Section InsertBefore.
Implicit Types (f : tid -> bool) (t u : tid) (ts a b : list tid).

Lemma insert_before_split f t a b :
  Forall (fun u => f u = false) a -> (forall u, head b = Some u -> f u = true) ->
  insert_before f t (a ++ b) = a ++ t :: b.
Proof.
  intros Ha Hb. induction Ha as [|u a Hu Ha IH]; simpl.
  - destruct b as [|u b]; [done|]. simpl. by rewrite Hb.
  - by rewrite Hu, IH.
Qed.

Lemma elem_of_insert_before f t u ts : u ∈ insert_before f t ts <-> u = t \/ u ∈ ts.
Proof.
  induction ts as [|v ts IH]; simpl; [set_solver|]. destruct (f v); set_solver.
Qed.

Lemma insert_before_ext f g t ts :
  (forall u, u ∈ ts -> f u = g u) -> insert_before f t ts = insert_before g t ts.
Proof.
  induction ts as [|v ts IH]; intros H; [done|]. simpl. rewrite H by set_solver.
  destruct (g v); [done|]. f_equal. apply IH. set_solver.
Qed.

(** Insertion by a key keeps the list sorted by that key. *)
Lemma insert_before_sorted (key : tid -> Z) t ts :
  StronglySorted (fun u v => key u <= key v) ts ->
  StronglySorted (fun u v => key u <= key v) (insert_before (fun u => key t <? key u) t ts).
Proof.
  induction 1 as [|u ts Hs IH Hf]; simpl.
  - constructor; constructor.
  - destruct (Z.ltb_spec (key t) (key u)).
    + constructor; [by constructor|]. constructor; [lia|].
      eapply Forall_impl; [exact Hf|]. simpl. intros v ?. lia.
    + constructor; [done|]. apply Forall_forall. intros v Hv.
      apply elem_of_insert_before in Hv as [->|Hv]; [done|].
      by eapply (proj1 (Forall_forall _ _) Hf).
Qed.
End InsertBefore.

Lemma wp_insert_sorted bl A i h t (stop : knode -> M bool) f (Q : unit -> kstate -> Prop) s :
  rings (lm s) (nodes bl A) -> hdr bl i = [h] -> tfree A i t ->
  (forall u, u ∈ A i -> stop (node_of i u) s = Some (f u, s)) ->
  (forall l', rings l' (nodes bl (<[i := insert_before f t (A i)]> A)) -> Q tt (with_lm l' s)) ->
  wp (q <- (fuel <- list_fuel ;; q <- get_next h ;; klist_scan fuel stop q h) ;;
      klist_insert q (node_of i t)) Q s.
Proof.
  intros HG Hh Hf Hstop HQ. apply wp_bind.
  set (fn := fun n => match n with NTask u | NTick u => f u | _ => false end).
  assert (Hfn : forall u, fn (node_of i u) = f u) by by destruct i.
  apply (wp_scan_list (nodes bl A) i h (node_of i <$> A i) _ fn); [done| | |].
  - unfold nodes. by rewrite Hh.
  - intros n (u & -> & Hu)%list_elem_of_fmap. rewrite Hfn. by apply Hstop.
  - intros m1 m2 Hm H1 H2. apply fmap_app_inv in Hm as (a & b & -> & -> & HA).
    apply (wp_task_insert bl A i h a t b); [done..|].
    intros l' Hl'. apply HQ. rewrite HA, insert_before_split; [done| |].
    + apply Forall_forall. intros u Hu. rewrite <- Hfn.
      apply (proj1 (Forall_forall _ _) H1). by apply list_elem_of_fmap_2.
    + intros u Hu. rewrite <- Hfn. apply H2. destruct b; simpl in *; congruence.
Qed.

Lemma hdr_blk (bl : gmap oid blk_obj_t) o b : bl !! o = Some b -> hdr bl (LBlk o) = [NBlk o].
Proof. simpl. by intros ->. Qed.

(** ** The tick list and the blocked lists *)

Section Prims.
Implicit Types (s : kstate) (A : queues) (t : tid) (x y : ktask_t) (i : lid) (bl : gmap oid blk_obj_t).

Definition with_tc (tc : gmap tid ktask_t) s : kstate :=
  mkK (lm s) (rq s) tc (gl s) (ob s) (umem s).
Definition with_ltc (l : lmem) (tc : gmap tid ktask_t) s : kstate :=
  mkK l (rq s) tc (gl s) (ob s) (umem s).

Lemma wp_task_upd t x f (Q : unit -> kstate -> Prop) s :
  tcbs s !! t = Some x -> Q tt (with_tc (<[t := f x]> (tcbs s)) s) -> wp (task_upd t f) Q s.
Proof. intros. unfold task_upd. by wsteps. Qed.

(** By priority: before the first task with a lower priority. *)
Definition prio_insert (tc : gmap tid ktask_t) (p : Z) (t : tid) (ts : list tid) : list tid :=
  insert_before (fun u => p <? prio_of tc u) t ts.

Lemma wp_pend_list_add bl A o b t x (Q : unit -> kstate -> Prop) s :
  rings (lm s) (nodes bl A) -> bl !! o = Some b -> tcbs s !! t = Some x -> tfree A (LBlk o) t ->
  (forall u, u ∈ A (LBlk o) -> is_Some (tcbs s !! u)) ->
  (forall l', rings l' (nodes bl (<[LBlk o := prio_insert (tcbs s) (prio x) t (A (LBlk o))]> A)) ->
     Q tt (with_lm l' s)) ->
  wp (pend_list_add (NBlk o) t) Q s.
Proof.
  intros HG Ho Ht Hf Hin HQ. unfold pend_list_add. apply wp_bind, (wp_task_get _ x); [done|].
  eapply (wp_insert_sorted bl A (LBlk o)); [done|by eapply hdr_blk|done| |exact HQ].
  intros u Hu. destruct (Hin u Hu) as [y Hy]. simpl.
  unfold prio_lower, task_get, bind, gets, lift; simpl. unfold prio_of. by rewrite Hy.
Qed.

(** The control block after [tick_list_insert(task, time)]. *)
Definition tick_armed (g : kglob) (time : Z) x : ktask_t :=
  set_tick_head (Some NTickHead)
    (set_tick_remain time (set_tick_match (u64 (g_tick_count g + time)) x)).

Lemma wp_tick_list_insert bl A t x time (Q : unit -> kstate -> Prop) s :
  rings (lm s) (nodes bl A) -> tcbs s !! t = Some x -> t ∉ A LTick -> 0 < time ->
  (forall u, u ∈ A LTick -> is_Some (tcbs s !! u)) ->
  (forall l', rings l' (nodes bl (<[LTick := insert_before (fun u => time <? tick_rest (gl s) (tcbs s) u) t (A LTick)]> A)) ->
     Q tt (with_ltc l' (<[t := tick_armed (gl s) time x]> (tcbs s)) s)) ->
  wp (tick_list_insert t time) Q s.
Proof.
  intros HG Ht Hn Htime Hin HQ. unfold tick_list_insert.
  rewrite (proj2 (Z.ltb_lt 0 time)) by done. wsteps.
  apply (wp_task_upd _ x); [done|].
  apply wp_bind, (wp_task_upd _ (set_tick_match (u64 (g_tick_count (gl s) + time)) x)); [by simplify_map_eq|].
  apply wp_bind. unfold tick_list_pri_insert.
  apply wp_bind, (wp_task_get _ (set_tick_remain time (set_tick_match (u64 (g_tick_count (gl s) + time)) x)));
    [by simplify_map_eq|]. simpl tick_remain.
  apply (wp_insert_sorted bl A LTick NTickHead _ _ (fun u => time <? tick_rest (gl s) (tcbs s) u)); [done|done| | |].
  - intros j Hj. by destruct j.
  - intros u Hu. destruct (Hin u Hu) as [y Hy]. assert (u <> t) by (intros ->; done). simpl.
    unfold tick_later, task_get, bind, gets, lift, tick_rest; simpl. rewrite Hy.
    by rewrite !lookup_insert_ne, Hy by done.
  - intros l' Hl'. eapply wp_task_upd; [by simplify_map_eq|].
    specialize (HQ l' Hl'). unfold with_ltc, with_tc, with_lm in *. simpl.
    by rewrite !insert_insert_eq.
Qed.

Lemma wp_tick_list_rm bl A t x (Q : unit -> kstate -> Prop) s :
  rings (lm s) (nodes bl A) -> tcbs s !! t = Some x ->
  (t ∈ A LTick <-> tick_head x <> None) ->
  (forall l', rings l' (nodes bl (<[LTick := lrm t (A LTick)]> A)) ->
     Q tt (with_ltc l' (<[t := set_tick_head None x]> (tcbs s)) s)) ->
  wp (tick_list_rm t) Q s.
Proof.
  intros HG Ht Hin HQ. unfold tick_list_rm. apply wp_bind, (wp_task_get _ x); [done|].
  destruct (tick_head x) as [n|] eqn:Eh.
  - assert (t ∈ A LTick) as Hm by (apply Hin; done).
    apply list_elem_of_split in Hm as (a & b & Hab).
    assert (Hl : lrm t (A LTick) = a ++ b).
    { rewrite Hab. apply lrm_split. rewrite <- Hab. by eapply nodes_nodup. }
    apply wp_bind, (wp_task_rm bl A LTick a t b); [done..|].
    intros l' Hl'. apply (wp_task_upd _ x); [done|]. apply HQ. by rewrite Hl.
  - apply wp_ret. assert (t ∉ A LTick) as Hm by (rewrite Hin; naive_solver).
    specialize (HQ (lm s)). rewrite lrm_id in HQ by done.
    assert (set_tick_head None x = x) as Ex by (destruct x; simpl in *; by subst).
    rewrite Ex, insert_id in HQ by done. destruct s. apply HQ.
    eapply rings_ext; [exact HG|]. intros j. unfold nodes.
    destruct (decide (LTick = j)) as [<-|]; [by rewrite fn_lookup_insert|by rewrite fn_lookup_insert_ne].
Qed.
End Prims.

Lemma q_insert (A : queues) (i j : lid) ts :
  (<[i := ts]> A) j = if decide (i = j) then ts else A j.
Proof. case_decide; subst; [apply fn_lookup_insert|by apply fn_lookup_insert_ne]. Qed.

(** Case analysis on the index of an updated family of queues. *)
Ltac qcases := rewrite ?q_insert; repeat (case_decide; simplify_eq/=; try done).

Lemma elem_of_add_pos p q t u ts : u ∈ add_pos p q t ts <-> u = t \/ u ∈ ts.
Proof. unfold add_pos. destruct (p =? q); set_solver. Qed.

Lemma add_pos_nonempty p q t ts : add_pos p q t ts <> [].
Proof. unfold add_pos. destruct (p =? q); [by intros [_ ?]%app_nil|done]. Qed.

(** ** Waking a blocked task *)

Section Unblock.
Implicit Types (s : kstate) (A : queues) (t : tid) (x y : ktask_t) (o : oid).

Definition woken_state (st : task_stat_t) : task_stat_t :=
  match st with K_PEND => K_RDY | _ => K_SUSPENDED end.

(** The control block of the woken task. *)
Definition unblocked (bs : blk_state_t) x : ktask_t :=
  set_task_blk_obj None (set_blk_state bs (set_tick_head None (set_task_state (woken_state (task_state x)) x))).

(** The queues after the wake-up, [p_act] being the running priority. *)
Definition unblock_queues (p_act : Z) t x o A : queues :=
  <[LTick := lrm t (A LTick)]>
    (if bool_decide (task_state x = K_PEND) then
       <[LReady (prio x) := add_pos (prio x) p_act t (A (LReady (prio x)))]>
         (<[LBlk o := lrm t (A (LBlk o))]> A)
     else <[LBlk o := lrm t (A (LBlk o))]> A).

Definition active_prio s : Z :=
  match g_active_task (gl s) with Some a => prio_of (tcbs s) a | None => 0 end.

Lemma unblocked_ok bl bs x : task_ok bl x -> pended (task_state x) = true -> task_ok bl (unblocked bs x).
Proof.
  intros [Hp _ _ _] Hs. split; simpl; [done| |done|]; by destruct (task_state x).
Qed.

Lemma unblock_mem s A t x o bs i :
  kinv s A -> tcbs s !! t = Some x -> pended (task_state x) = true -> task_blk_obj x = Some o ->
  t ∈ unblock_queues (active_prio s) t x o A i <-> in_list (unblocked bs x) i.
Proof.
  intros HI Ht Hp Ho. pose proof (kinv_in _ _ _ _ i HI Ht) as Hi.
  unfold unblock_queues. destruct i as [p|o'|]; simpl in *.
  - case_bool_decide as Hs; qcases; rewrite ?elem_of_add_pos.
    + rewrite Hs. simpl. naive_solver.
    + rewrite Hi, Hs. simpl. naive_solver.
    + rewrite Hi. destruct (task_state x); naive_solver.
  - assert (t ∉ lrm t (A (LBlk o))) by (rewrite elem_of_lrm; naive_solver).
    assert (pended (woken_state (task_state x)) = false) as -> by by destruct (task_state x).
    case_bool_decide; qcases; rewrite ?Hi, ?Ho; naive_solver.
  - qcases. rewrite elem_of_lrm. naive_solver.
Qed.

Lemma unblock_mem_ne s A t x o u i :
  u <> t -> u ∈ unblock_queues (active_prio s) t x o A i <-> u ∈ A i.
Proof.
  intros Hne. unfold unblock_queues. case_bool_decide; qcases;
    rewrite ?elem_of_lrm, ?elem_of_add_pos; naive_solver.
Qed.

Lemma unblock_kinv s A t x o bs l' q' :
  kinv s A -> tcbs s !! t = Some x -> pended (task_state x) = true -> task_blk_obj x = Some o ->
  srep l' q' (blks (ob s)) (unblock_queues (active_prio s) t x o A) ->
  kinv (mkK l' q' (<[t := unblocked bs x]> (tcbs s)) (gl s) (ob s) (umem s))
    (unblock_queues (active_prio s) t x o A).
Proof.
  intros HI Ht Hp Ho Hs. apply (kinv_update s A); [done|by eexists|done| | | | | |].
  - intros. by apply (unblock_mem_ne s).
  - intros. by apply unblock_mem.
  - apply unblocked_ok; [|done]. by eapply ki_task.
  - intros o' b Ho' Hb. eapply prio_sorted_same_prio; [done..|].
    pose proof (ki_sorted _ _ HI _ _ Ho' Hb) as Hso. unfold unblock_queues.
    case_bool_decide; qcases; by apply StronglySorted_lrm.
  - eapply tick_sorted_same_match; [done..|]. unfold unblock_queues. qcases.
    apply tick_sorted_lrm, HI.
  - pose proof (ki_idle _ _ HI) as Hid. unfold unblock_queues.
    case_bool_decide; qcases. apply add_pos_nonempty.
Qed.

Lemma active_prio_eq s a y : g_active_task (gl s) = Some a -> tcbs s !! a = Some y -> active_prio s = prio y.
Proof. intros Ha Hy. unfold active_prio, prio_of. by rewrite Ha, Hy. Qed.

(** From [task_list] unlinked and re-linked to the end of the function. *)
Lemma wp_unblock_tail s A t x o bs l1 q1 (Q : unit -> kstate -> Prop) :
  kinv s A -> tcbs s !! t = Some x -> pended (task_state x) = true -> task_blk_obj x = Some o ->
  srep l1 q1 (blks (ob s))
    (if bool_decide (task_state x = K_PEND) then
       <[LReady (prio x) := add_pos (prio x) (active_prio s) t (A (LReady (prio x)))]>
         (<[LBlk o := lrm t (A (LBlk o))]> A)
     else <[LBlk o := lrm t (A (LBlk o))]> A) ->
  (forall l' q', kinv (mkK l' q' (<[t := unblocked bs x]> (tcbs s)) (gl s) (ob s) (umem s))
      (unblock_queues (active_prio s) t x o A) ->
     Q tt (mkK l' q' (<[t := unblocked bs x]> (tcbs s)) (gl s) (ob s) (umem s))) ->
  wp (tick_list_rm t ;; task_upd t (set_blk_state bs) ;; task_upd t (set_task_blk_obj None)) Q
    (mkK l1 q1 (<[t := set_task_state (woken_state (task_state x)) x]> (tcbs s)) (gl s) (ob s) (umem s)).
Proof.
  intros HI Ht Hp Ho Hs HQ. set (A1 := if bool_decide _ then _ else _) in *.
  assert (HT : A1 LTick = A LTick) by (unfold A1; case_bool_decide; qcases).
  apply wp_bind. eapply (wp_tick_list_rm (blks (ob s)) A1 t); [apply Hs|by simplify_map_eq| |].
  { rewrite HT. simpl. by apply (kinv_in _ _ _ _ LTick HI). }
  intros l' Hl'. rewrite HT in Hl'. apply wp_bind.
  eapply wp_task_upd; [by simplify_map_eq|]. eapply wp_task_upd; [by simplify_map_eq|].
  unfold with_ltc, with_tc. simpl. rewrite !insert_insert_eq. apply HQ.
  apply unblock_kinv; [done..|]. split; [done|].
  eapply rq_rep_ext; [apply Hs|]. intros p. unfold unblock_queues. by rewrite q_insert, decide_False.
Qed.
End Unblock.

Lemma wp_pend_task_unblock s A t x o bs (Q : unit -> kstate -> Prop) :
  kinv s A -> tcbs s !! t = Some x -> pended (task_state x) = true -> task_blk_obj x = Some o ->
  (forall l' q', kinv (mkK l' q' (<[t := unblocked bs x]> (tcbs s)) (gl s) (ob s) (umem s))
      (unblock_queues (active_prio s) t x o A) ->
     Q tt (mkK l' q' (<[t := unblocked bs x]> (tcbs s)) (gl s) (ob s) (umem s))) ->
  wp (pend_task_unblock t bs) Q s.
Proof.
  intros HI Ht Hp Ho HQ. unfold pend_task_unblock. apply wp_bind, (wp_task_get _ x); [done|].
  destruct (kinv_split _ _ _ _ (LBlk o) HI Ht) as (a & b & Hab & Hl); [by split|].
  destruct (ki_active _ _ HI) as (c & y & Hc & Hy).
  pose proof (ki_rep _ _ HI) as Hrep. pose proof (ok_prio _ _ (ki_task _ _ HI _ _ Ht)) as Hpr.
  apply wp_bind.
  assert (HA1 : forall l', rings l' (nodes (blks (ob s)) (<[LBlk o := a ++ b]> A)) ->
    srep l' (rq s) (blks (ob s)) (<[LBlk o := lrm t (A (LBlk o))]> A)).
  { intros l' Hl'. rewrite Hl. split; [done|]. eapply rq_rep_ext; [apply Hrep|]. intros p. by rewrite q_insert, decide_False. }
  destruct (task_state x) eqn:Es; try done.
  - apply wp_bind, (wp_task_rm (blks (ob s)) A (LBlk o) a t b); [apply Hrep|done|]. intros l1 Hl1.
    apply wp_bind, (wp_ready_list_add (blks (ob s)) (<[LBlk o := lrm t (A (LBlk o))]> A) t x c y); simpl; try done.
    + by apply HA1.
    + rewrite Hl. intros j Hj. apply (tfree_removed _ _ _ (LBlk o) _ _ _ (srep_rings _ _ _ _ Hrep) Hab). by destruct j.
    + intros l2 q2 Hs2. apply (wp_task_upd _ x); [done|].
      eapply (wp_unblock_tail s A t x o bs l2 q2) in HQ; try done.
      * rewrite Es in HQ. exact HQ.
      * by rewrite Es.
      * rewrite Es, bool_decide_true by done. rewrite (active_prio_eq s c y) by done.
        by rewrite q_insert, decide_False in Hs2.
  - apply wp_bind, (wp_task_rm (blks (ob s)) A (LBlk o) a t b); [apply Hrep|done|]. intros l1 Hl1.
    apply (wp_task_upd _ x); [done|].
    eapply (wp_unblock_tail s A t x o bs l1 (rq s)) in HQ; try done.
    + rewrite Es in HQ. exact HQ.
    + by rewrite Es.
    + rewrite Es, bool_decide_false by done. by apply HA1.
Qed.

(** ** Blocking the running task *)

Section Block.
Implicit Types (s : kstate) (A : queues) (t : tid) (x y : ktask_t) (o : oid).

Definition armed (g : kglob) (timeout : Z) x : ktask_t :=
  if timeout =? RHINO_WAIT_FOREVER then x else tick_armed g timeout x.

(** The control block of a task that starts to wait for [o]. *)
Definition blocked (g : kglob) o (timeout : Z) x : ktask_t :=
  set_task_state K_PEND (armed g timeout (set_task_blk_obj (Some o) x)).

Definition blk_insert (pol : blk_policy_t) (tc : gmap tid ktask_t) (p : Z) t (ts : list tid) : list tid :=
  match pol with BLK_POLICY_FIFO => ts ++ [t] | BLK_POLICY_PRI => prio_insert tc p t ts end.

Definition tick_insert (g : kglob) (tc : gmap tid ktask_t) (timeout : Z) t (ts : list tid) : list tid :=
  if timeout =? RHINO_WAIT_FOREVER then ts
  else insert_before (fun u => timeout <? tick_rest g tc u) t ts.

Definition block_queues s (pol : blk_policy_t) o (timeout : Z) t x A : queues :=
  <[LBlk o := blk_insert pol (tcbs s) (prio x) t (A (LBlk o))]>
    (<[LReady (prio x) := lrm t (A (LReady (prio x)))]>
      (<[LTick := tick_insert (gl s) (tcbs s) timeout t (A LTick)]> A)).

Lemma elem_of_blk_insert pol tc p t u ts : u ∈ blk_insert pol tc p t ts <-> u = t \/ u ∈ ts.
Proof. destruct pol; simpl; [apply elem_of_insert_before|set_solver]. Qed.

Lemma elem_of_tick_insert g tc timeout t u ts :
  u ∈ tick_insert g tc timeout t ts <-> (u = t /\ timeout <> RHINO_WAIT_FOREVER) \/ u ∈ ts.
Proof.
  unfold tick_insert. destruct (Z.eqb_spec timeout RHINO_WAIT_FOREVER).
  - naive_solver.
  - rewrite elem_of_insert_before. naive_solver.
Qed.

Lemma prio_insert_sorted tc p t x ts :
  tc !! t = Some x -> p = prio x -> prio_sorted tc ts -> prio_sorted tc (prio_insert tc p t ts).
Proof.
  intros Ht -> Hs. unfold prio_insert. erewrite <- (prio_of_lookup tc t x) by done.
  by apply (insert_before_sorted (prio_of tc)).
Qed.

Lemma blocked_fields g o timeout x :
  task_state (blocked g o timeout x) = K_PEND /\ prio (blocked g o timeout x) = prio x /\
  task_blk_obj (blocked g o timeout x) = Some o /\
  (tick_head (blocked g o timeout x) <> None <-> timeout <> RHINO_WAIT_FOREVER \/ tick_head x <> None).
Proof.
  unfold blocked, armed. destruct (Z.eqb_spec timeout RHINO_WAIT_FOREVER); simpl; naive_solver.
Qed.

(** A timeout the tick handler can represent. *)
Definition timeout_ok (timeout : Z) : Prop := timeout = RHINO_WAIT_FOREVER \/ 0 < timeout < 2 ^ 63.

Lemma timeout_ok_pos timeout : timeout_ok timeout -> 0 < timeout.
Proof. unfold timeout_ok, RHINO_WAIT_FOREVER. lia. Qed.

Lemma tick_rest_armed g tc t time x y :
  0 <= time < 2 ^ 64 -> tick_match y = tick_match (tick_armed g time x) ->
  tick_rest g (<[t := y]> tc) t = time.
Proof.
  intros Ht E. unfold tick_rest. rewrite lookup_insert_eq. simpl. rewrite E. simpl.
  unfold wrap. rewrite Zminus_mod_idemp_l. rewrite Z.add_simpl_l. by apply Z.mod_small.
Qed.

Lemma tick_insert_sorted g tc timeout t x y ts :
  tc !! t = Some x -> timeout_ok timeout -> t ∉ ts -> tick_match y = tick_match (armed g timeout x) ->
  tick_sorted g tc ts -> tick_sorted g (<[t := y]> tc) (tick_insert g tc timeout t ts).
Proof.
  intros Ht Hto Hn E Hs. unfold tick_insert, armed in *.
  assert (Hs' : tick_sorted g (<[t := y]> tc) ts).
  { eapply tick_sorted_ext; [|exact Hs]. intros u Hu. apply tick_rest_insert_ne. by intros ->. }
  destruct (Z.eqb_spec timeout RHINO_WAIT_FOREVER) as [->|Hne]; [done|].
  destruct Hto as [?|Hto]; [done|].
  pose proof (tick_rest_armed g tc t timeout x y ltac:(lia) E) as Er.
  erewrite (insert_before_ext _ (fun u => tick_rest g (<[t := y]> tc) t <? tick_rest g (<[t := y]> tc) u)).
  2:{ intros u Hu. rewrite Er, tick_rest_insert_ne; [done|]. by intros ->. }
  split; [by apply (insert_before_sorted (tick_rest g (<[t := y]> tc))), Hs'|].
  apply Forall_forall. intros u [->|Hu]%elem_of_insert_before; [lia|].
  by eapply (proj1 (Forall_forall _ _) (proj2 Hs')).
Qed.

Lemma block_kinv s A t x o b timeout l' q' :
  kinv s A -> tcbs s !! t = Some x -> task_state x = K_RDY -> prio x <> RHINO_IDLE_PRI ->
  blks (ob s) !! o = Some b -> timeout_ok timeout ->
  srep l' q' (blks (ob s)) (block_queues s (blk_policy b) o timeout t x A) ->
  kinv (mkK l' q' (<[t := blocked (gl s) o timeout x]> (tcbs s)) (gl s) (ob s) (umem s))
    (block_queues s (blk_policy b) o timeout t x A).
Proof.
  intros HI Ht Hst Hpr Ho Hto Hs. destruct (blocked_fields (gl s) o timeout x) as (F1 & F2 & F3 & F4).
  assert (Hin : forall i, t ∈ A i <-> in_list x i) by (intros; by apply (kinv_in s)).
  pose proof (ki_task _ _ HI _ _ Ht) as [Kp Kb Kt Ks].
  assert (tick_head x = None) as Hth.
  { destruct (tick_head x); [|done]. destruct Kt as [K|K]; [done| |]; by rewrite Hst in K. }
  apply (kinv_update s A); [done|by eexists|done| | | | | |].
  - intros u i Hu. unfold block_queues.
    qcases; rewrite ?elem_of_blk_insert, ?elem_of_lrm, ?elem_of_tick_insert; naive_solver.
  - intros i. unfold block_queues. destruct i as [p|o'|]; unfold in_list; rewrite ?F1, ?F2, ?F3, ?F4; simpl.
    + qcases; [rewrite elem_of_lrm|rewrite Hin]; simpl; naive_solver.
    + qcases; [rewrite elem_of_blk_insert|rewrite Hin; simpl; rewrite Hst]; naive_solver.
    + qcases. rewrite elem_of_tick_insert, Hin. simpl. rewrite Hth. naive_solver.
  - split; rewrite ?F1, ?F2, ?F3; simpl; [done|eauto|by left|done].
  - intros o' b' Ho' Hb'. eapply prio_sorted_same_prio; [done..|]. unfold block_queues.
    pose proof (ki_sorted _ _ HI _ _ Ho' Hb') as Hso. qcases.
    rewrite Hb'. simpl. by eapply prio_insert_sorted.
  - unfold block_queues. qcases. eapply tick_insert_sorted; [done..| | |apply HI].
    + rewrite Hin. simpl. rewrite Hth. naive_solver.
    + unfold blocked, armed. by destruct (timeout =? _).
  - pose proof (ki_idle _ _ HI). unfold block_queues. qcases.
Qed.
End Block.

Section BlockWp.
Implicit Types (s : kstate) (A : queues) (t : tid) (x y : ktask_t) (o : oid).

Lemma kinv_dom s A i u : kinv s A -> u ∈ A i -> is_Some (tcbs s !! u).
Proof. intros HI Hu. apply (ki_mem _ _ HI) in Hu as (y & Hy & _). eauto. Qed.

Lemma kinv_idle_rest s A t x :
  kinv s A -> prio x <> RHINO_IDLE_PRI ->
  has_ready (<[LReady (prio x) := lrm t (A (LReady (prio x)))]> A).
Proof.
  intros HI Hp. exists RHINO_IDLE_PRI. rewrite q_insert, decide_False by congruence. apply HI.
Qed.

(** Linking the task into the object's list. *)
Lemma wp_blk_link s A o b t x (Q : unit -> kstate -> Prop) :
  rings (lm s) (nodes (blks (ob s)) A) -> blks (ob s) !! o = Some b -> tcbs s !! t = Some x ->
  tfree A (LBlk o) t -> (forall u, u ∈ A (LBlk o) -> is_Some (tcbs s !! u)) ->
  (forall l', rings l' (nodes (blks (ob s))
      (<[LBlk o := blk_insert (blk_policy b) (tcbs s) (prio x) t (A (LBlk o))]> A)) -> Q tt (with_lm l' s)) ->
  wp (b <- blk_get o ;;
      if bool_decide (blk_policy b = BLK_POLICY_FIFO) then klist_insert (NBlk o) (NTask t)
      else pend_list_add (NBlk o) t) Q s.
Proof.
  intros HG Ho Ht Hf Hd HQ. unfold blk_get. wsteps. destruct (blk_policy b) eqn:Eb; simpl.
  - by apply (wp_pend_list_add (blks (ob s)) A o b t x).
  - apply (wp_task_insert (blks (ob s)) A (LBlk o) (NBlk o) (A (LBlk o)) t []); [done| | |done|done].
    + by eapply hdr_blk.
    + by rewrite app_nil_r.
Qed.

Lemma wp_arm s A t x timeout (Q : unit -> kstate -> Prop) :
  kinv s A -> tcbs s !! t = Some x -> task_state x = K_RDY -> 0 < timeout ->
  forall x1, prio x1 = prio x ->
  (forall l', rings l' (nodes (blks (ob s)) (<[LTick := tick_insert (gl s) (tcbs s) timeout t (A LTick)]> A)) ->
     Q tt (with_ltc l' (<[t := armed (gl s) timeout x1]> (tcbs s)) s)) ->
  wp (when (negb (timeout =? RHINO_WAIT_FOREVER)) (tick_list_insert t timeout)) Q
    (with_tc (<[t := x1]> (tcbs s)) s).
Proof.
  intros HI Ht Hst Hto x1 Hx1 HQ. unfold tick_insert, armed in HQ.
  pose proof (ki_task _ _ HI _ _ Ht) as [Kp Kb Kt Ks].
  assert (t ∉ A LTick) as Hnt.
  { rewrite (kinv_in _ _ _ _ LTick HI Ht). simpl. intros K. apply Kt in K. rewrite Hst in K. by destruct K. }
  destruct (Z.eqb_spec timeout RHINO_WAIT_FOREVER) as [->|Hne]; simpl.
  - apply wp_ret. apply HQ. eapply rings_ext; [apply HI|]. intros j. unfold nodes. by qcases.
  - apply (wp_tick_list_insert (blks (ob s)) A t x1); simpl; [apply HI|by simplify_map_eq|done|done| |].
    + intros u Hu. destruct (decide (u = t)) as [->|]; [done|].
      rewrite lookup_insert_ne by done. by eapply kinv_dom.
    + intros l' Hl'. rewrite insert_insert_eq. apply HQ.
      erewrite (insert_before_ext _ _ _ _) in Hl'; [exact Hl'|]. intros u Hu. simpl.
      unfold tick_rest. rewrite lookup_insert_ne; [done|]. by intros ->.
Qed.

Lemma wp_pend_to_blk_obj s A t x o b timeout (Q : unit -> kstate -> Prop) :
  kinv s A -> tcbs s !! t = Some x -> task_state x = K_RDY -> prio x <> RHINO_IDLE_PRI ->
  blks (ob s) !! o = Some b -> timeout_ok timeout ->
  (forall l' q',
     kinv (mkK l' q' (<[t := blocked (gl s) o timeout x]> (tcbs s)) (gl s) (ob s) (umem s))
       (block_queues s (blk_policy b) o timeout t x A) ->
     Q tt (mkK l' q' (<[t := blocked (gl s) o timeout x]> (tcbs s)) (gl s) (ob s) (umem s))) ->
  wp (pend_to_blk_obj o t timeout) Q s.
Proof.
  intros HI Ht Hst Hpr Ho Hto HQ. unfold pend_to_blk_obj.
  apply wp_bind, (wp_task_upd _ x); [done|].
  apply wp_bind, (wp_arm s A t x timeout); [done..|by apply timeout_ok_pos|done|]. intros l1 Hl1.
  apply wp_bind. eapply wp_task_upd; [by simplify_map_eq|]. unfold with_ltc, with_tc; simpl.
  rewrite insert_insert_eq. fold (blocked (gl s) o timeout x).
  set (A1 := <[LTick := _]> A) in *.
  assert (EA : A1 (LReady (prio x)) = A (LReady (prio x))) by (unfold A1; by rewrite q_insert, decide_False).
  assert (EB : A1 (LBlk o) = A (LBlk o)) by (unfold A1; by rewrite q_insert, decide_False).
  destruct (kinv_split _ _ _ _ (LReady (prio x)) HI Ht) as (a & c & Hac & Hl); [by split|].
  destruct (blocked_fields (gl s) o timeout x) as (_ & F2 & _ & _).
  apply wp_bind, (wp_ready_list_rm (blks (ob s)) A1 t (blocked (gl s) o timeout x) a c); rewrite ?F2; simpl.
  - split; [done|]. eapply rq_rep_ext; [apply HI|]. intros p. unfold A1. by rewrite q_insert, decide_False.
  - by simplify_map_eq.
  - by eapply ok_prio, ki_task.
  - by rewrite EA.
  - exists RHINO_IDLE_PRI. unfold A1. rewrite !q_insert, !decide_False by congruence. apply HI.
  - intros l2 q2 Hs2. rewrite <- Hl in Hs2.
    apply (wp_blk_link _ (<[LReady (prio x) := lrm t (A (LReady (prio x)))]> A1) o b t (blocked (gl s) o timeout x)); simpl.
    + apply Hs2.
    + done.
    + by simplify_map_eq.
    + rewrite Hl. intros j Hj. apply (tfree_removed _ _ _ (LReady (prio x)) _ _ _ Hl1); [by rewrite EA|].
      by destruct j.
    + intros u. rewrite q_insert, decide_False by done. rewrite EB. intros Hu.
      destruct (decide (u = t)) as [->|]; simplify_map_eq; [done|]. by eapply kinv_dom.
    + intros l3 Hl3. apply HQ. apply block_kinv; [done..|].
      rewrite q_insert, decide_False, EB in Hl3 by done.
      change (prio (armed (gl s) timeout (set_task_blk_obj (Some o) x))) with (prio (blocked (gl s) o timeout x)) in Hl3.
      rewrite F2 in Hl3.
      unfold block_queues. fold A1.
      assert (t ∉ A (LBlk o)) as Hnb.
      { rewrite (kinv_in _ _ _ _ (LBlk o) HI Ht). simpl. rewrite Hst. naive_solver. }
      replace (blk_insert (blk_policy b) (tcbs s) (prio x) t (A (LBlk o)))
        with (blk_insert (blk_policy b) (<[t:=blocked (gl s) o timeout x]> (tcbs s)) (prio x) t (A (LBlk o))).
      2:{ destruct (blk_policy b); [|done]. apply insert_before_ext. intros u Hu.
          rewrite prio_of_insert_ne; [done|]. by intros ->. }
      split; [exact Hl3|]. eapply rq_rep_ext; [apply Hs2|]. intros p. by rewrite q_insert, decide_False.
Qed.
End BlockWp.
