(* ===== verification/MInv.v ===== *)
(** * The mutex invariant and priority inheritance

    [minv h s C]: [C t] is the list of mutexes task [t] holds, linked through
    [mutex_list]; a mutex is in the list of its owner only; a task that waits
    for a mutex waits for another task.  While a mutex is handed over it is
    the hole [h]: it is in no list.

    [pinv s A C]: priority inheritance.  The priority of every task is the
    highest among its base priority and the priorities of the tasks that wait
    for a mutex it holds. *)

From stdpp Require Import functions.
From S2P Require Import Prelude.
From S2P Require Import Monad.
From S2P Require Import Links.
From S2P Require Import KState.
From S2P Require Import Bitmap.
From S2P Require Import Sched.
From S2P Require Import Pend.
From S2P Require Import Inv.

(** ** Definitions *)

Definition live (st : task_stat_t) : bool :=
  match st with K_SEED | K_DELETED => false | _ => true end.

Definition is_mutex (o : kobjs) (m : oid) : Prop :=
  exists b, blks o !! m = Some b /\ obj_type b = RHINO_MUTEX_OBJ_TYPE.

(** From [p] the [mutex_list] fields lead through [ms] to NULL. *)
Fixpoint mchain (mm : gmap oid kmutex_t) (p : option oid) (ms : list oid) : Prop :=
  match ms with
  | [] => p = None
  | m :: r => p = Some m /\ exists v, mm !! m = Some v /\ mchain mm (mutex_list v) r
  end.

Record minv (h : option oid) (s : kstate) (C : tid -> list oid) : Prop := mkMinv {
  mi_chain : forall t x, tcbs s !! t = Some x -> live (task_state x) = true ->
    mchain (mutexes (ob s)) (task_mutex_list x) (C t);
  mi_own : forall t m, m ∈ C t <->
    Some m <> h /\ is_mutex (ob s) m /\ exists v, mutexes (ob s) !! m = Some v /\ mutex_task v = Some t;
  mi_owner : forall t m, m ∈ C t ->
    exists x, tcbs s !! t = Some x /\ live (task_state x) = true /\ b_prio x <> RHINO_IDLE_PRI;
  mi_wait : forall t x m, tcbs s !! t = Some x -> pended (task_state x) = true ->
    task_blk_obj x = Some m -> is_mutex (ob s) m -> Some m <> h -> exists u, m ∈ C u /\ u <> t;
  mi_mutex : forall m b, blks (ob s) !! m = Some b -> obj_type b = RHINO_MUTEX_OBJ_TYPE ->
    blk_policy b = BLK_POLICY_PRI /\ is_Some (mutexes (ob s) !! m);
  mi_prio : forall t x, tcbs s !! t = Some x ->
    0 <= b_prio x < RHINO_CONFIG_PRI_MAX /\ (b_prio x = RHINO_IDLE_PRI <-> prio x = RHINO_IDLE_PRI) /\
    (prio x = RHINO_IDLE_PRI -> task_state x = K_RDY);
}.

(** [p] is the least of [b] and the priorities of the tasks in [P]. *)
Definition is_min (tc : gmap tid ktask_t) (b : Z) (P : tid -> Prop) (p : Z) : Prop :=
  p <= b /\ (forall u, P u -> p <= prio_of tc u) /\ (p = b \/ exists u, P u /\ p = prio_of tc u).

(** [u] waits for a mutex that [t] holds. *)
Definition waits (A : queues) (C : tid -> list oid) (t u : tid) : Prop :=
  exists m, m ∈ C t /\ u ∈ A (LBlk m).

Definition base_of (tc : gmap tid ktask_t) (t : tid) : Z := default 0 (b_prio <$> tc !! t).

Definition pinv_at (s : kstate) (A : queues) (C : tid -> list oid) (B : tid -> Z) (t : tid) : Prop :=
  forall x, tcbs s !! t = Some x -> live (task_state x) = true ->
    is_min (tcbs s) (B t) (waits A C t) (prio x).

Definition pinv (s : kstate) (A : queues) (C : tid -> list oid) : Prop :=
  forall t, pinv_at s A C (base_of (tcbs s)) t.

(** ** Minima *)

Section Min.
Implicit Types (tc : gmap tid ktask_t) (P : tid -> Prop) (p b : Z).

Lemma is_min_unique tc b P p q : is_min tc b P p -> is_min tc b P q -> p = q.
Proof.
  intros (H1 & H2 & H3) (G1 & G2 & G3).
  assert (p <= q) by (destruct G3 as [->|(u & Hu & ->)]; auto).
  assert (q <= p) by (destruct H3 as [->|(u & Hu & ->)]; auto). lia.
Qed.

Lemma is_min_ext tc tc' b P P' p :
  is_min tc b P p -> (forall u, P' u <-> P u) -> (forall u, P u -> prio_of tc' u = prio_of tc u) ->
  is_min tc' b P' p.
Proof.
  intros (H1 & H2 & H3) HP Hp. split_and!; [done| |].
  - intros u Hu. apply HP in Hu. rewrite Hp by done. by apply H2.
  - destruct H3 as [->|(u & Hu & ->)]; [by left|right]. exists u.
    rewrite HP, Hp by done. done.
Qed.

Lemma is_min_none tc b P : (forall u, ~ P u) -> is_min tc b P b.
Proof. intros HP. split_and!; [done| |by left]. intros u Hu. by destruct (HP u). Qed.

(** A member moves from [old] to [new]; the minimum was attained elsewhere
    or is below both. *)
Lemma is_min_keep tc tc' b P p t :
  is_min tc b P p -> (forall u, u <> t -> prio_of tc' u = prio_of tc u) ->
  (P t -> p <= prio_of tc' t) -> (P t -> p <> prio_of tc t) -> is_min tc' b P p.
Proof.
  intros (H1 & H2 & H3) Hne Ht Hnot. split_and!; [done| |].
  - intros u Hu. destruct (decide (u = t)) as [->|]; [by apply Ht|]. rewrite Hne by done. by apply H2.
  - destruct H3 as [->|(u & Hu & Hp)]; [by left|right]. exists u. split; [done|].
    destruct (decide (u = t)) as [->|]; [by destruct (Hnot Hu)|]. by rewrite Hne.
Qed.

(** A bound below the base stands for a member. *)
Lemma is_min_absorb tc b q P P' p a :
  is_min tc (Z.min b q) P p -> prio_of tc a = q -> (forall u, P' u <-> P u \/ u = a) -> is_min tc b P' p.
Proof.
  intros (H1 & H2 & H3) Hq HP. split_and!; [lia| |].
  - intros u [Hu| ->]%HP; [by apply H2|lia].
  - destruct H3 as [E|(u & Hu & E)].
    + destruct (Z.min_spec b q) as [[_ Em]|[_ Em]]; [left; lia|right]. exists a. rewrite HP. split; [by right|lia].
    + right. exists u. rewrite HP. auto.
Qed.

Lemma is_min_bound tc b q P p : is_min tc b P p -> p <= q -> is_min tc (Z.min b q) P p.
Proof.
  intros (H1 & H2 & H3) Hq. split_and!; [lia|done|]. destruct H3 as [->|?]; [left; lia|by right].
Qed.

(** A member below the minimum becomes the minimum. *)
Lemma is_min_below tc tc' b P p t q :
  is_min tc b P p -> (forall u, u <> t -> prio_of tc' u = prio_of tc u) ->
  P t -> prio_of tc' t = q -> q < p -> is_min tc' b P q.
Proof.
  intros (H1 & H2 & H3) Hne Ht Hq Hlt. split_and!; [lia| |].
  - intros u Hu. destruct (decide (u = t)) as [->|]; [lia|]. rewrite Hne by done.
    specialize (H2 u Hu). lia.
  - right. exists t. by rewrite Hq.
Qed.
End Min.

(** ** Chains *)

Section Chain.
Implicit Types (mm : gmap oid kmutex_t) (ms : list oid).

Lemma mchain_unique mm p ms ms' : mchain mm p ms -> mchain mm p ms' -> ms = ms'.
Proof.
  revert p ms'. induction ms as [|m ms IH]; intros p [|m' ms']; simpl; intros H H'.
  - done.
  - destruct H' as [-> _]. done.
  - destruct H as [-> _]. done.
  - destruct H as (-> & v & Hv & H), H' as ([= <-] & v' & Hv' & H'). simplify_eq.
    f_equal. by eapply IH.
Qed.

Lemma mchain_suffix mm p a m b : mchain mm p (a ++ m :: b) ->
  exists v, mm !! m = Some v /\ mchain mm (mutex_list v) b.
Proof.
  revert p. induction a as [|n a IH]; intros p; simpl.
  - intros (_ & v & ?). eauto.
  - intros (_ & v & _ & H). eauto.
Qed.

Lemma mchain_nodup mm p ms : mchain mm p ms -> NoDup ms.
Proof.
  revert p. induction ms as [|m ms IH]; intros p; simpl; [constructor|].
  intros (-> & v & Hv & H). constructor; [|by eapply IH]. intros Hin.
  apply list_elem_of_split in Hin as (a & b & ->).
  pose proof (mchain_suffix _ _ _ _ _ H) as (v' & Hv' & H'). simplify_eq.
  pose proof (mchain_unique _ _ _ _ H H') as E. apply (f_equal length) in E.
  rewrite length_app in E. simpl in E. lia.
Qed.

Lemma mchain_dom mm p ms m : mchain mm p ms -> m ∈ ms -> is_Some (mm !! m).
Proof.
  intros H (a & b & ->)%list_elem_of_split. apply mchain_suffix in H as (v & ? & _). eauto.
Qed.

Lemma mchain_length mm p ms : mchain mm p ms -> (length ms <= size mm)%nat.
Proof.
  intros H. assert (Hd : (list_to_set ms : gset oid) ⊆ dom mm).
  { intros m Hm. apply elem_of_list_to_set in Hm. apply elem_of_dom. by eapply mchain_dom. }
  apply subseteq_size in Hd. rewrite size_list_to_set in Hd by by eapply mchain_nodup.
  by rewrite size_dom in Hd.
Qed.

(** The chain only reads the links of its own mutexes. *)
Lemma mchain_ext mm mm' p ms :
  mchain mm p ms -> (forall m, m ∈ ms -> mutex_list <$> mm' !! m = mutex_list <$> mm !! m) -> mchain mm' p ms.
Proof.
  revert p. induction ms as [|m ms IH]; intros p; simpl; [done|].
  intros (-> & v & Hv & H) He. split; [done|]. pose proof (He m ltac:(set_solver)) as Em.
  rewrite Hv in Em. simpl in Em. destruct (mm' !! m) as [v'|]; [|done]. injection Em as Em.
  exists v'. split; [done|]. rewrite Em. apply IH; [done|]. intros n Hn. apply He. set_solver.
Qed.
End Chain.

(** ** Preservation *)

Lemma prio_of_set_prio tc t x p : prio_of (<[t := set_prio p x]> tc) t = p.
Proof. unfold prio_of. by rewrite lookup_insert_eq. Qed.

Lemma base_of_insert tc t x y u : tc !! t = Some x -> b_prio y = b_prio x -> base_of (<[t := y]> tc) u = base_of tc u.
Proof.
  intros Ht E. unfold base_of. destruct (decide (u = t)) as [->|].
  - by rewrite lookup_insert_eq, Ht; simpl; rewrite E.
  - by rewrite lookup_insert_ne.
Qed.

Section Frame.
Implicit Types (s : kstate) (A : queues) (C : tid -> list oid) (t : tid) (x y : ktask_t).

Lemma mi_unique h s C m t u : minv h s C -> m ∈ C t -> m ∈ C u -> t = u.
Proof.
  intros HM Ht Hu. apply (mi_own _ _ _ HM) in Ht as (_ & _ & v & Hv & E), Hu as (_ & _ & v' & Hv' & E').
  simplify_eq. congruence.
Qed.

(** A waiter of [t] is another task. *)
Lemma waits_irrefl h s A C t : kinv s A -> minv h s C -> ~ waits A C t t.
Proof.
  intros HI HM (m & Hm & Hw). apply (ki_mem _ _ HI) in Hw as (x & Hx & Hp & Ho).
  pose proof (proj1 (mi_own _ _ _ HM _ _) Hm) as (Hh & Hmx & _).
  destruct (mi_wait _ _ _ HM _ _ _ Hx Hp Ho Hmx Hh) as (u & Hu & Hne).
  apply Hne. by eapply mi_unique.
Qed.

(** A waiter waits for one task. *)
Lemma waits_unique h s A C t t' u : kinv s A -> minv h s C -> waits A C t u -> waits A C t' u -> t = t'.
Proof.
  intros HI HM (m & Hm & Hw) (m' & Hm' & Hw').
  apply (ki_mem _ _ HI) in Hw as (x & Hx & Hp & Ho), Hw' as (x' & Hx' & Hp' & Ho').
  simplify_eq. by eapply mi_unique.
Qed.

(** One task changes in fields the mutex invariant does not read, or stops
    or starts to wait for something that is not a mutex. *)
Record mutex_same (o : kobjs) x y : Prop := mkMutexSame {
  ms_list : task_mutex_list y = task_mutex_list x;
  ms_live : live (task_state y) = live (task_state x);
  ms_prio : prio y = prio x;
  ms_bprio : b_prio y = b_prio x;
  ms_idle : prio x = RHINO_IDLE_PRI -> task_state x = K_RDY -> task_state y = K_RDY;
  ms_wait : forall m, pended (task_state y) = true -> task_blk_obj y = Some m -> is_mutex o m ->
    pended (task_state x) = true /\ task_blk_obj x = Some m;
}.

Lemma minv_task_wait h l' q' um g' s C t x y :
  minv h s C -> tcbs s !! t = Some x -> task_mutex_list y = task_mutex_list x ->
  live (task_state y) = live (task_state x) -> prio y = prio x -> b_prio y = b_prio x ->
  (prio x = RHINO_IDLE_PRI -> task_state x = K_RDY -> task_state y = K_RDY) ->
  (forall m, pended (task_state y) = true -> task_blk_obj y = Some m -> is_mutex (ob s) m -> Some m <> h ->
     exists u, m ∈ C u /\ u <> t) ->
  minv h (mkK l' q' (<[t := y]> (tcbs s)) g' (ob s) um) C.
Proof.
  intros HM Ht E1 E2 E3 E4 E6 E5. pose proof HM as [H1 H2 H3 H4 H5 H6]. split; simpl; [|done| | |done|].
  - intros u z. destruct (decide (u = t)) as [->|]; simplify_map_eq; [|by apply H1].
    intros [= <-]. rewrite E1, E2. by apply H1.
  - intros u m Hm. destruct (H3 u m Hm) as (z & Hz & ? & ?).
    destruct (decide (u = t)) as [->|]; simplify_map_eq; [|by exists z].
    exists y. by rewrite E2, E4.
  - intros u z m. destruct (decide (u = t)) as [->|]; simplify_map_eq; [|by apply H4].
    intros [= <-] Hp Ho Hm Hh. by eapply E5.
  - intros u z. destruct (decide (u = t)) as [->|]; simplify_map_eq; [|by apply H6].
    intros [= <-]. rewrite E3, E4. destruct (H6 t x Ht) as (? & ? & ?). auto.
Qed.

Lemma minv_task h l' q' um g' s C t x y :
  minv h s C -> tcbs s !! t = Some x -> mutex_same (ob s) x y ->
  minv h (mkK l' q' (<[t := y]> (tcbs s)) g' (ob s) um) C.
Proof.
  intros HM Ht [E1 E2 E3 E4 E6 E5]. eapply minv_task_wait; [done..|].
  intros m Hp Ho Hm Hh. destruct (E5 m Hp Ho Hm). by eapply mi_wait.
Qed.

(** Waiting lists of mutexes keep their members, priorities do not change. *)
Lemma pinv_task h l' q' um g' s A A' C t x y :
  minv h s C -> pinv s A C -> tcbs s !! t = Some x -> mutex_same (ob s) x y ->
  (forall m u, is_mutex (ob s) m -> Some m <> h -> u ∈ A' (LBlk m) <-> u ∈ A (LBlk m)) ->
  pinv (mkK l' q' (<[t := y]> (tcbs s)) g' (ob s) um) A' C.
Proof.
  intros HM HP Ht [E1 E2 E3 E4 E6 E5] HA u z Hz Hl. simpl in *.
  assert (exists z', tcbs s !! u = Some z' /\ live (task_state z') = true /\ prio z' = prio z) as (z' & Hz' & Hl' & Ep).
  { destruct (decide (u = t)) as [->|]; simplify_map_eq; [|by exists z]. exists x. by rewrite <- E2, E3. }
  rewrite (base_of_insert _ _ _ _ _ Ht E4), <- Ep.
  eapply is_min_ext; [by apply (HP u)| |].
  - intros w. split; intros (m & Hm & Hw); exists m; (split; [done|]); eapply HA; eauto;
      by apply (mi_own _ _ _ HM) in Hm as (? & ? & _).
  - intros w _. unfold prio_of. destruct (decide (w = t)) as [->|]; simplify_map_eq; [|done]. by rewrite E3.
Qed.
End Frame.
