(* ===== verification/RingBuf.v ===== *)
(** * Ring buffers (k_ringbuf.c)

    The byte buffer behind queues and buffer queues.  A buffer of the fixed
    kind holds blocks of one size; a buffer of the dynamic kind holds
    messages, each after a length of one to three bytes.  Both are FIFO
    queues: the theorems relate the operations to a list of messages. *)

From S2P Require Import Prelude.
From S2P Require Import Monad.
From S2P Require Import Links.
From S2P Require Import KState.

Definition RINGBUF_TYPE_FIX : Z := 0.
Definition RINGBUF_TYPE_DYN : Z := 1.
Definition RINGBUF_LEN_MAX_SIZE : nat := 3.
Definition RINGBUF_LEN_MASK_ONEBIT : Z := 0x80.
Definition RINGBUF_LEN_MASK_TWOBIT : Z := 0xC0.
Definition RINGBUF_LEN_MASK_CLEAN_TWOBIT : Z := 0x3f.
Definition RINGBUF_LEN_VLE_2BYTES : Z := 0x80.
Definition RINGBUF_LEN_VLE_3BYTES : Z := 0xC0.
Definition RINGBUF_LEN_1BYTE_MAXVALUE : Z := 0x7f.
Definition RINGBUF_LEN_2BYTES_MAXVALUE : Z := 0x3fff.
Definition RINGBUF_LEN_3BYTES_MAXVALUE : Z := 0x3fffff.

(** The number of length bytes; for longer messages the macro yields the
    number of the status RHINO_INV_PARAM. *)
Definition COMPRESS_LEN (x : Z) : nat :=
  if x <=? RINGBUF_LEN_1BYTE_MAXVALUE then 1
  else if x <=? RINGBUF_LEN_2BYTES_MAXVALUE then 2
  else if x <=? RINGBUF_LEN_3BYTES_MAXVALUE then 3
  else 5.

(** In [k_ringbuf_t], [rb_mem] is the memory from [buf] to [end]; [head] and
    [tail] are offsets from [buf].  Sizes are at most the size of the memory,
    so [size_t] does not wrap. *)
Definition rb_end (r : k_ringbuf_t) : nat := length (rb_mem r).

(** [memcpy] to and from the buffer; an access past its end is a fault. *)
Definition mem_write (m : list Z) (off : nat) (d : list Z) : option (list Z) :=
  if (off + length d <=? length m)%nat then Some (take off m ++ d ++ drop (off + length d) m) else None.
Definition mem_read (m : list Z) (off n : nat) : option (list Z) :=
  if (off + n <=? length m)%nat then Some (take n (drop off m)) else None.
(** [n] bytes of the caller's data; reading past its end is a fault. *)
Definition src_read (d : list Z) (n : nat) : option (list Z) :=
  if (n <=? length d)%nat then Some (take n d) else None.

Definition ringbuf_reset (r : k_ringbuf_t) : k_ringbuf_t :=
  mkRB (rb_mem r) 0 0 (rb_end r) (rb_type r) (rb_blk_size r).

Definition ringbuf_init (buf : list Z) (type : Z) (block_size : nat) : k_ringbuf_t :=
  ringbuf_reset (mkRB buf 0 0 0 type block_size).

Definition ringbuf_is_full (r : k_ringbuf_t) : bool :=
  if (rb_type r =? RINGBUF_TYPE_DYN) && (rb_freesize r <? 2)%nat then true
  else if (rb_type r =? RINGBUF_TYPE_FIX) && (rb_freesize r <? rb_blk_size r)%nat then true
  else false.

Definition ringbuf_is_empty (r : k_ringbuf_t) : bool := (rb_freesize r =? rb_end r)%nat.

(** The bytes of the big-endian length; only the low 32 bits are used. *)
Definition be_byte (n : Z) (i : Z) : Z := Z.land (Z.shiftr n (8 * (3 - i))) 0xff.

Definition ringbuf_headlen_compress (head_len : Z) : nat * list Z :=
  let p_len := be_byte head_len in
  let len_bytes := COMPRESS_LEN head_len in
  (len_bytes,
   match len_bytes with
   | 1%nat => [Z.land RINGBUF_LEN_1BYTE_MAXVALUE (p_len 3)]
   | 2%nat => [Z.lor RINGBUF_LEN_VLE_2BYTES (p_len 2); p_len 3]
   | 3%nat => [Z.lor RINGBUF_LEN_VLE_3BYTES (p_len 1); p_len 2; p_len 3]
   | _ => []
   end).

Definition be_value (bs : list Z) : Z := foldl (fun a b => a * 256 + b) 0 bs.

Definition ringbuf_headlen_decompress (buf_len : nat) (cmp_buf : list Z) : Z :=
  be_value (match take buf_len cmp_buf with
            | b :: r => (if (1 <? buf_len)%nat then Z.land b RINGBUF_LEN_MASK_CLEAN_TWOBIT else b) :: r
            | [] => []
            end).

(** Copying [d] in at the tail, split at the end of the buffer. *)
Definition ringbuf_put (r : k_ringbuf_t) (d : list Z) : option k_ringbuf_t :=
  let tail := if (rb_tail r =? rb_end r)%nat then 0%nat else rb_tail r in
  let split_len := (rb_end r - tail)%nat in
  if (rb_head r <=? tail)%nat && (split_len <? length d)%nat && (0 <? split_len)%nat then
    m1 ← mem_write (rb_mem r) tail (take split_len d);
    m2 ← mem_write m1 0 (drop split_len d);
    Some (mkRB m2 (rb_head r) (length d - split_len) (rb_freesize r - split_len - (length d - split_len)) (rb_type r) (rb_blk_size r))
  else
    m1 ← mem_write (rb_mem r) tail d;
    Some (mkRB m1 (rb_head r) (tail + length d) (rb_freesize r - length d) (rb_type r) (rb_blk_size r)).

Definition ringbuf_push (r : k_ringbuf_t) (data : list Z) (len : nat) : option (kstat_t * k_ringbuf_t) :=
  if ringbuf_is_full r then Some (RHINO_RINGBUF_FULL, r)
  else if rb_type r =? RINGBUF_TYPE_FIX then
    let tail := if (rb_tail r =? rb_end r)%nat then 0%nat else rb_tail r in
    d ← src_read data (rb_blk_size r);
    m ← mem_write (rb_mem r) tail d;
    Some (RHINO_SUCCESS, mkRB m (rb_head r) (tail + rb_blk_size r) (rb_freesize r - rb_blk_size r) (rb_type r) (rb_blk_size r))
  else
    let '(len_bytes, c_len) := ringbuf_headlen_compress (Z.of_nat len) in
    if (len_bytes =? 0)%nat || (RINGBUF_LEN_MAX_SIZE <? len_bytes)%nat then Some (RHINO_INV_PARAM, r)
    else if (rb_freesize r <? len_bytes + len)%nat then Some (RHINO_RINGBUF_FULL, r)
    else
      r1 ← ringbuf_put r c_len;
      d ← src_read data len;
      r2 ← ringbuf_put r1 d;
      Some (RHINO_SUCCESS, r2).

(** Taking [len_bytes] bytes out at the head, split at the end of the buffer. *)
Definition ringbuf_get_head (r : k_ringbuf_t) (len_bytes : nat) : option (list Z * k_ringbuf_t) :=
  let split_len := (rb_end r - rb_head r)%nat in
  if (split_len <? len_bytes)%nat && (0 <? split_len)%nat then
    d1 ← mem_read (rb_mem r) (rb_head r) split_len;
    d2 ← mem_read (rb_mem r) 0 (len_bytes - split_len);
    Some (d1 ++ d2, mkRB (rb_mem r) (len_bytes - split_len) (rb_tail r)
                      (rb_freesize r + split_len + (len_bytes - split_len)) (rb_type r) (rb_blk_size r))
  else
    d ← mem_read (rb_mem r) (rb_head r) len_bytes;
    Some (d, mkRB (rb_mem r) (rb_head r + len_bytes) (rb_tail r) (rb_freesize r + len_bytes) (rb_type r) (rb_blk_size r)).

(** Copying [len] bytes of data out. *)
Definition ringbuf_get_data (r : k_ringbuf_t) (len : nat) : option (list Z * k_ringbuf_t) :=
  let head := if (rb_head r =? rb_end r)%nat then 0%nat else rb_head r in
  let split_len := (rb_end r - head)%nat in
  if (rb_tail r <? head)%nat && (split_len <? len)%nat then
    d1 ← mem_read (rb_mem r) head split_len;
    d2 ← mem_read (rb_mem r) 0 (len - split_len);
    Some (d1 ++ d2, mkRB (rb_mem r) (len - split_len) (rb_tail r)
                      (rb_freesize r + split_len + (len - split_len)) (rb_type r) (rb_blk_size r))
  else
    d ← mem_read (rb_mem r) head len;
    Some (d, mkRB (rb_mem r) (head + len) (rb_tail r) (rb_freesize r + len) (rb_type r) (rb_blk_size r)).

(** The number of length bytes, from the first of them. *)
Definition decode_len_bytes (b : Z) : option nat :=
  if Z.land b RINGBUF_LEN_MASK_ONEBIT =? 0 then Some 1%nat
  else if Z.land b RINGBUF_LEN_MASK_TWOBIT =? RINGBUF_LEN_VLE_2BYTES then Some 2%nat
  else if Z.land b RINGBUF_LEN_MASK_TWOBIT =? RINGBUF_LEN_VLE_3BYTES then Some 3%nat
  else None.

(** The result carries the bytes stored through [pdata] and, with it, the
    length stored through [plen]. *)
Definition ringbuf_pop (r : k_ringbuf_t) : option (kstat_t * list Z * k_ringbuf_t) :=
  if ringbuf_is_empty r then Some (RHINO_RINGBUF_EMPTY, [], r)
  else
    let head := if (rb_head r =? rb_end r)%nat then 0%nat else rb_head r in
    let r0 := mkRB (rb_mem r) head (rb_tail r) (rb_freesize r) (rb_type r) (rb_blk_size r) in
    if rb_type r =? RINGBUF_TYPE_FIX then
      d ← mem_read (rb_mem r) head (rb_blk_size r);
      Some (RHINO_SUCCESS, d, mkRB (rb_mem r) (head + rb_blk_size r) (rb_tail r)
                                (rb_freesize r + rb_blk_size r) (rb_type r) (rb_blk_size r))
    else
      b ← rb_mem r !! head;
      match decode_len_bytes b with
      | None => Some (RHINO_INV_PARAM, [], r0)
      | Some len_bytes =>
          '(c_len, r1) ← ringbuf_get_head r0 len_bytes;
          '(d, r2) ← ringbuf_get_data r1 (Z.to_nat (ringbuf_headlen_decompress len_bytes c_len));
          Some (RHINO_SUCCESS, d, r2)
      end.

(** ** The circular view *)

Section View.
Implicit Types (m d : list Z) (h t k n i j : nat).

Definition cview m h k : list Z := (fun j => m !!! ((h + j) mod length m)%nat) <$> seq 0 k.

Lemma cview_length m h k : length (cview m h k) = k.
Proof. unfold cview. by rewrite length_fmap, length_seq. Qed.

Lemma cview_lookup m h k j : (j < k)%nat -> cview m h k !! j = Some (m !!! ((h + j) mod length m)%nat).
Proof. intros Hj. unfold cview. by rewrite list_lookup_fmap, lookup_seq_lt. Qed.

Lemma cview_ext m m' h h' k :
  (forall j, (j < k)%nat -> m' !!! ((h' + j) mod length m')%nat = m !!! ((h + j) mod length m)%nat) ->
  cview m' h' k = cview m h k.
Proof.
  intros H. apply list_eq. intros j. destruct (decide (j < k)%nat) as [Hj|Hj].
  - by rewrite !cview_lookup, H.
  - rewrite !lookup_ge_None_2; [done|rewrite cview_length; lia..].
Qed.

Lemma cview_app m h a b : cview m h (a + b) = cview m h a ++ cview m (h + a) b.
Proof.
  unfold cview. rewrite seq_app, fmap_app. f_equal. change (0 + a)%nat with a.
  rewrite <- (Nat.add_0_r a) at 1. rewrite <- fmap_add_seq, <- list_fmap_compose. apply list_fmap_ext.
  intros ? j _. simpl. by rewrite Nat.add_assoc.
Qed.

Lemma cview_mod m h k : cview m (h mod length m) k = cview m h k.
Proof. apply cview_ext. intros j _. by rewrite Nat.Div0.add_mod_idemp_l. Qed.

(** A stretch that does not wrap. *)
Lemma cview_flat m h k : (h + k <= length m)%nat -> cview m h k = take k (drop h m).
Proof.
  intros Hk. apply list_eq. intros j. destruct (decide (j < k)%nat) as [Hj|Hj].
  - rewrite cview_lookup by done. rewrite lookup_take_lt, lookup_drop by done.
    rewrite Nat.mod_small by lia. symmetry. apply list_lookup_lookup_total_lt. lia.
  - rewrite !lookup_ge_None_2; [done|rewrite length_take, length_drop; lia|rewrite cview_length; lia].
Qed.

Lemma mod_apart n a b : (a < b)%nat -> (b - a < n)%nat -> (a mod n)%nat <> (b mod n)%nat.
Proof.
  intros Hab Hn E. assert (n <> 0)%nat as Hz by lia.
  pose proof (Nat.div_mod a n Hz) as Ha. pose proof (Nat.div_mod b n Hz) as Hb. rewrite E in Ha.
  set (qa := (a / n)%nat) in *. set (qb := (b / n)%nat) in *. set (r := (b mod n)%nat) in *. clearbody qa qb r.
  assert (qa < qb)%nat by nia. assert (n * (qa + 1) <= n * qb)%nat by nia. nia.
Qed.

(** [m'] is [m] with [d] written at [t], [t + 1], ... around the end. *)
Definition cwrote m m' t d : Prop :=
  length m' = length m /\
  forall p, (p < length m)%nat ->
    (forall i, (i < length d)%nat -> p = ((t + i) mod length m)%nat -> m' !!! p = d !!! i) /\
    ((forall i, (i < length d)%nat -> p <> ((t + i) mod length m)%nat) -> m' !!! p = m !!! p).

Lemma cview_wrote m m' h u t d :
  cwrote m m' t d -> ((h + u) mod length m = t mod length m)%nat -> (u + length d <= length m)%nat ->
  cview m' h (u + length d) = cview m h u ++ d.
Proof.
  intros [Hl Hw] Ht Hu. rewrite cview_app. destruct (decide (length m = 0%nat)) as [E0|Hn0].
  { assert (u = 0%nat /\ d = []) as [-> ->] by (destruct d; simpl in Hu; [split; [lia|done]|lia]). done. }
  assert (Hmod : forall p, (p mod length m < length m)%nat) by (intros; by apply Nat.mod_upper_bound).
  assert (Hs : forall i, ((t + i) mod length m = (h + u + i) mod length m)%nat).
  { intros i. by rewrite <- (Nat.Div0.add_mod_idemp_l t), <- Ht, Nat.Div0.add_mod_idemp_l. }
  f_equal.
  - apply cview_ext. intros j Hj. rewrite Hl. apply Hw; [apply Hmod|]. intros i Hi.
    rewrite Hs. apply mod_apart; lia.
  - apply list_eq. intros j. destruct (decide (j < length d)%nat) as [Hj|Hj].
    + rewrite cview_lookup by done. rewrite Hl. rewrite (list_lookup_lookup_total_lt d) by done. f_equal.
      by apply (Hw _ (Hmod _)).
    + rewrite !lookup_ge_None_2; [done|lia|rewrite cview_length; lia].
Qed.

Lemma mem_write_spec m t d : (t + length d <= length m)%nat ->
  exists m', mem_write m t d = Some m' /\ length m' = length m /\
    (forall p, (t <= p < t + length d)%nat -> m' !!! p = d !!! (p - t)%nat) /\
    (forall p, (p < t \/ t + length d <= p)%nat -> m' !!! p = m !!! p).
Proof.
  intros Hl. unfold mem_write. rewrite (proj2 (Nat.leb_le _ _)) by done. eexists. split; [done|].
  assert (Ht : length (take t m) = t) by (rewrite length_take; lia). split_and!.
  - rewrite !length_app, length_drop, Ht. lia.
  - intros p Hp. rewrite !list_lookup_total_alt. rewrite lookup_app_r by lia. by rewrite lookup_app_l by lia; rewrite Ht.
  - intros p Hp. rewrite !list_lookup_total_alt. destruct Hp as [Hp|Hp].
    + rewrite lookup_app_l by lia. by rewrite lookup_take_lt.
    + rewrite !lookup_app_r by lia. rewrite lookup_drop, Ht. repeat f_equal. lia.
Qed.

(** One stretch. *)
Lemma cwrote_flat m t d : (t + length d <= length m)%nat ->
  exists m', mem_write m t d = Some m' /\ cwrote m m' t d.
Proof.
  intros Hl. destruct (mem_write_spec m t d Hl) as (m' & E & Hlen & H1 & H2). exists m'. split; [done|].
  split; [done|]. intros p Hp. split.
  - intros i Hi ->. rewrite Nat.mod_small by lia. rewrite H1 by lia. f_equal. lia.
  - intros Hn. apply H2. destruct (decide (t <= p < t + length d)%nat) as [Hin|]; [|lia].
    destruct (Hn (p - t)%nat); [lia|]. rewrite Nat.mod_small by lia. lia.
Qed.

(** Two stretches, at [t] and at the beginning. *)
Lemma cwrote_split m t d : (t < length m)%nat -> (length m - t < length d)%nat -> (length d <= length m)%nat ->
  exists m1 m2, mem_write m t (take (length m - t) d) = Some m1 /\
    mem_write m1 0 (drop (length m - t) d) = Some m2 /\ cwrote m m2 t d.
Proof.
  intros Ht Hd Hl. set (k := (length m - t)%nat) in *.
  assert (Hk : length (take k d) = k) by (rewrite length_take; lia).
  destruct (mem_write_spec m t (take k d)) as (m1 & E1 & L1 & A1 & B1); [lia|].
  destruct (mem_write_spec m1 0 (drop k d)) as (m2 & E2 & L2 & A2 & B2); [rewrite length_drop; lia|].
  rewrite Hk in *. rewrite length_drop in *. exists m1, m2. split_and!; [done..|]. split; [lia|].
  assert (Hi : forall i, (i < length d)%nat -> ((t + i) mod length m)%nat = if decide (i < k)%nat then (t + i)%nat else (i - k)%nat).
  { intros i Hi. case_decide; [apply Nat.mod_small; lia|].
    replace (t + i)%nat with ((i - k) + 1 * length m)%nat by lia. rewrite Nat.Div0.mod_add. apply Nat.mod_small. lia. }
  intros p Hp. split.
  - intros i Hid ->. rewrite Hi by done. case_decide as Hik.
    + rewrite B2, A1 by lia. rewrite !list_lookup_total_alt, lookup_take_lt by lia. repeat f_equal. lia.
    + rewrite A2 by lia. rewrite !list_lookup_total_alt, lookup_drop. repeat f_equal. lia.
  - intros Hn. destruct (decide (p < length d - k)%nat) as [Hpk|Hpk].
    + destruct (Hn (p + k)%nat); [lia|]. rewrite Hi by lia. rewrite decide_False by lia. lia.
    + destruct (decide (t <= p)%nat) as [Htp|Htp].
      * destruct (Hn (p - t)%nat); [lia|]. rewrite Hi by lia. rewrite decide_True by lia. lia.
      * rewrite B2, B1 by lia. done.
Qed.
End View.

(** ** Bytes in and bytes out *)

Section Bytes.
Implicit Types (r : k_ringbuf_t) (d : list Z).

Definition rb_used r : nat := (rb_end r - rb_freesize r)%nat.

(** Well-formed: the tail is [rb_used] bytes after the head, modulo the size. *)
Record rb_ok r : Prop := mkRbOk {
  ro_size : (0 < rb_end r)%nat;
  ro_head : (rb_head r <= rb_end r)%nat;
  ro_tail : (rb_tail r <= rb_end r)%nat;
  ro_free : (rb_freesize r <= rb_end r)%nat;
  ro_mod : ((rb_head r + rb_used r) mod rb_end r = rb_tail r mod rb_end r)%nat;
}.

(** The bytes in the buffer, oldest first. *)
Definition contents r : list Z := cview (rb_mem r) (rb_head r) (rb_used r).

Lemma contents_length r : length (contents r) = rb_used r.
Proof. apply cview_length. Qed.

(** [p] or, at the end of the buffer, 0. *)
Definition wrapped r (p : nat) : nat := if (p =? rb_end r)%nat then 0%nat else p.

Lemma wrapped_spec r p : (0 < rb_end r)%nat -> (p <= rb_end r)%nat ->
  (wrapped r p < rb_end r)%nat /\ (wrapped r p mod rb_end r = p mod rb_end r)%nat.
Proof.
  intros Hs Hp. unfold wrapped. destruct (Nat.eqb_spec p (rb_end r)) as [->|].
  - rewrite Nat.Div0.mod_same, Nat.Div0.mod_0_l. lia.
  - split; [lia|done].
Qed.

(** Where the free space is. *)
Lemma tail_before_head r : rb_ok r -> (wrapped r (rb_tail r) < rb_head r)%nat ->
  (wrapped r (rb_tail r) + rb_freesize r <= rb_end r)%nat.
Proof.
  intros [Hs Hh Ht Hf Hm] Hlt. destruct (wrapped_spec r (rb_tail r) Hs Ht) as [Hw1 Hw2].
  set (t := wrapped r (rb_tail r)) in *. unfold rb_used in Hm. set (n := rb_end r) in *.
  rewrite <- Hw2, (Nat.mod_small t) in Hm by lia.
  destruct (decide (rb_freesize r = 0%nat)); [lia|].
  assert (rb_head r + (n - rb_freesize r) = t + n)%nat; [|lia].
  pose proof (Nat.div_mod (rb_head r + (n - rb_freesize r)) n ltac:(lia)) as Hd. rewrite Hm in Hd.
  set (q := ((rb_head r + (n - rb_freesize r)) / n)%nat) in *. clearbody q.
  assert (q = 1%nat) as -> by nia. lia.
Qed.

Lemma ringbuf_put_spec r d : rb_ok r -> (length d <= rb_freesize r)%nat ->
  exists r', ringbuf_put r d = Some r' /\ rb_ok r' /\ contents r' = contents r ++ d /\
    rb_end r' = rb_end r /\ rb_freesize r' = (rb_freesize r - length d)%nat /\ rb_type r' = rb_type r /\
    rb_blk_size r' = rb_blk_size r.
Proof.
  intros Hok Hd. pose proof Hok as [Hs Hh Ht Hf Hm].
  destruct (wrapped_spec r (rb_tail r) Hs Ht) as [Hw1 Hw2]. unfold ringbuf_put. fold (wrapped r (rb_tail r)).
  set (t := wrapped r (rb_tail r)) in *.
  assert (Hview : forall m', cwrote (rb_mem r) m' t d ->
    cview m' (rb_head r) (rb_end r - (rb_freesize r - length d)) = contents r ++ d).
  { intros m' Hc. unfold contents. replace (rb_end r - (rb_freesize r - length d))%nat with (rb_used r + length d)%nat by (unfold rb_used; lia).
    apply (cview_wrote _ _ _ _ t); [done|exact (eq_trans Hm (eq_sym Hw2))|unfold rb_used, rb_end in *; lia]. }
  assert (Hmod : forall t', (t' mod rb_end r = (t + length d) mod rb_end r)%nat ->
    ((rb_head r + (rb_end r - (rb_freesize r - length d))) mod rb_end r = t' mod rb_end r)%nat).
  { intros t' ->. rewrite <- (Nat.Div0.add_mod_idemp_l t), Hw2, <- Hm, Nat.Div0.add_mod_idemp_l. f_equal. unfold rb_used. lia. }
  destruct ((rb_head r <=? t)%nat && (rb_end r - t <? length d)%nat && (0 <? rb_end r - t)%nat) eqn:Ec.
  - apply andb_true_iff in Ec as [[Ec1%Nat.leb_le Ec2%Nat.ltb_lt]%andb_true_iff _].
    destruct (cwrote_split (rb_mem r) t d) as (m1 & m2 & E1 & E2 & Hc); [unfold rb_end in *; lia..|].
    change (length (rb_mem r)) with (rb_end r) in E1, E2. rewrite E1. simpl. rewrite E2. simpl. eexists. split; [done|].
    assert (Hl : length m2 = rb_end r) by apply Hc.
    split_and!; [split; unfold rb_used, rb_end in *; simpl; rewrite ?Hl; try lia| |done|simpl; lia|done|done].
    + replace (rb_freesize r - (length (rb_mem r) - t) - (length d - (length (rb_mem r) - t)))%nat with (rb_freesize r - length d)%nat by lia.
      apply Hmod. replace (t + length d)%nat with ((length d - (length (rb_mem r) - t)) + 1 * length (rb_mem r))%nat by lia.
      by rewrite Nat.Div0.mod_add.
    + unfold contents, rb_used. simpl. unfold rb_end at 1. simpl. rewrite Hl.
      replace (rb_freesize r - (rb_end r - t) - (length d - (rb_end r - t)))%nat with (rb_freesize r - length d)%nat by lia. by apply Hview.
  - assert (Hfit : (t + length d <= rb_end r)%nat).
    { destruct (decide (t < rb_head r)%nat) as [Hlt|Hge]; [pose proof (tail_before_head r Hok Hlt); fold t in H; lia|].
      rewrite (proj2 (Nat.leb_le _ _)), (proj2 (Nat.ltb_lt 0 _)), andb_true_r in Ec by lia. simpl in Ec.
      apply Nat.ltb_ge in Ec. lia. }
    destruct (cwrote_flat (rb_mem r) t d Hfit) as (m' & E & Hc). rewrite E. simpl. eexists. split; [done|].
    assert (Hl : length m' = rb_end r) by apply Hc.
    split_and!; [split; unfold rb_used, rb_end in *; simpl; rewrite ?Hl; try lia; by apply Hmod| |done|done|done|done].
    unfold contents, rb_used. simpl. unfold rb_end at 1. simpl. rewrite Hl. by apply Hview.
Qed.

Lemma mem_read_flat m h k : (h + k <= length m)%nat -> mem_read m h k = Some (cview m h k).
Proof. intros Hk. unfold mem_read. rewrite (proj2 (Nat.leb_le _ _)) by done. by rewrite cview_flat. Qed.

(** After [k] bytes left. *)
Definition popped r (h' k : nat) : k_ringbuf_t :=
  mkRB (rb_mem r) h' (rb_tail r) (rb_freesize r + k) (rb_type r) (rb_blk_size r).

Lemma popped_ok r h' k : rb_ok r -> (k <= rb_used r)%nat -> (h' <= rb_end r)%nat ->
  (h' mod rb_end r = (rb_head r + k) mod rb_end r)%nat ->
  rb_ok (popped r h' k) /\ contents r = cview (rb_mem r) (rb_head r) k ++ contents (popped r h' k).
Proof.
  intros [Hs Hh Ht Hf Hm] Hk Hh' Hmod. unfold rb_used in *.
  assert (Hu : (rb_end r - (rb_freesize r + k) = rb_end r - rb_freesize r - k)%nat) by lia. split.
  - split; unfold rb_used, rb_end in *; simpl; try lia. rewrite <- Nat.Div0.add_mod_idemp_l, Hmod, Nat.Div0.add_mod_idemp_l, <- Hm.
    f_equal. lia.
  - unfold contents, rb_used. simpl. change (rb_end (popped r h' k)) with (rb_end r). rewrite Hu.
    assert (Hv : forall j, cview (rb_mem r) h' j = cview (rb_mem r) (rb_head r + k) j).
    { intros j. rewrite <- (cview_mod _ h'), <- (cview_mod _ (rb_head r + k)). f_equal. exact Hmod. }
    rewrite Hv, <- cview_app. f_equal. lia.
Qed.

(** Two stretches that meet at the end of the buffer. *)
Lemma read_split m h k : (h < length m)%nat -> (length m - h < k)%nat -> (k <= length m)%nat ->
  mem_read m h (length m - h) = Some (cview m h (length m - h)) /\
  mem_read m 0 (k - (length m - h)) = Some (cview m (h + (length m - h)) (k - (length m - h))) /\
  cview m h (length m - h) ++ cview m (h + (length m - h)) (k - (length m - h)) = cview m h k.
Proof.
  intros Hh Hk Hn. rewrite !mem_read_flat by lia. split_and!; [done| |rewrite <- cview_app; f_equal; lia].
  f_equal. rewrite <- (cview_mod m (h + _)). replace (h + (length m - h))%nat with (length m) by lia.
  by rewrite Nat.Div0.mod_same.
Qed.

Lemma ringbuf_get_head_spec r k : rb_ok r -> (rb_head r < rb_end r)%nat -> (k <= rb_used r)%nat ->
  exists h', ringbuf_get_head r k = Some (take k (contents r), popped r h' k) /\ rb_ok (popped r h' k) /\
    contents (popped r h' k) = drop k (contents r).
Proof.
  intros Hok Hh Hk. pose proof (ro_free r Hok) as Hf. unfold ringbuf_get_head.
  assert (Hgen : forall h', (h' <= rb_end r)%nat -> (h' mod rb_end r = (rb_head r + k) mod rb_end r)%nat ->
    rb_ok (popped r h' k) /\ cview (rb_mem r) (rb_head r) k = take k (contents r) /\ contents (popped r h' k) = drop k (contents r)).
  { intros h' H1 H2. destruct (popped_ok r h' k Hok Hk H1 H2) as [H3 H4]. split; [done|]. rewrite H4.
    rewrite take_app_length', drop_app_length' by (symmetry; apply cview_length). done. }
  destruct ((rb_end r - rb_head r <? k)%nat && (0 <? rb_end r - rb_head r)%nat) eqn:Ec.
  - apply andb_true_iff in Ec as [Ec%Nat.ltb_lt _].
    destruct (read_split (rb_mem r) (rb_head r) k) as (E1 & E2 & E3); [unfold rb_used, rb_end in *; lia..|].
    change (length (rb_mem r)) with (rb_end r) in *. rewrite E1. simpl. rewrite E2. simpl. rewrite E3.
    destruct (Hgen (k - (rb_end r - rb_head r))%nat) as (G1 & G2 & G3); [unfold rb_used in *; lia| |].
    { replace (rb_head r + k)%nat with (k - (rb_end r - rb_head r) + 1 * rb_end r)%nat by lia. by rewrite Nat.Div0.mod_add. }
    exists (k - (rb_end r - rb_head r))%nat. rewrite <- G2. split_and!; [|done|done]. do 2 f_equal. unfold popped. f_equal. lia.
  - assert (Hfit : (rb_head r + k <= rb_end r)%nat).
    { rewrite (proj2 (Nat.ltb_lt 0 _)), andb_true_r in Ec by lia. apply Nat.ltb_ge in Ec. lia. }
    rewrite mem_read_flat by exact Hfit. simpl. destruct (Hgen (rb_head r + k)%nat) as (G1 & G2 & G3); [done|done|].
    exists (rb_head r + k)%nat. by rewrite <- G2.
Qed.

Lemma ringbuf_get_data_spec r k : rb_ok r -> (rb_used r < rb_end r)%nat -> (k <= rb_used r)%nat ->
  exists h', ringbuf_get_data r k = Some (take k (contents r), popped r h' k) /\ rb_ok (popped r h' k) /\
    contents (popped r h' k) = drop k (contents r).
Proof.
  intros Hok Hu Hk. pose proof Hok as [Hs Hh Ht Hf Hm]. unfold ringbuf_get_data. fold (wrapped r (rb_head r)).
  destruct (wrapped_spec r (rb_head r) Hs Hh) as [Hw1 Hw2]. set (h := wrapped r (rb_head r)) in *.
  assert (Hgen : forall h', (h' <= rb_end r)%nat -> (h' mod rb_end r = (h + k) mod rb_end r)%nat ->
    rb_ok (popped r h' k) /\ cview (rb_mem r) h k = take k (contents r) /\ contents (popped r h' k) = drop k (contents r)).
  { intros h' H1 H2. destruct (popped_ok r h' k Hok Hk H1) as [H3 H4].
    { by rewrite H2, <- Nat.Div0.add_mod_idemp_l, Hw2, Nat.Div0.add_mod_idemp_l. }
    split; [done|]. rewrite H4. rewrite take_app_length', drop_app_length' by (symmetry; apply cview_length). split; [|done].
    rewrite <- (cview_mod _ h), <- (cview_mod _ (rb_head r)). change (length (rb_mem r)) with (rb_end r). by rewrite Hw2. }
  destruct ((rb_tail r <? h)%nat && (rb_end r - h <? k)%nat) eqn:Ec.
  - apply andb_true_iff in Ec as [Ec1%Nat.ltb_lt Ec%Nat.ltb_lt].
    destruct (read_split (rb_mem r) h k) as (E1 & E2 & E3); [unfold rb_used, rb_end in *; lia..|].
    change (length (rb_mem r)) with (rb_end r) in *. rewrite E1. simpl. rewrite E2. simpl. rewrite E3.
    destruct (Hgen (k - (rb_end r - h))%nat) as (G1 & G2 & G3); [unfold rb_used in *; lia| |].
    { replace (h + k)%nat with (k - (rb_end r - h) + 1 * rb_end r)%nat by lia. by rewrite Nat.Div0.mod_add. }
    exists (k - (rb_end r - h))%nat. rewrite <- G2. split_and!; [|done|done]. do 2 f_equal. unfold popped. f_equal. lia.
  - assert (Hfit : (h + k <= rb_end r)%nat).
    { apply andb_false_iff in Ec as [Ec%Nat.ltb_ge|Ec%Nat.ltb_ge]; [|lia].
      assert (Hm' : ((h + rb_used r) mod rb_end r = rb_tail r mod rb_end r)%nat).
      { by rewrite <- Nat.Div0.add_mod_idemp_l, Hw2, Nat.Div0.add_mod_idemp_l. }
      destruct (decide (h + rb_used r <= rb_tail r)%nat); [lia|].
      destruct (mod_apart (rb_end r) (rb_tail r) (h + rb_used r)); [lia|lia|done]. }
    rewrite mem_read_flat by exact Hfit. simpl. destruct (Hgen (h + k)%nat) as (G1 & G2 & G3); [done|done|].
    exists (h + k)%nat. by rewrite <- G2.
Qed.
End Bytes.

(** ** The length bytes *)

Section Header.
Implicit Types (n : Z).

Definition header n : list Z := snd (ringbuf_headlen_compress n).

Lemma be_byte_mod n i : 0 <= n -> 0 <= 3 - i -> be_byte n i = (n / 2 ^ (8 * (3 - i))) mod 256.
Proof.
  intros Hn Hi. unfold be_byte. rewrite Z.shiftr_div_pow2 by lia. change 0xff with (Z.ones 8).
  by rewrite Z.land_ones by lia.
Qed.

(** The two top bits mark the kind; the six others survive. *)
Lemma mark_spec x : 0 <= x < 64 ->
  decode_len_bytes (Z.lor 0x80 x) = Some 2%nat /\ decode_len_bytes (Z.lor 0xC0 x) = Some 3%nat /\
  Z.land (Z.lor 0x80 x) 0x3f = x /\ Z.land (Z.lor 0xC0 x) 0x3f = x.
Proof.
  intros Hx. assert (Hall : Forall (fun x => decode_len_bytes (Z.lor 0x80 x) = Some 2%nat /\
    decode_len_bytes (Z.lor 0xC0 x) = Some 3%nat /\ Z.land (Z.lor 0x80 x) 0x3f = x /\ Z.land (Z.lor 0xC0 x) 0x3f = x) (seqZ 0 64)).
  { refine (bool_decide_unpack _ _). vm_compute. exact I. }
  apply (proj1 (Forall_forall _ _) Hall). apply elem_of_seqZ. lia.
Qed.

Lemma short_spec x : 0 <= x < 128 -> decode_len_bytes (Z.land 0x7f x) = Some 1%nat /\ Z.land 0x7f x = x.
Proof.
  intros Hx. assert (Hall : Forall (fun x => decode_len_bytes (Z.land 0x7f x) = Some 1%nat /\ Z.land 0x7f x = x) (seqZ 0 128)).
  { refine (bool_decide_unpack _ _). vm_compute. exact I. }
  apply (proj1 (Forall_forall _ _) Hall). apply elem_of_seqZ. lia.
Qed.

Lemma header_spec n : 0 <= n <= RINGBUF_LEN_3BYTES_MAXVALUE ->
  exists k b rest, header n = b :: rest /\ length (header n) = k /\ COMPRESS_LEN n = k /\ (0 < k <= 3)%nat /\
    decode_len_bytes b = Some k /\ ringbuf_headlen_decompress k (header n) = n.
Proof.
  intros Hn. unfold header, ringbuf_headlen_compress, COMPRESS_LEN in *.
  unfold RINGBUF_LEN_1BYTE_MAXVALUE, RINGBUF_LEN_2BYTES_MAXVALUE, RINGBUF_LEN_3BYTES_MAXVALUE in *.
  unfold RINGBUF_LEN_VLE_2BYTES, RINGBUF_LEN_VLE_3BYTES in *.
  rewrite !be_byte_mod by lia. change (8 * (3 - 3)) with 0. change (8 * (3 - 2)) with 8. change (8 * (3 - 1)) with 16.
  change (2 ^ 0) with 1. rewrite Z.div_1_r. change (2 ^ 8) with 256. change (2 ^ 16) with 65536.
  assert (H256 : n mod 256 = n - 256 * (n / 256)) by (rewrite Z.mod_eq; lia).
  destruct (Z.leb_spec n 0x7f) as [H1|H1]; [|destruct (Z.leb_spec n 0x3fff) as [H2|H2]; [|destruct (Z.leb_spec n 0x3fffff) as [H3|H3]; [|lia]]].
  - exists 1%nat. do 2 eexists. rewrite (Z.mod_small n) by lia. destruct (short_spec n) as [E1 E2]; [lia|].
    split_and!; try done; try lia.
  - assert (Hb : 0 <= n / 256 < 64) by (split; [apply Z.div_pos|apply Z.div_lt_upper_bound]; lia).
    rewrite (Z.mod_small (n / 256)) by lia. destruct (mark_spec (n / 256) Hb) as (E1 & _ & E2 & _).
    exists 2%nat. do 2 eexists. split_and!; try done; try lia.
    unfold ringbuf_headlen_decompress, be_value, RINGBUF_LEN_MASK_CLEAN_TWOBIT.
    cbn [snd take firstn Nat.ltb Nat.leb foldl]. rewrite E2. lia.
  - assert (Hb : 0 <= n / 65536 < 64) by (split; [apply Z.div_pos|apply Z.div_lt_upper_bound]; lia).
    rewrite (Z.mod_small (n / 65536)) by lia. destruct (mark_spec (n / 65536) Hb) as (_ & E1 & _ & E2).
    assert (Hq : (n / 256) mod 256 = n / 256 - 256 * (n / 65536)).
    { rewrite Z.mod_eq by lia. rewrite Z.div_div by lia. done. }
    exists 3%nat. do 2 eexists. split_and!; try done; try lia.
    unfold ringbuf_headlen_decompress, be_value, RINGBUF_LEN_MASK_CLEAN_TWOBIT.
    cbn [snd take firstn Nat.ltb Nat.leb foldl]. rewrite E2. lia.
Qed.
End Header.

(** ** Messages *)

(** The geometry of a ring buffer, which no operation changes. *)
Definition same_ring (r r' : k_ringbuf_t) : Prop :=
  rb_end r' = rb_end r /\ rb_type r' = rb_type r /\ rb_blk_size r' = rb_blk_size r.

Section Messages.
Implicit Types (r : k_ringbuf_t) (d : list Z) (ms : list (list Z)).

Definition encode d : list Z := header (Z.of_nat (length d)) ++ d.

(** A dynamic buffer that holds the messages [ms]. *)
Definition dyn_rep r ms : Prop :=
  rb_ok r /\ rb_type r = RINGBUF_TYPE_DYN /\ contents r = concat (encode <$> ms) /\
  Forall (fun d => (0 < length d)%nat /\ Z.of_nat (length d) <= RINGBUF_LEN_3BYTES_MAXVALUE) ms.

(** The bytes a message takes. *)
Definition msg_room d : nat := (COMPRESS_LEN (Z.of_nat (length d)) + length d)%nat.

Lemma encode_length d : Z.of_nat (length d) <= RINGBUF_LEN_3BYTES_MAXVALUE -> length (encode d) = msg_room d.
Proof.
  intros Hd. unfold encode, msg_room. rewrite length_app.
  destruct (header_spec (Z.of_nat (length d))) as (k & b & rest & _ & -> & -> & _); lia.
Qed.

Lemma dyn_push r ms d :
  dyn_rep r ms -> (0 < length d)%nat -> Z.of_nat (length d) <= RINGBUF_LEN_3BYTES_MAXVALUE ->
  if (msg_room d <=? rb_freesize r)%nat then
    exists r', ringbuf_push r d (length d) = Some (RHINO_SUCCESS, r') /\ dyn_rep r' (ms ++ [d]) /\ same_ring r r'
  else ringbuf_push r d (length d) = Some (RHINO_RINGBUF_FULL, r).
Proof.
  intros (Hok & Hty & Hc & Hms) Hd0 Hd. unfold ringbuf_push, ringbuf_is_full. rewrite Hty. simpl.
  destruct (header_spec (Z.of_nat (length d))) as (k & b & rest & Hh & Hlk & HC & Hk & _ & _); [lia|].
  unfold header in Hlk, Hh. unfold msg_room. unfold ringbuf_headlen_compress in Hlk, Hh |- *. simpl in Hlk, Hh. rewrite HC in *.
  set (c := match k with 1%nat => _ | _ => _ end) in *.
  assert (Henc : encode d = c ++ d) by (unfold encode, header, ringbuf_headlen_compress; simpl; by rewrite HC).
  destruct (Nat.leb_spec (k + length d) (rb_freesize r)) as [Hfit|Hfit].
  - rewrite (proj2 (Nat.ltb_ge _ 2)) by lia.
    rewrite (proj2 (Nat.eqb_neq k 0)), (proj2 (Nat.ltb_ge _ k)) by (unfold RINGBUF_LEN_MAX_SIZE; lia). simpl.
    rewrite (proj2 (Nat.ltb_ge (rb_freesize r) _)) by lia.
    destruct (ringbuf_put_spec r c Hok) as (r1 & E1 & Hok1 & C1 & N1 & F1 & T1 & B1); [lia|]. rewrite E1. simpl.
    unfold src_read. rewrite Nat.leb_refl, take_ge by lia. simpl.
    destruct (ringbuf_put_spec r1 d Hok1) as (r2 & E2 & Hok2 & C2 & N2 & F2 & T2 & B2); [lia|]. rewrite E2. simpl.
    exists r2. split; [done|]. split; [|split_and!; congruence]. split_and!; [done|congruence| |].
    + rewrite C2, C1, Hc, fmap_app, concat_app. simpl. by rewrite app_nil_r, Henc, app_assoc.
    + apply Forall_app. split; [done|]. by constructor.
  - destruct (rb_freesize r <? 2)%nat; [done|].
    rewrite (proj2 (Nat.eqb_neq k 0)), (proj2 (Nat.ltb_ge _ k)) by (unfold RINGBUF_LEN_MAX_SIZE; lia). simpl.
    by rewrite (proj2 (Nat.ltb_lt (rb_freesize r) _)) by lia.
Qed.

Lemma dyn_pop_empty r : dyn_rep r [] -> ringbuf_pop r = Some (RHINO_RINGBUF_EMPTY, [], r).
Proof.
  intros (Hok & _ & Hc & _). unfold ringbuf_pop, ringbuf_is_empty. apply (f_equal length) in Hc.
  rewrite contents_length in Hc. simpl in Hc. pose proof (ro_free r Hok). unfold rb_used in Hc.
  by rewrite (proj2 (Nat.eqb_eq _ _)) by lia.
Qed.

Lemma contents_wrapped r h' :
  rb_ok r -> (h' <= rb_end r)%nat -> (h' mod rb_end r = rb_head r mod rb_end r)%nat ->
  rb_ok (popped r h' 0) /\ contents (popped r h' 0) = contents r.
Proof.
  intros Hok Hh Hm. destruct (popped_ok r h' 0 Hok) as [H1 H2]; [lia|done|by rewrite Nat.add_0_r|]. split; [done|]. by rewrite H2.
Qed.

Lemma dyn_pop r ms d : dyn_rep r (d :: ms) ->
  exists r', ringbuf_pop r = Some (RHINO_SUCCESS, d, r') /\ dyn_rep r' ms /\ same_ring r r'.
Proof.
  intros (Hok & Hty & Hc & Hms). apply Forall_cons in Hms as [[Hd0 Hd] Hms]. simpl in Hc.
  destruct (header_spec (Z.of_nat (length d))) as (k & b & rest & Hh & Hlk & HC & Hk & Hdec & Hval); [lia|].
  unfold encode in Hc. set (hd := header (Z.of_nat (length d))) in *. rewrite <- app_assoc in Hc.
  pose proof Hok as [Hs Hhd Ht Hf Hm].
  assert (Hlen : rb_used r = (k + (length d + length (concat (encode <$> ms))))%nat).
  { rewrite <- contents_length, Hc, !length_app, Hlk. done. }
  unfold ringbuf_pop, ringbuf_is_empty. rewrite (proj2 (Nat.eqb_neq _ _)) by (unfold rb_used in Hlen; lia).
  rewrite Hty. cbn [Z.eqb RINGBUF_TYPE_DYN RINGBUF_TYPE_FIX]. fold (wrapped r (rb_head r)).
  destruct (wrapped_spec r (rb_head r) Hs Hhd) as [Hw1 Hw2]. set (h := wrapped r (rb_head r)) in *.
  destruct (contents_wrapped r h Hok ltac:(lia) Hw2) as [Hok0 Hc0].
  set (r0 := mkRB (rb_mem r) h (rb_tail r) (rb_freesize r) RINGBUF_TYPE_DYN (rb_blk_size r)).
  assert (E0 : popped r h 0 = r0) by (unfold popped, r0; rewrite Nat.add_0_r; by rewrite Hty). rewrite E0 in *.
  assert (Hu0 : rb_used r0 = rb_used r) by done.
  assert (Hb : rb_mem r !! h = Some b).
  { rewrite Hc in Hc0. unfold contents in Hc0. rewrite Hu0, Hlen in Hc0. apply (f_equal (fun l => l !! 0%nat)) in Hc0.
    rewrite cview_lookup in Hc0 by lia. rewrite Hh in Hc0. simpl in Hc0. rewrite Nat.add_0_r, Nat.mod_small in Hc0 by exact Hw1.
    injection Hc0 as <-. by apply list_lookup_lookup_total_lt. }
  rewrite Hb. simpl. rewrite Hdec.
  destruct (ringbuf_get_head_spec r0 k Hok0) as (h1 & E1 & Hok1 & C1); [done|lia|]. rewrite E1. simpl.
  rewrite Hc0, Hc in C1 |- *. rewrite take_app_length', drop_app_length' in * by done. rewrite Hval, Nat2Z.id.
  destruct (ringbuf_get_data_spec (popped r0 h1 k) (length d) Hok1) as (h2 & E2 & Hok2 & C2);
    [unfold rb_used, rb_end in *; simpl in *; lia|rewrite <- contents_length, C1, length_app; lia|].
  rewrite E2. simpl. rewrite C1 in C2 |- *. rewrite take_app_length', drop_app_length' in * by done.
  eexists. split; [done|]. split; [|done]. by split_and!.
Qed.

(** The room taken by the stored messages is the used part of the buffer. *)
Definition room_of ms : nat := sum_list_with msg_room ms.

Lemma dyn_free r ms : dyn_rep r ms -> rb_freesize r = (rb_end r - room_of ms)%nat /\ (room_of ms <= rb_end r)%nat.
Proof.
  intros (Hok & _ & Hc & Hms). assert (rb_used r = room_of ms) as Hu.
  { rewrite <- contents_length, Hc. clear Hc. unfold room_of. induction Hms as [|d ms [_ Hd] Hms IH]; [done|].
    rewrite fmap_cons. cbn [concat sum_list_with]. rewrite length_app, IH. f_equal. by apply encode_length. }
  pose proof (ro_free r Hok). unfold rb_used in Hu. lia.
Qed.
End Messages.

(** ** Reference: a bounded queue of messages *)

Inductive ring_op := RPush (d : list Z) | RPop.

(** What the operation answers: a status and, for a pop, the message. *)
Definition ring_step (op : ring_op) (r : k_ringbuf_t) : option (kstat_t * list Z * k_ringbuf_t) :=
  match op with
  | RPush d => '(st, r') ← ringbuf_push r d (length d); Some (st, [], r')
  | RPop => ringbuf_pop r
  end.

Fixpoint ring_run (ops : list ring_op) (r : k_ringbuf_t) : option (list (kstat_t * list Z) * k_ringbuf_t) :=
  match ops with
  | [] => Some ([], r)
  | op :: ops =>
      '(st, d, r1) ← ring_step op r;
      '(out, r2) ← ring_run ops r1;
      Some ((st, d) :: out, r2)
  end.

(** The same operations on a list of messages with [cap] bytes of room. *)
Definition queue_step (cap : nat) (op : ring_op) (ms : list (list Z)) : kstat_t * list Z * list (list Z) :=
  match op, ms with
  | RPush d, _ => if (msg_room d <=? cap - room_of ms)%nat then (RHINO_SUCCESS, [], ms ++ [d]) else (RHINO_RINGBUF_FULL, [], ms)
  | RPop, [] => (RHINO_RINGBUF_EMPTY, [], [])
  | RPop, d :: r => (RHINO_SUCCESS, d, r)
  end.

Fixpoint queue_run (cap : nat) (ops : list ring_op) (ms : list (list Z)) : list (kstat_t * list Z) * list (list Z) :=
  match ops with
  | [] => ([], ms)
  | op :: ops =>
      let '(st, d, ms1) := queue_step cap op ms in
      let '(out, ms2) := queue_run cap ops ms1 in
      ((st, d) :: out, ms2)
  end.

(** Messages the length header can encode. *)
Definition op_ok (op : ring_op) : Prop :=
  match op with RPush d => (0 < length d)%nat /\ Z.of_nat (length d) <= RINGBUF_LEN_3BYTES_MAXVALUE | RPop => True end.

Lemma ring_step_queue r ms op : dyn_rep r ms -> op_ok op ->
  exists r', ring_step op r = Some (fst (queue_step (rb_end r) op ms), r') /\
    dyn_rep r' (snd (queue_step (rb_end r) op ms)) /\ rb_end r' = rb_end r.
Proof.
  intros Hr Hop. destruct op as [d|].
  - destruct Hop as [H0 H1]. pose proof (dyn_push r ms d Hr H0 H1) as Hp.
    unfold ring_step, queue_step. destruct (dyn_free r ms Hr) as [<- _].
    destruct (msg_room d <=? rb_freesize r)%nat; [destruct Hp as (r' & -> & Hr' & He & _); by exists r'|].
    rewrite Hp. by exists r.
  - destruct ms as [|d ms]; simpl; [exists r; by rewrite dyn_pop_empty|].
    destruct (dyn_pop r ms d Hr) as (r' & -> & Hr' & He & _). by exists r'.
Qed.

Lemma ring_run_queue ops r ms : dyn_rep r ms -> Forall op_ok ops ->
  exists r', ring_run ops r = Some (fst (queue_run (rb_end r) ops ms), r') /\
    dyn_rep r' (snd (queue_run (rb_end r) ops ms)) /\ rb_end r' = rb_end r.
Proof.
  revert r ms. induction ops as [|op ops IH]; intros r ms Hr Hops; [by exists r|].
  apply Forall_cons in Hops as [Hop Hops]. destruct (ring_step_queue r ms op Hr Hop) as (r1 & E1 & Hr1 & He1).
  simpl. rewrite E1. destruct (queue_step (rb_end r) op ms) as [[st d] ms1]. simpl in *.
  destruct (IH r1 ms1 Hr1 Hops) as (r2 & E2 & Hr2 & He2). rewrite E2. rewrite He1 in *.
  destruct (queue_run (rb_end r) ops ms1) as [out ms2]. simpl in *. by exists r2.
Qed.

(** ** Fixed-size blocks *)

Section Fixed.
Implicit Types (r : k_ringbuf_t) (d : list Z) (ms : list (list Z)).

Definition fix_rep r ms : Prop :=
  rb_ok r /\ rb_type r = RINGBUF_TYPE_FIX /\ (0 < rb_blk_size r)%nat /\
  (rb_blk_size r | rb_end r)%nat /\ (rb_blk_size r | rb_head r)%nat /\ (rb_blk_size r | rb_tail r)%nat /\
  contents r = concat ms /\ Forall (fun d => length d = rb_blk_size r) ms.

Lemma fix_used r ms : fix_rep r ms -> rb_used r = (length ms * rb_blk_size r)%nat.
Proof.
  intros (_ & _ & _ & _ & _ & _ & Hc & Hms). rewrite <- contents_length, Hc. clear Hc.
  induction Hms as [|d ms Hd Hms IH]; simpl; [done|]. rewrite length_app, Hd, IH. lia.
Qed.

(** A whole block fits between an aligned offset and the end. *)
Lemma aligned_room (b n p : nat) : (0 < b)%nat -> (b | n)%nat -> (b | p)%nat -> (p < n)%nat -> (p + b <= n)%nat.
Proof. intros Hb [x ->] [y ->] Hlt. assert (y < x)%nat by nia. nia. Qed.

Lemma wrapped_aligned r b p : (b | p)%nat -> (b | wrapped r p)%nat.
Proof. intros Hp. unfold wrapped. destruct (_ =? _)%nat; [apply Nat.divide_0_r|done]. Qed.

Lemma fix_push r ms data len :
  fix_rep r ms -> (rb_blk_size r <= length data)%nat ->
  if (rb_blk_size r <=? rb_freesize r)%nat then
    exists r', ringbuf_push r data len = Some (RHINO_SUCCESS, r') /\ fix_rep r' (ms ++ [take (rb_blk_size r) data]) /\
      same_ring r r'
  else ringbuf_push r data len = Some (RHINO_RINGBUF_FULL, r).
Proof.
  intros (Hok & Hty & Hb & Hn & Hh & Ht & Hc & Hms) Hd. unfold ringbuf_push, ringbuf_is_full. rewrite Hty. simpl.
  destruct (Nat.leb_spec (rb_blk_size r) (rb_freesize r)) as [Hf|Hf].
  2:{ by rewrite (proj2 (Nat.ltb_lt _ _)) by lia. }
  rewrite (proj2 (Nat.ltb_ge _ _)) by lia. unfold src_read. rewrite (proj2 (Nat.leb_le _ _)) by done. simpl.
  fold (wrapped r (rb_tail r)). set (b := take (rb_blk_size r) data).
  assert (Hlb : length b = rb_blk_size r) by (unfold b; rewrite length_take; lia).
  destruct (wrapped_spec r (rb_tail r)) as [Hw1 Hw2]; [apply Hok..|].
  assert (Hroom : (wrapped r (rb_tail r) + rb_blk_size r <= rb_end r)%nat) by (apply aligned_room; auto using wrapped_aligned).
  destruct (ringbuf_put_spec r b Hok) as (r' & E & Hok' & C' & N' & F' & T'); [lia|].
  unfold ringbuf_put in E. fold (wrapped r (rb_tail r)) in E.
  rewrite (proj2 (Nat.ltb_ge (rb_end r - _) _)), andb_false_r in E by lia. simpl in E. rewrite Hlb in E.
  destruct (mem_write (rb_mem r) (wrapped r (rb_tail r)) b) as [m|]; [|done]. simpl in E |- *. injection E as <-. rewrite Hty in *.
  eexists. split; [done|]. unfold fix_rep. split_and!; simpl; try done; try (by rewrite N').
  - by apply Nat.divide_add_r; [apply wrapped_aligned|].
  - rewrite C', Hc, concat_app. simpl. by rewrite app_nil_r.
  - apply Forall_app. split; [done|]. by constructor.
Qed.

Lemma fix_pop r ms d : fix_rep r (d :: ms) ->
  exists r', ringbuf_pop r = Some (RHINO_SUCCESS, d, r') /\ fix_rep r' ms /\ same_ring r r'.
Proof.
  intros Hrep. pose proof (fix_used _ _ Hrep) as Hu. destruct Hrep as (Hok & Hty & Hb & Hn & Hh & Ht & Hc & Hms).
  apply Forall_cons in Hms as [Hd Hms]. simpl in Hu, Hc. pose proof Hok as [Hs Hhd Htl Hf Hm].
  unfold ringbuf_pop, ringbuf_is_empty. rewrite (proj2 (Nat.eqb_neq _ _)) by (unfold rb_used in Hu; lia).
  rewrite Hty. simpl. fold (wrapped r (rb_head r)). destruct (wrapped_spec r (rb_head r) Hs Hhd) as [Hw1 Hw2].
  set (h := wrapped r (rb_head r)) in *.
  assert (Hroom : (h + rb_blk_size r <= rb_end r)%nat) by (apply aligned_room; auto; by apply wrapped_aligned).
  rewrite mem_read_flat by exact Hroom. simpl.
  destruct (popped_ok r (h + rb_blk_size r) (rb_blk_size r) Hok) as [Hok' Hc']; [lia|lia| |].
  { by rewrite <- Nat.Div0.add_mod_idemp_l, Hw2, Nat.Div0.add_mod_idemp_l. }
  rewrite Hc in Hc'. apply app_inj_1 in Hc' as [E1 E2]; [|by rewrite cview_length].
  assert (cview (rb_mem r) h (rb_blk_size r) = d) as ->.
  { rewrite E1, <- (cview_mod _ h), <- (cview_mod _ (rb_head r)). f_equal. exact Hw2. }
  unfold popped in *. rewrite Hty in *. eexists. split; [done|]. unfold fix_rep. split_and!; simpl; try done.
  by apply Nat.divide_add_r; [apply wrapped_aligned|].
Qed.

Lemma fix_pop_empty r : fix_rep r [] -> ringbuf_pop r = Some (RHINO_RINGBUF_EMPTY, [], r).
Proof.
  intros Hrep. pose proof (fix_used _ _ Hrep) as Hu. destruct Hrep as (Hok & _). unfold ringbuf_pop, ringbuf_is_empty.
  simpl in Hu. pose proof (ro_free r Hok). unfold rb_used in Hu. by rewrite (proj2 (Nat.eqb_eq _ _)) by lia.
Qed.

(** A buffer of [n] blocks is full exactly when it holds [n]. *)
Lemma fix_full r ms n : fix_rep r ms -> rb_end r = (n * rb_blk_size r)%nat ->
  (length ms <= n)%nat /\ ((rb_blk_size r <=? rb_freesize r)%nat = true <-> (length ms < n)%nat).
Proof.
  intros Hrep Hn. pose proof (fix_used _ _ Hrep) as Hu. destruct Hrep as (Hok & _ & Hb & _).
  pose proof (ro_free r Hok) as Hf. unfold rb_used in Hu. rewrite Nat.leb_le. split; [nia|]. split; intros; nia.
Qed.

Lemma init_ok (buf : list Z) type blk : (0 < length buf)%nat -> rb_ok (ringbuf_init buf type blk) /\ contents (ringbuf_init buf type blk) = [].
Proof.
  intros Hb. unfold ringbuf_init, ringbuf_reset, contents, rb_used, rb_end. simpl. rewrite Nat.sub_diag. split; [|done].
  split; unfold rb_used, rb_end; simpl; try lia. by rewrite Nat.sub_diag.
Qed.

Lemma reset_ok r : rb_ok r -> rb_ok (ringbuf_reset r) /\ contents (ringbuf_reset r) = [].
Proof. intros [Hs _ _ _ _]. exact (init_ok (rb_mem r) (rb_type r) (rb_blk_size r) Hs). Qed.
End Fixed.

(** ** The interface of a message buffer

    What the queues rely on: [rep r ms] says that [r] holds the messages
    [ms]; a push copies [copied r len] bytes and answers [verdict r len]; the
    rest are the laws of a FIFO queue.  Both kinds of ring buffer are
    instances. *)

Class MsgRing (rep : k_ringbuf_t -> list (list Z) -> Prop) (verdict : k_ringbuf_t -> nat -> kstat_t)
    (copied : k_ringbuf_t -> nat -> nat) : Prop := {
  ring_push : forall r ms data len, rep r ms -> (0 < len)%nat -> verdict r len = RHINO_SUCCESS ->
    length data = copied r len ->
    exists r', ringbuf_push r data len = Some (RHINO_SUCCESS, r') /\ rep r' (ms ++ [data]) /\ same_ring r r';
  ring_refuse : forall r ms data len, rep r ms -> (0 < len)%nat -> verdict r len <> RHINO_SUCCESS ->
    ringbuf_push r data len = Some (verdict r len, r);
  ring_pop : forall r d ms, rep r (d :: ms) ->
    exists r', ringbuf_pop r = Some (RHINO_SUCCESS, d, r') /\ rep r' ms /\ same_ring r r';
  ring_is_empty : forall r ms, rep r ms -> ringbuf_is_empty r = bool_decide (ms = []);
  ring_reset : forall r ms, rep r ms -> rep (ringbuf_reset r) [];
  ring_capacity : forall r ms, rep r ms -> (length ms <= rb_end r)%nat;
}.

Definition dyn_verdict (r : k_ringbuf_t) (len : nat) : kstat_t :=
  if (rb_freesize r <? 2)%nat then RHINO_RINGBUF_FULL
  else if RINGBUF_LEN_3BYTES_MAXVALUE <? Z.of_nat len then RHINO_INV_PARAM
  else if (COMPRESS_LEN (Z.of_nat len) + len <=? rb_freesize r)%nat then RHINO_SUCCESS
  else RHINO_RINGBUF_FULL.

Definition fix_verdict (r : k_ringbuf_t) (len : nat) : kstat_t :=
  if (rb_blk_size r <=? rb_freesize r)%nat then RHINO_SUCCESS else RHINO_RINGBUF_FULL.

Lemma dyn_empty r ms : dyn_rep r ms -> ringbuf_is_empty r = bool_decide (ms = []).
Proof.
  intros Hr. destruct (dyn_free r ms Hr) as [Hf Hl]. unfold ringbuf_is_empty. destruct Hr as (Hok & _).
  pose proof (ro_size _ Hok). destruct ms as [|d ms]; simpl.
  - apply Nat.eqb_eq. rewrite Hf. unfold room_of. simpl. lia.
  - apply Nat.eqb_neq. rewrite Hf. unfold room_of, msg_room in *. simpl in *.
    assert (0 < COMPRESS_LEN (Z.of_nat (length d)))%nat; [|lia]. unfold COMPRESS_LEN. repeat case_match; lia.
Qed.

Lemma room_count ms : (length ms <= room_of ms)%nat.
Proof.
  unfold room_of. induction ms as [|d ms IH]; [done|]. cbn [length sum_list_with]. unfold msg_room at 1, COMPRESS_LEN.
  repeat case_match; lia.
Qed.

#[export] Instance dyn_ring : MsgRing dyn_rep dyn_verdict (fun _ len => len).
Proof.
  split.
  - intros r ms data len Hr Hl Hv Hd. unfold dyn_verdict in Hv. destruct (Nat.ltb_spec (rb_freesize r) 2); [done|].
    destruct (Z.ltb_spec RINGBUF_LEN_3BYTES_MAXVALUE (Z.of_nat len)); [done|]. subst len.
    pose proof (dyn_push r ms data Hr Hl ltac:(lia)) as Hp. unfold msg_room in Hp. by destruct (_ <=? _)%nat.
  - intros r ms data len (_ & Hty & _) Hl Hv. unfold dyn_verdict in *. unfold ringbuf_push, ringbuf_is_full. rewrite Hty.
    cbn [Z.eqb RINGBUF_TYPE_DYN RINGBUF_TYPE_FIX andb]. destruct (Nat.ltb_spec (rb_freesize r) 2); [done|].
    unfold ringbuf_headlen_compress. destruct (Z.ltb_spec RINGBUF_LEN_3BYTES_MAXVALUE (Z.of_nat len)) as [Hm|Hm].
    + assert (COMPRESS_LEN (Z.of_nat len) = 5%nat) as ->; [|done]. unfold COMPRESS_LEN, RINGBUF_LEN_1BYTE_MAXVALUE,
        RINGBUF_LEN_2BYTES_MAXVALUE, RINGBUF_LEN_3BYTES_MAXVALUE in *. by rewrite !(proj2 (Z.leb_gt _ _)) by lia.
    + destruct (header_spec (Z.of_nat len)) as (k & _ & _ & _ & _ & E & Hk & _); [lia|]. rewrite E in *.
      destruct (Nat.leb_spec (k + len) (rb_freesize r)); [done|].
      rewrite (proj2 (Nat.eqb_neq k 0)), (proj2 (Nat.ltb_ge _ k)) by (unfold RINGBUF_LEN_MAX_SIZE; lia). simpl.
      by rewrite (proj2 (Nat.ltb_lt (rb_freesize r) _)) by lia.
  - intros r d ms Hr. by apply dyn_pop.
  - apply dyn_empty.
  - intros r ms (Hok & Hty & _). destruct (reset_ok r Hok) as [H1 H2]. by split_and!.
  - intros r ms Hr. destruct (dyn_free r ms Hr) as [_ Hl]. pose proof (room_count ms). lia.
Qed.

Lemma fix_empty r ms : fix_rep r ms -> ringbuf_is_empty r = bool_decide (ms = []).
Proof.
  intros Hr. pose proof (fix_used r ms Hr) as Hu. destruct Hr as (Hok & _ & Hb & _). pose proof (ro_free _ Hok).
  unfold ringbuf_is_empty, rb_used in *. destruct ms as [|d ms]; simpl in *; [apply Nat.eqb_eq|apply Nat.eqb_neq]; lia.
Qed.

#[export] Instance fix_ring : MsgRing fix_rep fix_verdict (fun r _ => rb_blk_size r).
Proof.
  split.
  - intros r ms data len Hr _ Hv Hd. unfold fix_verdict in Hv. pose proof (fix_push r ms data len Hr ltac:(lia)) as Hp.
    destruct (_ <=? _)%nat; [|done]. by rewrite take_ge in Hp by lia.
  - intros r ms data len (_ & Hty & _) _ Hv. unfold fix_verdict in *. unfold ringbuf_push, ringbuf_is_full. rewrite Hty. simpl.
    destruct (Nat.leb_spec (rb_blk_size r) (rb_freesize r)); [done|]. by rewrite (proj2 (Nat.ltb_lt _ _)).
  - intros r d ms Hr. by apply fix_pop.
  - apply fix_empty.
  - intros r ms (Hok & Hty & Hb & Hn & _). destruct (reset_ok r Hok) as [H1 H2].
    split_and!; try done; exists 0%nat; done.
  - intros r ms Hr. pose proof (fix_used r ms Hr) as Hu. destruct Hr as (Hok & _ & Hb & _). unfold rb_used in Hu. nia.
Qed.

(** The kind of a buffer is in its type field. *)
Definition ring_rep (r : k_ringbuf_t) (ms : list (list Z)) : Prop :=
  if rb_type r =? RINGBUF_TYPE_DYN then dyn_rep r ms else fix_rep r ms.
Definition ring_verdict (r : k_ringbuf_t) (len : nat) : kstat_t :=
  if rb_type r =? RINGBUF_TYPE_DYN then dyn_verdict r len else fix_verdict r len.
Definition ring_copied (r : k_ringbuf_t) (len : nat) : nat :=
  if rb_type r =? RINGBUF_TYPE_DYN then len else rb_blk_size r.

#[export] Instance any_ring : MsgRing ring_rep ring_verdict ring_copied.
Proof.
  split; unfold ring_rep, ring_verdict, ring_copied; intros r; destruct (rb_type r =? RINGBUF_TYPE_DYN) eqn:E.
  - intros ms data len Hr Hl Hv Hd. destruct (ring_push r ms data len Hr Hl Hv Hd) as (r' & Hp & Hr' & Hs). exists r'.
    destruct Hs as (? & Et & ?). rewrite Et, E. done.
  - intros ms data len Hr Hl Hv Hd. destruct (ring_push r ms data len Hr Hl Hv Hd) as (r' & Hp & Hr' & Hs). exists r'.
    destruct Hs as (? & Et & ?). rewrite Et, E. done.
  - intros ms data len. apply (ring_refuse (rep := dyn_rep)).
  - intros ms data len. apply (ring_refuse (rep := fix_rep)).
  - intros d ms Hr. destruct (ring_pop r d ms Hr) as (r' & Hp & Hr' & Hs). exists r'. destruct Hs as (? & Et & ?). rewrite Et, E. done.
  - intros d ms Hr. destruct (ring_pop r d ms Hr) as (r' & Hp & Hr' & Hs). exists r'. destruct Hs as (? & Et & ?). rewrite Et, E. done.
  - apply (ring_is_empty (rep := dyn_rep)).
  - apply (ring_is_empty (rep := fix_rep)).
  - simpl. rewrite E. apply (ring_reset (rep := dyn_rep)).
  - simpl. rewrite E. apply (ring_reset (rep := fix_rep)).
  - apply (ring_capacity (rep := dyn_rep)).
  - apply (ring_capacity (rep := fix_rep)).
Qed.
