(* ===== verification/ObjInv.v ===== *)
(** * Object invariants: no lost wake-up

    A semaphore with a positive count has no waiting task, no task waits for
    event flags that are set or for a queue that holds a message.  These are the conditions under which the
    kernel may leave a task on a waiting list. *)

From stdpp Require Import functions.
From S2P Require Import Prelude.
From S2P Require Import Monad.
From S2P Require Import Links.
From S2P Require Import KState.
From S2P Require Import Bitmap.
From S2P Require Import Sched.
From S2P Require Import Pend.
From S2P Require Import Inv.
From S2P Require Import RingBuf.

(** ** Event flag requests (k_event.h, k_event.c) *)

Definition RHINO_FLAGS_AND_MASK : Z := 2.
Definition RHINO_FLAGS_CLEAR_MASK : Z := 1.
Definition RHINO_AND : Z := 2.
Definition RHINO_AND_CLEAR : Z := 3.
Definition RHINO_OR : Z := 0.
Definition RHINO_OR_CLEAR : Z := 1.

(** Whether the flags [cur] satisfy a request for [fl] under option [opt]. *)
Definition flags_met (cur fl opt : Z) : bool :=
  if negb (Z.land opt RHINO_FLAGS_AND_MASK =? 0) then Z.land cur fl =? fl
  else 0 <? Z.land cur fl.

(** ** The invariant *)

Definition has_type (s : kstate) (o : oid) (ty : kobj_type_t) : Prop :=
  exists b, blks (ob s) !! o = Some b /\ obj_type b = ty.

Definition sem_ok (A : queues) (o : oid) (v : ksem_t) : Prop :=
  0 <= count v <= peak_count v /\ peak_count v < 2 ^ 32 /\ (0 < count v -> A (LBlk o) = []).

(** The request of a waiting task is not met. *)
Definition event_ok (tc : gmap tid ktask_t) (A : queues) (o : oid) (v : kevent_t) : Prop :=
  0 <= flags v < 2 ^ 32 /\
  forall t x, t ∈ A (LBlk o) -> tc !! t = Some x ->
    flags_met (flags v) (pend_flags x) (pend_option x) = false /\ is_Some (pend_info x) /\
    0 <= pend_flags x < 2 ^ 32.

(** *** Queues

    A message of a [kqueue_t] is a pointer, stored as four bytes. *)
Definition word_bytes (v : Z) : list Z := (fun i => Z.land (Z.shiftr v (8 * i)) 0xff) <$> [0; 1; 2; 3].
Definition bytes_word (bs : list Z) : Z := foldr (fun b a => b + 256 * a) 0 bs.

(** The queue [v] holds the messages [ms]. *)
Record queue_rep (v : kqueue_t) (ms : list Z) : Prop := mkQueueRep {
  qr_ring : fix_rep (q_ringbuf v) (word_bytes <$> ms);
  qr_blk : rb_blk_size (q_ringbuf v) = 4%nat;
  qr_end : Z.of_nat (rb_end (q_ringbuf v)) = 4 * q_size v;
  qr_size : 0 < 4 * q_size v < 2 ^ 32;
  qr_num : q_cur_num v = Z.of_nat (length ms);
  qr_words : Forall (fun m => 0 <= m < 2 ^ 32) ms;
}.

(** The buffer queue [v] holds the messages [ms]. *)
Record bufq_rep (v : kbuf_queue_t) (ms : list (list Z)) : Prop := mkBufqRep {
  br_ring : ring_rep (bq_ringbuf v) ms;
  br_num : bq_cur_num v = Z.of_nat (length ms);
  br_end : Z.of_nat (rb_end (bq_ringbuf v)) < 2 ^ 32;
}.

(** No task waits for a queue that holds a message. *)
Definition queue_ok (ws : list tid) (v : kqueue_t) : Prop := exists ms, queue_rep v ms /\ (ms <> [] -> ws = []).
Definition bufq_ok (ws : list tid) (v : kbuf_queue_t) : Prop := exists ms, bufq_rep v ms /\ (ms <> [] -> ws = []).

Record store_ok (s : kstate) (A : queues) (o : oid) : Prop := mkStoreOk {
  so_queue : has_type s o RHINO_QUEUE_OBJ_TYPE -> exists v, kqueues (ob s) !! o = Some v /\ queue_ok (A (LBlk o)) v;
  so_bufq : has_type s o RHINO_BUF_QUEUE_OBJ_TYPE -> exists v, bufqs (ob s) !! o = Some v /\ bufq_ok (A (LBlk o)) v;
}.

(** While an event is being set its waiting list is being worked off: it is
    the hole [h]. *)
Record obj_inv (h : option oid) (s : kstate) (A : queues) : Prop := mkObjInv {
  oi_sem : forall o, has_type s o RHINO_SEM_OBJ_TYPE ->
    exists v, sems (ob s) !! o = Some v /\ sem_ok A o v;
  oi_event : forall o, has_type s o RHINO_EVENT_OBJ_TYPE -> Some o <> h ->
    exists v, events (ob s) !! o = Some v /\ event_ok (tcbs s) A o v;
  oi_store : forall o, store_ok s A o;
}.

Arguments oi_sem {h} s A.
Arguments oi_event {h} s A.
Arguments oi_store {h} s A.

(** ** Preservation *)

Definition same_request (x y : ktask_t) : Prop :=
  pend_flags y = pend_flags x /\ pend_option y = pend_option x /\ pend_info y = pend_info x.

Section ObjInv.
Implicit Types (s : kstate) (A : queues) (o : oid).

Lemma sem_ok_sub A A' o v : sem_ok A o v -> (forall t, t ∈ A' (LBlk o) -> t ∈ A (LBlk o)) -> sem_ok A' o v.
Proof.
  intros (H1 & H2 & H3) Hs. split_and!; [lia..|]. intros Hc. rewrite H3 in Hs by done.
  destruct (A' (LBlk o)) as [|t r]; [done|]. specialize (Hs t). set_solver.
Qed.

Lemma event_ok_sub tc tc' A A' o v :
  event_ok tc A o v -> (forall t, t ∈ A' (LBlk o) -> t ∈ A (LBlk o)) ->
  (forall t y, t ∈ A' (LBlk o) -> tc' !! t = Some y -> exists x, tc !! t = Some x /\ same_request x y) ->
  event_ok tc' A' o v.
Proof.
  intros (H1 & H2) Hs Hr. split; [lia|]. intros t y Ht Hy.
  destruct (Hr t y Ht Hy) as (x & Hx & -> & -> & ->). apply (H2 t); [by apply Hs|done].
Qed.

Lemma nil_sub (ws ws' : list tid) : (forall t, t ∈ ws' -> t ∈ ws) -> ws = [] -> ws' = [].
Proof. intros Hs ->. destruct ws' as [|t r]; [done|]. specialize (Hs t). set_solver. Qed.

Lemma store_ok_sub s s' A A' o :
  store_ok s A o -> ob s' = ob s -> (forall t, t ∈ A' (LBlk o) -> t ∈ A (LBlk o)) -> store_ok s' A' o.
Proof.
  intros [Hq Hb] Eo HA. split; unfold has_type; rewrite Eo; intros Ht.
  - destruct (Hq Ht) as (v & Hv & ms & Hr & Hw). exists v. split; [done|]. exists ms. split; [done|].
    intros Hne. eapply nil_sub; [exact HA|by apply Hw].
  - destruct (Hb Ht) as (v & Hv & ms & Hr & Hw). exists v. split; [done|]. exists ms. split; [done|].
    intros Hne. eapply nil_sub; [exact HA|by apply Hw].
Qed.

Lemma store_ok_frame s s' A o :
  store_ok s A o -> blks (ob s') = blks (ob s) -> kqueues (ob s') = kqueues (ob s) -> bufqs (ob s') = bufqs (ob s) ->
  store_ok s' A o.
Proof. intros [Hq Hb] E1 E2 E3. split; unfold has_type; by rewrite E1, ?E2, ?E3. Qed.

(** Waiting lists only shrink and requests stay. *)
Lemma obj_inv_sub h s s' A A' :
  obj_inv h s A -> ob s' = ob s ->
  (forall o t, t ∈ A' (LBlk o) -> t ∈ A (LBlk o)) ->
  (forall t y, tcbs s' !! t = Some y -> exists x, tcbs s !! t = Some x /\ same_request x y) ->
  obj_inv h s' A'.
Proof.
  intros [Hs He Hq] Eo HA Ht. split; [| |intros o; eapply store_ok_sub; [apply Hq|done|apply HA]];
    unfold has_type; rewrite Eo; intros o Hty.
  - destruct (Hs o Hty) as (v & Hv & Hok). exists v. split; [done|]. eapply sem_ok_sub; [done|apply HA].
  - intros Hh. destruct (He o Hty Hh) as (v & Hv & Hok). exists v. split; [done|].
    eapply event_ok_sub; [done|apply HA|]. intros t y _. apply Ht.
Qed.

Lemma same_request_refl x : same_request x x.
Proof. done. Qed.

(** Objects and control blocks unchanged. *)
Lemma obj_inv_same h s s' A : obj_inv h s A -> ob s' = ob s -> tcbs s' = tcbs s -> obj_inv h s' A.
Proof. intros HO E1 E2. eapply obj_inv_sub; [done..|]. intros t y. rewrite E2. eauto using same_request_refl. Qed.

Lemma same_request_insert (tc : gmap tid ktask_t) t x y u z :
  tc !! t = Some x -> same_request x y -> <[t := y]> tc !! u = Some z ->
  exists x', tc !! u = Some x' /\ same_request x' z.
Proof.
  intros Ht Hr Hz. destruct (decide (u = t)) as [->|]; simplify_map_eq; eauto using same_request_refl.
Qed.
End ObjInv.
