(* ===== verification/Resched.v ===== *)
(** * Rescheduling

    What the critical sections and the scheduler do to the processor state,
    and the boundary invariant [kwf]: outside the kernel, interrupts are
    enabled and, unless an interrupt is being served or the scheduler is
    locked, the running task is the first task of the highest ready
    priority. *)

From stdpp Require Import functions.
From S2P Require Import Prelude.
From S2P Require Import Monad.
From S2P Require Import Links.
From S2P Require Import KState.
From S2P Require Import Bitmap.
From S2P Require Import Sched.
From S2P Require Import Pend.
From S2P Require Import Inv.
From S2P Require Import MInv.
From S2P Require Import ObjInv.

(** ** Definitions *)

Definition with_gl (g : kglob) (s : kstate) : kstate :=
  mkK (lm s) (rq s) (tcbs s) g (ob s) (umem s).
Definition with_ob (o : kobjs) (s : kstate) : kstate :=
  mkK (lm s) (rq s) (tcbs s) (gl s) o (umem s).

(** [t] is the task the scheduler has to run. *)
Definition top_ready (A : queues) (t : tid) : Prop :=
  exists h r, is_highest A h /\ A (LReady h) = t :: r.

(** An interrupt is being served or the scheduler is locked. *)
Definition no_sched (g : kglob) : bool := (0 <? g_intrpt_nested_level g) || (0 <? g_sched_lock g).

(** The processor state after a critical section that ends in a reschedule
    with [t] on top. *)
Definition resched (t : tid) (g : kglob) : kglob :=
  if no_sched g then set_primask false g
  else set_pendsv false (set_g_active_task (Some t)
         (set_g_preferred_ready_task (Some t) (set_primask false g))).

(** The tasks an interrupt handler may find running. *)
Definition active_ready (s : kstate) : Prop :=
  exists a x, g_active_task (gl s) = Some a /\ tcbs s !! a = Some x /\ task_state x = K_RDY.

(** The globals: counters in range; no context switch is pending (PendSV is
    taken as soon as it is requested). *)
Record gl_ok (g : kglob) : Prop := mkGlOk {
  go_nest : 0 <= g_intrpt_nested_level g <= RHINO_CONFIG_INTRPT_MAX_NESTED_LEVEL;
  go_lock : 0 <= g_sched_lock g <= SCHED_MAX_LOCK_COUNT;
  go_pend : pendsv g = false;
  go_run : g_sys_stat g = RHINO_RUNNING;
  go_tick : 0 <= g_tick_count g < 2 ^ 64;
}.

(** Every sleeping task and every timeout is due in the future. *)
Definition tick_pos (s : kstate) (A : queues) : Prop :=
  forall u, u ∈ A LTick -> 0 < tick_rest (gl s) (tcbs s) u.

Definition mutex_inv (s : kstate) (A : queues) : Prop :=
  exists C, minv None s C /\ pinv s A C.

(** The invariant of the kernel, inside and outside critical sections; [h]
    is the hole of [obj_inv]. *)
Record kgoodx (h : option oid) (s : kstate) (A : queues) : Prop := mkKgood {
  kg_inv : kinv s A;
  kg_gl : gl_ok (gl s);
  kg_tick : tick_pos s A;
  kg_mutex : mutex_inv s A;
  kg_obj : obj_inv h s A;
}.
Abbreviation kgood := (kgoodx None).

Arguments kg_inv {h} s A.
Arguments kg_gl {h} s A.
Arguments kg_tick {h} s A.
Arguments kg_mutex {h} s A.
Arguments kg_obj {h} s A.

(** Outside the kernel. *)
Record kwf (s : kstate) (A : queues) : Prop := mkKwf {
  kw_good : kgood s A;
  kw_mask : primask (gl s) = false;
  kw_active : 0 < g_sched_lock (gl s) \/ g_intrpt_nested_level (gl s) = 0 -> active_ready s;
  kw_top : no_sched (gl s) = false ->
    exists t, g_active_task (gl s) = Some t /\ top_ready A t;
}.

Lemma kw_gl s A : kwf s A -> gl_ok (gl s).
Proof. intros HW. apply (kw_good _ _ HW). Qed.

Lemma kw_inv s A : kwf s A -> kinv s A.
Proof. intros HW. apply (kw_good _ _ HW). Qed.

(** ** The invariant and parts of the state it does not read *)

Lemma kinv_gl s A g :
  kinv s A -> (exists a x, g_active_task g = Some a /\ tcbs s !! a = Some x) ->
  g_tick_count g = g_tick_count (gl s) -> kinv (with_gl g s) A.
Proof.
  intros [] Ha Ht. split; try done. simpl. eapply tick_sorted_ext; [|done].
  intros u _. unfold tick_rest. by rewrite Ht.
Qed.

Lemma kinv_gl_same s A g :
  kinv s A -> g_active_task g = g_active_task (gl s) -> g_tick_count g = g_tick_count (gl s) ->
  kinv (with_gl g s) A.
Proof. intros HI He Ht. apply kinv_gl; [done| |done]. rewrite He. apply HI. Qed.

(** Changes to the part of an object that follows its header. *)
Lemma kinv_ob s A o : kinv s A -> blks o = blks (ob s) -> kinv (with_ob o s) A.
Proof. intros [] E. split; simpl; rewrite ?E; done. Qed.

Lemma mutex_inv_gl s A g : mutex_inv s A -> mutex_inv (with_gl g s) A.
Proof. intros (C & [] & HP). exists C. by split. Qed.

Lemma tick_pos_gl s A g : tick_pos s A -> g_tick_count g = g_tick_count (gl s) -> tick_pos (with_gl g s) A.
Proof. intros Hp E u Hu. unfold tick_rest. simpl. rewrite E. by apply Hp. Qed.

Lemma obj_inv_gl h s A g : obj_inv h s A -> obj_inv h (with_gl g s) A.
Proof. intros HO. by eapply obj_inv_same. Qed.

Lemma kgood_gl s A g :
  kgood s A -> gl_ok g -> (exists a x, g_active_task g = Some a /\ tcbs s !! a = Some x) ->
  g_tick_count g = g_tick_count (gl s) -> kgood (with_gl g s) A.
Proof.
  intros [] Hg Ha Ht.
  split; [by apply kinv_gl|done|by apply tick_pos_gl|by apply mutex_inv_gl|by apply obj_inv_gl].
Qed.

Lemma gl_ok_mask b g : gl_ok g -> gl_ok (set_primask b g).
Proof. by intros []. Qed.

Lemma kgood_mask s A b : kgood s A -> kgood (with_gl (set_primask b (gl s)) s) A.
Proof.
  intros HK. apply kgood_gl; [done|by apply gl_ok_mask, HK| |done]. apply (ki_active _ _ (kg_inv _ _ HK)).
Qed.

Lemma top_ready_unique A t u : top_ready A t -> top_ready A u -> t = u.
Proof.
  intros (h & r & Hh & Hr) (h' & r' & Hh' & Hr').
  rewrite (is_highest_unique _ _ _ Hh Hh') in Hr. congruence.
Qed.

Lemma kinv_highest s A : kinv s A -> 0 <= highest_pri (rq s) < RHINO_CONFIG_PRI_MAX /\
  exists t r, A (LReady (highest_pri (rq s))) = t :: r.
Proof.
  intros HI. pose proof (rq_high _ _ (srep_rq _ _ _ _ (ki_rep _ _ HI))) as [Hlt [[Hr Hn]|Hh]].
  - destruct (A (LReady (highest_pri (rq s)))) as [|t r] eqn:E; [done|]. eauto.
  - destruct (ki_idle _ _ HI). apply Hlt. rewrite Hh. unfold RHINO_IDLE_PRI, RHINO_CONFIG_PRI_MAX. lia.
Qed.

Lemma kinv_top s A : kinv s A -> exists t, top_ready A t.
Proof.
  intros HI. destruct (kinv_highest _ _ HI) as (_ & t & r & E). exists t, (highest_pri (rq s)), r.
  split; [apply HI|done].
Qed.

(** The top task is ready, and no ready task has a higher priority. *)
Lemma top_ready_task s A t : kinv s A -> top_ready A t ->
  exists x, tcbs s !! t = Some x /\ task_state x = K_RDY /\
    forall u y, tcbs s !! u = Some y -> task_state y = K_RDY -> prio x <= prio y.
Proof.
  intros HI (h & r & Hh & Hr).
  assert (t ∈ A (LReady h)) as (x & Hx & Hs & Hp)%(ki_mem _ _ HI) by (rewrite Hr; set_solver).
  exists x. split_and!; [done..|]. intros u y Hy Hs'.
  pose proof (proj2 (ki_mem _ _ HI u (LReady (prio y)))) as Hm.
  destruct (decide (prio x <= prio y)) as [|Hlt]; [done|].
  destruct Hh as [Hl _]. rewrite Hl in Hm.
  - assert (u ∈ @nil tid) by (apply Hm; exists y; by split). set_solver.
  - pose proof (ok_prio _ _ (ki_task _ _ HI _ _ Hy)). lia.
Qed.

(** ** Critical sections *)

Section Crit.
Implicit Types (s : kstate) (A : queues).

Lemma wp_critical_enter (Q : bool -> kstate -> Prop) s :
  Q (primask (gl s)) (with_gl (set_primask true (gl s)) s) -> wp critical_enter Q s.
Proof. intros HQ. unfold critical_enter, cpu_intrpt_save. by wsteps. Qed.

(** A critical section that ends without rescheduling. *)
Lemma wp_critical_restore b (Q : unit -> kstate -> Prop) s :
  gl_ok (gl s) -> Q tt (with_gl (set_primask b (gl s)) s) -> wp (critical_exit b) Q s.
Proof.
  intros [Hn _ Hp _ _] HQ. unfold critical_exit, cpu_intrpt_restore. wsteps.
  unfold pendsv_taken. simpl. rewrite Hp. simpl. by wsteps.
Qed.

Lemma wp_critical_exit (Q : unit -> kstate -> Prop) s :
  gl_ok (gl s) -> Q tt (with_gl (set_primask false (gl s)) s) -> wp (critical_exit false) Q s.
Proof. apply wp_critical_restore. Qed.

Lemma wp_preferred_get A (Q : unit -> kstate -> Prop) s t :
  kinv s A -> top_ready A t ->
  Q tt (with_gl (set_g_preferred_ready_task (Some t) (gl s)) s) ->
  wp preferred_cpu_ready_task_get Q s.
Proof.
  intros HI Ht HQ. unfold preferred_cpu_ready_task_get. wsteps.
  destruct (kinv_highest _ _ HI) as (Hr & u & r & E).
  apply (wp_get_cur (blks (ob s)) A); [apply HI|done|]. rewrite E. simpl. wsteps.
  assert (t = u) as ->; [|done]. eapply top_ready_unique; [done|]. exists (highest_pri (rq s)), r.
  split; [apply HI|done].
Qed.

Lemma resched_same t g : no_sched g = false -> g_active_task g = Some t ->
  pendsv g = false ->
  set_primask false (set_g_preferred_ready_task (Some t) (set_primask true g)) = resched t g.
Proof. intros Hn Ha Hp. unfold resched. rewrite Hn. destruct g; simpl in *. by subst. Qed.

Lemma no_sched_pend g : gl_ok g -> no_sched g = false ->
  g_intrpt_nested_level g = 0 /\ g_sched_lock g = 0 /\ pendsv g = false.
Proof.
  intros [Hn Hl Hp _ _] [H1 H2]%orb_false_iff. apply Z.ltb_ge in H1, H2.
  split_and!; [lia..|done].
Qed.

Lemma wp_core_sched A t (Q : unit -> kstate -> Prop) s :
  kinv s A -> gl_ok (gl s) -> primask (gl s) = false -> top_ready A t ->
  Q tt (with_gl (resched t (gl s)) s) -> wp core_sched Q s.
Proof.
  intros HI HG Hm Ht HQ. unfold core_sched. apply wp_bind. unfold cpu_intrpt_save. wsteps. rewrite Hm.
  assert (Hex : no_sched (gl s) = true ->
    wp (cpu_intrpt_restore false) Q (with_gl (set_primask true (gl s)) s)).
  { intros Hn. apply wp_critical_exit; [by destruct HG|]. unfold resched in HQ. rewrite Hn in HQ.
    destruct s, gl; done. }
  destruct (no_sched (gl s)) eqn:En.
  - unfold no_sched in En. simpl. destruct (0 <? g_intrpt_nested_level (gl s)); [by apply Hex|].
    simpl in En. rewrite En. by apply Hex.
  - destruct (no_sched_pend _ HG En) as (E1 & E2 & Ep). simpl. rewrite E1, E2. simpl.
    apply wp_bind, (wp_preferred_get A _ _ t); [by apply (kinv_gl_same s)|done|]. wsteps.
    unfold resched in HQ. rewrite En in HQ.
    unfold cpu_task_switch, cpu_intrpt_restore. case_bool_decide as Hb; wsteps;
      unfold pendsv_taken, with_gl in *; simpl in *; rewrite ?E1, ?Ep; simpl; wsteps.
    + destruct s, gl; simpl in *. by subst.
    + unfold PendSV_Handler. wsteps. by destruct s, gl.
Qed.

Lemma wp_critical_exit_sched A t (Q : unit -> kstate -> Prop) s :
  kgood s A -> top_ready A t -> Q tt (with_gl (resched t (gl s)) s) ->
  wp (critical_exit_sched false) Q s.
Proof.
  intros [HI HG _ _ _] Ht HQ. unfold critical_exit_sched. apply wp_bind, wp_critical_exit; [done|].
  apply (wp_core_sched A t); [by apply kinv_gl_same|by destruct HG|done|done|].
  unfold resched in *. simpl. unfold no_sched in *. simpl. by destruct (_ || _).
Qed.
End Crit.

(** ** Establishing the boundary invariant *)

Section Boundary.
Implicit Types (s : kstate) (A : queues).

Lemma kwf_enter s A : kwf s A -> kgood (with_gl (set_primask true (gl s)) s) A.
Proof. intros HW. by apply kgood_mask, kw_good. Qed.

(** After a reschedule. *)
Lemma kwf_resched s A t :
  kgood s A -> top_ready A t -> (0 < g_sched_lock (gl s) -> active_ready s) ->
  kwf (with_gl (resched t (gl s)) s) A.
Proof.
  intros HK Ht Ha. pose proof (kg_gl _ _ HK) as [H1 H2 H3 H4 H5].
  destruct (top_ready_task _ _ _ (kg_inv _ _ HK) Ht) as (x & Hx & Hs & _).
  unfold resched. destruct (no_sched (gl s)) eqn:En.
  - split; simpl; [by apply kgood_mask|done| |].
    + intros E0. destruct Ha as (a & y & ?); [|by exists a, y].
      unfold no_sched in En. destruct E0 as [|E0]; [done|]. rewrite E0 in En. simpl in En. lia.
    + unfold no_sched in *. simpl. by rewrite En.
  - split; simpl; [|done| |].
    + apply kgood_gl; simpl; [done|by split|eauto|done].
    + intros _. exists t, x. done.
    + intros _. eauto.
Qed.

(** After a critical section that left the ready queue and the globals as
    they were. *)
Lemma kwf_exit s A s' A' :
  kwf s A -> kgood s' A' -> gl s' = set_primask true (gl s) -> (forall p, A' (LReady p) = A (LReady p)) ->
  (active_ready s -> active_ready s') ->
  kwf (with_gl (set_primask false (gl s')) s') A'.
Proof.
  intros [HK Hm Ha Ht] HK' Eg HA Hr. split; simpl.
  - by apply kgood_mask.
  - done.
  - rewrite Eg. intros E. simpl in E. destruct (Hr (Ha E)) as (a & x & Hx). rewrite Eg in Hx. by exists a, x.
  - rewrite Eg. intros E. destruct (Ht E) as (t & Et & h & r & Hh & Hhr). exists t. split; [done|].
    exists h, r. rewrite HA. split; [|done]. eapply is_highest_ext; [|exact Hh]. intros p. by rewrite HA.
Qed.

(** A critical section that did nothing. *)
Lemma kwf_noop s A : kwf s A -> with_gl (set_primask false (set_primask true (gl s))) s = s.
Proof. intros HW. pose proof (kw_mask _ _ HW). destruct s, gl; simpl in *. by subst. Qed.

Lemma wp_exit_noop A (Q : unit -> kstate -> Prop) s :
  kwf s A -> Q tt s -> wp (critical_exit false) Q (with_gl (set_primask true (gl s)) s).
Proof.
  intros HW HQ. apply wp_critical_exit; [by apply gl_ok_mask, (kw_gl _ _ HW)|].
  change (Q tt (with_gl (set_primask false (set_primask true (gl s))) s)). by rewrite (kwf_noop s A).
Qed.

(** The result of a call that returns at once. *)
Lemma wp_exit_ret {B : Type} A (r : B) (Q : B -> kstate -> Prop) s :
  kwf s A -> Q r s -> wp (critical_exit false ;; ret r) Q (with_gl (set_primask true (gl s)) s).
Proof. intros HW HQ. apply wp_bind, (wp_exit_noop A); [done|]. by apply wp_ret. Qed.

Lemma wp_kwf_enter A (Q : bool -> kstate -> Prop) s :
  kwf s A -> Q false (with_gl (set_primask true (gl s)) s) -> wp critical_enter Q s.
Proof. intros HW HQ. apply wp_critical_enter. by rewrite (kw_mask _ _ HW). Qed.

(** A call that ends in a reschedule. *)
Lemma wp_exit_resched {B : Type} A (r : B) (Q : B -> kstate -> Prop) s :
  kgood s A -> (0 < g_sched_lock (gl s) -> active_ready s) ->
  (forall t, top_ready A t -> kwf (with_gl (resched t (gl s)) s) A -> Q r (with_gl (resched t (gl s)) s)) ->
  wp (critical_exit_sched false ;; ret r) Q s.
Proof.
  intros HK Ha HQ. destruct (kinv_top _ _ (kg_inv _ _ HK)) as [t Ht].
  apply wp_bind, (wp_critical_exit_sched A t); [done..|]. apply wp_ret, HQ; [done|]. by apply kwf_resched.
Qed.
End Boundary.
