(* ===== verification/Block.v ===== *)
(** * Blocking and waking under the full invariant

    The operations of k_pend.c on objects other than mutexes, as the kernel
    calls them inside a critical section. *)

From stdpp Require Import functions.
From S2P Require Import Prelude.
From S2P Require Import Monad.
From S2P Require Import Links.
From S2P Require Import KState.
From S2P Require Import Bitmap.
From S2P Require Import Sched.
From S2P Require Import Pend.
From S2P Require Import Inv.
From S2P Require Import MInv.
From S2P Require Import ObjInv.
From S2P Require Import Resched.

Section Fields.
Implicit Types (s : kstate) (A : queues) (t : tid) (x y : ktask_t) (o : oid).

(** Replace the control blocks, links and ready queue. *)
Definition retask l' q' tc s : kstate := mkK l' q' tc (gl s) (ob s) (umem s).

(** One task changed and the waiting lists of mutexes are as before. *)
Lemma mutex_inv_task l' q' s A A' t x y :
  mutex_inv s A -> tcbs s !! t = Some x -> mutex_same (ob s) x y ->
  (forall m u, is_mutex (ob s) m -> u ∈ A' (LBlk m) <-> u ∈ A (LBlk m)) ->
  mutex_inv (retask l' q' (<[t := y]> (tcbs s)) s) A'.
Proof.
  intros (C & HM & HP) Ht Hs HA. exists C. split; [by eapply minv_task|].
  eapply pinv_task; [done..|]. intros. by apply HA.
Qed.

Lemma unblocked_mutex_same (os : kobjs) bs x : pended (task_state x) = true -> mutex_same os x (unblocked bs x).
Proof. intros Hp. split; simpl; try done; by destruct (task_state x). Qed.

Lemma unblock_queues_other p t x o A m :
  m <> o -> unblock_queues p t x o A (LBlk m) = A (LBlk m).
Proof. intros. unfold unblock_queues. case_bool_decide; qcases. Qed.

Lemma unblock_queues_blk p t x o A : unblock_queues p t x o A (LBlk o) = lrm t (A (LBlk o)).
Proof. unfold unblock_queues. case_bool_decide; qcases. Qed.

Lemma unblock_queues_tick p t x o A : unblock_queues p t x o A LTick = lrm t (A LTick).
Proof. unfold unblock_queues. qcases. Qed.

Lemma unblock_queues_sub p t x o A o' u :
  u ∈ unblock_queues p t x o A (LBlk o') -> u ∈ A (LBlk o').
Proof.
  destruct (decide (o' = o)) as [->|]; [rewrite unblock_queues_blk, elem_of_lrm; tauto|by rewrite unblock_queues_other].
Qed.

Lemma tick_pos_sub s s' A A' :
  tick_pos s A -> gl s' = gl s ->
  (forall u, u ∈ A' LTick -> u ∈ A LTick /\ tick_match <$> tcbs s' !! u = tick_match <$> tcbs s !! u) ->
  tick_pos s' A'.
Proof.
  intros Hp Eg HA u Hu. destruct (HA u Hu) as [Hu' E]. specialize (Hp u Hu').
  unfold tick_rest in *. by rewrite Eg, E.
Qed.

Lemma unblocked_match bs x : tick_match (unblocked bs x) = tick_match x.
Proof. done. Qed.

(** The full invariant after [t] was woken from an object that is not a
    mutex. *)
Lemma kgood_unblocked h l' q' s A t x o bs :
  kgoodx h s A -> tcbs s !! t = Some x -> pended (task_state x) = true -> task_blk_obj x = Some o ->
  ~ is_mutex (ob s) o ->
  kinv (retask l' q' (<[t := unblocked bs x]> (tcbs s)) s) (unblock_queues (active_prio s) t x o A) ->
  kgoodx h (retask l' q' (<[t := unblocked bs x]> (tcbs s)) s) (unblock_queues (active_prio s) t x o A).
Proof.
  intros [HI HG HT HM HO] Ht Hp Ho Hnm HI'. split; [done..| | |].
  - eapply tick_pos_sub; [done|done|]. intros u. rewrite unblock_queues_tick, elem_of_lrm. intros [Hne Hu].
    split; [done|]. simpl. by rewrite lookup_insert_ne.
  - eapply mutex_inv_task; [done..|by apply unblocked_mutex_same|].
    intros m u Hm. rewrite unblock_queues_other; [done|]. by intros ->.
  - eapply obj_inv_sub; [done|done|apply unblock_queues_sub|].
    intros u z. simpl. by eapply same_request_insert.
Qed.
(** One task changed in fields that place it nowhere else. *)
Lemma kgood_task h s A t x y :
  kgoodx h s A -> tcbs s !! t = Some x -> same_place x y -> mutex_same (ob s) x y ->
  same_request x y \/ pended (task_state x) = false ->
  kgoodx h (with_tc (<[t := y]> (tcbs s)) s) A.
Proof.
  intros [HI HG HT HM HO] Ht Hp Hm Hr. split; [by eapply kinv_same_place|done| | |].
  - intros u Hu. simpl. destruct Hp as (_ & _ & _ & _ & E).
    rewrite (tick_rest_same_match _ _ _ _ _ _ Ht E). by apply HT.
  - by eapply (mutex_inv_task (lm s) (rq s)).
  - destruct Hr as [Hr|Hr].
    + eapply obj_inv_sub; [done..|]. intros u z. simpl. by eapply same_request_insert.
    + assert (Hn : forall o, t ∉ A (LBlk o)).
      { intros o. rewrite (kinv_in _ _ _ _ (LBlk o) HI Ht). simpl. rewrite Hr. naive_solver. }
      destruct HO as [Hs He Hq]. split; [done| |intros o; by eapply store_ok_sub]. intros o Ho Hh. destruct (He o Ho Hh) as (v & Hv & H1 & H2).
      exists v. split; [done|]. split; [done|]. intros u z Hu Hz. apply (H2 u); [done|].
      simpl in Hz. rewrite lookup_insert_ne in Hz; [done|]. intros ->. by destruct (Hn o).
Qed.
End Fields.

Lemma wp_good_unblock h s A t x o bs (Q : unit -> kstate -> Prop) :
  kgoodx h s A -> tcbs s !! t = Some x -> pended (task_state x) = true -> task_blk_obj x = Some o ->
  ~ is_mutex (ob s) o ->
  (forall l' q', kgoodx h (retask l' q' (<[t := unblocked bs x]> (tcbs s)) s) (unblock_queues (active_prio s) t x o A) ->
     Q tt (retask l' q' (<[t := unblocked bs x]> (tcbs s)) s)) ->
  wp (pend_task_unblock t bs) Q s.
Proof.
  intros HK Ht Hp Ho Hm HQ. apply (wp_pend_task_unblock s A t x o); [apply HK|done..|].
  intros l' q' HI'. apply HQ. by apply kgood_unblocked.
Qed.

(** The first waiting task, from the invariant. *)
Lemma first_waiter s A o t r :
  kinv s A -> A (LBlk o) = t :: r ->
  exists x, tcbs s !! t = Some x /\ pended (task_state x) = true /\ task_blk_obj x = Some o.
Proof. intros HI E. apply (ki_mem _ _ HI t (LBlk o)). rewrite E. set_solver. Qed.

Lemma nodes_blk (bl : gmap oid blk_obj_t) A o b : bl !! o = Some b -> nodes bl A (LBlk o) = NBlk o :: (NTask <$> A (LBlk o)).
Proof. intros Hb. unfold nodes. by rewrite (hdr_blk _ _ _ Hb). Qed.

Lemma wp_blk_empty s A o b (Q : bool -> kstate -> Prop) :
  kinv s A -> blks (ob s) !! o = Some b -> Q (bool_decide (A (LBlk o) = [])) s -> wp (is_klist_empty (NBlk o)) Q s.
Proof.
  intros HI Hb HQ.
  apply (wp_is_klist_empty (nodes (blks (ob s)) A) (LBlk o) (NBlk o) (NTask <$> A (LBlk o)));
    [apply (srep_rings _ _ _ _ (ki_rep _ _ HI))|by apply (nodes_blk _ A o b)|].
  destruct (A (LBlk o)); simpl; done.
Qed.

Lemma wp_get_first s A o b t r (Q : knode -> kstate -> Prop) :
  kinv s A -> blks (ob s) !! o = Some b -> A (LBlk o) = t :: r -> Q (NTask t) s ->
  wp (get_next (NBlk o)) Q s.
Proof.
  intros HI Hb E HQ. apply (wp_get_next (nodes (blks (ob s)) A) (LBlk o) [] (NBlk o) (NTask <$> t :: r)).
  - apply HI.
  - by rewrite (nodes_blk _ _ _ _ Hb), E.
  - done.
Qed.

(** ** Waking every waiting task *)

Definition wake_with (f : ktask_t -> ktask_t) (ts : list tid) (tc : gmap tid ktask_t) : gmap tid ktask_t :=
  foldl (fun m t => alter f t m) tc ts.
Definition wake_all (bs : blk_state_t) : list tid -> gmap tid ktask_t -> gmap tid ktask_t := wake_with (unblocked bs).

Section WakeAll.
Implicit Types (s : kstate) (A : queues) (t : tid) (ts : list tid) (o : oid) (f : ktask_t -> ktask_t).

Lemma alter_insert_some f t x (tc : gmap tid ktask_t) :
  tc !! t = Some x -> alter f t tc = <[t := f x]> tc.
Proof.
  intros Ht. apply map_eq. intros u. destruct (decide (u = t)) as [->|].
  - by rewrite lookup_alter_eq, lookup_insert_eq, Ht.
  - by rewrite lookup_alter_ne, lookup_insert_ne.
Qed.

Lemma wake_with_other f ts tc u : u ∉ ts -> wake_with f ts tc !! u = tc !! u.
Proof.
  revert tc. induction ts as [|t ts IH]; intros tc Hu; [done|]. simpl. rewrite IH by set_solver.
  by rewrite lookup_alter_ne by set_solver.
Qed.

Lemma wake_with_in f ts tc u : NoDup ts -> u ∈ ts -> wake_with f ts tc !! u = f <$> tc !! u.
Proof.
  revert tc. induction ts as [|t ts IH]; intros tc Hnd Hu; [set_solver|].
  apply NoDup_cons in Hnd as [Hn Hnd]. simpl. apply elem_of_cons in Hu as [->|Hu].
  - rewrite wake_with_other by done. by rewrite lookup_alter_eq.
  - rewrite IH by done. rewrite lookup_alter_ne; [done|]. by intros ->.
Qed.

Lemma wake_all_other bs ts tc u : u ∉ ts -> wake_all bs ts tc !! u = tc !! u.
Proof. apply wake_with_other. Qed.

Lemma wake_all_in bs ts tc u : NoDup ts -> u ∈ ts -> wake_all bs ts tc !! u = unblocked bs <$> tc !! u.
Proof. apply wake_with_in. Qed.

(** [m t] releases [t] from [o] and turns its control block [x] into [f x]. *)
Definition releases (m : tid -> M unit) f o : Prop :=
  forall s A t x (Q : unit -> kstate -> Prop),
    kgood s A -> tcbs s !! t = Some x -> pended (task_state x) = true -> task_blk_obj x = Some o ->
    ~ is_mutex (ob s) o ->
    (forall l' q', kgood (retask l' q' (<[t := f x]> (tcbs s)) s) (unblock_queues (active_prio s) t x o A) ->
       Q tt (retask l' q' (<[t := f x]> (tcbs s)) s)) ->
    wp (m t) Q s.

Lemma unblock_releases bs o : releases (fun t => pend_task_unblock t bs) (unblocked bs) o.
Proof. intros s A t x Q HK Ht Hp Ho Hm HQ. by apply (wp_good_unblock None s A t x o bs). Qed.

(** The queues after everybody was woken: nobody waits for [o]. *)
Lemma wp_good_drain s A o b m f ts fuel (Q : unit -> kstate -> Prop) :
  releases m f o ->
  kgood s A -> blks (ob s) !! o = Some b -> ~ is_mutex (ob s) o -> A (LBlk o) = ts -> (length ts < fuel)%nat ->
  (forall l' q' A', kgood (retask l' q' (wake_with f ts (tcbs s)) s) A' -> A' (LBlk o) = [] ->
     (forall o', o' <> o -> A' (LBlk o') = A (LBlk o')) ->
     Q tt (retask l' q' (wake_with f ts (tcbs s)) s)) ->
  wp (drain fuel m (NBlk o)) Q s.
Proof.
  intros Hrel. revert s A fuel. induction ts as [|t ts IH]; intros s A fuel HK Hb Hm HA Hf HQ;
    (destruct fuel as [|fuel]; simpl in Hf; [lia|]); simpl; apply wp_bind, (wp_blk_empty s A o b); try done;
    try apply HK; rewrite HA; simpl.
  - apply wp_ret. destruct s. by apply (HQ lm rq A).
  - destruct (first_waiter s A o t ts (kg_inv _ _ HK) HA) as (x & Hx & Hp & Ho).
    apply wp_bind, (wp_get_first s A o b t ts); [apply HK|done..|]. simpl. wsteps.
    apply (Hrel s A t x); [done..|].
    intros l1 q1 HK1. eapply (IH _ _ _ HK1); simpl; [done|done| |lia|].
    + rewrite unblock_queues_blk, HA. apply (lrm_split t [] ts). simpl. rewrite <- HA.
      eapply kinv_nodup, HK.
    + intros l' q' A' HK' He Hs. specialize (HQ l' q' A').
      change (wake_with f (t :: ts) (tcbs s)) with (wake_with f ts (alter f t (tcbs s))) in HQ.
      rewrite (alter_insert_some _ _ x) in HQ by done. apply HQ; [done|done|].
      intros o' Ho'. rewrite Hs by done. by apply unblock_queues_other.
Qed.

Lemma wp_good_drain_with s A o b m f (Q : unit -> kstate -> Prop) :
  releases m f o -> kgood s A -> blks (ob s) !! o = Some b -> ~ is_mutex (ob s) o ->
  (forall l' q' A', kgood (retask l' q' (wake_with f (A (LBlk o)) (tcbs s)) s) A' -> A' (LBlk o) = [] ->
     (forall o', o' <> o -> A' (LBlk o') = A (LBlk o')) ->
     Q tt (retask l' q' (wake_with f (A (LBlk o)) (tcbs s)) s)) ->
  wp (drain_list m (NBlk o)) Q s.
Proof.
  intros Hrel HK Hb Hm HQ. unfold drain_list, list_fuel. wsteps.
  eapply wp_good_drain; [done..| |done].
  pose proof (ki_rep _ _ (kg_inv _ _ HK)) as [Hr _].
  pose proof (ring_size (lm s) _ (rings_nodup _ _ Hr (LBlk o)) (rings_ring _ _ Hr (LBlk o))) as Hl.
  rewrite (nodes_blk _ _ _ _ Hb) in Hl. simpl in Hl. rewrite length_fmap in Hl. lia.
Qed.

Lemma wp_good_drain_list s A o b bs (Q : unit -> kstate -> Prop) :
  kgood s A -> blks (ob s) !! o = Some b -> ~ is_mutex (ob s) o ->
  (forall l' q' A', kgood (retask l' q' (wake_all bs (A (LBlk o)) (tcbs s)) s) A' -> A' (LBlk o) = [] ->
     (forall o', o' <> o -> A' (LBlk o') = A (LBlk o')) ->
     Q tt (retask l' q' (wake_all bs (A (LBlk o)) (tcbs s)) s)) ->
  wp (drain_list (fun t => pend_task_unblock t bs) (NBlk o)) Q s.
Proof. apply wp_good_drain_with, unblock_releases. Qed.
Lemma active_prio_same s t x y :
  tcbs s !! t = Some x -> prio y = prio x -> active_prio (with_tc (<[t := y]> (tcbs s)) s) = active_prio s.
Proof.
  intros Ht E. unfold active_prio. simpl. destruct (g_active_task (gl s)) as [a|]; [|done].
  destruct (decide (a = t)) as [->|]; [|by rewrite prio_of_insert_ne].
  unfold prio_of. by rewrite lookup_insert_eq, Ht.
Qed.

(** A task is changed in fields that place it nowhere, then woken. *)
Lemma update_releases (g : ktask_t -> ktask_t) o bs :
  (forall x, same_place x (g x)) -> (forall os x, mutex_same os x (g x)) -> (forall x, same_request x (g x)) ->
  releases (fun t => task_upd t g ;; pend_task_unblock t bs) (fun x => unblocked bs (g x)) o.
Proof.
  intros G1 G2 G3 s A t x Q HK Ht Hp Ho Hm HQ. unfold task_upd. wsteps.
  destruct (G1 x) as (E1 & E2 & E3 & _).
  apply (wp_good_unblock None (with_tc (<[t := g x]> (tcbs s)) s) A t (g x) o bs).
  - eapply kgood_task; [done..|by left].
  - apply lookup_insert_eq.
  - congruence.
  - congruence.
  - done.
  - intros l' q'. simpl. rewrite insert_insert_eq, (active_prio_same s t x) by done.
    unfold unblock_queues. rewrite E1, E2. apply HQ.
Qed.
End WakeAll.

(** ** Blocking the caller *)

Section BlockCaller.
Implicit Types (s : kstate) (A : queues) (t : tid) (x : ktask_t) (o : oid).

(** [x] may be put on the waiting list of [o]. *)
Definition may_wait s o x : Prop :=
  (has_type s o RHINO_SEM_OBJ_TYPE -> forall v, sems (ob s) !! o = Some v -> count v = 0) /\
  (has_type s o RHINO_EVENT_OBJ_TYPE -> forall v, events (ob s) !! o = Some v ->
     flags_met (flags v) (pend_flags x) (pend_option x) = false /\ is_Some (pend_info x) /\ 0 <= pend_flags x < 2 ^ 32) /\
  (has_type s o RHINO_QUEUE_OBJ_TYPE -> forall v, kqueues (ob s) !! o = Some v -> q_cur_num v = 0) /\
  (has_type s o RHINO_BUF_QUEUE_OBJ_TYPE -> forall v, bufqs (ob s) !! o = Some v -> bq_cur_num v = 0).

Lemma blocked_mutex_same (os : kobjs) g o timeout x :
  ~ is_mutex os o -> live (task_state x) = true -> prio x <> RHINO_IDLE_PRI ->
  mutex_same os x (blocked g o timeout x).
Proof.
  intros Hm Hl Hi. destruct (blocked_fields g o timeout x) as (F1 & F2 & F3 & _).
  split; rewrite ?F1, ?F2, ?F3; try done.
  - unfold blocked, armed. by destruct (_ =? _).
  - unfold blocked, armed. by destruct (_ =? _).
  - intros m _ [= <-] Hm'. done.
Qed.

Lemma blocked_request g o timeout x : same_request x (blocked g o timeout x).
Proof. unfold blocked, armed. by destruct (_ =? _). Qed.

Lemma block_queues_blk s pol o timeout t x A o' :
  block_queues s pol o timeout t x A (LBlk o') =
  if decide (o = o') then blk_insert pol (tcbs s) (prio x) t (A (LBlk o)) else A (LBlk o').
Proof. unfold block_queues. qcases. Qed.

Lemma tick_pos_block l' q' s A pol o timeout t x :
  kinv s A -> tick_pos s A -> tcbs s !! t = Some x -> task_state x = K_RDY -> timeout_ok timeout ->
  tick_pos (retask l' q' (<[t := blocked (gl s) o timeout x]> (tcbs s)) s) (block_queues s pol o timeout t x A).
Proof.
  intros HI HT Ht Hst Hto u Hu. unfold block_queues in Hu. rewrite !q_insert in Hu. repeat case_decide; try done.
  apply elem_of_tick_insert in Hu as [[-> Hne]|Hu]; simpl.
  - destruct Hto as [?|Hto]; [done|]. 
    rewrite (tick_rest_armed _ _ _ timeout x); [lia..|]. unfold blocked, armed. by rewrite (proj2 (Z.eqb_neq _ _) Hne).
  - rewrite tick_rest_insert_ne; [by apply HT|]. intros ->.
    apply (kinv_in _ _ _ _ LTick HI Ht) in Hu. destruct (ok_tick _ _ (ki_task _ _ HI _ _ Ht) Hu) as [E|E]; by rewrite Hst in E.
Qed.

Lemma obj_inv_blocked l' q' s A t x o b timeout :
  obj_inv None s A -> tcbs s !! t = Some x -> may_wait s o x ->
  obj_inv None (retask l' q' (<[t := blocked (gl s) o timeout x]> (tcbs s)) s) (block_queues s (blk_policy b) o timeout t x A).
Proof.
  intros [Hos Hoe Hoq] Ht (Hsem & Hev & Hqu & Hbq).
  assert (Hreq : forall u z, <[t := blocked (gl s) o timeout x]> (tcbs s) !! u = Some z ->
    exists z', tcbs s !! u = Some z' /\ same_request z' z).
  { intros u z. apply same_request_insert with x; [done|apply blocked_request]. }
  split; simpl; intros o'; [intros Ho'|intros Ho'|].
  - destruct (Hos o' Ho') as (v & Hv & H1 & H2 & H3). exists v. split; [done|].
    unfold sem_ok. rewrite block_queues_blk. case_decide as E; [|done]. subst o'.
    specialize (Hsem Ho' v Hv). split_and!; lia.
  - intros _. destruct (Hoe o' Ho' ltac:(done)) as (v & Hv & H1 & H2). exists v. split; [done|]. split; [done|].
    intros u z. rewrite block_queues_blk. case_decide as E.
    + subst o'. rewrite elem_of_blk_insert. intros [->|Hu].
      * rewrite lookup_insert_eq. intros [= <-]. destruct (blocked_request (gl s) o timeout x) as (-> & -> & ->).
        by apply (Hev Ho').
      * intros (z' & Hz' & -> & -> & ->)%Hreq. by apply (H2 u).
    + intros Hu (z' & Hz' & -> & -> & ->)%Hreq. by apply (H2 u).
  - destruct (Hoq o') as [Hq Hb]. split; intros Ho'; rewrite block_queues_blk; case_decide as E; [subst o'|by apply Hq|subst o'|by apply Hb].
    + destruct (Hq Ho') as (v & Hv & ms & Hr & _). exists v. split; [done|]. exists ms. split; [done|].
      pose proof (qr_num _ _ Hr) as Hn. rewrite (Hqu Ho' v Hv) in Hn. by destruct ms.
    + destruct (Hb Ho') as (v & Hv & ms & Hr & _). exists v. split; [done|]. exists ms. split; [done|].
      pose proof (br_num _ _ Hr) as Hn. rewrite (Hbq Ho' v Hv) in Hn. by destruct ms.
Qed.

Lemma kgood_blocked l' q' s A t x o b timeout :
  kgood s A -> tcbs s !! t = Some x -> task_state x = K_RDY -> prio x <> RHINO_IDLE_PRI ->
  blks (ob s) !! o = Some b -> timeout_ok timeout ->
  ~ is_mutex (ob s) o -> may_wait s o x ->
  kinv (retask l' q' (<[t := blocked (gl s) o timeout x]> (tcbs s)) s) (block_queues s (blk_policy b) o timeout t x A) ->
  kgood (retask l' q' (<[t := blocked (gl s) o timeout x]> (tcbs s)) s) (block_queues s (blk_policy b) o timeout t x A).
Proof.
  intros [HI HG HT HM HO] Ht Hst Hi Hb Hto Hm Hw HI'. split; [done..| | |].
  - by apply tick_pos_block.
  - eapply mutex_inv_task; [done..|by apply blocked_mutex_same; [|rewrite Hst|]|].
    intros m u Hmu. rewrite block_queues_blk. case_decide as E; [|done]. subst m. done.
  - by apply obj_inv_blocked.
Qed.

Lemma wp_good_block s A t x o b timeout (Q : unit -> kstate -> Prop) :
  kgood s A -> tcbs s !! t = Some x -> task_state x = K_RDY -> prio x <> RHINO_IDLE_PRI ->
  blks (ob s) !! o = Some b -> timeout_ok timeout -> ~ is_mutex (ob s) o -> may_wait s o x ->
  (forall l' q',
     kgood (retask l' q' (<[t := blocked (gl s) o timeout x]> (tcbs s)) s) (block_queues s (blk_policy b) o timeout t x A) ->
     Q tt (retask l' q' (<[t := blocked (gl s) o timeout x]> (tcbs s)) s)) ->
  wp (pend_to_blk_obj o t timeout) Q s.
Proof.
  intros HK Ht Hst Hp Hb Hto Hm Hw HQ. apply (wp_pend_to_blk_obj s A t x o b timeout); [apply HK|done..|].
  intros l' q' HI'. apply HQ. by apply kgood_blocked.
Qed.
End BlockCaller.

(** ** Ending a call *)

Section EndCall.
Implicit Types (s : kstate) (A : queues) (t : tid) (x : ktask_t) (o : oid).

(** The state after [t] was woken from [o] and the scheduler ran; [f] is
    what happened to its control block. *)
Definition released s s' A A' t o (f : ktask_t -> ktask_t) : Prop :=
  exists x top, tcbs s !! t = Some x /\ tcbs s' = <[t := f x]> (tcbs s) /\
    A' = unblock_queues (active_prio s) t x o A /\ ob s' = ob s /\ umem s' = umem s /\
    top_ready A' top /\ gl s' = resched top (gl s).
Definition woken s s' A A' t o bs : Prop := released s s' A A' t o (unblocked bs).

Lemma active_ready_insert_ne s t x l' q' :
  active_ready s -> (exists y, tcbs s !! t = Some y /\ task_state y <> K_RDY) ->
  active_ready (retask l' q' (<[t := x]> (tcbs s)) s).
Proof.
  intros (a & y & Ha & Hy & Hr) (z & Hz & Hn). exists a, y. split_and!; [done| |done].
  simpl. rewrite lookup_insert_ne; [done|]. intros ->. congruence.
Qed.

Lemma resched_unmask t g : resched t (set_primask true g) = resched t g.
Proof. unfold resched, no_sched. simpl. by destruct (_ || _). Qed.

(** Wake [t], then end the call. *)
Lemma wp_release_exit {R : Type} s A t x o m f (r : R) (Q : R -> kstate -> Prop) :
  releases m f o ->
  kwf s A -> tcbs s !! t = Some x -> pended (task_state x) = true -> task_blk_obj x = Some o ->
  ~ is_mutex (ob s) o ->
  (forall s' A', kwf s' A' -> released s s' A A' t o f -> Q r s') ->
  wp (m t ;; critical_exit_sched false ;; ret r) Q (with_gl (set_primask true (gl s)) s).
Proof.
  intros Hrel HW Hx Hp Ho Hm HQ. pose proof (kwf_enter _ _ HW) as HK.
  apply wp_bind, (Hrel _ A t x); [done..|]. intros l' q' HK'.
  apply (wp_exit_resched (unblock_queues (active_prio s) t x o A)); [done| |].
  - intros Hl. apply (active_ready_insert_ne (with_gl (set_primask true (gl s)) s)).
    + simpl in Hl. destruct (kw_active _ _ HW) as (a & y & ?); [by left|]. by exists a, y.
    + exists x. split; [done|]. by destruct (task_state x).
  - intros top Htop HW'. eapply HQ; [exact HW'|]. exists x, top. split_and!; done || apply resched_unmask.
Qed.

Lemma wp_wake_exit {R : Type} s A t x o bs (r : R) (Q : R -> kstate -> Prop) :
  kwf s A -> tcbs s !! t = Some x -> pended (task_state x) = true -> task_blk_obj x = Some o ->
  ~ is_mutex (ob s) o ->
  (forall s' A', kwf s' A' -> woken s s' A A' t o bs -> Q r s') ->
  wp (pend_task_unblock t bs ;; critical_exit_sched false ;; ret r) Q (with_gl (set_primask true (gl s)) s).
Proof. apply (wp_release_exit s A t x o _ _ r Q (unblock_releases bs o)). Qed.

(** Wake every task that waits for [o], then end the call. *)
Definition woken_with s s' A A' o (f : ktask_t -> ktask_t) : Prop :=
  tcbs s' = wake_with f (A (LBlk o)) (tcbs s) /\ A' (LBlk o) = [] /\
  (forall o', o' <> o -> A' (LBlk o') = A (LBlk o')) /\
  (exists top, top_ready A' top /\ gl s' = resched top (gl s)).
Definition woken_all s s' A A' o bs : Prop := woken_with s s' A A' o (unblocked bs).

Lemma active_ready_wake_with s s' A o f :
  kinv s A -> active_ready s -> g_active_task (gl s') = g_active_task (gl s) ->
  tcbs s' = wake_with f (A (LBlk o)) (tcbs s) -> active_ready s'.
Proof.
  intros HI (a & y & Ha & Hy & Hr) Eg Et. exists a, y. rewrite Eg, Et. split_and!; [done| |done].
  rewrite wake_with_other; [done|]. rewrite (kinv_in _ _ _ _ (LBlk o) HI Hy). simpl. rewrite Hr. naive_solver.
Qed.

Lemma active_ready_wake_all s s' A o bs :
  kinv s A -> active_ready s -> g_active_task (gl s') = g_active_task (gl s) ->
  tcbs s' = wake_all bs (A (LBlk o)) (tcbs s) -> active_ready s'.
Proof. apply active_ready_wake_with. Qed.

Lemma wp_release_all_exit {R : Type} s A o b m f (r : R) (Q : R -> kstate -> Prop) :
  releases m f o -> kwf s A -> blks (ob s) !! o = Some b -> ~ is_mutex (ob s) o ->
  (forall s' A', kwf s' A' -> woken_with s s' A A' o f -> ob s' = ob s -> Q r s') ->
  wp (drain_list m (NBlk o) ;; critical_exit_sched false ;; ret r) Q (with_gl (set_primask true (gl s)) s).
Proof.
  intros Hrel HW Hb Hm HQ. apply wp_bind, (wp_good_drain_with _ A o b m f); [done|by apply kwf_enter|done..|].
  intros l' q' A' HK' He Ho. apply (wp_exit_resched A'); [done| |].
  - intros Hl. apply (active_ready_wake_with s _ A o f); [apply HW|apply (kw_active _ _ HW); by left|done..].
  - intros top Htop HW'. eapply HQ; [exact HW'| |done]. split_and!; [done..|].
    exists top. split; [done|apply resched_unmask].
Qed.

Lemma active_ready_mask s b : active_ready s -> active_ready (with_gl (set_primask b (gl s)) s).
Proof. intros (a & y & ?). by exists a, y. Qed.

(** The caller blocks on [o], then the scheduler runs. *)
Definition caller_blocked s s' A A' a x o timeout : Prop :=
  exists b top, blks (ob s) !! o = Some b /\ tcbs s' = <[a := blocked (gl s) o timeout x]> (tcbs s) /\
    A' = block_queues s (blk_policy b) o timeout a x A /\ ob s' = ob s /\ umem s' = umem s /\
    top_ready A' top /\ gl s' = resched top (gl s).

Lemma wp_block_exit {R : Type} s A a x o b timeout (r : R) (Q : R -> kstate -> Prop) :
  kwf s A -> g_sched_lock (gl s) = 0 -> tcbs s !! a = Some x -> task_state x = K_RDY ->
  prio x <> RHINO_IDLE_PRI -> blks (ob s) !! o = Some b -> timeout_ok timeout -> ~ is_mutex (ob s) o -> may_wait s o x ->
  (forall s' A', kwf s' A' -> caller_blocked s s' A A' a x o timeout -> Q r s') ->
  wp (pend_to_blk_obj o a timeout ;; critical_exit_sched false ;; ret r) Q (with_gl (set_primask true (gl s)) s).
Proof.
  intros HW Hl Hx Hst Hp Hb Hto Hm Hw HQ. pose proof (kwf_enter _ _ HW) as HK.
  apply wp_bind, (wp_good_block _ A a x o b timeout); [done..|]. intros l' q' HK'.
  apply (wp_exit_resched (block_queues s (blk_policy b) o timeout a x A)); [done|simpl; lia|].
  intros top Htop HW'. eapply HQ; [exact HW'|]. exists b, top. split_and!; done || apply resched_unmask.
Qed.

(** Outside interrupts the running task is ready. *)
Lemma kwf_active s A : kwf s A -> g_intrpt_nested_level (gl s) = 0 -> active_ready s.
Proof. intros HW E. apply (kw_active _ _ HW). by right. Qed.
End EndCall.

(** ** Deleting an object

    The type field is cleared first, so that no call can use the object any
    more; then every waiting task is released. *)

Section Retype.
Implicit Types (s : kstate) (A : queues) (o m : oid) (b : blk_obj_t).

Definition untyped s o b : kstate :=
  with_ob (set_blks (<[o := set_obj_type RHINO_OBJ_TYPE_NONE b]> (blks (ob s))) (ob s)) s.

Lemma kinv_untyped s A o b : kinv s A -> blks (ob s) !! o = Some b -> kinv (untyped s o b) A.
Proof.
  intros [H1 H2 H3 H4 H5 H6 H7] Hb. split; simpl; try done.
  - eapply srep_blks; [done|]. intros o'. destruct (decide (o' = o)) as [->|]; simplify_map_eq; naive_solver.
  - intros t x Hx. destruct (H3 t x Hx) as [K1 K2 K3 K4]. split; try done. intros Hp.
    destruct (K2 Hp) as (o' & Ho' & Hs). exists o'. split; [done|].
    destruct (decide (o' = o)) as [->|]; [rewrite lookup_insert_eq; by eexists|by rewrite lookup_insert_ne].
  - intros o' b'. destruct (decide (o' = o)) as [->|]; simplify_map_eq; [|by apply H4].
    intros [= <-]. simpl. by apply H4.
Qed.

Lemma untyped_mutex s o b m : blks (ob s) !! o = Some b -> obj_type b <> RHINO_MUTEX_OBJ_TYPE ->
  is_mutex (ob (untyped s o b)) m <-> is_mutex (ob s) m.
Proof.
  intros Hb Hn. unfold is_mutex. simpl. destruct (decide (m = o)) as [->|]; simplify_map_eq; [|done].
  split; intros (b' & [= <-] & H); done.
Qed.

Lemma untyped_type s o b o' ty : ty <> RHINO_OBJ_TYPE_NONE ->
  has_type (untyped s o b) o' ty -> has_type s o' ty /\ o' <> o.
Proof.
  intros Hn (b' & Hb' & Ht). simpl in Hb'. destruct (decide (o' = o)) as [->|].
  - rewrite lookup_insert_eq in Hb'. injection Hb' as <-. by destruct Hn.
  - rewrite lookup_insert_ne in Hb' by done. split; [|done]. by exists b'.
Qed.

Lemma kgood_untyped s A o b :
  kgood s A -> blks (ob s) !! o = Some b -> obj_type b <> RHINO_MUTEX_OBJ_TYPE -> kgood (untyped s o b) A.
Proof.
  intros [HI HG HT (C & HM & HP) [Hs He Hq]] Hb Hn. pose proof (untyped_mutex s o b) as Hmx.
  split; [by apply kinv_untyped|done|done| |].
  - exists C. split; [|done]. destruct HM as [M1 M2 M3 M4 M5 M6]. split; simpl; try done.
    + intros t m. rewrite Hmx by done. apply M2.
    + intros t x m Hx Hp Ho. rewrite Hmx by done. by apply (M4 t x).
    + intros m b'. destruct (decide (m = o)) as [->|]; simplify_map_eq; [|by apply M5]. by intros [= <-].
  - split; [| |intros o'; destruct (Hq o') as [Hq1 Hq2]; split]; intros; edestruct untyped_type as [? ?]; eauto; done.
Qed.

Lemma wp_blk_put s o b (Q : unit -> kstate -> Prop) :
  Q tt (untyped s o b) -> wp (blk_put o (set_obj_type RHINO_OBJ_TYPE_NONE b)) Q s.
Proof. done. Qed.

(** Clear the type and release everybody. *)
Lemma wp_untype_drain s A o b (Q : unit -> kstate -> Prop) :
  kgood s A -> blks (ob s) !! o = Some b -> obj_type b <> RHINO_MUTEX_OBJ_TYPE ->
  (forall l' q' A', kgood (retask l' q' (wake_all BLK_DEL (A (LBlk o)) (tcbs s)) (untyped s o b)) A' ->
     A' (LBlk o) = [] -> (forall o', o' <> o -> A' (LBlk o') = A (LBlk o')) ->
     Q tt (retask l' q' (wake_all BLK_DEL (A (LBlk o)) (tcbs s)) (untyped s o b))) ->
  wp (blk_put o (set_obj_type RHINO_OBJ_TYPE_NONE b) ;; drain_list pend_task_rm (NBlk o)) Q s.
Proof.
  intros HK Hb Hn HQ. apply wp_bind, wp_blk_put.
  apply (wp_good_drain_list _ A o (set_obj_type RHINO_OBJ_TYPE_NONE b)); [by apply kgood_untyped| | |done].
  - simpl. by simplify_map_eq.
  - rewrite (untyped_mutex s o b) by done. intros (b' & Hb' & Ht'). simplify_eq.
Qed.
End Retype.

(** ** Reordering one ready list *)

Section Rotate.
Implicit Types (s : kstate) (A : queues) (p : Z) (ts : list tid).

Lemma kgood_rotate q' s A p ts :
  kgood s A -> 0 <= p < RHINO_CONFIG_PRI_MAX -> ts ≡ₚ A (LReady p) ->
  srep (lm s) q' (blks (ob s)) (<[LReady p := ts]> A) ->
  kgood (retask (lm s) q' (tcbs s) s) (<[LReady p := ts]> A).
Proof.
  intros [HI HG HT HM HO] Hp Hts Hrep.
  assert (Hb : forall o, (<[LReady p := ts]> A) (LBlk o) = A (LBlk o)) by (intros; by rewrite q_insert, decide_False).
  assert (Ht : (<[LReady p := ts]> A) LTick = A LTick) by by rewrite q_insert, decide_False.
  assert (Hm : forall i u, u ∈ (<[LReady p := ts]> A) i <-> u ∈ A i).
  { intros i u. rewrite q_insert. case_decide as E; [subst i|done]. by rewrite Hts. }
  split; [|done| | |].
  - pose proof HI as [H1 H2 H3 H4 H5 H6 H7]. split; [done| |done| | | |done].
    + intros u i. rewrite Hm. apply H2.
    + intros o b Ho Hpol. rewrite Hb. by apply (H4 o b).
    + by rewrite Ht.
    + intros E. apply H6. rewrite q_insert in E. case_decide as Ed; [|done]. rewrite E in Hts.
      rewrite <- Ed. symmetry. by apply Permutation_nil_l.
  - intros u. rewrite Ht. apply HT.
  - destruct HM as (C & HM & HP). exists C. split; [by destruct HM|].
    intros u y Hy Hl. eapply is_min_ext; [by apply (HP u)| |done]. intros w. unfold waits. by setoid_rewrite Hb.
  - eapply obj_inv_sub; [done|done| |].
    + intros o u. by rewrite Hb.
    + intros u y Hy. by exists y.
Qed.
End Rotate.

(** ** Calls that change only object data and the caller's memory *)

Section Data.
Implicit Types (s : kstate) (A : queues) (o : kobjs) (um : gmap nat Z).

Definition redata s o um : kstate := mkK (lm s) (rq s) (tcbs s) (gl s) o um.

(** The headers and the mutexes are as before, and the objects are well
    formed. *)
Record data_ok s A o um : Prop := mkDataOk {
  do_blks : blks o = blks (ob s);
  do_mutexes : mutexes o = mutexes (ob s);
  do_obj : obj_inv None (redata s o um) A;
}.

Lemma kgood_data s A o um : kgood s A -> data_ok s A o um -> kgood (redata s o um) A.
Proof.
  intros [[] HG HT (C & [] & HP) HO] [E1 E2 HO']. split; [|done|done| |done].
  - split; simpl; rewrite ?E1; done.
  - exists C. split; [|done]. split; unfold is_mutex; simpl; rewrite ?E1, ?E2; done.
Qed.

Lemma kwf_data s A o um : kwf s A -> data_ok s A o um -> kwf (redata s o um) A.
Proof. intros [HK ???] HD. split; [by apply kgood_data|done..]. Qed.

(** The caller's variable [out] is set. *)
Definition with_out s (out : nat) (z : Z) : kstate := redata s (ob s) (<[out := z]> (umem s)).

Lemma data_ok_um s A um : kgood s A -> data_ok s A (ob s) um.
Proof. intros HK. split; [done..|]. eapply obj_inv_same; [apply HK|done..]. Qed.

(** The end of such a call. *)
Lemma wp_data_exit {R : Type} A s o um (r : R) (Q : R -> kstate -> Prop) :
  kwf s A -> data_ok s A o um -> (kwf (redata s o um) A -> Q r (redata s o um)) ->
  wp (critical_exit false ;; ret r) Q (with_gl (set_primask true (gl s)) (redata s o um)).
Proof.
  intros HW HD HQ. apply (wp_exit_ret A r Q (redata s o um)); [by apply kwf_data|]. by apply HQ, kwf_data.
Qed.
End Data.

(** Name the current state. *)
Ltac at_state S := lazymatch goal with |- wp ?m ?Q _ => change (wp m Q S) end.

(** ** The end of a blocking call *)

(** The status a blocking call returns for a wake-up reason. *)
Definition wake_status (bs : blk_state_t) : kstat_t :=
  match bs with
  | BLK_FINISH => RHINO_SUCCESS | BLK_ABORT => RHINO_BLK_ABORT | BLK_TIMEOUT => RHINO_BLK_TIMEOUT
  | BLK_DEL => RHINO_BLK_DEL | BLK_INVALID => RHINO_BLK_INV_STATE
  end.

Lemma wp_end_proc s a x (Q : kstat_t -> kstate -> Prop) :
  tcbs s !! a = Some x -> blk_state x <> BLK_INVALID -> Q (wake_status (blk_state x)) s ->
  wp (pend_state_end_proc a) Q s.
Proof. intros Hx Hb HQ. unfold pend_state_end_proc, task_get. wsteps. by destruct (blk_state x). Qed.
