(* ===== verification/Prio.v ===== *)
(** * Priority change and priority inheritance (k_mutex.c, k_task.c)

    The functions that recompute the priority of a mutex owner from its base
    priority and the tasks blocked on the mutexes it holds, and that carry a
    priority change along a chain of blocked owners. *)

From stdpp Require Import functions.
From S2P Require Import Prelude.
From S2P Require Import Monad.
From S2P Require Import Links.
From S2P Require Import KState.
From S2P Require Import Bitmap.
From S2P Require Import Sched.
From S2P Require Import Pend.
From S2P Require Import Inv.

(** ** Walking the mutexes a task holds *)

Definition mutex_fuel : M nat := x <- gets ob ;; ret (S (size (mutexes x))).

(** [pri] after looking at the head of the blocked list of [m]. *)
Definition first_blk_pri (m : oid) (pri : Z) : M Z :=
  e <- is_klist_empty (NBlk m) ;;
  if e : bool then ret pri
  else
    n <- get_next (NBlk m) ;;
    t <- task_of n ;;
    y <- task_get t ;;
    ret (prio y).

Fixpoint mutex_pri_limit_loop (fuel : nat) (mutex_tmp : option oid) (pri high_pri : Z) : M Z :=
  match mutex_tmp with
  | None => ret high_pri
  | Some m =>
      match fuel with
      | O => fault
      | S n =>
          pri <- first_blk_pri m pri ;;
          v <- mutex_get m ;;
          mutex_pri_limit_loop n (mutex_list v) pri (if pri <? high_pri then pri else high_pri)
      end
  end.

Definition mutex_pri_limit (task : tid) (pri : Z) : M Z :=
  x <- task_get task ;;
  fuel <- mutex_fuel ;;
  mutex_pri_limit_loop fuel (task_mutex_list x) pri pri.

(** [kmutex_t **prev]: the [mutex_list] field of the task or of a mutex. *)
Inductive mlink := LTask (t : tid) | LMutex (m : oid).

Definition mlink_get (p : mlink) : M (option oid) :=
  match p with
  | LTask t => x <- task_get t ;; ret (task_mutex_list x)
  | LMutex m => v <- mutex_get m ;; ret (mutex_list v)
  end.

Definition mlink_put (p : mlink) (o : option oid) : M unit :=
  match p with
  | LTask t => task_upd t (set_task_mutex_list o)
  | LMutex m =>
      v <- mutex_get m ;;
      mutex_put m (mkMutex (mutex_task v) o (owner_nested v) (mutex_mm_alloc_flag v))
  end.

Fixpoint mutex_pri_look_loop (fuel : nat) (mutex_rel : option oid) (prev : mlink)
    (pri new_pri : Z) : M Z :=
  m <- mlink_get prev ;;
  match m with
  | None => ret new_pri
  | Some mutex_tmp =>
      match fuel with
      | O => fault
      | S n =>
          if bool_decide (Some mutex_tmp = mutex_rel) then
            v <- mutex_get mutex_tmp ;;
            mlink_put prev (mutex_list v) ;;
            mutex_pri_look_loop n mutex_rel prev pri new_pri
          else
            pri <- first_blk_pri mutex_tmp pri ;;
            mutex_pri_look_loop n mutex_rel (LMutex mutex_tmp) pri
              (if pri <? new_pri then pri else new_pri)
      end
  end.

Definition mutex_pri_look (task : tid) (mutex_rel : option oid) : M Z :=
  x <- task_get task ;;
  fuel <- mutex_fuel ;;
  mutex_pri_look_loop fuel mutex_rel (LTask task) (b_prio x) (b_prio x).

(** ** Changing a priority *)

(** One iteration of the [do ... while] loop of [task_pri_change]: the status
    on an early return, otherwise the task and priority of the next
    iteration, if any. *)
Definition task_pri_change_step (task : tid) (new_pri : Z) : M (kstat_t + option (tid * Z)) :=
  x <- task_get task ;;
  if prio x =? new_pri then ret (inr None)
  else
    match task_state x with
    | K_RDY =>
        ready_list_rm task ;;
        task_upd task (set_prio new_pri) ;;
        g <- gets gl ;;
        (if bool_decide (Some task = g_active_task g) then ready_list_add_head task
         else ready_list_add_tail task) ;;
        ret (inr None)
    | K_SLEEP | K_SUSPENDED | K_SLEEP_SUSPENDED =>
        task_upd task (set_prio new_pri) ;;
        ret (inr None)
    | K_PEND | K_PEND_SUSPENDED =>
        let old_pri := prio x in
        task_upd task (set_prio new_pri) ;;
        pend_list_reorder task ;;
        o <- lift (task_blk_obj x) ;;
        b <- blk_get o ;;
        if bool_decide (obj_type b = RHINO_MUTEX_OBJ_TYPE) then
          v <- mutex_get o ;;
          mt <- lift (mutex_task v) ;;
          y <- task_get mt ;;
          if new_pri <? prio y then ret (inr (Some (mt, new_pri)))
          else if prio y =? old_pri then
            new_pri' <- mutex_pri_look mt None ;;
            if negb (new_pri' =? prio y) then ret (inr (Some (mt, new_pri')))
            else ret (inr None)
          else ret (inr None)
        else ret (inr None)
    | _ =>
        k_err_proc RHINO_INV_TASK_STATE ;;
        ret (inl RHINO_INV_TASK_STATE)
    end.

(** The loop follows the chain task -> mutex it waits for -> owner.  Each
    iteration moves the priority of a task, always in the same direction, so
    it runs at most [PRI_MAX] times per task. *)
Fixpoint task_pri_change_loop (fuel : nat) (task : tid) (new_pri : Z) : M kstat_t :=
  match fuel with
  | O => fault
  | S n =>
      r <- task_pri_change_step task new_pri ;;
      match r with
      | inl st => ret st
      | inr None => ret RHINO_SUCCESS
      | inr (Some (t, p)) => task_pri_change_loop n t p
      end
  end.

Definition task_pri_change (task : tid) (new_pri : Z) : M kstat_t :=
  tc <- gets tcbs ;;
  task_pri_change_loop (S (size tc * Z.to_nat RHINO_CONFIG_PRI_MAX)) task new_pri.

Definition mutex_release (task : tid) (mutex_rel : option oid) : M unit :=
  new_pri <- mutex_pri_look task mutex_rel ;;
  x <- task_get task ;;
  when (negb (new_pri =? prio x)) (task_pri_change task new_pri ;; ret tt).

Definition mutex_task_pri_reset (task : tid) : M unit :=
  x <- task_get task ;;
  o <- lift (task_blk_obj x) ;;
  b <- blk_get o ;;
  if bool_decide (obj_type b = RHINO_MUTEX_OBJ_TYPE) then
    v <- mutex_get o ;;
    mt <- lift (mutex_task v) ;;
    y <- task_get mt ;;
    when (prio y =? prio x) (mutex_release mt None)
  else ret tt.

(** ** A change of priority and the kernel invariant *)

(** The queues after [task_pri_change] moved [t]: waiting lists keep their
    members, the tick list is untouched. *)
Definition requeued (A A' : queues) : Prop :=
  (forall o, A' (LBlk o) ≡ₚ A (LBlk o)) /\ A' LTick = A LTick.

#[export] Instance requeued_refl : Reflexive requeued.
Proof. by intros A. Qed.

#[export] Instance requeued_trans : Transitive requeued.
Proof. intros A B C [H1 H2] [H3 H4]. split; [|by rewrite H4]. intros o. by rewrite H3. Qed.

(** Waiting lists and the tick list are untouched. *)
Definition blk_same (A A' : queues) : Prop :=
  (forall o, A' (LBlk o) = A (LBlk o)) /\ A' LTick = A LTick.

Lemma blk_same_requeued A A' : blk_same A A' -> requeued A A'.
Proof. intros [H1 H2]. split; [|done]. intros o. by rewrite H1. Qed.

Section SetPrio.
Implicit Types (s : kstate) (A : queues) (t : tid) (x : ktask_t) (o : oid).

Lemma set_prio_ok bl p x : task_ok bl x -> 0 <= p < RHINO_CONFIG_PRI_MAX -> task_ok bl (set_prio p x).
Proof. intros [] Hp. by split. Qed.

Lemma lrm_ready_other s A t x p :
  kinv s A -> tcbs s !! t = Some x -> p <> prio x -> t ∉ A (LReady p).
Proof. intros HI Ht Hp. rewrite (kinv_in _ _ _ _ _ HI Ht). simpl. naive_solver. Qed.

Lemma set_prio_kinv s A A' t x p l' q' :
  kinv s A -> tcbs s !! t = Some x -> 0 <= p < RHINO_CONFIG_PRI_MAX ->
  srep l' q' (blks (ob s)) A' ->
  (forall u i, u <> t -> u ∈ A' i <-> u ∈ A i) ->
  (forall i, t ∈ A' i <-> in_list (set_prio p x) i) ->
  (forall o b, blks (ob s) !! o = Some b -> blk_policy b = BLK_POLICY_PRI ->
     prio_sorted (<[t := set_prio p x]> (tcbs s)) (A' (LBlk o))) ->
  A' LTick = A LTick -> A' (LReady RHINO_IDLE_PRI) <> [] ->
  kinv (mkK l' q' (<[t := set_prio p x]> (tcbs s)) (gl s) (ob s) (umem s)) A'.
Proof.
  intros HI Ht Hp Hs Hne Hin Hso Htk Hid. apply (kinv_update s A); try done.
  - apply set_prio_ok; [by eapply ki_task|done].
  - rewrite Htk. eapply tick_sorted_same_match; [done..|]. apply HI.
Qed.

(** Not in a list ordered by priority. *)
Lemma set_prio_unlisted s A t x p :
  kinv s A -> tcbs s !! t = Some x -> 0 <= p < RHINO_CONFIG_PRI_MAX ->
  task_state x <> K_RDY -> pended (task_state x) = false ->
  kinv (mkK (lm s) (rq s) (<[t := set_prio p x]> (tcbs s)) (gl s) (ob s) (umem s)) A.
Proof.
  intros HI Ht Hp Hr Hpe. apply (set_prio_kinv s A); try done.
  - apply HI.
  - intros i. rewrite (kinv_in _ _ _ _ _ HI Ht). destruct i; simpl; naive_solver.
  - intros o b Ho Hb. apply prio_sorted_insert_ne; [|by eapply ki_sorted].
    rewrite (kinv_in _ _ _ _ _ HI Ht). simpl. rewrite Hpe. naive_solver.
  - apply HI.
Qed.

(** Ready: it moves to the list of its new priority. *)
Lemma wp_set_prio_ready s A t x p (Q : unit -> kstate -> Prop) :
  kinv s A -> tcbs s !! t = Some x -> 0 <= p < RHINO_CONFIG_PRI_MAX -> p <> prio x ->
  task_state x = K_RDY -> prio x <> RHINO_IDLE_PRI ->
  (forall l' q' A',
     kinv (mkK l' q' (<[t := set_prio p x]> (tcbs s)) (gl s) (ob s) (umem s)) A' ->
     blk_same A A' ->
     Q tt (mkK l' q' (<[t := set_prio p x]> (tcbs s)) (gl s) (ob s) (umem s))) ->
  wp (ready_list_rm t ;; task_upd t (set_prio p) ;; g <- gets gl ;;
      if bool_decide (Some t = g_active_task g) then ready_list_add_head t else ready_list_add_tail t) Q s.
Proof.
  intros HI Ht Hp Hne Hst Hid HQ.
  destruct (kinv_split _ _ _ _ (LReady (prio x)) HI Ht) as (a & b & Hab & Hl); [by split|].
  pose proof (ki_rep _ _ HI) as Hrep.
  apply wp_bind, (wp_ready_list_rm (blks (ob s)) A t x a b); [done|done|by eapply ok_prio, ki_task|done| |].
  { rewrite <- Hl. exists RHINO_IDLE_PRI. rewrite q_insert, decide_False by congruence. apply HI. }
  intros l1 q1 Hs1. apply wp_bind, (wp_task_upd _ x); [done|]. wsteps.
  set (A1 := <[LReady (prio x) := a ++ b]> A) in *.
  assert (Hp1 : A1 (LReady p) = A (LReady p)) by (unfold A1; by rewrite q_insert, decide_False by congruence).
  assert (Hfin : forall ts l' q', (forall u, u ∈ ts <-> u = t \/ u ∈ A (LReady p)) ->
     srep l' q' (blks (ob s)) (<[LReady p := ts]> A1) ->
     Q tt (mkK l' q' (<[t := set_prio p x]> (tcbs s)) (gl s) (ob s) (umem s))).
  { intros ts l' q' Hts Hs'. apply (HQ l' q' (<[LReady p := ts]> A1)).
    - apply (set_prio_kinv s A); [done..| | | | |]; unfold A1; rewrite <- Hl.
      + intros u i Hu. qcases; rewrite ?Hts, ?elem_of_lrm; naive_solver.
      + intros [p'|o|]; simpl; qcases; rewrite ?Hts, ?elem_of_lrm, ?(kinv_in _ _ _ _ _ HI Ht); simpl; naive_solver.
      + intros o b' Ho Hb. qcases. eapply prio_sorted_insert_ne; [|by eapply ki_sorted].
        rewrite (kinv_in _ _ _ _ _ HI Ht). simpl. rewrite Hst. naive_solver.
      + qcases.
      + pose proof (ki_idle _ _ HI). qcases. intros ->. specialize (Hts t). set_solver.
    - split; unfold A1; [intros o|]; by rewrite !q_insert, !decide_False by done. }
  assert (Hf : tfree A1 (LReady p) t).
  { intros j Hj. apply (tfree_removed _ _ _ (LReady (prio x)) _ _ _ (srep_rings _ _ _ _ Hrep) Hab). by destruct j. }
  case_bool_decide.
  - apply (wp_ready_list_add_head (blks (ob s)) A1 t (set_prio p x)); simpl; [done|by simplify_map_eq|done..|].
    intros l' q'. rewrite Hp1. intros Hs'. apply (Hfin (t :: A (LReady p))); [set_solver|done].
  - apply (wp_ready_list_add_tail (blks (ob s)) A1 t (set_prio p x)); simpl; [done|by simplify_map_eq|done..|].
    intros l' q'. rewrite Hp1. intros Hs'. apply (Hfin (A (LReady p) ++ [t])); [set_solver|done].
Qed.

(** Blocked: it moves inside the list of the object it waits for. *)
Lemma wp_set_prio_pended s A t x p o b (Q : unit -> kstate -> Prop) :
  kinv s A -> tcbs s !! t = Some x -> 0 <= p < RHINO_CONFIG_PRI_MAX ->
  pended (task_state x) = true -> task_blk_obj x = Some o -> blks (ob s) !! o = Some b ->
  (forall l' A',
     kinv (mkK l' (rq s) (<[t := set_prio p x]> (tcbs s)) (gl s) (ob s) (umem s)) A' ->
     requeued A A' ->
     Q tt (mkK l' (rq s) (<[t := set_prio p x]> (tcbs s)) (gl s) (ob s) (umem s))) ->
  wp (task_upd t (set_prio p) ;; pend_list_reorder t) Q s.
Proof.
  intros HI Ht Hp Hpe Ho Hb HQ. apply wp_bind, (wp_task_upd _ x); [done|].
  unfold pend_list_reorder. apply wp_bind, (wp_task_get _ (set_prio p x)); [by simplify_map_eq|].
  unfold blk_get. simpl. rewrite Ho. wsteps.
  pose proof (ki_rep _ _ HI) as Hrep.
  destruct (blk_policy b) eqn:Epol; simpl; unfold when.
  - destruct (kinv_split _ _ _ _ (LBlk o) HI Ht) as (a & c & Hac & Hl); [by split|].
    apply wp_bind, (wp_task_rm (blks (ob s)) A (LBlk o) a t c); [apply Hrep|done|]. intros l1 Hl1.
    rewrite <- Hl in Hl1.
    apply (wp_pend_list_add (blks (ob s)) (<[LBlk o := lrm t (A (LBlk o))]> A) o b t (set_prio p x)); simpl;
      [done|done|by simplify_map_eq| | |].
    { rewrite Hl. intros j Hj. apply (tfree_removed _ _ _ (LBlk o) _ _ _ (srep_rings _ _ _ _ Hrep) Hac). by destruct j. }
    { intros u. rewrite q_insert, decide_True, elem_of_lrm by done. intros [Hu Hu'].
      rewrite lookup_insert_ne by done. by apply (ki_mem _ _ HI) in Hu' as (y & ? & _). }
    intros l2. rewrite (q_insert _ _ (LBlk o)), decide_True by done.
    set (ts := prio_insert _ _ _ _). intros Hl2.
    assert (Hts : forall u, u ∈ ts <-> u = t \/ u ∈ A (LBlk o)).
    { intros u. unfold ts, prio_insert. rewrite elem_of_insert_before, elem_of_lrm.
      destruct (decide (u = t)); naive_solver. }
    assert (Hq : forall i, (<[LBlk o:=ts]> (<[LBlk o:=lrm t (A (LBlk o))]> A)) i = (<[LBlk o := ts]> A) i) by (intros; qcases).
    assert (Hl3 : rings l2 (nodes (blks (ob s)) (<[LBlk o := ts]> A))).
    { eapply rings_ext; [exact Hl2|]. intros i. unfold nodes. by rewrite Hq. }
    apply (HQ l2 (<[LBlk o := ts]> A)).
    + apply (set_prio_kinv s A); [done..| | | | | |].
      * split; [done|]. eapply rq_rep_ext; [apply Hrep|]. intros q. by rewrite q_insert, decide_False.
      * intros u i Hu. qcases. rewrite Hts. naive_solver.
      * intros [q|o'|]; simpl; qcases; rewrite ?Hts, ?(kinv_in _ _ _ _ _ HI Ht); simpl; clear -Hpe Ho; try tauto;
          destruct (task_state x); try done; naive_solver.
      * intros o' b' Ho' Hb'. pose proof (ki_sorted _ _ HI _ _ Ho' Hb') as Hso. qcases.
        -- unfold ts. eapply prio_insert_sorted; [by simplify_map_eq|done|].
           apply prio_sorted_insert_ne; [rewrite elem_of_lrm; naive_solver|]. by apply StronglySorted_lrm.
        -- apply prio_sorted_insert_ne; [|done]. rewrite (kinv_in _ _ _ _ _ HI Ht). simpl. naive_solver.
      * qcases.
      * pose proof (ki_idle _ _ HI). qcases.
    + split; [intros o'|qcases]. rewrite q_insert. case_decide as E; [injection E as <-|done].
      apply NoDup_Permutation; [|by eapply kinv_nodup|].
      * pose proof (nodes_nodup _ _ _ (LBlk o) Hl3) as Hnd. by rewrite q_insert, decide_True in Hnd.
      * intros u. rewrite Hts. split; [|tauto]. intros [->|]; [|done]. rewrite Hac. set_solver.
  - apply wp_ret. apply (HQ (lm s) A); [|done]. apply (set_prio_kinv s A); try done.
    + intros i. rewrite (kinv_in _ _ _ _ _ HI Ht). destruct i; simpl; try done.
      destruct (task_state x); naive_solver.
    + intros o' b' Ho' Hb'. apply prio_sorted_insert_ne; [|by eapply ki_sorted].
      rewrite (kinv_in _ _ _ _ _ HI Ht). simpl. intros [_ E]. simplify_eq. congruence.
    + apply HI.
Qed.
End SetPrio.
