(* ===== verification/PrioInv.v ===== *)
(** * Priority inheritance is maintained

    [mutex_pri_look] computes the inherited priority, and [task_pri_change]
    terminates and re-establishes priority inheritance along the chain of
    blocked owners, whether the priority goes up or down. *)

From stdpp Require Import functions.
From S2P Require Import Prelude.
From S2P Require Import Monad.
From S2P Require Import Links.
From S2P Require Import KState.
From S2P Require Import Bitmap.
From S2P Require Import Sched.
From S2P Require Import Pend.
From S2P Require Import Inv.
From S2P Require Import MInv.
From S2P Require Import ObjInv.
From S2P Require Import Resched.
From S2P Require Import Block.
From S2P Require Import Prio.

(** ** Reading the waiting lists *)

(** Every list of a mutex is ordered by priority. *)
Definition pri_lists (s : kstate) (ms : list oid) : Prop :=
  forall m, m ∈ ms -> exists b, blks (ob s) !! m = Some b /\ blk_policy b = BLK_POLICY_PRI.

Section Look.
Implicit Types (s : kstate) (A : queues) (ms : list oid) (P : tid -> Prop).

Lemma wp_first_blk_pri s A m b pri (Q : Z -> kstate -> Prop) :
  kinv s A -> blks (ob s) !! m = Some b ->
  Q (match A (LBlk m) with [] => pri | w :: _ => prio_of (tcbs s) w end) s ->
  wp (first_blk_pri m pri) Q s.
Proof.
  intros HI Hb HQ. unfold first_blk_pri.
  assert (Hn : nodes (blks (ob s)) A (LBlk m) = NBlk m :: (NTask <$> A (LBlk m))) by (unfold nodes; by rewrite (hdr_blk _ _ _ Hb)).
  apply wp_bind, (wp_blk_empty s A m b); [done..|].
  destruct (A (LBlk m)) as [|w ws] eqn:EA; simpl.
  - by apply wp_ret.
  - apply wp_bind, (wp_get_next (nodes (blks (ob s)) A) (LBlk m) [] (NBlk m) (NTask <$> w :: ws));
      [apply HI|by rewrite Hn|]. simpl. wsteps.
    assert (w ∈ A (LBlk m)) as (y & Hy & _)%(ki_mem _ _ HI) by (rewrite EA; set_solver).
    apply (wp_task_get _ y); [done|]. wsteps. by rewrite (prio_of_lookup _ _ _ Hy) in HQ.
Qed.

(** The head of a list ordered by priority stands for the whole list. *)
Lemma is_min_list tc b0 P new pri ws :
  is_min tc b0 P new -> (pri = b0 \/ exists u, P u /\ pri = prio_of tc u) -> prio_sorted tc ws ->
  let pri' := match ws with [] => pri | w :: _ => prio_of tc w end in
  is_min tc b0 (fun u => P u \/ u ∈ ws) (if pri' <? new then pri' else new) /\
  (pri' = b0 \/ exists u, (P u \/ u ∈ ws) /\ pri' = prio_of tc u).
Proof.
  intros (H1 & H2 & H3) Hm Hs pri'.
  assert (Hmem : pri' = b0 \/ exists u, (P u \/ u ∈ ws) /\ pri' = prio_of tc u).
  { unfold pri'. destruct ws as [|w ws]; [naive_solver|]. right. exists w. set_solver. }
  assert (Hle : forall u, u ∈ ws -> pri' <= prio_of tc u).
  { unfold pri'. destruct Hs as [|w ws Hs Hf]; [set_solver|]. intros u [->|Hu]%elem_of_cons; [done|].
    by eapply (proj1 (Forall_forall _ _) Hf). }
  split; [|done]. destruct (Z.ltb_spec pri' new); (split_and!; [lia| |]).
  - intros u [Hu|Hu]; [specialize (H2 u Hu); lia|by apply Hle].
  - done.
  - intros u [Hu|Hu]; [by apply H2|]. specialize (Hle u Hu). lia.
  - destruct H3 as [?|(u & ? & ?)]; [by left|right; exists u; auto].
Qed.

Definition mlink_ptr s (p : mlink) : option (option oid) :=
  match p with
  | LTask t => task_mutex_list <$> tcbs s !! t
  | LMutex m => mutex_list <$> mutexes (ob s) !! m
  end.

Lemma wp_mlink_get s p o (Q : option oid -> kstate -> Prop) :
  mlink_ptr s p = Some o -> Q o s -> wp (mlink_get p) Q s.
Proof.
  destruct p as [t|m]; simpl; unfold mlink_get, mutex_get.
  - destruct (tcbs s !! t) as [x|] eqn:E; [|done]. intros [= <-] HQ.
    apply wp_bind, (wp_task_get _ x); [done|]. by wsteps.
  - destruct (mutexes (ob s) !! m) as [v|] eqn:E; [|done]. intros [= <-] HQ. by wsteps.
Qed.

(** Without a mutex to unlink, the walk only reads. *)
Lemma wp_look_loop s A ms rel fuel prev p pri new b0 P (Q : Z -> kstate -> Prop) :
  kinv s A -> pri_lists s ms -> mlink_ptr s prev = Some p -> mchain (mutexes (ob s)) p ms ->
  (forall m, m ∈ ms -> Some m <> rel) -> (length ms <= fuel)%nat ->
  is_min (tcbs s) b0 P new -> (pri = b0 \/ exists u, P u /\ pri = prio_of (tcbs s) u) ->
  (forall r, is_min (tcbs s) b0 (fun u => P u \/ exists m, m ∈ ms /\ u ∈ A (LBlk m)) r -> Q r s) ->
  wp (mutex_pri_look_loop fuel rel prev pri new) Q s.
Proof.
  intros HI. revert fuel prev p pri new P.
  induction ms as [|m ms IH]; intros fuel prev p pri new P Hl Hp Hc Hr Hf Hmin Hmem HQ; simpl in Hc.
  - destruct fuel; simpl; apply wp_bind, (wp_mlink_get _ _ p); try done; subst p; apply wp_ret, HQ;
      (eapply is_min_ext; [done| |done]); set_solver.
  - destruct Hc as (-> & v & Hv & Hc). destruct fuel as [|fuel]; simpl in Hf; [lia|].
    simpl. apply wp_bind, (wp_mlink_get _ _ (Some m)); [done|].
    rewrite bool_decide_false by (apply Hr; set_solver).
    destruct (Hl m) as (b & Hb & Hpol); [set_solver|].
    apply wp_bind, (wp_first_blk_pri s A m b); [done..|].
    pose proof (ki_sorted _ _ HI _ _ Hb Hpol) as Hso.
    destruct (is_min_list _ _ _ _ _ _ Hmin Hmem Hso) as [Hmin' Hmem'].
    eapply (IH fuel (LMutex m) (mutex_list v)); [| | | | |exact Hmin'|exact Hmem'|].
    + intros n Hn. apply Hl. set_solver.
    + simpl. by rewrite Hv.
    + done.
    + intros n Hn. apply Hr. set_solver.
    + lia.
    + intros r Hr'. apply HQ. eapply is_min_ext; [exact Hr'| |done]. intros u. set_solver.
Qed.
End Look.

(** ** Unlinking a mutex *)

Definition set_mutex_list (o : option oid) (v : kmutex_t) : kmutex_t :=
  mkMutex (mutex_task v) o (owner_nested v) (mutex_mm_alloc_flag v).

Definition mlink_set (p : mlink) (o : option oid) (s : kstate) : kstate :=
  match p with
  | LTask t =>
      match tcbs s !! t with
      | Some x => with_tc (<[t := set_task_mutex_list o x]> (tcbs s)) s
      | None => s
      end
  | LMutex m =>
      match mutexes (ob s) !! m with
      | Some v => with_ob (set_mutexes (<[m := set_mutex_list o v]> (mutexes (ob s))) (ob s)) s
      | None => s
      end
  end.

(** The link that leads past [a]. *)
Definition link_after (prev : mlink) (a : list oid) : mlink :=
  match last a with Some m => LMutex m | None => prev end.

Section Unlink.
Implicit Types (s : kstate) (A : queues) (C : tid -> list oid) (a b ms : list oid) (t : tid) (m : oid).

Lemma wp_mlink_put s p o (Q : unit -> kstate -> Prop) :
  is_Some (mlink_ptr s p) -> Q tt (mlink_set p o s) -> wp (mlink_put p o) Q s.
Proof.
  destruct p as [t|m]; simpl; unfold mutex_get, mutex_put; rewrite fmap_is_Some; intros [x Hx]; rewrite Hx; intros HQ.
  - by apply (wp_task_upd _ x).
  - unfold mlink_put, mutex_get, mutex_put. by wsteps.
Qed.

Lemma mlink_set_prio s p o u : prio_of (tcbs (mlink_set p o s)) u = prio_of (tcbs s) u.
Proof.
  destruct p as [t|m]; simpl.
  - destruct (tcbs s !! t) as [x|] eqn:E; [|done]. simpl. unfold prio_of.
    destruct (decide (u = t)) as [->|]; simplify_map_eq; done.
  - by destruct (mutexes (ob s) !! m).
Qed.

Lemma mlink_set_kinv s A p o : kinv s A -> kinv (mlink_set p o s) A.
Proof.
  intros HI. destruct p as [t|m]; simpl.
  - destruct (tcbs s !! t) as [x|] eqn:E; [|done]. by eapply kinv_same_place.
  - destruct (mutexes (ob s) !! m); [|done]. by apply kinv_ob.
Qed.

Lemma mlink_set_blks s p o : blks (ob (mlink_set p o s)) = blks (ob s).
Proof. destruct p as [t|m]; simpl; [destruct (tcbs s !! t)|destruct (mutexes (ob s) !! m)]; done. Qed.

Lemma mlink_set_ptr s p o : is_Some (mlink_ptr s p) -> mlink_ptr (mlink_set p o s) p = Some o.
Proof.
  destruct p as [t|m]; simpl; rewrite fmap_is_Some; intros [x Hx]; rewrite Hx; simpl; by simplify_map_eq.
Qed.

Lemma mlink_set_chain s p o q ms :
  (forall m, p = LMutex m -> m ∉ ms) -> mchain (mutexes (ob s)) q ms ->
  mchain (mutexes (ob (mlink_set p o s))) q ms.
Proof.
  intros Hp Hc. eapply mchain_ext; [exact Hc|]. intros n Hn. destruct p as [t|m]; simpl.
  - by destruct (tcbs s !! t).
  - destruct (mutexes (ob s) !! m) eqn:E; [|done]. simpl.
    rewrite lookup_insert_ne; [done|]. intros ->. by apply (Hp n).
Qed.

Lemma wp_look_unlink s A a m b fuel prev p v pri new base P (Q : Z -> kstate -> Prop) :
  kinv s A -> pri_lists s (a ++ m :: b) -> mlink_ptr s prev = Some p ->
  mchain (mutexes (ob s)) p (a ++ m :: b) -> mutexes (ob s) !! m = Some v ->
  (forall n, prev = LMutex n -> n ∉ a ++ m :: b) -> (length (a ++ m :: b) <= fuel)%nat ->
  is_min (tcbs s) base P new -> (pri = base \/ exists u, P u /\ pri = prio_of (tcbs s) u) ->
  (forall r, is_min (tcbs s) base (fun u => P u \/ exists n, n ∈ a ++ b /\ u ∈ A (LBlk n)) r ->
     Q r (mlink_set (link_after prev a) (mutex_list v) s)) ->
  wp (mutex_pri_look_loop fuel (Some m) prev pri new) Q s.
Proof.
  intros HI. revert fuel prev p pri new P.
  induction a as [|n a IH]; intros fuel prev p pri new P Hl Hp Hc Hv Hprev Hf Hmin Hmem HQ;
    pose proof (mchain_nodup _ _ _ Hc) as Hnd; simpl in Hc, Hnd; apply NoDup_cons in Hnd as [Hnot Hnd];
    destruct Hc as (-> & v' & Hv' & Hc); (destruct fuel as [|fuel]; simpl in Hf; [lia|]);
    simpl; apply wp_bind, (wp_mlink_get _ _ _ _ Hp); unfold mutex_get.
  - assert (v' = v) as -> by congruence. rewrite bool_decide_true by done. wsteps. apply wp_mlink_put; [by rewrite Hp|].
    apply (wp_look_loop _ A b _ _ _ (mutex_list v) _ _ base P); [| | | | | | | |].
    + by apply mlink_set_kinv.
    + intros n Hn. rewrite mlink_set_blks. apply Hl. set_solver.
    + apply mlink_set_ptr. by rewrite Hp.
    + apply mlink_set_chain; [|done]. intros n ->. specialize (Hprev n eq_refl). set_solver.
    + intros n Hn [= ->]. done.
    + simpl in Hf. lia.
    + eapply is_min_ext; [done|done|]. intros. apply mlink_set_prio.
    + destruct Hmem as [?|(u & ? & ?)]; [by left|right]. exists u. by rewrite mlink_set_prio.
    + intros r Hr. apply HQ. eapply is_min_ext; [exact Hr|set_solver|]. intros. by rewrite mlink_set_prio.
  - rewrite bool_decide_false by (intros [= ->]; set_solver).
    destruct (Hl n) as (bo & Hb & Hpol); [set_solver|].
    apply wp_bind, (wp_first_blk_pri s A n bo); [done..|].
    destruct (is_min_list _ _ _ _ _ _ Hmin Hmem (ki_sorted _ _ HI _ _ Hb Hpol)) as [Hmin' Hmem'].
    eapply (IH fuel (LMutex n) (mutex_list v')); [| |done|done| | |exact Hmin'|exact Hmem'|].
    + intros k Hk. apply Hl. set_solver.
    + simpl. by rewrite Hv'.
    + intros k [= <-]. done.
    + lia.
    + intros r Hr. assert (link_after (LMutex n) a = link_after prev (n :: a)) as E.
      { unfold link_after. rewrite last_cons. by destruct (last a). }
      rewrite E. apply HQ. eapply is_min_ext; [exact Hr| |done]. clear. intros u. set_solver.
Qed.
End Unlink.

Section UnlinkInv.
Implicit Types (s : kstate) (A : queues) (C : tid -> list oid) (a b ms : list oid) (t : tid) (m : oid) (x : ktask_t).

Lemma mchain_unlink mm p a n b m v vn :
  mchain mm p (a ++ n :: m :: b) -> mm !! m = Some v -> mm !! n = Some vn ->
  mchain (<[n := set_mutex_list (mutex_list v) vn]> mm) p (a ++ n :: b).
Proof.
  intros Hc Hv Hn. pose proof (mchain_nodup _ _ _ Hc) as Hnd. revert p Hc.
  induction a as [|k a IH]; intros p; simpl.
  - intros (-> & vn' & Hn' & [_ (v' & Hv' & Hc)]). split; [done|]. eexists. split; [by simplify_map_eq|].
    simpl. simplify_eq. eapply mchain_ext; [exact Hc|]. intros j Hj. rewrite lookup_insert_ne; [done|].
    simpl in Hnd. apply NoDup_cons in Hnd as [Hnot _]. set_solver.
  - intros (-> & vk & Hk & Hc). split; [done|]. simpl in Hnd. apply NoDup_cons in Hnd as [Hnot Hnd].
    exists vk. rewrite lookup_insert_ne by set_solver. split; [done|]. by apply IH.
Qed.

(** The state after [t] let go of [m]: the links of its other mutexes are
    closed up, the owner field of [m] is still to be written. *)
Record let_go s t x m (v : kmutex_t) C s' C' : Prop := mkLetGo {
  lg_state : exists l mm', s' = mkK (lm s) (rq s) (<[t := set_task_mutex_list l x]> (tcbs s)) (gl s)
               (set_mutexes mm' (ob s)) (umem s);
  lg_mutex : mutexes (ob s') !! m = Some v;
  lg_chain : C' = <[t := filter (fun n => n <> m) (C t)]> C;
  lg_minv : minv (Some m) s' C';
}.

Lemma filter_split_ne a m b : NoDup (a ++ m :: b) -> filter (fun n => n <> m) (a ++ m :: b) = a ++ b.
Proof. apply lrm_split. Qed.

Lemma minv_let_go s C t x m v a b s' l mm' :
  minv None s C -> tcbs s !! t = Some x -> live (task_state x) = true ->
  C t = a ++ m :: b -> mutexes (ob s) !! m = Some v ->
  mchain mm' l (a ++ b) ->
  (forall n, n ∉ C t -> mm' !! n = mutexes (ob s) !! n) ->
  (forall n, mutex_task <$> mm' !! n = mutex_task <$> mutexes (ob s) !! n) ->
  mm' !! m = Some v ->
  s' = mkK (lm s) (rq s) (<[t := set_task_mutex_list l x]> (tcbs s)) (gl s) (set_mutexes mm' (ob s)) (umem s) ->
  let_go s t x m v C s' (<[t := a ++ b]> C).
Proof.
  intros HM Ht Hl HC Hv Hch Hout Htask Hm ->. pose proof HM as [H1 H2 H3 H4 H5 H6].
  assert (Hnd : NoDup (C t)) by by eapply mchain_nodup, H1.
  assert (Hsome : forall n, is_Some (mutexes (ob s) !! n) <-> is_Some (mm' !! n)).
  { intros n. specialize (Htask n). destruct (mm' !! n), (mutexes (ob s) !! n); simpl in Htask; naive_solver. }
  split; simpl; [by exists l, mm'|done|rewrite HC in *; by rewrite filter_split_ne|].
  assert (Hin : forall n, n ∈ a ++ b <-> n ∈ C t /\ n <> m).
  { intros n. rewrite HC in *. rewrite <- (filter_split_ne a m b) by done. rewrite list_elem_of_filter. tauto. }
  assert (HCu : forall u n, n ∈ (<[t := a ++ b]> C) u <-> n ∈ C u /\ n <> m).
  { intros u n. destruct (decide (t = u)) as [<-|Hne]; [by rewrite fn_lookup_insert|].
    rewrite fn_lookup_insert_ne by done. split; [|tauto]. intros Hn. split; [done|]. intros ->.
    apply Hne. eapply (mi_unique _ _ _ m); [done| |done]. rewrite HC. set_solver. }
  split; simpl.
  - intros u y. destruct (decide (t = u)) as [<-|Hne].
    + rewrite lookup_insert_eq, fn_lookup_insert. intros [= <-]. done.
    + rewrite lookup_insert_ne, fn_lookup_insert_ne by done. intros Hy Hly.
      eapply mchain_ext; [by apply H1|]. intros n Hn. rewrite Hout; [done|]. intros Hn'.
      apply Hne. by eapply (mi_unique _ _ _ n).
  - intros u n. rewrite HCu, H2. specialize (Htask n).
    split.
    + intros ((_ & Hmx & vn & Hvn & Hu) & Hne). split_and!; [congruence|done|].
      rewrite Hvn in Htask. destruct (mm' !! n) as [v'|]; [|done]. exists v'. simpl in Htask. split; congruence.
    + intros (Hne & Hmx & v' & Hv' & Hu). split; [|congruence]. split_and!; [done..|].
      rewrite Hv' in Htask. destruct (mutexes (ob s) !! n) as [vn|]; [|done]. exists vn. simpl in Htask. split; congruence.
  - intros u n [Hn _]%HCu. destruct (H3 u n Hn) as (y & Hy & ?).
    destruct (decide (t = u)) as [<-|]; simplify_map_eq; eauto.
  - intros u y n Hy Hp Ho Hmx Hne.
    assert (exists u', n ∈ C u' /\ u' <> u) as (u' & Hu' & Hneu).
    { destruct (decide (t = u)) as [<-|]; simplify_map_eq; by eapply H4. }
    exists u'. rewrite HCu. naive_solver.
  - intros n bo Hb Ht'. rewrite <- Hsome. by apply H5.
  - intros u y Hy. destruct (decide (t = u)) as [<-|]; simplify_map_eq; [by apply (H6 t)|by apply (H6 u)].
Qed.

Lemma let_go_mlink_set s C t x m v a b :
  minv None s C -> tcbs s !! t = Some x -> live (task_state x) = true ->
  C t = a ++ m :: b -> mutexes (ob s) !! m = Some v ->
  let_go s t x m v C (mlink_set (link_after (LTask t) a) (mutex_list v) s) (<[t := a ++ b]> C).
Proof.
  intros HM Ht Hl HC Hv. pose proof (mi_chain _ _ _ HM _ _ Ht Hl) as Hch. rewrite HC in Hch.
  pose proof (mchain_nodup _ _ _ Hch) as Hnd.
  destruct a as [|n a _] using rev_ind; unfold link_after; [|rewrite last_snoc]; simpl.
  - rewrite Ht. simpl in Hch. destruct Hch as (E & v' & Hv' & Hch). assert (v' = v) as -> by congruence.
    eapply (minv_let_go _ _ _ _ _ _ [] _ _ (mutex_list v) (mutexes (ob s))); try done.
    unfold with_tc. by destruct s as [? ? ? ? [] ? ?].
  - rewrite <- app_assoc in *. simpl in *.
    destruct (mchain_suffix _ _ _ _ _ Hch) as (vn & Hn & _). rewrite Hn.
    assert (m <> n) by (intros ->; apply NoDup_app in Hnd as (_ & _ & Hnd); inversion Hnd; set_solver).
    replace (a ++ n :: b) with ((a ++ [n]) ++ b) by by rewrite <- app_assoc.
    eapply (minv_let_go _ _ _ _ _ _ (a ++ [n]) b _ (task_mutex_list x)
      (<[n:=set_mutex_list (mutex_list v) vn]> (mutexes (ob s)))); [done..|by rewrite <- app_assoc|done| | | | |].
    + rewrite <- app_assoc. simpl. by eapply mchain_unlink.
    + intros k Hk. rewrite lookup_insert_ne; [done|]. rewrite HC in Hk. set_solver.
    + intros k. destruct (decide (n = k)) as [<-|]; simplify_map_eq; done.
    + by rewrite lookup_insert_ne.
    + assert (set_task_mutex_list (task_mutex_list x) x = x) as -> by by destruct x.
      by rewrite (insert_id (tcbs s)).
Qed.

Lemma minv_pri_lists h s C t : minv h s C -> pri_lists s (C t).
Proof.
  intros HM m Hm. apply (mi_own _ _ _ HM) in Hm as (_ & (b & Hb & Hty) & _). exists b.
  split; [done|]. by apply (mi_mutex _ _ _ HM m b).
Qed.

Lemma base_of_lookup tc t x : tc !! t = Some x -> base_of tc t = b_prio x.
Proof. unfold base_of. by intros ->. Qed.

(** [mutex_pri_look(task, NULL)] is the inherited priority. *)
Lemma wp_mutex_pri_look_none h s A C t x (Q : Z -> kstate -> Prop) :
  kinv s A -> minv h s C -> tcbs s !! t = Some x -> live (task_state x) = true ->
  (forall r, is_min (tcbs s) (b_prio x) (waits A C t) r -> Q r s) ->
  wp (mutex_pri_look t None) Q s.
Proof.
  intros HI HM Ht Hl HQ. unfold mutex_pri_look, mutex_fuel. apply wp_bind, (wp_task_get _ x); [done|]. wsteps.
  pose proof (mi_chain _ _ _ HM _ _ Ht Hl) as Hch.
  eapply (wp_look_loop s A (C t) None _ _ (task_mutex_list x) _ _ (b_prio x) (fun _ => False)); [done| | |done|done| | | |].
  - by eapply minv_pri_lists.
  - simpl. by rewrite Ht.
  - apply mchain_length in Hch. lia.
  - apply is_min_none. tauto.
  - by left.
  - intros r Hr. apply HQ. eapply is_min_ext; [exact Hr| |done]. unfold waits. intros u. tauto.
Qed.

(** [mutex_pri_look(task, m)] also unlinks [m], and does not count its
    waiters. *)
Lemma wp_mutex_pri_look_some s A C t x m v (Q : Z -> kstate -> Prop) :
  kinv s A -> minv None s C -> tcbs s !! t = Some x -> live (task_state x) = true ->
  m ∈ C t -> mutexes (ob s) !! m = Some v ->
  (forall r s' C', let_go s t x m v C s' C' -> kinv s' A ->
     is_min (tcbs s') (b_prio x) (waits A C' t) r -> Q r s') ->
  wp (mutex_pri_look t (Some m)) Q s.
Proof.
  intros HI HM Ht Hl Hm Hv HQ. unfold mutex_pri_look, mutex_fuel. apply wp_bind, (wp_task_get _ x); [done|]. wsteps.
  pose proof (mi_chain _ _ _ HM _ _ Ht Hl) as Hch.
  pose proof (mchain_length _ _ _ Hch) as Hlen.
  apply list_elem_of_split in Hm as (a & b & HC).
  eapply (wp_look_unlink s A a m b _ (LTask t) (task_mutex_list x) v _ _ (b_prio x) (fun _ => False)); rewrite <- ?HC; try done.
  - by eapply minv_pri_lists.
  - simpl. by rewrite Ht.
  - lia.
  - apply is_min_none. tauto.
  - by left.
  - intros r Hr. eapply (HQ r _ (<[t := a ++ b]> C)).
    + by apply let_go_mlink_set.
    + by apply mlink_set_kinv.
    + eapply is_min_ext; [exact Hr| |intros; apply mlink_set_prio].
      unfold waits. intros u. rewrite fn_lookup_insert. tauto.
Qed.
End UnlinkInv.

(** ** One step of [task_pri_change] *)

Section Step.
Implicit Types (s : kstate) (A : queues) (C : tid -> list oid) (t u : tid) (x y : ktask_t) (p : Z).

(** [s] with the priority of [t] changed. *)
Definition reprio l' q' t x p s : kstate :=
  mkK l' q' (<[t := set_prio p x]> (tcbs s)) (gl s) (ob s) (umem s).

Lemma minv_set_prio h l' q' t x p s C :
  minv h s C -> tcbs s !! t = Some x -> b_prio x <> RHINO_IDLE_PRI -> p <> RHINO_IDLE_PRI ->
  minv h (reprio l' q' t x p s) C.
Proof.
  intros [H1 H2 H3 H4 H5 H6] Ht Hb Hp. split; simpl; [|done| | |done|].
  - intros u y. destruct (decide (u = t)) as [->|]; simplify_map_eq; [|by apply H1].
    intros [= <-]. by apply (H1 t x).
  - intros u m Hm. destruct (H3 u m Hm) as (y & Hy & ?).
    destruct (decide (u = t)) as [->|]; simplify_map_eq; [|by exists y]. by eexists.
  - intros u y m. destruct (decide (u = t)) as [->|]; simplify_map_eq; [|by apply H4].
    intros [= <-]. by apply (H4 t x).
  - intros u y. destruct (decide (u = t)) as [->|]; simplify_map_eq; [|by apply H6].
    intros [= <-]. simpl. pose proof (H6 t x Ht). tauto.
Qed.

Lemma waits_requeued A A' C t u : requeued A A' -> waits A' C t u <-> waits A C t u.
Proof. intros [Hb _]. unfold waits. split; intros (m & Hm & Hu); exists m; (split; [done|]); [by rewrite <- Hb|by rewrite Hb]. Qed.

(** A pended task and its mutex. *)
Lemma waits_of s A C t x m :
  kinv s A -> minv None s C -> tcbs s !! t = Some x -> pended (task_state x) = true -> task_blk_obj x = Some m ->
  is_mutex (ob s) m -> exists u v y, mutexes (ob s) !! m = Some v /\ mutex_task v = Some u /\
    waits A C u t /\ u <> t /\ tcbs s !! u = Some y /\ live (task_state y) = true /\ b_prio y <> RHINO_IDLE_PRI.
Proof.
  intros HI HM Ht Hp Ho Hm. destruct (mi_wait _ _ _ HM _ _ _ Ht Hp Ho Hm) as (u & Hu & Hne); [done|].
  destruct (mi_owner _ _ _ HM _ _ Hu) as (y & Hy & Hl & Hb).
  pose proof (proj1 (mi_own _ _ _ HM _ _) Hu) as (_ & _ & v & Hv & Hvu).
  exists u, v, y. split_and!; try done. exists m. split; [done|].
  apply (kinv_in _ _ _ _ (LBlk m) HI Ht). by split.
Qed.

Lemma not_waits s A C t x :
  kinv s A -> minv None s C -> tcbs s !! t = Some x ->
  (forall m, pended (task_state x) = true -> task_blk_obj x = Some m -> ~ is_mutex (ob s) m) ->
  forall u, ~ waits A C u t.
Proof.
  intros HI HM Ht Hn u (m & Hm & Hw). apply (kinv_in _ _ _ _ (LBlk m) HI Ht) in Hw as [Hp Ho].
  apply (Hn m Hp Ho). by apply (mi_own _ _ _ HM) in Hm as (_ & ? & _).
Qed.

(** What the step leaves to do, in terms of the owner [t] waits for. *)
Definition step_next s A C t x p (Q : kstat_t + option (tid * Z) -> kstate -> Prop) : Prop :=
  ((forall u, ~ waits A C u t) -> Q (inr None) s) /\
  (forall u y, waits A C u t -> u <> t -> tcbs s !! u = Some y -> live (task_state y) = true ->
     b_prio y <> RHINO_IDLE_PRI ->
     (p < prio y -> Q (inr (Some (u, p))) s) /\
     (prio y <= p -> prio y <> prio x -> Q (inr None) s) /\
     (prio y <= p -> prio y = prio x -> forall r, is_min (tcbs s) (b_prio y) (waits A C u) r ->
        if decide (r = prio y) then Q (inr None) s else Q (inr (Some (u, r))) s)).

(** The code behind [pend_list_reorder]. *)
Lemma wp_step_owner s A C t x p o b (Q : kstat_t + option (tid * Z) -> kstate -> Prop) x' :
  kinv s A -> minv None s C -> tcbs s !! t = Some x' -> pended (task_state x') = true ->
  task_blk_obj x' = Some o -> blks (ob s) !! o = Some b -> step_next s A C t x p Q ->
  wp (b <- blk_get o ;;
      if bool_decide (obj_type b = RHINO_MUTEX_OBJ_TYPE) then
        v <- mutex_get o ;;
        mt <- lift (mutex_task v) ;;
        y <- task_get mt ;;
        if p <? prio y then ret (inr (Some (mt, p)))
        else if prio y =? prio x then
          new_pri' <- mutex_pri_look mt None ;;
          if negb (new_pri' =? prio y) then ret (inr (Some (mt, new_pri')))
          else ret (inr None)
        else ret (inr None)
      else ret (inr None)) Q s.
Proof.
  intros HI HM Ht Hp Ho Hb [Hn Hw]. unfold blk_get, mutex_get. wsteps.
  case_bool_decide as Hty.
  - destruct (waits_of s A C t x' o HI HM Ht Hp Ho) as (u & v & y & Hv & Hu & Hwu & Hne & Hy & Hl & Hbi).
    { by exists b. }
    specialize (Hw u y Hwu Hne Hy Hl Hbi) as (W1 & W2 & W3).
    wsteps. apply (wp_task_get _ y); [done|].
    destruct (Z.ltb_spec p (prio y)); [apply wp_ret; auto|].
    destruct (Z.eqb_spec (prio y) (prio x)); [|apply wp_ret; auto].
    apply wp_bind, (wp_mutex_pri_look_none None s A C u y); [done..|]. intros r Hr.
    specialize (W3 ltac:(lia) ltac:(done) r Hr).
    destruct (Z.eqb_spec r (prio y)) as [E|E]; apply wp_ret; case_decide; done.
  - apply wp_ret, Hn. eapply not_waits; [done..|]. intros m _ Hm (b' & Hb' & Hty'). simplify_eq.
Qed.

Lemma wp_task_pri_change_step s A C t x p (Q : kstat_t + option (tid * Z) -> kstate -> Prop) :
  kinv s A -> minv None s C -> tcbs s !! t = Some x -> live (task_state x) = true ->
  b_prio x <> RHINO_IDLE_PRI -> 0 <= p < RHINO_IDLE_PRI -> p <> prio x ->
  (forall l' q' A', kinv (reprio l' q' t x p s) A' -> requeued A A' -> minv None (reprio l' q' t x p s) C ->
     step_next (reprio l' q' t x p s) A' C t x p Q) ->
  wp (task_pri_change_step t p) Q s.
Proof.
  intros HI HM Ht Hl Hbi Hp Hne HQ. unfold task_pri_change_step.
  assert (0 <= p < RHINO_CONFIG_PRI_MAX) as Hp' by (unfold RHINO_IDLE_PRI in Hp; lia).
  assert (prio x <> RHINO_IDLE_PRI) as Hpi by (pose proof (mi_prio _ _ _ HM _ _ Ht); tauto).
  apply wp_bind, (wp_task_get _ x); [done|]. rewrite (proj2 (Z.eqb_neq (prio x) p)) by done.
  assert (HM' : forall l' q', minv None (reprio l' q' t x p s) C) by (intros; apply minv_set_prio; try done; lia).
  assert (Hidle : pended (task_state x) = false ->
    forall l' q' A', kinv (reprio l' q' t x p s) A' -> requeued A A' -> Q (inr None) (reprio l' q' t x p s)).
  { intros Hnp l' q' A' HI' Hr. apply (HQ l' q' A' HI' Hr (HM' _ _)).
    eapply not_waits; [done..|simpl; by simplify_map_eq|]. simpl. by rewrite Hnp. }
  assert (Hun : task_state x <> K_RDY -> pended (task_state x) = false ->
    wp (task_upd t (set_prio p) ;; ret (inr None)) Q s).
  { intros Hr Hnp. apply wp_bind, (wp_task_upd _ x); [done|]. apply wp_ret.
    apply (Hidle Hnp (lm s) (rq s) A); [|done]. by apply set_prio_unlisted. }
  destruct (pended (task_state x)) eqn:Ep.
  - destruct (ok_blk _ _ (ki_task _ _ HI _ _ Ht) Ep) as (o & Ho & [b Hb]).
    assert (wp (bind (task_upd t (set_prio p) ;; pend_list_reorder t) (fun _ =>
        o <- lift (task_blk_obj x) ;;
        b <- blk_get o ;;
        if bool_decide (obj_type b = RHINO_MUTEX_OBJ_TYPE) then
          v <- mutex_get o ;;
          mt <- lift (mutex_task v) ;;
          y <- task_get mt ;;
          if p <? prio y then ret (inr (Some (mt, p)))
          else if prio y =? prio x then
            new_pri' <- mutex_pri_look mt None ;;
            if negb (new_pri' =? prio y) then ret (inr (Some (mt, new_pri')))
            else ret (inr None)
          else ret (inr None)
        else ret (inr None))) Q s) as Hw.
    { apply wp_bind, (wp_set_prio_pended s A t x p o b); [done..|].
      intros l' A' HI' Hr. rewrite Ho. apply wp_bind, wp_ret.
      eapply (wp_step_owner _ A' C t x p o b _ (set_prio p x)); [done|apply HM'|simpl; by simplify_map_eq|done..|].
      by apply HQ. }
    revert Hw. unfold wp, bind. destruct (task_state x); try done;
      destruct (task_upd t (set_prio p) s) as [[[] s1]|]; done.
  - destruct (task_state x) eqn:Es; try done; try (by apply Hun).
    assert (wp (bind (ready_list_rm t ;; task_upd t (set_prio p) ;; g <- gets gl ;;
      if bool_decide (Some t = g_active_task g) then ready_list_add_head t else ready_list_add_tail t)
      (fun _ => ret (inr None))) Q s) as Hw.
    { apply wp_bind, (wp_set_prio_ready s A t x p); [done..|].
      intros l' q' A' HI' Hr%blk_same_requeued. apply wp_ret. by eapply Hidle. }
    revert Hw. unfold wp, bind. destruct (ready_list_rm t s) as [[[] s1]|]; [|done].
    by destruct (task_upd t (set_prio p) s1) as [[[] s2]|].
Qed.
End Step.

(** ** Measures on the set of tasks *)

Definition msum (f : ktask_t -> nat) (tc : gmap tid ktask_t) : nat :=
  map_fold (fun _ x n => (f x + n)%nat) 0%nat tc.

Section Msum.
Implicit Types (f : ktask_t -> nat) (tc : gmap tid ktask_t) (x y : ktask_t).

Lemma msum_fresh f tc t x : tc !! t = None -> msum f (<[t := x]> tc) = (f x + msum f tc)%nat.
Proof. intros H. unfold msum. rewrite map_fold_insert_L; [done| |done]. intros. lia. Qed.

Lemma msum_insert f tc t x y : tc !! t = Some x -> (msum f (<[t := y]> tc) + f x = msum f tc + f y)%nat.
Proof.
  intros Ht. rewrite <- insert_delete_eq, msum_fresh by by rewrite lookup_delete_eq.
  rewrite <- (insert_delete_id tc t x Ht) at 2. rewrite msum_fresh by by rewrite lookup_delete_eq. lia.
Qed.

Lemma msum_bound f tc k : (forall t x, tc !! t = Some x -> (f x <= k)%nat) -> (msum f tc <= k * size tc)%nat.
Proof.
  induction tc as [|t x tc Ht IH] using map_ind; intros Hk.
  - unfold msum. rewrite map_fold_empty, map_size_empty. lia.
  - rewrite msum_fresh, map_size_insert_None by done.
    assert (f x <= k)%nat by (apply (Hk t); by simplify_map_eq).
    assert (msum f tc <= k * size tc)%nat; [|lia]. apply IH. intros u y Hu. apply (Hk u).
    rewrite lookup_insert_ne; [done|]. intros ->. congruence.
Qed.
End Msum.

(** Tasks that a raise to [p] can still move; room left for lowering. *)
Definition above (p : Z) : ktask_t -> nat := fun x => if p <? prio x then 1%nat else 0%nat.
Definition room : ktask_t -> nat := fun x => Z.to_nat (RHINO_IDLE_PRI - prio x).

(** ** The loop *)

(** Only priorities changed. *)
Definition prio_only (tc tc' : gmap tid ktask_t) : Prop :=
  forall u, tc' !! u = set_prio (prio_of tc' u) <$> tc !! u.

Section Loop.
Implicit Types (s : kstate) (A : queues) (C : tid -> list oid) (t u w : tid) (x y : ktask_t) (p : Z) (B : tid -> Z).

Lemma set_prio_id y p : p = prio y -> set_prio p y = y.
Proof. intros ->. by destruct y. Qed.

Lemma prio_only_refl tc : prio_only tc tc.
Proof.
  intros u. unfold prio_of. destruct (tc !! u) as [y|] eqn:E; simpl; [|done]. by rewrite set_prio_id.
Qed.

Lemma prio_only_step tc tc' t x p : tc !! t = Some x -> prio_only (<[t := set_prio p x]> tc) tc' -> prio_only tc tc'.
Proof.
  intros Ht H u. rewrite (H u) at 1. destruct (decide (u = t)) as [->|]; simplify_map_eq; done.
Qed.

Lemma prio_of_set_prio_ne tc t x p u : u <> t -> prio_of (<[t := set_prio p x]> tc) u = prio_of tc u.
Proof. apply prio_of_insert_ne. Qed.

(** After a step: tasks that do not see [t] are as they were. *)
Lemma pinv_at_other l' q' s A A' C B t x p u :
  pinv_at s A C B u -> u <> t -> ~ waits A C u t -> requeued A A' -> pinv_at (reprio l' q' t x p s) A' C B u.
Proof.
  intros HP Hne Hw Hr y Hy Hl. simpl in Hy. rewrite lookup_insert_ne in Hy by done.
  eapply is_min_ext; [by apply HP|intros w; by apply waits_requeued|].
  intros w Hw'. apply prio_of_set_prio_ne. by intros ->.
Qed.

(** [t] itself has reached its target. *)
Lemma pinv_at_self h l' q' s A A' C B t x p :
  kinv s A -> minv h s C -> is_min (tcbs s) (B t) (waits A C t) p -> requeued A A' ->
  pinv_at (reprio l' q' t x p s) A' C B t.
Proof.
  intros HI HM Hm Hr y Hy Hl. simpl in Hy. rewrite lookup_insert_eq in Hy. injection Hy as <-. simpl.
  eapply is_min_ext; [done|intros w; by apply waits_requeued|].
  intros w Hw. apply prio_of_set_prio_ne. intros ->. by eapply waits_irrefl.
Qed.

Lemma reprio_lookup l' q' s t x p u y : u <> t -> tcbs (reprio l' q' t x p s) !! u = Some y -> tcbs s !! u = Some y.
Proof. intros. simpl in *. by rewrite lookup_insert_ne in *. Qed.

(** The minimum of the owner [u] of the mutex [t] waits for. *)
Lemma owner_min l' q' s A A' C B t x p u y :
  pinv_at s A C B u -> u <> t -> requeued A A' -> tcbs s !! t = Some x -> tcbs s !! u = Some y ->
  live (task_state y) = true -> waits A C u t ->
  let tc' := tcbs (reprio l' q' t x p s) in
  prio y <= prio x /\
  (p < prio y -> is_min tc' (B u) (waits A' C u) p) /\
  (prio y <= p -> prio y <> prio x -> is_min tc' (B u) (waits A' C u) (prio y)).
Proof.
  intros HP Hne Hr Ht Hy Hl Hw tc'. pose proof (HP y Hy Hl) as Hmin.
  assert (Hx : prio_of (tcbs s) t = prio x) by by apply prio_of_lookup.
  assert (Hp : prio_of tc' t = p) by apply prio_of_set_prio.
  assert (Ho : forall w, w <> t -> prio_of tc' w = prio_of (tcbs s) w) by (intros; by apply prio_of_set_prio_ne).
  assert (Hmin' : is_min (tcbs s) (B u) (waits A' C u) (prio y)).
  { eapply is_min_ext; [done|intros w; by apply waits_requeued|done]. }
  split_and!.
  - destruct Hmin as (_ & H & _). specialize (H t Hw). lia.
  - intros Hlt. eapply is_min_below; [exact Hmin'|done|by apply (waits_requeued A)|done|done].
  - intros Hle Hx'. eapply is_min_keep; [exact Hmin'|done|lia|]. rewrite Hx. lia.
Qed.

Lemma pinv_at_keep s A C B u y : tcbs s !! u = Some y -> is_min (tcbs s) (B u) (waits A C u) (prio y) -> pinv_at s A C B u.
Proof. intros Hy Hm z Hz _. by simplify_eq. Qed.

Definition loop_post s A C B (Q : kstat_t -> kstate -> Prop) : Prop :=
  forall l' q' tc' A',
    let s' := mkK l' q' tc' (gl s) (ob s) (umem s) in
    kinv s' A' -> requeued A A' -> minv None s' C -> (forall u, pinv_at s' A' C B u) -> prio_only (tcbs s) tc' ->
    Q RHINO_SUCCESS s'.

Lemma loop_post_step l' q' s A A' C B t x p Q :
  tcbs s !! t = Some x -> requeued A A' -> loop_post s A C B Q -> loop_post (reprio l' q' t x p s) A' C B Q.
Proof.
  intros Ht Hr HQ l2 q2 tc2 A2 s2 HI HR HM HP Ho. apply (HQ l2 q2 tc2 A2); try done.
  - by etransitivity.
  - eapply prio_only_step; [exact Ht|exact Ho].
Qed.

Lemma loop_done l' q' s A A' C B t x p (Q : kstat_t -> kstate -> Prop) :
  loop_post s A C B Q -> tcbs s !! t = Some x -> kinv (reprio l' q' t x p s) A' -> requeued A A' ->
  minv None (reprio l' q' t x p s) C -> (forall u, pinv_at (reprio l' q' t x p s) A' C B u) ->
  Q RHINO_SUCCESS (reprio l' q' t x p s).
Proof.
  intros HQ Ht HI Hr HM HP. apply (HQ l' q' (<[t := set_prio p x]> (tcbs s)) A'); try done.
  eapply prio_only_step; [exact Ht|apply prio_only_refl].
Qed.

(** A raise to [p] moves tasks below [p] to [p] and no others. *)
Definition raised p (tc tc' : gmap tid ktask_t) : Prop :=
  forall u, prio_of tc' u = prio_of tc u \/ prio_of tc' u = p /\ p < prio_of tc u.

Definition raise_post s A C B p (Q : kstat_t -> kstate -> Prop) : Prop :=
  loop_post s A C B (fun st s' => raised p (tcbs s) (tcbs s') -> Q st s').

Lemma raised_step p tc tc' t x : tc !! t = Some x -> p < prio x ->
  raised p (<[t := set_prio p x]> tc) tc' -> raised p tc tc'.
Proof.
  intros Ht Hp Hr u. specialize (Hr u). destruct (decide (u = t)) as [->|].
  - rewrite prio_of_set_prio in Hr. rewrite (prio_of_lookup _ _ _ Ht). right. lia.
  - by rewrite prio_of_set_prio_ne in Hr.
Qed.

Lemma raise_post_step l' q' s A A' C B t x p Q :
  tcbs s !! t = Some x -> p < prio x -> requeued A A' -> raise_post s A C B p Q ->
  raise_post (reprio l' q' t x p s) A' C B p Q.
Proof.
  intros Ht Hp Hr HQ. eapply (loop_post_step l' q' s A A' C B t x p) in HQ; [|done..].
  intros l2 q2 tc2 A2 s2 HI HR HM HP Ho Hra. apply (HQ l2 q2 tc2 A2); try done.
  eapply raised_step; [exact Ht|done|exact Hra].
Qed.

Lemma raise_done l' q' s A A' C B t x p (Q : kstat_t -> kstate -> Prop) :
  raise_post s A C B p Q -> tcbs s !! t = Some x -> p < prio x -> kinv (reprio l' q' t x p s) A' -> requeued A A' ->
  minv None (reprio l' q' t x p s) C -> (forall u, pinv_at (reprio l' q' t x p s) A' C B u) ->
  Q RHINO_SUCCESS (reprio l' q' t x p s).
Proof.
  intros HQ Ht Hp HI Hr HM HP. eapply loop_done in HQ; [|done..]. apply HQ.
  eapply raised_step; [exact Ht|done|]. intros u. by left.
Qed.

Lemma wp_raise_loop fuel s A C B t x p (Q : kstat_t -> kstate -> Prop) :
  kinv s A -> minv None s C -> tcbs s !! t = Some x -> live (task_state x) = true ->
  b_prio x <> RHINO_IDLE_PRI -> 0 <= p < prio x -> (forall u, u <> t -> pinv_at s A C B u) ->
  is_min (tcbs s) (B t) (waits A C t) p -> (msum (above p) (tcbs s) <= fuel)%nat ->
  raise_post s A C B p Q -> wp (task_pri_change_loop fuel t p) Q s.
Proof.
  revert s A t x. induction fuel as [|fuel IH]; intros s A t x HI HM Ht Hl Hb Hp HP Hmin Hf HQ;
    pose proof (msum_insert (above p) _ _ _ (set_prio p x) Ht) as Hsum;
    unfold above at 2 4 in Hsum; simpl in Hsum;
    rewrite (proj2 (Z.ltb_lt p (prio x))), (proj2 (Z.ltb_ge p p)) in Hsum by lia; [lia|].
  assert (prio x < RHINO_IDLE_PRI) as Hxi.
  { pose proof (ok_prio _ _ (ki_task _ _ HI _ _ Ht)). pose proof (mi_prio _ _ _ HM _ _ Ht).
    unfold RHINO_IDLE_PRI, RHINO_CONFIG_PRI_MAX in *. lia. }
  simpl. apply wp_bind, (wp_task_pri_change_step s A C t x p); [done..|lia|lia|].
  intros l' q' A' HI' Hr HM'.
  assert (HPt : pinv_at (reprio l' q' t x p s) A' C B t) by (by eapply pinv_at_self).
  split.
  - intros Hn. apply wp_ret. eapply raise_done; [exact HQ|done|lia|done..|].
    intros u. destruct (decide (u = t)) as [->|]; [done|]. eapply pinv_at_other; [by apply HP|done| |done].
    rewrite <- (waits_requeued A A') by done. apply Hn.
  - intros u y Hw Hne Hy Hly Hby. apply reprio_lookup in Hy as Hy0; [|done].
    apply (waits_requeued A) in Hw as Hw0; [|done].
    destruct (owner_min l' q' s A A' C B t x p u y (HP u Hne) Hne Hr Ht Hy0 Hly Hw0) as (M1 & M2 & M3).
    assert (Hothers : forall v, v <> u -> pinv_at (reprio l' q' t x p s) A' C B v).
    { intros v Hv. destruct (decide (v = t)) as [->|]; [done|]. eapply pinv_at_other; [by apply HP|done| |done].
      intros Hw'. apply Hv. exact (waits_unique None s A C v u t HI HM Hw' Hw0). }
    split_and!.
    + intros Hlt. apply (IH _ A' u y); try done; [lia|by apply M2|simpl; lia|eapply raise_post_step; [done|lia|done|done]].
    + intros Hle Hnx. apply wp_ret.
      eapply raise_done; [exact HQ|done|lia|done..|].
      intros v. destruct (decide (v = u)) as [->|]; [|by apply Hothers]. eapply pinv_at_keep; [done|auto].
    + intros. lia.
Qed.

Lemma wp_lower_loop fuel s A C t x p (Q : kstat_t -> kstate -> Prop) :
  kinv s A -> minv None s C -> tcbs s !! t = Some x -> live (task_state x) = true ->
  b_prio x <> RHINO_IDLE_PRI -> prio x < p < RHINO_IDLE_PRI ->
  (forall u, u <> t -> pinv_at s A C (base_of (tcbs s)) u) ->
  is_min (tcbs s) (b_prio x) (waits A C t) p -> (msum room (tcbs s) <= fuel)%nat ->
  loop_post s A C (base_of (tcbs s)) Q -> wp (task_pri_change_loop fuel t p) Q s.
Proof.
  revert s A t x p. induction fuel as [|fuel IH]; intros s A t x p HI HM Ht Hl Hb Hp HP Hmin Hf HQ;
    pose proof (msum_insert room _ _ _ (set_prio p x) Ht) as Hsum;
    unfold room at 2 4 in Hsum; simpl in Hsum; [lia|].
  pose proof (ok_prio _ _ (ki_task _ _ HI _ _ Ht)) as Hxr.
  simpl. apply wp_bind, (wp_task_pri_change_step s A C t x p); [done..|lia|lia|].
  intros l' q' A' HI' Hr HM'.
  rewrite <- (base_of_lookup _ _ _ Ht) in Hmin.
  assert (HPt : pinv_at (reprio l' q' t x p s) A' C (base_of (tcbs s)) t) by (by eapply pinv_at_self).
  split.
  - intros Hn. apply wp_ret. eapply loop_done; [exact HQ|done..|].
    intros u. destruct (decide (u = t)) as [->|]; [done|]. eapply pinv_at_other; [by apply HP|done| |done].
    rewrite <- (waits_requeued A A') by done. apply Hn.
  - intros u y Hw Hne Hy Hly Hby. apply reprio_lookup in Hy as Hy0; [|done].
    apply (waits_requeued A) in Hw as Hw0; [|done].
    destruct (owner_min l' q' s A A' C _ t x p u y (HP u Hne) Hne Hr Ht Hy0 Hly Hw0) as (M1 & M2 & M3).
    assert (Hbase : forall v, base_of (tcbs (reprio l' q' t x p s)) v = base_of (tcbs s) v) by (intros; by eapply base_of_insert).
    assert (Hothers : forall v, v <> u -> pinv_at (reprio l' q' t x p s) A' C (base_of (tcbs s)) v).
    { intros v Hv. destruct (decide (v = t)) as [->|]; [done|]. eapply pinv_at_other; [by apply HP|done| |done].
      intros Hw'. apply Hv. exact (waits_unique None s A C v u t HI HM Hw' Hw0). }
    assert (Hdone : is_min (tcbs (reprio l' q' t x p s)) (base_of (tcbs s) u) (waits A' C u) (prio y) ->
      wp (ret RHINO_SUCCESS) Q (reprio l' q' t x p s)).
    { intros Hm. apply wp_ret.
      eapply loop_done; [exact HQ|done..|].
      intros v. destruct (decide (v = u)) as [->|]; [|by apply Hothers]. by eapply pinv_at_keep. }
    split_and!; [intros; lia|intros; apply Hdone; auto|].
    intros Hle Hyx r Hr'. rewrite <- (base_of_lookup _ _ _ Hy0) in Hr'. case_decide as E; [apply Hdone; by rewrite <- E|].
    assert (prio y < r < RHINO_IDLE_PRI) as Hry.
    { pose proof (HP u Hne y Hy0 Hly) as (K1 & K2 & _). pose proof (mi_prio _ _ _ HM _ _ Hy0) as [Hby' _].
      destruct Hr' as (L1 & _ & L3). rewrite (base_of_lookup _ _ _ Hy0) in *.
      assert (prio y <= r); [|unfold RHINO_IDLE_PRI in *; lia].
      destruct L3 as [->|(w & Hw' & ->)]; [lia|]. apply (waits_requeued A) in Hw'; [|done]. simpl.
      destruct (decide (w = t)) as [->|]; [rewrite prio_of_set_prio; lia|].
      rewrite prio_of_set_prio_ne by done. by apply K2. }
    apply (IH _ A' u y); try done.
    + intros v Hv z Hz Hlz. rewrite Hbase. by apply Hothers.
    + by rewrite <- (base_of_lookup _ _ _ Hy0).
    + simpl. lia.
    + intros l2 q2 tc2 A2 s2 HI2 HR2 HM2 HP2 Ho2.
      apply (loop_post_step l' q' s A A' C _ t x p Q Ht Hr HQ l2 q2 tc2 A2); try done.
      intros v z Hz Hlz. rewrite <- Hbase. by apply HP2.
Qed.
End Loop.

(** ** The callers of the loop *)

Section Change.
Implicit Types (s : kstate) (A : queues) (C : tid -> list oid) (t u w : tid) (x y : ktask_t) (p : Z) (B : tid -> Z).

Lemma kinv_room s A t x : kinv s A -> tcbs s !! t = Some x -> (room x <= 61)%nat.
Proof.
  intros HI Ht. pose proof (ok_prio _ _ (ki_task _ _ HI _ _ Ht)). unfold room, RHINO_IDLE_PRI, RHINO_CONFIG_PRI_MAX in *. lia.
Qed.

(** A raise, for any assignment [B] of base priorities. *)
Lemma wp_task_pri_raise s A C B t x p (Q : kstat_t -> kstate -> Prop) :
  kinv s A -> minv None s C -> tcbs s !! t = Some x -> live (task_state x) = true ->
  b_prio x <> RHINO_IDLE_PRI -> 0 <= p < prio x -> (forall u, u <> t -> pinv_at s A C B u) ->
  is_min (tcbs s) (B t) (waits A C t) p -> raise_post s A C B p Q ->
  wp (task_pri_change t p) Q s.
Proof.
  intros HI HM Ht Hl Hb Hp HP Hmin HQ. unfold task_pri_change. wsteps.
  eapply wp_raise_loop; [done..| |done].
  pose proof (msum_bound (above p) (tcbs s) 1) as Hs.
  assert (msum (above p) (tcbs s) <= 1 * size (tcbs s))%nat; [|unfold RHINO_CONFIG_PRI_MAX; lia].
  apply Hs. intros u y _. unfold above. destruct (_ <? _); lia.
Qed.

(** To the inherited priority, in either direction. *)
Lemma wp_task_pri_change s A C t x p (Q : kstat_t -> kstate -> Prop) :
  kinv s A -> minv None s C -> tcbs s !! t = Some x -> live (task_state x) = true ->
  b_prio x <> RHINO_IDLE_PRI -> 0 <= p -> (forall u, u <> t -> pinv_at s A C (base_of (tcbs s)) u) ->
  is_min (tcbs s) (b_prio x) (waits A C t) p -> loop_post s A C (base_of (tcbs s)) Q ->
  wp (task_pri_change t p) Q s.
Proof.
  intros HI HM Ht Hl Hb Hp HP Hmin HQ.
  destruct (Z.lt_trichotomy p (prio x)) as [Hlt|[Heq|Hgt]].
  - rewrite <- (base_of_lookup _ _ _ Ht) in Hmin. eapply wp_task_pri_raise; [done..|].
    intros l' q' tc' A' s' HI' HR HM' HP' Ho _. by apply (HQ l' q' tc' A').
  - unfold task_pri_change. wsteps. simpl. apply wp_bind. unfold task_pri_change_step.
    apply wp_bind, (wp_task_get _ x); [done|]. rewrite Heq, Z.eqb_refl. wsteps.
    destruct s. apply (HQ lm rq tcbs A); try done; [|apply prio_only_refl].
    intros u. destruct (decide (u = t)) as [->|]; [|by apply HP].
    eapply pinv_at_keep; [done|]. rewrite (base_of_lookup _ _ _ Ht). by rewrite <- Heq.
  - unfold task_pri_change. wsteps. eapply wp_lower_loop; [done..| |done|done| |done].
    + destruct Hmin as (Hle & _). pose proof (mi_prio _ _ _ HM _ _ Ht) as [Hr _].
      unfold RHINO_IDLE_PRI in *. lia.
    + pose proof (msum_bound room (tcbs s) 61) as Hs.
      assert (msum room (tcbs s) <= 61 * size (tcbs s))%nat; [|unfold RHINO_CONFIG_PRI_MAX; lia].
      apply Hs. intros u y Hu. by eapply kinv_room.
Qed.

Lemma is_min_nonneg s A C t x r :
  kinv s A -> minv None s C -> tcbs s !! t = Some x -> is_min (tcbs s) (b_prio x) (waits A C t) r -> 0 <= r.
Proof.
  intros HI HM Ht (_ & _ & [->|(u & (m & _ & Hu) & ->)]).
  - by destruct (mi_prio _ _ _ HM _ _ Ht) as [[? _] _].
  - apply (ki_mem _ _ HI) in Hu as (y & Hy & _). rewrite (prio_of_lookup _ _ _ Hy).
    by apply (ok_prio _ _ (ki_task _ _ HI _ _ Hy)).
Qed.

(** What a recomputation of priorities leaves. *)
Definition prio_post s A C (Q : unit -> kstate -> Prop) : Prop :=
  loop_post s A C (base_of (tcbs s)) (fun _ => Q tt).

Lemma prio_post_id s A C (Q : unit -> kstate -> Prop) :
  prio_post s A C Q -> kinv s A -> minv None s C -> pinv s A C -> Q tt s.
Proof.
  intros HQ HI HM HP. destruct s. apply (HQ lm rq tcbs A); try done. apply prio_only_refl.
Qed.

(** [mutex_release(task, NULL)]: recompute the priority of one owner. *)
Lemma wp_mutex_release_none s A C t x (Q : unit -> kstate -> Prop) :
  kinv s A -> minv None s C -> tcbs s !! t = Some x -> live (task_state x) = true ->
  b_prio x <> RHINO_IDLE_PRI -> (forall u, u <> t -> pinv_at s A C (base_of (tcbs s)) u) ->
  prio_post s A C Q -> wp (mutex_release t None) Q s.
Proof.
  intros HI HM Ht Hl Hb HP HQ. unfold mutex_release.
  apply wp_bind, (wp_mutex_pri_look_none None s A C t x); [done..|]. intros r Hr.
  apply wp_bind, (wp_task_get _ x); [done|].
  pose proof (is_min_nonneg _ _ _ _ _ _ HI HM Ht Hr) as Hr0.
  destruct (Z.eqb_spec r (prio x)) as [E|E]; simpl.
  - apply wp_ret. eapply prio_post_id; [done..|]. intros u.
    destruct (decide (u = t)) as [->|]; [|by apply HP]. eapply pinv_at_keep; [done|].
    rewrite (base_of_lookup _ _ _ Ht). by rewrite <- E.
  - apply wp_bind. eapply wp_task_pri_change; [done..|]. intros l' q' tc' A' s' HI' HR HM' HP' Ho.
    apply wp_ret. by apply (HQ l' q' tc' A').
Qed.

(** [t] was taken off the list of [o] but its block object is still set:
    the owner, which may have inherited its priority, is recomputed. *)
Lemma wp_mutex_task_pri_reset s A C t x o (Q : unit -> kstate -> Prop) :
  kinv s A -> minv None s C -> tcbs s !! t = Some x -> task_blk_obj x = Some o ->
  is_Some (blks (ob s) !! o) ->
  (is_mutex (ob s) o -> exists u, o ∈ C u /\ u <> t) ->
  (forall u, ~ o ∈ C u -> pinv_at s A C (base_of (tcbs s)) u) ->
  (forall u y, o ∈ C u -> tcbs s !! u = Some y -> live (task_state y) = true ->
     prio y <> prio x -> is_min (tcbs s) (b_prio y) (waits A C u) (prio y)) ->
  prio_post s A C Q -> wp (mutex_task_pri_reset t) Q s.
Proof.
  intros HI HM Ht Ho [b Hb] Hm HP Hown HQ. unfold mutex_task_pri_reset, blk_get, mutex_get.
  apply wp_bind, (wp_task_get _ x); [done|]. rewrite Ho. wsteps.
  case_bool_decide as Hty.
  - destruct Hm as (u & Hu & Hne); [by exists b|].
    pose proof (proj1 (mi_own _ _ _ HM _ _) Hu) as (_ & _ & v & Hv & Hvu).
    destruct (mi_owner _ _ _ HM _ _ Hu) as (y & Hy & Hl & Hbi).
    wsteps. apply (wp_task_get _ y); [done|].
    assert (HPo : forall w, w <> u -> pinv_at s A C (base_of (tcbs s)) w).
    { intros w Hw. apply HP. intros Hw'. apply Hw. exact (mi_unique None s C o w u HM Hw' Hu). }
    destruct (Z.eqb_spec (prio y) (prio x)) as [E|E]; simpl.
    + by eapply wp_mutex_release_none.
    + apply wp_ret. eapply prio_post_id; [done..|]. intros w.
      destruct (decide (w = u)) as [->|]; [|by apply HPo]. eapply pinv_at_keep; [done|].
      rewrite (base_of_lookup _ _ _ Hy). by apply (Hown u).
  - apply wp_ret. eapply prio_post_id; [done..|]. intros w. apply HP.
    intros (_ & (b' & Hb' & Hty') & _)%(mi_own _ _ _ HM). simplify_eq.
Qed.

(** [mutex_pri_limit]: the inherited priority for a new base priority. *)
Lemma wp_mutex_pri_limit h s A C t x p (Q : Z -> kstate -> Prop) :
  kinv s A -> minv h s C -> tcbs s !! t = Some x -> live (task_state x) = true ->
  (forall r, is_min (tcbs s) p (waits A C t) r -> Q r s) ->
  wp (mutex_pri_limit t p) Q s.
Proof.
  intros HI HM Ht Hl HQ. unfold mutex_pri_limit, mutex_fuel. apply wp_bind, (wp_task_get _ x); [done|]. wsteps.
  pose proof (mi_chain _ _ _ HM _ _ Ht Hl) as Hch. pose proof (minv_pri_lists _ _ _ t HM) as Hpl.
  pose proof (mchain_length _ _ _ Hch) as Hlen.
  assert (Hgen : forall ms fuel q pri new P, mchain (mutexes (ob s)) q ms -> pri_lists s ms -> (length ms <= fuel)%nat ->
    is_min (tcbs s) p P new -> (pri = p \/ exists u, P u /\ pri = prio_of (tcbs s) u) ->
    (forall r, is_min (tcbs s) p (fun u => P u \/ exists m, m ∈ ms /\ u ∈ A (LBlk m)) r -> Q r s) ->
    wp (mutex_pri_limit_loop fuel q pri new) Q s).
  { induction ms as [|m ms IH]; intros fuel q pri new P Hc Hpls Hf Hmin Hmem HQ'; simpl in Hc.
    - subst q. assert (mutex_pri_limit_loop fuel None pri new = ret new) as -> by by destruct fuel.
      apply wp_ret, HQ'. eapply is_min_ext; [done| |done]. set_solver.
    - destruct Hc as (-> & v & Hv & Hc). destruct fuel as [|fuel]; simpl in Hf; [lia|]. simpl.
      destruct (Hpls m) as (b & Hb & Hpol); [set_solver|].
      apply wp_bind, (wp_first_blk_pri s A m b); [done..|]. unfold mutex_get. wsteps.
      destruct (is_min_list _ _ _ _ _ _ Hmin Hmem (ki_sorted _ _ HI _ _ Hb Hpol)) as [Hmin' Hmem'].
      eapply IH; [exact Hc| |lia|exact Hmin'|exact Hmem'|].
      + intros n Hn. apply Hpls. set_solver.
      + intros r Hr. apply HQ'. eapply is_min_ext; [exact Hr| |done]. set_solver. }
  eapply (Hgen (C t) _ _ p p (fun _ => False)); [done..|lia|apply is_min_none; tauto|by left|].
  intros r Hr. apply HQ. eapply is_min_ext; [exact Hr| |done]. unfold waits. intros u. tauto.
Qed.
End Change.

(** ** Priority changes and the rest of the invariant *)

Section Reprio.
Implicit Types (s : kstate) (A : queues) (tc : gmap tid ktask_t) (u : tid) (y : ktask_t).

Lemma prio_only_some tc tc' u y : prio_only tc tc' -> tc !! u = Some y -> tc' !! u = Some (set_prio (prio_of tc' u) y).
Proof. intros H Hu. rewrite (H u), Hu. done. Qed.

Lemma prio_only_inv tc tc' u z : prio_only tc tc' -> tc' !! u = Some z -> exists y, tc !! u = Some y /\ z = set_prio (prio z) y.
Proof.
  intros H Hz. pose proof (H u) as E. rewrite Hz in E. destruct (tc !! u) as [y|]; [|done]. injection E as E.
  exists y. split; [done|]. by rewrite E at 1; rewrite (prio_of_lookup _ _ _ Hz).
Qed.

Lemma tick_pos_reprio l' q' tc' s A A' :
  tick_pos s A -> requeued A A' -> prio_only (tcbs s) tc' -> tick_pos (retask l' q' tc' s) A'.
Proof.
  intros HT [_ Et] Ho. eapply tick_pos_sub; [done|done|]. intros u Hu. rewrite Et in Hu. split; [done|]. simpl.
  rewrite (Ho u). by destruct (tcbs s !! u).
Qed.

Lemma obj_inv_reprio h l' q' tc' s A A' :
  obj_inv h s A -> requeued A A' -> prio_only (tcbs s) tc' -> obj_inv h (retask l' q' tc' s) A'.
Proof.
  intros HO [Hb _] Ho. eapply obj_inv_sub; [done|done| |].
  - intros o t. by rewrite Hb.
  - intros t z Hz. simpl in Hz. destruct (prio_only_inv _ _ _ _ Ho Hz) as (y & Hy & ->). by exists y.
Qed.

Lemma active_ready_reprio l' q' tc' s : active_ready s -> prio_only (tcbs s) tc' -> active_ready (retask l' q' tc' s).
Proof.
  intros (a & x & Ha & Hx & Hr) Ho. exists a, (set_prio (prio_of tc' a) x). split_and!; [done| |done].
  by apply (prio_only_some (tcbs s)).
Qed.
End Reprio.
