(* ===== verification/Tick.v ===== *)
(** * The tick (k_tick.c, k_time.c)

    The tick handler advances the clock, wakes the tasks that are due, and
    charges the running task's time slice.  The main result: a tick wakes
    exactly the tasks whose time is over, whatever they wait for, and keeps
    the kernel invariant, priority inheritance included. *)

From stdpp Require Import functions.
From S2P Require Import Prelude.
From S2P Require Import Monad.
From S2P Require Import Links.
From S2P Require Import KState.
From S2P Require Import Bitmap.
From S2P Require Import Sched.
From S2P Require Import Pend.
From S2P Require Import Inv.
From S2P Require Import MInv.
From S2P Require Import ObjInv.
From S2P Require Import Resched.
From S2P Require Import Block.
From S2P Require Import Prio.
From S2P Require Import PrioInv.

(** What the tick does to one expired task. *)
Definition tick_expire (p_tcb : tid) : M unit :=
  x <- task_get p_tcb ;;
  match task_state x with
  | K_SLEEP =>
      task_upd p_tcb (set_blk_state BLK_FINISH) ;;
      task_upd p_tcb (set_task_state K_RDY) ;;
      tick_list_rm p_tcb ;;
      ready_list_add p_tcb
  | K_PEND =>
      tick_list_rm p_tcb ;;
      klist_rm (NTask p_tcb) ;;
      ready_list_add p_tcb ;;
      task_upd p_tcb (set_blk_state BLK_TIMEOUT) ;;
      task_upd p_tcb (set_task_state K_RDY) ;;
      mutex_task_pri_reset p_tcb ;;
      task_upd p_tcb (set_task_blk_obj None)
  | K_PEND_SUSPENDED =>
      tick_list_rm p_tcb ;;
      klist_rm (NTask p_tcb) ;;
      task_upd p_tcb (set_blk_state BLK_TIMEOUT) ;;
      task_upd p_tcb (set_task_state K_SUSPENDED) ;;
      mutex_task_pri_reset p_tcb ;;
      task_upd p_tcb (set_task_blk_obj None)
  | K_SLEEP_SUSPENDED =>
      task_upd p_tcb (set_task_state K_SUSPENDED) ;;
      task_upd p_tcb (set_blk_state BLK_FINISH) ;;
      tick_list_rm p_tcb
  | _ => k_err_proc RHINO_SYS_FATAL_ERR
  end.

(** The loop over the sorted tick list stops at the first task whose
    deadline is in the future. *)
Fixpoint tick_list_update_loop (fuel : nat) (iter : knode) : M unit :=
  match fuel with
  | O => fault
  | S n =>
      if bool_decide (iter = NTickHead) then ret tt
      else
        iter_temp <- get_next iter ;;
        p_tcb <- tick_task_of iter ;;
        x <- task_get p_tcb ;;
        g <- gets gl ;;
        let delta := i64 (i64 (tick_match x) - i64 (g_tick_count g)) in
        if delta <=? 0 then
          tick_expire p_tcb ;;
          tick_list_update_loop n iter_temp
        else ret tt
  end.

Definition tick_list_update (ticks : Z) : M unit :=
  psr <- critical_enter ;;
  mod_gl (fun g => set_g_tick_count (u64 (g_tick_count g + ticks)) g) ;;
  iter <- get_next NTickHead ;;
  fuel <- list_fuel ;;
  tick_list_update_loop fuel iter ;;
  critical_exit psr.

Definition krhino_tick_proc : M unit :=
  tick_list_update 1 ;;
  time_slice_update.

Definition krhino_sys_tick_get : M Z :=
  psr <- cpu_intrpt_save ;;
  g <- gets gl ;;
  cpu_intrpt_restore psr ;;
  ret (g_tick_count g).

(** [n] ticks of the system clock. *)
Fixpoint run_ticks (n : nat) : M unit :=
  match n with O => ret tt | S k => tick_list_update 1 ;; run_ticks k end.

(** ** A task whose time is over *)

(** A sleeping task that wakes up. *)
Definition awoken (x : ktask_t) : ktask_t :=
  set_blk_state BLK_FINISH (set_tick_head None
    (set_task_state (match task_state x with K_SLEEP => K_RDY | _ => K_SUSPENDED end) x)).

Definition expired (x : ktask_t) : ktask_t :=
  if pended (task_state x) then unblocked BLK_TIMEOUT x else awoken x.

(** The invariant while due tasks may still be on the tick list. *)
Record kpre (s : kstate) (A : queues) : Prop := mkKpre {
  kp_inv : kinv s A;
  kp_gl : gl_ok (gl s);
  kp_mutex : mutex_inv s A;
  kp_obj : obj_inv None s A;
}.

Section Expire.
Implicit Types (s : kstate) (A : queues) (t : tid) (x y : ktask_t) (o : oid).

(** The queues after a sleeping task woke up. *)
Definition awake_queues (p_act : Z) t x A : queues :=
  <[LTick := lrm t (A LTick)]>
    (if bool_decide (task_state x = K_SLEEP) then
       <[LReady (prio x) := add_pos (prio x) p_act t (A (LReady (prio x)))]> A
     else A).

Lemma awake_queues_blk p t x A o : awake_queues p t x A (LBlk o) = A (LBlk o).
Proof. unfold awake_queues. case_bool_decide; qcases. Qed.

Lemma awake_queues_tick p t x A : awake_queues p t x A LTick = lrm t (A LTick).
Proof. unfold awake_queues. qcases. Qed.

Lemma awake_kinv s A t x l' q' :
  kinv s A -> tcbs s !! t = Some x -> sleeping (task_state x) = true ->
  srep l' q' (blks (ob s)) (awake_queues (active_prio s) t x A) ->
  kinv (retask l' q' (<[t := awoken x]> (tcbs s)) s) (awake_queues (active_prio s) t x A).
Proof.
  intros HI Ht Hs Hrep. pose proof (ki_task _ _ HI _ _ Ht) as [K1 K2 K3 K4].
  assert (Hin : forall i, t ∈ A i <-> in_list x i) by (intros; by apply (kinv_in s)).
  apply (kinv_update s A); [done|by eexists|done| | | | | |].
  - intros u i Hu. unfold awake_queues. case_bool_decide; qcases; rewrite ?elem_of_lrm, ?elem_of_add_pos; naive_solver.
  - intros i. unfold awake_queues. destruct i as [p|o|]; simpl.
    + case_bool_decide as E; qcases; rewrite ?elem_of_add_pos, ?Hin; simpl; rewrite ?E; [naive_solver|naive_solver|].
      destruct (task_state x); naive_solver.
    + case_bool_decide; qcases; rewrite Hin; simpl; destruct (task_state x); naive_solver.
    + qcases. rewrite elem_of_lrm. naive_solver.
  - split; simpl; [done| |done|]; by destruct (task_state x).
  - intros o b Ho Hb. eapply prio_sorted_same_prio; [done..|]. rewrite awake_queues_blk. by eapply ki_sorted.
  - eapply tick_sorted_same_match; [done..|]. rewrite awake_queues_tick. apply tick_sorted_lrm, HI.
  - pose proof (ki_idle _ _ HI). unfold awake_queues. case_bool_decide; qcases. apply add_pos_nonempty.
Qed.

(** Both lists of a task are left at once: ring facts. *)
Lemma lrm_tick_rings s A t x l' :
  kinv s A -> tcbs s !! t = Some x -> rings l' (nodes (blks (ob s)) (<[LTick := lrm t (A LTick)]> A)) ->
  srep l' (rq s) (blks (ob s)) (<[LTick := lrm t (A LTick)]> A).
Proof.
  intros HI Ht Hr. split; [done|]. eapply rq_rep_ext; [apply HI|]. intros p. by rewrite q_insert, decide_False.
Qed.

Lemma kpre_awoken l' q' s A t x :
  kpre s A -> tcbs s !! t = Some x -> sleeping (task_state x) = true ->
  srep l' q' (blks (ob s)) (awake_queues (active_prio s) t x A) ->
  kpre (retask l' q' (<[t := awoken x]> (tcbs s)) s) (awake_queues (active_prio s) t x A).
Proof.
  intros [HI HG HM HO] Ht Hs Hrep. split; [by apply awake_kinv|done| |].
  - eapply mutex_inv_task; [done..| |].
    + split; simpl; try done; [by destruct (task_state x)|intros _ E; by rewrite E in Hs|].
      intros m Hp. exfalso. by destruct (task_state x).
    + intros m u _. by rewrite awake_queues_blk.
  - eapply obj_inv_sub; [done|done| |].
    + intros o u. by rewrite awake_queues_blk.
    + intros u z. simpl. by eapply same_request_insert.
Qed.

Lemma wp_expire_sleep s A t x (Q : unit -> kstate -> Prop) :
  kpre s A -> tcbs s !! t = Some x -> sleeping (task_state x) = true ->
  (forall l' q', kpre (retask l' q' (<[t := awoken x]> (tcbs s)) s) (awake_queues (active_prio s) t x A) ->
     Q tt (retask l' q' (<[t := awoken x]> (tcbs s)) s)) ->
  wp (tick_expire t) Q s.
Proof.
  intros HK Ht Hs HQ. pose proof (kp_inv _ _ HK) as HI. unfold tick_expire. apply wp_bind, (wp_task_get _ x); [done|].
  pose proof (ki_task _ _ HI _ _ Ht) as [K1 K2 K3 K4].
  assert (HtT : t ∈ A LTick) by (apply (kinv_in _ _ _ _ LTick HI Ht); simpl; auto).
  destruct (ki_active _ _ HI) as (c & y & Hc & Hy).
  destruct (task_state x) eqn:Es; try done.
  - apply wp_bind, (wp_task_upd _ x); [done|]. apply wp_bind. eapply wp_task_upd; [simpl; by rewrite lookup_insert_eq|].
    apply wp_bind. eapply (wp_tick_list_rm (blks (ob s)) A t); [apply HI|simpl; by rewrite lookup_insert_eq|simpl; naive_solver|].
    intros l1 Hl1. unfold with_ltc, with_tc. simpl. rewrite !insert_insert_eq.
    assert (Hy' : exists y', <[t := awoken x]> (tcbs s) !! c = Some y' /\ prio y' = prio y).
    { destruct (decide (c = t)) as [->|]; [exists (awoken x)|exists y]; simplify_map_eq; done. }
    destruct Hy' as (y' & Hy' & Epy).
    assert (Eaw : awoken x = set_tick_head None (set_task_state K_RDY (set_blk_state BLK_FINISH x))) by (unfold awoken; by rewrite Es).
    rewrite Eaw in *.
    eapply (wp_ready_list_add (blks (ob s)) (<[LTick := lrm t (A LTick)]> A) t _ c y'); simpl;
      [by eapply lrm_tick_rings|by rewrite lookup_insert_eq|done|done|done| |].
    + intros j Hj. rewrite q_insert, decide_False by (intros <-; done). rewrite (kinv_in _ _ _ _ j HI Ht).
      destruct j; simpl; rewrite ?Es; [naive_solver..|done].
    + intros l2 q2. simpl. rewrite q_insert, decide_False by done. rewrite Epy, <- (active_prio_eq s c y) by done. intros Hs2.
      apply (HQ l2 q2). rewrite <- Eaw. apply kpre_awoken; [done|done|by rewrite Es|].
      unfold awake_queues. rewrite Es, bool_decide_true by done. eapply srep_ext; [exact Hs2|]. intros i. qcases.
  - apply wp_bind, (wp_task_upd _ x); [done|]. apply wp_bind. eapply wp_task_upd; [simpl; by rewrite lookup_insert_eq|].
    eapply (wp_tick_list_rm (blks (ob s)) A t); [apply HI|simpl; by rewrite lookup_insert_eq|simpl; naive_solver|].
    intros l1 Hl1. unfold with_ltc, with_tc. simpl. rewrite !insert_insert_eq.
    assert (Eaw : awoken x = set_tick_head None (set_blk_state BLK_FINISH (set_task_state K_SUSPENDED x))) by (unfold awoken; by rewrite Es).
    rewrite <- Eaw. apply (HQ l1 (rq s)). apply kpre_awoken; [done|done|by rewrite Es|].
    unfold awake_queues. rewrite Es, bool_decide_false by done. by eapply lrm_tick_rings.
Qed.
End Expire.

Section ExpirePend.
Implicit Types (s : kstate) (A : queues) (C : tid -> list oid) (t u : tid) (x y : ktask_t) (o : oid).

(** A task that is not blocked may keep or drop its block object. *)
Lemma kinv_blk_obj s A t x ob' :
  kinv s A -> tcbs s !! t = Some x -> pended (task_state x) = false ->
  kinv (with_tc (<[t := set_task_blk_obj ob' x]> (tcbs s)) s) A.
Proof.
  intros HI Ht Hp. apply (kinv_update s A); try done.
  - apply HI.
  - intros i. rewrite (kinv_in _ _ _ _ _ HI Ht). destruct i; simpl; rewrite ?Hp; naive_solver.
  - destruct (ki_task _ _ HI _ _ Ht) as [K1 K2 K3 K4]. split; simpl; try done. by rewrite Hp.
  - intros o b Ho Hb. eapply prio_sorted_same_prio; [done..|]. by eapply ki_sorted.
  - eapply tick_sorted_same_match; [done..|]. apply HI.
  - apply HI.
Qed.

Lemma is_min_remove tc tc' b (P P' : tid -> Prop) p t :
  is_min tc b P p -> p <> prio_of tc t -> (forall u, P' u <-> P u /\ u <> t) ->
  (forall u, prio_of tc' u = prio_of tc u) -> is_min tc' b P' p.
Proof.
  intros (H1 & H2 & H3) Hne HP Hp. split_and!; [done| |].
  - intros u [Hu _]%HP. rewrite Hp. by apply H2.
  - destruct H3 as [->|(u & Hu & E)]; [by left|right]. exists u. rewrite HP, Hp. split; [|done]. split; [done|]. by intros ->.
Qed.

(** The task is off both lists; its block object is still set. *)
Definition timed_out x : ktask_t := set_task_blk_obj (task_blk_obj x) (unblocked BLK_TIMEOUT x).

Lemma timed_out_kinv s A t x o l' q' :
  kinv s A -> tcbs s !! t = Some x -> pended (task_state x) = true -> task_blk_obj x = Some o ->
  srep l' q' (blks (ob s)) (unblock_queues (active_prio s) t x o A) ->
  kinv (retask l' q' (<[t := timed_out x]> (tcbs s)) s) (unblock_queues (active_prio s) t x o A).
Proof.
  intros HI Ht Hp Ho Hrep. pose proof (unblock_kinv s A t x o BLK_TIMEOUT l' q' HI Ht Hp Ho Hrep) as HI1.
  eapply (kinv_blk_obj _ _ t (unblocked BLK_TIMEOUT x) (task_blk_obj x)) in HI1.
  - unfold with_tc in HI1. simpl in HI1. rewrite insert_insert_eq in HI1. exact HI1.
  - simpl. by rewrite lookup_insert_eq.
  - simpl. by destruct (task_state x).
Qed.

(** Taking the task off its lists, in the order of the tick handler. *)
Lemma wp_timed_out s A t x o (Q : unit -> kstate -> Prop) :
  kinv s A -> tcbs s !! t = Some x -> pended (task_state x) = true -> task_blk_obj x = Some o ->
  (forall l' q', kinv (retask l' q' (<[t := timed_out x]> (tcbs s)) s) (unblock_queues (active_prio s) t x o A) ->
     wp (mutex_task_pri_reset t ;; task_upd t (set_task_blk_obj None)) Q (retask l' q' (<[t := timed_out x]> (tcbs s)) s)) ->
  wp (tick_expire t) Q s.
Proof.
  intros HI Ht Hp Ho HQ. unfold tick_expire. apply wp_bind, (wp_task_get _ x); [done|].
  destruct (ki_active _ _ HI) as (c & y & Hc & Hy).
  assert (Hrm : forall (R : unit -> kstate -> Prop),
    (forall l2, srep l2 (rq s) (blks (ob s)) (<[LBlk o := lrm t (A (LBlk o))]> (<[LTick := lrm t (A LTick)]> A)) ->
       R tt (retask l2 (rq s) (<[t := set_tick_head None x]> (tcbs s)) s)) ->
    wp (tick_list_rm t ;; klist_rm (NTask t)) R s).
  { intros R HR. apply wp_bind. eapply (wp_tick_list_rm (blks (ob s)) A t x); [apply HI|done|by apply (kinv_in s A t x LTick)|].
    intros l1 Hl1. destruct (kinv_split _ _ _ _ (LBlk o) HI Ht) as (a & b & Hab & Hl); [by split|].
    apply (wp_task_rm (blks (ob s)) (<[LTick := lrm t (A LTick)]> A) (LBlk o) a t b); [done|by rewrite q_insert, decide_False|].
    intros l2 Hl2. rewrite <- Hl in Hl2. apply HR. split; [done|].
    eapply rq_rep_ext; [apply HI|]. intros p. by rewrite !q_insert, !decide_False. }
  destruct (task_state x) eqn:Es; try done.
  - apply wp_assoc, wp_bind, Hrm. intros l2 Hs2.
    assert (exists y', <[t := set_tick_head None x]> (tcbs s) !! c = Some y' /\ prio y' = prio y) as (y' & Hy' & Epy).
    { destruct (decide (c = t)) as [->|]; [exists (set_tick_head None x)|exists y]; simplify_map_eq; done. }
    apply wp_bind. eapply (wp_ready_list_add (blks (ob s)) _ t _ c y'); simpl;
      [exact Hs2|by rewrite lookup_insert_eq|exact (ok_prio _ _ (ki_task _ _ HI _ _ Ht))|done|done| |].
    + intros j Hj. rewrite !q_insert. repeat case_decide; subst; try done; [rewrite elem_of_lrm; naive_solver|].
      rewrite (kinv_in _ _ _ _ j HI Ht). destruct j; simpl; rewrite ?Es, ?Ho; naive_solver.
    + intros l3 q3 Hs3. apply wp_bind. eapply wp_task_upd; [simpl; by rewrite lookup_insert_eq|].
      apply wp_bind. eapply wp_task_upd; [simpl; by rewrite lookup_insert_eq|].
      unfold with_tc. simpl. rewrite !insert_insert_eq.
      assert (timed_out x = set_task_state K_RDY (set_blk_state BLK_TIMEOUT (set_tick_head None x))) as Et.
      { unfold timed_out, unblocked. rewrite Es. by destruct x. }
      rewrite <- Et. apply (HQ l3 q3). apply timed_out_kinv; [done|done|by rewrite Es|done|].
      rewrite !q_insert, !decide_False in Hs3 by done. rewrite Epy, <- (active_prio_eq s c y) in Hs3 by done.
      eapply srep_ext; [exact Hs3|]. intros i. unfold unblock_queues. rewrite Es, bool_decide_true by done. qcases.
  - apply wp_assoc, wp_bind, Hrm. intros l2 Hs2. apply wp_bind. eapply wp_task_upd; [simpl; by rewrite lookup_insert_eq|].
    apply wp_bind. eapply wp_task_upd; [simpl; by rewrite lookup_insert_eq|].
    unfold with_tc. simpl. rewrite !insert_insert_eq.
    assert (timed_out x = set_task_state K_SUSPENDED (set_blk_state BLK_TIMEOUT (set_tick_head None x))) as Et.
    { unfold timed_out, unblocked. rewrite Es. by destruct x. }
    rewrite <- Et. apply (HQ l2 (rq s)). apply timed_out_kinv; [done|done|by rewrite Es|done|].
    eapply srep_ext; [exact Hs2|]. intros i. unfold unblock_queues. rewrite Es, bool_decide_false by done. qcases.
Qed.
End ExpirePend.

Section ExpirePend2.
Implicit Types (s : kstate) (A : queues) (C : tid -> list oid) (t u : tid) (x y : ktask_t) (o : oid).

Lemma timed_out_mutex_same (os : kobjs) x : pended (task_state x) = true -> mutex_same os x (timed_out x).
Proof.
  intros Hp. split; simpl; try done; by destruct (task_state x).
Qed.

Lemma waits_timed_out s A C t x o u w :
  kinv s A -> tcbs s !! t = Some x -> task_blk_obj x = Some o ->
  waits (unblock_queues (active_prio s) t x o A) C u w <-> waits A C u w /\ ~ (w = t /\ o ∈ C u).
Proof.
  intros HI Ht Ho. unfold waits. split.
  - intros (m & Hm & Hw). destruct (decide (m = o)) as [->|Hne].
    + rewrite unblock_queues_blk, elem_of_lrm in Hw. naive_solver.
    + rewrite unblock_queues_other in Hw by done. split; [eauto|]. intros [-> _].
      apply (kinv_in _ _ _ _ (LBlk m) HI Ht) in Hw as [_ E]. congruence.
  - intros ((m & Hm & Hw) & Hn). exists m. split; [done|]. destruct (decide (m = o)) as [->|Hne].
    + rewrite unblock_queues_blk, elem_of_lrm. naive_solver.
    + by rewrite unblock_queues_other.
Qed.

(** The owner of the mutex is recomputed after the waiter left. *)
Lemma wp_timeout_reset l' q' s A C t x o (Q : unit -> kstate -> Prop) :
  let s1 := retask l' q' (<[t := timed_out x]> (tcbs s)) s in
  let A1 := unblock_queues (active_prio s) t x o A in
  kinv s A -> minv None s C -> pinv s A C -> tcbs s !! t = Some x -> pended (task_state x) = true ->
  task_blk_obj x = Some o -> kinv s1 A1 -> minv None s1 C -> prio_post s1 A1 C Q ->
  wp (mutex_task_pri_reset t) Q s1.
Proof.
  intros s1 A1 HI HM HP Ht Hp Ho HI1 HM1 HQ.
  assert (Ht1 : tcbs s1 !! t = Some (timed_out x)) by (simpl; by rewrite lookup_insert_eq).
  destruct (ok_blk _ _ (ki_task _ _ HI _ _ Ht) Hp) as (o' & Ho' & Hs). simplify_eq.
  assert (Hpr : forall u, prio_of (tcbs s1) u = prio_of (tcbs s) u).
  { intros u. unfold prio_of. simpl. destruct (decide (u = t)) as [->|]; simplify_map_eq; done. }
  assert (Hba : forall u, base_of (tcbs s1) u = base_of (tcbs s) u) by (intros; by eapply base_of_insert).
  assert (Hlk : forall u y, tcbs s1 !! u = Some y -> live (task_state y) = true ->
    exists y', tcbs s !! u = Some y' /\ live (task_state y') = true /\ prio y' = prio y /\ b_prio y' = b_prio y).
  { intros u y Hy Hl. simpl in Hy. destruct (decide (u = t)) as [->|]; simplify_map_eq; [|by exists y].
    exists x. split_and!; try done. by destruct (task_state x). }
  eapply (wp_mutex_task_pri_reset s1 A1 C t (timed_out x) o); [done..| | | |done].
  - intros Hm. destruct (mi_wait _ _ _ HM t x o Ht Hp Ho Hm) as (u & Hu & Hne); [done|]. by exists u.
  - intros u Hu y Hy Hl. destruct (Hlk u y Hy Hl) as (y' & Hy' & Hl' & <- & _). rewrite Hba.
    eapply is_min_ext; [by apply (HP u)| |by intros]. intros w. unfold A1. rewrite (waits_timed_out s A C t x o) by done. naive_solver.
  - intros u y Hu Hy Hl Hne. destruct (Hlk u y Hy Hl) as (y' & Hy' & Hl' & Ep & Eb).
    pose proof (HP u y' Hy' Hl') as Hmin. rewrite (base_of_lookup _ _ _ Hy'), Eb, Ep in Hmin.
    eapply (is_min_remove (tcbs s) _ _ _ _ _ t); [exact Hmin| | |done].
    + rewrite (prio_of_lookup _ _ _ Ht). exact Hne.
    + intros w. unfold A1. rewrite (waits_timed_out s A C t x o) by done. naive_solver.
Qed.

Lemma wp_expire_pend s A t x o (Q : unit -> kstate -> Prop) :
  kpre s A -> tcbs s !! t = Some x -> pended (task_state x) = true -> task_blk_obj x = Some o ->
  (forall l' q' tc' A', kpre (retask l' q' tc' s) A' -> prio_only (<[t := unblocked BLK_TIMEOUT x]> (tcbs s)) tc' ->
     A' LTick = lrm t (A LTick) -> (forall o', A' (LBlk o') ≡ₚ lrm t (A (LBlk o'))) -> Q tt (retask l' q' tc' s)) ->
  wp (tick_expire t) Q s.
Proof.
  intros [HI HG (C & HM & HP) HO] Ht Hp Ho HQ. apply (wp_timed_out s A t x o); [done..|].
  intros l1 q1 HI1. set (s1 := retask l1 q1 (<[t := timed_out x]> (tcbs s)) s) in *.
  assert (HM1 : minv None s1 C) by (eapply (minv_task None l1 q1); [done..|by apply timed_out_mutex_same]).
  apply wp_bind. eapply (wp_timeout_reset l1 q1 s A C t x o); [done..|].
  intros l2 q2 tc2 A2 s2 HI2 [Hrq Htk] HM2 HP2 Hpo. fold s1 in HP2, Hpo.
  assert (Ht2 : tc2 !! t = Some (set_prio (prio_of tc2 t) (timed_out x))).
  { apply (prio_only_some (tcbs s1)); [done|]. simpl. by rewrite lookup_insert_eq. }
  assert (Hnp : pended (task_state (timed_out x)) = false) by (simpl; by destruct (task_state x)).
  eapply wp_task_upd; [exact Ht2|].
  set (x3 := set_task_blk_obj None (set_prio (prio_of tc2 t) (timed_out x))).
  apply (HQ l2 q2 (<[t := x3]> tc2) A2).
  - split; [|done| |].
    + apply (kinv_blk_obj s2 A2 t _ None HI2 Ht2 Hnp).
    + exists C. assert (Hms : mutex_same (ob s2) (set_prio (prio_of tc2 t) (timed_out x)) x3).
      { split; [reflexivity..|tauto|]. intros m E. change (pended (task_state (timed_out x)) = true) in E. congruence. }
      split; [exact (minv_task None l2 q2 _ _ s2 C t _ x3 HM2 Ht2 Hms)|].
      eapply (pinv_task None l2 q2 _ _ s2 A2 A2 C t _ x3 HM2); [|exact Ht2|exact Hms|done].
      intros u y Hy Hl. simpl. assert (base_of tc2 u = base_of (tcbs s1) u) as ->; [|by apply HP2].
      unfold base_of. rewrite (Hpo u). by destruct (tcbs s1 !! u).
    + eapply (obj_inv_sub None s); [done|done| |].
      * intros o' u. rewrite Hrq. apply unblock_queues_sub.
      * intros u z Hz. simpl in Hz. destruct (decide (u = t)) as [->|].
        -- rewrite lookup_insert_eq in Hz. injection Hz as <-. by exists x.
        -- rewrite lookup_insert_ne in Hz by done. destruct (prio_only_inv _ _ _ _ Hpo Hz) as (y & Hy & ->).
           simpl in Hy. rewrite lookup_insert_ne in Hy by done. by exists y.
  - intros u. destruct (decide (u = t)) as [->|].
    + unfold prio_of. rewrite !lookup_insert_eq. done.
    + rewrite !lookup_insert_ne, prio_of_insert_ne by done. rewrite (Hpo u). simpl. by rewrite lookup_insert_ne.
  - by rewrite Htk, unblock_queues_tick.
  - intros o'. rewrite Hrq. destruct (decide (o' = o)) as [->|]; [by rewrite unblock_queues_blk|].
    rewrite unblock_queues_other by done. rewrite lrm_id; [done|]. rewrite (kinv_in _ _ _ _ (LBlk o') HI Ht). simpl. naive_solver.
Qed.
End ExpirePend2.

(** ** The tick handler *)

Definition expire_all (ts : list tid) (tc : gmap tid ktask_t) : gmap tid ktask_t :=
  foldl (fun m t => alter expired t m) tc ts.

Section TickLoop.
Implicit Types (s : kstate) (A : queues) (t u : tid) (x y : ktask_t) (ts : list tid) (tc : gmap tid ktask_t).

Lemma expired_set_prio p x : expired (set_prio p x) = set_prio p (expired x).
Proof. unfold expired. simpl. by destruct (pended _). Qed.

Lemma prio_expired x : prio (expired x) = prio x.
Proof. unfold expired. by destruct (pended _). Qed.

Lemma match_expired x : tick_match (expired x) = tick_match x.
Proof. unfold expired. by destruct (pended _). Qed.

Lemma prio_only_trans tc tc1 tc2 : prio_only tc tc1 -> prio_only tc1 tc2 -> prio_only tc tc2.
Proof. intros H1 H2 u. rewrite (H2 u) at 1. rewrite (H1 u). by destruct (tc !! u). Qed.

Lemma prio_of_alter tc t u : prio_of (alter expired t tc) u = prio_of tc u.
Proof.
  unfold prio_of. destruct (decide (u = t)) as [->|].
  - rewrite lookup_alter_eq. destruct (tc !! t) as [x|]; [|done]. simpl. apply prio_expired.
  - by rewrite lookup_alter_ne.
Qed.

Lemma prio_only_alter tc tc' t : prio_only tc tc' -> prio_only (alter expired t tc) (alter expired t tc').
Proof.
  intros H u. rewrite prio_of_alter. destruct (decide (u = t)) as [->|].
  - rewrite !lookup_alter_eq. rewrite (H t) at 1. destruct (tc !! t) as [x|]; [|done]. simpl. f_equal. apply expired_set_prio.
  - rewrite !lookup_alter_ne by done. apply H.
Qed.

Lemma prio_only_expire_all ts tc tc' : prio_only tc tc' -> prio_only (expire_all ts tc) (expire_all ts tc').
Proof. revert tc tc'. induction ts as [|t ts IH]; intros tc tc' H; simpl; [done|]. by apply IH, prio_only_alter. Qed.

Lemma tick_rest_expired g tc tc' t u : prio_only (alter expired t tc) tc' -> tick_rest g tc' u = tick_rest g tc u.
Proof.
  intros H. unfold tick_rest. do 2 f_equal. rewrite (H u). destruct (decide (u = t)) as [->|].
  - rewrite lookup_alter_eq. destruct (tc !! t) as [x|]; [|done]. simpl. apply match_expired.
  - rewrite lookup_alter_ne by done. by destruct (tc !! u).
Qed.

Lemma wp_tick_expire s A t (Q : unit -> kstate -> Prop) :
  kpre s A -> t ∈ A LTick ->
  (forall l' q' tc' A', kpre (retask l' q' tc' s) A' -> prio_only (alter expired t (tcbs s)) tc' ->
     A' LTick = lrm t (A LTick) -> (forall o, A' (LBlk o) ≡ₚ lrm t (A (LBlk o))) -> Q tt (retask l' q' tc' s)) ->
  wp (tick_expire t) Q s.
Proof.
  intros HK Ht HQ. pose proof (kp_inv _ _ HK) as HI. apply (ki_mem _ _ HI) in Ht as (x & Hx & Hh). simpl in Hh.
  pose proof (ki_task _ _ HI _ _ Hx) as [K1 K2 K3 K4].
  assert (Ealt : alter expired t (tcbs s) = <[t := expired x]> (tcbs s)) by by apply alter_insert_some.
  rewrite Ealt in HQ. destruct (pended (task_state x)) eqn:Ep.
  - destruct (K2 eq_refl) as (o & Ho & _). unfold expired in HQ. rewrite Ep in HQ. by apply (wp_expire_pend s A t x o).
  - destruct (K3 Hh) as [?|Hs]; [done|]. unfold expired in HQ. rewrite Ep in HQ.
    apply (wp_expire_sleep s A t x); [done..|]. intros l' q' HK'. eapply HQ; [exact HK'|apply prio_only_refl| |].
    + apply awake_queues_tick.
    + intros o. rewrite awake_queues_blk, lrm_id; [done|]. rewrite (kinv_in _ _ _ _ (LBlk o) HI Hx). simpl. rewrite Ep. naive_solver.
Qed.

(** The signed comparison of the handler. *)
Lemma due_test g tc t x :
  tc !! t = Some x -> tick_rest g tc t < 2 ^ 63 ->
  (i64 (i64 (tick_match x) - i64 (g_tick_count g)) <=? 0) = (tick_rest g tc t =? 0).
Proof.
  intros Ht Hr. unfold tick_rest in *. rewrite Ht in *. simpl in *. rewrite sign_sub by lia.
  rewrite sign_small by done. pose proof (wrap_range 64 (tick_match x - g_tick_count g) ltac:(lia)).
  destruct (Z.leb_spec (u64 (tick_match x - g_tick_count g)) 0), (Z.eqb_spec (u64 (tick_match x - g_tick_count g)) 0); lia.
Qed.

Definition due g tc ts : list tid := filter (fun u => tick_rest g tc u = 0) ts.
Definition pending g tc ts : list tid := filter (fun u => tick_rest g tc u <> 0) ts.

Lemma list_filter_iff' (P P' : tid -> Prop) `{forall u, Decision (P u), forall u, Decision (P' u)} ts :
  (forall u, u ∈ ts -> P u <-> P' u) -> filter P ts = filter P' ts.
Proof.
  induction ts as [|t ts IH]; intros He; [done|]. rewrite !filter_cons, IH by (intros; apply He; set_solver).
  assert (P t <-> P' t) by (apply He; set_solver). repeat case_decide; tauto.
Qed.

Lemma due_ext g tc tc' ts : (forall u, tick_rest g tc' u = tick_rest g tc u) -> due g tc' ts = due g tc ts.
Proof. intros H. apply list_filter_iff. intros u. by rewrite H. Qed.

Lemma pending_ext g tc tc' ts : (forall u, tick_rest g tc' u = tick_rest g tc u) -> pending g tc' ts = pending g tc ts.
Proof. intros H. apply list_filter_iff. intros u. by rewrite H. Qed.

Lemma due_none g tc ts : (forall u, u ∈ ts -> tick_rest g tc u <> 0) -> due g tc ts = [] /\ pending g tc ts = ts.
Proof.
  unfold due, pending. induction ts as [|t ts IH]; intros Hn; [done|].
  destruct IH as [E1 E2]; [intros; apply Hn; set_solver|].
  rewrite filter_cons_False, filter_cons_True by (apply Hn; set_solver). by rewrite E1, E2.
Qed.

Lemma wp_tick_loop ts fuel s A (Q : unit -> kstate -> Prop) :
  kpre s A -> A LTick = ts -> (length ts < fuel)%nat ->
  (forall l' q' tc' A', kpre (retask l' q' tc' s) A' ->
     prio_only (expire_all (due (gl s) (tcbs s) ts) (tcbs s)) tc' ->
     A' LTick = pending (gl s) (tcbs s) ts -> (forall o u, u ∈ A' (LBlk o) -> u ∈ A (LBlk o)) ->
     Q tt (retask l' q' tc' s)) ->
  wp (tick_list_update_loop fuel (hd NTickHead (NTick <$> ts))) Q s.
Proof.
  revert fuel s A. induction ts as [|t ts IH]; intros fuel s A HK HA Hf HQ;
    (destruct fuel as [|fuel]; simpl in Hf; [lia|]); simpl.
  - apply wp_ret. destruct s. apply (HQ lm rq tcbs A); [done|apply prio_only_refl|done|done].
  - pose proof (kp_inv _ _ HK) as HI.
    apply wp_bind, (wp_get_next (nodes (blks (ob s)) A) LTick [NTickHead] (NTick t) (NTick <$> ts)).
    { apply HI. } { unfold nodes. by rewrite HA. }
    assert (hd (NTick t) ((NTick <$> ts) ++ [NTickHead]) = hd NTickHead (NTick <$> ts)) as -> by by destruct ts.
    wsteps. assert (Ht : t ∈ A LTick) by (rewrite HA; set_solver).
    pose proof (kinv_dom s A LTick t HI Ht) as [x Hx]. apply (wp_task_get _ x); [done|]. wsteps.
    pose proof (ki_tick _ _ HI) as [Hso Hlt]. rewrite HA in Hso, Hlt.
    apply StronglySorted_inv in Hso as [_ Hge]. apply Forall_cons in Hlt as [Hlt _].
    rewrite (due_test _ _ _ _ Hx Hlt).
    destruct (Z.eqb_spec (tick_rest (gl s) (tcbs s) t) 0) as [E|E].
    + assert (due (gl s) (tcbs s) (t :: ts) = t :: due (gl s) (tcbs s) ts) as Ed by (unfold due; by rewrite filter_cons_True).
      assert (pending (gl s) (tcbs s) (t :: ts) = pending (gl s) (tcbs s) ts) as Ep by (unfold pending; rewrite filter_cons_False; [done|tauto]).
      rewrite Ed, Ep in HQ. apply wp_bind, (wp_tick_expire s A t); [done..|].
      intros l1 q1 tc1 A1 HK1 Hpo HA1 Hb1.
      assert (Hr : forall u, tick_rest (gl s) tc1 u = tick_rest (gl s) (tcbs s) u) by (intros; by eapply tick_rest_expired).
      apply (IH fuel (retask l1 q1 tc1 s) A1 HK1).
      * rewrite HA1, HA. apply (lrm_split t [] ts). simpl. rewrite <- HA. by eapply kinv_nodup.
      * lia.
      * intros l2 q2 tc2 A2 HK2 Hpo2 HA2 Hb2. simpl in Hpo2, HA2. rewrite (due_ext _ _ _ _ Hr) in Hpo2. rewrite (pending_ext _ _ _ _ Hr) in HA2.
        apply (HQ l2 q2 tc2 A2); [done| |done|].
        -- simpl. eapply prio_only_trans; [|exact Hpo2]. by apply prio_only_expire_all.
        -- intros o u Hu. apply Hb2 in Hu. rewrite Hb1, elem_of_lrm in Hu. tauto.
    + apply wp_ret. pose proof (wrap_range 64 (default 0 (tick_match <$> tcbs s !! t) - g_tick_count (gl s)) ltac:(lia)) as Hw.
      fold (tick_rest (gl s) (tcbs s) t) in Hw.
      assert (Hall : forall u, u ∈ t :: ts -> tick_rest (gl s) (tcbs s) u <> 0).
      { intros u [->|Hu]%elem_of_cons; [done|]. pose proof (proj1 (Forall_forall _ _) Hge u Hu). simpl in *. lia. }
      destruct (due_none _ _ _ Hall) as [Ed Ep].
      rewrite Ed, Ep in HQ. destruct s. apply (HQ lm rq tcbs A); [done|apply prio_only_refl|done|done].
Qed.
End TickLoop.

Section TickUpdate.
Implicit Types (s : kstate) (A : queues) (t u : tid) (x y : ktask_t) (ts : list tid) (tc : gmap tid ktask_t).

Definition ticked (g : kglob) : kglob := set_g_tick_count (u64 (g_tick_count g + 1)) g.

Lemma tick_rest_ticked g tc u : 0 < tick_rest g tc u -> tick_rest (ticked g) tc u = tick_rest g tc u - 1.
Proof.
  unfold tick_rest, ticked. simpl. intros Hr. set (z := default 0 _) in *.
  unfold wrap in *. rewrite Zminus_mod_idemp_r. replace (z - (g_tick_count g + 1)) with ((z - g_tick_count g) - 1) by lia.
  rewrite <- Zminus_mod_idemp_l. pose proof (Z.mod_pos_bound (z - g_tick_count g) (2 ^ 64) ltac:(lia)).
  apply Z.mod_small. lia.
Qed.

Lemma gl_ok_ticked g : gl_ok g -> gl_ok (ticked g).
Proof. intros []. split; try done. simpl. apply wrap_range. lia. Qed.

Lemma kpre_ticked s A : kgood s A -> kpre (with_gl (ticked (gl s)) s) A.
Proof.
  intros [[] HG HT HM HO]. split; [|by apply gl_ok_ticked|by apply mutex_inv_gl|by apply obj_inv_gl].
  split; try done. simpl. destruct ki_tick as [Hs Hl]. split.
  - eapply StronglySorted_impl; [|exact Hs]. intros u v Hu Hv. simpl. rewrite !tick_rest_ticked by by apply HT. lia.
  - apply Forall_forall. intros u Hu. rewrite tick_rest_ticked by by apply HT.
    pose proof (proj1 (Forall_forall _ _) Hl u Hu). simpl in *. lia.
Qed.

Lemma expire_all_other ts tc u : u ∉ ts -> expire_all ts tc !! u = tc !! u.
Proof.
  revert tc. induction ts as [|t ts IH]; intros tc Hu; [done|]. simpl. rewrite IH by set_solver.
  by rewrite lookup_alter_ne by set_solver.
Qed.

Lemma match_expire_all g ts tc u : tick_rest g (expire_all ts tc) u = tick_rest g tc u.
Proof.
  revert tc. induction ts as [|t ts IH]; intros tc; simpl; [done|]. rewrite IH.
  eapply tick_rest_expired, prio_only_refl.
Qed.

Lemma tick_rest_prio_only g tc tc' u : prio_only tc tc' -> tick_rest g tc' u = tick_rest g tc u.
Proof. intros H. unfold tick_rest. rewrite (H u). by destruct (tc !! u). Qed.

(** The state after a tick: the tasks that had one tick left are woken. *)
Definition tick_post s s' A A' : Prop :=
  prio_only (expire_all (filter (fun u => tick_rest (gl s) (tcbs s) u = 1) (A LTick)) (tcbs s)) (tcbs s') /\
  A' LTick = filter (fun u => tick_rest (gl s) (tcbs s) u <> 1) (A LTick) /\
  gl s' = ticked (gl s) /\ ob s' = ob s /\ umem s' = umem s.

(** Masked or not: the tick handler leaves PRIMASK as it found it. *)
Lemma wp_tick_good s A (Q : unit -> kstate -> Prop) :
  kgood s A -> (forall s' A', kgood s' A' -> tick_post s s' A A' -> Q tt s') -> wp (tick_list_update 1) Q s.
Proof.
  intros HG HQ. unfold tick_list_update. apply wp_bind, wp_critical_enter. apply wp_bind. wstep.
  set (s1 := with_gl (ticked (set_primask true (gl s))) s).
  change (wp (iter <- get_next NTickHead ;; fuel <- list_fuel ;; tick_list_update_loop fuel iter ;; critical_exit (primask (gl s))) Q s1).
  assert (kpre s1 A) as HK by exact (kpre_ticked _ _ (kgood_mask _ _ true HG)). pose proof (kp_inv _ _ HK) as HI.
  pose proof (ki_rep _ _ HI) as [Hrg _].
  apply wp_bind, (wp_get_next (nodes (blks (ob s1)) A) LTick [] NTickHead (NTick <$> A LTick)); [done|done|].
  rewrite app_nil_r. unfold list_fuel. wsteps.
  apply (wp_tick_loop (A LTick) _ s1 A); [done..| |].
  { pose proof (ring_size (lm s1) _ (rings_nodup _ _ Hrg LTick) (rings_ring _ _ Hrg LTick)) as Hl.
    unfold nodes in Hl. simpl in Hl. rewrite length_fmap in Hl. simpl. lia. }
  intros l' q' tc' A' HK' Hpo HA' Hsub.
  assert (Hrest : forall u, u ∈ A LTick -> tick_rest (gl s1) (tcbs s1) u = tick_rest (gl s) (tcbs s) u - 1).
  { intros u Hu. apply (tick_rest_ticked (set_primask true (gl s))). by apply (kg_tick _ _ HG). }
  assert (Hdue : due (gl s1) (tcbs s1) (A LTick) = filter (fun u => tick_rest (gl s) (tcbs s) u = 1) (A LTick)).
  { unfold due. apply list_filter_iff'. intros u Hu. rewrite Hrest by done. lia. }
  assert (Hpend : pending (gl s1) (tcbs s1) (A LTick) = filter (fun u => tick_rest (gl s) (tcbs s) u <> 1) (A LTick)).
  { unfold pending. apply list_filter_iff'. intros u Hu. rewrite Hrest by done. lia. }
  assert (Hgood : kgood (retask l' q' tc' s1) A').
  { destruct HK' as [K1 K2 K3 K4]. split; try done. intros u Hu. simpl.
    rewrite (tick_rest_prio_only _ _ _ _ Hpo), match_expire_all. rewrite HA' in Hu. apply list_elem_of_filter in Hu as [Hne Hu].
    pose proof (wrap_range 64 (default 0 (tick_match <$> tcbs s1 !! u) - g_tick_count (gl s1)) ltac:(lia)) as Hw.
    fold (tick_rest (gl s1) (tcbs s1) u) in Hw. simpl in *. lia. }
  apply wp_critical_restore; [apply (kg_gl _ _ Hgood)|]. apply (HQ _ A'); [by apply kgood_mask|].
  split_and!; try done.
  - simpl. by rewrite <- Hdue.
  - by rewrite HA'.
Qed.

(** A task that runs is not on the tick list: a tick does not stop it. *)
Lemma active_ready_tick s s' A A' : kgood s A -> tick_post s s' A A' -> active_ready s -> active_ready s'.
Proof.
  intros HG (Hpo & _ & Eg & _) (a & x & Ha & Hx & Hr). pose proof (kg_inv _ _ HG) as HI.
  exists a, (set_prio (prio_of (tcbs s') a) x). split_and!; [by rewrite Eg| |done].
  rewrite (Hpo a), expire_all_other; [by simpl; rewrite Hx|]. rewrite list_elem_of_filter. intros [_ Hin].
  apply (kinv_in _ _ _ _ LTick HI Hx) in Hin. destruct (ok_tick _ _ (ki_task _ _ HI _ _ Hx) Hin) as [E'|E']; by rewrite Hr in E'.
Qed.

Lemma wp_tick_list_update s A (Q : unit -> kstate -> Prop) :
  kwf s A -> 0 < g_intrpt_nested_level (gl s) ->
  (forall s' A', kwf s' A' -> tick_post s s' A A' -> Q tt s') ->
  wp (tick_list_update 1) Q s.
Proof.
  intros HW Hn HQ. apply (wp_tick_good s A); [apply HW|]. intros s' A' HG Hpost. apply (HQ s' A'); [|done].
  pose proof Hpost as (_ & _ & Eg & _). split; rewrite ?Eg; [done|apply (kw_mask _ _ HW)| |].
  - intros E. by apply (active_ready_tick s s' A A'); [apply HW|done|apply (kw_active _ _ HW)].
  - unfold no_sched. simpl. by rewrite (proj2 (Z.ltb_lt _ _) Hn).
Qed.
End TickUpdate.

(** ** Time slices *)

Section TimeSlice.
Implicit Types (s : kstate) (A : queues) (t u : tid) (x y : ktask_t).

Lemma kwf_in_isr s A s' A' :
  kwf s A -> 0 < g_intrpt_nested_level (gl s) -> kgood s' A' -> gl s' = set_primask true (gl s) ->
  (active_ready s -> active_ready s') -> kwf (with_gl (set_primask false (gl s')) s') A'.
Proof.
  intros HW Hn HK Eg Hr. split; [by apply kgood_mask|done| |].
  - rewrite Eg. intros E. destruct (Hr (kw_active _ _ HW E)) as (a & x & Hx). rewrite Eg in Hx. by exists a, x.
  - rewrite Eg. unfold no_sched. simpl. by rewrite (proj2 (Z.ltb_lt _ _) Hn).
Qed.

(** Charging one tick to the first task [u] of the running priority, which
    shares it with others: either its slice goes on, or it goes to the end
    of its ready list with a new slice. *)
Definition charged x : Z := if 0 <? time_slice x then u32 (time_slice x - 1) else time_slice x.

Definition slice_post s s' A A' (p : Z) u x (r : list tid) : Prop :=
  if 0 <? charged x then
    tcbs s' = <[u := set_time_slice (charged x) x]> (tcbs s) /\ A' = A
  else tcbs s' = <[u := set_time_slice (time_total x) x]> (tcbs s) /\ A' = <[LReady p := r ++ [u]]> A.

Lemma kgood_time_slice h s A t x n :
  kgoodx h s A -> tcbs s !! t = Some x -> kgoodx h (with_tc (<[t := set_time_slice n x]> (tcbs s)) s) A.
Proof. intros HK Ht. eapply kgood_task; [done..|by split|by left]. Qed.

Lemma active_ready_slice s t x n :
  active_ready s -> tcbs s !! t = Some x -> active_ready (with_tc (<[t := set_time_slice n x]> (tcbs s)) s).
Proof.
  intros (a & y & Ha & Hy & Hr) Ht. destruct (decide (a = t)) as [->|].
  - exists t, (set_time_slice n x). simpl. rewrite lookup_insert_eq. split_and!; try done. simpl. congruence.
  - exists a, y. simpl. by rewrite lookup_insert_ne.
Qed.

(** The first of several tasks of a priority is charged. *)
Lemma wp_slice s A p u x v r (Q : unit -> kstate -> Prop) :
  kwf s A -> 0 < g_intrpt_nested_level (gl s) -> A (LReady p) = u :: v :: r -> tcbs s !! u = Some x ->
  prio x = p -> 0 <= p < RHINO_CONFIG_PRI_MAX ->
  (forall s' A', kwf s' A' -> slice_post s s' A A' p u x (v :: r) -> gl s' = gl s -> ob s' = ob s -> Q tt s') ->
  wp (when (0 <? time_slice x) (task_upd u (fun v => set_time_slice (u32 (time_slice v - 1)) v)) ;;
      x' <- task_get u ;;
      if 0 <? time_slice x' then critical_exit false
      else
        ready_list_head_to_tail u ;;
        task_upd u (fun v => set_time_slice (time_total v) v) ;;
        critical_exit false) Q (with_gl (set_primask true (gl s)) s).
Proof.
  intros HW Hn EA Hx Hpx Hp HQ. pose proof (kwf_enter _ _ HW) as HK0.
  set (s0 := with_gl (set_primask true (gl s)) s) in *.
  assert (Eg : set_primask false (set_primask true (gl s)) = gl s).
  { pose proof (kw_mask _ _ HW). destruct (gl s); simpl in *. by subst. }
  assert (Hend : forall s1 A1, kgood s1 A1 -> gl s1 = set_primask true (gl s) -> (active_ready s -> active_ready s1) ->
    slice_post s s1 A A1 p u x (v :: r) -> ob s1 = ob s -> wp (critical_exit false) Q s1).
  { intros s1 A1 HK1 Eg1 Har Hsp Eo. apply wp_critical_exit; [apply (kg_gl _ _ HK1)|].
    eapply (HQ _ A1); [by apply (kwf_in_isr s A)|exact Hsp| |done]. simpl. by rewrite Eg1. }
  unfold slice_post in Hend.
  assert (Hlast : forall x1, (x1 = x \/ exists n, x1 = set_time_slice n x) -> (0 <? charged x) = false ->
    wp (ready_list_head_to_tail u ;; task_upd u (fun v => set_time_slice (time_total v) v) ;; critical_exit false) Q
      (with_tc (<[u := x1]> (tcbs s0)) s0)).
  { intros x1 Hx1 Hlt. assert (HK1 : kgood (with_tc (<[u := x1]> (tcbs s0)) s0) A).
    { destruct Hx1 as [-> | [n ->]]; [|by apply kgood_time_slice].
      unfold with_tc. rewrite insert_id by done. by destruct s. }
    assert (Ep1 : prio x1 = p) by by destruct Hx1 as [-> | [n ->]].
    apply wp_bind. eapply (wp_ready_list_head_to_tail (blks (ob s0)) A u x1 u (v :: r)); rewrite ?Ep1;
      [apply (kg_inv _ _ HK1)|simpl; by rewrite lookup_insert_eq|done|done|].
    intros q' Hs'. apply wp_bind. eapply wp_task_upd; [simpl; by rewrite lookup_insert_eq|].
    unfold with_tc. simpl. rewrite insert_insert_eq.
    assert (set_time_slice (time_total x1) x1 = set_time_slice (time_total x) x) as -> by by destruct Hx1 as [-> | [n ->]].
    assert (HK2 : kgood (with_tc (<[u := set_time_slice (time_total x) x]> (tcbs s)) (retask (lm s0) q' (<[u := x1]> (tcbs s0)) s0))
      (<[LReady p := (v :: r) ++ [u]]> A)).
    { pose proof (kgood_rotate q' _ A p ((v :: r) ++ [u]) HK1 Hp) as HK2.
      eapply (kgood_time_slice None _ _ u x1 (time_total x)) in HK2;
        [|rewrite EA; symmetry; apply Permutation_cons_append|done|simpl; by rewrite lookup_insert_eq].
      simpl in HK2. rewrite insert_insert_eq in HK2. destruct Hx1 as [-> | [n ->]]; exact HK2. }
    eapply Hend; [exact HK2|done| |by rewrite Hlt|done].
    intros Har. by apply (active_ready_slice s). }
  assert (E0 : charged x = if 0 <? time_slice x then u32 (time_slice x - 1) else time_slice x) by done.
  destruct (0 <? time_slice x) eqn:H0; unfold when.
  - apply wp_bind, (wp_task_upd _ x); [done|]. apply wp_bind.
    eapply wp_task_get; [simpl; by rewrite lookup_insert_eq|]. cbn [time_slice set_time_slice]. rewrite <- E0 in *.
    destruct (0 <? charged x) eqn:H1.
    + eapply (Hend _ A); [by apply kgood_time_slice|done|intros Har; by apply (active_ready_slice s)|done|done].
    + apply Hlast; [right; by eexists|done].
  - apply wp_bind, wp_ret, wp_bind, (wp_task_get _ x); [done|]. rewrite H0.
    specialize (Hlast x (or_introl eq_refl)). unfold with_tc in Hlast. rewrite insert_id in Hlast by done.
    destruct s. apply Hlast. by rewrite E0.
Qed.

Lemma wp_time_slice_update s A a y (Q : unit -> kstate -> Prop) :
  kwf s A -> 0 < g_intrpt_nested_level (gl s) -> g_active_task (gl s) = Some a -> tcbs s !! a = Some y ->
  ((forall u v r x, A (LReady (prio y)) = u :: v :: r -> tcbs s !! u = Some x -> sched_policy x = KSCHED_FIFO) -> Q tt s) ->
  (forall u v r x s' A', A (LReady (prio y)) = u :: v :: r -> tcbs s !! u = Some x -> sched_policy x <> KSCHED_FIFO ->
     kwf s' A' -> slice_post s s' A A' (prio y) u x (v :: r) -> gl s' = gl s -> ob s' = ob s -> Q tt s') ->
  wp time_slice_update Q s.
Proof.
  intros HW Hn Ha Hy Q1 Q2. unfold time_slice_update, active_get, is_ready_list_empty.
  apply wp_bind, (wp_kwf_enter A); [done|]. pose proof (kwf_enter _ _ HW) as HK0.
  set (s0 := with_gl (set_primask true (gl s)) s) in *. pose proof (kg_inv _ _ HK0) as HI.
  pose proof (ok_prio _ _ (ki_task _ _ HI _ _ Hy)) as Hp. pose proof (ki_rep _ _ HI) as Hrep.
  apply wp_bind, wp_bind. apply wp_gets. eapply wp_lift; [exact Ha|].
  apply wp_bind, (wp_task_get _ y); [done|]. apply wp_bind, (wp_get_cur (blks (ob s0)) A); [done..|].
  apply wp_bind, wp_bind, (wp_get_cur (blks (ob s0)) A); [done..|]. apply wp_ret.
  destruct (A (LReady (prio y))) as [|u r] eqn:EA; cbn [head fmap option_fmap option_map].
  { apply (wp_exit_noop A); [done|]. apply Q1. intros. done. }
  rewrite bool_decide_false by done. apply wp_bind, wp_ret. cbn [task_of]. apply wp_bind, wp_ret.
  assert (u ∈ A (LReady (prio y))) as (x & Hx & Hst & Hpx)%(ki_mem _ _ HI) by (rewrite EA; set_solver).
  apply wp_bind, (wp_task_get _ x); [done|]. destruct (Z.eqb_spec (sched_policy x) KSCHED_FIFO) as [Hf|Hf].
  { apply (wp_exit_noop A); [done|]. apply Q1. intros u' v r' x' [= <- _] Hx'. simpl in Hx. congruence. }
  apply wp_bind, (wp_get_next (nodes (blks (ob s0)) A) (LReady (prio y)) [] (NTask u) (NTask <$> r)); [apply Hrep|unfold nodes; by rewrite EA|].
  rewrite app_nil_r. destruct r as [|v r]; cbn [fmap list_fmap hd].
  { rewrite bool_decide_true by done. apply (wp_exit_noop A); [done|]. apply Q1. intros. done. }
  pose proof (kinv_nodup _ _ (LReady (prio y)) HI) as Hnd. rewrite EA in Hnd.
  rewrite bool_decide_false by (intros [= ->]; inversion Hnd; set_solver).
  eapply wp_slice; [done..|]. intros s' A' HW' Hsp Eg Eo. by eapply Q2.
Qed.
End TimeSlice.

