(* ===== verification/Sem.v ===== *)
(** * Semaphores (k_sem.c, k_task_sem.c) *)

From stdpp Require Import functions.
From S2P Require Import Prelude.
From S2P Require Import Monad.
From S2P Require Import Links.
From S2P Require Import KState.
From S2P Require Import Bitmap.
From S2P Require Import Sched.
From S2P Require Import Pend.
From S2P Require Import Inv.
From S2P Require Import MInv.
From S2P Require Import ObjInv.
From S2P Require Import Resched.
From S2P Require Import Block.

Definition sem_create (sem : option oid) (name : option string) (cnt mm_alloc_flag : Z) : M kstat_t :=
  match sem, name with
  | Some o, Some _ =>
      klist_init (NBlk o) ;;
      sem_put o (mkSem cnt cnt mm_alloc_flag) ;;
      psr <- critical_enter ;;
      critical_exit psr ;;
      blk_put o (mkBlk BLK_POLICY_PRI RHINO_SEM_OBJ_TYPE) ;;
      ret RHINO_SUCCESS
  | _, _ => ret RHINO_NULL_PTR
  end.

Definition krhino_sem_create (sem : option oid) (name : option string) (cnt : Z) : M kstat_t :=
  sem_create sem name cnt K_OBJ_STATIC_ALLOC.

Definition krhino_sem_del (sem : option oid) : M kstat_t :=
  match sem with
  | None => ret RHINO_NULL_PTR
  | Some o =>
      psr <- critical_enter ;;
      g <- gets gl ;;
      if 0 <? g_intrpt_nested_level g then
        critical_exit psr ;; ret RHINO_NOT_CALLED_BY_INTRPT
      else
        b <- blk_get o ;;
        if negb (bool_decide (obj_type b = RHINO_SEM_OBJ_TYPE)) then
          critical_exit psr ;; ret RHINO_KOBJ_TYPE_ERR
        else
          v <- sem_get o ;;
          if negb (sem_mm_alloc_flag v =? K_OBJ_STATIC_ALLOC) then
            critical_exit psr ;; ret RHINO_KOBJ_DEL_ERR
          else
            blk_put o (set_obj_type RHINO_OBJ_TYPE_NONE b) ;;
            drain_list pend_task_rm (NBlk o) ;;
            critical_exit_sched psr ;;
            ret RHINO_SUCCESS
  end.

Definition sem_give (o : oid) (opt_wake_all : bool) : M kstat_t :=
  psr <- critical_enter ;;
  b <- blk_get o ;;
  if negb (bool_decide (obj_type b = RHINO_SEM_OBJ_TYPE)) then
    critical_exit psr ;; ret RHINO_KOBJ_TYPE_ERR
  else
    e <- is_klist_empty (NBlk o) ;;
    if e : bool then
      v <- sem_get o ;;
      if count v =? 2 ^ 32 - 1 then
        critical_exit psr ;; ret RHINO_SEM_OVF
      else
        let c := u32 (count v + 1) in
        let pk := if peak_count v <? c then c else peak_count v in
        sem_put o (mkSem c pk (sem_mm_alloc_flag v)) ;;
        critical_exit psr ;;
        ret RHINO_SUCCESS
    else
      (if opt_wake_all then drain_list pend_task_wakeup (NBlk o)
       else
         n <- get_next (NBlk o) ;;
         t <- task_of n ;;
         pend_task_wakeup t) ;;
      critical_exit_sched psr ;;
      ret RHINO_SUCCESS.

Definition krhino_sem_give (sem : option oid) : M kstat_t :=
  match sem with None => ret RHINO_NULL_PTR | Some o => sem_give o false end.

Definition krhino_sem_give_all (sem : option oid) : M kstat_t :=
  match sem with None => ret RHINO_NULL_PTR | Some o => sem_give o true end.

Definition krhino_sem_take (sem : option oid) (ticks : Z) : M (callres kstat_t) :=
  match sem with
  | None => ret (Returned RHINO_NULL_PTR)
  | Some o =>
      psr <- critical_enter ;;
      g <- gets gl ;;
      if 0 <? g_intrpt_nested_level g then
        critical_exit psr ;; ret (Returned RHINO_NOT_CALLED_BY_INTRPT)
      else
        b <- blk_get o ;;
        if negb (bool_decide (obj_type b = RHINO_SEM_OBJ_TYPE)) then
          critical_exit psr ;; ret (Returned RHINO_KOBJ_TYPE_ERR)
        else
          v <- sem_get o ;;
          if 0 <? count v then
            sem_put o (mkSem (u32 (count v - 1)) (peak_count v) (sem_mm_alloc_flag v)) ;;
            critical_exit psr ;;
            ret (Returned RHINO_SUCCESS)
          else if ticks =? RHINO_NO_WAIT then
            critical_exit psr ;; ret (Returned RHINO_NO_PEND_WAIT)
          else if 0 <? g_sched_lock g then
            critical_exit psr ;; ret (Returned RHINO_SCHED_DISABLE)
          else
            a <- active_get ;;
            pend_to_blk_obj o a ticks ;;
            critical_exit_sched psr ;;
            ret (Switched pend_end)
  end.

Definition krhino_sem_count_set (sem : option oid) (sem_count : Z) : M kstat_t :=
  match sem with
  | None => ret RHINO_NULL_PTR
  | Some o =>
      psr <- critical_enter ;;
      g <- gets gl ;;
      if 0 <? g_intrpt_nested_level g then
        critical_exit psr ;; ret RHINO_NOT_CALLED_BY_INTRPT
      else
        b <- blk_get o ;;
        if negb (bool_decide (obj_type b = RHINO_SEM_OBJ_TYPE)) then
          critical_exit psr ;; ret RHINO_KOBJ_TYPE_ERR
        else
          v <- sem_get o ;;
          ok <- (if 0 <? count v then ret true else is_klist_empty (NBlk o)) ;;
          if ok : bool then
            let pk := if peak_count v <? sem_count then sem_count else peak_count v in
            sem_put o (mkSem sem_count pk (sem_mm_alloc_flag v)) ;;
            critical_exit psr ;;
            ret RHINO_SUCCESS
          else
            critical_exit psr ;; ret RHINO_SEM_TASK_WAITING
  end.

(** [count] is an output pointer: whether it is NULL, and the value stored. *)
Definition krhino_sem_count_get (sem : option oid) (count_null : bool) : M (kstat_t * option Z) :=
  match sem with
  | None => ret (RHINO_NULL_PTR, None)
  | Some o =>
      if count_null then ret (RHINO_NULL_PTR, None)
      else v <- sem_get o ;; ret (RHINO_SUCCESS, Some (count v))
  end.

(** ** Task semaphores (k_task_sem.c) *)

Definition krhino_task_sem_create (task : option tid) (sem : option oid) (name : option string) (cnt : Z) : M kstat_t :=
  match task with
  | None => ret RHINO_NULL_PTR
  | Some t =>
      st <- krhino_sem_create sem name (u32 cnt) ;;
      task_upd t (set_task_sem_obj (if bool_decide (st = RHINO_SUCCESS) then sem else None)) ;;
      ret st
  end.

Definition krhino_task_sem_del (task : option tid) : M kstat_t :=
  match task with
  | None => ret RHINO_NULL_PTR
  | Some t => x <- task_get t ;; krhino_sem_del (task_sem_obj x)
  end.

Definition krhino_task_sem_give (task : option tid) : M kstat_t :=
  match task with
  | None => ret RHINO_NULL_PTR
  | Some t => x <- task_get t ;; krhino_sem_give (task_sem_obj x)
  end.

Definition krhino_task_sem_take (ticks : Z) : M (callres kstat_t) :=
  psr <- critical_enter ;;
  a <- active_get ;;
  critical_exit psr ;;
  x <- task_get a ;;
  krhino_sem_take (task_sem_obj x) ticks.

Definition krhino_task_sem_count_set (task : option tid) (cnt : Z) : M kstat_t :=
  match task with
  | None => ret RHINO_NULL_PTR
  | Some t => x <- task_get t ;; krhino_sem_count_set (task_sem_obj x) cnt
  end.

Definition krhino_task_sem_count_get (task : option tid) (count_null : bool) : M (kstat_t * option Z) :=
  match task with
  | None => ret (RHINO_NULL_PTR, None)
  | Some t => x <- task_get t ;; krhino_sem_count_get (task_sem_obj x) count_null
  end.

(** ** Semaphore states *)

Section SemState.
Implicit Types (s : kstate) (A : queues) (o : oid) (v : ksem_t).

Definition with_sem s o v : kstate := with_ob (set_sems (<[o := v]> (sems (ob s))) (ob s)) s.

Lemma kgood_sem s A o v :
  kgood s A -> (has_type s o RHINO_SEM_OBJ_TYPE -> sem_ok A o v) -> kgood (with_sem s o v) A.
Proof.
  intros [HI HG HT (C & [] & HP) [Hs He Hq]] Hv. split; [by apply kinv_ob|done|done|exists C; by split|].
  split; simpl; [|done|intros o'; by eapply store_ok_frame]. intros o' Ho'. destruct (decide (o' = o)) as [->|].
  - exists v. rewrite lookup_insert_eq. auto.
  - rewrite lookup_insert_ne by done. by apply Hs.
Qed.

Lemma kwf_sem s A o v :
  kwf s A -> (has_type s o RHINO_SEM_OBJ_TYPE -> sem_ok A o v) -> kwf (with_sem s o v) A.
Proof. intros [HK ???] Hv. split; [by apply kgood_sem|done..]. Qed.

Lemma sem_type s o b : blks (ob s) !! o = Some b -> obj_type b = RHINO_SEM_OBJ_TYPE -> ~ is_mutex (ob s) o.
Proof. intros Hb Ht (b' & Hb' & Ht'). simplify_eq. congruence. Qed.

(** The end of a call that changed only the semaphore. *)
Lemma wp_sem_exit {R : Type} A s o v (r : R) (Q : R -> kstate -> Prop) :
  kwf s A -> (has_type s o RHINO_SEM_OBJ_TYPE -> sem_ok A o v) ->
  (kwf (with_sem s o v) A -> Q r (with_sem s o v)) ->
  wp (sem_put o v ;; critical_exit false ;; ret r) Q (with_gl (set_primask true (gl s)) s).
Proof.
  intros HW Hv HQ. unfold sem_put. wsteps. apply wp_critical_exit.
  - by apply gl_ok_mask, (kw_gl _ _ HW).
  - apply wp_ret. rewrite <- (kwf_noop s A HW) in HQ. apply HQ. rewrite (kwf_noop s A HW). by apply kwf_sem.
Qed.
End SemState.

(** ** Giving *)

Section Give.
Implicit Types (s : kstate) (A : queues) (o : oid) (v : ksem_t) (t : tid).

(** The semaphore counts up. *)
Definition counted v : ksem_t :=
  mkSem (count v + 1) (Z.max (peak_count v) (count v + 1)) (sem_mm_alloc_flag v).

Lemma counted_eq v : 0 <= count v < 2 ^ 32 - 1 ->
  mkSem (u32 (count v + 1)) (if peak_count v <? u32 (count v + 1) then u32 (count v + 1) else peak_count v)
    (sem_mm_alloc_flag v) = counted v.
Proof.
  intros Hc. unfold counted. rewrite wrap_small by lia. f_equal. destruct (Z.ltb_spec (peak_count v) (count v + 1)); lia.
Qed.

Lemma wp_sem_give s A o v (Q : kstat_t -> kstate -> Prop) :
  kwf s A -> has_type s o RHINO_SEM_OBJ_TYPE -> sems (ob s) !! o = Some v ->
  (A (LBlk o) = [] -> count v = 2 ^ 32 - 1 -> Q RHINO_SEM_OVF s) ->
  (A (LBlk o) = [] -> count v < 2 ^ 32 - 1 -> kwf (with_sem s o (counted v)) A ->
     Q RHINO_SUCCESS (with_sem s o (counted v))) ->
  (forall t ts s' A', A (LBlk o) = t :: ts -> kwf s' A' -> woken s s' A A' t o BLK_FINISH -> Q RHINO_SUCCESS s') ->
  wp (krhino_sem_give (Some o)) Q s.
Proof.
  intros HW (b & Hb & Hty) Hv Q1 Q2 Q3. unfold krhino_sem_give, sem_give, blk_get, sem_get.
  apply wp_bind, (wp_kwf_enter A); [done|]. wsteps. rewrite bool_decide_true by done. simpl.
  pose proof (kwf_enter _ _ HW) as HK.
  destruct (oi_sem _ _ (kg_obj _ _ (kw_good _ _ HW)) o) as (v' & Hv' & H1 & H2 & H3); [by exists b|]. simplify_eq.
  apply wp_bind, (wp_blk_empty _ A o b); [apply HK|done|].
  destruct (A (LBlk o)) as [|t ts] eqn:EA; simpl.
  - wsteps. destruct (Z.eqb_spec (count v) (2 ^ 32 - 1)) as [E|E].
    + apply (wp_exit_ret A); auto.
    + rewrite counted_eq by lia. apply (wp_sem_exit A); [done| |intros; apply Q2; auto; lia].
      intros _. split_and!; simpl; [lia..|]. intros _. done.
  - assert (A (LBlk o) = t :: ts) as EA' by done.
    destruct (first_waiter s A o t ts (kg_inv _ _ (kw_good _ _ HW)) EA') as (x & Hx & Hp & Ho).
    wsteps. apply (wp_get_first _ A o b t ts); [apply HK|done..|]. cbn [task_of]. wsteps.
    apply wp_fold, (wp_wake_exit s A t x o); [done..|by eapply sem_type|]. eauto.
Qed.
End Give.

Section Take.
Implicit Types (s : kstate) (A : queues) (o : oid) (v : ksem_t) (t : tid) (x : ktask_t).

Definition taken v : ksem_t := mkSem (count v - 1) (peak_count v) (sem_mm_alloc_flag v).

Lemma wp_sem_take s A o v ticks a x (Q : callres kstat_t -> kstate -> Prop) :
  kwf s A -> has_type s o RHINO_SEM_OBJ_TYPE -> sems (ob s) !! o = Some v ->
  g_active_task (gl s) = Some a -> tcbs s !! a = Some x -> prio x <> RHINO_IDLE_PRI ->
  ticks = RHINO_NO_WAIT \/ timeout_ok ticks ->
  (0 < g_intrpt_nested_level (gl s) -> Q (Returned RHINO_NOT_CALLED_BY_INTRPT) s) ->
  (g_intrpt_nested_level (gl s) = 0 -> 0 < count v -> kwf (with_sem s o (taken v)) A ->
     Q (Returned RHINO_SUCCESS) (with_sem s o (taken v))) ->
  (g_intrpt_nested_level (gl s) = 0 -> count v = 0 -> ticks = RHINO_NO_WAIT -> Q (Returned RHINO_NO_PEND_WAIT) s) ->
  (g_intrpt_nested_level (gl s) = 0 -> count v = 0 -> ticks <> RHINO_NO_WAIT -> 0 < g_sched_lock (gl s) ->
     Q (Returned RHINO_SCHED_DISABLE) s) ->
  (forall s' A', g_intrpt_nested_level (gl s) = 0 -> count v = 0 -> ticks <> RHINO_NO_WAIT -> g_sched_lock (gl s) = 0 ->
     kwf s' A' -> caller_blocked s s' A A' a x o ticks -> Q (Switched pend_end) s') ->
  wp (krhino_sem_take (Some o) ticks) Q s.
Proof.
  intros HW (b & Hb & Hty) Hv Ha Hx Hp Hto Q1 Q2 Q3 Q4 Q5. unfold krhino_sem_take, blk_get, sem_get, active_get.
  apply wp_bind, (wp_kwf_enter A); [done|]. wsteps. simpl.
  pose proof (kg_gl _ _ (kw_good _ _ HW)) as [Hn Hl _ _ _].
  destruct (oi_sem _ _ (kg_obj _ _ (kw_good _ _ HW)) o) as (v' & Hv' & H1 & H2 & H3); [by exists b|]. simplify_eq.
  destruct (Z.ltb_spec 0 (g_intrpt_nested_level (gl s))) as [Hi|Hi]; [apply (wp_exit_ret A); auto|].
  wsteps. rewrite bool_decide_true by done. simpl. wsteps.
  assert (g_intrpt_nested_level (gl s) = 0) as E0 by lia.
  destruct (Z.ltb_spec 0 (count v)) as [Hc|Hc].
  - rewrite wrap_small by lia. apply (wp_sem_exit A); [done| |auto].
    intros _. split_and!; simpl; [lia..|]. intros _. by apply H3.
  - destruct (Z.eqb_spec ticks RHINO_NO_WAIT) as [Ht|Ht]; [apply (wp_exit_ret A); auto; apply Q3; auto; lia|].
    destruct (Z.ltb_spec 0 (g_sched_lock (gl s))) as [Hs|Hs]; [apply (wp_exit_ret A); auto; apply Q4; auto; lia|].
    wsteps. destruct Hto as [?|Hto]; [done|].
    destruct (kwf_active _ _ HW E0) as (a' & x' & Ha' & Hx' & Hr). simplify_eq.
    apply wp_fold, (wp_block_exit s A a x o b); [done|lia|done..|by eapply sem_type| |].
    + split_and!; [intros _ w Hw; simplify_eq; lia|..]; intros (b' & Hb' & Ht'); simplify_eq; congruence.
    + intros s' A' HW' Hbl. apply (Q5 s' A'); auto; lia.
Qed.
End Take.

Section OtherSem.
Implicit Types (s : kstate) (A : queues) (o : oid) (v : ksem_t).

(** Everybody is woken. *)
Lemma wp_sem_give_all s A o v (Q : kstat_t -> kstate -> Prop) :
  kwf s A -> has_type s o RHINO_SEM_OBJ_TYPE -> sems (ob s) !! o = Some v ->
  (A (LBlk o) = [] -> count v = 2 ^ 32 - 1 -> Q RHINO_SEM_OVF s) ->
  (A (LBlk o) = [] -> count v < 2 ^ 32 - 1 -> kwf (with_sem s o (counted v)) A ->
     Q RHINO_SUCCESS (with_sem s o (counted v))) ->
  (forall s' A', A (LBlk o) <> [] -> kwf s' A' -> woken_all s s' A A' o BLK_FINISH -> ob s' = ob s -> Q RHINO_SUCCESS s') ->
  wp (krhino_sem_give_all (Some o)) Q s.
Proof.
  intros HW (b & Hb & Hty) Hv Q1 Q2 Q3. unfold krhino_sem_give_all, sem_give, blk_get, sem_get.
  apply wp_bind, (wp_kwf_enter A); [done|]. wsteps. rewrite bool_decide_true by done. simpl.
  pose proof (kwf_enter _ _ HW) as HK.
  destruct (oi_sem _ _ (kg_obj _ _ (kw_good _ _ HW)) o) as (v' & Hv' & H1 & H2 & H3); [by exists b|]. simplify_eq.
  apply wp_bind, (wp_blk_empty _ A o b); [apply HK|done|].
  destruct (decide (A (LBlk o) = [])) as [EA|EA].
  - rewrite bool_decide_true by done. wsteps. destruct (Z.eqb_spec (count v) (2 ^ 32 - 1)) as [E|E].
    + apply (wp_exit_ret A); auto.
    + rewrite counted_eq by lia. apply (wp_sem_exit A); [done| |intros; apply Q2; auto; lia].
      intros _. split_and!; simpl; [lia..|]. intros _. done.
  - rewrite bool_decide_false by done. unfold pend_task_wakeup.
    apply (wp_release_all_exit s A o b _ _ _ Q (unblock_releases BLK_FINISH o)); [done|done|by eapply sem_type|].
    intros s' A' HW' Hwk Eo. by apply (Q3 s' A').
Qed.

Lemma wp_sem_del s A o v (Q : kstat_t -> kstate -> Prop) :
  kwf s A -> has_type s o RHINO_SEM_OBJ_TYPE -> sems (ob s) !! o = Some v ->
  sem_mm_alloc_flag v = K_OBJ_STATIC_ALLOC -> g_intrpt_nested_level (gl s) = 0 ->
  (forall s' A', kwf s' A' -> woken_all s s' A A' o BLK_DEL -> ~ has_type s' o RHINO_SEM_OBJ_TYPE -> Q RHINO_SUCCESS s') ->
  wp (krhino_sem_del (Some o)) Q s.
Proof.
  intros HW (b & Hb & Hty) Hv Hf Hn HQ. unfold krhino_sem_del, blk_get, sem_get.
  apply wp_bind, (wp_kwf_enter A); [done|]. wsteps. simpl. rewrite Hn. simpl. wsteps.
  rewrite bool_decide_true by done. simpl. wsteps. rewrite Hf. cbn [negb Z.eqb K_OBJ_STATIC_ALLOC Pos.eqb].
  pose proof (kwf_enter _ _ HW) as HK.
  apply wp_assoc, wp_bind, (wp_untype_drain _ A o b); [done|done|congruence|]. intros l' q' A' HK' He Ho.
  apply (wp_exit_resched A'); [done| |].
  - intros Hl. apply (active_ready_wake_all s _ A o BLK_DEL); [apply HW|apply (kw_active _ _ HW); by left|done..].
  - intros top Htop HW'. eapply HQ; [exact HW'| |].
    + split_and!; [done..|]. exists top. split; [done|apply resched_unmask].
    + intros (b' & Hb' & Ht'). simpl in Hb'. by simplify_map_eq.
Qed.

(** The count can be set unless tasks wait for it. *)
Lemma wp_sem_count_set s A o v c (Q : kstat_t -> kstate -> Prop) :
  kwf s A -> has_type s o RHINO_SEM_OBJ_TYPE -> sems (ob s) !! o = Some v -> 0 <= c < 2 ^ 32 ->
  let v' := mkSem c (Z.max (peak_count v) c) (sem_mm_alloc_flag v) in
  (0 < g_intrpt_nested_level (gl s) -> Q RHINO_NOT_CALLED_BY_INTRPT s) ->
  (g_intrpt_nested_level (gl s) = 0 -> A (LBlk o) <> [] -> Q RHINO_SEM_TASK_WAITING s) ->
  (g_intrpt_nested_level (gl s) = 0 -> A (LBlk o) = [] -> kwf (with_sem s o v') A -> Q RHINO_SUCCESS (with_sem s o v')) ->
  wp (krhino_sem_count_set (Some o) c) Q s.
Proof.
  intros HW (b & Hb & Hty) Hv Hc v' Q1 Q2 Q3. unfold krhino_sem_count_set, blk_get, sem_get.
  apply wp_bind, (wp_kwf_enter A); [done|]. wsteps. simpl.
  pose proof (kg_gl _ _ (kw_good _ _ HW)) as [Hn _ _ _ _].
  destruct (oi_sem _ _ (kg_obj _ _ (kw_good _ _ HW)) o) as (v0 & Hv0 & H1 & H2 & H3); [by exists b|]. simplify_eq.
  destruct (Z.ltb_spec 0 (g_intrpt_nested_level (gl s))) as [Hi|Hi]; [apply (wp_exit_ret A); auto|].
  wsteps. rewrite bool_decide_true by done. simpl. wsteps.
  assert (g_intrpt_nested_level (gl s) = 0) as E0 by lia.
  assert (Hok : A (LBlk o) = [] -> wp (sem_put o (mkSem c (if peak_count v <? c then c else peak_count v) (sem_mm_alloc_flag v)) ;;
    critical_exit false ;; ret RHINO_SUCCESS) Q (with_gl (set_primask true (gl s)) s)).
  { intros EA. assert ((if peak_count v <? c then c else peak_count v) = Z.max (peak_count v) c) as ->
      by (destruct (Z.ltb_spec (peak_count v) c); lia).
    apply (wp_sem_exit A); [done| |auto]. intros _. split_and!; simpl; [lia..|]. done. }
  destruct (Z.ltb_spec 0 (count v)) as [Hp|Hp]; [wsteps; auto|].
  apply (wp_blk_empty _ A o b); [by apply (kwf_enter _ _ HW)|done|].
  case_bool_decide; [auto|]. apply (wp_exit_ret A); auto.
Qed.
End OtherSem.
