(* ===== verification/Mutex.v ===== *)
(** * Mutexes (k_mutex.c) *)

From stdpp Require Import functions.
From S2P Require Import Prelude.
From S2P Require Import Monad.
From S2P Require Import Links.
From S2P Require Import KState.
From S2P Require Import Bitmap.
From S2P Require Import Sched.
From S2P Require Import Pend.
From S2P Require Import Inv.
From S2P Require Import MInv.
From S2P Require Import ObjInv.
From S2P Require Import Resched.
From S2P Require Import Block.
From S2P Require Import Prio.
From S2P Require Import PrioInv.

Definition mutex_create (mutex : option oid) (name : option string) (mm_alloc_flag : Z) : M kstat_t :=
  match mutex, name with
  | Some m, Some _ =>
      klist_init (NBlk m) ;;
      old <- gets (fun s => mutexes (ob s) !! m) ;;
      mutex_put m (mkMutex None None (default 0 (owner_nested <$> old)) mm_alloc_flag) ;;
      blk_put m (mkBlk BLK_POLICY_PRI RHINO_MUTEX_OBJ_TYPE) ;;
      ret RHINO_SUCCESS
  | _, _ => ret RHINO_NULL_PTR
  end.

Definition krhino_mutex_create (mutex : option oid) (name : option string) : M kstat_t :=
  mutex_create mutex name K_OBJ_STATIC_ALLOC.

Definition krhino_mutex_del (mutex : option oid) : M kstat_t :=
  match mutex with
  | None => ret RHINO_NULL_PTR
  | Some m =>
      psr <- critical_enter ;;
      g <- gets gl ;;
      if 0 <? g_intrpt_nested_level g then
        critical_exit psr ;; ret RHINO_NOT_CALLED_BY_INTRPT
      else
        b <- blk_get m ;;
        if negb (bool_decide (obj_type b = RHINO_MUTEX_OBJ_TYPE)) then
          critical_exit psr ;; ret RHINO_KOBJ_TYPE_ERR
        else
          v <- mutex_get m ;;
          if negb (mutex_mm_alloc_flag v =? K_OBJ_STATIC_ALLOC) then
            critical_exit psr ;; ret RHINO_KOBJ_DEL_ERR
          else
            blk_put m (set_obj_type RHINO_OBJ_TYPE_NONE b) ;;
            match mutex_task v with
            | Some t => mutex_release t (Some m)
            | None => ret tt
            end ;;
            drain_list pend_task_rm (NBlk m) ;;
            critical_exit_sched psr ;;
            ret RHINO_SUCCESS
  end.

Definition krhino_mutex_lock (mutex : option oid) (ticks : Z) : M (callres kstat_t) :=
  match mutex with
  | None => ret (Returned RHINO_NULL_PTR)
  | Some m =>
      g <- gets gl ;;
      if bool_decide (g_sys_stat g = RHINO_STOPPED) then ret (Returned RHINO_SUCCESS)
      else
      psr <- critical_enter ;;
      if 0 <? g_intrpt_nested_level g then
        critical_exit psr ;; ret (Returned RHINO_NOT_CALLED_BY_INTRPT)
      else
      b <- blk_get m ;;
      if negb (bool_decide (obj_type b = RHINO_MUTEX_OBJ_TYPE)) then
        critical_exit psr ;; ret (Returned RHINO_KOBJ_TYPE_ERR)
      else
      a <- active_get ;;
      v <- mutex_get m ;;
      if bool_decide (Some a = mutex_task v) then
        if owner_nested v =? 2 ^ 32 - 1 then
          k_err_proc RHINO_MUTEX_NESTED_OVF ;;
          critical_exit psr ;;
          ret (Returned RHINO_MUTEX_NESTED_OVF)
        else
          mutex_put m (mkMutex (mutex_task v) (mutex_list v) (u32 (owner_nested v + 1)) (mutex_mm_alloc_flag v)) ;;
          critical_exit psr ;;
          ret (Returned RHINO_MUTEX_OWNER_NESTED)
      else
      match mutex_task v with
      | None =>
          x <- task_get a ;;
          mutex_put m (mkMutex (Some a) (task_mutex_list x) 1 (mutex_mm_alloc_flag v)) ;;
          task_upd a (set_task_mutex_list (Some m)) ;;
          critical_exit psr ;;
          ret (Returned RHINO_SUCCESS)
      | Some mt =>
          if ticks =? RHINO_NO_WAIT then
            critical_exit psr ;; ret (Returned RHINO_NO_PEND_WAIT)
          else if 0 <? g_sched_lock g then
            critical_exit psr ;; ret (Returned RHINO_SCHED_DISABLE)
          else
            x <- task_get a ;;
            y <- task_get mt ;;
            when (prio x <? prio y) (task_pri_change mt (prio x) ;; ret tt) ;;
            pend_to_blk_obj m a ticks ;;
            critical_exit_sched psr ;;
            ret (Switched pend_end)
      end
  end.

Definition krhino_mutex_unlock (mutex : option oid) : M kstat_t :=
  match mutex with
  | None => ret RHINO_NULL_PTR
  | Some m =>
      g <- gets gl ;;
      if bool_decide (g_sys_stat g = RHINO_STOPPED) then ret RHINO_SUCCESS
      else
      psr <- critical_enter ;;
      if 0 <? g_intrpt_nested_level g then
        critical_exit psr ;; ret RHINO_NOT_CALLED_BY_INTRPT
      else
      b <- blk_get m ;;
      if negb (bool_decide (obj_type b = RHINO_MUTEX_OBJ_TYPE)) then
        critical_exit psr ;; ret RHINO_KOBJ_TYPE_ERR
      else
      a <- active_get ;;
      v <- mutex_get m ;;
      if negb (bool_decide (Some a = mutex_task v)) then
        critical_exit psr ;; ret RHINO_MUTEX_NOT_RELEASED_BY_OWNER
      else
      let nested := u32 (owner_nested v - 1) in
      mutex_put m (mkMutex (mutex_task v) (mutex_list v) nested (mutex_mm_alloc_flag v)) ;;
      if 0 <? nested then
        critical_exit psr ;; ret RHINO_MUTEX_OWNER_NESTED
      else
      mutex_release a (Some m) ;;
      e <- is_klist_empty (NBlk m) ;;
      if e : bool then
        v' <- mutex_get m ;;
        mutex_put m (mkMutex None (mutex_list v') (owner_nested v') (mutex_mm_alloc_flag v')) ;;
        critical_exit psr ;;
        ret RHINO_SUCCESS
      else
        n <- get_next (NBlk m) ;;
        t <- task_of n ;;
        pend_task_wakeup t ;;
        v' <- mutex_get m ;;
        x <- task_get t ;;
        mutex_put m (mkMutex (Some t) (task_mutex_list x) 1 (mutex_mm_alloc_flag v')) ;;
        task_upd t (set_task_mutex_list (Some m)) ;;
        critical_exit_sched psr ;;
        ret RHINO_SUCCESS
  end.

(** ** Ownership *)

Section Own.
Implicit Types (s : kstate) (A : queues) (C : tid -> list oid) (t : tid) (x : ktask_t) (m : oid) (v : kmutex_t).

Definition with_mutex s m v : kstate := with_ob (set_mutexes (<[m := v]> (mutexes (ob s))) (ob s)) s.

(** [t] becomes the owner of [m]. *)
Definition owned_by t x v : kmutex_t := mkMutex (Some t) (task_mutex_list x) 1 (mutex_mm_alloc_flag v).
Definition own s t x m v : kstate :=
  with_tc (<[t := set_task_mutex_list (Some m) x]> (tcbs s)) (with_mutex s m (owned_by t x v)).

Lemma minv_own h s C t x m v :
  minv h s C -> h = None \/ h = Some m -> is_mutex (ob s) m -> mutexes (ob s) !! m = Some v ->
  (forall u, m ∉ C u) -> tcbs s !! t = Some x -> live (task_state x) = true -> b_prio x <> RHINO_IDLE_PRI ->
  pended (task_state x) = false ->
  minv None (own s t x m v) (<[t := m :: C t]> C).
Proof.
  intros HM Hh Hmx Hv Hfree Ht Hl Hb Hp. pose proof HM as [H1 H2 H3 H4 H5 H6].
  assert (HCu : forall u n, n ∈ (<[t := m :: C t]> C) u <-> n ∈ C u \/ (n = m /\ u = t)).
  { intros u n. destruct (decide (t = u)) as [<-|].
    - rewrite fn_lookup_insert. set_solver.
    - rewrite fn_lookup_insert_ne by done. naive_solver. }
  split; simpl.
  - intros u y. destruct (decide (t = u)) as [<-|Hne].
    + rewrite lookup_insert_eq, fn_lookup_insert. intros [= <-] _. simpl. split; [done|].
      eexists. rewrite lookup_insert_eq. split; [done|]. simpl. eapply mchain_ext; [by apply H1|].
      intros n Hn. rewrite lookup_insert_ne; [done|]. intros ->. by destruct (Hfree t).
    + rewrite lookup_insert_ne, fn_lookup_insert_ne by done. intros Hy Hly. eapply mchain_ext; [by apply H1|].
      intros n Hn. rewrite lookup_insert_ne; [done|]. intros ->. by destruct (Hfree u).
  - intros u n. rewrite HCu, H2. destruct (decide (n = m)) as [->|Hne].
    + rewrite lookup_insert_eq. split.
      * intros [Hn|[_ ->]]; [by destruct (Hfree u); apply H2|]. split_and!; [done|done|]. by eexists.
      * intros (_ & _ & w & [= <-] & [= ->]). by right.
    + rewrite lookup_insert_ne by done. split.
      * intros [(? & ? & ?)|[? _]]; done.
      * intros (_ & ? & ?). left. split_and!; try done. destruct Hh as [-> | ->]; congruence.
  - intros u n [Hn|[-> ->]]%HCu.
    + destruct (H3 u n Hn) as (y & Hy & ?). destruct (decide (t = u)) as [<-|]; simplify_map_eq; eauto.
    + eexists. rewrite lookup_insert_eq. done.
  - intros u y n Hy Hpy Hoy Hmn _. destruct (decide (t = u)) as [<-|Hne].
    + rewrite lookup_insert_eq in Hy. injection Hy as <-. simpl in Hpy. congruence.
    + rewrite lookup_insert_ne in Hy by done. destruct (decide (n = m)) as [->|Hnm].
      * exists t. rewrite HCu. naive_solver.
      * destruct (H4 u y n Hy Hpy Hoy Hmn) as (w & Hw & ?); [destruct Hh as [-> | ->]; congruence|].
        exists w. rewrite HCu. naive_solver.
  - intros n b Hb' Hty. split; [by apply (H5 n b)|]. destruct (decide (n = m)) as [->|].
    + rewrite lookup_insert_eq. by eexists.
    + rewrite lookup_insert_ne by done. by apply (H5 n b).
  - intros u y Hy. destruct (decide (t = u)) as [<-|]; simplify_map_eq; [by apply (H6 t)|by apply (H6 u)].
Qed.

(** The waiting tasks of [m] do not have a higher priority than [t]. *)
Lemma pinv_own s A C t x m v :
  pinv s A C -> tcbs s !! t = Some x -> (forall u, u ∈ A (LBlk m) -> prio x <= prio_of (tcbs s) u) ->
  pinv (own s t x m v) A (<[t := m :: C t]> C).
Proof.
  intros HP Ht Hw u y Hy Hl. simpl in *.
  assert (Hpr : forall w, prio_of (<[t := set_task_mutex_list (Some m) x]> (tcbs s)) w = prio_of (tcbs s) w).
  { intros w. unfold prio_of. destruct (decide (w = t)) as [->|]; simplify_map_eq; done. }
  rewrite (base_of_insert _ _ _ _ _ Ht) by done. destruct (decide (t = u)) as [<-|Hne].
  - rewrite lookup_insert_eq in Hy. injection Hy as <-. simpl in *. destruct (HP t x Ht Hl) as (H1 & H2 & H3).
    assert (Hwt : forall w, waits A (<[t := m :: C t]> C) t w <-> waits A C t w \/ w ∈ A (LBlk m)).
    { intros w. unfold waits. rewrite fn_lookup_insert. setoid_rewrite elem_of_cons. naive_solver. }
    split_and!; [done| |].
    + intros w [Hw'|Hw']%Hwt; rewrite Hpr; auto.
    + destruct H3 as [?|(w & ? & ?)]; [by left|right]. exists w. rewrite Hwt, Hpr. auto.
  - rewrite lookup_insert_ne in Hy by done. eapply is_min_ext; [by apply (HP u)| |auto].
    intros w. unfold waits. by rewrite fn_lookup_insert_ne.
Qed.

(** Changes to a mutex that keep its owner and its link. *)
Lemma minv_nested h s C m v v' :
  minv h s C -> mutexes (ob s) !! m = Some v -> mutex_task v' = mutex_task v -> mutex_list v' = mutex_list v ->
  minv h (with_mutex s m v') C.
Proof.
  intros [H1 H2 H3 H4 H5 H6] Hv E1 E2. split; simpl; try done.
  - intros t x Hx Hl. eapply mchain_ext; [by apply H1|]. intros n _.
    destruct (decide (n = m)) as [->|]; simplify_map_eq; [|done]. simpl. by rewrite E2.
  - intros t n. rewrite H2. destruct (decide (n = m)) as [->|]; [|by rewrite lookup_insert_ne].
    rewrite lookup_insert_eq, Hv. split; intros (? & ? & w & [= <-] & E); (split_and!; [done..|]); eexists; split; eauto; congruence.
  - intros n b Hb Hty. split; [by apply (H5 n b)|]. destruct (decide (n = m)) as [->|]; simplify_map_eq; [by eexists|].
    by apply (H5 n b).
Qed.

(** The mutex becomes free. *)
Lemma minv_free s C m v v' :
  minv (Some m) s C -> mutexes (ob s) !! m = Some v -> mutex_task v' = None -> mutex_list v' = mutex_list v ->
  (forall t x, tcbs s !! t = Some x -> pended (task_state x) = true -> task_blk_obj x <> Some m) ->
  minv None (with_mutex s m v') C.
Proof.
  intros [H1 H2 H3 H4 H5 H6] Hv E1 E2 Hnw. split; simpl; try done.
  - intros t x Hx Hl. eapply mchain_ext; [by apply H1|]. intros n _.
    destruct (decide (n = m)) as [->|]; simplify_map_eq; [|done]. simpl. by rewrite E2.
  - intros t n. rewrite H2. destruct (decide (n = m)) as [->|].
    + rewrite lookup_insert_eq. split; [by intros [? _]|]. intros (_ & _ & w & [= <-] & ?). congruence.
    + rewrite lookup_insert_ne by done. naive_solver.
  - intros t x n Hx Hp Ho Hmx _. apply (H4 t x n); try done. intros [= ->]. by eapply Hnw.
  - intros n b Hb Hty. split; [by apply (H5 n b)|]. destruct (decide (n = m)) as [->|]; simplify_map_eq; [by eexists|].
    by apply (H5 n b).
Qed.

Lemma kinv_mutex s A m v : kinv s A -> kinv (with_mutex s m v) A.
Proof. intros. by apply kinv_ob. Qed.

Lemma obj_inv_mutex h s A m v : obj_inv h s A -> obj_inv h (with_mutex s m v) A.
Proof. intros [Hs He Hq]. split; [done|done|intros o; by eapply store_ok_frame]. Qed.

Lemma kwf_nested s A m v v' :
  kwf s A -> mutexes (ob s) !! m = Some v -> mutex_task v' = mutex_task v -> mutex_list v' = mutex_list v ->
  kwf (with_mutex s m v') A.
Proof.
  intros [[HI HG HT (C & HM & HP) HO] ???] Hv E1 E2. split; [|done..].
  split; [by apply kinv_mutex|done|done| |by apply obj_inv_mutex]. exists C. split; [by eapply minv_nested|done].
Qed.

Lemma kgood_own s A C t x m v :
  kinv s A -> gl_ok (gl s) -> tick_pos s A -> obj_inv None s A -> minv None (own s t x m v) (<[t := m :: C t]> C) ->
  pinv s A C -> tcbs s !! t = Some x -> (forall u, u ∈ A (LBlk m) -> prio x <= prio_of (tcbs s) u) ->
  kgood (own s t x m v) A.
Proof.
  intros HI HG HT HO HM HP Ht Hw. split; [|done| | |].
  - eapply (kinv_same_place (with_mutex s m (owned_by t x v))); [by apply kinv_mutex|done|done].
  - intros u Hu. simpl. rewrite (tick_rest_same_match _ _ _ x) by done. by apply HT.
  - exists (<[t := m :: C t]> C). split; [done|by apply pinv_own].
  - eapply obj_inv_sub; [by apply (obj_inv_mutex None s A m (owned_by t x v))|done|done|].
    intros u z. simpl. by eapply same_request_insert.
Qed.
End Own.

(** ** Locking *)

Section Lock.
Implicit Types (s : kstate) (A : queues) (C : tid -> list oid) (a t u : tid) (x y : ktask_t) (m : oid) (v : kmutex_t).

Lemma mutex_free_no_waiter s A C m v :
  kinv s A -> minv None s C -> is_mutex (ob s) m -> mutexes (ob s) !! m = Some v -> mutex_task v = None ->
  A (LBlk m) = [] /\ (forall u, m ∉ C u).
Proof.
  intros HI HM Hm Hv Hn.
  assert (Hf : forall u, m ∉ C u) by (intros u (_ & _ & w & Hw & ?)%(mi_own _ _ _ HM); congruence).
  split; [|done]. destruct (A (LBlk m)) as [|t r] eqn:E; [done|].
  destruct (first_waiter s A m t r HI E) as (x & Hx & Hp & Ho).
  destruct (mi_wait _ _ _ HM _ _ _ Hx Hp Ho Hm) as (u & Hu & _); [done|]. by destruct (Hf u).
Qed.

(** The owner inherits the priority of the caller before the caller joins
    the waiting list. *)
Definition boost (tc : gmap tid ktask_t) mt (p : Z) (u : tid) : Z :=
  if decide (u = mt) then Z.min (base_of tc u) p else base_of tc u.

Lemma wp_boost s A C mt y p (Q : unit -> kstate -> Prop) :
  kinv s A -> minv None s C -> pinv s A C -> tcbs s !! mt = Some y -> live (task_state y) = true ->
  b_prio y <> RHINO_IDLE_PRI -> 0 <= p ->
  (forall l' q' tc' A', kinv (retask l' q' tc' s) A' -> requeued A A' -> minv None (retask l' q' tc' s) C ->
     (forall u, pinv_at (retask l' q' tc' s) A' C (boost (tcbs s) mt p) u) -> prio_only (tcbs s) tc' ->
     raised p (tcbs s) tc' -> Q tt (retask l' q' tc' s)) ->
  wp (when (p <? prio y) (task_pri_change mt p ;; ret tt)) Q s.
Proof.
  intros HI HM HP Hy Hl Hb Hp HQ. pose proof (HP mt y Hy Hl) as Hmin.
  destruct (Z.ltb_spec p (prio y)) as [Hlt|Hge]; simpl.
  - apply wp_bind. eapply (wp_task_pri_raise s A C (boost (tcbs s) mt p)); [done..| | |].
    + intros u Hu z Hz Hlz. unfold boost. rewrite decide_False by done. by apply (HP u).
    + unfold boost. rewrite decide_True by done. destruct Hmin as (H1 & H2 & _). split_and!; [lia| |left; lia].
      intros w Hw. specialize (H2 w Hw). lia.
    + intros l' q' tc' A' s' HI' HR HM' HP' Ho Hra. apply wp_ret. by apply (HQ l' q' tc' A').
  - apply wp_ret. destruct s. apply (HQ lm rq tcbs A); try done.
    + intros u z Hz Hlz. unfold boost. case_decide as E; [|by apply (HP u)]. subst u.
      apply is_min_bound; [by apply HP|]. simpl in *. simplify_eq. done.
    + apply prio_only_refl.
    + intros u. by left.
Qed.

(** The caller [a] blocked on [m]; other tasks changed in priority only,
    and only to the priority of [a]. *)
Definition lock_blocked s s' A A' a x m ticks : Prop :=
  exists tc1 A1 l1 q1 top, prio_only (tcbs s) tc1 /\ raised (prio x) (tcbs s) tc1 /\ requeued A A1 /\
    tcbs s' = <[a := blocked (gl s) m ticks x]> tc1 /\
    A' = block_queues (retask l1 q1 tc1 s) BLK_POLICY_PRI m ticks a x A1 /\ ob s' = ob s /\
    top_ready A' top /\ gl s' = resched top (gl s).

Lemma pinv_blocked l' q' s A C a x m mt timeout tc0 :
  kinv s A -> minv None s C -> tcbs s !! a = Some x -> task_state x = K_RDY -> m ∈ C mt ->
  (forall u, base_of tc0 u = base_of (tcbs s) u) ->
  (forall u, pinv_at s A C (boost tc0 mt (prio x)) u) ->
  pinv (retask l' q' (<[a := blocked (gl s) m timeout x]> (tcbs s)) s) (block_queues s BLK_POLICY_PRI m timeout a x A) C.
Proof.
  intros HI HM Ha Hr Hm Hb HP u z Hz Hl. simpl in *.
  destruct (blocked_fields (gl s) m timeout x) as (F1 & F2 & _).
  assert (Hpr : forall w, prio_of (<[a := blocked (gl s) m timeout x]> (tcbs s)) w = prio_of (tcbs s) w).
  { intros w. unfold prio_of. destruct (decide (w = a)) as [->|]; simplify_map_eq; [|done]. by rewrite F2. }
  assert (exists z', tcbs s !! u = Some z' /\ live (task_state z') = true /\ prio z' = prio z) as (z' & Hz' & Hl' & Ep).
  { destruct (decide (u = a)) as [->|]; simplify_map_eq; [|by exists z]. exists x. rewrite Hr, F2. done. }
  rewrite (base_of_insert _ _ _ _ _ Ha) by (unfold blocked, armed; by destruct (_ =? _)).
  specialize (HP u z' Hz' Hl'). unfold boost in HP. rewrite Hb in HP. rewrite <- Ep.
  assert (Hw : forall w, waits (block_queues s BLK_POLICY_PRI m timeout a x A) C u w <-> waits A C u w \/ (u = mt /\ w = a)).
  { intros w. unfold waits. split.
    - intros (n & Hn & Hw). rewrite block_queues_blk in Hw. destruct (decide (m = n)) as [<-|]; [|naive_solver].
      apply elem_of_blk_insert in Hw as [->|Hw]; [right|left; eauto]. split; [|done].
      exact (mi_unique None s C m u mt HM Hn Hm).
    - intros [(n & Hn & Hw)|[-> ->]].
      + exists n. split; [done|]. rewrite block_queues_blk. destruct (decide (m = n)) as [<-|]; [apply elem_of_blk_insert; auto|done].
      + exists m. split; [done|]. rewrite block_queues_blk, decide_True by done. apply elem_of_blk_insert. by left. }
  case_decide as E.
  - subst u. eapply (is_min_ext (tcbs s)); [|done|by intros; apply Hpr].
    eapply is_min_absorb; [exact HP|by apply prio_of_lookup|]. intros w. rewrite Hw. naive_solver.
  - eapply (is_min_ext (tcbs s)); [exact HP| |by intros; apply Hpr]. intros w. rewrite Hw. naive_solver.
Qed.

Definition nested v : kmutex_t :=
  mkMutex (mutex_task v) (mutex_list v) (u32 (owner_nested v + 1)) (mutex_mm_alloc_flag v).

Lemma wp_mutex_exit {R : Type} A s m v0 v (r : R) (Q : R -> kstate -> Prop) :
  kwf s A -> mutexes (ob s) !! m = Some v0 -> mutex_task v = mutex_task v0 -> mutex_list v = mutex_list v0 ->
  (kwf (with_mutex s m v) A -> Q r (with_mutex s m v)) ->
  wp (mutex_put m v ;; critical_exit false ;; ret r) Q (with_gl (set_primask true (gl s)) s).
Proof.
  intros HW Hv E1 E2 HQ. unfold mutex_put. wsteps. apply wp_critical_exit.
  - by apply gl_ok_mask, (kw_gl _ _ HW).
  - apply wp_ret. rewrite <- (kwf_noop s A HW) in HQ. apply HQ. rewrite (kwf_noop s A HW). by eapply kwf_nested.
Qed.

(** A free mutex goes to the caller. *)
Lemma kwf_own s A a x m v :
  kwf s A -> has_type s m RHINO_MUTEX_OBJ_TYPE -> mutexes (ob s) !! m = Some v -> mutex_task v = None ->
  tcbs s !! a = Some x -> task_state x = K_RDY -> prio x <> RHINO_IDLE_PRI -> kwf (own s a x m v) A.
Proof.
  intros [[HI HG HT (C & HM & HP) HO] Hm Ha Ht] Hty Hv Hn Hx Hr Hp.
  destruct (mutex_free_no_waiter s A C m v HI HM Hty Hv Hn) as [HA Hf].
  assert (b_prio x <> RHINO_IDLE_PRI) by (pose proof (mi_prio _ _ _ HM _ _ Hx); tauto).
  split; [|done| |done].
  - eapply (kgood_own s A C); try done.
    + eapply minv_own; try done; [by left|by rewrite Hr..].
    + rewrite HA. set_solver.
  - intros E. destruct (Ha E) as (c & y & Hc & Hy & Hry). unfold active_ready. simpl.
    destruct (decide (c = a)) as [->|].
    + exists a, (set_task_mutex_list (Some m) x). by rewrite lookup_insert_eq.
    + exists c, y. by rewrite lookup_insert_ne.
Qed.

(** The caller blocks: the owner is boosted, then the caller joins the
    waiting list. *)
Lemma wp_lock_block s A m v b mt a x ticks (Q : callres kstat_t -> kstate -> Prop) :
  kwf s A -> blks (ob s) !! m = Some b -> obj_type b = RHINO_MUTEX_OBJ_TYPE -> mutexes (ob s) !! m = Some v ->
  mutex_task v = Some mt -> mt <> a -> tcbs s !! a = Some x -> task_state x = K_RDY -> prio x <> RHINO_IDLE_PRI ->
  timeout_ok ticks -> g_sched_lock (gl s) = 0 ->
  (forall s' A', kwf s' A' -> lock_blocked s s' A A' a x m ticks -> Q (Switched pend_end) s') ->
  wp (x <- task_get a ;;
      y <- task_get mt ;;
      when (prio x <? prio y) (task_pri_change mt (prio x) ;; ret tt) ;;
      pend_to_blk_obj m a ticks ;;
      critical_exit_sched false ;;
      ret (Switched pend_end)) Q (with_gl (set_primask true (gl s)) s).
Proof.
  intros HW Hb Hbt Hv Emt Hne Hx Hr Hp Hto Hl HQ.
  destruct (kwf_enter _ _ HW) as [HI HG HT (C & HM & HP) HO].
  assert (Hmt : m ∈ C mt) by (apply (mi_own _ _ _ HM); split_and!; [done|by exists b|by exists v]).
  destruct (mi_owner _ _ _ HM _ _ Hmt) as (y & Hy & Hly & Hby).
  apply wp_bind, (wp_task_get _ x); [done|]. apply wp_bind, (wp_task_get _ y); [done|].
  apply wp_bind. eapply wp_boost; [done..| |].
  { by apply (ok_prio _ _ (ki_task _ _ HI _ _ Hx)). }
  intros l1 q1 tc1 A1 HI1 Hrq HM1 HP1 Ho1 Hra1.
  assert (Hx1 : tc1 !! a = Some x).
  { rewrite (prio_only_some _ _ _ _ Ho1 Hx). f_equal. apply set_prio_id.
    destruct (Hra1 a) as [E|[_ E]]; simpl in *; rewrite (prio_of_lookup _ _ _ Hx) in E; [done|lia]. }
  apply wp_bind.
  eapply (wp_pend_to_blk_obj _ A1 a x m b ticks); [done|done|done|done|done|done|].
  intros l2 q2 HI2.
  assert (Epol : blk_policy b = BLK_POLICY_PRI) by by apply (mi_mutex _ _ _ HM m b).
  rewrite Epol in HI2.
  assert (HK2 : kgood (retask l2 q2 (<[a := blocked (gl s) m ticks x]> tc1) (with_gl (set_primask true (gl s)) s))
    (block_queues (retask l1 q1 tc1 (with_gl (set_primask true (gl s)) s)) BLK_POLICY_PRI m ticks a x A1)).
  { split; [exact HI2|done| | |].
    - apply (tick_pos_block l2 q2 (retask l1 q1 tc1 (with_gl (set_primask true (gl s)) s))); try done.
      by eapply tick_pos_reprio.
    - exists C. split.
      + eapply (minv_task_wait None l2 q2 _ _ (retask l1 q1 tc1 (with_gl (set_primask true (gl s)) s)) C a x); [exact HM1|exact Hx1|..]; unfold blocked, armed; try (by destruct (_ =? _)).
        * destruct (ticks =? RHINO_WAIT_FOREVER); simpl; by rewrite Hr.
        * intros m' _ Hm' _ _. exists mt. assert (m' = m) as ->; [|done].
          destruct (ticks =? RHINO_WAIT_FOREVER); simpl in Hm'; congruence.
      + eapply (pinv_blocked l2 q2 (retask l1 q1 tc1 (with_gl (set_primask true (gl s)) s))); [exact HI1|exact HM1|done|done|done| |exact HP1].
        intros u. unfold base_of. cbn [tcbs retask]. rewrite (Ho1 u). cbn [tcbs with_gl]. by destruct (tcbs s !! u).
    - apply (obj_inv_blocked l2 q2 (retask l1 q1 tc1 (with_gl (set_primask true (gl s)) s)) A1 a x m (mkBlk BLK_POLICY_PRI RHINO_OBJ_TYPE_NONE)); [by eapply obj_inv_reprio|done|].
      split_and!; intros (b' & Hb' & Ht'); simpl in Hb'; simplify_eq; congruence. }
  apply (wp_exit_resched (block_queues (retask l1 q1 tc1 (with_gl (set_primask true (gl s)) s)) BLK_POLICY_PRI m ticks a x A1)); [exact HK2|simpl; lia|].
  intros top Htop HW'. eapply HQ; [exact HW'|].
  exists tc1, A1, l1, q1, top. split_and!; done || apply resched_unmask.
Qed.

Lemma wp_mutex_lock s A m v ticks a x (Q : callres kstat_t -> kstate -> Prop) :
  kwf s A -> has_type s m RHINO_MUTEX_OBJ_TYPE -> mutexes (ob s) !! m = Some v ->
  g_active_task (gl s) = Some a -> tcbs s !! a = Some x -> prio x <> RHINO_IDLE_PRI ->
  ticks = RHINO_NO_WAIT \/ timeout_ok ticks ->
  (0 < g_intrpt_nested_level (gl s) -> Q (Returned RHINO_NOT_CALLED_BY_INTRPT) s) ->
  (g_intrpt_nested_level (gl s) = 0 -> mutex_task v = Some a -> owner_nested v <> 2 ^ 32 - 1) ->
  (g_intrpt_nested_level (gl s) = 0 -> mutex_task v = Some a ->
     kwf (with_mutex s m (nested v)) A -> Q (Returned RHINO_MUTEX_OWNER_NESTED) (with_mutex s m (nested v))) ->
  (g_intrpt_nested_level (gl s) = 0 -> mutex_task v = None -> kwf (own s a x m v) A ->
     Q (Returned RHINO_SUCCESS) (own s a x m v)) ->
  (forall mt, g_intrpt_nested_level (gl s) = 0 -> mutex_task v = Some mt -> mt <> a -> ticks = RHINO_NO_WAIT ->
     Q (Returned RHINO_NO_PEND_WAIT) s) ->
  (forall mt, g_intrpt_nested_level (gl s) = 0 -> mutex_task v = Some mt -> mt <> a -> ticks <> RHINO_NO_WAIT ->
     0 < g_sched_lock (gl s) -> Q (Returned RHINO_SCHED_DISABLE) s) ->
  (forall mt s' A', g_intrpt_nested_level (gl s) = 0 -> mutex_task v = Some mt -> mt <> a -> ticks <> RHINO_NO_WAIT ->
     g_sched_lock (gl s) = 0 -> kwf s' A' -> lock_blocked s s' A A' a x m ticks -> Q (Switched pend_end) s') ->
  wp (krhino_mutex_lock (Some m) ticks) Q s.
Proof.
  intros HW Hty Hv Ha Hx Hp Hto Q1 Hov Q2 Q3 Q4 Q5 Q6. pose proof Hty as (b & Hb & Hbt).
  unfold krhino_mutex_lock, blk_get, mutex_get, active_get. wsteps.
  pose proof (kw_gl _ _ HW) as [Hn Hl _ Hrun _]. rewrite Hrun. rewrite bool_decide_false by done.
  apply wp_bind, (wp_kwf_enter A); [done|].
  destruct (Z.ltb_spec 0 (g_intrpt_nested_level (gl s))) as [Hi|Hi]; [apply (wp_exit_ret A); auto|].
  wsteps. rewrite bool_decide_true by done. cbn [negb]. wsteps.
  assert (g_intrpt_nested_level (gl s) = 0) as E0 by lia.
  destruct (kwf_active _ _ HW E0) as (a0 & x0 & Ha0 & Hx0 & Hr). assert (a0 = a) as -> by congruence. assert (x0 = x) as -> by congruence.
  case_bool_decide as Eo.
  { symmetry in Eo. rewrite (proj2 (Z.eqb_neq _ _)) by by apply Hov.
    eapply wp_mutex_exit; [done..|]. intros HW'. apply Q2; auto. }
  destruct (mutex_task v) as [mt|] eqn:Emt.
  2:{ wsteps. apply (wp_task_get _ x); [done|]. unfold mutex_put. wsteps.
      apply (wp_task_upd _ x); [done|]. apply wp_bind, wp_critical_exit; [by apply gl_ok_mask, (kw_gl _ _ HW)|]. apply wp_ret.
      assert (HW' : kwf (own s a x m v) A) by by apply kwf_own.
      rewrite <- (kwf_noop s A HW) in Q3, HW'. by apply Q3. }
  assert (mt <> a) by congruence.
  destruct (Z.eqb_spec ticks RHINO_NO_WAIT) as [Ht|Ht]; [apply (wp_exit_ret A); eauto|].
  destruct (Z.ltb_spec 0 (g_sched_lock (gl s))) as [Hs|Hs]; [apply (wp_exit_ret A); eauto|].
  destruct Hto as [?|Hto]; [done|].
  apply (wp_lock_block s A m v b mt a x ticks); try done; [lia|].
  intros s' A' HW' Hbl. eapply Q6; eauto. lia.
Qed.

(** The caller owns the mutex and has locked it as often as the counter
    counts. *)
Definition lock_overflows s a (v : kmutex_t) : Prop :=
  g_intrpt_nested_level (gl s) = 0 /\ mutex_task v = Some a /\ owner_nested v = 2 ^ 32 - 1.

#[global] Instance lock_overflows_dec s a v : Decision (lock_overflows s a v).
Proof. unfold lock_overflows. apply _. Defined.

(** The owner of a mutex at the deepest level ends in the error handler. *)
Lemma mutex_lock_hangs s A m v ticks a :
  kwf s A -> has_type s m RHINO_MUTEX_OBJ_TYPE -> mutexes (ob s) !! m = Some v -> g_active_task (gl s) = Some a ->
  g_intrpt_nested_level (gl s) = 0 -> mutex_task v = Some a -> owner_nested v = 2 ^ 32 - 1 ->
  krhino_mutex_lock (Some m) ticks s = None.
Proof.
  intros HW (b & Hb & Hbt) Hv Ha E0 Eo En. pose proof (kw_gl _ _ HW) as [_ _ _ Hrun _].
  unfold krhino_mutex_lock, blk_get, mutex_get, active_get. apply stuck_bind, wp_gets. rewrite Hrun, bool_decide_false by done.
  apply stuck_bind, (wp_kwf_enter A); [done|]. rewrite (proj2 (Z.ltb_ge _ _)) by lia. apply stuck_bind. wsteps.
  rewrite bool_decide_true by done. cbn [negb]. apply stuck_bind. wsteps. apply stuck_bind. wsteps.
  by rewrite bool_decide_true, En.
Qed.
End Lock.

(** ** Unlocking *)

(** The invariant while [m] is between owners. *)
Record khalf (m : oid) (s : kstate) (A : queues) (C : tid -> list oid) : Prop := mkKhalf {
  kh_inv : kinv s A;
  kh_gl : gl_ok (gl s);
  kh_tick : tick_pos s A;
  kh_minv : minv (Some m) s C;
  kh_pinv : pinv s A C;
  kh_obj : obj_inv None s A;
}.

Section Unlock.
Implicit Types (s : kstate) (A : queues) (C : tid -> list oid) (a t u : tid) (x y : ktask_t) (m : oid) (v : kmutex_t).

(** A ready task changes its priority: it is no waiter. *)
Lemma wp_task_pri_change_ready s A t x p (Q : kstat_t -> kstate -> Prop) :
  kinv s A -> tcbs s !! t = Some x -> task_state x = K_RDY -> prio x <> RHINO_IDLE_PRI ->
  0 <= p < RHINO_CONFIG_PRI_MAX -> p <> prio x ->
  (forall l' q' A', kinv (reprio l' q' t x p s) A' -> blk_same A A' -> Q RHINO_SUCCESS (reprio l' q' t x p s)) ->
  wp (task_pri_change t p) Q s.
Proof.
  intros HI Ht Hr Hi Hp Hne HQ. unfold task_pri_change. wsteps. simpl. apply wp_bind. unfold task_pri_change_step.
  apply wp_bind, (wp_task_get _ x); [done|]. rewrite (proj2 (Z.eqb_neq (prio x) p)) by done. rewrite Hr.
  assert (Hw : wp (bind (ready_list_rm t ;; task_upd t (set_prio p) ;; g <- gets gl ;;
      if bool_decide (Some t = g_active_task g) then ready_list_add_head t else ready_list_add_tail t)
      (fun _ => ret (inr None))) (fun (r : kstat_t + option (tid * Z)) s' => wp (match r with
        | inl st => ret st | inr None => ret RHINO_SUCCESS
        | inr (Some (t, p)) => task_pri_change_loop (size (tcbs s) * Z.to_nat RHINO_CONFIG_PRI_MAX) t p end) Q s') s).
  { apply wp_bind, (wp_set_prio_ready s A t x p); [done..|]. intros l' q' A' HI' Hrq. apply wp_ret, wp_ret. by apply (HQ l' q' A'). }
  revert Hw. unfold wp, bind. destruct (ready_list_rm t s) as [[[] s1]|]; [|done].
  by destruct (task_upd t (set_prio p) s1) as [[[] s2]|].
Qed.

Lemma let_go_base s t x m v C s' C' u :
  let_go s t x m v C s' C' -> tcbs s !! t = Some x ->
  base_of (tcbs s') u = base_of (tcbs s) u /\ prio_of (tcbs s') u = prio_of (tcbs s) u.
Proof.
  intros [(l & mm & ->) _ _ _] Ht. simpl. split.
  - by eapply base_of_insert.
  - unfold prio_of. destruct (decide (u = t)) as [->|]; simplify_map_eq; done.
Qed.

(** Other tasks do not notice that [t] let go of [m]. *)
Lemma pinv_let_go s A t x m v C s' C' u :
  pinv s A C -> tcbs s !! t = Some x -> let_go s t x m v C s' C' -> u <> t ->
  pinv_at s' A C' (base_of (tcbs s')) u.
Proof.
  intros HP Ht HL Hu y Hy Hl. destruct (let_go_base s t x m v C s' C' u HL Ht) as [-> _].
  assert (Hy' : tcbs s !! u = Some y).
  { destruct HL as [(l & mm & ->) _ _ _]. simpl in Hy. by rewrite lookup_insert_ne in Hy. }
  eapply is_min_ext; [by apply (HP u)| |].
  - intros w. unfold waits. rewrite (lg_chain _ _ _ _ _ _ _ _ HL). by rewrite fn_lookup_insert_ne.
  - intros w _. by apply (let_go_base s t x m v C s' C' w HL Ht).
Qed.

Lemma let_go_frame s A t x m v C s' C' :
  tick_pos s A -> obj_inv None s A -> tcbs s !! t = Some x -> let_go s t x m v C s' C' ->
  tick_pos s' A /\ obj_inv None s' A.
Proof.
  intros HT [Hs He Hq] Ht [(l & mm & ->) _ _ _]. split.
  - intros u Hu. simpl. rewrite (tick_rest_same_match _ _ _ x) by done. by apply HT.
  - split; simpl; [exact Hs| |intros o; by eapply store_ok_frame]. intros o Ho Hh.
    destruct (He o Ho Hh) as (w & Hw & Hok). exists w. split; [done|]. eapply event_ok_sub; [done|done|].
    intros t' z _ Hz. eapply same_request_insert; [exact Ht| |exact Hz]; done.
Qed.

Lemma khalf_let_go s A t x m v C s' C' p :
  kgood s A -> minv None s C -> pinv s A C -> tcbs s !! t = Some x -> let_go s t x m v C s' C' -> kinv s' A ->
  is_min (tcbs s') (b_prio x) (waits A C' t) p -> p = prio x -> khalf m s' A C'.
Proof.
  intros [HI HG HT _ HO] HM HP Ht HL HI' Hmin Ep. pose proof HL as [(l & mm & E) _ _ HM'].
  destruct (let_go_frame s A t x m v C s' C' HT HO Ht HL) as [HT' HO'].
  split; [done|by subst s'|done|done| |done].
  - intros u. destruct (decide (u = t)) as [->|]; [|by eapply pinv_let_go].
    assert (Ht' : tcbs s' !! t = Some (set_task_mutex_list l x)) by (subst s'; simpl; by rewrite lookup_insert_eq).
    eapply pinv_at_keep; [exact Ht'|]. rewrite (base_of_lookup _ _ _ Ht'). simpl. by rewrite <- Ep.
Qed.

(** The state after [mutex_release(task, m)]. *)
Definition release_state l' q' (lst : option oid) mm' p t x s : kstate :=
  mkK l' q' (<[t := set_prio p (set_task_mutex_list lst x)]> (tcbs s)) (gl s) (set_mutexes mm' (ob s)) (umem s).

Lemma khalf_reprio l' q' s A A' C m t x p :
  kinv s A -> gl_ok (gl s) -> tick_pos s A -> minv (Some m) s C -> obj_inv None s A ->
  (forall u, u <> t -> pinv_at s A C (base_of (tcbs s)) u) -> tcbs s !! t = Some x -> task_state x = K_RDY ->
  is_min (tcbs s) (b_prio x) (waits A C t) p -> b_prio x <> RHINO_IDLE_PRI -> p <> RHINO_IDLE_PRI ->
  kinv (reprio l' q' t x p s) A' -> requeued A A' -> khalf m (reprio l' q' t x p s) A' C.
Proof.
  intros HI HG HT HM HO HP Ht Hr Hmin Hb Hp HI' Hrq.
  assert (Hpo : prio_only (tcbs s) (<[t := set_prio p x]> (tcbs s))) by (eapply prio_only_step; [exact Ht|apply prio_only_refl]).
  split; [done|done|by apply (tick_pos_reprio l' q' _ s A)|by apply minv_set_prio| |by apply (obj_inv_reprio None l' q' _ s A)].
  intros u y Hy Hl. simpl. rewrite (base_of_insert _ _ _ _ _ Ht) by done. revert y Hy Hl.
  destruct (decide (u = t)) as [->|Hne].
  - eapply pinv_at_self; [exact HI|exact HM|by rewrite (base_of_lookup _ _ _ Ht)|done].
  - apply (pinv_at_other l' q' s A); [by apply HP|done| |done].
    intros (n & _ & Hn). apply (kinv_in _ _ _ _ (LBlk n) HI Ht) in Hn as [E _]. by rewrite Hr in E.
Qed.

Lemma wp_mutex_release_some s A C t x m v (Q : unit -> kstate -> Prop) :
  kgood s A -> minv None s C -> pinv s A C -> tcbs s !! t = Some x -> task_state x = K_RDY ->
  b_prio x <> RHINO_IDLE_PRI -> m ∈ C t -> mutexes (ob s) !! m = Some v ->
  (forall l' q' A' C' lst mm' p, let s' := release_state l' q' lst mm' p t x s in
     khalf m s' A' C' -> blk_same A A' -> mm' !! m = Some v -> (forall u n, n ∈ C' u <-> n ∈ C u /\ n <> m) ->
     (A (LBlk m) = [] -> p = prio x /\ A' = A) -> Q tt s') ->
  wp (mutex_release t (Some m)) Q s.
Proof.
  intros HK HM HP Ht Hr Hb Hm Hv HQ. pose proof (kg_inv _ _ HK) as HI.
  assert (Hl : live (task_state x) = true) by by rewrite Hr.
  unfold mutex_release. apply wp_bind, (wp_mutex_pri_look_some s A C t x m v); [done..|].
  intros r s1 C1 HL HI1 Hmin. pose proof HL as [(lst & mm & E) Hv1 HC1 HM1].
  assert (HCu : forall u n, n ∈ C1 u <-> n ∈ C u /\ n <> m).
  { intros u n. rewrite HC1. destruct (decide (t = u)) as [<-|Hne].
    - rewrite fn_lookup_insert, list_elem_of_filter. tauto.
    - rewrite fn_lookup_insert_ne by done. split; [|tauto]. intros Hn. split; [done|]. intros ->.
      apply Hne. exact (mi_unique None s C m t u HM Hm Hn). }
  assert (Ht1 : tcbs s1 !! t = Some (set_task_mutex_list lst x)) by (subst s1; simpl; by rewrite lookup_insert_eq).
  assert (Hr0 : 0 <= r < RHINO_IDLE_PRI).
  { pose proof (mi_prio _ _ _ HM _ _ Ht) as [Hbr _]. destruct Hmin as (M1 & _ & M3). split; [|unfold RHINO_IDLE_PRI in *; lia].
    destruct M3 as [->|(w & (n & _ & Hw) & ->)]; [lia|]. apply (ki_mem _ _ HI1) in Hw as (y & Hy & _).
    rewrite (prio_of_lookup _ _ _ Hy). by apply (ok_prio _ _ (ki_task _ _ HI1 _ _ Hy)). }
  assert (Hempty : A (LBlk m) = [] -> r = prio x).
  { intros HA. eapply is_min_unique; [exact Hmin|]. eapply is_min_ext; [|intros w|intros w _].
    - rewrite <- (base_of_lookup _ _ _ Ht). by apply HP.
    - unfold waits. split; intros (n & Hn & Hw); exists n; rewrite HCu in *; split; try done; [tauto|].
      split; [done|]. intros ->. rewrite HA in Hw. set_solver.
    - by apply (let_go_base s t x m v C s1 C1 w HL Ht). }
  apply wp_bind, (wp_task_get _ _ _ _ Ht1). cbn [prio set_task_mutex_list].
  destruct (Z.eqb_spec r (prio x)) as [Er|Er]; simpl.
  - apply wp_ret. specialize (HQ (lm s) (rq s) A C1 lst mm (prio x)).
    assert (release_state (lm s) (rq s) lst mm (prio x) t x s = s1) as Es.
    { rewrite E. unfold release_state. by rewrite set_prio_id. }
    cbv zeta in HQ. rewrite Es in HQ. apply HQ; try done.
    + by eapply khalf_let_go.
    + by subst s1.
  - destruct (mi_prio _ _ _ HM _ _ Ht) as [_ Hbi].
    apply wp_bind. eapply (wp_task_pri_change_ready s1 A t _ r); [done|exact Ht1|done|naive_solver|unfold RHINO_IDLE_PRI in *; lia|done|].
    intros l' q' A' HI' Hrq. apply wp_ret.
    assert (reprio l' q' t (set_task_mutex_list lst x) r s1 = release_state l' q' lst mm r t x s) as Es.
    { subst s1. unfold reprio, release_state. simpl. by rewrite insert_insert_eq. }
    assert (khalf m (reprio l' q' t (set_task_mutex_list lst x) r s1) A' C1) as Hh.
    { pose proof HK as [_ HG HT _ HO]. destruct (let_go_frame s A t x m v C s1 C1 HT HO Ht HL) as [HT' HO'].
      eapply (khalf_reprio l' q' s1 A); try done.
      - by subst s1.
      - intros u Hu. by eapply pinv_let_go.
      - lia.
      - by apply blk_same_requeued. }
    rewrite Es in *. eapply HQ; [exact Hh|done|by subst s1|done|]. intros HA. by destruct Er; apply Hempty.
Qed.

(** Waking the next owner. *)
Lemma khalf_unblocked l' q' s A C m w y bs :
  khalf m s A C -> tcbs s !! w = Some y -> pended (task_state y) = true -> task_blk_obj y = Some m ->
  kinv (retask l' q' (<[w := unblocked bs y]> (tcbs s)) s) (unblock_queues (active_prio s) w y m A) ->
  khalf m (retask l' q' (<[w := unblocked bs y]> (tcbs s)) s) (unblock_queues (active_prio s) w y m A) C.
Proof.
  intros [HI HG HT HM HP HO] Hy Hp Ho HI'.
  split; [done|done| | | |].
  - eapply tick_pos_sub; [done|done|]. intros u. rewrite unblock_queues_tick, elem_of_lrm. intros [Hne Hu].
    split; [done|]. simpl. by rewrite lookup_insert_ne.
  - eapply (minv_task (Some m) l' q'); [done..|by apply unblocked_mutex_same].
  - eapply (pinv_task (Some m) l' q'); [done..|by apply unblocked_mutex_same|].
    intros n u _ Hn. rewrite unblock_queues_other; [done|congruence].
  - eapply obj_inv_sub; [done|done|apply unblock_queues_sub|]. intros u z. simpl. by eapply same_request_insert.
Qed.

Lemma kgood_own_half s A C t x m v :
  khalf m s A C -> is_mutex (ob s) m -> mutexes (ob s) !! m = Some v -> (forall u, m ∉ C u) ->
  tcbs s !! t = Some x -> live (task_state x) = true -> b_prio x <> RHINO_IDLE_PRI -> pended (task_state x) = false ->
  (forall u, u ∈ A (LBlk m) -> prio x <= prio_of (tcbs s) u) -> kgood (own s t x m v) A.
Proof.
  intros [HI HG HT HM HP HO] Hm Hv Hf Ht Hl Hb Hp Hw. eapply (kgood_own s A C); try done.
  eapply minv_own; try done. by right.
Qed.

Lemma kgood_free_half s A C m v v' :
  khalf m s A C -> mutexes (ob s) !! m = Some v -> mutex_task v' = None -> mutex_list v' = mutex_list v ->
  A (LBlk m) = [] -> kgood (with_mutex s m v') A.
Proof.
  intros [HI HG HT HM HP HO] Hv E1 E2 HA. split; [by apply kinv_mutex|done|done| |by apply obj_inv_mutex].
  exists C. split; [|done]. eapply minv_free; try done. intros t x Hx Hp Ho.
  assert (t ∈ A (LBlk m)) as Ht by (apply (kinv_in _ _ _ _ (LBlk m) HI Hx); done). rewrite HA in Ht. set_solver.
Qed.
End Unlock.

Section UnlockCall.
Implicit Types (s : kstate) (A : queues) (C : tid -> list oid) (a t u w : tid) (x y : ktask_t) (m : oid) (v : kmutex_t).

Definition set_owner o v : kmutex_t := mkMutex o (mutex_list v) (owner_nested v) (mutex_mm_alloc_flag v).

(** The mutex passed to [w], the first waiting task. *)
Definition passed s s' A A' m v a x w : Prop :=
  exists y, tcbs s !! w = Some y /\
    tcbs s' !! w = Some (set_task_mutex_list (Some m) (unblocked BLK_FINISH y)) /\
    mutexes (ob s') !! m = Some (owned_by w y v) /\ blks (ob s') = blks (ob s) /\
    A' (LBlk m) = lrm w (A (LBlk m)) /\
    (exists p l, tcbs s' !! a = Some (set_prio p (set_task_mutex_list l x))) /\
    (forall u, u <> w -> u <> a -> tcbs s' !! u = tcbs s !! u) /\
    (exists top, top_ready A' top /\ gl s' = resched top (gl s)).

(** Nobody waits. *)
Definition let_loose s s' m a x : Prop :=
  gl s' = gl s /\ blks (ob s') = blks (ob s) /\
  (exists l, tcbs s' = <[a := set_task_mutex_list l x]> (tcbs s)) /\ (exists v, mutexes (ob s') !! m = Some v /\ mutex_task v = None).

(** The head of a waiting list ordered by priority. *)
Lemma head_le s A m b w ws u :
  kinv s A -> blks (ob s) !! m = Some b -> blk_policy b = BLK_POLICY_PRI -> A (LBlk m) = w :: ws -> u ∈ ws ->
  prio_of (tcbs s) w <= prio_of (tcbs s) u.
Proof.
  intros HI Hb Hp HA Hu. pose proof (ki_sorted _ _ HI _ _ Hb Hp) as Hs. rewrite HA in Hs.
  apply StronglySorted_inv in Hs as [_ Hf]. by eapply (proj1 (Forall_forall _ _) Hf).
Qed.

(** From [pend_task_wakeup] to the end of the call. *)
Lemma wp_unlock_pass s A C m v b w ws y (Q : kstat_t -> kstate -> Prop) :
  khalf m s A C -> blks (ob s) !! m = Some b -> obj_type b = RHINO_MUTEX_OBJ_TYPE -> blk_policy b = BLK_POLICY_PRI ->
  mutexes (ob s) !! m = Some v -> (forall u, m ∉ C u) -> A (LBlk m) = w :: ws -> tcbs s !! w = Some y ->
  b_prio y <> RHINO_IDLE_PRI -> (0 < g_sched_lock (gl s) -> active_ready s) ->
  (forall l' q' top, let s1 := own (retask l' q' (<[w := unblocked BLK_FINISH y]> (tcbs s)) s) w (unblocked BLK_FINISH y) m v in
     let A' := unblock_queues (active_prio s) w y m A in
     kwf (with_gl (resched top (gl s)) s1) A' -> top_ready A' top -> Q RHINO_SUCCESS (with_gl (resched top (gl s)) s1)) ->
  wp (pend_task_wakeup w ;;
      v' <- mutex_get m ;;
      x <- task_get w ;;
      mutex_put m (mkMutex (Some w) (task_mutex_list x) 1 (mutex_mm_alloc_flag v')) ;;
      task_upd w (set_task_mutex_list (Some m)) ;;
      critical_exit_sched false ;;
      ret RHINO_SUCCESS) Q s.
Proof.
  intros HH Hb Hbt Hpol Hv Hf HA Hy Hby Hact HQ. pose proof (kh_inv _ _ _ _ HH) as HI.
  destruct (first_waiter s A m w ws HI HA) as (y' & Hy' & Hp & Ho). assert (y' = y) as -> by congruence.
  apply wp_bind, (wp_pend_task_unblock s A w y m BLK_FINISH); [done..|]. intros l' q' HI'.
  unfold mutex_get, mutex_put. wsteps. eapply wp_task_get; [simpl; by rewrite lookup_insert_eq|]. wsteps.
  eapply wp_task_upd; [simpl; by rewrite lookup_insert_eq|].
  pose proof (khalf_unblocked l' q' s A C m w y BLK_FINISH HH Hy Hp Ho HI') as HH'.
  set (s1 := retask l' q' (<[w := unblocked BLK_FINISH y]> (tcbs s)) s) in *.
  change (wp (critical_exit_sched false ;; ret RHINO_SUCCESS) Q (own s1 w (unblocked BLK_FINISH y) m v)).
  apply (wp_exit_resched (unblock_queues (active_prio s) w y m A)).
  - eapply kgood_own_half; [exact HH'|by exists b|done|done|simpl; by rewrite lookup_insert_eq| |done| |].
    + simpl. by destruct (task_state y).
    + simpl. by destruct (task_state y).
    + intros u. rewrite unblock_queues_blk, HA, elem_of_lrm. intros [Hne Hu]. simpl.
      rewrite prio_of_insert_ne by done. rewrite <- (prio_of_lookup _ _ _ Hy). eapply head_le; [done..|set_solver].
  - intros Hl. destruct (Hact Hl) as (c & z & Hc & Hz & Hr). exists c, z. split_and!; [done| |done]. simpl.
    rewrite !lookup_insert_ne; [done| |]; intros ->; simplify_eq; by rewrite Hr in Hp.
  - intros top Htop HW'. by apply HQ.
Qed.

Definition set_nested n v : kmutex_t := mkMutex (mutex_task v) (mutex_list v) n (mutex_mm_alloc_flag v).

(** The owner gives the mutex up. *)
Lemma wp_unlock_release s A m v a x b (Q : kstat_t -> kstate -> Prop) :
  kwf s A -> blks (ob s) !! m = Some b -> obj_type b = RHINO_MUTEX_OBJ_TYPE -> mutexes (ob s) !! m = Some v ->
  mutex_task v = Some a -> g_active_task (gl s) = Some a -> tcbs s !! a = Some x -> task_state x = K_RDY ->
  (forall s', A (LBlk m) = [] -> kwf s' A -> let_loose s s' m a x -> Q RHINO_SUCCESS s') ->
  (forall w ws s' A', A (LBlk m) = w :: ws -> kwf s' A' -> passed s s' A A' m v a x w -> Q RHINO_SUCCESS s') ->
  wp (mutex_release a (Some m) ;;
      e <- is_klist_empty (NBlk m) ;;
      if e : bool then
        v' <- mutex_get m ;;
        mutex_put m (mkMutex None (mutex_list v') (owner_nested v') (mutex_mm_alloc_flag v')) ;;
        critical_exit false ;;
        ret RHINO_SUCCESS
      else
        n <- get_next (NBlk m) ;;
        t <- task_of n ;;
        pend_task_wakeup t ;;
        v' <- mutex_get m ;;
        x <- task_get t ;;
        mutex_put m (mkMutex (Some t) (task_mutex_list x) 1 (mutex_mm_alloc_flag v')) ;;
        task_upd t (set_task_mutex_list (Some m)) ;;
        critical_exit_sched false ;;
        ret RHINO_SUCCESS) Q (with_mutex (with_gl (set_primask true (gl s)) s) m (set_nested 0 v)).
Proof.
  intros HW Hb Hbt Hv Hown Ha Hx Hr Qe Qw. set (s0 := with_mutex _ _ _).
  destruct (kwf_enter _ _ HW) as [HI HG HT (C & HM & HP) HO].
  assert (HM0 : minv None s0 C) by by eapply minv_nested.
  assert (Hma : m ∈ C a) by (apply (mi_own _ _ _ HM); split_and!; [done|by exists b|by exists v]).
  assert (HK0 : kgood s0 A) by (split; [by apply kinv_mutex|done|done|by exists C|by apply obj_inv_mutex]).
  assert (Hba : b_prio x <> RHINO_IDLE_PRI) by (destruct (mi_owner _ _ _ HM _ _ Hma) as (z & Hz & _ & ?); simpl in Hz; congruence).
  apply wp_bind. eapply (wp_mutex_release_some s0 A C a x m (set_nested 0 v)); [done..|simpl; by rewrite lookup_insert_eq|].
  intros l1 q1 A1 C1 lst mm p s1 HH Hrq Hmm HC1 Hemp. pose proof (kh_inv _ _ _ _ HH) as HI1.
  assert (Hnm : forall u, m ∉ C1 u) by (intros u; rewrite HC1; tauto).
  assert (Hb1 : blks (ob s1) !! m = Some b) by done.
  apply wp_bind, (wp_blk_empty s1 A1 m b); [done..|].
  case_bool_decide as HA1.
  - assert (A (LBlk m) = []) as HA by (by rewrite <- (proj1 Hrq m)).
    destruct (Hemp HA) as [-> ->]. unfold mutex_get, mutex_put. wsteps.
    assert (HK1 : kgood (with_mutex s1 m (set_owner None (set_nested 0 v))) A) by by eapply kgood_free_half.
    apply wp_critical_exit; [by apply (kg_gl _ _ HK1)|]. apply wp_ret. apply Qe; [done| |].
    + change (kwf (with_gl (set_primask false (gl (with_mutex s1 m (set_owner None (set_nested 0 v))))) (with_mutex s1 m (set_owner None (set_nested 0 v)))) A).
      apply (kwf_exit s A); [done..|]. intros (c & z & Hc & Hz & Hrz). unfold active_ready. simpl.
      assert (c = a) as -> by congruence. eexists a, _. rewrite lookup_insert_eq. done.
    + split_and!; [|done| |simpl; rewrite lookup_insert_eq; by eexists].
      2:{ exists lst. simpl. by rewrite set_prio_id. }
      simpl. pose proof (kw_mask _ _ HW). destruct (gl s); simpl in *. by subst.
  - destruct (A1 (LBlk m)) as [|w ws] eqn:EA1; [done|].
    destruct (first_waiter s1 A1 m w ws HI1 EA1) as (y & Hy & Hp & Ho).
    assert (Hwa : w <> a). { intros ->. simpl in Hy. rewrite lookup_insert_eq in Hy. injection Hy as <-. simpl in Hp. by rewrite Hr in Hp. }
    assert (Hys : tcbs s !! w = Some y) by (simpl in Hy; by rewrite lookup_insert_ne in Hy).
    assert (Hpol : blk_policy b = BLK_POLICY_PRI) by by apply (mi_mutex _ _ _ HM m b).
    apply wp_bind, (wp_get_first s1 A1 m b w ws); [done..|]. cbn [task_of]. apply wp_bind, wp_ret.
    apply (wp_unlock_pass s1 A1 C1 m (set_nested 0 v) b w ws y); try done.
    + intros Hby. destruct (mi_prio _ _ _ HM w y Hys) as (_ & Hi & Hri). rewrite Hri in Hp by tauto. done.
    + intros Hl. destruct (kw_active _ _ HW) as (c & z & Hc & Hz & Hrz); [by left|].
      assert (c = a) as -> by congruence. exists a. eexists. simpl. rewrite lookup_insert_eq. done.
    + intros l2 q2 top s2 A2 HW2 Htop. eapply (Qw w ws); [by rewrite <- (proj1 Hrq m)|exact HW2|].
      exists y. split_and!; try done.
      * simpl. by rewrite lookup_insert_eq.
      * simpl. by rewrite lookup_insert_eq.
      * unfold A2. by rewrite unblock_queues_blk, (proj1 Hrq m).
      * exists p, lst. simpl. rewrite 2!lookup_insert_ne by done. by rewrite lookup_insert_eq.
      * intros u Hu1 Hu2. simpl. by rewrite !lookup_insert_ne.
      * exists top. split; [done|]. apply resched_unmask.
Qed.

Lemma wp_mutex_unlock s A m v a x (Q : kstat_t -> kstate -> Prop) :
  kwf s A -> has_type s m RHINO_MUTEX_OBJ_TYPE -> mutexes (ob s) !! m = Some v ->
  g_active_task (gl s) = Some a -> tcbs s !! a = Some x ->
  (0 < g_intrpt_nested_level (gl s) -> Q RHINO_NOT_CALLED_BY_INTRPT s) ->
  (g_intrpt_nested_level (gl s) = 0 -> mutex_task v <> Some a -> Q RHINO_MUTEX_NOT_RELEASED_BY_OWNER s) ->
  (let s' := with_mutex s m (set_nested (u32 (owner_nested v - 1)) v) in
   g_intrpt_nested_level (gl s) = 0 -> mutex_task v = Some a -> u32 (owner_nested v - 1) <> 0 -> kwf s' A ->
     Q RHINO_MUTEX_OWNER_NESTED s') ->
  (forall s', g_intrpt_nested_level (gl s) = 0 -> mutex_task v = Some a -> u32 (owner_nested v - 1) = 0 ->
     A (LBlk m) = [] -> kwf s' A -> let_loose s s' m a x -> Q RHINO_SUCCESS s') ->
  (forall w ws s' A', g_intrpt_nested_level (gl s) = 0 -> mutex_task v = Some a -> u32 (owner_nested v - 1) = 0 ->
     A (LBlk m) = w :: ws -> kwf s' A' -> passed s s' A A' m v a x w -> Q RHINO_SUCCESS s') ->
  wp (krhino_mutex_unlock (Some m)) Q s.
Proof.
  intros HW (b & Hb & Hbt) Hv Ha Hx Q1 Q2 Q3 Q4 Q5.
  unfold krhino_mutex_unlock, blk_get, mutex_get, active_get. wsteps.
  pose proof (kw_gl _ _ HW) as [Hn Hl _ Hrun _]. rewrite Hrun. rewrite bool_decide_false by done.
  apply wp_bind, (wp_kwf_enter A); [done|].
  destruct (Z.ltb_spec 0 (g_intrpt_nested_level (gl s))) as [Hi|Hi]; [apply (wp_exit_ret A); auto|].
  wsteps. rewrite bool_decide_true by done. cbn [negb]. wsteps.
  assert (g_intrpt_nested_level (gl s) = 0) as E0 by lia.
  destruct (kwf_active _ _ HW E0) as (a0 & x0 & Ha0 & Hx0 & Hr).
  assert (a0 = a) as -> by congruence. assert (x0 = x) as -> by congruence.
  destruct (decide (mutex_task v = Some a)) as [Eo|Eo].
  2:{ rewrite bool_decide_false by congruence. apply (wp_exit_ret A); auto. }
  rewrite bool_decide_true by congruence. cbn [negb].
  fold (set_nested (u32 (owner_nested v - 1)) v).
  destruct (decide (u32 (owner_nested v - 1) = 0)) as [E1|E1].
  - rewrite E1. cbn -[wp]. unfold mutex_put at 1. apply wp_bind. red. cbn [mod_ob].
    apply (wp_unlock_release s A m v a x b); try done.
    + intros s' HA HW' Hs'. by eapply Q4.
    + intros w ws s' A' HA HW' Hs'. by eapply Q5.
  - assert (0 < u32 (owner_nested v - 1)) as Hpos.
    { pose proof (wrap_range 32 (owner_nested v - 1) ltac:(lia)). lia. }
    apply wp_bind. unfold mutex_put. wsteps. rewrite (proj2 (Z.ltb_lt _ _) Hpos).
    apply (wp_mutex_exit A s m v (set_nested (u32 (owner_nested v - 1)) v)); try done. auto.
Qed.
End UnlockCall.
