(* ===== verification/MutexDel.v ===== *)
(** * Deleting a mutex (krhino_mutex_del, k_mutex.c)

    The type is cleared first; then the owner lets go of the mutex, which may
    lower its priority and that of tasks it depends on; then every waiting
    task is released. *)

From stdpp Require Import functions.
From S2P Require Import Prelude.
From S2P Require Import Monad.
From S2P Require Import Links.
From S2P Require Import KState.
From S2P Require Import Bitmap.
From S2P Require Import Sched.
From S2P Require Import Pend.
From S2P Require Import Inv.
From S2P Require Import MInv.
From S2P Require Import ObjInv.
From S2P Require Import Resched.
From S2P Require Import Block.
From S2P Require Import Prio.
From S2P Require Import PrioInv.
From S2P Require Import Mutex.

Section MutexDel.
Implicit Types (s : kstate) (A : queues) (C : tid -> list oid) (t u : tid) (x y : ktask_t) (m : oid) (v : kmutex_t).

(** A mutex that is in nobody's chain may lose its type. *)
Lemma minv_untype s C m b :
  minv (Some m) s C -> blks (ob s) !! m = Some b -> minv None (untyped s m b) C.
Proof.
  intros [M1 M2 M3 M4 M5 M6] Hb.
  assert (Hmx : forall n, is_mutex (ob (untyped s m b)) n <-> n <> m /\ is_mutex (ob s) n).
  { intros n. unfold is_mutex. simpl. destruct (decide (n = m)) as [->|].
    - rewrite lookup_insert_eq. naive_solver.
    - rewrite lookup_insert_ne by done. naive_solver. }
  split; simpl; try done.
  - intros t n. rewrite M2, Hmx. naive_solver.
  - intros t x n Hx Hp Ho [Hn Hm]%Hmx _. apply (M4 t x n); try done. congruence.
  - intros n b'. destruct (decide (n = m)) as [->|]; simplify_map_eq; [|by apply M5]. by intros [= <-].
Qed.

Lemma minv_hole s C m : minv None s C -> (forall u, m ∉ C u) -> minv (Some m) s C.
Proof.
  intros [M1 M2 M3 M4 M5 M6] HC. split; try done.
  - intros t n. rewrite M2. split; [|naive_solver]. intros (_ & H1 & H2). split; [|done]. intros [= ->].
    apply (HC t), M2. naive_solver.
  - intros t x n Hx Hp Ho Hm _. by apply (M4 t x n).
Qed.

Lemma obj_inv_untyped s A m b :
  obj_inv None s A -> blks (ob s) !! m = Some b -> obj_inv None (untyped s m b) A.
Proof.
  intros [Hs He Hq] Hb.
  split; [| |intros o'; destruct (Hq o') as [Hq1 Hq2]; split]; intros; edestruct untyped_type as [? ?]; eauto; done.
Qed.

Lemma mlink_set_untyped p l s m b : mlink_set p l (untyped s m b) = untyped (mlink_set p l s) m b.
Proof.
  destruct p as [t|n]; simpl; [by destruct (tcbs s !! t)|]. by destruct (mutexes (ob s) !! n).
Qed.

(** Recomputing the owner's priority does not read the type. *)
Lemma wp_look_untyped s A C t x m v b (Q : Z -> kstate -> Prop) :
  kinv s A -> minv None s C -> tcbs s !! t = Some x -> live (task_state x) = true ->
  m ∈ C t -> mutexes (ob s) !! m = Some v -> blks (ob s) !! m = Some b ->
  (forall r s' C', let_go s t x m v C s' C' -> kinv s' A ->
     is_min (tcbs s') (b_prio x) (waits A C' t) r -> Q r (untyped s' m b)) ->
  wp (mutex_pri_look t (Some m)) Q (untyped s m b).
Proof.
  intros HI HM Ht Hl Hm Hv Hb HQ. unfold mutex_pri_look, mutex_fuel. apply wp_bind, (wp_task_get _ x); [done|]. wsteps.
  pose proof (mi_chain _ _ _ HM _ _ Ht Hl) as Hch.
  pose proof (mchain_length _ _ _ Hch) as Hlen. pose proof (minv_pri_lists _ _ _ t HM) as Hpl.
  apply list_elem_of_split in Hm as (a & c & HC).
  eapply (wp_look_unlink _ A a m c _ (LTask t) (task_mutex_list x) v _ _ (b_prio x) (fun _ => False)); rewrite <- ?HC; try done.
  - by apply kinv_untyped.
  - intros n Hn. destruct (Hpl n Hn) as (b' & Hb' & Hp). simpl. destruct (decide (n = m)) as [->|].
    + rewrite lookup_insert_eq. simplify_eq. eexists. by split.
    + rewrite lookup_insert_ne by done. eauto.
  - simpl. by rewrite Ht.
  - simpl. lia.
  - apply is_min_none. tauto.
  - by left.
  - intros r Hr. rewrite mlink_set_untyped. eapply (HQ r _ (<[t := a ++ c]> C)).
    + by apply let_go_mlink_set.
    + by apply mlink_set_kinv.
    + eapply is_min_ext; [exact Hr| |intros; apply (mlink_set_prio s)].
      unfold waits. intros u. rewrite fn_lookup_insert. tauto.
Qed.

(** Between the two: the mutex is nobody's, tasks still wait for it. *)
Record unowned s s' A A' m : Prop := mkUnowned {
  uo_good : kgood s' A';
  uo_queues : requeued A A';
  uo_gl : gl s' = gl s;
  uo_type : exists b, blks (ob s') !! m = Some b /\ obj_type b = RHINO_OBJ_TYPE_NONE;
  uo_task : forall u x, tcbs s !! u = Some x ->
    exists y, tcbs s' !! u = Some y /\ task_state y = task_state x /\ b_prio y = b_prio x;
}.

Lemma unowned_free s A m b v :
  kgood s A -> blks (ob s) !! m = Some b -> obj_type b = RHINO_MUTEX_OBJ_TYPE -> mutexes (ob s) !! m = Some v ->
  mutex_task v = None -> unowned s (untyped s m b) A A m.
Proof.
  intros [HI HG HT (C & HM & HP) HO] Hb Hty Hv Hn.
  destruct (mutex_free_no_waiter s A C m v HI HM) as [_ HC]; [by exists b|done..|].
  split; [|done|done| |eauto].
  - split; [by apply kinv_untyped|done|done| |by apply obj_inv_untyped].
    exists C. split; [|done]. by apply minv_untype; [apply minv_hole|].
  - exists (set_obj_type RHINO_OBJ_TYPE_NONE b). simpl. by rewrite lookup_insert_eq.
Qed.

(** The state once the owner let go and had its priority recomputed. *)
Lemma unowned_let_go s A C t x m v b s1 C1 l' q' tc' A' :
  kgood s A -> blks (ob s) !! m = Some b -> tcbs s !! t = Some x -> let_go s t x m v C s1 C1 ->
  let s2 := retask l' q' tc' (untyped s1 m b) in
  kinv s2 A' -> requeued A A' -> minv None s2 C1 -> pinv s2 A' C1 -> prio_only (tcbs s1) tc' ->
  unowned s s2 A A' m.
Proof.
  intros [HI HG HT HM0 HO] Hb Ht HL s2 HI2 Hrq HM2 HP2 Hpo.
  destruct (let_go_frame s A t x m v C s1 C1 HT HO Ht HL) as [HT1 HO1].
  destruct HL as [(l & mm & ->) _ _ _]. simpl in *.
  split; [|done|done| |].
  - split; [done|done|by eapply (tick_pos_reprio l' q' tc' (untyped _ m b))|by exists C1|].
    eapply (obj_inv_reprio None l' q' tc' (untyped _ m b)); [|done|done]. by apply obj_inv_untyped.
  - exists (set_obj_type RHINO_OBJ_TYPE_NONE b). simpl. by rewrite lookup_insert_eq.
  - intros u y Hy. simpl. rewrite (Hpo u). destruct (decide (u = t)) as [->|].
    + rewrite lookup_insert_eq. simplify_eq. eexists. by split.
    + rewrite lookup_insert_ne, Hy by done. eexists. by split.
Qed.

Lemma wp_unown s A t m v b (Q : unit -> kstate -> Prop) :
  kgood s A -> blks (ob s) !! m = Some b -> obj_type b = RHINO_MUTEX_OBJ_TYPE -> mutexes (ob s) !! m = Some v ->
  mutex_task v = Some t -> (forall s' A', unowned s s' A A' m -> Q tt s') ->
  wp (mutex_release t (Some m)) Q (untyped s m b).
Proof.
  intros HK Hb Hty Hv Ho HQ. pose proof HK as [HI HG HT (C & HM & HP) HO].
  assert (Hm : m ∈ C t) by (apply (mi_own _ _ _ HM); split_and!; [done|by exists b|by exists v]).
  destruct (mi_owner _ _ _ HM _ _ Hm) as (x & Hx & Hl & Hi).
  unfold mutex_release. apply wp_bind, (wp_look_untyped s A C t x m v); [done..|].
  intros r s1 C1 HL HI1 Hr. pose proof HL as [(l & mm & E) _ _ HM1].
  assert (Hx1 : tcbs s1 !! t = Some (set_task_mutex_list l x)) by (rewrite E; apply lookup_insert_eq).
  assert (Hb1 : blks (ob s1) !! m = Some b) by by rewrite E.
  pose proof (minv_untype s1 C1 m b HM1 Hb1) as HM2. pose proof (kinv_untyped s1 A m b HI1 Hb1) as HI2.
  assert (HP2 : forall u, u <> t -> pinv_at (untyped s1 m b) A C1 (base_of (tcbs s1)) u).
  { intros u Hu. by apply (pinv_let_go s A t x m v C s1 C1). }
  apply wp_bind, (wp_task_get _ (set_task_mutex_list l x)); [done|]. cbn [prio set_task_mutex_list].
  destruct (Z.eqb_spec r (prio x)) as [Er|Er]; cbn [negb when].
  - apply wp_ret, (HQ _ A).
    assert (E2 : untyped s1 m b = retask (lm s1) (rq s1) (tcbs s1) (untyped s1 m b)) by by destruct s1.
    rewrite E2. eapply unowned_let_go; [done..| | | | |]; rewrite <- ?E2; try done.
    + intros u. destruct (decide (u = t)) as [->|]; [|by apply HP2]. intros y Hy _. simpl in Hy.
      simpl. rewrite Hx1 in Hy. injection Hy as <-. rewrite (base_of_lookup _ _ _ Hx1). simpl. by subst r.
    + apply prio_only_refl.
  - apply wp_bind, (wp_task_pri_change (untyped s1 m b) A C1 t (set_task_mutex_list l x) r); try done.
    + by eapply (is_min_nonneg (untyped s1 m b) A C1 t (set_task_mutex_list l x)).
    + intros l' q' tc' A' s' HI' Hrq HM' HP' Hpo. apply wp_ret, (HQ _ A').
      eapply (unowned_let_go s A C t x m v b s1 C1 l' q' tc' A'); try done.
      intros u. simpl. intros y Hy Hly. specialize (HP' u y Hy Hly).
      assert (base_of tc' u = base_of (tcbs s1) u) as ->; [|done].
      unfold base_of. rewrite (Hpo u). simpl. by destruct (tcbs s1 !! u).
Qed.

(** Every task that waited is ready (or suspended) and knows why; the lists
    of the other objects have the same members. *)
Definition mutex_deleted s s' A A' m : Prop :=
  ~ has_type s' m RHINO_MUTEX_OBJ_TYPE /\ A' (LBlk m) = [] /\
  (forall o, o <> m -> A' (LBlk o) ≡ₚ A (LBlk o)) /\
  (forall u x, u ∈ A (LBlk m) -> tcbs s !! u = Some x ->
     exists y, tcbs s' !! u = Some y /\ task_state y = woken_state (task_state x) /\ blk_state y = BLK_DEL /\
       task_blk_obj y = None) /\
  exists top, top_ready A' top /\ gl s' = resched top (gl s).

(** The rest of the call, from the state without an owner. *)
Lemma wp_del_release s A s0 A0 m (Q : kstat_t -> kstate -> Prop) :
  kwf s A -> unowned (with_gl (set_primask true (gl s)) s) s0 A A0 m ->
  (forall s' A', kwf s' A' -> mutex_deleted s s' A A' m -> Q RHINO_SUCCESS s') ->
  wp (drain_list pend_task_rm (NBlk m) ;; critical_exit_sched false ;; ret RHINO_SUCCESS) Q s0.
Proof.
  intros HW [HK0 [Hrq _] Eg (b & Hb & Hty) Htk] HQ.
  assert (Hnm : ~ is_mutex (ob s0) m) by (intros (b' & Hb' & Ht'); simplify_eq; congruence).
  apply wp_bind, (wp_good_drain_list s0 A0 m b); [done..|]. intros l' q' A' HK' He Ho.
  assert (Hdel : ~ has_type s0 m RHINO_MUTEX_OBJ_TYPE) by (intros (b' & Hb' & Ht'); simplify_eq; congruence).
  apply (wp_exit_resched A'); [done| |].
  - intros Hl. simpl in Hl. rewrite Eg in Hl. destruct (kw_active _ _ HW) as (a & x & Ha & Hx & Hr); [by left|].
    destruct (Htk a x Hx) as (y & Hy & Es & _).
    apply (active_ready_wake_all s0 _ A0 m BLK_DEL); [apply HK0| |done|done]. exists a, y. rewrite Eg. by rewrite Es.
  - intros top Htop HW'. eapply HQ; [exact HW'|]. split_and!; [done|done| | |].
    + intros o Hne. rewrite Ho by done. apply Hrq.
    + intros u x Hu Hx. destruct (Htk u x Hx) as (y & Hy & Es & _). exists (unblocked BLK_DEL y). simpl.
      rewrite wake_all_in, Hy; [simpl; by rewrite Es|eapply kinv_nodup, HK0|by rewrite Hrq].
    + exists top. split; [done|]. simpl. rewrite Eg. apply resched_unmask.
Qed.

Lemma wp_mutex_del s A m v (Q : kstat_t -> kstate -> Prop) :
  kwf s A -> has_type s m RHINO_MUTEX_OBJ_TYPE -> mutexes (ob s) !! m = Some v ->
  (0 < g_intrpt_nested_level (gl s) -> Q RHINO_NOT_CALLED_BY_INTRPT s) ->
  (g_intrpt_nested_level (gl s) = 0 -> mutex_mm_alloc_flag v <> K_OBJ_STATIC_ALLOC -> Q RHINO_KOBJ_DEL_ERR s) ->
  (forall s' A', g_intrpt_nested_level (gl s) = 0 -> mutex_mm_alloc_flag v = K_OBJ_STATIC_ALLOC -> kwf s' A' ->
     mutex_deleted s s' A A' m -> Q RHINO_SUCCESS s') ->
  wp (krhino_mutex_del (Some m)) Q s.
Proof.
  intros HW (b & Hb & Hty) Hv Q1 Q2 Q3. unfold krhino_mutex_del, blk_get, mutex_get.
  pose proof (kg_gl _ _ (kw_good _ _ HW)) as [Hn _ _ _ _].
  apply wp_bind, (wp_kwf_enter A); [done|]. wsteps. simpl.
  destruct (Z.ltb_spec 0 (g_intrpt_nested_level (gl s))) as [Hi|Hi]; [apply (wp_exit_ret A); auto|].
  wsteps. rewrite bool_decide_true by done. simpl. wsteps.
  destruct (Z.eqb_spec (mutex_mm_alloc_flag v) K_OBJ_STATIC_ALLOC) as [Ef|Ef]; cbn [negb];
    [|apply (wp_exit_ret A); [done|]; apply Q2; [lia|done]].
  pose proof (kwf_enter _ _ HW) as HK. set (s0 := with_gl (set_primask true (gl s)) s) in *.
  apply wp_bind, wp_blk_put.
  assert (Hend : forall s1 A1, unowned s0 s1 A A1 m ->
    wp (drain_list pend_task_rm (NBlk m) ;; critical_exit_sched false ;; ret RHINO_SUCCESS) Q s1).
  { intros s1 A1 HU. apply (wp_del_release s A s1 A1 m); [done..|]. intros s' A' HW' HD. apply (Q3 s' A'); [lia|done..]. }
  destruct (mutex_task v) as [t|] eqn:Eo.
  - apply wp_bind, (wp_unown s0 A t m v b); [done..|]. exact Hend.
  - apply wp_bind, wp_ret, (Hend _ A). by apply (unowned_free s0 A m b v).
Qed.
End MutexDel.
