(* ===== verification/Event.v ===== *)
(** * Event flags (k_event.c) *)

From stdpp Require Import functions.
From S2P Require Import Prelude.
From S2P Require Import Monad.
From S2P Require Import Links.
From S2P Require Import KState.
From S2P Require Import Bitmap.
From S2P Require Import Sched.
From S2P Require Import Pend.
From S2P Require Import Inv.
From S2P Require Import MInv.
From S2P Require Import ObjInv.
From S2P Require Import Resched.
From S2P Require Import Block.

Definition event_create (event : option oid) (name : option string) (fl mm_alloc_flag : Z) : M kstat_t :=
  match event, name with
  | Some e, Some _ =>
      klist_init (NBlk e) ;;
      event_put e (mkEvent fl mm_alloc_flag) ;;
      blk_put e (mkBlk BLK_POLICY_PRI RHINO_EVENT_OBJ_TYPE) ;;
      ret RHINO_SUCCESS
  | _, _ => ret RHINO_NULL_PTR
  end.

Definition krhino_event_create (event : option oid) (name : option string) (fl : Z) : M kstat_t :=
  event_create event name fl K_OBJ_STATIC_ALLOC.

Definition krhino_event_del (event : option oid) : M kstat_t :=
  match event with
  | None => ret RHINO_NULL_PTR
  | Some e =>
      psr <- critical_enter ;;
      g <- gets gl ;;
      if 0 <? g_intrpt_nested_level g then
        critical_exit psr ;; ret RHINO_NOT_CALLED_BY_INTRPT
      else
        b <- blk_get e ;;
        if negb (bool_decide (obj_type b = RHINO_EVENT_OBJ_TYPE)) then
          critical_exit psr ;; ret RHINO_KOBJ_TYPE_ERR
        else
          v <- event_get e ;;
          if negb (event_mm_alloc_flag v =? K_OBJ_STATIC_ALLOC) then
            critical_exit psr ;; ret RHINO_KOBJ_DEL_ERR
          else
            blk_put e (set_obj_type RHINO_OBJ_TYPE_NONE b) ;;
            drain_list pend_task_rm (NBlk e) ;;
            event_put e (mkEvent 0 (event_mm_alloc_flag v)) ;;
            critical_exit_sched psr ;;
            ret RHINO_SUCCESS
  end.

(** [actl_flags] is the caller's variable, an address of [umem]. *)
Definition krhino_event_get (event : option oid) (fl opt : Z) (actl_flags : option nat) (ticks : Z) :
    M (callres kstat_t) :=
  match event, actl_flags with
  | Some e, Some out =>
      if negb ((opt =? RHINO_AND) || (opt =? RHINO_OR) || (opt =? RHINO_AND_CLEAR) || (opt =? RHINO_OR_CLEAR)) then
        ret (Returned RHINO_NO_THIS_EVENT_OPT)
      else
      psr <- critical_enter ;;
      g <- gets gl ;;
      if 0 <? g_intrpt_nested_level g then
        critical_exit psr ;; ret (Returned RHINO_NOT_CALLED_BY_INTRPT)
      else
      b <- blk_get e ;;
      if negb (bool_decide (obj_type b = RHINO_EVENT_OBJ_TYPE)) then
        critical_exit psr ;; ret (Returned RHINO_KOBJ_TYPE_ERR)
      else
      v <- event_get e ;;
      if flags_met (flags v) fl opt then
        um <- gets umem ;;
        set_umem (<[out := flags v]> um) ;;
        (if negb (Z.land opt RHINO_FLAGS_CLEAR_MASK =? 0) then
           event_put e (mkEvent (Z.land (flags v) (u32 (Z.lnot fl))) (event_mm_alloc_flag v))
         else ret tt) ;;
        critical_exit psr ;;
        ret (Returned RHINO_SUCCESS)
      else if ticks =? RHINO_NO_WAIT then
        critical_exit psr ;; ret (Returned RHINO_NO_PEND_WAIT)
      else if 0 <? g_sched_lock g then
        critical_exit psr ;; ret (Returned RHINO_SCHED_DISABLE)
      else
        a <- active_get ;;
        task_upd a (set_pend_option opt) ;;
        task_upd a (set_pend_flags fl) ;;
        task_upd a (set_pend_info (Some out)) ;;
        pend_to_blk_obj e a ticks ;;
        critical_exit_sched psr ;;
        ret (Switched pend_end)
  | _, _ => ret (Returned RHINO_NULL_PTR)
  end.

(** The loop of [event_set] over the blocked tasks; [cur_event_flags] is read
    once, before the loop. *)
Fixpoint event_set_loop (fuel : nat) (e : oid) (cur_event_flags : Z) (iter : knode) : M unit :=
  match fuel with
  | O => fault
  | S n =>
      if bool_decide (iter = NBlk e) then ret tt
      else
        task <- task_of iter ;;
        iter_temp <- get_next iter ;;
        x <- task_get task ;;
        (if flags_met cur_event_flags (pend_flags x) (pend_option x) then
           out <- lift (pend_info x) ;;
           um <- gets umem ;;
           set_umem (<[out := cur_event_flags]> um) ;;
           pend_task_wakeup task ;;
           (if negb (Z.land (pend_option x) RHINO_FLAGS_CLEAR_MASK =? 0) then
              v <- event_get e ;;
              event_put e (mkEvent (Z.land (flags v) (u32 (Z.lnot (pend_flags x)))) (event_mm_alloc_flag v))
            else ret tt)
         else ret tt) ;;
        event_set_loop n e cur_event_flags iter_temp
  end.

Definition event_set (e : oid) (fl opt : Z) : M kstat_t :=
  psr <- critical_enter ;;
  b <- blk_get e ;;
  if negb (bool_decide (obj_type b = RHINO_EVENT_OBJ_TYPE)) then
    critical_exit psr ;; ret RHINO_KOBJ_TYPE_ERR
  else
  v <- event_get e ;;
  if negb (Z.land opt RHINO_FLAGS_AND_MASK =? 0) then
    event_put e (mkEvent (Z.land (flags v) fl) (event_mm_alloc_flag v)) ;;
    critical_exit psr ;;
    ret RHINO_SUCCESS
  else
    let cur := Z.lor (flags v) fl in
    event_put e (mkEvent cur (event_mm_alloc_flag v)) ;;
    iter <- get_next (NBlk e) ;;
    fuel <- list_fuel ;;
    event_set_loop fuel e cur iter ;;
    critical_exit_sched psr ;;
    ret RHINO_SUCCESS.

Definition krhino_event_set (event : option oid) (fl opt : Z) : M kstat_t :=
  match event with
  | None => ret RHINO_NULL_PTR
  | Some e =>
      if negb ((opt =? RHINO_AND) || (opt =? RHINO_OR)) then ret RHINO_NO_THIS_EVENT_OPT
      else event_set e fl opt
  end.

(** ** Requests *)

(** The flags, the option and the output address of a waiting task. *)
Definition request : Type := Z * Z * option nat.

Definition req_of (tc : gmap tid ktask_t) (t : tid) : request :=
  match tc !! t with Some x => (pend_flags x, pend_option x, pend_info x) | None => (0, 0, None) end.

Section Requests.
Implicit Types (r : tid -> request) (t : tid) (ts : list tid).

Definition req_met r (cur : Z) t : bool := let '(f, o, _) := r t in flags_met cur f o.

Definition req_clear r (fl : Z) t : Z :=
  let '(f, o, _) := r t in
  if negb (Z.land o RHINO_FLAGS_CLEAR_MASK =? 0) then Z.land fl (u32 (Z.lnot f)) else fl.

Definition req_out r (cur : Z) (um : gmap nat Z) t : gmap nat Z :=
  match r t with (_, _, Some out) => <[out := cur]> um | _ => um end.

(** The tasks an event with flags [cur] satisfies, and those it does not. *)
Definition met_tasks r cur ts : list tid := filter (fun t => req_met r cur t = true) ts.
Definition unmet_tasks r cur ts : list tid := filter (fun t => req_met r cur t = false) ts.

Definition clear_all r ts (fl : Z) : Z := foldl (req_clear r) fl ts.
Definition out_all r cur ts (um : gmap nat Z) : gmap nat Z := foldl (req_out r cur) um ts.

Lemma req_clear_sub r fl t : 0 <= fl -> 0 <= req_clear r fl t /\ Z.land (req_clear r fl t) fl = req_clear r fl t.
Proof.
  intros Hf. unfold req_clear. destruct (r t) as [[f o] w]. destruct (negb _).
  - pose proof (wrap_range 32 (Z.lnot f) ltac:(lia)). split; [apply Z.land_nonneg; lia|].
    by rewrite <- Z.land_assoc, (Z.land_comm _ fl), Z.land_assoc, Z.land_diag.
  - split; [done|apply Z.land_diag].
Qed.

(** Clearing only removes flags. *)
Lemma clear_all_sub r ts fl : 0 <= fl -> 0 <= clear_all r ts fl /\ Z.land (clear_all r ts fl) fl = clear_all r ts fl.
Proof.
  revert fl. induction ts as [|t ts IH]; intros fl Hf; simpl; [split; [done|apply Z.land_diag]|].
  destruct (req_clear_sub r fl t Hf) as [H1 H2]. destruct (IH _ H1) as [H3 H4]. split; [done|].
  by rewrite <- H4, <- Z.land_assoc, H2.
Qed.

(** A request that is not met stays unmet when flags are removed. *)
Lemma flags_met_sub cur cur' f o :
  0 <= cur -> 0 <= f -> Z.land cur' cur = cur' -> flags_met cur f o = false -> flags_met cur' f o = false.
Proof.
  intros Hc Hf Hs. unfold flags_met. destruct (negb _).
  - rewrite !Z.eqb_neq. intros Hn E. apply Hn. apply Z.bits_inj'. intros i Hi.
    apply (f_equal (fun z => Z.testbit z i)) in Hs, E. rewrite Z.land_spec in *.
    destruct (Z.testbit cur' i), (Z.testbit cur i), (Z.testbit f i); simpl in *; done.
  - rewrite !Z.ltb_ge. intros H. assert (Z.land cur f = 0) as E.
    { assert (0 <= Z.land cur f) by (apply Z.land_nonneg; lia). lia. }
    by rewrite <- Hs, <- Z.land_assoc, E, Z.land_0_r.
Qed.
End Requests.

(** ** Setting flags *)

Section SetLoop.
Implicit Types (s : kstate) (A : queues) (e : oid) (t : tid) (r : tid -> request).

Definition with_event s e (v : kevent_t) : kstate := with_ob (set_events (<[e := v]> (events (ob s))) (ob s)) s.
Definition with_um s (um : gmap nat Z) : kstate :=
  mkK (lm s) (rq s) (tcbs s) (gl s) (ob s) um.

Lemma kgood_event s A e v : kgoodx (Some e) s A -> kgoodx (Some e) (with_event s e v) A.
Proof.
  intros [HI HG HT (C & [] & HP) [Hs He Hq]]. split; [by apply kinv_ob|done|done|exists C; by split|].
  split; simpl; [done| |intros o; by eapply store_ok_frame]. intros o Ho Hne. rewrite lookup_insert_ne by congruence. by apply He.
Qed.

Lemma kgood_um h s A um : kgoodx h s A -> kgoodx h (with_um s um) A.
Proof.
  intros [[] HG HT (C & [] & HP) HO]. split; [by split|done|done|exists C; by split|by eapply obj_inv_same].
Qed.

Lemma kgood_hole e s A : kgood s A -> kgoodx (Some e) s A.
Proof. intros [HI HG HT HM [Hs He Hq]]. split; [done..|]. split; [done| |done]. intros o Ho _. by apply He. Qed.

Lemma kgood_fill e s A v :
  kgoodx (Some e) s A -> events (ob s) !! e = Some v -> event_ok (tcbs s) A e v -> kgood s A.
Proof.
  intros [HI HG HT HM [Hs He Hq]] Hv Hok. split; [done..|]. split; [done| |done]. intros o Ho _.
  destruct (decide (o = e)) as [->|]; [by exists v|]. apply He; congruence.
Qed.

Lemma req_of_unblocked tc t x bs u : tc !! t = Some x -> req_of (<[t := unblocked bs x]> tc) u = req_of tc u.
Proof.
  intros Ht. unfold req_of. destruct (decide (u = t)) as [->|]; simplify_map_eq; done.
Qed.

(** The state the loop leaves. *)
Definition loop_state l' q' r cur ws e (v : kevent_t) s : kstate :=
  mkK l' q' (wake_all BLK_FINISH ws (tcbs s)) (gl s)
    (set_events (<[e := mkEvent (clear_all r ws (flags v)) (event_mm_alloc_flag v)]> (events (ob s))) (ob s))
    (out_all r cur ws (umem s)).

Lemma filter_cons_met r cur t ts :
  met_tasks r cur (t :: ts) = if req_met r cur t then t :: met_tasks r cur ts else met_tasks r cur ts.
Proof. unfold met_tasks. rewrite filter_cons. destruct (req_met r cur t); [by rewrite decide_True|by rewrite decide_False]. Qed.

Lemma filter_cons_unmet r cur t ts :
  unmet_tasks r cur (t :: ts) = if req_met r cur t then unmet_tasks r cur ts else t :: unmet_tasks r cur ts.
Proof. unfold unmet_tasks. rewrite filter_cons. destruct (req_met r cur t); [by rewrite decide_False|by rewrite decide_True]. Qed.

Lemma wp_event_set_loop e b r cur rest fuel s A pre v (Q : unit -> kstate -> Prop) :
  kgoodx (Some e) s A -> blks (ob s) !! e = Some b -> ~ is_mutex (ob s) e -> events (ob s) !! e = Some v ->
  A (LBlk e) = pre ++ rest -> (forall u, req_of (tcbs s) u = r u) ->
  (forall u, u ∈ rest -> exists f o out, r u = (f, o, Some out)) -> (length rest < fuel)%nat ->
  (forall l' q' A', let s' := loop_state l' q' r cur (met_tasks r cur rest) e v s in
     kgoodx (Some e) s' A' -> A' (LBlk e) = pre ++ unmet_tasks r cur rest ->
     (forall o, o <> e -> A' (LBlk o) = A (LBlk o)) -> Q tt s') ->
  wp (event_set_loop fuel e cur (hd (NBlk e) (NTask <$> rest))) Q s.
Proof.
  revert fuel s A pre v. induction rest as [|t rest IH]; intros fuel s A pre v HK Hb Hm Hv HA Hreq Hout Hf HQ;
    (destruct fuel as [|fuel]; simpl in Hf; [lia|]).
  - simpl. rewrite bool_decide_true by done. apply wp_ret. specialize (HQ (lm s) (rq s) A). unfold loop_state in HQ.
    simpl in HQ. destruct v. rewrite insert_id in HQ by done. destruct s as [? ? ? ? [] ? ?]. by apply HQ.
  - assert (Hin : t ∈ A (LBlk e)) by (rewrite HA; set_solver).
    apply (ki_mem _ _ (kg_inv _ _ HK)) in Hin as (x & Hx & Hp & Ho).
    pose proof (kinv_nodup _ _ (LBlk e) (kg_inv _ _ HK)) as Hnd. rewrite HA in Hnd.
    pose proof (Hreq t) as Hrt. unfold req_of in Hrt. rewrite Hx in Hrt.
    destruct (Hout t) as (f & o & out & Hr); [set_solver|].
    assert (Hout' : forall u, u ∈ rest -> exists f o out, r u = (f, o, Some out)) by (intros; apply Hout; set_solver).
    rewrite Hr in Hrt. injection Hrt as Ef Eo Ei.
    cbn [fmap list_fmap hd event_set_loop]. rewrite bool_decide_false by done. cbn [task_of]. wsteps.
    apply (wp_get_next (nodes (blks (ob s)) A) (LBlk e) (NBlk e :: (NTask <$> pre)) (NTask t) (NTask <$> rest)).
    { apply HK. } { rewrite (nodes_blk _ _ _ _ Hb), HA. by rewrite fmap_app. }
    assert (hd (NTask t) ((NTask <$> rest) ++ NBlk e :: (NTask <$> pre)) = hd (NBlk e) (NTask <$> rest)) as -> by by destruct rest.
    apply wp_bind, (wp_task_get _ x); [done|]. rewrite Ef, Eo, Ei.
    specialize (IH fuel). rewrite filter_cons_met, filter_cons_unmet in HQ. unfold req_met in HQ. rewrite Hr in HQ.
    destruct (flags_met cur f o) eqn:Emet.
    + apply wp_bind. wsteps. apply (wp_good_unblock (Some e) _ A t x e BLK_FINISH); [by apply kgood_um|done..|].
      intros l1 q1 HK1.
      assert (HA1 : unblock_queues (active_prio s) t x e A (LBlk e) = pre ++ rest).
      { rewrite unblock_queues_blk, HA. by apply lrm_split. }
      assert (Hfin : forall v1 s1, s1 = with_event (retask l1 q1 (<[t := unblocked BLK_FINISH x]> (tcbs s)) (with_um s (<[out := cur]> (umem s)))) e v1 ->
        flags v1 = req_clear r (flags v) t -> event_mm_alloc_flag v1 = event_mm_alloc_flag v ->
        wp (event_set_loop fuel e cur (hd (NBlk e) (NTask <$> rest))) Q s1).
      { intros v1 s1 -> Efl Emm. eapply (IH _ (unblock_queues (active_prio s) t x e A) pre v1); simpl; try done.
        - by apply (kgood_event (retask l1 q1 (<[t := unblocked BLK_FINISH x]> (tcbs s)) (with_um s (<[out := cur]> (umem s))))).
        - by rewrite lookup_insert_eq.
        - intros u. rewrite <- Hreq. by apply req_of_unblocked.
        - lia.
        - intros l' q' A' HK' HA' Hoth. specialize (HQ l' q' A'). unfold loop_state in *. simpl in HQ, HK' |- *.
          rewrite insert_insert_eq in *. rewrite Efl, Emm in *.
          rewrite (alter_insert_some _ _ x) in HQ by done.
          assert (Eout : req_out r cur (umem s) t = <[out := cur]> (umem s)) by (unfold req_out; by rewrite Hr).
          rewrite Eout in HQ. apply HQ; [done|done|].
          intros o' Ho'. rewrite Hoth by done. by apply unblock_queues_other. }
      destruct (negb (Z.land o RHINO_FLAGS_CLEAR_MASK =? 0)) eqn:Ec.
      * unfold event_get, event_put. wsteps. eapply Hfin; [done| |done]. simpl. unfold req_clear. by rewrite Hr, Ec.
      * wsteps. apply (Hfin v); [|unfold req_clear; by rewrite Hr, Ec|done].
        unfold with_event, with_ob. simpl. rewrite (insert_id (events (ob s))) by done. by destruct s as [? ? ? ? [] ? ?].
    + wsteps. apply (IH s A (pre ++ [t]) v); try done.
      * by rewrite <- app_assoc.
      * lia.
      * intros l' q' A' s' HK' HA' Hoth. apply (HQ l' q' A'); [done| |done]. by rewrite <- app_assoc in HA'.
Qed.
End SetLoop.

(** ** The calls *)

Section Calls.
Implicit Types (s : kstate) (A : queues) (e : oid) (t : tid) (x : ktask_t) (v : kevent_t).

Lemma event_type s e b : blks (ob s) !! e = Some b -> obj_type b = RHINO_EVENT_OBJ_TYPE -> ~ is_mutex (ob s) e.
Proof. intros Hb Ht (b' & Hb' & Ht'). simplify_eq. congruence. Qed.

Definition set_flags (f : Z) v : kevent_t := mkEvent f (event_mm_alloc_flag v).

(** Fewer flags: nobody can be satisfied. *)
Lemma kwf_fewer_flags s A e v f :
  kwf s A -> has_type s e RHINO_EVENT_OBJ_TYPE -> events (ob s) !! e = Some v -> 0 <= f ->
  Z.land f (flags v) = f -> kwf (with_event s e (set_flags f v)) A.
Proof.
  intros [HK ???] Hty Hv Hf Hs. split; [|done..].
  destruct (oi_event _ _ (kg_obj _ _ HK) e Hty) as (v' & Hv' & H1 & H2); [done|]. simplify_eq.
  eapply (kgood_fill e _ _ (set_flags f v)).
  - by apply kgood_event, kgood_hole.
  - simpl. by rewrite lookup_insert_eq.
  - split; simpl.
    + split; [done|]. rewrite <- Hs, Z.land_comm. eapply Z.le_lt_trans; [apply Z_land_le_l; lia|lia].
    + intros t x Ht Hx. destruct (H2 t x Ht Hx) as (K1 & K2 & K3). split_and!; [|done|lia|lia].
      apply (flags_met_sub (flags v)); [lia|lia|done|done].
Qed.

Lemma kwf_um s A um : kwf s A -> kwf (with_um s um) A.
Proof. intros [HK ???]. split; [by apply kgood_um|done..]. Qed.

Lemma flags_sub_range f g : 0 <= g -> Z.land f g = f -> 0 <= f -> 0 <= f <= g.
Proof. intros ? Hs ?. split; [done|]. rewrite <- Hs, Z.land_comm. by apply Z_land_le_l. Qed.

(** Setting flags with RHINO_OR: exactly the waiting tasks whose request
    the new flags meet are woken, and the flags they consume are cleared. *)
Definition event_set_post s s' A A' e v (fl : Z) : Prop :=
  let cur := Z.lor (flags v) fl in
  let r := req_of (tcbs s) in
  let ws := met_tasks r cur (A (LBlk e)) in
  A' (LBlk e) = unmet_tasks r cur (A (LBlk e)) /\
  (forall o, o <> e -> A' (LBlk o) = A (LBlk o)) /\
  tcbs s' = wake_all BLK_FINISH ws (tcbs s) /\
  events (ob s') = <[e := set_flags (clear_all r ws cur) v]> (events (ob s)) /\
  umem s' = out_all r cur ws (umem s) /\
  (exists top, top_ready A' top /\ gl s' = resched top (gl s)).

Lemma lor_range f g : 0 <= f < 2 ^ 32 -> 0 <= g < 2 ^ 32 -> 0 <= Z.lor f g < 2 ^ 32.
Proof.
  intros Hf Hg. split; [apply Z.lor_nonneg; lia|].
  destruct (decide (Z.lor f g = 0)) as [->|Hn]; [lia|].
  apply Z.log2_lt_pow2; [|rewrite Z.log2_lor by lia; apply Z.max_lub_lt].
  - assert (0 <= Z.lor f g) by (apply Z.lor_nonneg; lia). lia.
  - destruct (decide (f = 0)) as [->|]; [done|]. apply Z.log2_lt_pow2; lia.
  - destruct (decide (g = 0)) as [->|]; [done|]. apply Z.log2_lt_pow2; lia.
Qed.

Lemma elem_of_unmet r cur ts t : t ∈ unmet_tasks r cur ts <-> req_met r cur t = false /\ t ∈ ts.
Proof. unfold unmet_tasks. by rewrite list_elem_of_filter. Qed.

Lemma elem_of_met r cur ts t : t ∈ met_tasks r cur ts <-> req_met r cur t = true /\ t ∈ ts.
Proof. unfold met_tasks. by rewrite list_elem_of_filter. Qed.

Lemma wp_event_set_or s A e v fl (Q : kstat_t -> kstate -> Prop) :
  kwf s A -> has_type s e RHINO_EVENT_OBJ_TYPE -> events (ob s) !! e = Some v -> 0 <= fl < 2 ^ 32 ->
  (forall s' A', kwf s' A' -> event_set_post s s' A A' e v fl -> Q RHINO_SUCCESS s') ->
  wp (krhino_event_set (Some e) fl RHINO_OR) Q s.
Proof.
  intros HW Hty Hv Hfl HQ. pose proof Hty as (b & Hb & Hbt). unfold krhino_event_set, event_set, blk_get, event_get, event_put.
  cbn -[critical_enter bind]. apply wp_bind, (wp_kwf_enter A); [done|]. wsteps.
  rewrite bool_decide_true by done. simpl negb. cbn iota. wsteps. cbn -[wp get_next list_fuel event_set_loop].
  destruct (oi_event _ _ (kg_obj _ _ (kw_good _ _ HW)) e Hty) as (v' & Hv' & H1 & H2); [done|]. simplify_eq.
  wsteps. set (cur := Z.lor (flags v) fl) in *. set (r := req_of (tcbs s)).
  pose proof (lor_range _ _ H1 Hfl) as Hcur. fold cur in Hcur.
  set (s1 := with_event (with_gl (set_primask true (gl s)) s) e (set_flags cur v)).
  assert (HK1 : kgoodx (Some e) s1 A) by (by apply kgood_event, kgood_hole, kwf_enter).
  change (wp (get_next (NBlk e)) (fun a s' => wp (fuel <- list_fuel ;; event_set_loop fuel e cur a ;; critical_exit_sched false ;; ret RHINO_SUCCESS) Q s') s1).
  pose proof (ki_rep _ _ (kg_inv _ _ HK1)) as [Hrg _].
  apply (wp_get_next (nodes (blks (ob s1)) A) (LBlk e) [] (NBlk e) (NTask <$> A (LBlk e))); [done|by rewrite (nodes_blk _ _ _ b)|].
  rewrite app_nil_r. unfold list_fuel. wsteps.
  eapply (wp_event_set_loop e b r cur (A (LBlk e)) _ s1 A [] (set_flags cur v)); [done|done|by eapply event_type| |done|done| | |].
  - simpl. by rewrite lookup_insert_eq.
  - intros u Hu. pose proof (kinv_dom s A _ u (kw_inv _ _ HW) Hu) as [y Hy].
    destruct (H2 u y Hu Hy) as (_ & [out Ho] & _). exists (pend_flags y), (pend_option y), out. unfold r, req_of. by rewrite Hy, Ho.
  - pose proof (ring_size (lm s1) _ (rings_nodup _ _ Hrg (LBlk e)) (rings_ring _ _ Hrg (LBlk e))) as Hl.
    rewrite (nodes_blk _ _ _ b) in Hl by done. simpl in Hl. rewrite length_fmap in Hl. simpl. lia.
  - intros l' q' A' s' HK' HA' Hoth. simpl in HA'.
    destruct (clear_all_sub r (met_tasks r cur (A (LBlk e))) cur) as [Hc1 Hc2]; [lia|].
    assert (HKf : kgood s' A').
    { eapply kgood_fill; [exact HK'|simpl; by rewrite lookup_insert_eq|]. split; simpl.
      - pose proof (flags_sub_range _ _ (proj1 Hcur) Hc2 Hc1). lia.
      - intros t y Ht Hy. rewrite HA' in Ht. apply elem_of_unmet in Ht as [Hun Ht].
        rewrite wake_all_other in Hy by (rewrite elem_of_met; intros [? _]; congruence).
        destruct (H2 t y Ht Hy) as (_ & K2 & K3). split_and!; [|done|lia|lia].
        unfold req_met, r, req_of in Hun. rewrite Hy in Hun. eapply flags_met_sub; [|lia|exact Hc2|done]. lia. }
    apply (wp_exit_resched A'); [done| |].
    + intros Hl. destruct (kw_active _ _ HW) as (a & y & Ha & Hy & Hr); [by left|].
      exists a, y. split_and!; [done| |done]. simpl. rewrite wake_all_other; [done|].
      rewrite elem_of_met. intros [_ Hin]. apply (kinv_in _ _ _ _ (LBlk e) (kw_inv _ _ HW) Hy) in Hin as [Hp _]. by rewrite Hr in Hp.
    + intros top Htop HW'. eapply HQ; [exact HW'|]. split_and!; try done.
      * simpl. by rewrite insert_insert_eq.
      * exists top. split; [done|]. apply resched_unmask.
Qed.

(** Setting with RHINO_AND masks the flags and wakes nobody. *)
Lemma wp_event_set_and s A e v fl (Q : kstat_t -> kstate -> Prop) :
  kwf s A -> has_type s e RHINO_EVENT_OBJ_TYPE -> events (ob s) !! e = Some v -> 0 <= fl < 2 ^ 32 ->
  (kwf (with_event s e (set_flags (Z.land (flags v) fl) v)) A ->
     Q RHINO_SUCCESS (with_event s e (set_flags (Z.land (flags v) fl) v))) ->
  wp (krhino_event_set (Some e) fl RHINO_AND) Q s.
Proof.
  intros HW Hty Hv Hfl HQ. pose proof Hty as (b & Hb & Hbt). unfold krhino_event_set, event_set, blk_get, event_get, event_put.
  cbn -[critical_enter bind]. apply wp_bind, (wp_kwf_enter A); [done|]. wsteps.
  rewrite bool_decide_true by done. simpl negb. cbn iota. wsteps. cbn -[wp critical_exit]. wsteps.
  destruct (oi_event _ _ (kg_obj _ _ (kw_good _ _ HW)) e Hty) as (v' & Hv' & H1 & H2); [done|]. simplify_eq.
  apply wp_critical_exit; [by apply gl_ok_mask, (kw_gl _ _ HW)|]. apply wp_ret.
  assert (Hex : with_event s e (set_flags (Z.land (flags v) fl) v) =
    with_event (with_gl (set_primask false (set_primask true (gl s))) s) e (set_flags (Z.land (flags v) fl) v))
    by by rewrite (kwf_noop s A HW).
  rewrite Hex in HQ. apply HQ. rewrite <- Hex. apply kwf_fewer_flags; [done..|apply Z.land_nonneg; lia|].
  by rewrite <- Z.land_assoc, (Z.land_comm fl), Z.land_assoc, Z.land_diag.
Qed.
End Calls.

(** ** Waiting for flags and deleting *)

Section GetDel.
Implicit Types (s : kstate) (A : queues) (e : oid) (t a : tid) (x : ktask_t) (v : kevent_t).

Definition valid_opt (opt : Z) : Prop :=
  opt = RHINO_AND \/ opt = RHINO_OR \/ opt = RHINO_AND_CLEAR \/ opt = RHINO_OR_CLEAR.

Lemma valid_opt_test opt : valid_opt opt ->
  ((opt =? RHINO_AND) || (opt =? RHINO_OR) || (opt =? RHINO_AND_CLEAR) || (opt =? RHINO_OR_CLEAR)) = true.
Proof. intros [-> | [-> | [-> | ->]]]; done. Qed.

(** The flags left after a successful get. *)
Definition got_flags (cur fl opt : Z) : Z :=
  if negb (Z.land opt RHINO_FLAGS_CLEAR_MASK =? 0) then Z.land cur (u32 (Z.lnot fl)) else cur.

Definition requesting (fl opt : Z) (out : nat) x : ktask_t :=
  set_pend_info (Some out) (set_pend_flags fl (set_pend_option opt x)).

(** The caller with its request written down. *)
Definition with_request s a x (fl opt : Z) (out : nat) : kstate :=
  with_tc (<[a := requesting fl opt out x]> (tcbs s)) s.

Lemma kwf_request s A a x fl opt out :
  kwf s A -> tcbs s !! a = Some x -> task_state x = K_RDY -> kwf (with_request s a x fl opt out) A.
Proof.
  intros [HK Hm Ha Ht] Hx Hr. split; [|done| |done].
  - eapply kgood_task; [done..|by split|right; by rewrite Hr].
  - intros E. destruct (Ha E) as (c & y & Hc & Hy & Hry). simpl. unfold active_ready. simpl.
    destruct (decide (c = a)) as [->|].
    + exists a, (requesting fl opt out x). by rewrite lookup_insert_eq.
    + exists c, y. by rewrite lookup_insert_ne.
Qed.

Lemma wp_event_get s A e v fl opt out ticks a x (Q : callres kstat_t -> kstate -> Prop) :
  kwf s A -> has_type s e RHINO_EVENT_OBJ_TYPE -> events (ob s) !! e = Some v -> valid_opt opt ->
  0 <= fl < 2 ^ 32 -> g_active_task (gl s) = Some a -> tcbs s !! a = Some x -> prio x <> RHINO_IDLE_PRI ->
  ticks = RHINO_NO_WAIT \/ timeout_ok ticks ->
  (0 < g_intrpt_nested_level (gl s) -> Q (Returned RHINO_NOT_CALLED_BY_INTRPT) s) ->
  (let s' := with_event (with_um s (<[out := flags v]> (umem s))) e (set_flags (got_flags (flags v) fl opt) v) in
   g_intrpt_nested_level (gl s) = 0 -> flags_met (flags v) fl opt = true -> kwf s' A -> Q (Returned RHINO_SUCCESS) s') ->
  (g_intrpt_nested_level (gl s) = 0 -> flags_met (flags v) fl opt = false -> ticks = RHINO_NO_WAIT ->
     Q (Returned RHINO_NO_PEND_WAIT) s) ->
  (g_intrpt_nested_level (gl s) = 0 -> flags_met (flags v) fl opt = false -> ticks <> RHINO_NO_WAIT ->
     0 < g_sched_lock (gl s) -> Q (Returned RHINO_SCHED_DISABLE) s) ->
  (forall s' A', g_intrpt_nested_level (gl s) = 0 -> flags_met (flags v) fl opt = false -> ticks <> RHINO_NO_WAIT ->
     g_sched_lock (gl s) = 0 -> kwf s' A' ->
     caller_blocked (with_request s a x fl opt out) s' A A' a (requesting fl opt out x) e ticks ->
     Q (Switched pend_end) s') ->
  wp (krhino_event_get (Some e) fl opt (Some out) ticks) Q s.
Proof.
  intros HW Hty Hv Hopt Hfl Ha Hx Hp Hto Q1 Q2 Q3 Q4 Q5. pose proof Hty as (b & Hb & Hbt).
  unfold krhino_event_get, blk_get, event_get, event_put, active_get.
  rewrite (valid_opt_test opt) by done. cbn [negb]. apply wp_bind, (wp_kwf_enter A); [done|]. wsteps. simpl g_intrpt_nested_level.
  pose proof (kw_gl _ _ HW) as [Hn Hl _ _ _].
  destruct (oi_event _ _ (kg_obj _ _ (kw_good _ _ HW)) e Hty) as (v' & Hv' & H1 & H2); [done|]. simplify_eq.
  destruct (Z.ltb_spec 0 (g_intrpt_nested_level (gl s))) as [Hi|Hi]; [apply (wp_exit_ret A); auto|].
  wsteps. rewrite bool_decide_true by done. cbn [negb]. wsteps.
  assert (g_intrpt_nested_level (gl s) = 0) as E0 by lia.
  pose proof (wrap_range 32 (Z.lnot fl) ltac:(lia)) as Hw.
  destruct (flags_met (flags v) fl opt) eqn:Em.
  - assert (HW' : kwf (with_event (with_um s (<[out := flags v]> (umem s))) e (set_flags (got_flags (flags v) fl opt) v)) A).
    { apply kwf_fewer_flags; [by apply kwf_um|done|done| |]; unfold got_flags; destruct (negb _); try lia.
      - apply Z.land_nonneg; lia.
      - by rewrite <- Z.land_assoc, (Z.land_comm _ (flags v)), Z.land_assoc, Z.land_diag.
      - apply Z.land_diag. }
    wsteps. unfold got_flags in *. destruct (negb _); wsteps; apply wp_critical_exit;
      try (by apply gl_ok_mask, (kw_gl _ _ HW)); apply wp_ret.
    + rewrite <- (kwf_noop s A HW) in Q2. apply Q2; [done|done|]. by rewrite (kwf_noop s A HW).
    + assert (Hid : with_event (with_um s (<[out := flags v]> (umem s))) e (set_flags (flags v) v) =
        with_um s (<[out := flags v]> (umem s))).
      { unfold with_event, with_ob, set_flags. simpl. destruct v. simpl. rewrite insert_id by done. by destruct s as [? ? ? ? [] ? ?]. }
      rewrite Hid in *. rewrite <- (kwf_noop s A HW) in Q2. apply Q2; [done|done|]. by rewrite (kwf_noop s A HW).
  - destruct (Z.eqb_spec ticks RHINO_NO_WAIT) as [Ht|Ht]; [apply (wp_exit_ret A); auto|].
    simpl g_sched_lock. destruct (Z.ltb_spec 0 (g_sched_lock (gl s))) as [Hs|Hs]; [apply (wp_exit_ret A); auto|].
    destruct Hto as [?|Hto]; [done|].
    destruct (kwf_active _ _ HW E0) as (a' & x' & Ha' & Hx' & Hr). simplify_eq.
    wsteps. apply (wp_task_upd _ x); [done|].
    apply wp_bind. eapply wp_task_upd; [simpl; by rewrite lookup_insert_eq|].
    apply wp_bind. eapply wp_task_upd; [simpl; by rewrite lookup_insert_eq|].
    unfold with_tc. simpl. rewrite !insert_insert_eq.
    assert (Htyr : has_type (with_request s a x fl opt out) e RHINO_EVENT_OBJ_TYPE) by done.
    apply (wp_block_exit (with_request s a x fl opt out) A a (requesting fl opt out x) e b).
    + by apply kwf_request.
    + simpl. lia.
    + simpl. by rewrite lookup_insert_eq.
    + done.
    + done.
    + done.
    + done.
    + by eapply event_type.
    + split; [|split; [intros _ w Hw'; simpl in Hw'; simplify_eq; simpl; split_and!; [done|by eexists|lia|lia]|split]];
        intros (b' & Hb' & Ht'); simpl in Hb'; simplify_eq; congruence.
    + intros s' A' HW' Hbl. apply (Q5 s' A'); auto. lia.
Qed.

Lemma wp_event_del s A e v (Q : kstat_t -> kstate -> Prop) :
  kwf s A -> has_type s e RHINO_EVENT_OBJ_TYPE -> events (ob s) !! e = Some v ->
  event_mm_alloc_flag v = K_OBJ_STATIC_ALLOC -> g_intrpt_nested_level (gl s) = 0 ->
  (forall s' A', kwf s' A' -> woken_all s s' A A' e BLK_DEL -> ~ has_type s' e RHINO_EVENT_OBJ_TYPE -> Q RHINO_SUCCESS s') ->
  wp (krhino_event_del (Some e)) Q s.
Proof.
  intros HW (b & Hb & Hty) Hv Hf Hn HQ. unfold krhino_event_del, blk_get, event_get.
  apply wp_bind, (wp_kwf_enter A); [done|]. wsteps. simpl. rewrite Hn. simpl. wsteps.
  rewrite bool_decide_true by done. simpl. wsteps. rewrite Hf. cbn [negb Z.eqb K_OBJ_STATIC_ALLOC Pos.eqb].
  pose proof (kwf_enter _ _ HW) as HK.
  apply wp_assoc, wp_bind, (wp_untype_drain _ A e b); [done|done|congruence|]. intros l' q' A' HK' He Ho.
  unfold event_put. apply wp_bind. wstep.
  set (s1 := retask l' q' _ _) in *.
  change (wp (critical_exit_sched false ;; ret RHINO_SUCCESS) Q (with_event s1 e (mkEvent 0 K_OBJ_STATIC_ALLOC))).
  assert (Hnt : ~ has_type s1 e RHINO_EVENT_OBJ_TYPE).
  { intros (b' & Hb' & Ht'). simpl in Hb'. by simplify_map_eq. }
  assert (HK2 : kgood (with_event s1 e (mkEvent 0 K_OBJ_STATIC_ALLOC)) A').
  { pose proof (kgood_event _ _ _ (mkEvent 0 K_OBJ_STATIC_ALLOC) (kgood_hole e _ _ HK')) as [K1 K2 K3 K4 [K5 K6 K7]].
    split; [done..|]. split; [done| |done]. intros o Hto _. apply K6; [done|]. intros [= ->]. done. }
  apply (wp_exit_resched A'); [done| |].
  - intros Hl. apply (active_ready_wake_all s _ A e BLK_DEL); [apply HW|apply (kw_active _ _ HW); by left|done..].
  - intros top Htop HW'. eapply HQ; [exact HW'| |done].
    split_and!; [done..|]. exists top. split; [done|apply resched_unmask].
Qed.
End GetDel.
