(* ===== verification/Queue.v ===== *)
(** * Message queues (k_queue.c)

    A queue holds pointers in a ring buffer of fixed-size blocks.  A message
    sent while a task waits is stored in that task's control block. *)

From stdpp Require Import functions.
From S2P Require Import Prelude.
From S2P Require Import Monad.
From S2P Require Import Links.
From S2P Require Import KState.
From S2P Require Import Bitmap.
From S2P Require Import Sched.
From S2P Require Import Pend.
From S2P Require Import Inv.
From S2P Require Import MInv.
From S2P Require Import RingBuf.
From S2P Require Import ObjInv.
From S2P Require Import Resched.
From S2P Require Import Block.

(** ** Operations *)

Definition WAKE_ONE_TASK : bool := false.
Definition WAKE_ALL_TASK : bool := true.

(** [sizeof(void * )] on the 32-bit target. *)
Definition sizeof_ptr : Z := 4.

Definition task_msg_recv (msg : Z) (task : tid) : M unit :=
  task_upd task (set_task_msg msg) ;;
  pend_task_wakeup task.

(** [start]: the address of the storage and the bytes found there. *)
Definition queue_create (queue : option oid) (name : option string) (start : option (nat * list Z))
    (msg_num mm_alloc_flag : Z) : M kstat_t :=
  match queue, start, name with
  | Some o, Some (addr, mem), Some _ =>
      if msg_num =? 0 then ret RHINO_INV_PARAM
      else
        klist_init (NBlk o) ;;
        queue_put o (mkQueue
          (ringbuf_init (take (Z.to_nat (u32 (msg_num * sizeof_ptr))) mem) RINGBUF_TYPE_FIX (Z.to_nat sizeof_ptr))
          addr msg_num 0 0 mm_alloc_flag) ;;
        psr <- critical_enter ;;
        critical_exit psr ;;
        blk_put o (mkBlk BLK_POLICY_PRI RHINO_QUEUE_OBJ_TYPE) ;;
        ret RHINO_SUCCESS
  | _, _, _ => ret RHINO_NULL_PTR
  end.

Definition krhino_queue_create (queue : option oid) (name : option string) (start : option (nat * list Z))
    (msg_num : Z) : M kstat_t :=
  queue_create queue name start msg_num K_OBJ_STATIC_ALLOC.

Definition krhino_queue_del (queue : option oid) : M kstat_t :=
  match queue with
  | None => ret RHINO_NULL_PTR
  | Some o =>
      psr <- critical_enter ;;
      g <- gets gl ;;
      if 0 <? g_intrpt_nested_level g then
        critical_exit psr ;; ret RHINO_NOT_CALLED_BY_INTRPT
      else
        b <- blk_get o ;;
        if negb (bool_decide (obj_type b = RHINO_QUEUE_OBJ_TYPE)) then
          critical_exit psr ;; ret RHINO_KOBJ_TYPE_ERR
        else
          v <- queue_get o ;;
          if negb (q_mm_alloc_flag v =? K_OBJ_STATIC_ALLOC) then
            critical_exit psr ;; ret RHINO_KOBJ_DEL_ERR
          else
            blk_put o (set_obj_type RHINO_OBJ_TYPE_NONE b) ;;
            drain_list pend_task_rm (NBlk o) ;;
            queue_put o (mkQueue (ringbuf_reset (q_ringbuf v)) (queue_start v) (q_size v) (q_cur_num v) (q_peak_num v)
              (q_mm_alloc_flag v)) ;;
            critical_exit_sched psr ;;
            ret RHINO_SUCCESS
  end.

Definition msg_send (p_q : option oid) (p_void : Z) (opt_wake_all : bool) : M kstat_t :=
  match p_q with
  | None => ret RHINO_NULL_PTR
  | Some o =>
      psr <- critical_enter ;;
      b <- blk_get o ;;
      if negb (bool_decide (obj_type b = RHINO_QUEUE_OBJ_TYPE)) then
        critical_exit psr ;; ret RHINO_KOBJ_TYPE_ERR
      else
        v <- queue_get o ;;
        if q_size v <=? q_cur_num v then
          critical_exit psr ;; ret RHINO_QUEUE_FULL
        else
          e <- is_klist_empty (NBlk o) ;;
          if e : bool then
            let num := u32 (q_cur_num v + 1) in
            let peak := if q_peak_num v <? num then num else q_peak_num v in
            pushed <- lift (ringbuf_push (q_ringbuf v) (word_bytes p_void) (Z.to_nat sizeof_ptr)) ;;
            queue_put o (mkQueue (snd pushed) (queue_start v) (q_size v) num peak (q_mm_alloc_flag v)) ;;
            critical_exit psr ;;
            ret RHINO_SUCCESS
          else
            (if opt_wake_all then drain_list (task_msg_recv p_void) (NBlk o)
             else
               n <- get_next (NBlk o) ;;
               t <- task_of n ;;
               task_msg_recv p_void t) ;;
            critical_exit_sched psr ;;
            ret RHINO_SUCCESS
  end.

Definition krhino_queue_back_send (queue : option oid) (msg : Z) : M kstat_t := msg_send queue msg WAKE_ONE_TASK.
Definition krhino_queue_all_send (queue : option oid) (msg : Z) : M kstat_t := msg_send queue msg WAKE_ALL_TASK.

(** The code after the switch; [msg] is the address of the caller's variable. *)
Definition queue_recv_end (msg : nat) : M kstat_t :=
  psr <- cpu_intrpt_save ;;
  a <- active_get ;;
  st <- pend_state_end_proc a ;;
  (if bool_decide (st = RHINO_SUCCESS) then
     x <- task_get a ;; umem_put msg (task_msg x)
   else umem_put msg 0) ;;
  cpu_intrpt_restore psr ;;
  ret st.

Definition krhino_queue_recv (queue : option oid) (ticks : Z) (msg : option nat) : M (callres kstat_t) :=
  match queue, msg with
  | Some o, Some out =>
      psr <- critical_enter ;;
      g <- gets gl ;;
      if (0 <? g_intrpt_nested_level g) && negb (ticks =? RHINO_NO_WAIT) then
        critical_exit psr ;; ret (Returned RHINO_NOT_CALLED_BY_INTRPT)
      else
        b <- blk_get o ;;
        if negb (bool_decide (obj_type b = RHINO_QUEUE_OBJ_TYPE)) then
          critical_exit psr ;; ret (Returned RHINO_KOBJ_TYPE_ERR)
        else
          v <- queue_get o ;;
          if 0 <? q_cur_num v then
            popped <- lift (ringbuf_pop (q_ringbuf v)) ;;
            let '(st, d, r) := popped in
            when (bool_decide (st = RHINO_SUCCESS)) (umem_put out (bytes_word d)) ;;
            queue_put o (mkQueue r (queue_start v) (q_size v) (u32 (q_cur_num v - 1)) (q_peak_num v) (q_mm_alloc_flag v)) ;;
            critical_exit psr ;;
            ret (Returned RHINO_SUCCESS)
          else if ticks =? RHINO_NO_WAIT then
            umem_put out 0 ;;
            critical_exit psr ;; ret (Returned RHINO_NO_PEND_WAIT)
          else if 0 <? g_sched_lock g then
            umem_put out 0 ;;
            critical_exit psr ;; ret (Returned RHINO_SCHED_DISABLE)
          else
            a <- active_get ;;
            pend_to_blk_obj o a ticks ;;
            critical_exit_sched psr ;;
            ret (Switched (queue_recv_end out))
  | _, _ => ret (Returned RHINO_NULL_PTR)
  end.

Definition krhino_queue_is_full (queue : option oid) : M kstat_t :=
  match queue with
  | None => ret RHINO_NULL_PTR
  | Some o =>
      psr <- critical_enter ;;
      b <- blk_get o ;;
      if negb (bool_decide (obj_type b = RHINO_QUEUE_OBJ_TYPE)) then
        critical_exit psr ;; ret RHINO_KOBJ_TYPE_ERR
      else
        v <- queue_get o ;;
        let st := if q_size v <=? q_cur_num v then RHINO_QUEUE_FULL else RHINO_QUEUE_NOT_FULL in
        critical_exit psr ;;
        ret st
  end.

Definition krhino_queue_flush (queue : option oid) : M kstat_t :=
  match queue with
  | None => ret RHINO_NULL_PTR
  | Some o =>
      psr <- critical_enter ;;
      g <- gets gl ;;
      if 0 <? g_intrpt_nested_level g then
        critical_exit psr ;; ret RHINO_NOT_CALLED_BY_INTRPT
      else
        b <- blk_get o ;;
        if negb (bool_decide (obj_type b = RHINO_QUEUE_OBJ_TYPE)) then
          critical_exit psr ;; ret RHINO_KOBJ_TYPE_ERR
        else
          v <- queue_get o ;;
          queue_put o (mkQueue (ringbuf_reset (q_ringbuf v)) (queue_start v) (q_size v) 0 (q_peak_num v) (q_mm_alloc_flag v)) ;;
          critical_exit psr ;;
          ret RHINO_SUCCESS
  end.

(** [msg_info_t]. *)
Record msg_info_t := mkMsgInfo {
  mi_peak_num : Z;
  mi_cur_num : Z;
  mi_queue_start : nat;
  mi_size : Z;
  pend_entry : knode;
}.

(** [info] is an output pointer: whether it is NULL, and the value stored. *)
Definition krhino_queue_info_get (queue : option oid) (info_null : bool) : M (kstat_t * option msg_info_t) :=
  match queue with
  | None => ret (RHINO_NULL_PTR, None)
  | Some o =>
      if info_null then ret (RHINO_NULL_PTR, None)
      else
        psr <- cpu_intrpt_save ;;
        b <- blk_get o ;;
        if negb (bool_decide (obj_type b = RHINO_QUEUE_OBJ_TYPE)) then
          cpu_intrpt_restore psr ;; ret (RHINO_KOBJ_TYPE_ERR, None)
        else
          v <- queue_get o ;;
          n <- get_next (NBlk o) ;;
          cpu_intrpt_restore psr ;;
          ret (RHINO_SUCCESS, Some (mkMsgInfo (q_peak_num v) (q_cur_num v) (queue_start v) (q_size v) n))
  end.

(** ** Messages as bytes *)

Section Words.
Implicit Types (v m : Z) (ms : list Z).

Lemma byte_of v i : 0 <= i -> Z.land (Z.shiftr v (8 * i)) 0xff = (v / 2 ^ (8 * i)) mod 256.
Proof. intros. rewrite Z.shiftr_div_pow2 by lia. apply (Z.land_ones _ 8). lia. Qed.

Lemma word_roundtrip v : 0 <= v < 2 ^ 32 -> bytes_word (word_bytes v) = v.
Proof.
  intros Hv. unfold bytes_word, word_bytes. simpl fmap. rewrite !byte_of by lia. simpl foldr.
  change (2 ^ (8 * 0)) with 1. change (2 ^ (8 * 1)) with 256. change (2 ^ (8 * 2)) with 65536.
  change (2 ^ (8 * 3)) with 16777216. pose proof (Z.div_mod v 256). 
  rewrite Z.div_1_r. change 65536 with (256 * 256). change 16777216 with (256 * 256 * 256).
  rewrite <- !Z.div_div by lia. pose proof (Z.div_mod (v / 256) 256). pose proof (Z.div_mod (v / 256 / 256) 256).
  rewrite (Z.mod_small (v / 256 / 256 / 256) 256); [lia|].
  rewrite !Z.div_div by lia. split; [apply Z.div_pos; lia|]. apply Z.div_lt_upper_bound; lia.
Qed.
End Words.

(** ** Queue states *)

Section QueueState.
Implicit Types (s : kstate) (A : queues) (o : oid) (v : kqueue_t) (m : Z) (ms : list Z).

Lemma queue_cap v ms : queue_rep v ms -> Z.of_nat (length ms) <= q_size v.
Proof.
  intros [Hr Hb He Hs Hn _]. destruct (fix_full _ _ (Z.to_nat (q_size v)) Hr) as [Hl _]; [rewrite Hb; lia|].
  rewrite length_fmap in Hl. lia.
Qed.

(** [v] after its contents were replaced. *)
Definition refilled v (r : k_ringbuf_t) (num peak : Z) : kqueue_t :=
  mkQueue r (queue_start v) (q_size v) num peak (q_mm_alloc_flag v).

Lemma queue_push v ms m :
  queue_rep v ms -> Z.of_nat (length ms) < q_size v -> 0 <= m < 2 ^ 32 ->
  exists r, ringbuf_push (q_ringbuf v) (word_bytes m) (Z.to_nat sizeof_ptr) = Some (RHINO_SUCCESS, r) /\
    forall peak, queue_rep (refilled v r (Z.of_nat (length ms) + 1) peak) (ms ++ [m]).
Proof.
  intros [Hr Hb He Hs Hn Hw] Hl Hm.
  destruct (fix_full _ _ (Z.to_nat (q_size v)) Hr) as [_ Hf]; [rewrite Hb; lia|].
  destruct (ring_push (rep := fix_rep) (q_ringbuf v) (word_bytes <$> ms) (word_bytes m) 4) as (r & Hp & Hr' & E1 & E2 & E3).
  - done.
  - lia.
  - unfold fix_verdict. rewrite (proj2 Hf); [done|]. rewrite length_fmap. lia.
  - by rewrite Hb.
  - exists r. split; [done|]. intros peak. split; simpl; try congruence; try lia.
    + by rewrite fmap_app.
    + rewrite length_app. simpl. lia.
    + apply Forall_app. split; [done|]. by constructor.
Qed.

Lemma queue_pop v m ms :
  queue_rep v (m :: ms) ->
  exists r, ringbuf_pop (q_ringbuf v) = Some (RHINO_SUCCESS, word_bytes m, r) /\
    forall peak, queue_rep (refilled v r (Z.of_nat (length ms)) peak) ms.
Proof.
  intros [Hr Hb He Hs Hn Hw]. apply Forall_cons in Hw as [Hm Hw].
  destruct (ring_pop (rep := fix_rep) (q_ringbuf v) (word_bytes m) (fmap (M:=list) word_bytes ms) Hr) as (r & Hp & Hr' & E1 & E2 & E3).
  exists r. split; [done|]. intros peak. split; simpl; try congruence; lia.
Qed.

Lemma queue_empty v ms peak : queue_rep v ms -> queue_rep (refilled v (ringbuf_reset (q_ringbuf v)) 0 peak) [].
Proof.
  intros [Hr Hb He Hs Hn Hw]. split; simpl; try done. by apply (ring_reset (rep := fix_rep) _ (word_bytes <$> ms)).
Qed.

Definition with_queue s o v um : kstate := redata s (set_kqueues (<[o := v]> (kqueues (ob s))) (ob s)) um.

Lemma queue_data_ok s A o v um :
  kgood s A -> (has_type s o RHINO_QUEUE_OBJ_TYPE -> queue_ok (A (LBlk o)) v) ->
  data_ok s A (set_kqueues (<[o := v]> (kqueues (ob s))) (ob s)) um.
Proof.
  intros [_ _ _ _ [Hs He Hq]] Hv. split; [done..|]. split; simpl; [exact Hs|exact He|]. intros o'.
  destruct (Hq o') as [H1 H2]. split; simpl; [|exact H2]. intros Ht. destruct (decide (o' = o)) as [->|].
  - exists v. rewrite lookup_insert_eq. split; [done|by apply Hv].
  - rewrite lookup_insert_ne by done. by apply H1.
Qed.

(** The end of a call that changed only the queue and the caller's memory. *)
Lemma wp_queue_exit {R : Type} A s o v um (r : R) (Q : R -> kstate -> Prop) :
  kwf s A -> queue_ok (A (LBlk o)) v ->
  (kwf (with_queue s o v um) A -> Q r (with_queue s o v um)) ->
  wp (critical_exit false ;; ret r) Q (with_gl (set_primask true (gl s)) (with_queue s o v um)).
Proof. intros HW Hv. apply (wp_data_exit A); [done|]. apply queue_data_ok; [apply HW|done]. Qed.

Lemma queue_obj s A o : kwf s A -> has_type s o RHINO_QUEUE_OBJ_TYPE ->
  exists v ms, kqueues (ob s) !! o = Some v /\ queue_rep v ms /\ (ms <> [] -> A (LBlk o) = []).
Proof.
  intros HW Ht. destruct (so_queue _ _ _ (oi_store _ _ (kg_obj _ _ (kw_good _ _ HW)) o) Ht) as (v & Hv & ms & Hr & Hw).
  by exists v, ms.
Qed.

Lemma queue_type s o b : blks (ob s) !! o = Some b -> obj_type b = RHINO_QUEUE_OBJ_TYPE -> ~ is_mutex (ob s) o.
Proof. intros Hb Ht (b' & Hb' & Ht'). simplify_eq. congruence. Qed.
End QueueState.

(** ** Sending *)

Section Send.
Implicit Types (s : kstate) (A : queues) (o : oid) (v : kqueue_t) (m : Z) (ms : list Z) (t : tid) (x : ktask_t).

(** What becomes of a waiting task that is handed the message [m]. *)
Definition delivered m x : ktask_t := unblocked BLK_FINISH (set_task_msg m x).

Lemma recv_releases m o : releases (task_msg_recv m) (delivered m) o.
Proof. by apply (update_releases (set_task_msg m)). Qed.

(** The queue is full: nothing happens.  Nobody waits: the message is
    appended.  Otherwise one waiting task, or all of them, get the message. *)
Lemma wp_msg_send s A o v ms m all (Q : kstat_t -> kstate -> Prop) :
  kwf s A -> has_type s o RHINO_QUEUE_OBJ_TYPE -> kqueues (ob s) !! o = Some v -> queue_rep v ms ->
  0 <= m < 2 ^ 32 ->
  (Z.of_nat (length ms) = q_size v -> Q RHINO_QUEUE_FULL s) ->
  (forall v', A (LBlk o) = [] -> Z.of_nat (length ms) < q_size v -> queue_rep v' (ms ++ [m]) ->
     q_size v' = q_size v -> kwf (with_queue s o v' (umem s)) A -> Q RHINO_SUCCESS (with_queue s o v' (umem s))) ->
  (forall t ts s' A', all = false -> ms = [] -> A (LBlk o) = t :: ts -> kwf s' A' -> released s s' A A' t o (delivered m) ->
     Q RHINO_SUCCESS s') ->
  (forall s' A', all = true -> ms = [] -> A (LBlk o) <> [] -> kwf s' A' -> woken_with s s' A A' o (delivered m) ->
     ob s' = ob s -> Q RHINO_SUCCESS s') ->
  wp (msg_send (Some o) m all) Q s.
Proof.
  intros HW Hty Hv Hr Hm Q1 Q2 Q3 Q4.
  destruct (queue_obj s A o HW Hty) as (v0 & ms0 & Hv0 & Hr0 & Hw). destruct Hty as (b & Hb & Hty). simplify_eq.
  assert (ms0 <> [] <-> ms <> []) as Hms.
  { pose proof (qr_num _ _ Hr) as E. rewrite (qr_num _ _ Hr0) in E. destruct ms, ms0; simpl in E; done || lia. }
  unfold msg_send, blk_get, queue_get, queue_put.
  apply wp_bind, (wp_kwf_enter A); [done|]. wsteps. rewrite bool_decide_true by done. simpl. wsteps.
  pose proof (queue_cap _ _ Hr) as Hcap. pose proof (qr_size _ _ Hr) as Hsz. rewrite (qr_num _ _ Hr).
  destruct (Z.leb_spec (q_size v) (Z.of_nat (length ms))) as [Hf|Hf]; [apply (wp_exit_ret A); [done|]; apply Q1; lia|].
  pose proof (kwf_enter _ _ HW) as HK. apply wp_bind, (wp_blk_empty _ A o b); [apply HK|done|].
  destruct (A (LBlk o)) as [|t ts] eqn:EA; simpl.
  - destruct (queue_push v ms m Hr Hf Hm) as (r & Hp & Hr'). wsteps. cbn [snd]. rewrite wrap_small by lia.
    set (peak := if q_peak_num v <? _ then _ else _). set (v' := mkQueue _ _ _ _ _ _).
    apply wp_fold, (wp_queue_exit A s o v' (umem s)); [done| |].
    + exists (ms ++ [m]). split; [apply Hr'|]. by rewrite EA.
    + intros HW'. apply Q2; [done..|apply Hr'|done|done].
  - assert (ms = []) as -> by (destruct ms; [done|]; discriminate Hw; by apply Hms).
    destruct all.
    + apply (wp_release_all_exit s A o b _ _ _ Q (recv_releases m o)); [done|done|by eapply queue_type|].
      intros s' A' HW' Hwk Eo. by apply (Q4 s' A').
    + destruct (first_waiter s A o t ts (kg_inv _ _ (kw_good _ _ HW)) EA) as (x & Hx & Hp & Ho).
      wsteps. apply (wp_get_first _ A o b t ts); [apply HK|done..|]. cbn [task_of]. wsteps.
      apply wp_fold, (wp_release_exit s A t x o _ _ _ Q (recv_releases m o)); [done..|by eapply queue_type|]. eauto.
Qed.
End Send.

(** ** Receiving *)

Section Recv.
Implicit Types (s : kstate) (A : queues) (o : oid) (v : kqueue_t) (m : Z) (ms : list Z) (x : ktask_t).

Lemma wp_queue_recv s A o v ms ticks out a x (Q : callres kstat_t -> kstate -> Prop) :
  kwf s A -> has_type s o RHINO_QUEUE_OBJ_TYPE -> kqueues (ob s) !! o = Some v -> queue_rep v ms ->
  g_active_task (gl s) = Some a -> tcbs s !! a = Some x ->
  ticks = RHINO_NO_WAIT \/ timeout_ok ticks /\ prio x <> RHINO_IDLE_PRI ->
  (0 < g_intrpt_nested_level (gl s) -> ticks <> RHINO_NO_WAIT -> Q (Returned RHINO_NOT_CALLED_BY_INTRPT) s) ->
  (forall m ms' v', g_intrpt_nested_level (gl s) = 0 \/ ticks = RHINO_NO_WAIT -> ms = m :: ms' -> queue_rep v' ms' ->
     kwf (with_queue s o v' (<[out := m]> (umem s))) A ->
     Q (Returned RHINO_SUCCESS) (with_queue s o v' (<[out := m]> (umem s)))) ->
  (ms = [] -> ticks = RHINO_NO_WAIT -> kwf (with_out s out 0) A -> Q (Returned RHINO_NO_PEND_WAIT) (with_out s out 0)) ->
  (ms = [] -> ticks <> RHINO_NO_WAIT -> g_intrpt_nested_level (gl s) = 0 -> 0 < g_sched_lock (gl s) ->
     kwf (with_out s out 0) A -> Q (Returned RHINO_SCHED_DISABLE) (with_out s out 0)) ->
  (forall s' A', ms = [] -> ticks <> RHINO_NO_WAIT -> g_intrpt_nested_level (gl s) = 0 -> g_sched_lock (gl s) = 0 ->
     kwf s' A' -> caller_blocked s s' A A' a x o ticks -> Q (Switched (queue_recv_end out)) s') ->
  wp (krhino_queue_recv (Some o) ticks (Some out)) Q s.
Proof.
  intros HW (b & Hb & Hty) Hv Hr Ha Hx Hto Q1 Q2 Q3 Q4 Q5.
  unfold krhino_queue_recv, blk_get, queue_get, queue_put, active_get, umem_put.
  apply wp_bind, (wp_kwf_enter A); [done|]. wsteps. simpl.
  pose proof (kg_gl _ _ (kw_good _ _ HW)) as [Hn Hl _ _ _].
  assert (Hout : forall z, data_ok s A (ob s) (<[out := z]> (umem s))) by (intros; apply data_ok_um, HW).
  destruct (_ && _) eqn:Ei.
  { apply andb_true_iff in Ei as [E1%Z.ltb_lt E2%negb_true_iff%Z.eqb_neq]. apply (wp_exit_ret A); auto. }
  assert (Hi : g_intrpt_nested_level (gl s) = 0 \/ ticks = RHINO_NO_WAIT).
  { apply andb_false_iff in Ei as [E1%Z.ltb_ge|E2%negb_false_iff%Z.eqb_eq]; [left; lia|by right]. }
  wsteps. rewrite bool_decide_true by done. simpl. wsteps. rewrite (qr_num _ _ Hr).
  destruct ms as [|m ms]; simpl.
  - destruct (Z.eqb_spec ticks RHINO_NO_WAIT) as [Ht|Ht].
    { wsteps. apply wp_fold. at_state (with_gl (set_primask true (gl s)) (with_out s out 0)). apply (wp_data_exit A); auto. }
    destruct Hto as [?|[Hto Hp]]; [done|]. destruct Hi as [Hi|?]; [|done].
    destruct (Z.ltb_spec 0 (g_sched_lock (gl s))) as [Hs|Hs].
    { wsteps. apply wp_fold. at_state (with_gl (set_primask true (gl s)) (with_out s out 0)). apply (wp_data_exit A); auto. }
    wsteps. destruct (kwf_active _ _ HW Hi) as (a' & x' & Ha' & Hx' & Hrd). simplify_eq.
    apply wp_fold, (wp_block_exit s A a x o b); [done|lia|done..|by eapply queue_type| |].
    + split_and!; [| |intros _ w Hw; simplify_eq; by rewrite (qr_num _ _ Hr)|];
        intros (b' & Hb' & Ht'); simplify_eq; congruence.
    + intros s' A' HW' Hbl. apply (Q5 s' A'); auto; lia.
  - destruct (queue_pop v m ms Hr) as (r & Hp & Hr'). wsteps. cbn [when].
    rewrite word_roundtrip by (pose proof (qr_words _ _ Hr) as Hw; by inversion Hw).
    assert (u32 (Z.of_nat (S (length ms)) - 1) = Z.of_nat (length ms)) as ->.
    { pose proof (queue_cap _ _ Hr) as Hc. pose proof (qr_size _ _ Hr). simpl in Hc. rewrite wrap_small; lia. }
    rewrite bool_decide_true by done. wsteps.
    set (v' := mkQueue _ _ _ _ _ _).
    assert (queue_rep v' ms) as Hrv by apply Hr'.
    apply wp_fold. at_state (with_gl (set_primask true (gl s)) (with_queue s o v' (<[out := m]> (umem s)))).
    apply (wp_queue_exit A); [done| |].
    + exists ms. split; [done|]. intros Hne. destruct (queue_obj s A o HW) as (v0 & ms0 & Hv0 & Hr0 & Hw); [by exists b|].
      simplify_eq. apply Hw. pose proof (qr_num _ _ Hr0) as E. rewrite (qr_num _ _ Hr) in E. by destruct ms0.
    + intros HW'. by apply (Q2 m ms v').
Qed.

(** What the receiver finds when it runs again. *)
Lemma wp_queue_recv_end s A a x out (Q : kstat_t -> kstate -> Prop) :
  kwf s A -> g_active_task (gl s) = Some a -> tcbs s !! a = Some x -> blk_state x <> BLK_INVALID ->
  (let z := if bool_decide (blk_state x = BLK_FINISH) then task_msg x else 0 in
   kwf (with_out s out z) A -> Q (wake_status (blk_state x)) (with_out s out z)) ->
  wp (queue_recv_end out) Q s.
Proof.
  intros HW Ha Hx Hb HQ. unfold queue_recv_end, active_get, umem_put, task_get.
  apply wp_bind, (wp_kwf_enter A); [done|]. wsteps. apply (wp_end_proc _ a x); [done..|].
  assert (Hout : forall z, data_ok s A (ob s) (<[out := z]> (umem s))) by (intros; apply data_ok_um, HW).
  apply wp_bind, (run_wp _ _ _ tt (with_gl (set_primask true (gl s))
    (with_out s out (if bool_decide (blk_state x = BLK_FINISH) then task_msg x else 0)))).
  - destruct (blk_state x); try done. unfold bind. simpl. by rewrite Hx.
  - by apply (wp_data_exit A).
Qed.
End Recv.

(** ** The other operations *)

Section OtherQueue.
Implicit Types (s : kstate) (A : queues) (o : oid) (v : kqueue_t) (ms : list Z).

Lemma wp_queue_is_full s A o v ms (Q : kstat_t -> kstate -> Prop) :
  kwf s A -> has_type s o RHINO_QUEUE_OBJ_TYPE -> kqueues (ob s) !! o = Some v -> queue_rep v ms ->
  Q (if Z.of_nat (length ms) =? q_size v then RHINO_QUEUE_FULL else RHINO_QUEUE_NOT_FULL) s ->
  wp (krhino_queue_is_full (Some o)) Q s.
Proof.
  intros HW (b & Hb & Hty) Hv Hr HQ. unfold krhino_queue_is_full, blk_get, queue_get.
  apply wp_bind, (wp_kwf_enter A); [done|]. wsteps. rewrite bool_decide_true by done. simpl. wsteps.
  apply wp_fold, (wp_exit_ret A); [done|]. rewrite (qr_num _ _ Hr). pose proof (queue_cap _ _ Hr).
  destruct (Z.leb_spec (q_size v) (Z.of_nat (length ms))), (Z.eqb_spec (Z.of_nat (length ms)) (q_size v)); done || lia.
Qed.

Lemma wp_queue_flush s A o v ms (Q : kstat_t -> kstate -> Prop) :
  kwf s A -> has_type s o RHINO_QUEUE_OBJ_TYPE -> kqueues (ob s) !! o = Some v -> queue_rep v ms ->
  (0 < g_intrpt_nested_level (gl s) -> Q RHINO_NOT_CALLED_BY_INTRPT s) ->
  (forall v', g_intrpt_nested_level (gl s) = 0 -> queue_rep v' [] -> kwf (with_queue s o v' (umem s)) A ->
     Q RHINO_SUCCESS (with_queue s o v' (umem s))) ->
  wp (krhino_queue_flush (Some o)) Q s.
Proof.
  intros HW (b & Hb & Hty) Hv Hr Q1 Q2. unfold krhino_queue_flush, blk_get, queue_get, queue_put.
  pose proof (kg_gl _ _ (kw_good _ _ HW)) as [Hn _ _ _ _].
  apply wp_bind, (wp_kwf_enter A); [done|]. wsteps. simpl.
  destruct (Z.ltb_spec 0 (g_intrpt_nested_level (gl s))) as [Hi|Hi]; [apply (wp_exit_ret A); auto|].
  wsteps. rewrite bool_decide_true by done. simpl. wsteps.
  pose proof (queue_empty v ms (q_peak_num v) Hr) as Hr'.
  apply wp_fold. at_state (with_gl (set_primask true (gl s)) (with_queue s o (refilled v (ringbuf_reset (q_ringbuf v)) 0 (q_peak_num v)) (umem s))).
  apply (wp_queue_exit A); [done|by exists []|]. intros HW'. apply Q2; [lia|done..].
Qed.

Lemma wp_queue_del s A o v (Q : kstat_t -> kstate -> Prop) :
  kwf s A -> has_type s o RHINO_QUEUE_OBJ_TYPE -> kqueues (ob s) !! o = Some v ->
  q_mm_alloc_flag v = K_OBJ_STATIC_ALLOC -> g_intrpt_nested_level (gl s) = 0 ->
  (forall s' A', kwf s' A' -> woken_all s s' A A' o BLK_DEL -> ~ has_type s' o RHINO_QUEUE_OBJ_TYPE -> Q RHINO_SUCCESS s') ->
  wp (krhino_queue_del (Some o)) Q s.
Proof.
  intros HW (b & Hb & Hty) Hv Hf Hn HQ. unfold krhino_queue_del, blk_get, queue_get.
  apply wp_bind, (wp_kwf_enter A); [done|]. wsteps. simpl. rewrite Hn. simpl. wsteps.
  rewrite bool_decide_true by done. simpl. wsteps. rewrite Hf. cbn [negb Z.eqb K_OBJ_STATIC_ALLOC Pos.eqb].
  pose proof (kwf_enter _ _ HW) as HK.
  apply wp_assoc, wp_bind, (wp_untype_drain _ A o b); [done|done|congruence|]. intros l' q' A' HK' He Ho.
  set (s1 := retask l' q' _ _) in *.
  assert (Hnt : ~ has_type s1 o RHINO_QUEUE_OBJ_TYPE).
  { intros (b' & Hb' & Ht'). simpl in Hb'. by simplify_map_eq. }
  unfold queue_put. apply wp_bind. wstep. set (v' := mkQueue _ _ _ _ _ _). at_state (with_queue s1 o v' (umem s1)).
  apply (wp_exit_resched A').
  - apply kgood_data; [done|]. by apply queue_data_ok.
  - intros Hl. apply (active_ready_wake_all s _ A o BLK_DEL); [apply HW|apply (kw_active _ _ HW); by left|done..].
  - intros top Htop HW'. eapply HQ; [exact HW'| |done].
    split_and!; [done..|]. exists top. split; [done|apply resched_unmask].
Qed.
End OtherQueue.
