(* ===== verification/BufQueue.v ===== *)
(** * Buffer queues (k_buf_queue.c)

    A buffer queue holds byte messages in a ring buffer, of a length each or
    of one fixed length.  A message sent while a task waits is copied into
    the buffer that task passed. *)

From stdpp Require Import functions.
From S2P Require Import Prelude.
From S2P Require Import Monad.
From S2P Require Import Links.
From S2P Require Import KState.
From S2P Require Import Bitmap.
From S2P Require Import Sched.
From S2P Require Import Pend.
From S2P Require Import Inv.
From S2P Require Import MInv.
From S2P Require Import RingBuf.
From S2P Require Import ObjInv.
From S2P Require Import Resched.
From S2P Require Import Block.

(** ** Operations *)

(** [buf]: the bytes found from the buffer's address on.  The fields are
    stored before and after the (empty) critical section and the type. *)
Definition buf_queue_create (queue : option oid) (name : option string) (buf : option (list Z))
    (size max_msg mm_alloc_flag type : Z) : M kstat_t :=
  match queue, buf, name with
  | Some o, Some mem, Some _ =>
      if max_msg =? 0 then ret RHINO_INV_PARAM
      else if size =? 0 then ret RHINO_BUF_QUEUE_SIZE_ZERO
      else
        klist_init (NBlk o) ;;
        psr <- critical_enter ;;
        critical_exit psr ;;
        blk_put o (mkBlk BLK_POLICY_PRI RHINO_BUF_QUEUE_OBJ_TYPE) ;;
        let r := ringbuf_init (take (Z.to_nat size) mem) type (Z.to_nat max_msg) in
        bufq_put o (mkBufq r max_msg 0 0 (Z.of_nat (rb_freesize r)) mm_alloc_flag) ;;
        ret RHINO_SUCCESS
  | _, _, _ => ret RHINO_NULL_PTR
  end.

Definition krhino_buf_queue_create (queue : option oid) (name : option string) (buf : option (list Z))
    (size max_msg : Z) : M kstat_t :=
  buf_queue_create queue name buf size max_msg K_OBJ_STATIC_ALLOC RINGBUF_TYPE_DYN.

Definition krhino_fix_buf_queue_create (queue : option oid) (name : option string) (buf : option (list Z))
    (msg_size msg_num : Z) : M kstat_t :=
  buf_queue_create queue name buf (u32 (msg_size * msg_num)) msg_size K_OBJ_STATIC_ALLOC RINGBUF_TYPE_FIX.

(** [queue->ringbuf = r]. *)
Definition set_bq_ringbuf (r : k_ringbuf_t) (v : kbuf_queue_t) : kbuf_queue_t :=
  mkBufq r (max_msg_size v) (bq_cur_num v) (bq_peak_num v) (min_free_buf_size v) (bq_mm_alloc_flag v).

Definition krhino_buf_queue_del (queue : option oid) : M kstat_t :=
  match queue with
  | None => ret RHINO_NULL_PTR
  | Some o =>
      psr <- critical_enter ;;
      g <- gets gl ;;
      if 0 <? g_intrpt_nested_level g then
        critical_exit psr ;; ret RHINO_NOT_CALLED_BY_INTRPT
      else
        b <- blk_get o ;;
        if negb (bool_decide (obj_type b = RHINO_BUF_QUEUE_OBJ_TYPE)) then
          critical_exit psr ;; ret RHINO_KOBJ_TYPE_ERR
        else
          v <- bufq_get o ;;
          if negb (bq_mm_alloc_flag v =? K_OBJ_STATIC_ALLOC) then
            critical_exit psr ;; ret RHINO_KOBJ_DEL_ERR
          else
            blk_put o (set_obj_type RHINO_OBJ_TYPE_NONE b) ;;
            drain_list pend_task_rm (NBlk o) ;;
            bufq_put o (set_bq_ringbuf (ringbuf_reset (bq_ringbuf v)) v) ;;
            critical_exit_sched psr ;;
            ret RHINO_SUCCESS
  end.

(** [memcpy(dst, src, n)] in the caller's memory. *)
Definition umem_memcpy (dst src n : nat) : M unit :=
  um <- gets umem ;;
  let d := cells_read um src n in
  if (length d =? n)%nat then umem_copy dst d else fault.

(** [msg] is the address of the message.  [ringbuf_push] reads as many bytes
    from it as it copies. *)
Definition buf_queue_send (o : oid) (msg : nat) (msg_size : Z) : M kstat_t :=
  psr <- critical_enter ;;
  b <- blk_get o ;;
  if negb (bool_decide (obj_type b = RHINO_BUF_QUEUE_OBJ_TYPE)) then
    critical_exit psr ;; ret RHINO_KOBJ_TYPE_ERR
  else
    v <- bufq_get o ;;
    if max_msg_size v <? msg_size then
      critical_exit psr ;; ret RHINO_BUF_QUEUE_MSG_SIZE_OVERFLOW
    else if msg_size =? 0 then
      critical_exit psr ;; ret RHINO_INV_PARAM
    else
      e <- is_klist_empty (NBlk o) ;;
      if e : bool then
        um <- gets umem ;;
        let len := Z.to_nat msg_size in
        pushed <- lift (ringbuf_push (bq_ringbuf v) (cells_read um msg (ring_copied (bq_ringbuf v) len)) len) ;;
        let '(err, r) := pushed in
        if negb (bool_decide (err = RHINO_SUCCESS)) then
          bufq_put o (set_bq_ringbuf r v) ;;
          critical_exit psr ;;
          ret (if bool_decide (err = RHINO_RINGBUF_FULL) then RHINO_BUF_QUEUE_FULL else err)
        else
          let num := u32 (bq_cur_num v + 1) in
          let peak := if bq_peak_num v <? num then num else bq_peak_num v in
          let free := Z.of_nat (rb_freesize r) in
          let min_free := if free <? min_free_buf_size v then free else min_free_buf_size v in
          bufq_put o (mkBufq r (max_msg_size v) num peak min_free (bq_mm_alloc_flag v)) ;;
          critical_exit psr ;;
          ret RHINO_SUCCESS
      else
        n <- get_next (NBlk o) ;;
        t <- task_of n ;;
        x <- task_get t ;;
        umem_memcpy (Z.to_nat (task_msg x)) msg (Z.to_nat msg_size) ;;
        (task_upd t (set_task_bq_msg_size msg_size) ;;
         pend_task_wakeup t) ;;
        critical_exit_sched psr ;;
        ret RHINO_SUCCESS.

Definition krhino_buf_queue_send (queue : option oid) (msg : option nat) (size : Z) : M kstat_t :=
  match queue, msg with
  | Some o, Some a => buf_queue_send o a size
  | _, _ => ret RHINO_NULL_PTR
  end.

(** The two stores of [ringbuf_pop] through [pdata] and [plen]: the length
    last for blocks of fixed length, first otherwise. *)
Definition pop_store (fixed : bool) (msg size : nat) (d : list Z) (um : gmap nat Z) : gmap nat Z :=
  if fixed then <[size := Z.of_nat (length d)]> (cells_write um msg d)
  else cells_write (<[size := Z.of_nat (length d)]> um) msg d.

(** The code after the switch. *)
Definition buf_queue_recv_end (size : nat) : M kstat_t :=
  psr <- cpu_intrpt_save ;;
  a <- active_get ;;
  st <- pend_state_end_proc a ;;
  (if bool_decide (st = RHINO_SUCCESS) then
     x <- task_get a ;; umem_put size (task_bq_msg_size x)
   else umem_put size 0) ;;
  cpu_intrpt_restore psr ;;
  ret st.

Definition krhino_buf_queue_recv (queue : option oid) (ticks : Z) (msg size : option nat) : M (callres kstat_t) :=
  match queue, msg, size with
  | Some o, Some buf, Some len =>
      psr <- critical_enter ;;
      g <- gets gl ;;
      if (0 <? g_intrpt_nested_level g) && negb (ticks =? RHINO_NO_WAIT) then
        critical_exit psr ;; ret (Returned RHINO_NOT_CALLED_BY_INTRPT)
      else
        b <- blk_get o ;;
        if negb (bool_decide (obj_type b = RHINO_BUF_QUEUE_OBJ_TYPE)) then
          critical_exit psr ;; ret (Returned RHINO_KOBJ_TYPE_ERR)
        else
          v <- bufq_get o ;;
          if negb (ringbuf_is_empty (bq_ringbuf v)) then
            popped <- lift (ringbuf_pop (bq_ringbuf v)) ;;
            let '(st, d, r) := popped in
            um <- gets umem ;;
            when (bool_decide (st = RHINO_SUCCESS))
              (set_umem (pop_store (rb_type (bq_ringbuf v) =? RINGBUF_TYPE_FIX) buf len d um)) ;;
            bufq_put o (mkBufq r (max_msg_size v) (u32 (bq_cur_num v - 1)) (bq_peak_num v) (min_free_buf_size v)
              (bq_mm_alloc_flag v)) ;;
            critical_exit psr ;;
            ret (Returned RHINO_SUCCESS)
          else if ticks =? RHINO_NO_WAIT then
            umem_put len 0 ;;
            critical_exit psr ;; ret (Returned RHINO_NO_PEND_WAIT)
          else if 0 <? g_sched_lock g then
            umem_put len 0 ;;
            critical_exit psr ;; ret (Returned RHINO_SCHED_DISABLE)
          else
            a <- active_get ;;
            task_upd a (set_task_msg (Z.of_nat buf)) ;;
            pend_to_blk_obj o a ticks ;;
            critical_exit_sched psr ;;
            ret (Switched (buf_queue_recv_end len))
  | _, _, _ => ret (Returned RHINO_NULL_PTR)
  end.

Definition krhino_buf_queue_flush (queue : option oid) : M kstat_t :=
  match queue with
  | None => ret RHINO_NULL_PTR
  | Some o =>
      psr <- critical_enter ;;
      g <- gets gl ;;
      if 0 <? g_intrpt_nested_level g then
        critical_exit psr ;; ret RHINO_NOT_CALLED_BY_INTRPT
      else
        b <- blk_get o ;;
        if negb (bool_decide (obj_type b = RHINO_BUF_QUEUE_OBJ_TYPE)) then
          critical_exit psr ;; ret RHINO_KOBJ_TYPE_ERR
        else
          v <- bufq_get o ;;
          let r := ringbuf_reset (bq_ringbuf v) in
          bufq_put o (mkBufq r (max_msg_size v) 0 0 (Z.of_nat (rb_freesize r)) (bq_mm_alloc_flag v)) ;;
          critical_exit psr ;;
          ret RHINO_SUCCESS
  end.

(** [kbuf_queue_info_t]. *)
Record kbuf_queue_info_t := mkBufqInfo {
  bi_buf_size : Z;
  bi_max_msg_size : Z;
  bi_cur_num : Z;
  bi_peak_num : Z;
  bi_free_buf_size : Z;
  bi_min_free_buf_size : Z;
}.

Definition krhino_buf_queue_info_get (queue : option oid) (info_null : bool) : M (kstat_t * option kbuf_queue_info_t) :=
  match queue with
  | None => ret (RHINO_NULL_PTR, None)
  | Some o =>
      if info_null then ret (RHINO_NULL_PTR, None)
      else
        psr <- critical_enter ;;
        b <- blk_get o ;;
        if negb (bool_decide (obj_type b = RHINO_BUF_QUEUE_OBJ_TYPE)) then
          critical_exit psr ;; ret (RHINO_KOBJ_TYPE_ERR, None)
        else
          v <- bufq_get o ;;
          critical_exit psr ;;
          ret (RHINO_SUCCESS, Some (mkBufqInfo (Z.of_nat (rb_end (bq_ringbuf v))) (max_msg_size v) (bq_cur_num v)
            (bq_peak_num v) (Z.of_nat (rb_freesize (bq_ringbuf v))) (min_free_buf_size v)))
  end.

(** ** The caller's memory *)

Section Cells.
Implicit Types (um : gmap nat Z) (a n : nat) (d : list Z).

Lemma cells_write_other um a d c : (c < a \/ a + length d <= c)%nat -> cells_write um a d !! c = um !! c.
Proof.
  revert um a. induction d as [|b d IH]; intros um a Hc; [done|]. simpl in *. rewrite IH by lia.
  by rewrite lookup_insert_ne by lia.
Qed.

Lemma cells_read_write um a d : cells_read (cells_write um a d) a (length d) = d.
Proof.
  revert um a. induction d as [|b d IH]; intros um a; [done|]. simpl. rewrite cells_write_other by lia.
  rewrite lookup_insert_eq. by rewrite IH.
Qed.

Lemma cells_read_other um a n c z : (c < a \/ a + n <= c)%nat -> cells_read (<[c := z]> um) a n = cells_read um a n.
Proof.
  revert a. induction n as [|n IH]; intros a Hc; [done|]. simpl. rewrite lookup_insert_ne by lia.
  by rewrite IH by lia.
Qed.

(** When the length variable is not inside the buffer, both stores arrive. *)
Lemma pop_store_read fixed msg size d um : (size < msg \/ msg + length d <= size)%nat ->
  cells_read (pop_store fixed msg size d um) msg (length d) = d /\
  pop_store fixed msg size d um !! size = Some (Z.of_nat (length d)).
Proof.
  intros Hs. unfold pop_store. destruct fixed; split.
  - rewrite cells_read_other by done. apply cells_read_write.
  - apply lookup_insert_eq.
  - apply cells_read_write.
  - rewrite cells_write_other by done. apply lookup_insert_eq.
Qed.
End Cells.

(** ** Buffer queue states *)

Section BufqState.
Implicit Types (s : kstate) (A : queues) (o : oid) (v : kbuf_queue_t) (d : list Z) (ms : list (list Z)).

Definition bq_refilled v r (num peak min_free : Z) : kbuf_queue_t :=
  mkBufq r (max_msg_size v) num peak min_free (bq_mm_alloc_flag v).

Lemma bufq_cap v ms : bufq_rep v ms -> Z.of_nat (length ms) < 2 ^ 32.
Proof. intros [Hr _ He]. pose proof (ring_capacity (rep := ring_rep) _ _ Hr). lia. Qed.

Lemma bufq_push v ms d len :
  bufq_rep v ms -> (0 < len)%nat -> ring_verdict (bq_ringbuf v) len = RHINO_SUCCESS ->
  length d = ring_copied (bq_ringbuf v) len ->
  exists r, ringbuf_push (bq_ringbuf v) d len = Some (RHINO_SUCCESS, r) /\
    u32 (bq_cur_num v + 1) = Z.of_nat (length ms) + 1 /\
    forall peak mf, bufq_rep (bq_refilled v r (Z.of_nat (length ms) + 1) peak mf) (ms ++ [d]).
Proof.
  intros [Hr Hn He] Hl Hv Hd.
  destruct (ring_push (rep := ring_rep) (bq_ringbuf v) ms d len Hr Hl Hv Hd) as (r & Hp & Hr' & E1 & E2 & E3).
  assert (Hrep : forall peak mf, bufq_rep (bq_refilled v r (Z.of_nat (length ms) + 1) peak mf) (ms ++ [d])).
  { intros. split; simpl; [done|rewrite length_app; simpl; lia|lia]. }
  exists r. split_and!; [done| |done]. rewrite Hn, wrap_small; [done|].
  pose proof (bufq_cap _ _ (Hrep 0 0)) as Hc. rewrite length_app in Hc. simpl in Hc. lia.
Qed.

Lemma bufq_pop v d ms :
  bufq_rep v (d :: ms) ->
  exists r, ringbuf_pop (bq_ringbuf v) = Some (RHINO_SUCCESS, d, r) /\
    u32 (bq_cur_num v - 1) = Z.of_nat (length ms) /\
    forall peak mf, bufq_rep (bq_refilled v r (Z.of_nat (length ms)) peak mf) ms.
Proof.
  intros Hrep. pose proof (bufq_cap _ _ Hrep) as Hc. destruct Hrep as [Hr Hn He].
  destruct (ring_pop (rep := ring_rep) (bq_ringbuf v) d ms Hr) as (r & Hp & Hr' & E1 & E2 & E3).
  simpl in *. exists r. split_and!; [done|rewrite Hn, wrap_small; lia|]. intros. split; simpl; [done|lia|lia].
Qed.

Definition with_bufq s o v um : kstate := redata s (set_bufqs (<[o := v]> (bufqs (ob s))) (ob s)) um.

Lemma bufq_data_ok s A o v um :
  kgood s A -> (has_type s o RHINO_BUF_QUEUE_OBJ_TYPE -> bufq_ok (A (LBlk o)) v) ->
  data_ok s A (set_bufqs (<[o := v]> (bufqs (ob s))) (ob s)) um.
Proof.
  intros [_ _ _ _ [Hs He Hq]] Hv. split; [done..|]. split; simpl; [exact Hs|exact He|]. intros o'.
  destruct (Hq o') as [H1 H2]. split; simpl; [exact H1|]. intros Ht. destruct (decide (o' = o)) as [->|].
  - exists v. rewrite lookup_insert_eq. split; [done|by apply Hv].
  - rewrite lookup_insert_ne by done. by apply H2.
Qed.

Lemma wp_bufq_exit {R : Type} A s o v um (r : R) (Q : R -> kstate -> Prop) :
  kwf s A -> bufq_ok (A (LBlk o)) v ->
  (kwf (with_bufq s o v um) A -> Q r (with_bufq s o v um)) ->
  wp (critical_exit false ;; ret r) Q (with_gl (set_primask true (gl s)) (with_bufq s o v um)).
Proof. intros HW Hv. apply (wp_data_exit A); [done|]. apply bufq_data_ok; [apply HW|done]. Qed.

Lemma bufq_obj s A o v ms : kwf s A -> has_type s o RHINO_BUF_QUEUE_OBJ_TYPE -> bufqs (ob s) !! o = Some v ->
  bufq_rep v ms -> ms <> [] -> A (LBlk o) = [].
Proof.
  intros HW Ht Hv [Hr _ _] Hne.
  destruct (so_bufq _ _ _ (oi_store _ _ (kg_obj _ _ (kw_good _ _ HW)) o) Ht) as (v0 & Hv0 & ms0 & [Hr0 _ _] & Hw).
  simplify_eq. apply Hw. intros ->. pose proof (ring_is_empty (rep := ring_rep) _ _ Hr) as E.
  rewrite (ring_is_empty (rep := ring_rep) _ _ Hr0) in E. destruct ms; [done|discriminate E].
Qed.

Lemma bufq_type s o b : blks (ob s) !! o = Some b -> obj_type b = RHINO_BUF_QUEUE_OBJ_TYPE -> ~ is_mutex (ob s) o.
Proof. intros Hb Ht (b' & Hb' & Ht'). simplify_eq. congruence. Qed.

Lemma with_bufq_same s o v : bufqs (ob s) !! o = Some v -> with_bufq s o v (umem s) = s.
Proof. intros Hv. unfold with_bufq, redata. destruct s as [???? [] ??]; simpl in *. by rewrite insert_id. Qed.
End BufqState.

(** ** Sending *)

Section BufqSend.
Implicit Types (s : kstate) (A : queues) (o : oid) (v : kbuf_queue_t) (d : list Z) (ms : list (list Z)) (t : tid) (x : ktask_t).

Definition full_status (st : kstat_t) : kstat_t := if bool_decide (st = RHINO_RINGBUF_FULL) then RHINO_BUF_QUEUE_FULL else st.

(** What becomes of a waiting task whose buffer was filled. *)
Definition filled (len : Z) x : ktask_t := unblocked BLK_FINISH (set_task_bq_msg_size len x).

Lemma fill_releases len o :
  releases (fun t => task_upd t (set_task_bq_msg_size len) ;; pend_task_wakeup t) (filled len) o.
Proof. by apply (update_releases (set_task_bq_msg_size len)). Qed.

Lemma wp_memcpy s dst src n (Q : unit -> kstate -> Prop) :
  length (cells_read (umem s) src n) = n -> Q tt (redata s (ob s) (cells_write (umem s) dst (cells_read (umem s) src n))) ->
  wp (umem_memcpy dst src n) Q s.
Proof. intros Hl HQ. unfold umem_memcpy, umem_copy. wsteps. rewrite Hl, Nat.eqb_refl. by wsteps. Qed.

Lemma wp_buf_queue_send s A o v ms msg size (Q : kstat_t -> kstate -> Prop) :
  let len := Z.to_nat size in
  let d n := cells_read (umem s) msg n in
  let copied := ring_copied (bq_ringbuf v) len in
  kwf s A -> has_type s o RHINO_BUF_QUEUE_OBJ_TYPE -> bufqs (ob s) !! o = Some v -> bufq_rep v ms ->
  0 <= size -> length (d len) = len -> length (d copied) = copied ->
  (max_msg_size v < size -> Q RHINO_BUF_QUEUE_MSG_SIZE_OVERFLOW s) ->
  (size = 0 -> size <= max_msg_size v -> Q RHINO_INV_PARAM s) ->
  (0 < size <= max_msg_size v -> A (LBlk o) = [] -> ring_verdict (bq_ringbuf v) len <> RHINO_SUCCESS ->
     Q (full_status (ring_verdict (bq_ringbuf v) len)) s) ->
  (forall v', 0 < size <= max_msg_size v -> A (LBlk o) = [] -> ring_verdict (bq_ringbuf v) len = RHINO_SUCCESS ->
     bufq_rep v' (ms ++ [d copied]) -> kwf (with_bufq s o v' (umem s)) A -> Q RHINO_SUCCESS (with_bufq s o v' (umem s))) ->
  (forall t ts x s' A', 0 < size <= max_msg_size v -> A (LBlk o) = t :: ts -> ms = [] -> tcbs s !! t = Some x -> kwf s' A' ->
     released (redata s (ob s) (cells_write (umem s) (Z.to_nat (task_msg x)) (d len))) s' A A' t o (filled size) ->
     Q RHINO_SUCCESS s') ->
  wp (krhino_buf_queue_send (Some o) (Some msg) size) Q s.
Proof.
  intros len d copied HW Hty Hv Hr Hsz Hd1 Hd2 Q1 Q2 Q3 Q4 Q5. pose proof (bufq_obj s A o v ms HW Hty Hv Hr) as Hw.
  destruct Hty as (b & Hb & Hty). pose proof (kwf_enter _ _ HW) as HK.
  unfold krhino_buf_queue_send, buf_queue_send, blk_get, bufq_get, bufq_put.
  apply wp_bind, (wp_kwf_enter A); [done|]. wsteps. rewrite bool_decide_true by done. simpl. wsteps.
  destruct (Z.ltb_spec (max_msg_size v) size); [apply (wp_exit_ret A); auto|].
  destruct (Z.eqb_spec size 0); [apply (wp_exit_ret A); auto|].
  apply wp_bind, (wp_blk_empty _ A o b); [apply HK|done|].
  destruct (A (LBlk o)) as [|t ts] eqn:EA; simpl.
  - wsteps. fold len. change (cells_read _ msg _) with (d copied).
    destruct (decide (ring_verdict (bq_ringbuf v) len = RHINO_SUCCESS)) as [Ev|Ev].
    + destruct (bufq_push v ms (d copied) len Hr ltac:(lia) Ev Hd2) as (r & Hp & En & Hr').
      rewrite Hp. wsteps. rewrite bool_decide_true by done. simpl. rewrite En.
      set (v' := mkBufq _ _ _ _ _ _). wsteps. apply wp_fold.
      at_state (with_gl (set_primask true (gl s)) (with_bufq s o v' (umem s))).
      apply (wp_bufq_exit A); [done| |].
      * exists (ms ++ [d copied]). split; [apply Hr'|]. by rewrite EA.
      * intros HW'. apply Q4; [lia|done..|apply Hr'|done].
    + rewrite (ring_refuse (rep := ring_rep) (bq_ringbuf v) ms) by (apply Hr || done || lia). wsteps.
      rewrite bool_decide_false by done. simpl. wsteps. apply wp_fold.
      at_state (with_gl (set_primask true (gl s)) (with_bufq s o (set_bq_ringbuf (bq_ringbuf v) v) (umem s))).
      assert (set_bq_ringbuf (bq_ringbuf v) v = v) as -> by by destruct v.
      rewrite with_bufq_same by done. apply (wp_exit_ret A); [done|]. apply Q3; [lia|done..].
  - assert (ms = []) as -> by (destruct ms; [done|]; discriminate (Hw ltac:(done))).
    destruct (first_waiter s A o t ts (kg_inv _ _ (kw_good _ _ HW)) EA) as (x & Hx & Hp & Ho).
    wsteps. apply (wp_get_first _ A o b t ts); [apply HK|done..|]. cbn [task_of]. unfold task_get. wsteps.
    apply wp_memcpy; [exact Hd1|].
    set (s1 := redata s (ob s) (cells_write (umem s) (Z.to_nat (task_msg x)) (d len))).
    at_state (with_gl (set_primask true (gl s1)) s1).
    apply (wp_release_exit s1 A t x o _ _ _ Q (fill_releases size o)); [|done..|by eapply bufq_type|].
    + apply kwf_data; [done|]. apply data_ok_um, HW.
    + intros s' A' HW' Hrel. apply (Q5 t ts x s' A'); [lia|done..].
Qed.
End BufqSend.

(** ** Receiving *)

Section BufqRecv.
Implicit Types (s : kstate) (A : queues) (o : oid) (v : kbuf_queue_t) (d : list Z) (ms : list (list Z)) (x : ktask_t).

Definition is_fixed v : bool := rb_type (bq_ringbuf v) =? RINGBUF_TYPE_FIX.

(** The receiver names its buffer before it waits. *)
Definition with_buf s a x (buf : nat) : kstate := with_tc (<[a := set_task_msg (Z.of_nat buf) x]> (tcbs s)) s.

Lemma kwf_buf s A a x buf : kwf s A -> tcbs s !! a = Some x -> kwf (with_buf s a x buf) A.
Proof.
  intros [HK Hm Ha Ht] Hx. split; [|done| |done].
  - eapply kgood_task; [done|done|done|done|by left].
  - intros E. destruct (Ha E) as (c & y & Hc & Hy & Hr). simpl. destruct (decide (c = a)) as [->|].
    + simplify_eq. exists a, (set_task_msg (Z.of_nat buf) x). simpl. by rewrite lookup_insert_eq.
    + exists c, y. simpl. by rewrite lookup_insert_ne.
Qed.

Lemma wp_buf_queue_recv s A o v ms ticks buf size a x (Q : callres kstat_t -> kstate -> Prop) :
  kwf s A -> has_type s o RHINO_BUF_QUEUE_OBJ_TYPE -> bufqs (ob s) !! o = Some v -> bufq_rep v ms ->
  g_active_task (gl s) = Some a -> tcbs s !! a = Some x ->
  ticks = RHINO_NO_WAIT \/ timeout_ok ticks /\ prio x <> RHINO_IDLE_PRI ->
  (0 < g_intrpt_nested_level (gl s) -> ticks <> RHINO_NO_WAIT -> Q (Returned RHINO_NOT_CALLED_BY_INTRPT) s) ->
  (forall d ms' v', let um := pop_store (is_fixed v) buf size d (umem s) in
     g_intrpt_nested_level (gl s) = 0 \/ ticks = RHINO_NO_WAIT -> ms = d :: ms' -> bufq_rep v' ms' ->
     kwf (with_bufq s o v' um) A -> Q (Returned RHINO_SUCCESS) (with_bufq s o v' um)) ->
  (ms = [] -> ticks = RHINO_NO_WAIT -> kwf (with_out s size 0) A -> Q (Returned RHINO_NO_PEND_WAIT) (with_out s size 0)) ->
  (ms = [] -> ticks <> RHINO_NO_WAIT -> g_intrpt_nested_level (gl s) = 0 -> 0 < g_sched_lock (gl s) ->
     kwf (with_out s size 0) A -> Q (Returned RHINO_SCHED_DISABLE) (with_out s size 0)) ->
  (forall s' A', ms = [] -> ticks <> RHINO_NO_WAIT -> g_intrpt_nested_level (gl s) = 0 -> g_sched_lock (gl s) = 0 ->
     kwf s' A' -> caller_blocked (with_buf s a x buf) s' A A' a (set_task_msg (Z.of_nat buf) x) o ticks ->
     Q (Switched (buf_queue_recv_end size)) s') ->
  wp (krhino_buf_queue_recv (Some o) ticks (Some buf) (Some size)) Q s.
Proof.
  intros HW (b & Hb & Hty) Hv Hr Ha Hx Hto Q1 Q2 Q3 Q4 Q5.
  unfold krhino_buf_queue_recv, blk_get, bufq_get, bufq_put, active_get, umem_put.
  apply wp_bind, (wp_kwf_enter A); [done|]. wsteps. simpl.
  pose proof (kg_gl _ _ (kw_good _ _ HW)) as [Hn Hl _ _ _].
  assert (Hout : forall z, data_ok s A (ob s) (<[size := z]> (umem s))) by (intros; apply data_ok_um, HW).
  destruct (_ && _) eqn:Ei.
  { apply andb_true_iff in Ei as [E1%Z.ltb_lt E2%negb_true_iff%Z.eqb_neq]. apply (wp_exit_ret A); auto. }
  assert (Hi : g_intrpt_nested_level (gl s) = 0 \/ ticks = RHINO_NO_WAIT).
  { apply andb_false_iff in Ei as [E1%Z.ltb_ge|E2%negb_false_iff%Z.eqb_eq]; [left; lia|by right]. }
  wsteps. rewrite bool_decide_true by done. simpl. wsteps.
  rewrite (ring_is_empty (rep := ring_rep) _ _ (br_ring _ _ Hr)).
  destruct ms as [|d ms]; simpl.
  - destruct (Z.eqb_spec ticks RHINO_NO_WAIT) as [Ht|Ht].
    { wsteps. apply wp_fold. at_state (with_gl (set_primask true (gl s)) (with_out s size 0)). apply (wp_data_exit A); auto. }
    destruct Hto as [?|[Hto Hp]]; [done|]. destruct Hi as [Hi|?]; [|done].
    destruct (Z.ltb_spec 0 (g_sched_lock (gl s))) as [Hs|Hs].
    { wsteps. apply wp_fold. at_state (with_gl (set_primask true (gl s)) (with_out s size 0)). apply (wp_data_exit A); auto. }
    unfold task_upd. wsteps. destruct (kwf_active _ _ HW Hi) as (a' & x' & Ha' & Hx' & Hrd). simplify_eq. apply wp_fold.
    at_state (with_gl (set_primask true (gl (with_buf s a x buf))) (with_buf s a x buf)).
    apply (wp_block_exit (with_buf s a x buf) A a (set_task_msg (Z.of_nat buf) x) o b); try done.
    + by apply kwf_buf.
    + simpl. lia.
    + apply lookup_insert_eq.
    + by eapply (bufq_type s).
    + split_and!; [| | |intros _ w Hw; simpl in Hw; simplify_eq; by rewrite (br_num _ _ Hr)];
        intros (b' & Hb' & Ht'); simpl in Hb'; simplify_eq; congruence.
    + intros s' A' HW' Hbl. apply (Q5 s' A'); auto; lia.
  - destruct (bufq_pop v d ms Hr) as (r & Hp & En & Hr'). wsteps. rewrite bool_decide_true by done. wsteps. rewrite En.
    set (v' := mkBufq _ _ _ _ _ _). apply wp_fold.
    at_state (with_gl (set_primask true (gl s)) (with_bufq s o v' (pop_store (is_fixed v) buf size d (umem s)))).
    apply (wp_bufq_exit A); [done| |].
    + exists ms. split; [apply Hr'|]. intros _. by apply (bufq_obj s A o v (d :: ms) HW); [exists b|..].
    + intros HW'. apply (Q2 d ms v'); [done..|apply Hr'|done].
Qed.

Lemma wp_buf_queue_recv_end s A a x size (Q : kstat_t -> kstate -> Prop) :
  kwf s A -> g_active_task (gl s) = Some a -> tcbs s !! a = Some x -> blk_state x <> BLK_INVALID ->
  (let z := if bool_decide (blk_state x = BLK_FINISH) then task_bq_msg_size x else 0 in
   kwf (with_out s size z) A -> Q (wake_status (blk_state x)) (with_out s size z)) ->
  wp (buf_queue_recv_end size) Q s.
Proof.
  intros HW Ha Hx Hb HQ. unfold buf_queue_recv_end, active_get, umem_put, task_get.
  apply wp_bind, (wp_kwf_enter A); [done|]. wsteps. apply (wp_end_proc _ a x); [done..|].
  assert (Hout : forall z, data_ok s A (ob s) (<[size := z]> (umem s))) by (intros; apply data_ok_um, HW).
  apply wp_bind, (run_wp _ _ _ tt (with_gl (set_primask true (gl s))
    (with_out s size (if bool_decide (blk_state x = BLK_FINISH) then task_bq_msg_size x else 0)))).
  - destruct (blk_state x); try done. unfold bind. simpl. by rewrite Hx.
  - by apply (wp_data_exit A).
Qed.
End BufqRecv.

(** ** The other operations *)

Section OtherBufq.
Implicit Types (s : kstate) (A : queues) (o : oid) (v : kbuf_queue_t) (ms : list (list Z)).

Lemma wp_buf_queue_flush s A o v ms (Q : kstat_t -> kstate -> Prop) :
  kwf s A -> has_type s o RHINO_BUF_QUEUE_OBJ_TYPE -> bufqs (ob s) !! o = Some v -> bufq_rep v ms ->
  (0 < g_intrpt_nested_level (gl s) -> Q RHINO_NOT_CALLED_BY_INTRPT s) ->
  (forall v', g_intrpt_nested_level (gl s) = 0 -> bufq_rep v' [] -> kwf (with_bufq s o v' (umem s)) A ->
     Q RHINO_SUCCESS (with_bufq s o v' (umem s))) ->
  wp (krhino_buf_queue_flush (Some o)) Q s.
Proof.
  intros HW (b & Hb & Hty) Hv [Hr _ He] Q1 Q2. unfold krhino_buf_queue_flush, blk_get, bufq_get, bufq_put.
  pose proof (kg_gl _ _ (kw_good _ _ HW)) as [Hn _ _ _ _].
  apply wp_bind, (wp_kwf_enter A); [done|]. wsteps. simpl.
  destruct (Z.ltb_spec 0 (g_intrpt_nested_level (gl s))) as [Hi|Hi]; [apply (wp_exit_ret A); auto|].
  wsteps. rewrite bool_decide_true by done. simpl. wsteps. set (v' := mkBufq _ _ _ _ _ _).
  assert (Hr' : bufq_rep v' []) by (split; [by apply (ring_reset (rep := ring_rep) _ ms)|done..]).
  apply wp_fold. at_state (with_gl (set_primask true (gl s)) (with_bufq s o v' (umem s))).
  apply (wp_bufq_exit A); [done|by exists []|]. intros HW'. apply Q2; [lia|done..].
Qed.

Lemma wp_buf_queue_del s A o v (Q : kstat_t -> kstate -> Prop) :
  kwf s A -> has_type s o RHINO_BUF_QUEUE_OBJ_TYPE -> bufqs (ob s) !! o = Some v ->
  bq_mm_alloc_flag v = K_OBJ_STATIC_ALLOC -> g_intrpt_nested_level (gl s) = 0 ->
  (forall s' A', kwf s' A' -> woken_all s s' A A' o BLK_DEL -> ~ has_type s' o RHINO_BUF_QUEUE_OBJ_TYPE -> Q RHINO_SUCCESS s') ->
  wp (krhino_buf_queue_del (Some o)) Q s.
Proof.
  intros HW (b & Hb & Hty) Hv Hf Hn HQ. unfold krhino_buf_queue_del, blk_get, bufq_get.
  apply wp_bind, (wp_kwf_enter A); [done|]. wsteps. simpl. rewrite Hn. simpl. wsteps.
  rewrite bool_decide_true by done. simpl. wsteps. rewrite Hf. cbn [negb Z.eqb K_OBJ_STATIC_ALLOC Pos.eqb].
  pose proof (kwf_enter _ _ HW) as HK.
  apply wp_assoc, wp_bind, (wp_untype_drain _ A o b); [done|done|congruence|]. intros l' q' A' HK' He Ho.
  set (s1 := retask l' q' _ _) in *.
  assert (Hnt : ~ has_type s1 o RHINO_BUF_QUEUE_OBJ_TYPE).
  { intros (b' & Hb' & Ht'). simpl in Hb'. by simplify_map_eq. }
  unfold bufq_put. apply wp_bind. wstep. set (v' := set_bq_ringbuf _ _). at_state (with_bufq s1 o v' (umem s1)).
  apply (wp_exit_resched A').
  - apply kgood_data; [done|]. by apply bufq_data_ok.
  - intros Hl. apply (active_ready_wake_all s _ A o BLK_DEL); [apply HW|apply (kw_active _ _ HW); by left|done..].
  - intros top Htop HW'. eapply HQ; [exact HW'| |done].
    split_and!; [done..|]. exists top. split; [done|apply resched_unmask].
Qed.
End OtherBufq.
