(* ===== verification/Create.v ===== *)
(** * Creating kernel objects at run time

    [sem_create], [mutex_create], [event_create], [queue_create] and
    [buf_queue_create] on an object that is not in use: one that was never
    created, or one that was deleted and that no task waits for. *)

From stdpp Require Import functions.
From S2P Require Import Prelude.
From S2P Require Import Monad.
From S2P Require Import Links.
From S2P Require Import KState.
From S2P Require Import Bitmap.
From S2P Require Import Sched.
From S2P Require Import Pend.
From S2P Require Import Inv.
From S2P Require Import MInv.
From S2P Require Import RingBuf.
From S2P Require Import ObjInv.
From S2P Require Import Resched.
From S2P Require Import Block.
From S2P Require Import Sem.
From S2P Require Import Mutex.
From S2P Require Import Event.
From S2P Require Import Queue.
From S2P Require Import BufQueue.

Section Create.
Implicit Types (s : kstate) (A : queues) (o : oid) (b : blk_obj_t) (os : kobjs).

Definition unused s A o : Prop :=
  A (LBlk o) = [] /\ forall b, blks (ob s) !! o = Some b -> obj_type b = RHINO_OBJ_TYPE_NONE.

(** The same, in terms of the state only. *)
Definition not_in_use s o : Prop :=
  map_Forall (fun _ x => pended (task_state x) = true -> task_blk_obj x <> Some o) (tcbs s) /\
  match blks (ob s) !! o with Some b => obj_type b = RHINO_OBJ_TYPE_NONE | None => True end.

Lemma not_in_use_unused s A o : kinv s A -> not_in_use s o -> unused s A o.
Proof.
  intros HI [Hw Hb]. split; [|intros b E; by rewrite E in Hb].
  destruct (A (LBlk o)) as [|t ts] eqn:EA; [done|].
  destruct (first_waiter s A o t ts HI EA) as (x & Hx & Hp & Ho). by destruct (Hw t x Hx Hp).
Qed.

(** The initial state of an object of each kind is well formed. *)
Definition fresh_obj os o (ty : kobj_type_t) : Prop :=
  match ty with
  | RHINO_SEM_OBJ_TYPE => exists v, sems os !! o = Some v /\ 0 <= count v <= peak_count v /\ peak_count v < 2 ^ 32
  | RHINO_MUTEX_OBJ_TYPE => exists v, mutexes os !! o = Some v /\ mutex_task v = None
  | RHINO_EVENT_OBJ_TYPE => exists v, events os !! o = Some v /\ 0 <= flags v < 2 ^ 32
  | RHINO_QUEUE_OBJ_TYPE => exists v, kqueues os !! o = Some v /\ queue_rep v []
  | RHINO_BUF_QUEUE_OBJ_TYPE => exists v, bufqs os !! o = Some v /\ bufq_rep v []
  | _ => True
  end.

(** [os'] is [os] with a new object [o] of kind [ty]. *)
Record adds_obj os os' o (ty : kobj_type_t) : Prop := mkAdds {
  ad_blks : blks os' = <[o := mkBlk BLK_POLICY_PRI ty]> (blks os);
  ad_sems : forall o', o' <> o -> sems os' !! o' = sems os !! o';
  ad_mutexes : forall o', o' <> o -> mutexes os' !! o' = mutexes os !! o';
  ad_events : forall o', o' <> o -> events os' !! o' = events os !! o';
  ad_kqueues : forall o', o' <> o -> kqueues os' !! o' = kqueues os !! o';
  ad_bufqs : forall o', o' <> o -> bufqs os' !! o' = bufqs os !! o';
  ad_fresh : fresh_obj os' o ty;
}.

(** The links after [klist_init] of the waiting list, and the new objects. *)
Definition with_new s o os' : kstate :=
  mkK (mkL (<[NBlk o := NBlk o]> (k_next (lm s))) (<[NBlk o := NBlk o]> (k_prev (lm s)))) (rq s) (tcbs s) (gl s) os'
    (umem s).

Lemma rings_new s A o b :
  kinv s A -> A (LBlk o) = [] ->
  rings (lm (with_new s o (ob s))) (nodes (<[o := b]> (blks (ob s))) A).
Proof.
  intros HI HA. pose proof (srep_rings _ _ _ _ (ki_rep _ _ HI)) as Hr.
  assert (Hr0 : rings (lm s) (<[LBlk o := []]> (nodes (blks (ob s)) A))).
  { apply (rings_update (lm s)); [done|done|constructor|set_solver|done]. }
  eapply rings_ext.
  - apply (rings_init _ _ (LBlk o) (NBlk o) Hr0); [apply fn_lookup_insert|].
    intros i. destruct (decide (LBlk o = i)) as [<-|Hi]; [rewrite fn_lookup_insert; set_solver|].
    rewrite fn_lookup_insert_ne by done. unfold nodes. rewrite elem_of_app, list_elem_of_fmap.
    intros [Hh|(u & Hu & _)]; [|by destruct i].
    destruct i as [p|o'|]; simpl in Hh; [set_solver| |set_solver]. destruct (blks (ob s) !! o'); set_solver.
  - intros i. unfold nodes. destruct (decide (LBlk o = i)) as [<-|Hi].
    + rewrite fn_lookup_insert. simpl. by rewrite lookup_insert_eq, HA.
    + rewrite !fn_lookup_insert_ne by done. f_equal. destruct i as [p|o'|]; simpl; [done| |done].
      rewrite lookup_insert_ne; [done|congruence].
Qed.

Lemma kinv_new_obj s A o os' ty :
  kinv s A -> unused s A o -> adds_obj (ob s) os' o ty -> kinv (with_new s o os') A.
Proof.
  intros HI [HA _] HO. pose proof HI as [[_ Hq] H2 H3 H4 H5 H6 H7]. pose proof (ad_blks _ _ _ _ HO) as Eb.
  split; simpl; try done.
  - split; [|done]. rewrite Eb. by apply (rings_new s A o).
  - intros t x Hx. destruct (H3 t x Hx) as [K1 K2 K3 K4]. split; try done. intros Hp.
    destruct (K2 Hp) as (o' & Ho' & Hs). exists o'. split; [done|]. rewrite Eb.
    destruct (decide (o' = o)) as [->|]; [rewrite lookup_insert_eq; by eexists|by rewrite lookup_insert_ne].
  - intros o' b'. rewrite Eb. destruct (decide (o' = o)) as [->|].
    + intros _ _. rewrite HA. constructor.
    + rewrite lookup_insert_ne by done. apply H4.
Qed.

Lemma adds_type s o os' ty o' ty' :
  adds_obj (ob s) os' o ty -> has_type (with_new s o os') o' ty' <-> (o' = o /\ ty' = ty \/ o' <> o /\ has_type s o' ty').
Proof.
  intros HO. unfold has_type. simpl. rewrite (ad_blks _ _ _ _ HO). destruct (decide (o' = o)) as [->|].
  - rewrite lookup_insert_eq. naive_solver.
  - rewrite lookup_insert_ne by done. naive_solver.
Qed.

Lemma minv_new_obj s A C o os' ty :
  kinv s A -> unused s A o -> adds_obj (ob s) os' o ty -> minv None s C -> minv None (with_new s o os') C.
Proof.
  intros HI [HA Hu] HO [M1 M2 M3 M4 M5 M6].
  assert (Hno : ~ is_mutex (ob s) o) by (intros (b & Hb & Ht); by rewrite (Hu b Hb) in Ht).
  assert (HC : forall t, o ∉ C t) by (intros t (_ & ? & _)%M2; done).
  assert (Hmx : forall m, m <> o -> is_mutex os' m <-> is_mutex (ob s) m).
  { intros m Hm. unfold is_mutex. by rewrite (ad_blks _ _ _ _ HO), lookup_insert_ne. }
  split; simpl; try done.
  - intros t x Hx Hl. eapply mchain_ext; [by apply (M1 t x)|]. intros m Hm. rewrite (ad_mutexes _ _ _ _ HO); [done|].
    intros ->. by destruct (HC t).
  - intros t m. destruct (decide (m = o)) as [->|Hm].
    + split; [intros Hin; by destruct (HC t)|]. intros (_ & (b & Hb & Ht) & v & Hv & Hv').
      rewrite (ad_blks _ _ _ _ HO), lookup_insert_eq in Hb. injection Hb as <-. simpl in Ht. subst ty.
      destruct (ad_fresh _ _ _ _ HO) as (w & Hw & Hn). congruence.
    + rewrite (Hmx m Hm), (ad_mutexes _ _ _ _ HO m Hm). apply M2.
  - intros t x m Hx Hp Hb Hm. assert (m <> o) as Hne.
    { intros ->. assert (t ∈ A (LBlk o)) as Hin by (apply (ki_mem _ _ HI); by exists x). rewrite HA in Hin. set_solver. }
    apply Hmx in Hm; [|done]. by apply (M4 t x m).
  - intros m b. rewrite (ad_blks _ _ _ _ HO). destruct (decide (m = o)) as [->|Hm].
    + rewrite lookup_insert_eq. intros [= <-] Ht. simpl in Ht. subst ty. split; [done|].
      destruct (ad_fresh _ _ _ _ HO) as (w & Hw & _). by rewrite Hw.
    + rewrite lookup_insert_ne, (ad_mutexes _ _ _ _ HO) by done. apply M5.
Qed.

Lemma obj_inv_new_obj s A o os' ty :
  unused s A o -> adds_obj (ob s) os' o ty -> obj_inv None s A -> obj_inv None (with_new s o os') A.
Proof.
  intros [HA _] HO [Hs He Hq]. pose proof (ad_fresh _ _ _ _ HO) as Hf.
  split; [| |intros o'; split]; intros; repeat match goal with
    H : has_type _ _ _ |- _ => apply (adds_type s o os' ty _ _ HO) in H as [[-> <-]|[Hne Hty]] end; simpl in *.
  - destruct Hf as (v & Hv & H1 & H2). exists v. split; [done|]. unfold sem_ok. tauto.
  - destruct (Hs o0 Hty) as (v & Hv & Hok). exists v. by rewrite (ad_sems _ _ _ _ HO).
  - destruct Hf as (v & Hv & H1). exists v. split; [done|]. split; [done|]. rewrite HA. set_solver.
  - destruct (He o0 Hty) as (v & Hv & Hok); [done|]. exists v. by rewrite (ad_events _ _ _ _ HO).
  - destruct Hf as (v & Hv & Hr). exists v. split; [done|]. by exists [].
  - destruct (so_queue _ _ _ (Hq o') Hty) as (v & Hv & Hok). exists v. by rewrite (ad_kqueues _ _ _ _ HO).
  - destruct Hf as (v & Hv & Hr). exists v. split; [done|]. by exists [].
  - destruct (so_bufq _ _ _ (Hq o') Hty) as (v & Hv & Hok). exists v. by rewrite (ad_bufqs _ _ _ _ HO).
Qed.

Lemma kwf_new_obj s A o os' ty :
  kwf s A -> unused s A o -> adds_obj (ob s) os' o ty -> kwf (with_new s o os') A.
Proof.
  intros [[HI HG HT (C & HM & HP) HB] Hm Ha Ht] Hu HO. split; [|done..]. split; [|done|done| |].
  - by eapply kinv_new_obj.
  - exists C. split; [by eapply minv_new_obj|done].
  - by eapply obj_inv_new_obj.
Qed.

(** A critical section around nothing. *)
Lemma wp_critical_nothing {R : Type} s (k : M R) (Q : R -> kstate -> Prop) :
  gl_ok (gl s) -> primask (gl s) = false -> wp k Q s -> wp (psr <- critical_enter ;; critical_exit psr ;; k) Q s.
Proof.
  intros HG Hm HQ. apply wp_bind, wp_critical_enter. rewrite Hm. apply wp_bind, wp_critical_exit; [by apply gl_ok_mask|].
  cut (with_gl (set_primask false (set_primask true (gl s))) s = s); [intros E; exact (eq_ind_r (wp k Q) HQ E)|].
  destruct s, gl. simpl in *. by subst.
Qed.

(** The outcome of a creation. *)
Definition obj_created s s' A o (ty : kobj_type_t) : Prop :=
  exists os', s' = with_new s o os' /\ adds_obj (ob s) os' o ty /\ kwf s' A.

Lemma obj_created_intro s A o os' ty :
  kwf s A -> unused s A o -> adds_obj (ob s) os' o ty -> obj_created s (with_new s o os') A o ty.
Proof. intros HW Hu HO. exists os'. split; [done|]. split; [done|]. by eapply kwf_new_obj. Qed.

Lemma wp_sem_create s A o name c (Q : kstat_t -> kstate -> Prop) :
  kwf s A -> unused s A o -> 0 <= c < 2 ^ 32 ->
  (forall s', obj_created s s' A o RHINO_SEM_OBJ_TYPE -> sems (ob s') !! o = Some (mkSem c c K_OBJ_STATIC_ALLOC) ->
     Q RHINO_SUCCESS s') ->
  wp (krhino_sem_create (Some o) (Some name) c) Q s.
Proof.
  intros HW Hu Hc HQ. unfold krhino_sem_create, sem_create, klist_init, put_next, put_prev, sem_put, blk_put. wsteps.
  apply wp_fold, wp_critical_nothing; [apply HW|apply HW|]. wsteps. apply HQ; [|apply lookup_insert_eq].
  apply obj_created_intro; [done..|]. split; simpl; try done; [intros; by rewrite lookup_insert_ne|].
  eexists. rewrite lookup_insert_eq. split; [done|simpl; lia].
Qed.

Lemma wp_mutex_create s A o name (Q : kstat_t -> kstate -> Prop) :
  kwf s A -> unused s A o ->
  (forall s' v, obj_created s s' A o RHINO_MUTEX_OBJ_TYPE -> mutexes (ob s') !! o = Some v -> mutex_task v = None ->
     Q RHINO_SUCCESS s') ->
  wp (krhino_mutex_create (Some o) (Some name)) Q s.
Proof.
  intros HW Hu HQ. unfold krhino_mutex_create, mutex_create, klist_init, put_next, put_prev, mutex_put, blk_put. wsteps.
  eapply HQ; [|apply lookup_insert_eq|done].
  apply obj_created_intro; [done..|]. split; simpl; try done; [intros; by rewrite lookup_insert_ne|].
  eexists. by rewrite lookup_insert_eq.
Qed.

Lemma wp_event_create s A o name fl (Q : kstat_t -> kstate -> Prop) :
  kwf s A -> unused s A o -> 0 <= fl < 2 ^ 32 ->
  (forall s', obj_created s s' A o RHINO_EVENT_OBJ_TYPE -> events (ob s') !! o = Some (mkEvent fl K_OBJ_STATIC_ALLOC) ->
     Q RHINO_SUCCESS s') ->
  wp (krhino_event_create (Some o) (Some name) fl) Q s.
Proof.
  intros HW Hu Hc HQ. unfold krhino_event_create, event_create, klist_init, put_next, put_prev, event_put, blk_put. wsteps.
  apply HQ; [|apply lookup_insert_eq].
  apply obj_created_intro; [done..|]. split; simpl; try done; [intros; by rewrite lookup_insert_ne|].
  eexists. rewrite lookup_insert_eq. split; [done|simpl; lia].
Qed.

(** The storage of a new queue is empty. *)
Lemma queue_rep_new mem addr n fl :
  0 < 4 * n < 2 ^ 32 -> 4 * n <= Z.of_nat (length mem) ->
  queue_rep (mkQueue (ringbuf_init (take (Z.to_nat (u32 (n * sizeof_ptr))) mem) RINGBUF_TYPE_FIX (Z.to_nat sizeof_ptr))
    addr n 0 0 fl) [].
Proof.
  intros Hn Hm. unfold sizeof_ptr. rewrite wrap_small by lia. set (buf := take _ mem).
  assert (Hl : length buf = Z.to_nat (n * 4)) by (unfold buf; rewrite length_take; lia).
  destruct (init_ok buf RINGBUF_TYPE_FIX 4 ltac:(lia)) as [H1 H2].
  split; simpl; try done; [|unfold rb_end; simpl; lia].
  split_and!; try done; try (by exists 0%nat); [simpl; lia|]. exists (Z.to_nat n). unfold rb_end. simpl. lia.
Qed.

Lemma wp_queue_create s A o name addr mem n (Q : kstat_t -> kstate -> Prop) :
  kwf s A -> unused s A o -> 0 < 4 * n < 2 ^ 32 -> 4 * n <= Z.of_nat (length mem) ->
  (forall s' v, obj_created s s' A o RHINO_QUEUE_OBJ_TYPE -> kqueues (ob s') !! o = Some v -> queue_rep v [] ->
     q_size v = n -> Q RHINO_SUCCESS s') ->
  wp (krhino_queue_create (Some o) (Some name) (Some (addr, mem)) n) Q s.
Proof.
  intros HW Hu Hn Hm HQ. unfold krhino_queue_create, queue_create, klist_init, put_next, put_prev, queue_put, blk_put.
  rewrite (proj2 (Z.eqb_neq n 0)) by lia. wsteps.
  pose proof (queue_rep_new mem addr n K_OBJ_STATIC_ALLOC Hn Hm) as Hr.
  apply wp_fold, wp_critical_nothing; [apply HW|apply HW|]. wsteps. eapply HQ; [|apply lookup_insert_eq|done|done].
  apply obj_created_intro; [done..|]. split; simpl; try done; [intros; by rewrite lookup_insert_ne|].
  eexists. by rewrite lookup_insert_eq.
Qed.

Lemma bufq_rep_new mem size max ty mf fl :
  0 < size < 2 ^ 32 -> size <= Z.of_nat (length mem) -> 0 < max ->
  ty = RINGBUF_TYPE_DYN \/ ty = RINGBUF_TYPE_FIX /\ (max | size) ->
  bufq_rep (mkBufq (ringbuf_init (take (Z.to_nat size) mem) ty (Z.to_nat max)) max 0 0 mf fl) [].
Proof.
  intros Hs Hm Hx Hty. set (buf := take _ mem).
  assert (Hl : length buf = Z.to_nat size) by (unfold buf; rewrite length_take; lia).
  destruct (init_ok buf ty (Z.to_nat max) ltac:(lia)) as [H1 H2].
  split; simpl; [|done|unfold rb_end; simpl; lia]. destruct Hty as [-> | [-> Hd]]; unfold ring_rep; simpl.
  - by split_and!.
  - split_and!; try done; try (by exists 0%nat); [simpl; lia|]. destruct Hd as [k Hk]. exists (Z.to_nat k).
    unfold rb_end. simpl. rewrite Hl, Hk. nia.
Qed.

Lemma wp_buf_queue_new s A o name mem size max ty (Q : kstat_t -> kstate -> Prop) :
  kwf s A -> unused s A o -> 0 < size < 2 ^ 32 -> size <= Z.of_nat (length mem) -> 0 < max ->
  ty = RINGBUF_TYPE_DYN \/ ty = RINGBUF_TYPE_FIX /\ (max | size) ->
  (forall s' v, obj_created s s' A o RHINO_BUF_QUEUE_OBJ_TYPE -> bufqs (ob s') !! o = Some v -> bufq_rep v [] ->
     max_msg_size v = max -> Q RHINO_SUCCESS s') ->
  wp (buf_queue_create (Some o) (Some name) (Some mem) size max K_OBJ_STATIC_ALLOC ty) Q s.
Proof.
  intros HW Hu Hs Hm Hx Hty HQ. unfold buf_queue_create, klist_init, put_next, put_prev, bufq_put, blk_put.
  rewrite (proj2 (Z.eqb_neq max 0)), (proj2 (Z.eqb_neq size 0)) by lia. wsteps.
  apply wp_fold, wp_critical_nothing; [apply HW|apply HW|]. wsteps.
  set (mf := Z.of_nat (rb_freesize _)). pose proof (bufq_rep_new mem size max ty mf K_OBJ_STATIC_ALLOC Hs Hm Hx Hty) as Hr.
  eapply HQ; [|apply lookup_insert_eq|done|done].
  apply obj_created_intro; [done..|]. split; simpl; try done; [intros; by rewrite lookup_insert_ne|].
  eexists. by rewrite lookup_insert_eq.
Qed.

Lemma wp_buf_queue_create s A o name mem size max (Q : kstat_t -> kstate -> Prop) :
  kwf s A -> unused s A o -> 0 < size < 2 ^ 32 -> size <= Z.of_nat (length mem) -> 0 < max ->
  (forall s' v, obj_created s s' A o RHINO_BUF_QUEUE_OBJ_TYPE -> bufqs (ob s') !! o = Some v -> bufq_rep v [] ->
     max_msg_size v = max -> Q RHINO_SUCCESS s') ->
  wp (krhino_buf_queue_create (Some o) (Some name) (Some mem) size max) Q s.
Proof. intros. apply (wp_buf_queue_new s A); auto. Qed.

Lemma wp_fix_buf_queue_create s A o name mem n k (Q : kstat_t -> kstate -> Prop) :
  kwf s A -> unused s A o -> 0 < n -> 0 < n * k < 2 ^ 32 -> n * k <= Z.of_nat (length mem) ->
  (forall s' v, obj_created s s' A o RHINO_BUF_QUEUE_OBJ_TYPE -> bufqs (ob s') !! o = Some v -> bufq_rep v [] ->
     max_msg_size v = n -> Q RHINO_SUCCESS s') ->
  wp (krhino_fix_buf_queue_create (Some o) (Some name) (Some mem) n k) Q s.
Proof.
  intros HW Hu Hn Hk Hm HQ. unfold krhino_fix_buf_queue_create. rewrite wrap_small by lia.
  apply (wp_buf_queue_new s A); auto. right. split; [done|]. exists k. lia.
Qed.
End Create.
