(* ===== verification/Task.v ===== *)
(** * Tasks (k_task.c)

    The configuration of this port: TASK_SUSPEND, TASK_DEL, TASK_PRI_CHG and
    SCHED_RR are 1; TASK_WAIT_ABORT, TASK_INFO and KOBJ_DYN_ALLOC are 0, so
    the functions under those options are not part of the build.  The user
    hooks of driver/hook_impl.c are empty functions. *)

From stdpp Require Import functions.
From S2P Require Import Prelude.
From S2P Require Import Monad.
From S2P Require Import Links.
From S2P Require Import KState.
From S2P Require Import Bitmap.
From S2P Require Import Sched.
From S2P Require Import Pend.
From S2P Require Import Inv.
From S2P Require Import MInv.
From S2P Require Import ObjInv.
From S2P Require Import Resched.
From S2P Require Import Block.
From S2P Require Import Prio.
From S2P Require Import PrioInv.

(** The control block after [memset(task, 0, sizeof(ktask_t))] and the
    assignments of [task_create]. *)
Definition new_task (pri ticks : Z) (autorun : bool) (mm_alloc_flag : Z) : ktask_t :=
  let total := if 0 <? ticks then u32 ticks else RHINO_CONFIG_TIME_SLICE_DEFAULT in
  mkTask (if autorun then 0 else 1) None 0 0 None 0 0
    (if autorun then K_RDY else K_SUSPENDED) BLK_FINISH None None
    total total 0 None 0 KSCHED_RR pri pri mm_alloc_flag.

Definition task_create (task : option tid) (name : option string) (pri ticks : Z)
    (stack_buf : option nat) (stack_size : Z) (entry : option nat) (autorun : bool)
    (mm_alloc_flag : Z) : M kstat_t :=
  match task, name, entry, stack_buf with
  | Some t, Some _, Some _, Some _ =>
      if stack_size =? 0 then ret RHINO_TASK_INV_STACK_SIZE
      else if RHINO_CONFIG_PRI_MAX <=? pri then ret RHINO_BEYOND_MAX_PRI
      else
      psr <- critical_enter ;;
      g <- gets gl ;;
      if 0 <? g_intrpt_nested_level g then
        critical_exit psr ;; ret RHINO_NOT_CALLED_BY_INTRPT
      else if (pri =? RHINO_IDLE_PRI) && (0 <? g_idle_task_spawned g) then
        critical_exit psr ;; ret RHINO_IDLE_TASK_EXIST
      else
      when (pri =? RHINO_IDLE_PRI) (mod_gl (set_g_idle_task_spawned 1)) ;;
      critical_exit psr ;;
      l <- gets lm ;;
      set_lm (mkL (delete (NTask t) (delete (NTick t) (k_next l)))
                  (delete (NTask t) (delete (NTick t) (k_prev l)))) ;;
      tc <- gets tcbs ;;
      set_tcbs (<[t := new_task pri ticks autorun mm_alloc_flag]> tc) ;;
      psr <- critical_enter ;;
      if autorun then
        ready_list_add_tail t ;;
        g <- gets gl ;;
        if bool_decide (g_sys_stat g = RHINO_RUNNING) then
          critical_exit_sched psr ;; ret RHINO_SUCCESS
        else
          critical_exit psr ;; ret RHINO_SUCCESS
      else
        critical_exit psr ;; ret RHINO_SUCCESS
  | _, _, _, _ => ret RHINO_NULL_PTR
  end.

Definition krhino_task_create (task : option tid) (name : option string) (pri ticks : Z)
    (stack_buf : option nat) (stack_size : Z) (entry : option nat) (autorun : bool) : M kstat_t :=
  task_create task name pri ticks stack_buf stack_size entry autorun K_OBJ_STATIC_ALLOC.

Definition krhino_task_sleep (ticks : Z) : M (callres kstat_t) :=
  if ticks =? 0 then ret (Returned RHINO_INV_PARAM)
  else
  psr <- critical_enter ;;
  g <- gets gl ;;
  if 0 <? g_intrpt_nested_level g then
    critical_exit psr ;; ret (Returned RHINO_NOT_CALLED_BY_INTRPT)
  else if 0 <? g_sched_lock g then
    critical_exit psr ;; ret (Returned RHINO_SCHED_DISABLE)
  else
    a <- active_get ;;
    task_upd a (set_task_state K_SLEEP) ;;
    tick_list_insert a ticks ;;
    ready_list_rm a ;;
    critical_exit_sched psr ;;
    ret (Switched pend_end).

Definition krhino_task_yield : M kstat_t :=
  psr <- critical_enter ;;
  a <- active_get ;;
  ready_list_head_to_tail a ;;
  critical_exit_sched psr ;;
  ret RHINO_SUCCESS.

Definition krhino_cur_task_get : M (option tid) :=
  psr <- critical_enter ;;
  g <- gets gl ;;
  critical_exit psr ;;
  ret (g_active_task g).

Definition task_suspend (task : tid) : M kstat_t :=
  psr <- critical_enter ;;
  g <- gets gl ;;
  if bool_decide (Some task = g_active_task g) && (0 <? g_sched_lock g) then
    critical_exit psr ;; ret RHINO_SCHED_DISABLE
  else
  x <- task_get task ;;
  match task_state x with
  | K_RDY =>
      task_upd task (set_suspend_count 1) ;;
      task_upd task (set_task_state K_SUSPENDED) ;;
      ready_list_rm task ;;
      critical_exit_sched psr ;; ret RHINO_SUCCESS
  | K_SLEEP =>
      task_upd task (set_suspend_count 1) ;;
      task_upd task (set_task_state K_SLEEP_SUSPENDED) ;;
      critical_exit_sched psr ;; ret RHINO_SUCCESS
  | K_PEND =>
      task_upd task (set_suspend_count 1) ;;
      task_upd task (set_task_state K_PEND_SUSPENDED) ;;
      critical_exit_sched psr ;; ret RHINO_SUCCESS
  | K_SUSPENDED | K_SLEEP_SUSPENDED | K_PEND_SUSPENDED =>
      if suspend_count x =? 2 ^ 8 - 1 then
        critical_exit psr ;; ret RHINO_SUSPENDED_COUNT_OVF
      else
        task_upd task (fun v => set_suspend_count (u8 (suspend_count v + 1)) v) ;;
        critical_exit_sched psr ;; ret RHINO_SUCCESS
  | K_SEED | K_DELETED =>
      critical_exit psr ;; ret RHINO_INV_TASK_STATE
  end.

Definition krhino_task_suspend (task : option tid) : M kstat_t :=
  match task with
  | None => ret RHINO_NULL_PTR
  | Some t =>
      x <- task_get t ;;
      if prio x =? RHINO_IDLE_PRI then ret RHINO_TASK_SUSPEND_NOT_ALLOWED
      else task_suspend t
  end.

(** [task->suspend_count--], then [st] when it reaches zero. *)
Definition resume_dec (task : tid) : M bool :=
  task_upd task (fun v => set_suspend_count (u8 (suspend_count v - 1)) v) ;;
  x <- task_get task ;;
  ret (suspend_count x =? 0).

Definition task_resume (task : tid) : M kstat_t :=
  psr <- critical_enter ;;
  x <- task_get task ;;
  match task_state x with
  | K_RDY | K_SLEEP | K_PEND =>
      critical_exit psr ;; ret RHINO_TASK_NOT_SUSPENDED
  | K_SUSPENDED =>
      z <- resume_dec task ;;
      when z (task_upd task (set_task_state K_RDY) ;; ready_list_add task) ;;
      critical_exit_sched psr ;; ret RHINO_SUCCESS
  | K_SLEEP_SUSPENDED =>
      z <- resume_dec task ;;
      when z (task_upd task (set_task_state K_SLEEP)) ;;
      critical_exit_sched psr ;; ret RHINO_SUCCESS
  | K_PEND_SUSPENDED =>
      z <- resume_dec task ;;
      when z (task_upd task (set_task_state K_PEND)) ;;
      critical_exit_sched psr ;; ret RHINO_SUCCESS
  | K_SEED | K_DELETED =>
      critical_exit psr ;; ret RHINO_INV_TASK_STATE
  end.

Definition krhino_task_resume (task : option tid) : M kstat_t :=
  match task with None => ret RHINO_NULL_PTR | Some t => task_resume t end.

(** The result carries the value stored through [old_pri]. *)
Definition krhino_task_pri_change (task : option tid) (pri : Z) (old_pri_null : bool) : M (kstat_t * option Z) :=
  match task, old_pri_null with
  | Some t, false =>
      x <- task_get t ;;
      if RHINO_IDLE_PRI <=? prio x then ret (RHINO_PRI_CHG_NOT_ALLOWED, None)
      else if RHINO_IDLE_PRI <=? pri then ret (RHINO_PRI_CHG_NOT_ALLOWED, None)
      else if bool_decide (task_state x = K_DELETED) then ret (RHINO_INV_TASK_STATE, None)
      else
      psr <- critical_enter ;;
      g <- gets gl ;;
      if 0 <? g_intrpt_nested_level g then
        critical_exit psr ;; ret (RHINO_NOT_CALLED_BY_INTRPT, None)
      else
      pri_limit <- mutex_pri_limit t pri ;;
      task_upd t (set_b_prio pri) ;;
      err <- task_pri_change t pri_limit ;;
      if negb (bool_decide (err = RHINO_SUCCESS)) then
        critical_exit psr ;; ret (err, Some (prio x))
      else
        critical_exit_sched psr ;; ret (RHINO_SUCCESS, Some (prio x))
  | _, _ => ret (RHINO_NULL_PTR, None)
  end.

Fixpoint task_mutex_free_loop (fuel : nat) (next_mutex : option oid) : M unit :=
  match next_mutex with
  | None => ret tt
  | Some m =>
      match fuel with
      | O => fault
      | S n =>
          v <- mutex_get m ;;
          let next' := mutex_list v in
          e <- is_klist_empty (NBlk m) ;;
          (if negb e then
             nx <- get_next (NBlk m) ;;
             next_task <- task_of nx ;;
             pend_task_wakeup next_task ;;
             x <- task_get next_task ;;
             mutex_put m (mkMutex (Some next_task) (task_mutex_list x) (owner_nested v) (mutex_mm_alloc_flag v)) ;;
             task_upd next_task (set_task_mutex_list (Some m))
           else
             mutex_put m (mkMutex None (mutex_list v) (owner_nested v) (mutex_mm_alloc_flag v))) ;;
          task_mutex_free_loop n next'
      end
  end.

Definition task_mutex_free (task : tid) : M unit :=
  x <- task_get task ;;
  fuel <- mutex_fuel ;;
  task_mutex_free_loop fuel (task_mutex_list x).

Definition krhino_task_del (task : option tid) : M kstat_t :=
  psr <- critical_enter ;;
  g <- gets gl ;;
  if 0 <? g_intrpt_nested_level g then
    critical_exit psr ;; ret RHINO_NOT_CALLED_BY_INTRPT
  else
  t <- (match task with Some t => ret t | None => active_get end) ;;
  x <- task_get t ;;
  if prio x =? RHINO_IDLE_PRI then ret RHINO_TASK_DEL_NOT_ALLOWED
  else if negb (task_mm_alloc_flag x =? K_OBJ_STATIC_ALLOC) then
    critical_exit psr ;; ret RHINO_KOBJ_DEL_ERR
  else if bool_decide (Some t = g_active_task g) && (0 <? g_sched_lock g) then
    critical_exit psr ;; ret RHINO_SCHED_DISABLE
  else
  task_mutex_free t ;;
  x <- task_get t ;;
  match task_state x with
  | K_RDY =>
      ready_list_rm t ;;
      task_upd t (set_task_state K_DELETED) ;;
      critical_exit_sched psr ;; ret RHINO_SUCCESS
  | K_SUSPENDED =>
      task_upd t (set_task_state K_DELETED) ;;
      critical_exit_sched psr ;; ret RHINO_SUCCESS
  | K_SLEEP | K_SLEEP_SUSPENDED =>
      tick_list_rm t ;;
      task_upd t (set_task_state K_DELETED) ;;
      critical_exit_sched psr ;; ret RHINO_SUCCESS
  | K_PEND | K_PEND_SUSPENDED =>
      tick_list_rm t ;;
      klist_rm (NTask t) ;;
      task_upd t (set_task_state K_DELETED) ;;
      mutex_task_pri_reset t ;;
      critical_exit_sched psr ;; ret RHINO_SUCCESS
  | K_SEED | K_DELETED =>
      critical_exit psr ;; ret RHINO_INV_TASK_STATE
  end.

Definition krhino_task_time_slice_set (task : option tid) (slice : Z) : M kstat_t :=
  match task with
  | None => ret RHINO_NULL_PTR
  | Some t =>
      psr <- critical_enter ;;
      g <- gets gl ;;
      if 0 <? g_intrpt_nested_level g then
        critical_exit psr ;; ret RHINO_NOT_CALLED_BY_INTRPT
      else
        task_upd t (set_time_total (if 0 <? slice then slice else RHINO_CONFIG_TIME_SLICE_DEFAULT)) ;;
        task_upd t (fun v => set_time_slice (time_total v) v) ;;
        critical_exit psr ;;
        ret RHINO_SUCCESS
  end.

Definition krhino_sched_policy_set (task : option tid) (policy : Z) : M kstat_t :=
  match task with
  | None => ret RHINO_NULL_PTR
  | Some t =>
      if negb (policy =? KSCHED_FIFO) && negb (policy =? KSCHED_RR) then ret RHINO_INV_SCHED_WAY
      else
      psr <- critical_enter ;;
      g <- gets gl ;;
      if 0 <? g_intrpt_nested_level g then
        critical_exit psr ;; ret RHINO_NOT_CALLED_BY_INTRPT
      else
        task_upd t (set_sched_policy policy) ;;
        critical_exit psr ;;
        ret RHINO_SUCCESS
  end.

Definition krhino_sched_policy_get (task : option tid) (policy_null : bool) : M (kstat_t * option Z) :=
  match task, policy_null with
  | Some t, false =>
      psr <- critical_enter ;;
      g <- gets gl ;;
      if 0 <? g_intrpt_nested_level g then
        critical_exit psr ;; ret (RHINO_NOT_CALLED_BY_INTRPT, None)
      else
        x <- task_get t ;;
        critical_exit psr ;;
        ret (RHINO_SUCCESS, Some (sched_policy x))
  | _, _ => ret (RHINO_NULL_PTR, None)
  end.

(** A task that returns from its entry function deletes itself. *)
Definition krhino_task_deathbed : M unit :=
  a <- krhino_cur_task_get ;;
  t <- lift a ;;
  x <- task_get t ;;
  if task_mm_alloc_flag x =? K_OBJ_DYN_ALLOC then ret tt
  else krhino_task_del None ;; ret tt.

(** ** One task moves between the ready queue and elsewhere *)

Section Move.
Implicit Types (s : kstate) (A : queues) (t : tid) (x y : ktask_t) (o : oid).

Lemma kgood_move l' q' s A A' t x y :
  kgood s A -> tcbs s !! t = Some x -> kinv (retask l' q' (<[t := y]> (tcbs s)) s) A' ->
  mutex_same (ob s) x y -> same_request x y ->
  (forall o u, u ∈ A' (LBlk o) <-> u ∈ A (LBlk o)) ->
  tick_pos (retask l' q' (<[t := y]> (tcbs s)) s) A' ->
  kgood (retask l' q' (<[t := y]> (tcbs s)) s) A'.
Proof.
  intros [HI HG HT HM HO] Ht HI' Hm Hr HA HT'. split; [done|done|done| |].
  - eapply mutex_inv_task; [done..|]. intros m u _. apply HA.
  - eapply obj_inv_sub; [done|done| |].
    + intros o u. apply HA.
    + intros u z. simpl. by eapply same_request_insert.
Qed.

(** The task leaves its ready list for the state [y] says. *)
Lemma leave_kinv s A A' t x y l' q' :
  kinv s A -> tcbs s !! t = Some x -> task_state x = K_RDY -> prio x <> RHINO_IDLE_PRI -> prio y = prio x ->
  task_ok (blks (ob s)) y -> task_state y <> K_RDY -> pended (task_state y) = false ->
  (forall p, A' (LReady p) = if decide (p = prio x) then lrm t (A (LReady p)) else A (LReady p)) ->
  (forall o, A' (LBlk o) = A (LBlk o)) ->
  (forall u, u <> t -> u ∈ A' LTick <-> u ∈ A LTick) -> (t ∈ A' LTick <-> tick_head y <> None) ->
  tick_sorted (gl s) (<[t := y]> (tcbs s)) (A' LTick) ->
  srep l' q' (blks (ob s)) A' -> kinv (retask l' q' (<[t := y]> (tcbs s)) s) A'.
Proof.
  intros HI Ht Hr Hi Ep Hok Hny Hnp HAr HAb HAt HAtt Hts Hrep.
  assert (Hin : forall i, t ∈ A i <-> in_list x i) by (intros; by apply (kinv_in s)).
  apply (kinv_update s A); [done|by eexists|done| | |done| |done|].
  - intros u [p|o|] Hu; [rewrite HAr; case_decide; [rewrite elem_of_lrm; tauto|done]|by rewrite HAb|by apply HAt].
  - intros [p|o|]; simpl.
    + rewrite HAr. case_decide; [rewrite elem_of_lrm; naive_solver|]. rewrite Hin. simpl. naive_solver.
    + rewrite HAb, Hin. simpl. rewrite Hr, Hnp. naive_solver.
    + done.
  - intros o b Ho Hb. rewrite HAb. eapply prio_sorted_same_prio; [done..|]. by eapply ki_sorted.
  - rewrite HAr. rewrite decide_False by congruence. apply HI.
Qed.

(** Suspending a ready task. *)
Definition is_susp (st : task_stat_t) : bool :=
  match st with K_SUSPENDED | K_SLEEP_SUSPENDED | K_PEND_SUSPENDED => true | _ => false end.

Definition suspended_ready x : ktask_t := set_task_state K_SUSPENDED (set_suspend_count 1 x).

Lemma ready_no_tick s A t x : kinv s A -> tcbs s !! t = Some x -> task_state x = K_RDY -> tick_head x = None.
Proof.
  intros HI Ht Hr. pose proof (ok_tick _ _ (ki_task _ _ HI _ _ Ht)) as Hk. rewrite Hr in Hk.
  destruct (tick_head x); [|done]. by destruct Hk.
Qed.

Lemma wp_leave_ready s A t x y (Q : unit -> kstate -> Prop) :
  kgood s A -> tcbs s !! t = Some x -> task_state x = K_RDY -> prio x <> RHINO_IDLE_PRI -> y = suspended_ready x ->
  (forall l' q', let A' := <[LReady (prio x) := lrm t (A (LReady (prio x)))]> A in
     kgood (retask l' q' (<[t := y]> (tcbs s)) s) A' -> Q tt (retask l' q' (<[t := y]> (tcbs s)) s)) ->
  wp (task_upd t (set_suspend_count 1) ;; task_upd t (set_task_state K_SUSPENDED) ;; ready_list_rm t) Q s.
Proof.
  intros HK Ht Hr Hi -> HQ. pose proof (kg_inv _ _ HK) as HI.
  apply wp_bind, (wp_task_upd _ x); [done|]. apply wp_bind. eapply wp_task_upd; [simpl; by rewrite lookup_insert_eq|].
  unfold with_tc. simpl. rewrite insert_insert_eq.
  destruct (kinv_split _ _ _ _ (LReady (prio x)) HI Ht) as (a & b & Hab & Hl); [by split|].
  eapply (wp_ready_list_rm (blks (ob s)) A t (suspended_ready x) a b); simpl;
    [apply HI|by rewrite lookup_insert_eq|exact (ok_prio _ _ (ki_task _ _ HI _ _ Ht))|done| |].
  { rewrite <- Hl. by eapply kinv_idle_rest. }
  intros l' q' Hs'. rewrite <- Hl in Hs'. apply (HQ l' q').
  pose proof (ready_no_tick _ _ _ _ HI Ht Hr) as Hth.
  eapply kgood_move; [done|done| |by split; simpl; rewrite ?Hr|done| |].
  - eapply (leave_kinv s A); [done|done|done|done|done| |done|done| | | | | |done].
    + destruct (ki_task _ _ HI _ _ Ht) as [K1 K2 K3 K4]. split; simpl; by rewrite ?Hth.
    + intros p. rewrite q_insert. repeat case_decide; congruence.
    + intros o. by rewrite q_insert, decide_False.
    + intros u _. by rewrite q_insert, decide_False.
    + rewrite q_insert, decide_False by done. rewrite (kinv_in _ _ _ _ LTick HI Ht). done.
    + rewrite q_insert, decide_False by done. eapply tick_sorted_same_match; [done..|]. apply HI.
  - intros o u. by rewrite q_insert, decide_False.
  - intros u. rewrite q_insert, decide_False by done. intros Hu. simpl.
    rewrite (tick_rest_same_match _ _ _ x) by done. by apply HK.
Qed.

(** The state changes, the lists do not. *)
Lemma kgood_state s A t x y :
  kgood s A -> tcbs s !! t = Some x -> pended (task_state y) = pended (task_state x) ->
  (task_state x <> K_RDY) -> (task_state y <> K_RDY) -> live (task_state y) = live (task_state x) ->
  sleeping (task_state y) = sleeping (task_state x) -> prio y = prio x -> b_prio y = b_prio x ->
  task_mutex_list y = task_mutex_list x -> task_blk_obj y = task_blk_obj x -> tick_head y = tick_head x ->
  tick_match y = tick_match x -> same_request x y ->
  kgood (with_tc (<[t := y]> (tcbs s)) s) A.
Proof.
  intros HK Ht E1 E2 E3 E4 E5 E6 E7 E8 E9 E10 E11 Hr. pose proof (kg_inv _ _ HK) as HI.
  eapply (kgood_move (lm s) (rq s)); [done|done| | |done|done|].
  - apply (kinv_update s A); [done|by eexists|apply HI|done| | | | |apply HI].
    + intros i. rewrite (kinv_in _ _ _ _ i HI Ht). destruct i; simpl; rewrite ?E1, ?E6, ?E9, ?E10; naive_solver.
    + destruct (ki_task _ _ HI _ _ Ht) as [K1 K2 K3 K4]. split; rewrite ?E1, ?E5, ?E6, ?E9, ?E10; done.
    + intros o b Ho Hb. eapply prio_sorted_same_prio; [done..|]. by eapply ki_sorted.
    + eapply tick_sorted_same_match; [done..|]. apply HI.
  - split; try done. intros m. rewrite E1, E9. done.
  - intros u Hu. simpl. rewrite (tick_rest_same_match _ _ _ x) by done. by apply HK.
Qed.
End Move.

(** ** Suspend and resume *)

Section Suspend.
Implicit Types (s : kstate) (A : queues) (t a : tid) (x y : ktask_t).

(** What a successful suspension makes of a task. *)
Definition suspended (x : ktask_t) : ktask_t :=
  match task_state x with
  | K_RDY => suspended_ready x
  | K_SLEEP => set_task_state K_SLEEP_SUSPENDED (set_suspend_count 1 x)
  | K_PEND => set_task_state K_PEND_SUSPENDED (set_suspend_count 1 x)
  | _ => set_suspend_count (u8 (suspend_count x + 1)) x
  end.

Definition suspend_queues t x A : queues :=
  if bool_decide (task_state x = K_RDY) then <[LReady (prio x) := lrm t (A (LReady (prio x)))]> A else A.

Definition suspend_post s s' A A' t x : Prop :=
  tcbs s' = <[t := suspended x]> (tcbs s) /\ A' = suspend_queues t x A /\ ob s' = ob s /\
  exists top, top_ready A' top /\ gl s' = resched top (gl s).

(** Ending with the lists of [A'] after [t] changed. *)
Lemma wp_move_exit l' q' s A A' t y (r : kstat_t) (Q : kstat_t -> kstate -> Prop) :
  let s1 := retask l' q' (<[t := y]> (tcbs s)) (with_gl (set_primask true (gl s)) s) in
  kwf s A -> kgood s1 A' ->
  (0 < g_sched_lock (gl s) -> g_active_task (gl s) = Some t -> task_state y = K_RDY) ->
  (forall s' top, kwf s' A' -> top_ready A' top -> s' = with_gl (resched top (gl s)) s1 -> Q r s') ->
  wp (critical_exit_sched false ;; ret r) Q s1.
Proof.
  intros s1 HW HK Ha HQ. apply (wp_exit_resched A'); [done| |].
  - intros Hl. destruct (kw_active _ _ HW) as (c & z & Hc & Hz & Hr); [by left|]. unfold active_ready. simpl.
    destruct (decide (c = t)) as [->|].
    + exists t, y. rewrite lookup_insert_eq. split_and!; [done|done|]. by apply Ha.
    + exists c, z. by rewrite lookup_insert_ne.
  - intros top Htop HW'. apply (HQ _ top); [exact HW'|done|]. simpl. by rewrite resched_unmask.
Qed.

(** The same when only fields of [t] changed. *)
Lemma wp_field_exit s A t x y (Q : kstat_t -> kstate -> Prop) :
  kwf s A -> tcbs s !! t = Some x -> task_state x <> K_RDY ->
  kgood (with_tc (<[t := y]> (tcbs s)) (with_gl (set_primask true (gl s)) s)) A ->
  (forall s', kwf s' A -> tcbs s' = <[t := y]> (tcbs s) -> ob s' = ob s ->
     (exists top, top_ready A top /\ gl s' = resched top (gl s)) -> Q RHINO_SUCCESS s') ->
  wp (critical_exit_sched false ;; ret RHINO_SUCCESS) Q (with_tc (<[t := y]> (tcbs s)) (with_gl (set_primask true (gl s)) s)).
Proof.
  intros HW Hx Hn HK HQ. apply (wp_move_exit (lm s) (rq s) s A A t y); [done|exact HK| |].
  - intros Hl E. destruct (kw_active _ _ HW) as (c & z & Hc & Hz & Hr); [by left|]. congruence.
  - intros s' top HW' Htop ->. apply HQ; [done..|]. by exists top.
Qed.

Lemma wp_suspend_ready s A t x (Q : kstat_t -> kstate -> Prop) :
  kwf s A -> tcbs s !! t = Some x -> task_state x = K_RDY -> prio x <> RHINO_IDLE_PRI ->
  (0 < g_sched_lock (gl s) -> g_active_task (gl s) <> Some t) ->
  (forall s' A', kwf s' A' -> suspend_post s s' A A' t x -> Q RHINO_SUCCESS s') ->
  wp (task_upd t (set_suspend_count 1) ;; task_upd t (set_task_state K_SUSPENDED) ;; ready_list_rm t ;;
      critical_exit_sched false ;; ret RHINO_SUCCESS) Q (with_gl (set_primask true (gl s)) s).
Proof.
  intros HW Hx Hr Hi Hl HQ.
  apply (wp_group3 (task_upd t (set_suspend_count 1)) (fun _ => task_upd t (set_task_state K_SUSPENDED)) (fun _ => ready_list_rm t)), wp_bind. eapply (wp_leave_ready _ A t x); [by apply kwf_enter|done..|].
  intros l' q' A' HK. apply (wp_move_exit l' q' s A A' t); [done|exact HK| |].
  - intros ? E. by destruct Hl.
  - intros s' top HW' Htop ->. apply (HQ _ A'); [done|]. unfold suspend_post, suspend_queues, suspended. rewrite Hr, bool_decide_true by done.
    split_and!; [done..|]. by exists top.
Qed.

(** The branches that change fields only. *)
Lemma wp_suspend_field s A t x (m : M unit) (Q : kstat_t -> kstate -> Prop) :
  kwf s A -> tcbs s !! t = Some x -> live (task_state x) = true -> task_state x <> K_RDY ->
  (forall (R : unit -> kstate -> Prop) s0, tcbs s0 !! t = Some x ->
     R tt (with_tc (<[t := suspended x]> (tcbs s0)) s0) -> wp m R s0) ->
  (forall s' A', kwf s' A' -> suspend_post s s' A A' t x -> Q RHINO_SUCCESS s') ->
  wp (m ;; critical_exit_sched false ;; ret RHINO_SUCCESS) Q (with_gl (set_primask true (gl s)) s).
Proof.
  intros HW Hx Hl Hn Hm HQ. apply wp_bind, Hm; [done|].
  change (tcbs (with_gl _ s)) with (tcbs s).
  apply (wp_field_exit s A t x (suspended x)); [done..| |].
  - eapply (kgood_state (with_gl (set_primask true (gl s)) s) _ _ x); [by apply kwf_enter|done|..]; unfold suspended; clear Hm; revert Hl Hn; destruct (task_state x) eqn:Es; simpl; rewrite ?Es; done.
  - intros s' HW' Et Eo Htop. apply (HQ _ A); [done|]. unfold suspend_post, suspend_queues.
    rewrite bool_decide_false by done. done.
Qed.

Lemma wp_upd2 t f g x (R : unit -> kstate -> Prop) s :
  tcbs s !! t = Some x -> R tt (with_tc (<[t := g (f x)]> (tcbs s)) s) -> wp (task_upd t f ;; task_upd t g) R s.
Proof.
  intros Hx HR. apply wp_bind, (wp_task_upd _ x); [done|]. eapply wp_task_upd; [simpl; by rewrite lookup_insert_eq|].
  unfold with_tc in *. simpl. by rewrite insert_insert_eq.
Qed.

Lemma wp_task_suspend s A t x (Q : kstat_t -> kstate -> Prop) :
  kwf s A -> tcbs s !! t = Some x -> live (task_state x) = true ->
  (prio x = RHINO_IDLE_PRI -> Q RHINO_TASK_SUSPEND_NOT_ALLOWED s) ->
  (prio x <> RHINO_IDLE_PRI -> g_active_task (gl s) = Some t -> 0 < g_sched_lock (gl s) -> Q RHINO_SCHED_DISABLE s) ->
  (prio x <> RHINO_IDLE_PRI -> is_susp (task_state x) = true -> suspend_count x = 255 -> Q RHINO_SUSPENDED_COUNT_OVF s) ->
  (forall s' A', prio x <> RHINO_IDLE_PRI -> (is_susp (task_state x) = true -> suspend_count x <> 255) ->
     kwf s' A' -> suspend_post s s' A A' t x -> Q RHINO_SUCCESS s') ->
  wp (krhino_task_suspend (Some t)) Q s.
Proof.
  intros HW Hx Hl Q1 Q2 Q3 Q4'. unfold krhino_task_suspend. apply wp_bind, (wp_task_get _ x); [done|].
  destruct (Z.eqb_spec (prio x) RHINO_IDLE_PRI) as [Hi|Hi]; [apply wp_ret; auto|].
  unfold task_suspend. apply wp_bind, (wp_kwf_enter A); [done|].
  apply wp_bind, wp_gets. simpl g_active_task. simpl g_sched_lock.
  destruct (bool_decide (Some t = g_active_task (gl s)) && (0 <? g_sched_lock (gl s))) eqn:Eg.
  { apply (wp_exit_ret A); [done|]. apply andb_true_iff in Eg as [E1%bool_decide_eq_true ?%Z.ltb_lt]. apply Q2; auto. }
  apply wp_bind, (wp_task_get _ x); [done|].
  assert (Hlk : 0 < g_sched_lock (gl s) -> g_active_task (gl s) <> Some t).
  { intros ? E. rewrite bool_decide_true in Eg by done. apply Z.ltb_ge in Eg. lia. }
  destruct (task_state x) eqn:Es; try done.
  all: try (destruct (Z.eqb_spec (suspend_count x) (2 ^ 8 - 1)) as [Ec|Ec]; [apply (wp_exit_ret A); auto|]).
  all: assert (Q4 : forall s' A', kwf s' A' -> suspend_post s s' A A' t x -> Q RHINO_SUCCESS s')
    by (intros; eapply Q4'; eauto; simpl; done); clear Q4'.
  1: { apply (wp_suspend_ready s A t x); [done..|]. intros s' A' ??. by apply (Q4 s' A'). }
  all: match goal with |- wp (bind (task_upd _ (set_suspend_count 1)) _) _ _ => apply wp_assoc | _ => idtac end; (apply (wp_suspend_field s A t x); [done|done|by rewrite ?Es|by rewrite ?Es| |
    intros s' A' ??; by apply (Q4 s' A')]); intros R s0 Hx0 HR;
    unfold suspended in HR; rewrite Es in HR; first [by apply (wp_upd2 _ _ _ x)|by apply (wp_task_upd _ x)].
Qed.
End Suspend.

Section Resume.
Implicit Types (s : kstate) (A : queues) (t a : tid) (x y : ktask_t).

(** What a successful resumption makes of a suspended task. *)
Definition resumed x : ktask_t :=
  let y := set_suspend_count (u8 (suspend_count x - 1)) x in
  if suspend_count y =? 0 then
    set_task_state (match task_state x with K_SUSPENDED => K_RDY | K_SLEEP_SUSPENDED => K_SLEEP | _ => K_PEND end) y
  else y.

Definition resume_queues (p_act : Z) t x A : queues :=
  if bool_decide (task_state (resumed x) = K_RDY) then
    <[LReady (prio x) := add_pos (prio x) p_act t (A (LReady (prio x)))]> A else A.

Definition resume_post s s' A A' t x : Prop :=
  tcbs s' = <[t := resumed x]> (tcbs s) /\ A' = resume_queues (active_prio s) t x A /\ ob s' = ob s /\
  exists top, top_ready A' top /\ gl s' = resched top (gl s).

(** The task joins its ready list. *)
Lemma join_kinv s A t x y l' q' p :
  kinv s A -> tcbs s !! t = Some x -> task_state x = K_SUSPENDED -> prio y = prio x -> task_state y = K_RDY ->
  tick_head y = tick_head x -> tick_match y = tick_match x ->
  srep l' q' (blks (ob s)) (<[LReady (prio x) := add_pos (prio x) p t (A (LReady (prio x)))]> A) ->
  kinv (retask l' q' (<[t := y]> (tcbs s)) s) (<[LReady (prio x) := add_pos (prio x) p t (A (LReady (prio x)))]> A).
Proof.
  intros HI Ht Hs Ep Hy Eh Em Hrep. pose proof (ki_task _ _ HI _ _ Ht) as [K1 K2 K3 K4].
  assert (Hin : forall i, t ∈ A i <-> in_list x i) by (intros; by apply (kinv_in s)).
  assert (Hth : tick_head x = None) by (destruct (tick_head x); [rewrite Hs in K3; by destruct K3|done]).
  apply (kinv_update s A); [done|by eexists|done| | | | | |].
  - intros u i Hu. qcases. rewrite elem_of_add_pos. naive_solver.
  - intros [q|o|]; qcases; rewrite ?elem_of_add_pos, ?Hin; simpl; rewrite ?Hy, ?Hs, ?Ep, ?Eh; naive_solver.
  - split; rewrite ?Hy, ?Ep, ?Eh, ?Hth; done.
  - intros o b Ho Hb. qcases. eapply prio_sorted_same_prio; [done..|]. by eapply ki_sorted.
  - qcases. eapply tick_sorted_same_match; [done..|]. apply HI.
  - qcases; [apply add_pos_nonempty|apply HI].
Qed.

Lemma kgood_join s A t x y l' q' p :
  kgood s A -> tcbs s !! t = Some x -> task_state x = K_SUSPENDED -> prio y = prio x -> task_state y = K_RDY ->
  tick_head y = tick_head x -> tick_match y = tick_match x -> same_request x y ->
  task_mutex_list y = task_mutex_list x -> b_prio y = b_prio x ->
  srep l' q' (blks (ob s)) (<[LReady (prio x) := add_pos (prio x) p t (A (LReady (prio x)))]> A) ->
  kgood (retask l' q' (<[t := y]> (tcbs s)) s) (<[LReady (prio x) := add_pos (prio x) p t (A (LReady (prio x)))]> A).
Proof.
  intros HK Ht Hs Ep Hy Eh Em Hr El Eb Hrep. eapply kgood_move; [done|done| | |done| |].
  - eapply join_kinv; [apply HK|done..].
  - split; try done; rewrite ?Hy, ?Hs; done.
  - intros o u. qcases.
  - intros u. qcases. intros Hu. simpl. rewrite (tick_rest_same_match _ _ _ x) by done. by apply HK.
Qed.

Lemma wp_resume_dec t x (Q : bool -> kstate -> Prop) s :
  tcbs s !! t = Some x ->
  (let y := set_suspend_count (u8 (suspend_count x - 1)) x in
   Q (suspend_count y =? 0) (with_tc (<[t := y]> (tcbs s)) s)) ->
  wp (resume_dec t) Q s.
Proof.
  intros Hx HQ. unfold resume_dec. apply wp_bind, (wp_task_upd _ x); [done|].
  apply wp_bind. eapply wp_task_get; [simpl; by rewrite lookup_insert_eq|]. by apply wp_ret.
Qed.

(** The branches that do not make the task ready. *)
Lemma wp_resume_field s A t x (m : M unit) (Q : kstat_t -> kstate -> Prop) :
  kwf s A -> tcbs s !! t = Some x -> live (task_state x) = true -> task_state x <> K_RDY -> task_state (resumed x) <> K_RDY ->
  match task_state x with K_SUSPENDED | K_SLEEP_SUSPENDED | K_PEND_SUSPENDED => True | _ => False end ->
  (forall s' A', kwf s' A' -> resume_post s s' A A' t x -> Q RHINO_SUCCESS s') ->
  wp (critical_exit_sched false ;; ret RHINO_SUCCESS) Q
     (with_tc (<[t := resumed x]> (tcbs s)) (with_gl (set_primask true (gl s)) s)).
Proof.
  intros HW Hx Hl Hn Hn' Hst HQ.
  apply (wp_field_exit s A t x (resumed x)); [done..| |].
  - eapply (kgood_state (with_gl (set_primask true (gl s)) s) _ _ x); [by apply kwf_enter|done|..];
      revert Hl Hn Hn' Hst; unfold resumed; case_match; destruct (task_state x) eqn:Es; simpl; rewrite ?Es; done.
  - intros s' HW' Et Eo Htop. apply (HQ _ A); [done|]. unfold resume_post, resume_queues.
    rewrite bool_decide_false by done. done.
Qed.

Lemma wp_task_resume s A t x (Q : kstat_t -> kstate -> Prop) :
  kwf s A -> tcbs s !! t = Some x -> live (task_state x) = true ->
  (task_state x = K_RDY \/ task_state x = K_SLEEP \/ task_state x = K_PEND -> Q RHINO_TASK_NOT_SUSPENDED s) ->
  (forall s' A', is_susp (task_state x) = true -> kwf s' A' -> resume_post s s' A A' t x -> Q RHINO_SUCCESS s') ->
  wp (krhino_task_resume (Some t)) Q s.
Proof.
  intros HW Hx Hl Q1 Q2'. unfold krhino_task_resume, task_resume. apply wp_bind, (wp_kwf_enter A); [done|].
  apply wp_bind, (wp_task_get _ x); [done|].
  destruct (task_state x) eqn:Es; try done; try (apply (wp_exit_ret A); auto; fail).
  all: pose proof (fun s' A' => Q2' s' A' eq_refl) as Q2; clear Q2'.
  all: apply wp_bind, (wp_resume_dec t x); [done|]; simpl suspend_count; unfold when.
  all: assert (Hf : task_state (resumed x) <> K_RDY -> wp (critical_exit_sched false ;; ret RHINO_SUCCESS) Q
     (with_tc (<[t := resumed x]> (tcbs s)) (with_gl (set_primask true (gl s)) s)))
    by (intros; apply (wp_resume_field s A t x (ret tt)); rewrite ?Es; done).
  all: unfold resumed in Hf; rewrite Es in Hf; simpl suspend_count in Hf;
    destruct (Z.eqb_spec (u8 (suspend_count x - 1)) 0) as [E0|E0]; simpl negb; cbn iota;
    [|apply wp_bind, wp_ret, Hf; simpl; by rewrite Es].
  2-3: apply wp_bind; (eapply wp_task_upd; [simpl; by rewrite lookup_insert_eq|]); unfold with_tc in *; simpl;
    rewrite insert_insert_eq; by apply Hf.
  clear Hf. apply wp_bind, wp_bind. eapply wp_task_upd; [simpl; by rewrite lookup_insert_eq|].
  unfold with_tc. simpl. rewrite insert_insert_eq. pose proof (kwf_enter _ _ HW) as HK. pose proof (kg_inv _ _ HK) as HI.
  destruct (ki_active _ _ HI) as (c & y & Hc & Hy). set (z := set_task_state K_RDY _).
  assert (exists y', <[t := z]> (tcbs s) !! c = Some y' /\ prio y' = prio y) as (y' & Hy' & Epy).
  { destruct (decide (c = t)) as [->|]; [exists z|exists y]; simplify_map_eq; done. }
  eapply (wp_ready_list_add (blks (ob s)) A t z c y'); simpl;
    [apply HI|by rewrite lookup_insert_eq|exact (ok_prio _ _ (ki_task _ _ HI _ _ Hx))|done|done| |].
  { intros j Hj. rewrite (kinv_in _ _ _ _ j HI Hx). pose proof (ok_tick _ _ (ki_task _ _ HI _ _ Hx)) as Hk.
    rewrite Es in Hk. destruct j; simpl; rewrite ?Es; naive_solver. }
  intros l' q' Hs'. rewrite Epy, <- (active_prio_eq s c y) in Hs' by done.
  assert (Ez : z = resumed x) by (unfold resumed; rewrite Es; simpl; rewrite E0; subst z; rewrite E0; reflexivity).
  eapply (wp_move_exit l' q' s A _ t z (RHINO_SUCCESS) Q HW); [by eapply (kgood_join (with_gl (set_primask true (gl s)) s))|done|].
  intros s' top HW' Htop ->. eapply Q2; [done|]. unfold resume_post, resume_queues. rewrite <- Ez, bool_decide_true by done.
  split_and!; [done..|]. by exists top.
Qed.
End Resume.

(** ** Sleeping and yielding *)

Section Sleep.
Implicit Types (s : kstate) (A : queues) (t a : tid) (x y : ktask_t).

(** The caller sleeps for [ticks]. *)
Definition asleep (g : kglob) (ticks : Z) x : ktask_t := tick_armed g ticks (set_task_state K_SLEEP x).

Definition sleep_queues s (ticks : Z) t x A : queues :=
  <[LReady (prio x) := lrm t (A (LReady (prio x)))]>
    (<[LTick := tick_insert (gl s) (tcbs s) ticks t (A LTick)]> A).

Lemma asleep_kinv s A t x ticks l' q' :
  kinv s A -> tcbs s !! t = Some x -> task_state x = K_RDY -> prio x <> RHINO_IDLE_PRI -> 0 < ticks < 2 ^ 63 ->
  srep l' q' (blks (ob s)) (sleep_queues s ticks t x A) ->
  kinv (retask l' q' (<[t := asleep (gl s) ticks x]> (tcbs s)) s) (sleep_queues s ticks t x A).
Proof.
  intros HI Ht Hr Hi Hk Hrep. pose proof (ready_no_tick _ _ _ _ HI Ht Hr) as Hth.
  assert (Hnt : t ∉ A LTick) by (rewrite (kinv_in _ _ _ _ LTick HI Ht); simpl; rewrite Hth; intros E; by apply E).
  assert (Hne : ticks <> RHINO_WAIT_FOREVER) by (unfold RHINO_WAIT_FOREVER; lia).
  eapply (leave_kinv s A); [done|done|done|done|done| |done|done| | | | | |done].
  - destruct (ki_task _ _ HI _ _ Ht) as [K1 K2 K3 K4]. split; simpl; done || auto.
  - intros p. unfold sleep_queues. qcases.
  - intros o. unfold sleep_queues. qcases.
  - intros u Hu. unfold sleep_queues. qcases. rewrite elem_of_tick_insert. naive_solver.
  - unfold sleep_queues. qcases. rewrite elem_of_tick_insert. simpl. naive_solver.
  - unfold sleep_queues. qcases. eapply tick_insert_sorted; [done|by right|done| |apply HI].
    unfold armed. by rewrite (proj2 (Z.eqb_neq _ _) Hne).
Qed.

Lemma kgood_asleep s A t x ticks l' q' :
  kgood s A -> tcbs s !! t = Some x -> task_state x = K_RDY -> prio x <> RHINO_IDLE_PRI -> 0 < ticks < 2 ^ 63 ->
  srep l' q' (blks (ob s)) (sleep_queues s ticks t x A) ->
  kgood (retask l' q' (<[t := asleep (gl s) ticks x]> (tcbs s)) s) (sleep_queues s ticks t x A).
Proof.
  intros HK Ht Hr Hi Hk Hrep. pose proof (kg_inv _ _ HK) as HI.
  eapply kgood_move; [done|done|by apply asleep_kinv|by split; simpl; rewrite ?Hr|done| |].
  - intros o u. unfold sleep_queues. qcases.
  - intros u Hu. unfold sleep_queues in Hu. rewrite q_insert, decide_False, q_insert, decide_True in Hu by done.
    apply elem_of_tick_insert in Hu as [[-> _]|Hu]; simpl.
    + rewrite (tick_rest_armed _ _ _ ticks (set_task_state K_SLEEP x)) by (done || lia). lia.
    + rewrite tick_rest_insert_ne; [by apply HK|]. intros ->. apply (kinv_in _ _ _ _ LTick HI Ht) in Hu.
      simpl in Hu. by rewrite (ready_no_tick _ _ _ _ HI Ht Hr) in Hu.
Qed.

(** The list work of [krhino_task_sleep]. *)
Lemma wp_asleep s A t x ticks (Q : unit -> kstate -> Prop) :
  kgood s A -> tcbs s !! t = Some x -> task_state x = K_RDY -> prio x <> RHINO_IDLE_PRI -> 0 < ticks < 2 ^ 63 ->
  (forall l' q', kgood (retask l' q' (<[t := asleep (gl s) ticks x]> (tcbs s)) s) (sleep_queues s ticks t x A) ->
     Q tt (retask l' q' (<[t := asleep (gl s) ticks x]> (tcbs s)) s)) ->
  wp (task_upd t (set_task_state K_SLEEP) ;; tick_list_insert t ticks ;; ready_list_rm t) Q s.
Proof.
  intros HK Ht Hr Hi Hk HQ. pose proof (kg_inv _ _ HK) as HI.
  assert (Hne : (ticks =? RHINO_WAIT_FOREVER) = false) by (apply Z.eqb_neq; unfold RHINO_WAIT_FOREVER; lia).
  apply wp_bind, (wp_task_upd _ x); [done|]. apply wp_bind.
  pose proof (wp_arm s A t x ticks) as Harm. rewrite Hne in Harm.
  eapply (Harm _ HI Ht Hr ltac:(lia) (set_task_state K_SLEEP x)); [done|]. intros l1 Hl1.
  destruct (kinv_split _ _ _ _ (LReady (prio x)) HI Ht) as (b & c & Hbc & Hl); [by split|].
  unfold armed in *. rewrite Hne in *.
  eapply (wp_ready_list_rm (blks (ob s)) _ t (asleep (gl s) ticks x) b c); simpl.
  - split; [exact Hl1|]. eapply rq_rep_ext; [apply HI|]. intros p. qcases.
  - by rewrite lookup_insert_eq.
  - exact (ok_prio _ _ (ki_task _ _ HI _ _ Ht)).
  - qcases.
  - exists RHINO_IDLE_PRI. pose proof (ki_idle _ _ HI). qcases.
  - intros l' q' Hs'. rewrite <- Hl in Hs'. apply (HQ l' q'). by apply kgood_asleep.
Qed.

Definition slept s s' A A' a x ticks : Prop :=
  tcbs s' = <[a := asleep (gl s) ticks x]> (tcbs s) /\ A' = sleep_queues s ticks a x A /\ ob s' = ob s /\
  exists top, top_ready A' top /\ gl s' = resched top (gl s).

Lemma wp_task_sleep s A a x ticks (Q : callres kstat_t -> kstate -> Prop) :
  kwf s A -> g_active_task (gl s) = Some a -> tcbs s !! a = Some x -> prio x <> RHINO_IDLE_PRI -> 0 <= ticks < 2 ^ 63 ->
  (ticks = 0 -> Q (Returned RHINO_INV_PARAM) s) ->
  (ticks <> 0 -> 0 < g_intrpt_nested_level (gl s) -> Q (Returned RHINO_NOT_CALLED_BY_INTRPT) s) ->
  (ticks <> 0 -> g_intrpt_nested_level (gl s) = 0 -> 0 < g_sched_lock (gl s) -> Q (Returned RHINO_SCHED_DISABLE) s) ->
  (forall s' A', ticks <> 0 -> no_sched (gl s) = false -> kwf s' A' -> slept s s' A A' a x ticks -> Q (Switched pend_end) s') ->
  wp (krhino_task_sleep ticks) Q s.
Proof.
  intros HW Ha Hx Hi Hk Q1 Q2 Q3 Q4. unfold krhino_task_sleep.
  destruct (Z.eqb_spec ticks 0) as [->|Hz]; [apply wp_ret; auto|].
  apply wp_bind, (wp_kwf_enter A); [done|]. apply wp_bind, wp_gets. simpl g_intrpt_nested_level. simpl g_sched_lock.
  destruct (Z.ltb_spec 0 (g_intrpt_nested_level (gl s))); [apply (wp_exit_ret A); auto|].
  pose proof (kw_gl _ _ HW) as [Hn Hl _ _ _].
  destruct (Z.ltb_spec 0 (g_sched_lock (gl s))); [apply (wp_exit_ret A); [done|apply Q3; [done|lia|done]]|].
  destruct (kw_active _ _ HW) as (b & y & Hb & Hy & Hr); [lia|]. simplify_eq.
  apply wp_bind. unfold active_get. apply wp_bind, wp_gets. simpl g_active_task. rewrite Ha. apply wp_ret.
  apply (wp_group3 (task_upd a (set_task_state K_SLEEP)) (fun _ => tick_list_insert a ticks) (fun _ => ready_list_rm a)), wp_bind.
  apply (wp_asleep _ A a x ticks); [by apply kwf_enter|done..|lia|]. intros l' q' HK'.
  eapply wp_exit_resched; [exact HK'|simpl; lia|]. intros top Htop HW'. eapply Q4; [done|unfold no_sched; by rewrite !(proj2 (Z.ltb_ge _ _)) by lia|exact HW'|].
  split_and!; [done..|]. exists top. split; [done|]. simpl. by rewrite resched_unmask.
Qed.

(** Yielding rotates the caller's ready list. *)
Definition yielded s s' A A' x : Prop :=
  exists b c top, A (LReady (prio x)) = b :: c /\ A' = <[LReady (prio x) := c ++ [b]]> A /\
    tcbs s' = tcbs s /\ ob s' = ob s /\ top_ready A' top /\ gl s' = resched top (gl s).

Lemma wp_task_yield s A a x (Q : kstat_t -> kstate -> Prop) :
  kwf s A -> g_active_task (gl s) = Some a -> tcbs s !! a = Some x -> task_state x = K_RDY ->
  (forall s' A', kwf s' A' -> yielded s s' A A' x -> Q RHINO_SUCCESS s') ->
  wp krhino_task_yield Q s.
Proof.
  intros HW Ha Hx Hr HQ. unfold krhino_task_yield. apply wp_bind, (wp_kwf_enter A); [done|].
  apply wp_bind. unfold active_get. apply wp_bind, wp_gets. simpl g_active_task. rewrite Ha. apply wp_ret.
  pose proof (kwf_enter _ _ HW) as HK. pose proof (kg_inv _ _ HK) as HI.
  pose proof (ok_prio _ _ (ki_task _ _ HI _ _ Hx)) as Hp.
  assert (Hin : a ∈ A (LReady (prio x))) by by apply (kinv_in _ _ _ _ (LReady (prio x)) HI Hx).
  destruct (A (LReady (prio x))) as [|b c] eqn:EA; [set_solver|].
  apply wp_bind. eapply (wp_ready_list_head_to_tail (blks (ob s)) A a x b c); [apply HI|done..|].
  intros q' Hs'.
  assert (HK' : kgood (retask (lm s) q' (tcbs s) (with_gl (set_primask true (gl s)) s)) (<[LReady (prio x) := c ++ [b]]> A)).
  { apply (kgood_rotate q' (with_gl (set_primask true (gl s)) s)); [done|done| |done].
    rewrite EA. symmetry. apply Permutation_cons_append. }
  eapply wp_exit_resched; [exact HK'|intros _; by exists a, x|].
  intros top Htop HW'. eapply HQ; [exact HW'|]. exists b, c, top. split_and!; [done..|]. simpl. apply resched_unmask.
Qed.
End Sleep.

(** ** Changing a task's base priority *)

Section PriChange.
Implicit Types (s : kstate) (A : queues) (C : tid -> list oid) (t u : tid) (x y : ktask_t).

Lemma minv_set_b_prio s C t x p :
  minv None s C -> tcbs s !! t = Some x -> b_prio x <> RHINO_IDLE_PRI -> 0 <= p < RHINO_IDLE_PRI ->
  minv None (with_tc (<[t := set_b_prio p x]> (tcbs s)) s) C.
Proof.
  intros [H1 H2 H3 H4 H5 H6] Ht Hb Hp. unfold RHINO_IDLE_PRI in *. split; simpl; [|done| | |done|].
  - intros u y. destruct (decide (u = t)) as [->|]; simplify_map_eq; [|by apply H1].
    intros [= <-]. by apply (H1 t x).
  - intros u m Hm. destruct (H3 u m Hm) as (y & Hy & Hl & Hby).
    destruct (decide (u = t)) as [->|]; simplify_map_eq; [|by exists y].
    exists (set_b_prio p x). split_and!; [done..|]. simpl. unfold RHINO_IDLE_PRI. lia.
  - intros u y m. destruct (decide (u = t)) as [->|]; simplify_map_eq; [|by apply H4].
    intros [= <-]. by apply (H4 t x).
  - intros u y. destruct (decide (u = t)) as [->|]; simplify_map_eq; [|by apply H6].
    intros [= <-]. simpl. pose proof (H6 t x Ht). unfold RHINO_IDLE_PRI, RHINO_CONFIG_PRI_MAX in *. lia.
Qed.

(** Base priority [p] for [t]; priorities follow the inheritance rule. *)
Definition rebased s s' A A' t x p : Prop :=
  prio_only (<[t := set_b_prio p x]> (tcbs s)) (tcbs s') /\ requeued A A' /\ ob s' = ob s /\
  exists top, top_ready A' top /\ gl s' = resched top (gl s).

(** The computation inside the critical section. *)
Lemma wp_rebase s A C t x p (Q : kstat_t -> kstate -> Prop) :
  kinv s A -> minv None s C -> pinv s A C -> tcbs s !! t = Some x -> live (task_state x) = true ->
  b_prio x <> RHINO_IDLE_PRI -> 0 <= p < RHINO_IDLE_PRI ->
  (let s0 := with_tc (<[t := set_b_prio p x]> (tcbs s)) s in loop_post s0 A C (base_of (tcbs s0)) Q) ->
  wp (lim <- mutex_pri_limit t p ;; task_upd t (set_b_prio p) ;; task_pri_change t lim) Q s.
Proof.
  intros HI HM HP Ht Hl Hb Hp HQ. apply wp_bind, (wp_mutex_pri_limit None s A C t x); [done..|]. intros r Hr.
  apply wp_bind, (wp_task_upd _ x); [done|]. set (s0 := with_tc _ s) in *.
  assert (HI0 : kinv s0 A) by by apply (kinv_same_place s A t x).
  assert (HM0 : minv None s0 C) by by apply minv_set_b_prio.
  assert (Hpr : forall u, prio_of (tcbs s0) u = prio_of (tcbs s) u).
  { intros u. unfold prio_of, s0. simpl. destruct (decide (u = t)) as [->|]; simplify_map_eq; done. }
  assert (Ht0 : tcbs s0 !! t = Some (set_b_prio p x)) by (simpl; by rewrite lookup_insert_eq).
  assert (Hr' : is_min (tcbs s0) p (waits A C t) r) by (eapply is_min_ext; [exact Hr|done|intros; apply Hpr]).
  eapply (wp_task_pri_change s0 A C t (set_b_prio p x)); [done|done|done|done| | | |exact Hr'|done].
  - simpl. unfold RHINO_IDLE_PRI in *. lia.
  - by eapply (is_min_nonneg s0 A C t (set_b_prio p x)).
  - intros u Hu y Hy Hly. simpl in Hy. rewrite lookup_insert_ne in Hy by done.
    unfold base_of. simpl. rewrite lookup_insert_ne by done. fold (base_of (tcbs s) u).
    eapply is_min_ext; [by apply (HP u)|done|intros; apply Hpr].
Qed.

Lemma wp_krhino_task_pri_change s A t x p (Q : kstat_t * option Z -> kstate -> Prop) :
  kwf s A -> tcbs s !! t = Some x -> live (task_state x) = true -> 0 <= p ->
  (RHINO_IDLE_PRI <= prio x \/ RHINO_IDLE_PRI <= p -> Q (RHINO_PRI_CHG_NOT_ALLOWED, None) s) ->
  (prio x < RHINO_IDLE_PRI -> p < RHINO_IDLE_PRI -> 0 < g_intrpt_nested_level (gl s) ->
     Q (RHINO_NOT_CALLED_BY_INTRPT, None) s) ->
  (forall s' A', prio x < RHINO_IDLE_PRI -> p < RHINO_IDLE_PRI -> g_intrpt_nested_level (gl s) = 0 ->
     kwf s' A' -> rebased s s' A A' t x p -> Q (RHINO_SUCCESS, Some (prio x)) s') ->
  wp (krhino_task_pri_change (Some t) p false) Q s.
Proof.
  intros HW Hx Hl Hp Q1 Q2 Q3. unfold krhino_task_pri_change. apply wp_bind, (wp_task_get _ x); [done|].
  destruct (Z.leb_spec RHINO_IDLE_PRI (prio x)); [apply wp_ret; auto|].
  destruct (Z.leb_spec RHINO_IDLE_PRI p); [apply wp_ret; auto|].
  rewrite bool_decide_false by (intros E; by rewrite E in Hl).
  apply wp_bind, (wp_kwf_enter A); [done|]. apply wp_bind, wp_gets. simpl g_intrpt_nested_level.
  destruct (Z.ltb_spec 0 (g_intrpt_nested_level (gl s))); [apply (wp_exit_ret A); auto|].
  destruct (kwf_enter _ _ HW) as [HI HG HT (C & HM & HP) HO].
  assert (Hb : b_prio x <> RHINO_IDLE_PRI) by (destruct (mi_prio _ _ _ HM _ _ Hx) as (_ & Hi & _); lia).
  pose proof (fun R => wp_rebase _ A C t x p R HI HM HP Hx Hl Hb ltac:(lia)) as Hre.
  eapply (wp_group3 (mutex_pri_limit t p) (fun _ => task_upd t (set_b_prio p)) (task_pri_change t)).
  apply wp_bind, Hre. clear Hre. intros s0 l' q' tc' A' s1 HI1 HR HM1 HP1 Ho. rewrite bool_decide_true by done. cbn [negb].
  assert (HK1 : kgood s1 A').
  { split; [done|done| | |].
    - change (tick_pos (retask l' q' tc' (with_tc (<[t := set_b_prio p x]> (tcbs s)) (with_gl (set_primask true (gl s)) s))) A').
      eapply tick_pos_reprio; [|done|done]. intros u Hu. simpl.
      rewrite (tick_rest_same_match _ _ _ x) by done. by apply HT.
    - exists C. split; [done|]. intros u y Hy Hly. change (tcbs s1) with tc'.
      assert (base_of tc' u = base_of (<[t := set_b_prio p x]> (tcbs s)) u) as ->; [|by apply (HP1 u)].
      unfold base_of. rewrite (Ho u). simpl. by destruct (<[t := set_b_prio p x]> (tcbs s) !! u).
    - change (obj_inv None (retask l' q' tc' (with_tc (<[t := set_b_prio p x]> (tcbs s)) (with_gl (set_primask true (gl s)) s))) A').
      eapply obj_inv_reprio; [|done|done]. eapply obj_inv_sub; [done|done|done|].
      intros u z. simpl. by eapply same_request_insert. }
  apply (wp_exit_resched A'); [done| |].
  - intros Hlk. destruct (kw_active _ _ HW) as (c & z & Hc & Hz & Hrz); [by left|].
    destruct (decide (c = t)) as [->|Hne].
    + exists t. eexists. split_and!; [done|apply (prio_only_some _ _ _ (set_b_prio p x) Ho); simpl; by rewrite lookup_insert_eq|].
      simpl. congruence.
    + exists c. eexists. split_and!; [done|apply (prio_only_some _ _ _ z Ho); simpl; by rewrite lookup_insert_ne|done].
  - intros top Htop HW'. pose proof (go_nest _ (kw_gl _ _ HW)). eapply Q3; [done|done|lia|exact HW'|].
    split_and!; [done..|]. exists top. split; [done|]. apply resched_unmask.
Qed.
End PriChange.

(** ** Time slice and scheduling policy *)

Section Params.
Implicit Types (s : kstate) (A : queues) (t : tid) (x y : ktask_t).

(** Fields the invariant does not read. *)
Definition inert x y : Prop :=
  same_place x y /\ same_request x y /\ task_mutex_list y = task_mutex_list x /\ b_prio y = b_prio x.

Lemma kgood_inert s A t x y :
  kgood s A -> tcbs s !! t = Some x -> inert x y -> kgood (with_tc (<[t := y]> (tcbs s)) s) A.
Proof.
  intros HK Ht (Hp & Hr & El & Eb). eapply kgood_task; [done|done|done| |by left].
  destruct Hp as (E1 & E2 & E3 & E4 & E5). split; rewrite ?E1; try done. intros m. by rewrite E3.
Qed.

Lemma wp_inert_exit s A t x y (Q : kstat_t -> kstate -> Prop) :
  kwf s A -> tcbs s !! t = Some x -> inert x y ->
  (let s' := with_tc (<[t := y]> (tcbs s)) s in kwf s' A -> Q RHINO_SUCCESS s') ->
  wp (critical_exit false ;; ret RHINO_SUCCESS) Q
    (with_tc (<[t := y]> (tcbs s)) (with_gl (set_primask true (gl s)) s)).
Proof.
  intros HW Ht Hin HQ. pose proof (kwf_enter _ _ HW) as HK.
  assert (HK' : kgood (with_tc (<[t := y]> (tcbs s)) (with_gl (set_primask true (gl s)) s)) A) by by apply (kgood_inert (with_gl (set_primask true (gl s)) s) A t x).
  apply wp_bind, wp_critical_exit; [apply (kg_gl _ _ HK')|]. apply wp_ret.
  rewrite <- (kwf_noop s A HW) in HQ. apply HQ.
  apply (kwf_exit s A _ A HW HK'); [done|done|]. intros (a & z & Ha & Hz & Hr).
  unfold active_ready. simpl. destruct (decide (a = t)) as [->|Hne].
  - exists t, y. rewrite lookup_insert_eq. split_and!; [done|done|]. destruct Hin as ((-> & _) & _). congruence.
  - exists a, z. by rewrite lookup_insert_ne.
Qed.

Definition sliced (slice : Z) x : ktask_t :=
  let n := if 0 <? slice then slice else RHINO_CONFIG_TIME_SLICE_DEFAULT in set_time_slice n (set_time_total n x).

Lemma wp_time_slice_set s A t x slice (Q : kstat_t -> kstate -> Prop) :
  kwf s A -> tcbs s !! t = Some x ->
  (0 < g_intrpt_nested_level (gl s) -> Q RHINO_NOT_CALLED_BY_INTRPT s) ->
  (let s' := with_tc (<[t := sliced slice x]> (tcbs s)) s in kwf s' A -> Q RHINO_SUCCESS s') ->
  wp (krhino_task_time_slice_set (Some t) slice) Q s.
Proof.
  intros HW Hx Q1 Q2. unfold krhino_task_time_slice_set. apply wp_bind, (wp_kwf_enter A); [done|].
  apply wp_bind, wp_gets. simpl g_intrpt_nested_level.
  destruct (Z.ltb_spec 0 (g_intrpt_nested_level (gl s))); [apply (wp_exit_ret A); auto|].
  apply wp_assoc, wp_bind. eapply (wp_upd2 _ _ _ x); [done|]. by apply (wp_inert_exit s A t x).
Qed.

Lemma wp_sched_policy_set s A t x policy (Q : kstat_t -> kstate -> Prop) :
  kwf s A -> tcbs s !! t = Some x ->
  (policy <> KSCHED_FIFO -> policy <> KSCHED_RR -> Q RHINO_INV_SCHED_WAY s) ->
  (0 < g_intrpt_nested_level (gl s) -> Q RHINO_NOT_CALLED_BY_INTRPT s) ->
  (let s' := with_tc (<[t := set_sched_policy policy x]> (tcbs s)) s in kwf s' A -> Q RHINO_SUCCESS s') ->
  wp (krhino_sched_policy_set (Some t) policy) Q s.
Proof.
  intros HW Hx Q0 Q1 Q2. unfold krhino_sched_policy_set.
  destruct (negb (policy =? KSCHED_FIFO) && negb (policy =? KSCHED_RR)) eqn:E.
  { apply andb_true_iff in E as [E1%negb_true_iff%Z.eqb_neq E2%negb_true_iff%Z.eqb_neq]. apply wp_ret; auto. }
  apply wp_bind, (wp_kwf_enter A); [done|]. apply wp_bind, wp_gets. simpl g_intrpt_nested_level.
  destruct (Z.ltb_spec 0 (g_intrpt_nested_level (gl s))); [apply (wp_exit_ret A); auto|].
  apply wp_bind, (wp_task_upd _ x); [done|]. by apply (wp_inert_exit s A t x).
Qed.
End Params.

(** ** Creating a task *)

Section Create.
Implicit Types (s : kstate) (A : queues) (C : tid -> list oid) (t u : tid) (x y : ktask_t).

(** The link fields of the new control block are cleared. *)
Definition cleared (l : lmem) t : lmem :=
  mkL (delete (NTask t) (delete (NTick t) (k_next l))) (delete (NTask t) (delete (NTick t) (k_prev l))).

Lemma not_in_nodes s A t i : kinv s A -> tcbs s !! t = None -> t ∉ A i.
Proof. intros HI Ht Hin. apply (ki_mem _ _ HI) in Hin as (x & Hx & _). congruence. Qed.

Lemma rings_cleared s A t :
  kinv s A -> tcbs s !! t = None -> rings (cleared (lm s) t) (nodes (blks (ob s)) A).
Proof.
  intros HI Ht. apply (rings_frame (lm s)); [apply HI|]. intros n [i Hn].
  assert (Hne : n <> NTask t /\ n <> NTick t).
  { unfold nodes in Hn. apply elem_of_app in Hn as [Hn|(u & -> & Hu)%list_elem_of_fmap].
    - destruct i as [p|o|]; simpl in Hn; [set_solver| |set_solver]. destruct (blks (ob s) !! o); set_solver.
    - assert (u <> t) by (intros ->; by apply (not_in_nodes s A t i)). destruct i; naive_solver. }
  destruct Hne. simpl. by rewrite !lookup_delete_ne.
Qed.

(** A control block that is in no list and holds nothing. *)
Record blank x : Prop := mkBlank {
  bk_state : task_state x = K_SUSPENDED;
  bk_prio : 0 <= prio x < RHINO_IDLE_PRI;
  bk_base : b_prio x = prio x;
  bk_tick : tick_head x = None;
  bk_mutex : task_mutex_list x = None;
}.

Lemma kinv_new s A t x :
  kinv s A -> tcbs s !! t = None -> blank x ->
  kinv (retask (cleared (lm s) t) (rq s) (<[t := x]> (tcbs s)) s) A.
Proof.
  intros HI Ht [B1 B2 B3 B4 B5]. pose proof HI as [[Hr Hq] H2 H3 H4 H5 H6 H7].
  assert (Hin : forall i u, u ∈ A i -> u <> t) by (intros i u Hu ->; by apply (not_in_nodes s A t i)).
  split; simpl; [|intros u i|intros u y| | |done|].
  - split; [by apply rings_cleared|done].
  - destruct (decide (u = t)) as [->|Hne]; [|rewrite lookup_insert_ne by done; apply H2].
    rewrite lookup_insert_eq. split; [intros Hu; by destruct (Hin i t Hu)|].
    intros (y & [= <-] & Hy). destruct i; simpl in Hy; rewrite ?B1, ?B4 in Hy; naive_solver.
  - destruct (decide (u = t)) as [->|Hne]; [|rewrite lookup_insert_ne by done; apply H3].
    rewrite lookup_insert_eq. intros [= <-]. unfold RHINO_IDLE_PRI, RHINO_CONFIG_PRI_MAX in *.
    split; rewrite ?B1, ?B4; try done. unfold RHINO_CONFIG_PRI_MAX. lia.
  - intros o b Ho Hb. eapply StronglySorted_impl; [|exact (H4 o b Ho Hb)]. intros u v Hu Hv.
    by rewrite !prio_of_insert_ne by by eapply Hin.
  - eapply tick_sorted_ext; [|exact H5]. intros u Hu. apply tick_rest_insert_ne. by eapply Hin.
  - destruct H7 as (a & y & Ha & Hy). exists a, y. rewrite lookup_insert_ne by congruence. done.
Qed.

Lemma mutex_inv_new l' s A t x :
  mutex_inv s A -> kinv s A -> tcbs s !! t = None -> blank x -> mutex_inv (retask l' (rq s) (<[t := x]> (tcbs s)) s) A.
Proof.
  intros (C & [M1 M2 M3 M4 M5 M6] & HP) HI Ht [B1 B2 B3 B4 B5].
  assert (HC : forall m, m ∉ C t) by (intros m (x' & Hx' & _)%M3; congruence).
  assert (EC : C t = []) by (destruct (C t) as [|m ms]; [done|]; destruct (HC m); set_solver).
  unfold RHINO_IDLE_PRI, RHINO_CONFIG_PRI_MAX in *. exists C. split; [split; simpl; [intros u y|done|intros u m Hm|intros u y m|done|intros u y]|].
  - destruct (decide (u = t)) as [->|]; simplify_map_eq; [|by apply M1]. intros [= <-] _. by rewrite EC, B5.
  - destruct (M3 u m Hm) as (y & Hy & ?). exists y. by rewrite lookup_insert_ne by congruence.
  - destruct (decide (u = t)) as [->|]; simplify_map_eq; [|by apply M4]. intros [= <-]. by rewrite B1.
  - destruct (decide (u = t)) as [->|]; simplify_map_eq; [|by apply M6]. intros [= <-].
    unfold RHINO_IDLE_PRI, RHINO_CONFIG_PRI_MAX. rewrite B3. lia.
  - intros u y Hy Hl. simpl in *. destruct (decide (u = t)) as [->|].
    + rewrite lookup_insert_eq in Hy. injection Hy as <-. unfold base_of. rewrite lookup_insert_eq. simpl.
      rewrite B3. apply is_min_none. intros w (m & Hm & _). by destruct (HC m).
    + rewrite lookup_insert_ne in Hy by done. unfold base_of. rewrite lookup_insert_ne by done.
      eapply is_min_ext; [by apply (HP u)|done|]. intros w (m & Hm & Hw). apply prio_of_insert_ne.
      intros ->. by apply (not_in_nodes s A t (LBlk m)).
Qed.

Lemma kgood_new s A t x :
  kgood s A -> tcbs s !! t = None -> blank x ->
  kgood (retask (cleared (lm s) t) (rq s) (<[t := x]> (tcbs s)) s) A.
Proof.
  intros [HI HG HT HM [Ho1 Ho2 Hq]] Ht Hb.
  assert (Hin : forall i u, u ∈ A i -> u <> t) by (intros i u Hu ->; by apply (not_in_nodes s A t i)).
  split; [by apply kinv_new|done| |by apply mutex_inv_new|].
  - intros u Hu. simpl. rewrite tick_rest_insert_ne by by eapply Hin. by apply HT.
  - split; [done| |intros o; by eapply store_ok_frame]. intros o Hty Hh. destruct (Ho2 o Hty Hh) as (v & Hv & H1 & H2). exists v. split; [done|]. split; [done|].
    intros u y Hu Hy. simpl in Hy. rewrite lookup_insert_ne in Hy by (apply not_eq_sym; by eapply Hin). by apply (H2 u).
Qed.

Definition created s s' A A' t x : Prop :=
  tcbs s' = <[t := x]> (tcbs s) /\ ob s' = ob s /\
  A' = (if bool_decide (task_state x = K_RDY) then <[LReady (prio x) := A (LReady (prio x)) ++ [t]]> A else A) /\
  exists top, top_ready A' top /\ (gl s' = gl s \/ gl s' = resched top (gl s)).

Lemma new_task_blank pri ticks : 0 <= pri < RHINO_IDLE_PRI -> blank (new_task pri ticks false K_OBJ_STATIC_ALLOC).
Proof. intros. by split. Qed.

(** The last part of [task_create], for a task that does not start. *)
Lemma wp_created_suspended s A t x (Q : kstat_t -> kstate -> Prop) :
  kwf s A -> tcbs s !! t = None -> blank x ->
  (forall s' A', kwf s' A' -> created s s' A A' t x -> Q RHINO_SUCCESS s') ->
  wp (critical_exit false ;; ret RHINO_SUCCESS) Q
    (retask (cleared (lm s) t) (rq s) (<[t := x]> (tcbs s)) (with_gl (set_primask true (gl s)) s)).
Proof.
  intros HW Ht Hb HQ. pose proof (kgood_new _ _ t x (kwf_enter _ _ HW) Ht Hb) as HK. simpl lm in HK.
  apply wp_bind, wp_critical_exit; [apply (kg_gl _ _ HK)|]. apply wp_ret. eapply HQ.
  - apply (kwf_exit s A _ A HW HK); [done|done|]. intros (a & z & Ha & Hz & Hr). exists a, z. simpl.
    rewrite lookup_insert_ne by congruence. done.
  - split_and!; [done|done|rewrite bool_decide_false; [done|by rewrite (bk_state _ Hb)]|].
    destruct (kinv_top _ _ (kg_inv _ _ HK)) as [top Htop]. exists top. split; [done|left].
    simpl. pose proof (kw_mask _ _ HW). destruct (gl s); simpl in *. by subst.
Qed.

(** For a task that starts at once. *)
Lemma wp_created_ready s A t x y (Q : kstat_t -> kstate -> Prop) :
  kwf s A -> tcbs s !! t = None -> blank x -> y = set_task_state K_RDY (set_suspend_count 0 x) ->
  (forall s' A', kwf s' A' -> created s s' A A' t y -> Q RHINO_SUCCESS s') ->
  wp (ready_list_add_tail t ;; g <- gets gl ;;
      if bool_decide (g_sys_stat g = RHINO_RUNNING) then critical_exit_sched false ;; ret RHINO_SUCCESS
      else critical_exit false ;; ret RHINO_SUCCESS) Q
    (retask (cleared (lm s) t) (rq s) (<[t := y]> (tcbs s)) (with_gl (set_primask true (gl s)) s)).
Proof.
  intros HW Ht Hb Ey HQ. pose proof (kgood_new _ _ t x (kwf_enter _ _ HW) Ht Hb) as HK. simpl lm in HK.
  pose proof (kg_inv _ _ HK) as HI. pose proof Hb as [B1 B2 B3 B4 B5].
  assert (Epr : prio y = prio x) by by rewrite Ey.
  apply wp_bind, (wp_ready_list_add_tail (blks (ob s)) A t y); simpl.
  - apply HI.
  - by rewrite lookup_insert_eq.
  - rewrite Epr. unfold RHINO_IDLE_PRI, RHINO_CONFIG_PRI_MAX in *. lia.
  - intros j _. by apply (not_in_nodes s A t j), Ht; apply (kw_inv _ _ HW).
  - intros l' q' Hs'. rewrite Epr in Hs'. apply wp_bind, wp_gets. simpl g_sys_stat.
    rewrite (go_run _ (kw_gl _ _ HW)), bool_decide_true by done.
    assert (HK' : kgood (retask l' q' (<[t := y]> (tcbs s)) (with_gl (set_primask true (gl s)) s))
      (<[LReady (prio x) := add_pos (prio x) (prio x) t (A (LReady (prio x)))]> A)).
    { pose proof (kgood_join _ A t x y l' q' (prio x) HK) as HJ. simpl in HJ. rewrite insert_insert_eq in HJ.
      apply HJ; try (by rewrite ?Ey); [by rewrite lookup_insert_eq|]. unfold add_pos. by rewrite Z.eqb_refl. }
    unfold add_pos in HK'. rewrite Z.eqb_refl in HK'.
    eapply wp_exit_resched; [exact HK'| |].
    + intros Hl. destruct (kw_active _ _ HW) as (a & z & Ha & Hz & Hr); [by left|]. exists a, z. simpl.
      rewrite lookup_insert_ne by congruence. done.
    + intros top Htop HW'. eapply HQ; [exact HW'|].
      split_and!; [done|done|rewrite bool_decide_true; [by rewrite Epr|by rewrite Ey]|].
      exists top. split; [done|right]. simpl. apply resched_unmask.
Qed.

Lemma wp_task_create s A t name pri ticks stk size entry autorun (Q : kstat_t -> kstate -> Prop) :
  kwf s A -> tcbs s !! t = None -> 0 <= pri ->
  (size = 0 -> Q RHINO_TASK_INV_STACK_SIZE s) ->
  (size <> 0 -> RHINO_CONFIG_PRI_MAX <= pri -> Q RHINO_BEYOND_MAX_PRI s) ->
  (size <> 0 -> pri < RHINO_CONFIG_PRI_MAX -> 0 < g_intrpt_nested_level (gl s) -> Q RHINO_NOT_CALLED_BY_INTRPT s) ->
  (size <> 0 -> pri = RHINO_IDLE_PRI -> g_intrpt_nested_level (gl s) = 0 -> Q RHINO_IDLE_TASK_EXIST s) ->
  0 < g_idle_task_spawned (gl s) ->
  (forall s' A', size <> 0 -> 0 <= pri < RHINO_IDLE_PRI -> g_intrpt_nested_level (gl s) = 0 -> kwf s' A' ->
     created s s' A A' t (new_task pri ticks autorun K_OBJ_STATIC_ALLOC) -> Q RHINO_SUCCESS s') ->
  wp (krhino_task_create (Some t) (Some name) pri ticks (Some stk) size (Some entry) autorun) Q s.
Proof.
  intros HW Ht Hpri Q1 Q2 Q3 Q4 Hsp Q5. unfold krhino_task_create, task_create.
  destruct (Z.eqb_spec size 0) as [->|Hz]; [apply wp_ret; auto|].
  destruct (Z.leb_spec RHINO_CONFIG_PRI_MAX pri) as [Hm|Hm]; [apply wp_ret; auto|].
  apply wp_bind, (wp_kwf_enter A); [done|]. apply wp_bind, wp_gets. simpl g_intrpt_nested_level. simpl g_idle_task_spawned.
  pose proof (kw_gl _ _ HW) as [Hn _ _ Hrun _].
  destruct (Z.ltb_spec 0 (g_intrpt_nested_level (gl s))); [apply (wp_exit_ret A); auto|].
  rewrite (proj2 (Z.ltb_lt 0 (g_idle_task_spawned (gl s)))) by done. rewrite andb_true_r.
  destruct (Z.eqb_spec pri RHINO_IDLE_PRI) as [Hi|Hi]; [apply (wp_exit_ret A); [done|apply Q4; [done|done|lia]]|].
  apply wp_bind, wp_ret, wp_bind, (wp_exit_noop A); [done|].
  assert (Hp : 0 <= pri < RHINO_IDLE_PRI) by (unfold RHINO_IDLE_PRI, RHINO_CONFIG_PRI_MAX in *; lia).
  assert (E0 : g_intrpt_nested_level (gl s) = 0) by lia. clear Q1 Q2 Q3 Q4.
  wsteps. apply wp_bind, wp_critical_enter. simpl primask. rewrite (kw_mask _ _ HW).
  destruct autorun.
  - eapply (wp_created_ready s A t (new_task pri ticks false K_OBJ_STATIC_ALLOC)); [done|done|by apply new_task_blank|done|].
    intros s' A' HW' Hc. by apply (Q5 s' A').
  - apply (wp_created_suspended s A t); [done|done|by apply new_task_blank|]. intros s' A' HW' Hc. by apply (Q5 s' A').
Qed.
End Create.
