(* ===== verification/TaskDel.v ===== *)
(** * Deleting a task (krhino_task_del, k_task.c)

    The mutexes of the task are handed to their first waiting tasks, then the
    task leaves every list.  While its mutexes are handed over, the task's
    own fields still show the chain and the base priority it had; the
    invariant holds of the state in which they show what is left. *)

From stdpp Require Import functions.
From S2P Require Import Prelude.
From S2P Require Import Monad.
From S2P Require Import Links.
From S2P Require Import KState.
From S2P Require Import Bitmap.
From S2P Require Import Sched.
From S2P Require Import Pend.
From S2P Require Import Inv.
From S2P Require Import MInv.
From S2P Require Import ObjInv.
From S2P Require Import Resched.
From S2P Require Import Block.
From S2P Require Import Prio.
From S2P Require Import PrioInv.
From S2P Require Import Tick.
From S2P Require Import Mutex.
From S2P Require Import Task.

Section FreeMutexes.
Implicit Types (s : kstate) (A : queues) (C : tid -> list oid) (t u w : tid) (x y : ktask_t) (m : oid) (v : kmutex_t)
  (l : option oid) (ms : list oid).

(** The task as the invariant sees it: the mutexes from [l] on are left. *)
Definition hollow l x : ktask_t := set_task_mutex_list l (set_b_prio (prio x) x).
Definition virt s t x l : kstate := with_tc (<[t := hollow l x]> (tcbs s)) s.

Lemma kinv_virt s A t x l : kinv s A -> tcbs s !! t = Some x -> kinv (virt s t x l) A.
Proof. intros HI Ht. by apply (kinv_same_place s A t x). Qed.

Lemma kinv_unvirt s A t x l : kinv (virt s t x l) A -> tcbs s !! t = Some x -> kinv s A.
Proof.
  intros HI Ht. pose proof (kinv_same_place (virt s t x l) A t (hollow l x) x HI (lookup_insert_eq _ _ _) ltac:(done)) as HI'.
  simpl in HI'. rewrite insert_insert_eq, insert_id in HI' by done. by destruct s.
Qed.

Lemma set_hollow l l' x : set_task_mutex_list l' (hollow l x) = hollow l' x.
Proof. done. Qed.

(** At the start. *)
Lemma kgood_virt s A t x :
  kgood s A -> tcbs s !! t = Some x -> live (task_state x) = true -> prio x <> RHINO_IDLE_PRI ->
  kgood (virt s t x (task_mutex_list x)) A.
Proof.
  intros [HI HG HT (C & HM & HP) HO] Ht Hl Hi.
  assert (hollow (task_mutex_list x) x = set_b_prio (prio x) x) as E by by destruct x.
  destruct (mi_prio _ _ _ HM t x Ht) as (_ & Hib & _). pose proof (ok_prio _ _ (ki_task _ _ HI _ _ Ht)) as Hp.
  split; [by apply kinv_virt|done| | |].
  - intros u Hu. simpl. rewrite (tick_rest_same_match _ _ _ x) by done. by apply HT.
  - exists C. unfold virt. rewrite E. split.
    + apply minv_set_b_prio; [done|done|tauto|]. unfold RHINO_IDLE_PRI, RHINO_CONFIG_PRI_MAX in *. lia.
    + intros u y Hy Hly. simpl in Hy |- *.
      assert (Hpr : forall w, prio_of (<[t := set_b_prio (prio x) x]> (tcbs s)) w = prio_of (tcbs s) w).
      { intros w. unfold prio_of. destruct (decide (w = t)) as [->|]; simplify_map_eq; done. }
      destruct (decide (u = t)) as [->|].
      * rewrite lookup_insert_eq in Hy. injection Hy as <-. unfold base_of. rewrite lookup_insert_eq. simpl.
        destruct (HP t x Ht Hl) as (_ & H2 & _). split_and!; [lia| |by left]. intros w Hw. rewrite Hpr. by apply H2.
      * rewrite lookup_insert_ne in Hy by done. unfold base_of. rewrite lookup_insert_ne by done.
        eapply is_min_ext; [by apply (HP u)|done|by intros].
  - eapply obj_inv_sub; [done|done|done|]. intros u z. simpl. by eapply same_request_insert.
Qed.

(** The task lets go of its first mutex. *)
Lemma khalf_drop s A t x m v ms :
  kgood (virt s t x (Some m)) A -> tcbs s !! t = Some x -> live (task_state x) = true ->
  mchain (mutexes (ob s)) (Some m) (m :: ms) -> mutexes (ob s) !! m = Some v ->
  exists C, khalf m (virt s t x (mutex_list v)) A C /\ is_mutex (ob s) m /\ mutex_task v = Some t /\ (forall u, m ∉ C u) /\
    (forall w y, w ∈ A (LBlk m) -> tcbs s !! w = Some y -> w <> t /\ b_prio y <> RHINO_IDLE_PRI).
Proof.
  intros HK Ht Hl Hch Hv. pose proof HK as [HI HG HT (C & HM & HP) HO]. set (s0 := virt s t x (Some m)) in *.
  assert (Ht0 : tcbs s0 !! t = Some (hollow (Some m) x)) by apply lookup_insert_eq.
  assert (HC : C t = m :: ms) by (eapply mchain_unique; [exact (mi_chain _ _ _ HM t _ Ht0 Hl)|exact Hch]).
  assert (Hm : m ∈ C t) by (rewrite HC; set_solver).
  destruct (proj1 (mi_own _ _ _ HM t m) Hm) as (_ & Hmx & v' & Hv' & Ho). simpl in Hv'. simplify_eq.
  pose proof (let_go_mlink_set s0 C t (hollow (Some m) x) m v [] ms HM Ht0 Hl HC Hv) as HL.
  assert (E : mlink_set (link_after (LTask t) []) (mutex_list v) s0 = virt s t x (mutex_list v)).
  { unfold link_after, mlink_set. simpl last. cbv iota. rewrite Ht0, set_hollow. unfold s0, virt, with_tc. simpl.
    by rewrite insert_insert_eq. }
  rewrite E in HL. exists (<[t := [] ++ ms]> C).
  assert (HH : khalf m (virt s t x (mutex_list v)) A (<[t := [] ++ ms]> C)).
  { eapply (khalf_let_go s0 A t (hollow (Some m) x) m v C _ _ (prio x)); try done.
    - apply kinv_virt; [|done]. by eapply kinv_unvirt.
    - destruct (HP t _ Ht0 Hl) as (_ & H2 & _). split_and!; [simpl; lia| |by left].
      intros w (n & Hn & Hw). destruct (let_go_base _ _ _ _ _ _ _ _ w HL Ht0) as [_ ->].
      apply (H2 w). exists n. split; [|done]. rewrite fn_lookup_insert in Hn. rewrite HC. set_solver. }
  split_and!; [done|done|done| |].
  - intros u Hu. by apply (mi_own _ _ _ (kh_minv _ _ _ _ HH)) in Hu as (? & _).
  - intros w y Hw Hy. apply (ki_mem _ _ (kinv_unvirt _ _ _ _ _ HI Ht)) in Hw as (y' & Hy' & Hp & Hb). assert (y' = y) as -> by congruence.
    assert (w <> t) as Hne.
    { intros ->. simplify_eq. destruct (mi_wait _ _ _ HM t _ m Ht0 Hp Hb Hmx) as (u & Hu & Hut); [done|].
      apply (mi_own _ _ _ HM) in Hu as (_ & _ & v' & Hv' & Ho'). simpl in Hv'. simplify_eq. }
    split; [done|]. intros Ei. destruct (mi_prio _ _ _ HM w y) as (_ & E1 & E2); [simpl; by rewrite lookup_insert_ne|].
    rewrite E2 in Hp; [done|tauto].
Qed.

Lemma kgood_nested s A m v v' :
  kgood s A -> mutexes (ob s) !! m = Some v -> mutex_task v' = mutex_task v -> mutex_list v' = mutex_list v ->
  kgood (with_mutex s m v') A.
Proof.
  intros [HI HG HT (C & HM & HP) HO] Hv E1 E2. split; [by apply kinv_mutex|done|done| |by apply obj_inv_mutex].
  exists C. split; [by eapply minv_nested|done].
Qed.

(** One mutex is handed over: it goes to the first waiting task, if any. *)
Record freed s s' A A' t x m l : Prop := mkFreed {
  fr_task : tcbs s' !! t = Some x;
  fr_good : kgood (virt s' t x l) A';
  fr_gl : gl s' = gl s;
  fr_blks : blks (ob s') = blks (ob s);
  fr_mutex : exists v', mutexes (ob s') = <[m := v']> (mutexes (ob s)) /\ mutex_task v' = head (A (LBlk m));
  fr_queues : forall n, n <> m -> A' (LBlk n) = A (LBlk n);
  fr_other : forall u y, tcbs s !! u = Some y -> pended (task_state y) = false -> tcbs s' !! u = Some y;
}.

Lemma freed_none s A t x m v ms :
  kgood (virt s t x (Some m)) A -> tcbs s !! t = Some x -> live (task_state x) = true ->
  mchain (mutexes (ob s)) (Some m) (m :: ms) -> mutexes (ob s) !! m = Some v -> A (LBlk m) = [] ->
  freed s (with_mutex s m (mkMutex None (mutex_list v) (owner_nested v) (mutex_mm_alloc_flag v))) A A t x m (mutex_list v).
Proof.
  intros HK Ht Hl Hch Hv HA. destruct (khalf_drop s A t x m v ms HK Ht Hl Hch Hv) as (C & HH & _).
  split; try done.
  - by eapply (kgood_free_half (virt s t x (mutex_list v)) A C m v).
  - eexists. split; [done|]. by rewrite HA.
Qed.

Definition handed s w y m v (l' : lmem) (q' : runqueue_t) : kstate :=
  let y1 := unblocked BLK_FINISH y in
  with_tc (<[w := set_task_mutex_list (Some m) y1]> (<[w := y1]> (tcbs s)))
    (with_mutex (retask l' q' (<[w := y1]> (tcbs s)) s) m
       (mkMutex (Some w) (task_mutex_list y1) (owner_nested v) (mutex_mm_alloc_flag v))).

Lemma freed_handed s A t x m v ms w ws y (l' : lmem) (q' : runqueue_t) :
  kgood (virt s t x (Some m)) A -> tcbs s !! t = Some x -> live (task_state x) = true ->
  mchain (mutexes (ob s)) (Some m) (m :: ms) -> mutexes (ob s) !! m = Some v -> A (LBlk m) = w :: ws ->
  tcbs s !! w = Some y -> pended (task_state y) = true -> task_blk_obj y = Some m ->
  kinv (retask l' q' (<[w := unblocked BLK_FINISH y]> (tcbs s)) s) (unblock_queues (active_prio s) w y m A) ->
  freed s (handed s w y m v l' q') A (unblock_queues (active_prio s) w y m A) t x m (mutex_list v).
Proof.
  intros HK Ht Hl Hch Hv HA Hw Hp Hb HI2. set (y1 := unblocked BLK_FINISH y) in *.
  destruct (khalf_drop s A t x m v ms HK Ht Hl Hch Hv) as (C & HH & Hmx & _ & HC & Hwt).
  destruct (Hwt w y) as [Hne Hib]; [rewrite HA; set_solver|done|].
  set (s1 := virt s t x (mutex_list v)) in *.
  assert (Hw1 : tcbs s1 !! w = Some y) by (simpl; by rewrite lookup_insert_ne).
  assert (Eap : active_prio s1 = active_prio s) by by apply (active_prio_same s t x).
  set (s2 := retask l' q' (<[w := y1]> (tcbs s1)) s1).
  assert (HI2' : kinv s2 (unblock_queues (active_prio s1) w y m A)).
  { rewrite Eap. pose proof (kinv_virt _ _ t x (mutex_list v) HI2) as HI3. simpl in HI3.
    rewrite lookup_insert_ne in HI3 by done. specialize (HI3 Ht). unfold virt, with_tc in HI3. simpl in HI3.
    by rewrite insert_insert_ne in HI3 by done. }
  pose proof (khalf_unblocked l' q' s1 A C m w y BLK_FINISH HH Hw1 Hp Hb HI2') as HH2. fold y1 s2 in HH2. rewrite Eap in HH2.
  destruct Hmx as (b & Hbm & Hty).
  assert (HKo : kgood (own s2 w y1 m v) (unblock_queues (active_prio s) w y m A)).
  { eapply (kgood_own_half s2 _ C w y1 m v); try done.
    - by exists b.
    - apply lookup_insert_eq.
    - simpl. by destruct (task_state y).
    - simpl. by destruct (task_state y).
    - intros u Hu. rewrite unblock_queues_blk, HA in Hu. rewrite elem_of_lrm in Hu. destruct Hu as [Hun Hu].
      assert (u ∈ ws) as Hu' by set_solver.
      assert (Hpr : prio_of (tcbs s2) u = prio_of (tcbs s1) u) by (simpl; by rewrite prio_of_insert_ne).
      rewrite Hpr. replace (prio y1) with (prio_of (tcbs s1) w) by by rewrite (prio_of_lookup _ _ _ Hw1).
      eapply (head_le s1 A m b w ws); [apply HH|done| |done|done].
      by apply (mi_mutex _ _ _ (kh_minv _ _ _ _ HH) m b). }
  assert (E : virt (handed s w y m v l' q') t x (mutex_list v) =
    with_mutex (own s2 w y1 m v) m (mkMutex (Some w) (task_mutex_list y1) (owner_nested v) (mutex_mm_alloc_flag v))).
  { unfold virt, handed, own, s2, s1, with_mutex, with_tc, with_ob, retask. simpl. fold y1. f_equal.
    - rewrite !insert_insert_eq. by rewrite insert_insert_ne by done.
    - unfold virt, with_tc. simpl. unfold set_mutexes. simpl. by rewrite insert_insert_eq. }
  split; try done.
  - simpl. rewrite !lookup_insert_ne by done. done.
  - rewrite E. eapply (kgood_nested (own s2 w y1 m v) _ m (owned_by w y1 v)); [done|apply lookup_insert_eq|done|done].
  - eexists. split; [done|]. by rewrite HA.
  - intros n Hn. by apply unblock_queues_other.
  - intros u z Hz Hnp. simpl. rewrite !lookup_insert_ne; [done| |]; intros ->; simplify_eq; congruence.
Qed.

(** All mutexes are handed over. *)
Record freed_all s s' A A' t x ms : Prop := mkFreedAll {
  fa_task : tcbs s' !! t = Some x;
  fa_good : kgood (virt s' t x None) A';
  fa_gl : gl s' = gl s;
  fa_blks : blks (ob s') = blks (ob s);
  fa_mutex : forall m, m ∈ ms -> exists v', mutexes (ob s') !! m = Some v' /\ mutex_task v' = head (A (LBlk m));
  fa_same : forall m, m ∉ ms -> mutexes (ob s') !! m = mutexes (ob s) !! m;
  fa_other : forall u y, tcbs s !! u = Some y -> pended (task_state y) = false -> tcbs s' !! u = Some y;
}.

Lemma freed_chain s s1 A A1 t x m l ms :
  freed s s1 A A1 t x m l -> m ∉ ms -> mchain (mutexes (ob s)) l ms -> mchain (mutexes (ob s1)) l ms.
Proof.
  intros HF Hm Hch. destruct (fr_mutex _ _ _ _ _ _ _ _ HF) as (v' & -> & _). eapply mchain_ext; [done|].
  intros n Hn. by rewrite lookup_insert_ne by (intros ->; done).
Qed.

Lemma freed_all_step s s1 s2 A A1 A2 t x m l ms :
  freed s s1 A A1 t x m l -> m ∉ ms -> freed_all s1 s2 A1 A2 t x ms -> freed_all s s2 A A2 t x (m :: ms).
Proof.
  intros HF Hm [F1 F2 F3 F4 F5 F6 F7]. destruct (fr_mutex _ _ _ _ _ _ _ _ HF) as (v' & Em & Ho). split; try done.
  - by rewrite F3, (fr_gl _ _ _ _ _ _ _ _ HF).
  - by rewrite F4, (fr_blks _ _ _ _ _ _ _ _ HF).
  - intros n [->|Hn]%elem_of_cons.
    + exists v'. split; [|done]. by rewrite F6, Em, lookup_insert_eq.
    + destruct (F5 n Hn) as (w & Hw & Hh). exists w. split; [done|].
      by rewrite Hh, (fr_queues _ _ _ _ _ _ _ _ HF) by (intros ->; done).
  - intros n Hn. apply not_elem_of_cons in Hn as [Hn1 Hn2]. by rewrite F6, Em, lookup_insert_ne.
  - intros u y Hu Hp. apply F7; [|done]. by apply (fr_other _ _ _ _ _ _ _ _ HF).
Qed.

(** One iteration of the loop. *)
Lemma wp_free_one s A t x m v ms (Q : unit -> kstate -> Prop) :
  kgood (virt s t x (Some m)) A -> tcbs s !! t = Some x -> live (task_state x) = true ->
  mchain (mutexes (ob s)) (Some m) (m :: ms) -> mutexes (ob s) !! m = Some v ->
  (forall s' A', freed s s' A A' t x m (mutex_list v) -> Q tt s') ->
  wp (e <- is_klist_empty (NBlk m) ;;
      if negb e then
        nx <- get_next (NBlk m) ;;
        next_task <- task_of nx ;;
        pend_task_wakeup next_task ;;
        x <- task_get next_task ;;
        mutex_put m (mkMutex (Some next_task) (task_mutex_list x) (owner_nested v) (mutex_mm_alloc_flag v)) ;;
        task_upd next_task (set_task_mutex_list (Some m))
      else
        mutex_put m (mkMutex None (mutex_list v) (owner_nested v) (mutex_mm_alloc_flag v))) Q s.
Proof.
  intros HK Ht Hl Hch Hv HQ. pose proof (kinv_unvirt _ _ _ _ _ (kg_inv _ _ HK) Ht) as HI.
  destruct (khalf_drop s A t x m v ms HK Ht Hl Hch Hv) as (C & _ & (b & Hb & _) & _).
  apply wp_bind, (wp_blk_empty s A m b); [done..|]. destruct (A (LBlk m)) as [|w ws] eqn:HA; simpl.
  - unfold mutex_put. wstep. eapply (HQ _ A). by apply (freed_none s A t x m v ms).
  - destruct (first_waiter s A m w ws HI HA) as (y & Hy & Hp & Ho).
    apply wp_bind, (wp_get_first s A m b w ws); [done..|]. cbn [task_of]. wsteps.
    apply (wp_pend_task_unblock s A w y m); [done..|]. intros l' q' HI2.
    apply wp_bind, (wp_task_get _ (unblocked BLK_FINISH y)); [apply lookup_insert_eq|]. unfold mutex_put. wsteps.
    apply (wp_task_upd _ (unblocked BLK_FINISH y)); [apply lookup_insert_eq|].
    apply (HQ (handed s w y m v l' q') (unblock_queues (active_prio s) w y m A)). by apply (freed_handed s A t x m v ms w ws y).
Qed.

Lemma wp_mutex_free_loop fuel s A t x l ms (Q : unit -> kstate -> Prop) :
  kgood (virt s t x l) A -> tcbs s !! t = Some x -> live (task_state x) = true ->
  mchain (mutexes (ob s)) l ms -> (length ms <= fuel)%nat ->
  (forall s' A', freed_all s s' A A' t x ms -> Q tt s') ->
  wp (task_mutex_free_loop fuel l) Q s.
Proof.
  revert fuel s A l Q. induction ms as [|m ms IH]; intros fuel s A l Q HK Ht Hl Hch Hf HQ.
  - simpl in Hch. subst l. destruct fuel; apply wp_ret, (HQ s A); split; try done; set_solver.
  - pose proof (mchain_nodup _ _ _ Hch) as Hnd. apply NoDup_cons in Hnd as [Hm Hnd].
    destruct fuel as [|fuel]; simpl in Hf; [lia|]. pose proof Hch as (-> & v & Hv & Hch'). simpl.
    unfold mutex_get at 1. wsteps. apply wp_fold, wp_assoc, wp_bind, (wp_free_one s A t x m v ms); [done..|].
    intros s1 A1 HF. eapply (IH fuel s1 A1); [apply HF|apply HF|done|by eapply freed_chain|lia|].
    intros s' A' HF'. apply (HQ s' A'). by eapply freed_all_step.
Qed.

Lemma wp_task_mutex_free s A t x (Q : unit -> kstate -> Prop) :
  kgood s A -> tcbs s !! t = Some x -> live (task_state x) = true -> prio x <> RHINO_IDLE_PRI ->
  (forall s' A' ms, mchain (mutexes (ob s)) (task_mutex_list x) ms -> freed_all s s' A A' t x ms -> Q tt s') ->
  wp (task_mutex_free t) Q s.
Proof.
  intros HK Ht Hl Hi HQ. pose proof (kgood_virt s A t x HK Ht Hl Hi) as HV.
  destruct (kg_mutex _ _ HK) as (C & HM & _). pose proof (mi_chain _ _ _ HM t x Ht Hl) as Hch.
  unfold task_mutex_free, mutex_fuel. apply wp_bind, (wp_task_get _ x); [done|]. wsteps.
  eapply (wp_mutex_free_loop _ s A t x _ (C t)); [done..| |eauto].
  pose proof (mchain_length _ _ _ Hch). lia.
Qed.
End FreeMutexes.

(** ** Leaving every list *)

Section Gone.
Implicit Types (s : kstate) (A : queues) (C : tid -> list oid) (t u w : tid) (x y : ktask_t) (m o : oid) (l : lmem) (q : runqueue_t).

Definition gone x : ktask_t := set_task_state K_DELETED (set_tick_head None x).
Definition purged t A : queues := fun i => lrm t (A i).
Definition gone_state s t x l' q' : kstate := retask l' q' (<[t := gone x]> (tcbs s)) s.

Lemma gone_kinv s A t x l' q' :
  kinv s A -> tcbs s !! t = Some x -> prio x <> RHINO_IDLE_PRI -> srep l' q' (blks (ob s)) (purged t A) ->
  kinv (gone_state s t x l' q') (purged t A).
Proof.
  intros HI Ht Hi Hr. pose proof (ki_task _ _ HI _ _ Ht) as [K1 K2 K3 K4].
  assert (Hn : forall i, t ∉ purged t A i) by (intros i; unfold purged; rewrite elem_of_lrm; tauto).
  apply (kinv_update s A); [done|by eexists|done| | | | | |].
  - intros u i Hu. unfold purged. rewrite elem_of_lrm. tauto.
  - intros i. split; [intros Hin; by destruct (Hn i)|]. destruct i; simpl; naive_solver.
  - by split.
  - intros o b Ho Hb. apply prio_sorted_insert_ne; [apply Hn|]. apply StronglySorted_lrm. by eapply (ki_sorted _ _ HI).
  - eapply tick_sorted_ext; [|apply tick_sorted_lrm, HI]. intros u Hu. apply tick_rest_insert_ne. intros ->. by apply (Hn LTick).
  - destruct (A (LReady RHINO_IDLE_PRI)) as [|u ts] eqn:EA; [by destruct (ki_idle _ _ HI)|].
    eapply (lrm_nonempty t u); [rewrite EA; set_solver|]. intros ->.
    assert (t ∈ A (LReady RHINO_IDLE_PRI)) as Hin by (rewrite EA; set_solver).
    apply (kinv_in _ _ _ _ _ HI Ht) in Hin as [_ E]. done.
Qed.

Lemma gone_chain s C t x : minv None (virt s t x None) C -> live (task_state x) = true -> C t = [].
Proof.
  intros HM Hl. eapply mchain_unique; [exact (mi_chain _ _ _ HM t (hollow None x) (lookup_insert_eq _ _ _) Hl)|done].
Qed.

Lemma minv_gone s C t x l' q' :
  minv None (virt s t x None) C -> tcbs s !! t = Some x -> live (task_state x) = true -> prio x <> RHINO_IDLE_PRI ->
  0 <= b_prio x < RHINO_CONFIG_PRI_MAX -> b_prio x <> RHINO_IDLE_PRI ->
  minv None (gone_state s t x l' q') C.
Proof.
  intros HM Ht Hl Hi Hb Hbi. pose proof (gone_chain s C t x HM Hl) as HC. destruct HM as [M1 M2 M3 M4 M5 M6].
  assert (Hlk : forall u y, u <> t -> tcbs s !! u = Some y <-> <[t := hollow None x]> (tcbs s) !! u = Some y)
    by (intros u y Hu; by rewrite lookup_insert_ne).
  split; simpl in *; try done.
  - intros u y Hy Hly. destruct (decide (u = t)) as [->|]; [rewrite lookup_insert_eq in Hy; by injection Hy as <-|].
    rewrite lookup_insert_ne in Hy by done. apply (M1 u); [by apply Hlk|done].
  - intros u m Hm. assert (u <> t) as Hu by (intros ->; rewrite HC in Hm; set_solver).
    destruct (M3 u m Hm) as (y & Hy & ?). exists y. rewrite lookup_insert_ne by done. split; [by apply Hlk|done].
  - intros u y m Hy. destruct (decide (u = t)) as [->|]; [rewrite lookup_insert_eq in Hy; by injection Hy as <-|].
    rewrite lookup_insert_ne in Hy by done. apply M4. by apply Hlk.
  - intros u y Hy. destruct (decide (u = t)) as [->|].
    + rewrite lookup_insert_eq in Hy. injection Hy as <-. simpl. split_and!; [lia|lia| |]; tauto.
    + rewrite lookup_insert_ne in Hy by done. apply (M6 u). by apply Hlk.
Qed.

Lemma gone_prio s t x l' q' u :
  tcbs s !! t = Some x -> prio_of (tcbs (gone_state s t x l' q')) u = prio_of (tcbs (virt s t x None)) u.
Proof. intros Ht. unfold prio_of. simpl. destruct (decide (u = t)) as [->|]; by simplify_map_eq. Qed.

Lemma waits_purged A C t u w : waits (purged t A) C u w <-> waits A C u w /\ w <> t.
Proof. unfold waits, purged. setoid_rewrite elem_of_lrm. naive_solver. Qed.

(** The priorities of the other tasks still fit, except where [t] was a
    waiting task that decided the owner's priority. *)
Lemma pinv_gone s A C t x l' q' u y :
  kinv s A -> minv None (virt s t x None) C -> pinv (virt s t x None) A C -> tcbs s !! t = Some x ->
  tcbs (gone_state s t x l' q') !! u = Some y -> live (task_state y) = true ->
  prio y <> prio x \/ ~ waits A C u t ->
  is_min (tcbs (gone_state s t x l' q')) (base_of (tcbs (gone_state s t x l' q')) u) (waits (purged t A) C u) (prio y).
Proof.
  intros HI HM HP Ht Hy Hly Hc. simpl in Hy. destruct (decide (u = t)) as [->|Hu].
  { rewrite lookup_insert_eq in Hy. by injection Hy as <-. }
  rewrite lookup_insert_ne in Hy by done.
  assert (Hyv : tcbs (virt s t x None) !! u = Some y) by (simpl; by rewrite lookup_insert_ne).
  pose proof (HP u y Hyv Hly) as Hm.
  assert (base_of (tcbs (gone_state s t x l' q')) u = base_of (tcbs (virt s t x None)) u) as ->.
  { unfold base_of. rewrite Hyv. simpl. by rewrite lookup_insert_ne, Hy. }
  destruct Hc as [Hne|Hnw].
  - eapply (is_min_remove (tcbs (virt s t x None)) _ _ _ _ _ t); [exact Hm| | |intros; by apply gone_prio].
    + rewrite <- (gone_prio s t x l' q') by done. unfold prio_of. simpl. by rewrite lookup_insert_eq.
    + intros w. apply waits_purged.
  - eapply is_min_ext; [exact Hm| |intros; by apply gone_prio]. intros w. rewrite waits_purged. naive_solver.
Qed.

Lemma frame_gone s A t x l' q' :
  kgood (virt s t x None) A -> tcbs s !! t = Some x ->
  tick_pos (gone_state s t x l' q') (purged t A) /\ obj_inv None (gone_state s t x l' q') (purged t A).
Proof.
  intros [_ _ HT _ HO] Ht. split.
  - intros u Hu. unfold purged in Hu. apply elem_of_lrm in Hu as [Hne Hu]. specialize (HT u Hu). simpl in *.
    by rewrite tick_rest_insert_ne in * by done.
  - eapply obj_inv_sub; [exact HO|done| |].
    + intros o u. unfold purged. rewrite elem_of_lrm. tauto.
    + intros u z Hz. simpl in *. destruct (decide (u = t)) as [->|].
      * rewrite lookup_insert_eq in Hz. injection Hz as <-. eexists. by rewrite lookup_insert_eq.
      * rewrite lookup_insert_ne in Hz by done. exists z. by rewrite lookup_insert_ne.
Qed.

(** A task that waited for nothing is gone. *)
Lemma kgood_gone s A t x l' q' :
  kgood (virt s t x None) A -> tcbs s !! t = Some x -> live (task_state x) = true -> pended (task_state x) = false ->
  prio x <> RHINO_IDLE_PRI -> 0 <= b_prio x < RHINO_CONFIG_PRI_MAX -> b_prio x <> RHINO_IDLE_PRI ->
  srep l' q' (blks (ob s)) (purged t A) -> kgood (gone_state s t x l' q') (purged t A).
Proof.
  intros HK Ht Hl Hp Hi Hb Hbi Hr. pose proof (kinv_unvirt _ _ _ _ _ (kg_inv _ _ HK) Ht) as HI.
  destruct (frame_gone s A t x l' q' HK Ht) as [HT' HO'].
  destruct HK as [_ HG _ (C & HM & HP) _]. split; [by apply gone_kinv|done|done| |done].
  exists C. split; [by apply minv_gone|]. intros u y Hy Hly. apply (pinv_gone s A C t x); try done. right.
  intros (m & _ & Hin). apply (kinv_in _ _ _ _ (LBlk m) HI Ht) in Hin as [E _]. congruence.
Qed.

(** A task that waited is gone, and the owner of the mutex it waited for has
    its priority recomputed. *)
Lemma wp_gone_reset s A t x o l' q' (Q : unit -> kstate -> Prop) :
  kgood (virt s t x None) A -> tcbs s !! t = Some x -> pended (task_state x) = true -> task_blk_obj x = Some o ->
  prio x <> RHINO_IDLE_PRI -> 0 <= b_prio x < RHINO_CONFIG_PRI_MAX -> b_prio x <> RHINO_IDLE_PRI ->
  srep l' q' (blks (ob s)) (purged t A) ->
  (forall l2 q2 tc2 A2, kgood (retask l2 q2 tc2 (gone_state s t x l' q')) A2 -> requeued (purged t A) A2 ->
     prio_only (tcbs (gone_state s t x l' q')) tc2 -> Q tt (retask l2 q2 tc2 (gone_state s t x l' q'))) ->
  wp (mutex_task_pri_reset t) Q (gone_state s t x l' q').
Proof.
  intros HK Ht Hp Ho Hi Hb Hbi Hr HQ. pose proof (kinv_unvirt _ _ _ _ _ (kg_inv _ _ HK) Ht) as HI.
  assert (Hl : live (task_state x) = true) by by destruct (task_state x).
  destruct (frame_gone s A t x l' q' HK Ht) as [HT' HO']. destruct HK as [_ HG _ (C & HM & HP) _].
  set (s1 := gone_state s t x l' q') in *.
  assert (Ht1 : tcbs s1 !! t = Some (gone x)) by apply lookup_insert_eq.
  destruct (ok_blk _ _ (ki_task _ _ HI _ _ Ht) Hp) as (o' & Ho' & Hs). simplify_eq.
  assert (Hw : forall u, o ∉ C u -> ~ waits A C u t).
  { intros u Hu (m & Hm & Hin). apply (kinv_in _ _ _ _ (LBlk m) HI Ht) in Hin as [_ E]. congruence. }
  eapply (wp_mutex_task_pri_reset s1 (purged t A) C t (gone x) o); [by apply gone_kinv|by apply minv_gone|done|done|done| | | |].
  - intros Hm. apply (mi_wait _ _ _ HM t (hollow None x) o (lookup_insert_eq _ _ _) Hp Ho Hm). done.
  - intros u Hu y Hy Hly. apply (pinv_gone s A C t x); try done. right. by apply Hw.
  - intros u y Hu Hy Hly Hne. rewrite <- (base_of_lookup _ _ _ Hy). apply (pinv_gone s A C t x); try done. by left.
  - intros l2 q2 tc2 A2 s2 HI2 Hrq HM2 HP2 Hpo. apply (HQ l2 q2 tc2 A2); [|done|done].
    split; [done|done|by eapply (tick_pos_reprio l2 q2 tc2 s1)| |by eapply (obj_inv_reprio None l2 q2 tc2 s1)].
    exists C. split; [done|]. intros u y Hy Hly. specialize (HP2 u y Hy Hly).
    assert (base_of tc2 u = base_of (tcbs s1) u) as E; [|simpl; by rewrite E].
    unfold base_of. rewrite (Hpo u). by destruct (tcbs s1 !! u).
Qed.
End Gone.

(** ** The call *)

Section TaskDel.
Implicit Types (s : kstate) (A : queues) (t u : tid) (x y : ktask_t) (m o : oid) (ms : list oid).

(** The task is in no list and owns nothing; each mutex it held belongs to
    the task that waited first for it. *)
Definition task_deleted s s' A A' t x : Prop :=
  (exists y, tcbs s' !! t = Some y /\ task_state y = K_DELETED) /\ (forall i, t ∉ A' i) /\
  (forall m v, is_mutex (ob s') m -> mutexes (ob s') !! m = Some v -> mutex_task v <> Some t) /\
  (exists ms, mchain (mutexes (ob s)) (task_mutex_list x) ms /\
     forall m, m ∈ ms -> exists v, mutexes (ob s') !! m = Some v /\ mutex_task v = head (A (LBlk m))) /\
  exists top, top_ready A' top /\ gl s' = resched top (gl s).

Lemma deleted_nowhere s A t y : kinv s A -> tcbs s !! t = Some y -> task_state y = K_DELETED -> forall i, t ∉ A i.
Proof.
  intros HI Hy Hs i Hin. apply (kinv_in _ _ _ _ i HI Hy) in Hin.
  destruct i; simpl in Hin; rewrite ?Hs in Hin; try naive_solver.
  destruct (ok_tick _ _ (ki_task _ _ HI _ _ Hy)) as [E|E]; [done|..]; by rewrite Hs in E.
Qed.

Lemma deleted_owns_nothing s A t y m v :
  kgood s A -> tcbs s !! t = Some y -> task_state y = K_DELETED -> is_mutex (ob s) m -> mutexes (ob s) !! m = Some v ->
  mutex_task v <> Some t.
Proof.
  intros [_ _ _ (C & HM & _) _] Hy Hs Hm Hv Ho.
  destruct (mi_owner _ _ _ HM t m) as (z & Hz & Hl & _); [apply (mi_own _ _ _ HM); by split_and!; [| |exists v]|].
  simplify_eq. by rewrite Hs in Hl.
Qed.

(** The end of the call, from the state [s2] without the task. *)
Lemma wp_del_exit s A s1 A1 s2 A2 t x ms (Q : kstat_t -> kstate -> Prop) :
  let s0 := with_gl (set_primask true (gl s)) s in
  kwf s A -> (g_active_task (gl s) = Some t -> g_sched_lock (gl s) = 0) ->
  mchain (mutexes (ob s)) (task_mutex_list x) ms -> freed_all s0 s1 A A1 t x ms ->
  kgood s2 A2 -> gl s2 = gl s1 -> ob s2 = ob s1 -> (exists y, tcbs s2 !! t = Some y /\ task_state y = K_DELETED) ->
  (forall u y, u <> t -> tcbs s1 !! u = Some y -> exists z, tcbs s2 !! u = Some z /\ task_state z = task_state y) ->
  (forall s' A', kwf s' A' -> task_deleted s s' A A' t x -> Q RHINO_SUCCESS s') ->
  wp (critical_exit_sched false ;; ret RHINO_SUCCESS) Q s2.
Proof.
  intros s0 HW Hlk Hch HF HK2 Eg Eo (y & Hy & Hys) Hot HQ.
  assert (gl s2 = gl s0) as E2 by (rewrite Eg; apply HF).
  apply (wp_exit_resched A2); [done| |].
  - rewrite E2. intros Hl. simpl in Hl. destruct (kw_active _ _ HW) as (a & z & Ha & Hz & Hr); [by left|].
    assert (a <> t) as Hat by (intros ->; specialize (Hlk Ha); lia).
    destruct (Hot a z Hat) as (z2 & Hz2 & E); [apply (fa_other _ _ _ _ _ _ _ HF); [done|by rewrite Hr]|].
    exists a, z2. rewrite E2. split_and!; [done|done|congruence].
  - intros top Htop HW'. eapply HQ; [exact HW'|]. pose proof (kg_inv _ _ HK2) as HI2. split_and!.
    + by exists y.
    + by apply (deleted_nowhere s2 A2 t y).
    + intros m v Hm Hv. by apply (deleted_owns_nothing s2 A2 t y m v).
    + exists ms. split; [done|]. intros m Hm. simpl. rewrite Eo. by apply (fa_mutex _ _ _ _ _ _ _ HF).
    + exists top. split; [done|]. simpl. rewrite E2. apply resched_unmask.
Qed.

Lemma purged_id s A t x i : kinv s A -> tcbs s !! t = Some x -> ~ in_list x i -> purged t A i = A i.
Proof. intros HI Ht Hn. apply lrm_id. by rewrite (kinv_in _ _ _ _ i HI Ht). Qed.

Lemma gone_no_tick x : tick_head x = None -> set_task_state K_DELETED x = gone x.
Proof. intros E. destruct x. simpl in *. by subst. Qed.

(** Leaving the ready list. *)
Lemma wp_gone_ready s A t x (Q : unit -> kstate -> Prop) :
  kinv s A -> tcbs s !! t = Some x -> task_state x = K_RDY -> prio x <> RHINO_IDLE_PRI ->
  (forall l' q', srep l' q' (blks (ob s)) (purged t A) -> Q tt (gone_state s t x l' q')) ->
  wp (ready_list_rm t ;; task_upd t (set_task_state K_DELETED)) Q s.
Proof.
  intros HI Ht Es Hi HQ. assert (Hth : tick_head x = None) by by eapply ready_no_tick.
  destruct (kinv_split _ _ _ _ (LReady (prio x)) HI Ht) as (a & b & Hab & Hlr); [by split|].
  apply wp_bind. eapply (wp_ready_list_rm (blks (ob s)) A t x a b); [apply HI|done|exact (ok_prio _ _ (ki_task _ _ HI _ _ Ht))|done| |].
  { rewrite <- Hlr. by eapply kinv_idle_rest. }
  intros l' q' Hs'. rewrite <- Hlr in Hs'. apply (wp_task_upd _ x); [done|]. rewrite gone_no_tick by done.
  apply (HQ l' q'). eapply srep_ext; [exact Hs'|]. intros i. rewrite q_insert. case_decide as E; [by subst i|].
  eapply purged_id; [done|done|]. destruct i; simpl; rewrite ?Es; naive_solver.
Qed.

(** Leaving nothing. *)
Lemma wp_gone_suspended s A t x (Q : unit -> kstate -> Prop) :
  kinv s A -> tcbs s !! t = Some x -> task_state x = K_SUSPENDED ->
  (forall l' q', srep l' q' (blks (ob s)) (purged t A) -> Q tt (gone_state s t x l' q')) ->
  wp (task_upd t (set_task_state K_DELETED)) Q s.
Proof.
  intros HI Ht Es HQ. pose proof (ok_tick _ _ (ki_task _ _ HI _ _ Ht)) as K3. rewrite Es in K3.
  assert (Hth : tick_head x = None) by (destruct (tick_head x); [|done]; by destruct K3).
  apply (wp_task_upd _ x); [done|]. rewrite gone_no_tick by done. apply (HQ (lm s) (rq s)).
  eapply srep_ext; [apply HI|]. intros i. eapply purged_id; [exact HI|done|]. destruct i; simpl; rewrite ?Es; naive_solver.
Qed.

(** Leaving the tick list, then the rest. *)
Lemma wp_gone_tick s A t x (k : M unit) (Q : unit -> kstate -> Prop) :
  kinv s A -> tcbs s !! t = Some x ->
  (forall l', rings l' (nodes (blks (ob s)) (<[LTick := lrm t (A LTick)]> A)) ->
     wp k Q (with_ltc l' (<[t := set_tick_head None x]> (tcbs s)) s)) ->
  wp (tick_list_rm t ;; k) Q s.
Proof.
  intros HI Ht HQ. apply wp_bind. eapply (wp_tick_list_rm (blks (ob s)) A t x); [apply HI|done|by apply (kinv_in _ _ _ _ LTick HI Ht)|].
  exact HQ.
Qed.

Lemma srep_purged s A t l' A' :
  kinv s A -> rings l' (nodes (blks (ob s)) A') -> (forall i, purged t A i = A' i) ->
  (forall p, A' (LReady p) = A (LReady p)) -> srep l' (rq s) (blks (ob s)) (purged t A).
Proof.
  intros HI Hr He Hp. split; [eapply rings_ext; [exact Hr|]|eapply rq_rep_ext; [apply (srep_rq _ _ _ _ (ki_rep _ _ HI))|]].
  - intros i. unfold nodes. by rewrite He.
  - intros p. by rewrite He.
Qed.

Lemma wp_gone_sleeping s A t x (Q : unit -> kstate -> Prop) :
  kinv s A -> tcbs s !! t = Some x -> sleeping (task_state x) = true ->
  (forall l' q', srep l' q' (blks (ob s)) (purged t A) -> Q tt (gone_state s t x l' q')) ->
  wp (tick_list_rm t ;; task_upd t (set_task_state K_DELETED)) Q s.
Proof.
  intros HI Ht Es HQ. apply (wp_gone_tick s A t x); [done..|]. intros l1 Hr1.
  apply (wp_task_upd _ (set_tick_head None x)); [apply lookup_insert_eq|].
  unfold with_tc, with_ltc. simpl. rewrite insert_insert_eq. apply (HQ l1 (rq s)).
  eapply srep_purged; [done|exact Hr1| |]; intros i; rewrite q_insert; case_decide as E; subst; try done.
  eapply purged_id; [done|done|]. destruct i; simpl; destruct (task_state x); naive_solver.
Qed.

Lemma wp_gone_pended s A t x (Q : unit -> kstate -> Prop) :
  kinv s A -> tcbs s !! t = Some x -> pended (task_state x) = true ->
  (forall l' q', srep l' q' (blks (ob s)) (purged t A) -> Q tt (gone_state s t x l' q')) ->
  wp (tick_list_rm t ;; klist_rm (NTask t) ;; task_upd t (set_task_state K_DELETED)) Q s.
Proof.
  intros HI Ht Es HQ. apply (wp_gone_tick s A t x); [done..|]. intros l1 Hr1.
  destruct (ok_blk _ _ (ki_task _ _ HI _ _ Ht) Es) as (o & Ho & Hs).
  destruct (kinv_split _ _ _ _ (LBlk o) HI Ht) as (a & b & Hab & Hlr); [by split|].
  apply wp_bind. eapply (wp_task_rm (blks (ob s)) _ (LBlk o) a t b); [exact Hr1|by rewrite q_insert, decide_False|].
  intros l2 Hr2. apply (wp_task_upd _ (set_tick_head None x)); [apply lookup_insert_eq|].
  unfold with_tc, with_ltc, with_lm. simpl. rewrite insert_insert_eq. apply (HQ l2 (rq s)).
  eapply srep_purged; [done|exact Hr2| |]; intros i; rewrite !q_insert; repeat case_decide; subst; try done.
  eapply purged_id; [done|done|]. destruct i; simpl; destruct (task_state x); naive_solver.
Qed.

Lemma wp_assoc2 {R : Type} (m1 m2 : M unit) (k : M R) (Q : R -> kstate -> Prop) s :
  wp ((m1 ;; m2) ;; k) Q s -> wp (m1 ;; m2 ;; k) Q s.
Proof. apply wp_assoc. Qed.

Lemma wp_assoc3 {R : Type} (m1 m2 m3 : M unit) (k : M R) (Q : R -> kstate -> Prop) s :
  wp ((m1 ;; m2 ;; m3) ;; k) Q s -> wp (m1 ;; m2 ;; m3 ;; k) Q s.
Proof.
  unfold wp, bind. destruct (m1 s) as [[[] s1]|]; [|done]. by destruct (m2 s1) as [[[] s2]|].
Qed.

(** The part of the call after the mutexes were handed over. *)
Lemma wp_del_body s A s1 A1 t x ms (Q : kstat_t -> kstate -> Prop) :
  kwf s A -> (g_active_task (gl s) = Some t -> g_sched_lock (gl s) = 0) -> live (task_state x) = true ->
  prio x <> RHINO_IDLE_PRI -> 0 <= b_prio x < RHINO_CONFIG_PRI_MAX -> b_prio x <> RHINO_IDLE_PRI ->
  mchain (mutexes (ob s)) (task_mutex_list x) ms -> freed_all (with_gl (set_primask true (gl s)) s) s1 A A1 t x ms ->
  (forall s' A', kwf s' A' -> task_deleted s s' A A' t x -> Q RHINO_SUCCESS s') ->
  wp (match task_state x with
      | K_RDY =>
          ready_list_rm t ;; task_upd t (set_task_state K_DELETED) ;; critical_exit_sched false ;; ret RHINO_SUCCESS
      | K_SUSPENDED =>
          task_upd t (set_task_state K_DELETED) ;; critical_exit_sched false ;; ret RHINO_SUCCESS
      | K_SLEEP | K_SLEEP_SUSPENDED =>
          tick_list_rm t ;; task_upd t (set_task_state K_DELETED) ;; critical_exit_sched false ;; ret RHINO_SUCCESS
      | K_PEND | K_PEND_SUSPENDED =>
          tick_list_rm t ;; klist_rm (NTask t) ;; task_upd t (set_task_state K_DELETED) ;; mutex_task_pri_reset t ;;
          critical_exit_sched false ;; ret RHINO_SUCCESS
      | K_SEED | K_DELETED => critical_exit false ;; ret RHINO_INV_TASK_STATE
      end) Q s1.
Proof.
  intros HW Hact Hl Hi Hb Hbi Hch HF HQ. pose proof (fa_task _ _ _ _ _ _ _ HF) as Ht1.
  pose proof (fa_good _ _ _ _ _ _ _ HF) as HV. pose proof (kinv_unvirt _ _ _ _ _ (kg_inv _ _ HV) Ht1) as HI1.
  assert (Hend : forall s2 A2, kgood s2 A2 -> gl s2 = gl s1 -> ob s2 = ob s1 ->
    prio_only (<[t := gone x]> (tcbs s1)) (tcbs s2) ->
    wp (critical_exit_sched false ;; ret RHINO_SUCCESS) Q s2).
  { intros s2 A2 HK2 Eg Eo Hpo. eapply (wp_del_exit s A s1 A1 s2 A2 t x ms); try done.
    - rewrite (Hpo t), lookup_insert_eq. by eexists.
    - intros u y Hu Hy. rewrite (Hpo u), lookup_insert_ne, Hy by done. by eexists. }
  assert (Hgone : pended (task_state x) = false -> forall l' q', srep l' q' (blks (ob s1)) (purged t A1) ->
    wp (critical_exit_sched false ;; ret RHINO_SUCCESS) Q (gone_state s1 t x l' q')).
  { intros Hnp l' q' Hr. apply (Hend _ (purged t A1)); [by apply kgood_gone|done|done|apply prio_only_refl]. }
  assert (Hreset : pended (task_state x) = true -> forall l' q', srep l' q' (blks (ob s1)) (purged t A1) ->
    wp (mutex_task_pri_reset t ;; critical_exit_sched false ;; ret RHINO_SUCCESS) Q (gone_state s1 t x l' q')).
  { intros Hp l' q' Hr. destruct (ok_blk _ _ (ki_task _ _ HI1 _ _ Ht1) Hp) as (o & Ho & _).
    apply wp_bind, (wp_gone_reset s1 A1 t x o l' q'); try done. intros l2 q2 tc2 A2 HK2 Hrq Hpo.
    by apply (Hend _ A2). }
  destruct (task_state x) eqn:Es; try done.
  - apply wp_assoc2, wp_bind, (wp_gone_ready s1 A1 t x); auto.
  - apply wp_assoc3, wp_bind, (wp_gone_pended s1 A1 t x); rewrite ?Es; auto.
  - apply wp_bind, (wp_gone_suspended s1 A1 t x); auto.
  - apply wp_assoc3, wp_bind, (wp_gone_pended s1 A1 t x); rewrite ?Es; auto.
  - apply wp_assoc2, wp_bind, (wp_gone_sleeping s1 A1 t x); rewrite ?Es; auto.
  - apply wp_assoc2, wp_bind, (wp_gone_sleeping s1 A1 t x); rewrite ?Es; auto.
Qed.

Lemma wp_task_del s A t x (Q : kstat_t -> kstate -> Prop) :
  kwf s A -> tcbs s !! t = Some x -> live (task_state x) = true -> prio x <> RHINO_IDLE_PRI ->
  (0 < g_intrpt_nested_level (gl s) -> Q RHINO_NOT_CALLED_BY_INTRPT s) ->
  (g_intrpt_nested_level (gl s) = 0 -> task_mm_alloc_flag x <> K_OBJ_STATIC_ALLOC -> Q RHINO_KOBJ_DEL_ERR s) ->
  (g_intrpt_nested_level (gl s) = 0 -> g_active_task (gl s) = Some t -> 0 < g_sched_lock (gl s) -> Q RHINO_SCHED_DISABLE s) ->
  (forall s' A', g_intrpt_nested_level (gl s) = 0 -> kwf s' A' -> task_deleted s s' A A' t x -> Q RHINO_SUCCESS s') ->
  wp (krhino_task_del (Some t)) Q s.
Proof.
  intros HW Ht Hl Hi Q1 Q2 Q3 Q4. pose proof (kg_gl _ _ (kw_good _ _ HW)) as [Hn Hlk _ _ _].
  unfold krhino_task_del. apply wp_bind, (wp_kwf_enter A); [done|]. wsteps. simpl.
  destruct (Z.ltb_spec 0 (g_intrpt_nested_level (gl s))) as [Hin|Hin]; [apply (wp_exit_ret A); auto|].
  assert (E0 : g_intrpt_nested_level (gl s) = 0) by lia. wsteps.
  apply (wp_task_get _ x); [done|]. rewrite (proj2 (Z.eqb_neq (prio x) _)) by done.
  destruct (Z.eqb_spec (task_mm_alloc_flag x) K_OBJ_STATIC_ALLOC) as [Ef|Ef]; cbn [negb]; [|apply (wp_exit_ret A); auto].
  destruct (_ && _) eqn:Ea.
  { apply andb_true_iff in Ea as [E1%bool_decide_eq_true E2%Z.ltb_lt]. apply (wp_exit_ret A); auto. }
  assert (Hact : g_active_task (gl s) = Some t -> g_sched_lock (gl s) = 0).
  { intros E. rewrite E, bool_decide_true in Ea by done. apply Z.ltb_ge in Ea. lia. }
  pose proof (kwf_enter _ _ HW) as HK. set (s0 := with_gl (set_primask true (gl s)) s) in *.
  destruct (kg_mutex _ _ HK) as (C0 & HM0 & _). destruct (mi_prio _ _ _ HM0 t x Ht) as (Hb & Hbi & _).
  apply wp_bind, (wp_task_mutex_free s0 A t x); [done..|]. intros s1 A1 ms Hch HF.
  apply wp_bind, (wp_task_get _ x); [apply HF|]. eapply (wp_del_body s A s1 A1 t x ms); eauto. tauto.
Qed.
End TaskDel.
