(* ===== verification/Timer.v ===== *)
(** * Software timers (k_timer.c)

    Timers live in a list of their own, [g_timer_head], that only the timer
    task touches; the interface functions send it commands through the
    buffer queue [g_timer_queue].  Here: the timers, the list and the code of
    the timer task.  [TimerApi] connects it with the kernel.

    The timer task is a coroutine.  Between two calls that can block it runs
    one of three pieces of code: what follows a receive without time limit,
    the inner loop, and what follows a receive with a time limit. *)

From stdpp Require Import functions.
From S2P Require Import Prelude.
From S2P Require Import Monad.
From S2P Require Import Links.
From S2P Require Import KState.

(** ** Data (k_timer.h) *)

(** The address of a [klist_t]: of a timer, or of [g_timer_head]. *)
Inductive tnode := NTimer (t : nat) | NTimerHead.

#[export] Instance tnode_eq_dec : EqDecision tnode.
Proof. solve_decision. Defined.

#[export] Instance tnode_countable : Countable tnode.
Proof.
  refine (inj_countable' (fun n => match n with NTimer t => Some t | NTimerHead => None end)
    (fun o => match o with Some t => NTimer t | None => NTimerHead end) _).
  by intros [].
Defined.

Inductive k_timer_state_t := TIMER_DEACTIVE | TIMER_ACTIVE.

#[export] Instance k_timer_state_t_eq_dec : EqDecision k_timer_state_t.
Proof. solve_decision. Defined.

(** Times are [sys_time_t], 64 bits wide; [timer_cb] is the address of the
    callback. *)
Record ktimer_t := mkTimer {
  to_head : option tnode;
  timer_cb : nat;
  timer_cb_arg : Z;
  tm_match : Z;
  tm_remain : Z;
  init_count : Z;
  round_ticks : Z;
  timer_obj_type : kobj_type_t;
  timer_state : k_timer_state_t;
  timer_mm_alloc_flag : Z;
}.

Definition ktimer_eta (x : ktimer_t) : ktimer_t :=
  mkTimer (to_head x) (timer_cb x) (timer_cb_arg x) (tm_match x) (tm_remain x) (init_count x)
    (round_ticks x) (timer_obj_type x) (timer_state x) (timer_mm_alloc_flag x).

Definition set_to_head : option tnode -> ktimer_t -> ktimer_t := ltac:(field_setter ktimer_eta to_head).
Definition set_timer_cb_arg : Z -> ktimer_t -> ktimer_t := ltac:(field_setter ktimer_eta timer_cb_arg).
Definition set_tm_match : Z -> ktimer_t -> ktimer_t := ltac:(field_setter ktimer_eta tm_match).
Definition set_tm_remain : Z -> ktimer_t -> ktimer_t := ltac:(field_setter ktimer_eta tm_remain).
Definition set_init_count : Z -> ktimer_t -> ktimer_t := ltac:(field_setter ktimer_eta init_count).
Definition set_round_ticks : Z -> ktimer_t -> ktimer_t := ltac:(field_setter ktimer_eta round_ticks).
Definition set_timer_obj_type : kobj_type_t -> ktimer_t -> ktimer_t := ltac:(field_setter ktimer_eta timer_obj_type).
Definition set_timer_state : k_timer_state_t -> ktimer_t -> ktimer_t := ltac:(field_setter ktimer_eta timer_state).

Definition TIMER_CMD_START : Z := 1.
Definition TIMER_CMD_STOP : Z := 2.
Definition TIMER_CMD_CHG : Z := 3.
Definition TIMER_ARG_CHG : Z := 4.
Definition TIMER_ARG_CHG_AUTO : Z := 5.
Definition TIMER_CMD_DEL : Z := 6.
Definition MAX_TIMER_TICKS : Z := Z.shiftr (2 ^ 64 - 1) 1.

(** A command.  [u_round] and [u_arg] are the two readings of the union. *)
Record k_timer_queue_cb := mkCb {
  cb_timer : nat;
  cb_num : Z;
  cb_first : Z;
  u_round : Z;
  u_arg : Z;
}.

(** A callback that was run: [cb(timer, arg)], with the time the timer was set
    for and the time of the timer task's clock. *)
Record timer_run := mkRun {
  run_timer : nat;
  run_cb : nat;
  run_arg : Z;
  run_due : Z;
  run_time : Z;
}.

Definition run_of (c : Z) (t : nat) (x : ktimer_t) : timer_run :=
  mkRun t (timer_cb x) (timer_cb_arg x) (tm_match x) c.

(** [calls] is the sequence of callbacks run so far. *)
Record tstate := mkT {
  t_links : links tnode;
  timers : gmap nat ktimer_t;
  g_timer_count : Z;
  calls : list timer_run;
}.

Definition with_t_links (l : links tnode) (s : tstate) : tstate :=
  mkT l (timers s) (g_timer_count s) (calls s).

#[export] Instance tstate_links : HasLinks tstate tnode :=
  mkHasLinks tstate tnode _ _ t_links with_t_links (fun _ _ => eq_refl) (fun _ _ _ => eq_refl).

Definition timer_get (t : nat) : st tstate ktimer_t := m <- gets timers ;; lift (m !! t).
Definition set_timers (m : gmap nat ktimer_t) (s : tstate) : tstate :=
  mkT (t_links s) m (g_timer_count s) (calls s).
Definition timer_upd (t : nat) (f : ktimer_t -> ktimer_t) : st tstate unit :=
  x <- timer_get t ;; modify (fun s => set_timers (<[t := f x]> (timers s)) s).
Definition set_timer_count (c : Z) (s : tstate) : tstate := mkT (t_links s) (timers s) c (calls s).
Definition timer_call (t : nat) (x : ktimer_t) : st tstate unit :=
  modify (fun s => mkT (t_links s) (timers s) (g_timer_count s) (calls s ++ [run_of (g_timer_count s) t x])).
(** [k_err_proc], which does not return. *)
Definition timer_err (e : kstat_t) : st tstate unit := hang.

(** [krhino_list_entry(q, ktimer_t, timer_list)] *)
Definition timer_of (n : tnode) : st tstate nat :=
  match n with NTimer t => ret t | NTimerHead => fault end.

(** ** The timer list *)

(** The comparison of the insertion loop is unsigned. *)
Definition later_than (val : Z) (q : tnode) : st tstate bool :=
  u <- timer_of q ;;
  y <- timer_get u ;;
  c <- gets g_timer_count ;;
  ret (val <? u64 (tm_match y - c)).

Definition timer_list_pri_insert (head : tnode) (t : nat) : st tstate unit :=
  x <- timer_get t ;;
  q <- (fuel <- list_fuel ;; q <- get_next head ;; klist_scan fuel (later_than (tm_remain x)) q head) ;;
  klist_insert q (NTimer t).

Definition timer_list_rm (t : nat) : st tstate unit :=
  x <- timer_get t ;;
  match to_head x with
  | None => ret tt
  | Some _ => klist_rm (NTimer t) ;; timer_upd t (set_to_head None)
  end.

(** ** Running the timers that are due *)

(** The body of the loop for a timer that is due. *)
Definition timer_fire (t : nat) : st tstate unit :=
  x <- timer_get t ;;
  timer_call t x ;;
  timer_list_rm t ;;
  x <- timer_get t ;;
  if 0 <? round_ticks x then
    timer_upd t (fun x => set_tm_remain (round_ticks x) x) ;;
    c <- gets g_timer_count ;;
    timer_upd t (fun x => set_tm_match (u64 (c + tm_remain x)) x) ;;
    timer_upd t (set_to_head (Some NTimerHead)) ;;
    timer_list_pri_insert NTimerHead t
  else timer_upd t (set_timer_state TIMER_DEACTIVE).

Fixpoint timer_cb_loop (fuel : nat) (q : tnode) : st tstate unit :=
  match fuel with
  | O => fault
  | S n =>
      if bool_decide (q = NTimerHead) then ret tt
      else
        t <- timer_of q ;;
        x <- timer_get t ;;
        c <- gets g_timer_count ;;
        let delta := i64 (i64 (tm_match x) - i64 c) in
        if delta <=? 0 then
          timer_fire t ;;
          q' <- get_next q ;;
          timer_cb_loop n q'
        else ret tt
  end.

Definition timer_cb_proc : st tstate unit :=
  fuel <- list_fuel ;;
  q <- get_next NTimerHead ;;
  timer_cb_loop fuel q.

(** ** Commands *)

Definition cmd_proc (cb : k_timer_queue_cb) (cmd : Z) : st tstate unit :=
  let t := cb_timer cb in
  if cmd =? TIMER_CMD_START then
    x <- timer_get t ;;
    if negb (bool_decide (timer_obj_type x = RHINO_TIMER_OBJ_TYPE)) then ret tt
    else if bool_decide (timer_state x = TIMER_ACTIVE) then ret tt
    else
      c <- gets g_timer_count ;;
      timer_upd t (set_tm_match (u64 (c + init_count x))) ;;
      timer_upd t (fun x => set_tm_remain (init_count x) x) ;;
      timer_upd t (set_to_head (Some NTimerHead)) ;;
      timer_list_pri_insert NTimerHead t ;;
      timer_upd t (set_timer_state TIMER_ACTIVE)
  else if cmd =? TIMER_CMD_STOP then
    x <- timer_get t ;;
    if negb (bool_decide (timer_obj_type x = RHINO_TIMER_OBJ_TYPE)) then ret tt
    else if bool_decide (timer_state x = TIMER_DEACTIVE) then ret tt
    else
      timer_list_rm t ;;
      timer_upd t (set_timer_state TIMER_DEACTIVE)
  else if cmd =? TIMER_CMD_CHG then
    if cb_first cb =? 0 then ret tt
    else
      x <- timer_get t ;;
      if negb (bool_decide (timer_obj_type x = RHINO_TIMER_OBJ_TYPE)) then ret tt
      else if negb (bool_decide (timer_state x = TIMER_DEACTIVE)) then ret tt
      else
        timer_upd t (set_init_count (cb_first cb)) ;;
        timer_upd t (set_round_ticks (u_round cb))
  else if cmd =? TIMER_ARG_CHG then
    x <- timer_get t ;;
    if negb (bool_decide (timer_obj_type x = RHINO_TIMER_OBJ_TYPE)) then ret tt
    else if negb (bool_decide (timer_state x = TIMER_DEACTIVE)) then ret tt
    else timer_upd t (set_timer_cb_arg (u_arg cb))
  else if cmd =? TIMER_CMD_DEL then
    x <- timer_get t ;;
    if negb (bool_decide (timer_obj_type x = RHINO_TIMER_OBJ_TYPE)) then ret tt
    else if negb (bool_decide (timer_state x = TIMER_DEACTIVE)) then ret tt
    else if negb (timer_mm_alloc_flag x =? K_OBJ_STATIC_ALLOC) then ret tt
    else timer_upd t (set_timer_obj_type RHINO_OBJ_TYPE_NONE)
  else timer_err RHINO_SYS_FATAL_ERR.

Definition timer_cmd_proc (cb : k_timer_queue_cb) : st tstate unit :=
  if cb_num cb =? TIMER_ARG_CHG_AUTO then
    cmd_proc cb TIMER_CMD_STOP ;;
    cmd_proc cb TIMER_ARG_CHG ;;
    cmd_proc cb TIMER_CMD_START
  else cmd_proc cb (cb_num cb).

(** ** The timer task *)

(** Where the timer task is: in [krhino_buf_queue_recv] without or with a
    time limit, or at the head of its inner loop. *)
Inductive timer_pc := AtRecv | AtRecvFor (delta : Z) | AtLoop.

(** After the receive of the outer loop: [err] is its result, [cb] what is in
    [cb_msg] and [tick_end] the clock. *)
Definition timer_task_received (err : kstat_t) (cb : k_timer_queue_cb) (tick_end : Z) : st tstate timer_pc :=
  (if bool_decide (err = RHINO_SUCCESS) then modify (set_timer_count tick_end)
   else timer_err RHINO_SYS_FATAL_ERR) ;;
  timer_cmd_proc cb ;;
  ret AtLoop.

(** One pass of the inner loop up to its receive, or to its end when it does
    not wait; [tick_start] is the clock. *)
Definition timer_task_loop (tick_start : Z) : st tstate timer_pc :=
  e <- is_klist_empty NTimerHead ;;
  if e : bool then ret AtRecv
  else
    n <- get_next NTimerHead ;;
    t <- timer_of n ;;
    x <- timer_get t ;;
    let delta := i64 (i64 (tm_match x) - i64 tick_start) in
    if 0 <? delta then ret (AtRecvFor delta)
    else
      modify (set_timer_count tick_start) ;;
      timer_cb_proc ;;
      ret AtLoop.

(** After the receive of the inner loop. *)
Definition timer_task_timed (err : kstat_t) (cb : k_timer_queue_cb) (tick_end : Z) : st tstate timer_pc :=
  (if bool_decide (err = RHINO_BLK_TIMEOUT) then modify (set_timer_count tick_end)
   else if bool_decide (err = RHINO_SUCCESS) then
     modify (set_timer_count tick_end) ;;
     timer_cmd_proc cb
   else timer_err RHINO_SYS_FATAL_ERR) ;;
  timer_cb_proc ;;
  ret AtLoop.

(** The inner loop while it does not block; [clock] are the readings of the
    clock, one per pass. *)
Fixpoint timer_task_run (clock : list Z) : st tstate timer_pc :=
  match clock with
  | [] => ret AtLoop
  | now :: rest =>
      pc <- timer_task_loop now ;;
      match pc with AtLoop => timer_task_run rest | _ => ret pc end
  end.
