(* ===== verification/TimerInv.v ===== *)
(** * The timer list and the timer task

    [tinv s L]: the timers in the list of the timer task are those of [L], in
    this order; they are exactly the active ones.  [tsorted s L]: the list is
    ordered by the time left and no timer is overdue.  The results: every
    command and every pass over the list keeps [tinv] and ends; while no
    timer is overdue, commands keep the order and a pass runs the timers that
    are due. *)

From stdpp Require Import functions.
From S2P Require Import Prelude.
From S2P Require Import Monad.
From S2P Require Import Links.
From S2P Require Import KState.
From S2P Require Import Inv.
From S2P Require Import Timer.

(** ** Definitions *)

Section Defs.
Implicit Types (s : tstate) (L : list nat) (t : nat) (x : ktimer_t).

Definition tring L : unit -> list tnode := fun _ => NTimerHead :: (NTimer <$> L).

(** What [timer_create] checks, and that times are 64-bit values. *)
Definition timer_ok x : Prop :=
  0 < init_count x < MAX_TIMER_TICKS /\ 0 <= round_ticks x < MAX_TIMER_TICKS /\ 0 <= tm_match x < 2 ^ 64.

Record tinv s L : Prop := mkTinv {
  tv_ring : rings (t_links s) (tring L);
  tv_mem : forall t, t ∈ L <-> exists x, timers s !! t = Some x /\ to_head x <> None;
  tv_state : forall t x, timers s !! t = Some x ->
    (to_head x <> None <-> timer_state x = TIMER_ACTIVE) /\
    (timer_state x = TIMER_ACTIVE -> timer_obj_type x = RHINO_TIMER_OBJ_TYPE);
  tv_ok : forall t x, timers s !! t = Some x -> timer_ok x;
}.

(** Time left for a timer, by the timer task's clock. *)
Definition rest s t : Z := u64 (default 0 (tm_match <$> timers s !! t) - g_timer_count s).

Definition tsorted s L : Prop :=
  StronglySorted (fun u v => rest s u <= rest s v) L /\ Forall (fun t => rest s t < 2 ^ 63) L.

(** The timer is due: its time has come or is past. *)
Definition due_b s t : bool := i64 (i64 (default 0 (tm_match <$> timers s !! t)) - i64 (g_timer_count s)) <=? 0.

(** What a timer that was run at time [c] becomes. *)
Definition after_fire (c : Z) x : ktimer_t :=
  if 0 <? round_ticks x then
    set_to_head (Some NTimerHead) (set_tm_match (u64 (c + round_ticks x)) (set_tm_remain (round_ticks x) x))
  else set_timer_state TIMER_DEACTIVE (set_to_head None x).

(** The timers [D] were run, in this order, and nothing else happened. *)
Record fired s s' (D : list nat) : Prop := mkFired {
  fd_count : g_timer_count s' = g_timer_count s;
  fd_run : forall t x, t ∈ D -> timers s !! t = Some x ->
    timers s' !! t = Some (after_fire (g_timer_count s) x);
  fd_rest : forall t, t ∉ D -> timers s' !! t = timers s !! t;
  fd_calls : exists xs, Forall2 (fun t x => timers s !! t = Some x) D xs /\
    calls s' = calls s ++ zip_with (run_of (g_timer_count s)) D xs;
}.
End Defs.

(** ** Primitive steps *)

Section Steps.
Implicit Types (s : tstate) (L a b : list nat) (t : nat) (x : ktimer_t) (l : links tnode).

Lemma wp_modify (f : tstate -> tstate) Q s : Q tt (f s) -> wp (modify f) Q s.
Proof. done. Qed.

Lemma wp_timer_get t x Q s : timers s !! t = Some x -> Q x s -> wp (timer_get t) Q s.
Proof. intros. unfold timer_get. by msteps. Qed.

Lemma wp_timer_upd t x f Q s :
  timers s !! t = Some x -> Q tt (set_timers (<[t := f x]> (timers s)) s) -> wp (timer_upd t f) Q s.
Proof. intros. unfold timer_upd. apply wp_bind, (wp_timer_get _ x); done. Qed.

Lemma tring_ext l L (G : unit -> list tnode) : rings l G -> G tt = NTimerHead :: (NTimer <$> L) -> rings l (tring L).
Proof. intros HG E. eapply rings_ext; [done|]. by intros []. Qed.

Lemma tring_unlinked L t : t ∉ L -> unlinked (tring L) (NTimer t).
Proof. intros Ht []. unfold tring. rewrite not_elem_of_cons, list_elem_of_fmap. naive_solver. Qed.

Lemma tring_nodup l L : rings l (tring L) -> NoDup L.
Proof. intros HG. pose proof (rings_nodup _ _ HG tt) as H. apply NoDup_cons in H as [_ H]. by apply NoDup_fmap_1 in H. Qed.

Lemma tring_nodup_mid l a t b : rings l (tring (a ++ t :: b)) -> t ∉ a ++ b.
Proof. intros H%tring_nodup. rewrite <- Permutation_middle in H. by apply NoDup_cons in H as [? _]. Qed.

(** The node after a timer. *)
Lemma tring_next l a t b : rings l (tring (a ++ t :: b)) -> k_next l !! NTimer t = Some (hd NTimerHead (NTimer <$> b)).
Proof.
  intros HG. assert (E : tring (a ++ t :: b) tt = (NTimerHead :: (NTimer <$> a)) ++ NTimer t :: (NTimer <$> b)).
  { unfold tring. by rewrite fmap_app. }
  pose proof (rings_split_ring _ _ _ _ _ _ HG E) as Hr.
  rewrite (ring_next _ _ _ Hr). f_equal. destruct b; simpl; [by destruct a|done].
Qed.

Lemma tring_first l L : rings l (tring L) -> k_next l !! NTimerHead = Some (hd NTimerHead (NTimer <$> L)).
Proof. intros HG. by apply (ring_next _ _ _ (rings_ring _ _ HG tt)). Qed.

Lemma wp_next l n m Q s : t_links s = l -> k_next l !! n = Some m -> Q m s -> wp (get_next n) Q s.
Proof. intros <- Hn HQ. unfold get_next. by msteps. Qed.

(** Removal; the node keeps its own links. *)
Lemma wp_list_rm L a t b x Q s :
  rings (t_links s) (tring L) -> L = a ++ t :: b -> timers s !! t = Some x -> to_head x <> None ->
  (forall l', rings l' (tring (a ++ b)) -> k_next l' !! NTimer t = Some (hd NTimerHead (NTimer <$> b)) ->
     Q tt (set_timers (<[t := set_to_head None x]> (timers s)) (with_t_links l' s))) ->
  wp (timer_list_rm t) Q s.
Proof.
  intros HG -> Hx Hh HQ. unfold timer_list_rm. apply wp_bind, (wp_timer_get _ x); [done|].
  destruct (to_head x) eqn:Eh; [|done].
  assert (E : tring (a ++ t :: b) tt = (NTimerHead :: (NTimer <$> a)) ++ NTimer t :: (NTimer <$> b)).
  { unfold tring. by rewrite fmap_app. }
  pose proof (rings_split_ring _ _ _ _ _ _ HG E) as Hr.
  pose proof (ring_prev _ _ _ Hr) as Hp. pose proof (ring_next _ _ _ Hr) as Hn.
  apply wp_bind. eapply run_wp; [by apply (klist_rm_run (S := tstate))|].
  apply (wp_timer_upd _ x); [done|]. apply HQ.
  - eapply tring_ext; [apply (rings_rm _ _ tt _ _ _ HG E)|].
    rewrite fn_lookup_insert, fmap_app. done.
  - simpl. pose proof (tring_next _ _ _ _ HG) as Hn'.
    assert (List.last ((NTimer <$> b) ++ NTimerHead :: (NTimer <$> a)) (NTimer t) <> NTimer t).
    { intros El. pose proof (rings_nodup _ _ HG tt) as Hnd. rewrite E in Hnd.
      apply NoDup_app in Hnd as (_ & Hd & Hnd). apply NoDup_cons in Hnd as [Hb _].
      destruct (exists_last (l := (NTimer <$> b) ++ NTimerHead :: (NTimer <$> a))) as (r & z & Er); [by destruct b|].
      rewrite Er, List.last_last in El. subst z.
      assert (NTimer t ∈ (NTimer <$> b) ++ NTimerHead :: (NTimer <$> a)) as [|]%elem_of_app by (rewrite Er; set_solver);
        [done|]. apply (Hd (NTimer t)); set_solver. }
    by rewrite lookup_insert_ne.
Qed.

(** Sorted insertion: after the timers that have no more time left. *)
Lemma wp_list_insert L t x Q s :
  rings (t_links s) (tring L) -> t ∉ L -> timers s !! t = Some x -> (forall u, u ∈ L -> is_Some (timers s !! u)) ->
  (forall l' a b, L = a ++ b -> Forall (fun u => rest s u <= tm_remain x) a ->
     (forall u, head b = Some u -> tm_remain x < rest s u) ->
     rings l' (tring (a ++ t :: b)) -> Q tt (with_t_links l' s)) ->
  wp (timer_list_pri_insert NTimerHead t) Q s.
Proof.
  intros HG Ht Hx HL HQ. unfold timer_list_pri_insert. apply wp_bind, (wp_timer_get _ x); [done|]. apply wp_bind.
  apply (wp_scan_list (S := tstate) (tring L) tt NTimerHead (NTimer <$> L) _
    (fun n => match n with NTimer u => tm_remain x <? rest s u | NTimerHead => false end)); [done|done| |].
  - intros n (u & -> & Hu)%list_elem_of_fmap. destruct (HL u Hu) as [y Hy].
    unfold later_than, timer_get, bind, gets, ret, lift; simpl. rewrite Hy; simpl.
    unfold rest. by rewrite Hy.
  - intros m1 m2 (a & b & -> & -> & ->)%fmap_app_inv Ha Hb.
    assert (E : tring (a ++ b) tt = (NTimerHead :: (NTimer <$> a)) ++ (NTimer <$> b)) by (unfold tring; by rewrite fmap_app).
    assert (HA : Forall (fun u => rest s u <= tm_remain x) a).
    { apply Forall_forall. intros u Hu. apply Z.ltb_ge, (proj1 (Forall_forall _ _) Ha (NTimer u)), list_elem_of_fmap_2, Hu. }
    assert (HB : forall u, head b = Some u -> tm_remain x < rest s u).
    { intros u Hu. apply Z.ltb_lt, (Hb (NTimer u)). by destruct b; simplify_eq/=. }
    destruct b as [|u b]; simpl.
    + rewrite app_nil_r in *.
      apply (wp_klist_insert (S := tstate) (tring a) tt [] NTimerHead (NTimer <$> a)); [done|done|by apply tring_unlinked|].
      intros l' HG'. apply (HQ l' a []); [by rewrite app_nil_r|done|done|].
      eapply tring_ext; [apply (rings_rotate _ _ tt [NTimer t] (NTimerHead :: (NTimer <$> a)) HG'); by rewrite fn_lookup_insert|].
      rewrite fn_lookup_insert, fmap_app. done.
    + apply (wp_klist_insert (S := tstate) (tring (a ++ u :: b)) tt (NTimerHead :: (NTimer <$> a)) (NTimer u) (NTimer <$> b));
        [done|by rewrite E|by apply tring_unlinked|].
      intros l' HG'. apply (HQ l' a (u :: b)); [done..|]. eapply tring_ext; [exact HG'|].
      by rewrite fn_lookup_insert, fmap_app.
Qed.
End Steps.

(** ** The invariant *)

Section Invariant.
Implicit Types (s : tstate) (L a b D R : list nat) (t u : nat) (x y : ktimer_t) (l : links tnode).

(** One timer changes, with its place in the list. *)
Lemma tinv_upd s L l L' t y c cl :
  tinv s L -> rings l (tring L') -> (forall u, u <> t -> u ∈ L' <-> u ∈ L) -> (t ∈ L' <-> to_head y <> None) ->
  (to_head y <> None <-> timer_state y = TIMER_ACTIVE) ->
  (timer_state y = TIMER_ACTIVE -> timer_obj_type y = RHINO_TIMER_OBJ_TYPE) -> timer_ok y ->
  tinv (mkT l (<[t := y]> (timers s)) c cl) L'.
Proof.
  intros HI HG Hu Ht Hs Hty Hok. split; simpl; [done| | |].
  - intros u. destruct (decide (u = t)) as [->|Hne].
    + rewrite lookup_insert_eq. naive_solver.
    + rewrite lookup_insert_ne, Hu by done. apply HI.
  - intros u z. destruct (decide (u = t)) as [->|Hne].
    + rewrite lookup_insert_eq. by intros [= <-].
    + rewrite lookup_insert_ne by done. apply HI.
  - intros u z. destruct (decide (u = t)) as [->|Hne].
    + rewrite lookup_insert_eq. by intros [= <-].
    + rewrite lookup_insert_ne by done. apply HI.
Qed.

Lemma tinv_active s L t x : tinv s L -> timers s !! t = Some x -> t ∈ L <-> timer_state x = TIMER_ACTIVE.
Proof. intros HI Hx. rewrite (tv_mem _ _ HI). rewrite <- (proj1 (tv_state _ _ HI _ _ Hx)). naive_solver. Qed.

Lemma tinv_lookup s L t : tinv s L -> t ∈ L ->
  exists x, timers s !! t = Some x /\ to_head x <> None /\ timer_state x = TIMER_ACTIVE /\ timer_obj_type x = RHINO_TIMER_OBJ_TYPE.
Proof.
  intros HI Ht. apply (tv_mem _ _ HI) in Ht as (x & Hx & Hh). exists x. destruct (tv_state _ _ HI _ _ Hx) as [Hs Hty].
  split_and!; [done..| |]; naive_solver.
Qed.

(** *** Time left *)

Lemma max_ticks : MAX_TIMER_TICKS = 2 ^ 63 - 1.
Proof. reflexivity. Qed.

Lemma rest_range s t : 0 <= rest s t < 2 ^ 64.
Proof. by apply wrap_range. Qed.

Lemma rest_set c r : 0 <= r < 2 ^ 64 -> u64 (u64 (c + r) - c) = r.
Proof. intros Hr. unfold wrap. rewrite Zminus_mod_idemp_l, Z.add_simpl_l. by apply Z.mod_small. Qed.

Lemma due_rest s t : rest s t < 2 ^ 63 -> due_b s t = (rest s t =? 0).
Proof.
  intros Hr. pose proof (rest_range s t). unfold due_b. rewrite sign_sub by done. unfold rest in *.
  rewrite sign_small by done. destruct (Z.leb_spec (u64 (default 0 (tm_match <$> timers s !! t) - g_timer_count s)) 0);
    destruct (Z.eqb_spec (u64 (default 0 (tm_match <$> timers s !! t) - g_timer_count s)) 0); lia || done.
Qed.

Lemma due_lookup s t x : timers s !! t = Some x -> due_b s t = (i64 (i64 (tm_match x) - i64 (g_timer_count s)) <=? 0).
Proof. intros Hx. unfold due_b. by rewrite Hx. Qed.

Lemma rest_same s s' t : timers s' !! t = timers s !! t -> g_timer_count s' = g_timer_count s -> rest s' t = rest s t.
Proof. intros E1 E2. unfold rest. by rewrite E1, E2. Qed.

Lemma due_same s s' t : timers s' !! t = timers s !! t -> g_timer_count s' = g_timer_count s -> due_b s' t = due_b s t.
Proof. intros E1 E2. unfold due_b. by rewrite E1, E2. Qed.

Lemma fired_rest s s' D t : fired s s' D -> t ∉ D -> rest s' t = rest s t.
Proof. intros HF Ht. apply rest_same; [by apply (fd_rest _ _ _ HF)|apply HF]. Qed.

Lemma fired_due s s' D t : fired s s' D -> t ∉ D -> due_b s' t = due_b s t.
Proof. intros HF Ht. apply due_same; [by apply (fd_rest _ _ _ HF)|apply HF]. Qed.

(** A timer that was run again has a whole round left. *)
Lemma fired_round s s' D t x :
  fired s s' D -> t ∈ D -> timers s !! t = Some x -> timer_ok x -> 0 < round_ticks x -> rest s' t = round_ticks x.
Proof.
  intros HF Ht Hx [_ Hr] Hpos. unfold rest. rewrite (fd_run _ _ _ HF t x Ht Hx), (fd_count _ _ _ HF). simpl.
  unfold after_fire. rewrite (proj2 (Z.ltb_lt _ _) Hpos). simpl. apply rest_set. rewrite max_ticks in Hr. lia.
Qed.

Lemma fired_nil s : fired s s [].
Proof. split; try done; [set_solver|]. exists []. split; [constructor|by rewrite app_nil_r]. Qed.

Lemma fired_trans s s1 s2 D1 D2 :
  fired s s1 D1 -> fired s1 s2 D2 -> D1 ## D2 -> fired s s2 (D1 ++ D2).
Proof.
  intros H1 H2 Hd. split.
  - by rewrite (fd_count _ _ _ H2), (fd_count _ _ _ H1).
  - intros t x [Ht|Ht]%elem_of_app Hx.
    + rewrite (fd_rest _ _ _ H2) by set_solver. by apply H1.
    + rewrite <- (fd_count _ _ _ H1). apply H2; [done|]. rewrite (fd_rest _ _ _ H1) by set_solver. done.
  - intros t Ht. rewrite not_elem_of_app in Ht. rewrite (fd_rest _ _ _ H2), (fd_rest _ _ _ H1) by tauto. done.
  - destruct (fd_calls _ _ _ H1) as (x1 & F1 & E1), (fd_calls _ _ _ H2) as (x2 & F2 & E2).
    exists (x1 ++ x2). split.
    + apply Forall2_app; [done|]. apply Forall2_same_length_lookup in F2 as [Hl F2].
      apply Forall2_same_length_lookup. split; [done|]. intros i t x Ht Hx.
      rewrite <- (fd_rest _ _ _ H1); [by eapply F2|]. apply list_elem_of_lookup_2 in Ht. set_solver.
    + rewrite zip_with_app, app_assoc, <- E1, E2, (fd_count _ _ _ H1) by (by apply Forall2_length in F1). done.
Qed.
End Invariant.

(** ** Running timers *)

Section Fire.
Implicit Types (s : tstate) (L a b D R : list nat) (t u : nat) (x y : ktimer_t) (l : links tnode).

(** The list after timer [t] of [a ++ t :: b] was run: without it, or with it
    after the timers that are due no later. *)
Inductive refiled s x t a b : list nat -> list nat -> Prop :=
  | RefiledOnce : round_ticks x = 0 -> refiled s x t a b (a ++ b) b
  | RefiledRound a' b' : 0 < round_ticks x -> a ++ b = a' ++ b' ->
      Forall (fun u => rest s u <= round_ticks x) a' -> (forall u, head b' = Some u -> round_ticks x < rest s u) ->
      refiled s x t a b (a' ++ t :: b') b'.

(** The state after timer [t] was run, but for the link memory. *)
Definition fire_state s t x l : tstate :=
  mkT l (<[t := after_fire (g_timer_count s) x]> (timers s)) (g_timer_count s) (calls s ++ [run_of (g_timer_count s) t x]).

Lemma fire_state_fired s t x l : timers s !! t = Some x -> fired s (fire_state s t x l) [t].
Proof.
  intros Hx. split; simpl; try done.
  - intros u y ->%list_elem_of_singleton Hy. rewrite lookup_insert_eq. naive_solver.
  - intros u Hu. rewrite lookup_insert_ne by set_solver. done.
  - exists [x]. split; [by repeat constructor|done].
Qed.

Lemma after_fire_ok c x :
  timer_ok x -> timer_state x = TIMER_ACTIVE -> timer_obj_type x = RHINO_TIMER_OBJ_TYPE ->
  let y := after_fire c x in
  (to_head y <> None <-> timer_state y = TIMER_ACTIVE) /\ timer_obj_type y = RHINO_TIMER_OBJ_TYPE /\ timer_ok y /\
  (to_head y <> None <-> 0 < round_ticks x).
Proof.
  intros Hok Hs Hty. unfold after_fire. destruct (Z.ltb_spec 0 (round_ticks x)); simpl; split_and!; try done.
  - destruct Hok as (? & ? & _). split_and!; simpl; [lia..| |]; by apply wrap_range.
  - split; [done|lia].
Qed.

Lemma wp_timer_fire L a t b x (Q : unit -> tstate -> Prop) s :
  tinv s L -> L = a ++ t :: b -> timers s !! t = Some x ->
  (forall l' L' next, refiled s x t a b L' next -> tinv (fire_state s t x l') L' -> fired s (fire_state s t x l') [t] ->
     k_next l' !! NTimer t = Some (hd NTimerHead (NTimer <$> next)) -> Q tt (fire_state s t x l')) ->
  wp (timer_fire t) Q s.
Proof.
  intros HI -> Hx HQ. pose proof (tinv_lookup _ _ t HI ltac:(set_solver)) as (x' & Hx' & Hh & Hs & Hty).
  assert (x' = x) as -> by congruence. clear Hx'. pose proof (tv_ok _ _ HI _ _ Hx) as Hok.
  pose proof (after_fire_ok (g_timer_count s) x Hok Hs Hty) as (Hy1 & Hy2 & Hy3 & Hy4).
  pose proof (tring_nodup_mid _ _ _ _ (tv_ring _ _ HI)) as Hnt.
  assert (HT : forall l' L', rings l' (tring L') -> (forall u, u <> t -> u ∈ L' <-> u ∈ a ++ t :: b) ->
    (t ∈ L' <-> 0 < round_ticks x) -> tinv (fire_state s t x l') L').
  { intros l' L' HG' Hu Ht'. apply (tinv_upd s (a ++ t :: b)); [done|done|done| |done|done|done]. by rewrite Ht', Hy4. }
  unfold timer_fire. apply wp_bind, (wp_timer_get _ x); [done|]. apply wp_bind, wp_modify.
  apply wp_bind, (wp_list_rm (a ++ t :: b) a t b x); [apply HI|done|done|done|]. intros l1 HG1 Hn1.
  apply wp_bind, (wp_timer_get _ (set_to_head None x)); [simpl; apply lookup_insert_eq|]. simpl round_ticks.
  destruct (Z.ltb_spec 0 (round_ticks x)) as [Hr|Hr].
  - apply wp_bind, (wp_timer_upd _ (set_to_head None x)); [simpl; apply lookup_insert_eq|]. apply wp_bind, wp_gets.
    apply wp_bind. eapply wp_timer_upd; [simpl; apply lookup_insert_eq|].
    apply wp_bind. eapply wp_timer_upd; [simpl; apply lookup_insert_eq|]. simpl. rewrite !insert_insert_eq.
    set (s1 := set_timers _ _).
    eapply (wp_list_insert (a ++ b) t _ _ s1); [exact HG1|done|apply lookup_insert_eq| |].
    + intros u Hu. simpl. rewrite lookup_insert_ne by set_solver.
      destruct (tinv_lookup _ _ u HI) as (z & -> & _); [set_solver|eauto].
    + simpl tm_remain. intros l2 a' b' Hab Ha Hb HG2.
      assert (E : forall u, u ∈ a ++ b -> rest s1 u = rest s u).
      { intros u Hu. apply rest_same; [|done]. simpl. by rewrite lookup_insert_ne by set_solver. }
      assert (Hre : refiled s x t a b (a' ++ t :: b') b').
      { apply RefiledRound; [done|done| |].
        - apply Forall_forall. intros u Hu. rewrite <- E by (rewrite Hab; set_solver). by apply (proj1 (Forall_forall _ _) Ha).
        - intros u Hu. rewrite <- E; [by apply Hb|]. rewrite Hab. destruct b'; simplify_eq/=. set_solver. }
      replace (with_t_links l2 s1) with (fire_state s t x l2).
      2:{ unfold fire_state, s1, with_t_links, set_timers, after_fire. simpl. by rewrite (proj2 (Z.ltb_lt _ _) Hr). }
      apply (HQ l2 _ b' Hre); [|by apply fire_state_fired|by apply (tring_next l2 a' t b')].
      apply HT; [done| |set_solver]. intros u Hu.
      assert (u ∈ a ++ b <-> u ∈ a' ++ b') by by rewrite Hab. set_solver.
  - eapply wp_timer_upd; [simpl; apply lookup_insert_eq|]. simpl. rewrite insert_insert_eq.
    assert (round_ticks x = 0) as E0 by (destruct Hok as [_ ?]; lia).
    match goal with |- Q tt ?s1 => replace s1 with (fire_state s t x l1) end.
    2:{ unfold fire_state, with_t_links, set_timers, after_fire. simpl. by rewrite E0. }
    apply (HQ l1 (a ++ b) b); [by constructor| |by apply fire_state_fired|done].
    apply HT; [done| |]; [intros u Hu; set_solver|]. split; [done|lia].
Qed.
End Fire.

(** ** A pass over the list ends *)

Section Pass.
Implicit Types (s : tstate) (L a b D R : list nat) (t u : nat) (x y : ktimer_t) (l : links tnode).

Definition dues s L : list nat := filter (fun t => due_b s t = true) L.

Lemma dues_ext s s' L : (forall t, t ∈ L -> due_b s' t = due_b s t) -> dues s' L = dues s L.
Proof.
  unfold dues. induction L as [|t L IH]; intros H; [done|]. rewrite !filter_cons, (H t) by set_solver.
  rewrite IH by set_solver. done.
Qed.

(** A timer that was run is no longer due, and no longer counts. *)
Lemma refiled_dues s s' x t a b L' next :
  refiled s x t a b L' next -> fired s s' [t] -> timers s !! t = Some x -> timer_ok x -> t ∉ a ++ b ->
  (t ∈ L' -> due_b s' t = false) /\ length (dues s' L') = length (dues s (a ++ b)).
Proof.
  intros Hre HF Hx Hok Ht.
  assert (E : forall K, t ∉ K -> dues s' K = dues s K).
  { intros K HK. apply dues_ext. intros u Hu. apply (fired_due _ _ _ _ HF). set_solver. }
  destruct Hre as [Hr|a' b' Hr Hab _ _].
  - split; [done|]. by rewrite E.
  - assert (due_b s' t = false) as Hd.
    { pose proof (fired_round _ _ _ t _ HF ltac:(set_solver) Hx Hok Hr) as ER. destruct Hok as [_ Hm]. rewrite max_ticks in Hm.
      rewrite due_rest by lia. apply Z.eqb_neq. lia. }
    split; [done|]. unfold dues. rewrite filter_app, filter_cons, decide_False by congruence.
    rewrite <- filter_app, <- Hab. f_equal. by apply E.
Qed.

(** Loop position: the head, or a timer of the list. *)
Definition at_node L (q : tnode) : Prop := q = NTimerHead \/ exists a t b, q = NTimer t /\ L = a ++ t :: b.

Lemma at_node_hd L b : (exists a, L = a ++ b) -> at_node L (hd NTimerHead (NTimer <$> b)).
Proof. intros [a ->]. destruct b as [|t b]; [by left|right]. by exists a, t, b. Qed.

Lemma refiled_suffix s x t a b L' next : refiled s x t a b L' next -> exists p, L' = p ++ next.
Proof. intros [? | a' b' ????]; [by exists a|]. exists (a' ++ [t]). by rewrite <- app_assoc. Qed.

Lemma refiled_elem s x t a b L' next u : refiled s x t a b L' next -> u ∈ L' -> u ∈ a ++ t :: b.
Proof.
  intros [? | a' b' ? Hab ??] Hu; [set_solver|]. assert (u ∈ a ++ b <-> u ∈ a' ++ b') by by rewrite Hab. set_solver.
Qed.

Lemma wp_timer_cb_loop L q fuel (Q : unit -> tstate -> Prop) s :
  tinv s L -> at_node L q -> (length (dues s L) < fuel)%nat ->
  (forall s' L' D, tinv s' L' -> fired s s' D -> Forall (fun t => t ∈ L /\ due_b s t = true) D -> Q tt s') ->
  wp (timer_cb_loop fuel q) Q s.
Proof.
  revert s L q Q. induction fuel as [|fuel IH]; intros s L q Q HI Hq Hf HQ; [lia|]. simpl.
  assert (Hstop : Q tt s) by (apply (HQ s L []); [done|apply fired_nil|constructor]).
  destruct Hq as [->|(a & t & b & -> & ->)]; [by rewrite bool_decide_true|]. rewrite bool_decide_false by done.
  destruct (tinv_lookup _ _ t HI) as (x & Hx & _); [set_solver|]. apply wp_bind, wp_ret.
  apply wp_bind, (wp_timer_get _ x); [done|]. apply wp_bind, wp_gets. rewrite <- (due_lookup _ _ _ Hx).
  destruct (due_b s t) eqn:Ed; [|done].
  pose proof (tring_nodup_mid _ _ _ _ (tv_ring _ _ HI)) as Hnt. pose proof (tv_ok _ _ HI _ _ Hx) as Hok.
  apply wp_bind, (wp_timer_fire (a ++ t :: b) a t b x); [done..|]. intros l' L' next Hre HI' HF Hn.
  set (s1 := fire_state s t x l') in *. apply wp_bind, (wp_next l' (NTimer t) (hd NTimerHead (NTimer <$> next))); [done..|].
  destruct (refiled_dues _ _ _ _ _ _ _ _ Hre HF Hx Hok Hnt) as [Hd' Hlen].
  apply (IH s1 L'); [done|by eapply at_node_hd, refiled_suffix| |].
  - rewrite Hlen. unfold dues in *. rewrite filter_app, filter_cons, decide_True in Hf by done.
    rewrite length_app in Hf. rewrite filter_app, length_app. simpl in Hf. lia.
  - intros s' L2 D HI2 HF2 HD. apply (HQ s' L2 ([t] ++ D)); [done| |].
    + apply (fired_trans _ s1); [done..|]. intros u ->%list_elem_of_singleton Hu.
      destruct (proj1 (Forall_forall _ _) HD t Hu) as [Ht' Hdt]. by rewrite Hd' in Hdt.
    + constructor; [split; [set_solver|done]|]. eapply Forall_impl; [exact HD|]. intros u [Hu Hdu].
      assert (u <> t) by (intros ->; by rewrite Hd' in Hdu).
      split; [|rewrite <- (fired_due _ _ _ u HF); [done|set_solver]].
      by apply (refiled_elem _ _ _ _ _ _ _ _ Hre).
Qed.
End Pass.

(** ** Order *)

Section Order.
Implicit Types (s : tstate) (L a b D R : list nat) (t u : nat) (x y : ktimer_t) (l : links tnode).

Lemma tsorted_ext s s' L : (forall u, u ∈ L -> rest s' u = rest s u) -> tsorted s L -> tsorted s' L.
Proof.
  intros E [Hs Hf]. split.
  - eapply StronglySorted_impl; [|exact Hs]. intros u v Hu Hv. by rewrite !E.
  - apply Forall_forall. intros u Hu. rewrite E by done. by apply (proj1 (Forall_forall _ _) Hf).
Qed.

Lemma tsorted_app s a b : tsorted s (a ++ b) -> tsorted s b.
Proof. intros [Hs Hf]. apply Forall_app in Hf as [_ Hf]. split; [by eapply StronglySorted_app_1_r|done]. Qed.

(** All timers after the first one that has more time left have more. *)
Lemma tsorted_above s b r : tsorted s b -> (forall u, head b = Some u -> r < rest s u) -> Forall (fun u => r < rest s u) b.
Proof.
  intros [Hs _] Hh. destruct b as [|v b]; [constructor|]. specialize (Hh v eq_refl).
  constructor; [done|]. apply StronglySorted_inv in Hs as [_ Hf]. eapply Forall_impl; [exact Hf|]. simpl. lia.
Qed.

Lemma tsorted_insert s s' a t b r :
  tsorted s (a ++ b) -> Forall (fun u => rest s u <= r) a -> (forall u, head b = Some u -> r < rest s u) ->
  rest s' t = r -> r < 2 ^ 63 -> (forall u, u ∈ a ++ b -> rest s' u = rest s u) -> tsorted s' (a ++ t :: b).
Proof.
  intros Hs Ha Hb Et Hr E. pose proof (tsorted_above _ _ _ (tsorted_app _ _ _ Hs) Hb) as HB.
  apply (tsorted_ext _ s') in Hs; [|done]. destruct Hs as [Hs Hf]. split.
  - apply StronglySorted_insert; [done| |]; apply Forall_forall; intros u Hu; rewrite (E u), Et by set_solver.
    + by apply (proj1 (Forall_forall _ _) Ha).
    + apply Z.lt_le_incl. by apply (proj1 (Forall_forall _ _) HB).
  - apply Forall_app in Hf as [? ?]. apply Forall_app. split; [done|]. constructor; [lia|done].
Qed.

(** The timers that are due come first. *)
Lemma tsorted_split s L : tsorted s L ->
  exists D R, L = D ++ R /\ Forall (fun t => rest s t = 0) D /\ Forall (fun t => 0 < rest s t) R.
Proof.
  induction L as [|t L IH]; intros Hs; [by exists [], []|]. pose proof (rest_range s t).
  destruct (decide (rest s t = 0)) as [E|E].
  - destruct IH as (D & R & -> & HD & HR); [by apply (tsorted_app s [t])|]. exists (t :: D), R. auto.
  - exists [], (t :: L). split_and!; [done|constructor|]. apply tsorted_above; [done|]. intros u [= <-]. lia.
Qed.
End Order.

(** ** A pass in time *)

Section Timely.
Implicit Types (s : tstate) (L a b D R : list nat) (t u : nat) (x y : ktimer_t) (l : links tnode).

Lemma not_due_stop fuel L R (Q : unit -> tstate -> Prop) s :
  tinv s L -> (exists p, L = p ++ R) -> tsorted s R -> (forall u, head R = Some u -> 0 < rest s u) -> Q tt s ->
  wp (timer_cb_loop (S fuel) (hd NTimerHead (NTimer <$> R))) Q s.
Proof.
  intros HI [p ->] Hs HR HQ. destruct R as [|u R]; [done|]. specialize (HR u eq_refl). simpl.
  destruct (tinv_lookup _ _ u HI) as (x & Hx & _); [set_solver|]. apply wp_bind, wp_ret.
  apply wp_bind, (wp_timer_get _ x); [done|]. apply wp_bind, wp_gets. rewrite <- (due_lookup _ _ _ Hx).
  rewrite due_rest; [by rewrite (proj2 (Z.eqb_neq _ _)) by lia|]. destruct Hs as [_ Hf]. by apply Forall_cons in Hf as [? _].
Qed.

(** Where a timer that was run is put back when all others that are due are
    due just now. *)
Lemma refiled_timely s D R a' b' r :
  D ++ R = a' ++ b' -> 0 < r -> Forall (fun t => rest s t = 0) D -> (forall u, head b' = Some u -> r < rest s u) ->
  exists R1, a' = D ++ R1 /\ R = R1 ++ b'.
Proof.
  intros E Hr HD Hb. apply app_eq_inv in E as [(k & -> & ->)|(k & -> & ->)].
  - destruct k as [|u k]; [exists []; by rewrite !app_nil_r|].
    apply Forall_app in HD as [_ HD]. apply Forall_cons in HD as [E _]. specialize (Hb u eq_refl). lia.
  - by exists k.
Qed.

(** One pass runs a first part of the timers that are due, all but the last of
    which are not periodic; the rest stays in front. *)
Definition pass_result s D R s' D1 D2 R' : Prop :=
  D = D1 ++ D2 /\ (D <> [] -> D1 <> []) /\ fired s s' D1 /\ tinv s' (D2 ++ R') /\ tsorted s' (D2 ++ R') /\
  Forall (fun t => rest s' t = 0) D2 /\ Forall (fun t => 0 < rest s' t) R'.

Lemma wp_cb_loop_timely D R fuel (Q : unit -> tstate -> Prop) s :
  tinv s (D ++ R) -> tsorted s (D ++ R) -> Forall (fun t => rest s t = 0) D -> Forall (fun t => 0 < rest s t) R ->
  (length D < fuel)%nat ->
  (forall s' D1 D2 R', pass_result s D R s' D1 D2 R' -> Q tt s') ->
  wp (timer_cb_loop fuel (hd NTimerHead (NTimer <$> D ++ R))) Q s.
Proof.
  revert D s Q. induction fuel as [|fuel IH]; intros D s Q HI Hs HD HR Hf HQ; [lia|].
  destruct D as [|d D].
  - apply (not_due_stop _ R); [done|by exists []|done| |].
    + intros u Hu. destruct R; simplify_eq/=. by apply Forall_cons in HR as [? _].
    + apply (HQ s [] [] R). split_and!; try done. apply fired_nil.
  - apply Forall_cons in HD as [Hd HD]. destruct (tinv_lookup _ _ d HI) as (x & Hx & _); [set_solver|].
    pose proof (tring_nodup_mid _ [] d (D ++ R) (tv_ring _ _ HI)) as Hnt. simpl in Hnt.
    pose proof (tv_ok _ _ HI _ _ Hx) as Hok. simpl. apply wp_bind, wp_ret.
    apply wp_bind, (wp_timer_get _ x); [done|]. apply wp_bind, wp_gets. rewrite <- (due_lookup _ _ _ Hx).
    rewrite due_rest, Hd by (rewrite Hd; done). simpl.
    apply wp_bind, (wp_timer_fire (d :: D ++ R) [] d (D ++ R) x); [done..|]. intros l' L' next Hre HI' HF Hn.
    set (s1 := fire_state s d x l') in *. apply wp_bind, (wp_next l' (NTimer d) (hd NTimerHead (NTimer <$> next))); [done..|].
    assert (E : forall u, u ∈ D ++ R -> rest s1 u = rest s u) by (intros u Hu; apply (fired_rest _ _ _ _ HF); set_solver).
    assert (HD1 : Forall (fun t => rest s1 t = 0) D).
    { apply Forall_forall. intros u Hu. rewrite E by set_solver. by apply (proj1 (Forall_forall _ _) HD). }
    apply (tsorted_app s [d]) in Hs. inversion Hre as [Hr|a' b' Hr Hab Ha Hb]; subst; simpl in *.
    + apply IH; [done|by apply (tsorted_ext s)|done| |lia|].
      { apply Forall_forall. intros u Hu. rewrite E by set_solver. by apply (proj1 (Forall_forall _ _) HR). }
      intros s' D1 D2 R' (-> & _ & HF2 & HP). apply (HQ s' (d :: D1) D2 R'). split_and!; try done; try apply HP.
      apply (fired_trans _ s1 _ [d]); [done..|]. set_solver.
    + destruct (refiled_timely _ _ _ _ _ _ Hab Hr HD Hb) as (R1 & -> & ->).
      assert (Er : rest s1 d = round_ticks x) by (apply (fired_round _ _ _ _ _ HF); [set_solver|done..]).
      assert (Hb1 : forall u, head next = Some u -> 0 < rest s1 u).
      { intros u Hu. specialize (Hb u Hu). rewrite E; [lia|]. destruct next; simplify_eq/=. set_solver. }
      assert (Hs1 : tsorted s1 ((D ++ R1) ++ d :: next)).
      { eapply (tsorted_insert s); [by rewrite <- app_assoc|done|exact Hb|done| |].
        - destruct Hok as [_ Hm]. rewrite max_ticks in Hm. lia.
        - intros u Hu. apply E. set_solver. }
      destruct fuel as [|fuel]; [lia|]. apply (not_due_stop _ ((D ++ R1) ++ d :: next)); [done| | |done|].
      { exists ((D ++ R1) ++ [d]). by rewrite <- (app_assoc _ [d]). }
      { apply (tsorted_app s1 ((D ++ R1) ++ [d])). by rewrite <- (app_assoc _ [d]). }
      rewrite <- app_assoc in HI', Hs1. apply (HQ s1 [d] D (R1 ++ d :: next)). split_and!; try done.
      apply Forall_app in HR as [HR1 HR2]. apply Forall_app. split; [|constructor; [lia|]]; apply Forall_forall; intros u Hu;
        rewrite E by set_solver; [by apply (proj1 (Forall_forall _ _) HR1)|by apply (proj1 (Forall_forall _ _) HR2)].
Qed.
End Timely.
