(* ===== verification/TimerTask.v ===== *)
(** * The timer task as a state machine

    What every command does, that every piece of the timer task's code ends
    and keeps the invariant, and that the timers run on time as long as the
    timer task does. *)

From stdpp Require Import functions.
From S2P Require Import Prelude.
From S2P Require Import Monad.
From S2P Require Import Links.
From S2P Require Import KState.
From S2P Require Import Inv.
From S2P Require Import Timer.
From S2P Require Import TimerInv.

(** ** Passes over the list *)

Section Passes.
Implicit Types (s : tstate) (L D R : list nat) (t : nat) (x : ktimer_t).

Lemma dues_length s L : (length (dues s L) <= length L)%nat.
Proof. apply length_filter. Qed.

Lemma wp_pass_fuel s L n (Q : unit -> tstate -> Prop) :
  tinv s L -> (n <= length L)%nat ->
  (forall fuel, (n < fuel)%nat -> wp (timer_cb_loop fuel (hd NTimerHead (NTimer <$> L))) Q s) -> wp timer_cb_proc Q s.
Proof.
  intros HI Hn HQ. unfold timer_cb_proc, list_fuel. msteps. apply (wp_next (t_links s) NTimerHead (hd NTimerHead (NTimer <$> L)));
    [done|apply tring_first, HI|]. apply HQ.
  pose proof (ring_size (t_links s) (tring L tt) (rings_nodup _ _ (tv_ring _ _ HI) tt) (rings_ring _ _ (tv_ring _ _ HI) tt)) as Hr.
  unfold tring in Hr. simpl in Hr. rewrite length_fmap in Hr. unfold links_of, tstate_links. lia.
Qed.

Lemma wp_timer_cb_proc s L (Q : unit -> tstate -> Prop) :
  tinv s L -> (forall s' L' D, tinv s' L' -> fired s s' D -> Q tt s') -> wp timer_cb_proc Q s.
Proof.
  intros HI HQ. apply (wp_pass_fuel s L (length (dues s L))); [done|apply dues_length|]. intros fuel Hf.
  apply (wp_timer_cb_loop L); [done|apply at_node_hd; by exists []|done|]. intros s' L' D ???. by apply (HQ s' L' D).
Qed.

Lemma wp_cb_proc_timely s D R (Q : unit -> tstate -> Prop) :
  tinv s (D ++ R) -> tsorted s (D ++ R) -> Forall (fun t => rest s t = 0) D -> Forall (fun t => 0 < rest s t) R ->
  (forall s' D1 D2 R', pass_result s D R s' D1 D2 R' -> Q tt s') -> wp timer_cb_proc Q s.
Proof.
  intros HI Hs HD HR HQ. apply (wp_pass_fuel s (D ++ R) (length D)); [done|rewrite length_app; lia|]. intros fuel Hf.
  by apply wp_cb_loop_timely.
Qed.

(** The clock of the timer task does not matter for the list. *)
Lemma tinv_count c s L : tinv (set_timer_count c s) L <-> tinv s L.
Proof. by split; intros []; split. Qed.

(** The dues of a list in order. *)
Lemma dues_split s D R :
  tsorted s (D ++ R) -> Forall (fun t => rest s t = 0) D -> Forall (fun t => 0 < rest s t) R -> dues s (D ++ R) = D.
Proof.
  intros [_ Hf] HD HR. induction D as [|t D IH]; simpl in *.
  - clear HD. induction R as [|t R IH]; [done|]. apply Forall_cons in HR as [Ht HR]. apply Forall_cons in Hf as [Hft Hf].
    unfold dues. rewrite filter_cons, decide_False; [by apply IH|]. rewrite due_rest by done.
    destruct (Z.eqb_spec (rest s t) 0); [lia|done].
  - apply Forall_cons in HD as [Ht HD]. apply Forall_cons in Hf as [Hft Hf].
    unfold dues. rewrite filter_cons, decide_True; [f_equal; by apply IH|]. by rewrite due_rest, Ht.
Qed.
End Passes.

(** ** The inner loop on time *)

Section OnTime.
Implicit Types (s : tstate) (L D R : list nat) (t : nat) (x : ktimer_t).

(** How the task waits when [R] is the list. *)
Definition wait_pc s R : timer_pc :=
  match R with [] => AtRecv | h :: _ => AtRecvFor (rest s h) end.

(** The first reading of the inner loop. *)
Lemma wp_task_head now s L (Q : timer_pc -> tstate -> Prop) :
  tinv s L ->
  (L = [] -> Q AtRecv s) ->
  (forall h r, L = h :: r ->
     let delta := i64 (default 0 (tm_match <$> timers s !! h) - now) in
     if 0 <? delta then Q (AtRecvFor delta) s
     else wp timer_cb_proc (fun _ s' => Q AtLoop s') (set_timer_count now s)) ->
  wp (timer_task_loop now) Q s.
Proof.
  intros HI H0 H1. unfold timer_task_loop.
  apply wp_bind, (wp_is_klist_empty (S := tstate) (tring L) tt NTimerHead (NTimer <$> L)); [apply HI|done|].
  destruct L as [|h r]; simpl; [apply wp_ret; auto|]. specialize (H1 h r eq_refl). simpl in H1.
  apply wp_bind, (wp_next (t_links s) NTimerHead (NTimer h)); [done|apply (tring_first _ (h :: r)), HI|].
  apply wp_bind, wp_ret. destruct (tinv_lookup _ _ h HI) as (x & Hx & _); [set_solver|].
  apply wp_bind, (wp_timer_get _ x); [done|]. rewrite Hx in H1. simpl in H1. rewrite sign_sub by done.
  destruct (0 <? _); [by apply wp_ret|]. apply wp_bind, wp_modify, wp_bind. exact H1.
Qed.

Lemma wp_task_loop_timely now s D R (Q : timer_pc -> tstate -> Prop) :
  let s0 := set_timer_count now s in
  tinv s (D ++ R) -> tsorted s0 (D ++ R) -> Forall (fun t => rest s0 t = 0) D -> Forall (fun t => 0 < rest s0 t) R ->
  (D = [] -> Q (wait_pc s0 R) s) ->
  (D <> [] -> forall s' D1 D2 R', pass_result s0 D R s' D1 D2 R' -> Q AtLoop s') ->
  wp (timer_task_loop now) Q s.
Proof.
  intros s0 HI Hs HD HR HQ0 HQ1. apply (wp_task_head now s (D ++ R)); [done| |].
  - intros E. apply app_nil in E as [-> ->]. auto.
  - intros h r E delta.
    assert (delta = rest s0 h) as Ed.
    { unfold delta, rest. simpl. apply sign_small. destruct Hs as [_ Hf]. rewrite E in Hf. by apply Forall_cons in Hf as [? _]. }
    rewrite Ed. destruct D as [|d D]; simplify_eq/=.
    + apply Forall_cons in HR as [Hh _]. rewrite (proj2 (Z.ltb_lt _ _) Hh). auto.
    + pose proof HD as [Hh _]%Forall_cons. rewrite Hh. simpl. apply (wp_cb_proc_timely _ (h :: D) R); [by apply tinv_count|done..|].
      intros. eapply HQ1; [done|done].
Qed.

(** The whole loop while the clock stands still. *)
Lemma wp_task_run now n s D R (Q : timer_pc -> tstate -> Prop) :
  let s0 := set_timer_count now s in
  tinv s (D ++ R) -> tsorted s0 (D ++ R) -> Forall (fun t => rest s0 t = 0) D -> Forall (fun t => 0 < rest s0 t) R ->
  (length D < n)%nat ->
  (forall s' R', fired s0 (set_timer_count now s') D -> tinv s' R' -> tsorted (set_timer_count now s') R' ->
     Forall (fun t => 0 < rest (set_timer_count now s') t) R' -> Q (wait_pc (set_timer_count now s') R') s') ->
  wp (timer_task_run (replicate n now)) Q s.
Proof.
  intros s0. revert s D R s0 Q. induction n as [|n IH]; intros s D R s0 Q HI Hs HD HR Hn HQ; [lia|]. simpl.
  apply wp_bind, (wp_task_loop_timely now s D R); [done..| |].
  - intros ->. assert (Q (wait_pc s0 R) s) by (apply HQ; [apply fired_nil|done..]). by destruct R.
  - intros Hne s' D1 D2 R' (-> & HD1 & HF & HI' & Hs' & HD2 & HR').
    assert (Ec : set_timer_count now s' = s').
    { pose proof (fd_count _ _ _ HF) as Ec. destruct s'. simpl in *. by subst. }
    assert (D1 <> []) as Hne1 by auto. apply (IH s' D2 R'); rewrite ?Ec; [done..| |].
    { destruct D1; [done|]. rewrite length_app in Hn. simpl in Hn. lia. }
    intros s2 R2 HF2 HI2 Hs2 HR2. apply HQ; [|done..]. apply (fired_trans _ s'); [done..|].
    pose proof (tring_nodup _ _ (tv_ring _ _ HI)) as Hnd. rewrite <- app_assoc in Hnd.
    apply NoDup_app in Hnd as (_ & Hd & _). intros t H1 H2. apply (Hd t H1). set_solver.
Qed.
End OnTime.

(** ** Commands *)

Section Commands.
Implicit Types (s : tstate) (L a b : list nat) (t : nat) (x y : ktimer_t) (l : links tnode) (cb : k_timer_queue_cb).

Definition started (c : Z) x : ktimer_t :=
  set_timer_state TIMER_ACTIVE (set_to_head (Some NTimerHead)
    (set_tm_remain (init_count x) (set_tm_match (u64 (c + init_count x)) x))).
Definition stopped x : ktimer_t := set_timer_state TIMER_DEACTIVE (set_to_head None x).

(** What the commands for a timer that is not active write. *)
Definition changed cb (cmd : Z) x : ktimer_t :=
  if cmd =? TIMER_CMD_CHG then set_round_ticks (u_round cb) (set_init_count (cb_first cb) x)
  else if cmd =? TIMER_ARG_CHG then set_timer_cb_arg (u_arg cb) x
  else set_timer_obj_type RHINO_OBJ_TYPE_NONE x.

Definition is_change (cmd : Z) : Prop := cmd = TIMER_CMD_CHG \/ cmd = TIMER_ARG_CHG \/ cmd = TIMER_CMD_DEL.

(** Commands that are dropped: for an object that is not a timer, starting an
    active timer, stopping or changing a timer in the wrong state. *)
Definition ignored cb (cmd : Z) x : Prop :=
  timer_obj_type x <> RHINO_TIMER_OBJ_TYPE \/
  (cmd = TIMER_CMD_START /\ timer_state x = TIMER_ACTIVE) \/
  (cmd = TIMER_CMD_STOP /\ timer_state x = TIMER_DEACTIVE) \/
  (cmd = TIMER_CMD_CHG /\ cb_first cb = 0) \/
  (is_change cmd /\ timer_state x = TIMER_ACTIVE) \/
  (cmd = TIMER_CMD_DEL /\ timer_mm_alloc_flag x <> K_OBJ_STATIC_ALLOC).

Definition known (cmd : Z) : Prop := cmd = TIMER_CMD_START \/ cmd = TIMER_CMD_STOP \/ is_change cmd.

(** The outcomes of one command for timer [x]. *)
Inductive cmd_done s L cb x : Z -> tstate -> list nat -> Prop :=
  | DoneStart l a b :
      timer_obj_type x = RHINO_TIMER_OBJ_TYPE -> timer_state x = TIMER_DEACTIVE -> L = a ++ b ->
      Forall (fun u => rest s u <= init_count x) a -> (forall u, head b = Some u -> init_count x < rest s u) ->
      cmd_done s L cb x TIMER_CMD_START
        (set_timers (<[cb_timer cb := started (g_timer_count s) x]> (timers s)) (with_t_links l s)) (a ++ cb_timer cb :: b)
  | DoneStop l a b :
      timer_state x = TIMER_ACTIVE -> L = a ++ cb_timer cb :: b ->
      cmd_done s L cb x TIMER_CMD_STOP
        (set_timers (<[cb_timer cb := stopped x]> (timers s)) (with_t_links l s)) (a ++ b)
  | DoneChange cmd :
      is_change cmd -> timer_obj_type x = RHINO_TIMER_OBJ_TYPE -> timer_state x = TIMER_DEACTIVE ->
      cmd_done s L cb x cmd (set_timers (<[cb_timer cb := changed cb cmd x]> (timers s)) s) L
  | DoneIgnored cmd : known cmd -> ignored cb cmd x -> cmd_done s L cb x cmd s L.

(** A command within the contract: its timer exists, it is one of the six the
    interface sends, and new times are in the range [timer_create] accepts
    ([krhino_timer_change] does not check that). *)
Definition cb_ok s cb : Prop :=
  is_Some (timers s !! cb_timer cb) /\ (known (cb_num cb) \/ cb_num cb = TIMER_ARG_CHG_AUTO) /\
  (cb_num cb = TIMER_CMD_CHG -> 0 <= cb_first cb < MAX_TIMER_TICKS /\ 0 <= u_round cb < MAX_TIMER_TICKS).

Lemma inactive_out s L t x : tinv s L -> timers s !! t = Some x -> timer_state x = TIMER_DEACTIVE -> (t ∉ L) /\ to_head x = None.
Proof.
  intros HI Hx Hs. assert (t ∉ L) as Ht by (rewrite (tinv_active _ _ _ _ HI Hx); congruence). split; [done|].
  destruct (to_head x) eqn:E; [|done]. destruct Ht. apply (tv_mem _ _ HI). exists x. split; [done|congruence].
Qed.

Lemma state_cases (z : k_timer_state_t) : z <> TIMER_DEACTIVE -> z = TIMER_ACTIVE.
Proof. by destruct z. Qed.

Lemma wp_cmd_start s L cb x (Q : unit -> tstate -> Prop) :
  tinv s L -> timers s !! cb_timer cb = Some x ->
  (forall s' L', cmd_done s L cb x TIMER_CMD_START s' L' -> tinv s' L' -> Q tt s') ->
  wp (cmd_proc cb TIMER_CMD_START) Q s.
Proof.
  intros HI Hx HQ. unfold cmd_proc. simpl. apply wp_bind, (wp_timer_get _ x); [done|].
  destruct (bool_decide_reflect (timer_obj_type x = RHINO_TIMER_OBJ_TYPE)) as [Ht|Ht]; simpl.
  2:{ apply wp_ret, (HQ s L); [|done]. apply DoneIgnored; [by left|by left]. }
  destruct (bool_decide_reflect (timer_state x = TIMER_ACTIVE)) as [Hs|Hs].
  { apply wp_ret, (HQ s L); [|done]. apply DoneIgnored; [by left|right; by left]. }
  assert (timer_state x = TIMER_DEACTIVE) as Hs' by (by destruct (timer_state x)).
  destruct (inactive_out _ _ _ _ HI Hx Hs') as [Hn Hh]. pose proof (tv_ok _ _ HI _ _ Hx) as Hok.
  apply wp_bind, wp_gets. apply wp_bind, (wp_timer_upd _ x); [done|].
  apply wp_bind. eapply wp_timer_upd; [simpl; apply lookup_insert_eq|].
  apply wp_bind. eapply wp_timer_upd; [simpl; apply lookup_insert_eq|]. simpl. rewrite !insert_insert_eq.
  apply wp_bind. eapply (wp_list_insert L); [apply HI|done|apply lookup_insert_eq| |].
  { intros u Hu. simpl. rewrite lookup_insert_ne by set_solver. destruct (tinv_lookup _ _ u HI Hu) as (y & Hy & _). eauto. }
  simpl tm_remain. set (s1 := set_timers _ _). intros l' a b -> Ha Hb HG.
  assert (E : forall u, u ∈ a ++ b -> rest s1 u = rest s u).
  { intros u Hu. apply rest_same; [|done]. simpl. by rewrite lookup_insert_ne by set_solver. }
  eapply wp_timer_upd; [simpl; apply lookup_insert_eq|]. simpl. rewrite insert_insert_eq.
  refine (HQ (set_timers (<[cb_timer cb := started (g_timer_count s) x]> (timers s)) (with_t_links l' s)) (a ++ cb_timer cb :: b) _ _).
  - apply DoneStart; [done..| |].
    + apply Forall_forall. intros u Hu. rewrite <- E by set_solver. by apply (proj1 (Forall_forall _ _) Ha).
    + intros u Hu. rewrite <- E; [by apply Hb|]. destruct b; simplify_eq/=. set_solver.
  - apply (tinv_upd s (a ++ b)); [done|done|set_solver| |done|done|].
    + simpl. set_solver.
    + destruct Hok as (? & ? & _). split_and!; simpl; [lia..| |]; by apply wrap_range.
Qed.

Lemma wp_cmd_stop s L cb x (Q : unit -> tstate -> Prop) :
  tinv s L -> timers s !! cb_timer cb = Some x ->
  (forall s' L', cmd_done s L cb x TIMER_CMD_STOP s' L' -> tinv s' L' -> Q tt s') ->
  wp (cmd_proc cb TIMER_CMD_STOP) Q s.
Proof.
  intros HI Hx HQ. unfold cmd_proc. simpl. apply wp_bind, (wp_timer_get _ x); [done|].
  destruct (bool_decide_reflect (timer_obj_type x = RHINO_TIMER_OBJ_TYPE)) as [Ht|Ht]; simpl.
  2:{ apply wp_ret, (HQ s L); [|done]. apply DoneIgnored; [right; by left|by left]. }
  destruct (bool_decide_reflect (timer_state x = TIMER_DEACTIVE)) as [Hs|Hs%state_cases].
  { apply wp_ret, (HQ s L); [|done]. apply DoneIgnored; [right; by left|right; right; by left]. }
  pose proof (proj2 (tinv_active _ _ _ _ HI Hx) Hs) as Hin. pose proof Hin as (a & b & ->)%list_elem_of_split.
  pose proof (tring_nodup_mid _ _ _ _ (tv_ring _ _ HI)) as Hnt. pose proof (tv_ok _ _ HI _ _ Hx) as Hok.
  apply wp_bind, (wp_list_rm (a ++ cb_timer cb :: b) a (cb_timer cb) b x); [apply HI|done|done| |].
  { by apply (tv_state _ _ HI _ _ Hx). }
  intros l' HG _. eapply wp_timer_upd; [simpl; apply lookup_insert_eq|]. simpl. rewrite insert_insert_eq.
  refine (HQ (set_timers (<[cb_timer cb := stopped x]> (timers s)) (with_t_links l' s)) (a ++ b) _ _); [by constructor|].
  apply (tinv_upd s (a ++ cb_timer cb :: b)); [done|done|set_solver| |done|done|done]. simpl. naive_solver.
Qed.

Lemma wp_cmd_change s L cb x cmd (Q : unit -> tstate -> Prop) :
  tinv s L -> timers s !! cb_timer cb = Some x -> is_change cmd ->
  (cmd = TIMER_CMD_CHG -> 0 <= cb_first cb < MAX_TIMER_TICKS /\ 0 <= u_round cb < MAX_TIMER_TICKS) ->
  (forall s' L', cmd_done s L cb x cmd s' L' -> tinv s' L' -> Q tt s') ->
  wp (cmd_proc cb cmd) Q s.
Proof.
  intros HI Hx Hc Hb HQ. pose proof (tv_ok _ _ HI _ _ Hx) as Hok.
  assert (Hign : ignored cb cmd x -> Q tt s).
  { intros Hig. apply (HQ s L); [|done]. apply DoneIgnored; [right; by right|done]. }
  assert (Hchg : timer_obj_type x = RHINO_TIMER_OBJ_TYPE -> timer_state x = TIMER_DEACTIVE -> timer_ok (changed cb cmd x) ->
    Q tt (set_timers (<[cb_timer cb := changed cb cmd x]> (timers s)) s)).
  { intros Ht Hs Hok'. destruct (inactive_out _ _ _ _ HI Hx Hs) as [Hn Hh].
    refine (HQ _ L (DoneChange _ _ _ _ cmd Hc Ht Hs) _).
    assert (to_head (changed cb cmd x) = None /\ timer_state (changed cb cmd x) = TIMER_DEACTIVE) as [E1 E2].
    { unfold changed. by repeat destruct (_ =? _). }
    apply (tinv_upd s L); [done|apply HI|done| | | |done]; rewrite ?E1, ?E2; naive_solver. }
  unfold ignored in Hign. destruct Hc as [->|[->| ->]]; unfold cmd_proc; cbn [Z.eqb TIMER_CMD_CHG TIMER_CMD_START TIMER_CMD_STOP TIMER_ARG_CHG TIMER_CMD_DEL Pos.eqb].
  - destruct (Z.eqb_spec (cb_first cb) 0) as [E0|E0]; [apply wp_ret; auto 10|].
    apply wp_bind, (wp_timer_get _ x); [done|].
    destruct (bool_decide_reflect (timer_obj_type x = RHINO_TIMER_OBJ_TYPE)) as [Ht|Ht]; simpl; [|apply wp_ret; auto 10].
    destruct (bool_decide_reflect (timer_state x = TIMER_DEACTIVE)) as [Hs|Hs%state_cases]; simpl.
    2:{ apply wp_ret, Hign. right; right; right; right; left. split; [by left|done]. }
    apply wp_bind, (wp_timer_upd _ x); [done|]. eapply wp_timer_upd; [simpl; apply lookup_insert_eq|].
    simpl. rewrite insert_insert_eq. apply Hchg; [done..|]. destruct (Hb eq_refl), Hok as (? & ? & ?). split_and!; simpl; lia.
  - apply wp_bind, (wp_timer_get _ x); [done|].
    destruct (bool_decide_reflect (timer_obj_type x = RHINO_TIMER_OBJ_TYPE)) as [Ht|Ht]; simpl; [|apply wp_ret; auto 10].
    destruct (bool_decide_reflect (timer_state x = TIMER_DEACTIVE)) as [Hs|Hs%state_cases]; simpl.
    2:{ apply wp_ret, Hign. right; right; right; right; left. split; [by right; left|done]. }
    apply (wp_timer_upd _ x); [done|]. by apply Hchg.
  - apply wp_bind, (wp_timer_get _ x); [done|].
    destruct (bool_decide_reflect (timer_obj_type x = RHINO_TIMER_OBJ_TYPE)) as [Ht|Ht]; simpl; [|apply wp_ret; auto 10].
    destruct (bool_decide_reflect (timer_state x = TIMER_DEACTIVE)) as [Hs|Hs%state_cases]; simpl.
    2:{ apply wp_ret, Hign. right; right; right; right; left. split; [by right; right|done]. }
    destruct (Z.eqb_spec (timer_mm_alloc_flag x) K_OBJ_STATIC_ALLOC) as [Em|Em]; simpl; [|apply wp_ret; auto 10].
    apply (wp_timer_upd _ x); [done|]. by apply Hchg.
Qed.

Lemma wp_cmd_proc s L cb x cmd (Q : unit -> tstate -> Prop) :
  tinv s L -> timers s !! cb_timer cb = Some x -> known cmd ->
  (cmd = TIMER_CMD_CHG -> 0 <= cb_first cb < MAX_TIMER_TICKS /\ 0 <= u_round cb < MAX_TIMER_TICKS) ->
  (forall s' L', cmd_done s L cb x cmd s' L' -> tinv s' L' -> Q tt s') ->
  wp (cmd_proc cb cmd) Q s.
Proof.
  intros HI Hx Hk Hb HQ.
  destruct (decide (cmd = TIMER_CMD_START)) as [->|N1]; [by apply (wp_cmd_start s L cb x)|].
  destruct (decide (cmd = TIMER_CMD_STOP)) as [->|N2]; [by apply (wp_cmd_stop s L cb x)|].
  destruct (decide (cmd = TIMER_CMD_CHG)) as [E3|N3]; [apply (wp_cmd_change s L cb x); try done; by left|].
  destruct (decide (cmd = TIMER_ARG_CHG)) as [E4|N4]; [apply (wp_cmd_change s L cb x); try done; by right; left|].
  destruct (decide (cmd = TIMER_CMD_DEL)) as [E5|N5]; [apply (wp_cmd_change s L cb x); try done; by right; right|].
  unfold known, is_change in Hk. tauto.
Qed.

(** *** Order and frame *)

(** What a command leaves alone: the clock, the callbacks run, the other
    timers; the timer itself stays. *)
Lemma cmd_done_frame s L cb x cmd s' L' :
  cmd_done s L cb x cmd s' L' -> timers s !! cb_timer cb = Some x ->
  g_timer_count s' = g_timer_count s /\ calls s' = calls s /\
  (forall t, t <> cb_timer cb -> timers s' !! t = timers s !! t) /\ is_Some (timers s' !! cb_timer cb).
Proof.
  intros Hd Hx. destruct Hd; simpl; split_and!; try done; try (intros; by rewrite lookup_insert_ne);
    rewrite ?lookup_insert_eq; eauto.
Qed.

Lemma tsorted_del s a t b : tsorted s (a ++ t :: b) -> tsorted s (a ++ b).
Proof.
  intros [Hs Hf]. split.
  - apply StronglySorted_app in Hs as (H1 & H2 & H3). apply StronglySorted_inv in H3 as [H3 _].
    apply StronglySorted_app_2; [|done..]. intros u v Hu Hv. apply H1; set_solver.
  - rewrite Forall_app, Forall_cons in Hf. rewrite Forall_app. tauto.
Qed.

Lemma cmd_done_sorted s L cb x cmd s' L' :
  cmd_done s L cb x cmd s' L' -> tinv s L -> timers s !! cb_timer cb = Some x -> tsorted s L -> tsorted s' L'.
Proof.
  intros Hd HI Hx Hs. pose proof (cmd_done_frame _ _ _ _ _ _ _ Hd Hx) as (Ec & _ & Eo & _).
  assert (E : forall u, u <> cb_timer cb -> rest s' u = rest s u) by (intros u Hu; by apply rest_same; [apply Eo|]).
  destruct Hd as [l a b Ht Hst -> Ha Hb|l a b Hst ->|cmd Hc Ht Hst|]; [| | |done].
  - destruct (inactive_out _ _ _ _ HI Hx Hst) as [Hn _]. destruct (tv_ok _ _ HI _ _ Hx) as [Hi _]. rewrite max_ticks in Hi.
    apply (tsorted_insert s _ _ _ _ (init_count x)); [done..| |lia|intros u Hu; apply E; set_solver].
    unfold rest. simpl. rewrite lookup_insert_eq. simpl. apply rest_set. lia.
  - pose proof (tring_nodup_mid _ _ _ _ (tv_ring _ _ HI)) as Hnt.
    apply (tsorted_ext s); [intros u Hu; apply E; set_solver|by apply tsorted_del in Hs].
  - destruct (inactive_out _ _ _ _ HI Hx Hst) as [Hn _]. apply (tsorted_ext s); [|done]. intros u Hu. apply E. set_solver.
Qed.
End Commands.

(** ** The task *)

Section Task.
Implicit Types (s : tstate) (L a b : list nat) (t : nat) (x y : ktimer_t) (l : links tnode) (cb : k_timer_queue_cb).

(** A command as it arrives; [TIMER_ARG_CHG_AUTO] is three commands in one. *)
Inductive command_done s L cb s' L' : Prop :=
  | CommandOne x : cb_num cb <> TIMER_ARG_CHG_AUTO -> timers s !! cb_timer cb = Some x ->
      cmd_done s L cb x (cb_num cb) s' L' -> command_done s L cb s' L'
  | CommandAuto x s1 L1 x1 s2 L2 x2 : cb_num cb = TIMER_ARG_CHG_AUTO -> timers s !! cb_timer cb = Some x ->
      cmd_done s L cb x TIMER_CMD_STOP s1 L1 -> timers s1 !! cb_timer cb = Some x1 ->
      cmd_done s1 L1 cb x1 TIMER_ARG_CHG s2 L2 -> timers s2 !! cb_timer cb = Some x2 ->
      cmd_done s2 L2 cb x2 TIMER_CMD_START s' L' -> command_done s L cb s' L'.

Lemma wp_timer_cmd_proc s L cb (Q : unit -> tstate -> Prop) :
  tinv s L -> cb_ok s cb ->
  (forall s' L', command_done s L cb s' L' -> tinv s' L' -> (tsorted s L -> tsorted s' L') ->
     g_timer_count s' = g_timer_count s -> calls s' = calls s -> Q tt s') ->
  wp (timer_cmd_proc cb) Q s.
Proof.
  intros HI ([x Hx] & Hk & Hb) HQ. unfold timer_cmd_proc. destruct (Z.eqb_spec (cb_num cb) TIMER_ARG_CHG_AUTO) as [En|En].
  - assert (known TIMER_CMD_STOP /\ known TIMER_ARG_CHG /\ known TIMER_CMD_START) as (K1 & K2 & K3) by (unfold known, is_change; tauto).
    apply wp_bind, (wp_cmd_proc s L cb x); [done..|]. intros s1 L1 H1 HI1.
    pose proof (cmd_done_frame _ _ _ _ _ _ _ H1 Hx) as (Ec1 & El1 & _ & [x1 Hx1]).
    apply wp_bind, (wp_cmd_proc s1 L1 cb x1); [done..|]. intros s2 L2 H2 HI2.
    pose proof (cmd_done_frame _ _ _ _ _ _ _ H2 Hx1) as (Ec2 & El2 & _ & [x2 Hx2]).
    apply (wp_cmd_proc s2 L2 cb x2); [done..|]. intros s3 L3 H3 HI3.
    pose proof (cmd_done_frame _ _ _ _ _ _ _ H3 Hx2) as (Ec3 & El3 & _ & _).
    apply (HQ s3 L3); [by eapply CommandAuto|done| |congruence..].
    intros Hs. eapply cmd_done_sorted; [exact H3|done..|]. eapply cmd_done_sorted; [exact H2|done..|].
    by eapply cmd_done_sorted.
  - destruct Hk as [Hk|Hk]; [|done]. apply (wp_cmd_proc s L cb x); [done..|]. intros s' L' Hd HI'.
    pose proof (cmd_done_frame _ _ _ _ _ _ _ Hd Hx) as (Ec & El & _ & _).
    apply (HQ s' L'); [by eapply CommandOne|done| |done..]. intros Hs. by eapply cmd_done_sorted.
Qed.

(** What ends a wait of the task: a command arrives, or, for a wait with a time
    limit, the time is over; [cb_msg] then holds an old command.  At the head
    of the inner loop the task does not wait. *)
Inductive tevent := EvCommand (cb : k_timer_queue_cb) | EvTimeout (cb : k_timer_queue_cb) | EvNone.

(** The code the task runs at time [now] after an event. *)
Definition timer_resume (pc : timer_pc) (ev : tevent) (now : Z) : option (st tstate timer_pc) :=
  match pc, ev with
  | AtRecv, EvCommand cb => Some (timer_task_received RHINO_SUCCESS cb now)
  | AtRecvFor _, EvCommand cb => Some (timer_task_timed RHINO_SUCCESS cb now)
  | AtRecvFor _, EvTimeout cb => Some (timer_task_timed RHINO_BLK_TIMEOUT cb now)
  | AtLoop, EvNone => Some (timer_task_loop now)
  | _, _ => None
  end.

Definition event_ok s (ev : tevent) : Prop :=
  match ev with EvCommand cb => cb_ok s cb | _ => True end.

(** Every piece of the task's code ends and keeps the invariant, whatever the
    clock says. *)
Lemma wp_timer_resume pc ev now m s L :
  tinv s L -> event_ok s ev -> timer_resume pc ev now = Some m -> wp m (fun _ s' => exists L', tinv s' L') s.
Proof.
  intros HI Hev Hm.
  assert (Hpass : forall s1 L1, tinv s1 L1 -> wp (timer_cb_proc ;; ret AtLoop) (fun _ s' => exists L', tinv s' L') s1).
  { intros s1 L1 HI1. apply wp_bind, (wp_timer_cb_proc _ L1); [done|]. intros s' L' D HI' _. apply wp_ret. by exists L'. }
  destruct pc, ev; simplify_eq/=.
  - apply wp_bind, wp_modify, wp_bind.
    apply (wp_timer_cmd_proc _ L); [by apply tinv_count|done|]. intros s' L' _ HI' _ _ _. apply wp_ret. by exists L'.
  - apply wp_bind. apply wp_bind, wp_modify.
    apply (wp_timer_cmd_proc _ L); [by apply tinv_count|done|]. intros s' L' _ HI' _ _ _. by apply (Hpass s' L').
  - apply wp_bind, wp_modify. apply (Hpass _ L). by apply tinv_count.
  - apply (wp_task_head now s L); [done|intros _; by exists L|]. intros h r E. simpl.
    destruct (0 <? _); [by exists L|]. apply (wp_timer_cb_proc _ L); [by apply tinv_count|]. intros s' L' D HI' _. by exists L'.
Qed.
End Task.

(** ** The state machine *)

Section Machine.
Implicit Types (s : tstate) (L D R : list nat) (t : nat) (x : ktimer_t) (pc : timer_pc) (now e : Z).

(** Where the task is, the clock when it got there, and its data. *)
Definition tconf : Type := timer_pc * Z * tstate.

(** A timer as [timer_create] leaves it. *)
Definition new_timer x : Prop :=
  to_head x = None /\ timer_state x = TIMER_DEACTIVE /\ timer_ok x.

(** The memory of a timer that is not active can be made a timer. *)
Definition reusable s t : Prop := forall x, timers s !! t = Some x -> timer_state x = TIMER_DEACTIVE.

(** One step, in which the clock advances by [e]: the timer task runs until it
    waits again or starts its inner loop again, or another task creates a
    timer. *)
Inductive timer_step : tconf -> Z -> tconf -> Prop :=
  | StepTask pc now s ev e m pc' s' :
      0 <= e -> event_ok s ev -> timer_resume pc ev (u64 (now + e)) = Some m -> m s = Some (pc', s') ->
      timer_step (pc, now, s) e (pc', u64 (now + e), s')
  | StepCreate pc now s t x :
      reusable s t -> new_timer x ->
      timer_step (pc, now, s) 0 (pc, now, set_timers (<[t := x]> (timers s)) s).

(** The timer task runs on time: at the latest when its wait is over, and
    without delay inside its loop. *)
Definition on_time (c : tconf) e : Prop :=
  match c with
  | (AtRecv, _, _) => True
  | (AtRecvFor d, _, _) => e <= d
  | (AtLoop, _, _) => e = 0
  end.

(** Steps that meet [P]. *)
Inductive timer_steps (P : tconf -> Z -> Prop) : tconf -> tconf -> Prop :=
  | StepsDone c : timer_steps P c c
  | StepsMore c e c' c'' : timer_steps P c c' -> P c' e -> timer_step c' e c'' -> timer_steps P c c''.

(** Creation keeps the list. *)
Lemma tinv_create s L t x :
  tinv s L -> reusable s t -> new_timer x -> tinv (set_timers (<[t := x]> (timers s)) s) L /\ t ∉ L.
Proof.
  intros HI Hr (Hh & Hs & Hok).
  assert (t ∉ L) as Hn.
  { intros Ht. destruct (tinv_lookup _ _ _ HI Ht) as (y & Hy & _ & Ha & _). specialize (Hr y Hy). congruence. }
  split; [|done]. apply (tinv_upd s L); [done|apply HI|done| | |congruence|done]; rewrite Hh; [done|]. by rewrite Hs.
Qed.

Lemma timer_step_tinv c e c' : timer_step c e c' -> (exists L, tinv c.2 L) -> exists L, tinv c'.2 L.
Proof.
  intros Hst [L HI]. destruct Hst as [pc now s ev e m pc' s' He Hev Hm Hrun|pc now s t x Hr Hx]; simpl in *.
  - pose proof (wp_timer_resume _ _ _ _ _ _ HI Hev Hm) as Hw. unfold wp in Hw. by rewrite Hrun in Hw.
  - exists L. by apply tinv_create.
Qed.

Lemma timer_steps_tinv P c c' : timer_steps P c c' -> (exists L, tinv c.2 L) -> exists L, tinv c'.2 L.
Proof. induction 1 as [|c e c' c'' _ IH _ Hst]; [done|]. intros HI. eapply timer_step_tinv; eauto. Qed.

(** *** On time *)

(** When the task waits, no timer is due and it waits for the first one; no
    timer was run at another time than the one it was set for. *)
Record on_time_inv (c : tconf) L : Prop := mkOnTime {
  ot_inv : tinv c.2 L;
  ot_sorted : tsorted (set_timer_count c.1.2 c.2) L;
  ot_wait : c.1.1 <> AtLoop ->
    Forall (fun t => 0 < rest (set_timer_count c.1.2 c.2) t) L /\ c.1.1 = wait_pc (set_timer_count c.1.2 c.2) L;
  ot_runs : Forall (fun r => run_due r = run_time r) (calls c.2);
}.

Lemma rest_advance s now e t :
  0 <= e <= rest (set_timer_count now s) t ->
  rest (set_timer_count (u64 (now + e)) s) t = rest (set_timer_count now s) t - e.
Proof.
  unfold rest. simpl. intros He. pose proof (wrap_range 64 (default 0 (tm_match <$> timers s !! t) - now) ltac:(lia)).
  rewrite <- (wrap_small 64 (_ - e)) by lia. unfold wrap. rewrite Zminus_mod_idemp_r, Zminus_mod_idemp_l. f_equal. lia.
Qed.

(** The order is kept while no timer becomes overdue. *)
Lemma tsorted_advance s now e L :
  tsorted (set_timer_count now s) L -> 0 <= e ->
  Forall (fun t => e <= rest (set_timer_count now s) t) L -> tsorted (set_timer_count (u64 (now + e)) s) L.
Proof.
  intros [Hs Hf] He Hle.
  assert (E : forall t, t ∈ L -> rest (set_timer_count (u64 (now + e)) s) t = rest (set_timer_count now s) t - e).
  { intros t Ht. apply rest_advance. split; [done|]. by apply (proj1 (Forall_forall _ _) Hle). }
  split.
  - eapply StronglySorted_impl; [|exact Hs]. intros u v Hu Hv. rewrite !E by done. lia.
  - apply Forall_forall. intros t Ht. rewrite E by done. pose proof (proj1 (Forall_forall _ _) Hf t Ht). simpl in *. lia.
Qed.

(** The time that may pass before the task runs leaves every timer its time. *)
Lemma on_time_slack pc now s L e : on_time_inv (pc, now, s) L -> on_time (pc, now, s) e -> 0 <= e ->
  Forall (fun t => e <= rest (set_timer_count now s) t) L.
Proof.
  intros [HI Hs Hw _] Ho He. apply Forall_forall. intros t Ht. destruct pc as [|d|]; simpl in *.
  - destruct (Hw ltac:(done)) as [_ E]. destruct L; [set_solver|done].
  - destruct (Hw ltac:(done)) as [_ E]. destruct L as [|h r]; [set_solver|]. simplify_eq/=. destruct Hs as [Hs _].
    apply StronglySorted_inv in Hs as [_ Hf]. apply elem_of_cons in Ht as [->|Ht]; [done|].
    pose proof (proj1 (Forall_forall _ _) Hf t Ht). simpl in *. lia.
  - subst e. apply rest_range.
Qed.

(** A timer that is run when its time left is zero is run at its time. *)
Lemma fired_on_time s s' L D :
  fired s s' D -> tinv s L -> Forall (fun t => rest s t = 0) D -> 0 <= g_timer_count s < 2 ^ 64 ->
  Forall (fun r => run_due r = run_time r) (calls s) -> Forall (fun r => run_due r = run_time r) (calls s').
Proof.
  intros HF HI HD Hc Hr. destruct (fd_calls _ _ _ HF) as (xs & Hxs & ->). apply Forall_app. split; [done|].
  clear HF Hr. induction Hxs as [|t x D xs Hx _ IH]; simpl; [constructor|].
  apply Forall_cons in HD as [Ht HD]. constructor; [|by apply IH].
  destruct (tv_ok _ _ HI _ _ Hx) as (_ & _ & Hm). unfold rest in Ht. rewrite Hx in Ht. simpl in *.
  unfold wrap in Ht. apply Z.mod_divide in Ht as [k Hk]; [|done]. nia.
Qed.

(** A pass in time. *)
Lemma wp_pass_on_time s L :
  tinv s L -> tsorted s L -> 0 <= g_timer_count s < 2 ^ 64 -> Forall (fun r => run_due r = run_time r) (calls s) ->
  wp timer_cb_proc (fun _ s' => exists L', on_time_inv (AtLoop, g_timer_count s, s') L') s.
Proof.
  intros HI Hs Hc Hr. destruct (tsorted_split _ _ Hs) as (D & R & -> & HD & HR).
  apply (wp_cb_proc_timely s D R); [done..|]. intros s' D1 D2 R' (-> & _ & HF & HI' & Hs' & HD2 & HR').
  assert (set_timer_count (g_timer_count s) s' = s') as Ec.
  { pose proof (fd_count _ _ _ HF) as Ec. destruct s'. simpl in *. by subst. }
  exists (D2 ++ R'). split; simpl; rewrite ?Ec; [done..|].
  apply Forall_app in HD as [HD1 _]. by apply (fired_on_time s s' (((D1 ++ D2) ++ R)) D1).
Qed.

Lemma wp_resume_on_time pc now s L ev e m :
  on_time_inv (pc, now, s) L -> on_time (pc, now, s) e -> 0 <= e -> event_ok s ev ->
  timer_resume pc ev (u64 (now + e)) = Some m ->
  wp m (fun pc' s' => exists L', on_time_inv (pc', u64 (now + e), s') L') s.
Proof.
  intros HO Ho He Hev Hm. pose proof (on_time_slack _ _ _ _ _ HO Ho He) as Hsl.
  destruct HO as [HI Hs Hw Hr]; simpl in *. apply (tsorted_advance _ _ e) in Hs; [|done..].
  set (now' := u64 (now + e)) in *. assert (0 <= now' < 2 ^ 64) as Hn by by apply wrap_range.
  assert (HI0 : tinv (set_timer_count now' s) L) by by apply tinv_count.
  assert (Hcmd : forall cb (Q : unit -> tstate -> Prop), cb_ok s cb ->
    (forall s' L', tinv s' L' -> tsorted s' L' -> g_timer_count s' = now' -> calls s' = calls s -> Q tt s') ->
    wp (timer_cmd_proc cb) Q (set_timer_count now' s)).
  { intros cb Q Hok HQ. apply (wp_timer_cmd_proc _ L); [done..|]. intros s' L' _ HI' Hs' Ec El. apply (HQ s' L'); auto. }
  assert (Hpass : forall s1 L1, tinv s1 L1 -> tsorted s1 L1 -> g_timer_count s1 = now' -> calls s1 = calls s ->
    wp (timer_cb_proc ;; ret AtLoop) (fun pc' s' => exists L', on_time_inv (pc', now', s') L') s1).
  { intros s1 L1 HI1 Hs1 Ec El. apply wp_bind. eapply wp_mono; [apply (wp_pass_on_time s1 L1); rewrite ?Ec, ?El; done|].
    intros [] s' HO. apply wp_ret. by rewrite <- Ec. }
  destruct pc, ev; simplify_eq/=.
  - apply wp_bind, wp_modify, wp_bind, Hcmd; [done|]. intros s' L' HI' Hs' Ec El. apply wp_ret. exists L'.
    assert (set_timer_count now' s' = s') as E by (destruct s'; simpl in *; by subst). split; simpl; rewrite ?E, ?El; done.
  - apply wp_bind. apply wp_bind, wp_modify, Hcmd; [done|]. intros s' L' ????. by apply (Hpass s' L').
  - apply wp_bind, wp_modify. by apply (Hpass _ L).
  - destruct (tsorted_split _ _ Hs) as (D & R & -> & HD & HR). apply (wp_task_loop_timely _ s D R); [done..| |].
    + intros ->. exists R. by split.
    + intros _ s' D1 D2 R' (-> & _ & HF & HI' & Hs' & HD2 & HR'). exists (D2 ++ R').
      assert (set_timer_count now' s' = s') as Ec.
      { pose proof (fd_count _ _ _ HF) as Ec. destruct s'. simpl in *. by subst. }
      split; simpl; rewrite ?Ec; [done..|]. apply Forall_app in HD as [HD1 _].
      by apply (fired_on_time (set_timer_count now' s) s' (((D1 ++ D2) ++ R)) D1).
Qed.

Lemma on_time_create pc now s L t x :
  on_time_inv (pc, now, s) L -> reusable s t -> new_timer x ->
  on_time_inv (pc, now, set_timers (<[t := x]> (timers s)) s) L.
Proof.
  intros [HI Hs Hw Hr] Hre Hx; simpl in *. destruct (tinv_create _ _ _ _ HI Hre Hx) as [HI' Hn].
  assert (E : forall u, u ∈ L -> rest (set_timer_count now (set_timers (<[t := x]> (timers s)) s)) u = rest (set_timer_count now s) u).
  { intros u Hu. apply rest_same; [|done]. simpl. by rewrite lookup_insert_ne by set_solver. }
  split; simpl; [done|by apply (tsorted_ext (set_timer_count now s))| |done].
  intros Hpc. destruct (Hw Hpc) as [Hf ->]. split.
  - apply Forall_forall. intros u Hu. rewrite E by done. by apply (proj1 (Forall_forall _ _) Hf).
  - destruct L; simpl; [done|]. by rewrite E by set_solver.
Qed.

Lemma timer_steps_on_time c c' :
  timer_steps on_time c c' -> (exists L, on_time_inv c L) -> exists L, on_time_inv c' L.
Proof.
  induction 1 as [|c e c' c'' _ IH Ho Hst]; [done|]. intros [L HO]%IH.
  destruct Hst as [pc now s ev e m pc' s' He Hev Hm Hrun|pc now s t x Hr Hx]; [|exists L; by apply on_time_create].
  pose proof (wp_resume_on_time _ _ _ _ _ _ _ HO Ho He Hev Hm) as Hw. unfold wp in Hw. by rewrite Hrun in Hw.
Qed.
End Machine.
