(* ===== verification/TimerApi.v ===== *)
(** * The interface of the timer service (k_timer.c)

    The interface functions check their arguments, build a command in a local
    variable and send it to [g_timer_queue], where the timer task finds it.
    A system is the kernel together with the timer service. *)

From stdpp Require Import functions.
From S2P Require Import Prelude.
From S2P Require Import Monad.
From S2P Require Import Links.
From S2P Require Import KState.
From S2P Require Import Bitmap.
From S2P Require Import Sched.
From S2P Require Import Pend.
From S2P Require Import Inv.
From S2P Require Import MInv.
From S2P Require Import RingBuf.
From S2P Require Import ObjInv.
From S2P Require Import Resched.
From S2P Require Import Block.
From S2P Require Import BufQueue.
From S2P Require Import Task.
From S2P Require Import Timer.
From S2P Require Import TimerInv.
From S2P Require Import TimerTask.

(** ** Commands in memory

    The layout of [k_timer_queue_cb] on this processor: the timer's address
    in bytes 0 to 3, the number of the command in byte 4, [first] in bytes 8
    to 15, the union in bytes 16 to 23 ([round] all of it, [arg] its first
    four bytes); little endian. *)

Definition sizeof_cb : Z := 24.

Fixpoint le_bytes (n : nat) (z : Z) : list Z :=
  match n with O => [] | S k => Z.land z 0xff :: le_bytes k (Z.shiftr z 8) end.

Fixpoint le_value (bs : list Z) : Z :=
  match bs with [] => 0 | b :: r => b + 256 * le_value r end.

(** The command in the bytes of a [k_timer_queue_cb]. *)
Definition cb_of_bytes (bs : list Z) : k_timer_queue_cb :=
  mkCb (Z.to_nat (le_value (take 4 bs))) (nth 4 bs 0) (le_value (take 8 (drop 8 bs)))
    (le_value (take 8 (drop 16 bs))) (le_value (take 4 (drop 16 bs))).

Section Api.

(** The address of the timer queue and, in each call, of the local variable
    [cb]. *)
Context (g_timer_queue : oid).

(** [cb.timer = timer; cb.cb_num = num; krhino_buf_queue_send(...)]; [more]
    are the assignments in between. *)
Definition timer_send (cb : nat) (timer : option nat) (more : M unit) (num : Z) : M kstat_t :=
  match timer with
  | None => ret RHINO_NULL_PTR
  | Some t =>
      umem_copy cb (le_bytes 4 (Z.of_nat t)) ;;
      more ;;
      umem_copy (cb + 4) [num] ;;
      krhino_buf_queue_send (Some g_timer_queue) (Some cb) sizeof_cb
  end.

Definition krhino_timer_del (cb : nat) (timer : option nat) : M kstat_t := timer_send cb timer (ret tt) TIMER_CMD_DEL.
Definition krhino_timer_start (cb : nat) (timer : option nat) : M kstat_t := timer_send cb timer (ret tt) TIMER_CMD_START.
Definition krhino_timer_stop (cb : nat) (timer : option nat) : M kstat_t := timer_send cb timer (ret tt) TIMER_CMD_STOP.

Definition krhino_timer_change (cb : nat) (timer : option nat) (first round : Z) : M kstat_t :=
  match timer with
  | None => ret RHINO_NULL_PTR
  | Some _ =>
      if 2 ^ 64 - 1 <=? first then ret RHINO_INV_PARAM
      else if 2 ^ 64 - 1 <=? round then ret RHINO_INV_PARAM
      else
        timer_send cb timer
          (umem_copy (cb + 8) (le_bytes 8 first) ;; umem_copy (cb + 16) (le_bytes 8 round)) TIMER_CMD_CHG
  end.

Definition krhino_timer_arg_change (cb : nat) (timer : option nat) (arg : Z) : M kstat_t :=
  timer_send cb timer (umem_copy (cb + 16) (le_bytes 4 arg)) TIMER_ARG_CHG.

Definition krhino_timer_arg_change_auto (cb : nat) (timer : option nat) (arg : Z) : M kstat_t :=
  timer_send cb timer (umem_copy (cb + 16) (le_bytes 4 arg)) TIMER_ARG_CHG_AUTO.

(** ** Creation *)

(** The kernel and the timer service. *)
Record system := mkSys { ker : kstate; tmr : tstate }.

Definition on_ker {A} (m : M A) : st system A := fun s =>
  match m (ker s) with Some (a, k) => Some (a, mkSys k (tmr s)) | None => None end.
Definition on_tmr {A} (m : st tstate A) : st system A := fun s =>
  match m (tmr s) with Some (a, t) => Some (a, mkSys (ker s) t) | None => None end.

(** The fields [timer_create] sets before it sets the type. *)
Definition timer_fields (cb : nat) (first round arg : Z) (ty : kobj_type_t) (mm_alloc_flag : Z) : ktimer_t :=
  mkTimer None cb arg 0 0 first round ty TIMER_DEACTIVE mm_alloc_flag.

Definition timer_put (t : nat) (x : ktimer_t) : st tstate unit :=
  modify (fun s => set_timers (<[t := x]> (timers s)) s).

(** [loc] is the address of the local variable of [krhino_timer_start]; the
    type the object had stays until it is set. *)
Definition timer_create (loc : nat) (timer : option nat) (name : option string) (cb : option nat)
    (first round arg : Z) (auto_run : bool) (mm_alloc_flag : Z) : st system kstat_t :=
  match timer, name, cb with
  | Some t, Some _, Some f =>
      if first =? 0 then ret RHINO_INV_PARAM
      else if MAX_TIMER_TICKS <=? first then ret RHINO_INV_PARAM
      else if MAX_TIMER_TICKS <=? round then ret RHINO_INV_PARAM
      else
        old <- gets (fun s => default RHINO_OBJ_TYPE_NONE (timer_obj_type <$> timers (tmr s) !! t)) ;;
        on_tmr (timer_put t (timer_fields f first round arg old mm_alloc_flag)) ;;
        on_tmr (klist_init (NTimer t)) ;;
        on_tmr (timer_upd t (set_timer_obj_type RHINO_TIMER_OBJ_TYPE)) ;;
        if auto_run then on_ker (krhino_timer_start loc timer) else ret RHINO_SUCCESS
  | _, _, _ => ret RHINO_NULL_PTR
  end.

Definition krhino_timer_create (loc : nat) (timer : option nat) (name : option string) (cb : option nat)
    (first round arg : Z) (auto_run : bool) : st system kstat_t :=
  timer_create loc timer name cb first round arg auto_run K_OBJ_STATIC_ALLOC.

(** The configuration of the timer service. *)
Definition RHINO_CONFIG_TIMER_MSG_NUM : Z := 20.
Definition RHINO_CONFIG_TIMER_TASK_PRI : Z := 5.
Definition RHINO_CONFIG_TIMER_TASK_STACK_SIZE : Z := 200.

(** [timer_queue_cb], [g_timer_task], its stack and the entry of the task are
    static; [buf] is the former's contents. *)
Definition ktimer_init (buf : list Z) (g_timer_task : tid) (stack entry : nat) : st system unit :=
  on_tmr (klist_init NTimerHead) ;;
  on_ker (krhino_fix_buf_queue_create (Some g_timer_queue) (Some "timer_queue"%string) (Some buf)
    sizeof_cb RHINO_CONFIG_TIMER_MSG_NUM) ;;
  on_ker (krhino_task_create (Some g_timer_task) (Some "timer_task"%string) RHINO_CONFIG_TIMER_TASK_PRI 0
    (Some stack) RHINO_CONFIG_TIMER_TASK_STACK_SIZE (Some entry) true) ;;
  ret tt.
End Api.

(** ** A command survives its way through memory *)

Section Bytes.
Implicit Types (um : gmap nat Z) (a n : nat) (bs : list Z).

Lemma le_bytes_length n z : length (le_bytes n z) = n.
Proof. revert z. induction n as [|n IH]; intros z; simpl; [done|]. by rewrite IH. Qed.

Lemma le_roundtrip n z : 0 <= z < 2 ^ (8 * Z.of_nat n) -> le_value (le_bytes n z) = z.
Proof.
  revert z. induction n as [|n IH]; intros z Hz; simpl; [simpl in Hz; lia|].
  rewrite Z.shiftr_div_pow2 by lia. change (2 ^ 8) with 256. assert (Z.land z 0xff = z mod 256) as -> by (apply (Z.land_ones z 8); lia).
  rewrite IH; [pose proof (Z.div_mod z 256); lia|].
  replace (8 * Z.of_nat (S n)) with (8 * Z.of_nat n + 8) in Hz by lia. rewrite Z.pow_add_r in Hz by lia. change (2 ^ 8) with 256 in Hz.
  split; [apply Z.div_pos; lia|]. apply Z.div_lt_upper_bound; lia.
Qed.

Lemma cells_read_ext um um' a n :
  (forall c, (a <= c < a + n)%nat -> um' !! c = um !! c) -> cells_read um' a n = cells_read um a n.
Proof.
  revert a. induction n as [|n IH]; intros a H; simpl; [done|]. rewrite H by lia.
  destruct (um !! a); [|done]. f_equal. apply IH. intros c Hc. apply H. lia.
Qed.

Lemma cells_read_away um a d b n : (b + n <= a \/ a + length d <= b)%nat -> cells_read (cells_write um a d) b n = cells_read um b n.
Proof. intros H. apply cells_read_ext. intros c Hc. apply cells_write_other. lia. Qed.

Lemma cells_read_split um a n m :
  length (cells_read um a n) = n -> cells_read um a (n + m) = cells_read um a n ++ cells_read um (a + n) m.
Proof.
  revert a. induction n as [|n IH]; intros a H; simpl in *; [by rewrite Nat.add_0_r|].
  destruct (um !! a); simpl in *; [|done]. f_equal. rewrite IH by lia. do 2 f_equal. lia.
Qed.

(** A buffer that is mapped stays mapped. *)
Lemma cells_full um a n : length (cells_read um a n) = n <-> forall c, (a <= c < a + n)%nat -> is_Some (um !! c).
Proof.
  revert a. induction n as [|n IH]; intros a; simpl; [split; [lia|done]|]. split.
  - intros H c Hc. destruct (um !! a) as [z|] eqn:E; [|done]. simpl in H. destruct (decide (c = a)) as [->|]; [eauto|].
    apply (proj1 (IH (S a))); [lia|lia].
  - intros H. destruct (H a) as [z E]; [lia|]. rewrite E. simpl. f_equal. apply IH. intros c Hc. apply H. lia.
Qed.

Lemma cells_write_full um a d b n :
  length (cells_read um b n) = n -> length (cells_read (cells_write um a d) b n) = n.
Proof.
  rewrite !cells_full. intros H c Hc. destruct (decide (a <= c < a + length d)%nat) as [Hin|Hout].
  - clear H Hc. revert um a Hin. induction d as [|z d IH]; intros um a Hin; simpl in *; [lia|].
    destruct (decide (c = a)) as [->|]; [|apply IH; lia].
    rewrite cells_write_other by lia. rewrite lookup_insert_eq. eauto.
  - rewrite cells_write_other by lia. by apply H.
Qed.

Lemma cells_read_back um a d n : length d = n -> cells_read (cells_write um a d) a n = d.
Proof. intros <-. apply cells_read_write. Qed.

(** The pieces of a command. *)
Lemma cb_pieces um cb :
  length (cells_read um cb 24) = 24%nat ->
  cells_read um cb 24 = cells_read um cb 4 ++ cells_read um (cb + 4) 1 ++ cells_read um (cb + 5) 3 ++
    cells_read um (cb + 8) 8 ++ cells_read um (cb + 16) 8.
Proof.
  rewrite cells_full. intros H.
  assert (HF : forall b n, (cb <= b)%nat -> (b + n <= cb + 24)%nat -> length (cells_read um b n) = n).
  { intros b n H1 H2. apply cells_full. intros c Hc. apply H. lia. }
  change 24%nat with (4 + (1 + (3 + (8 + 8))))%nat. rewrite !cells_read_split by (apply HF; lia).
  by replace (cb + 4 + 1)%nat with (cb + 5)%nat by lia; replace (cb + 5 + 3)%nat with (cb + 8)%nat by lia;
    replace (cb + 8 + 8)%nat with (cb + 16)%nat by lia.
Qed.

Lemma cb_decode bt num pad bf bu :
  length bt = 4%nat -> length pad = 3%nat -> length bf = 8%nat -> length bu = 8%nat ->
  cb_of_bytes (bt ++ [num] ++ pad ++ bf ++ bu) =
    mkCb (Z.to_nat (le_value bt)) num (le_value bf) (le_value bu) (le_value (take 4 bu)).
Proof.
  intros H1 H2 H3 H4.
  do 4 (destruct bt as [|? bt]; [discriminate H1|]). destruct bt; [|discriminate H1].
  do 3 (destruct pad as [|? pad]; [discriminate H2|]). destruct pad; [|discriminate H2].
  do 8 (destruct bf as [|? bf]; [discriminate H3|]). destruct bf; [|discriminate H3].
  do 8 (destruct bu as [|? bu]; [discriminate H4|]). destruct bu; [|discriminate H4]. reflexivity.
Qed.
End Bytes.

(** ** Sending a command *)

Section Send.
Implicit Types (s : kstate) (A : queues) (o : oid) (v : kbuf_queue_t) (ms : list (list Z)) (cb t : nat) (um : gmap nat Z).

(** The queue [ktimer_init] creates. *)
Definition timer_queue_ok s o v ms : Prop :=
  has_type s o RHINO_BUF_QUEUE_OBJ_TYPE /\ bufqs (ob s) !! o = Some v /\ bufq_rep v ms /\
  rb_type (bq_ringbuf v) = RINGBUF_TYPE_FIX /\ Z.of_nat (rb_blk_size (bq_ringbuf v)) = sizeof_cb /\ max_msg_size v = sizeof_cb.

(** Only the local variable changes. *)
Definition local_only cb um um' : Prop := forall c, (c < cb \/ cb + 24 <= c)%nat -> um' !! c = um !! c.

(** A command of which [P] holds is on its way: it waits in the queue behind
    [ms], or it is in the buffer of the timer task, which is ready; or the
    queue was full. *)
Inductive command_sent s A o v ms cb (P : k_timer_queue_cb -> Prop) : kstat_t -> kstate -> queues -> Prop :=
  | SentFull um : A (LBlk o) = [] -> fix_verdict (bq_ringbuf v) 24 = RHINO_RINGBUF_FULL -> local_only cb (umem s) um ->
      command_sent s A o v ms cb P RHINO_BUF_QUEUE_FULL (redata s (ob s) um) A
  | SentStored um v' bs : A (LBlk o) = [] -> local_only cb (umem s) um -> P (cb_of_bytes bs) -> bufq_rep v' (ms ++ [bs]) ->
      command_sent s A o v ms cb P RHINO_SUCCESS (with_bufq (redata s (ob s) um) o v' um) A
  | SentHanded t ts x um s' A' : A (LBlk o) = t :: ts -> tcbs s !! t = Some x ->
      P (cb_of_bytes (cells_read (umem s') (Z.to_nat (task_msg x)) 24)) ->
      released (redata s (ob s) um) s' A A' t o (filled sizeof_cb) ->
      command_sent s A o v ms cb P RHINO_SUCCESS s' A'.

Lemma wp_umem_copy s a bs (Q : unit -> kstate -> Prop) :
  Q tt (redata s (ob s) (cells_write (umem s) a bs)) -> wp (umem_copy a bs) Q s.
Proof. intros HQ. unfold umem_copy. by wsteps. Qed.

Lemma wp_command s A o v ms cb um (P : k_timer_queue_cb -> Prop) (Q : kstat_t -> kstate -> Prop) :
  kwf s A -> timer_queue_ok s o v ms -> local_only cb (umem s) um -> length (cells_read um cb 24) = 24%nat ->
  P (cb_of_bytes (cells_read um cb 24)) ->
  (forall r s' A', command_sent s A o v ms cb P r s' A' -> kwf s' A' -> Q r s') ->
  wp (krhino_buf_queue_send (Some o) (Some cb) sizeof_cb) Q (redata s (ob s) um).
Proof.
  intros HW (Ht & Hv & Hr & Hty & Hbs & Hmx) Hloc Hlen HP HQ.
  assert (Hc : ring_copied (bq_ringbuf v) 24 = 24%nat) by (unfold ring_copied; rewrite Hty; simpl; unfold sizeof_cb in Hbs; lia).
  assert (Hvd : ring_verdict (bq_ringbuf v) 24 = fix_verdict (bq_ringbuf v) 24) by (unfold ring_verdict; by rewrite Hty).
  assert (HW1 : kwf (redata s (ob s) um) A) by (apply kwf_data; [done|apply data_ok_um, HW]).
  apply (wp_buf_queue_send (redata s (ob s) um) A o v ms);
    change (Z.to_nat sizeof_cb) with 24%nat; rewrite ?Hc, ?Hvd, ?Hmx; [done..| | | | |].
  - unfold sizeof_cb. lia.
  - unfold sizeof_cb. lia.
  - intros _ HA Hf. assert (fix_verdict (bq_ringbuf v) 24 = RHINO_RINGBUF_FULL) as E.
    { unfold fix_verdict in *. repeat case_match; congruence. }
    rewrite E. apply (HQ _ _ A); [by apply SentFull|done].
  - intros v' _ HA _ Hr' HW'. apply (HQ _ _ A); [|done]. eapply SentStored; eauto.
  - intros t ts x s' A' _ HA _ Hx HW' Hrel. apply (HQ _ _ A'); [|done].
    pose proof Hrel as (_ & _ & _ & _ & _ & _ & Hum & _). cbn [umem redata] in Hum.
    eapply (SentHanded _ _ _ _ _ _ _ t ts x); [done|done| |exact Hrel].
    rewrite Hum, (cells_read_back _ _ _ 24%nat) by done. done.
Qed.

(** The memory with a command in the local variable; [mm] are the writes
    between the first and the last. *)
Definition cb_memory cb t (mm : gmap nat Z -> gmap nat Z) (num : Z) um : gmap nat Z :=
  cells_write (mm (cells_write um cb (le_bytes 4 (Z.of_nat t)))) (cb + 4) [num].

Lemma wp_timer_send s A o v ms cb t more mm num (P : k_timer_queue_cb -> Prop) (Q : kstat_t -> kstate -> Prop) :
  kwf s A -> timer_queue_ok s o v ms -> length (cells_read (umem s) cb 24) = 24%nat ->
  (forall s1 (K : unit -> kstate -> Prop), K tt (redata s1 (ob s1) (mm (umem s1))) -> wp more K s1) ->
  (forall um, local_only cb um (mm um)) -> (forall um, length (cells_read um cb 24) = 24%nat -> length (cells_read (mm um) cb 24) = 24%nat) ->
  (let um := cb_memory cb t mm num (umem s) in length (cells_read um cb 24) = 24%nat -> P (cb_of_bytes (cells_read um cb 24))) ->
  (forall r s' A', command_sent s A o v ms cb P r s' A' -> kwf s' A' -> Q r s') ->
  wp (timer_send o cb (Some t) more num) Q s.
Proof.
  intros HW HT Hlen Hmore Hloc Hmm HP HQ. set (um := cb_memory cb t mm num (umem s)) in *.
  assert (Hlen' : length (cells_read um cb 24) = 24%nat) by (apply cells_write_full, Hmm, cells_write_full, Hlen).
  unfold timer_send. apply wp_bind, wp_umem_copy. apply wp_bind, Hmore. apply wp_bind, wp_umem_copy.
  apply (wp_command s A o v ms cb um P); [done|done| |done|by apply HP|done].
  intros c Hc. unfold um, cb_memory. rewrite cells_write_other by (simpl; lia). rewrite Hloc by done.
  apply cells_write_other. rewrite le_bytes_length. lia.
Qed.
End Send.

(** ** The interface functions *)

Section Functions.
Implicit Types (s : kstate) (A : queues) (o : oid) (v : kbuf_queue_t) (ms : list (list Z)) (cb t : nat) (um : gmap nat Z).

Lemma cb_decode_memory um cb t num :
  length (cells_read um cb 24) = 24%nat -> cells_read um cb 4 = le_bytes 4 (Z.of_nat t) -> cells_read um (cb + 4) 1 = [num] ->
  Z.of_nat t < 2 ^ 32 ->
  cb_of_bytes (cells_read um cb 24) =
    mkCb t num (le_value (cells_read um (cb + 8) 8)) (le_value (cells_read um (cb + 16) 8)) (le_value (cells_read um (cb + 16) 4)).
Proof.
  intros Hlen E1 E2 Ht.
  assert (HF : forall b n, (cb <= b)%nat -> (b + n <= cb + 24)%nat -> length (cells_read um b n) = n).
  { intros b n H1 H2. apply cells_full. intros c Hc. apply (proj1 (cells_full _ _ _) Hlen). lia. }
  rewrite cb_pieces, E1, E2, cb_decode by (done || apply le_bytes_length || (apply HF; lia)).
  rewrite le_roundtrip by lia. rewrite Nat2Z.id. f_equal. f_equal.
  change 8%nat with (4 + 4)%nat. rewrite cells_read_split by (apply HF; lia).
  rewrite take_app_le, take_ge by (rewrite HF; lia). done.
Qed.

Lemma cb_memory_decode cb t mm num um :
  (forall um, cells_read (mm um) cb 4 = cells_read um cb 4) -> Z.of_nat t < 2 ^ 32 ->
  let um' := cb_memory cb t mm num um in
  length (cells_read um' cb 24) = 24%nat ->
  cb_of_bytes (cells_read um' cb 24) =
    mkCb t num (le_value (cells_read um' (cb + 8) 8)) (le_value (cells_read um' (cb + 16) 8)) (le_value (cells_read um' (cb + 16) 4)).
Proof.
  intros Hmm Ht um' Hlen. apply cb_decode_memory; [done| | |done]; unfold um', cb_memory.
  - rewrite cells_read_away by (simpl; lia). rewrite Hmm. apply cells_read_back, le_bytes_length.
  - by apply cells_read_back.
Qed.

(** The commands that carry no data. *)
Lemma wp_plain_command s A o v ms cb t num (Q : kstat_t -> kstate -> Prop) :
  kwf s A -> timer_queue_ok s o v ms -> length (cells_read (umem s) cb 24) = 24%nat -> Z.of_nat t < 2 ^ 32 ->
  (forall r s' A', command_sent s A o v ms cb (fun c => cb_timer c = t /\ cb_num c = num) r s' A' -> kwf s' A' -> Q r s') ->
  wp (timer_send o cb (Some t) (ret tt) num) Q s.
Proof.
  intros HW HT Hlen Ht HQ. apply (wp_timer_send s A o v ms cb t _ (fun um => um) num (fun c => cb_timer c = t /\ cb_num c = num));
    [done|done|done| |done|done| |done].
  - intros [] K HK. by apply wp_ret.
  - intros um Hl. unfold um in *. by rewrite cb_memory_decode.
Qed.

Lemma wp_arg_command s A o v ms cb t num arg (Q : kstat_t -> kstate -> Prop) :
  kwf s A -> timer_queue_ok s o v ms -> length (cells_read (umem s) cb 24) = 24%nat -> Z.of_nat t < 2 ^ 32 -> 0 <= arg < 2 ^ 32 ->
  (forall r s' A', command_sent s A o v ms cb (fun c => cb_timer c = t /\ cb_num c = num /\ u_arg c = arg) r s' A' -> kwf s' A' -> Q r s') ->
  wp (timer_send o cb (Some t) (umem_copy (cb + 16) (le_bytes 4 arg)) num) Q s.
Proof.
  intros HW HT Hlen Ht Ha HQ. set (mm um := cells_write um (cb + 16) (le_bytes 4 arg)).
  apply (wp_timer_send s A o v ms cb t _ mm num (fun c => cb_timer c = t /\ cb_num c = num /\ u_arg c = arg));
    [done|done|done| | | | |done].
  - intros s1 K HK. by apply wp_umem_copy.
  - intros um c Hc. apply cells_write_other. rewrite le_bytes_length. lia.
  - intros um Hl. by apply cells_write_full.
  - intros um Hl. unfold um in *. rewrite cb_memory_decode; [|intros; apply cells_read_away; lia|done|done].
    split_and!; [done..|]. cbn [u_arg]. unfold cb_memory, mm. rewrite cells_read_away by (simpl; lia).
    rewrite cells_read_back by apply le_bytes_length. by apply le_roundtrip.
Qed.

Lemma wp_change_command s A o v ms cb t first round (Q : kstat_t -> kstate -> Prop) :
  kwf s A -> timer_queue_ok s o v ms -> length (cells_read (umem s) cb 24) = 24%nat -> Z.of_nat t < 2 ^ 32 ->
  0 <= first < 2 ^ 64 -> 0 <= round < 2 ^ 64 ->
  (first = 2 ^ 64 - 1 \/ round = 2 ^ 64 - 1 -> Q RHINO_INV_PARAM s) ->
  (forall r s' A', command_sent s A o v ms cb (fun c => cb_timer c = t /\ cb_num c = TIMER_CMD_CHG /\ cb_first c = first /\ u_round c = round) r s' A' ->
     kwf s' A' -> Q r s') ->
  wp (krhino_timer_change o cb (Some t) first round) Q s.
Proof.
  intros HW HT Hlen Ht Hf Hr HQ0 HQ. unfold krhino_timer_change.
  destruct (Z.leb_spec (2 ^ 64 - 1) first); [apply wp_ret, HQ0; lia|].
  destruct (Z.leb_spec (2 ^ 64 - 1) round); [apply wp_ret, HQ0; lia|].
  set (mm um := cells_write (cells_write um (cb + 8) (le_bytes 8 first)) (cb + 16) (le_bytes 8 round)).
  apply (wp_timer_send s A o v ms cb t _ mm TIMER_CMD_CHG
    (fun c => cb_timer c = t /\ cb_num c = TIMER_CMD_CHG /\ cb_first c = first /\ u_round c = round)); [done|done|done| | | | |done].
  - intros s1 K HK. by apply wp_bind, wp_umem_copy, wp_umem_copy.
  - intros um c Hc. unfold mm. rewrite !cells_write_other by (rewrite le_bytes_length; lia). done.
  - intros um Hl. by apply cells_write_full, cells_write_full.
  - intros um Hl. unfold um in *.
    rewrite cb_memory_decode; [|intros; unfold mm; rewrite !cells_read_away by (rewrite ?le_bytes_length; lia); done|done|done].
    cbn [cb_timer cb_num cb_first u_round]. unfold cb_memory, mm. split_and!; [done..| |].
    + rewrite !cells_read_away by (simpl; rewrite ?le_bytes_length; lia).
      rewrite cells_read_back by apply le_bytes_length. apply le_roundtrip. lia.
    + rewrite cells_read_away by (simpl; lia). rewrite cells_read_back by apply le_bytes_length. apply le_roundtrip. lia.
Qed.
End Functions.

(** ** Creating timers *)

Section Creation.
Implicit Types (S : system) (A : queues) (L : list nat) (t : nat) (o : oid).

Lemma wp_on_tmr {R} (m : st tstate R) (Q : R -> system -> Prop) S :
  wp m (fun a x => Q a (mkSys (ker S) x)) (tmr S) -> wp (on_tmr m) Q S.
Proof. unfold wp, on_tmr. by destruct (m (tmr S)) as [[]|]. Qed.

Lemma wp_on_ker {R} (m : M R) (Q : R -> system -> Prop) S :
  wp m (fun a k => Q a (mkSys k (tmr S))) (ker S) -> wp (on_ker m) Q S.
Proof. unfold wp, on_ker. by destruct (m (ker S)) as [[]|]. Qed.

(** The links of a timer that is in no list do not matter. *)
Lemma tinv_relink s L t l :
  tinv s L -> t ∉ L -> (forall n, n <> NTimer t -> k_next l !! n = k_next (t_links s) !! n /\ k_prev l !! n = k_prev (t_links s) !! n) ->
  tinv (with_t_links l s) L.
Proof.
  intros [HG ???] Ht Hl. split; simpl; [|done..]. eapply rings_frame; [exact HG|]. intros n [i Hn]. apply Hl. intros ->.
  by apply (tring_unlinked L t Ht i).
Qed.

(** The arguments [timer_create] accepts. *)
Definition times_ok (first round : Z) : bool :=
  negb (first =? 0) && (first <? MAX_TIMER_TICKS) && (round <? MAX_TIMER_TICKS).

(** [krhino_timer_create] refuses times out of range; otherwise the memory
    holds a timer that is not active and the list of active timers is as
    before; with [auto_run] the command to start it is sent. *)
Lemma wp_timer_create S A L o v ms loc t name f first round arg auto_run (Q : kstat_t -> system -> Prop) :
  kwf (ker S) A -> timer_queue_ok (ker S) o v ms -> length (cells_read (umem (ker S)) loc 24) = 24%nat ->
  tinv (tmr S) L -> reusable (tmr S) t -> Z.of_nat t < 2 ^ 32 -> 0 <= first < 2 ^ 64 -> 0 <= round < 2 ^ 64 ->
  (times_ok first round = false -> Q RHINO_INV_PARAM S) ->
  (forall tm, times_ok first round = true -> tinv tm L ->
     timers tm = <[t := timer_fields f first round arg RHINO_TIMER_OBJ_TYPE K_OBJ_STATIC_ALLOC]> (timers (tmr S)) ->
     g_timer_count tm = g_timer_count (tmr S) -> calls tm = calls (tmr S) ->
     (auto_run = false -> Q RHINO_SUCCESS (mkSys (ker S) tm)) /\
     (auto_run = true -> forall r k A', kwf k A' ->
        command_sent (ker S) A o v ms loc (fun c => cb_timer c = t /\ cb_num c = TIMER_CMD_START) r k A' -> Q r (mkSys k tm))) ->
  wp (krhino_timer_create o loc (Some t) (Some name) (Some f) first round arg auto_run) Q S.
Proof.
  intros HW HT Hlen HI Hre Ht Hf Hr HQ0 HQ. unfold krhino_timer_create, timer_create. unfold times_ok in *.
  destruct (Z.eqb_spec first 0); [apply wp_ret; auto|].
  destruct (Z.leb_spec MAX_TIMER_TICKS first); [apply wp_ret, HQ0; by rewrite (proj2 (Z.ltb_ge first _))|].
  destruct (Z.leb_spec MAX_TIMER_TICKS round); [apply wp_ret, HQ0; rewrite (proj2 (Z.ltb_ge round _)) by done; apply andb_false_r|].
  rewrite !(proj2 (Z.ltb_lt _ _)) in HQ by done. apply wp_bind, wp_gets. apply wp_bind, wp_on_tmr, wp_modify.
  set (x := timer_fields f first round arg RHINO_TIMER_OBJ_TYPE K_OBJ_STATIC_ALLOC) in *.
  apply wp_bind, wp_on_tmr. red. simpl. apply wp_bind, wp_on_tmr. cbn [tmr ker].
  eapply wp_timer_upd; [simpl; apply lookup_insert_eq|]. simpl. rewrite insert_insert_eq.
  match goal with |- wp _ _ (mkSys _ ?z) => set (tm := z) end.
  assert (Hx : new_timer x) by (unfold x, new_timer, timer_ok; simpl; split_and!; done || lia).
  destruct (tinv_create _ _ t x HI Hre Hx) as [HI1 Hn].
  destruct (HQ tm) as [HQ1 HQ2]; [done| |done|done|done|].
  { apply (tinv_relink _ L t _ HI1 Hn). intros nd Hne. simpl. by rewrite !lookup_insert_ne. }
  destruct auto_run; [|apply wp_ret; auto]. apply wp_on_ker. cbn [ker tmr].
  apply (wp_plain_command (ker S) A o v ms loc t); [done..|]. intros r k A' Hs HW'. by eapply HQ2.
Qed.
End Creation.
