(* ===== verification/Sys.v ===== *)
(** * System start and interrupts (k_sys.c)

    Entering and leaving interrupt handlers, locking the scheduler, and the
    tick interrupt as a whole. *)

From stdpp Require Import functions.
From S2P Require Import Prelude.
From S2P Require Import Monad.
From S2P Require Import Links.
From S2P Require Import KState.
From S2P Require Import Bitmap.
From S2P Require Import Sched.
From S2P Require Import Pend.
From S2P Require Import Inv.
From S2P Require Import MInv.
From S2P Require Import ObjInv.
From S2P Require Import Resched.
From S2P Require Import Block.
From S2P Require Import Prio.
From S2P Require Import PrioInv.
From S2P Require Import Tick.
From S2P Require Import Task.

Definition RHINO_CONFIG_IDLE_TASK_STACK_SIZE : Z := 256.

(** [cpu_first_task_start] clears PRIMASK and enters the first task through
    PendSV; the call does not return in the caller's context. *)
Definition cpu_first_task_start : M unit :=
  mod_gl (set_pendsv true) ;;
  cpu_intrpt_restore false.

(** [krhino_init]; [workqueue_init] and [ktimer_init] create the tasks and
    queues of the work queue and the software timers and are arguments.  The
    idle task is task 0; the other options of [krhino_init] are off. *)
Definition krhino_init (workqueue_init ktimer_init : M unit) : M kstat_t :=
  mod_gl (set_g_sys_stat RHINO_STOPPED) ;;
  runqueue_init ;;
  tick_list_init ;;
  krhino_task_create (Some 0%nat) (Some "idle_task"%string) RHINO_IDLE_PRI 0
    (Some 0%nat) RHINO_CONFIG_IDLE_TASK_STACK_SIZE (Some 0%nat) true ;;
  workqueue_init ;;
  ktimer_init ;;
  ret RHINO_SUCCESS.

Definition krhino_start : M kstat_t :=
  g <- gets gl ;;
  if bool_decide (g_sys_stat g = RHINO_STOPPED) then
    preferred_cpu_ready_task_get ;;
    mod_gl (fun g => set_g_active_task (g_preferred_ready_task g) g) ;;
    mod_gl (set_g_sys_stat RHINO_RUNNING) ;;
    cpu_first_task_start ;;
    ret RHINO_SYS_FATAL_ERR
  else ret RHINO_RUNNING.

Definition krhino_intrpt_enter : M kstat_t :=
  psr <- cpu_intrpt_save ;;
  g <- gets gl ;;
  if RHINO_CONFIG_INTRPT_MAX_NESTED_LEVEL <=? g_intrpt_nested_level g then
    k_err_proc RHINO_INTRPT_NESTED_LEVEL_OVERFLOW ;;
    cpu_intrpt_restore psr ;;
    ret RHINO_INTRPT_NESTED_LEVEL_OVERFLOW
  else
    mod_gl (fun g => set_g_intrpt_nested_level (u8 (g_intrpt_nested_level g + 1)) g) ;;
    cpu_intrpt_restore psr ;;
    ret RHINO_SUCCESS.

Definition krhino_intrpt_exit : M unit :=
  psr <- cpu_intrpt_save ;;
  g <- gets gl ;;
  when (g_intrpt_nested_level g =? 0) (
    cpu_intrpt_restore psr ;;
    k_err_proc RHINO_INV_INTRPT_NESTED_LEVEL) ;;
  mod_gl (fun g => set_g_intrpt_nested_level (u8 (g_intrpt_nested_level g - 1)) g) ;;
  g <- gets gl ;;
  if 0 <? g_intrpt_nested_level g then cpu_intrpt_restore psr
  else if 0 <? g_sched_lock g then cpu_intrpt_restore psr
  else
    preferred_cpu_ready_task_get ;;
    g' <- gets gl ;;
    if bool_decide (g_preferred_ready_task g' = g_active_task g') then cpu_intrpt_restore psr
    else
      cpu_intrpt_switch ;;
      cpu_intrpt_restore psr.

(** ** The scheduler lock *)

Section Lock.
Implicit Types (s : kstate) (A : queues).

(** The globals change in counters only. *)
Lemma kgood_counters s A g :
  kgood s A -> gl_ok g -> g_active_task g = g_active_task (gl s) -> g_tick_count g = g_tick_count (gl s) ->
  kgood (with_gl g s) A.
Proof. intros HK Hg Ea Et. apply kgood_gl; [done|done| |done]. rewrite Ea. apply (ki_active _ _ (kg_inv _ _ HK)). Qed.

Definition with_lock (n : Z) s : kstate := with_gl (set_g_sched_lock n (gl s)) s.

Lemma gl_ok_lock n g : gl_ok g -> 0 <= n <= SCHED_MAX_LOCK_COUNT -> gl_ok (set_g_sched_lock n g).
Proof. intros [] Hn. by split. Qed.

Lemma unmask_lock n s A :
  kwf s A -> with_gl (set_primask false (set_g_sched_lock n (set_primask true (gl s)))) s = with_lock n s.
Proof. intros HW. pose proof (kw_mask _ _ HW). unfold with_lock. destruct s, gl; simpl in *. by subst. Qed.

(** The lock is held. *)
Lemma kwf_locked s A n :
  kwf s A -> g_intrpt_nested_level (gl s) = 0 -> 0 < n <= SCHED_MAX_LOCK_COUNT -> kwf (with_lock n s) A.
Proof.
  intros HW E0 Hn. split; simpl; [|apply HW| |].
  - apply kgood_counters; [apply HW|apply gl_ok_lock; [apply (kw_gl _ _ HW)|lia]|done|done].
  - intros _. destruct (kwf_active _ _ HW E0) as (a & x & ?). by exists a, x.
  - unfold no_sched. simpl. rewrite (proj2 (Z.ltb_lt 0 n)) by lia. by rewrite orb_true_r.
Qed.

(** Storing the count and leaving the critical section. *)
Lemma wp_lock_exit {R : Type} s A n (r : R) (Q : R -> kstate -> Prop) :
  kwf s A -> g_intrpt_nested_level (gl s) = 0 -> 0 < n <= SCHED_MAX_LOCK_COUNT ->
  (kwf (with_lock n s) A -> Q r (with_lock n s)) ->
  wp (critical_exit false ;; ret r) Q (with_gl (set_g_sched_lock n (set_primask true (gl s))) s).
Proof.
  intros HW E0 Hn HQ. apply wp_bind, wp_critical_exit.
  - apply gl_ok_lock, conj; [|lia..]. apply gl_ok_mask, (kw_gl _ _ HW).
  - apply wp_ret. pose proof (unmask_lock n s A HW) as E. unfold with_gl in *. simpl. rewrite E. by apply HQ, kwf_locked.
Qed.

Lemma wp_sched_disable s A (Q : kstat_t -> kstate -> Prop) :
  kwf s A ->
  (0 < g_intrpt_nested_level (gl s) -> Q RHINO_NOT_CALLED_BY_INTRPT s) ->
  (g_intrpt_nested_level (gl s) = 0 -> g_sched_lock (gl s) = SCHED_MAX_LOCK_COUNT -> Q RHINO_SCHED_LOCK_COUNT_OVF s) ->
  (let s' := with_lock (g_sched_lock (gl s) + 1) s in
   g_intrpt_nested_level (gl s) = 0 -> g_sched_lock (gl s) < SCHED_MAX_LOCK_COUNT -> kwf s' A -> Q RHINO_SUCCESS s') ->
  wp krhino_sched_disable Q s.
Proof.
  intros HW Q1 Q2 Q3. unfold krhino_sched_disable. apply wp_bind, (wp_kwf_enter A); [done|].
  apply wp_bind, wp_gets. simpl g_intrpt_nested_level. simpl g_sched_lock.
  pose proof (kw_gl _ _ HW) as [Hn Hl _ _ _]. assert (SCHED_MAX_LOCK_COUNT < 2 ^ 8 - 1) as Hmax by done.
  destruct (Z.ltb_spec 0 (g_intrpt_nested_level (gl s))); [apply (wp_exit_ret A); auto|].
  destruct (Z.leb_spec SCHED_MAX_LOCK_COUNT (g_sched_lock (gl s))); [apply (wp_exit_ret A); [done|]; apply Q2; lia|].
  assert (E0 : g_intrpt_nested_level (gl s) = 0) by lia.
  apply wp_bind. wstep. simpl g_sched_lock. rewrite wrap_small by lia.
  apply (wp_lock_exit s A (g_sched_lock (gl s) + 1)); [done|done|lia|]. apply Q3; [done|lia].
Qed.

Lemma wp_sched_enable s A (Q : kstat_t -> kstate -> Prop) :
  kwf s A ->
  (0 < g_intrpt_nested_level (gl s) -> Q RHINO_NOT_CALLED_BY_INTRPT s) ->
  (g_intrpt_nested_level (gl s) = 0 -> g_sched_lock (gl s) = 0 -> Q RHINO_SCHED_ALREADY_ENABLED s) ->
  (let s' := with_lock (g_sched_lock (gl s) - 1) s in
   g_intrpt_nested_level (gl s) = 0 -> 1 < g_sched_lock (gl s) -> kwf s' A -> Q RHINO_SCHED_DISABLE s') ->
  (forall top, let s' := with_gl (resched top (set_g_sched_lock 0 (gl s))) s in
   g_intrpt_nested_level (gl s) = 0 -> g_sched_lock (gl s) = 1 -> kwf s' A -> top_ready A top -> Q RHINO_SUCCESS s') ->
  wp krhino_sched_enable Q s.
Proof.
  intros HW Q1 Q2 Q3 Q4. unfold krhino_sched_enable. apply wp_bind, (wp_kwf_enter A); [done|].
  apply wp_bind, wp_gets. simpl g_intrpt_nested_level. simpl g_sched_lock.
  pose proof (kw_gl _ _ HW) as [Hn Hl _ _ _]. assert (SCHED_MAX_LOCK_COUNT < 2 ^ 8 - 1) as Hmax by done.
  destruct (Z.ltb_spec 0 (g_intrpt_nested_level (gl s))); [apply (wp_exit_ret A); auto|].
  assert (E0 : g_intrpt_nested_level (gl s) = 0) by lia.
  destruct (Z.eqb_spec (g_sched_lock (gl s)) 0); [apply (wp_exit_ret A); auto|].
  apply wp_bind. wstep. simpl g_sched_lock. rewrite wrap_small by lia. apply wp_bind, wp_gets. simpl g_sched_lock.
  destruct (Z.ltb_spec 0 (g_sched_lock (gl s) - 1)).
  - apply (wp_lock_exit s A (g_sched_lock (gl s) - 1)); [done|done|lia|]. apply Q3; [done|lia].
  - assert (E1 : g_sched_lock (gl s) = 1) by lia. rewrite E1. simpl.
    apply (wp_exit_resched A (RHINO_SUCCESS) Q (with_gl (set_g_sched_lock 0 (set_primask true (gl s))) s)); simpl.
    + apply kgood_counters; [apply HW|by apply gl_ok_lock, conj; [apply gl_ok_mask, (kw_gl _ _ HW)|..]|done|done].
    + lia.
    + assert (E : forall t, resched t (set_g_sched_lock 0 (set_primask true (gl s))) = resched t (set_g_sched_lock 0 (gl s))).
      { intros t. unfold resched, no_sched. simpl. by destruct (_ || _). }
      intros top Htop. rewrite E. intros HW'. by apply Q4.
Qed.
End Lock.

(** ** Interrupts *)

Section Interrupt.
Implicit Types (s : kstate) (A : queues).

Definition with_nest (n : Z) s : kstate := with_gl (set_g_intrpt_nested_level n (gl s)) s.

Lemma gl_ok_nest n g :
  gl_ok g -> 0 <= n <= RHINO_CONFIG_INTRPT_MAX_NESTED_LEVEL -> gl_ok (set_g_intrpt_nested_level n g).
Proof. intros [] Hn. by split. Qed.

Lemma unmask_nest n s A :
  kwf s A -> with_gl (set_primask false (set_g_intrpt_nested_level n (set_primask true (gl s)))) s = with_nest n s.
Proof. intros HW. pose proof (kw_mask _ _ HW). unfold with_nest. destruct s, gl; simpl in *. by subst. Qed.

(** Inside a handler, or with the scheduler locked, the running task need
    not be the top task. *)
Lemma kwf_nest s A n :
  kwf s A -> 0 <= n <= RHINO_CONFIG_INTRPT_MAX_NESTED_LEVEL -> 0 < n \/ 0 < g_sched_lock (gl s) ->
  kwf (with_nest n s) A.
Proof.
  intros HW Hn Hor. split; simpl; [|apply HW| |].
  - apply kgood_counters; [apply HW|apply gl_ok_nest; [apply (kw_gl _ _ HW)|done]|done|done].
  - intros E. destruct (kw_active _ _ HW) as (a & x & ?); [lia|]. by exists a, x.
  - unfold no_sched. simpl. intros [H1%Z.ltb_ge H2%Z.ltb_ge]%orb_false_iff. lia.
Qed.

Lemma wp_nest_exit {R : Type} s A n (r : R) (Q : R -> kstate -> Prop) :
  kwf s A -> 0 <= n <= RHINO_CONFIG_INTRPT_MAX_NESTED_LEVEL -> 0 < n \/ 0 < g_sched_lock (gl s) ->
  (kwf (with_nest n s) A -> Q r (with_nest n s)) ->
  wp (cpu_intrpt_restore false ;; ret r) Q (with_gl (set_g_intrpt_nested_level n (set_primask true (gl s))) s).
Proof.
  intros HW Hn Hor HQ. apply wp_bind, wp_critical_exit.
  - apply gl_ok_nest; [|done]. apply gl_ok_mask, (kw_gl _ _ HW).
  - apply wp_ret. pose proof (unmask_nest n s A HW) as E. unfold with_gl in *. simpl. rewrite E. by apply HQ, kwf_nest.
Qed.

Lemma wp_intrpt_enter s A (Q : kstat_t -> kstate -> Prop) :
  kwf s A ->
  g_intrpt_nested_level (gl s) <> RHINO_CONFIG_INTRPT_MAX_NESTED_LEVEL ->
  (let s' := with_nest (g_intrpt_nested_level (gl s) + 1) s in kwf s' A -> Q RHINO_SUCCESS s') ->
  wp krhino_intrpt_enter Q s.
Proof.
  intros HW Q1 Q2. unfold krhino_intrpt_enter. apply wp_bind, (wp_kwf_enter A); [done|].
  apply wp_bind, wp_gets. simpl g_intrpt_nested_level.
  pose proof (kw_gl _ _ HW) as [Hn _ _ _ _]. assert (RHINO_CONFIG_INTRPT_MAX_NESTED_LEVEL < 2 ^ 8 - 1) as Hmax by done.
  destruct (Z.leb_spec RHINO_CONFIG_INTRPT_MAX_NESTED_LEVEL (g_intrpt_nested_level (gl s))).
  - lia.
  - apply wp_bind. wstep. simpl g_intrpt_nested_level. rewrite wrap_small by lia.
    apply (wp_nest_exit s A); [done|lia|lia|done].
Qed.

(** Too many nested interrupts end in the error handler. *)
Lemma intrpt_enter_hangs s A :
  kwf s A -> g_intrpt_nested_level (gl s) = RHINO_CONFIG_INTRPT_MAX_NESTED_LEVEL -> krhino_intrpt_enter s = None.
Proof.
  intros HW En. unfold krhino_intrpt_enter. apply stuck_bind, (wp_kwf_enter A); [done|]. apply stuck_bind, wp_gets.
  by rewrite (proj2 (Z.leb_le _ _)) by (simpl; lia).
Qed.

(** Leaving the last handler reschedules. *)
Lemma wp_intrpt_exit s A (Q : unit -> kstate -> Prop) :
  kwf s A -> 0 < g_intrpt_nested_level (gl s) ->
  (let s' := with_nest (g_intrpt_nested_level (gl s) - 1) s in
   1 < g_intrpt_nested_level (gl s) \/ 0 < g_sched_lock (gl s) -> kwf s' A -> Q tt s') ->
  (forall top, let s' := with_gl (resched top (set_g_intrpt_nested_level 0 (gl s))) s in
   g_intrpt_nested_level (gl s) = 1 -> g_sched_lock (gl s) = 0 -> kwf s' A -> top_ready A top -> Q tt s') ->
  wp krhino_intrpt_exit Q s.
Proof.
  intros HW Hpos Q1 Q2. unfold krhino_intrpt_exit. apply wp_bind, (wp_kwf_enter A); [done|].
  apply wp_bind, wp_gets. simpl g_intrpt_nested_level.
  pose proof (kw_gl _ _ HW) as [Hn Hl Hp _ _]. assert (RHINO_CONFIG_INTRPT_MAX_NESTED_LEVEL < 2 ^ 8 - 1) as Hmax by done.
  rewrite (proj2 (Z.eqb_neq _ 0)) by lia. apply wp_bind, wp_ret, wp_bind. wstep. simpl g_intrpt_nested_level.
  rewrite wrap_small by lia. apply wp_bind, wp_gets. simpl g_intrpt_nested_level. simpl g_sched_lock.
  set (n := g_intrpt_nested_level (gl s) - 1) in *.
  assert (Hkeep : 0 < n \/ 0 < g_sched_lock (gl s) ->
    wp (cpu_intrpt_restore false) Q (with_gl (set_g_intrpt_nested_level n (set_primask true (gl s))) s)).
  { intros Hor. pose proof (wp_nest_exit s A n tt Q HW ltac:(lia) Hor) as Hx. unfold wp, bind in *.
    destruct (cpu_intrpt_restore false _) as [[[] s']|]; apply Hx; intros HW'; apply Q1; [lia|done|lia|done]. }
  destruct (Z.ltb_spec 0 n); [apply Hkeep; lia|]. destruct (Z.ltb_spec 0 (g_sched_lock (gl s))); [apply Hkeep; lia|].
  assert (E1 : g_intrpt_nested_level (gl s) = 1) by lia. assert (n = 0) as -> by lia. clear Hkeep Q1.
  set (s1 := with_gl (set_g_intrpt_nested_level 0 (set_primask true (gl s))) s).
  assert (HK1 : kgood s1 A).
  { apply kgood_counters; [apply HW|apply gl_ok_nest; [by apply gl_ok_mask, (kw_gl _ _ HW)|lia]|done|done]. }
  destruct (kinv_top _ _ (kg_inv _ _ HK1)) as [top Htop].
  specialize (Q2 top ltac:(lia) ltac:(lia)).
  assert (HW' : kwf (with_gl (resched top (set_g_intrpt_nested_level 0 (gl s))) s) A).
  { pose proof (kwf_resched s1 A top HK1 Htop ltac:(simpl; lia)) as HW'.
    unfold s1, with_gl, resched, no_sched in *. simpl in *. by destruct (0 <? g_sched_lock (gl s)). }
  specialize (Q2 HW' Htop). unfold resched, no_sched in Q2. simpl in Q2. rewrite (proj2 (Z.ltb_ge 0 (g_sched_lock (gl s)))) in Q2 by lia.
  apply wp_bind, (wp_preferred_get A _ _ top); [apply (kg_inv _ _ HK1)|done|]. wsteps.
  unfold cpu_intrpt_restore, cpu_intrpt_switch, PendSV_Handler. unfold with_gl in *. simpl.
  case_bool_decide as Hb; wsteps; unfold pendsv_taken; simpl; rewrite ?Hp; simpl; wsteps.
  - destruct s, gl; simpl in *. by subst.
  - exact Q2.
Qed.

(** A tick: the clock and the sleepers first, then the time slice of the
    task that was running. *)
Lemma wp_tick_proc s A a y (Q : unit -> kstate -> Prop) :
  kwf s A -> 0 < g_intrpt_nested_level (gl s) -> g_active_task (gl s) = Some a -> tcbs s !! a = Some y ->
  (forall s1 A1 s' A' y', kwf s1 A1 -> tick_post s s1 A A1 -> tcbs s1 !! a = Some y' -> kwf s' A' ->
     (s' = s1 \/ exists u v r x, A1 (LReady (prio y')) = u :: v :: r /\ tcbs s1 !! u = Some x /\
        sched_policy x <> KSCHED_FIFO /\ slice_post s1 s' A1 A' (prio y') u x (v :: r) /\ gl s' = gl s1 /\ ob s' = ob s1) ->
     Q tt s') ->
  wp krhino_tick_proc Q s.
Proof.
  intros HW Hn Ha Hy HQ. unfold krhino_tick_proc. apply wp_bind, (wp_tick_list_update s A); [done..|].
  intros s1 A1 HW1 Hp. pose proof Hp as (Hpo & _ & Eg & _).
  destruct (ki_active _ _ (kw_inv _ _ HW1)) as (a' & y' & Ha' & Hy').
  assert (a' = a) as -> by (rewrite Eg in Ha'; simpl in Ha'; congruence).
  apply (wp_time_slice_update s1 A1 a y'); [done|by rewrite Eg|done|done| |].
  - intros _. apply (HQ s1 A1 s1 A1 y'); auto.
  - intros u v r x s' A' EA Hx Hpol HW' Hsp Eg' Eo'. apply (HQ s1 A1 s' A' y'); [done..|]. right. exists u, v, r, x. done.
Qed.
End Interrupt.
