(* ===== verification/Kernel.v ===== *)
(** * The kernel as a state machine

    One step is one call of an interface function by the running task or by
    an interrupt handler.  [kcall_ok] says which calls respect the calling
    contract; the result is that along every sequence of such calls no call
    faults and every state satisfies the boundary invariant [kwf]. *)

From stdpp Require Import functions.
From S2P Require Import Prelude.
From S2P Require Import Monad.
From S2P Require Import Links.
From S2P Require Import KState.
From S2P Require Import Bitmap.
From S2P Require Import Sched.
From S2P Require Import Pend.
From S2P Require Import Inv.
From S2P Require Import MInv.
From S2P Require Import ObjInv.
From S2P Require Import Resched.
From S2P Require Import Block.
From S2P Require Import Prio.
From S2P Require Import PrioInv.
From S2P Require Import Tick.
From S2P Require Import Sem.
From S2P Require Import Mutex.
From S2P Require Import Event.
From S2P Require Import Task.
From S2P Require Import RingBuf.
From S2P Require Import MutexDel.
From S2P Require Import TaskDel.
From S2P Require Import Queue.
From S2P Require Import BufQueue.
From S2P Require Import Create.
From S2P Require Import Sys.

Inductive kcall :=
  | CIntrptEnter | CIntrptExit | CTick
  | CSchedDisable | CSchedEnable
  | CSemGive (o : oid) | CSemGiveAll (o : oid) | CSemTake (o : oid) (ticks : Z) | CSemCountSet (o : oid) (c : Z) | CSemDel (o : oid)
  | CMutexLock (m : oid) (ticks : Z) | CMutexUnlock (m : oid)
  | CEventSetOr (e : oid) (fl : Z) | CEventSetAnd (e : oid) (fl : Z)
  | CEventGet (e : oid) (fl opt : Z) (out : nat) (ticks : Z) | CEventDel (e : oid)
  | CTaskCreate (t : tid) (pri ticks size : Z) (autorun : bool)
  | CTaskSleep (ticks : Z) | CTaskYield | CTaskSuspend (t : tid) | CTaskResume (t : tid)
  | CTaskPriChange (t : tid) (pri : Z) | CTimeSliceSet (t : tid) (slice : Z) | CPolicySet (t : tid) (policy : Z)
  | CMutexDel (m : oid) | CTaskDel (t : tid)
  | CQueueSend (o : oid) (msg : Z) (all : bool) | CQueueRecv (o : oid) (ticks : Z) (out : nat) | CQueueFlush (o : oid)
  | CQueueDel (o : oid)
  | CBufSend (o : oid) (msg : nat) (size : Z) | CBufRecv (o : oid) (ticks : Z) (buf size : nat) | CBufFlush (o : oid)
  | CBufDel (o : oid)
  | CSemCreate (o : oid) (c : Z) | CMutexCreate (m : oid) | CEventCreate (e : oid) (fl : Z)
  | CQueueCreate (o : oid) (addr : nat) (mem : list Z) (n : Z) | CBufCreate (o : oid) (mem : list Z) (size max : Z)
  | CFixBufCreate (o : oid) (mem : list Z) (size num : Z).

(** The interface function of a call. *)
Definition kcall_run (c : kcall) : M unit :=
  match c with
  | CIntrptEnter => krhino_intrpt_enter ;; ret tt
  | CIntrptExit => krhino_intrpt_exit
  | CTick => krhino_tick_proc
  | CSchedDisable => krhino_sched_disable ;; ret tt
  | CSchedEnable => krhino_sched_enable ;; ret tt
  | CSemGive o => krhino_sem_give (Some o) ;; ret tt
  | CSemGiveAll o => krhino_sem_give_all (Some o) ;; ret tt
  | CSemTake o ticks => krhino_sem_take (Some o) ticks ;; ret tt
  | CSemCountSet o c => krhino_sem_count_set (Some o) c ;; ret tt
  | CSemDel o => krhino_sem_del (Some o) ;; ret tt
  | CMutexLock m ticks => krhino_mutex_lock (Some m) ticks ;; ret tt
  | CMutexUnlock m => krhino_mutex_unlock (Some m) ;; ret tt
  | CEventSetOr e fl => krhino_event_set (Some e) fl RHINO_OR ;; ret tt
  | CEventSetAnd e fl => krhino_event_set (Some e) fl RHINO_AND ;; ret tt
  | CEventGet e fl opt out ticks => krhino_event_get (Some e) fl opt (Some out) ticks ;; ret tt
  | CEventDel e => krhino_event_del (Some e) ;; ret tt
  | CTaskCreate t pri ticks size autorun =>
      krhino_task_create (Some t) (Some "task"%string) pri ticks (Some 0%nat) size (Some 0%nat) autorun ;; ret tt
  | CTaskSleep ticks => krhino_task_sleep ticks ;; ret tt
  | CTaskYield => krhino_task_yield ;; ret tt
  | CTaskSuspend t => krhino_task_suspend (Some t) ;; ret tt
  | CTaskResume t => krhino_task_resume (Some t) ;; ret tt
  | CTaskPriChange t pri => krhino_task_pri_change (Some t) pri false ;; ret tt
  | CTimeSliceSet t slice => krhino_task_time_slice_set (Some t) slice ;; ret tt
  | CPolicySet t policy => krhino_sched_policy_set (Some t) policy ;; ret tt
  | CMutexDel m => krhino_mutex_del (Some m) ;; ret tt
  | CTaskDel t => krhino_task_del (Some t) ;; ret tt
  | CQueueSend o msg all => (if all then krhino_queue_all_send (Some o) msg else krhino_queue_back_send (Some o) msg) ;; ret tt
  | CQueueRecv o ticks out => krhino_queue_recv (Some o) ticks (Some out) ;; ret tt
  | CQueueFlush o => krhino_queue_flush (Some o) ;; ret tt
  | CQueueDel o => krhino_queue_del (Some o) ;; ret tt
  | CBufSend o msg size => krhino_buf_queue_send (Some o) (Some msg) size ;; ret tt
  | CBufRecv o ticks buf size => krhino_buf_queue_recv (Some o) ticks (Some buf) (Some size) ;; ret tt
  | CBufFlush o => krhino_buf_queue_flush (Some o) ;; ret tt
  | CBufDel o => krhino_buf_queue_del (Some o) ;; ret tt
  | CSemCreate o c => krhino_sem_create (Some o) (Some "sem"%string) c ;; ret tt
  | CMutexCreate m => krhino_mutex_create (Some m) (Some "mutex"%string) ;; ret tt
  | CEventCreate e fl => krhino_event_create (Some e) (Some "event"%string) fl ;; ret tt
  | CQueueCreate o addr mem n => krhino_queue_create (Some o) (Some "queue"%string) (Some (addr, mem)) n ;; ret tt
  | CBufCreate o mem size max => krhino_buf_queue_create (Some o) (Some "buf"%string) (Some mem) size max ;; ret tt
  | CFixBufCreate o mem size num => krhino_fix_buf_queue_create (Some o) (Some "buf"%string) (Some mem) size num ;; ret tt
  end.

(** The caller is an ordinary task: not the idle task. *)
Definition caller_ok (s : kstate) : Prop :=
  match g_active_task (gl s) with
  | Some a => match tcbs s !! a with Some x => prio x <> RHINO_IDLE_PRI | None => False end
  | None => False
  end.

Definition live_task (s : kstate) (t : tid) : Prop :=
  match tcbs s !! t with Some x => live (task_state x) = true | None => False end.

Definition wait_ok (ticks : Z) : Prop := ticks = RHINO_NO_WAIT \/ timeout_ok ticks.

(** A task of the application: not the idle task. *)
Definition app_task (s : kstate) (t : tid) : Prop :=
  match tcbs s !! t with Some x => live (task_state x) = true /\ prio x <> RHINO_IDLE_PRI | None => False end.

(** The bytes a send reads are there. *)
Definition readable (s : kstate) (o : oid) (msg : nat) (size : Z) : Prop :=
  match bufqs (ob s) !! o with
  | Some v => let copied := ring_copied (bq_ringbuf v) (Z.to_nat size) in
      length (cells_read (umem s) msg (Z.to_nat size)) = Z.to_nat size /\ length (cells_read (umem s) msg copied) = copied
  | None => False
  end.

(** The calling contract: the object passed is of the kind the function is
    for, 32-bit arguments are in range, timeouts are below 2^63 or "forever",
    the tick and [krhino_intrpt_exit] are called inside an interrupt, and the
    idle task does not block. *)
Definition kcall_ok (s : kstate) (c : kcall) : Prop :=
  match c with
  | CIntrptEnter | CSchedDisable | CSchedEnable => True
  | CIntrptExit | CTick => 0 < g_intrpt_nested_level (gl s)
  | CSemGive o | CSemGiveAll o => has_type s o RHINO_SEM_OBJ_TYPE
  | CSemTake o ticks => has_type s o RHINO_SEM_OBJ_TYPE /\ caller_ok s /\ wait_ok ticks
  | CSemCountSet o c => has_type s o RHINO_SEM_OBJ_TYPE /\ 0 <= c < 2 ^ 32
  | CSemDel o => has_type s o RHINO_SEM_OBJ_TYPE /\ g_intrpt_nested_level (gl s) = 0 /\
      (forall v, sems (ob s) !! o = Some v -> sem_mm_alloc_flag v = K_OBJ_STATIC_ALLOC)
  | CMutexLock m ticks => has_type s m RHINO_MUTEX_OBJ_TYPE /\ caller_ok s /\ wait_ok ticks
  | CMutexUnlock m => has_type s m RHINO_MUTEX_OBJ_TYPE
  | CEventSetOr e fl | CEventSetAnd e fl => has_type s e RHINO_EVENT_OBJ_TYPE /\ 0 <= fl < 2 ^ 32
  | CEventGet e fl opt out ticks =>
      has_type s e RHINO_EVENT_OBJ_TYPE /\ valid_opt opt /\ 0 <= fl < 2 ^ 32 /\ caller_ok s /\ wait_ok ticks
  | CEventDel e => has_type s e RHINO_EVENT_OBJ_TYPE /\ g_intrpt_nested_level (gl s) = 0 /\
      (forall v, events (ob s) !! e = Some v -> event_mm_alloc_flag v = K_OBJ_STATIC_ALLOC)
  | CTaskCreate t pri ticks size autorun => tcbs s !! t = None /\ 0 <= pri /\ 0 < g_idle_task_spawned (gl s)
  | CTaskSleep ticks => caller_ok s /\ 0 <= ticks < 2 ^ 63
  | CTaskYield => g_intrpt_nested_level (gl s) = 0
  | CTaskSuspend t | CTaskResume t | CTimeSliceSet t _ | CPolicySet t _ => live_task s t
  | CTaskPriChange t pri => live_task s t /\ 0 <= pri
  | CMutexDel m => has_type s m RHINO_MUTEX_OBJ_TYPE
  | CTaskDel t => app_task s t
  | CQueueSend o msg all => has_type s o RHINO_QUEUE_OBJ_TYPE /\ 0 <= msg < 2 ^ 32
  | CQueueRecv o ticks out =>
      has_type s o RHINO_QUEUE_OBJ_TYPE /\ (ticks = RHINO_NO_WAIT \/ timeout_ok ticks /\ caller_ok s)
  | CQueueFlush o => has_type s o RHINO_QUEUE_OBJ_TYPE
  | CQueueDel o => has_type s o RHINO_QUEUE_OBJ_TYPE /\ g_intrpt_nested_level (gl s) = 0 /\
      (forall v, kqueues (ob s) !! o = Some v -> q_mm_alloc_flag v = K_OBJ_STATIC_ALLOC)
  | CBufSend o msg size => has_type s o RHINO_BUF_QUEUE_OBJ_TYPE /\ 0 <= size /\ readable s o msg size
  | CBufRecv o ticks buf size =>
      has_type s o RHINO_BUF_QUEUE_OBJ_TYPE /\ (ticks = RHINO_NO_WAIT \/ timeout_ok ticks /\ caller_ok s)
  | CBufFlush o => has_type s o RHINO_BUF_QUEUE_OBJ_TYPE
  | CBufDel o => has_type s o RHINO_BUF_QUEUE_OBJ_TYPE /\ g_intrpt_nested_level (gl s) = 0 /\
      (forall v, bufqs (ob s) !! o = Some v -> bq_mm_alloc_flag v = K_OBJ_STATIC_ALLOC)
  | CSemCreate o c => not_in_use s o /\ 0 <= c < 2 ^ 32
  | CMutexCreate o => not_in_use s o
  | CEventCreate o fl => not_in_use s o /\ 0 <= fl < 2 ^ 32
  | CQueueCreate o addr mem n => not_in_use s o /\ 0 < 4 * n < 2 ^ 32 /\ 4 * n <= Z.of_nat (length mem)
  | CBufCreate o mem size max => not_in_use s o /\ 0 < size < 2 ^ 32 /\ size <= Z.of_nat (length mem) /\ 0 < max
  | CFixBufCreate o mem size num =>
      not_in_use s o /\ 0 < size /\ 0 < size * num < 2 ^ 32 /\ size * num <= Z.of_nat (length mem)
  end.

(** The calls that end in the error handler, which never returns: more
    nested interrupts, or more nested locks of a mutex, than the kernel
    counts. *)
Definition call_hangs (s : kstate) (c : kcall) : bool :=
  match c with
  | CIntrptEnter => g_intrpt_nested_level (gl s) =? RHINO_CONFIG_INTRPT_MAX_NESTED_LEVEL
  | CMutexLock m _ =>
      match g_active_task (gl s), mutexes (ob s) !! m with
      | Some a, Some v => bool_decide (lock_overflows s a v)
      | _, _ => false
      end
  | _ => false
  end.

Inductive kstep (s : kstate) : kstate -> Prop :=
  | KStep c s' : kcall_ok s c -> kcall_run c s = Some (tt, s') -> kstep s s'.

Section Safe.
Implicit Types (s : kstate) (A : queues) (c : kcall).

Definition kwf_ex s : Prop := exists A, kwf s A.

Lemma wp_drop {T : Type} (m : M T) (P : kstate -> Prop) s : wp m (fun _ => P) s -> wp (m ;; ret tt) (fun _ => P) s.
Proof. intros H. apply wp_bind. eapply wp_mono; [exact H|]. intros ???. by apply wp_ret. Qed.

Lemma caller_active s : caller_ok s ->
  exists a x, g_active_task (gl s) = Some a /\ tcbs s !! a = Some x /\ prio x <> RHINO_IDLE_PRI.
Proof.
  unfold caller_ok. destruct (g_active_task (gl s)) as [a|]; [|done].
  destruct (tcbs s !! a) as [x|] eqn:E; [|done]. intros. by exists a, x.
Qed.

Lemma live_task_lookup s t : live_task s t -> exists x, tcbs s !! t = Some x /\ live (task_state x) = true.
Proof. unfold live_task. destruct (tcbs s !! t) as [x|]; [|done]. eauto. Qed.

Lemma kwf_sem_obj s A o : kwf s A -> has_type s o RHINO_SEM_OBJ_TYPE -> is_Some (sems (ob s) !! o).
Proof. intros HW Ht. destruct (oi_sem _ _ (kg_obj _ _ (kw_good _ _ HW)) o Ht) as (v & Hv & _). eauto. Qed.

Lemma kwf_event_obj s A o : kwf s A -> has_type s o RHINO_EVENT_OBJ_TYPE -> is_Some (events (ob s) !! o).
Proof. intros HW Ht. destruct (oi_event _ _ (kg_obj _ _ (kw_good _ _ HW)) o Ht ltac:(done)) as (v & Hv & _). eauto. Qed.

Lemma kwf_mutex_obj s A m : kwf s A -> has_type s m RHINO_MUTEX_OBJ_TYPE -> is_Some (mutexes (ob s) !! m).
Proof.
  intros HW (b & Hb & Ht). destruct (kg_mutex _ _ (kw_good _ _ HW)) as (C & HM & _). by eapply (mi_mutex _ _ _ HM).
Qed.

Ltac kdone := intros; simpl in *; match goal with
  | H : kwf ?s ?A |- kwf_ex ?s => exists A; exact H
  end.

Lemma sem_call_safe s A o : kwf s A -> has_type s o RHINO_SEM_OBJ_TYPE ->
  wp (krhino_sem_give (Some o)) (fun _ => kwf_ex) s /\ wp (krhino_sem_give_all (Some o)) (fun _ => kwf_ex) s.
Proof.
  intros HW Ht. destruct (kwf_sem_obj s A o HW Ht) as [v Hv].
  split; [eapply wp_sem_give|eapply wp_sem_give_all]; try done; kdone.
Qed.

Lemma kwf_bufq_obj s A o : kwf s A -> has_type s o RHINO_BUF_QUEUE_OBJ_TYPE ->
  exists v ms, bufqs (ob s) !! o = Some v /\ bufq_rep v ms.
Proof.
  intros HW Ht. destruct (so_bufq _ _ _ (oi_store _ _ (kg_obj _ _ (kw_good _ _ HW)) o) Ht) as (v & Hv & ms & Hr & _).
  by exists v, ms.
Qed.

Lemma recv_caller s ticks a x : g_active_task (gl s) = Some a -> tcbs s !! a = Some x ->
  ticks = RHINO_NO_WAIT \/ timeout_ok ticks /\ caller_ok s ->
  ticks = RHINO_NO_WAIT \/ timeout_ok ticks /\ prio x <> RHINO_IDLE_PRI.
Proof. intros Ha Hx [?|[? Hc]]; [by left|right]. split; [done|]. unfold caller_ok in Hc. by rewrite Ha, Hx in Hc. Qed.

Lemma created_kwf s s' A o ty : obj_created s s' A o ty -> kwf_ex s'.
Proof. intros (os & _ & _ & HW). by exists A. Qed.

Lemma queue_call_safe s A o : kwf s A -> has_type s o RHINO_QUEUE_OBJ_TYPE ->
  (forall msg all, 0 <= msg < 2 ^ 32 -> wp (msg_send (Some o) msg all) (fun _ => kwf_ex) s) /\
  (forall ticks out, ticks = RHINO_NO_WAIT \/ timeout_ok ticks /\ caller_ok s ->
     wp (krhino_queue_recv (Some o) ticks (Some out)) (fun _ => kwf_ex) s) /\
  wp (krhino_queue_flush (Some o)) (fun _ => kwf_ex) s.
Proof.
  intros HW Ht. destruct (queue_obj s A o HW Ht) as (v & ms & Hv & Hr & _).
  destruct (ki_active _ _ (kw_inv _ _ HW)) as (a & x & Ha & Hx). split_and!.
  - intros msg all Hm. apply (wp_msg_send s A o v ms); [done..|kdone|kdone|kdone|kdone].
  - intros ticks out Hw. apply (wp_queue_recv s A o v ms ticks out a x); [done..|by apply (recv_caller s ticks a x)|kdone|kdone|kdone|kdone|kdone].
  - apply (wp_queue_flush s A o v ms); [done..|kdone|kdone].
Qed.

Lemma bufq_call_safe s A o : kwf s A -> has_type s o RHINO_BUF_QUEUE_OBJ_TYPE ->
  (forall msg size, 0 <= size -> readable s o msg size -> wp (krhino_buf_queue_send (Some o) (Some msg) size) (fun _ => kwf_ex) s) /\
  (forall ticks buf size, ticks = RHINO_NO_WAIT \/ timeout_ok ticks /\ caller_ok s ->
     wp (krhino_buf_queue_recv (Some o) ticks (Some buf) (Some size)) (fun _ => kwf_ex) s) /\
  wp (krhino_buf_queue_flush (Some o)) (fun _ => kwf_ex) s.
Proof.
  intros HW Ht. destruct (kwf_bufq_obj s A o HW Ht) as (v & ms & Hv & Hr).
  destruct (ki_active _ _ (kw_inv _ _ HW)) as (a & x & Ha & Hx). split_and!.
  - intros msg size Hs Hrd. unfold readable in Hrd. rewrite Hv in Hrd. destruct Hrd.
    apply (wp_buf_queue_send s A o v ms); [done..|kdone|kdone|kdone|kdone|kdone].
  - intros ticks buf size Hw.
    apply (wp_buf_queue_recv s A o v ms ticks buf size a x); [done..|by apply (recv_caller s ticks a x)|kdone|kdone|kdone|kdone|kdone].
  - apply (wp_buf_queue_flush s A o v ms); [done..|kdone|kdone].
Qed.

Lemma kcall_hangs s A c : kwf s A -> kcall_ok s c -> call_hangs s c = true -> kcall_run c s = None.
Proof.
  intros HW Hok Hh. destruct c; try done; cbn [call_hangs kcall_ok] in *; unfold kcall_run, bind.
  - by rewrite (intrpt_enter_hangs s A) by (done || by apply Z.eqb_eq).
  - destruct Hok as (Ht & _). destruct (g_active_task (gl s)) as [a|] eqn:Ha; [|done].
    destruct (mutexes (ob s) !! m) as [v|] eqn:Hv; [|done]. apply bool_decide_eq_true in Hh as (? & ? & ?).
    by rewrite (mutex_lock_hangs s A m v ticks a).
Qed.

Lemma kcall_safe s A c : kwf s A -> kcall_ok s c -> call_hangs s c = false -> wp (kcall_run c) (fun _ => kwf_ex) s.
Proof.
  intros HW Hok Hh. destruct (ki_active _ _ (kw_inv _ _ HW)) as (a0 & x0 & Ha0 & Hx0).
  destruct c; simpl in Hok; unfold kcall_run; try apply wp_drop.
  - eapply wp_intrpt_enter; [done|by apply Z.eqb_neq|kdone].
  - eapply wp_intrpt_exit; [done|done|kdone..].
  - apply (wp_tick_proc s A a0 x0); [done..|]. kdone.
  - eapply wp_sched_disable; [done|kdone..].
  - eapply wp_sched_enable; [done|kdone..].
  - by apply (sem_call_safe s A o).
  - by apply (sem_call_safe s A o).
  - destruct Hok as (Ht & (a & x & Ha & Hx & Hp)%caller_active & Hw). destruct (kwf_sem_obj s A o HW Ht) as [v Hv].
    apply (wp_sem_take s A o v ticks a x); [done..|kdone|kdone|kdone|kdone|kdone].
  - destruct Hok as (Ht & Hc). destruct (kwf_sem_obj s A o HW Ht) as [v Hv].
    apply (wp_sem_count_set s A o v); [done..|kdone|kdone|kdone].
  - destruct Hok as (Ht & Hn & Hf). destruct (kwf_sem_obj s A o HW Ht) as [v Hv].
    apply (wp_sem_del s A o v); [done|done|done|by apply Hf|done|kdone].
  - destruct Hok as (Ht & (a & x & Ha & Hx & Hp)%caller_active & Hw). destruct (kwf_mutex_obj s A m HW Ht) as [v Hv].
    simpl in Hh. rewrite Ha, Hv in Hh. apply bool_decide_eq_false in Hh. unfold lock_overflows in Hh.
    apply (wp_mutex_lock s A m v ticks a x); [done..|kdone|naive_solver|kdone|kdone|kdone|kdone|kdone].
  - destruct (kwf_mutex_obj s A m HW Hok) as [v Hv].
    apply (wp_mutex_unlock s A m v a0 x0); [done..|kdone|kdone|kdone|kdone|kdone].
  - destruct Hok as (Ht & Hf). destruct (kwf_event_obj s A e HW Ht) as [v Hv]. apply (wp_event_set_or s A e v); [done..|kdone].
  - destruct Hok as (Ht & Hf). destruct (kwf_event_obj s A e HW Ht) as [v Hv]. apply (wp_event_set_and s A e v); [done..|kdone].
  - destruct Hok as (Ht & Ho & Hf & (a & x & Ha & Hx & Hp)%caller_active & Hw). destruct (kwf_event_obj s A e HW Ht) as [v Hv].
    apply (wp_event_get s A e v fl opt out ticks a x); [done..|kdone|kdone|kdone|kdone|kdone].
  - destruct Hok as (Ht & Hn & Hf). destruct (kwf_event_obj s A e HW Ht) as [v Hv].
    apply (wp_event_del s A e v); [done|done|done|by apply Hf|done|kdone].
  - destruct Hok as (Ht & Hp & Hi). apply (wp_task_create s A); [done..|kdone|kdone|kdone|kdone|done|kdone].
  - destruct Hok as ((a & x & Ha & Hx & Hp)%caller_active & Hk). apply (wp_task_sleep s A a x); [done..|kdone|kdone|kdone|kdone].
  - destruct (kwf_active s A HW Hok) as (a & x & Ha & Hx & Hr). apply (wp_task_yield s A a x); [done..|kdone].
  - destruct (live_task_lookup s t Hok) as (x & Hx & Hl). apply (wp_task_suspend s A t x); [done..|kdone|kdone|kdone|kdone].
  - destruct (live_task_lookup s t Hok) as (x & Hx & Hl). apply (wp_task_resume s A t x); [done..|kdone|kdone].
  - destruct Hok as (Hlt & Hp). destruct (live_task_lookup s t Hlt) as (x & Hx & Hl).
    apply (wp_krhino_task_pri_change s A t x); [done..|kdone|kdone|kdone].
  - destruct (live_task_lookup s t Hok) as (x & Hx & Hl). apply (wp_time_slice_set s A t x); [done..|kdone|kdone].
  - destruct (live_task_lookup s t Hok) as (x & Hx & Hl). apply (wp_sched_policy_set s A t x); [done..|kdone|kdone|kdone].
  - destruct (kwf_mutex_obj s A m HW Hok) as [v Hv]. apply (wp_mutex_del s A m v); [done..|kdone|kdone|kdone].
  - unfold app_task in Hok. destruct (tcbs s !! t) as [x|] eqn:Hx; [|done]. destruct Hok.
    apply (wp_task_del s A t x); [done..|kdone|kdone|kdone|kdone].
  - destruct Hok. destruct all; by apply (queue_call_safe s A o).
  - destruct Hok. by apply (queue_call_safe s A o).
  - by apply (queue_call_safe s A o).
  - destruct Hok as (Ht & Hn & Hf). destruct (queue_obj s A o HW Ht) as (v & ms & Hv & _).
    apply (wp_queue_del s A o v); [done|done|done|by apply Hf|done|kdone].
  - destruct Hok as (? & ? & ?). by apply (bufq_call_safe s A o).
  - destruct Hok. by apply (bufq_call_safe s A o).
  - by apply (bufq_call_safe s A o).
  - destruct Hok as (Ht & Hn & Hf). destruct (kwf_bufq_obj s A o HW Ht) as (v & ms & Hv & _).
    apply (wp_buf_queue_del s A o v); [done|done|done|by apply Hf|done|kdone].
  - destruct Hok as (Hu%(not_in_use_unused s A) & Hc); [|apply HW]. apply (wp_sem_create s A); [done..|]. eauto using created_kwf.
  - apply (not_in_use_unused s A) in Hok; [|apply HW]. apply (wp_mutex_create s A); [done..|]. eauto using created_kwf.
  - destruct Hok as (Hu%(not_in_use_unused s A) & Hc); [|apply HW]. apply (wp_event_create s A); [done..|]. eauto using created_kwf.
  - destruct Hok as (Hu%(not_in_use_unused s A) & Hn & Hm); [|apply HW]. apply (wp_queue_create s A); [done..|]. eauto using created_kwf.
  - destruct Hok as (Hu%(not_in_use_unused s A) & Hs & Hm & Hx); [|apply HW].
    apply (wp_buf_queue_create s A); [done..|]. eauto using created_kwf.
  - destruct Hok as (Hu%(not_in_use_unused s A) & Hs & Hm & Hx); [|apply HW].
    apply (wp_fix_buf_queue_create s A); [done..|]. eauto using created_kwf.
Qed.

Lemma kstep_kwf s s' : kwf_ex s -> kstep s s' -> kwf_ex s'.
Proof.
  intros [A HW] [c s2 Hok Hr]. destruct (call_hangs s c) eqn:Hh.
  - by rewrite (kcall_hangs s A c HW Hok Hh) in Hr.
  - pose proof (kcall_safe s A c HW Hok Hh) as Hs. unfold wp in Hs. by rewrite Hr in Hs.
Qed.

Lemma reach_kwf s s' : kwf_ex s -> rtc kstep s s' -> kwf_ex s'.
Proof. intros HW Hr. induction Hr as [|s s1 s2 H1 H2 IH]; [done|]. apply IH. by eapply kstep_kwf. Qed.
End Safe.
