(* ===== verification/Check.v ===== *)
(** * A checker for the invariant

    [kwf_chk] is a decidable condition on a state, finite lists of queue
    contents and finite lists of held mutexes; [kwf_chk_sound] shows that it
    implies the invariant [kwf].  It is evaluated on concrete states: states
    the kernel reaches from power-on by its own operations. *)

From stdpp Require Import functions.
From S2P Require Import Prelude.
From S2P Require Import Monad.
From S2P Require Import Links.
From S2P Require Import KState.
From S2P Require Import Bitmap.
From S2P Require Import Sched.
From S2P Require Import Pend.
From S2P Require Import Inv.
From S2P Require Import MInv.
From S2P Require Import RingBuf.
From S2P Require Import ObjInv.
From S2P Require Import Resched.

(** ** Decidable pieces *)

#[export] Instance StronglySorted_dec {T} (R : T -> T -> Prop) `{!RelDecision R} (l : list T) :
  Decision (StronglySorted R l).
Proof.
  induction l as [|x l IH]; [left; constructor|].
  destruct IH as [IH|IH]; [|right; by inversion 1].
  destruct (decide (Forall (R x) l)); [left; by constructor|right; by inversion 1].
Defined.

#[export] Instance dseg_dec {T} `{Countable T} (l : links T) a ns b : Decision (dseg l a ns b).
Proof. revert a. induction ns as [|x r IH]; intros a; simpl; apply _. Defined.

#[export] Instance ring_dec {T} `{Countable T} (l : links T) ns : Decision (ring l ns).
Proof. destruct ns; simpl; apply _. Defined.

#[export] Instance mchain_dec mm p ms : Decision (mchain mm p ms).
Proof.
  revert p. induction ms as [|m r IH]; intros p; simpl; [apply _|].
  destruct (mm !! m) as [v|].
  - destruct (decide (p = Some m)); [|right; tauto].
    destruct (IH (mutex_list v)); [left; eauto|right; intros (_ & v' & [= <-] & ?); done].
  - right. intros (_ & v & ? & _). done.
Defined.

#[export] Instance in_list_dec x i : Decision (in_list x i).
Proof. destruct i; simpl; apply _. Defined.

(** ** Finite functions *)

Fixpoint qget {K V : Type} `{EqDecision K} (d : list (K * list V)) (k : K) : list V :=
  match d with
  | [] => []
  | (k', v) :: r => if decide (k = k') then v else qget r k
  end.

Lemma qget_key {K V : Type} `{EqDecision K} (d : list (K * list V)) k : k ∉ d.*1 -> qget d k = [].
Proof.
  induction d as [|[k' v] r IH]; simpl; [done|]. intros Hn. rewrite decide_False by set_solver. apply IH. set_solver.
Qed.

Lemma qget_elem {K V : Type} `{EqDecision K} (d : list (K * list V)) k v : v ∈ qget d k -> k ∈ d.*1.
Proof. intros Hv. destruct (decide (k ∈ d.*1)); [done|]. rewrite qget_key in Hv by done. set_solver. Qed.

(** Disjointness of the members of a family from one NoDup. *)
Lemma concat_disj {K V : Type} (f : K -> list V) ks i j n :
  NoDup (concat (f <$> ks)) -> i ∈ ks -> j ∈ ks -> n ∈ f i -> n ∈ f j -> i = j.
Proof.
  induction ks as [|k ks IH]; intros Hnd Hi Hj Hni Hnj; [set_solver|]. simpl in Hnd.
  apply NoDup_app in Hnd as (_ & Hd & Hnd).
  assert (Hc : forall z, z ∈ ks -> n ∈ f z -> n ∈ concat (f <$> ks)).
  { clear. induction ks as [|k' ks IH]; intros z Hz Hn; [set_solver|]. simpl. apply elem_of_app.
    apply elem_of_cons in Hz as [->|Hz]; eauto. }
  apply elem_of_cons in Hi as [->|Hi]; apply elem_of_cons in Hj as [->|Hj]; [done| | |by apply IH].
  - destruct (Hd n Hni). by apply (Hc j).
  - destruct (Hd n Hnj). by apply (Hc i).
Qed.

Lemma concat_nodup {K V : Type} (f : K -> list V) ks i : NoDup (concat (f <$> ks)) -> i ∈ ks -> NoDup (f i).
Proof.
  induction ks as [|k ks IH]; intros Hnd Hi; [set_solver|]. simpl in Hnd. apply NoDup_app in Hnd as (H1 & _ & H2).
  apply elem_of_cons in Hi as [->|Hi]; auto.
Qed.

(** ** The conditions, one record per part of the invariant *)

Definition lid_ok (bl : gmap oid blk_obj_t) (i : lid) : Prop :=
  match i with LReady p => 0 <= p < RHINO_CONFIG_PRI_MAX | _ => True end.

Definition rep_chk (s : kstate) (ks : list lid) (A : queues) : Prop :=
  let bl := blks (ob s) in
  NoDup (concat (nodes bl A <$> ks)) /\ Forall (fun i => ring (lm s) (nodes bl A i)) ks /\
  LTick ∈ ks /\ map_Forall (fun o _ => LBlk o ∈ ks) bl /\ Forall (lid_ok bl) ks.

Definition rq_chk (q : runqueue_t) (A : queues) : Prop :=
  length (cur_list_item q) = Z.to_nat RHINO_CONFIG_PRI_MAX /\
  Forall (fun p => cur_list_item q !! Z.to_nat p = Some (NTask <$> head (A (LReady p)))) (seqZ 0 RHINO_CONFIG_PRI_MAX) /\
  length (task_bit_map q) = 2%nat /\ Forall (fun w => 0 <= w < 2 ^ 32) (task_bit_map q) /\
  Forall (fun p => bitmap_bit (task_bit_map q) p = bool_decide (A (LReady p) <> [])) (seqZ 0 64) /\
  Forall (fun p => A (LReady p) = []) (seqZ 0 (highest_pri q)) /\
  0 <= highest_pri q < RHINO_CONFIG_PRI_MAX /\ A (LReady (highest_pri q)) <> [].

Definition task_chk (bl : gmap oid blk_obj_t) (A : queues) (t : tid) (x : ktask_t) : Prop :=
  0 <= prio x < RHINO_CONFIG_PRI_MAX /\
  match task_blk_obj x with
  | Some o => pended (task_state x) = true -> is_Some (bl !! o) /\ t ∈ A (LBlk o)
  | None => pended (task_state x) = false
  end /\
  (tick_head x <> None -> (pended (task_state x) = true \/ sleeping (task_state x) = true) /\ t ∈ A LTick) /\
  (sleeping (task_state x) = true -> tick_head x <> None) /\
  (task_state x = K_RDY -> t ∈ A (LReady (prio x))).

Definition mem_chk (s : kstate) (ks : list lid) (A : queues) : Prop :=
  Forall (fun i => Forall (fun t => match tcbs s !! t with Some x => in_list x i | None => False end) (A i)) ks.

Definition kinv_chk (s : kstate) (ks : list lid) (A : queues) : Prop :=
  rep_chk s ks A /\ rq_chk (rq s) A /\ mem_chk s ks A /\
  map_Forall (task_chk (blks (ob s)) A) (tcbs s) /\
  map_Forall (fun o b => blk_policy b = BLK_POLICY_PRI ->
    StronglySorted (fun u v => prio_of (tcbs s) u <= prio_of (tcbs s) v) (A (LBlk o))) (blks (ob s)) /\
  StronglySorted (fun u v => tick_rest (gl s) (tcbs s) u <= tick_rest (gl s) (tcbs s) v) (A LTick) /\
  Forall (fun u => 0 < tick_rest (gl s) (tcbs s) u < 2 ^ 63) (A LTick) /\
  A (LReady RHINO_IDLE_PRI) <> [] /\
  match g_active_task (gl s) with Some a => is_Some (tcbs s !! a) | None => False end.

#[export] Instance lid_ok_dec bl i : Decision (lid_ok bl i).
Proof. destruct i; simpl; apply _. Defined.
#[export] Instance rep_chk_dec s ks A : Decision (rep_chk s ks A).
Proof. unfold rep_chk. apply _. Defined.
#[export] Instance rq_chk_dec q A : Decision (rq_chk q A).
Proof. unfold rq_chk. apply _. Defined.
#[export] Instance task_chk_dec bl A t x : Decision (task_chk bl A t x).
Proof. unfold task_chk. destruct (task_blk_obj x); apply _. Defined.
#[export] Instance mem_chk_dec s ks A : Decision (mem_chk s ks A).
Proof.
  unfold mem_chk. apply Forall_dec. intros i. apply Forall_dec. intros t. destruct (tcbs s !! t); apply _.
Defined.
#[export] Instance kinv_chk_dec s ks A : Decision (kinv_chk s ks A).
Proof. unfold kinv_chk. destruct (g_active_task (gl s)); apply _. Defined.

Section Sound.
Implicit Types (s : kstate) (ks : list lid) (A : queues).

Lemma rep_chk_sound s ks A :
  rep_chk s ks A -> (forall i, i ∉ ks -> A i = []) -> rings (lm s) (nodes (blks (ob s)) A).
Proof.
  intros (Hnd & Hr & Ht & Hb & _) Hout.
  assert (Hno : forall i, i ∉ ks -> nodes (blks (ob s)) A i = []).
  { intros i Hi. unfold nodes. rewrite Hout by done. destruct i as [p|o|]; simpl; [done| |done].
    destruct (blks (ob s) !! o) as [b|] eqn:E; [|done]. destruct Hi. by apply (Hb o b). }
  split.
  - intros i. destruct (decide (i ∈ ks)); [by eapply (proj1 (Forall_forall _ _) Hr)|by rewrite Hno].
  - intros i. destruct (decide (i ∈ ks)); [by eapply concat_nodup|rewrite Hno by done; constructor].
  - intros i j n Hi Hj. destruct (decide (i ∈ ks)); [|rewrite Hno in Hi by done; set_solver].
    destruct (decide (j ∈ ks)); [by eapply concat_disj|rewrite Hno in Hj by done; set_solver].
Qed.

Lemma rq_chk_sound q A : rq_chk q A -> (forall p, ~ (0 <= p < RHINO_CONFIG_PRI_MAX) -> A (LReady p) = []) -> rq_rep q A.
Proof.
  intros (H1 & H2 & H3 & H4 & H5 & H6 & H7 & H8) Hout. split; [done| |done|done| |].
  - intros p Hp. apply (proj1 (Forall_forall _ _) H2). apply elem_of_seqZ. lia.
  - intros p Hp. destruct (decide (p < 64)) as [Hl|Hl].
    + apply (proj1 (Forall_forall _ _) H5). apply elem_of_seqZ. lia.
    + rewrite bool_decide_false by (rewrite Hout; [tauto|unfold RHINO_CONFIG_PRI_MAX; lia]).
      unfold bitmap_bit. rewrite lookup_ge_None_2; [done|]. rewrite H3. assert (2 <= p / 32) by (apply Z.div_le_lower_bound; lia). lia.
  - split; [|by left]. intros p Hp. apply (proj1 (Forall_forall _ _) H6). apply elem_of_seqZ. lia.
Qed.

Lemma kinv_chk_sound s ks A :
  kinv_chk s ks A -> (forall i, i ∉ ks -> A i = []) -> kinv s A /\ tick_pos s A.
Proof.
  intros (Hrep & Hrq & Hmem & Htk & Hso & Hts & Htr & Hid & Hac) Hout. split.
  - split; [| | |done| |done|].
    + split; [by eapply rep_chk_sound|apply rq_chk_sound; [done|]]. intros p Hp. apply Hout. intros Hin.
      destruct Hrep as (_ & _ & _ & _ & Hok). by apply (proj1 (Forall_forall _ _) Hok) in Hin.
    + intros t i. split.
      * intros Ht. assert (i ∈ ks) as Hi by (destruct (decide (i ∈ ks)); [done|]; rewrite Hout in Ht by done; set_solver).
        pose proof (proj1 (Forall_forall _ _) (proj1 (Forall_forall _ _) Hmem i Hi) t Ht) as Hm. simpl in Hm.
        destruct (tcbs s !! t) as [x|]; [by exists x|done].
      * intros (x & Hx & Hin). destruct (Htk t x Hx) as (K1 & K2 & K3 & K4 & K5). destruct i as [p|o|]; simpl in Hin.
        -- destruct Hin as [E <-]. auto.
        -- destruct Hin as [E E']. rewrite E' in K2. by apply K2.
        -- by apply K3.
    + intros t x Hx. destruct (Htk t x Hx) as (K1 & K2 & K3 & K4 & K5). split; [done| |naive_solver|done].
      intros Hp. destruct (task_blk_obj x) as [o|]; [|congruence]. exists o. split; [done|]. by apply K2.
    + split; [done|]. eapply Forall_impl; [exact Htr|]. simpl. lia.
    + destruct (g_active_task (gl s)) as [a|]; [|done]. destruct Hac as [x Hx]. by exists a, x.
  - intros u Hu. by apply (proj1 (Forall_forall _ _) Htr).
Qed.
End Sound.

(** ** Mutexes, objects and globals *)

Definition is_mutex_b (o : kobjs) (m : oid) : bool :=
  match blks o !! m with Some b => bool_decide (obj_type b = RHINO_MUTEX_OBJ_TYPE) | None => false end.

Lemma is_mutex_b_spec o m : is_mutex_b o m = true <-> is_mutex o m.
Proof.
  unfold is_mutex_b, is_mutex. destruct (blks o !! m) as [b|]; [|naive_solver].
  rewrite bool_decide_eq_true. naive_solver.
Qed.

Definition held_chk (s : kstate) (C : tid -> list oid) (t : tid) : Prop :=
  Forall (fun m => is_mutex_b (ob s) m = true /\
    match mutexes (ob s) !! m with Some v => mutex_task v = Some t | None => False end) (C t) /\
  (C t <> [] -> match tcbs s !! t with Some x => live (task_state x) = true /\ b_prio x <> RHINO_IDLE_PRI | None => False end).

Definition mtask_chk (s : kstate) (A : queues) (C : tid -> list oid) (t : tid) (x : ktask_t) : Prop :=
  (live (task_state x) = true -> mchain (mutexes (ob s)) (task_mutex_list x) (C t)) /\
  match task_blk_obj x with
  | Some m => pended (task_state x) = true -> is_mutex_b (ob s) m = true ->
      match mutexes (ob s) !! m with
      | Some v => match mutex_task v with Some u => m ∈ C u /\ u <> t | None => False end
      | None => False
      end
  | None => True
  end /\
  0 <= b_prio x < RHINO_CONFIG_PRI_MAX /\ (b_prio x = RHINO_IDLE_PRI <-> prio x = RHINO_IDLE_PRI) /\
  (prio x = RHINO_IDLE_PRI -> task_state x = K_RDY) /\
  let ws := concat ((fun m => A (LBlk m)) <$> C t) in
  (live (task_state x) = true ->
   prio x <= b_prio x /\ Forall (fun u => prio x <= prio_of (tcbs s) u) ws /\
   (prio x = b_prio x \/ Exists (fun u => prio x = prio_of (tcbs s) u) ws)).

Definition mutex_chk (s : kstate) (ts : list tid) (A : queues) (C : tid -> list oid) : Prop :=
  Forall (held_chk s C) ts /\ map_Forall (mtask_chk s A C) (tcbs s) /\
  map_Forall (fun m v => is_mutex_b (ob s) m = true ->
    match mutex_task v with Some t => m ∈ C t | None => True end) (mutexes (ob s)) /\
  map_Forall (fun m b => obj_type b = RHINO_MUTEX_OBJ_TYPE ->
    blk_policy b = BLK_POLICY_PRI /\ is_Some (mutexes (ob s) !! m)) (blks (ob s)).

(** Queues: the messages are read back from the ring buffer (for buffers of
    variable-length messages, only the empty one is checked). *)
Fixpoint chunk_by (fuel n : nat) (l : list Z) : list (list Z) :=
  match fuel, l with
  | S f, _ :: _ => take n l :: chunk_by f n (drop n l)
  | _, _ => []
  end.

Definition rb_chk (r : k_ringbuf_t) : Prop :=
  (0 < rb_end r)%nat /\ (rb_head r <= rb_end r)%nat /\ (rb_tail r <= rb_end r)%nat /\ (rb_freesize r <= rb_end r)%nat /\
  ((rb_head r + rb_used r) mod rb_end r = rb_tail r mod rb_end r)%nat.

Definition fix_chk (r : k_ringbuf_t) (ms : list (list Z)) : Prop :=
  rb_chk r /\ rb_type r = RINGBUF_TYPE_FIX /\ (0 < rb_blk_size r)%nat /\ (rb_end r mod rb_blk_size r = 0)%nat /\
  (rb_head r mod rb_blk_size r = 0)%nat /\ (rb_tail r mod rb_blk_size r = 0)%nat /\
  contents r = concat ms /\ Forall (fun d => length d = rb_blk_size r) ms.

Definition queue_chk (ws : list tid) (v : kqueue_t) : Prop :=
  let r := q_ringbuf v in
  let ms := bytes_word <$> chunk_by (rb_end r) 4 (contents r) in
  fix_chk r (word_bytes <$> ms) /\ rb_blk_size r = 4%nat /\ Z.of_nat (rb_end r) = 4 * q_size v /\
  0 < 4 * q_size v < 2 ^ 32 /\ q_cur_num v = Z.of_nat (length ms) /\ Forall (fun m => 0 <= m < 2 ^ 32) ms /\
  (ms = [] \/ ws = []).

Definition bufq_chk (ws : list tid) (v : kbuf_queue_t) : Prop :=
  let r := bq_ringbuf v in
  let ms := if rb_type r =? RINGBUF_TYPE_DYN then [] else chunk_by (rb_end r) (rb_blk_size r) (contents r) in
  (if rb_type r =? RINGBUF_TYPE_DYN then rb_chk r /\ contents r = [] else fix_chk r ms) /\
  bq_cur_num v = Z.of_nat (length ms) /\ Z.of_nat (rb_end r) < 2 ^ 32 /\ (ms = [] \/ ws = []).

Definition obj_chk (s : kstate) (A : queues) : Prop :=
  map_Forall (fun o b =>
    ((obj_type b = RHINO_QUEUE_OBJ_TYPE ->
        match kqueues (ob s) !! o with Some v => queue_chk (A (LBlk o)) v | None => False end) /\
     (obj_type b = RHINO_BUF_QUEUE_OBJ_TYPE ->
        match bufqs (ob s) !! o with Some v => bufq_chk (A (LBlk o)) v | None => False end)) /\
    (obj_type b = RHINO_SEM_OBJ_TYPE ->
       match sems (ob s) !! o with
       | Some v => 0 <= count v <= peak_count v /\ peak_count v < 2 ^ 32 /\ (0 < count v -> A (LBlk o) = [])
       | None => False
       end) /\
    (obj_type b = RHINO_EVENT_OBJ_TYPE ->
       match events (ob s) !! o with
       | Some v => 0 <= flags v < 2 ^ 32 /\
           Forall (fun t => match tcbs s !! t with
             | Some x => flags_met (flags v) (pend_flags x) (pend_option x) = false /\ is_Some (pend_info x) /\ 0 <= pend_flags x < 2 ^ 32
             | None => True
             end) (A (LBlk o))
       | None => False
       end)) (blks (ob s)).

Definition gl_chk (g : kglob) : Prop :=
  0 <= g_intrpt_nested_level g <= RHINO_CONFIG_INTRPT_MAX_NESTED_LEVEL /\ 0 <= g_sched_lock g <= SCHED_MAX_LOCK_COUNT /\
  pendsv g = false /\ g_sys_stat g = RHINO_RUNNING /\ 0 <= g_tick_count g < 2 ^ 64 /\ primask g = false.

Definition run_chk (s : kstate) (A : queues) : Prop :=
  match g_active_task (gl s) with
  | Some a =>
      (0 < g_sched_lock (gl s) \/ g_intrpt_nested_level (gl s) = 0 ->
         match tcbs s !! a with Some x => task_state x = K_RDY | None => False end) /\
      (no_sched (gl s) = false -> head (A (LReady (highest_pri (rq s)))) = Some a)
  | None => False
  end.

(** The whole condition. *)
Definition kwf_chk (s : kstate) (Qs : list (lid * list tid)) (Cs : list (tid * list oid)) : Prop :=
  kinv_chk s (Qs.*1) (qget Qs) /\ mutex_chk s (Cs.*1) (qget Qs) (qget Cs) /\ obj_chk s (qget Qs) /\
  gl_chk (gl s) /\ run_chk s (qget Qs).

#[export] Instance held_chk_dec s C t : Decision (held_chk s C t).
Proof.
  unfold held_chk. apply and_dec; [apply Forall_dec; intros m; destruct (mutexes (ob s) !! m); apply _|].
  destruct (tcbs s !! t); apply _.
Defined.
#[export] Instance mtask_chk_dec s A C t x : Decision (mtask_chk s A C t x).
Proof.
  unfold mtask_chk. apply and_dec; [apply _|]. apply and_dec; [|apply _].
  destruct (task_blk_obj x) as [m|]; [|apply _]. destruct (mutexes (ob s) !! m) as [v|]; [|apply _].
  destruct (mutex_task v); apply _.
Defined.
#[export] Instance mutex_chk_dec s ts A C : Decision (mutex_chk s ts A C).
Proof.
  unfold mutex_chk. apply and_dec; [apply _|]. apply and_dec; [apply _|]. apply and_dec; [|apply _].
  apply map_Forall_dec. intros m v. destruct (mutex_task v); apply _.
Defined.
#[export] Instance rb_chk_dec r : Decision (rb_chk r).
Proof. unfold rb_chk. apply _. Defined.
#[export] Instance fix_chk_dec r ms : Decision (fix_chk r ms).
Proof. unfold fix_chk. apply _. Defined.
#[export] Instance queue_chk_dec ws v : Decision (queue_chk ws v).
Proof. unfold queue_chk, fix_chk, rb_chk. apply _. Defined.
#[export] Instance bufq_chk_dec ws v : Decision (bufq_chk ws v).
Proof. unfold bufq_chk, fix_chk, rb_chk. destruct (_ =? _); apply _. Defined.
#[export] Instance obj_chk_dec s A : Decision (obj_chk s A).
Proof.
  unfold obj_chk. apply map_Forall_dec. intros o b.
  apply and_dec; [destruct (kqueues (ob s) !! o), (bufqs (ob s) !! o); apply _|]. apply and_dec.
  - destruct (sems (ob s) !! o); apply _.
  - destruct (events (ob s) !! o); [|apply _]. apply impl_dec; [apply _|]. apply and_dec; [apply _|].
    apply Forall_dec. intros t. destruct (tcbs s !! t); apply _.
Defined.
#[export] Instance gl_chk_dec g : Decision (gl_chk g).
Proof. unfold gl_chk. apply _. Defined.
#[export] Instance run_chk_dec s A : Decision (run_chk s A).
Proof.
  unfold run_chk. destruct (g_active_task (gl s)) as [a|]; [|apply _]. destruct (tcbs s !! a); apply _.
Defined.
#[export] Instance kwf_chk_dec s Qs Cs : Decision (kwf_chk s Qs Cs).
Proof. unfold kwf_chk. apply _. Defined.

Section Sound2.
Implicit Types (s : kstate) (A : queues) (C : tid -> list oid).

Lemma elem_of_waits A C t u : waits A C t u <-> u ∈ concat ((fun m => A (LBlk m)) <$> C t).
Proof.
  unfold waits. induction (C t) as [|m ms IH]; simpl; [set_solver|]. rewrite elem_of_app, <- IH. set_solver.
Qed.

Lemma mutex_chk_sound s ts A C :
  mutex_chk s ts A C -> (forall t, t ∉ ts -> C t = []) -> mutex_inv s A.
Proof.
  intros (Hh & Ht & Hm & Hb) Hout.
  assert (Hc : forall t m, m ∈ C t -> held_chk s C t).
  { intros t m Hin. apply (proj1 (Forall_forall _ _) Hh). destruct (decide (t ∈ ts)); [done|].
    rewrite Hout in Hin by done. set_solver. }
  exists C. split.
  - split.
    + intros t x Hx. apply (Ht t x Hx).
    + intros t m. split.
      * intros Hin. destruct (Hc t m Hin) as [Hf _]. destruct (proj1 (Forall_forall _ _) Hf m Hin) as [H1 H2].
        split; [done|]. split; [by apply is_mutex_b_spec|]. destruct (mutexes (ob s) !! m) as [v|]; [by exists v|done].
      * intros (_ & Hmu & v & Hv & Eo). pose proof (Hm m v Hv) as Hx. simpl in Hx. rewrite Eo in Hx.
        apply Hx. by apply is_mutex_b_spec.
    + intros t m Hin. destruct (Hc t m Hin) as [_ Hx]. specialize (Hx ltac:(intros E; rewrite E in Hin; set_solver)).
      destruct (tcbs s !! t) as [x|]; [|done]. exists x. tauto.
    + intros t x m Hx Hp Ho Hmu _. destruct (Ht t x Hx) as (_ & Hw & _). rewrite Ho in Hw.
      specialize (Hw Hp (proj2 (is_mutex_b_spec _ _) Hmu)). destruct (mutexes (ob s) !! m) as [v|]; [|done].
      destruct (mutex_task v) as [u|]; [|done]. by exists u.
    + intros m b Hbm. apply (Hb m b Hbm).
    + intros t x Hx. destruct (Ht t x Hx) as (_ & _ & H1 & H2 & H3 & _). done.
  - intros t x Hx Hl. destruct (Ht t x Hx) as (_ & _ & _ & _ & _ & Hmin). destruct (Hmin Hl) as (H1 & H2 & H3).
    unfold base_of. rewrite Hx. simpl. split_and!; [done| |].
    + intros u Hu%elem_of_waits. by apply (proj1 (Forall_forall _ _) H2).
    + destruct H3 as [?|(u & Hu & E)%Exists_exists]; [by left|right]. exists u. by rewrite elem_of_waits.
Qed.

Lemma rb_chk_sound r : rb_chk r -> rb_ok r.
Proof. intros (? & ? & ? & ? & ?). by split. Qed.

Lemma fix_chk_sound r ms : fix_chk r ms -> fix_rep r ms.
Proof.
  intros (Hr & H1 & H2 & H3 & H4 & H5 & H6 & H7). split_and!; try done; [by apply rb_chk_sound|..];
    apply Nat.Lcm0.mod_divide; done.
Qed.

Lemma queue_chk_sound ws v : queue_chk ws v -> queue_ok ws v.
Proof.
  intros (Hf & H1 & H2 & H3 & H4 & H5 & H6). eexists. split; [split; [by apply fix_chk_sound|done..]|]. intros. by destruct H6.
Qed.

Lemma bufq_chk_sound ws v : bufq_chk ws v -> bufq_ok ws v.
Proof.
  intros (Hf & H1 & H2 & H3). eexists. split; [split; [|done..]|intros; by destruct H3]. unfold ring_rep.
  destruct (Z.eqb_spec (rb_type (bq_ringbuf v)) RINGBUF_TYPE_DYN) as [E|E]; [|by apply fix_chk_sound].
  destruct Hf as [Hr Hc]. split_and!; [by apply rb_chk_sound|done|by rewrite Hc|done].
Qed.

Lemma obj_chk_sound s A : obj_chk s A -> obj_inv None s A.
Proof.
  intros Hc. split.
  - intros o (b & Hb & Ht). destruct (Hc o b Hb) as (_ & Hs & _). specialize (Hs Ht).
    destruct (sems (ob s) !! o) as [v|]; [by exists v|done].
  - intros o (b & Hb & Ht) _. destruct (Hc o b Hb) as (_ & _ & Hs). specialize (Hs Ht).
    destruct (events (ob s) !! o) as [v|]; [|done]. destruct Hs as [H1 H2]. exists v. split; [done|]. split; [done|].
    intros t x Hin Hx. pose proof (proj1 (Forall_forall _ _) H2 t Hin) as H3. simpl in H3. by rewrite Hx in H3.
  - intros o. split; intros (b & Hb & Ht); destruct (Hc o b Hb) as ([Hq Hbq] & _).
    + specialize (Hq Ht). destruct (kqueues (ob s) !! o) as [v|]; [|done]. exists v. by split; [|apply queue_chk_sound].
    + specialize (Hbq Ht). destruct (bufqs (ob s) !! o) as [v|]; [|done]. exists v. by split; [|apply bufq_chk_sound].
Qed.

Lemma kwf_chk_sound s Qs Cs : kwf_chk s Qs Cs -> kwf s (qget Qs).
Proof.
  intros (Hk & Hm & Ho & (G1 & G2 & G3 & G4 & G5 & G6) & Hr).
  destruct (kinv_chk_sound s (Qs.*1) (qget Qs) Hk) as [HI HT]; [intros; by apply qget_key|].
  unfold run_chk in Hr. destruct (g_active_task (gl s)) as [a|] eqn:Ea; [|done]. destruct Hr as [Hr1 Hr2]. split.
  - split; [done|by split|done| |by apply obj_chk_sound].
    eapply mutex_chk_sound; [done|]. intros t. apply qget_key.
  - done.
  - intros E. specialize (Hr1 E). destruct (tcbs s !! a) as [x|] eqn:Ex; [|done]. by exists a, x.
  - intros E. exists a. split; [done|]. specialize (Hr2 E). exists (highest_pri (rq s)).
    destruct (qget Qs (LReady (highest_pri (rq s)))) as [|b r] eqn:EA; [done|]. simpl in Hr2. injection Hr2 as <-.
    exists r. split; [apply HI|done].
Qed.
End Sound2.
