(* ===== verification/Fifo.v ===== *)
(** * Byte FIFOs (k_fifo.c)

    A FIFO whose size is a power of two and whose [in] and [out] indices run
    freely over all 32-bit values: their difference is the number of bytes
    held even after they wrap. *)

From S2P Require Import Prelude.
From S2P Require Import Monad.
From S2P Require Import Links.
From S2P Require Import KState.
From S2P Require Import RingBuf.

Record k_fifo := mkFifo {
  fifo_in_idx : Z;      (* in *)
  fifo_out_idx : Z;     (* out *)
  fifo_mask : Z;
  fifo_data : list Z;
  fifo_free_bytes : Z;
  fifo_size : Z;
}.

Definition fifo_min (x y : Z) : Z := if y <? x then y else x.

Definition fifo_unused (f : k_fifo) : Z :=
  u32 (u32 (fifo_mask f + 1) - u32 (fifo_in_idx f - fifo_out_idx f)).

Definition is_power_of_2 (n : Z) : bool := negb (n =? 0) && (Z.land n (u32 (n - 1)) =? 0).

(** [fifo] holds what the structure contained before; the result is 0 when
    the FIFO is ready for use. *)
Definition fifo_init (f : k_fifo) (buffer : list Z) (size : Z) : Z * k_fifo :=
  if negb (is_power_of_2 size) then (1, f)
  else if size <? 2 then (1, mkFifo 0 0 0 buffer (fifo_free_bytes f) (fifo_size f))
  else (0, mkFifo 0 0 (size - 1) buffer size size).

(** [memcpy] of the first [l] bytes of [src] to offset [off], of the rest to
    the beginning. *)
Definition fifo_copy_in (f : k_fifo) (src : list Z) (len off : Z) : option k_fifo :=
  let size := u32 (fifo_mask f + 1) in
  let off := Z.land off (fifo_mask f) in
  let l := fifo_min len (u32 (size - off)) in
  d ← src_read src (Z.to_nat len);
  m1 ← mem_write (fifo_data f) (Z.to_nat off) (take (Z.to_nat l) d);
  m2 ← mem_write m1 0 (drop (Z.to_nat l) d);
  Some (mkFifo (fifo_in_idx f) (fifo_out_idx f) (fifo_mask f) m2 (fifo_free_bytes f) (fifo_size f)).

Definition fifo_in (f : k_fifo) (buf : list Z) (len : Z) : option (Z * k_fifo) :=
  let l := fifo_unused f in
  let len := if l <? len then l else len in
  f1 ← fifo_copy_in f buf len (fifo_in_idx f);
  Some (len, mkFifo (u32 (fifo_in_idx f + len)) (fifo_out_idx f) (fifo_mask f) (fifo_data f1)
               (u32 (fifo_free_bytes f - len)) (fifo_size f)).

(** The bytes stored through [dst]. *)
Definition kfifo_copy_out (f : k_fifo) (len off : Z) : option (list Z) :=
  let size := u32 (fifo_mask f + 1) in
  let off := Z.land off (fifo_mask f) in
  let l := fifo_min len (u32 (size - off)) in
  d1 ← mem_read (fifo_data f) (Z.to_nat off) (Z.to_nat l);
  d2 ← mem_read (fifo_data f) 0 (Z.to_nat (len - l));
  Some (d1 ++ d2).

Definition internal_fifo_out_peek (f : k_fifo) (len : Z) : option (Z * list Z) :=
  let l := u32 (fifo_in_idx f - fifo_out_idx f) in
  let len := if l <? len then l else len in
  d ← kfifo_copy_out f len (fifo_out_idx f);
  Some (len, d).

Definition fifo_out_peek (f : k_fifo) (len : Z) : option (Z * list Z) := internal_fifo_out_peek f len.

Definition fifo_advance (f : k_fifo) (len : Z) : k_fifo :=
  mkFifo (fifo_in_idx f) (u32 (fifo_out_idx f + len)) (fifo_mask f) (fifo_data f)
    (u32 (fifo_free_bytes f + len)) (fifo_size f).

Definition fifo_out (f : k_fifo) (len : Z) : option (Z * list Z * k_fifo) :=
  '(len, d) ← internal_fifo_out_peek f len;
  Some (len, d, fifo_advance f len).

Definition fifo_out_all (f : k_fifo) : option (Z * list Z * k_fifo) :=
  let len := u32 (fifo_size f - fifo_free_bytes f) in
  if len =? 0 then Some (0, [], f)
  else
    '(len, d) ← internal_fifo_out_peek f len;
    Some (len, d, fifo_advance f len).

(** ** Correctness *)

Section Fifo.
Implicit Types (f : k_fifo) (d : list Z).

Definition fifo_used f : Z := u32 (fifo_in_idx f - fifo_out_idx f).

Record fifo_ok f : Prop := mkFifoOk {
  fo_size : exists k, 1 <= k < 32 /\ fifo_size f = 2 ^ k;
  fo_mask : fifo_mask f = fifo_size f - 1;
  fo_data : Z.of_nat (length (fifo_data f)) = fifo_size f;
  fo_in : 0 <= fifo_in_idx f < 2 ^ 32;
  fo_out : 0 <= fifo_out_idx f < 2 ^ 32;
  fo_used : fifo_used f <= fifo_size f;
  fo_free : fifo_free_bytes f = fifo_size f - fifo_used f;
}.

(** The bytes held, oldest first. *)
Definition fifo_contents f : list Z :=
  cview (fifo_data f) (Z.to_nat (fifo_out_idx f)) (Z.to_nat (fifo_used f)).

Lemma fifo_size_range f : fifo_ok f -> 2 <= fifo_size f <= 2 ^ 31 /\ 0 <= fifo_used f.
Proof.
  intros [(k & Hk & ->) _ _ _ _ _ _]. split.
  - split; [apply (Z.pow_le_mono_r 2 1 k); lia|apply (Z.pow_le_mono_r 2 k 31); lia].
  - apply wrap_range. lia.
Qed.

(** Masking is reduction modulo the size, and the size divides 2^32. *)
Lemma fifo_masked f x : fifo_ok f -> 0 <= x -> Z.land x (fifo_mask f) = x mod fifo_size f.
Proof.
  intros [(k & Hk & Hs) Hm _ _ _ _ _] Hx. rewrite Hm, Hs. replace (2 ^ k - 1) with (Z.ones k) by (rewrite Z.ones_equiv; lia).
  apply Z.land_ones. lia.
Qed.

Lemma u32_mod_size f x : fifo_ok f -> u32 x mod fifo_size f = x mod fifo_size f.
Proof.
  intros [(k & Hk & ->) _ _ _ _ _ _]. unfold wrap.
  replace (2 ^ 32) with (2 ^ k * 2 ^ (32 - k)) by (rewrite <- Z.pow_add_r by lia; f_equal; lia).
  assert (0 < 2 ^ k) by (apply Z.pow_pos_nonneg; lia). assert (0 < 2 ^ (32 - k)) by (apply Z.pow_pos_nonneg; lia).
  rewrite Z.rem_mul_r by lia. rewrite (Z.mul_comm (2 ^ k)), Z.mod_add by lia. apply Z.mod_mod. lia.
Qed.

(** One or two copies, depending on the distance to the end. *)
Lemma circ_write m t d : (t < length m)%nat -> (length d <= length m)%nat ->
  let l := Nat.min (length d) (length m - t) in
  exists m1 m2, mem_write m t (take l d) = Some m1 /\ mem_write m1 0 (drop l d) = Some m2 /\ cwrote m m2 t d.
Proof.
  intros Ht Hd l. destruct (decide (length d <= length m - t)%nat) as [Hle|Hgt].
  - destruct (cwrote_flat m t d) as (m' & E & Hc); [lia|]. exists m', m'.
    unfold l. rewrite Nat.min_l, take_ge, drop_ge by lia. split_and!; [done| |done].
    unfold mem_write. simpl. by rewrite drop_0.
  - destruct (cwrote_split m t d) as (m1 & m2 & E1 & E2 & Hc); [lia..|]. exists m1, m2. unfold l. by rewrite Nat.min_r by lia.
Qed.

Lemma circ_read m t k : (t < length m)%nat -> (k <= length m)%nat ->
  let l := Nat.min k (length m - t) in
  exists d1 d2, mem_read m t l = Some d1 /\ mem_read m 0 (k - l) = Some d2 /\ d1 ++ d2 = cview m t k.
Proof.
  intros Ht Hk l. destruct (decide (k <= length m - t)%nat) as [Hle|Hgt].
  - unfold l. rewrite Nat.min_l by lia. rewrite mem_read_flat by lia. rewrite mem_read_flat by lia.
    do 2 eexists. split_and!; [done..|]. by rewrite Nat.sub_diag, app_nil_r.
  - destruct (read_split m t k) as (E1 & E2 & E3); [lia..|]. unfold l. rewrite Nat.min_r by lia. eauto.
Qed.

Lemma mod_of_nat x n : 0 <= x -> 0 < n -> (Z.to_nat x mod Z.to_nat n)%nat = Z.to_nat (x mod n).
Proof. intros. by rewrite Z2Nat.inj_mod by lia. Qed.

(** The offset of an index, and the distance to the end. *)
Lemma fifo_offset f x : fifo_ok f -> 0 <= x < 2 ^ 32 ->
  let o := Z.land x (fifo_mask f) in
  0 <= o < fifo_size f /\ (Z.to_nat x mod length (fifo_data f))%nat = Z.to_nat o /\
  u32 (u32 (fifo_mask f + 1) - o) = fifo_size f - o.
Proof.
  intros Hok Hx o. pose proof (fifo_size_range f Hok) as [Hs _]. unfold o. rewrite fifo_masked by (done || lia).
  pose proof (Z.mod_pos_bound x (fifo_size f) ltac:(lia)) as Hm. split_and!; [lia|lia| |].
  - rewrite <- mod_of_nat by lia. f_equal. pose proof (fo_data f Hok). lia.
  - rewrite (fo_mask f Hok), Z.sub_add. rewrite (wrap_small 32 (fifo_size f)) by lia. apply wrap_small. lia.
Qed.

Lemma fifo_min_nat a b : 0 <= a -> 0 <= b -> Z.to_nat (fifo_min a b) = Nat.min (Z.to_nat a) (Z.to_nat b).
Proof. intros. unfold fifo_min. destruct (Z.ltb_spec b a); lia. Qed.

(** The write position is [fifo_used] bytes after the read position. *)
Lemma fifo_tail f : fifo_ok f ->
  ((Z.to_nat (fifo_out_idx f) + Z.to_nat (fifo_used f)) mod length (fifo_data f) =
   Z.to_nat (fifo_in_idx f) mod length (fifo_data f))%nat.
Proof.
  intros Hok. pose proof (fifo_size_range f Hok) as [Hs Hu]. pose proof (fo_in f Hok). pose proof (fo_out f Hok).
  pose proof (fo_data f Hok) as Hd. rewrite <- Z2Nat.inj_add by lia.
  replace (length (fifo_data f)) with (Z.to_nat (fifo_size f)) by lia. rewrite !mod_of_nat by lia. f_equal.
  rewrite <- Zplus_mod_idemp_r. unfold fifo_used. rewrite u32_mod_size by done. rewrite Zplus_mod_idemp_r. f_equal. lia.
Qed.

Lemma u32_shift a b l : 0 <= l -> u32 (a - b) + l < 2 ^ 32 -> u32 (u32 (a + l) - b) = u32 (a - b) + l.
Proof.
  intros Hl Hlt. unfold wrap in *. rewrite Zminus_mod_idemp_l. replace (a + l - b) with ((a - b) + l) by lia.
  rewrite <- Zplus_mod_idemp_l. apply Z.mod_small. pose proof (Z.mod_pos_bound (a - b) (2 ^ 32)). lia.
Qed.

Lemma u32_shift_r a b l : 0 <= l <= u32 (a - b) -> u32 (a - u32 (b + l)) = u32 (a - b) - l.
Proof.
  intros Hl. unfold wrap in *. rewrite Zminus_mod_idemp_r. replace (a - (b + l)) with ((a - b) - l) by lia.
  rewrite <- Zminus_mod_idemp_l. apply Z.mod_small. pose proof (Z.mod_pos_bound (a - b) (2 ^ 32)). lia.
Qed.

Lemma fifo_in_spec f buf len : fifo_ok f -> 0 <= len <= Z.of_nat (length buf) ->
  let l := Z.min len (fifo_free_bytes f) in
  exists f', fifo_in f buf len = Some (l, f') /\ fifo_ok f' /\
    fifo_contents f' = fifo_contents f ++ take (Z.to_nat l) buf /\ fifo_size f' = fifo_size f.
Proof.
  intros Hok Hlen l. pose proof (fifo_size_range f Hok) as [Hs Hu]. pose proof Hok as [F1 F2 F3 F4 F5 F6 F7].
  assert (Hun : fifo_unused f = fifo_free_bytes f).
  { unfold fifo_unused. fold (fifo_used f). rewrite F2, F7, Z.sub_add. rewrite (wrap_small 32 (fifo_size f)) by lia. apply wrap_small. lia. }
  assert (Hl : (if fifo_unused f <? len then fifo_unused f else len) = l).
  { rewrite Hun. unfold l. destruct (Z.ltb_spec (fifo_free_bytes f) len); lia. }
  unfold fifo_in. rewrite Hl. unfold fifo_copy_in, src_read. rewrite (proj2 (Nat.leb_le _ _)) by lia. simpl.
  destruct (fifo_offset f (fifo_in_idx f) Hok F4) as (Ho & Hon & Hod). set (o := Z.land _ _) in *. rewrite Hod.
  set (d := take (Z.to_nat l) buf). assert (Hd : length d = Z.to_nat l) by (unfold d; rewrite length_take; lia).
  rewrite fifo_min_nat by lia. replace (Z.to_nat (fifo_size f - o)) with (length (fifo_data f) - Z.to_nat o)%nat by lia.
  rewrite <- Hd. destruct (circ_write (fifo_data f) (Z.to_nat o) d) as (m1 & m2 & E1 & E2 & Hc); [lia..|].
  rewrite E1. simpl. rewrite E2. simpl. eexists. split; [done|].
  assert (Eu : u32 (u32 (fifo_in_idx f + l) - fifo_out_idx f) = fifo_used f + l) by (apply u32_shift; fold (fifo_used f); lia).
  split_and!; [|unfold fifo_contents, fifo_used at 1; simpl|done].
  - split; unfold fifo_used; simpl; rewrite ?Eu; try done; try lia.
    + destruct Hc as [Hc _]. lia.
    + apply wrap_range. lia.
    + rewrite wrap_small; lia.
  - rewrite Eu. rewrite Z2Nat.inj_add by lia. rewrite <- Hd.
    apply (cview_wrote _ _ _ _ (Z.to_nat o)); [done| |lia].
    rewrite fifo_tail by done. rewrite Hon. symmetry. apply Nat.mod_small. lia.
Qed.

Lemma fifo_peek_spec f len : fifo_ok f -> 0 <= len ->
  let l := Z.min len (fifo_used f) in
  internal_fifo_out_peek f len = Some (l, take (Z.to_nat l) (fifo_contents f)).
Proof.
  intros Hok Hlen l. pose proof (fifo_size_range f Hok) as [Hs Hu]. pose proof Hok as [F1 F2 F3 F4 F5 F6 F7].
  unfold internal_fifo_out_peek. fold (fifo_used f).
  assert ((if fifo_used f <? len then fifo_used f else len) = l) as -> by (unfold l; destruct (Z.ltb_spec (fifo_used f) len); lia).
  unfold kfifo_copy_out. destruct (fifo_offset f (fifo_out_idx f) Hok F5) as (Ho & Hon & Hod). set (o := Z.land _ _) in *. rewrite Hod.
  assert (Hmin : Z.to_nat (l - fifo_min l (fifo_size f - o)) = (Z.to_nat l - Z.to_nat (fifo_min l (fifo_size f - o)))%nat).
  { unfold fifo_min. destruct (Z.ltb_spec (fifo_size f - o) l); lia. }
  rewrite Hmin, fifo_min_nat by lia. replace (Z.to_nat (fifo_size f - o)) with (length (fifo_data f) - Z.to_nat o)%nat by lia.
  destruct (circ_read (fifo_data f) (Z.to_nat o) (Z.to_nat l)) as (d1 & d2 & E1 & E2 & E3); [lia..|].
  rewrite E1. simpl. rewrite E2. simpl. rewrite E3. do 2 f_equal. unfold fifo_contents.
  replace (Z.to_nat (fifo_used f)) with (Z.to_nat l + Z.to_nat (fifo_used f - l))%nat by lia.
  rewrite cview_app, take_app_length' by (by rewrite cview_length). rewrite <- (cview_mod _ (Z.to_nat (fifo_out_idx f))), Hon.
  rewrite <- (cview_mod _ (Z.to_nat o)). rewrite Nat.mod_small by lia. done.
Qed.

Lemma fifo_advance_spec f l : fifo_ok f -> 0 <= l <= fifo_used f ->
  fifo_ok (fifo_advance f l) /\ fifo_contents (fifo_advance f l) = drop (Z.to_nat l) (fifo_contents f).
Proof.
  intros Hok Hl. pose proof (fifo_size_range f Hok) as [Hs Hu]. pose proof Hok as [F1 F2 F3 F4 F5 F6 F7].
  assert (Eu : u32 (fifo_in_idx f - u32 (fifo_out_idx f + l)) = fifo_used f - l) by (by apply u32_shift_r).
  split.
  - split; unfold fifo_used; simpl; rewrite ?Eu; try done; try lia.
    + apply wrap_range. lia.
    + rewrite wrap_small; lia.
  - unfold fifo_contents, fifo_used at 1. simpl. rewrite Eu.
    replace (Z.to_nat (fifo_used f)) with (Z.to_nat l + Z.to_nat (fifo_used f - l))%nat by lia.
    rewrite cview_app, drop_app_length' by (by rewrite cview_length).
    rewrite <- (cview_mod _ (Z.to_nat (u32 _))), <- (cview_mod _ (Z.to_nat (fifo_out_idx f) + _)). f_equal.
    replace (length (fifo_data f)) with (Z.to_nat (fifo_size f)) by lia.
    rewrite <- Z2Nat.inj_add by lia. rewrite !mod_of_nat by (lia || apply wrap_range; lia). f_equal. by apply u32_mod_size.
Qed.

Lemma fifo_out_spec f len : fifo_ok f -> 0 <= len ->
  let l := Z.min len (fifo_used f) in
  exists f', fifo_out f len = Some (l, take (Z.to_nat l) (fifo_contents f), f') /\ fifo_ok f' /\
    fifo_contents f' = drop (Z.to_nat l) (fifo_contents f).
Proof.
  intros Hok Hlen l. pose proof (fifo_size_range f Hok) as [_ Hu]. unfold fifo_out. rewrite fifo_peek_spec by done. simpl.
  destruct (fifo_advance_spec f l Hok) as [H1 H2]; [unfold l; lia|]. eauto.
Qed.

Lemma fifo_contents_length f : length (fifo_contents f) = Z.to_nat (fifo_used f).
Proof. apply cview_length. Qed.

Lemma fifo_out_all_spec f : fifo_ok f ->
  exists f', fifo_out_all f = Some (fifo_used f, fifo_contents f, f') /\ fifo_ok f' /\ fifo_contents f' = [].
Proof.
  intros Hok. pose proof (fifo_size_range f Hok) as [Hs Hu]. pose proof (fo_used f Hok). unfold fifo_out_all.
  rewrite (fo_free f Hok). replace (fifo_size f - (fifo_size f - fifo_used f)) with (fifo_used f) by lia. rewrite wrap_small by lia.
  destruct (Z.eqb_spec (fifo_used f) 0) as [E|E].
  - exists f. assert (fifo_contents f = []) as -> by (apply length_zero_iff_nil; rewrite fifo_contents_length; lia). by rewrite E.
  - destruct (fifo_out_spec f (fifo_used f) Hok Hu) as (f' & E1 & H1 & H2). unfold fifo_out in E1.
    rewrite Z.min_id in E1, H2. rewrite E1. rewrite take_ge, drop_ge in * by (rewrite fifo_contents_length; lia). eauto.
Qed.

Lemma is_power_of_2_pow k : 0 <= k < 32 -> is_power_of_2 (2 ^ k) = true.
Proof.
  intros Hk. assert (Hall : Forall (fun k => is_power_of_2 (2 ^ k) = true) (seqZ 0 32)).
  { refine (bool_decide_unpack _ _). vm_compute. exact I. }
  apply (proj1 (Forall_forall _ _) Hall). apply elem_of_seqZ. lia.
Qed.

Lemma fifo_init_spec f buf k : 1 <= k < 32 -> Z.of_nat (length buf) = 2 ^ k ->
  exists f', fifo_init f buf (2 ^ k) = (0, f') /\ fifo_ok f' /\ fifo_contents f' = [].
Proof.
  intros Hk Hb. unfold fifo_init. rewrite is_power_of_2_pow by lia.
  assert (2 <= 2 ^ k) by (apply (Z.pow_le_mono_r 2 1 k); lia).
  rewrite (proj2 (Z.ltb_ge _ _)) by lia. simpl. eexists. split; [done|]. split; [|done].
  split; unfold fifo_used; simpl; try done; [by exists k|change (u32 (0 - 0)) with 0; lia..].
Qed.
End Fifo.
