(* ===== verification/MmBlk.v ===== *)
(** * Memory block pools (k_mm_blk.c)

    A pool hands out blocks of one size.  Free blocks form a singly linked
    list whose links are stored in the blocks themselves.  The results: after
    initialisation the free list consists of the aligned, disjoint blocks of
    the pool; allocation and release push and pop it, so that a block is
    never handed out twice. *)

From S2P Require Import Prelude.
From S2P Require Import Monad.
From S2P Require Import Links.
From S2P Require Import KState.

(** Pointer-sized words of memory, by address; 0 is NULL. *)
Abbreviation wmem := (gmap Z Z).

Record mblk_pool_t := mkPool {
  mp_obj_type : kobj_type_t;
  mp_blk_size : Z;
  mp_blk_avail : Z;
  mp_blk_whole : Z;
  mp_avail_list : Z;
}.

(** sizeof(void * ) *)
Definition PTR_SIZE : Z := 4.

(** The loop that links the blocks: [blks] so far, the current and the next
    block.  Running out of fuel stands for a loop that does not end. *)
Fixpoint pool_link (fuel : nat) (blk_size pool_end blks blk_cur blk_next : Z) (mem : wmem) :
    option (Z * Z * Z * wmem) :=
  if blk_next <? pool_end then
    match fuel with
    | O => None
    | S n =>
        pool_link n blk_size pool_end (u32 (blks + 1)) blk_next (u32 (blk_next + blk_size))
          (<[blk_cur := blk_next]> mem)
    end
  else Some (blks, blk_cur, blk_next, mem).

Definition krhino_mblk_pool_init (fuel : nat) (pool : mblk_pool_t) (pool_start blk_size pool_size : Z) (mem : wmem) :
    option (kstat_t * mblk_pool_t * wmem) :=
  if pool_size <? u32 (Z.shiftl blk_size 1) then Some (RHINO_BLK_POOL_SIZE_ERR, pool, mem)
  else
  let addr_align_mask := PTR_SIZE - 1 in
  if 0 <? Z.land pool_start addr_align_mask then Some (RHINO_INV_ALIGN, pool, mem)
  else if 0 <? Z.land blk_size addr_align_mask then Some (RHINO_INV_ALIGN, pool, mem)
  else if 0 <? Z.land pool_size addr_align_mask then Some (RHINO_INV_ALIGN, pool, mem)
  else
  let pool_end := u32 (pool_start + pool_size) in
  '(blks, blk_cur, blk_next, mem) ← pool_link fuel blk_size pool_end 0 pool_start (u32 (pool_start + blk_size)) mem;
  let blks := if blk_next =? pool_end then u32 (blks + 1) else blks in
  Some (RHINO_SUCCESS, mkPool RHINO_MM_BLK_OBJ_TYPE blk_size blks blks pool_start, <[blk_cur := 0]> mem).

(** The result carries the pointer stored through [blk]. *)
Definition krhino_mblk_alloc (pool : mblk_pool_t) (mem : wmem) : option (kstat_t * Z * mblk_pool_t) :=
  if negb (bool_decide (mp_obj_type pool = RHINO_MM_BLK_OBJ_TYPE)) then Some (RHINO_KOBJ_TYPE_ERR, 0, pool)
  else if 0 <? mp_blk_avail pool then
    let avail_blk := mp_avail_list pool in
    next ← mem !! avail_blk;
    Some (RHINO_SUCCESS, avail_blk,
          mkPool (mp_obj_type pool) (mp_blk_size pool) (u32 (mp_blk_avail pool - 1)) (mp_blk_whole pool) next)
  else Some (RHINO_NO_MEM, 0, pool).

Definition krhino_mblk_free (pool : mblk_pool_t) (blk : Z) (mem : wmem) : kstat_t * mblk_pool_t * wmem :=
  if negb (bool_decide (mp_obj_type pool = RHINO_MM_BLK_OBJ_TYPE)) then (RHINO_KOBJ_TYPE_ERR, pool, mem)
  else (RHINO_SUCCESS,
        mkPool (mp_obj_type pool) (mp_blk_size pool) (u32 (mp_blk_avail pool + 1)) (mp_blk_whole pool) blk,
        <[blk := mp_avail_list pool]> mem).

(** ** The free list *)

Section Pool.
Implicit Types (p : mblk_pool_t) (mem : wmem) (L : list Z).

(** From [a] the links lead through the blocks [L]; what follows them is
    not read. *)
Fixpoint chain mem (a : Z) L : Prop :=
  match L with
  | [] => True
  | b :: r => a = b /\ exists n, mem !! b = Some n /\ chain mem n r
  end.

Record pool_rep p mem L : Prop := mkPoolRep {
  pr_type : mp_obj_type p = RHINO_MM_BLK_OBJ_TYPE;
  pr_chain : chain mem (mp_avail_list p) L;
  pr_nodup : NoDup L;
  pr_avail : mp_blk_avail p = Z.of_nat (length L);
  pr_whole : mp_blk_avail p <= mp_blk_whole p < 2 ^ 32;
}.

Lemma chain_insert mem a L b n : chain mem a L -> b ∉ L -> chain (<[b := n]> mem) a L.
Proof.
  revert a. induction L as [|c L IH]; intros a; simpl; [done|]. intros (-> & n' & Hn & Hc) Hb.
  split; [done|]. exists n'. rewrite lookup_insert_ne by set_solver. split; [done|]. apply IH; set_solver.
Qed.

(** Allocation takes the first free block. *)
Lemma mblk_alloc_spec p mem L : pool_rep p mem L ->
  match L with
  | [] => krhino_mblk_alloc p mem = Some (RHINO_NO_MEM, 0, p)
  | b :: r => exists p', krhino_mblk_alloc p mem = Some (RHINO_SUCCESS, b, p') /\ pool_rep p' mem r /\
                mp_blk_whole p' = mp_blk_whole p
  end.
Proof.
  intros [Ht Hc Hnd Ha Hw]. unfold krhino_mblk_alloc. rewrite bool_decide_true by done. simpl.
  destruct L as [|b r]; simpl in *.
  - by rewrite Ha.
  - destruct Hc as (-> & n & Hn & Hc). rewrite (proj2 (Z.ltb_lt 0 _)) by lia. rewrite Hn. simpl.
    eexists. split; [done|]. split; [|done]. apply NoDup_cons in Hnd as [_ Hnd].
    split; simpl; try done; rewrite wrap_small; lia.
Qed.

(** Releasing a block that is not free makes it the first free block. *)
Lemma mblk_free_spec p mem L b : pool_rep p mem L -> b ∉ L -> mp_blk_avail p < mp_blk_whole p ->
  exists p' mem', krhino_mblk_free p b mem = (RHINO_SUCCESS, p', mem') /\ pool_rep p' mem' (b :: L) /\
    mp_blk_whole p' = mp_blk_whole p.
Proof.
  intros [Ht Hc Hnd Ha Hw] Hb Hlt. unfold krhino_mblk_free. rewrite bool_decide_true by done. simpl.
  do 2 eexists. split; [done|]. split; [|done]. split; simpl; try done.
  - split; [done|]. exists (mp_avail_list p). rewrite lookup_insert_eq. split; [done|]. by apply chain_insert.
  - by constructor.
  - rewrite wrap_small; lia.
  - rewrite wrap_small; lia.
Qed.

(** The blocks of a pool: [n] of them from [start]. *)
Definition blocks (start bs : Z) (n : nat) : list Z := (fun i => start + Z.of_nat i * bs) <$> seq 0 n.

Lemma blocks_cons start bs n : blocks start bs (S n) = start :: blocks (start + bs) bs n.
Proof.
  unfold blocks. simpl. f_equal; [lia|]. rewrite <- fmap_S_seq, <- list_fmap_compose. apply list_fmap_ext.
  intros ? i _. simpl. lia.
Qed.

Lemma elem_of_blocks start bs n a : a ∈ blocks start bs n <-> exists i, (i < n)%nat /\ a = start + Z.of_nat i * bs.
Proof.
  unfold blocks. rewrite list_elem_of_fmap. setoid_rewrite elem_of_seq. split.
  - intros (i & -> & Hi). exists i. split; [lia|done].
  - intros (i & Hi & ->). exists i. split; [done|lia].
Qed.

Lemma blocks_nodup start bs n : 0 < bs -> NoDup (blocks start bs n).
Proof.
  intros Hb. revert start. induction n as [|n IH]; intros start; [constructor|]. rewrite blocks_cons. constructor; [|apply IH].
  rewrite elem_of_blocks. intros (i & _ & E). nia.
Qed.

(** The loop links [n] blocks and stops at the one after them, the first
    whose successor is not below the end. *)
Lemma pool_link_spec n : forall fuel bs e blks cur mem,
  0 < bs -> 0 <= cur -> cur + Z.of_nat (S n) * bs < 2 ^ 32 -> 0 <= blks -> blks + Z.of_nat n < 2 ^ 32 ->
  cur + Z.of_nat n * bs < e <= cur + Z.of_nat (S n) * bs -> (n <= fuel)%nat ->
  exists mem', pool_link fuel bs e blks cur (u32 (cur + bs)) mem =
    Some (blks + Z.of_nat n, cur + Z.of_nat n * bs, cur + Z.of_nat (S n) * bs, mem') /\
    (forall last, chain (<[cur + Z.of_nat n * bs := last]> mem') cur (blocks cur bs (S n))) /\
    (forall a, a < cur -> mem' !! a = mem !! a).
Proof.
  induction n as [|n IH]; intros fuel bs e blks cur mem Hbs Hc Hov Hb Hbo He Hf; rewrite wrap_small by lia.
  - exists mem. assert (E : pool_link fuel bs e blks cur (cur + bs) mem = Some (blks, cur, cur + bs, mem)).
    { destruct fuel; simpl; by rewrite (proj2 (Z.ltb_ge _ _)) by lia. }
    rewrite E. split_and!; [repeat f_equal; lia| |done]. intros last. rewrite blocks_cons.
    replace (cur + Z.of_nat 0 * bs) with cur by lia. split; [done|]. exists last. by rewrite lookup_insert_eq.
  - destruct fuel as [|fuel]; [lia|]. cbn [pool_link]. rewrite (proj2 (Z.ltb_lt _ _)) by nia. rewrite (wrap_small 32 (blks + 1)) by lia.
    destruct (IH fuel bs e (blks + 1) (cur + bs) (<[cur := cur + bs]> mem)) as (mem' & E & Hch & Hfr); try nia.
    exists mem'. rewrite E. split_and!.
    + replace (blks + 1 + Z.of_nat n) with (blks + Z.of_nat (S n)) by lia.
      replace (cur + bs + Z.of_nat n * bs) with (cur + Z.of_nat (S n) * bs) by lia.
      by replace (cur + bs + Z.of_nat (S n) * bs) with (cur + Z.of_nat (S (S n)) * bs) by lia.
    + intros last. rewrite blocks_cons. split; [done|]. exists (cur + bs).
      rewrite lookup_insert_ne by nia. rewrite Hfr by lia. rewrite lookup_insert_eq. split; [done|].
      replace (cur + Z.of_nat (S n) * bs) with (cur + bs + Z.of_nat n * bs) by lia. apply Hch.
    + intros a Ha. rewrite Hfr by lia. by rewrite lookup_insert_ne by lia.
Qed.

Lemma chain_take mem a L k : chain mem a L -> chain mem a (take k L).
Proof.
  revert a k. induction L as [|b L IH]; intros a k Hc; destruct k; simpl in *; try done.
  destruct Hc as (-> & n & Hn & Hc). eauto.
Qed.

Lemma blocks_take start bs n k : (k <= n)%nat -> take k (blocks start bs n) = blocks start bs k.
Proof. intros Hk. unfold blocks. rewrite <- fmap_take, take_seq. by rewrite Nat.min_l. Qed.

Lemma aligned_land x : 0 <= x -> x mod 4 = 0 -> (0 <? Z.land x (PTR_SIZE - 1)) = false.
Proof. intros Hx Hm. change (PTR_SIZE - 1) with (Z.ones 2). rewrite Z.land_ones by lia. change (2 ^ 2) with 4. by rewrite Hm. Qed.

(** Initialisation: the free list is the whole blocks of the pool. *)
Lemma mblk_pool_init_spec fuel p start bs size mem :
  0 < bs -> 2 * bs <= size -> 0 <= start -> start + size + bs < 2 ^ 32 ->
  start mod 4 = 0 -> bs mod 4 = 0 -> size mod 4 = 0 -> (Z.to_nat (size / bs) <= fuel)%nat ->
  exists p' mem', krhino_mblk_pool_init fuel p start bs size mem = Some (RHINO_SUCCESS, p', mem') /\
    pool_rep p' mem' (blocks start bs (Z.to_nat (size / bs))) /\ mp_blk_whole p' = size / bs /\ mp_blk_size p' = bs.
Proof.
  intros Hbs Hsz Hst Hov A1 A2 A3 Hfu. unfold krhino_mblk_pool_init.
  rewrite Z.shiftl_mul_pow2 by lia. change (2 ^ 1) with 2. rewrite (wrap_small 32 (bs * 2)) by lia.
  rewrite (proj2 (Z.ltb_ge _ _)) by lia. rewrite !aligned_land by lia. rewrite (wrap_small 32 (start + size)) by lia.
  pose proof (Z.div_mod size bs ltac:(lia)) as Hdm. pose proof (Z.mod_pos_bound size bs Hbs) as Hmb.
  set (q := size / bs) in *. assert (Hq : 2 <= q) by (unfold q; apply Z.div_le_lower_bound; lia).
  (* the loop stops at block [n] *)
  set (n := if size mod bs =? 0 then Z.to_nat (q - 1) else Z.to_nat q).
  assert (Hn : Z.of_nat n = if size mod bs =? 0 then q - 1 else q) by (unfold n; destruct (_ =? 0); lia).
  assert (Hend : start + Z.of_nat n * bs < start + size <= start + Z.of_nat (S n) * bs).
  { rewrite Nat2Z.inj_succ, Hn. destruct (Z.eqb_spec (size mod bs) 0); nia. }
  destruct (pool_link_spec n fuel bs (start + size) 0 start mem) as (mem' & E & Hch & _); try lia; try nia.
  rewrite E. simpl. do 2 eexists. split; [done|].
  assert (Hblks : (if start + Z.of_nat (S n) * bs =? start + size then u32 (0 + Z.of_nat n + 1) else 0 + Z.of_nat n) = q).
  { rewrite Nat2Z.inj_succ, Hn. destruct (Z.eqb_spec (size mod bs) 0) as [E0|E0].
    - rewrite (proj2 (Z.eqb_eq _ _)) by nia. rewrite wrap_small; nia.
    - rewrite (proj2 (Z.eqb_neq _ _)) by nia. lia. }
  cbn [Z.of_nat] in Hblks. rewrite Hblks. split; [|done]. split; simpl.
  - done.
  - rewrite <- (blocks_take start bs (S n)) by (unfold n; destruct (_ =? 0); lia). apply chain_take, Hch.
  - by apply blocks_nodup.
  - unfold blocks. rewrite length_fmap, length_seq. lia.
  - assert (q * 1 <= size) by nia. lia.
Qed.
End Pool.
