(* ===== verification/SList.v ===== *)
(** * Singly linked lists (aos/list.h, kernel/misc/list.c)

    The [next] pointers of all [slist_t] in memory, the operations on them, and
    their meaning as operations on sequences.  A node that is not in the map is
    not allocated: following or writing its pointer is a fault. *)

From stdpp Require Import functions.
From S2P Require Import Prelude.
From S2P Require Import Monad.

(** ** Allocation *)

(** [aos_zalloc]: what the [t]-th call returns while [used] is allocated; NULL
    when there is no memory. *)
Class Allocator := mkAllocator {
  zalloc : nat -> gset nat -> option nat;
  zalloc_fresh t used a : zalloc t used = Some a -> a ∉ used;
}.

(** Memory for [n] objects, the first free one next. *)
Definition first_free (n : nat) : Allocator.
Proof.
  refine (mkAllocator (fun _ used => list_find (fun a => a ∉ used) (seq 0 n) ≫= fun x => Some (snd x)) _).
  intros t used a. destruct (list_find _ _) as [[i b]|] eqn:Ef; [|done]. intros [= <-]. by apply list_find_Some in Ef as (_ & ? & _).
Defined.

(** ** Operations *)

(** States with a memory of [slist_t], at addresses in [N]. *)
Class HasSLinks (S N : Type) `{Countable N} := mkHasSLinks {
  slinks_of : S -> gmap N (option N);
  with_slinks : gmap N (option N) -> S -> S;
  slinks_of_with m s : slinks_of (with_slinks m s) = m;
  with_slinks_with m m' s : with_slinks m (with_slinks m' s) = with_slinks m s;
  with_slinks_of s : with_slinks (slinks_of s) s = s;
}.

Section Ops.
Context {S N : Type} `{HasSLinks S N}.

Definition get_snext (n : N) : st S (option N) := m <- gets slinks_of ;; lift (m !! n).
Definition put_snext (n : N) (v : option N) : st S unit :=
  m <- gets slinks_of ;; lift (m !! n) ;; modify (with_slinks (<[n := v]> m)).

Definition slist_init (head : N) : st S unit := put_snext head None.

Definition slist_empty (head : N) : st S bool := n <- get_snext head ;; ret (bool_decide (n = None)).

Definition slist_add (node head : N) : st S unit :=
  hn <- get_snext head ;;
  put_snext node hn ;;
  put_snext head (Some node).

(** Loops end at the latest when every node was visited. *)
Definition slist_fuel : st S nat := m <- gets slinks_of ;; ret (Datatypes.S (size m)).

Fixpoint add_tail_loop (fuel : nat) (node head : N) : st S unit :=
  match fuel with
  | O => fault
  | Datatypes.S f =>
      n <- get_snext head ;;
      match n with
      | Some head' => add_tail_loop f node head'
      | None => slist_add node head
      end
  end.

Definition slist_add_tail (node head : N) : st S unit := f <- slist_fuel ;; add_tail_loop f node head.

Fixpoint del_loop (fuel : nat) (node head : N) : st S unit :=
  match fuel with
  | O => fault
  | Datatypes.S f =>
      n <- get_snext head ;;
      match n with
      | Some n =>
          if bool_decide (n = node) then nn <- get_snext node ;; put_snext head nn
          else del_loop f node n
      | None => ret tt
      end
  end.

Definition slist_del (node head : N) : st S unit := f <- slist_fuel ;; del_loop f node head.

Fixpoint number_loop (fuel : nat) (cur : N) (num : Z) : st S Z :=
  match fuel with
  | O => fault
  | Datatypes.S f =>
      n <- get_snext cur ;;
      match n with
      | Some cur' => number_loop f cur' (num + 1)
      | None => ret num
      end
  end.

Definition slist_entry_number (queue : N) : st S Z := f <- slist_fuel ;; number_loop f queue 0.

(** [slist_for_each_entry]: from the pointer [cur] on, [body] for each entry
    until it gives a result. *)
Fixpoint slist_for_each {A} (fuel : nat) (body : N -> st S (option A)) (cur : option N) : st S (option A) :=
  match fuel with
  | O => fault
  | Datatypes.S f =>
      match cur with
      | None => ret None
      | Some n =>
          r <- body n ;;
          match r with
          | Some a => ret (Some a)
          | None => n' <- get_snext n ;; slist_for_each f body n'
          end
      end
  end.
End Ops.

(** ** Chains *)

Section Chains.
Context {N : Type} `{CN : Countable N}.
Implicit Types (m : gmap N (option N)) (h n : N) (ns : list N).

(** From [h] on the pointers lead through [ns] to NULL. *)
Fixpoint schain m h ns : Prop :=
  match ns with
  | [] => m !! h = Some None
  | n :: r => m !! h = Some (Some n) /\ schain m n r
  end.

Lemma schain_det m h ns ns' : schain m h ns -> schain m h ns' -> ns = ns'.
Proof.
  revert h ns'. induction ns as [|n ns IH]; intros h [|n' ns'] H1 H2; simpl in *; try done.
  - destruct H2 as [H2 _]. congruence.
  - destruct H1 as [H1 _]. congruence.
  - destruct H1 as [H1 Hr1], H2 as [H2 Hr2]. rewrite H1 in H2. injection H2 as <-. f_equal. by apply (IH n).
Qed.

Lemma schain_suffix m h pre n post : schain m h (pre ++ n :: post) -> schain m n post.
Proof. revert h. induction pre as [|x pre IH]; intros h; simpl; [by intros [_ ?] | intros [_ Hc]; by apply (IH x)]. Qed.

Lemma schain_nodup m h ns : schain m h ns -> NoDup (h :: ns).
Proof.
  assert (Hno : forall n post, schain m n post -> n ∉ post).
  { intros n post Hc Hin. apply list_elem_of_split in Hin as (p & q & ->). pose proof (schain_suffix _ _ _ _ _ Hc) as Hq.
    pose proof (schain_det _ _ _ _ Hc Hq) as E. apply (f_equal length) in E. rewrite length_app in E. simpl in E. lia. }
  revert h. induction ns as [|n ns IH]; intros h Hc; (constructor; [by apply Hno|]); [constructor|]. destruct Hc as [_ Hc]. by apply IH.
Qed.

Lemma schain_dom m h ns n : schain m h ns -> n ∈ h :: ns -> is_Some (m !! n).
Proof.
  revert h. induction ns as [|x ns IH]; intros h Hc Hn; simpl in Hc.
  - apply list_elem_of_singleton in Hn as ->. eauto.
  - destruct Hc as [Hh Hc]. apply elem_of_cons in Hn as [->|Hn]; [eauto | by apply (IH x)].
Qed.

Lemma schain_length m h ns : schain m h ns -> (length ns < size m)%nat.
Proof.
  intros Hc. pose proof (schain_nodup _ _ _ Hc) as Hnd.
  assert (Hsub : list_to_set (h :: ns) ⊆ (dom m : gset N)).
  { intros n Hn. apply elem_of_list_to_set in Hn. apply elem_of_dom. by apply (schain_dom m h ns). }
  apply subseteq_size in Hsub. rewrite size_list_to_set, size_dom in Hsub by done. simpl in Hsub. lia.
Qed.

(** Two memories that agree on some nodes. *)
Definition same_on (P : N -> Prop) m m' : Prop := forall n, P n -> m' !! n = m !! n.

Lemma schain_same m m' h ns : same_on (fun n => n ∈ h :: ns) m m' -> schain m h ns -> schain m' h ns.
Proof.
  revert h. induction ns as [|n ns IH]; intros h Hs Hc; simpl in *.
  - rewrite Hs; [done | apply elem_of_cons; by left].
  - destruct Hc as [Hh Hc]. split; [rewrite Hs; [done | apply elem_of_cons; by left]|].
    apply IH; [|done]. intros x Hx. apply Hs, elem_of_cons. by right.
Qed.

Lemma schain_insert_ne m h ns k v : k ∉ h :: ns -> schain m h ns -> schain (<[k := v]> m) h ns.
Proof.
  intros Hk. apply schain_same. intros n Hn. apply lookup_insert_ne. intros ->. done.
Qed.

(** The last node before [n]. *)
Fixpoint before (h : N) (pre : list N) : N := match pre with [] => h | x :: r => before x r end.

Lemma schain_before m h pre n post : schain m h (pre ++ n :: post) -> m !! before h pre = Some (Some n).
Proof.
  revert h. induction pre as [|x pre IH]; intros h; simpl; [by intros [? _]|]. intros [_ Hc]. by apply IH.
Qed.

Lemma before_in h pre : before h pre ∈ h :: pre.
Proof.
  revert h. induction pre as [|x pre IH]; intros h; apply elem_of_cons; [by left | right; apply IH].
Qed.

Lemma schain_del m h pre n post nn : schain m h (pre ++ n :: post) -> m !! n = Some nn -> schain (<[before h pre := nn]> m) h (pre ++ post).
Proof.
  intros Hc Hn. pose proof (schain_nodup _ _ _ Hc) as Hnd. revert h Hc Hnd. induction pre as [|x pre IH]; intros h Hc Hnd.
  - simpl in *. destruct Hc as [Hh Hc]. apply NoDup_cons in Hnd as [Hnh _].
    apply not_elem_of_cons in Hnh as [_ Hnh]. destruct post as [|y post]; simpl in *.
    + rewrite lookup_insert_eq. congruence.
    + destruct Hc as [Hy Hc]. rewrite lookup_insert_eq. split; [congruence|]. by apply schain_insert_ne.
  - simpl in Hc. destruct Hc as [Hh Hc]. simpl in Hnd. apply NoDup_cons in Hnd as [Hnh Hnd]. specialize (IH x Hc Hnd). simpl.
    split; [|done].
    rewrite lookup_insert_ne; [done|]. intros E. apply Hnh. rewrite <- E.
    pose proof (before_in x pre) as Hin. apply elem_of_cons in Hin as [->|Hin]; [apply elem_of_cons; by left|].
    apply elem_of_cons. right. apply elem_of_app. by left.
Qed.

Lemma schain_tail m h ns node : schain m h ns -> is_Some (m !! node) -> node ∉ h :: ns ->
  schain (<[before h ns := Some node]> (<[node := None]> m)) h (ns ++ [node]).
Proof.
  revert h. induction ns as [|x ns IH]; intros h Hc Hd Hn; simpl in *.
  - apply not_elem_of_cons in Hn as [Hne _]. rewrite lookup_insert_eq. split; [done|].
    rewrite lookup_insert_ne, lookup_insert_eq by done. done.
  - destruct Hc as [Hh Hc]. pose proof (schain_nodup m h (x :: ns) (conj Hh Hc)) as Hnd. apply NoDup_cons in Hnd as [Hnh _].
    apply not_elem_of_cons in Hn as [Hne Hn]. split; [|by apply IH]. rewrite lookup_insert_ne, lookup_insert_ne; [done | done|].
    intros E. apply Hnh. rewrite <- E. apply before_in.
Qed.
End Chains.

(** ** What the operations do *)

Section Specs.
Context {S N : Type} `{HasSLinks S N}.
Implicit Types (s : S) (h n : N) (ns : list N).

Lemma schain_head (m : gmap N (option N)) h ns : schain m h ns -> m !! h = Some (head ns).
Proof. destruct ns; [done | by intros [? _]]. Qed.

Lemma wp_get_snext n v Q s : slinks_of s !! n = Some v -> Q v s -> wp (get_snext n) Q s.
Proof. intros Hn HQ. unfold get_snext. by msteps. Qed.

Lemma wp_put_snext n v Q s : is_Some (slinks_of s !! n) -> Q tt (with_slinks (<[n := v]> (slinks_of s)) s) -> wp (put_snext n v) Q s.
Proof. intros [v0 Hn] HQ. unfold put_snext. apply wp_bind, wp_gets, wp_bind, (wp_lift _ v0); [done|]. exact HQ. Qed.

Lemma dom_insert_same (m : gmap N (option N)) n v : is_Some (m !! n) -> dom (<[n := v]> m) = dom m.
Proof. intros Hn. apply dom_insert_lookup_L. done. Qed.

(** The memory [m'] after an operation: the nodes in memory are the same, and
    those outside [P] are not changed. *)
Definition changed (P : N -> Prop) (m m' : gmap N (option N)) : Prop := same_on (fun n => ~ P n) m m' /\ dom m' = dom m.

Lemma wp_slist_add node h ns Q s : schain (slinks_of s) h ns -> is_Some (slinks_of s !! node) -> node ∉ h :: ns ->
  (forall m', schain m' h (node :: ns) -> changed (fun n => n = h \/ n = node) (slinks_of s) m' -> Q tt (with_slinks m' s)) ->
  wp (slist_add node h) Q s.
Proof.
  intros Hc Hd Hn HQ. pose proof (schain_head _ _ _ Hc) as Hh. set (m := slinks_of s) in *.
  unfold slist_add. apply wp_bind, (wp_get_snext h (head ns)); [done|]. apply wp_bind, wp_put_snext; [done|]. fold m.
  apply not_elem_of_cons in Hn as [Hne Hn].
  apply wp_put_snext; [rewrite slinks_of_with, lookup_insert_ne by done; eauto|].
  rewrite slinks_of_with, with_slinks_with. apply HQ.
  - simpl. split; [apply lookup_insert_eq|]. pose proof (schain_nodup _ _ _ Hc) as Hnd. apply NoDup_cons in Hnd as [Hnh _].
    destruct ns as [|x ns]; simpl.
    + by rewrite lookup_insert_ne, lookup_insert_eq by done.
    + rewrite lookup_insert_ne, lookup_insert_eq by done. split; [done|]. destruct Hc as [_ Hc]. by apply schain_insert_ne, schain_insert_ne.
  - split; [intros n Hn'; rewrite !lookup_insert_ne by (intros ->; apply Hn'; auto); done|].
    rewrite dom_insert_same by (rewrite lookup_insert_ne by done; eauto). by apply dom_insert_same.
Qed.

Lemma wp_slist_del_in node h pre post Q s : schain (slinks_of s) h (pre ++ node :: post) ->
  (forall m', schain m' h (pre ++ post) -> changed (fun n => n = before h pre) (slinks_of s) m' -> Q tt (with_slinks m' s)) ->
  wp (slist_del node h) Q s.
Proof.
  intros Hc HQ. unfold slist_del, slist_fuel. apply wp_bind, wp_bind, wp_gets, wp_ret. pose proof (schain_length _ _ _ Hc) as Hlen.
  pose proof (schain_nodup _ _ _ Hc) as Hnd. set (m := slinks_of s) in *.
  destruct (schain_dom m h _ node Hc) as [nn Hnn]; [apply elem_of_cons; right; apply elem_of_app; right; apply elem_of_cons; by left|].
  assert (Hm' : changed (fun n => n = before h pre) m (<[before h pre := nn]> m)).
  { split; [intros n Hn; by rewrite lookup_insert_ne|]. apply dom_insert_same. rewrite (schain_before _ _ _ _ _ Hc). eauto. }
  specialize (HQ _ (schain_del _ _ _ _ _ _ Hc Hnn) Hm'). clear Hm'.
  assert (Hloop : forall fuel pre h, schain m h (pre ++ node :: post) -> NoDup (h :: pre ++ node :: post) -> (length pre < fuel)%nat ->
    Q tt (with_slinks (<[before h pre := nn]> m) s) -> wp (del_loop fuel node h) Q s).
  { clear - Hnn. induction fuel as [|fuel IH]; intros pre h Hc Hnd Hf HQ; [lia|]. cbn [del_loop]. apply wp_bind.
    apply (wp_get_snext h (head (pre ++ node :: post))); [by apply schain_head|]. destruct pre as [|x pre]; simpl.
    - rewrite bool_decide_eq_true_2 by done. apply wp_bind, (wp_get_snext node nn); [done|].
      apply wp_put_snext; [|done]. destruct Hc as [Hh _]. eauto.
    - simpl in Hc, Hnd, Hf. destruct Hc as [_ Hc]. apply NoDup_cons in Hnd as [_ Hnd]. pose proof Hnd as Hnd'. apply NoDup_cons in Hnd' as [Hx _].
      rewrite bool_decide_eq_false_2 by (intros ->; apply Hx, elem_of_app; right; apply elem_of_cons; by left).
      by apply (IH pre x); [..|lia|]. }
  apply (Hloop _ pre h); [done | done | rewrite length_app in Hlen; simpl in Hlen; lia | done].
Qed.

Lemma wp_slist_add_tail node h ns Q s : schain (slinks_of s) h ns -> is_Some (slinks_of s !! node) -> node ∉ h :: ns ->
  (forall m', schain m' h (ns ++ [node]) -> changed (fun n => n = before h ns \/ n = node) (slinks_of s) m' -> Q tt (with_slinks m' s)) ->
  wp (slist_add_tail node h) Q s.
Proof.
  intros Hc Hd Hn HQ. unfold slist_add_tail, slist_fuel. apply wp_bind, wp_bind, wp_gets, wp_ret. pose proof (schain_length _ _ _ Hc) as Hlen.
  set (m := slinks_of s) in *. pose proof (schain_tail _ _ _ _ Hc Hd Hn) as Ht.
  assert (Hb : is_Some (m !! before h ns)) by (eapply schain_dom, before_in; done).
  assert (Hbn : before h ns <> node) by (intros E; apply Hn; rewrite <- E; apply before_in).
  assert (Hm' : changed (fun n => n = before h ns \/ n = node) m (<[before h ns := Some node]> (<[node := None]> m))).
  { split; [intros n Hn'; rewrite !lookup_insert_ne by (intros E; apply Hn'; auto); done|].
    rewrite dom_insert_same by (rewrite lookup_insert_ne by done; done). by apply dom_insert_same. }
  specialize (HQ _ Ht Hm'). clear Ht Hm'.
  assert (Hloop : forall fuel ns h, schain m h ns -> node ∉ h :: ns -> (length ns < fuel)%nat ->
    Q tt (with_slinks (<[before h ns := Some node]> (<[node := None]> m)) s) -> wp (add_tail_loop fuel node h) Q s).
  { clear - Hd. induction fuel as [|fuel IH]; intros ns h Hc Hn Hf HQ; [lia|]. cbn [add_tail_loop]. apply wp_bind.
    apply (wp_get_snext h (head ns)); [by apply schain_head|]. apply not_elem_of_cons in Hn as [Hne Hn]. destruct ns as [|x ns]; simpl in *.
    - unfold slist_add. apply wp_bind, (wp_get_snext h None); [done|]. apply wp_bind, wp_put_snext; [done|].
      apply wp_put_snext; [rewrite slinks_of_with, lookup_insert_ne by done; eauto|]. by rewrite slinks_of_with, with_slinks_with.
    - destruct Hc as [_ Hc]. by apply (IH ns x); [..|lia|]. }
  apply (Hloop _ ns h); [done | done | lia | done].
Qed.

Lemma wp_slist_empty h ns Q s : schain (slinks_of s) h ns -> Q (bool_decide (ns = [])) s -> wp (slist_empty h) Q s.
Proof.
  intros Hc HQ. unfold slist_empty. apply wp_bind, (wp_get_snext h (head ns)); [by apply schain_head|]. apply wp_ret.
  destruct ns; simpl in *; done.
Qed.

Lemma wp_slist_entry_number h ns Q s : schain (slinks_of s) h ns -> Q (Z.of_nat (length ns)) s -> wp (slist_entry_number h) Q s.
Proof.
  intros Hc HQ. unfold slist_entry_number, slist_fuel. apply wp_bind, wp_bind, wp_gets, wp_ret. pose proof (schain_length _ _ _ Hc) as Hlen.
  assert (Hloop : forall fuel ns h k, schain (slinks_of s) h ns -> (length ns < fuel)%nat -> Q (k + Z.of_nat (length ns)) s ->
    wp (number_loop fuel h k) Q s).
  { clear. induction fuel as [|fuel IH]; intros ns h k Hc Hf HQ; [lia|]. cbn [number_loop]. apply wp_bind.
    apply (wp_get_snext h (head ns)); [by apply schain_head|]. destruct ns as [|x ns]; simpl in *.
    - apply wp_ret. by rewrite Z.add_0_r in HQ.
    - destruct Hc as [_ Hc]. apply (IH ns x); [done | lia|]. by replace (k + 1 + Z.of_nat (length ns)) with (k + Z.pos (Pos.of_succ_nat (length ns))) by lia. }
  apply (Hloop _ ns h); [done | lia|]. by rewrite Z.add_0_l.
Qed.

(** The first result of [f] over the nodes. *)
Fixpoint first_some {B A} (f : B -> option A) (l : list B) : option A :=
  match l with [] => None | x :: r => match f x with Some a => Some a | None => first_some f r end end.

(** A loop whose body only reads. *)
Lemma wp_for_each_read {A} (body : N -> st S (option A)) (f : N -> option A) h ns fuel Q s :
  schain (slinks_of s) h ns -> (length ns < fuel)%nat ->
  (forall n, n ∈ ns -> wp (body n) (fun r s' => r = f n /\ s' = s) s) -> Q (first_some f ns) s ->
  wp (slist_for_each fuel body (head ns)) Q s.
Proof.
  revert h ns. induction fuel as [|fuel IH]; intros h ns Hc Hf Hb HQ; [lia|]. cbn [slist_for_each]. destruct ns as [|n ns]; simpl in *.
  { by apply wp_ret. }
  destruct Hc as [_ Hc]. apply wp_bind. eapply wp_mono; [apply Hb, elem_of_cons; by left|]. intros r s' [-> ->].
  destruct (f n); [by apply wp_ret|]. apply wp_bind, (wp_get_snext n (head ns)); [by apply schain_head|].
  apply (IH n ns); [done | lia | | done]. intros x Hx. apply Hb, elem_of_cons. by right.
Qed.

(** A loop that stops at [n]. *)
Lemma wp_for_each_stop {A} (body : N -> st S (option A)) h pre n post fuel Q s :
  schain (slinks_of s) h (pre ++ n :: post) -> (length pre < fuel)%nat ->
  (forall x, x ∈ pre -> wp (body x) (fun r s' => r = None /\ s' = s) s) ->
  wp (body n) (fun r s' => is_Some r /\ Q r s') s ->
  wp (slist_for_each fuel body (head (pre ++ n :: post))) Q s.
Proof.
  revert h fuel. induction pre as [|x pre IH]; intros h fuel Hc Hf Hb Hn; (destruct fuel as [|fuel]; [simpl in Hf; lia|]); simpl; apply wp_bind.
  - eapply wp_mono; [exact Hn|]. intros r s' [[a ->] HQ]. by apply wp_ret.
  - eapply wp_mono; [apply Hb, elem_of_cons; by left|]. intros r s' [-> ->]. destruct Hc as [_ Hc].
    apply wp_bind, (wp_get_snext x (head (pre ++ n :: post))); [by apply schain_head|]. apply (IH x fuel); [done | simpl in Hf; lia | | done].
    intros y Hy. apply Hb, elem_of_cons. by right.
Qed.
End Specs.
