(* ===== verification/EvList.v ===== *)
(** * Event subscriptions (kernel/uService/event.c)

    An event list holds the events that have subscriptions, newest first, and
    for each of them a list of subscriptions, newest first.  Events and
    subscriptions are allocated; a freed one is not in memory any more, and
    following a pointer to it is a fault.

    Publishing records the calls of the subscribed functions in [ev_calls]:
    they run in the task of the event service and reach the list through the
    service only, after the call.  The mutex of the list makes the functions
    run one at a time. *)

From stdpp Require Import functions.
From S2P Require Import Prelude.
From S2P Require Import Monad.
From S2P Require Import SList.

(** ** Memory *)

(** The [slist_t] of the list head, of an event (its [next] and its
    [sub_list]) and of a subscription. *)
Inductive snode := NEvents | NEv (a : nat) | NSubs (a : nat) | NSub (a : nat).

#[export] Instance snode_eq_dec : EqDecision snode.
Proof. solve_decision. Defined.

#[export] Instance snode_countable : Countable snode.
Proof.
  refine (inj_countable'
    (fun n => match n with NEvents => inl tt | NEv a => inr (inl a) | NSubs a => inr (inr (inl a)) | NSub a => inr (inr (inr a)) end)
    (fun c => match c with inl _ => NEvents | inr (inl a) => NEv a | inr (inr (inl a)) => NSubs a | inr (inr (inr a)) => NSub a end) _).
  by intros [].
Defined.

(** A call of a subscribed function: the function, its event, data and
    context. *)
Record ecall := mkCall { call_cb : Z; call_event : Z; call_data : Z; call_context : Z }.

(** [ev_ids] are the events in memory, [ev_subs] the subscriptions: function
    and context; [ev_allocs] counts the allocations. *)
Record evs := mkEvs {
  ev_ids : gmap nat Z;
  ev_subs : gmap nat (Z * Z);
  ev_next : gmap snode (option snode);
  ev_allocs : nat;
  ev_calls : list ecall;
}.

#[export] Instance evs_links : HasSLinks evs snode.
Proof.
  refine (mkHasSLinks evs snode _ _ ev_next (fun m s => mkEvs (ev_ids s) (ev_subs s) m (ev_allocs s) (ev_calls s)) _ _ _);
    [done | done | by intros []].
Defined.

Abbreviation E := (st evs).

Definition ev_used (s : evs) : gset nat := dom (ev_ids s) ∪ dom (ev_subs s).

Section Events.
Context `{Allocator}.

Definition zalloc_event : E (option nat) :=
  s <- gets id ;;
  match zalloc (ev_allocs s) (ev_used s) with
  | Some a =>
      modify (fun s => mkEvs (<[a := 0]> (ev_ids s)) (ev_subs s) (<[NEv a := None]> (<[NSubs a := None]> (ev_next s)))
                         (S (ev_allocs s)) (ev_calls s)) ;;
      ret (Some a)
  | None => modify (fun s => mkEvs (ev_ids s) (ev_subs s) (ev_next s) (S (ev_allocs s)) (ev_calls s)) ;; ret None
  end.

Definition zalloc_sub : E (option nat) :=
  s <- gets id ;;
  match zalloc (ev_allocs s) (ev_used s) with
  | Some a =>
      modify (fun s => mkEvs (ev_ids s) (<[a := (0, 0)]> (ev_subs s)) (<[NSub a := None]> (ev_next s)) (S (ev_allocs s)) (ev_calls s)) ;;
      ret (Some a)
  | None => modify (fun s => mkEvs (ev_ids s) (ev_subs s) (ev_next s) (S (ev_allocs s)) (ev_calls s)) ;; ret None
  end.

Definition free_event (a : nat) : E unit :=
  modify (fun s => mkEvs (delete a (ev_ids s)) (ev_subs s) (delete (NEv a) (delete (NSubs a) (ev_next s))) (ev_allocs s) (ev_calls s)).

Definition free_sub (a : nat) : E unit :=
  modify (fun s => mkEvs (ev_ids s) (delete a (ev_subs s)) (delete (NSub a) (ev_next s)) (ev_allocs s) (ev_calls s)).

Definition get_id (a : nat) : E Z := m <- gets ev_ids ;; lift (m !! a).
Definition get_sub (a : nat) : E (Z * Z) := m <- gets ev_subs ;; lift (m !! a).
Definition put_id (a : nat) (i : Z) : E unit :=
  get_id a ;; modify (fun s => mkEvs (<[a := i]> (ev_ids s)) (ev_subs s) (ev_next s) (ev_allocs s) (ev_calls s)).
Definition put_sub (a : nat) (c : Z * Z) : E unit :=
  get_sub a ;; modify (fun s => mkEvs (ev_ids s) (<[a := c]> (ev_subs s)) (ev_next s) (ev_allocs s) (ev_calls s)).

(** [slist_for_each_entry] over the events, over the subscriptions. *)
Definition for_events {A} (body : nat -> E (option A)) : E (option A) :=
  f <- slist_fuel ;; cur <- get_snext NEvents ;;
  slist_for_each f (fun n => match n with NEv a => body a | _ => fault end) cur.

Definition for_subs {A} (ev : nat) (body : nat -> E (option A)) : E (option A) :=
  f <- slist_fuel ;; cur <- get_snext (NSubs ev) ;;
  slist_for_each f (fun n => match n with NSub a => body a | _ => fault end) cur.

(** ** The functions of event.c *)

Definition FD_MASK : Z := 2 ^ 31.
Definition SYS_FATAL_ERR : Z := 1.

Definition find_event (event_id : Z) : E (option nat) :=
  for_events (fun a => i <- get_id a ;; ret (if i =? event_id then Some a else None)).

Definition find_event_sub (ev : nat) (cb context : Z) : E (option nat) :=
  for_subs ev (fun a => c <- get_sub a ;; ret (if (fst c =? cb) && (snd c =? context) then Some a else None)).

(** [mutex_ok]: [aos_mutex_new] succeeds. *)
Definition eventlist_init (mutex_ok : bool) : E Z :=
  modify (fun s => mkEvs (ev_ids s) (ev_subs s) (<[NEvents := None]> (ev_next s)) (ev_allocs s) (ev_calls s)) ;;
  slist_init NEvents ;;
  if mutex_ok then ret 0 else ret SYS_FATAL_ERR.

(** [slist_for_each_entry_safe] over the subscriptions of [ev], each of which
    is removed and freed. *)
Fixpoint free_subs (fuel : nat) (ev : nat) (cur : option snode) : E unit :=
  match fuel with
  | O => fault
  | S f =>
      match cur with
      | None => ret tt
      | Some (NSub a) =>
          tmp <- get_snext (NSub a) ;;
          slist_del (NSub a) (NSubs ev) ;;
          free_sub a ;;
          free_subs f ev tmp
      | Some _ => fault
      end
  end.

Definition remove_event (ev : nat) : E unit :=
  f <- slist_fuel ;; cur <- get_snext (NSubs ev) ;;
  free_subs f ev cur ;;
  slist_del (NEv ev) NEvents ;;
  free_event ev.

Fixpoint free_events (fuel : nat) (cur : option snode) : E unit :=
  match fuel with
  | O => fault
  | S f =>
      match cur with
      | None => ret tt
      | Some (NEv a) => tmp <- get_snext (NEv a) ;; remove_event a ;; free_events f tmp
      | Some _ => fault
      end
  end.

Definition eventlist_uninit : E unit :=
  f <- slist_fuel ;; cur <- get_snext NEvents ;; free_events f cur.

Definition yoc_event_subscribe (event_id cb context : Z) : E Z :=
  ev <- find_event event_id ;;
  ev <- (match ev with
         | Some a => ret (Some a)
         | None =>
             a <- zalloc_event ;;
             match a with
             | Some a => put_id a event_id ;; slist_init (NSubs a) ;; slist_add (NEv a) NEvents ;; ret (Some a)
             | None => ret None
             end
         end) ;;
  match ev with
  | Some a =>
      e_sub <- find_event_sub a cb context ;;
      match e_sub with
      | None =>
          e_sub <- zalloc_sub ;;
          match e_sub with
          | Some x => put_sub x (cb, context) ;; slist_add (NSub x) (NSubs a) ;; ret 0
          | None => ret (-1)
          end
      | Some _ => ret (-1)
      end
  | None => ret (-1)
  end.

Definition yoc_event_unsubscribe (event_id cb context : Z) : E Z :=
  ev <- find_event event_id ;;
  match ev with
  | Some a =>
      e_sub <- find_event_sub a cb context ;;
      match e_sub with
      | Some x =>
          slist_del (NSub x) (NSubs a) ;;
          free_sub x ;;
          e <- slist_empty (NSubs a) ;;
          when e (slist_del (NEv a) NEvents ;; free_event a) ;;
          ret 0
      | None => ret (-1)
      end
  | None => ret (-1)
  end.

Definition yoc_event_remove (event_id : Z) : E Z :=
  ev <- find_event event_id ;;
  (match ev with Some a => remove_event a | None => ret tt end) ;;
  ret (-1).

Definition event_publish_ (event_id data : Z) : E unit :=
  ev <- find_event event_id ;;
  match ev with
  | Some a =>
      for_subs a (fun x =>
        c <- get_sub x ;;
        i <- get_id a ;;
        when (negb (fst c =? 0))
          (modify (fun s => mkEvs (ev_ids s) (ev_subs s) (ev_next s) (ev_allocs s) (ev_calls s ++ [mkCall (fst c) i data (snd c)]))) ;;
        ret (None : option unit)) ;;
      ret tt
  | None => ret tt
  end.

(** The interface; [aos_assert] stops the program. *)
Definition is_fd (x : Z) : bool := negb (Z.land x FD_MASK =? 0).

Definition eventlist_subscribe (event_id cb context : Z) : E Z :=
  if cb =? 0 then fault else if is_fd event_id then ret (-1) else yoc_event_subscribe event_id cb context.
Definition eventlist_subscribe_fd (fd cb context : Z) : E Z :=
  if cb =? 0 then fault else if is_fd fd then ret (-1) else yoc_event_subscribe (Z.lor fd FD_MASK) cb context.
Definition eventlist_unsubscribe (event_id cb context : Z) : E Z :=
  if cb =? 0 then fault else if is_fd event_id then ret (-1) else yoc_event_unsubscribe event_id cb context.
Definition eventlist_unsubscribe_fd (fd cb context : Z) : E Z :=
  if cb =? 0 then fault else if is_fd fd then ret (-1) else yoc_event_unsubscribe (Z.lor fd FD_MASK) cb context.
Definition eventlist_publish (event_id data : Z) : E Z :=
  if is_fd event_id then ret (-1) else event_publish_ event_id data ;; ret 0.
Definition eventlist_publish_fd (fd data : Z) : E Z :=
  if is_fd fd then ret (-1) else event_publish_ (Z.lor fd FD_MASK) data ;; ret 0.
Definition eventlist_remove (event_id : Z) : E Z :=
  if is_fd event_id then ret (-1) else yoc_event_remove event_id ;; ret 0.
Definition eventlist_remove_fd (fd : Z) : E Z :=
  if is_fd fd then ret (-1) else yoc_event_remove (Z.lor fd FD_MASK) ;; ret 0.

(** The descriptors put into the set, in order, and the largest one. *)
Fixpoint setfd_loop (fuel : nat) (cur : option snode) (fds : list Z) (max_fd : Z) : E (list Z * Z) :=
  match fuel with
  | O => fault
  | S f =>
      match cur with
      | None => ret (fds, max_fd)
      | Some (NEv a) =>
          i <- get_id a ;;
          next <- get_snext (NEv a) ;;
          if FD_MASK <? i then
            let fd := Z.land i (Z.lnot FD_MASK) in
            setfd_loop f next (fds ++ [fd]) (if max_fd <? fd then fd else max_fd)
          else setfd_loop f next fds max_fd
      | Some _ => fault
      end
  end.

Definition eventlist_setfd : E (list Z * Z) :=
  f <- slist_fuel ;; cur <- get_snext NEvents ;; setfd_loop f cur [] 0.
End Events.
