(* ===== verification/EvInv.v ===== *)
(** * The event list as a list of subscriptions

    [evs_rep s L]: the memory of [s] holds the events [L], each with its
    subscriptions, and nothing else is allocated.  The operations of event.c
    change [L] as they should, and free what they take out. *)

From stdpp Require Import functions.
From S2P Require Import Prelude.
From S2P Require Import Monad.
From S2P Require Import SList.
From S2P Require Import EvList.

(** An event: its address and number, and its subscriptions with their
    addresses. *)
Record erec := mkErec { a_addr : nat; a_id : Z; a_subs : list (nat * (Z * Z)) }.

Definition enode (r : erec) : snode := NEv (a_addr r).
Definition sub_addrs (r : erec) : list nat := (a_subs r).*1.
Definition snodes (r : erec) : list snode := NSub <$> sub_addrs r.
Definition all_subs (L : list erec) : list nat := L ≫= sub_addrs.

Record rec_ok (s : evs) (r : erec) : Prop := mkRecOk {
  ro_id : ev_ids s !! a_addr r = Some (a_id r);
  ro_chain : schain (ev_next s) (NSubs (a_addr r)) (snodes r);
  ro_subs : Forall (fun x => ev_subs s !! x.1 = Some x.2) (a_subs r);
  ro_once : NoDup (a_subs r).*2;
}.

(** The nodes in memory. *)
Definition allocated (L : list erec) (n : snode) : Prop :=
  match n with NEvents => True | NEv a => a ∈ (a_addr <$> L) | NSubs a => a ∈ (a_addr <$> L) | NSub x => x ∈ all_subs L end.

Record evs_rep (s : evs) (L : list erec) : Prop := mkEvsRep {
  er_chain : schain (ev_next s) NEvents (enode <$> L);
  er_recs : Forall (rec_ok s) L;
  er_ids : forall a, is_Some (ev_ids s !! a) <-> a ∈ (a_addr <$> L);
  er_subs : forall x, is_Some (ev_subs s !! x) <-> x ∈ all_subs L;
  er_nodes : forall n, is_Some (ev_next s !! n) <-> allocated L n;
  er_nodup : NoDup (all_subs L);
  er_unique : NoDup (a_id <$> L);
}.

Lemma all_subs_app L1 L2 : all_subs (L1 ++ L2) = all_subs L1 ++ all_subs L2.
Proof. apply bind_app. Qed.

Lemma all_subs_cons r L : all_subs (r :: L) = sub_addrs r ++ all_subs L.
Proof. done. Qed.

Lemma elem_of_all_subs L x : x ∈ all_subs L <-> exists r, r ∈ L /\ x ∈ sub_addrs r.
Proof. unfold all_subs. rewrite list_elem_of_bind. naive_solver. Qed.

Lemma addrs_nodup s L : evs_rep s L -> NoDup (a_addr <$> L).
Proof.
  intros Hr. pose proof (schain_nodup _ _ _ (er_chain _ _ Hr)) as Hnd. apply NoDup_cons in Hnd as [_ Hnd].
  replace (enode <$> L) with (NEv <$> (a_addr <$> L)) in Hnd by (by rewrite <- list_fmap_compose).
  by apply NoDup_fmap_1 in Hnd.
Qed.

(** Two different events share neither address nor subscriptions. *)
Lemma rep_split s l1 r l2 : evs_rep s (l1 ++ r :: l2) -> rec_ok s r /\
  forall r', r' ∈ l1 ++ l2 -> rec_ok s r' /\ a_addr r' <> a_addr r /\ a_id r' <> a_id r /\ (forall x, x ∈ sub_addrs r' -> x ∉ sub_addrs r).
Proof.
  intros Hr. pose proof (er_recs _ _ Hr) as Hok. rewrite Forall_forall in Hok.
  assert (Hin : r ∈ l1 ++ r :: l2) by (apply elem_of_app; right; apply elem_of_cons; by left).
  split; [by apply Hok|]. intros r' Hr'.
  assert (Hin' : r' ∈ l1 ++ r :: l2) by (rewrite elem_of_app, elem_of_cons; rewrite elem_of_app in Hr'; tauto).
  split; [by apply Hok|]. pose proof (addrs_nodup _ _ Hr) as Ha. pose proof (er_unique _ _ Hr) as Hu. pose proof (er_nodup _ _ Hr) as Hs.
  assert (Hperm : l1 ++ r :: l2 ≡ₚ r :: l1 ++ l2) by (symmetry; apply Permutation_middle).
  rewrite Hperm in Ha, Hu. unfold all_subs in Hs. rewrite Hperm in Hs. simpl in Ha, Hu. apply NoDup_cons in Ha as [Ha _], Hu as [Hu _].
  split; [intros E; apply Ha; rewrite <- E; by apply list_elem_of_fmap_2|].
  split; [intros E; apply Hu; rewrite <- E; by apply list_elem_of_fmap_2|].
  intros x Hx Hx'. change ((r :: l1 ++ l2) ≫= sub_addrs) with (sub_addrs r ++ ((l1 ++ l2) ≫= sub_addrs)) in Hs.
  apply NoDup_app in Hs as (_ & Hs & _). apply (Hs x Hx'). apply elem_of_all_subs. eauto.
Qed.

(** An event is as before when its part of the memory is. *)
Lemma rec_ok_frame s s' r : rec_ok s r -> ev_ids s' !! a_addr r = ev_ids s !! a_addr r ->
  (forall x, x ∈ sub_addrs r -> ev_subs s' !! x = ev_subs s !! x) ->
  same_on (fun n => n = NSubs (a_addr r) \/ exists x, x ∈ sub_addrs r /\ n = NSub x) (ev_next s) (ev_next s') -> rec_ok s' r.
Proof.
  intros [Hid Hc Hs Ho] Hi Hsub Hn. constructor; [congruence | | | done].
  - eapply schain_same; [|exact Hc]. intros n Hin. apply Hn. apply elem_of_cons in Hin as [->|Hin]; [by left | right].
    apply list_elem_of_fmap in Hin as (x & -> & Hx). eauto.
  - apply Forall_forall. intros x Hx. rewrite Forall_forall in Hs. rewrite Hsub; [by apply Hs|]. by apply list_elem_of_fmap_2.
Qed.

(** ** Searching *)

Section Search.
Context `{Allocator}.

Lemma chain_fuel s L h ns : evs_rep s L -> schain (ev_next s) h ns -> (length ns < S (size (ev_next s)))%nat.
Proof. intros _ Hc. pose proof (schain_length _ _ _ Hc). lia. Qed.

Lemma wp_find_event s L i Q : evs_rep s L ->
  (forall l1 r l2, L = l1 ++ r :: l2 -> a_id r = i -> Q (Some (a_addr r)) s) ->
  (i ∉ (a_id <$> L) -> Q None s) -> wp (find_event i) Q s.
Proof.
  intros Hr Hyes Hno. unfold find_event, for_events, slist_fuel. apply wp_bind, wp_bind, wp_gets, wp_ret.
  apply wp_bind, (wp_get_snext NEvents (head (enode <$> L))); [apply schain_head, Hr|].
  set (f := fun n => match n with NEv a => match ev_ids s !! a with Some j => if j =? i then Some a else None | None => None end | _ => None end).
  apply (wp_for_each_read _ f NEvents (enode <$> L)).
  - apply Hr.
  - apply (chain_fuel s L NEvents); [done | apply Hr].
  - intros n Hn. apply list_elem_of_fmap in Hn as (r & -> & Hin). pose proof (er_recs _ _ Hr) as Hok. rewrite Forall_forall in Hok.
    pose proof (ro_id _ _ (Hok r Hin)) as Hid. unfold get_id, enode, f. apply wp_bind, wp_bind, wp_gets, (wp_lift _ (a_id r)); [done|].
    apply wp_ret. by rewrite Hid.
  - assert (Hfs : forall l, Forall (rec_ok s) l -> (exists l1 r l2, l = l1 ++ r :: l2 /\ a_id r = i /\ first_some f (enode <$> l) = Some (a_addr r)) \/
      ((i ∉ (a_id <$> l)) /\ first_some f (enode <$> l) = None)).
    { induction 1 as [|r l Hrok _ IH]; [right; split; [by intros ?%elem_of_nil | done]|].
      assert (Hf : f (enode r) = if a_id r =? i then Some (a_addr r) else None) by (unfold f, enode; by rewrite (ro_id _ _ Hrok)).
      rewrite !fmap_cons. cbn [first_some]. rewrite Hf.
      destruct (Z.eqb_spec (a_id r) i) as [E|E]; [left; exists [], r, l; done|]. destruct IH as [(l1 & r' & l2 & -> & Hi & ->)|[Hn ->]].
      - left. exists (r :: l1), r', l2. done.
      - right. split; [|done]. apply not_elem_of_cons. done. }
    destruct (Hfs L (er_recs _ _ Hr)) as [(l1 & r & l2 & HL & Hi & ->)|[Hn ->]]; [by apply (Hyes l1 r l2) | by apply Hno].
Qed.

Lemma wp_find_event_sub s L r cb ctx Q : evs_rep s L -> r ∈ L ->
  (forall p x q, a_subs r = p ++ (x, (cb, ctx)) :: q -> Q (Some x) s) ->
  ((cb, ctx) ∉ (a_subs r).*2 -> Q None s) -> wp (find_event_sub (a_addr r) cb ctx) Q s.
Proof.
  intros Hr Hin Hyes Hno. pose proof (er_recs _ _ Hr) as Hok. rewrite Forall_forall in Hok. specialize (Hok r Hin).
  destruct Hok as [Hid Hc Hs Ho]. unfold find_event_sub, for_subs, slist_fuel. apply wp_bind, wp_bind, wp_gets, wp_ret.
  apply wp_bind, (wp_get_snext (NSubs (a_addr r)) (head (snodes r))); [by apply schain_head|].
  set (f := fun n => match n with NSub a => match ev_subs s !! a with Some c => if (fst c =? cb) && (snd c =? ctx) then Some a else None | None => None end | _ => None end).
  apply (wp_for_each_read _ f (NSubs (a_addr r)) (snodes r)).
  - done.
  - by apply (chain_fuel s L (NSubs (a_addr r))).
  - intros n Hn. apply list_elem_of_fmap in Hn as (x & -> & Hx). apply list_elem_of_fmap in Hx as ([x' c] & -> & Hx).
    rewrite Forall_forall in Hs. pose proof (Hs _ Hx) as Hsub. simpl in Hsub. unfold get_sub, f. simpl.
    apply wp_bind, wp_bind, wp_gets, (wp_lift _ c); [done|]. apply wp_ret. by rewrite Hsub.
  - unfold snodes, sub_addrs. clear Hc Ho.
    assert (Hfs : forall l, Forall (fun x => ev_subs s !! x.1 = Some x.2) l ->
      (exists p x q, l = p ++ (x, (cb, ctx)) :: q /\ first_some f (NSub <$> l.*1) = Some x) \/
      (((cb, ctx) ∉ l.*2) /\ first_some f (NSub <$> l.*1) = None)).
    { induction 1 as [|[x [cb' ctx']] l Hx _ IH]; [right; split; [by intros ?%elem_of_nil | done]|]. cbn [fst snd] in Hx.
      assert (Hf : f (NSub x) = if (cb' =? cb) && (ctx' =? ctx) then Some x else None) by (unfold f; by rewrite Hx).
      rewrite !fmap_cons. cbn [first_some fst snd]. rewrite Hf.
      destruct (Z.eqb_spec cb' cb) as [->|E1]; [destruct (Z.eqb_spec ctx' ctx) as [->|E2]|]; simpl.
      - left. exists [], x, l. done.
      - destruct IH as [(p & y & q & -> & ->)|[Hn ->]]; [left; by exists ((x, (cb, ctx')) :: p), y, q|].
        right. split; [|done]. apply not_elem_of_cons. split; [congruence | done].
      - destruct IH as [(p & y & q & -> & ->)|[Hn ->]]; [left; by exists ((x, (cb', ctx')) :: p), y, q|].
        right. split; [|done]. apply not_elem_of_cons. split; [congruence | done]. }
    destruct (Hfs (a_subs r) Hs) as [(p & x & q & Hsp & ->)|[Hn ->]]; [by apply (Hyes p x q) | by apply Hno].
Qed.
End Search.

(** ** Changing one event *)

Lemma all_subs_mid l1 r l2 x : x ∈ all_subs (l1 ++ r :: l2) <-> x ∈ sub_addrs r \/ x ∈ all_subs (l1 ++ l2).
Proof. rewrite !all_subs_app, all_subs_cons, !elem_of_app. tauto. Qed.

Lemma all_subs_perm l1 r l2 : all_subs (l1 ++ r :: l2) ≡ₚ sub_addrs r ++ all_subs (l1 ++ l2).
Proof.
  rewrite !all_subs_app, all_subs_cons, !app_assoc. apply Permutation_app_tail, Permutation_app_comm.
Qed.

(** The subscriptions of [r] become those of [r']. *)
Lemma rep_update s s' l1 r r' l2 : evs_rep s (l1 ++ r :: l2) -> a_addr r' = a_addr r -> a_id r' = a_id r -> rec_ok s' r' ->
  ev_ids s' = ev_ids s ->
  (forall x, x ∉ sub_addrs r -> x ∉ sub_addrs r' -> ev_subs s' !! x = ev_subs s !! x /\ ev_next s' !! NSub x = ev_next s !! NSub x) ->
  (forall n, n <> NSubs (a_addr r) -> (forall x, n <> NSub x) -> ev_next s' !! n = ev_next s !! n) ->
  (forall x, x ∈ sub_addrs r' -> x ∈ sub_addrs r \/ x ∉ all_subs (l1 ++ r :: l2)) -> NoDup (sub_addrs r') ->
  (forall x, x ∈ sub_addrs r -> x ∉ sub_addrs r' -> ev_subs s' !! x = None /\ ev_next s' !! NSub x = None) ->
  evs_rep s' (l1 ++ r' :: l2).
Proof.
  intros Hr Ha Hid Hok Hids Hsame Hnext Hfresh Hnd Hgone. destruct (rep_split _ _ _ _ Hr) as [Hokr Hoth].
  assert (Haddr : (a_addr <$> (l1 ++ r' :: l2)) = (a_addr <$> (l1 ++ r :: l2))) by (rewrite !fmap_app; simpl; by rewrite Ha).
  assert (Hno : forall x, x ∈ all_subs (l1 ++ l2) -> (x ∉ sub_addrs r) /\ x ∉ sub_addrs r').
  { intros x Hx. pose proof Hx as Hx'. apply elem_of_all_subs in Hx as (r2 & Hr2 & Hx).
    assert (Hn : x ∉ sub_addrs r) by (by apply (Hoth r2 Hr2)). split; [done|]. intros Hin.
    destruct (Hfresh x Hin) as [|Hf]; [done|]. apply Hf, all_subs_mid. by right. }
  assert (Hin' : forall x, x ∈ sub_addrs r' -> is_Some (ev_subs s' !! x) /\ is_Some (ev_next s' !! NSub x)).
  { intros x Hx. split.
    - apply list_elem_of_fmap in Hx as ([y c] & -> & Hx). pose proof (ro_subs _ _ Hok) as Hs. rewrite Forall_forall in Hs.
      rewrite (Hs _ Hx). eauto.
    - eapply schain_dom; [apply Hok|]. apply elem_of_cons. right. by apply list_elem_of_fmap_2. }
  constructor.
  - replace (enode <$> (l1 ++ r' :: l2)) with (enode <$> (l1 ++ r :: l2)) by (rewrite !fmap_app; simpl; unfold enode; by rewrite Ha).
    eapply schain_same; [|apply Hr]. intros n Hn. apply elem_of_cons in Hn as [->|Hn]; [by apply Hnext|].
    apply list_elem_of_fmap in Hn as (r2 & -> & _). by apply Hnext.
  - apply Forall_app. split; [|apply Forall_cons; split; [done|]]; apply Forall_forall; intros r2 Hr2;
      (assert (Hr2' : r2 ∈ l1 ++ l2) by (apply elem_of_app; tauto)); destruct (Hoth r2 Hr2') as (Hok2 & Hne & _ & Hd);
      (apply (rec_ok_frame s s' r2 Hok2); [by rewrite Hids | |]).
    + intros x Hx. apply Hsame; apply Hno, elem_of_all_subs; eauto.
    + intros n [->|(x & Hx & ->)]; [apply Hnext; [congruence | done]|]. apply Hsame; apply Hno, elem_of_all_subs; eauto.
    + intros x Hx. apply Hsame; apply Hno, elem_of_all_subs; eauto.
    + intros n [->|(x & Hx & ->)]; [apply Hnext; [congruence | done]|]. apply Hsame; apply Hno, elem_of_all_subs; eauto.
  - intros a. rewrite Hids, Haddr. apply Hr.
  - intros x. rewrite all_subs_mid. destruct (decide (x ∈ sub_addrs r')) as [Hx|Hx]; [split; [by left | intros _; by apply Hin']|].
    destruct (decide (x ∈ sub_addrs r)) as [Hy|Hy].
    + destruct (Hgone x Hy Hx) as [-> _]. split; [by intros [? ?] | intros [?|Ho]; [done|]]. by destruct (Hno x Ho).
    + destruct (Hsame x Hy Hx) as [-> _]. rewrite (er_subs _ _ Hr), all_subs_mid. tauto.
  - intros n. destruct n as [|a|a|x]; simpl.
    + rewrite Hnext by done. apply Hr.
    + rewrite Hnext, Haddr by done. apply Hr.
    + rewrite Haddr. destruct (decide (a = a_addr r)) as [->|Hne]; [|rewrite Hnext by (congruence || done); apply Hr].
      split; [intros _; rewrite fmap_app; apply elem_of_app; right; apply elem_of_cons; by left | intros _].
      rewrite <- Ha. eapply schain_dom; [apply Hok|]. apply elem_of_cons. by left.
    + rewrite all_subs_mid. destruct (decide (x ∈ sub_addrs r')) as [Hx|Hx]; [split; [by left | intros _; by apply Hin']|].
      destruct (decide (x ∈ sub_addrs r)) as [Hy|Hy].
      * destruct (Hgone x Hy Hx) as [_ ->]. split; [by intros [? ?] | intros [?|Ho]; [done|]]. by destruct (Hno x Ho).
      * destruct (Hsame x Hy Hx) as [_ ->]. rewrite (er_nodes _ _ Hr). simpl. rewrite all_subs_mid. tauto.
  - rewrite all_subs_perm. apply NoDup_app. split; [done|]. split; [intros x Hx Ho; by destruct (Hno x Ho)|].
    pose proof (er_nodup _ _ Hr) as Hall. rewrite all_subs_perm in Hall. by apply NoDup_app in Hall as (_ & _ & ?).
  - rewrite fmap_app, fmap_cons, Hid, <- fmap_cons, <- fmap_app. apply Hr.
Qed.

(** An event is added at the front, or taken out. *)
Lemma rep_add s s' r L : evs_rep s L -> a_addr r ∉ (a_addr <$> L) -> a_id r ∉ (a_id <$> L) -> a_subs r = [] -> rec_ok s' r ->
  schain (ev_next s') NEvents (enode <$> (r :: L)) ->
  (forall a, a <> a_addr r -> ev_ids s' !! a = ev_ids s !! a) -> ev_subs s' = ev_subs s ->
  (forall n, n <> NEvents -> n <> NEv (a_addr r) -> n <> NSubs (a_addr r) -> ev_next s' !! n = ev_next s !! n) ->
  evs_rep s' (r :: L).
Proof.
  intros Hr Ha Hi Hs Hok Hc Hids Hsubs Hnext.
  assert (Hsr : sub_addrs r = []) by (unfold sub_addrs; by rewrite Hs).
  assert (Hall : all_subs (r :: L) = all_subs L) by (rewrite all_subs_cons, Hsr; done).
  assert (Hdom : forall n, n ∈ NEvents :: (enode <$> (r :: L)) -> is_Some (ev_next s' !! n)) by (intros n; by apply schain_dom).
  constructor; rewrite ?Hall.
  - done.
  - constructor; [done|]. apply Forall_forall. intros r2 Hr2. pose proof (er_recs _ _ Hr) as Hrecs. rewrite Forall_forall in Hrecs.
    assert (Hne : a_addr r2 <> a_addr r) by (intros E; apply Ha; rewrite <- E; by apply list_elem_of_fmap_2).
    apply (rec_ok_frame s s' r2 (Hrecs r2 Hr2)); [by apply Hids | by intros; rewrite Hsubs|].
    intros n [->|(x & _ & ->)]; apply Hnext; congruence.
  - intros a. simpl. rewrite elem_of_cons. destruct (decide (a = a_addr r)) as [->|Hne].
    + rewrite (ro_id _ _ Hok). split; [by left | eauto].
    + rewrite Hids, (er_ids _ _ Hr) by done. tauto.
  - intros x. rewrite Hsubs. apply Hr.
  - intros n. destruct n as [|a|a|x]; simpl; rewrite ?elem_of_cons.
    + split; [done|]. intros _. apply Hdom, elem_of_cons. by left.
    + destruct (decide (a = a_addr r)) as [->|Hne]; [split; [by left | intros _; apply Hdom, elem_of_cons; right; apply elem_of_cons; by left]|].
      rewrite Hnext by congruence. rewrite (er_nodes _ _ Hr). simpl. tauto.
    + destruct (decide (a = a_addr r)) as [->|Hne]; [split; [by left | intros _; eapply schain_dom; [apply Hok | apply elem_of_cons; by left]]|].
      rewrite Hnext by congruence. rewrite (er_nodes _ _ Hr). simpl. tauto.
    + enough (is_Some (ev_next s' !! NSub x) <-> x ∈ all_subs (r :: L)) by done.
      rewrite Hall, Hnext by congruence. apply (er_nodes _ _ Hr (NSub x)).
  - apply Hr.
  - simpl. constructor; [done | apply Hr].
Qed.

Lemma rep_drop s s' l1 r l2 : evs_rep s (l1 ++ r :: l2) -> a_subs r = [] ->
  schain (ev_next s') NEvents (enode <$> (l1 ++ l2)) ->
  ev_ids s' = delete (a_addr r) (ev_ids s) -> ev_subs s' = ev_subs s ->
  (forall n, is_Some (ev_next s' !! n) <-> is_Some (ev_next s !! n) /\ n <> NEv (a_addr r) /\ n <> NSubs (a_addr r)) ->
  (forall a, a <> a_addr r -> ev_next s' !! NSubs a = ev_next s !! NSubs a) -> (forall x, ev_next s' !! NSub x = ev_next s !! NSub x) ->
  evs_rep s' (l1 ++ l2).
Proof.
  intros Hr Hs Hc Hids Hsubs Hdom Hn1 Hn2. destruct (rep_split _ _ _ _ Hr) as [_ Hoth].
  assert (Hsr : sub_addrs r = []) by (unfold sub_addrs; by rewrite Hs).
  assert (Hall : forall x, x ∈ all_subs (l1 ++ r :: l2) <-> x ∈ all_subs (l1 ++ l2)).
  { intros x. rewrite all_subs_mid, Hsr. split; [intros [?%elem_of_nil|?]; done | by right]. }
  assert (Hne : forall a, a ∈ (a_addr <$> (l1 ++ l2)) <-> a ∈ (a_addr <$> (l1 ++ r :: l2)) /\ a <> a_addr r).
  { intros a. rewrite !fmap_app. simpl. rewrite !elem_of_app, elem_of_cons. split.
    - intros Hin. split; [tauto|]. rewrite <- elem_of_app, <- fmap_app in Hin. apply list_elem_of_fmap in Hin as (r2 & -> & Hr2). by apply Hoth.
    - intros [[?|[?|?]] ?]; tauto. }
  constructor.
  - done.
  - apply Forall_forall. intros r2 Hr2. destruct (Hoth r2 Hr2) as (Hok2 & Hd & _). apply (rec_ok_frame s s' r2 Hok2).
    + rewrite Hids. by apply lookup_delete_ne.
    + by intros; rewrite Hsubs.
    + intros n [->|(x & _ & ->)]; [by apply Hn1 | apply Hn2].
  - intros a. rewrite Hne, Hids, <- (er_ids _ _ Hr). destruct (decide (a = a_addr r)) as [->|Ha].
    + rewrite lookup_delete_eq. split; [by intros [? ?] | tauto].
    + rewrite lookup_delete_ne by done. tauto.
  - intros x. rewrite Hsubs, <- Hall. apply Hr.
  - intros n. rewrite Hdom, (er_nodes _ _ Hr). destruct n as [|a|a|x]; simpl; rewrite ?Hne, ?Hall; split; try tauto; try done.
    + intros (? & ? & ?). split; [done | congruence].
    + intros (? & ?). split; [done|]. split; congruence.
    + intros (? & ? & ?). split; [done | congruence].
    + intros (? & ?). split; [done|]. split; congruence.
  - pose proof (er_nodup _ _ Hr) as Hnd. rewrite all_subs_perm, Hsr in Hnd. done.
  - pose proof (er_unique _ _ Hr) as Hu. rewrite fmap_app in Hu |- *. simpl in Hu. rewrite <- Permutation_middle in Hu. by apply NoDup_cons in Hu as [_ ?].
Qed.
