(* ===== verification/EvOps.v ===== *)
(** * Subscribing, unsubscribing and publishing

    What the functions of event.c do to the events of an event list. *)

From stdpp Require Import functions.
From S2P Require Import Prelude.
From S2P Require Import Monad.
From S2P Require Import SList.
From S2P Require Import EvList.
From S2P Require Import EvInv.

Section Ops.
Context `{Allocator}.
Implicit Types (s : evs) (L : list erec).

Lemma rep_allocs s L n : evs_rep s L -> evs_rep (mkEvs (ev_ids s) (ev_subs s) (ev_next s) n (ev_calls s)) L.
Proof. intros [? Hr ? ? ? ? ?]. constructor; try done. eapply Forall_impl; [exact Hr|]. intros r [? ? ? ?]. by constructor. Qed.

Lemma rep_calls s L cs : evs_rep s L -> evs_rep (mkEvs (ev_ids s) (ev_subs s) (ev_next s) (ev_allocs s) cs) L.
Proof. intros [? Hr ? ? ? ? ?]. constructor; try done. eapply Forall_impl; [exact Hr|]. intros r [? ? ? ?]. by constructor. Qed.

Lemma mid_in {A} (l1 : list A) r l2 : r ∈ l1 ++ r :: l2.
Proof. apply elem_of_app. right. apply elem_of_cons. by left. Qed.

(** ** A new subscription *)

Definition add_sub (r : erec) (x : nat) (c : Z * Z) : erec := mkErec (a_addr r) (a_id r) ((x, c) :: a_subs r).

Lemma wp_new_sub s l1 r l2 cb ctx Q : evs_rep s (l1 ++ r :: l2) -> (cb, ctx) ∉ (a_subs r).*2 ->
  (forall s' x, evs_rep s' (l1 ++ add_sub r x (cb, ctx) :: l2) -> ev_calls s' = ev_calls s -> Q 0 s') ->
  (forall s' t used, zalloc t used = None -> evs_rep s' (l1 ++ r :: l2) -> ev_calls s' = ev_calls s -> Q (-1) s') ->
  wp (e_sub <- zalloc_sub ;;
      match e_sub with
      | Some x => put_sub x (cb, ctx) ;; slist_add (NSub x) (NSubs (a_addr r)) ;; ret 0
      | None => ret (-1)
      end) Q s.
Proof.
  intros Hr Hnew Hyes Hno. destruct (rep_split _ _ _ _ Hr) as [Hok _]. unfold zalloc_sub. apply wp_bind, wp_bind, wp_gets. unfold id.
  destruct (zalloc (ev_allocs s) (ev_used s)) as [x|] eqn:Ez.
  2: { apply wp_bind. unfold wp. simpl. eapply Hno; [done | by apply rep_allocs | done]. }
  apply zalloc_fresh in Ez. unfold ev_used in Ez. apply not_elem_of_union in Ez as [_ Ex].
  assert (Hx : x ∉ all_subs (l1 ++ r :: l2)) by (rewrite <- (er_subs _ _ Hr), <- elem_of_dom; done).
  assert (Hxr : x ∉ sub_addrs r) by (intros Hin; apply Hx, all_subs_mid; by left).
  apply wp_bind. eapply run_wp; [reflexivity|]. apply wp_ret. cbn iota.
  apply wp_bind. unfold put_sub, get_sub. apply wp_bind, wp_bind, wp_gets, (wp_lift _ (0, 0)); [apply lookup_insert_eq|].
  eapply run_wp; [reflexivity|]. cbn [ev_ids ev_subs ev_next ev_allocs ev_calls].
  apply wp_bind. apply (wp_slist_add (NSub x) (NSubs (a_addr r)) (snodes r)).
  - simpl. apply schain_insert_ne; [|apply Hok]. intros [E|Hin]%elem_of_cons; [done|]. apply list_elem_of_fmap in Hin as (y & [= ->] & Hy). done.
  - simpl. rewrite lookup_insert_eq. eauto.
  - intros [E|Hin]%elem_of_cons; [done|]. apply list_elem_of_fmap in Hin as (y & [= ->] & Hy). done.
  - intros m' Hc [Hch _]. apply wp_ret. cbn [slinks_of evs_links ev_next] in Hch. cbn [with_slinks evs_links ev_ids ev_subs ev_allocs ev_calls].
    apply (Hyes _ x); [|done].
    assert (Hn : forall n, n <> NSubs (a_addr r) -> n <> NSub x -> m' !! n = ev_next s !! n).
    { intros n H1 H2. rewrite Hch by tauto. by apply lookup_insert_ne. }
    apply (rep_update s _ l1 r (add_sub r x (cb, ctx)) l2 Hr); try done; cbn [ev_ids ev_subs ev_next].
    + constructor; simpl.
      * apply Hok.
      * exact Hc.
      * constructor; [apply lookup_insert_eq|]. apply Forall_forall. intros [y c] Hy. pose proof (ro_subs _ _ Hok) as Hs.
        rewrite Forall_forall in Hs. simpl. rewrite !lookup_insert_ne; [by apply (Hs (y, c))|..];
          intros <-; apply Hxr; by apply (list_elem_of_fmap_2 fst _ (x, c)).
      * constructor; [done | apply Hok].
    + intros y Hy Hy'. simpl in Hy'. apply not_elem_of_cons in Hy' as [Hyx _]. simpl in Hyx. rewrite !lookup_insert_ne by done.
      split; [done|]. apply Hn; [done | congruence].
    + intros n H1 H2. apply Hn; [done|]. apply H2.
    + intros y Hy. simpl in Hy. apply elem_of_cons in Hy as [->|Hy]; [by right | by left].
    + simpl. constructor; [done|]. pose proof (er_nodup _ _ Hr) as Hnd. rewrite all_subs_perm in Hnd. by apply NoDup_app in Hnd as [? _].
    + intros y Hy Hy'. destruct Hy'. simpl. apply elem_of_cons. by right.
Qed.

(** ** A new event *)

Lemma wp_new_event s L i Q : evs_rep s L -> i ∉ (a_id <$> L) ->
  (forall s' a, evs_rep s' (mkErec a i [] :: L) -> ev_calls s' = ev_calls s -> Q (Some a) s') ->
  (forall s' t used, zalloc t used = None -> evs_rep s' L -> ev_calls s' = ev_calls s -> Q None s') ->
  wp (a <- zalloc_event ;;
      match a with
      | Some a => put_id a i ;; slist_init (NSubs a) ;; slist_add (NEv a) NEvents ;; ret (Some a)
      | None => ret None
      end) Q s.
Proof.
  intros Hr Hi Hyes Hno. unfold zalloc_event. apply wp_bind, wp_bind, wp_gets. unfold id.
  destruct (zalloc (ev_allocs s) (ev_used s)) as [a|] eqn:Ez.
  2: { apply wp_bind. unfold wp. simpl. eapply Hno; [done | by apply rep_allocs | done]. }
  apply zalloc_fresh in Ez. unfold ev_used in Ez. apply not_elem_of_union in Ez as [Ea _].
  assert (Ha : a ∉ (a_addr <$> L)) by (rewrite <- (er_ids _ _ Hr), <- elem_of_dom; done).
  apply wp_bind. eapply run_wp; [reflexivity|]. apply wp_ret. cbn iota.
  apply wp_bind. unfold put_id, get_id. apply wp_bind, wp_bind, wp_gets, (wp_lift _ 0); [apply lookup_insert_eq|].
  eapply run_wp; [reflexivity|]. cbn [ev_ids ev_subs ev_next ev_allocs ev_calls].
  apply wp_bind. unfold slist_init. apply wp_put_snext; [simpl; rewrite lookup_insert_ne, lookup_insert_eq by done; eauto|].
  cbn [slinks_of with_slinks evs_links ev_ids ev_subs ev_next ev_allocs ev_calls].
  set (m0 := <[NSubs a := None]> (<[NEv a := None]> (<[NSubs a := None]> (ev_next s)))).
  assert (Hfr : forall n, n <> NEv a -> n <> NSubs a -> m0 !! n = ev_next s !! n) by (intros n H1 H2; unfold m0; by rewrite !lookup_insert_ne).
  assert (Hnin : NEv a ∉ NEvents :: (enode <$> L)).
  { intros [E|Hin]%elem_of_cons; [done|]. apply list_elem_of_fmap in Hin as (r & [= ->] & Hin). apply Ha. by apply list_elem_of_fmap_2. }
  apply wp_bind. apply (wp_slist_add (NEv a) NEvents (enode <$> L)); cbn [slinks_of evs_links ev_next].
  - eapply schain_same; [|apply Hr]. intros n Hn. apply Hfr; intros ->; [done|].
    apply elem_of_cons in Hn as [E|Hn]; [done|]. apply list_elem_of_fmap in Hn as (r & E & _). done.
  - unfold m0. rewrite lookup_insert_ne, lookup_insert_eq by done. eauto.
  - done.
  - intros m' Hc [Hch _]. apply wp_ret. cbn [with_slinks evs_links ev_ids ev_subs ev_allocs ev_calls].
    apply (Hyes _ a); [|done].
    assert (Hsub : m' !! NSubs a = Some None) by (rewrite Hch by (intros [?|?]; done); unfold m0; apply lookup_insert_eq).
    apply (rep_add s _ (mkErec a i []) L Hr); cbn [a_addr a_id a_subs ev_ids ev_subs ev_next]; try done.
    + constructor; simpl; [apply lookup_insert_eq | done | constructor | constructor].
    + intros a' Hne. by rewrite !lookup_insert_ne.
    + intros n H1 H2 H3. rewrite Hch by tauto. by apply Hfr.
Qed.

(** ** Taking a subscription or an event out *)

Definition set_subs (r : erec) (subs : list (nat * (Z * Z))) : erec := mkErec (a_addr r) (a_id r) subs.

Lemma snodes_split r p x c q : a_subs r = p ++ (x, c) :: q -> snodes r = (NSub <$> p.*1) ++ NSub x :: (NSub <$> q.*1).
Proof. intros Hs. unfold snodes, sub_addrs. rewrite Hs, !fmap_app. done. Qed.

Lemma wp_drop_sub s l1 r l2 p x c q Q : evs_rep s (l1 ++ r :: l2) -> a_subs r = p ++ (x, c) :: q ->
  (forall s', evs_rep s' (l1 ++ set_subs r (p ++ q) :: l2) -> ev_calls s' = ev_calls s -> Q tt s') ->
  wp (slist_del (NSub x) (NSubs (a_addr r)) ;; free_sub x) Q s.
Proof.
  intros Hr Hs HQ. destruct (rep_split _ _ _ _ Hr) as [Hok _]. pose proof (snodes_split _ _ _ _ _ Hs) as Hsn.
  pose proof (ro_chain _ _ Hok) as Hc. rewrite Hsn in Hc. pose proof (er_nodup _ _ Hr) as Hnd. rewrite all_subs_perm in Hnd.
  apply NoDup_app in Hnd as (Hnd & _ & _). unfold sub_addrs in Hnd. rewrite Hs, fmap_app in Hnd. simpl in Hnd.
  pose proof Hnd as Hnd'. rewrite <- Permutation_middle, <- fmap_app in Hnd'. apply NoDup_cons in Hnd' as [Hx Hnd'].
  apply wp_bind. apply (wp_slist_del_in (NSub x) (NSubs (a_addr r)) (NSub <$> p.*1) (NSub <$> q.*1)); [done|].
  intros m' Hc' [Hch _]. cbn [slinks_of with_slinks evs_links] in *. eapply run_wp; [reflexivity|]. cbn [ev_ids ev_subs ev_next ev_allocs ev_calls].
  assert (Hxc : forall y, NSub y ∈ NSubs (a_addr r) :: ((NSub <$> p.*1) ++ (NSub <$> q.*1)) -> y <> x).
  { intros y [E|Hin]%elem_of_cons ->; [done|]. rewrite <- fmap_app, <- fmap_app in Hin. apply list_elem_of_fmap in Hin as (z & [= <-] & Hz). done. }
  assert (Hbef : before (NSubs (a_addr r)) (NSub <$> p.*1) = NSubs (a_addr r) \/ exists y, before (NSubs (a_addr r)) (NSub <$> p.*1) = NSub y /\ y ∈ p.*1).
  { pose proof (before_in (NSubs (a_addr r)) (NSub <$> p.*1)) as Hin. apply elem_of_cons in Hin as [?|Hin]; [by left | right].
    apply list_elem_of_fmap in Hin as (y & -> & Hy). eauto. }
  apply HQ; [|done]. apply (rep_update s _ l1 r (set_subs r (p ++ q)) l2 Hr); try done; cbn [ev_ids ev_subs ev_next].
  - constructor; simpl.
    + apply Hok.
    + unfold snodes, sub_addrs. simpl. rewrite !fmap_app. eapply schain_same; [|exact Hc']. intros n Hn. apply lookup_delete_ne.
      intros <-. by apply (Hxc x Hn).
    + apply Forall_forall. intros [y d] Hy. pose proof (ro_subs _ _ Hok) as Hsub. rewrite Forall_forall in Hsub. simpl.
      rewrite lookup_delete_ne; [apply (Hsub (y, d)); rewrite Hs; apply elem_of_app; rewrite elem_of_cons; apply elem_of_app in Hy; tauto|].
      intros <-. apply Hx. by apply (list_elem_of_fmap_2 fst _ (x, d)).
    + pose proof (ro_once _ _ Hok) as Ho. rewrite Hs, fmap_app in Ho. rewrite fmap_app. simpl in Ho. rewrite <- Permutation_middle in Ho.
      by apply NoDup_cons in Ho as [_ ?].
  - intros y Hy Hy'. assert (Hne : y <> x).
    { intros ->. apply Hy. unfold sub_addrs. rewrite Hs, fmap_app. apply mid_in. }
    rewrite !lookup_delete_ne by congruence. split; [done|]. apply Hch. intros E. destruct Hbef as [E'|(z & E' & Hz)]; [congruence|].
    apply Hy. unfold sub_addrs. rewrite Hs, fmap_app. apply elem_of_app. left. congruence.
  - intros n H1 H2. rewrite lookup_delete_ne by (intros E; by apply (H2 x)). apply Hch. intros E. destruct Hbef as [E'|(z & E' & Hz)]; [congruence|].
    apply (H2 z). congruence.
  - intros y Hy. left. unfold sub_addrs in *. simpl in Hy. rewrite Hs, fmap_app. rewrite fmap_app in Hy. apply elem_of_app.
    apply elem_of_app in Hy as [?|?]; [by left | right; apply elem_of_cons; by right].
  - intros y Hy Hy'. assert (y = x) as ->; [|by rewrite !lookup_delete_eq].
    unfold sub_addrs in *. simpl in Hy'. rewrite Hs, fmap_app in Hy. rewrite fmap_app in Hy'. apply elem_of_app in Hy as [Hy|Hy].
    + destruct Hy'. apply elem_of_app. by left.
    + apply elem_of_cons in Hy as [?|Hy]; [done|]. destruct Hy'. apply elem_of_app. by right.
Qed.

Lemma wp_drop_event s l1 r l2 Q : evs_rep s (l1 ++ r :: l2) -> a_subs r = [] ->
  (forall s', evs_rep s' (l1 ++ l2) -> ev_calls s' = ev_calls s -> Q tt s') ->
  wp (slist_del (NEv (a_addr r)) NEvents ;; free_event (a_addr r)) Q s.
Proof.
  intros Hr Hs HQ. pose proof (er_chain _ _ Hr) as Hc. rewrite fmap_app in Hc. simpl in Hc. pose proof (schain_nodup _ _ _ Hc) as Hnd.
  apply NoDup_cons in Hnd as [_ Hnd]. rewrite <- Permutation_middle in Hnd. apply NoDup_cons in Hnd as [Hnin _].
  apply wp_bind, (wp_slist_del_in (NEv (a_addr r)) NEvents (enode <$> l1) (enode <$> l2)); [done|].
  intros m' Hc' [Hch Hdom]. cbn [slinks_of with_slinks evs_links] in *. eapply run_wp; [reflexivity|]. cbn [ev_ids ev_subs ev_next ev_allocs ev_calls].
  assert (Hbef : forall a, before NEvents (enode <$> l1) <> NSubs a).
  { intros a E. pose proof (before_in NEvents (enode <$> l1)) as Hin. rewrite E in Hin. apply elem_of_cons in Hin as [?|Hin]; [done|].
    apply list_elem_of_fmap in Hin as (? & ? & _). done. }
  assert (Hbef' : forall a, before NEvents (enode <$> l1) <> NSub a).
  { intros a E. pose proof (before_in NEvents (enode <$> l1)) as Hin. rewrite E in Hin. apply elem_of_cons in Hin as [?|Hin]; [done|].
    apply list_elem_of_fmap in Hin as (? & ? & _). done. }
  apply HQ; [|done]. apply (rep_drop s _ l1 r l2 Hr Hs); cbn [ev_ids ev_subs ev_next]; try done.
  - rewrite fmap_app. eapply schain_same; [|exact Hc']. intros n Hn. rewrite !lookup_delete_ne; [done | |].
    + intros <-. apply elem_of_cons in Hn as [?|Hn]; [done|]. rewrite <- fmap_app in Hn. apply list_elem_of_fmap in Hn as (? & ? & _). done.
    + intros <-. apply elem_of_cons in Hn as [?|Hn]; done.
  - intros n. rewrite <- !elem_of_dom, !dom_delete_L, Hdom. set_solver.
  - intros a Ha. rewrite !lookup_delete_ne by congruence. apply Hch. intros E. by apply (Hbef a).
  - intros x. rewrite !lookup_delete_ne by done. apply Hch. intros E. by apply (Hbef' x).
Qed.

(** ** Subscriptions of an event number *)

Definition subs_of L (i : Z) : list (Z * Z) :=
  default [] (first_some (fun r => if a_id r =? i then Some (a_subs r).*2 else None) L).

Lemma subs_of_cons r L i : subs_of (r :: L) i = if a_id r =? i then (a_subs r).*2 else subs_of L i.
Proof. unfold subs_of. simpl. by destruct (a_id r =? i). Qed.

Lemma subs_of_none L i : i ∉ (a_id <$> L) -> subs_of L i = [].
Proof.
  induction L as [|r L IH]; intros Hn; [done|]. rewrite subs_of_cons. simpl in Hn. apply not_elem_of_cons in Hn as [Hne Hn].
  rewrite (proj2 (Z.eqb_neq _ _)) by congruence. by apply IH.
Qed.

Lemma subs_of_mid l1 r l2 i : NoDup (a_id <$> (l1 ++ r :: l2)) -> subs_of (l1 ++ r :: l2) i = if a_id r =? i then (a_subs r).*2 else subs_of (l1 ++ l2) i.
Proof.
  induction l1 as [|r1 l1 IH]; intros Hnd; [apply subs_of_cons|]. simpl in Hnd |- *. apply NoDup_cons in Hnd as [Hn Hnd].
  rewrite !subs_of_cons, IH by done. destruct (Z.eqb_spec (a_id r1) i) as [<-|]; [|done].
  destruct (Z.eqb_spec (a_id r) (a_id r1)) as [E|]; [|done]. destruct Hn. rewrite <- E, fmap_app. apply mid_in.
Qed.

Lemma subs_of_drop l1 r l2 i : NoDup (a_id <$> (l1 ++ r :: l2)) -> subs_of (l1 ++ l2) i = if a_id r =? i then [] else subs_of (l1 ++ r :: l2) i.
Proof.
  intros Hnd. rewrite (subs_of_mid l1 r l2) by done. destruct (Z.eqb_spec (a_id r) i) as [<-|]; [|done].
  apply subs_of_none. rewrite fmap_app in Hnd |- *. simpl in Hnd. rewrite <- Permutation_middle in Hnd. by apply NoDup_cons in Hnd as [? _].
Qed.

(** The subscriptions [X] for event [i], the others as in [L]. *)
Definition now_subs L (i : Z) (X : list (Z * Z)) L' : Prop := forall j, subs_of L' j = if j =? i then X else subs_of L j.

Lemma now_subs_same L i : now_subs L i (subs_of L i) L.
Proof. intros j. destruct (Z.eqb_spec j i) as [->|]; done. Qed.

Lemma now_subs_update s s' l1 r r' l2 : evs_rep s (l1 ++ r :: l2) -> evs_rep s' (l1 ++ r' :: l2) -> a_id r' = a_id r ->
  now_subs (l1 ++ r :: l2) (a_id r) (a_subs r').*2 (l1 ++ r' :: l2).
Proof.
  intros Hr Hr' Hi j. rewrite !subs_of_mid by (eapply er_unique; done). rewrite Hi, (Z.eqb_sym j). by destruct (a_id r =? j).
Qed.

(** ** Subscribing *)

Lemma wp_subscribe_to s l1 r l2 cb ctx Q : evs_rep s (l1 ++ r :: l2) ->
  (forall s' L' rc, evs_rep s' L' -> ev_calls s' = ev_calls s ->
    (rc = 0 /\ ((cb, ctx) ∉ subs_of (l1 ++ r :: l2) (a_id r)) /\ now_subs (l1 ++ r :: l2) (a_id r) ((cb, ctx) :: subs_of (l1 ++ r :: l2) (a_id r)) L') \/
    (rc = -1 /\ L' = l1 ++ r :: l2 /\ ((cb, ctx) ∈ subs_of (l1 ++ r :: l2) (a_id r) \/ exists t used, zalloc t used = None)) -> Q rc s') ->
  wp (e_sub <- find_event_sub (a_addr r) cb ctx ;;
      match e_sub with
      | None =>
          e_sub <- zalloc_sub ;;
          match e_sub with
          | Some x => put_sub x (cb, ctx) ;; slist_add (NSub x) (NSubs (a_addr r)) ;; ret 0
          | None => ret (-1)
          end
      | Some _ => ret (-1)
      end) Q s.
Proof.
  intros Hr HQ. assert (Hsub : subs_of (l1 ++ r :: l2) (a_id r) = (a_subs r).*2).
  { rewrite subs_of_mid by (eapply er_unique; done). by rewrite Z.eqb_refl. }
  rewrite Hsub in HQ. apply wp_bind, (wp_find_event_sub s (l1 ++ r :: l2) r); [done | apply mid_in | |].
  - intros p x q Hs. apply wp_ret, (HQ s (l1 ++ r :: l2)); [done | done|]. right. split; [done|]. split; [done|]. left.
    rewrite Hs, fmap_app. apply mid_in.
  - intros Hn. apply (wp_new_sub s l1 r l2); [done | done | |].
    + intros s' x Hr' Hc. apply (HQ s' _ 0 Hr' Hc). left. split; [done|]. split; [done|].
      by apply (now_subs_update s s' l1 r (add_sub r x (cb, ctx)) l2).
    + intros s' t used Hz Hr' Hc. apply (HQ s' _ (-1) Hr' Hc). right. split; [done|]. split; [done|]. right. eauto.
Qed.

(** The result of [__yoc_event_subscribe]. *)
Definition sub_post s L (i cb ctx : Z) (rc : Z) (s' : evs) : Prop := exists L', evs_rep s' L' /\ ev_calls s' = ev_calls s /\
  ((rc = 0 /\ ((cb, ctx) ∉ subs_of L i) /\ now_subs L i ((cb, ctx) :: subs_of L i) L') \/
   (rc = -1 /\ now_subs L i (subs_of L i) L' /\ ((cb, ctx) ∈ subs_of L i \/ exists t used, zalloc t used = None))).

Lemma wp_subscribe s L i cb ctx : evs_rep s L -> wp (yoc_event_subscribe i cb ctx) (sub_post s L i cb ctx) s.
Proof.
  intros Hr. unfold yoc_event_subscribe. apply wp_bind, (wp_find_event s L i); [done| |].
  - intros l1 r l2 -> <-. apply wp_bind, wp_ret. cbn iota. apply (wp_subscribe_to s l1 r l2); [done|].
    intros s' L' rc Hr' Hc Hcase. exists L'. split; [done|]. split; [done|]. destruct Hcase as [?|(-> & -> & ?)]; [by left | right].
    split; [done|]. split; [apply now_subs_same | done].
  - intros Hn. apply wp_bind, (wp_new_event s L i); [done | done | |].
    + intros s1 a Hr1 Hc1. cbn iota. apply (wp_subscribe_to s1 [] (mkErec a i []) L cb ctx); [done|].
      intros s' L' rc Hr' Hc' Hcase. exists L'. split; [done|]. split; [congruence|].
      assert (H0 : subs_of L i = []) by (by apply subs_of_none).
      assert (H1 : subs_of (mkErec a i [] :: L) i = []) by (rewrite subs_of_cons; simpl; by rewrite Z.eqb_refl).
      assert (H2 : forall j, j <> i -> subs_of (mkErec a i [] :: L) j = subs_of L j).
      { intros j Hj. rewrite subs_of_cons. simpl. by rewrite (proj2 (Z.eqb_neq i j)) by congruence. }
      simpl app in Hcase. cbn [a_id] in Hcase. rewrite H1 in Hcase. rewrite H0.
      destruct Hcase as [(-> & Hnin & Hnow)|(-> & -> & Hcase)]; [left | right]; (split; [done|]).
      * split; [done|]. intros j. rewrite Hnow. destruct (Z.eqb_spec j i); [done | by apply H2].
      * split; [|done]. intros j. destruct (Z.eqb_spec j i) as [->|]; [done | by apply H2].
    + intros s1 t used Hz Hr1 Hc1. cbn iota. apply wp_ret. exists L. split; [done|]. split; [done|]. right. split; [done|].
      split; [apply now_subs_same | eauto].
Qed.

(** ** Unsubscribing *)

Definition unsub_post s L (i cb ctx : Z) (rc : Z) (s' : evs) : Prop := exists L', evs_rep s' L' /\ ev_calls s' = ev_calls s /\
  ((rc = 0 /\ exists p q, subs_of L i = p ++ (cb, ctx) :: q /\ now_subs L i (p ++ q) L') \/
   (rc = -1 /\ ((cb, ctx) ∉ subs_of L i) /\ L' = L)).

Lemma wp_unsubscribe s L i cb ctx : evs_rep s L -> wp (yoc_event_unsubscribe i cb ctx) (unsub_post s L i cb ctx) s.
Proof.
  intros Hr. unfold yoc_event_unsubscribe. apply wp_bind, (wp_find_event s L i); [done| |].
  2: { intros Hn. apply wp_ret. exists L. split; [done|]. split; [done|]. right. rewrite subs_of_none by done. split; [done|].
       split; [by intros ?%elem_of_nil | done]. }
  intros l1 r l2 -> <-. assert (Hsub : subs_of (l1 ++ r :: l2) (a_id r) = (a_subs r).*2).
  { rewrite subs_of_mid by (eapply er_unique; done). by rewrite Z.eqb_refl. }
  apply wp_bind, (wp_find_event_sub s (l1 ++ r :: l2) r); [done | apply mid_in | |].
  2: { intros Hn. apply wp_ret. exists (l1 ++ r :: l2). split; [done|]. split; [done|]. right. rewrite Hsub. done. }
  intros p x q Hs. cbn iota.
  assert (Hpq : subs_of (l1 ++ r :: l2) (a_id r) = p.*2 ++ (cb, ctx) :: q.*2) by (rewrite Hsub, Hs, fmap_app; done).
  apply wp_assoc, wp_bind.
  apply (wp_drop_sub s l1 r l2 p x (cb, ctx) q); [done | done|]. intros s1 Hr1 Hc1. set (r1 := set_subs r (p ++ q)) in *.
  destruct (rep_split _ _ _ _ Hr1) as [Hok1 _].
  apply wp_bind, (wp_slist_empty (NSubs (a_addr r)) (snodes r1)); [apply Hok1|].
  assert (Hnow : now_subs (l1 ++ r :: l2) (a_id r) (p.*2 ++ q.*2) (l1 ++ r1 :: l2)).
  { rewrite <- fmap_app. by apply (now_subs_update s s1 l1 r r1 l2). }
  destruct (bool_decide_reflect (snodes r1 = [])) as [Hem|Hne]; unfold when.
  - assert (Hpq0 : p ++ q = []) by (unfold snodes, sub_addrs in Hem; simpl in Hem; by apply fmap_nil_inv, fmap_nil_inv in Hem).
    apply wp_bind, (wp_drop_event s1 l1 r1 l2); [done | done|]. intros s2 Hr2 Hc2. apply wp_ret.
    exists (l1 ++ l2). split; [done|]. split; [congruence|]. left. split; [done|]. exists p.*2, q.*2. split; [done|].
    intros j. rewrite (subs_of_drop l1 r1 l2) by (eapply er_unique; done). rewrite Hnow. change (a_id r1) with (a_id r).
    rewrite (Z.eqb_sym j). destruct (a_id r =? j); [|done]. by rewrite <- fmap_app, Hpq0.
  - apply wp_bind, wp_ret, wp_ret. exists (l1 ++ r1 :: l2). split; [done|]. split; [done|]. left. split; [done|]. eauto.
Qed.

(** ** Publishing *)

(** The calls for the subscriptions [cs]. *)
Definition calls_for (i data : Z) (cs : list (Z * Z)) : list ecall :=
  (fun c => mkCall c.1 i data c.2) <$> filter (fun c => c.1 <> 0) cs.

Definition with_calls (cs : list ecall) s : evs := mkEvs (ev_ids s) (ev_subs s) (ev_next s) (ev_allocs s) cs.

Lemma wp_publish_subs s a i data : ev_ids s !! a = Some i -> forall subs h cs0 fuel Q,
  schain (ev_next s) h (NSub <$> subs.*1) -> Forall (fun x => ev_subs s !! x.1 = Some x.2) subs -> (length subs < fuel)%nat ->
  Q None (with_calls (cs0 ++ calls_for i data subs.*2) s) ->
  wp (slist_for_each fuel (fun n => match n with
      | NSub x =>
          c <- get_sub x ;;
          i <- get_id a ;;
          when (negb (fst c =? 0))
            (modify (fun s => mkEvs (ev_ids s) (ev_subs s) (ev_next s) (ev_allocs s) (ev_calls s ++ [mkCall (fst c) i data (snd c)]))) ;;
          ret (None : option unit)
      | _ => fault end) (head (NSub <$> subs.*1))) Q (with_calls cs0 s).
Proof.
  intros Hid. induction subs as [|[x c] subs IH]; intros h cs0 fuel Q Hc Hs Hf HQ; (destruct fuel as [|fuel]; [simpl in Hf; lia|]);
    cbn [slist_for_each fmap list_fmap head].
  { apply wp_ret. unfold calls_for in HQ. simpl in HQ. by rewrite app_nil_r in HQ. }
  simpl in Hc, Hf. destruct Hc as [_ Hc]. apply Forall_cons in Hs as [Hx Hs]. simpl in Hx.
  apply wp_bind. unfold get_sub, get_id. apply wp_bind, wp_bind, wp_gets, (wp_lift _ c); [done|].
  apply wp_bind, wp_bind, wp_gets, (wp_lift _ i); [done|]. apply wp_bind.
  set (cs1 := if c.1 =? 0 then cs0 else cs0 ++ [mkCall c.1 i data c.2]).
  assert (Hw : forall P : unit -> evs -> Prop, P tt (with_calls cs1 s) -> wp (when (negb (c.1 =? 0)) (modify (fun s => mkEvs (ev_ids s) (ev_subs s) (ev_next s)
    (ev_allocs s) (ev_calls s ++ [mkCall c.1 i data c.2])))) P (with_calls cs0 s)).
  { intros P HP. unfold cs1 in HP. destruct (c.1 =? 0); exact HP. }
  apply Hw. apply wp_ret. apply wp_bind, (wp_get_snext (NSub x) (head (NSub <$> subs.*1))); [by apply schain_head|].
  apply (IH (NSub x) cs1); [done | done | lia|]. simpl in HQ. unfold cs1, calls_for in *. rewrite filter_cons in HQ.
  destruct (Z.eqb_spec c.1 0) as [E|E]; [rewrite decide_False in HQ by (by intros ?) | rewrite decide_True in HQ by done; simpl in HQ; rewrite <- app_assoc]; done.
Qed.

Lemma with_calls_id s : with_calls (ev_calls s) s = s.
Proof. by destruct s. Qed.

Lemma wp_publish s L i data Q : evs_rep s L -> Q tt (with_calls (ev_calls s ++ calls_for i data (subs_of L i)) s) ->
  wp (event_publish_ i data) Q s.
Proof.
  intros Hr HQ. unfold event_publish_. apply wp_bind, (wp_find_event s L i); [done| |].
  - intros l1 r l2 -> <-. destruct (rep_split _ _ _ _ Hr) as [[Hid Hc Hs _] _].
    rewrite subs_of_mid, Z.eqb_refl in HQ by (eapply er_unique; done). unfold for_subs, slist_fuel.
    apply wp_bind, wp_bind, wp_bind, wp_gets, wp_ret. apply wp_bind, (wp_get_snext (NSubs (a_addr r)) (head (snodes r))); [by apply schain_head|].
    pose proof (schain_length _ _ _ Hc) as Hlen. unfold snodes, sub_addrs in *. rewrite !length_fmap in Hlen.
    rewrite <- (with_calls_id s) at 2.
    apply (wp_publish_subs s (a_addr r) (a_id r) data Hid (a_subs r) (NSubs (a_addr r))); [done | done | simpl; lia|]. by apply wp_ret.
  - intros Hn. apply wp_ret. rewrite subs_of_none in HQ by done. unfold calls_for in HQ. simpl in HQ. rewrite app_nil_r in HQ.
    by rewrite with_calls_id in HQ.
Qed.

(** ** Removing events *)

Lemma wp_free_subs : forall subs fuel s l1 r l2 Q, evs_rep s (l1 ++ r :: l2) -> a_subs r = subs -> (length subs < fuel)%nat ->
  (forall s', evs_rep s' (l1 ++ set_subs r [] :: l2) -> ev_calls s' = ev_calls s -> Q tt s') ->
  wp (free_subs fuel (a_addr r) (head (snodes r))) Q s.
Proof.
  induction subs as [|[x c] subs IH]; intros fuel s l1 r l2 Q Hr Hs Hf HQ; (destruct fuel as [|fuel]; [simpl in Hf; lia|]);
    cbn [free_subs]; unfold snodes, sub_addrs; rewrite Hs; simpl.
  { apply wp_ret, HQ; [|done]. destruct r as [a i ss]. simpl in Hs. subst ss. done. }
  destruct (rep_split _ _ _ _ Hr) as [Hok _]. pose proof (ro_chain _ _ Hok) as Hc. rewrite (snodes_split r [] x c subs Hs) in Hc.
  apply wp_bind, (wp_get_snext (NSub x) (head (NSub <$> subs.*1))); [apply schain_head; by destruct Hc as [_ Hc]|].
  apply wp_assoc, wp_bind, (wp_drop_sub s l1 r l2 [] x c subs); [done | done|]. intros s1 Hr1 Hc1. simpl in Hr1. simpl in Hf.
  apply (IH fuel s1 l1 (set_subs r subs) l2); [done | done | lia|]. intros s2 Hr2 Hc2. apply HQ; [done | congruence].
Qed.

Lemma wp_remove_event s l1 r l2 Q : evs_rep s (l1 ++ r :: l2) ->
  (forall s', evs_rep s' (l1 ++ l2) -> ev_calls s' = ev_calls s -> Q tt s') -> wp (remove_event (a_addr r)) Q s.
Proof.
  intros Hr HQ. destruct (rep_split _ _ _ _ Hr) as [Hok _]. pose proof (ro_chain _ _ Hok) as Hc. unfold remove_event, slist_fuel.
  apply wp_bind, wp_bind, wp_gets, wp_ret. apply wp_bind, (wp_get_snext (NSubs (a_addr r)) (head (snodes r))); [by apply schain_head|].
  pose proof (schain_length _ _ _ Hc) as Hlen. unfold snodes, sub_addrs in Hlen. rewrite !length_fmap in Hlen.
  apply wp_bind, (wp_free_subs (a_subs r) _ s l1 r l2); [done | done | simpl; lia|]. intros s1 Hr1 Hc1.
  apply (wp_drop_event s1 l1 (set_subs r []) l2); [done | done|]. intros s2 Hr2 Hc2. apply HQ; [done | congruence].
Qed.

Lemma wp_event_remove s L i Q : evs_rep s L ->
  (forall s' L', evs_rep s' L' -> ev_calls s' = ev_calls s -> now_subs L i [] L' -> Q (-1) s') -> wp (yoc_event_remove i) Q s.
Proof.
  intros Hr HQ. unfold yoc_event_remove. apply wp_bind, (wp_find_event s L i); [done| |].
  - intros l1 r l2 -> <-. apply wp_bind, (wp_remove_event s l1 r l2); [done|]. intros s1 Hr1 Hc1. apply wp_ret, (HQ s1 (l1 ++ l2)); [done | done|].
    intros j. rewrite (subs_of_drop l1 r l2) by (eapply er_unique; done). by rewrite (Z.eqb_sym j).
  - intros Hn. apply wp_bind, wp_ret, wp_ret, (HQ s L); [done | done|]. rewrite <- (subs_of_none L i) by done. apply now_subs_same.
Qed.

Lemma wp_free_events : forall L fuel s Q, evs_rep s L -> (length L < fuel)%nat ->
  (forall s', evs_rep s' [] -> ev_calls s' = ev_calls s -> Q tt s') -> wp (free_events fuel (head (enode <$> L))) Q s.
Proof.
  induction L as [|r L IH]; intros fuel s Q Hr Hf HQ; (destruct fuel as [|fuel]; [simpl in Hf; lia|]); cbn [free_events fmap list_fmap head].
  { by apply wp_ret, HQ. }
  pose proof (er_chain _ _ Hr) as [_ Hc]. simpl in Hf. unfold enode at 1.
  apply wp_bind, (wp_get_snext (NEv (a_addr r)) (head (enode <$> L))); [by apply schain_head|].
  apply wp_bind, (wp_remove_event s [] r L); [done|]. intros s1 Hr1 Hc1. apply IH; [done | lia|]. intros s2 Hr2 Hc2. apply HQ; [done | congruence].
Qed.

(** [eventlist_uninit] frees everything. *)
Lemma wp_uninit s L Q : evs_rep s L -> (forall s', evs_rep s' [] -> ev_calls s' = ev_calls s -> Q tt s') -> wp eventlist_uninit Q s.
Proof.
  intros Hr HQ. unfold eventlist_uninit, slist_fuel. apply wp_bind, wp_bind, wp_gets, wp_ret.
  apply wp_bind, (wp_get_snext NEvents (head (enode <$> L))); [apply schain_head, Hr|].
  pose proof (schain_length _ _ _ (er_chain _ _ Hr)) as Hlen. rewrite length_fmap in Hlen. apply (wp_free_events L); [done | simpl; lia | done].
Qed.

(** ** The descriptors to select on *)

Definition set_fds (L : list erec) : list Z := (fun r => Z.land (a_id r) (Z.lnot FD_MASK)) <$> filter (fun r => FD_MASK < a_id r) L.

Lemma wp_setfd_loop s : forall L fuel fds m h Q, schain (ev_next s) h (enode <$> L) -> Forall (rec_ok s) L -> (length L < fuel)%nat ->
  Q (fds ++ set_fds L, foldl (fun m fd => if m <? fd then fd else m) m (set_fds L)) s ->
  wp (setfd_loop fuel (head (enode <$> L)) fds m) Q s.
Proof.
  induction L as [|r L IH]; intros fuel fds m h Q Hc Hok Hf HQ; (destruct fuel as [|fuel]; [simpl in Hf; lia|]); cbn [setfd_loop fmap list_fmap head].
  { apply wp_ret. unfold set_fds in HQ. simpl in HQ. by rewrite app_nil_r in HQ. }
  simpl in Hc, Hf. destruct Hc as [_ Hc]. apply Forall_cons in Hok as [Hr Hok]. unfold enode at 1. unfold get_id.
  apply wp_bind, wp_bind, wp_gets, (wp_lift _ (a_id r)); [apply Hr|].
  apply wp_bind, (wp_get_snext (NEv (a_addr r)) (head (enode <$> L))); [by apply schain_head|].
  unfold set_fds in *. rewrite filter_cons in HQ. destruct (Z.ltb_spec FD_MASK (a_id r)) as [Hlt|Hge].
  - rewrite decide_True in HQ by done. apply (IH fuel _ _ (enode r)); [done | done | lia|]. rewrite <- app_assoc. exact HQ.
  - rewrite decide_False in HQ by lia. by apply (IH fuel _ _ (enode r)); [..|lia|].
Qed.

Lemma wp_setfd s L Q : evs_rep s L -> Q (set_fds L, foldl (fun m fd => if m <? fd then fd else m) 0 (set_fds L)) s -> wp eventlist_setfd Q s.
Proof.
  intros Hr HQ. unfold eventlist_setfd, slist_fuel. apply wp_bind, wp_bind, wp_gets, wp_ret.
  apply wp_bind, (wp_get_snext NEvents (head (enode <$> L))); [apply schain_head, Hr|].
  pose proof (schain_length _ _ _ (er_chain _ _ Hr)) as Hlen. rewrite length_fmap in Hlen.
  apply (wp_setfd_loop s L _ _ _ NEvents); [apply Hr | apply Hr | simpl; lia | done].
Qed.
End Ops.

(** * The abstract event list

    Subscriptions per event number, the answers of the interface, and that
    every call on the list in memory gives the abstract answer. *)

(** ** Subscriptions

    For every event number the subscriptions (function and context), newest
    first.  A descriptor [fd] has the number [fd] with bit 31 set. *)

Abbreviation subscriptions := (Z -> list (Z * Z)).

(** A call of the interface; [fd]: the variant for descriptors. *)
Inductive ev_op :=
  | OSub (fd : bool) (i cb ctx : Z)
  | OUnsub (fd : bool) (i cb ctx : Z)
  | OPub (fd : bool) (i data : Z)
  | ORemove (fd : bool) (i : Z).

Definition op_number (op : ev_op) : Z := match op with OSub _ i _ _ | OUnsub _ i _ _ | OPub _ i _ | ORemove _ i => i end.

(** The arguments are [uint32_t], and functions are not NULL. *)
Definition op_ok (op : ev_op) : Prop :=
  0 <= op_number op < 2 ^ 32 /\ match op with OSub _ _ cb _ | OUnsub _ _ cb _ => cb <> 0 | _ => True end.

Definition ev_number (fd : bool) (i : Z) : Z := if fd then 2 ^ 31 + i else i.

(** The subscriptions of [i] are [X], the others those of [F]. *)
Definition now (F : subscriptions) (i : Z) (X : list (Z * Z)) (F' : subscriptions) : Prop := forall j, F' j = if j =? i then X else F j.

(** The answers of an event list with subscriptions [F], its subscriptions
    afterwards and the functions it calls.  [oom]: memory can run out. *)
Inductive ev_step (oom : Prop) (F : subscriptions) : ev_op -> Z -> subscriptions -> list ecall -> Prop :=
  | st_number op F' : 2 ^ 31 <= op_number op -> (forall j, F' j = F j) -> ev_step oom F op (-1) F' []
  | st_sub fd i cb ctx F' : i < 2 ^ 31 -> (cb, ctx) ∉ F (ev_number fd i) ->
      now F (ev_number fd i) ((cb, ctx) :: F (ev_number fd i)) F' -> ev_step oom F (OSub fd i cb ctx) 0 F' []
  | st_again fd i cb ctx F' : i < 2 ^ 31 -> (cb, ctx) ∈ F (ev_number fd i) -> (forall j, F' j = F j) ->
      ev_step oom F (OSub fd i cb ctx) (-1) F' []
  | st_memory fd i cb ctx F' : i < 2 ^ 31 -> oom -> (forall j, F' j = F j) -> ev_step oom F (OSub fd i cb ctx) (-1) F' []
  | st_unsub fd i cb ctx p q F' : i < 2 ^ 31 -> F (ev_number fd i) = p ++ (cb, ctx) :: q ->
      now F (ev_number fd i) (p ++ q) F' -> ev_step oom F (OUnsub fd i cb ctx) 0 F' []
  | st_nothing fd i cb ctx F' : i < 2 ^ 31 -> (cb, ctx) ∉ F (ev_number fd i) -> (forall j, F' j = F j) ->
      ev_step oom F (OUnsub fd i cb ctx) (-1) F' []
  | st_publish fd i data F' : i < 2 ^ 31 -> (forall j, F' j = F j) ->
      ev_step oom F (OPub fd i data) 0 F' ((fun c => mkCall c.1 (ev_number fd i) data c.2) <$> F (ev_number fd i))
  | st_remove fd i F' : i < 2 ^ 31 -> now F (ev_number fd i) [] F' -> ev_step oom F (ORemove fd i) 0 F' [].

(** A history: calls with their answers, and all functions called. *)
Inductive ev_history (oom : Prop) : subscriptions -> list ev_op -> list Z -> subscriptions -> list ecall -> Prop :=
  | hist_nil F : ev_history oom F [] [] F []
  | hist_cons F op rc F1 c1 ops rcs F2 c2 : ev_step oom F op rc F1 c1 -> ev_history oom F1 ops rcs F2 c2 ->
      ev_history oom F (op :: ops) (rc :: rcs) F2 (c1 ++ c2).

Section Abs.
Context `{Allocator}.
Implicit Types (s : evs) (L : list erec).

Definition run_ev (op : ev_op) : E Z :=
  match op with
  | OSub false i cb ctx => eventlist_subscribe i cb ctx
  | OSub true i cb ctx => eventlist_subscribe_fd i cb ctx
  | OUnsub false i cb ctx => eventlist_unsubscribe i cb ctx
  | OUnsub true i cb ctx => eventlist_unsubscribe_fd i cb ctx
  | OPub false i data => eventlist_publish i data
  | OPub true i data => eventlist_publish_fd i data
  | ORemove false i => eventlist_remove i
  | ORemove true i => eventlist_remove_fd i
  end.

Fixpoint run_evs (ops : list ev_op) : E (list Z) :=
  match ops with
  | [] => ret []
  | op :: ops => rc <- run_ev op ;; rcs <- run_evs ops ;; ret (rc :: rcs)
  end.

(** Memory that holds no event and no subscription, and the list head in any
    state. *)
Definition ev_start (n : nat) : evs := mkEvs ∅ ∅ ∅ n [].

Definition oom : Prop := exists t used, zalloc t used = None.

(** *** Numbers *)

Lemma fd_bit i : 0 <= i < 2 ^ 31 -> Z.land i FD_MASK = 0.
Proof.
  intros Hi. apply Z.bits_inj'. intros n Hn. unfold FD_MASK. rewrite Z.land_spec, Z.bits_0, Z.pow2_bits_eqb by lia.
  destruct (Z.eqb_spec 31 n) as [<-|]; [|apply andb_false_r]. rewrite andb_true_r. apply Z.bits_above_log2; [lia|].
  destruct (Z.eq_dec i 0) as [->|]; [done|]. apply Z.log2_lt_pow2; lia.
Qed.

Lemma is_fd_spec i : 0 <= i < 2 ^ 32 -> is_fd i = bool_decide (2 ^ 31 <= i).
Proof.
  intros Hi. unfold is_fd. case_bool_decide.
  - destruct (Z.eqb_spec (Z.land i FD_MASK) 0) as [E|]; [|done]. exfalso.
    assert (Ht : Z.testbit (Z.land i FD_MASK) 31 = true); [|rewrite E in Ht; done].
    unfold FD_MASK. rewrite Z.land_spec, Z.pow2_bits_true, andb_true_r by lia. apply Z.testbit_true; [lia|].
    replace (i / 2 ^ 31) with 1 by (apply (Z.div_unique i _ 1 (i - 2 ^ 31)); lia). done.
  - rewrite fd_bit by lia. done.
Qed.

Lemma fd_number i : 0 <= i < 2 ^ 31 -> Z.lor i FD_MASK = 2 ^ 31 + i.
Proof. intros Hi. rewrite <- Z.lxor_lor, <- Z.add_nocarry_lxor by (by apply fd_bit). unfold FD_MASK. lia. Qed.

(** *** One call *)

(** The memory of an event list: well-formed, with no NULL function. *)
Definition ev_mem s L : Prop := evs_rep s L /\ forall j c, c ∈ subs_of L j -> c.1 <> 0.

Lemma calls_for_all i data cs : (forall c, c ∈ cs -> c.1 <> 0) -> calls_for i data cs = (fun c => mkCall c.1 i data c.2) <$> cs.
Proof.
  intros Hc. unfold calls_for. f_equal. induction cs as [|c cs IH]; [done|]. rewrite filter_cons, decide_True by (apply Hc, elem_of_cons; by left).
  f_equal. apply IH. intros c' Hc'. apply Hc, elem_of_cons. by right.
Qed.

Definition op_post s L (op : ev_op) (rc : Z) s' : Prop := exists L' calls, ev_mem s' L' /\
  ev_calls s' = ev_calls s ++ calls /\ ev_step oom (subs_of L) op rc (subs_of L') calls.

Lemma post_number s L op : ev_mem s L -> 2 ^ 31 <= op_number op -> op_post s L op (-1) s.
Proof. intros Hm Hi. exists L, []. rewrite app_nil_r. split; [done|]. split; [done|]. by apply st_number. Qed.

(** The functions of [event.c] on the number of an event. *)
Lemma wp_op_subscribe s L fd i cb ctx : ev_mem s L -> i < 2 ^ 31 -> cb <> 0 ->
  wp (yoc_event_subscribe (ev_number fd i) cb ctx) (op_post s L (OSub fd i cb ctx)) s.
Proof.
  intros [Hr Hnz] Hi Hcb. eapply wp_mono; [by apply (wp_subscribe s L)|]. intros rc s' (L' & Hr' & Hc & Hcase).
  exists L', []. rewrite app_nil_r. destruct Hcase as [(-> & Hn & Hnow)|(-> & Hnow & Hwhy)]; (split; [split; [done|] | split; [done|]]).
  - intros j c. rewrite Hnow. destruct (j =? _); [|apply Hnz]. intros [->|Hin]%elem_of_cons; [done | by eapply Hnz].
  - by apply st_sub.
  - intros j c. rewrite Hnow. destruct (j =? _); apply Hnz.
  - assert (Hsame : forall j, subs_of L' j = subs_of L j).
    { intros j. rewrite Hnow. destruct (Z.eqb_spec j (ev_number fd i)) as [->|]; done. }
    destruct Hwhy; [by apply st_again | by apply st_memory].
Qed.

Lemma wp_op_unsubscribe s L fd i cb ctx : ev_mem s L -> i < 2 ^ 31 ->
  wp (yoc_event_unsubscribe (ev_number fd i) cb ctx) (op_post s L (OUnsub fd i cb ctx)) s.
Proof.
  intros [Hr Hnz] Hi. eapply wp_mono; [by apply (wp_unsubscribe s L)|]. intros rc s' (L' & Hr' & Hc & Hcase).
  exists L', []. rewrite app_nil_r. destruct Hcase as [(-> & p & q & Hpq & Hnow)|(-> & Hn & ->)]; (split; [split; [done|] | split; [done|]]).
  - intros j c. rewrite Hnow. destruct (j =? _); [|apply Hnz]. intros Hin. apply (Hnz (ev_number fd i)). rewrite Hpq.
    rewrite elem_of_app in *. rewrite elem_of_cons. tauto.
  - by apply (st_unsub _ _ _ _ _ _ p q).
  - done.
  - by apply st_nothing.
Qed.

Lemma wp_op_publish s L fd i data : ev_mem s L -> i < 2 ^ 31 ->
  wp (event_publish_ (ev_number fd i) data ;; ret 0) (op_post s L (OPub fd i data)) s.
Proof.
  intros [Hr Hnz] Hi. apply wp_bind, (wp_publish s L); [done|]. apply wp_ret.
  exists L, (calls_for (ev_number fd i) data (subs_of L (ev_number fd i))). split; [split; [by apply rep_calls | done]|]. split; [done|].
  rewrite calls_for_all by apply Hnz. by apply st_publish.
Qed.

Lemma wp_op_remove s L fd i : ev_mem s L -> i < 2 ^ 31 ->
  wp (yoc_event_remove (ev_number fd i) ;; ret 0) (op_post s L (ORemove fd i)) s.
Proof.
  intros [Hr Hnz] Hi. apply wp_bind, (wp_event_remove s L); [done|]. intros s' L' Hr' Hc Hnow. apply wp_ret. exists L', [].
  rewrite app_nil_r. split; [split; [done|] | split; [done | by apply st_remove]].
  intros j c. rewrite Hnow. destruct (j =? _); [by intros ?%elem_of_nil | apply Hnz].
Qed.

Lemma wp_run_ev s L op : ev_mem s L -> op_ok op -> wp (run_ev op) (op_post s L op) s.
Proof.
  intros Hm [Hi Hcb]. destruct (decide (2 ^ 31 <= op_number op)) as [Hbig|Hsmall].
  - pose proof (post_number s L op Hm Hbig) as Hpost. destruct op as [[] i cb ctx|[] i cb ctx|[] i data|[] i]; simpl in *;
      unfold eventlist_subscribe, eventlist_subscribe_fd, eventlist_unsubscribe, eventlist_unsubscribe_fd,
        eventlist_publish, eventlist_publish_fd, eventlist_remove, eventlist_remove_fd; rewrite ?(proj2 (Z.eqb_neq cb 0)) by done;
      rewrite is_fd_spec, bool_decide_eq_true_2 by done; by apply wp_ret.
  - destruct op as [fd i cb ctx|fd i cb ctx|fd i data|fd i]; simpl in Hi, Hcb, Hsmall;
      [pose proof (wp_op_subscribe s L fd i cb ctx Hm ltac:(lia) Hcb) as Hw | pose proof (wp_op_unsubscribe s L fd i cb ctx Hm ltac:(lia)) as Hw
      | pose proof (wp_op_publish s L fd i data Hm ltac:(lia)) as Hw | pose proof (wp_op_remove s L fd i Hm ltac:(lia)) as Hw];
      destruct fd; simpl run_ev; cbn [ev_number] in Hw;
      unfold eventlist_subscribe, eventlist_subscribe_fd, eventlist_unsubscribe, eventlist_unsubscribe_fd,
        eventlist_publish, eventlist_publish_fd, eventlist_remove, eventlist_remove_fd; rewrite ?(proj2 (Z.eqb_neq cb 0)) by done;
      rewrite is_fd_spec, bool_decide_eq_false_2, ?fd_number by lia; exact Hw.
Qed.

Definition evs_post s L (ops : list ev_op) (rcs : list Z) s' : Prop := exists F L' calls, ev_mem s' L' /\
  ev_calls s' = ev_calls s ++ calls /\ ev_history oom (subs_of L) ops rcs F calls /\ forall j, subs_of L' j = F j.

Lemma wp_run_evs ops : forall s L, ev_mem s L -> Forall op_ok ops -> wp (run_evs ops) (evs_post s L ops) s.
Proof.
  induction ops as [|op ops IH]; intros s L Hm Hok; simpl.
  { apply wp_ret. exists (subs_of L), L, []. rewrite app_nil_r. split; [done|]. split; [done|]. split; [constructor | done]. }
  apply Forall_cons in Hok as [Hop Hok]. apply wp_bind. eapply wp_mono; [by apply (wp_run_ev s L)|].
  intros rc s1 (L1 & c1 & Hm1 & Hc1 & Hst). apply wp_bind. eapply wp_mono; [by apply (IH s1 L1)|].
  intros rcs s2 (F & L2 & c2 & Hm2 & Hc2 & Hh & HF). apply wp_ret. exists F, L2, (c1 ++ c2). split; [done|].
  split; [by rewrite Hc2, Hc1, app_assoc|]. split; [by econstructor | done].
Qed.

Lemma ev_mem_init n : wp (eventlist_init true) (fun rc s => rc = 0 /\ ev_mem s [] /\ ev_calls s = []) (ev_start n).
Proof.
  unfold eventlist_init, ev_start. apply wp_bind. eapply run_wp; [reflexivity|]. apply wp_bind, wp_put_snext; [simpl; eauto|].
  apply wp_ret. split; [done|]. split; [|done]. split; [|by intros j c ?%elem_of_nil]. cbn [slinks_of with_slinks evs_links ev_next ev_ids ev_subs].
  rewrite insert_insert_eq. constructor; simpl; try done; try constructor; try (by rewrite lookup_empty; intros [? ?]); try by intros ?%elem_of_nil.
  - intros Hn. destruct n0; simpl; try done; rewrite lookup_insert_ne in Hn by done; destruct Hn as [? Hn]; by rewrite lookup_empty in Hn.
  - destruct n0; simpl; try by intros ?%elem_of_nil. intros _. rewrite lookup_insert_eq. eauto.
Qed.

(** *** The descriptors to wait for *)

Lemma land_fd i : 2 ^ 31 <= i < 2 ^ 32 -> Z.land i (Z.lnot FD_MASK) = i - 2 ^ 31.
Proof.
  intros Hi. change (Z.land i (Z.lnot FD_MASK)) with (Z.ldiff i FD_MASK). replace i with (Z.lor (i - 2 ^ 31) FD_MASK) at 1.
  - assert (Hland : Z.land (i - 2 ^ 31) FD_MASK = 0) by (apply fd_bit; lia). apply Z.bits_inj'. intros n Hn. apply (f_equal (fun x => Z.testbit x n)) in Hland.
    rewrite Z.ldiff_spec, Z.lor_spec. rewrite Z.land_spec, Z.bits_0 in Hland.
    by destruct (Z.testbit (i - 2 ^ 31) n), (Z.testbit FD_MASK n).
  - rewrite fd_number; lia.
Qed.

Lemma elem_of_set_fds L fd : Forall (fun r => 0 <= a_id r < 2 ^ 32) L -> 0 <= fd < 2 ^ 31 ->
  fd ∈ set_fds L <-> fd <> 0 /\ 2 ^ 31 + fd ∈ (a_id <$> L).
Proof.
  intros Hb Hfd. rewrite Forall_forall in Hb. unfold set_fds. rewrite list_elem_of_fmap. split.
  - intros (r & E & Hin). apply list_elem_of_filter in Hin as [Hlt Hin]. unfold FD_MASK in Hlt. specialize (Hb r Hin).
    rewrite land_fd in E by lia. split; [lia|]. apply list_elem_of_fmap. exists r. split; [lia | done].
  - intros [Hnz Hin]. apply list_elem_of_fmap in Hin as (r & E & Hin). exists r. rewrite <- E, land_fd by lia. split; [lia|].
    apply list_elem_of_filter. unfold FD_MASK. split; [lia | done].
Qed.

Lemma max_fd_spec l : forall m, let x := foldl (fun m fd => if m <? fd then fd else m) m l in m <= x /\ (x = m \/ x ∈ l) /\ forall fd, fd ∈ l -> fd <= x.
Proof.
  induction l as [|a l IH]; intros m; simpl; [split; [lia|]; split; [by left | by intros ? ?%elem_of_nil]|].
  destruct (IH (if m <? a then a else m)) as (Hm & Hx & Hle). destruct (Z.ltb_spec m a).
  - split; [lia|]. split; [right; apply elem_of_cons; destruct Hx as [->|?]; [by left | by right]|].
    intros fd [->|Hin]%elem_of_cons; [done | by apply Hle].
  - split; [done|]. split; [destruct Hx as [->|?]; [by left | right; apply elem_of_cons; by right]|].
    intros fd [->|Hin]%elem_of_cons; [lia | by apply Hle].
Qed.
End Abs.
