(* ===== verification/SpecEv.v ===== *)
(** * Event subscriptions: what they promise *)

From S2P Require Import Prelude.
From S2P Require Import Monad.
From S2P Require Import SList.
From S2P Require Import EvList.
From S2P Require Import EvInv.
From S2P Require Import EvOps.

Section Claims.
Context `{Allocator}.
Implicit Types (s : evs) (L : list erec).

(** ** Claims *)

(** Whatever the sequence of calls on a new event list, every call returns
    the answer of the abstract event list, and the functions called are those
    it calls: a function is subscribed to a number at most once (-1 the second
    time, or when memory runs out, and nothing changes); unsubscribing takes
    away that one subscription; publishing calls every function subscribed to
    the number once, the newest first, with its event, data and context;
    removing ends all subscriptions of the number; numbers with bit 31 are
    refused; events and descriptors never interfere. *)
Theorem eventlist_implements (n : nat) (ops : list ev_op) : Forall op_ok ops ->
  wp (eventlist_init true ;; run_evs ops)
    (fun rcs s' => exists F, ev_history oom (fun _ => []) ops rcs F (ev_calls s')) (ev_start n).
Proof.
  intros Hok. apply wp_bind. eapply wp_mono; [apply ev_mem_init|]. intros rc s (_ & Hm & Hc).
  eapply wp_mono; [by apply (wp_run_evs ops s [])|]. intros rcs s' (F & L' & calls & _ & Hc' & Hh & _). exists F.
  rewrite Hc in Hc'. simpl in Hc'. rewrite Hc'. exact Hh.
Qed.

(** After any sequence of calls [eventlist_uninit] ends and frees every
    event and every subscription: nothing the list allocated is left. *)
Theorem eventlist_no_leak (n : nat) (ops : list ev_op) : Forall op_ok ops ->
  wp (eventlist_init true ;; run_evs ops ;; eventlist_uninit)
    (fun _ s' => ev_ids s' = ∅ /\ ev_subs s' = ∅ /\ dom (ev_next s') = {[ NEvents ]}) (ev_start n).
Proof.
  intros Hok. apply wp_bind. eapply wp_mono; [apply ev_mem_init|]. intros rc s (_ & Hm & _). apply wp_bind.
  eapply wp_mono; [by apply (wp_run_evs ops s [])|]. intros rcs s' (F & L' & calls & [Hr _] & _). apply (wp_uninit s' L'); [done|].
  intros s2 Hr2 _. split; [|split].
  - apply map_eq. intros a. rewrite lookup_empty. apply eq_None_not_Some. rewrite (er_ids _ _ Hr2). by intros ?%elem_of_nil.
  - apply map_eq. intros a. rewrite lookup_empty. apply eq_None_not_Some. rewrite (er_subs _ _ Hr2). by intros ?%elem_of_nil.
  - apply set_eq. intros k. rewrite elem_of_dom, (er_nodes _ _ Hr2), elem_of_singleton.
    destruct k; simpl; split; try done; by intros ?%elem_of_nil.
Qed.

(** The set of descriptors to wait for holds exactly the descriptors that
    have an event in the list, and the result is the largest of them; but
    descriptor 0 is never in the set, subscribed or not. *)
Theorem setfd_all_but_zero s L : evs_rep s L -> Forall (fun r => 0 <= a_id r < 2 ^ 32) L ->
  wp eventlist_setfd (fun r s' => s' = s /\
    (forall fd, 0 <= fd < 2 ^ 31 -> fd ∈ fst r <-> fd <> 0 /\ 2 ^ 31 + fd ∈ (a_id <$> L)) /\
    (snd r = 0 \/ snd r ∈ fst r) /\ forall fd, fd ∈ fst r -> fd <= snd r) s.
Proof.
  intros Hr Hb. apply (wp_setfd s L); [done|]. split; [done|]. destruct (max_fd_spec (set_fds L) 0) as (_ & Hx & Hle).
  split; [intros fd Hfd; by apply elem_of_set_fds | done].
Qed.
End Claims.

(** ** Examples *)

(** Memory for eight objects. *)
#[export] Instance eight : Allocator := first_free 8.

Definition demo_ops : list ev_op :=
  [OSub false 7 11 1; OSub false 7 12 2; OSub false 7 11 1; OSub true 7 13 3; OSub true 0 14 4; OPub false 7 99;
   OUnsub false 7 11 1; OUnsub false 7 11 1; OPub false 7 98; OPub true 7 97; ORemove false 7; OPub false 7 96; OSub false (2 ^ 31) 11 0].

Example demo_calls : exists s, (eventlist_init true ;; run_evs demo_ops) (ev_start 0) = Some ([0; 0; -1; 0; 0; 0; 0; -1; 0; 0; 0; 0; -1], s) /\
  ev_calls s = [mkCall 12 7 99 2; mkCall 11 7 99 1; mkCall 12 7 98 2; mkCall 13 (2 ^ 31 + 7) 97 3] /\
  (r <- eventlist_setfd ;; ret r) s = Some (([7], 7), s).
Proof. eexists. split; [vm_compute; reflexivity | split; vm_compute; reflexivity]. Qed.

Lemma demo_ops_ok : Forall op_ok demo_ops.
Proof. unfold demo_ops. repeat (apply Forall_cons; split; [split; simpl; lia|]). apply Forall_nil. exact I. Qed.

Lemma eventlist_implements_witness : wp (eventlist_init true ;; run_evs demo_ops)
  (fun rcs s' => exists F, ev_history oom (fun _ => []) demo_ops rcs F (ev_calls s')) (ev_start 0).
Proof. apply (eventlist_implements 0 demo_ops). exact demo_ops_ok. Defined.

Lemma eventlist_no_leak_witness : wp (eventlist_init true ;; run_evs demo_ops ;; eventlist_uninit)
  (fun _ s' => ev_ids s' = ∅ /\ ev_subs s' = ∅ /\ dom (ev_next s') = {[ NEvents ]}) (ev_start 0).
Proof. apply (eventlist_no_leak 0 demo_ops). exact demo_ops_ok. Defined.

(** A list with the events of descriptors 5 and 0. *)
Definition fd_recs : list erec := [mkErec 2 (2 ^ 31 + 5) [(3%nat, (12, 0))]; mkErec 0 (2 ^ 31) [(1%nat, (11, 0))]].

Definition fd_state : evs :=
  mkEvs (<[2%nat := 2 ^ 31 + 5]> {[ 0%nat := 2 ^ 31 ]}) (<[3%nat := (12, 0)]> {[ 1%nat := (11, 0) ]})
    (list_to_map [(NEvents, Some (NEv 2)); (NEv 2, Some (NEv 0)); (NEv 0, None); (NSubs 2, Some (NSub 3)); (NSub 3, None);
                  (NSubs 0, Some (NSub 1)); (NSub 1, None)]) 4 [].

Lemma fd_state_rep : evs_rep fd_state fd_recs.
Proof.
  constructor.
  - repeat split.
  - apply Forall_cons. split; [|apply Forall_singleton]; (constructor; [done | by repeat split | by apply Forall_singleton | apply NoDup_singleton]).
  - intros a. change (ev_ids fd_state) with (<[2%nat := 2 ^ 31 + 5]> ({[ 0%nat := 2 ^ 31 ]} : gmap nat Z)).
    rewrite lookup_insert_is_Some', lookup_singleton_is_Some. unfold fd_recs. simpl. rewrite !elem_of_cons, elem_of_nil. naive_solver.
  - intros a. change (ev_subs fd_state) with (<[3%nat := (12, 0)]> ({[ 1%nat := (11, 0) ]} : gmap nat (Z * Z))).
    rewrite lookup_insert_is_Some', lookup_singleton_is_Some. unfold all_subs, fd_recs. simpl. rewrite !elem_of_cons, elem_of_nil. naive_solver.
  - intros k. unfold fd_state. cbn [ev_next]. rewrite <- elem_of_dom, dom_list_to_map_L, elem_of_list_to_set. cbn [fmap list_fmap fst].
    unfold allocated, all_subs, fd_recs. simpl. destruct k; rewrite !elem_of_cons, ?elem_of_nil; naive_solver.
  - apply (bool_decide_unpack _). vm_compute. exact I.
  - apply (bool_decide_unpack _). vm_compute. exact I.
Qed.

Lemma setfd_all_but_zero_witness : exists r s, eventlist_setfd s = Some (r, s) /\ (5 ∈ fst r) /\ (0 ∉ fst r) /\ 2 ^ 31 + 0 ∈ (a_id <$> fd_recs).
Proof.
  pose proof (setfd_all_but_zero fd_state fd_recs fd_state_rep ltac:(apply Forall_cons; split; [simpl; lia | apply Forall_singleton; simpl; lia])) as Hw.
  unfold wp in Hw. destruct (eventlist_setfd fd_state) as [[r s']|] eqn:E; [|destruct Hw].
  destruct Hw as (-> & Hfd & _). exists r, fd_state. split; [exact E|]. split; [|split].
  - apply Hfd; [lia|]. split; [lia|]. apply elem_of_cons. left. reflexivity.
  - intros Hin. apply Hfd in Hin; [|lia]. destruct Hin as [Hne _]. apply Hne. reflexivity.
  - apply elem_of_cons. right. apply elem_of_cons. left. reflexivity.
Defined.
