(* ===== verification/Rpc.v ===== *)
(** * Remote procedure calls (kernel/uService/rpc.c)

    A call ([rpc_t]) is passed by value through the queue of the service task;
    its copies share one buffer ([rpc_buffer_t]) that carries the arguments to
    the service and the results back.  Caller and service each call
    [rpc_deinit] when they are done with their copy: the first one puts the
    buffer into the list [rpc_buffer_gc_cache] of the task, the second one finds
    it there and frees it.

    A freed buffer is not in memory any more, and any use of it is a fault; so
    are the access of a word at an address that is not a multiple of 4 (the
    processor is a Cortex-M0), an access outside of a block, and the use of a
    byte that was never written. *)

From S2P Require Import Prelude.
From S2P Require Import Monad.
From S2P Require Import SList.

Abbreviation u16 := (wrap 16).

Definition ENOMEM : Z := 12.
Definition EINVAL : Z := 22.
Definition AOS_WAIT_FOREVER : Z := -1.

(** ** Memory *)

(** [b_buffer]: the block with the values, [None] when the pointer is NULL; a
    byte is [None] until it is written.  [b_sem]: the count of the semaphore,
    [None] when it is not valid. *)
Record rpc_buffer_t := mkBuf {
  b_timeout : Z;
  b_buffer : option (list (option Z));
  b_size : Z;
  b_pos : Z;
  b_sem : option Z;
}.

Record rpc_t := mkRpc { r_srv : option nat; r_cmd : Z; r_data : option nat }.

(** The [slist_t] of the list of the task and of a buffer. *)
Inductive rnode := RCache | RBuf (a : nat).

#[export] Instance rnode_eq_dec : EqDecision rnode.
Proof. solve_decision. Defined.

#[export] Instance rnode_countable : Countable rnode.
Proof.
  refine (inj_countable' (fun n => match n with RCache => None | RBuf a => Some a end)
    (fun c => match c with None => RCache | Some a => RBuf a end) _).
  by intros [].
Defined.

(** [m_allocs] counts the allocations. *)
Record rmem := mkRmem {
  m_bufs : gmap nat rpc_buffer_t;
  m_next : gmap rnode (option rnode);
  m_allocs : nat;
}.

#[export] Instance rmem_links : HasSLinks rmem rnode.
Proof.
  refine (mkHasSLinks rmem rnode _ _ m_next (fun m s => mkRmem (m_bufs s) m (m_allocs s)) _ _ _); [done | done | by intros []].
Defined.

(** [aos_malloc] for the values: whether the [t]-th allocation, of [n] bytes,
    succeeds. *)
Class Blocks := mkBlocks { block_ok : nat -> Z -> bool }.

Abbreviation R := (st rmem).

Section Rpc.
Context `{Allocator} `{Blocks}.

(** Memory can run out. *)
Definition no_buffer : Prop := exists t used, zalloc t used = None.
Definition no_block : Prop := exists t n, block_ok t n = false.

Definition get_buf (a : nat) : R rpc_buffer_t := m <- gets m_bufs ;; lift (m !! a).
Definition put_buf (a : nat) (b : rpc_buffer_t) : R unit :=
  get_buf a ;; modify (fun s => mkRmem (<[a := b]> (m_bufs s)) (m_next s) (m_allocs s)).

Definition count_alloc : R nat := n <- gets m_allocs ;; modify (fun s => mkRmem (m_bufs s) (m_next s) (S (m_allocs s))) ;; ret n.

(** [aos_zalloc(sizeof(rpc_buffer_t))] and [aos_free]. *)
Definition zalloc_buffer : R (option nat) :=
  t <- count_alloc ;; s <- gets id ;;
  match zalloc t (dom (m_bufs s)) with
  | Some a => modify (fun s => mkRmem (<[a := mkBuf 0 None 0 0 None]> (m_bufs s)) (<[RBuf a := None]> (m_next s)) (m_allocs s)) ;; ret (Some a)
  | None => ret None
  end.

Definition free_buffer (a : nat) : R unit :=
  get_buf a ;; modify (fun s => mkRmem (delete a (m_bufs s)) (delete (RBuf a) (m_next s)) (m_allocs s)).

Definition set_timeout t b := mkBuf t (b_buffer b) (b_size b) (b_pos b) (b_sem b).
Definition set_block l b := mkBuf (b_timeout b) l (b_size b) (b_pos b) (b_sem b).
Definition set_size n b := mkBuf (b_timeout b) (b_buffer b) n (b_pos b) (b_sem b).
Definition set_pos n b := mkBuf (b_timeout b) (b_buffer b) (b_size b) n (b_sem b).
Definition set_sem v b := mkBuf (b_timeout b) (b_buffer b) (b_size b) (b_pos b) v.
Definition upd_buf (a : nat) (f : rpc_buffer_t -> rpc_buffer_t) : R unit := b <- get_buf a ;; put_buf a (f b).

(** Words and bytes of a block. *)
Definition le32 (v : Z) : list Z := [v mod 2 ^ 8; v / 2 ^ 8 mod 2 ^ 8; v / 2 ^ 16 mod 2 ^ 8; v / 2 ^ 24 mod 2 ^ 8].
Definition of_le32 (l : list Z) : Z := foldr (fun x v => x + 2 ^ 8 * v) 0 l.

Definition load (l : list (option Z)) (p n : nat) : option (list Z) :=
  if (p + n <=? length l)%nat then mapM id (take n (drop p l)) else None.
Definition store (l : list (option Z)) (p : nat) (d : list Z) : option (list (option Z)) :=
  if (p + length d <=? length l)%nat then Some (take p l ++ (Some <$> d) ++ drop (p + length d) l) else None.

Definition load_u32 (l : list (option Z)) (p : nat) : option Z :=
  if (p mod 4 =? 0)%nat then of_le32 <$> load l p 4 else None.
Definition store_u32 (l : list (option Z)) (p : nat) (v : Z) : option (list (option Z)) :=
  if (p mod 4 =? 0)%nat then store l p (le32 v) else None.

(** *** Semaphores (kernel/misc/kernel.c)

    [aos_sem_wait] ends when the semaphore was given or, unless it waits
    forever, when its time is over ([expired]). *)

Definition aos_sem_new (a : nat) (count : Z) : R Z := upd_buf a (set_sem (Some count)) ;; ret 0.
Definition aos_sem_is_valid (b : rpc_buffer_t) : bool := bool_decide (is_Some (b_sem b)).
Definition aos_sem_signal (a : nat) : R unit := b <- get_buf a ;; n <- lift (b_sem b) ;; put_buf a (set_sem (Some (n + 1)) b).
Definition aos_sem_wait (a : nat) (timeout : Z) (expired : bool) : R (option Z) :=
  b <- get_buf a ;; n <- lift (b_sem b) ;;
  if 0 <? n then put_buf a (set_sem (Some (n - 1)) b) ;; ret (Some 0)
  else if expired && negb (timeout =? AOS_WAIT_FOREVER) then ret (Some (-1)) else ret None.

(** ** The functions of rpc.c *)

Definition rpc_buffer_free (a : nat) : R unit :=
  b <- get_buf a ;;
  when (bool_decide (is_Some (b_buffer b))) (put_buf a (set_block None b)) ;;
  b <- get_buf a ;;
  when (aos_sem_is_valid b) (put_buf a (set_sem None b)) ;;
  free_buffer a.

Definition rpc_init (cmd_id timeout_ms : Z) : R (rpc_t * Z) :=
  let rpc := mkRpc None (u32 cmd_id) None in
  if timeout_ms =? 0 then ret (rpc, 0) else
  data <- zalloc_buffer ;;
  match data with
  | None => ret (rpc, - ENOMEM)
  | Some a =>
      upd_buf a (set_timeout timeout_ms) ;;
      rc <- aos_sem_new a 0 ;;
      if rc =? 0 then ret (mkRpc None (u32 cmd_id) (Some a), rc)
      else free_buffer a ;; ret (rpc, rc)
  end.

(** [None]: still waiting. *)
Definition rpc_wait (rpc : rpc_t) (expired : bool) : R (option Z) :=
  match r_data rpc with
  | None => ret (Some 0)
  | Some a =>
      b <- get_buf a ;;
      if aos_sem_is_valid b then aos_sem_wait a (b_timeout b) expired else ret (Some 0)
  end.

(** The loop over [rpc_buffer_gc_cache] runs under the mutex of the task. *)
Definition rpc_deinit (rpc : rpc_t) : R unit :=
  match r_data rpc with
  | None => ret tt
  | Some a =>
      lift (r_srv rpc) ;;
      f <- slist_fuel ;; cur <- get_snext RCache ;;
      cached <- slist_for_each f (fun n =>
        if bool_decide (n = RBuf a) then slist_del (RBuf a) RCache ;; rpc_buffer_free a ;; ret (Some tt) else ret None) cur ;;
      match cached with
      | Some _ => ret tt
      | None => slist_add_tail (RBuf a) RCache
      end
  end.

(** [rpc_reply]: the signal, then [rpc_deinit]. *)
Definition reply_signal (rpc : rpc_t) : R unit :=
  match r_data rpc with
  | None => ret tt
  | Some a => b <- get_buf a ;; when (aos_sem_is_valid b) (aos_sem_signal a)
  end.

Definition rpc_reply (rpc : rpc_t) : R unit :=
  lift (r_srv rpc) ;; reply_signal rpc ;; rpc_deinit rpc.

(** A new block of [size] bytes more; the old values are copied.  The result
    is the offset of the new part. *)
Definition rpc_buffer_need_size (a : nat) (size : Z) : R (option Z) :=
  b <- get_buf a ;;
  t <- count_alloc ;;
  if block_ok t (size + b_size b) then
    old <- lift (match b_buffer b with
                 | Some l => if (Z.to_nat (b_size b) <=? length l)%nat then Some (take (Z.to_nat (b_size b)) l) else None
                 | None => Some (replicate (Z.to_nat (b_size b)) None)
                 end) ;;
    put_buf a (set_size (u16 (b_size b + size)) (set_block (Some (old ++ replicate (Z.to_nat size) None)) b)) ;;
    ret (Some (b_size b))
  else ret None.

Definition rpc_put_reset (rpc : rpc_t) : R unit :=
  match r_data rpc with
  | None => ret tt
  | Some a =>
      b <- get_buf a ;;
      when (bool_decide (is_Some (b_buffer b))) (put_buf a (set_pos 0 (set_size 0 (set_block None b))))
  end.

Definition rpc_get_reset (rpc : rpc_t) : R unit :=
  match r_data rpc with None => ret tt | Some a => upd_buf a (set_pos 0) end.

(** The value [data] with its length; [None]: a NULL pointer. *)
Definition rpc_put_buffer (rpc : rpc_t) (data : option (list Z)) : R (rpc_t * Z) :=
  match data with
  | None | Some [] => ret (rpc, - EINVAL)
  | Some d =>
      let size := Z.of_nat (length d) in
      r <- match r_data rpc with
           | Some a => ret (rpc, Some a)
           | None => o <- zalloc_buffer ;; ret (mkRpc (r_srv rpc) (r_cmd rpc) o, o)
           end ;;
      let '(rpc, o) := r in
      match o with
      | None => ret (rpc, - ENOMEM)
      | Some a =>
          p <- rpc_buffer_need_size a (size + 4) ;;
          match p with
          | None => ret (rpc, - ENOMEM)
          | Some p =>
              b <- get_buf a ;; l <- lift (b_buffer b) ;;
              l1 <- lift (store_u32 l (Z.to_nat p) size) ;;
              l2 <- lift (store l1 (Z.to_nat p + 4) d) ;;
              put_buf a (set_block (Some l2) b) ;;
              ret (rpc, 0)
          end
      end
  end.

Definition rpc_put_int (rpc : rpc_t) (i : Z) : R (rpc_t * Z) := rpc_put_buffer rpc (Some (le32 i)).
Definition rpc_put_uint8 (rpc : rpc_t) (c : Z) : R (rpc_t * Z) := rpc_put_buffer rpc (Some [c]).
Definition rpc_put_point (rpc : rpc_t) (p : Z) : R (rpc_t * Z) := rpc_put_buffer rpc (Some (le32 p)).
(** [text]: the characters before the final zero. *)
Definition rpc_put_string (rpc : rpc_t) (text : list Z) : R (rpc_t * Z) := rpc_put_buffer rpc (Some (text ++ [0])).

(** The offset of the next value and its length; [None] without a buffer. *)
Definition rpc_get_buffer (rpc : rpc_t) : R (option (Z * Z)) :=
  match r_data rpc with
  | None => ret None
  | Some a =>
      b <- get_buf a ;; l <- lift (b_buffer b) ;;
      len <- lift (load_u32 l (Z.to_nat (b_pos b))) ;;
      put_buf a (set_pos (u16 (b_pos b + (4 + i32 len))) b) ;;
      ret (Some (b_pos b + 4, i32 len))
  end.

(** [RPC_GET]: the bytes of the next value, whose length must be [size]; the
    pointer is followed without a check for NULL. *)
Definition rpc_get (rpc : rpc_t) (size : nat) : R (list Z) :=
  r <- rpc_get_buffer rpc ;; p <- lift r ;; a <- lift (r_data rpc) ;;
  if snd p =? Z.of_nat size then
    b <- get_buf a ;; l <- lift (b_buffer b) ;; lift (load l (Z.to_nat (fst p)) size)
  else fault.

Definition rpc_get_int (rpc : rpc_t) : R Z := d <- rpc_get rpc 4 ;; ret (i32 (of_le32 d)).
Definition rpc_get_uint8 (rpc : rpc_t) : R Z := d <- rpc_get rpc 1 ;; ret (of_le32 d).
Definition rpc_get_point (rpc : rpc_t) : R Z := d <- rpc_get rpc 4 ;; ret (of_le32 d).
End Rpc.
