(* ===== verification/RpcBuf.v ===== *)
(** * The values in a call buffer

    [buf_rep b vals idx]: the buffer holds the values [vals], each behind its
    length, and the next [idx]th one is read next.  Putting appends a value,
    getting returns the next one. *)

From S2P Require Import Prelude.
From S2P Require Import Monad.
From S2P Require Import SList.
From S2P Require Import Rpc.

(** ** Blocks *)

Lemma le32_length v : length (le32 v) = 4%nat.
Proof. done. Qed.

Lemma of_le32_le32 v : 0 <= v < 2 ^ 32 -> of_le32 (le32 v) = v.
Proof. intros Hv. unfold of_le32, le32. cbn [foldr].
  change (2 ^ 24) with (2 ^ 8 * (2 ^ 8 * 2 ^ 8)). change (2 ^ 16) with (2 ^ 8 * 2 ^ 8). change (2 ^ 8) with 256. rewrite <- !Z.div_div by lia.
  change (2 ^ 32) with 4294967296 in Hv. Z.to_euclidean_division_equations. lia.
Qed.

Lemma load_some (pre d post : list Z) : load (Some <$> pre ++ d ++ post) (length pre) (length d) = Some d.
Proof.
  unfold load. rewrite length_fmap, !length_app. replace (_ <=? _)%nat with true by (symmetry; apply Nat.leb_le; lia).
  rewrite !fmap_app, drop_app_length', take_app_length' by (by rewrite length_fmap).
  by apply mapM_fmap_Some.
Qed.

Lemma store_tail (pre : list (option Z)) (d : list Z) (k : nat) : (length d <= k)%nat ->
  store (pre ++ replicate k None) (length pre) d = Some (pre ++ (Some <$> d) ++ replicate (k - length d) None).
Proof.
  intros Hk. unfold store. rewrite length_app, length_replicate. replace (_ <=? _)%nat with true by (symmetry; apply Nat.leb_le; lia).
  rewrite take_app_length, drop_app_ge, drop_replicate by lia. do 4 f_equal. lia.
Qed.

(** ** Values *)

Definition frame (d : list Z) : list Z := le32 (Z.of_nat (length d)) ++ d.
Definition frames (vals : list (list Z)) : list Z := concat (frame <$> vals).

Lemma frame_length d : length (frame d) = (4 + length d)%nat.
Proof. unfold frame. by rewrite length_app. Qed.

Lemma frames_app l1 l2 : frames (l1 ++ l2) = frames l1 ++ frames l2.
Proof. unfold frames. by rewrite fmap_app, concat_app. Qed.

Lemma frames_snoc l d : frames (l ++ [d]) = frames l ++ frame d.
Proof. rewrite frames_app. unfold frames at 2. simpl. by rewrite app_nil_r. Qed.

(** Every length is at a multiple of 4. *)
Definition aligned (vals : list (list Z)) : Prop :=
  forall i, (i < length vals)%nat -> (length (frames (take i vals)) mod 4 = 0)%nat.

Record buf_rep (b : rpc_buffer_t) (vals : list (list Z)) (idx : nat) : Prop := mkBufRep {
  br_block : b_buffer b = match vals with [] => None | _ => Some (Some <$> frames vals) end;
  br_size : b_size b = Z.of_nat (length (frames vals));
  br_bound : Z.of_nat (length (frames vals)) < 2 ^ 16;
  br_aligned : aligned vals;
  br_idx : (idx <= length vals)%nat;
  br_pos : b_pos b = Z.of_nat (length (frames (take idx vals)));
}.

Lemma buf_rep_new t sem : buf_rep (mkBuf t None 0 0 sem) [] 0.
Proof. split; try done. intros i Hi. simpl in Hi. lia. Qed.

Lemma buf_rep_frame b b' vals idx : buf_rep b vals idx -> b_buffer b' = b_buffer b -> b_size b' = b_size b -> b_pos b' = b_pos b -> buf_rep b' vals idx.
Proof. intros [] E1 E2 E3. split; try done; congruence. Qed.

Lemma frames_take_le vals i : (length (frames (take i vals)) <= length (frames vals))%nat.
Proof. rewrite <- (take_drop i vals) at 2. rewrite frames_app, length_app. lia. Qed.

Lemma frames_split vals i d : vals !! i = Some d -> frames vals = frames (take i vals) ++ frame d ++ frames (drop (S i) vals).
Proof.
  intros Hi. rewrite <- (take_drop_middle vals i d) at 1 by done. rewrite frames_app. f_equal.
Qed.

(** A value is left exactly when the position is before the end. *)
Lemma value_left b vals idx : buf_rep b vals idx -> b_pos b < b_size b <-> (idx < length vals)%nat.
Proof.
  intros Hr. rewrite (br_pos _ _ _ Hr), (br_size _ _ _ Hr). split; intros Hlt.
  - destruct (decide (idx < length vals)%nat); [done|]. rewrite take_ge in Hlt by lia. lia.
  - destruct (lookup_lt_is_Some_2 vals idx Hlt) as [d Hd]. rewrite (frames_split vals idx d Hd), !length_app, frame_length. lia.
Qed.

Lemma aligned_snoc vals d : aligned vals -> (length (frames vals) mod 4 = 0)%nat -> aligned (vals ++ [d]).
Proof.
  intros Ha Hm i Hi. rewrite length_app in Hi. simpl in Hi. destruct (decide (i < length vals)%nat) as [Hlt|].
  - rewrite take_app_le by lia. by apply Ha.
  - by rewrite take_app_length' by lia.
Qed.

(** ** What the functions do *)

Section Values.
Context `{Allocator} `{Blocks}.
Implicit Types (s : rmem) (b : rpc_buffer_t).

Definition with_buf s a b : rmem := mkRmem (<[a := b]> (m_bufs s)) (m_next s) (m_allocs s).

Lemma wp_get_buf a b Q s : m_bufs s !! a = Some b -> Q b s -> wp (get_buf a) Q s.
Proof. intros Hb HQ. unfold get_buf. by msteps. Qed.

Lemma wp_put_buf a b Q s : is_Some (m_bufs s !! a) -> Q tt (with_buf s a b) -> wp (put_buf a b) Q s.
Proof. intros [b0 Hb] HQ. unfold put_buf. by apply wp_bind, (wp_get_buf a b0). Qed.

Lemma wp_upd_buf a f b Q s : m_bufs s !! a = Some b -> Q tt (with_buf s a (f b)) -> wp (upd_buf a f) Q s.
Proof. intros Hb HQ. unfold upd_buf. apply wp_bind, (wp_get_buf a b); [done|]. by apply wp_put_buf; [eauto|]. Qed.

Lemma with_buf_lookup s a b : m_bufs (with_buf s a b) !! a = Some b.
Proof. apply lookup_insert_eq. Qed.

Lemma with_buf_with s a b b' : with_buf (with_buf s a b) a b' = with_buf s a b'.
Proof. unfold with_buf. simpl. by rewrite insert_insert_eq. Qed.

Definition with_alloc s : rmem := mkRmem (m_bufs s) (m_next s) (S (m_allocs s)).

Lemma wp_count_alloc Q s : Q (m_allocs s) (with_alloc s) -> wp count_alloc Q s.
Proof. done. Qed.

(** The block of a buffer that grows: what it held, and room at its end. *)
Lemma wp_need_size a b vals idx (n : nat) Q s : m_bufs s !! a = Some b -> buf_rep b vals idx ->
  (block_ok (m_allocs s) (Z.of_nat n + b_size b) = false -> Q None (with_alloc s)) ->
  (Q (Some (b_size b)) (with_buf (with_alloc s) a
     (set_size (u16 (b_size b + Z.of_nat n)) (set_block (Some ((Some <$> frames vals) ++ replicate n None)) b)))) ->
  wp (rpc_buffer_need_size a (Z.of_nat n)) Q s.
Proof.
  intros Hb Hr Hno Hok. unfold rpc_buffer_need_size. apply wp_bind, (wp_get_buf a b); [done|]. apply wp_bind, wp_count_alloc.
  destruct (block_ok _ _) eqn:Eok; [|by apply wp_ret, Hno].
  apply wp_bind, (wp_lift _ (Some <$> frames vals)).
  { rewrite (br_block _ _ _ Hr), (br_size _ _ _ Hr), Nat2Z.id. destruct vals as [|v vs]; [done|].
    rewrite length_fmap, Nat.leb_refl. by rewrite take_ge by (by rewrite length_fmap). }
  apply wp_bind, wp_put_buf; [simpl; eauto|]. apply wp_ret. by rewrite Nat2Z.id.
Qed.

(** Putting a value into a buffer. *)
Lemma wp_put_value rpc a b vals idx d Q s : r_data rpc = Some a -> m_bufs s !! a = Some b -> buf_rep b vals idx ->
  d <> [] -> (Z.to_nat (b_size b) mod 4 = 0)%nat -> b_size b + 4 + Z.of_nat (length d) < 2 ^ 16 ->
  (no_block -> Q (rpc, - ENOMEM) (with_alloc s)) ->
  (forall b', buf_rep b' (vals ++ [d]) idx -> b_timeout b' = b_timeout b -> b_sem b' = b_sem b ->
     Q (rpc, 0) (with_buf (with_alloc s) a b')) ->
  wp (rpc_put_buffer rpc (Some d)) Q s.
Proof.
  intros Ha Hb Hr Hd Hal Hsz Hno Hok. unfold rpc_put_buffer. destruct d as [|x d']; [done|]. set (d := x :: d') in *. rewrite Ha.
  apply wp_bind, wp_ret, wp_bind. replace (Z.of_nat (length d) + 4) with (Z.of_nat (4 + length d)) by lia.
  apply (wp_need_size a b vals idx); [done | done | intros Ef; apply wp_ret, Hno; eexists _, _; exact Ef|].
  apply wp_bind. eapply wp_get_buf; [apply with_buf_lookup|]. apply wp_bind, wp_ret. cbn [b_buffer set_size set_block].
  rewrite (br_size _ _ _ Hr), Nat2Z.id in *. set (l := Some <$> frames vals).
  assert (Hl : length (frames vals) = length l) by (unfold l; by rewrite length_fmap). rewrite Hl in *.
  apply wp_bind. eapply wp_lift.
  { unfold store_u32. rewrite Hal. simpl Nat.eqb. apply store_tail. rewrite le32_length. lia. }
  rewrite le32_length. replace (4 + length d - 4)%nat with (length d) by lia. rewrite app_assoc.
  apply wp_bind. eapply wp_lift.
  { replace (length l + 4)%nat with (length (l ++ (Some <$> le32 (Z.of_nat (length d))))) by (by rewrite length_app). by apply store_tail. }
  rewrite Nat.sub_diag, app_nil_r, <- app_assoc, <- fmap_app. fold (frame d). unfold l. rewrite <- fmap_app, <- frames_snoc.
  apply wp_bind, wp_put_buf; [rewrite with_buf_lookup; eauto|]. apply wp_ret. rewrite with_buf_with. apply Hok; [|done|done].
  assert (Hlen : length (frames (vals ++ [d])) = (length (frames vals) + (4 + length d))%nat) by (by rewrite frames_snoc, length_app, frame_length).
  split; cbn [b_buffer b_size b_pos set_block set_size].
  - by destruct vals.
  - fold l. rewrite Hlen, wrap_small by lia. lia.
  - rewrite Hlen. lia.
  - apply aligned_snoc; [apply (br_aligned _ _ _ Hr)|]. by rewrite Hl.
  - rewrite length_app. pose proof (br_idx _ _ _ Hr). lia.
  - rewrite take_app_le by apply (br_idx _ _ _ Hr). apply (br_pos _ _ _ Hr).
Qed.

(** Getting the next value. *)
Lemma wp_get_value rpc a b vals idx d Q s : r_data rpc = Some a -> m_bufs s !! a = Some b -> buf_rep b vals idx -> vals !! idx = Some d ->
  (forall b', buf_rep b' vals (S idx) -> b_timeout b' = b_timeout b -> b_sem b' = b_sem b -> Q d (with_buf s a b')) ->
  wp (rpc_get rpc (length d)) Q s.
Proof.
  intros Ha Hb Hr Hd HQ. pose proof (frames_split _ _ _ Hd) as Hs. pose proof (lookup_lt_Some _ _ _ Hd) as Hlt. pose proof (br_bound _ _ _ Hr) as Hbd.
  assert (Hblk : b_buffer b = Some (Some <$> frames vals)) by (rewrite (br_block _ _ _ Hr); by destruct vals).
  pose proof Hbd as Hbd'. rewrite Hs in Hbd'. rewrite !length_app, frame_length in Hbd'. set (pre := frames (take idx vals)) in *.
  assert (Hi32 : i32 (Z.of_nat (length d)) = Z.of_nat (length d)) by (rewrite sign_small; rewrite wrap_small; lia).
  unfold rpc_get, rpc_get_buffer. rewrite Ha. apply wp_bind, wp_bind, (wp_get_buf a b); [done|]. rewrite Hblk, (br_pos _ _ _ Hr), Nat2Z.id.
  fold pre. apply wp_bind, wp_ret, wp_bind, (wp_lift _ (Z.of_nat (length d))).
  { unfold load_u32. rewrite (br_aligned _ _ _ Hr idx Hlt : (length pre mod 4 = 0)%nat). simpl Nat.eqb. rewrite Hs. unfold frame.
    rewrite <- app_assoc. change 4%nat with (length (le32 (Z.of_nat (length d)))). rewrite load_some. simpl fmap. f_equal. apply of_le32_le32. lia. }
  rewrite Hi32. apply wp_bind, wp_put_buf; [eauto|]. apply wp_ret, wp_bind, wp_ret. apply wp_bind, wp_ret. cbn [fst snd].
  rewrite Z.eqb_refl. apply wp_bind. eapply wp_get_buf; [apply with_buf_lookup|]. cbn [b_buffer set_pos]. rewrite Hblk. apply wp_bind, wp_ret.
  apply (wp_lift _ d).
  { replace (Z.to_nat (Z.of_nat (length pre) + 4)) with (length (pre ++ le32 (Z.of_nat (length d)))) by (rewrite length_app, le32_length; lia).
    rewrite Hs. unfold frame. rewrite <- app_assoc, app_assoc. apply load_some. }
  apply HQ; [|done|done].
  split; cbn [b_buffer b_size b_pos set_pos]; [apply (br_block _ _ _ Hr) | apply (br_size _ _ _ Hr) | done | apply (br_aligned _ _ _ Hr) | lia|].
  rewrite (take_S_r _ _ d Hd), frames_snoc. fold pre. rewrite length_app, frame_length, wrap_small by lia. lia.
Qed.

(** Starting over. *)
Lemma wp_put_reset rpc a b vals idx Q s : r_data rpc = Some a -> m_bufs s !! a = Some b -> buf_rep b vals idx ->
  (forall b', buf_rep b' [] 0 -> b_timeout b' = b_timeout b -> b_sem b' = b_sem b -> Q tt (with_buf s a b')) ->
  wp (rpc_put_reset rpc) Q s.
Proof.
  intros Ha Hb Hr HQ. unfold rpc_put_reset. rewrite Ha. apply wp_bind, (wp_get_buf a b); [done|]. rewrite (br_block _ _ _ Hr).
  destruct vals as [|v vals].
  - rewrite bool_decide_eq_false_2 by (intros [? ?]; done). apply wp_ret. replace s with (with_buf s a b).
    + apply HQ; [|done|done]. pose proof (br_idx _ _ _ Hr) as Hi. simpl in Hi. by replace idx with 0%nat in Hr by lia.
    + unfold with_buf. rewrite insert_id by done. by destruct s.
  - rewrite bool_decide_eq_true_2 by eauto. apply wp_put_buf; [eauto|]. apply HQ; [|done|done]. split; try done. intros i Hi. simpl in Hi. lia.
Qed.

Lemma wp_get_reset rpc a b vals idx Q s : r_data rpc = Some a -> m_bufs s !! a = Some b -> buf_rep b vals idx ->
  (forall b', buf_rep b' vals 0 -> b_timeout b' = b_timeout b -> b_sem b' = b_sem b -> Q tt (with_buf s a b')) ->
  wp (rpc_get_reset rpc) Q s.
Proof.
  intros Ha Hb Hr HQ. unfold rpc_get_reset. rewrite Ha. apply (wp_upd_buf a _ b); [done|]. apply HQ; [|done|done].
  destruct Hr. split; try done. lia.
Qed.
End Values.
