(* ===== verification/RpcSys.v ===== *)
(** * Callers and service task (kernel/uService/uservice.c, utask.c)

    A service task, its queue, and the tasks that call it.  Every [action] is a
    piece of the code of one of them that runs between two points where the
    others can intervene; a schedule is a list of actions.  An action that is
    not possible in a state does nothing.

    A caller prepares a call ([rpc_init], [rpc_put_buffer]), sends it
    ([uservice_call]: attempts at the queue, then [rpc_wait]), reads the values
    that came back if the call returned 0, and ends with [rpc_deinit], as
    [uservice_call_sync] and [uservice_call_async] do.  The service task takes
    a call out of its queue and runs the handler, which reads and puts values;
    [uservice_process] replies when the handler returns, unless the result is
    negative, and then the application replies later. *)

From S2P Require Import Prelude.
From S2P Require Import Monad.
From S2P Require Import SList.
From S2P Require Import Rpc.

(** ** State *)

(** Where a caller is: before [uservice_call], in the loop of
    [uservice_call] with [count] attempts left, in [rpc_wait], after
    [uservice_call] returned the result of [rpc_wait], or -1 because the queue
    was full. *)
Inductive cphase := CPrep | CSend (count : Z) | CWait | CDone (rc : Z) | CFull.
Record client := mkClient { c_rpc : rpc_t; c_phase : cphase }.

(** A call the service has taken: [h_current] while its handler or the reply
    that follows runs, [h_replied] after the signal. *)
Record held := mkHeld { h_rpc : rpc_t; h_current : bool; h_replied : bool }.

(** [q_size]: the bytes of the queue, [q_ring] the calls in it.  While the
    task waits for a call ([q_blocked]), the next one sent is handed to it
    directly, in [q_inbox].  [s_log]: what [uservice_call] logs about a full
    queue, the command sent and the one being handled, [None] when
    [current_rpc] is NULL (the read at address 4 does not trap). *)
Record sys := mkSys {
  s_mem : rmem;
  q_size : Z;
  queue_count : Z;
  q_ring : list rpc_t;
  q_inbox : option rpc_t;
  q_blocked : bool;
  s_clients : list client;
  s_held : list held;
  s_log : list (Z * option Z);
}.

Abbreviation Y := (st sys).

Definition set_mem m s := mkSys m (q_size s) (queue_count s) (q_ring s) (q_inbox s) (q_blocked s) (s_clients s) (s_held s) (s_log s).
Definition set_queue ring inbox blocked s := mkSys (s_mem s) (q_size s) (queue_count s) ring inbox blocked (s_clients s) (s_held s) (s_log s).
Definition set_clients l s := mkSys (s_mem s) (q_size s) (queue_count s) (q_ring s) (q_inbox s) (q_blocked s) l (s_held s) (s_log s).
Definition set_held l s := mkSys (s_mem s) (q_size s) (queue_count s) (q_ring s) (q_inbox s) (q_blocked s) (s_clients s) l (s_log s).
Definition set_log l s := mkSys (s_mem s) (q_size s) (queue_count s) (q_ring s) (q_inbox s) (q_blocked s) (s_clients s) (s_held s) l.

(** A function of rpc.c, called by one of the tasks. *)
Definition on_mem {A} (m : R A) : Y A :=
  fun s => match m (s_mem s) with Some (a, m') => Some (a, set_mem m' s) | None => None end.

Definition sizeof_rpc_t : Z := 12.

(** [utask_new]: a queue of [count] times the size of a call; the number of
    attempts of [uservice_call] is kept in a [uint8_t]. *)
Definition utask_new (count : Z) : sys :=
  mkSys (mkRmem ∅ {[ RCache := None ]} 0) (count * sizeof_rpc_t) (u8 count) [] None false [] [] [].

(** ** The queue *)

(** Every call takes its bytes and one byte for its length in the ring buffer
    of the queue (lemma [ring_room] in SpecRpc.v). *)
Definition ring_has_room (s : sys) : bool :=
  (Z.of_nat (length (q_ring s)) + 1) * (sizeof_rpc_t + 1) <=? q_size s.

Definition aos_queue_send (rpc : rpc_t) : Y bool :=
  s <- gets id ;;
  if q_blocked s then modify (set_queue (q_ring s) (Some rpc) false) ;; ret true
  else if ring_has_room s then modify (set_queue (q_ring s ++ [rpc]) (q_inbox s) false) ;; ret true
  else ret false.

(** [None]: the task waits. *)
Definition aos_queue_recv : Y (option rpc_t) :=
  s <- gets id ;;
  match q_inbox s with
  | Some rpc => modify (set_queue (q_ring s) None false) ;; ret (Some rpc)
  | None =>
      match q_ring s with
      | rpc :: ring => modify (set_queue ring None false) ;; ret (Some rpc)
      | [] => modify (set_queue [] None true) ;; ret None
      end
  end.

(** [current_rpc] *)
Definition current_rpc (s : sys) : option rpc_t := h_rpc <$> head (filter (fun h => h_current h = true) (s_held s)).

(** ** Actions *)

Inductive action :=
  | AInit (cmd timeout : Z)           (* a task starts a call *)
  | APut (i : nat) (v : list Z)       (* caller [i] puts an argument *)
  | ACall (i : nat)                   (* caller [i] calls [uservice_call] *)
  | ATry (i : nat)                    (* one attempt to send *)
  | AWait (i : nat) (expired : bool)  (* [rpc_wait] ends, if it can *)
  | AGet (i : nat) (n : nat)          (* caller [i] gets a result of [n] bytes *)
  | ADeinit (i : nat)
  | STake                             (* the service receives *)
  | SGet (j : nat) (n : nat)          (* the handler of call [j] gets an argument *)
  | SPut (j : nat) (v : list Z)       (* it puts a result *)
  | SPutReset (j : nat)
  | SGetReset (j : nat)
  | SDefer (j : nat)                  (* the handler returned a negative number *)
  | SReply (j : nat)                  (* [rpc_reply]: the signal *)
  | SDeinit (j : nat).                (* [rpc_reply]: the rest *)

(** Result of an action: [OValue] of a get, [OFull] when [uservice_call]
    gives up, [OUnshared] when a handler puts a value into a call without a
    buffer. *)
Inductive out := ONo | ORet (rc : Z) | OValue (v : list Z) | OFull | OUnshared (rc : Z).

Section Sys.
Context `{Allocator} `{Blocks}.

Definition upd_client (i : nat) (c : client) : Y unit := s <- gets id ;; modify (set_clients (<[i := c]> (s_clients s))).
Definition upd_held (j : nat) (h : held) : Y unit := s <- gets id ;; modify (set_held (<[j := h]> (s_held s))).

Definition buffer_of (rpc : rpc_t) (s : sys) : option rpc_buffer_t := a ← r_data rpc; m_bufs (s_mem s) !! a.

(** What the parties keep to: a value is put only while the length of the
    next one is at a multiple of 4 and all values fit into 64 KB, and a value
    is read only when there is one, with its size. *)
Definition may_put (rpc : rpc_t) (v : list Z) (s : sys) : bool :=
  match buffer_of rpc s with
  | Some b => (b_size b mod 4 =? 0) && (b_size b + 4 + Z.of_nat (length v) <? 2 ^ 16)
  | None => 4 + Z.of_nat (length v) <? 2 ^ 16
  end.

Definition may_get (rpc : rpc_t) (n : nat) (s : sys) : bool :=
  match buffer_of rpc s with
  | Some b => (b_pos b <? b_size b) &&
      match b_buffer b with
      | Some l => bool_decide (load_u32 l (Z.to_nat (b_pos b)) = Some (Z.of_nat n))
      | None => false
      end
  | None => false
  end.

(** [uservice_call], one round of its loop. *)
Definition call_round (i : nat) (rpc : rpc_t) (count : Z) : Y out :=
  if count =? 0 then upd_client i (mkClient rpc CFull) ;; ret OFull else
  let count := count - 1 in
  ok <- aos_queue_send rpc ;;
  if ok : bool then upd_client i (mkClient rpc CWait) ;; ret (ORet 0)
  else
    when (count =? 1) (s <- gets id ;; modify (set_log (s_log s ++ [(r_cmd rpc, r_cmd <$> current_rpc s)]))) ;;
    upd_client i (mkClient rpc (CSend count)) ;; ret ONo.

Definition client_act (i : nat) (act : action) (c : client) : Y out :=
  let rpc := c_rpc c in
  s <- gets id ;;
  match act, c_phase c with
  | APut _ v, CPrep =>
      if may_put rpc v s then
        r <- on_mem (rpc_put_buffer rpc (Some v)) ;; upd_client i (mkClient (fst r) CPrep) ;; ret (ORet (snd r))
      else ret ONo
  | ACall _, CPrep =>
      upd_client i (mkClient (mkRpc (Some 0%nat) (r_cmd rpc) (r_data rpc)) (CSend (queue_count s))) ;; ret (ORet 0)
  | ATry _, CSend count => call_round i rpc count
  | AWait _ expired, CWait =>
      r <- on_mem (rpc_wait rpc expired) ;;
      match r with
      | Some rc => upd_client i (mkClient rpc (CDone rc)) ;; ret (ORet rc)
      | None => ret ONo
      end
  | AGet _ n, CDone rc =>
      if (rc =? 0) && bool_decide (is_Some (b ← buffer_of rpc s; b_sem b)) && may_get rpc n s then
        v <- on_mem (rpc_get rpc n) ;; ret (OValue v)
      else ret ONo
  | ADeinit _, CDone _ | ADeinit _, CFull =>
      on_mem (rpc_deinit rpc) ;; modify (set_clients (delete i (s_clients s))) ;; ret (ORet 0)
  | _, _ => ret ONo
  end.

Definition held_act (j : nat) (act : action) (h : held) : Y out :=
  let rpc := h_rpc h in
  s <- gets id ;;
  match act, h_replied h with
  | SGet _ n, false => if may_get rpc n s then v <- on_mem (rpc_get rpc n) ;; ret (OValue v) else ret ONo
  | SPut _ v, false =>
      if may_put rpc v s then
        r <- on_mem (rpc_put_buffer rpc (Some v)) ;; upd_held j (mkHeld (fst r) (h_current h) false) ;;
        ret (match r_data rpc with Some _ => ORet (snd r) | None => OUnshared (snd r) end)
      else ret ONo
  | SPutReset _, false => on_mem (rpc_put_reset rpc) ;; ret (ORet 0)
  | SGetReset _, false => on_mem (rpc_get_reset rpc) ;; ret (ORet 0)
  | SDefer _, false => upd_held j (mkHeld rpc false false) ;; ret (ORet 0)
  | SReply _, false => on_mem (reply_signal rpc) ;; upd_held j (mkHeld rpc (h_current h) true) ;; ret (ORet 0)
  | SDeinit _, true => on_mem (rpc_deinit rpc) ;; modify (set_held (delete j (s_held s))) ;; ret (ORet 0)
  | _, _ => ret ONo
  end.

(** [utask_entry]: the next call, when no handler runs. *)
Definition take_call : Y out :=
  s <- gets id ;;
  match current_rpc s with
  | Some _ => ret ONo
  | None =>
      r <- aos_queue_recv ;;
      match r with
      | Some rpc => modify (fun s => set_held (s_held s ++ [mkHeld rpc true false]) s) ;; ret (ORet (r_cmd rpc))
      | None => ret ONo
      end
  end.

Definition new_call (cmd timeout : Z) : Y out :=
  r <- on_mem (rpc_init cmd timeout) ;;
  when (snd r =? 0) (modify (fun s => set_clients (s_clients s ++ [mkClient (fst r) CPrep]) s)) ;;
  ret (ORet (snd r)).

Definition exec (act : action) : Y out :=
  match act with
  | AInit cmd timeout => new_call cmd timeout
  | APut i _ | ACall i | ATry i | AWait i _ | AGet i _ | ADeinit i =>
      s <- gets id ;; match s_clients s !! i with Some c => client_act i act c | None => ret ONo end
  | STake => take_call
  | SGet j _ | SPut j _ | SPutReset j | SGetReset j | SDefer j | SReply j | SDeinit j =>
      s <- gets id ;; match s_held s !! j with Some h => held_act j act h | None => ret ONo end
  end.

Fixpoint run (acts : list action) : Y (list out) :=
  match acts with
  | [] => ret []
  | act :: acts => o <- exec act ;; os <- run acts ;; ret (o :: os)
  end.
End Sys.
