(* ===== verification/RpcInv.v ===== *)
(** * Who still uses a call buffer

    Every buffer is at one stage of its life, told by the parties that hold a
    copy of its call and by [rpc_buffer_gc_cache].  The functions of rpc.c keep
    the memory well formed. *)

From S2P Require Import Prelude.
From S2P Require Import Monad.
From S2P Require Import SList.
From S2P Require Import Rpc.
From S2P Require Import RpcBuf.
From S2P Require Import RpcSys.

(** ** Memory *)

(** [L]: the buffers in [rpc_buffer_gc_cache]. *)
Record mem_ok (m : rmem) (L : list nat) : Prop := mkMemOk {
  mo_chain : schain (m_next m) RCache (RBuf <$> L);
  mo_nodes : forall a, is_Some (m_next m !! RBuf a) <-> is_Some (m_bufs m !! a);
  mo_values : forall a b, m_bufs m !! a = Some b -> exists vals idx, buf_rep b vals idx;
}.

(** The semaphores of the buffers in memory. *)
Definition sems (m : rmem) (a : nat) : option (option Z) := b_sem <$> m_bufs m !! a.

Lemma mem_ok_nodup m L : mem_ok m L -> NoDup L.
Proof.
  intros Hm. pose proof (schain_nodup _ _ _ (mo_chain _ _ Hm)) as Hnd. apply NoDup_cons in Hnd as [_ Hnd]. by apply NoDup_fmap_1 in Hnd.
Qed.

Lemma mem_ok_in m L a : mem_ok m L -> a ∈ L -> is_Some (m_bufs m !! a).
Proof.
  intros Hm Ha. apply (mo_nodes _ _ Hm). eapply schain_dom; [apply (mo_chain _ _ Hm)|]. apply elem_of_cons. right. by apply list_elem_of_fmap_2.
Qed.

Lemma mem_ok_alloc m L : mem_ok m L -> mem_ok (with_alloc m) L.
Proof. intros []. by split. Qed.

Lemma mem_ok_buf m L a b b' vals idx : mem_ok m L -> m_bufs m !! a = Some b -> buf_rep b' vals idx -> mem_ok (with_buf m a b') L.
Proof.
  intros [Hc Hn Hv] Hb Hr. split; cbn [m_next m_bufs with_buf]; [done|..].
  - intros x. rewrite Hn. destruct (decide (x = a)) as [->|]; [by rewrite lookup_insert_eq, Hb; split; eauto | by rewrite lookup_insert_ne].
  - intros x bx. destruct (decide (x = a)) as [->|]; [rewrite lookup_insert_eq; intros [= <-]; eauto | rewrite lookup_insert_ne by done; apply Hv].
Qed.

Lemma sems_buf m a b x : sems (with_buf m a b) x = if decide (x = a) then Some (b_sem b) else sems m x.
Proof.
  unfold sems. cbn [m_bufs with_buf]. case_decide as E; [rewrite E, lookup_insert_eq | rewrite lookup_insert_ne by done]; done.
Qed.

Lemma sems_same m a b b' x : m_bufs m !! a = Some b -> b_sem b' = b_sem b -> sems (with_buf m a b') x = sems m x.
Proof. intros Hb E. rewrite sems_buf. case_decide as Ex; [|done]. unfold sems. by rewrite Ex, Hb, E. Qed.

Lemma sems_some m a v : sems m a = Some v -> exists b, m_bufs m !! a = Some b /\ b_sem b = v.
Proof. unfold sems. destruct (m_bufs m !! a) as [b|]; [|done]. intros [= <-]. eauto. Qed.

Section Memory.
Context `{Allocator} `{Blocks}.
Implicit Types (m : rmem) (L : list nat).

(** A new buffer. *)
Definition with_new m a : rmem := mkRmem (<[a := mkBuf 0 None 0 0 None]> (m_bufs m)) (<[RBuf a := None]> (m_next m)) (S (m_allocs m)).

Lemma mem_ok_new m L a : mem_ok m L -> m_bufs m !! a = None -> mem_ok (with_new m a) L.
Proof.
  intros Hm Ha. pose proof Hm as [Hc Hn Hv]. split; cbn [m_next m_bufs with_new].
  - apply schain_insert_ne; [|done]. intros Hin. eapply schain_dom in Hin; [|done]. apply Hn in Hin as [? E]. congruence.
  - intros x. destruct (decide (x = a)) as [->|]; [by rewrite !lookup_insert_eq | rewrite !lookup_insert_ne by congruence; apply Hn].
  - intros x b. destruct (decide (x = a)) as [->|]; [|rewrite lookup_insert_ne by done; apply Hv].
    rewrite lookup_insert_eq. intros [= <-]. exists [], 0%nat. apply buf_rep_new.
Qed.

Lemma wp_zalloc_buffer Q m : (no_buffer -> Q None (with_alloc m)) -> (forall a, m_bufs m !! a = None -> Q (Some a) (with_new m a)) -> wp zalloc_buffer Q m.
Proof.
  intros Hno Hok. unfold zalloc_buffer. apply wp_bind, wp_count_alloc, wp_bind, wp_gets. destruct (zalloc _ _) as [a|] eqn:Ez; [|apply wp_ret, Hno; by eexists _, _].
  apply Hok. apply not_elem_of_dom. by apply zalloc_fresh in Ez.
Qed.

Lemma sems_new m a x : sems (with_new m a) x = if decide (x = a) then Some None else sems m x.
Proof.
  unfold sems. cbn [m_bufs with_new]. case_decide as E; [rewrite E, lookup_insert_eq | rewrite lookup_insert_ne by done]; done.
Qed.

(** [rpc_init]: no buffer, or a new one with a semaphore. *)
Lemma wp_rpc_init cmd timeout L Q m : mem_ok m L ->
  (forall rc m', (rc = 0 /\ timeout = 0 \/ rc <> 0 /\ no_buffer) -> mem_ok m' L -> (forall x, sems m' x = sems m x) -> Q (mkRpc None (u32 cmd) None, rc) m') ->
  (forall a b m', mem_ok m' L -> sems m a = None -> (forall x, sems m' x = if decide (x = a) then Some (Some 0) else sems m x) ->
     m_bufs m' !! a = Some b -> buf_rep b [] 0 -> Q (mkRpc None (u32 cmd) (Some a), 0) m') ->
  wp (rpc_init cmd timeout) Q m.
Proof.
  intros Hm K0 K1. unfold rpc_init. destruct (Z.eqb_spec timeout 0); [by apply wp_ret, K0; auto|]. apply wp_bind, wp_zalloc_buffer.
  { intros Hno. apply wp_ret, K0; [by right | by apply mem_ok_alloc | done]. }
  intros a Ha. apply wp_bind. eapply wp_upd_buf; [apply lookup_insert_eq|]. apply wp_bind. unfold aos_sem_new.
  apply wp_bind. eapply wp_upd_buf; [apply with_buf_lookup|]. apply wp_ret. rewrite Z.eqb_refl, with_buf_with. eapply wp_ret, K1.
  - eapply mem_ok_buf; [by apply mem_ok_new | apply lookup_insert_eq | apply buf_rep_new].
  - unfold sems. by rewrite Ha.
  - intros x. rewrite sems_buf. case_decide; [done|]. rewrite sems_new. by case_decide.
  - apply with_buf_lookup.
  - apply buf_rep_new.
Qed.

(** Putting a value that fits: into the buffer of the call, or into a new one. *)
Definition fits m (rpc : rpc_t) (v : list Z) : Prop :=
  match r_data rpc with
  | Some a => exists b, m_bufs m !! a = Some b /\ b_size b mod 4 = 0 /\ b_size b + 4 + Z.of_nat (length v) < 2 ^ 16
  | None => 4 + Z.of_nat (length v) < 2 ^ 16
  end.

Lemma wp_put_there rpc a b v L Q m : mem_ok m L -> r_data rpc = Some a -> m_bufs m !! a = Some b -> v <> [] ->
  b_size b mod 4 = 0 -> b_size b + 4 + Z.of_nat (length v) < 2 ^ 16 ->
  (forall rc m', mem_ok m' L -> (forall x, sems m' x = sems m x) -> Q (rpc, rc) m') ->
  wp (rpc_put_buffer rpc (Some v)) Q m.
Proof.
  intros Hm Ha Hb Hv Hal Hsz HQ. destruct (mo_values _ _ Hm a b Hb) as (vals & idx & Hr). apply (wp_put_value rpc a b vals idx); try done.
  - rewrite (br_size _ _ _ Hr) in *. rewrite Nat2Z.id. apply Nat2Z.inj. by rewrite Nat2Z.inj_mod.
  - intros _. apply HQ; [by apply mem_ok_alloc | done].
  - intros b' Hr' _ Es. apply HQ; [eapply mem_ok_buf; [by apply mem_ok_alloc | done | done]|]. intros x. by apply (sems_same (with_alloc m) a b).
Qed.

Lemma wp_put_any rpc v L Q m : mem_ok m L -> fits m rpc v ->
  (forall rc m', mem_ok m' L -> (forall x, sems m' x = sems m x) -> Q (rpc, rc) m') ->
  (forall a rc m', r_data rpc = None -> mem_ok m' L -> sems m a = None -> (forall x, sems m' x = if decide (x = a) then Some None else sems m x) ->
     Q (mkRpc (r_srv rpc) (r_cmd rpc) (Some a), rc) m') ->
  wp (rpc_put_buffer rpc (Some v)) Q m.
Proof.
  intros Hm Hf Hsame Hnew. destruct v as [|x v']; [by apply wp_ret, Hsame|]. set (v := x :: v') in *. unfold fits in Hf.
  destruct (r_data rpc) as [a|] eqn:Ha.
  { destruct Hf as (b & Hb & Hal & Hsz). by eapply wp_put_there. }
  unfold rpc_put_buffer. fold v. cbv beta iota. rewrite Ha. apply wp_bind, wp_bind, wp_zalloc_buffer.
  { intros _. apply wp_ret, wp_ret. destruct rpc as [srv cmd data]. simpl in Ha. subst data. apply Hsame; [by apply mem_ok_alloc | done]. }
  intros a Hn. apply wp_ret. change (wp (rpc_put_buffer (mkRpc (r_srv rpc) (r_cmd rpc) (Some a)) (Some v)) Q (with_new m a)).
  apply (wp_put_there (mkRpc (r_srv rpc) (r_cmd rpc) (Some a)) a (mkBuf 0 None 0 0 None) v L); try done.
  - by apply mem_ok_new.
  - apply lookup_insert_eq.
  - intros rc m' Hm' Hs. apply Hnew; [done | done | unfold sems; by rewrite Hn|]. intros y. by rewrite Hs, sems_new.
Qed.

(** Reading and starting over. *)
Definition at_value m (rpc : rpc_t) (n : nat) : Prop :=
  exists a b l, r_data rpc = Some a /\ m_bufs m !! a = Some b /\ b_pos b < b_size b /\ b_buffer b = Some l /\ load_u32 l (Z.to_nat (b_pos b)) = Some (Z.of_nat n).

Lemma wp_get_any rpc n L Q m : mem_ok m L -> at_value m rpc n ->
  (forall v m', mem_ok m' L -> (forall x, sems m' x = sems m x) -> Q v m') -> wp (rpc_get rpc n) Q m.
Proof.
  intros Hm (a & b & l & Ha & Hb & Hlt & Hl & Hn) HQ. destruct (mo_values _ _ Hm a b Hb) as (vals & idx & Hr).
  apply (value_left b vals idx Hr) in Hlt. destruct (lookup_lt_is_Some_2 vals idx Hlt) as [d Hd].
  assert (n = length d) as ->.
  { pose proof (frames_split _ _ _ Hd) as Hs. pose proof (br_bound _ _ _ Hr) as Hbd. rewrite Hs in Hbd. rewrite !length_app, frame_length in Hbd.
    assert (l = Some <$> frames vals) as -> by (rewrite (br_block _ _ _ Hr) in Hl; destruct vals; congruence). revert Hn. rewrite (br_pos _ _ _ Hr), Nat2Z.id, Hs.
    unfold load_u32, frame. destruct (_ =? 0)%nat; [|done]. rewrite <- app_assoc. change 4%nat with (length (le32 (Z.of_nat (length d)))).
    rewrite load_some. change (of_le32 <$> Some ?x) with (Some (of_le32 x)). rewrite of_le32_le32 by lia. intros [= E]. lia. }
  apply (wp_get_value rpc a b vals idx d); try done. intros b' Hr' _ Es. apply HQ; [by eapply mem_ok_buf|]. intros x. by apply (sems_same m a b).
Qed.

Lemma wp_reset_any rpc L Q m : mem_ok m L -> (forall a, r_data rpc = Some a -> is_Some (m_bufs m !! a)) ->
  (forall m', mem_ok m' L -> (forall x, sems m' x = sems m x) -> Q tt m') -> wp (rpc_put_reset rpc) Q m /\ wp (rpc_get_reset rpc) Q m.
Proof.
  intros Hm Hin HQ. destruct (r_data rpc) as [a|] eqn:Ha.
  - destruct (Hin a eq_refl) as [b Hb]. destruct (mo_values _ _ Hm a b Hb) as (vals & idx & Hr).
    split; [eapply wp_put_reset | eapply wp_get_reset]; try done; intros b' Hr' _ Es;
      (apply HQ; [by eapply mem_ok_buf | intros x; by apply (sems_same m a b)]).
  - unfold rpc_put_reset, rpc_get_reset. rewrite Ha. split; by apply wp_ret, HQ.
Qed.

(** The semaphore: [reply_signal] and [rpc_wait]. *)
Lemma mem_ok_sem m L a b v : mem_ok m L -> m_bufs m !! a = Some b -> mem_ok (with_buf m a (set_sem v b)) L.
Proof.
  intros Hm Hb. destruct (mo_values _ _ Hm a b Hb) as (vals & idx & Hr). eapply mem_ok_buf; [done | done|]. by apply (buf_rep_frame b).
Qed.

Lemma wp_reply_signal rpc L Q m : mem_ok m L -> (forall a, r_data rpc = Some a -> is_Some (m_bufs m !! a)) ->
  ((forall a n, r_data rpc = Some a -> sems m a <> Some (Some n)) -> Q tt m) ->
  (forall a n m', r_data rpc = Some a -> sems m a = Some (Some n) -> mem_ok m' L ->
     (forall x, sems m' x = if decide (x = a) then Some (Some (n + 1)) else sems m x) -> Q tt m') ->
  wp (reply_signal rpc) Q m.
Proof.
  intros Hm Hin K0 K1. unfold reply_signal. destruct (r_data rpc) as [a|] eqn:Ha; [|by apply wp_ret, K0].
  destruct (Hin a eq_refl) as [b Hb]. apply wp_bind, (wp_get_buf a b); [done|]. unfold aos_sem_is_valid. destruct (b_sem b) as [n|] eqn:En.
  - rewrite bool_decide_eq_true_2 by eauto. unfold when, aos_sem_signal. apply wp_bind, (wp_get_buf a b); [done|]. rewrite En. apply wp_bind, wp_ret.
    apply wp_put_buf; [eauto|]. apply (K1 a n); [done | unfold sems; by rewrite Hb; simpl; rewrite En | by apply mem_ok_sem|].
    intros x. rewrite sems_buf. by case_decide.
  - rewrite bool_decide_eq_false_2 by (by intros [? ?]). apply wp_ret, K0. intros a' n [= <-]. unfold sems. rewrite Hb. simpl. congruence.
Qed.

Lemma wp_rpc_wait rpc expired L Q m : mem_ok m L -> (forall a, r_data rpc = Some a -> is_Some (m_bufs m !! a)) ->
  ((forall a n, r_data rpc = Some a -> sems m a <> Some (Some n)) -> Q (Some 0) m) ->
  (forall a n m', r_data rpc = Some a -> sems m a = Some (Some n) -> 0 < n -> mem_ok m' L ->
     (forall x, sems m' x = if decide (x = a) then Some (Some (n - 1)) else sems m x) -> Q (Some 0) m') ->
  (forall a n, r_data rpc = Some a -> sems m a = Some (Some n) -> n <= 0 -> Q (Some (-1)) m /\ Q None m) ->
  wp (rpc_wait rpc expired) Q m.
Proof.
  intros Hm Hin K0 K1 K2. unfold rpc_wait. destruct (r_data rpc) as [a|] eqn:Ha; [|by apply wp_ret, K0].
  destruct (Hin a eq_refl) as [b Hb]. apply wp_bind, (wp_get_buf a b); [done|]. unfold aos_sem_is_valid. destruct (b_sem b) as [n|] eqn:En.
  - assert (Hs : sems m a = Some (Some n)) by (unfold sems; rewrite Hb; simpl; congruence).
    rewrite bool_decide_eq_true_2 by eauto. unfold aos_sem_wait. apply wp_bind, (wp_get_buf a b); [done|]. rewrite En. apply wp_bind, wp_ret.
    destruct (Z.ltb_spec 0 n); [|destruct (K2 a n) as [Hx Hy]; [done|done|done|]; by destruct (_ && _); apply wp_ret].
    apply wp_bind, wp_put_buf; [eauto|]. apply wp_ret, (K1 a n); [done | done | done | by apply mem_ok_sem|].
    intros x. rewrite sems_buf. by case_decide.
  - rewrite bool_decide_eq_false_2 by (by intros [? ?]). apply wp_ret, K0. intros a' n [= <-]. unfold sems. rewrite Hb. simpl. congruence.
Qed.

(** [rpc_buffer_free] takes the buffer out of memory. *)
Definition without m a : rmem := mkRmem (delete a (m_bufs m)) (delete (RBuf a) (m_next m)) (m_allocs m).

Lemma wp_rpc_buffer_free a b Q m : m_bufs m !! a = Some b -> Q tt (without m a) -> wp (rpc_buffer_free a) Q m.
Proof.
  intros Hb HQ. unfold rpc_buffer_free. apply wp_bind, (wp_get_buf a b); [done|].
  assert (Hfree : forall m' b', m_bufs m' !! a = Some b' -> without m' a = without m a -> wp (free_buffer a) Q m').
  { intros m' b' Hb' E. unfold free_buffer. apply wp_bind, (wp_get_buf a b'); [done|]. unfold without in E. unfold wp, modify. by rewrite E. }
  assert (Hwo : forall m' b', without (with_buf m' a b') a = without m' a).
  { intros m' b'. unfold without, with_buf. simpl. by rewrite delete_insert_eq. }
  assert (Hsem : forall m' b', m_bufs m' !! a = Some b' -> without m' a = without m a ->
    wp (b <- get_buf a ;; when (aos_sem_is_valid b) (put_buf a (set_sem None b)) ;; free_buffer a) Q m').
  { intros m' b' Hb' E. apply wp_bind, (wp_get_buf a b'); [done|]. apply wp_bind. unfold when. destruct (aos_sem_is_valid b').
    - apply wp_put_buf; [eauto|]. eapply Hfree; [apply with_buf_lookup | by rewrite Hwo].
    - apply wp_ret. by eapply Hfree. }
  apply wp_bind. unfold when at 1. case_bool_decide.
  - apply wp_put_buf; [eauto|]. eapply Hsem; [apply with_buf_lookup | by rewrite Hwo].
  - apply wp_ret. by eapply Hsem.
Qed.

Lemma mem_ok_without m L1 a L2 nx : mem_ok m (L1 ++ a :: L2) -> schain nx RCache (RBuf <$> L1 ++ L2) ->
  dom nx = dom (m_next m) -> mem_ok (without (with_slinks nx m) a) (L1 ++ L2).
Proof.
  intros Hm Hc Hd. pose proof (mem_ok_nodup _ _ Hm) as Hnd. split; cbn [m_next m_bufs without with_slinks rmem_links].
  - apply (schain_same nx); [|done]. intros n Hn. rewrite lookup_delete_ne; [done|]. intros <-.
    apply elem_of_cons in Hn as [?|Hn]; [done|]. apply list_elem_of_fmap in Hn as (x & [= <-] & Hx).
    apply NoDup_app in Hnd as (_ & Hn1 & Hn2). apply NoDup_cons in Hn2 as [Hn2 _].
    apply elem_of_app in Hx as [Hx|Hx]; [|done]. apply (Hn1 a Hx), elem_of_cons. by left.
  - intros x. destruct (decide (x = a)) as [->|]; [by rewrite !lookup_delete_eq; split; intros [? ?]|].
    rewrite !lookup_delete_ne by congruence. rewrite <- (mo_nodes _ _ Hm), <- !elem_of_dom. by rewrite Hd.
  - intros x b. destruct (decide (x = a)) as [->|]; [by rewrite lookup_delete_eq|]. rewrite lookup_delete_ne by done. apply (mo_values _ _ Hm).
Qed.

Lemma sems_without m a x nx : sems (without (with_slinks nx m) a) x = if decide (x = a) then None else sems m x.
Proof.
  unfold sems. cbn [m_bufs without with_slinks rmem_links]. case_decide as E; [by rewrite E, lookup_delete_eq | by rewrite lookup_delete_ne].
Qed.

(** [rpc_deinit]: the first one puts the buffer into the list, the second one
    frees it. *)
Lemma wp_rpc_deinit rpc L Q m : mem_ok m L -> (forall a, r_data rpc = Some a -> is_Some (m_bufs m !! a) /\ is_Some (r_srv rpc)) ->
  (r_data rpc = None -> Q tt m) ->
  (forall a m', r_data rpc = Some a -> a ∉ L -> mem_ok m' (L ++ [a]) -> (forall x, sems m' x = sems m x) -> Q tt m') ->
  (forall a L1 L2 m', r_data rpc = Some a -> L = L1 ++ a :: L2 -> mem_ok m' (L1 ++ L2) ->
     (forall x, sems m' x = if decide (x = a) then None else sems m x) -> Q tt m') ->
  wp (rpc_deinit rpc) Q m.
Proof.
  intros Hm Hin K0 K1 K2. unfold rpc_deinit. destruct (r_data rpc) as [a|]; [|by apply wp_ret, K0].
  destruct (Hin a eq_refl) as [[b Hb] [srv ->]]. apply wp_bind, wp_ret, wp_bind. unfold slist_fuel. apply wp_bind, wp_gets, wp_ret.
  pose proof (mo_chain _ _ Hm) as Hc. pose proof (schain_length _ _ _ Hc) as Hlen. rewrite length_fmap in Hlen.
  apply wp_bind. eapply wp_get_snext; [by apply (schain_head _ _ (RBuf <$> L))|]. apply wp_bind.
  destruct (decide (a ∈ L)) as [Ha|Ha].
  - apply list_elem_of_split in Ha as (L1 & L2 & ->). pose proof (mem_ok_nodup _ _ Hm) as Hnd.
    rewrite fmap_app, fmap_cons in *. rewrite length_app in Hlen.
    apply (wp_for_each_stop _ RCache); [done | rewrite length_fmap; cbn [slinks_of rmem_links]; lia | |].
    + intros x Hx. rewrite bool_decide_eq_false_2; [by apply wp_ret|]. intros ->. apply list_elem_of_fmap in Hx as (y & [= <-] & Hy).
      apply NoDup_app in Hnd as (_ & Hnd & _). apply (Hnd a Hy), elem_of_cons. by left.
    + rewrite bool_decide_eq_true_2 by done. apply wp_bind. eapply wp_slist_del_in; [done|]. intros m' Hc' [_ Hd].
      apply wp_bind. eapply wp_rpc_buffer_free; [done|]. apply wp_ret. split; [eauto|]. apply wp_ret.
      eapply K2; [done | done | apply mem_ok_without; [done | by rewrite fmap_app | done] | intros x; apply sems_without].
  - apply (wp_for_each_read _ (fun _ => None) RCache); [done | rewrite length_fmap; cbn [slinks_of rmem_links]; lia | |].
    { intros x Hx. rewrite bool_decide_eq_false_2; [by apply wp_ret|]. intros ->. apply list_elem_of_fmap in Hx as (y & [= <-] & Hy). done. }
    replace (first_some _ _) with (@None unit) by (clear; induction L; done).
    eapply wp_slist_add_tail; [done | by apply (mo_nodes _ _ Hm); eauto | |].
    { intros Hx. apply elem_of_cons in Hx as [?|Hx]; [done|]. apply list_elem_of_fmap in Hx as (y & [= <-] & Hy). done. }
    intros m' Hc' [_ Hd]. apply (K1 a); [done | done | | done]. destruct Hm as [_ Hn Hv].
    split; cbn [m_next m_bufs with_slinks rmem_links]; [by rewrite fmap_app | | done].
    intros x. rewrite <- Hn, <- !elem_of_dom. by rewrite Hd.
Qed.
End Memory.

(** * The life of a call buffer

    For every address, how many callers and copies of calls refer to it, and
    the stages a buffer goes through.  Every action of a schedule takes a buffer
    from one stage to another. *)

(** ** Counting *)

(** Callers before and after the call was sent, those that gave up, and those
    that got the reply; copies in the queue or with the service, and those
    without a reply yet. *)
Inductive kind := KPre | KPost | KFull | KGot | KMsg | KNew.

Definition has (a : nat) (rpc : rpc_t) : bool := bool_decide (r_data rpc = Some a).

Definition phase_weight (k : kind) (p : cphase) : nat :=
  match k, p with
  | KPre, CPrep | KPre, CSend _ | KPost, CWait | KPost, CDone _ | KFull, CFull => 1
  | KGot, CDone rc => if rc =? 0 then 1 else 0
  | _, _ => 0
  end.

Definition cw (a : nat) (k : kind) (c : client) : nat := if has a (c_rpc c) then phase_weight k (c_phase c) else 0.
Definition mw (a : nat) (k : kind) (rpc : rpc_t) : nat := if has a rpc then match k with KMsg | KNew => 1 | _ => 0 end else 0.
Definition hw (a : nat) (k : kind) (h : held) : nat :=
  if has a (h_rpc h) then match k with KMsg => 1 | KNew => if h_replied h then 0 else 1 | _ => 0 end else 0.

Definition msgs (s : sys) : list rpc_t := option_list (q_inbox s) ++ q_ring s.

Definition tally (s : sys) (a : nat) (k : kind) : nat :=
  (sum_list_with (cw a k) (s_clients s) + sum_list_with (mw a k) (msgs s) + sum_list_with (hw a k) (s_held s))%nat.

Section Sums.
Context {A : Type} (f : A -> nat).
Implicit Types l : list A.

Lemma sum_upd l i x y : l !! i = Some x -> (sum_list_with f (<[i := y]> l) + f x = sum_list_with f l + f y)%nat.
Proof.
  intros Hx. rewrite <- (take_drop_middle l i x Hx) at 2. rewrite insert_take_drop by (by eapply lookup_lt_Some).
  rewrite !sum_list_with_app. simpl. lia.
Qed.

Lemma sum_del l i x : l !! i = Some x -> (sum_list_with f (delete i l) + f x = sum_list_with f l)%nat.
Proof.
  intros Hx. rewrite <- (take_drop_middle l i x Hx) at 2. rewrite delete_take_drop, !sum_list_with_app. simpl. lia.
Qed.

Lemma sum_ge l i x : l !! i = Some x -> (f x <= sum_list_with f l)%nat.
Proof. intros Hx. pose proof (sum_del l i x Hx). lia. Qed.

Lemma sum_snoc l x : (sum_list_with f (l ++ [x]) = sum_list_with f l + f x)%nat.
Proof. rewrite sum_list_with_app. simpl. lia. Qed.
End Sums.

Lemma Forall_delete_at {A} (P : A -> Prop) i (l : list A) : Forall P l -> Forall P (delete i l).
Proof. intros Hl. rewrite delete_take_drop. apply Forall_app. split; [by apply Forall_take | by apply Forall_drop]. Qed.

(** ** Stages *)

(** Prepared by its caller; then two of three things hold: the caller still
    uses it, the service (or the queue) has a copy, it is in the list of the
    task.  A lost buffer: the caller gave up, or the service put it into a call
    that came without one, or it stays in the list. *)
Inductive stage (ok : bool) (pre post full msg gc : nat) : Prop :=
  | stage_prep : (pre = 1 -> post + full + msg + gc = 0 -> stage ok pre post full msg gc)%nat
  | stage_shared : (pre + full = 0 -> post <= 1 -> msg <= 1 -> gc <= 1 -> post + msg + gc = 2 -> stage ok pre post full msg gc)%nat
  | stage_lost : (ok = false -> pre + post = 0 -> full + msg + gc = 1 -> stage ok pre post full msg gc)%nat.

(** Of a valid semaphore: it was given once, when the reply was sent, and the
    caller takes it once. *)
Definition row (ok : bool) (sem : option (option Z)) (gc : nat) (t : kind -> nat) : Prop :=
  match sem with
  | None => gc = 0%nat /\ forall k, t k = 0%nat
  | Some v => stage ok (t KPre) (t KPost) (t KFull) (t KMsg) gc /\
      match v with
      | Some n => 0 <= n /\ (t KPre = 1%nat -> n = 0 /\ t KNew = 0%nat) /\ (t KPost = 1%nat -> n + Z.of_nat (t KGot) + Z.of_nat (t KNew) = 1)
      | None => True
      end
  end.

Lemma row_ext ok sem gc t t' : row ok sem gc t -> (forall k, t' k = t k) -> row ok sem gc t'.
Proof.
  intros Hr E. destruct sem as [v|]; cbn [row] in *; [by rewrite !E|]. destruct Hr as [? Hz]. split; [done|]. intros k. by rewrite E.
Qed.

Lemma row_weaken ok ok' sem gc t : row ok sem gc t -> (ok' = true -> ok = true) -> row ok' sem gc t.
Proof.
  intros Hr Hi. destruct sem as [v|]; cbn [row] in *; [|done]. destruct Hr as (Hs & Hrest). split; [|done].
  destruct Hs; [by apply stage_prep | by apply stage_shared | apply stage_lost; [|done|done]]. destruct ok', ok; naive_solver.
Qed.

(** Of those after the call some got the reply, of the copies some have none. *)
Definition sane (t : kind -> nat) : Prop := (t KGot <= t KPost /\ t KNew <= t KMsg)%nat.

Lemma sum_mono {A} (f g : A -> nat) l : (forall x, f x <= g x)%nat -> (sum_list_with f l <= sum_list_with g l)%nat.
Proof. intros Hfg. induction l as [|x l IH]; simpl; [lia|]. specialize (Hfg x). lia. Qed.

Lemma tally_sane s a : sane (tally s a).
Proof.
  unfold sane, tally. split; (apply Nat.add_le_mono; [apply Nat.add_le_mono|]; apply sum_mono; intros x).
  - unfold cw. destruct (has _ _); [|done]. destruct (c_phase x); simpl; try lia. destruct (_ =? _); lia.
  - unfold mw. destruct (has _ _); lia.
  - unfold hw. destruct (has _ _); lia.
  - unfold cw. destruct (has _ _); [|done]. destruct (c_phase x); simpl; lia.
  - unfold mw. destruct (has _ _); lia.
  - unfold hw. destruct (has _ _), (h_replied x); lia.
Qed.

(** The new counts of one address, from its old row [Hr] and the change [D] of
    the counts. *)
Ltac stage_solve :=
  first [ exfalso; lia | apply stage_prep; lia | apply stage_shared; lia | apply stage_lost; [done | lia | lia] ].
Ltac tally_solve Hr D :=
  pose proof (D KPre); pose proof (D KPost); pose proof (D KFull); pose proof (D KGot); pose proof (D KMsg); pose proof (D KNew); clear D;
  unfold sane in *; cbn [row phase_weight c_phase c_rpc h_replied h_rpc fst Z.eqb] in *;
  lazymatch type of Hr with
  | stage _ _ _ _ _ _ /\ _ => let Hs := fresh in let Hv := fresh in
      destruct Hr as (Hs & Hv); destruct Hs; try (exfalso; lia)
  | _ => let Hz := fresh in destruct Hr as [Hr Hz];
      pose proof (Hz KPre); pose proof (Hz KPost); pose proof (Hz KFull); pose proof (Hz KGot); pose proof (Hz KMsg); pose proof (Hz KNew); clear Hz;
      try (exfalso; lia)
  end;
  split_and?; try stage_solve; try (intros []; lia); try lia.

Definition in_list (L : list nat) (a : nat) : nat := if decide (a ∈ L) then 1 else 0.

Record inv (ok : bool) (s : sys) (L : list nat) : Prop := mkInv {
  iv_mem : mem_ok (s_mem s) L;
  iv_row : forall a, row ok (sems (s_mem s) a) (in_list L a) (tally s a);
  iv_clients : Forall (fun c => c_phase c <> CPrep -> is_Some (r_srv (c_rpc c))) (s_clients s);
  iv_msgs : Forall (fun r => is_Some (r_srv r)) (msgs s);
  iv_held : Forall (fun h => is_Some (r_srv (h_rpc h))) (s_held s);
  iv_inbox : q_blocked s = true -> q_inbox s = None;
}.

Lemma inv_weaken ok ok' s L : inv ok s L -> (ok' = true -> ok = true) -> inv ok' s L.
Proof. intros [] Hi. split; try done. intros a. by eapply row_weaken. Qed.

Lemma inv_start count : inv true (utask_new count) [].
Proof.
  split; try by constructor. cbn [s_mem utask_new]. split; cbn [m_next m_bufs].
  - done.
  - intros a. rewrite lookup_singleton_ne, lookup_empty by done. split; by intros [? ?].
  - intros a b. by rewrite lookup_empty.
Qed.

(** A caller or copy that counts has its buffer in memory. *)
Lemma inv_in ok s L a k : inv ok s L -> (0 < tally s a k)%nat -> is_Some (m_bufs (s_mem s) !! a).
Proof.
  intros Hi Hk. pose proof (iv_row _ _ _ Hi a) as Hr. unfold sems in Hr. destruct (m_bufs (s_mem s) !! a); [eauto|].
  destruct Hr as [_ Hz]. specialize (Hz k). lia.
Qed.

Lemma client_in ok s L i c a : inv ok s L -> s_clients s !! i = Some c -> r_data (c_rpc c) = Some a -> is_Some (m_bufs (s_mem s) !! a).
Proof.
  intros Hi Hc Ha. set (k := match c_phase c with CPrep | CSend _ => KPre | CWait | CDone _ => KPost | CFull => KFull end).
  apply (inv_in ok s L a k Hi). pose proof (sum_ge (cw a k) _ _ _ Hc) as Hge. unfold tally.
  assert (cw a k c = 1%nat) by (unfold cw, has; rewrite Ha, bool_decide_eq_true_2 by done; unfold k; by destruct (c_phase c)). lia.
Qed.

Lemma held_in ok s L j h a : inv ok s L -> s_held s !! j = Some h -> r_data (h_rpc h) = Some a -> is_Some (m_bufs (s_mem s) !! a).
Proof.
  intros Hi Hh Ha. apply (inv_in ok s L a KMsg Hi). pose proof (sum_ge (hw a KMsg) _ _ _ Hh) as Hge. unfold tally.
  assert (hw a KMsg h = 1%nat) by (unfold hw, has; by rewrite Ha, bool_decide_eq_true_2). lia.
Qed.
