(* ===== verification/RpcExec.v ===== *)
(** * Schedules keep the buffers in order *)

From S2P Require Import Prelude.
From S2P Require Import Monad.
From S2P Require Import SList.
From S2P Require Import Rpc.
From S2P Require Import RpcBuf.
From S2P Require Import RpcSys.
From S2P Require Import RpcInv.

(** ** Changes of the parties *)

Section Changes.
Implicit Types (s : sys) (L : list nat) (m : rmem).

Lemma set_mem_same s : set_mem (s_mem s) s = s.
Proof. by destruct s. Qed.

(** What has to be shown of every address when the weight of one party goes
    from [w] to [w']. *)
Definition rows ok ok' s L m' L' (w w' : nat -> kind -> nat) : Prop :=
  forall a t, (forall k, t k + w a k = tally s a k + w' a k)%nat -> sane t -> sane (tally s a) ->
    row ok (sems (s_mem s) a) (in_list L a) (tally s a) -> row ok' (sems m' a) (in_list L' a) t.

(** Only the address [a0] is concerned. *)
Lemma rows_at ok ok' s L m' L' w w' (a0 : nat) : (ok' = true -> ok = true) ->
  (forall a, a <> a0 -> sems m' a = sems (s_mem s) a /\ in_list L' a = in_list L a /\ forall k, w a k = w' a k) ->
  (forall t, (forall k, t k + w a0 k = tally s a0 k + w' a0 k)%nat -> sane t -> sane (tally s a0) ->
    row ok (sems (s_mem s) a0) (in_list L a0) (tally s a0) -> row ok' (sems m' a0) (in_list L' a0) t) ->
  rows ok ok' s L m' L' w w'.
Proof.
  intros Hok Hne Heq a t D Ht Ht0 Hr. destruct (decide (a = a0)) as [->|Ha]; [by apply Heq|]. destruct (Hne a Ha) as (-> & -> & Hw).
  eapply row_weaken; [|done]. eapply row_ext; [done|]. intros k. specialize (D k). rewrite Hw in D. lia.
Qed.

(** No address is concerned. *)
Lemma rows_none ok s L m' w w' : (forall a, sems m' a = sems (s_mem s) a) -> (forall a k, w a k = w' a k) -> rows ok ok s L m' L w w'.
Proof.
  intros Hs Hw a t D _ _ Hr. rewrite Hs. eapply row_ext; [done|]. intros k. specialize (D k). rewrite Hw in D. lia.
Qed.

Lemma inv_upd_client ok ok' s L i c c' m' L' : inv ok s L -> s_clients s !! i = Some c -> mem_ok m' L' ->
  (c_phase c' <> CPrep -> is_Some (r_srv (c_rpc c'))) -> rows ok ok' s L m' L' (fun a k => cw a k c) (fun a k => cw a k c') ->
  inv ok' (set_clients (<[i := c']> (s_clients s)) (set_mem m' s)) L'.
Proof.
  intros [Hm Hr Hc Hq Hh Hb] Hi Hm' Hsrv Hrow. split; try done.
  - intros a. apply (Hrow a); [|apply tally_sane | apply tally_sane | apply Hr]. intros k. unfold tally. cbn [s_clients set_clients s_held msgs q_inbox q_ring set_mem].
    pose proof (sum_upd (cw a k) _ _ _ c' Hi). unfold msgs. cbn [q_inbox q_ring set_clients set_mem]. lia.
  - cbn [s_clients set_clients]. by apply Forall_insert.
Qed.

Lemma inv_del_client ok ok' s L i c m' L' : inv ok s L -> s_clients s !! i = Some c -> mem_ok m' L' ->
  rows ok ok' s L m' L' (fun a k => cw a k c) (fun _ _ => 0%nat) -> inv ok' (set_clients (delete i (s_clients s)) (set_mem m' s)) L'.
Proof.
  intros [Hm Hr Hc Hq Hh Hb] Hi Hm' Hrow. split; try done.
  - intros a. apply (Hrow a); [|apply tally_sane | apply tally_sane | apply Hr]. intros k. unfold tally, msgs. cbn [s_clients set_clients s_held q_inbox q_ring set_mem].
    pose proof (sum_del (cw a k) _ _ _ Hi). lia.
  - cbn [s_clients set_clients]. by apply Forall_delete_at.
Qed.

Lemma inv_new_client ok ok' s L c m' L' : inv ok s L -> mem_ok m' L' -> c_phase c = CPrep ->
  rows ok ok' s L m' L' (fun _ _ => 0%nat) (fun a k => cw a k c) -> inv ok' (set_clients (s_clients s ++ [c]) (set_mem m' s)) L'.
Proof.
  intros [Hm Hr Hc Hq Hh Hb] Hm' Hp Hrow. split; try done.
  - intros a. apply (Hrow a); [|apply tally_sane | apply tally_sane | apply Hr]. intros k. unfold tally, msgs. cbn [s_clients set_clients s_held q_inbox q_ring set_mem].
    rewrite sum_snoc. lia.
  - cbn [s_clients set_clients]. apply Forall_app. split; [done|]. by repeat constructor.
Qed.

Lemma inv_upd_held ok ok' s L j h h' m' L' : inv ok s L -> s_held s !! j = Some h -> mem_ok m' L' -> r_srv (h_rpc h') = r_srv (h_rpc h) ->
  rows ok ok' s L m' L' (fun a k => hw a k h) (fun a k => hw a k h') -> inv ok' (set_held (<[j := h']> (s_held s)) (set_mem m' s)) L'.
Proof.
  intros [Hm Hr Hc Hq Hh Hb] Hj Hm' Hsrv Hrow. split; try done.
  - intros a. apply (Hrow a); [|apply tally_sane | apply tally_sane | apply Hr]. intros k. unfold tally, msgs. cbn [s_clients set_held s_held q_inbox q_ring set_mem].
    pose proof (sum_upd (hw a k) _ _ _ h' Hj). lia.
  - cbn [s_held set_held]. apply Forall_insert; [done|]. rewrite Hsrv. by apply (Forall_lookup_1 _ _ _ _ Hh Hj).
Qed.

Lemma inv_del_held ok ok' s L j h m' L' : inv ok s L -> s_held s !! j = Some h -> mem_ok m' L' ->
  rows ok ok' s L m' L' (fun a k => hw a k h) (fun _ _ => 0%nat) -> inv ok' (set_held (delete j (s_held s)) (set_mem m' s)) L'.
Proof.
  intros [Hm Hr Hc Hq Hh Hb] Hj Hm' Hrow. split; try done.
  - intros a. apply (Hrow a); [|apply tally_sane | apply tally_sane | apply Hr]. intros k. unfold tally, msgs. cbn [s_clients set_held s_held q_inbox q_ring set_mem].
    pose proof (sum_del (hw a k) _ _ _ Hj). lia.
  - cbn [s_held set_held]. by apply Forall_delete_at.
Qed.

(** Without a change of memory. *)
Lemma inv_move_client ok ok' s L i c c' : inv ok s L -> s_clients s !! i = Some c -> (c_phase c' <> CPrep -> is_Some (r_srv (c_rpc c'))) ->
  rows ok ok' s L (s_mem s) L (fun a k => cw a k c) (fun a k => cw a k c') -> inv ok' (set_clients (<[i := c']> (s_clients s)) s) L.
Proof.
  intros Hi Hc Hs Hr. pose proof (inv_upd_client ok ok' s L i c c' (s_mem s) L Hi Hc (iv_mem _ _ _ Hi) Hs Hr) as Hx. by rewrite set_mem_same in Hx.
Qed.

Lemma inv_move_held ok ok' s L j h h' : inv ok s L -> s_held s !! j = Some h -> r_srv (h_rpc h') = r_srv (h_rpc h) ->
  rows ok ok' s L (s_mem s) L (fun a k => hw a k h) (fun a k => hw a k h') -> inv ok' (set_held (<[j := h']> (s_held s)) s) L.
Proof.
  intros Hi Hh Hs Hr. pose proof (inv_upd_held ok ok' s L j h h' (s_mem s) L Hi Hh (iv_mem _ _ _ Hi) Hs Hr) as Hx. by rewrite set_mem_same in Hx.
Qed.

(** Values are read and put without a change of hands. *)
Lemma inv_values ok s L m' : inv ok s L -> mem_ok m' L -> (forall a, sems m' a = sems (s_mem s) a) -> inv ok (set_mem m' s) L.
Proof. intros [Hm Hr Hc Hq Hh Hb] Hm' Hs. split; try done. intros a. cbn [s_mem set_mem]. rewrite Hs. apply Hr. Qed.

(** A call goes into the queue, and out of it. *)
Lemma inv_sent ok s L i c ring inbox : inv ok s L -> s_clients s !! i = Some c -> c_phase c <> CPrep -> phase_weight KPre (c_phase c) = 1%nat ->
  (forall f, sum_list_with f (option_list inbox ++ ring) = sum_list_with f (msgs s) + f (c_rpc c))%nat ->
  (Forall (fun r => is_Some (r_srv r)) (msgs s ++ [c_rpc c]) -> Forall (fun r => is_Some (r_srv r)) (option_list inbox ++ ring)) ->
  inv ok (set_clients (<[i := mkClient (c_rpc c) CWait]> (s_clients s)) (set_queue ring inbox false s)) L.
Proof.
  intros [Hm Hr Hc Hq Hh Hb] Hi Hp Hpre Hsum Hfor. assert (Hsrv : is_Some (r_srv (c_rpc c))) by (by apply (Forall_lookup_1 _ _ _ _ Hc Hi)).
  split; cbn [s_mem set_clients set_queue s_clients s_held]; try done.
  - intros a. specialize (Hr a). set (t := tally _ a). assert (Ht : sane t) by apply tally_sane. pose proof (tally_sane s a) as Ht0.
    assert (D : forall k, (t k + cw a k c = tally s a k + (cw a k (mkClient (c_rpc c) CWait) + mw a k (c_rpc c)))%nat).
    { intros k. unfold t, tally, msgs at 1. cbn [s_clients set_clients set_queue s_held q_inbox q_ring]. rewrite Hsum.
      pose proof (sum_upd (cw a k) _ _ _ (mkClient (c_rpc c) CWait) Hi). lia. }
    clearbody t. clear Hsum Hfor. unfold cw, mw in D. cbn [c_rpc c_phase] in D. destruct (has a (c_rpc c)); [|eapply row_ext; [done | intros k; specialize (D k); lia]].
    assert (Hz : forall k, phase_weight k (c_phase c) = match k with KPre => 1%nat | _ => 0%nat end).
    { intros k. destruct (c_phase c), k; try done; simpl in Hpre; lia. }
    assert (D' : forall k, (t k + match k with KPre => 1 | _ => 0 end = tally s a k + (phase_weight k CWait + match k with KMsg | KNew => 1 | _ => 0 end))%nat).
    { intros k. rewrite <- Hz. apply D. }
    clear D Hz. destruct (sems (s_mem s) a) as [[n|]|]; tally_solve Hr D'.
  - by apply Forall_insert.
  - apply Hfor. apply Forall_app. split; [done|]. by repeat constructor.
Qed.

Lemma inv_taken ok s L rpc ring : inv ok s L ->
  (forall f, sum_list_with f (msgs s) = sum_list_with f ring + f rpc)%nat ->
  (Forall (fun r => is_Some (r_srv r)) (msgs s) -> is_Some (r_srv rpc) /\ Forall (fun r => is_Some (r_srv r)) ring) ->
  inv ok (set_held (s_held s ++ [mkHeld rpc true false]) (set_queue ring None false s)) L.
Proof.
  intros [Hm Hr Hc Hq Hh Hb] Hsum Hfor. destruct (Hfor Hq) as [Hsrv Hq']. split; cbn [s_mem set_held set_queue s_clients s_held]; try done.
  - intros a. eapply row_ext; [apply Hr|]. intros k. unfold tally, msgs at 1. cbn [s_clients set_held set_queue s_held q_inbox q_ring option_list app].
    rewrite sum_snoc, Hsum. change (option_list None ++ ring) with ring. assert (hw a k (mkHeld rpc true false) = mw a k rpc) by (unfold hw, mw; simpl; by destruct (has a rpc), k). lia.
  - apply Forall_app. split; [done|]. by repeat constructor.
Qed.

(** Nothing but [q_blocked] and the log changes. *)
Lemma inv_same ok s s' L : inv ok s L -> s_mem s' = s_mem s -> s_clients s' = s_clients s -> s_held s' = s_held s -> msgs s' = msgs s ->
  (q_blocked s' = true -> q_inbox s' = None) -> inv ok s' L.
Proof.
  intros [Hm Hr Hc Hq Hh Hb] Em Ec Eh Eq Eb. split; rewrite ?Em, ?Ec, ?Eh, ?Eq; try done. intros a. eapply row_ext; [apply Hr|]. intros k.
  unfold tally. by rewrite Ec, Eh, Eq.
Qed.
End Changes.

(** ** Actions *)

Section Exec.
Context `{Allocator} `{Blocks}.
Implicit Types (s : sys) (L : list nat) (m : rmem).

(** A result that does not lose a buffer. *)
Definition benign (o : out) : bool := match o with OFull | OUnshared _ => false | _ => true end.

Definition kept (ok : bool) (o : out) (s : sys) : Prop := exists L, inv (ok && benign o) s L.

Lemma kept_same ok s L o : inv ok s L -> benign o = true -> kept ok o s.
Proof. intros Hi Ho. exists L. by rewrite Ho, andb_true_r. Qed.

Lemma wp_on_mem {A} (f : R A) Q s : wp f (fun a m' => Q a (set_mem m' s)) (s_mem s) -> wp (on_mem f) Q s.
Proof. unfold wp, on_mem. by destruct (f (s_mem s)) as [[a m']|]. Qed.

Lemma wp_upd_client i c Q s : Q tt (set_clients (<[i := c]> (s_clients s)) s) -> wp (upd_client i c) Q s.
Proof. done. Qed.

Lemma wp_upd_held j h Q s : Q tt (set_held (<[j := h]> (s_held s)) s) -> wp (upd_held j h) Q s.
Proof. done. Qed.

Lemma wp_sys_modify (f : sys -> sys) Q s : Q tt (f s) -> wp (modify f) Q s.
Proof. done. Qed.

Lemma has_spec a rpc : has a rpc = true <-> r_data rpc = Some a.
Proof. unfold has. apply bool_decide_eq_true. Qed.

(** Weights of a call without a buffer, or with another one. *)
Lemma has_none a rpc : r_data rpc = None -> has a rpc = false.
Proof. intros E. unfold has. rewrite E. by apply bool_decide_eq_false_2. Qed.
Lemma has_other a a0 rpc : r_data rpc = Some a0 -> a <> a0 -> has a rpc = false.
Proof. intros E Hne. unfold has. rewrite E. apply bool_decide_eq_false_2. congruence. Qed.
Lemma has_this a rpc : r_data rpc = Some a -> has a rpc = true.
Proof. apply has_spec. Qed.

Lemma in_list_add L a x : a ∉ L -> in_list (L ++ [a]) x = if decide (x = a) then 1%nat else in_list L x.
Proof.
  intros Ha. unfold in_list. destruct (decide (x = a)) as [->|Hne].
  - rewrite decide_True; [done|]. apply elem_of_app. right. by apply list_elem_of_singleton.
  - destruct (decide (x ∈ L)) as [Hx|Hx]; [by rewrite decide_True by (apply elem_of_app; by left)|].
    rewrite decide_False; [done|]. intros [?|?%list_elem_of_singleton]%elem_of_app; done.
Qed.

Lemma in_list_rm L1 a L2 x : NoDup (L1 ++ a :: L2) -> in_list (L1 ++ L2) x = if decide (x = a) then 0%nat else in_list (L1 ++ a :: L2) x.
Proof.
  intros Hnd. unfold in_list. assert (Hp : L1 ++ a :: L2 ≡ₚ a :: L1 ++ L2) by (symmetry; apply Permutation_middle).
  rewrite Hp in Hnd. apply NoDup_cons in Hnd as [Hnd _]. destruct (decide (x = a)) as [->|Hne]; [by rewrite decide_False|].
  apply decide_ext. rewrite Hp, elem_of_cons. naive_solver.
Qed.

(** [rpc_init] by a new caller. *)
Lemma kept_init ok s L cmd timeout : inv ok s L -> wp (new_call cmd timeout) (kept ok) s.
Proof.
  intros Hi. unfold new_call. apply wp_bind, wp_on_mem, (wp_rpc_init _ _ L); [apply Hi|..].
  - intros rc m' _ Hm Hs. cbn [fst snd]. apply wp_bind. unfold when. destruct (rc =? 0).
    + apply wp_sys_modify, wp_ret. eapply kept_same; [|done]. cbn [s_clients set_mem]. apply (inv_new_client ok ok s L); [done | done | done|].
      apply rows_none; [done|]. intros a k. unfold cw. by rewrite has_none.
    + apply wp_ret, wp_ret. eapply kept_same; [|done]. by eapply inv_values.
  - intros a b m' Hm Hn Hs _ _. cbn [fst snd]. apply wp_bind. unfold when. rewrite Z.eqb_refl. apply wp_sys_modify, wp_ret. eapply kept_same; [|done].
    apply (inv_new_client ok ok s L); [done | done | done|]. apply (rows_at _ _ _ _ _ _ _ _ a); [done|..].
    + intros x Hx. rewrite Hs, decide_False by done. split; [done|]. split; [done|]. intros k. unfold cw. by rewrite (has_other x a).
    + intros t D Ht Ht0 Hr. rewrite Hn in Hr. rewrite Hs, decide_True by done. unfold cw in D. rewrite has_this in D by done. tally_solve Hr D.
Qed.

(** A value is put. *)
Lemma fits_may_put s rpc v : (forall a, r_data rpc = Some a -> is_Some (m_bufs (s_mem s) !! a)) -> may_put rpc v s = true -> fits (s_mem s) rpc v.
Proof.
  intros Hin. unfold may_put, fits, buffer_of. destruct (r_data rpc) as [a|]; simpl; [|intros ?; lia].
  destruct (Hin a eq_refl) as [b Hb]. rewrite Hb. intros Hp. exists b. split; [done | lia].
Qed.

Lemma kept_client_put ok s L i c v : inv ok s L -> s_clients s !! i = Some c -> c_phase c = CPrep -> may_put (c_rpc c) v s = true ->
  wp (r <- on_mem (rpc_put_buffer (c_rpc c) (Some v)) ;; upd_client i (mkClient (fst r) CPrep) ;; ret (ORet (snd r))) (kept ok) s.
Proof.
  intros Hi Hc Hp Hput. apply wp_bind, wp_on_mem, (wp_put_any _ _ L); [apply Hi | apply fits_may_put; [|done]; intros a Ha; by eapply client_in|..].
  - intros rc m' Hm Hs. apply wp_bind, wp_upd_client, wp_ret. eapply kept_same; [|done]. apply (inv_upd_client ok _ s L i c); [done | done | done | done|].
    apply rows_none; [done|]. intros a k. unfold cw. simpl. by rewrite Hp.
  - intros a rc m' Hn Hm Hnew Hs. apply wp_bind, wp_upd_client, wp_ret. eapply kept_same; [|done].
    apply (inv_upd_client ok _ s L i c); [done | done | done | done|]. apply (rows_at _ _ _ _ _ _ _ _ a); [done|..].
    + intros x Hx. rewrite Hs, decide_False by done. split; [done|]. split; [done|]. intros k. unfold cw. cbn [c_rpc fst].
      by rewrite (has_none x (c_rpc c)), (has_other x a).
    + intros t D Ht Ht0 Hr. rewrite Hnew in Hr. rewrite Hs, decide_True by done. unfold cw in D. cbn [c_rpc c_phase fst] in D.
      rewrite (has_none a (c_rpc c)), has_this in D by done. tally_solve Hr D.
Qed.

Lemma kept_held_put ok s L j h v : inv ok s L -> s_held s !! j = Some h -> h_replied h = false -> may_put (h_rpc h) v s = true ->
  wp (r <- on_mem (rpc_put_buffer (h_rpc h) (Some v)) ;; upd_held j (mkHeld (fst r) (h_current h) false) ;;
      ret (match r_data (h_rpc h) with Some _ => ORet (snd r) | None => OUnshared (snd r) end)) (kept ok) s.
Proof.
  intros Hi Hh Hp Hput. apply wp_bind, wp_on_mem, (wp_put_any _ _ L); [apply Hi | apply fits_may_put; [|done]; intros a Ha; by eapply held_in|..].
  - intros rc m' Hm Hs. apply wp_bind, wp_upd_held, wp_ret. exists L. eapply inv_weaken; [|intros E; by apply andb_true_iff in E as [? _]].
    apply (inv_upd_held ok _ s L j h); [done | done | done | done|]. apply rows_none; [done|]. intros a k. unfold hw. simpl. by rewrite Hp.
  - intros a rc m' Hn Hm Hnew Hs. apply wp_bind, wp_upd_held, wp_ret. exists L. rewrite Hn. cbn [benign]. rewrite andb_false_r.
    apply (inv_upd_held ok _ s L j h); [done | done | done | done|]. apply (rows_at ok _ _ _ _ _ _ _ a); [done|..].
    + intros x Hx. rewrite Hs, decide_False by done. split; [done|]. split; [done|]. intros k. unfold hw. cbn [h_rpc fst].
      by rewrite (has_none x (h_rpc h)), (has_other x a).
    + intros t D Ht Ht0 Hr. rewrite Hnew in Hr. rewrite Hs, decide_True by done. unfold hw in D. cbn [h_rpc h_replied fst] in D.
      rewrite (has_none a (h_rpc h)), has_this in D by done. tally_solve Hr D.
Qed.

(** A value is read. *)
Lemma kept_get ok s L rpc n : inv ok s L -> may_get rpc n s = true -> wp (v <- on_mem (rpc_get rpc n) ;; ret (OValue v)) (kept ok) s.
Proof.
  intros Hi Hg. apply wp_bind, wp_on_mem, (wp_get_any _ _ L); [apply Hi|..].
  - unfold may_get, buffer_of in Hg. destruct (r_data rpc) as [a|] eqn:Ha; simpl in Hg; [|done].
    destruct (m_bufs (s_mem s) !! a) as [b|] eqn:Hb; [|done]. apply andb_true_iff in Hg as [Hlt Hg].
    destruct (b_buffer b) as [l|] eqn:Hl; [|done]. apply bool_decide_eq_true in Hg. exists a, b, l. split_and!; try done. lia.
  - intros v m' Hm Hs. apply wp_ret. eapply kept_same; [|done]. by eapply inv_values.
Qed.

(** The end of a call, by the caller or the service: [w] is the weight of its
    copy. *)
Lemma wp_deinit_rows ok s L rpc w Q : inv ok s L ->
  (forall a, r_data rpc = Some a -> is_Some (m_bufs (s_mem s) !! a) /\ is_Some (r_srv rpc)) ->
  (forall a k, has a rpc = false -> w a k = 0%nat) ->
  (forall a k, has a rpc = true -> w a k = match k with KNew => 0 | _ => w a k end)%nat ->
  (forall a, has a rpc = true -> w a KPre = 0 /\ w a KPost + w a KFull + w a KMsg = 1 /\ w a KGot <= w a KPost)%nat ->
  (forall m' L', mem_ok m' L' -> rows ok ok s L m' L' w (fun _ _ => 0%nat) -> Q tt m') ->
  wp (rpc_deinit rpc) Q (s_mem s).
Proof.
  intros Hi Hin H0w HNew Hw HQ. apply (wp_rpc_deinit rpc L); [apply Hi | done | ..].
  - intros Hn. apply (HQ _ L); [apply Hi|]. apply rows_none; [done|]. intros a k. apply H0w. by apply has_none.
  - intros a m' Ha HnL Hm Hs. apply (HQ _ (L ++ [a])); [done|]. apply (rows_at _ _ _ _ _ _ _ _ a); [done|..].
    + intros x Hx. rewrite in_list_add, decide_False by done. split; [done|]. split; [done|]. intros k. apply H0w. by apply (has_other x a).
    + intros t D Ht Ht0 Hr. destruct (Hw a) as (Hw1 & Hw2 & Hw3); [by apply has_this|]. pose proof (HNew a KNew (has_this _ _ Ha)) as Hw4. cbn in Hw4.
      rewrite Hs, in_list_add, decide_True by done. unfold in_list in Hr. rewrite decide_False in Hr by done.
      destruct (sems (s_mem s) a) as [[n|]|]; tally_solve Hr D.
  - intros a L1 L2 m' Ha -> Hm Hs. apply (HQ _ (L1 ++ L2)); [done|]. pose proof (mem_ok_nodup _ _ (iv_mem _ _ _ Hi)) as Hnd.
    apply (rows_at _ _ _ _ _ _ _ _ a); [done|..].
    + intros x Hx. rewrite Hs, (in_list_rm L1 a L2), !decide_False by done. split; [done|]. split; [done|]. intros k. apply H0w. by apply (has_other x a).
    + intros t D Ht Ht0 Hr. destruct (Hw a) as (Hw1 & Hw2 & Hw3); [by apply has_this|]. pose proof (HNew a KNew (has_this _ _ Ha)) as Hw4. cbn in Hw4.
      rewrite Hs, (in_list_rm L1 a L2), !decide_True by done. unfold in_list in Hr.
      rewrite decide_True in Hr by (apply elem_of_app; right; apply elem_of_cons; by left).
      destruct (sems (s_mem s) a) as [[n|]|]; tally_solve Hr D.
Qed.

Lemma kept_client_deinit ok s L i c : inv ok s L -> s_clients s !! i = Some c -> (exists rc, c_phase c = CDone rc) \/ c_phase c = CFull ->
  wp (on_mem (rpc_deinit (c_rpc c)) ;; modify (set_clients (delete i (s_clients s))) ;; ret (ORet 0)) (kept ok) s.
Proof.
  intros Hi Hc Hp. apply wp_bind, wp_on_mem. apply (wp_deinit_rows ok s L _ (fun a k => cw a k c)); [done|..].
  - intros a Ha. split; [by eapply client_in|]. apply (Forall_lookup_1 _ _ _ _ (iv_clients _ _ _ Hi) Hc). by destruct Hp as [[rc ->]| ->].
  - intros a k Hh. unfold cw. by rewrite Hh.
  - intros a k Hh. unfold cw. rewrite Hh. destruct k; try done; by destruct Hp as [[rc ->]| ->].
  - intros a Hh. unfold cw. rewrite Hh. destruct Hp as [[rc ->]| ->]; cbn [phase_weight]; split; try lia. destruct (rc =? 0); lia.
  - intros m' L' Hm Hrow. apply wp_bind, wp_sys_modify, wp_ret. eapply kept_same; [|done]. by apply (inv_del_client ok ok s L i c).
Qed.

Lemma kept_held_deinit ok s L j h : inv ok s L -> s_held s !! j = Some h -> h_replied h = true ->
  wp (on_mem (rpc_deinit (h_rpc h)) ;; modify (set_held (delete j (s_held s))) ;; ret (ORet 0)) (kept ok) s.
Proof.
  intros Hi Hh Hrep. apply wp_bind, wp_on_mem. apply (wp_deinit_rows ok s L _ (fun a k => hw a k h)); [done|..].
  - intros a Ha. split; [by eapply held_in|]. by apply (Forall_lookup_1 _ _ _ _ (iv_held _ _ _ Hi) Hh).
  - intros a k Hn. unfold hw. by rewrite Hn.
  - intros a k Hn. unfold hw. rewrite Hn. destruct k; try done. by rewrite Hrep.
  - intros a Hn. unfold hw. rewrite Hn. lia.
  - intros m' L' Hm Hrow. apply wp_bind, wp_sys_modify, wp_ret. eapply kept_same; [|done]. by apply (inv_del_held ok ok s L j h).
Qed.

(** The reply is sent, and the caller gets it. *)
Lemma kept_reply ok s L j h : inv ok s L -> s_held s !! j = Some h -> h_replied h = false ->
  wp (on_mem (reply_signal (h_rpc h)) ;; upd_held j (mkHeld (h_rpc h) (h_current h) true) ;; ret (ORet 0)) (kept ok) s.
Proof.
  intros Hi Hh Hrep. pose proof (fun a => held_in ok s L j h a Hi Hh) as Hin. apply wp_bind, wp_on_mem, (wp_reply_signal _ L); [apply Hi | done|..].
  - intros Hno. apply wp_bind, wp_upd_held, wp_ret. eapply kept_same; [|done]. apply (inv_upd_held ok ok s L j h); [done | done | apply Hi | done|].
    destruct (r_data (h_rpc h)) as [a|] eqn:Ha.
    + apply (rows_at _ _ _ _ _ _ _ _ a); [done|..].
      * intros x Hx. split; [done|]. split; [done|]. intros k. unfold hw. cbn [h_rpc]. by rewrite (has_other x a).
      * intros t D Ht Ht0 Hr. unfold hw in D. cbn [h_rpc] in D. rewrite has_this, Hrep in D by done. specialize (Hno a).
        destruct (sems (s_mem s) a) as [[n|]|]; [by destruct (Hno n) | tally_solve Hr D..].
    + apply rows_none; [done|]. intros a k. unfold hw. cbn [h_rpc]. by rewrite has_none.
  - intros a n m' Ha Hn Hm Hs. apply wp_bind, wp_upd_held, wp_ret. eapply kept_same; [|done]. apply (inv_upd_held ok ok s L j h); [done | done | done | done|].
    apply (rows_at _ _ _ _ _ _ _ _ a); [done|..].
    + intros x Hx. rewrite Hs, decide_False by done. split; [done|]. split; [done|]. intros k. unfold hw. cbn [h_rpc]. by rewrite (has_other x a).
    + intros t D Ht Ht0 Hr. unfold hw in D. cbn [h_rpc] in D. rewrite has_this, Hrep in D by done. rewrite Hn in Hr. rewrite Hs, decide_True by done. tally_solve Hr D.
Qed.

Lemma kept_wait ok s L i c expired : inv ok s L -> s_clients s !! i = Some c -> c_phase c = CWait ->
  wp (r <- on_mem (rpc_wait (c_rpc c) expired) ;;
      match r with Some rc => upd_client i (mkClient (c_rpc c) (CDone rc)) ;; ret (ORet rc) | None => ret ONo end) (kept ok) s.
Proof.
  intros Hi Hc Hp. pose proof (fun a => client_in ok s L i c a Hi Hc) as Hin.
  assert (Hsrv : is_Some (r_srv (c_rpc c))) by (apply (Forall_lookup_1 _ _ _ _ (iv_clients _ _ _ Hi) Hc); by rewrite Hp).
  apply wp_bind, wp_on_mem, (wp_rpc_wait _ _ L); [apply Hi | done|..].
  - intros Hno. apply wp_bind, wp_upd_client, wp_ret. eapply kept_same; [|done]. apply (inv_upd_client ok ok s L i c); [done | done | apply Hi | done|].
    destruct (r_data (c_rpc c)) as [a|] eqn:Ha.
    + apply (rows_at _ _ _ _ _ _ _ _ a); [done|..].
      * intros x Hx. split; [done|]. split; [done|]. intros k. unfold cw. cbn [c_rpc]. by rewrite (has_other x a).
      * intros t D Ht Ht0 Hr. unfold cw in D. cbn [c_rpc c_phase] in D. rewrite has_this, Hp in D by done. specialize (Hno a).
        destruct (sems (s_mem s) a) as [[n|]|]; [by destruct (Hno n) | tally_solve Hr D..].
    + apply rows_none; [done|]. intros a k. unfold cw. cbn [c_rpc]. by rewrite has_none.
  - intros a n m' Ha Hn Hpos Hm Hs. apply wp_bind, wp_upd_client, wp_ret. eapply kept_same; [|done].
    apply (inv_upd_client ok ok s L i c); [done | done | done | done|]. apply (rows_at _ _ _ _ _ _ _ _ a); [done|..].
    + intros x Hx. rewrite Hs, decide_False by done. split; [done|]. split; [done|]. intros k. unfold cw. cbn [c_rpc]. by rewrite (has_other x a).
    + intros t D Ht Ht0 Hr. unfold cw in D. cbn [c_rpc c_phase] in D. rewrite has_this, Hp in D by done. rewrite Hn in Hr. rewrite Hs, decide_True by done.
      tally_solve Hr D.
  - intros a n Ha Hn Hle. rewrite set_mem_same. split; [|by apply wp_ret, (kept_same ok s L)].
    apply wp_bind, wp_upd_client, wp_ret. eapply kept_same; [|done]. 
    apply (inv_move_client ok ok s L i c); [done | done | done|].
    apply (rows_none ok); [done|]. intros x k. unfold cw. cbn [c_rpc c_phase]. rewrite Hp. by destruct k.
Qed.

(** [uservice_call]: the call, and one attempt to send it. *)
Lemma kept_call ok s L i c : inv ok s L -> s_clients s !! i = Some c -> c_phase c = CPrep ->
  kept ok (ORet 0) (set_clients (<[i := mkClient (mkRpc (Some 0%nat) (r_cmd (c_rpc c)) (r_data (c_rpc c))) (CSend (queue_count s))]> (s_clients s)) s).
Proof.
  intros Hi Hc Hp. eapply kept_same; [|done]. apply (inv_move_client ok ok s L i c); [done | done | by eexists|].
  apply rows_none; [done|]. intros a k. unfold cw, has. cbn [c_rpc c_phase r_data]. rewrite Hp. by destruct k.
Qed.

Lemma kept_round ok s L i c count : inv ok s L -> s_clients s !! i = Some c -> c_phase c = CSend count -> wp (call_round i (c_rpc c) count) (kept ok) s.
Proof.
  intros Hi Hc Hp. assert (Hsrv : is_Some (r_srv (c_rpc c))) by (apply (Forall_lookup_1 _ _ _ _ (iv_clients _ _ _ Hi) Hc); by rewrite Hp).
  assert (Hstay : forall n s', inv ok s' L -> s_clients s' = s_clients s -> s_mem s' = s_mem s ->
    inv ok (set_clients (<[i := mkClient (c_rpc c) (CSend n)]> (s_clients s')) s') L).
  { intros n s' Hi' Ec Em. apply (inv_move_client ok ok s' L i c); [done | by rewrite Ec | done|].
    apply rows_none; [done|]. intros a k. unfold cw. cbn [c_rpc c_phase]. rewrite Hp. by destruct k. }
  unfold call_round. destruct (count =? 0).
  - apply wp_bind, wp_upd_client, wp_ret. exists L. cbn [benign]. rewrite andb_false_r.
    apply (inv_move_client ok false s L i c); [done | done | done|]. intros a t D Ht Ht0 Hr. unfold cw in D. cbn [c_rpc c_phase] in D.
    rewrite Hp in D. cbn [phase_weight] in D. destruct (has a (c_rpc c)).
    + destruct (sems (s_mem s) a) as [[n|]|]; tally_solve Hr D.
    + apply (row_weaken ok); [|done]. eapply row_ext; [exact Hr|]. intros k. specialize (D k). lia.
  - apply wp_bind. unfold aos_queue_send. apply wp_bind, wp_gets. cbn [id]. destruct (q_blocked s) eqn:Eb; [|destruct (ring_has_room s)].
    + apply wp_bind, wp_sys_modify, wp_ret, wp_bind, wp_upd_client, wp_ret. eapply kept_same; [|done]. pose proof (iv_inbox _ _ _ Hi Eb) as Ein.
      apply (inv_sent ok s L i c); [done | done | by rewrite Hp | by rewrite Hp | ..]; unfold msgs; rewrite Ein; simpl; [intros f; lia|].
      intros Hf. apply Forall_app in Hf as [? Hf]. apply Forall_cons in Hf as [? _]. by constructor.
    + apply wp_bind, wp_sys_modify, wp_ret, wp_bind, wp_upd_client, wp_ret. eapply kept_same; [|done].
      apply (inv_sent ok s L i c); [done | done | by rewrite Hp | by rewrite Hp | ..]; unfold msgs; [intros f; rewrite app_assoc; apply sum_snoc|].
      by rewrite app_assoc.
    + apply wp_ret. apply wp_bind. unfold when. destruct (count - 1 =? 1).
      * apply wp_bind, wp_gets, wp_sys_modify, wp_bind, wp_upd_client, wp_ret. eapply kept_same; [|done]. apply Hstay; [|done|done]. apply (inv_same ok s); try done. apply Hi.
      * apply wp_ret, wp_bind, wp_upd_client, wp_ret. eapply kept_same; [|done]. by apply Hstay.
Qed.

(** The service receives. *)
Lemma kept_take ok s L : inv ok s L -> wp take_call (kept ok) s.
Proof.
  intros Hi. unfold take_call. apply wp_bind, wp_gets. cbn [id]. destruct (current_rpc s); [by apply wp_ret, (kept_same ok s L)|].
  apply wp_bind. unfold aos_queue_recv. apply wp_bind, wp_gets. cbn [id]. destruct (q_inbox s) as [r|] eqn:Ein; [|destruct (q_ring s) as [|r ring] eqn:Er].
  - apply wp_bind, wp_sys_modify, wp_ret, wp_bind, wp_sys_modify, wp_ret. eapply kept_same; [|done]. apply (inv_taken ok s L r (q_ring s)); [done|..]; unfold msgs; rewrite Ein; simpl; [intros f; lia|].
    intros Hf. by apply Forall_cons in Hf.
  - apply wp_bind, wp_sys_modify, wp_ret, wp_ret. eapply kept_same; [|done]. apply (inv_same ok s); try done. unfold msgs. by rewrite Ein, Er.
  - apply wp_bind, wp_sys_modify, wp_ret, wp_bind, wp_sys_modify, wp_ret. eapply kept_same; [|done]. apply (inv_taken ok s L r ring); [done|..]; unfold msgs; rewrite Ein, Er; simpl; [intros f; lia|].
    intros Hf. by apply Forall_cons in Hf.
Qed.

(** Every action. *)
Lemma kept_client ok s L i act c : inv ok s L -> s_clients s !! i = Some c -> wp (client_act i act c) (kept ok) s.
Proof.
  intros Hi Hc. unfold client_act. apply wp_bind, wp_gets. cbn [id].
  assert (Hno : wp (ret ONo) (kept ok) s) by (by apply wp_ret, (kept_same ok s L)).
  destruct act; try exact Hno; destruct (c_phase c) eqn:Hp; try exact Hno.
  - destruct (may_put _ _ _) eqn:Hput; [|exact Hno]. by eapply kept_client_put.
  - apply wp_bind, wp_upd_client, wp_ret. by eapply kept_call.
  - by eapply kept_round.
  - by eapply kept_wait.
  - destruct (_ && _) eqn:Hg; [|exact Hno]. apply andb_true_iff in Hg as [_ Hg]. by eapply kept_get.
  - eapply kept_client_deinit; eauto.
  - eapply kept_client_deinit; eauto.
Qed.

Lemma kept_held ok s L j act h : inv ok s L -> s_held s !! j = Some h -> wp (held_act j act h) (kept ok) s.
Proof.
  intros Hi Hh. unfold held_act. apply wp_bind, wp_gets. cbn [id]. pose proof (fun a => held_in ok s L j h a Hi Hh) as Hin.
  assert (Hno : wp (ret ONo) (kept ok) s) by (by apply wp_ret, (kept_same ok s L)).
  assert (Hreset : wp (rpc_put_reset (h_rpc h)) (fun _ m' => kept ok (ORet 0) (set_mem m' s)) (s_mem s) /\
                   wp (rpc_get_reset (h_rpc h)) (fun _ m' => kept ok (ORet 0) (set_mem m' s)) (s_mem s)).
  { apply (wp_reset_any _ L); [apply Hi | done|]. intros m' Hm Hs. eapply kept_same; [|done]. by eapply inv_values. }
  destruct act; try exact Hno; destruct (h_replied h) eqn:Hrep; try exact Hno.
  - destruct (may_get _ _ _) eqn:Hg; [|exact Hno]. by eapply kept_get.
  - destruct (may_put _ _ _) eqn:Hput; [|exact Hno]. by eapply kept_held_put.
  - apply wp_bind, wp_on_mem. exact (proj1 Hreset).
  - apply wp_bind, wp_on_mem. exact (proj2 Hreset).
  - apply wp_bind, wp_upd_held, wp_ret. eapply kept_same; [|done]. 
    apply (inv_move_held ok ok s L j h); [done | done | done|]. apply rows_none; [done|]. intros a k. unfold hw. simpl. by rewrite Hrep.
  - by eapply kept_reply.
  - by eapply kept_held_deinit.
Qed.

Lemma kept_exec ok s L act : inv ok s L -> wp (exec act) (kept ok) s.
Proof.
  intros Hi. assert (Hno : wp (ret ONo) (kept ok) s) by (by apply wp_ret, (kept_same ok s L)).
  destruct act; try (by eapply kept_init); try (by eapply kept_take); cbn [exec]; apply wp_bind, wp_gets; cbn [id];
    (destruct (_ !! _) as [x|] eqn:Hx; [|exact Hno]); (by eapply kept_client) || by eapply kept_held.
Qed.

Lemma kept_run acts : forall ok s L, inv ok s L -> wp (run acts) (fun os s' => exists L', inv (ok && forallb benign os) s' L') s.
Proof.
  induction acts as [|act acts IH]; intros ok s L Hi; simpl.
  - apply wp_ret. exists L. by rewrite andb_true_r.
  - apply wp_bind. eapply wp_mono; [by eapply kept_exec|]. intros o s1 [L1 Hi1]. apply wp_bind. eapply wp_mono; [by eapply IH|].
    intros os s2 [L2 Hi2]. apply wp_ret. exists L2. cbn [forallb]. by rewrite andb_assoc.
Qed.
End Exec.
