(* ===== verification/SpecRpc.v ===== *)
(** * Remote procedure calls: what they promise *)

From S2P Require Import Prelude.
From S2P Require Import Monad.
From S2P Require Import KState.
From S2P Require Import RingBuf.
From S2P Require Import SList.
From S2P Require Import Rpc.
From S2P Require Import RpcBuf.
From S2P Require Import RpcSys.
From S2P Require Import RpcInv.
From S2P Require Import RpcExec.

(** ** The queue of the service task

    [ring_has_room] is what the ring buffer of the queue decides: a call takes
    12 bytes and one byte for its length. *)

Lemma ring_used (ms : list (list Z)) : Forall (fun d => length d = 12%nat) ms -> (length (concat (encode <$> ms)) = length ms * 13)%nat.
Proof. induction 1 as [|d ms Hd _ IH]; [done|]. cbn [fmap list_fmap concat]. rewrite length_app, IH, encode_length by (rewrite Hd; done).
  unfold msg_room. rewrite Hd. simpl. lia.
Qed.

Lemma ring_room (s : sys) (r : k_ringbuf_t) (ms : list (list Z)) (d : list Z) :
  dyn_rep r ms -> Forall (fun d => length d = 12%nat) ms -> length d = 12%nat ->
  Z.of_nat (rb_end r) = q_size s -> length ms = length (q_ring s) ->
  ringbuf_push r d 12 = Some (RHINO_RINGBUF_FULL, r) <-> ring_has_room s = false.
Proof.
  intros Hr Hms Hd Hend Hlen. pose proof Hr as (Hok & Hty & Hc & _). pose proof (ring_used ms Hms) as Hu. rewrite <- Hc, contents_length in Hu.
  pose proof (ro_free _ Hok) as Hf. unfold rb_used in Hu. assert (Hm : msg_room d = 13%nat) by (unfold msg_room; by rewrite Hd).
  pose proof (dyn_push r ms d Hr ltac:(lia) ltac:(rewrite Hd; done)) as Hp. rewrite Hm, Hd in Hp. unfold ring_has_room, sizeof_rpc_t. rewrite <- Hlen, <- Hend.
  destruct (Nat.leb_spec 13 (rb_freesize r)).
  - destruct Hp as (r' & -> & _). split; [done | intros E; lia].
  - rewrite Hp. split; [intros _; lia | done].
Qed.

(** ** Putting and getting *)

Section Claims.
Context `{Allocator} `{Blocks}.
Implicit Types (s : sys) (m : rmem).






(** ** Claims *)

(** Callers and copies that use the values: a caller before the call or after
    the reply; the service before the reply. *)
Definition caller_uses s (c : client) (a : nat) : Prop := r_data (c_rpc c) = Some a /\
  (c_phase c = CPrep \/ c_phase c = CDone 0 /\ exists b n, m_bufs (s_mem s) !! a = Some b /\ b_sem b = Some n).
Definition service_uses s (a : nat) : Prop := (exists r, r ∈ msgs s /\ r_data r = Some a) \/
  exists h, h ∈ s_held s /\ r_data (h_rpc h) = Some a /\ h_replied h = false.
Definition refers s (a : nat) : Prop := (exists c, c ∈ s_clients s /\ r_data (c_rpc c) = Some a) \/
  (exists r, r ∈ msgs s /\ r_data r = Some a) \/ exists h, h ∈ s_held s /\ r_data (h_rpc h) = Some a.

Lemma weight_pos {A} (f : A -> nat) l x : x ∈ l -> (f x <= sum_list_with f l)%nat.
Proof. intros Hx. apply list_elem_of_lookup in Hx as [i Hi]. by eapply sum_ge. Qed.

Lemma msgs_counted s r a : r ∈ msgs s -> r_data r = Some a -> (1 <= tally s a KMsg /\ 1 <= tally s a KNew)%nat.
Proof.
  intros Hin Ha. pose proof (weight_pos (mw a KMsg) _ _ Hin). pose proof (weight_pos (mw a KNew) _ _ Hin). unfold tally, mw in *.
  rewrite (has_this a r Ha) in *. lia.
Qed.

Lemma held_counted s h a : h ∈ s_held s -> r_data (h_rpc h) = Some a -> (1 <= tally s a KMsg /\ (h_replied h = false -> 1 <= tally s a KNew))%nat.
Proof.
  intros Hin Ha. pose proof (weight_pos (hw a KMsg) _ _ Hin). pose proof (weight_pos (hw a KNew) _ _ Hin). unfold tally, hw in *.
  rewrite (has_this a _ Ha) in *. split; [lia|]. intros E. rewrite E in *. lia.
Qed.

Lemma client_counted s c a k : c ∈ s_clients s -> r_data (c_rpc c) = Some a -> (phase_weight k (c_phase c) <= tally s a k)%nat.
Proof. intros Hin Ha. pose proof (weight_pos (cw a k) _ _ Hin) as Hw. unfold tally, cw in *. rewrite (has_this a _ Ha) in *. lia. Qed.

Lemma service_new s a : service_uses s a -> (1 <= tally s a KMsg /\ 1 <= tally s a KNew)%nat.
Proof.
  intros [(r & Hin & Ha)|(h & Hin & Ha & Hrep)]; [by eapply msgs_counted|]. destruct (held_counted s h a Hin Ha) as [? Hn]. specialize (Hn Hrep). lia.
Qed.

Lemma refers_counted s a : refers s a -> exists k, (1 <= tally s a k)%nat.
Proof.
  intros [(c & Hin & Ha)|[(r & Hin & Ha)|(h & Hin & Ha)]].
  - set (k := match c_phase c with CPrep | CSend _ => KPre | CWait | CDone _ => KPost | CFull => KFull end). exists k.
    pose proof (client_counted s c a k Hin Ha) as Hw. assert (phase_weight k (c_phase c) = 1%nat) by (unfold k; by destruct (c_phase c)). lia.
  - exists KMsg. by eapply msgs_counted.
  - exists KMsg. by eapply held_counted.
Qed.

Lemma inv_exclusive ok s L c a : inv ok s L -> c ∈ s_clients s -> caller_uses s c a -> ~ service_uses s a.
Proof.
  intros Hi Hin [Ha Huse] Hsv. apply service_new in Hsv as [Hm Hn]. pose proof (iv_row _ _ _ Hi a) as Hr. pose proof (tally_sane s a) as [Hg _].
  destruct Huse as [Hp|[Hp (b & n & Hb & Es)]].
  - pose proof (client_counted s c a KPre Hin Ha) as Hw. rewrite Hp in Hw. cbn [phase_weight Z.eqb] in Hw. unfold sems in Hr. destruct (m_bufs (s_mem s) !! a) as [b|]; simpl in Hr.
    + destruct Hr as [Hst _]. destruct Hst; lia.
    + destruct Hr as [_ Hz]. specialize (Hz KPre). lia.
  - pose proof (client_counted s c a KGot Hin Ha) as Hw. rewrite Hp in Hw. cbn [phase_weight Z.eqb] in Hw. unfold sems in Hr. rewrite Hb in Hr. simpl in Hr. rewrite Es in Hr.
    destruct Hr as (Hst & Hn0 & _ & Hsem). destruct Hst; lia.
Qed.

Lemma sum_pos {A} (f : A -> nat) l : (1 <= sum_list_with f l)%nat -> exists x, x ∈ l /\ (1 <= f x)%nat.
Proof.
  induction l as [|y l IH]; simpl; [lia|]. intros Hs. destruct (decide (1 <= f y)%nat) as [Hy|Hy].
  - exists y. split; [apply elem_of_cons; by left | done].
  - destruct IH as (x & Hx & Hf); [lia|]. exists x. split; [apply elem_of_cons; by right | done].
Qed.

Lemma has_data a rpc (n : nat) : (1 <= if has a rpc then n else 0)%nat -> r_data rpc = Some a.
Proof. destruct (has a rpc) eqn:E; [intros _; by apply has_spec | lia]. Qed.

Lemma counted_refers s a k : (1 <= tally s a k)%nat -> refers s a.
Proof.
  intros Ht. unfold tally in Ht. destruct (decide (1 <= sum_list_with (cw a k) (s_clients s))%nat) as [Hs|]; [|destruct (decide (1 <= sum_list_with (mw a k) (msgs s))%nat) as [Hs|]].
  - apply sum_pos in Hs as (c & Hin & Hw). left. exists c. split; [done|]. by eapply has_data.
  - apply sum_pos in Hs as (r & Hin & Hw). right. left. exists r. split; [done|]. by eapply has_data.
  - assert (Hs : (1 <= sum_list_with (hw a k) (s_held s))%nat) by lia. apply sum_pos in Hs as (h & Hin & Hw). right. right. exists h. split; [done|]. by eapply has_data.
Qed.

Lemma new_service s a : (1 <= tally s a KNew)%nat -> service_uses s a.
Proof.
  intros Ht. unfold tally in Ht. assert (Hz : sum_list_with (cw a KNew) (s_clients s) = 0%nat).
  { clear Ht. induction (s_clients s) as [|c l IH]; [done|]. simpl. rewrite IH. unfold cw. by destruct (has a (c_rpc c)), (c_phase c). }
  destruct (decide (1 <= sum_list_with (mw a KNew) (msgs s))%nat) as [Hs|].
  - apply sum_pos in Hs as (r & Hin & Hw). left. exists r. split; [done|]. by eapply has_data.
  - assert (Hs : (1 <= sum_list_with (hw a KNew) (s_held s))%nat) by lia. apply sum_pos in Hs as (h & Hin & Hw). right. exists h. split; [done|].
    unfold hw in Hw. split; [by eapply has_data|]. destruct (has a (h_rpc h)), (h_replied h); [lia|done|lia|done].
Qed.

Lemma inv_refers s L a : inv true s L -> is_Some (m_bufs (s_mem s) !! a) -> refers s a.
Proof.
  intros Hi [b Hb]. pose proof (iv_row _ _ _ Hi a) as Hr. unfold sems in Hr. rewrite Hb in Hr. destruct Hr as [Hst _].
  destruct Hst; [| |done]; [apply (counted_refers s a KPre); lia|].
  destruct (decide (1 <= tally s a KPost)%nat); [by eapply counted_refers|]. apply (counted_refers s a KMsg). lia.
Qed.

(** A reply that [rpc_wait] finds, or a call it does not wait for. *)
Definition given s (rpc : rpc_t) : Prop :=
  match r_data rpc with
  | None => True
  | Some a => exists b, m_bufs (s_mem s) !! a = Some b /\ (b_sem b = None \/ exists n, b_sem b = Some n /\ 0 < n)
  end.

(** The caller that waits is the only one after the call, so nobody got the
    reply. *)
Lemma waiting_not_got s i c a : s_clients s !! i = Some c -> c_phase c = CWait -> r_data (c_rpc c) = Some a ->
  (tally s a KGot + 1 <= tally s a KPost)%nat.
Proof.
  intros Hc Hp Ha. pose proof (sum_del (cw a KGot) _ _ _ Hc) as D1. pose proof (sum_del (cw a KPost) _ _ _ Hc) as D2.
  unfold cw at 2 in D1. unfold cw at 2 in D2. rewrite (has_this a _ Ha), Hp in D1, D2. cbn [phase_weight] in D1, D2.
  assert (Hle : (sum_list_with (cw a KGot) (delete i (s_clients s)) <= sum_list_with (cw a KPost) (delete i (s_clients s)))%nat).
  { apply sum_mono. intros x. unfold cw. destruct (has _ _); [|done]. destruct (c_phase x); simpl; try lia. destruct (_ =? _); lia. }
  assert (forall l, sum_list_with (mw a KGot) l <= sum_list_with (mw a KPost) l)%nat by (intros l; apply sum_mono; intros x; unfold mw; destruct (has _ _); lia).
  assert (forall l, sum_list_with (hw a KGot) l <= sum_list_with (hw a KPost) l)%nat by (intros l; apply sum_mono; intros x; unfold hw; destruct (has _ _); lia).
  unfold tally. specialize (H1 (msgs s)). specialize (H2 (s_held s)). lia.
Qed.

Lemma waiting_or_given ok s L i c : inv ok s L -> s_clients s !! i = Some c -> c_phase c = CWait ->
  (exists a, r_data (c_rpc c) = Some a /\ service_uses s a) \/ given s (c_rpc c).
Proof.
  intros Hi Hc Hp. unfold given. destruct (r_data (c_rpc c)) as [a|] eqn:Ha; [|by right]. destruct (client_in _ _ _ _ _ _ Hi Hc Ha) as [b Hb].
  destruct (b_sem b) as [n|] eqn:Es; [|right; exists b; auto]. pose proof (iv_row _ _ _ Hi a) as Hr. unfold sems in Hr. rewrite Hb in Hr. simpl in Hr. rewrite Es in Hr.
  pose proof (waiting_not_got s i c a Hc Hp Ha) as Hng. destruct Hr as (Hst & Hn0 & _ & Hsem).
  assert (Hpost : tally s a KPost = 1%nat) by (destruct Hst; lia). specialize (Hsem Hpost).
  destruct (decide (1 <= tally s a KNew)%nat) as [Hnew|Hnew]; [left; exists a; split; [done | by apply new_service]|].
  right. exists b. split; [done|]. right. exists n. split; [done | lia].
Qed.

Lemma wp_wait_given s i c expired : s_clients s !! i = Some c -> c_phase c = CWait -> given s (c_rpc c) ->
  wp (exec (AWait i expired)) (fun o _ => o = ORet 0) s.
Proof.
  intros Hc Hp Hg. cbn [exec]. apply wp_bind, wp_gets. cbn [id]. rewrite Hc. unfold client_act. apply wp_bind, wp_gets. rewrite Hp.
  apply wp_bind, wp_on_mem. unfold rpc_wait, given in *. destruct (r_data (c_rpc c)) as [a|]; [|done]. destruct Hg as (b & Hb & Hs).
  apply wp_bind, (wp_get_buf a b); [done|]. unfold aos_sem_is_valid. destruct Hs as [Es|(n & Es & Hn)]; rewrite Es; [done|].
  rewrite bool_decide_eq_true_2 by eauto. unfold aos_sem_wait. apply wp_bind, (wp_get_buf a b); [done|]. rewrite Es. apply wp_bind, wp_ret.
  rewrite (proj2 (Z.ltb_lt 0 n)) by done. by apply wp_bind, wp_put_buf; [eauto|].
Qed.

(** C20: However the callers and the service task interleave, no function of
    the RPC library touches a freed buffer, reads or writes outside of a block
    or frees a buffer twice: every schedule runs to its end.  Every buffer a
    caller, the queue or the service refers to is in memory; and a caller and
    the service never use the values of a buffer at the same time. *)
Theorem rpc_safe (count : Z) (acts : list action) :
  wp (run acts) (fun _ s =>
    (forall a, refers s a -> is_Some (m_bufs (s_mem s) !! a)) /\
    (forall c a, c ∈ s_clients s -> caller_uses s c a -> ~ service_uses s a)) (utask_new count).
Proof.
  eapply wp_mono; [apply (kept_run acts true _ [] (inv_start count))|]. intros os s [L Hi]. split.
  - intros a Ha. apply refers_counted in Ha as [k Hk]. eapply inv_in; [done|]. by apply Hk.
  - intros c a Hin Hu. by eapply inv_exclusive.
Qed.

(** C21: Every buffer is freed by the second of the two parties that are done
    with it: if no call was refused because the queue stayed full, and no
    handler put values into a call that came without a buffer, then every
    buffer in memory is still referred to; when no call is in progress nothing
    is allocated and [rpc_buffer_gc_cache] is empty. *)
Theorem rpc_all_freed (count : Z) (acts : list action) :
  wp (run acts) (fun os s => forallb benign os = true ->
    (forall a, is_Some (m_bufs (s_mem s) !! a) -> refers s a) /\
    (s_clients s = [] -> msgs s = [] -> s_held s = [] -> m_bufs (s_mem s) = ∅ /\ m_next (s_mem s) = {[ RCache := None ]})) (utask_new count).
Proof.
  eapply wp_mono; [apply (kept_run acts true _ [] (inv_start count))|]. intros os s [L Hi] Hb. rewrite Hb in Hi. cbn [andb] in Hi.
  assert (Href : forall a, is_Some (m_bufs (s_mem s) !! a) -> refers s a) by (intros a; by eapply inv_refers). split; [done|].
  intros Ec Em Eh. assert (E : m_bufs (s_mem s) = ∅).
  { apply map_empty. intros a. destruct (m_bufs (s_mem s) !! a) as [b|] eqn:Eb; [|done]. exfalso. destruct (Href a) as [(c & Hin & _)|[(r & Hin & _)|(h & Hin & _)]];
      [eauto|..]; [rewrite Ec in Hin | rewrite Em in Hin | rewrite Eh in Hin]; by apply elem_of_nil in Hin. }
  split; [done|]. apply map_eq. intros [|a].
  - rewrite lookup_singleton_eq. pose proof (mo_chain _ _ (iv_mem _ _ _ Hi)) as Hc. destruct L as [|x L]; [done|].
    destruct (mem_ok_in _ _ x (iv_mem _ _ _ Hi)) as [b Hx]; [apply elem_of_cons; by left|]. by rewrite E, lookup_empty in Hx.
  - rewrite lookup_singleton_ne by done. apply eq_None_not_Some. intros Hx. apply (mo_nodes _ _ (iv_mem _ _ _ Hi)) in Hx as [b Hx].
    by rewrite E, lookup_empty in Hx.
Qed.

(** C22: No reply is lost.  While a caller waits for a call, its call is in the
    queue or with the service without a reply; or else the reply is there and
    [rpc_wait] returns 0 at once. *)
Theorem rpc_reply_arrives (count : Z) (acts : list action) (i : nat) :
  wp (run acts) (fun _ s => forall c, s_clients s !! i = Some c -> c_phase c = CWait ->
    (exists a, r_data (c_rpc c) = Some a /\ service_uses s a) \/
    forall expired, exists s', exec (AWait i expired) s = Some (ORet 0, s')) (utask_new count).
Proof.
  eapply wp_mono; [apply (kept_run acts true _ [] (inv_start count))|]. intros os s [L Hi] c Hc Hp.
  destruct (waiting_or_given _ s L i c Hi Hc Hp) as [?|Hgiven]; [by left|]. right. intros expired.
  destruct (wp_run _ _ _ (wp_wait_given s i c expired Hc Hp Hgiven)) as (o & s' & Hs & ->). eauto.
Qed.


Lemma bind_step {S A B} (f : st S A) (k : A -> st S B) (z z1 : S) x : f z = Some (x, z1) -> bind f k z = k x z1.
Proof. unfold bind. by intros ->. Qed.

(** After a value whose length is not a multiple of 4 the next one cannot
    be put: its length would be written to an address that is not a multiple
    of 4, which traps on the Cortex-M0. *)
Theorem rpc_put_unaligned (rpc : rpc_t) (a : nat) (b : rpc_buffer_t) (vals : list (list Z)) (idx : nat) (d : list Z) (m : rmem) :
  r_data rpc = Some a -> m_bufs m !! a = Some b -> buf_rep b vals idx -> d <> [] -> b_size b mod 4 <> 0 ->
  (forall n, block_ok (m_allocs m) n = true) -> rpc_put_buffer rpc (Some d) m = None.
Proof.
  intros Ha Hb Hr Hd Hal Hmem. destruct d as [|x d']; [done|]. set (d := x :: d') in *.
  set (b' := set_size (u16 (b_size b + Z.of_nat (4 + length d))) (set_block (Some ((Some <$> frames vals) ++ replicate (4 + length d) None)) b)).
  assert (Hs : rpc_buffer_need_size a (Z.of_nat (length d) + 4) m = Some (Some (b_size b), with_buf (with_alloc m) a b')).
  { replace (Z.of_nat (length d) + 4) with (Z.of_nat (4 + length d)) by lia.
    destruct (wp_run (rpc_buffer_need_size a (Z.of_nat (4 + length d))) (fun r m' => r = Some (b_size b) /\ m' = with_buf (with_alloc m) a b') m)
      as (r & m' & Hs & -> & ->); [|done]. apply (wp_need_size a b vals idx); [done | done | by rewrite Hmem | done]. }
  unfold rpc_put_buffer, d at 1. cbv beta iota. fold d. rewrite Ha. erewrite bind_step by reflexivity. cbv beta iota. rewrite (bind_step _ _ _ _ _ Hs). cbv beta iota.
  erewrite bind_step by (unfold get_buf, bind, gets; rewrite with_buf_lookup; reflexivity).
  erewrite bind_step by reflexivity. unfold bind at 1, store_u32. replace (_ =? 0)%nat with false; [done|]. symmetry. apply Nat.eqb_neq. intros E. apply Hal.
  rewrite (br_size _ _ _ Hr), Nat2Z.id in *. apply (f_equal Z.of_nat) in E. by rewrite Nat2Z.inj_mod in E.
Qed.
End Claims.

(** ** Examples *)

#[export] Instance four_buffers : Allocator := first_free 4.
#[export] Instance enough_blocks : Blocks := mkBlocks (fun _ _ => true).

(** A call with one argument and one result; the service ends after the
    caller. *)
Definition call_and_reply : list action :=
  [STake; AInit 5 AOS_WAIT_FOREVER; APut 0 (le32 7); ACall 0; ATry 0; AWait 0 false; STake; SGet 0 4; SPutReset 0; SPut 0 (le32 49); SReply 0;
   AWait 0 false; AGet 0 4; ADeinit 0; SDeinit 0].

Example call_and_reply_runs : exists s, run call_and_reply (utask_new 8) =
  Some ([ONo; ORet 0; ORet 0; ORet 0; ORet 0; ONo; ORet 5; OValue (le32 7); ORet 0; ORet 0; ORet 0; ORet 0; OValue (le32 49); ORet 0; ORet 0], s) /\
  m_bufs (s_mem s) = ∅.
Proof. eexists. split; vm_compute; reflexivity. Qed.

(** The caller gives up waiting; the buffer lives until the service is done
    with it. *)
Example timeout_runs : exists s, run [AInit 5 100; ACall 0; ATry 0; AWait 0 true; ADeinit 0; STake; SPut 0 [1]; SReply 0; SDeinit 0] (utask_new 8) =
  Some ([ORet 0; ORet 0; ORet 0; ORet (-1); ORet 0; ORet 5; ORet 0; ORet 0; ORet 0], s) /\ m_bufs (s_mem s) = ∅.
Proof. eexists. split; vm_compute; reflexivity. Qed.

(** A task made with a queue of one call: its ring buffer has no room for the
    length, and a call made before the task waits is refused; the buffer of the
    call is lost. *)
Example queue_of_one_refuses : exists s, run [AInit 5 100; ACall 0; ATry 0; ATry 0; ADeinit 0] (utask_new 1) =
  Some ([ORet 0; ORet 0; ONo; OFull; ORet 0], s) /\ s_clients s = [] /\ msgs s = [] /\ s_held s = [] /\ size (m_bufs (s_mem s)) = 1%nat.
Proof. eexists. split_and!; vm_compute; reflexivity. Qed.

(** The warning about a full queue reads [current_rpc] while no handler
    runs. *)
Example full_queue_reads_null : exists s, run [AInit 5 100; ACall 0; ATry 0; AInit 6 100; ACall 1; ATry 1] (utask_new 2) =
  Some ([ORet 0; ORet 0; ORet 0; ORet 0; ORet 0; ONo], s) /\ s_log s = [(6, None)].
Proof. eexists. split_and!; vm_compute; reflexivity. Qed.



(** A buffer with a value of one byte. *)
Definition one_byte : rpc_buffer_t := mkBuf 100 (Some (Some <$> frames [[9]])) 5 0 (Some 0).
Definition one_byte_mem : rmem := mkRmem {[ 0%nat := one_byte ]} {[ RCache := None; RBuf 0 := None ]} 2.

Lemma rpc_put_unaligned_witness : rpc_put_buffer (mkRpc None 5 (Some 0%nat)) (Some (le32 7)) one_byte_mem = None.
Proof.
  apply (rpc_put_unaligned _ 0 one_byte [[9]] 0).
  - reflexivity.
  - reflexivity.
  - split; try done; [intros [|i] Hi; [done | simpl in Hi; lia] | simpl; lia].
  - done.
  - done.
  - reflexivity.
Defined.
