(* ===== verification/UTask.v ===== *)
(** * Services and their tasks (kernel/uService/utask.c, uservice.c)

    Service tasks are in one list, and each has a list of its services.  The
    lists are single linked lists in memory; a task or service that was freed is
    not in memory any more, and following a pointer to it is a fault.  The queue,
    mutex, semaphore and kernel task of a service task are objects that can be
    created or not; the calls they carry are the subject of [Rpc]. *)

From S2P Require Import Prelude.
From S2P Require Import Monad.
From S2P Require Import SList.

(** ** Memory *)

(** [utask_list], the [node] and [uservice_lists] of a task, the [next] of a
    service. *)
Inductive unode := UTasks | UTaskNode (t : nat) | USrvs (t : nat) | USrvNode (a : nat).

#[export] Instance unode_eq_dec : EqDecision unode.
Proof. solve_decision. Defined.

#[export] Instance unode_countable : Countable unode.
Proof.
  refine (inj_countable'
    (fun n => match n with UTasks => inl tt | UTaskNode a => inr (inl a) | USrvs a => inr (inr (inl a)) | USrvNode a => inr (inr (inr a)) end)
    (fun c => match c with inl _ => UTasks | inr (inl a) => UTaskNode a | inr (inr (inl a)) => USrvs a | inr (inr (inr a)) => USrvNode a end) _).
  by intros [].
Defined.

Record uservice_t := mkSrv { us_name : string; us_context : Z; us_process_rpc : Z; us_task : option nat }.

(** [ut_heap]: the task was allocated by [utask_new]. *)
Record utask_t := mkUtask { ut_running : Z; ut_queue_count : Z; ut_heap : bool }.

Record usys := mkUsys {
  u_tasks : gmap nat utask_t;
  u_srvs : gmap nat uservice_t;
  u_next : gmap unode (option unode);
  u_allocs : nat;
}.

#[export] Instance usys_links : HasSLinks usys unode.
Proof.
  refine (mkHasSLinks usys unode _ _ u_next (fun m s => mkUsys (u_tasks s) (u_srvs s) m (u_allocs s)) _ _ _); [done | done | by intros []].
Defined.

Abbreviation U := (st usys).

Definition set_tasks m (s : usys) : usys := mkUsys m (u_srvs s) (u_next s) (u_allocs s).
Definition set_srvs m (s : usys) : usys := mkUsys (u_tasks s) m (u_next s) (u_allocs s).

Definition get_task (t : nat) : U utask_t := m <- gets u_tasks ;; lift (m !! t).
Definition put_task (t : nat) (v : utask_t) : U unit := get_task t ;; modify (fun s => set_tasks (<[t := v]> (u_tasks s)) s).
Definition get_srv (a : nat) : U uservice_t := m <- gets u_srvs ;; lift (m !! a).
Definition put_srv (a : nat) (v : uservice_t) : U unit := get_srv a ;; modify (fun s => set_srvs (<[a := v]> (u_srvs s)) s).

Section Services.
Context `{Allocator}.

(** Zeroed memory for a task, for a service. *)
Definition zalloc_task : U (option nat) :=
  s <- gets id ;;
  match zalloc (u_allocs s) (dom (u_tasks s)) with
  | Some t =>
      modify (fun s => mkUsys (<[t := mkUtask 0 0 true]> (u_tasks s)) (u_srvs s) (<[UTaskNode t := None]> (<[USrvs t := None]> (u_next s))) (S (u_allocs s))) ;;
      ret (Some t)
  | None => modify (fun s => mkUsys (u_tasks s) (u_srvs s) (u_next s) (S (u_allocs s))) ;; ret None
  end.

Definition zalloc_srv : U (option nat) :=
  s <- gets id ;;
  match zalloc (u_allocs s) (dom (u_srvs s)) with
  | Some a =>
      modify (fun s => mkUsys (u_tasks s) (<[a := mkSrv EmptyString 0 0 None]> (u_srvs s)) (<[USrvNode a := None]> (u_next s)) (S (u_allocs s))) ;;
      ret (Some a)
  | None => modify (fun s => mkUsys (u_tasks s) (u_srvs s) (u_next s) (S (u_allocs s))) ;; ret None
  end.

(** [aos_free]; memory that was not allocated cannot be freed. *)
Definition free_task (t : nat) : U unit :=
  v <- get_task t ;;
  if ut_heap v then modify (fun s => mkUsys (delete t (u_tasks s)) (u_srvs s) (delete (UTaskNode t) (delete (USrvs t) (u_next s))) (u_allocs s))
  else fault.

Definition free_srv (a : nat) : U unit :=
  get_srv a ;; modify (fun s => mkUsys (u_tasks s) (delete a (u_srvs s)) (delete (USrvNode a) (u_next s)) (u_allocs s)).

(** ** uservice.c *)

(** [aos_assert] stops the program. *)
Definition uservice_new (name : string) (process_rpc context : Z) : U (option nat) :=
  if process_rpc =? 0 then fault
  else
    srv <- zalloc_srv ;;
    match srv with
    | None => ret None
    | Some a => put_srv a (mkSrv name context process_rpc None) ;; ret (Some a)
    end.

Definition uservice_destroy (a : nat) : U unit := free_srv a.

(** [rpcs]: the commands with what their functions return.  The result, and
    whether a reply is sent. *)
Fixpoint uservice_process (rpcs : list (Z * Z)) (cmd_id : Z) : Z * bool :=
  match rpcs with
  | [] => (-1, false)
  | (c, r) :: rpcs' => if c =? cmd_id then (0, 0 <=? r) else uservice_process rpcs' cmd_id
  end.

(** ** utask.c *)

(** Whether the queue, the mutex, the semaphore and the kernel task can be
    created. *)
Record objects := mkObjects { o_queue : bool; o_mutex : bool; o_sem : bool; o_task : bool }.

(** From [running = 1] to the creation of the kernel task; [out]: what the
    labels [out0] to [out3] do. *)
Definition utask_setup (t : nat) (heap : bool) (queue_count : Z) (o : objects) (out : U unit) : U (option nat) :=
  slist_init (USrvs t) ;;
  slist_add_tail (UTaskNode t) UTasks ;;
  put_task t (mkUtask 1 (u8 queue_count) heap) ;;
  if negb (o_queue o) then out ;; ret None
  else if negb (o_mutex o) then out ;; ret None
  else if negb (o_sem o) then out ;; ret None
  else if negb (o_task o) then out ;; ret None
  else ret (Some t).

Definition utask_new (stack_size queue_count : Z) (o : objects) : U (option nat) :=
  if (stack_size <=? 0) || (queue_count <=? 0) then ret None
  else
    task <- zalloc_task ;;
    match task with
    | None => ret None
    | Some t => utask_setup t true queue_count o (free_task t)
    end.

(** The memory [t] of the caller is not used by another task. *)
Definition utask_new_ext (t : nat) (stack_size queue_length : Z) (o : objects) : U (option nat) :=
  if (stack_size <=? 0) || (queue_length <=? 0) then ret None
  else
    modify (fun s => mkUsys (<[t := mkUtask 0 0 false]> (u_tasks s)) (u_srvs s) (<[UTaskNode t := None]> (<[USrvs t := None]> (u_next s))) (u_allocs s)) ;;
    utask_setup t false queue_length o (ret tt).

Definition utask_add (t a : nat) : U unit :=
  v <- get_srv a ;;
  match us_task v with
  | None =>
      put_srv a (mkSrv (us_name v) (us_context v) (us_process_rpc v) (Some t)) ;;
      slist_add_tail (USrvNode a) (USrvs t)
  | Some _ => ret tt
  end.

Definition utask_remove (t a : nat) : U unit :=
  slist_del (USrvNode a) (USrvs t) ;;
  v <- get_srv a ;; put_srv a (mkSrv (us_name v) (us_context v) (us_process_rpc v) None).

Definition task_get (t : nat) (name : string) : U (option nat) :=
  fuel <- slist_fuel ;; cur <- get_snext (USrvs t) ;;
  slist_for_each fuel (fun n => match n with
    | USrvNode a => v <- get_srv a ;; ret (if bool_decide (us_name v = name) then Some a else None)
    | _ => fault
    end) cur.

(** [slist_for_each_entry_safe] with [utask_remove]. *)
Fixpoint remove_loop (fuel t : nat) (cur : option unode) : U unit :=
  match fuel with
  | O => fault
  | S f =>
      match cur with
      | None => ret tt
      | Some (USrvNode a) => tmp <- get_snext (USrvNode a) ;; utask_remove t a ;; remove_loop f t tmp
      | Some _ => fault
      end
  end.

(** The task gets the command to end, and has ended when [aos_sem_wait]
    returns. *)
Definition utask_join (t : nat) : U unit :=
  v <- get_task t ;;
  put_task t (mkUtask 0 (ut_queue_count v) (ut_heap v)) ;;
  slist_del (UTaskNode t) UTasks ;;
  fuel <- slist_fuel ;; cur <- get_snext (USrvs t) ;; remove_loop fuel t cur ;;
  free_task t.

Definition utask_destroy (t : nat) : U unit := utask_join t.

Definition MIN_SOFTWDT_TIME : Z := 2000.

Definition utask_set_softwdt_timeout (ms : Z) : Z := if ms =? 0 then 0 else if ms <? MIN_SOFTWDT_TIME then MIN_SOFTWDT_TIME else ms.

(** ** Sequences of calls *)

Inductive uact :=
  | UNewSrv (name : string) (process_rpc context : Z)
  | UDestroy (a : nat)
  | UNew (stack_size queue_count : Z) (o : objects)
  | UNewExt (t : nat) (stack_size queue_length : Z) (o : objects)
  | UAdd (t a : nat)
  | URemove (t a : nat)
  | UJoin (t : nat).

(** Calls within the contract: services are destroyed when they belong to no
    task, removed from the task they belong to, tasks exist, a task is made on
    memory that no task uses, and only tasks made by [utask_new] are ended.  Other
    calls do nothing here. *)
Definition uexec (act : uact) : U unit :=
  s <- gets id ;;
  match act with
  | UNewSrv name process_rpc context => if process_rpc =? 0 then ret tt else uservice_new name process_rpc context ;; ret tt
  | UDestroy a => match u_srvs s !! a with Some v => match us_task v with None => uservice_destroy a | Some _ => ret tt end | None => ret tt end
  | UNew stack_size queue_count o => utask_new stack_size queue_count o ;; ret tt
  | UNewExt t stack_size queue_length o => match u_tasks s !! t with None => utask_new_ext t stack_size queue_length o ;; ret tt | Some _ => ret tt end
  | UAdd t a => match u_tasks s !! t, u_srvs s !! a with Some _, Some _ => utask_add t a | _, _ => ret tt end
  | URemove t a => match u_srvs s !! a with Some v => if bool_decide (us_task v = Some t) then utask_remove t a else ret tt | None => ret tt end
  | UJoin t => match u_tasks s !! t with Some v => if ut_heap v then utask_join t else ret tt | None => ret tt end
  end.

(** The queue, the mutex, the semaphore and the kernel task of every new task are
    created. *)
Definition all_created (act : uact) : bool :=
  match act with UNew _ _ o | UNewExt _ _ _ o => o_queue o && o_mutex o && o_sem o && o_task o | _ => true end.

Fixpoint urun (acts : list uact) : U unit :=
  match acts with [] => ret tt | act :: acts => uexec act ;; urun acts end.

(** No tasks and no services. *)
Definition us_start : usys := mkUsys ∅ ∅ {[ UTasks := None ]} 0.
End Services.
