(* ===== verification/UTaskInv.v ===== *)
(** * The lists of services and tasks

    What the lists in memory mean, and that every operation on them keeps
    it. *)

From stdpp Require Import functions.
From S2P Require Import Prelude.
From S2P Require Import Monad.
From S2P Require Import SList.
From S2P Require Import UTask.

(** ** The lists in memory

    [urep s ts ds V]: the tasks [ts] are in the list of tasks, the tasks [ds]
    exist, and the list of task [t] holds the services [V t]: those whose [task]
    is [t]. *)

Record urep (s : usys) (ts ds : list nat) (V : nat -> list nat) : Prop := mkUrep {
  ur_tasks : schain (u_next s) UTasks (UTaskNode <$> ts);
  ur_dom : forall t, t ∈ ds <-> is_Some (u_tasks s !! t);
  ur_srvs : forall t, t ∈ ds -> schain (u_next s) (USrvs t) (USrvNode <$> V t);
  ur_in : forall a t, a ∈ V t <-> exists v, u_srvs s !! a = Some v /\ us_task v = Some t;
  ur_task : forall a v t, u_srvs s !! a = Some v -> us_task v = Some t -> t ∈ ds;
  ur_node : forall a, is_Some (u_srvs s !! a) -> is_Some (u_next s !! USrvNode a);
}.

Section Lists.
Implicit Types (s : usys) (ts ds : list nat) (V : nat -> list nat).

Lemma tasks_nodup s ts ds V : urep s ts ds V -> NoDup ts.
Proof. intros Hr. pose proof (schain_nodup _ _ _ (ur_tasks _ _ _ _ Hr)) as Hnd. apply NoDup_cons in Hnd as [_ Hnd]. by apply NoDup_fmap_1 in Hnd. Qed.

Lemma srvs_nodup s ts ds V t : urep s ts ds V -> t ∈ ds -> NoDup (V t).
Proof. intros Hr Ht. pose proof (schain_nodup _ _ _ (ur_srvs _ _ _ _ Hr t Ht)) as Hnd. apply NoDup_cons in Hnd as [_ Hnd]. by apply NoDup_fmap_1 in Hnd. Qed.

Lemma no_task_no_srvs s ts ds V t : urep s ts ds V -> t ∉ ds -> V t = [].
Proof.
  intros Hr Ht. destruct (V t) as [|a r] eqn:E; [done|]. exfalso. assert (Ha : a ∈ V t) by (rewrite E; apply elem_of_cons; by left).
  apply (ur_in _ _ _ _ Hr) in Ha as (v & Hv & Et). by apply Ht, (ur_task _ _ _ _ Hr a v).
Qed.

(** The nodes of the lists are different. *)
Lemma before_task ts : before UTasks (UTaskNode <$> ts) = UTasks \/ exists t, t ∈ ts /\ before UTasks (UTaskNode <$> ts) = UTaskNode t.
Proof.
  pose proof (before_in UTasks (UTaskNode <$> ts)) as Hb. apply elem_of_cons in Hb as [Hb|Hb]; [by left|]. right.
  apply list_elem_of_fmap in Hb as (t & Hb & Ht). eauto.
Qed.

Lemma before_srv t l : before (USrvs t) (USrvNode <$> l) = USrvs t \/ exists a, a ∈ l /\ before (USrvs t) (USrvNode <$> l) = USrvNode a.
Proof.
  pose proof (before_in (USrvs t) (USrvNode <$> l)) as Hb. apply elem_of_cons in Hb as [Hb|Hb]; [by left|]. right.
  apply list_elem_of_fmap in Hb as (a & Hb & Ha). eauto.
Qed.

(** The services of other tasks do not change. *)
Lemma other_srvs s ts ds V m' t t' (P : unode -> Prop) : urep s ts ds V -> t' ∈ ds -> t <> t' -> changed P (u_next s) m' ->
  (forall n, P n -> n = USrvs t \/ (exists a, n = USrvNode a /\ a ∉ V t') \/ n = UTasks \/ exists x, n = UTaskNode x) ->
  schain m' (USrvs t') (USrvNode <$> V t').
Proof.
  intros Hr Ht Hne [Hs _] HP. eapply schain_same; [|by apply (ur_srvs _ _ _ _ Hr)]. intros n Hn. apply Hs. intros Hp.
  destruct (HP n Hp) as [->|[(a & -> & Ha)|[->|[x ->]]]]; apply elem_of_cons in Hn as [Hn|Hn]; try done; try congruence.
  all: apply list_elem_of_fmap in Hn as (y & E & Hy); try done. injection E as <-. done.
Qed.

Lemma tasks_chain s ts ds V m' (P : unode -> Prop) : urep s ts ds V -> changed P (u_next s) m' ->
  (forall n, P n -> (exists t, n = USrvs t) \/ exists a, n = USrvNode a) -> schain m' UTasks (UTaskNode <$> ts).
Proof.
  intros Hr [Hs _] HP. eapply schain_same; [|by apply (ur_tasks _ _ _ _ Hr)]. intros n Hn. apply Hs. intros Hp.
  destruct (HP n Hp) as [[t ->]|[a ->]]; apply elem_of_cons in Hn as [Hn|Hn]; try done; by apply list_elem_of_fmap in Hn as (y & E & Hy).
Qed.

Lemma nodes_kept s ts ds V m' (P : unode -> Prop) : urep s ts ds V -> changed P (u_next s) m' -> forall a, is_Some (u_srvs s !! a) -> is_Some (m' !! USrvNode a).
Proof. intros Hr [_ Hd] a Ha. apply elem_of_dom. rewrite Hd. apply elem_of_dom. by apply (ur_node _ _ _ _ Hr). Qed.

Definition with_task (v : uservice_t) (o : option nat) : uservice_t := mkSrv (us_name v) (us_context v) (us_process_rpc v) o.

Lemma wp_get_srv a v (Q : uservice_t -> usys -> Prop) s : u_srvs s !! a = Some v -> Q v s -> wp (get_srv a) Q s.
Proof. intros Hv HQ. unfold get_srv. by msteps. Qed.

Lemma wp_put_srv a v (Q : unit -> usys -> Prop) s : is_Some (u_srvs s !! a) -> Q tt (set_srvs (<[a := v]> (u_srvs s)) s) -> wp (put_srv a v) Q s.
Proof. intros [x Hx] HQ. unfold put_srv. by apply wp_bind, (wp_get_srv a x). Qed.

Lemma wp_get_task t v (Q : utask_t -> usys -> Prop) s : u_tasks s !! t = Some v -> Q v s -> wp (get_task t) Q s.
Proof. intros Hv HQ. unfold get_task. by msteps. Qed.

Lemma wp_put_task t v (Q : unit -> usys -> Prop) s : is_Some (u_tasks s !! t) -> Q tt (set_tasks (<[t := v]> (u_tasks s)) s) -> wp (put_task t v) Q s.
Proof. intros [x Hx] HQ. unfold put_task. by apply wp_bind, (wp_get_task t x). Qed.

(** ** Adding and removing a service *)

Lemma wp_utask_add s ts ds V t a v (Q : unit -> usys -> Prop) : urep s ts ds V -> t ∈ ds -> u_srvs s !! a = Some v ->
  (us_task v <> None -> Q tt s) ->
  (forall s', us_task v = None -> urep s' ts ds (<[t := V t ++ [a]]> V) -> u_tasks s' = u_tasks s -> Q tt s') -> wp (utask_add t a) Q s.
Proof.
  intros Hr Ht Hv H0 HQ. unfold utask_add. apply wp_bind, (wp_get_srv a v); [done|]. destruct (us_task v) as [t0|] eqn:Et; [by apply wp_ret, H0|].
  apply wp_bind, wp_put_srv; [eauto|]. fold (with_task v (Some t)).
  assert (Hno : forall t', a ∉ V t'). { intros t' Ha. apply (ur_in _ _ _ _ Hr) in Ha as (v' & Hv' & E). congruence. }
  apply (wp_slist_add_tail (USrvNode a) (USrvs t) (USrvNode <$> V t)).
  - by apply (ur_srvs _ _ _ _ Hr).
  - apply (ur_node _ _ _ _ Hr). eauto.
  - intros [?|(y & [= <-] & Hy)%list_elem_of_fmap]%elem_of_cons; [done | by apply (Hno t)].
  - intros m' Hc Hch. apply HQ; [done | | done].
    assert (HP : forall n, n = before (USrvs t) (USrvNode <$> V t) \/ n = USrvNode a -> n = USrvs t \/ exists b, n = USrvNode b /\ (b = a \/ b ∈ V t)).
    { intros n [->| ->]; [|right; eauto]. destruct (before_srv t (V t)) as [->|(b & Hb & ->)]; [by left | right; eauto]. }
    split; cbn [u_next u_tasks u_srvs with_slinks usys_links set_srvs].
    + eapply tasks_chain; [done | exact Hch|]. intros n Hn. destruct (HP n Hn) as [->|(b & -> & _)]; eauto.
    + apply Hr.
    + intros t' Ht'. destruct (decide (t = t')) as [<-|Hne]; [rewrite fn_lookup_insert, fmap_app; exact Hc|]. rewrite fn_lookup_insert_ne by done.
      eapply other_srvs; [done | done | exact Hne | exact Hch|]. intros n Hn. destruct (HP n Hn) as [->|(b & -> & Hb)]; [by left|]. right. left. exists b. split; [done|].
      destruct Hb as [->|Hb]; [apply Hno|]. intros Hb'. apply (ur_in _ _ _ _ Hr) in Hb as (x & Hx & E). apply (ur_in _ _ _ _ Hr) in Hb' as (x' & Hx' & E'). congruence.
    + intros b t'. destruct (decide (b = a)) as [->|Hba].
      * rewrite lookup_insert_eq. split.
        -- intros Hin. exists (with_task v (Some t)). split; [done|]. destruct (decide (t = t')) as [<-|Hne]; [done|]. rewrite fn_lookup_insert_ne in Hin by done. by destruct (Hno t').
        -- intros (x & [= <-] & E). simpl in E. injection E as <-. rewrite fn_lookup_insert, elem_of_app, list_elem_of_singleton. by right.
      * rewrite lookup_insert_ne, <- (ur_in _ _ _ _ Hr) by done. destruct (decide (t = t')) as [<-|]; [rewrite fn_lookup_insert, elem_of_app, list_elem_of_singleton; tauto|].
        by rewrite fn_lookup_insert_ne.
    + intros b x t'. destruct (decide (b = a)) as [->|]; [rewrite lookup_insert_eq; intros [= <-] [= <-]; done | rewrite lookup_insert_ne by done; apply (ur_task _ _ _ _ Hr)].
    + intros b Hb. eapply nodes_kept; [done | exact Hch|]. destruct (decide (b = a)) as [->|]; [eauto | by rewrite lookup_insert_ne in Hb].
Qed.

Lemma wp_utask_remove s ts ds V t a p q (Q : unit -> usys -> Prop) : urep s ts ds V -> V t = p ++ a :: q ->
  (forall s', urep s' ts ds (<[t := p ++ q]> V) -> u_tasks s' = u_tasks s -> Q tt s') -> wp (utask_remove t a) Q s.
Proof.
  intros Hr HV HQ. assert (Ha : a ∈ V t) by (rewrite HV; apply elem_of_app; right; apply elem_of_cons; by left).
  apply (ur_in _ _ _ _ Hr) in Ha as (v & Hv & Et). pose proof (ur_task _ _ _ _ Hr a v t Hv Et) as Ht.
  pose proof (ur_srvs _ _ _ _ Hr t Ht) as Hc. pose proof (srvs_nodup _ _ _ _ _ Hr Ht) as Hnd. rewrite HV in Hc, Hnd. rewrite fmap_app in Hc.
  assert (Hnq : a ∉ p ++ q). { apply NoDup_app in Hnd as (_ & Hd & Hnd). apply NoDup_cons in Hnd as [Hq _]. intros [Hp|?]%elem_of_app; [|done]. apply (Hd a Hp), elem_of_cons. by left. }
  unfold utask_remove. apply wp_bind, (wp_slist_del_in (USrvNode a) (USrvs t) (USrvNode <$> p) (USrvNode <$> q)); [exact Hc|]. intros m' Hc' Hch.
  apply wp_bind, (wp_get_srv a v); [done|]. apply wp_put_srv; [simpl; eauto|]. fold (with_task v None). apply HQ; [|done].
  assert (HP : forall n, n = before (USrvs t) (USrvNode <$> p) -> n = USrvs t \/ exists b, n = USrvNode b /\ b ∈ V t).
  { intros n ->. destruct (before_srv t p) as [->|(b & Hb & ->)]; [by left | right; exists b; split; [done|]; rewrite HV; apply elem_of_app; by left]. }
  split; cbn [u_next u_tasks u_srvs with_slinks usys_links set_srvs].
  - eapply tasks_chain; [done | exact Hch|]. intros n Hn. destruct (HP n Hn) as [->|(b & -> & _)]; eauto.
  - apply Hr.
  - intros t' Ht'. destruct (decide (t = t')) as [<-|Hne]; [rewrite fn_lookup_insert, fmap_app; exact Hc'|]. rewrite fn_lookup_insert_ne by done.
    eapply other_srvs; [done | done | exact Hne | exact Hch|]. intros n Hn. destruct (HP n Hn) as [->|(b & -> & Hb)]; [by left|]. right. left. exists b. split; [done|].
    intros Hb'. apply (ur_in _ _ _ _ Hr) in Hb as (x & Hx & E). apply (ur_in _ _ _ _ Hr) in Hb' as (x' & Hx' & E'). congruence.
  - intros b t'. destruct (decide (b = a)) as [->|Hba].
    + rewrite lookup_insert_eq. split; [|by intros (x & [= <-] & E)]. destruct (decide (t = t')) as [<-|Hne]; [by rewrite fn_lookup_insert|].
      rewrite fn_lookup_insert_ne by done. intros Hin. apply (ur_in _ _ _ _ Hr) in Hin as (x & Hx & E). congruence.
    + rewrite lookup_insert_ne, <- (ur_in _ _ _ _ Hr) by done. destruct (decide (t = t')) as [<-|]; [|by rewrite fn_lookup_insert_ne].
      rewrite fn_lookup_insert, HV, !elem_of_app, elem_of_cons. naive_solver.
  - intros b x t'. destruct (decide (b = a)) as [->|]; [rewrite lookup_insert_eq; by intros [= <-] | rewrite lookup_insert_ne by done; apply (ur_task _ _ _ _ Hr)].
  - intros b Hb. eapply nodes_kept; [done | exact Hch|]. destruct (decide (b = a)) as [->|]; [eauto | by rewrite lookup_insert_ne in Hb].
Qed.

Lemma urep_ext s ts ds V V' : urep s ts ds V -> (forall t, V' t = V t) -> urep s ts ds V'.
Proof. intros [H1 H2 H3 H4 H5 H6] E. split; try done; [intros t Ht; rewrite E; by apply H3 | intros a t; rewrite E; apply H4]. Qed.

Lemma wp_remove_loop t l : forall fuel s ts ds V (Q : unit -> usys -> Prop), urep s ts ds V -> t ∈ ds -> V t = l -> (length l < fuel)%nat ->
  (forall s', urep s' ts ds (<[t := []]> V) -> u_tasks s' = u_tasks s -> Q tt s') -> wp (remove_loop fuel t (head (USrvNode <$> l))) Q s.
Proof.
  induction l as [|a l IHl]; intros fuel s ts ds V Q Hr Ht HV Hf HQ; (destruct fuel as [|fuel]; [simpl in Hf; lia|]); simpl.
  - apply wp_ret, HQ; [|done]. eapply urep_ext; [done|]. intros t'. destruct (decide (t = t')) as [<-|]; [by rewrite fn_lookup_insert | by rewrite fn_lookup_insert_ne].
  - pose proof (ur_srvs _ _ _ _ Hr t Ht) as Hc. rewrite HV in Hc. destruct Hc as [_ Hc]. apply schain_head in Hc.
    apply wp_bind, (wp_get_snext (USrvNode a) (head (USrvNode <$> l))); [exact Hc|]. apply wp_bind, (wp_utask_remove s ts ds V t a [] l); [done | done|].
    intros s' Hr' Et. apply (IHl fuel s' ts ds (<[t := l]> V)); [exact Hr' | done | by rewrite fn_lookup_insert | simpl in Hf; lia|].
    intros s2 Hr2 Et2. apply HQ; [|by rewrite Et2]. eapply urep_ext; [exact Hr2|].
    intros t'. destruct (decide (t = t')) as [<-|]; [by rewrite !fn_lookup_insert | by rewrite !fn_lookup_insert_ne].
Qed.

(** ** Tasks *)

(** Changes of the list of tasks do not concern services. *)
Lemma urep_tasks_list s ts ts' ds V m' : urep s ts ds V -> schain m' UTasks (UTaskNode <$> ts') ->
  (forall n, m' !! n <> u_next s !! n -> n = UTasks \/ exists t, n = UTaskNode t) -> urep (with_slinks m' s) ts' ds V.
Proof.
  intros Hr Hc Hm. assert (Hs : forall n, (forall t, n <> UTaskNode t) -> n <> UTasks -> m' !! n = u_next s !! n).
  { intros n H1 H2. destruct (decide (m' !! n = u_next s !! n)) as [|Hne]; [done|]. destruct (Hm n Hne) as [->|[t ->]]; [done | by destruct (H1 t)]. }
  split; cbn [u_next u_tasks u_srvs with_slinks usys_links]; try apply Hr; [done | |].
  - intros t Ht. eapply schain_same; [|by apply (ur_srvs _ _ _ _ Hr)]. intros n [->|(a & -> & _)%list_elem_of_fmap]%elem_of_cons; by apply Hs.
  - intros a Ha. rewrite Hs by done. by apply (ur_node _ _ _ _ Hr).
Qed.

Lemma wp_utask_join s ts V t v (Q : unit -> usys -> Prop) : urep s ts ts V -> u_tasks s !! t = Some v -> ut_heap v = true ->
  (forall s' p q, ts = p ++ t :: q -> urep s' (p ++ q) (p ++ q) (<[t := []]> V) -> Q tt s') -> wp (utask_join t) Q s.
Proof.
  intros Hr Hv Hh HQ. assert (Ht : t ∈ ts) by (apply (ur_dom _ _ _ _ Hr); eauto). pose proof (tasks_nodup _ _ _ _ Hr) as Hnd.
  apply list_elem_of_split in Ht as (p & q & E). assert (Ht : t ∈ ts) by (rewrite E; apply elem_of_app; right; apply elem_of_cons; by left).
  unfold utask_join. apply wp_bind, (wp_get_task t v); [done|]. apply wp_bind, wp_put_task; [eauto|]. set (v' := mkUtask 0 _ _). set (s1 := set_tasks _ s).
  assert (Hr1 : urep s1 ts ts V).
  { destruct Hr. split; try done. intros t'. simpl. rewrite ur_dom0. destruct (decide (t = t')) as [<-|]; [rewrite lookup_insert_eq; split; eauto | by rewrite lookup_insert_ne]. }
  pose proof (ur_tasks _ _ _ _ Hr1) as Hc. rewrite E, fmap_app in Hc.
  apply wp_bind, (wp_slist_del_in (UTaskNode t) UTasks (UTaskNode <$> p) (UTaskNode <$> q)); [exact Hc|]. intros m' Hc' [Hs _].
  assert (Hr2 : urep (with_slinks m' s1) (p ++ q) ts V).
  { apply (urep_tasks_list s1 ts); [done | by rewrite fmap_app|]. intros n Hn. destruct (before_task p) as [Hb|(x & _ & Hb)].
    - destruct (decide (n = UTasks)); [by left|]. destruct Hn. apply Hs. congruence.
    - destruct (decide (n = UTaskNode x)); [right; eauto|]. destruct Hn. apply Hs. congruence. }
  set (s2 := with_slinks m' s1) in *. unfold slist_fuel. apply wp_bind, wp_bind, wp_gets, wp_ret. pose proof (ur_srvs _ _ _ _ Hr2 t Ht) as Hcs.
  apply wp_bind, (wp_get_snext (USrvs t) (head (USrvNode <$> V t))); [by apply schain_head in Hcs|]. apply wp_bind.
  pose proof (schain_length _ _ _ Hcs) as Hlen. rewrite length_fmap in Hlen. apply (wp_remove_loop t (V t) _ s2 (p ++ q) ts V); [done | done | done | cbn in *; lia|].
  intros s3 Hr3 Et3. assert (Hv3 : u_tasks s3 !! t = Some v') by (rewrite Et3; apply lookup_insert_eq). unfold free_task. apply wp_bind, (wp_get_task t v'); [done|].
  cbn [ut_heap v']. rewrite Hh. eapply run_wp; [reflexivity|]. apply (HQ _ p q E).
  assert (Hin : forall t', t' ∈ p ++ q <-> t' ∈ ts /\ t' <> t).
  { intros t'. rewrite E in Hnd |- *. apply NoDup_app in Hnd as (_ & Hd & Hnd). apply NoDup_cons in Hnd as [Hq _]. rewrite !elem_of_app, elem_of_cons. split; [|naive_solver].
    intros [Hp|?]; (split; [tauto|]); intros ->; [|done]. by apply (Hd t Hp), elem_of_cons; left. }
  assert (Hnot : forall x, x ∈ UTasks :: (UTaskNode <$> p ++ q) -> x <> UTaskNode t).
  { intros x [->|(y & -> & Hy)%list_elem_of_fmap]%elem_of_cons; [done|]. intros [= ->]. by apply Hin in Hy as [_ ?]. }
  destruct Hr3 as [R1 R2 R3 R4 R5 R6]. split; cbn [u_next u_tasks u_srvs].
  - eapply schain_same; [|exact R1]. intros n Hn. rewrite !lookup_delete_ne; [done | | by apply not_eq_sym, Hnot]. intros <-. apply elem_of_cons in Hn as [?|Hn]; [done|]. by apply list_elem_of_fmap in Hn as (? & ? & _).
  - intros t'. rewrite Hin. destruct (decide (t = t')) as [<-|Hne]; [rewrite lookup_delete_eq; split; [tauto | by intros []]|]. rewrite lookup_delete_ne, <- R2 by done. split; [tauto | split; [done | congruence]].
  - intros t' Ht'. apply Hin in Ht' as [Ht' Hne]. eapply schain_same; [|by apply R3]. intros n Hn.
    rewrite !lookup_delete_ne; [done | intros <-.. ]; apply elem_of_cons in Hn as [?|Hn]; try congruence; by apply list_elem_of_fmap in Hn as (? & ? & _).
  - exact R4.
  - intros a x t' Hx E'. apply Hin. split; [by eapply R5|]. intros ->. assert (Ha : a ∈ <[t := []]> V t) by (apply R4; eauto). rewrite fn_lookup_insert in Ha. by apply elem_of_nil in Ha.
  - intros a Ha. rewrite !lookup_delete_ne by done. by apply R6.
Qed.
End Lists.
