(* ===== verification/SpecUTask.v ===== *)
(** * Services and their tasks: what the lists promise *)

From stdpp Require Import functions.
From S2P Require Import Prelude.
From S2P Require Import Monad.
From S2P Require Import SList.
From S2P Require Import UTask.
From S2P Require Import UTaskInv.

Section Claims.
Context `{Allocator}.
Implicit Types (s : usys) (ts : list nat) (V : nat -> list nat).

(** ** New tasks and services *)

(** A task in memory that is not in the list of tasks yet. *)
Definition fresh_task s t heap n : usys :=
  mkUsys (<[t := mkUtask 0 0 heap]> (u_tasks s)) (u_srvs s) (<[UTaskNode t := None]> (<[USrvs t := None]> (u_next s))) n.

Lemma urep_fresh s ts V t heap n : urep s ts ts V -> u_tasks s !! t = None -> urep (fresh_task s t heap n) ts (ts ++ [t]) V.
Proof.
  intros Hr Ht. assert (Hn : t ∉ ts) by (rewrite (ur_dom _ _ _ _ Hr), Ht; by intros []). split; cbn [u_next u_tasks u_srvs fresh_task].
  - apply schain_insert_ne, schain_insert_ne; [..|apply Hr]; intros [?|(y & E & Hy)%list_elem_of_fmap]%elem_of_cons; try done. injection E as <-. done.
  - intros t'. rewrite elem_of_app, list_elem_of_singleton, (ur_dom _ _ _ _ Hr). destruct (decide (t = t')) as [<-|]; [rewrite lookup_insert_eq; split; eauto|].
    rewrite lookup_insert_ne by done. naive_solver.
  - intros t' [Ht'|Ht'%list_elem_of_singleton]%elem_of_app.
    + apply schain_insert_ne, schain_insert_ne; [..|by apply (ur_srvs _ _ _ _ Hr)]; intros [E|(y & E & Hy)%list_elem_of_fmap]%elem_of_cons; try done. injection E as <-. done.
    + subst t'. rewrite (no_task_no_srvs _ _ _ _ _ Hr Hn). simpl. by rewrite lookup_insert_ne, lookup_insert_eq.
  - apply Hr.
  - intros a v t' Hv E. apply elem_of_app. left. by apply (ur_task _ _ _ _ Hr a v).
  - intros a Ha. rewrite !lookup_insert_ne by done. by apply (ur_node _ _ _ _ Hr).
Qed.

(** Up to the creation of the queue. *)
Lemma wp_utask_link s ts V t heap n queue_count (k : U (option nat)) (Q : option nat -> usys -> Prop) : urep s ts ts V -> u_tasks s !! t = None ->
  (forall s', urep s' (ts ++ [t]) (ts ++ [t]) V -> u_tasks s' !! t = Some (mkUtask 1 (u8 queue_count) heap) -> wp k Q s') ->
  wp (slist_init (USrvs t) ;; slist_add_tail (UTaskNode t) UTasks ;; put_task t (mkUtask 1 (u8 queue_count) heap) ;; k) Q (fresh_task s t heap n).
Proof.
  intros Hr Ht HQ. assert (Hn : t ∉ ts) by (rewrite (ur_dom _ _ _ _ Hr), Ht; by intros []). pose proof (urep_fresh s ts V t heap n Hr Ht) as Hf.
  apply wp_bind. unfold slist_init. apply wp_put_snext; [cbn; rewrite lookup_insert_ne, lookup_insert_eq by done; eauto|].
  set (s1 := with_slinks _ _). assert (Hf1 : urep s1 ts (ts ++ [t]) V).
  { unfold s1. rewrite insert_id; [exact Hf|]. cbn. by rewrite lookup_insert_ne, lookup_insert_eq by done. }
  apply wp_bind, (wp_slist_add_tail (UTaskNode t) UTasks (UTaskNode <$> ts)).
  - apply Hf1.
  - cbn. rewrite lookup_insert_ne, lookup_insert_eq by done. eauto.
  - intros [?|(y & [= <-] & Hy)%list_elem_of_fmap]%elem_of_cons; done.
  - intros m' Hc [Hs _]. assert (Hr2 : urep (with_slinks m' s1) (ts ++ [t]) (ts ++ [t]) V).
    { apply (urep_tasks_list s1 ts); [done | by rewrite fmap_app|]. intros u Hne. destruct (before_task ts) as [Hb|(x & _ & Hb)].
      - destruct (decide (u = UTasks)); [by left|]. destruct (decide (u = UTaskNode t)); [right; eauto|]. destruct Hne. apply Hs. rewrite Hb. tauto.
      - destruct (decide (u = UTaskNode x)); [right; eauto|]. destruct (decide (u = UTaskNode t)); [right; eauto|]. destruct Hne. apply Hs. rewrite Hb. tauto. }
    apply wp_bind, wp_put_task; [cbn; rewrite lookup_insert_eq; eauto|]. apply HQ; [|apply lookup_insert_eq].
    destruct Hr2. split; try done. intros t'. cbn. rewrite ur_dom. cbn. destruct (decide (t = t')) as [<-|]; [rewrite !lookup_insert_eq; split; eauto | by rewrite !lookup_insert_ne].
Qed.

(** [k] after [utask_new] has put the task into the list. *)
Lemma wp_utask_new s ts V stack_size queue_count o (Q : option nat -> usys -> Prop) : urep s ts ts V ->
  (forall n, Q None (mkUsys (u_tasks s) (u_srvs s) (u_next s) n)) ->
  (forall t s', u_tasks s !! t = None -> urep s' (ts ++ [t]) (ts ++ [t]) V -> u_tasks s' !! t = Some (mkUtask 1 (u8 queue_count) true) ->
     if o_queue o && o_mutex o && o_sem o && o_task o then Q (Some t) s' else wp (free_task t ;; ret None) Q s') ->
  wp (utask_new stack_size queue_count o) Q s.
Proof.
  intros Hr H0 HQ. unfold utask_new. destruct (_ || _); [apply wp_ret; specialize (H0 (u_allocs s)); by destruct s|].
  unfold zalloc_task. apply wp_bind, wp_bind, wp_gets. cbn [id]. destruct (zalloc _ _) as [t|] eqn:Ez.
  2:{ apply wp_bind. eapply run_wp; [reflexivity|]. apply wp_ret, wp_ret, H0. }
  apply zalloc_fresh, not_elem_of_dom in Ez. apply wp_bind. eapply run_wp; [reflexivity|]. apply wp_ret. unfold utask_setup. apply (wp_utask_link s ts V); [done | done|].
  intros s' Hr' Hv. specialize (HQ t s' Ez Hr' Hv). destruct (o_queue o), (o_mutex o), (o_sem o), (o_task o); simpl in *; exact HQ.
Qed.

Lemma wp_utask_new_ext s ts V t stack_size queue_length o (Q : option nat -> usys -> Prop) : urep s ts ts V -> u_tasks s !! t = None ->
  o_queue o && o_mutex o && o_sem o && o_task o = true -> Q None s -> (forall s', urep s' (ts ++ [t]) (ts ++ [t]) V -> Q (Some t) s') ->
  wp (utask_new_ext t stack_size queue_length o) Q s.
Proof.
  intros Hr Ht Ho H0 HQ. unfold utask_new_ext. destruct (_ || _); [by apply wp_ret|]. apply wp_bind. eapply run_wp; [reflexivity|].
  unfold utask_setup. apply (wp_utask_link s ts V); [done | done|]. intros s' Hr' _.
  destruct (o_queue o), (o_mutex o), (o_sem o), (o_task o); try done. by apply wp_ret, HQ.
Qed.

Lemma wp_uservice_new s ts V name process context (Q : option nat -> usys -> Prop) : urep s ts ts V -> process <> 0 ->
  (forall r s', urep s' ts ts V -> u_tasks s' = u_tasks s -> Q r s') -> wp (uservice_new name process context) Q s.
Proof.
  intros Hr Hp HQ. unfold uservice_new. rewrite (proj2 (Z.eqb_neq process 0)) by done. unfold zalloc_srv. apply wp_bind, wp_bind, wp_gets. cbn [id].
  destruct (zalloc _ _) as [a|] eqn:Ez.
  2:{ apply wp_bind. eapply run_wp; [reflexivity|]. apply wp_ret, wp_ret, HQ; [|done]. by destruct Hr. }
  apply zalloc_fresh, not_elem_of_dom in Ez. apply wp_bind. eapply run_wp; [reflexivity|]. apply wp_ret. apply wp_bind, wp_put_srv; [cbn; rewrite lookup_insert_eq; eauto|]. apply wp_ret, HQ; [|done].
  cbn. rewrite insert_insert_eq. assert (Hno : forall t, a ∉ V t) by (intros t (v & Hv & _)%(ur_in _ _ _ _ Hr); congruence).
  split; cbn [u_next u_tasks u_srvs set_srvs].
  - apply schain_insert_ne; [|apply Hr]. intros [?|(y & E & Hy)%list_elem_of_fmap]%elem_of_cons; done.
  - apply Hr.
  - intros t Ht. apply schain_insert_ne; [|by apply (ur_srvs _ _ _ _ Hr)]. intros [?|(y & [= <-] & Hy)%list_elem_of_fmap]%elem_of_cons; [done | by apply (Hno t)].
  - intros b t. destruct (decide (b = a)) as [->|]; [rewrite lookup_insert_eq; split; [by intros ?%Hno | by intros (x & [= <-] & E)] | rewrite lookup_insert_ne by done; apply (ur_in _ _ _ _ Hr)].
  - intros b v t. destruct (decide (b = a)) as [->|]; [rewrite lookup_insert_eq; by intros [= <-] | rewrite lookup_insert_ne by done; apply (ur_task _ _ _ _ Hr)].
  - intros b. destruct (decide (b = a)) as [->|]; [rewrite !lookup_insert_eq; eauto|]. rewrite !lookup_insert_ne by congruence. apply (ur_node _ _ _ _ Hr).
Qed.

Lemma wp_uservice_destroy s ts V a v (Q : unit -> usys -> Prop) : urep s ts ts V -> u_srvs s !! a = Some v -> us_task v = None ->
  (forall s', urep s' ts ts V -> Q tt s') -> wp (uservice_destroy a) Q s.
Proof.
  intros Hr Hv Et HQ. unfold uservice_destroy, free_srv. apply wp_bind, (wp_get_srv a v); [done|]. eapply run_wp; [reflexivity|]. apply HQ.
  assert (Hno : forall t, a ∉ V t) by (intros t (x & Hx & E)%(ur_in _ _ _ _ Hr); congruence).
  split; cbn [u_next u_tasks u_srvs]; try apply Hr.
  - eapply schain_same; [|apply Hr]. intros n Hn. apply lookup_delete_ne. intros <-. apply elem_of_cons in Hn as [?|Hn]; [done|]. by apply list_elem_of_fmap in Hn as (? & ? & _).
  - intros t Ht. eapply schain_same; [|by apply (ur_srvs _ _ _ _ Hr)]. intros n Hn. apply lookup_delete_ne. intros <-. apply elem_of_cons in Hn as [?|Hn]; [done|].
    apply list_elem_of_fmap in Hn as (y & [= <-] & Hy). by apply (Hno t).
  - intros b t. rewrite (ur_in _ _ _ _ Hr). destruct (decide (a = b)) as [<-|]; [rewrite lookup_delete_eq, Hv; split; [intros (x & [= <-] & E); congruence | by intros (x & ? & _)] | by rewrite lookup_delete_ne].
  - intros b x t. destruct (decide (a = b)) as [<-|]; [by rewrite lookup_delete_eq | rewrite lookup_delete_ne by done; apply (ur_task _ _ _ _ Hr)].
  - intros b. destruct (decide (a = b)) as [<-|]; [rewrite lookup_delete_eq; by intros [] | rewrite !lookup_delete_ne by congruence; apply (ur_node _ _ _ _ Hr)].
Qed.

(** ** Every call *)

Definition ukept (_ : unit) (s : usys) : Prop := exists ts V, urep s ts ts V.

Lemma wp_uexec s ts V act : urep s ts ts V -> all_created act = true -> wp (uexec act) ukept s.
Proof.
  intros Hr Ho. assert (Hno : wp (ret tt) ukept s) by (apply wp_ret; by exists ts, V). unfold uexec. apply wp_bind, wp_gets. cbn [id].
  destruct act as [name process context|a|stack count o|t stack count o|t a|t a|t].
  - destruct (Z.eqb_spec process 0); [exact Hno|]. apply wp_bind, (wp_uservice_new s ts V); [done | done|]. intros r s' Hr' _. apply wp_ret. by exists ts, V.
  - destruct (u_srvs s !! a) as [v|] eqn:Hv; [|exact Hno]. destruct (us_task v) eqn:Et; [exact Hno|]. apply (wp_uservice_destroy s ts V a v); [done.. |]. intros s' Hr'. by exists ts, V.
  - apply wp_bind, (wp_utask_new s ts V); [done | |].
    + intros n. apply wp_ret. exists ts, V. by destruct Hr.
    + intros t s' _ Hr' _. simpl in Ho. rewrite Ho. apply wp_ret. by exists (ts ++ [t]), V.
  - destruct (u_tasks s !! t) eqn:Ht; [exact Hno|]. apply wp_bind, (wp_utask_new_ext s ts V); [done | done | done | exact Hno|]. intros s' Hr'. apply wp_ret. by exists (ts ++ [t]), V.
  - destruct (u_tasks s !! t) as [x|] eqn:Hx; [|exact Hno]. destruct (u_srvs s !! a) as [v|] eqn:Hv; [|exact Hno].
    apply (wp_utask_add s ts ts V t a v); [done | apply (ur_dom _ _ _ _ Hr); eauto | done | by exists ts, V|]. intros s' _ Hr' _. by eexists _, _.
  - destruct (u_srvs s !! a) as [v|] eqn:Hv; [|exact Hno]. case_bool_decide as Et; [|exact Hno].
    assert (Ha : a ∈ V t) by (apply (ur_in _ _ _ _ Hr); eauto). apply list_elem_of_split in Ha as (p & q & E).
    apply (wp_utask_remove s ts ts V t a p q); [done | done|]. intros s' Hr' _. by eexists _, _.
  - destruct (u_tasks s !! t) as [x|] eqn:Hx; [|exact Hno]. destruct (ut_heap x) eqn:Eh; [|exact Hno]. apply (wp_utask_join s ts V t x); [done.. |]. intros s' p q _ Hr'. by eexists _, _.
Qed.

Lemma wp_urun acts : forallb all_created acts = true -> forall s ts V, urep s ts ts V -> wp (urun acts) ukept s.
Proof.
  induction acts as [|act acts IHa]; intros Ho s ts V Hr; simpl; [apply wp_ret; by exists ts, V|]. apply andb_true_iff in Ho as [Ho Hos].
  apply wp_bind. eapply wp_mono; [by apply (wp_uexec s ts V)|]. intros _ s' (ts' & V' & Hr'). by apply (IHa Hos s' ts' V').
Qed.

Lemma urep_start : urep us_start [] [] (fun _ => []).
Proof.
  split; try done.
  - intros t. cbn. rewrite lookup_empty. split; [by intros ?%elem_of_nil | by intros []].
  - by intros t ?%elem_of_nil.
  - intros a t. split; [by intros ?%elem_of_nil | by intros (v & Hv & _)].
  - by intros a [].
Qed.

Lemma after_services acts (Q : usys -> Prop) : forallb all_created acts = true -> (forall s ts V, urep s ts ts V -> Q s) -> wp (urun acts) (fun _ s => Q s) us_start.
Proof. intros Ho HQ. eapply wp_mono; [apply (wp_urun acts Ho _ _ _ urep_start)|]. intros _ s (ts & V & Hr). by apply (HQ s ts V). Qed.




(** A walk that leads into memory that was freed. *)
Fixpoint dangling (m : gmap unode (option unode)) (h : unode) (ns : list unode) : Prop :=
  match ns with [] => m !! h = None | n :: r => m !! h = Some (Some n) /\ dangling m n r end.

Lemma dangling_walk s ns : forall h fuel k, dangling (u_next s) h ns -> number_loop fuel h k s = None.
Proof.
  induction ns as [|n ns IHn]; intros h [|fuel] k Hd; try done; cbn [number_loop]; unfold bind, get_snext, gets, lift; cbn in *; [by rewrite Hd|].
  destruct Hd as [-> Hd]. by apply IHn.
Qed.

Lemma schain_dangling m h ns n : schain m h (ns ++ [n]) -> dangling (delete n m) h (ns ++ [n]).
Proof.
  intros Hc. pose proof (schain_nodup _ _ _ Hc) as Hnd. revert h Hc Hnd. induction ns as [|x ns IHn]; intros h Hc Hnd; simpl in *; destruct Hc as [Hh Hc].
  - split; [|apply lookup_delete_eq]. rewrite lookup_delete_ne; [done|]. intros ->. apply NoDup_cons in Hnd as [Hn _]. apply Hn, elem_of_cons. by left.
  - apply NoDup_cons in Hnd as [Hn Hnd]. split; [|by apply IHn]. rewrite lookup_delete_ne; [done|]. intros ->. apply Hn, elem_of_cons. right. apply elem_of_app. right. by apply list_elem_of_singleton.
Qed.

(** ** Claims *)


(** A service task that cannot be completed corrupts the list of tasks.
    After any such sequence of calls, when [utask_new] gets memory but not all of the
    queue, mutex, semaphore and kernel task, it returns NULL and frees the memory
    without taking the task out of the list: walking the list, as adding any
    other task at its end does, then follows a pointer into freed memory. *)
Theorem utask_new_dangling (acts : list uact) (stack_size queue_count : Z) (o : objects) :
  forallb all_created acts = true -> o_queue o && o_mutex o && o_sem o && o_task o = false ->
  wp (urun acts) (fun _ s => wp (utask_new stack_size queue_count o) (fun r s' => r = None /\
    (u_next s' <> u_next s -> slist_entry_number UTasks s' = None)) s) us_start.
Proof.
  intros Ha Ho. apply after_services; [done|]. intros s ts V Hr. apply (wp_utask_new s ts V); [done | by intros n|]. intros t s' Ht Hr' Hv. rewrite Ho.
  apply wp_bind. unfold free_task. apply wp_bind, (wp_get_task t (mkUtask 1 (u8 queue_count) true)); [done|]. cbn [ut_heap]. eapply run_wp; [reflexivity|].
  apply wp_ret. split; [done|]. intros _. pose proof (ur_tasks _ _ _ _ Hr') as Hc. rewrite fmap_app in Hc.
  assert (Hc' : schain (delete (USrvs t) (u_next s')) UTasks ((UTaskNode <$> ts) ++ [UTaskNode t])).
  { eapply schain_same; [|exact Hc]. intros n Hn. apply lookup_delete_ne. intros <-. apply elem_of_cons in Hn as [?|Hn]; [done|].
    apply elem_of_app in Hn as [Hn|Hn]; [by apply list_elem_of_fmap in Hn as (? & ? & _) | by apply list_elem_of_singleton in Hn]. }
  unfold slist_entry_number, slist_fuel, bind, gets.
  exact (dangling_walk (mkUsys (delete t (u_tasks s')) (u_srvs s') (delete (UTaskNode t) (delete (USrvs t) (u_next s'))) (u_allocs s')) _ UTasks _ 0 (schain_dangling _ _ _ _ Hc')).
Qed.
End Claims.

(** ** Examples *)

#[local] Instance room : Allocator := first_free 8.

Definition full : objects := mkObjects true true true true.

Definition services_demo : list uact :=
  [UNew 512 4 full; UNewSrv "a" 1 0; UNewSrv "b" 2 0; UNewSrv "a" 3 0; UAdd 0 2; UAdd 0 0; UAdd 0 1; UNewExt 1 512 4 full; UAdd 1 0; URemove 0 1; UAdd 1 1].

Example services_demo_runs : exists s, urun services_demo us_start = Some (tt, s) /\
  task_get 0 "a" s = Some (Some 2%nat, s) /\ task_get 1 "b" s = Some (Some 1%nat, s) /\ task_get 1 "a" s = Some (None, s).
Proof. eexists. split; [vm_compute; reflexivity | split_and!; vm_compute; reflexivity]. Qed.

(** Ending a task sets its services free for another. *)
Example services_join : exists s, (urun services_demo ;; urun [UJoin 0; UAdd 1 2]) us_start = Some (tt, s) /\
  task_get 1 "a" s = Some (Some 2%nat, s) /\ u_tasks s !! 0%nat = None.
Proof. eexists. split; [vm_compute; reflexivity | split_and!; vm_compute; reflexivity]. Qed.

(** A task on memory of the caller cannot be ended: [utask_join] frees memory
    that was not allocated. *)
Example join_static_task : (utask_new_ext 5 512 4 full ;; utask_join 5) us_start = None.
Proof. vm_compute. reflexivity. Qed.

Example dangling_runs : exists s s', urun services_demo us_start = Some (tt, s) /\
  utask_new 512 4 (mkObjects false true true true) s = Some (None, s') /\ slist_entry_number UTasks s' = None.
Proof. eexists _, _. split; [vm_compute; reflexivity|]. split; vm_compute; reflexivity. Qed.

Lemma utask_new_dangling_witness : wp (urun services_demo) (fun _ s => wp (utask_new 512 4 (mkObjects false true true true)) (fun r s' => r = None /\
    (u_next s' <> u_next s -> slist_entry_number UTasks s' = None)) s) us_start.
Proof. apply (utask_new_dangling services_demo 512 4 (mkObjects false true true true)); reflexivity. Defined.

