(* ===== verification/EvSvr.v ===== *)
(** * The event service (kernel/uService/event_svr.c)

    The service keeps an event list and the delayed events that wait for their
    time, and answers calls that arrive in the queue of its task.  A second task
    moves delayed events whose time has come into that queue, waits for
    descriptors and publishes those that are ready.

    The state holds the event list, the list of delayed events in link memory,
    and the queue of calls, each a command and the bytes of a parameter.  An
    action is one call of a client, the handling of one call by the service, the
    insertion of a delayed event whose place was found, or a piece of the select
    task between two points where it waits.  The insertion takes no lock, so that
    the select task may run between finding the place and inserting; a pass of
    [do_time_event] itself is one action. *)

From S2P Require Import Prelude.
From S2P Require Import Monad.
From S2P Require Import Links.
From S2P Require Import SList.
From S2P Require Import EvList.
From S2P Require Import Rpc.

(** ** Data *)

(** [dlist_t] of [ev_service.timeouts] and of a delayed event. *)
Inductive tnode := TList | TNode (a : nat).

#[export] Instance tnode_eq_dec : EqDecision tnode.
Proof. solve_decision. Defined.

#[export] Instance tnode_countable : Countable tnode.
Proof.
  refine (inj_countable' (fun n => match n with TList => None | TNode a => Some a end)
    (fun c => match c with None => TList | Some a => TNode a end) _).
  by intros [].
Defined.

Inductive ev_cmd := CMD_SUB_FD_EVENT | CMD_SUB_EVENT | CMD_REMOVE_FD_EVENT | CMD_REMOVE_EVENT | CMD_PUBLISH_EVENT | CMD_PUBLISH_FD_EVENT.

(** [ep_cb] is the union of [cb] and [timeout]. *)
Record event_param := mkParam { ep_event_id : Z; ep_cb : Z; ep_data : Z }.

(** The select task: at the start of its loop; in [select2] with a timeout, the
    descriptors to wait for and the largest; publishing descriptors. *)
Inductive sphase := SLoop | SWait (tv : option (Z * Z)) (readfds : list Z) (max_fd : Z) | SPublish (fds : list Z).

(** [es_wait]: how many calls in the queue have to be handled before the select
    task, which waits for the reply to its call, goes on.  [es_insert]: where the
    service, which has found the place of a delayed event, is about to insert
    it. *)
Record esys := mkEsys {
  es_event : evs;
  es_timeouts : links tnode;
  es_timers : gmap nat event_param;
  es_allocs : nat;
  es_select_sem : Z;
  es_queue : list (ev_cmd * list Z);
  es_phase : sphase;
  es_wait : nat;
  es_insert : option (tnode * nat);
}.

#[export] Instance esys_links : HasLinks esys tnode.
Proof.
  refine (mkHasLinks esys tnode _ _ es_timeouts
    (fun l s => mkEsys (es_event s) l (es_timers s) (es_allocs s) (es_select_sem s) (es_queue s) (es_phase s) (es_wait s) (es_insert s)) _ _); done.
Defined.

Abbreviation X := (st esys).

Definition esys_eta (s : esys) : esys :=
  mkEsys (es_event s) (es_timeouts s) (es_timers s) (es_allocs s) (es_select_sem s) (es_queue s) (es_phase s) (es_wait s) (es_insert s).
Definition set_event : evs -> esys -> esys := ltac:(field_setter esys_eta es_event).
Definition set_timeouts : links tnode -> esys -> esys := ltac:(field_setter esys_eta es_timeouts).
Definition set_timers : gmap nat event_param -> esys -> esys := ltac:(field_setter esys_eta es_timers).
Definition set_allocs : nat -> esys -> esys := ltac:(field_setter esys_eta es_allocs).
Definition set_select_sem : Z -> esys -> esys := ltac:(field_setter esys_eta es_select_sem).
Definition set_queue : list (ev_cmd * list Z) -> esys -> esys := ltac:(field_setter esys_eta es_queue).
Definition set_sphase : sphase -> esys -> esys := ltac:(field_setter esys_eta es_phase).
Definition set_wait : nat -> esys -> esys := ltac:(field_setter esys_eta es_wait).
Definition set_insert : option (tnode * nat) -> esys -> esys := ltac:(field_setter esys_eta es_insert).

(** The functions of event.c on the list of the service. *)
Definition on_list {A} (f : E A) : X A :=
  fun s => match f (es_event s) with Some (a, e) => Some (a, set_event e s) | None => None end.

(** ** Calls

    [struct event_param] in memory: three words and the link [next], whose
    bytes are not initialised. *)

Definition param_bytes (p : event_param) (next : list Z) : list Z := le32 (ep_event_id p) ++ le32 (ep_cb p) ++ le32 (ep_data p) ++ next.

Definition param_of (l : list Z) : event_param :=
  mkParam (of_le32 (take 4 l)) (of_le32 (take 4 (drop 4 l))) (of_le32 (take 4 (drop 8 l))).

(** [sizeof(struct event_param)]. *)
Definition param_size : nat := 20.

Section Service.
Context `{Allocator}.

(** [next]: the bytes of the link; [sent]: whether there was memory for the
    call and room in the queue. *)
Definition event_call (param : event_param) (cmd_id : ev_cmd) (next : list Z) (sent : bool) : X unit :=
  when sent (modify (fun s => set_queue (es_queue s ++ [(cmd_id, param_bytes param next)]) s)).

Definition event_publish_fd (event_id data : Z) : list Z -> bool -> X unit := event_call (mkParam event_id 0 data) CMD_PUBLISH_FD_EVENT.
Definition event_subscribe_fd (fd cb context : Z) (next : list Z) (sent : bool) : X unit :=
  if cb =? 0 then fault else event_call (mkParam fd cb context) CMD_SUB_FD_EVENT next sent.
Definition event_unsubscribe_fd (event_id cb context : Z) : list Z -> bool -> X unit := event_call (mkParam event_id cb context) CMD_REMOVE_FD_EVENT.
Definition event_publish (event_id data : Z) : list Z -> bool -> X unit := event_call (mkParam event_id 0 data) CMD_PUBLISH_EVENT.
(** [timeout] is an [int] and becomes a [uint32_t]. *)
Definition event_publish_delay (event_id data timeout : Z) : list Z -> bool -> X unit := event_call (mkParam event_id (u32 timeout) data) CMD_PUBLISH_EVENT.
Definition event_subscribe (event_id cb context : Z) (next : list Z) (sent : bool) : X unit :=
  if cb =? 0 then fault else event_call (mkParam event_id cb context) CMD_SUB_EVENT next sent.
Definition event_unsubscribe (event_id cb context : Z) (next : list Z) (sent : bool) : X unit :=
  if cb =? 0 then fault else event_call (mkParam event_id cb context) CMD_REMOVE_EVENT next sent.

(** ** The service *)

Definition get_timer (n : tnode) : X event_param :=
  m <- gets es_timers ;; match n with TNode a => lift (m !! a) | TList => fault end.

Definition malloc_timer : X (option nat) :=
  s <- gets id ;;
  modify (set_allocs (S (es_allocs s))) ;;
  ret (zalloc (es_allocs s) (dom (es_timers s))).

(** [aos_free]: the parameter and its link are gone. *)
Definition free_timer (a : nat) : X unit :=
  modify (fun s => set_timers (delete a (es_timers s)) (set_timeouts (mkL (delete (TNode a) (k_next (es_timeouts s))) (delete (TNode a) (k_prev (es_timeouts s)))) s)).

Definition select_signal : X unit := modify (fun s => set_select_sem (es_select_sem s + 1) s).

(** The first delayed event that is due later, or the list head. *)
Definition timer_place (timeout : Z) : X tnode :=
  fuel <- list_fuel ;; n <- get_next TList ;;
  klist_scan fuel (fun n => p <- get_timer n ;; ret (timeout <? ep_cb p)) n TList.

(** [now]: [aos_now_ms()].  The service goes on with [insert_timer]. *)
Definition delay_event (p : event_param) (now : Z) : X unit :=
  t <- malloc_timer ;;
  match t with
  | None => ret tt
  | Some a =>
      let timeout := u32 (now + ep_cb p) in
      modify (fun s => set_timers (<[a := mkParam (ep_event_id p) timeout (ep_data p)]> (es_timers s)) s) ;;
      n <- timer_place timeout ;;
      modify (set_insert (Some (n, a)))
  end.

(** [dlist_add_tail] and the signal. *)
Definition insert_timer : X unit :=
  i <- gets es_insert ;;
  match i with
  | None => ret tt
  | Some (n, a) => klist_insert n (TNode a) ;; modify (set_insert None) ;; select_signal
  end.

(** Up to the insertion of a delayed event. *)
Definition process_rpc (cmd_id : ev_cmd) (buffer : list Z) (now : Z) : X unit :=
  let param := param_of buffer in
  if negb (length buffer =? param_size)%nat then fault
  else
    match cmd_id with
    | CMD_SUB_FD_EVENT => on_list (eventlist_subscribe_fd (ep_event_id param) (ep_cb param) (ep_data param)) ;; select_signal
    | CMD_REMOVE_FD_EVENT => on_list (eventlist_unsubscribe_fd (ep_event_id param) (ep_cb param) (ep_data param)) ;; ret tt
    | CMD_PUBLISH_FD_EVENT => on_list (eventlist_publish_fd (ep_event_id param) (ep_data param)) ;; ret tt
    | CMD_SUB_EVENT => on_list (eventlist_subscribe (ep_event_id param) (ep_cb param) (ep_data param)) ;; ret tt
    | CMD_REMOVE_EVENT => on_list (eventlist_unsubscribe (ep_event_id param) (ep_cb param) (ep_data param)) ;; ret tt
    | CMD_PUBLISH_EVENT =>
        if 0 <? ep_cb param then delay_event param now
        else on_list (eventlist_publish (ep_event_id param) (ep_data param)) ;; ret tt
    end.

(** The list of the service and [ev_service.timeouts]; the semaphores, the
    service and the tasks are created. *)
Definition event_service_init : X Z :=
  on_list (eventlist_init true) ;; klist_init TList ;; modify (set_select_sem 0) ;; ret 0.

(** ** The select task *)

(** [dlist_for_each_entry_safe]: [tmp] is read before the event is freed.  [clk]
    and [sent] give the time and the fate of the call in every round, [next] the
    uninitialised bytes. *)
Fixpoint time_loop (fuel : nat) (clk : nat -> Z) (sent : nat -> bool) (next : list Z) (k : nat) (node tmp : tnode) : X Z :=
  match fuel with
  | O => fault
  | S f =>
      match node with
      | TList => ret (-1)
      | TNode a =>
          p <- get_timer node ;;
          if ep_cb p <=? clk k then
            event_publish (ep_event_id p) (ep_data p) next (sent k) ;;
            klist_rm node ;;
            free_timer a ;;
            tmp' <- get_next tmp ;;
            time_loop f clk sent next (S k) tmp tmp'
          else ret (i32 (ep_cb p - clk k))
      end
  end.

Definition do_time_event (clk : nat -> Z) (sent : nat -> bool) (next : list Z) : X Z :=
  fuel <- list_fuel ;; node <- get_next TList ;; tmp <- get_next node ;; time_loop fuel clk sent next 0 node tmp.

(** C division and remainder round towards zero. *)
Definition select_timeval (time_ms : Z) : option (Z * Z) :=
  if time_ms =? -1 then None else Some (Z.quot time_ms 1000, Z.rem time_ms 1000 * 1000).

(** [select_task_entry], up to [select2]. *)
Definition select_prepare (clk : nat -> Z) (sent : nat -> bool) (next : list Z) : X unit :=
  time_ms <- do_time_event clk sent next ;;
  r <- on_list eventlist_setfd ;;
  modify (set_sphase (SWait (select_timeval time_ms) (fst r) (snd r))).

(** [select2] returns, with [ready] left in the set if its result is positive:
    the loop over the descriptors will look at these. *)
Definition select_return (ready : list Z) : X unit :=
  ph <- gets es_phase ;;
  match ph with
  | SWait _ readfds max_fd =>
      modify (set_sphase (SPublish (filter (fun fd => fd ∈ readfds /\ fd ∈ ready) (Z.of_nat <$> seq 0 (Z.to_nat (max_fd + 1))))))
  | _ => fault
  end.

(** One of the descriptors, or the end of the loop; [queue_count]: the size of
    the queue of the service's task. *)
Definition select_publish (queue_count : Z) (next : list Z) (sent : bool) : X unit :=
  ph <- gets es_phase ;;
  match ph with
  | SPublish [] => modify (set_sphase SLoop)
  | SPublish (fd :: fds) =>
      modify (set_sphase (SPublish fds)) ;;
      q <- gets es_queue ;;
      when (Z.of_nat (length q) <? Z.quot (queue_count * 3) 4)
        (event_publish_fd fd 0 next sent ;;
         when sent (modify (fun s => set_wait (length (es_queue s)) s)))
  | _ => fault
  end.

(** ** Actions *)

(** A call of a client: the function of the interface. *)
Inductive ecall_op :=
  | CSub (fd : bool) (i cb ctx : Z)
  | CUnsub (fd : bool) (i cb ctx : Z)
  | CPub (fd : bool) (i data : Z)
  | CPubDelay (i data timeout : Z).

Definition client_call (c : ecall_op) : list Z -> bool -> X unit :=
  match c with
  | CSub true i cb ctx => event_subscribe_fd i cb ctx
  | CSub false i cb ctx => event_subscribe i cb ctx
  | CUnsub true i cb ctx => event_unsubscribe_fd i cb ctx
  | CUnsub false i cb ctx => event_unsubscribe i cb ctx
  | CPub true i data => event_publish_fd i data
  | CPub false i data => event_publish i data
  | CPubDelay i data timeout => event_publish_delay i data timeout
  end.

Inductive eact :=
  | ACall (c : ecall_op) (next : list Z) (sent : bool)
  | AServe (now : Z)
  | AInsert
  | APrepare (clk : nat -> Z) (sent : nat -> bool) (next : list Z)
  | AReturn (ready : list Z)
  | APublish (queue_count : Z) (next : list Z) (sent : bool).

(** The body of the loop of [utask_entry] for this service, which does not go on
    before a delayed event is inserted. *)
Definition serve (now : Z) : X unit :=
  i <- gets es_insert ;; q <- gets es_queue ;;
  match i, q with
  | Some _, _ | None, [] => ret tt
  | None, (cmd_id, buffer) :: q' =>
      modify (fun s => set_wait (pred (es_wait s)) (set_queue q' s)) ;;
      process_rpc cmd_id buffer now
  end.

Definition eexec (act : eact) : X unit :=
  s <- gets id ;;
  match act with
  | ACall c next sent => client_call c next sent
  | AServe now => serve now
  | AInsert => insert_timer
  | APrepare clk sent next => match es_phase s with SLoop => select_prepare clk sent next | _ => ret tt end
  | AReturn ready => match es_phase s with SWait _ _ _ => select_return ready | _ => ret tt end
  | APublish queue_count next sent =>
      match es_phase s, es_wait s with SPublish _, O => select_publish queue_count next sent | _, _ => ret tt end
  end.

Fixpoint erun (acts : list eact) : X unit :=
  match acts with
  | [] => ret tt
  | act :: acts => eexec act ;; erun acts
  end.

(** The select task does not look for due events while the service is about to
    insert one; [busy]: the service may be. *)
Fixpoint apart (busy : bool) (acts : list eact) : bool :=
  match acts with
  | [] => true
  | AServe _ :: acts => apart true acts
  | AInsert :: acts => apart false acts
  | APrepare _ _ _ :: acts => negb busy && apart busy acts
  | _ :: acts => apart busy acts
  end.

(** Memory before [event_service_init]. *)
Definition es_start : esys := mkEsys (mkEvs ∅ ∅ ∅ 0 []) (mkL ∅ ∅) ∅ 0 0 [] SLoop 0 None.
End Service.
