(* ===== verification/EvSvrInv.v ===== *)
(** * The delayed events of the event service

    The list [ev_service.timeouts] in memory is a sequence of delayed events in
    the order of their time: inserting one, and taking out those that are
    due. *)

From stdpp Require Import functions.
From S2P Require Import Prelude.
From S2P Require Import Monad.
From S2P Require Import Links.
From S2P Require Import SList.
From S2P Require Import EvList.
From S2P Require Import Rpc.
From S2P Require Import RpcBuf.
From S2P Require Import EvSvr.
From S2P Require Import EvInv.
From S2P Require Import EvOps.

(** ** Parameters as bytes *)

(** The fields as [uint32_t]. *)
Definition norm (p : event_param) : event_param := mkParam (u32 (ep_event_id p)) (u32 (ep_cb p)) (u32 (ep_data p)).

Lemma byte_u32 v k : 0 <= k <= 24 -> u32 v / 2 ^ k mod 2 ^ 8 = v / 2 ^ k mod 2 ^ 8.
Proof.
  intros Hk. apply Z.bits_inj'. intros n Hn. destruct (decide (n < 8)); [|by rewrite !Z.mod_pow2_bits_high by lia].
  rewrite !Z.mod_pow2_bits_low, !Z.div_pow2_bits by lia. unfold wrap. by rewrite Z.mod_pow2_bits_low by lia.
Qed.

Lemma le32_u32 v : le32 (u32 v) = le32 v.
Proof. unfold le32. pose proof (byte_u32 v 0) as H0. change (2 ^ 0) with 1 in H0. rewrite !Z.div_1_r in H0. by rewrite H0, !byte_u32 by lia. Qed.

Lemma of_le32_u32 v : of_le32 (le32 v) = u32 v.
Proof. rewrite <- le32_u32. apply of_le32_le32. by apply wrap_range. Qed.

Lemma param_of_bytes p next : param_of (param_bytes p next) = norm p.
Proof. unfold param_of, param_bytes, norm. by rewrite <- !of_le32_u32. Qed.

Lemma norm_id p : norm (norm p) = norm p.
Proof. unfold norm. simpl. by rewrite !(wrap_small 32 (u32 _)) by by apply wrap_range. Qed.

(** ** Delayed events in order *)

Definition before (p q : event_param) : Prop := ep_cb p <= ep_cb q.

(** Behind the events that are due at the same time. *)
Fixpoint delay_insert (p : event_param) (l : list event_param) : list event_param :=
  match l with
  | [] => [p]
  | q :: l' => if ep_cb p <? ep_cb q then p :: l else q :: delay_insert p l'
  end.

Lemma delay_insert_split p l1 l2 : Forall (fun q => (ep_cb p <? ep_cb q) = false) l1 -> (forall q, head l2 = Some q -> (ep_cb p <? ep_cb q) = true) ->
  delay_insert p (l1 ++ l2) = l1 ++ p :: l2.
Proof.
  intros H1 H2. induction H1 as [|q l1 Hq _ IHl]; simpl; [|by rewrite Hq, IHl]. destruct l2 as [|q l2]; [done|]. simpl. by rewrite H2.
Qed.

Lemma elem_of_delay_insert p l q : q ∈ delay_insert p l <-> q = p \/ q ∈ l.
Proof.
  induction l as [|x l IHl]; simpl; [rewrite list_elem_of_singleton, elem_of_nil; tauto|].
  destruct (ep_cb p <? ep_cb x); rewrite !elem_of_cons, ?IHl; tauto.
Qed.

Lemma delay_insert_sorted p l : StronglySorted before l -> StronglySorted before (delay_insert p l).
Proof.
  unfold before. induction 1 as [|q l Hl IHl Hq]; simpl; [repeat constructor|]. destruct (Z.ltb_spec (ep_cb p) (ep_cb q)).
  - constructor; [by constructor|]. constructor; [lia|]. eapply Forall_impl; [exact Hq|]. simpl. lia.
  - constructor; [done|]. apply Forall_forall. intros x [->|Hx]%elem_of_delay_insert; [done|]. rewrite Forall_forall in Hq. by apply Hq.
Qed.

(** ** The list in memory *)

Abbreviation tlist := (list (nat * event_param)).

Definition tnodes (T : tlist) : list tnode := TNode <$> T.*1.
Definition trings (l : links tnode) (T : tlist) : Prop := rings l (fun _ : unit => tnodes T ++ [TList]).

Record trep (s : esys) (T : tlist) : Prop := mkTrep {
  tr_rings : trings (es_timeouts s) T;
  tr_timers : forall a p, (a, p) ∈ T <-> es_timers s !! a = Some p;
}.

Lemma trings_ext l T (G : unit -> list tnode) : rings l G -> G tt = tnodes T ++ [TList] -> trings l T.
Proof. intros HG E. eapply rings_ext; [exact HG|]. by intros []. Qed.

Lemma trep_nodup s T : trep s T -> NoDup T.*1.
Proof. intros Ht. pose proof (rings_nodup _ _ (tr_rings _ _ Ht) tt) as Hnd. apply NoDup_app in Hnd as [Hnd _]. by apply NoDup_fmap_1 in Hnd. Qed.

(** The first node, and the one after it, of what is left of the list. *)
Definition first_of (T : tlist) : tnode := hd TList (tnodes T).

Lemma wp_next_head s T (Q : tnode -> esys -> Prop) : trings (es_timeouts s) T -> Q (first_of T) s -> wp (get_next TList) Q s.
Proof.
  intros Ht HQ. apply (wp_get_next (fun _ : unit => tnodes T ++ [TList]) tt (tnodes T) TList []); [exact Ht | done|]. simpl. exact HQ.
Qed.

Lemma wp_next_first s T (Q : tnode -> esys -> Prop) : trings (es_timeouts s) T -> Q (first_of (tail T)) s -> wp (get_next (first_of T)) Q s.
Proof.
  intros Ht HQ. destruct T as [|[a p] T]; [by apply (wp_next_head s [])|].
  apply (wp_get_next (fun _ : unit => tnodes ((a, p) :: T) ++ [TList]) tt [] (TNode a) (tnodes T ++ [TList])); [exact Ht | done|].
  rewrite app_nil_r. unfold first_of in HQ. simpl in HQ. by destruct T.
Qed.

Lemma wp_get_timer s a p (Q : event_param -> esys -> Prop) : es_timers s !! a = Some p -> Q p s -> wp (get_timer (TNode a)) Q s.
Proof. intros Hp HQ. unfold get_timer. apply wp_bind, wp_gets. by eapply wp_lift. Qed.

Lemma elem_of_tnodes T n : n ∈ tnodes T <-> exists a p, n = TNode a /\ (a, p) ∈ T.
Proof.
  unfold tnodes. rewrite list_elem_of_fmap. split.
  - intros (a & -> & Ha). apply list_elem_of_fmap in Ha as ([a' p] & -> & Hp). by exists a', p.
  - intros (a & p & -> & Hp). exists a. split; [done|]. apply list_elem_of_fmap. by exists (a, p).
Qed.

(** The place of a new event. *)
Lemma wp_timer_place s T due (Q : tnode -> esys -> Prop) : trings (es_timeouts s) T -> (forall a p, (a, p) ∈ T -> es_timers s !! a = Some p) ->
  (forall T1 T2, T = T1 ++ T2 -> Forall (fun x => (due <? ep_cb x.2) = false) T1 -> (forall x, head T2 = Some x -> (due <? ep_cb x.2) = true) -> Q (first_of T2) s) ->
  wp (timer_place due) Q s.
Proof.
  intros Ht Hp HQ. unfold timer_place.
  set (f := fun n => match n with TNode a => match es_timers s !! a with Some p => due <? ep_cb p | None => false end | TList => false end).
  apply (wp_scan_list (<[tt := TList :: tnodes T]> (fun _ : unit => tnodes T ++ [TList])) tt TList (tnodes T) _ f).
  - apply (rings_rotate _ _ tt (tnodes T) [TList]); [exact Ht | done].
  - apply fn_lookup_insert.
  - intros n (a & p & -> & Hin)%elem_of_tnodes. unfold f, get_timer, bind, gets, lift. by rewrite (Hp a p Hin).
  - intros m1 m2 E H1 H2. unfold tnodes in E. rewrite <- list_fmap_compose in E. apply fmap_app_inv in E as (T1 & T2 & -> & -> & ->).
    rewrite list_fmap_compose. apply (HQ T1 T2); [done | |].
    + apply Forall_forall. intros [a p] Hin. rewrite Forall_forall in H1. specialize (H1 (TNode a)). unfold f in H1.
      rewrite (Hp a p) in H1 by (apply elem_of_app; by left). apply H1. apply list_elem_of_fmap. by exists (a, p).
    + intros [a p] Hh. specialize (H2 (TNode a)). unfold f in H2. destruct T2 as [|x T2]; [done|]. injection Hh as ->.
      rewrite (Hp a p) in H2 by (apply elem_of_app; right; apply elem_of_cons; by left). by apply H2.
Qed.

Definition delayed s n a (p : event_param) : esys :=
  set_insert (Some (n, a)) (set_timers (<[a := p]> (es_timers s)) (set_allocs (S (es_allocs s)) s)).

(** ** Taking out what is due *)

(** What a pass over the events at the times [clk] publishes, the events that
    stay, and the time to the next. *)
Fixpoint pass (clk : nat -> Z) (sent : nat -> bool) (k : nat) (l : list event_param) : list event_param * list event_param * Z :=
  match l with
  | [] => ([], [], -1)
  | p :: l' =>
      if ep_cb p <=? clk k then
        let '(out, rest, r) := pass clk sent (S k) l' in ((if sent k then [mkParam (ep_event_id p) 0 (ep_data p)] else []) ++ out, rest, r)
      else ([], l, i32 (ep_cb p - clk k))
  end.

Section Ops.
Context `{Allocator}.

(** The delayed events in the order of their time, with the one that is about to
    be inserted. *)
Definition placed s (T : tlist) : Prop :=
  match es_insert s with
  | None => trep s T
  | Some (n, a) => NoDup T.*1 /\ (forall a' p, (a', p) ∈ T <-> es_timers s !! a' = Some p) /\
      exists T1 p T2, T = T1 ++ (a, p) :: T2 /\ n = first_of T2 /\ trings (es_timeouts s) (T1 ++ T2)
  end.

Lemma placed_ext s s' T : placed s T -> es_timeouts s' = es_timeouts s -> es_timers s' = es_timers s -> es_insert s' = es_insert s -> placed s' T.
Proof.
  unfold placed. intros Hp E1 E2 E3. rewrite E3. destruct (es_insert s) as [[n a]|]; [by rewrite E1, E2|]. destruct Hp as [Hr Ht]. split; by rewrite ?E1, ?E2.
Qed.

Lemma wp_delay_event s T p now (Q : unit -> esys -> Prop) : trep s T ->
  ((exists t used, zalloc t used = None) -> Q tt (set_allocs (S (es_allocs s)) s)) ->
  (forall n a T', let p' := mkParam (ep_event_id p) (u32 (now + ep_cb p)) (ep_data p) in
     placed (delayed s n a p') T' -> T'.*2 = delay_insert p' T.*2 -> Q tt (delayed s n a p')) ->
  wp (delay_event p now) Q s.
Proof.
  intros Ht Hoom HQ. unfold delay_event, malloc_timer. apply wp_bind, wp_bind, wp_gets, wp_bind. cbn [id]. eapply run_wp; [reflexivity|]. apply wp_ret.
  destruct (zalloc _ _) as [a|] eqn:Ea; [|apply wp_ret, Hoom; eauto]. apply zalloc_fresh in Ea. apply not_elem_of_dom in Ea.
  set (p' := mkParam _ (u32 _) _). apply wp_bind. eapply run_wp; [reflexivity|]. set (s1 := set_timers _ _).
  assert (Hs1 : forall a' q, (a', q) ∈ T -> es_timers s1 !! a' = Some q).
  { intros a' q Hin. apply (tr_timers _ _ Ht) in Hin. simpl. rewrite lookup_insert_ne; [done | congruence]. }
  assert (Hno : forall q, (a, q) ∉ T) by (intros q; rewrite (tr_timers _ _ Ht); congruence).
  apply wp_bind, (wp_timer_place s1 T); [apply Ht | exact Hs1|]. intros T1 T2 E H1 H2.
  eapply run_wp; [reflexivity|]. apply (HQ (first_of T2) a (T1 ++ (a, p') :: T2)).
  - unfold placed. cbn [es_insert delayed set_insert]. split_and!.
    + pose proof (trep_nodup _ _ Ht) as Hnd. rewrite E, fmap_app in Hnd. rewrite fmap_app. simpl.
      apply NoDup_Permutation_proper with (a :: (T1.*1 ++ T2.*1)); [by rewrite Permutation_middle|]. constructor; [|done].
      rewrite <- fmap_app, <- E. intros ([a' q] & -> & Hin)%list_elem_of_fmap. by apply (Hno q).
    + intros a' q. cbn. rewrite elem_of_app, elem_of_cons. destruct (decide (a = a')) as [<-|Hne].
      * rewrite lookup_insert_eq. split; [|intros [= <-]; by right; left]. specialize (Hno q). rewrite E, elem_of_app in Hno.
        intros [?|[E2|?]]; [tauto | | tauto]. by injection E2 as ->.
      * rewrite lookup_insert_ne, <- (tr_timers _ _ Ht), E, elem_of_app by done. naive_solver.
    + exists T1, p', T2. split_and!; [done | done|]. rewrite <- E. apply Ht.
  - rewrite E, !fmap_app. simpl. symmetry. apply delay_insert_split.
    + apply Forall_fmap. exact H1.
    + intros q Hq. destruct T2 as [|[a2 q2] T2]; [done|]. injection Hq as <-. by apply (H2 (a2, q2)).
Qed.

(** The insertion; no other event was taken out in between. *)
Lemma wp_insert_timer s T (Q : unit -> esys -> Prop) : placed s T ->
  (forall s', trep s' T -> es_insert s' = None -> es_event s' = es_event s -> es_queue s' = es_queue s -> es_phase s' = es_phase s -> es_wait s' = es_wait s -> Q tt s') ->
  wp insert_timer Q s.
Proof.
  intros Hp HQ. unfold insert_timer. apply wp_bind, wp_gets. unfold placed in Hp. destruct (es_insert s) as [[n a]|] eqn:Ei; [|by apply wp_ret, HQ].
  destruct Hp as (Hnd & Ht & T1 & p & T2 & ET & En & Hr).
  destruct (tnodes T2 ++ [TList]) as [|n' rest] eqn:E2; [by destruct T2|].
  assert (Ef : n = n') by (rewrite En; unfold first_of; destruct T2; simpl in *; congruence).
  rewrite ET, fmap_app in Hnd. cbn in Hnd. rewrite <- Permutation_middle in Hnd. apply NoDup_cons in Hnd as [Hna _].
  apply wp_bind, (wp_klist_insert (fun _ : unit => tnodes (T1 ++ T2) ++ [TList]) tt (tnodes T1) n rest (TNode a)).
  - exact Hr.
  - unfold tnodes at 1. rewrite !fmap_app, <- app_assoc, Ef. by f_equal.
  - intros [] Hin. apply elem_of_app in Hin as [Hin|Hin]; [|by apply list_elem_of_singleton in Hin].
    apply elem_of_tnodes in Hin as (a' & q & [= <-] & Hin). apply Hna. rewrite <- fmap_app. apply list_elem_of_fmap. by exists (a, q).
  - intros l' HG. apply wp_bind. eapply run_wp; [reflexivity|]. unfold select_signal. eapply run_wp; [reflexivity|]. apply HQ; try done.
    split; [|exact Ht]. eapply trings_ext; [exact HG|]. rewrite fn_lookup_insert, ET. unfold tnodes. rewrite !fmap_app, <- app_assoc. f_equal. simpl. f_equal.
    by rewrite Ef, <- E2.
Qed.

(** The state after a pass: [T'] is left, [out] went into the queue. *)
Definition passed s (out : list event_param) (next : list Z) s' : Prop :=
  es_event s' = es_event s /\ es_select_sem s' = es_select_sem s /\ es_phase s' = es_phase s /\ es_wait s' = es_wait s /\ es_insert s' = es_insert s /\
  es_queue s' = es_queue s ++ ((fun p => (CMD_PUBLISH_EVENT, param_bytes p next)) <$> out).

Lemma trep_remove s T a p l' q : trep s ((a, p) :: T) -> trings l' T ->
  trep (set_timers (delete a (es_timers s)) (set_timeouts (mkL (delete (TNode a) (k_next l')) (delete (TNode a) (k_prev l'))) (set_queue q s))) T.
Proof.
  intros Ht Hl. pose proof (trep_nodup _ _ Ht) as Hnd. apply NoDup_cons in Hnd as [Ha _].
  assert (Hno : forall p', (a, p') ∉ T) by (intros p' Hin; apply Ha, list_elem_of_fmap; by exists (a, p')).
  split.
  - eapply rings_frame; [exact Hl|]. intros n [[] Hn]. cbn. rewrite !lookup_delete_ne; [done|..]; intros <-.
    all: apply elem_of_app in Hn as [(a' & p' & [= <-] & Hin)%elem_of_tnodes|Hn]; [by destruct (Hno p') | by apply list_elem_of_singleton in Hn].
  - intros a' p'. cbn. destruct (decide (a = a')) as [<-|Hne].
    + rewrite lookup_delete_eq. split; [by intros Hin; destruct (Hno p') | done].
    + rewrite lookup_delete_ne, <- (tr_timers _ _ Ht), elem_of_cons by done. naive_solver.
Qed.

Lemma wp_time_loop clk sent next T : forall fuel k s (Q : Z -> esys -> Prop), trep s T -> (length T < fuel)%nat ->
  (forall s' T', let '(out, rest, r) := pass clk sent k T.*2 in trep s' T' -> T'.*2 = rest -> passed s out next s' -> Q r s') ->
  wp (time_loop fuel clk sent next k (first_of T) (first_of (tail T))) Q s.
Proof.
  induction T as [|[a p] T IHT]; intros fuel k s Q Ht Hf HQ; (destruct fuel as [|fuel]; [simpl in Hf; lia|]); simpl in HQ.
  - apply wp_ret, (HQ s []); [done | done|]. unfold passed. by rewrite app_nil_r.
  - change (first_of ((a, p) :: T)) with (TNode a). change (tail ((a, p) :: T)) with T. cbn [time_loop].
    assert (Hp : es_timers s !! a = Some p) by (apply (tr_timers _ _ Ht), elem_of_cons; by left).
    apply wp_bind, (wp_get_timer s a p); [done|]. destruct (ep_cb p <=? clk k) eqn:Ed.
    2:{ apply wp_ret, (HQ s ((a, p) :: T)); [done | done|]. unfold passed. by rewrite app_nil_r. }
    change (list_fmap _ _ snd T) with (T.*2) in HQ. destruct (pass clk sent (S k) T.*2) as [[out rest] r] eqn:Epass.
    set (msgs := if sent k then [mkParam (ep_event_id p) 0 (ep_data p)] else []) in HQ.
    set (q1 := es_queue s ++ ((fun p => (CMD_PUBLISH_EVENT, param_bytes p next)) <$> msgs)). set (s1 := set_queue q1 s).
    assert (E1 : event_publish (ep_event_id p) (ep_data p) next (sent k) s = Some (tt, s1)).
    { unfold event_publish, event_call, s1, q1, msgs. destruct (sent k); [done|]. cbn. rewrite app_nil_r. by destruct s. }
    apply wp_bind. eapply run_wp; [exact E1|].
    apply wp_bind, (wp_klist_rm (fun _ : unit => tnodes ((a, p) :: T) ++ [TList]) tt [] (TNode a) (tnodes T ++ [TList])); [apply Ht | done|].
    intros l' HG. assert (Hl : trings l' T) by (eapply trings_ext; [exact HG|]; apply fn_lookup_insert).
    apply wp_bind. eapply run_wp; [reflexivity|]. pose proof (trep_remove s T a p l' q1 Ht Hl) as Ht2.
    match type of Ht2 with trep ?x _ => set (s2 := x) in Ht2 end. change (set_timers _ _) with s2.
    apply wp_bind, (wp_next_first s2 T); [apply Ht2|]. apply (IHT fuel (S k) s2); [done | simpl in Hf; lia|].
    rewrite Epass. intros s' T' Ht' E' (P1 & P2 & P3 & P4 & P5 & P6). apply (HQ s' T'); [done | done|].
    split_and!; [done.. |]. rewrite P6. unfold s2, q1. cbn. by rewrite fmap_app, app_assoc.
Qed.

Lemma wp_do_time_event clk sent next T s (Q : Z -> esys -> Prop) : trep s T ->
  (forall s' T', let '(out, rest, r) := pass clk sent 0 T.*2 in trep s' T' -> T'.*2 = rest -> passed s out next s' -> Q r s') ->
  wp (do_time_event clk sent next) Q s.
Proof.
  intros Ht HQ. unfold do_time_event, list_fuel. apply wp_bind, wp_bind, wp_gets, wp_ret. apply wp_bind, (wp_next_head s T); [apply Ht|].
  apply wp_bind, (wp_next_first s T); [apply Ht|]. apply wp_time_loop; [done | | done].
  pose proof (ring_size (es_timeouts s) (tnodes T ++ [TList]) (rings_nodup _ _ (tr_rings _ _ Ht) tt) (rings_ring _ _ (tr_rings _ _ Ht) tt)) as Hl.
  unfold tnodes in Hl. rewrite length_app, !length_fmap in Hl. simpl in Hl. cbn. lia.
Qed.
End Ops.

(** * The abstract event service

    Its steps, the relation with the state in memory, and that every action of
    the service keeps the relation. *)

(** ** The abstract service

    Subscriptions per event number, the delayed events in the order of their
    time, the calls in the queue and the functions called so far; where the select
    task is; and whether the service is about to insert a delayed event. *)

Record astate := mkA {
  as_subs : subscriptions;
  as_delayed : list event_param;
  as_queue : list (ev_cmd * event_param);
  as_calls : list ecall;
  as_phase : sphase;
  as_wait : nat;
  as_busy : bool;
}.

Definition a_start : astate := mkA (fun _ => []) [] [] [] SLoop 0 false.

(** What a call means for the event list; a publication with a delay does not
    concern it yet. *)
Definition op_of (cmd : ev_cmd) (p : event_param) : option ev_op :=
  match cmd with
  | CMD_SUB_FD_EVENT => Some (OSub true (ep_event_id p) (ep_cb p) (ep_data p))
  | CMD_SUB_EVENT => Some (OSub false (ep_event_id p) (ep_cb p) (ep_data p))
  | CMD_REMOVE_FD_EVENT => Some (OUnsub true (ep_event_id p) (ep_cb p) (ep_data p))
  | CMD_REMOVE_EVENT => Some (OUnsub false (ep_event_id p) (ep_cb p) (ep_data p))
  | CMD_PUBLISH_FD_EVENT => Some (OPub true (ep_event_id p) (ep_data p))
  | CMD_PUBLISH_EVENT => if 0 <? ep_cb p then None else Some (OPub false (ep_event_id p) (ep_data p))
  end.

(** The call a client makes, with the fields as [uint32_t]. *)
Definition msg_of (c : ecall_op) : ev_cmd * event_param :=
  match c with
  | CSub fd i cb ctx => (if fd then CMD_SUB_FD_EVENT else CMD_SUB_EVENT, norm (mkParam i cb ctx))
  | CUnsub fd i cb ctx => (if fd then CMD_REMOVE_FD_EVENT else CMD_REMOVE_EVENT, norm (mkParam i cb ctx))
  | CPub fd i data => (if fd then CMD_PUBLISH_FD_EVENT else CMD_PUBLISH_EVENT, norm (mkParam i 0 data))
  | CPubDelay i data timeout => (CMD_PUBLISH_EVENT, norm (mkParam i timeout data))
  end.

Definition later (p : event_param) (now : Z) : event_param := mkParam (ep_event_id p) (u32 (now + ep_cb p)) (ep_data p).

(** Handling the first call at time [now]; [oom]: memory can run out. *)
Inductive a_serve (oom : Prop) (now : Z) (A : astate) : astate -> Prop :=
  | sv_idle : as_queue A = [] -> a_serve oom now A A
  | sv_op cmd p q op rc F' calls : as_queue A = (cmd, p) :: q -> op_of cmd p = Some op -> ev_step oom (as_subs A) op rc F' calls ->
      a_serve oom now A (mkA F' (as_delayed A) q (as_calls A ++ calls) (as_phase A) (pred (as_wait A)) false)
  | sv_later p q : as_queue A = (CMD_PUBLISH_EVENT, p) :: q -> 0 < ep_cb p ->
      a_serve oom now A (mkA (as_subs A) (delay_insert (later p now) (as_delayed A)) q (as_calls A) (as_phase A) (pred (as_wait A)) true)
  | sv_memory p q : as_queue A = (CMD_PUBLISH_EVENT, p) :: q -> 0 < ep_cb p -> oom ->
      a_serve oom now A (mkA (as_subs A) (as_delayed A) q (as_calls A) (as_phase A) (pred (as_wait A)) false).

Definition add_calls (ms : list (ev_cmd * event_param)) (A : astate) : astate :=
  mkA (as_subs A) (as_delayed A) (as_queue A ++ ms) (as_calls A) (as_phase A) (as_wait A) (as_busy A).

Definition publishing (out : list event_param) : list (ev_cmd * event_param) := (fun p => (CMD_PUBLISH_EVENT, p)) <$> out.

Inductive a_step (oom : Prop) (A : astate) : eact -> astate -> Prop :=
  | st_call c next sent : a_step oom A (ACall c next sent) (add_calls (if sent then [msg_of c] else []) A)
  | st_serve now A' : as_busy A = false -> a_serve oom now A A' -> a_step oom A (AServe now) A'
  | st_no_serve now : as_busy A = true -> a_step oom A (AServe now) A
  | st_insert : a_step oom A AInsert (mkA (as_subs A) (as_delayed A) (as_queue A) (as_calls A) (as_phase A) (as_wait A) false)
  | st_prepare clk sent next fds max_fd out rest r : as_phase A = SLoop -> pass clk sent 0 (as_delayed A) = (out, rest, r) ->
      a_step oom A (APrepare clk sent next)
        (mkA (as_subs A) rest (as_queue A ++ publishing out) (as_calls A) (SWait (select_timeval r) fds max_fd) (as_wait A) (as_busy A))
  | st_no_prepare clk sent next : as_phase A <> SLoop -> a_step oom A (APrepare clk sent next) A
  | st_return ready tv fds max_fd : as_phase A = SWait tv fds max_fd ->
      a_step oom A (AReturn ready) (mkA (as_subs A) (as_delayed A) (as_queue A) (as_calls A)
        (SPublish (filter (fun fd => fd ∈ fds /\ fd ∈ ready) (Z.of_nat <$> seq 0 (Z.to_nat (max_fd + 1))))) (as_wait A) (as_busy A))
  | st_no_return ready : (forall tv fds max_fd, as_phase A <> SWait tv fds max_fd) -> a_step oom A (AReturn ready) A
  | st_end n next sent : as_phase A = SPublish [] -> as_wait A = 0%nat ->
      a_step oom A (APublish n next sent) (mkA (as_subs A) (as_delayed A) (as_queue A) (as_calls A) SLoop 0 (as_busy A))
  | st_publish_fd n next sent fd fds : as_phase A = SPublish (fd :: fds) -> as_wait A = 0%nat ->
      a_step oom A (APublish n next sent)
        (if (Z.of_nat (length (as_queue A)) <? Z.quot (n * 3) 4) && sent
         then mkA (as_subs A) (as_delayed A) (as_queue A ++ [(CMD_PUBLISH_FD_EVENT, norm (mkParam fd 0 0))]) (as_calls A) (SPublish fds) (S (length (as_queue A))) (as_busy A)
         else mkA (as_subs A) (as_delayed A) (as_queue A) (as_calls A) (SPublish fds) 0 (as_busy A))
  | st_no_publish n next sent : as_wait A <> 0%nat \/ (forall fds, as_phase A <> SPublish fds) -> a_step oom A (APublish n next sent) A.

Inductive a_run (oom : Prop) : astate -> list eact -> astate -> Prop :=
  | ar_nil A : a_run oom A [] A
  | ar_cons A act A1 acts A2 : a_step oom A act A1 -> a_run oom A1 acts A2 -> a_run oom A (act :: acts) A2.

(** Functions are addresses that are not NULL; [next] has the size of the
    link. *)
Definition act_ok (act : eact) : Prop :=
  match act with
  | ACall c next _ => length next = 8%nat /\ match c with CSub _ _ cb _ | CUnsub _ _ cb _ => 0 < cb < 2 ^ 32 | _ => True end
  | APrepare _ _ next | APublish _ next _ => length next = 8%nat
  | _ => True
  end.

(** ** The state in memory *)

Definition needs_cb (cmd : ev_cmd) : bool :=
  match cmd with CMD_SUB_FD_EVENT | CMD_SUB_EVENT | CMD_REMOVE_FD_EVENT | CMD_REMOVE_EVENT => true | _ => false end.

Definition msg_ok (m : ev_cmd * list Z) : Prop :=
  exists p next, m.2 = param_bytes p next /\ length next = 8%nat /\ (needs_cb m.1 = true -> u32 (ep_cb p) <> 0).

Definition read_msg (m : ev_cmd * list Z) : ev_cmd * event_param := (m.1, param_of m.2).

Record eabs (s : esys) (A : astate) : Prop := mkEabs {
  ea_list : exists L, ev_mem (es_event s) L /\ as_subs A = subs_of L;
  ea_delayed : exists T, placed s T /\ as_delayed A = T.*2;
  ea_queue : as_queue A = read_msg <$> es_queue s;
  ea_calls : as_calls A = ev_calls (es_event s);
  ea_phase : as_phase A = es_phase s;
  ea_wait : as_wait A = es_wait s;
  ea_ok : Forall msg_ok (es_queue s);
  ea_sorted : StronglySorted before (as_delayed A);
  ea_norm : Forall (fun p => norm p = p) (as_delayed A);
  ea_busy : as_busy A = match es_insert s with Some _ => true | None => false end;
}.

Section Steps.
Context `{Allocator}.

Lemma wp_on_list {R} (f : E R) (Q : R -> esys -> Prop) s : wp f (fun a e => Q a (set_event e s)) (es_event s) -> wp (on_list f) Q s.
Proof. unfold wp, on_list. by destruct (f (es_event s)) as [[a e]|]. Qed.

(** ** Handling a call *)

(** The queue without its first call. *)
Definition dequeued s q : esys := set_wait (pred (es_wait s)) (set_queue q s).

Lemma eabs_list s A m q e L' n calls : eabs s A -> es_insert s = None -> es_queue s = m :: q -> ev_mem e L' -> ev_calls e = ev_calls (es_event s) ++ calls ->
  eabs (set_select_sem n (set_event e (dequeued s q))) (mkA (subs_of L') (as_delayed A) (read_msg <$> q) (as_calls A ++ calls) (as_phase A) (pred (as_wait A)) false).
Proof.
  intros [HL [T [Ht HT]] Hq Hc Hp Hw Hok Hs Hn Hb] Ei Eq Hm Ec. rewrite Eq in Hok. apply Forall_cons in Hok as [_ Hok].
  split; cbn; [by exists L' | exists T; split; [by eapply placed_ext | done] | done | by rewrite Ec, Hc | done | by rewrite Hw | done | done | done | by rewrite Ei].
Qed.

(** The calls that concern the event list. *)
Lemma wp_list_op s A now cmd p buf q op : eabs s A -> es_insert s = None -> es_queue s = (cmd, buf) :: q -> param_of buf = p -> op_of cmd p = Some op -> op_ok op ->
  wp (on_list (run_ev op)) (fun _ s' => exists A', a_serve oom now A A' /\ forall n, eabs (set_select_sem n s') A') (dequeued s q).
Proof.
  intros Ha Ei Eq Ep Eo Hok. destruct (ea_list _ _ Ha) as (L & Hm & HL). apply wp_on_list. cbn [es_event dequeued set_wait set_queue].
  eapply wp_mono; [by apply (wp_run_ev _ L)|]. intros rc e (L' & calls & Hm' & Hc & Hst). eexists. split; [|intros n; by eapply eabs_list].
  eapply sv_op; [|exact Eo|by rewrite HL]. rewrite (ea_queue _ _ Ha), Eq. unfold read_msg at 1. simpl. by rewrite Ep.
Qed.

Lemma op_of_ok cmd p op : op_of cmd (norm p) = Some op -> (needs_cb cmd = true -> u32 (ep_cb p) <> 0) -> op_ok op.
Proof.
  intros E Hcb. pose proof (wrap_range 32 (ep_event_id p) ltac:(lia)) as Hr. destruct cmd; simpl in E; try (destruct (0 <? _); [done|]); injection E as <-.
  all: split; [exact Hr|]; simpl; try done; by apply Hcb.
Qed.

Lemma eabs_same_sem s A : eabs (set_select_sem (es_select_sem s) s) A -> eabs s A.
Proof. by destruct s. Qed.

(** A publication for later. *)
Lemma wp_delay_call s A buf q p next now : eabs s A -> es_insert s = None -> es_queue s = (CMD_PUBLISH_EVENT, buf) :: q -> buf = param_bytes p next -> 0 < u32 (ep_cb p) ->
  wp (delay_event (norm p) now) (fun _ s' => exists A', a_serve oom now A A' /\ eabs s' A') (dequeued s q).
Proof.
  intros Ha Ei Eq Eb Hpos. destruct (ea_delayed _ _ Ha) as (T & Ht & HT). pose proof Ht as Ht0. unfold placed in Ht. rewrite Ei in Ht. destruct Ht as [Hr Ht]. destruct (ea_list _ _ Ha) as (L & Hm & HL).
  assert (Hq : as_queue A = (CMD_PUBLISH_EVENT, norm p) :: (read_msg <$> q)).
  { rewrite (ea_queue _ _ Ha), Eq. unfold read_msg at 1. simpl. by rewrite Eb, param_of_bytes. }
  pose proof (ea_ok _ _ Ha) as Hok. rewrite Eq in Hok. apply Forall_cons in Hok as [_ Hok].
  assert (Ht1 : trep (dequeued s q) T) by (split; [exact Hr | exact Ht]). apply (wp_delay_event _ T); [done | |].
  - intros Hoom. eexists. split; [by apply (sv_memory oom now A (norm p) (read_msg <$> q))|]. destruct Ha. split; cbn; try done; [exists T; split; [by eapply placed_ext | done] | congruence | by rewrite Ei].
  - intros n a T' p' Ht' ET. eexists. split; [by apply (sv_later oom now A (norm p) (read_msg <$> q))|]. destruct Ha as [_ _ _ Hc Hp Hw _ Hs Hn _]. split; cbn; try done.
    + by exists L.
    + exists T'. split; [exact Ht'|]. rewrite ET, HT. done.
    + congruence.
    + by apply delay_insert_sorted.
    + apply Forall_forall. intros x [->|Hx]%elem_of_delay_insert; [|rewrite Forall_forall in Hn; by apply Hn].
      unfold norm, later. simpl. by rewrite !(wrap_small 32 (u32 _)) by by apply wrap_range.
Qed.

Lemma wp_serve s A now : eabs s A -> es_insert s = None -> wp (serve now) (fun _ s' => exists A', a_serve oom now A A' /\ eabs s' A') s.
Proof.
  intros Ha Ei. unfold serve. apply wp_bind, wp_gets, wp_bind, wp_gets. rewrite Ei. destruct (es_queue s) as [|[cmd buf] q] eqn:Eq.
  { apply wp_ret. exists A. split; [|done]. apply sv_idle. by rewrite (ea_queue _ _ Ha), Eq. }
  apply wp_bind. eapply run_wp; [reflexivity|]. fold (dequeued s q). pose proof (ea_ok _ _ Ha) as Hok. rewrite Eq in Hok. apply Forall_cons in Hok as [Hok _].
  destruct Hok as (p & next & Eb & Hl & Hcb). simpl in Eb, Hcb. unfold process_rpc. rewrite Eb, param_of_bytes. unfold param_bytes at 1. rewrite !length_app, Hl. cbn [negb Nat.eqb le32 length Nat.add param_size].
  assert (Hp : param_of buf = norm p) by (by rewrite Eb, param_of_bytes).
  assert (Hop : forall op, op_of cmd (norm p) = Some op -> wp (on_list (run_ev op) ;; ret tt) (fun _ s' => exists A', a_serve oom now A A' /\ eabs s' A') (dequeued s q)).
  { intros op Eo. apply wp_bind. eapply wp_mono; [apply (wp_list_op s A now cmd (norm p) buf q op); try done; by eapply op_of_ok|].
    intros rc s' (A' & Hsv & He). apply wp_ret. exists A'. split; [done|]. apply eabs_same_sem, He. }
  destruct cmd; try exact (Hop _ eq_refl).
  - apply wp_bind. eapply wp_mono; [apply (wp_list_op s A now CMD_SUB_FD_EVENT (norm p) buf q (OSub true (ep_event_id (norm p)) (ep_cb (norm p)) (ep_data (norm p)))); try done; by eapply (op_of_ok CMD_SUB_FD_EVENT p)|].
    intros rc s' (A' & Hsv & He). unfold select_signal. eapply run_wp; [reflexivity|]. exists A'. split; [done | apply He].
  - cbn [norm ep_cb] in *. destruct (0 <? u32 (ep_cb p)) eqn:Ez; [apply (wp_delay_call s A buf q p next now); try done; lia|].
    apply (Hop (OPub false (ep_event_id (norm p)) (ep_data (norm p)))). simpl. by rewrite Ez.
Qed.

(** ** Calls of clients *)

Lemma eabs_send s A m : eabs s A -> msg_ok m -> eabs (set_queue (es_queue s ++ [m]) s) (add_calls [read_msg m] A).
Proof.
  intros [HL (T & Ht & HT) Hq Hc Hp Hw Hok Hs Hn Hb] Hm. split; cbn; try done.
  - exists T. split; [by eapply placed_ext | done].
  - by rewrite Hq, fmap_app.
  - apply Forall_app. split; [done | by apply Forall_singleton].
Qed.

Lemma add_calls_nil A : add_calls [] A = A.
Proof. destruct A. unfold add_calls. simpl. by rewrite app_nil_r. Qed.

Lemma wp_event_call s A p cmd next sent m : eabs s A -> length next = 8%nat -> (needs_cb cmd = true -> u32 (ep_cb p) <> 0) -> m = (cmd, norm p) ->
  wp (event_call p cmd next sent) (fun _ s' => eabs s' (add_calls (if sent then [m] else []) A)) s.
Proof.
  intros Ha Hl Hcb ->. unfold event_call, when. destruct sent; [|apply wp_ret; by rewrite add_calls_nil]. eapply run_wp; [reflexivity|].
  pose proof (eabs_send s A (cmd, param_bytes p next) Ha) as Hs. unfold read_msg in Hs. cbn [fst snd] in Hs. rewrite param_of_bytes in Hs. apply Hs. by exists p, next.
Qed.

Lemma wp_client_call s A c next sent : eabs s A -> act_ok (ACall c next sent) ->
  wp (client_call c next sent) (fun _ s' => eabs s' (add_calls (if sent then [msg_of c] else []) A)) s.
Proof.
  intros Ha [Hl Hc]. assert (Hnz : forall cb, 0 < cb < 2 ^ 32 -> (cb =? 0) = false /\ u32 cb <> 0) by (intros cb Hcb; rewrite wrap_small; lia).
  destruct c as [[] i cb ctx|[] i cb ctx|[] i data|i data timeout]; simpl client_call; unfold event_subscribe, event_subscribe_fd, event_unsubscribe, event_unsubscribe_fd;
    try (destruct (Hnz cb Hc) as [Ez Hcb]; rewrite ?Ez); (eapply wp_event_call; [done | done | done | ]); try done.
  unfold msg_of, norm. simpl. by rewrite (wrap_small 32 (u32 timeout)) by by apply wrap_range.
Qed.

(** ** The select task *)

Lemma pass_spec clk sent l : forall k out rest r, pass clk sent k l = (out, rest, r) -> Forall (fun p => norm p = p) l ->
  (exists pre, l = pre ++ rest) /\ norm <$> out = out.
Proof.
  induction l as [|p l IHl]; intros k out rest r E Hn; simpl in E; [injection E as <- <- <-; split; [by exists [] | done]|].
  apply Forall_cons in Hn as [Hp Hn]. destruct (ep_cb p <=? clk k); [|injection E as <- <- <-; split; [by exists [] | done]].
  destruct (pass clk sent (S k) l) as [[out' rest'] r'] eqn:E'. injection E as <- <- <-. destruct (IHl _ _ _ _ E' Hn) as [[pre ->] Ho].
  split; [by exists (p :: pre)|]. rewrite fmap_app, Ho. f_equal. destruct (sent k); [|done]. simpl. f_equal. rewrite <- Hp. unfold norm. simpl.
  by rewrite !(wrap_small 32 (u32 _)) by by apply wrap_range.
Qed.

Lemma eabs_passed s A clk sent out rest r next s' T' : eabs s A -> es_insert s = None -> pass clk sent 0 (as_delayed A) = (out, rest, r) -> length next = 8%nat ->
  trep s' T' -> T'.*2 = rest -> passed s out next s' -> eabs s' (mkA (as_subs A) rest (as_queue A ++ publishing out) (as_calls A) (as_phase A) (as_wait A) (as_busy A)).
Proof.
  intros [HL _ Hq Hc Hp Hw Hok Hs Hn Hb] Ei Ep Hl Ht ET (P1 & P2 & P3 & P4 & P6 & P5). destruct (pass_spec _ _ _ _ _ _ _ Ep Hn) as [[pre Epre] Ho].
  rewrite Epre in Hs, Hn. split; cbn; rewrite ?P1, ?P3, ?P4, ?P5, ?P6; try done.
  - exists T'. unfold placed. by rewrite P6, Ei.
  - rewrite Hq, fmap_app. f_equal. rewrite <- list_fmap_compose. rewrite <- Ho at 1. unfold publishing. rewrite <- list_fmap_compose.
    apply list_fmap_ext. intros _ p _. unfold compose, read_msg. simpl. by rewrite param_of_bytes.
  - apply Forall_app. split; [done|]. apply Forall_fmap, Forall_forall. intros p _. exists p, next. split_and!; try done.
  - by apply StronglySorted_app_1_r in Hs.
  - by apply Forall_app in Hn as [_ Hn].
Qed.

Lemma eabs_phase s A ph n : eabs s A -> eabs (set_wait n (set_sphase ph s)) (mkA (as_subs A) (as_delayed A) (as_queue A) (as_calls A) ph n (as_busy A)).
Proof. intros [HL (T & Ht & HT) Hq Hc Hp Hw Hok Hs Hn Hb]. split; cbn; try done. exists T. split; [by eapply placed_ext | done]. Qed.

Lemma eabs_phase_only s A ph : eabs s A -> eabs (set_sphase ph s) (mkA (as_subs A) (as_delayed A) (as_queue A) (as_calls A) ph (as_wait A) (as_busy A)).
Proof. intros Ha. pose proof (eabs_phase s A ph (es_wait s) Ha) as Hx. rewrite (ea_wait _ _ Ha). by destruct s. Qed.

Lemma wp_prepare s A clk sent next : eabs s A -> es_insert s = None -> length next = 8%nat -> as_phase A = SLoop ->
  wp (select_prepare clk sent next) (fun _ s' => exists A', a_step oom A (APrepare clk sent next) A' /\ eabs s' A') s.
Proof.
  intros Ha Ei Hl Hph. unfold select_prepare. destruct (ea_delayed _ _ Ha) as (T & Ht & HT). unfold placed in Ht. rewrite Ei in Ht. apply wp_bind, (wp_do_time_event clk sent next T); [done|].
  intros s' T'. rewrite <- HT. destruct (pass clk sent 0 (as_delayed A)) as [[out rest] r] eqn:Ep. intros Ht' ET HP.
  pose proof (eabs_passed s A clk sent out rest r next s' T' Ha Ei Ep Hl Ht' ET HP) as Ha'. destruct (ea_list _ _ Ha') as (L & [Hrep _] & _).
  apply wp_bind, wp_on_list, (wp_setfd _ L); [done|]. eapply run_wp; [reflexivity|]. eexists. split; [by eapply st_prepare|].
  replace (set_event (es_event s') s') with s' by (by destruct s'). apply (eabs_phase_only _ _ _ Ha').
Qed.

Lemma wp_select_publish s A n next sent : eabs s A -> length next = 8%nat -> (exists fds, as_phase A = SPublish fds) -> as_wait A = 0%nat ->
  wp (select_publish n next sent) (fun _ s' => exists A', a_step oom A (APublish n next sent) A' /\ eabs s' A') s.
Proof.
  intros Ha Hl [fds Hph] Hw. unfold select_publish. apply wp_bind, wp_gets. rewrite <- (ea_phase _ _ Ha), Hph. destruct fds as [|fd fds].
  { eapply run_wp; [reflexivity|]. eexists. split; [by apply st_end|]. pose proof (eabs_phase_only s A SLoop Ha) as Hx. by rewrite Hw in Hx. }
  apply wp_bind. eapply run_wp; [reflexivity|]. apply wp_bind, wp_gets. pose proof (eabs_phase_only s A (SPublish fds) Ha) as Hx. rewrite Hw in Hx.
  set (s1 := set_sphase _ s) in *. pose proof (st_publish_fd oom A n next sent fd fds Hph Hw) as Hst.
  assert (Hlen : length (as_queue A) = length (es_queue s1)) by (rewrite (ea_queue _ _ Ha); apply length_fmap). rewrite Hlen in Hst.
  unfold when at 1. destruct (_ <? _); [|apply wp_ret; eexists; split; [exact Hst | exact Hx]]. simpl in Hst.
  apply wp_bind. eapply wp_mono; [by apply (wp_event_call s1 _ (mkParam fd 0 0) CMD_PUBLISH_FD_EVENT next sent (CMD_PUBLISH_FD_EVENT, norm (mkParam fd 0 0)) Hx Hl)|]. intros [] s2 Hx2. unfold when. destruct sent.
  - eapply run_wp; [reflexivity|]. eexists. split; [exact Hst|]. pose proof (eabs_phase s2 _ (SPublish fds) (length (es_queue s2)) Hx2) as Hx3.
    pose proof (ea_queue _ _ Hx2) as Eq. simpl in Eq. apply (f_equal length) in Eq. rewrite length_app, length_fmap, Hlen in Eq. simpl in Eq. rewrite Nat.add_1_r in Eq.
    rewrite <- Eq in Hx3 at 2. pose proof (ea_phase _ _ Hx2) as Eph. simpl in Eph. destruct s2. simpl in *. subst. exact Hx3.
  - apply wp_ret. eexists. split; [exact Hst|]. by rewrite add_calls_nil in Hx2.
Qed.

(** ** Every action *)

Lemma wp_insert s A : eabs s A -> wp insert_timer (fun _ s' => exists A', a_step oom A AInsert A' /\ eabs s' A' /\ as_busy A' = false) s.
Proof.
  intros [HL (T & Ht & HT) Hq Hc Hp Hw Hok Hs Hn Hb]. apply (wp_insert_timer s T); [done|]. intros s' Ht' Ei E1 E2 E3 E4. eexists.
  split; [apply st_insert|]. split; [|done]. split; cbn; rewrite ?E1, ?E2, ?E3, ?E4, ?Ei; try done. exists T. unfold placed. by rewrite Ei.
Qed.

(** The flag of [apart] after an action. *)
Definition busy_after (busy : bool) (act : eact) : bool := match act with AServe _ => true | AInsert => false | _ => busy end.
Definition act_apart (busy : bool) (act : eact) : bool := match act with APrepare _ _ _ => negb busy | _ => true end.

Lemma apart_cons busy act acts : apart busy (act :: acts) = act_apart busy act && apart (busy_after busy act) acts.
Proof. by destruct act. Qed.

Lemma not_busy s A : eabs s A -> as_busy A = false -> es_insert s = None.
Proof. intros Ha Hb. rewrite (ea_busy _ _ Ha) in Hb. by destruct (es_insert s). Qed.

Lemma wp_eexec s A busy act : eabs s A -> (as_busy A = true -> busy = true) -> act_ok act -> act_apart busy act = true ->
  wp (eexec act) (fun _ s' => exists A', a_step oom A act A' /\ eabs s' A' /\ (as_busy A' = true -> busy_after busy act = true)) s.
Proof.
  intros Ha Hbusy Hok Hap. unfold eexec. apply wp_bind, wp_gets. cbn [id]. rewrite <- (ea_phase _ _ Ha), <- (ea_wait _ _ Ha).
  assert (Hno : a_step oom A act A -> (as_busy A = true -> busy_after busy act = true) ->
    wp (ret tt) (fun _ s' => exists A', a_step oom A act A' /\ eabs s' A' /\ (as_busy A' = true -> busy_after busy act = true)) s) by (intros Hst Hb; apply wp_ret; eauto).
  assert (Hkeep : forall f : X unit, (forall A', a_step oom A act A' -> as_busy A' = as_busy A) -> busy_after busy act = busy ->
    wp f (fun _ s' => exists A', a_step oom A act A' /\ eabs s' A') s ->
    wp f (fun _ s' => exists A', a_step oom A act A' /\ eabs s' A' /\ (as_busy A' = true -> busy_after busy act = true)) s).
  { intros f Hsame Hb Hf. eapply wp_mono; [exact Hf|]. intros r s' (A' & Hst & Ha'). exists A'. split_and!; [done | done|]. by rewrite (Hsame A' Hst), Hb. }
  destruct act as [c next sent|now| |clk sent next|ready|n next sent].
  - apply Hkeep; [by inversion 1; destruct sent | done|]. eapply wp_mono; [by apply wp_client_call|]. intros [] s' Ha'. eexists. split; [apply st_call | exact Ha'].
  - destruct (as_busy A) eqn:Eb.
    + unfold serve. apply wp_bind, wp_gets, wp_bind, wp_gets. rewrite (ea_busy _ _ Ha) in Eb. destruct (es_insert s) as [i|] eqn:Ei; [|done]. apply Hno; [|done].
      apply st_no_serve. by rewrite (ea_busy _ _ Ha), Ei.
    + eapply wp_mono; [apply wp_serve; [done | by apply (not_busy s A)]|]. intros _ s' (A' & Hsv & Ha'). exists A'. split_and!; [by apply st_serve | done | done].
  - eapply wp_mono; [by apply wp_insert|]. intros _ s' (A' & Hst & Ha' & Hb). exists A'. split_and!; [done | done | congruence].
  - apply negb_true_iff in Hap. destruct (as_busy A) eqn:Eb; [by rewrite Hbusy in Hap|].
    destruct (as_phase A) eqn:Eph; [|apply Hno; [apply st_no_prepare; by rewrite Eph | congruence]..].
    apply Hkeep; [intros A1; inversion 1; subst; simpl; congruence | done|]. apply wp_prepare; [done | by apply (not_busy s A) | done..].
  - destruct (as_phase A) as [|tv fds m|] eqn:Eph; try (apply Hno; [apply st_no_return; intros; by rewrite Eph | done]). apply Hkeep; [by inversion 1 | done|].
    unfold select_return. apply wp_bind, wp_gets.
    rewrite <- (ea_phase _ _ Ha), Eph. eapply run_wp; [reflexivity|]. eexists. split; [by eapply st_return | by apply eabs_phase_only].
  - destruct (as_phase A) as [| |fds] eqn:Eph; try (apply Hno; [apply st_no_publish; right; intros; by rewrite Eph | done]).
    destruct (as_wait A) eqn:Ew; [|apply Hno; [apply st_no_publish; left; lia | done]]. apply Hkeep; [by inversion 1; repeat case_match | done|]. apply wp_select_publish; eauto.
Qed.

Lemma wp_erun acts : forall s A busy, eabs s A -> (as_busy A = true -> busy = true) -> Forall act_ok acts -> apart busy acts = true ->
  wp (erun acts) (fun _ s' => exists A', a_run oom A acts A' /\ eabs s' A') s.
Proof.
  induction acts as [|act acts IHa]; intros s A busy Ha Hb Hok Hap; simpl; [apply wp_ret; exists A; split; [constructor | done]|].
  rewrite apart_cons in Hap. apply andb_true_iff in Hap as [Hap Hap']. apply Forall_cons in Hok as [Hact Hok].
  apply wp_bind. eapply wp_mono; [by apply (wp_eexec s A busy)|]. intros _ s1 (A1 & Hst & Ha1 & Hb1).
  eapply wp_mono; [by apply (IHa s1 A1 (busy_after busy act))|]. intros _ s2 (A2 & Hr & Ha2). exists A2. split; [by econstructor | done].
Qed.

Lemma eabs_init : wp event_service_init (fun rc s => rc = 0 /\ eabs s a_start) es_start.
Proof.
  unfold event_service_init. apply wp_bind, wp_on_list. eapply wp_mono; [apply (ev_mem_init 0)|]. intros rc e (_ & Hm & Hc).
  apply wp_bind, (wp_klist_init (fun _ : unit => []) tt).
  - split; [done | constructor | by intros i j n ?%elem_of_nil].
  - done.
  - intros i. apply not_elem_of_nil.
  - intros l' HG. apply wp_bind. eapply run_wp; [reflexivity|]. apply wp_ret. split; [done|]. split; cbn; try done.
    + by exists [].
    + exists []. split; [|done]. split; [eapply trings_ext; [exact HG|]; apply fn_lookup_insert|]. intros a p. cbn. rewrite lookup_empty, elem_of_nil. done.
    + constructor.
Qed.

(** What holds after a schedule. *)
Lemma after_events acts (Q : esys -> Prop) : Forall act_ok acts -> apart false acts = true -> (forall s A, a_run oom a_start acts A -> eabs s A -> Q s) ->
  wp (event_service_init ;; erun acts) (fun _ s => Q s) es_start.
Proof.
  intros Hok Hap HQ. apply wp_bind. eapply wp_mono; [apply eabs_init|]. intros rc s [_ Ha]. eapply wp_mono; [by apply (wp_erun acts s a_start false)|].
  intros _ s' (A & Hr & Ha'). by apply (HQ s' A).
Qed.
End Steps.
