(* ===== verification/SpecEvSvr.v ===== *)
(** * The event service: what it promises *)

From S2P Require Import Prelude.
From S2P Require Import Monad.
From S2P Require Import Links.
From S2P Require Import SList.
From S2P Require Import EvList.
From S2P Require Import EvOps.
From S2P Require Import EvSvr.
From S2P Require Import EvSvrInv.

(** ** A pass at one time *)

Lemma filter_all {A} (P : A -> Prop) `{forall x, Decision (P x)} (l : list A) : (forall x, x ∈ l -> P x) -> filter P l = l.
Proof.
  induction l as [|x l IHl]; [done|]. intros HP. rewrite filter_cons, decide_True by (apply HP, elem_of_cons; by left). f_equal.
  apply IHl. intros y Hy. apply HP, elem_of_cons. by right.
Qed.

Lemma filter_none {A} (P : A -> Prop) `{forall x, Decision (P x)} (l : list A) : (forall x, x ∈ l -> ~ P x) -> filter P l = [].
Proof.
  induction l as [|x l IHl]; [done|]. intros HP. rewrite filter_cons, decide_False by (apply HP, elem_of_cons; by left).
  apply IHl. intros y Hy. apply HP, elem_of_cons. by right.
Qed.

Definition due (now : Z) (p : event_param) : Prop := ep_cb p <= now.

#[export] Instance due_dec now p : Decision (due now p).
Proof. unfold due. apply _. Defined.

Definition published (p : event_param) : event_param := mkParam (ep_event_id p) 0 (ep_data p).

(** The time to the first event, -1 without one. *)
Definition time_left (now : Z) (l : list event_param) : Z := match l with [] => -1 | p :: _ => i32 (ep_cb p - now) end.

Lemma none_due now p l : now < ep_cb p -> Forall (before p) l -> filter (due now) (p :: l) = [] /\ filter (fun q => ~ due now q) (p :: l) = p :: l.
Proof.
  intros Hp Hl. assert (Hno : forall q, q ∈ p :: l -> ~ due now q).
  { unfold due, before in *. intros q [->|Hq]%elem_of_cons; [lia|]. rewrite Forall_forall in Hl. specialize (Hl q Hq). lia. }
  split; [by apply filter_none | by apply filter_all].
Qed.

Lemma pass_const now l : StronglySorted before l -> forall k,
  pass (fun _ => now) (fun _ => true) k l = (published <$> filter (due now) l, filter (fun p => ~ due now p) l, time_left now (filter (fun p => ~ due now p) l)).
Proof.
  induction 1 as [|p l Hl IHl Hp]; intros k; [done|]. simpl. destruct (Z.leb_spec (ep_cb p) now) as [Hd|Hd].
  - rewrite IHl. rewrite !filter_cons, decide_True, decide_False by (unfold due; (done || lia || (intros Hn; by apply Hn))). done.
  - destruct (none_due now p l Hd Hp) as [-> ->]. done.
Qed.

Lemma all_due now l : Forall (fun p => norm p = p) l -> 2 ^ 32 <= now -> filter (fun p => ~ due now p) l = [].
Proof.
  intros Hn Hnow. apply filter_none. intros p Hin Hp. apply Hp. unfold due. rewrite Forall_forall in Hn. rewrite <- (Hn p Hin). simpl.
  pose proof (wrap_range 32 (ep_cb p) ltac:(lia)). lia.
Qed.

(** ** Any pass *)



Section Claims.
Context `{Allocator}.

Lemma wp_pass_at s A now next : eabs s A -> es_insert s = None -> wp (do_time_event (fun _ => now) (fun _ => true) next) (fun r s' =>
  (exists T', trep s' T' /\ T'.*2 = filter (fun p => ~ due now p) (as_delayed A)) /\
  es_queue s' = es_queue s ++ ((fun p => (CMD_PUBLISH_EVENT, param_bytes (published p) next)) <$> filter (due now) (as_delayed A)) /\
  r = time_left now (filter (fun p => ~ due now p) (as_delayed A))) s.
Proof.
  intros Ha Ei. destruct (ea_delayed _ _ Ha) as (T & Ht & HT). unfold placed in Ht. rewrite Ei in Ht. apply (wp_do_time_event _ _ next T); [done|]. intros s' T'.
  rewrite <- HT, pass_const by apply Ha. intros Ht' ET (_ & _ & _ & _ & _ & Eq). split_and!; [by exists T' | | done]. by rewrite Eq, <- list_fmap_compose.
Qed.

(** ** Claims *)



(** Delays end after 49.7 days.  The time of a delayed event is kept in 32
    bits and compared with the 64-bit clock: from 2^32 milliseconds on every
    pass publishes every delayed event at once, whatever its delay. *)
Theorem delays_ignored (acts : list eact) : Forall act_ok acts -> apart false acts = true ->
  wp (event_service_init ;; erun acts) (fun _ s => es_insert s = None -> forall now next, 2 ^ 32 <= now ->
    wp (do_time_event (fun _ => now) (fun _ => true) next) (fun r s' => r = -1 /\ es_timers s' = ∅ /\
      (length (es_queue s') = length (es_queue s) + size (es_timers s))%nat) s) es_start.
Proof.
  intros Hok Hap. apply after_events; [done..|]. intros s A Hr Ha Ei now next Hnow.
  eapply wp_mono; [by apply (wp_pass_at s A)|]. intros r s' ((T' & Ht' & ET) & Eq & Er). rewrite all_due in ET, Er by (done || apply Ha).
  destruct T' as [|? ?]; [|done]. split_and!; [done | |].
  - apply map_empty. intros a. destruct (es_timers s' !! a) as [p|] eqn:E; [|done]. apply (tr_timers _ _ Ht') in E. by apply elem_of_nil in E.
  - destruct (ea_delayed _ _ Ha) as (T & Ht & HT). unfold placed in Ht. rewrite Ei in Ht. rewrite Eq, length_app, length_fmap. f_equal.
    assert (Hall : filter (due now) (as_delayed A) = as_delayed A).
    { apply filter_all. intros p Hp. destruct (decide (due now p)) as [|Hn]; [done|]. exfalso.
      assert (Hin : p ∈ filter (fun p => ~ due now p) (as_delayed A)) by (by apply list_elem_of_filter). rewrite all_due in Hin by (done || apply Ha). by apply elem_of_nil in Hin. }
    rewrite Hall, HT, length_fmap. assert (Em : es_timers s = list_to_map T).
    { apply map_eq. intros a. apply option_eq. intros p. rewrite <- (tr_timers _ _ Ht). rewrite <- elem_of_list_to_map by by eapply trep_nodup. done. }
    rewrite Em. by rewrite map_size_list_to_map by by eapply trep_nodup.
Qed.
End Claims.

(** ** Examples *)

(** Memory for eight objects. *)
#[local] Instance room : Allocator := first_free 8.

Definition link0 : list Z := repeat 0 8.

(** A function is subscribed to event 7, which is published with a delay of 50 ms
    at 1000 ms; a pass at 1040 ms waits 10 ms, one at 1050 ms publishes it. *)
Definition svr_demo : list eact :=
  [ACall (CSub false 7 11 1) link0 true; ACall (CPubDelay 7 99 50) link0 true; AServe 999; AServe 1000; AInsert;
   APrepare (fun _ => 1040) (fun _ => true) link0; AReturn []; APublish 40 link0 true;
   APrepare (fun _ => 1050) (fun _ => true) link0; AServe 1050].

Example svr_demo_runs : exists s, (event_service_init ;; erun svr_demo) es_start = Some (tt, s) /\
  ev_calls (es_event s) = [mkCall 11 7 99 1] /\ es_phase s = SWait None [] 0.
Proof. eexists. split; [vm_compute; reflexivity | split; vm_compute; reflexivity]. Qed.

Example svr_demo_waits : exists s, (event_service_init ;; erun (take 6 svr_demo)) es_start = Some (tt, s) /\ es_phase s = SWait (Some (0, 10000)) [] 0.
Proof. eexists. split; vm_compute; reflexivity. Qed.

(** A descriptor that is ready is published, and the select task waits for the
    reply. *)
Example svr_descriptor : exists s, (event_service_init ;; erun
    [ACall (CSub true 5 12 3) link0 true; AServe 0; APrepare (fun _ => 0) (fun _ => true) link0; AReturn [5];
     APublish 40 link0 true; APublish 40 link0 true; AServe 1; APublish 40 link0 true]) es_start = Some (tt, s) /\
  ev_calls (es_event s) = [mkCall 12 (2 ^ 31 + 5) 0 3] /\ es_phase s = SLoop.
Proof. eexists. split; [vm_compute; reflexivity | split; vm_compute; reflexivity]. Qed.

(** The service and the select task are not kept apart by a lock: when the
    select task runs after the service has found the place of a new event, that
    place may be an event the select task has freed. *)
Definition race : list eact :=
  [ACall (CPubDelay 7 0 50) link0 true; AServe 1000; AInsert; ACall (CPubDelay 8 0 49) link0 true; AServe 1000;
   APrepare (fun _ => 1050) (fun _ => true) link0].

Example svr_race : apart false race = false /\ (exists s, (event_service_init ;; erun race) es_start = Some (tt, s)) /\
  (event_service_init ;; erun (race ++ [AInsert])) es_start = None.
Proof. split; [done|]. split; [eexists|]; vm_compute; reflexivity. Qed.

(** At 2^32 ms an event with a delay of 1000 s is published by the next pass. *)
Example svr_wrap : exists s, (event_service_init ;; delay_event (mkParam 7 1000000 0) (2 ^ 32) ;; insert_timer ;; do_time_event (fun _ => 2 ^ 32) (fun _ => true) link0) es_start = Some (-1, s) /\
  read_msg <$> es_queue s = [(CMD_PUBLISH_EVENT, mkParam 7 0 0)].
Proof. eexists. split; vm_compute; reflexivity. Qed.

Lemma svr_demo_ok : Forall act_ok svr_demo.
Proof. unfold svr_demo. repeat (apply Forall_cons; split; [simpl; repeat split; lia|]). apply Forall_nil. exact I. Qed.



Lemma delays_ignored_witness : wp (event_service_init ;; erun svr_demo) (fun _ s => es_insert s = None -> forall now next, 2 ^ 32 <= now ->
    wp (do_time_event (fun _ => now) (fun _ => true) next) (fun r s' => r = -1 /\ es_timers s' = ∅ /\
      (length (es_queue s') = length (es_queue s) + size (es_timers s))%nat) s) es_start.
Proof. apply (delays_ignored svr_demo); [exact svr_demo_ok | reflexivity]. Defined.
