(* ===== verification/TimeConv.v ===== *)
(** * Milliseconds and ticks (k_time.c)

    The conversions for any tick rate [HZ] (RHINO_CONFIG_TICKS_PER_SECOND);
    the shipped configurations have 100 and 1000.  Times and ticks are 64 bits
    wide. *)

From S2P Require Import Prelude.

Section Conversions.
Variable HZ : Z.

Definition krhino_sys_time_get (g_tick_count : Z) : Z :=
  if HZ =? 1000 then g_tick_count else u64 (g_tick_count * 1000) / HZ.

Definition krhino_ms_to_ticks (ms : Z) : Z :=
  if HZ =? 1000 then ms else
  let surplus := wrap 16 (ms mod 1000) in
  let ticks := u64 (ms / 1000 * HZ) in
  let padding := wrap 16 (1000 / HZ) in
  let padding := if 0 <? padding then wrap 16 (padding - 1) else 0 in
  u64 (ticks + (surplus + padding) * HZ / 1000).

Definition krhino_ticks_to_ms (ticks : Z) : Z :=
  if HZ =? 1000 then ticks else
  let surplus := u32 (ticks mod HZ) in
  let time := u64 (ticks / HZ * 1000) in
  let padding := u32 (HZ / 1000) in
  let padding := if 0 <? padding then u32 (padding - 1) else 0 in
  u64 (time + u32 ((surplus + padding) * 1000) / HZ).

(** The tick rates with a whole number of milliseconds per tick. *)
Definition whole_ms : Prop := 0 < HZ <= 1000 /\ 1000 mod HZ = 0.

Lemma rates : whole_ms -> HZ ∈ [1; 2; 4; 5; 8; 10; 20; 25; 40; 50; 100; 125; 200; 250; 500; 1000].
Proof.
  intros [Hr Hm]. assert (Hall : Forall (fun h => 1000 mod h = 0 -> h ∈ [1; 2; 4; 5; 8; 10; 20; 25; 40; 50; 100; 125; 200; 250; 500; 1000]) (seqZ 1 1000)).
  { apply (bool_decide_unpack _). vm_compute. exact I. }
  rewrite Forall_forall in Hall. apply Hall; [|done]. apply elem_of_seqZ. lia.
Qed.
End Conversions.

(** One case per rate. *)
Ltac each_rate H :=
  apply rates in H; repeat (apply elem_of_cons in H as [->|H]); [..|by apply elem_of_nil in H].

Ltac rate_solve :=
  repeat match goal with |- context [1000 / Zpos ?k] => let v := eval vm_compute in (1000 / Zpos k) in change (1000 / Zpos k) with v end;
  Z.to_euclidean_division_equations; lia.

(** Without the wrap-around, at every rate up to 1000. *)
Lemma ms_to_ticks_floor HZ ms : 0 < HZ <= 1000 -> 0 <= ms < 2 ^ 64 -> krhino_ms_to_ticks HZ ms = (ms + (1000 / HZ - 1)) * HZ / 1000.
Proof.
  intros Hr Hms. unfold krhino_ms_to_ticks. destruct (Z.eqb_spec HZ 1000) as [->|]; [change (1000 / 1000) with 1; Z.to_euclidean_division_equations; lia|].
  assert (Hp : 1 <= 1000 / HZ <= 1000) by (split; [apply Z.div_le_lower_bound; lia | apply Z.div_le_upper_bound; nia]). set (p := 1000 / HZ) in *.
  assert (Hpz : p * HZ <= 1000) by (pose proof (Z.mul_div_le 1000 HZ ltac:(lia)); lia).
  pose proof (Z.mod_pos_bound ms 1000 ltac:(lia)) as Hm. pose proof (Z.div_mod ms 1000 ltac:(lia)) as Hd. pose proof (Z.div_pos ms 1000 ltac:(lia) ltac:(lia)) as Hq0.
  cbv zeta. rewrite (wrap_small 16 p), (proj2 (Z.ltb_lt 0 p)), (wrap_small 16 (p - 1)), (wrap_small 16 (ms mod 1000)) by lia.
  set (q := ms / 1000) in *. set (r := ms mod 1000) in *. rewrite (wrap_small 64 (q * HZ)) by nia.
  replace ((ms + (p - 1)) * HZ) with ((r + (p - 1)) * HZ + q * HZ * 1000) by (rewrite Hd; ring). rewrite Z.div_add, Z.add_comm by lia.
  apply wrap_small. assert (0 <= (r + (p - 1)) * HZ / 1000 <= r + 1); [|nia]. split; [apply Z.div_pos; nia|].
  assert ((r + (p - 1)) * HZ / 1000 < r + 2); [|lia]. apply Z.div_lt_upper_bound; nia.
Qed.

Lemma ms_to_ticks_ceil HZ ms : whole_ms HZ -> 0 <= ms < 2 ^ 64 -> krhino_ms_to_ticks HZ ms = (ms * HZ + 999) / 1000.
Proof.
  intros Hz Hms. pose proof Hz as [Hr _]. rewrite ms_to_ticks_floor by done. each_rate Hz; rate_solve.
Qed.

Lemma ticks_to_ms_exact HZ ticks : whole_ms HZ -> 0 <= ticks < 2 ^ 64 -> ticks * (1000 / HZ) < 2 ^ 64 -> krhino_ticks_to_ms HZ ticks = ticks * (1000 / HZ).
Proof.
  intros Hz Ht Hb. pose proof Hz as [Hr Hm0]. unfold krhino_ticks_to_ms. destruct (Z.eqb_spec HZ 1000) as [->|]; [change (1000 / 1000) with 1; lia|].
  replace (HZ / 1000) with 0 by (symmetry; apply Z.div_small; lia). cbv zeta. change (u32 0) with 0. cbn [Z.ltb Z.compare]. rewrite Z.add_0_r.
  pose proof (Z.div_mod 1000 HZ ltac:(lia)) as Hd. rewrite Hm0, Z.add_0_r in Hd. set (d := 1000 / HZ) in *.
  pose proof (Z.mod_pos_bound ticks HZ ltac:(lia)) as Hs. pose proof (Z.div_mod ticks HZ ltac:(lia)) as Hdm. set (q := ticks / HZ) in *. set (r := ticks mod HZ) in *.
  assert (Hq : 0 <= q) by (apply Z.div_pos; lia). rewrite (wrap_small 32 r), (wrap_small 32 (r * 1000)) by lia.
  assert (E : r * 1000 / HZ = r * d) by (rewrite Hd; replace (r * (HZ * d)) with (r * d * HZ) by ring; apply Z.div_mul; lia).
  assert (E2 : q * 1000 + r * d = ticks * d) by (rewrite Hd, Hdm; ring).
  assert (Hd0 : 0 <= r * d) by (apply Z.mul_nonneg_nonneg; [lia | apply Z.div_pos; lia]).
  rewrite (wrap_small 64 (q * 1000)) by lia. rewrite E, E2. apply wrap_small. lia.
Qed.

(** ** Claims *)

(** C38: Milliseconds to ticks, at every rate of up to 1000 ticks per second and
    over the whole 64-bit range: a wait ends less than one tick late, and early
    only by less than one millisecond and [(1000 mod HZ) / HZ] of one.  At the
    rates that divide 1000 it never ends early: the result is the smallest number
    of ticks that lasts at least the given time, and converting ticks to
    milliseconds and back gives the same ticks.  (At other rates it may end early,
    see [early_at_300].) *)
Theorem time_conversion HZ ms : 0 < HZ <= 1000 -> 0 <= ms < 2 ^ 64 ->
  let n := krhino_ms_to_ticks HZ ms in
  (ms - 1) * HZ - 1000 mod HZ < 1000 * n < ms * HZ + 1000 /\
  (1000 mod HZ = 0 -> ms <= n * (1000 / HZ) < ms + 1000 / HZ /\
     (n * (1000 / HZ) < 2 ^ 64 -> krhino_ticks_to_ms HZ n = n * (1000 / HZ) /\ krhino_ms_to_ticks HZ (krhino_ticks_to_ms HZ n) = n)).
Proof.
  intros Hr0 Hms n. split.
  { unfold n. rewrite ms_to_ticks_floor by done. pose proof (Z.div_mod 1000 HZ ltac:(lia)). pose proof (Z.mod_pos_bound 1000 HZ ltac:(lia)).
    set (p := 1000 / HZ) in *. pose proof (Z.mul_div_le ((ms + (p - 1)) * HZ) 1000 ltac:(lia)).
    pose proof (Z.mul_succ_div_gt ((ms + (p - 1)) * HZ) 1000 ltac:(lia)). nia. }
  intros Hdvd. assert (Hz : whole_ms HZ) by (by split). assert (Hn : n = (ms * HZ + 999) / 1000) by (by apply ms_to_ticks_ceil).
  assert (Hr : ms <= n * (1000 / HZ) < ms + 1000 / HZ /\ 0 <= n < 2 ^ 64).
  { rewrite Hn. clear n Hn Hr0 Hdvd. change (2 ^ 64) with 18446744073709551616 in *. each_rate Hz; rate_solve. }
  destruct Hr as [Hr Hn64]. split; [done|]. intros Hb. assert (E : krhino_ticks_to_ms HZ n = n * (1000 / HZ)) by (by apply ticks_to_ms_exact).
  split; [done|]. rewrite E, ms_to_ticks_ceil; [|done|lia]. clear Hn E Hr Hb Hr0 Hdvd. clearbody n. change (2 ^ 64) with 18446744073709551616 in *.
  each_rate Hz; rate_solve.
Qed.

Lemma time_conversion_witness :
  let n := krhino_ms_to_ticks 100 1234 in
  (1234 - 1) * 100 - 1000 mod 100 < 1000 * n < 1234 * 100 + 1000 /\
  (1000 mod 100 = 0 -> 1234 <= n * (1000 / 100) < 1234 + 1000 / 100 /\
     (n * (1000 / 100) < 2 ^ 64 -> krhino_ticks_to_ms 100 n = n * (1000 / 100) /\ krhino_ms_to_ticks 100 (krhino_ticks_to_ms 100 n) = n)).
Proof. apply (time_conversion 100 1234); lia. Defined.

(** At a rate that does not divide 1000 a wait can end early: at 300 ticks per
    second 3 ms are one tick, which lasts 3.33 ms, but 4 ms are one tick too. *)
Example early_at_300 : krhino_ms_to_ticks 300 1 = 0 /\ krhino_ms_to_ticks 300 4 = 1.
Proof. split; reflexivity. Qed.
