(* ===== verification/Lpm.v ===== *)
(** * Low-power mode (lpm.c, pm.c, the tickless interface of kernel.c)

    When the idle task runs, [lpm_handle] asks the kernel how many ticks may
    be skipped ([aos_kernel_suspend]), lets the board sleep
    ([sys_soc_suspend], [sys_soc_resume]) and accounts for the ticks that
    passed in one go ([aos_kernel_resume]).  All of it runs with interrupts
    masked: the board's own critical sections save and restore PRIMASK, so
    they leave it set.

    What the registers, the link layer and the ROM library return is a record
    of readings; register writes that only switch clocks, pins and radio on
    and off are left out. *)

From stdpp Require Import functions.
From S2P Require Import Prelude.
From S2P Require Import Monad.
From S2P Require Import Links.
From S2P Require Import KState.
From S2P Require Import Bitmap.
From S2P Require Import Sched.
From S2P Require Import Pend.
From S2P Require Import Inv.
From S2P Require Import Resched.
From S2P Require Import Tick.
From S2P Require Import Mutex.
From S2P Require Import TimeConv.

(** ** The tickless interface (kernel.c) *)

Section Convert.
Variable HZ : Z.

Definition RHINO_OS_MS_PERIOD_TICK : Z := 1000 / HZ.

Definition aos_kernel_tick2ms (ticks : Z) : Z := u64 (ticks * RHINO_OS_MS_PERIOD_TICK).

Definition aos_kernel_ms2tick (ms : Z) : Z :=
  if ms <? RHINO_OS_MS_PERIOD_TICK then 0 else ms / RHINO_OS_MS_PERIOD_TICK.
End Convert.

(** Ticks until the first task of the tick list is due; -1 when none is. *)
Definition aos_kernel_suspend : M Z :=
  e <- is_klist_empty NTickHead ;;
  if e : bool then ret (-1)
  else
    n <- get_next NTickHead ;;
    p_tcb <- tick_task_of n ;;
    x <- task_get p_tcb ;;
    g <- gets gl ;;
    ret (i32 (if g_tick_count g <? tick_match x then u64 (tick_match x - g_tick_count g) else 0)).

Definition aos_kernel_resume (ticks : Z) : M unit :=
  tick_list_update ticks ;;
  core_sched.

(** ** The board (pm.c) *)

Definition STD_CRY32_8_CYCLE_16MHZ_CYCLE : Z := 3906.
Definition ERR_THD_RC32_CYCLE : Z := 200.
Definition CRY32_8_CYCLE_16MHZ_CYCLE_MAX : Z := 3906 + 196.
Definition CRY32_8_CYCLE_16MHZ_CYCLE_MIN : Z := 3906 - 196.

(** The entries of [pGlobal_config] the power management reads. *)
Record config := mkConfig {
  RC32_TRACKINK_ALLOW : bool;      (* pGlobal_config[LL_SWITCH] & RC32_TRACKINK_ALLOW *)
  WAKEUP_ADVANCE : Z;
  MIN_SLEEP_TIME : Z;
  MAX_SLEEP_TIME : Z;
  ALLOW_TO_SLEEP_TICK_RC32K : Z;
  OSAL_SYS_TICK_WAKEUP_TRIM : Z;
}.

Inductive Sleep_Mode := MCU_SLEEP_MODE | SYSTEM_SLEEP_MODE.

(** The variables of pm.c and of the sleep library, and the comparator
    register of the RTC. *)
Record soc_t := mkSoc {
  bSleepDisable : Z;               (* uint8_t *)
  sleepMode : Sleep_Mode;
  sleep_flag : bool;               (* SLEEP_MAGIC or 0 *)
  sleep_tick : Z;
  comparator0 : Z;
  ll_remain_time : Z;
  g_wakeup_rtc_tick : Z;
  counter_tracking : Z;
  g_counter_traking_avg : Z;
  g_counter_traking_cnt : Z;
  g_osal_tick_trim : Z;
  g_osalTickTrim_mod : Z;
  osal_sys_tick : Z;
  rtc_mod_value : Z;
}.

Definition soc_eta (x : soc_t) : soc_t :=
  mkSoc (bSleepDisable x) (sleepMode x) (sleep_flag x) (sleep_tick x) (comparator0 x) (ll_remain_time x)
    (g_wakeup_rtc_tick x) (counter_tracking x) (g_counter_traking_avg x) (g_counter_traking_cnt x)
    (g_osal_tick_trim x) (g_osalTickTrim_mod x) (osal_sys_tick x) (rtc_mod_value x).

Definition set_bSleepDisable : Z -> soc_t -> soc_t := ltac:(field_setter soc_eta bSleepDisable).
Definition set_sleep_flag_var : bool -> soc_t -> soc_t := ltac:(field_setter soc_eta sleep_flag).
Definition set_sleep_tick : Z -> soc_t -> soc_t := ltac:(field_setter soc_eta sleep_tick).
Definition set_comparator0 : Z -> soc_t -> soc_t := ltac:(field_setter soc_eta comparator0).
Definition set_ll_remain_time : Z -> soc_t -> soc_t := ltac:(field_setter soc_eta ll_remain_time).
Definition set_g_wakeup_rtc_tick : Z -> soc_t -> soc_t := ltac:(field_setter soc_eta g_wakeup_rtc_tick).
Definition set_counter_tracking : Z -> soc_t -> soc_t := ltac:(field_setter soc_eta counter_tracking).
Definition set_g_counter_traking_avg : Z -> soc_t -> soc_t := ltac:(field_setter soc_eta g_counter_traking_avg).
Definition set_g_counter_traking_cnt : Z -> soc_t -> soc_t := ltac:(field_setter soc_eta g_counter_traking_cnt).
Definition set_g_osal_tick_trim : Z -> soc_t -> soc_t := ltac:(field_setter soc_eta g_osal_tick_trim).
Definition set_g_osalTickTrim_mod : Z -> soc_t -> soc_t := ltac:(field_setter soc_eta g_osalTickTrim_mod).
Definition set_osal_sys_tick : Z -> soc_t -> soc_t := ltac:(field_setter soc_eta osal_sys_tick).
Definition set_rtc_mod_value : Z -> soc_t -> soc_t := ltac:(field_setter soc_eta rtc_mod_value).

(** Readings on the way into sleep, in the order the code takes them. *)
Record readings := mkReadings {
  llWaitingIrq : bool;             (* first test *)
  rtc_cnt1 : Z;                    (* clock_time_rtc(), tracking only *)
  rtc_now : Z;                     (* clock_time_rtc() *)
  osal_next_timeout : Z;           (* ms *)
  LL_remainder_time : Z;           (* read_LL_remainder_time() *)
  tim1_status : Z;                 (* CP_TIM1->status *)
  ll_idle : bool;                  (* llState == LL_STATE_IDLE *)
  llWaitingIrq' : bool;            (* second test *)
  tracking_reg : Z;                (* 0x4000f064 *)
  rtc_sleep : Z;                   (* clock_time_rtc() in config_RTC11 *)
}.

(** Readings on the way out of it. *)
Record wakeup := mkWakeup {
  rtc_wake : Z;                    (* current_RTC_tick *)
  rtc_wake' : Z;                   (* g_wakeup_rtc_tick *)
  TIM2_IRQ_to_Sleep_DeltTick : Z;
  TIM2_IRQ_PendingTick : Z;
  sw_delay : Z;                    (* read_current_fine_time() - wakeup_time0 *)
}.

Inductive power_state := SYS_POWER_STATE_RUN | SYS_POWER_STATE_STOP.

#[export] Instance power_state_eq_dec : EqDecision power_state.
Proof. solve_decision. Defined.

Definition isSleepAllowInPM (o : soc_t) : bool := bSleepDisable o =? 0.
Definition enableSleepInPM (flag : Z) (o : soc_t) : soc_t := set_bSleepDisable (Z.land (bSleepDisable o) (u8 (Z.lnot flag))) o.
Definition disableSleepInPM (flag : Z) (o : soc_t) : soc_t := set_bSleepDisable (Z.lor (bSleepDisable o) flag) o.

(** RTC ticks in microseconds with the measured period of the RC oscillator,
    [counter_tracking] 16 MHz cycles per 8 ticks. *)
Definition rtc_us_tracking (tracking ticks : Z) : Z :=
  u32 (u32 (Z.shiftl (u32 (Z.shiftr (Z.land ticks 0xffff0000) 16 * tracking)) 9)
       + Z.shiftr (u32 (Z.land ticks 0xffff * tracking)) 7).

(** RTC ticks in microseconds at 32768 Hz. *)
Definition rtc_us (ticks : Z) : Z :=
  u32 (Z.shiftr (u32 (Z.shiftl ticks 7 - Z.shiftl ticks 2 - Z.shiftl ticks 1)) 2
       + Z.shiftr (u32 (Z.shiftl ticks 3 + ticks)) 9).

(** The same, rounded, on the way out. *)
Definition rtc_us_round (ticks : Z) : Z :=
  u32 (Z.shiftr (u32 (Z.shiftl ticks 7 - Z.shiftl ticks 2 - Z.shiftl ticks 1 + 2)) 2
       + Z.shiftr (u32 (Z.shiftl ticks 3 + ticks + 128)) 9).

(** Microseconds in RTC ticks. *)
Definition us_rtc (next : Z) : Z :=
  let temp1 := Z.shiftr next 9 in
  let temp2 := Z.shiftr next 11 in
  u32 (Z.shiftr next 5 + temp1 - temp2 + Z.shiftr temp2 3 - Z.shiftr temp2 6 - Z.shiftr temp2 8).

Definition config_RTC11 (rd : readings) (time : Z) (o : soc_t) : soc_t :=
  let st := rtc_sleep rd in
  let time :=
    if 0x01000000 <=? u32 (st + time + 8) then u32 (time - Z.land (u32 (st + time + 9)) 0x00ffffff) else time in
  set_comparator0 (u32 (st + time)) (set_sleep_tick st o).

(** [while (total > step) { total -= step; time += d; }] *)
Fixpoint adjust_loop (fuel : nat) (d total step time : Z) : option Z :=
  match fuel with
  | O => None
  | S n => if step <? total then adjust_loop n d (total - step) step (u32 (time + d)) else Some time
  end.

(** Enough rounds for every [step] but 0, on which the loop does not end. *)
Definition adjust (d total step time : Z) : option Z :=
  adjust_loop (S (Z.to_nat (total / step))) d total step time.

(** The tracking counter's 16 MHz cycles per 8 RTC ticks; it may have counted
    9 or 10 ticks. *)
Definition tracking_temp (reg : Z) : Z :=
  let temp := Z.land reg 0x3fff in
  let error_delt := Z.abs (temp - STD_CRY32_8_CYCLE_16MHZ_CYCLE) in
  if error_delt <? ERR_THD_RC32_CYCLE then temp
  else if error_delt <? Z.shiftr STD_CRY32_8_CYCLE_16MHZ_CYCLE 3 + ERR_THD_RC32_CYCLE then
    let t := Z.shiftl temp 3 in
    Z.shiftr (Z.shiftl t 9 - Z.shiftl t 6 + Z.shiftl t 3 - t + 2048) 12
  else
    let t := Z.shiftl temp 3 in
    Z.shiftr (Z.shiftl t 9 - Z.shiftl t 6 - Z.shiftl t 5 - Z.shiftl t 3 + Z.shiftl t 1 + 2048) 12.

(** The period of the RC oscillator from the tracking counter, filtered. *)
Definition tracking_read (reg : Z) (o : soc_t) : soc_t :=
  let temp := tracking_temp reg in
  let c := if CRY32_8_CYCLE_16MHZ_CYCLE_MAX <? temp then counter_tracking o else temp in
  let avg := g_counter_traking_avg o in
  let c' :=
    if g_counter_traking_cnt o <? 1000 then
      if (CRY32_8_CYCLE_16MHZ_CYCLE_MAX <? c) || (c <? CRY32_8_CYCLE_16MHZ_CYCLE_MIN) then avg else c
    else
      if (u32 (avg + Z.shiftr avg 8) <? c) || (c <? u32 (avg - Z.shiftr avg 8)) then avg else c in
  let cnt := if g_counter_traking_cnt o <? 1000 then g_counter_traking_cnt o + 1 else g_counter_traking_cnt o in
  set_g_counter_traking_avg (Z.shiftr (u32 (7 * avg + c')) 3)
    (set_g_counter_traking_cnt cnt (set_counter_tracking c' o)).

(** [None] when the loop does not end. *)
Definition enterSleepProcess11 (cf : config) (rd : readings) (time : Z) (o : soc_t) : option soc_t :=
  let finish time o := set_sleep_flag_var true (config_RTC11 rd time o) in
  if RC32_TRACKINK_ALLOW cf then
    let o := tracking_read (tracking_reg rd) o in
    let c := counter_tracking o in
    let step := Z.shiftr c 3 in
    let bias delta := Z.shiftr (u32 (time * delta)) 3 in
    if STD_CRY32_8_CYCLE_16MHZ_CYCLE <? c then
      time' ← adjust (-1) (bias (c - STD_CRY32_8_CYCLE_16MHZ_CYCLE)) step time; Some (finish time' o)
    else
      time' ← adjust 1 (bias (STD_CRY32_8_CYCLE_16MHZ_CYCLE - c)) step time; Some (finish time' o)
  else Some (finish time o).

(** [pm_ctx_t] (lpm.h); its mutex is a kernel object. *)
Record pm_ctx_t := mkPm {
  policy : Z;
  agree_halt : Z;
  alarm_ms : Z;
  ls_ms : Z;
  ds_ms : Z;
  suspend_tick : Z;                (* uint32_t *)
  lpm_handle_set : bool;
}.

Definition pm_eta (x : pm_ctx_t) : pm_ctx_t :=
  mkPm (policy x) (agree_halt x) (alarm_ms x) (ls_ms x) (ds_ms x) (suspend_tick x) (lpm_handle_set x).
Definition set_suspend_tick : Z -> pm_ctx_t -> pm_ctx_t := ltac:(field_setter pm_eta suspend_tick).

Section Board.
Variable HZ : Z.
Variable cf : config.

(** The time until the next event, in microseconds: the RTC's end, the
    OSAL timers, the link layer's timer and the kernel's next deadline. *)
Definition next_event (rd : readings) (p : pm_ctx_t) (rtc_left ll_left : Z) : Z :=
  let next := u32 (osal_next_timeout rd * 1000) in
  let next := if next =? 0 then rtc_left else if rtc_left <? next then rtc_left else next in
  let next := if ll_left <? next then ll_left else next in
  let kernel_us := u32 (aos_kernel_tick2ms HZ (suspend_tick p) * 1000) in
  if kernel_us <? next then kernel_us else next.

Definition sys_soc_suspend (rd : readings) (p : pm_ctx_t) (o : soc_t) : option (power_state * soc_t) :=
  if negb (isSleepAllowInPM o) then Some (SYS_POWER_STATE_RUN, o)
  else if llWaitingIrq rd then Some (SYS_POWER_STATE_RUN, o)
  else
    let cnt1 := rtc_cnt1 rd in
    let delt := if g_wakeup_rtc_tick o <=? cnt1 then cnt1 - g_wakeup_rtc_tick o
                else u32 (0x00ffffff - g_wakeup_rtc_tick o + cnt1) in
    if RC32_TRACKINK_ALLOW cf && (delt <? ALLOW_TO_SLEEP_TICK_RC32K cf) then Some (SYS_POWER_STATE_RUN, o)
    else
      let left := u32 (0x00ffffff - rtc_now rd) in
      let o := if RC32_TRACKINK_ALLOW cf then
                 let c := counter_tracking o in
                 if (CRY32_8_CYCLE_16MHZ_CYCLE_MAX <? c) || (c <? CRY32_8_CYCLE_16MHZ_CYCLE_MIN)
                 then set_counter_tracking (g_counter_traking_avg o) o else o
               else o in
      let rtc_left := if RC32_TRACKINK_ALLOW cf then rtc_us_tracking (counter_tracking o) left else rtc_us left in
      let o := set_ll_remain_time (LL_remainder_time rd) o in
      if Z.testbit (tim1_status rd) 0 then Some (SYS_POWER_STATE_RUN, o)
      else
        let o := if ll_idle rd then set_ll_remain_time (MAX_SLEEP_TIME cf) o else o in
        let next := next_event rd p rtc_left (ll_remain_time o) in
        if match sleepMode o with MCU_SLEEP_MODE => true | SYSTEM_SLEEP_MODE => false end
           || llWaitingIrq' rd || (next <? u32 (MIN_SLEEP_TIME cf + WAKEUP_ADVANCE cf))
        then Some (SYS_POWER_STATE_RUN, o)
        else
          let next := u32 (next - WAKEUP_ADVANCE cf) in
          let next := if MAX_SLEEP_TIME cf <? next then MAX_SLEEP_TIME cf else next in
          o' ← enterSleepProcess11 cf rd (us_rtc next) o;
          Some (SYS_POWER_STATE_STOP, o').

(** Ticks of the RTC between going to sleep and waking up. *)
Definition dlt_tick (current_RTC_tick tick : Z) : Z :=
  if tick <? current_RTC_tick then current_RTC_tick - tick else u32 (current_RTC_tick + 0x00ffffff - tick).

(** The time slept and the software delay before and after, the latter in
    quarters of a microsecond with the rest carried over. *)
Definition sleep_total (w : wakeup) (o : soc_t) : Z :=
  let d := dlt_tick (rtc_wake w) (sleep_tick o) in
  if RC32_TRACKINK_ALLOW cf then rtc_us_tracking (counter_tracking o) d else rtc_us_round d.

Definition sw_quarters (w : wakeup) : Z :=
  u32 (OSAL_SYS_TICK_WAKEUP_TRIM cf + TIM2_IRQ_to_Sleep_DeltTick w + 2500 - TIM2_IRQ_PendingTick w).

Definition tick_trim (w : wakeup) (o : soc_t) : soc_t :=
  let trim := Z.shiftr (sw_quarters w) 2 in
  let m := u32 (g_osalTickTrim_mod o + Z.land (sw_quarters w) 3) in
  if 4 <? m then set_g_osal_tick_trim (u32 (trim + 1)) (set_g_osalTickTrim_mod (m mod 4) o)
  else set_g_osal_tick_trim trim (set_g_osalTickTrim_mod m o).

(** The clock of the OSAL, in steps of 625 microseconds with the rest kept. *)
Definition osal_advance (us : Z) (o : soc_t) : soc_t :=
  let m := u32 (rtc_mod_value o + us mod 625) in
  let tick := u32 (osal_sys_tick o + us / 625) in
  if 625 <? m then set_rtc_mod_value (m mod 625) (set_osal_sys_tick (u32 (tick + 1)) o)
  else set_rtc_mod_value m (set_osal_sys_tick tick o).

(** The ticks to account for, the time for the link layer's timer, and the
    state.  Without the sleep flag the processor is reset: [None]. *)
Definition sys_soc_resume (w : wakeup) (pm_state : power_state) (o : soc_t) : option (Z * option Z * soc_t) :=
  match pm_state with
  | SYS_POWER_STATE_RUN => Some (0, None, o)
  | SYS_POWER_STATE_STOP =>
      if negb (sleep_flag o) then None
      else
        let total := sleep_total w o in
        let o := tick_trim w (set_g_wakeup_rtc_tick (rtc_wake' w) o) in
        let us := u32 (total + g_osal_tick_trim o) in
        let o := osal_advance us o in
        let spent := u32 (total + sw_delay w) in
        let next_time := if spent <? ll_remain_time o then u32 (u32 (ll_remain_time o - total) - sw_delay w) else 1000 in
        Some (i32 (aos_kernel_ms2tick HZ (us / 1000)), Some next_time, set_sleep_flag_var false o)
  end.

(** ** Entering and leaving (lpm.c) *)

Definition LPM_POLICY_NO_POWER_SAVE : Z := 0.

Definition lpm_handle (rd : readings) (w : wakeup) (p : pm_ctx_t) (o : soc_t) : M (pm_ctx_t * soc_t) :=
  if policy p =? LPM_POLICY_NO_POWER_SAVE then ret (p, o)
  else
    psr <- critical_enter ;;
    n <- aos_kernel_suspend ;;
    let p := set_suspend_tick (u32 n) p in
    r <- lift (sys_soc_suspend rd p o) ;;
    let '(pm_state, o) := r in
    r <- lift (sys_soc_resume w pm_state o) ;;
    let '(ticks, _, o) := r in
    when (negb (ticks =? 0)) (aos_kernel_resume ticks) ;;
    critical_exit psr ;;
    ret (p, o).

Definition lpm_idle_hook (rd : readings) (w : wakeup) (p : pm_ctx_t) (o : soc_t) : M (pm_ctx_t * soc_t) :=
  if lpm_handle_set p then lpm_handle rd w p o else ret (p, o).
End Board.

(** [sys_soc_init] reads no stored setting (the calls are commented out) and
    takes the defaults. *)
Definition MIN_TIME_TO_SLEEP : Z := 50.
Definition MIN_TIME_TO_SUSPEND : Z := 10000.

Definition sys_soc_init (p : pm_ctx_t) (o : soc_t) : pm_ctx_t * soc_t :=
  (mkPm 2 (agree_halt p) (alarm_ms p) MIN_TIME_TO_SLEEP MIN_TIME_TO_SUSPEND (suspend_tick p) (lpm_handle_set p),
   set_bSleepDisable 0 o).

(** [pm_init]: the context is cleared before the board fills it in; the
    status of [aos_mutex_new] is not looked at. *)
Definition pm_init (mutex : oid) (lpm_init_flag : bool) (p : pm_ctx_t) (o : soc_t) : M (bool * pm_ctx_t * soc_t) :=
  if lpm_init_flag then ret (lpm_init_flag, p, o)
  else
    krhino_mutex_create (Some mutex) (Some "AOS"%string) ;;
    let '(p, o) := sys_soc_init (mkPm 0 0 0 0 0 0 false) o in
    ret (true, mkPm (policy p) (agree_halt p) (alarm_ms p) (ls_ms p) (ds_ms p) (suspend_tick p) true, o).

(** ** Skipped ticks

    While no task is due, a tick only counts. *)

Section Skip.
Implicit Types (s : kstate) (A : queues) (t u : tid) (x : ktask_t).

(** The clock moved on by [j] ticks, nothing else. *)
Definition clock_add (j : Z) s : kstate := with_gl (set_g_tick_count (u64 (g_tick_count (gl s) + j)) (gl s)) s.

(** No task is due within the next [j] ticks. *)
Definition quiet (j : Z) s A : Prop := forall u, u ∈ A LTick -> j < tick_rest (gl s) (tcbs s) u.

Lemma tick_rest_add j s u :
  0 <= j < tick_rest (gl s) (tcbs s) u ->
  tick_rest (gl (clock_add j s)) (tcbs s) u = tick_rest (gl s) (tcbs s) u - j.
Proof.
  unfold tick_rest, clock_add. simpl. intros Hr. set (z := default 0 _) in *.
  unfold wrap in *. rewrite Zminus_mod_idemp_r. replace (z - (g_tick_count (gl s) + j)) with ((z - g_tick_count (gl s)) - j) by lia.
  rewrite <- Zminus_mod_idemp_l. pose proof (Z.mod_pos_bound (z - g_tick_count (gl s)) (2 ^ 64) ltac:(lia)).
  apply Z.mod_small. lia.
Qed.

Lemma kgood_clock j s A : 0 <= j -> quiet j s A -> kgood s A -> kgood (clock_add j s) A.
Proof.
  intros Hj Hq [[] HG HT HM HO].
  assert (Hr : forall u, u ∈ A LTick -> tick_rest (gl (clock_add j s)) (tcbs s) u = tick_rest (gl s) (tcbs s) u - j).
  { intros u Hu. apply tick_rest_add. split; [done|by apply Hq]. }
  split; [|destruct HG; split; try done; simpl; apply wrap_range; lia| |by apply mutex_inv_gl|by apply obj_inv_gl].
  - split; try done. simpl. destruct ki_tick as [Hs Hl]. split.
    + eapply StronglySorted_impl; [|exact Hs]. intros u v Hu Hv. simpl. rewrite !Hr by done. lia.
    + apply Forall_forall. intros u Hu. rewrite Hr by done. pose proof (proj1 (Forall_forall _ _) Hl u Hu). simpl in *. lia.
  - intros u Hu. simpl. rewrite Hr by done. specialize (Hq u Hu). lia.
Qed.

Lemma clock_add_0 s A : kgood s A -> clock_add 0 s = s.
Proof.
  intros [_ [] _ _ _]. unfold clock_add, with_gl. rewrite Z.add_0_r, wrap_small by done. by destruct s as [? ? ? []].
Qed.

Lemma u64_add_add c j k : u64 (u64 (c + j) + k) = u64 (c + (j + k)).
Proof. unfold wrap. rewrite Zplus_mod_idemp_l. f_equal. lia. Qed.

(** [j + k] ticks at once are [k] ticks once the clock moved on by [j]. *)
Lemma tick_list_update_add j k s : tick_list_update (j + k) s = tick_list_update k (clock_add j s).
Proof.
  unfold tick_list_update, critical_enter, cpu_intrpt_save, bind, gets, mod_gl, ret, clock_add, with_gl. simpl.
  by rewrite u64_add_add.
Qed.

(** Nobody is due now: the loop stops at the first task. *)
Lemma wp_loop_idle s A n (Q : unit -> kstate -> Prop) :
  kgood s A -> Q tt s -> wp (tick_list_update_loop (S n) (hd NTickHead (NTick <$> A LTick))) Q s.
Proof.
  intros HG HQ. pose proof (kg_inv _ _ HG) as HI. destruct (A LTick) as [|t ts] eqn:HA; simpl; [by apply wp_ret|].
  apply wp_bind, (wp_get_next (nodes (blks (ob s)) A) LTick [NTickHead] (NTick t) (NTick <$> ts)).
  { apply HI. } { unfold nodes. by rewrite HA. }
  wsteps. assert (Ht : t ∈ A LTick) by (rewrite HA; set_solver).
  pose proof (kinv_dom s A LTick t HI Ht) as [x Hx]. apply (wp_task_get _ x); [done|]. wsteps.
  pose proof (ki_tick _ _ HI) as [_ Hlt]. pose proof (proj1 (Forall_forall _ _) Hlt t Ht) as Hlt'.
  pose proof (kg_tick _ _ HG t Ht). rewrite (due_test _ _ _ _ Hx Hlt'), (proj2 (Z.eqb_neq _ _)) by lia. by apply wp_ret.
Qed.

Lemma tick_list_update_0 s A : kgood s A -> tick_list_update 0 s = Some (tt, s).
Proof.
  intros HG. enough (wp (tick_list_update 0) (fun _ s' => s' = s) s) as ([] & s' & -> & ->)%wp_run by done.
  unfold tick_list_update. apply wp_bind, wp_critical_enter. apply wp_bind. wstep.
  pose proof (kgood_mask _ _ true HG) as HG1. set (s1 := with_gl (set_primask true (gl s)) s) in *.
  change (wp (iter <- get_next NTickHead ;; fuel <- list_fuel ;; tick_list_update_loop fuel iter ;; critical_exit (primask (gl s)))
    (fun _ s' => s' = s) (clock_add 0 s1)).
  rewrite (clock_add_0 s1 A) by done. pose proof (ki_rep _ _ (kg_inv _ _ HG1)) as [Hrg _].
  apply wp_bind, (wp_get_next (nodes (blks (ob s1)) A) LTick [] NTickHead (NTick <$> A LTick)); [done|done|].
  rewrite app_nil_r. unfold list_fuel. wsteps. apply (wp_loop_idle s1 A); [done|].
  apply wp_critical_restore; [apply HG1|]. by destruct s as [? ? ? []].
Qed.

(** Ticks at which nobody is due. *)
Lemma tick_list_update_quiet j s A :
  0 <= j -> kgood s A -> quiet j s A -> tick_list_update j s = Some (tt, clock_add j s).
Proof.
  intros Hj HG Hq. rewrite <- (Z.add_0_r j) at 1. rewrite tick_list_update_add.
  by apply (tick_list_update_0 _ A), kgood_clock.
Qed.

(** Up to the tick at which the first task is due, one update by [n] ticks
    is [n] updates by one tick. *)
Lemma run_ticks_skip n s A :
  kgood s A -> quiet (Z.of_nat n - 1) s A -> run_ticks n s = tick_list_update (Z.of_nat n) s.
Proof.
  revert s. induction n as [|n IH]; intros s HG Hq; [by rewrite (tick_list_update_0 _ A)|].
  destruct n as [|n].
  { change (Z.of_nat 1) with 1. cbn [run_ticks]. unfold bind. by destruct (tick_list_update 1 s) as [[[] ?]|]. }
  assert (H1 : quiet 1 s A) by (intros u Hu; specialize (Hq u Hu); lia).
  change (run_ticks (S (S n)) s) with (bind (tick_list_update 1) (fun _ => run_ticks (S n)) s). unfold bind.
  rewrite (tick_list_update_quiet 1 s A) by done.
  replace (Z.of_nat (S (S n))) with (1 + Z.of_nat (S n)) by lia. rewrite tick_list_update_add.
  apply IH; [by apply kgood_clock|]. intros u Hu. simpl tcbs.
  rewrite tick_rest_add by (specialize (H1 u Hu); lia). specialize (Hq u Hu). lia.
Qed.
End Skip.

(** ** What the kernel promises to the board *)

Section Suspend.
Implicit Types (s : kstate) (A : queues).

Lemma i32_bound z k : 0 <= z -> 0 <= k < 2 ^ 31 -> i32 z < 0 \/ k <= i32 z -> k <= z.
Proof.
  intros Hz Hk. unfold sign. pose proof (wrap_range 32 z ltac:(lia)) as Hw.
  assert (wrap 32 z <= z) by (unfold wrap; apply Z.mod_le; lia). destruct (Z.ltb_spec (wrap 32 z) (2 ^ (32 - 1))); simpl in *; lia.
Qed.

(** The answer of [aos_kernel_suspend] covers the time until the first task
    is due, also where the 64-bit count of ticks does not fit the answer. *)
Lemma suspend_quiet s A :
  kgood s A -> exists n, aos_kernel_suspend s = Some (n, s) /\ - 2 ^ 31 <= n < 2 ^ 31 /\
    forall k, 0 <= k < 2 ^ 31 -> n < 0 \/ k <= n -> quiet (k - 1) s A.
Proof.
  intros HG. pose proof (kg_inv _ _ HG) as HI. pose proof (ki_rep _ _ HI) as [Hrg _].
  set (P n := - 2 ^ 31 <= n < 2 ^ 31 /\ forall k, 0 <= k < 2 ^ 31 -> n < 0 \/ k <= n -> quiet (k - 1) s A).
  enough (wp aos_kernel_suspend (fun n s' => s' = s /\ P n) s) as (n & s' & Hr & -> & HP)%wp_run by by exists n.
  unfold aos_kernel_suspend. apply wp_bind.
  apply (wp_is_klist_empty (nodes (blks (ob s)) A) LTick NTickHead (NTick <$> A LTick)); [done|done|].
  destruct (A LTick) as [|t ts] eqn:HA; simpl.
  { apply wp_ret. split; [done|]. split; [lia|]. intros k _ _ u Hu. rewrite HA in Hu. set_solver. }
  apply wp_bind, (wp_get_next (nodes (blks (ob s)) A) LTick [] NTickHead (NTick <$> A LTick)); [done|done|].
  rewrite HA. cbn [fmap list_fmap app hd tick_task_of]. apply wp_bind, wp_ret.
  assert (Ht : t ∈ A LTick) by (rewrite HA; set_solver). pose proof (kinv_dom s A LTick t HI Ht) as [x Hx].
  apply wp_bind, (wp_task_get _ x); [done|]. wsteps. apply wp_ret. split; [done|]. set (m := if _ <? _ then _ else 0).
  assert (Hm : 0 <= m <= tick_rest (gl s) (tcbs s) t).
  { unfold m, tick_rest. rewrite Hx. simpl. pose proof (wrap_range 64 (tick_match x - g_tick_count (gl s)) ltac:(lia)).
    destruct (_ <? _); lia. }
  split. { unfold sign. pose proof (wrap_range 32 m ltac:(lia)). destruct (Z.ltb_spec (wrap 32 m) (2 ^ (32 - 1))); simpl in *; lia. }
  intros k Hk Hn u Hu. apply i32_bound in Hn; [|lia|done]. pose proof (ki_tick _ _ HI) as [Hso _]. rewrite HA in Hso, Hu.
  apply StronglySorted_inv in Hso as [_ Hge]. apply elem_of_cons in Hu as [->|Hu]; [lia|].
  pose proof (proj1 (Forall_forall _ _) Hge u Hu). simpl in *. lia.
Qed.

(** Rescheduling inside a critical section: the switch is taken at its end. *)
Lemma wp_masked_sched A t (Q : unit -> kstate -> Prop) s :
  kgood s A -> primask (gl s) = true -> top_ready A t -> Q tt (with_gl (resched t (gl s)) s) ->
  wp (core_sched ;; critical_exit false) Q s.
Proof.
  intros HK Hm Ht HQ. pose proof (kg_gl _ _ HK) as HG. pose proof (kg_inv _ _ HK) as HI.
  unfold core_sched. apply wp_bind, wp_bind. unfold cpu_intrpt_save. wsteps. rewrite Hm.
  assert (Eg : set_primask true (gl s) = gl s) by (destruct (gl s); simpl in *; by subst).
  assert (Es : mkK (lm s) (rq s) (tcbs s) (set_primask true (gl s)) (ob s) (umem s) = s) by (rewrite Eg; by destruct s).
  rewrite Es, Eg. clear Es.
  assert (Hex : no_sched (gl s) = true -> wp (cpu_intrpt_restore true) (fun _ s' => wp (critical_exit false) Q s') s).
  { intros Hn. apply wp_critical_restore; [done|]. rewrite Eg. apply wp_critical_exit; [done|]. unfold resched in HQ. by rewrite Hn in HQ. }
  destruct (no_sched (gl s)) eqn:En.
  - unfold no_sched in En. destruct (0 <? g_intrpt_nested_level (gl s)); [by apply Hex|]. simpl in En. rewrite En. by apply Hex.
  - destruct (no_sched_pend _ HG En) as (E1 & E2 & Ep). rewrite E1, E2. simpl.
    apply wp_bind, (wp_preferred_get A _ _ t); [done..|]. wsteps. unfold resched in HQ. rewrite En in HQ.
    unfold cpu_task_switch, critical_exit, cpu_intrpt_restore. case_bool_decide as Hb; wsteps;
      unfold pendsv_taken, with_gl in *; simpl in *; rewrite ?E1, ?Ep, ?andb_false_r; simpl; wsteps; rewrite ?E1, ?Ep; simpl; wsteps.
    + destruct s, gl; simpl in *. by subst.
    + rewrite E1. simpl. unfold PendSV_Handler. wsteps. by destruct s, gl.
Qed.

(** The ticks one by one, with a reschedule at the end. *)
Definition caught_up (k : Z) : M unit :=
  if k =? 0 then ret tt
  else psr <- critical_enter ;; run_ticks (Z.to_nat k) ;; critical_exit_sched psr.

(** Ticks counted at once, from the point where no task is due before the
    last of them. *)
Lemma tick_post_skip k s A :
  1 <= k -> kgood s A -> quiet (k - 1) s A ->
  exists s' A', tick_list_update k s = Some (tt, s') /\ kgood s' A' /\ tick_post (clock_add (k - 1) s) s' A A' /\
    gl s' = gl (clock_add k s).
Proof.
  intros Hk HG Hq. assert (HG1 : kgood (clock_add (k - 1) s) A) by (apply kgood_clock; [lia|done..]).
  destruct (wp_run _ _ _ (wp_tick_good _ A (fun _ s' => exists A', kgood s' A' /\ tick_post (clock_add (k - 1) s) s' A A')
    HG1 (fun s' A' H1 H2 => ex_intro _ A' (conj H1 H2)))) as ([] & s' & Hr & A' & HG' & Hpost).
  exists s', A'. split_and!; [|done..|].
  - replace k with (k - 1 + 1) by lia. by rewrite tick_list_update_add.
  - destruct Hpost as (_ & _ & -> & _). unfold ticked, clock_add. simpl. rewrite u64_add_add. by replace (k - 1 + 1) with k by lia.
Qed.

(** [aos_kernel_resume] inside the critical section of [lpm_handle]. *)
Lemma resume_caught_up k s A :
  kwf s A -> 1 <= k -> quiet (k - 1) s A ->
  exists s' A', caught_up k s = Some (tt, s') /\ kwf s' A' /\ A' LTick = filter (fun u => tick_rest (gl s) (tcbs s) u <> k) (A LTick) /\
    g_tick_count (gl s') = u64 (g_tick_count (gl s) + k) /\
    (aos_kernel_resume k ;; critical_exit false) (with_gl (set_primask true (gl s)) s) = Some (tt, s').
Proof.
  intros HW Hk Hq. pose proof (kwf_enter _ _ HW) as HG. set (s0 := with_gl (set_primask true (gl s)) s) in *.
  destruct (tick_post_skip k s0 A Hk HG Hq) as (s1 & A1 & Hr & HG1 & Hpost & Eg).
  destruct (kinv_top _ _ (kg_inv _ _ HG1)) as [t Ht].
  assert (Hsk : run_ticks (Z.to_nat k) s0 = Some (tt, s1)).
  { rewrite (run_ticks_skip _ s0 A); [|done|]; rewrite Z2Nat.id by lia; done. }
  exists (with_gl (resched t (gl s1)) s1), A1. split_and!.
  - unfold caught_up. rewrite (proj2 (Z.eqb_neq k 0)) by lia. unfold critical_enter, cpu_intrpt_save, bind at 1 2 3, gets, mod_gl, ret.
    change (mkK _ _ _ _ _ _) with s0. unfold bind. rewrite Hsk, (kw_mask _ _ HW).
    enough (wp (critical_exit_sched false) (fun _ s' => s' = with_gl (resched t (gl s1)) s1) s1) as ([] & ? & -> & ->)%wp_run by done.
    by apply (wp_critical_exit_sched A1 t).
  - apply kwf_resched; [done..|]. rewrite Eg. intros Hl.
    eapply (active_ready_tick (clock_add (k - 1) s0)); [by apply kgood_clock; [lia|..]|done|].
    destruct (kw_active _ _ HW (or_introl Hl)) as (a & x & Hx). by exists a, x.
  - destruct Hpost as (_ & -> & _). apply list_filter_iff'. intros u Hu. specialize (Hq u Hu).
    assert (E := tick_rest_add (k - 1) s0 u). specialize (E (conj (proj2 (Z.le_0_sub 1 k) Hk) Hq)). change (tcbs (clock_add (k - 1) s0)) with (tcbs s0).
    rewrite E. change (tick_rest (gl s0) (tcbs s0) u) with (tick_rest (gl s) (tcbs s) u). lia.
  - assert (Ec : g_tick_count (resched t (gl s1)) = g_tick_count (gl s1)) by (unfold resched; by destruct (no_sched _)).
    simpl. by rewrite Ec, Eg.
  - unfold aos_kernel_resume. unfold bind at 1 2. rewrite Hr.
    enough (wp (core_sched ;; critical_exit false) (fun _ s' => s' = with_gl (resched t (gl s1)) s1) s1) as ([] & ? & Hx & ->)%wp_run.
    { unfold bind in Hx. exact Hx. }
    apply (wp_masked_sched A1 t); [done| |done|done]. by rewrite Eg.
Qed.
End Suspend.

(** ** The board's arithmetic *)

(** A configuration of the board: some time for waking up, sleeps the 24-bit
    RTC can count; the RC oscillator may be tracked or not. *)
Record config_ok (cf : config) : Prop := mkConfigOk {
  co_advance : 125 <= WAKEUP_ADVANCE cf;
  co_min : 0 <= MIN_SLEEP_TIME cf /\ MIN_SLEEP_TIME cf + WAKEUP_ADVANCE cf < 2 ^ 32;
  co_max : 0 <= MAX_SLEEP_TIME cf <= 400000000;
}.

(** The length of an RTC tick the code reckons with, in 512ths of a
    microsecond: the measured period, or 32768 Hz. *)
Definition rtc_period (cf : config) (o : soc_t) : Z :=
  if RC32_TRACKINK_ALLOW cf then 4 * counter_tracking o else 15625.

(** The average of the measured periods is within 5 percent of 32768 Hz. *)
Definition tracked (cf : config) (o : soc_t) : Prop :=
  RC32_TRACKINK_ALLOW cf = true ->
  CRY32_8_CYCLE_16MHZ_CYCLE_MIN <= g_counter_traking_avg o <= CRY32_8_CYCLE_16MHZ_CYCLE_MAX.

(** So is the last one. *)
Definition near (o : soc_t) : Prop :=
  CRY32_8_CYCLE_16MHZ_CYCLE_MIN <= counter_tracking o <= CRY32_8_CYCLE_16MHZ_CYCLE_MAX.

Record readings_ok (rd : readings) : Prop := mkReadingsOk {
  ro_now : 0 <= rtc_now rd < 2 ^ 24;
  ro_sleep : 0 <= rtc_sleep rd < 2 ^ 24;
  ro_osal : 0 <= osal_next_timeout rd < 2 ^ 32;
  ro_ll : 0 <= LL_remainder_time rd < 2 ^ 32;
}.

(** Shifts by constants as products and quotients by constants. *)
Ltac shifts :=
  rewrite ?Z.shiftr_div_pow2, ?Z.shiftl_mul_pow2 by lia;
  repeat match goal with |- context [2 ^ Zpos ?k] => let v := eval vm_compute in (2 ^ Zpos k) in change (2 ^ Zpos k) with v end.

(** The series for 32768/10^6 is at most 3 ticks too large. *)
Lemma us_rtc_bound x : 0 <= x < 2 ^ 32 -> 0 <= us_rtc x /\ 524288 * us_rtc x <= 17179 * x + 3 * 524288.
Proof.
  intros Hx. unfold us_rtc. shifts. rewrite !Z.div_div by lia. simpl Z.mul.
  assert (H : 0 <= x / 32 + x / 512 - x / 2048 + x / 16384 - x / 131072 - x / 524288 < 2 ^ 32)
    by (Z.to_euclidean_division_equations; lia).
  rewrite wrap_small by exact H. split; [apply H|]. Z.to_euclidean_division_equations; lia.
Qed.

Lemma rtc_us_round_bound d : 0 <= d < 2 ^ 24 -> 0 <= rtc_us_round d /\ 15625 * d - 512 < 512 * rtc_us_round d < 15625 * d + 512.
Proof.
  intros Hd. unfold rtc_us_round. shifts. rewrite (wrap_small 32 (d * 128 - d * 4 - d * 2 + 2)) by lia.
  rewrite (wrap_small 32 (d * 8 + d + 128)) by lia. rewrite wrap_small; Z.to_euclidean_division_equations; lia.
Qed.

Lemma rtc_us_tracking_bound c d : 0 <= c <= 2 ^ 14 -> 0 <= d < 2 ^ 24 ->
  0 <= rtc_us_tracking c d /\ 4 * c * d - 512 < 512 * rtc_us_tracking c d <= 4 * c * d.
Proof.
  intros Hc Hd. unfold rtc_us_tracking. rewrite Z.shiftr_land. change (0xffff0000 ≫ 16) with (Z.ones 16). change 0xffff with (Z.ones 16).
  rewrite !Z.land_ones by lia. shifts. assert (0 <= d / 65536 < 256) by (Z.to_euclidean_division_equations; lia).
  rewrite (Z.mod_small (d / 65536)) by lia. pose proof (Z.div_mod d 65536 ltac:(lia)) as Ed. pose proof (Z.mod_pos_bound d 65536 ltac:(lia)).
  set (hi := d / 65536) in *. set (lo := d mod 65536) in *. rewrite (wrap_small 32 (hi * c)) by nia.
  rewrite (wrap_small 32 (lo * c)) by nia. rewrite (wrap_small 32 (hi * c * 512)) by nia.
  assert (128 * (lo * c / 128) <= lo * c < 128 * (lo * c / 128) + 128) by (Z.to_euclidean_division_equations; lia).
  assert (0 <= lo * c / 128 < 2 ^ 30) by nia. rewrite wrap_small by nia. nia.
Qed.

Lemma rtc_us_nonneg x : 0 <= rtc_us x.
Proof. apply wrap_range. lia. Qed.

Lemma wrap_le w z : 0 <= w -> 0 <= z -> wrap w z <= z.
Proof. intros. unfold wrap. apply Z.mod_le; [done|]. apply Z.pow_pos_nonneg; lia. Qed.

(** The comparator is never set beyond the requested time, nor beyond the
    end of the RTC's 24 bits. *)
Lemma config_RTC11_bound rd time o :
  readings_ok rd -> 0 <= time < 2 ^ 24 - 9 ->
  comparator0 (config_RTC11 rd time o) <= rtc_sleep rd + time /\ 0 <= comparator0 (config_RTC11 rd time o) <= 2 ^ 24 - 9.
Proof.
  intros [_ Hs _ _] Ht. unfold config_RTC11. simpl comparator0. set (st := rtc_sleep rd) in *.
  rewrite !(wrap_small 32 (st + time + _)) by lia. destruct (Z.leb_spec 0x01000000 (st + time + 8)).
  - change 0x00ffffff with (Z.ones 24). rewrite Z.land_ones by lia.
    replace ((st + time + 9) mod 2 ^ 24) with (st + time + 9 - 2 ^ 24)
      by (symmetry; rewrite <- (Z_mod_plus_full _ (-1)), Z.mod_small; lia).
    replace (u32 (st + u32 (time - (st + time + 9 - 2 ^ 24)))) with (2 ^ 24 - 9); [lia|].
    unfold wrap. rewrite Zplus_mod_idemp_r, Z.mod_small; lia.
  - rewrite wrap_small by lia. lia.
Qed.

Lemma period_range HZ : whole_ms HZ -> 0 < 1000 / HZ <= 1000.
Proof. intros [Hz _]. Z.to_euclidean_division_equations; nia. Qed.

(** ** The correction for the RC oscillator *)

Lemma adjust_loop_ends fuel d step : forall total time,
  0 < step -> 0 <= total < step * Z.of_nat fuel -> exists j time',
    adjust_loop fuel d total step time = Some time' /\ 0 <= j /\ step * j <= total <= step * (j + 1) /\ u32 time' = u32 (time + d * j) /\
    (0 <= time < 2 ^ 32 -> 0 <= time' < 2 ^ 32).
Proof.
  induction fuel as [|n IH]; intros total time Hs Ht; [lia|]. simpl. destruct (Z.ltb_spec step total) as [Hlt|Hge].
  - destruct (IH (total - step) (u32 (time + d)) Hs ltac:(lia)) as (j & time' & Hr & Hj & Hb & Hu & Ht').
    exists (j + 1), time'. split_and!; [done|lia..| |intros _; apply Ht', wrap_range; lia].
    rewrite Hu. unfold wrap. rewrite Zplus_mod_idemp_l. f_equal. lia.
  - exists 0, time. split_and!; [done|lia..| |done]. f_equal. lia.
Qed.

Lemma adjust_ends d total step time :
  0 < step -> 0 <= total -> exists j time',
    adjust d total step time = Some time' /\ 0 <= j /\ step * j <= total <= step * (j + 1) /\ u32 time' = u32 (time + d * j) /\
    (0 <= time < 2 ^ 32 -> 0 <= time' < 2 ^ 32).
Proof.
  intros Hs Ht. apply adjust_loop_ends; [done|]. pose proof (Z.div_pos total step Ht Hs).
  rewrite Nat2Z.inj_succ, Z2Nat.id by done. pose proof (Z.mul_succ_div_gt total step Hs). lia.
Qed.

(** Fewer ticks of a slow clock. *)
Lemma adjust_slow c time :
  STD_CRY32_8_CYCLE_16MHZ_CYCLE < c <= 4118 -> 0 <= time <= 13200000 -> exists time',
    adjust (-1) (Z.shiftr (u32 (time * (c - STD_CRY32_8_CYCLE_16MHZ_CYCLE))) 3) (Z.shiftr c 3) time = Some time' /\
    0 <= time' <= time /\ c * time' <= STD_CRY32_8_CYCLE_16MHZ_CYCLE * time + 7 + c.
Proof.
  unfold STD_CRY32_8_CYCLE_16MHZ_CYCLE. intros Hc Ht. assert (0 <= time * (c - 3906) < 2 ^ 32) as Hm by nia.
  rewrite (wrap_small 32 _ Hm). shifts. set (total := time * (c - 3906) / 8). set (step := c / 8).
  assert (8 * step <= c < 8 * step + 8) by (unfold step; Z.to_euclidean_division_equations; lia).
  assert (8 * total <= time * (c - 3906) < 8 * total + 8) by (unfold total; Z.to_euclidean_division_equations; lia).
  destruct (adjust_ends (-1) total step time) as (j & time' & -> & Hj & Hb & Hu & Hr); [lia|nia|].
  exists time'. assert (Hjt : 0 <= j <= time) by nia. specialize (Hr ltac:(lia)).
  rewrite (wrap_small 32 time' Hr), wrap_small in Hu by lia. split; [done|]. nia.
Qed.

(** More ticks of a fast one. *)
Lemma adjust_fast c time :
  3696 <= c <= STD_CRY32_8_CYCLE_16MHZ_CYCLE -> 0 <= time <= 13200000 -> exists time',
    adjust 1 (Z.shiftr (u32 (time * (STD_CRY32_8_CYCLE_16MHZ_CYCLE - c))) 3) (Z.shiftr c 3) time = Some time' /\
    0 <= time' < 14000000 /\ 3689 * (c * time') <= (STD_CRY32_8_CYCLE_16MHZ_CYCLE * 3689 + 7 * 210) * time.
Proof.
  unfold STD_CRY32_8_CYCLE_16MHZ_CYCLE. intros Hc Ht. assert (0 <= time * (3906 - c) < 2 ^ 32) as Hm by nia.
  rewrite (wrap_small 32 _ Hm). shifts. set (total := time * (3906 - c) / 8). set (step := c / 8).
  assert (8 * step <= c < 8 * step + 8) by (unfold step; Z.to_euclidean_division_equations; lia).
  assert (8 * total <= time * (3906 - c) < 8 * total + 8) by (unfold total; Z.to_euclidean_division_equations; lia).
  destruct (adjust_ends 1 total step time) as (j & time' & -> & Hj & Hb & Hu & Hr); [lia|nia|].
  assert (Hcj : (c - 7) * j <= time * (3906 - c)) by nia. assert (Hjt : 3689 * j <= 210 * time) by nia.
  exists time'. specialize (Hr ltac:(lia)). rewrite (wrap_small 32 time' Hr), wrap_small in Hu by lia.
  split; [done|]. split; [lia|]. subst time'. nia.
Qed.

Section Arith.
Variable HZ : Z.
Variable cf : config.
Implicit Types (rd : readings) (w : wakeup) (p : pm_ctx_t) (o : soc_t).

(** The kernel's deadline, in microseconds. *)
Definition kernel_us p : Z := suspend_tick p * (1000 / HZ) * 1000.

Lemma next_event_bound rd p a b :
  whole_ms HZ -> readings_ok rd -> 0 <= suspend_tick p < 2 ^ 32 -> 0 <= a < 2 ^ 32 -> 0 <= b ->
  let n := next_event HZ rd p a b in 0 <= n < 2 ^ 32 /\ n <= kernel_us p /\ n <= a /\ n <= b /\
    (u32 (osal_next_timeout rd * 1000) <> 0 -> n <= osal_next_timeout rd * 1000).
Proof.
  intros Hz Hrd Hp Ha Hb n. pose proof (ro_osal _ Hrd) as Ho. pose proof (period_range HZ Hz).
  assert (Hk : 0 <= u32 (aos_kernel_tick2ms HZ (suspend_tick p) * 1000) <= kernel_us p).
  { split; [apply wrap_range; lia|]. unfold aos_kernel_tick2ms, RHINO_OS_MS_PERIOD_TICK, kernel_us.
    rewrite (wrap_small 64) by nia. apply wrap_le; nia. }
  pose proof (wrap_range 32 (osal_next_timeout rd * 1000) ltac:(lia)) as Hw.
  pose proof (wrap_le 32 (osal_next_timeout rd * 1000) ltac:(lia) ltac:(lia)) as Hw'.
  subst n. unfold next_event. destruct (Z.eqb_spec (u32 (osal_next_timeout rd * 1000)) 0);
    repeat case_match; repeat match goal with H : (_ <? _) = true |- _ => apply Z.ltb_lt in H | H : (_ <? _) = false |- _ => apply Z.ltb_ge in H end;
    split_and!; intros; lia.
Qed.

(** Going to sleep, when it happens. *)
Lemma suspend_stop rd p o o1 :
  whole_ms HZ -> config_ok cf -> readings_ok rd -> 0 <= suspend_tick p < 2 ^ 32 -> tracked cf o ->
  sys_soc_suspend HZ cf rd p o = Some (SYS_POWER_STATE_STOP, o1) ->
  exists next o0, 0 <= next <= 400000000 /\ next + WAKEUP_ADVANCE cf <= kernel_us p /\
    next + WAKEUP_ADVANCE cf <= ll_remain_time o0 /\ (ll_idle rd = false -> ll_remain_time o0 = LL_remainder_time rd) /\
    (u32 (osal_next_timeout rd * 1000) <> 0 -> next + WAKEUP_ADVANCE cf <= osal_next_timeout rd * 1000) /\
    g_osalTickTrim_mod o0 = g_osalTickTrim_mod o /\ tracked cf o0 /\ (RC32_TRACKINK_ALLOW cf = true -> near o0) /\
    enterSleepProcess11 cf rd (us_rtc next) o0 = Some o1.
Proof.
  intros Hz [Hadv [Hmin Hsum] Hmax] Hrd Hp Htr. unfold sys_soc_suspend.
  destruct (isSleepAllowInPM o); cbn [negb]; [|done]. destruct (llWaitingIrq rd); [done|].
  destruct (RC32_TRACKINK_ALLOW cf && _); [done|]. destruct (Z.testbit (tim1_status rd) 0); [done|].
  set (oc := if RC32_TRACKINK_ALLOW cf then _ else o). set (o0 := if ll_idle rd then _ else _).
  set (rl := if RC32_TRACKINK_ALLOW cf then rtc_us_tracking _ _ else _).
  assert (Hl : 0 <= ll_remain_time o0) by (unfold o0; destruct (ll_idle rd); simpl; [lia|apply Hrd]).
  assert (Hrl : 0 <= rl < 2 ^ 32) by (unfold rl; case_match; apply wrap_range; lia).
  assert (Hnear : g_osalTickTrim_mod o0 = g_osalTickTrim_mod o /\ tracked cf o0 /\ (RC32_TRACKINK_ALLOW cf = true -> near o0)).
  { unfold o0, oc, near, tracked in *. destruct (RC32_TRACKINK_ALLOW cf); [|by destruct (ll_idle rd)]. specialize (Htr eq_refl).
    destruct (_ || _) eqn:E; [|apply orb_false_iff in E as [E1%Z.ltb_ge E2%Z.ltb_ge]];
      destruct (ll_idle rd); simpl; (split; [done|]); split; intros _; lia. }
  destruct (next_event_bound rd p rl (ll_remain_time o0) Hz Hrd Hp Hrl Hl) as (Hn & Hk & _ & Hll & Ho).
  match goal with |- context [if ?b then Some (SYS_POWER_STATE_RUN, _) else _] => destruct b eqn:E; [done|] end. apply orb_false_iff in E as [_ E]. apply Z.ltb_ge in E.
  rewrite (wrap_small 32 (MIN_SLEEP_TIME cf + _)) in E by lia. rewrite (wrap_small 32 (_ - WAKEUP_ADVANCE cf)) by lia.
  set (next := if _ <? _ then _ else _). destruct (enterSleepProcess11 _ _ _ _) as [o'|] eqn:Ee; [|done]. intros [= <-]. exists next, o0.
  assert (next <= MAX_SLEEP_TIME cf /\ next + WAKEUP_ADVANCE cf <= next_event HZ rd p rl (ll_remain_time o0) /\ 0 <= next).
  { unfold next. case_match eqn:E1; [apply Z.ltb_lt in E1|apply Z.ltb_ge in E1]; lia. }
  destruct Hnear as (H1 & H2 & H3). split; [lia|]. split; [lia|]. split; [lia|]. split; [unfold o0; by intros ->|].
  split; [intros Hne; specialize (Ho Hne); lia|done].
Qed.

(** The filtered period stays close to the average, and the average in its
    range as long as the counter measures no shorter period. *)
Lemma tracking_read_near reg o :
  tracked cf o -> RC32_TRACKINK_ALLOW cf = true -> near o ->
  3696 <= counter_tracking (tracking_read reg o) <= 4118 /\
  (CRY32_8_CYCLE_16MHZ_CYCLE_MIN <= tracking_temp reg -> tracked cf (tracking_read reg o)).
Proof.
  intros Ha Ht Hn. specialize (Ha Ht). unfold near, tracked, tracking_read, CRY32_8_CYCLE_16MHZ_CYCLE_MIN, CRY32_8_CYCLE_16MHZ_CYCLE_MAX in *.
  set (temp := tracking_temp reg). set (c := if _ <? temp then _ else temp). set (avg := g_counter_traking_avg o) in *.
  set (c' := if _ <? 1000 then _ else _).
  assert (Hc : c <= 4102 /\ (3710 <= temp -> 3710 <= c)) by (unfold c; destruct (Z.ltb_spec (3906 + 196) temp); lia).
  assert (Hc' : 3696 <= c' <= 4118 /\ (3710 <= c -> 3710 <= c' <= 4102)).
  { unfold c'. clear c'. shifts. assert (3696 <= avg - avg / 256 <= 4102 /\ avg + avg / 256 <= 4118) by (Z.to_euclidean_division_equations; lia).
    rewrite !(wrap_small 32) by lia.
    destruct (_ <? 1000); destruct (_ || _) eqn:E; [lia| |lia|]; apply orb_false_iff in E as [E1%Z.ltb_ge E2%Z.ltb_ge]; lia. }
  simpl. split; [apply Hc'|]. intros Htemp _. shifts. rewrite wrap_small by lia. Z.to_euclidean_division_equations; lia.
Qed.

(** The comparator that is set for [next] microseconds. *)
Lemma enter_in_time rd next o0 o1 :
  readings_ok rd -> 0 <= next <= 400000000 -> tracked cf o0 -> (RC32_TRACKINK_ALLOW cf = true -> near o0) ->
  enterSleepProcess11 cf rd (us_rtc next) o0 = Some o1 ->
  sleep_tick o1 = rtc_sleep rd /\ g_osalTickTrim_mod o1 = g_osalTickTrim_mod o0 /\ ll_remain_time o1 = ll_remain_time o0 /\
  0 < rtc_period cf o1 <= 16472 /\ (CRY32_8_CYCLE_16MHZ_CYCLE_MIN <= tracking_temp (tracking_reg rd) -> tracked cf o1) /\
  rtc_period cf o1 * (comparator0 o1 - sleep_tick o1) <= 512 * (next + 125) /\ 0 <= comparator0 o1 <= 2 ^ 24 - 9.
Proof.
  intros Hrd Hn Htr Hne. pose proof (us_rtc_bound next ltac:(lia)) as [Hu Hb]. set (time := us_rtc next) in *.
  assert (Hfin : forall t' o2, o1 = set_sleep_flag_var true (config_RTC11 rd t' o2) -> 0 <= t' < 2 ^ 24 - 9 ->
    0 < rtc_period cf o2 <= 16472 -> rtc_period cf o2 * t' <= 512 * (next + 125) ->
    sleep_tick o1 = rtc_sleep rd /\ 0 < rtc_period cf o1 <= 16472 /\
    rtc_period cf o1 * (comparator0 o1 - sleep_tick o1) <= 512 * (next + 125) /\ 0 <= comparator0 o1 <= 2 ^ 24 - 9).
  { intros t' o2 -> Ht' Hp Hle. set (o3 := set_sleep_flag_var _ _). destruct (config_RTC11_bound rd t' o2 Hrd Ht') as [Hcmp Hend].
    change (rtc_period cf o3) with (rtc_period cf o2). change (sleep_tick o3) with (rtc_sleep rd).
    change (comparator0 o3) with (comparator0 (config_RTC11 rd t' o2)). split; [done|]. split; [lia|]. split; [nia|exact Hend]. }
  unfold enterSleepProcess11. destruct (RC32_TRACKINK_ALLOW cf) eqn:Ht.
  - destruct (tracking_read_near (tracking_reg rd) o0 Htr Ht (Hne eq_refl)) as [Hc Hk].
    set (o2 := tracking_read _ o0) in *. assert (Ep : rtc_period cf o2 = 4 * counter_tracking o2) by (unfold rtc_period; by rewrite Ht).
    set (c := counter_tracking o2) in *.
    destruct (Z.ltb_spec STD_CRY32_8_CYCLE_16MHZ_CYCLE c) as [Hlt|Hge].
    + destruct (adjust_slow c time) as (t' & -> & Hr & Hle); [lia..|]. intros [= Eo].
      destruct (Hfin t' o2 (eq_sym Eo)) as (H1 & H2 & H3 & H4); [|rewrite Ep..|]; unfold STD_CRY32_8_CYCLE_16MHZ_CYCLE in *; [lia..|].
      rewrite <- Eo in H1, H2, H3, H4 |- *. exact (conj H1 (conj eq_refl (conj eq_refl (conj H2 (conj Hk (conj H3 H4)))))).
    + destruct (adjust_fast c time) as (t' & -> & Hr & Hle); [lia..|]. intros [= Eo].
      destruct (Hfin t' o2 (eq_sym Eo)) as (H1 & H2 & H3 & H4); [|rewrite Ep..|]; unfold STD_CRY32_8_CYCLE_16MHZ_CYCLE in *; [lia..|].
      rewrite <- Eo in H1, H2, H3, H4 |- *. exact (conj H1 (conj eq_refl (conj eq_refl (conj H2 (conj Hk (conj H3 H4)))))).
  - intros [= Eo]. assert (Ep : rtc_period cf o0 = 15625) by (unfold rtc_period; by rewrite Ht).
    destruct (Hfin time o0 (eq_sym Eo)) as (H1 & H2 & H3 & H4); [lia|rewrite Ep; lia..|].
    assert (tracked cf o1) by (unfold tracked; by rewrite Ht). rewrite <- Eo in H, H1, H2, H3, H4 |- *.
    exact (conj H1 (conj eq_refl (conj eq_refl (conj H2 (conj (fun _ => H) (conj H3 H4)))))).
Qed.
End Arith.

Section Wake.
Variable HZ : Z.
Variable cf : config.
Implicit Types (rd : readings) (w : wakeup) (p : pm_ctx_t) (o : soc_t).

Lemma tick_trim_sum w o :
  0 <= g_osalTickTrim_mod o <= 4 ->
  0 <= g_osalTickTrim_mod (tick_trim cf w o) <= 4 /\ 0 <= g_osal_tick_trim (tick_trim cf w o) /\
  4 * g_osal_tick_trim (tick_trim cf w o) + g_osalTickTrim_mod (tick_trim cf w o) = sw_quarters cf w + g_osalTickTrim_mod o.
Proof.
  intros Hm. unfold tick_trim. pose proof (wrap_range 32 (OSAL_SYS_TICK_WAKEUP_TRIM cf + TIM2_IRQ_to_Sleep_DeltTick w + 2500
    - TIM2_IRQ_PendingTick w) ltac:(lia)) as Hq. fold (sw_quarters cf w) in Hq. set (q := sw_quarters cf w) in *.
  change 3 with (Z.ones 2). rewrite Z.land_ones by lia. shifts. change (2 ^ 2) with 4 in *.
  rewrite (wrap_small 32 (_ + q mod 4)) by (Z.to_euclidean_division_equations; lia).
  destruct (Z.ltb_spec 4 (g_osalTickTrim_mod o + q mod 4)); simpl;
    rewrite ?(wrap_small 32 (q / 4 + 1)) by (Z.to_euclidean_division_equations; lia);
    Z.to_euclidean_division_equations; lia.
Qed.

Lemma osal_advance_sum us o :
  0 <= us -> 0 <= rtc_mod_value o <= 625 -> 0 <= osal_sys_tick o -> osal_sys_tick o + us / 625 + 1 < 2 ^ 32 ->
  0 <= rtc_mod_value (osal_advance us o) <= 625 /\
  625 * osal_sys_tick (osal_advance us o) + rtc_mod_value (osal_advance us o) = 625 * osal_sys_tick o + rtc_mod_value o + us.
Proof.
  intros Hu Hm Ht Hs. pose proof (Z.div_pos us 625 Hu ltac:(lia)). pose proof (Z.mod_pos_bound us 625 ltac:(lia)).
  pose proof (Z.div_mod us 625 ltac:(lia)). unfold osal_advance.
  rewrite (wrap_small 32 (rtc_mod_value o + _)), (wrap_small 32 (osal_sys_tick o + us / 625)) by lia.
  destruct (Z.ltb_spec 625 (rtc_mod_value o + us mod 625)); simpl; [|lia].
  rewrite wrap_small by lia. replace ((rtc_mod_value o + us mod 625) mod 625) with (rtc_mod_value o + us mod 625 - 625); [lia|].
  apply (Z.mod_unique _ _ 1); [left|]; lia.
Qed.

(** RTC ticks from going to sleep to waking up; the counter has 24 bits. *)
Definition elapsed w o : Z := (rtc_wake w - sleep_tick o) mod 2 ^ 24.

(** The code counts one tick less across the overflow of the counter. *)
Lemma dlt_tick_elapsed w o :
  0 <= rtc_wake w < 2 ^ 24 -> 0 <= sleep_tick o < 2 ^ 24 -> rtc_wake w <> sleep_tick o ->
  dlt_tick (rtc_wake w) (sleep_tick o) = elapsed w o - (if rtc_wake w <? sleep_tick o then 1 else 0) /\
  0 <= dlt_tick (rtc_wake w) (sleep_tick o) < 2 ^ 24.
Proof.
  intros Hw Hs Hne. unfold dlt_tick, elapsed. destruct (Z.ltb_spec (sleep_tick o) (rtc_wake w)) as [Hlt|Hge].
  - rewrite (proj2 (Z.ltb_ge (rtc_wake w) _)), Z.mod_small by lia. lia.
  - rewrite (proj2 (Z.ltb_lt (rtc_wake w) _)), wrap_small by lia.
    rewrite <- (Z_mod_plus_full _ 1), Z.mod_small by lia. lia.
Qed.

(** The period the counter measured has 14 bits. *)
Definition period_ok o : Prop := RC32_TRACKINK_ALLOW cf = true -> 0 <= counter_tracking o <= 2 ^ 14.

Lemma sleep_total_bound w o :
  let d := dlt_tick (rtc_wake w) (sleep_tick o) in period_ok o -> 0 <= d < 2 ^ 24 ->
  0 <= sleep_total cf w o <= 2 ^ 31 /\ rtc_period cf o * d - 512 < 512 * sleep_total cf w o < rtc_period cf o * d + 512.
Proof.
  intros d Hp Hd. unfold sleep_total, rtc_period. fold d. unfold period_ok in Hp. destruct (RC32_TRACKINK_ALLOW cf).
  - pose proof (rtc_us_tracking_bound (counter_tracking o) d (Hp eq_refl) Hd) as [H1 H2]. specialize (Hp eq_refl).
    assert (0 <= counter_tracking o * d <= 2 ^ 14 * 2 ^ 24) by nia. lia.
  - pose proof (rtc_us_round_bound d Hd) as [H1 H2]. lia.
Qed.

(** The time that [sys_soc_resume] accounts for. *)
Definition slept_us w o : Z := u32 (sleep_total cf w o + g_osal_tick_trim (tick_trim cf w (set_g_wakeup_rtc_tick (rtc_wake' w) o))).

Lemma slept_us_eq w o :
  0 <= sleep_total cf w o <= 2 ^ 31 -> 0 <= g_osalTickTrim_mod o <= 4 ->
  let trim := g_osal_tick_trim (tick_trim cf w (set_g_wakeup_rtc_tick (rtc_wake' w) o)) in
  slept_us w o = sleep_total cf w o + trim /\ 0 <= trim <= sw_quarters cf w / 4 + 1.
Proof.
  intros Ht Hm trim.
  pose proof (tick_trim_sum w (set_g_wakeup_rtc_tick (rtc_wake' w) o) Hm) as (Hm' & Htr & Es). fold trim in Htr, Es. simpl in Hm', Es.
  assert (Hq : 0 <= sw_quarters cf w < 2 ^ 32) by (apply wrap_range; lia).
  assert (trim <= sw_quarters cf w / 4 + 1) by (Z.to_euclidean_division_equations; lia).
  split; [|lia]. unfold slept_us. fold trim. apply wrap_small. split; [lia|]. Z.to_euclidean_division_equations; lia.
Qed.

Lemma ms2tick_div m : whole_ms HZ -> 0 <= m -> aos_kernel_ms2tick HZ m = m / (1000 / HZ).
Proof.
  intros Hz Hm. pose proof (period_range HZ Hz). unfold aos_kernel_ms2tick, RHINO_OS_MS_PERIOD_TICK. destruct (Z.ltb_spec m (1000 / HZ)); [|done]. by rewrite Z.div_small.
Qed.

(** The ticks [sys_soc_resume] returns. *)
Lemma resume_ticks w o k lt o' :
  whole_ms HZ -> sys_soc_resume HZ cf w SYS_POWER_STATE_STOP o = Some (k, lt, o') ->
  k = slept_us w o / 1000 / (1000 / HZ) /\ 0 <= k < 2 ^ 31 /\
  o' = set_sleep_flag_var false (osal_advance (slept_us w o) (tick_trim cf w (set_g_wakeup_rtc_tick (rtc_wake' w) o))).
Proof.
  intros Hz. unfold sys_soc_resume. destruct (sleep_flag o); [|done]. cbn [negb]. fold (slept_us w o).
  assert (Hu : 0 <= slept_us w o < 2 ^ 32) by (apply wrap_range; lia).
  pose proof (period_range HZ Hz) as Hp.
  rewrite ms2tick_div by (done || (apply Z.div_pos; lia)). intros [= <- <- <-].
  assert (0 <= slept_us w o / 1000 / (1000 / HZ) < 2 ^ 31).
  { split; [apply Z.div_pos; [apply Z.div_pos|]; lia|]. apply Z.div_lt_upper_bound; [lia|].
    assert (slept_us w o / 1000 < 2 ^ 31) by (Z.to_euclidean_division_equations; lia). nia. }
  rewrite sign_small, wrap_small by (rewrite ?wrap_small; simpl; lia). done.
Qed.

(** The processor is up again early enough: what the wake-up took after the
    comparator matched, and the software delay, fit in [WAKEUP_ADVANCE], of
    which 127 microseconds are for rounding.  At least one RTC tick passes
    (the code waits for it). *)
Definition prompt w o : Prop :=
  0 <= rtc_wake w < 2 ^ 24 /\ rtc_wake w <> sleep_tick o /\
  rtc_period cf o * (sleep_tick o + elapsed w o - comparator0 o) + 128 * sw_quarters cf w + 512 * 127 <= 512 * WAKEUP_ADVANCE cf.

(** A sleep of the board ends before the kernel's next deadline. *)
Lemma board_in_time rd w p o st o1 k lt o2 :
  whole_ms HZ -> config_ok cf -> readings_ok rd -> 0 <= suspend_tick p < 2 ^ 32 -> 0 <= g_osalTickTrim_mod o <= 4 -> tracked cf o ->
  sys_soc_suspend HZ cf rd p o = Some (st, o1) -> sys_soc_resume HZ cf w st o1 = Some (k, lt, o2) ->
  (st = SYS_POWER_STATE_STOP -> prompt w o1) -> 0 <= k < 2 ^ 31 /\ k <= suspend_tick p.
Proof.
  intros Hz Hc Hrd Hp Hm Htr Hs Hr Hpr. destruct st.
  { simpl in Hr. injection Hr as <- _ _. lia. }
  destruct (Hpr eq_refl) as (Hw & Hne & Hpr'). clear Hpr.
  destruct (suspend_stop HZ cf rd p o o1 Hz Hc Hrd Hp Htr Hs) as (next & o0 & Hn & Hk & _ & _ & _ & Em & Htr0 & Hn0 & He).
  destruct (enter_in_time cf rd next o0 o1 Hrd Hn Htr0 Hn0 He) as (E1 & E2 & _ & Hper & _ & Hcmp & _). rewrite <- Em, <- E2 in Hm.
  destruct (resume_ticks w o1 k lt o2 Hz Hr) as (-> & Hkr & _). split; [done|].
  destruct (dlt_tick_elapsed w o1 Hw ltac:(rewrite E1; apply Hrd) Hne) as [Ed Hd].
  assert (Hpo : period_ok o1) by (unfold period_ok, rtc_period in *; intros Ht; rewrite Ht in Hper; lia).
  destruct (sleep_total_bound w o1 Hpo Hd) as [Ht Hb].
  destruct (slept_us_eq w o1 Ht Hm) as [-> H3]. set (trim := g_osal_tick_trim _) in *.
  assert (Hle : rtc_period cf o1 * dlt_tick (rtc_wake w) (sleep_tick o1) <= rtc_period cf o1 * elapsed w o1) by (rewrite Ed; case_match; nia).
  assert (Hsum : 512 * (sleep_total cf w o1 + trim) <= 512 * (next + WAKEUP_ADVANCE cf)).
  { assert (Hq : 4 * (sw_quarters cf w / 4) <= sw_quarters cf w) by (apply Z.mul_div_le; lia). lia. }
  pose proof (period_range HZ Hz). apply Z.div_le_upper_bound; [lia|]. apply Z.div_le_upper_bound; [lia|]. unfold kernel_us in Hk. lia.
Qed.
End Wake.

(** ** Tracking the RC oscillator

    The measured period stays far from the values for which the correction
    loop would not end. *)

Section Tracking.
Variable HZ : Z.
Variable cf : config.
Implicit Types (rd : readings) (p : pm_ctx_t) (o : soc_t).

Definition track_ok o : Prop :=
  255 <= g_counter_traking_avg o <= 5000 /\ 0 <= counter_tracking o <= 5000.

Lemma tracking_read_ok reg o : track_ok o -> track_ok (tracking_read reg o) /\ 240 <= counter_tracking (tracking_read reg o).
Proof.
  intros [Ha Hc]. unfold tracking_read. set (temp := tracking_temp reg).
  set (c := if CRY32_8_CYCLE_16MHZ_CYCLE_MAX <? temp then _ else temp).
  assert (c <= 5000) as Hc5.
  { unfold c. destruct (Z.ltb_spec CRY32_8_CYCLE_16MHZ_CYCLE_MAX temp) as [|H]; [lia|].
    unfold CRY32_8_CYCLE_16MHZ_CYCLE_MAX in H. lia. }
  clearbody c. clear temp. set (avg := g_counter_traking_avg o) in *. set (c' := if _ <? 1000 then _ else _).
  assert (Hc' : avg - avg / 256 <= c' <= 5000 \/ CRY32_8_CYCLE_16MHZ_CYCLE_MIN <= c' <= 5000).
  { unfold c'. clear c'. shifts. rewrite !(wrap_small 32) by (Z.to_euclidean_division_equations; lia).
    destruct (_ <? 1000); destruct (_ || _) eqn:E; [left; Z.to_euclidean_division_equations; lia|right|left; Z.to_euclidean_division_equations; lia|left];
      apply orb_false_iff in E as [_ E]; apply Z.ltb_ge in E; lia. }
  unfold CRY32_8_CYCLE_16MHZ_CYCLE_MIN in Hc'. clearbody c'. unfold track_ok. simpl. shifts.
  rewrite wrap_small by (Z.to_euclidean_division_equations; lia).
  split; [split|]; Z.to_euclidean_division_equations; lia.
Qed.

Lemma enterSleepProcess11_ends rd time o :
  (RC32_TRACKINK_ALLOW cf = true -> track_ok o) -> is_Some (enterSleepProcess11 cf rd time o).
Proof.
  intros Ho. unfold enterSleepProcess11. destruct (RC32_TRACKINK_ALLOW cf); [|done].
  destruct (tracking_read_ok (tracking_reg rd) o (Ho eq_refl)) as [_ Hc].
  set (c := counter_tracking _) in *. assert (Hst : 0 < Z.shiftr c 3) by (shifts; Z.to_euclidean_division_equations; lia).
  assert (Hb : forall d, 0 <= Z.shiftr (u32 (time * d)) 3).
  { intros d. apply Z.shiftr_nonneg, wrap_range. lia. }
  destruct (_ <? c).
  - destruct (adjust_ends (-1) _ _ time Hst (Hb (c - STD_CRY32_8_CYCLE_16MHZ_CYCLE))) as (j & t' & -> & _). done.
  - destruct (adjust_ends 1 _ _ time Hst (Hb (STD_CRY32_8_CYCLE_16MHZ_CYCLE - c))) as (j & t' & -> & _). done.
Qed.

(** Going to sleep never hangs. *)
Lemma suspend_ends rd p o :
  (RC32_TRACKINK_ALLOW cf = true -> 255 <= g_counter_traking_avg o <= 5000) -> is_Some (sys_soc_suspend HZ cf rd p o).
Proof.
  intros Ho. unfold sys_soc_suspend. destruct (negb _); [done|]. destruct (llWaitingIrq rd); [done|].
  destruct (_ && _); [done|]. destruct (Z.testbit _ 0); [done|].
  match goal with |- context [if ?b then Some (SYS_POWER_STATE_RUN, _) else _] => destruct b; [done|] end.
  set (t := us_rtc _). set (o0 := if ll_idle rd then _ else _).
  destruct (enterSleepProcess11_ends rd t o0) as [o' ->]; [|done].
  intros Ht. specialize (Ho Ht). unfold o0, track_ok, CRY32_8_CYCLE_16MHZ_CYCLE_MIN, CRY32_8_CYCLE_16MHZ_CYCLE_MAX. clear t o0. rewrite Ht.
  destruct (_ || _) eqn:E; [|apply orb_false_iff in E as [E1%Z.ltb_ge E2%Z.ltb_ge]]; destruct (ll_idle rd); simpl; lia.
Qed.

(** The flag that [sys_soc_resume] tests is set by every sleep. *)
Lemma enterSleepProcess11_flag rd time o o1 : enterSleepProcess11 cf rd time o = Some o1 -> sleep_flag o1 = true.
Proof.
  unfold enterSleepProcess11. destruct (RC32_TRACKINK_ALLOW cf); [|by intros [= <-]].
  destruct (_ <? _); destruct (adjust _ _ _ _); simpl; try done; by intros [= <-].
Qed.

Lemma suspend_flag rd p o o1 :
  sys_soc_suspend HZ cf rd p o = Some (SYS_POWER_STATE_STOP, o1) -> sleep_flag o1 = true.
Proof.
  unfold sys_soc_suspend. destruct (negb _); [done|]. destruct (llWaitingIrq rd); [done|].
  destruct (_ && _); [done|]. destruct (Z.testbit _ 0); [done|]. destruct (_ || _); [done|].
  destruct (enterSleepProcess11 _ _ _ _) as [o'|] eqn:E; [|done]. intros [= <-]. by apply enterSleepProcess11_flag in E.
Qed.
End Tracking.
