(* ===== verification/WorkQueue.v ===== *)
(** * Work queues (k_workqueue.c)

    Work queues with their worker tasks, the list of all queues, works, and the
    timers of delayed works.  Every action is a piece of code that runs between two points where
    other tasks can intervene: a critical section, a call of the semaphore, the
    end of a handler.  A schedule is a list of actions; an action that is not
    possible in a state, or that names a work or queue that does not exist,
    does nothing.

    The semaphore of a queue is its count, or nothing after it was deleted; a
    worker that waits for it goes on when the count is positive.  A timer is armed or not: the timer service
    runs the callback of an armed timer once. *)

From stdpp Require Import functions.
From S2P Require Import Prelude.
From S2P Require Import Monad.
From S2P Require Import Links.
From S2P Require Import KState.

(** ** Configuration (k_default_config.h) *)

Definition RHINO_CONFIG_WORKQUEUE_STACK_SIZE : Z := 512.
Definition RHINO_CONFIG_WORKQUEUE_TASK_PRIO : Z := 9.

(** ** Data (k_workqueue.h) *)

(** The [klist_t] of a queue ([work_list], [workqueue_node]) and of a work
    ([work_node]), and [g_workqueue_list_head]. *)
Inductive wnode := WList (q : nat) | WNode (w : nat) | WqNode (q : nat) | WHead.

#[export] Instance wnode_eq_dec : EqDecision wnode.
Proof. solve_decision. Defined.

#[export] Instance wnode_countable : Countable wnode.
Proof.
  refine (inj_countable' (fun n => match n with WList q => inl (inl q) | WNode w => inl (inr w) | WqNode q => inr (Some q) | WHead => inr None end)
    (fun c => match c with inl (inl q) => WList q | inl (inr w) => WNode w | inr (Some q) => WqNode q | inr None => WHead end) _).
  by intros [].
Defined.

(** [wk_timer]: whether the work has a timer. *)
Record kwork_t := mkWork { wk_handle : Z; wk_arg : Z; wk_dly : Z; wk_timer : bool; wk_wq : option nat; wk_exit : Z }.
Record kworkqueue_t := mkWq { work_current : option nat; wq_sem : option Z }.

(** Where a worker is: not created yet, while [krhino_workqueue_create] is under
    way; before or in [krhino_sem_take], after it, in the handler; or there is no
    worker task. *)
Inductive wphase := PNew | PWait | PTaken | PRun | PGone.

#[export] Instance wphase_eq_dec : EqDecision wphase.
Proof. solve_decision. Defined.

(** Where the call is that takes a queue away: [krhino_workqueue_del] after
    [krhino_task_del] and after [krhino_sem_del], or [krhino_workqueue_create],
    whose worker could not be created, before [krhino_sem_del]. *)
Inductive dphase := DTask | DSem | DFail.

(** [ws_gives]: calls of [krhino_sem_give] still to come, one per work put into
    a list.  [ws_dels]: queues that are taken away.  [ws_tests]: calls of
    [krhino_workqueue_del] that have not deleted a worker yet, with the queue, and
    whether the test that it is idle was made; there may be several for a
    queue.  [ws_accepted] and [ws_ran] record
    the works put into the lists and those whose handler was started, with their
    queues; [ws_reg] records the queues put into the list of all queues and not
    taken out again. *)
Record wsys := mkWsys {
  ws_links : links wnode;
  ws_works : gmap nat kwork_t;
  ws_queues : gmap nat kworkqueue_t;
  ws_phase : nat -> wphase;
  ws_gives : list nat;
  ws_armed : gmap nat nat;
  ws_accepted : list (nat * nat);
  ws_ran : list (nat * nat);
  ws_dels : gmap nat dphase;
  ws_reg : list nat;
  ws_tests : list (nat * bool);
}.

#[export] Instance wsys_links : HasLinks wsys wnode.
Proof.
  refine (mkHasLinks wsys wnode _ _ ws_links (fun l s => mkWsys l (ws_works s) (ws_queues s) (ws_phase s) (ws_gives s) (ws_armed s) (ws_accepted s) (ws_ran s) (ws_dels s) (ws_reg s) (ws_tests s)) _ _);
    done.
Defined.

Abbreviation W := (st wsys).

Definition wsys_eta (s : wsys) : wsys :=
  mkWsys (ws_links s) (ws_works s) (ws_queues s) (ws_phase s) (ws_gives s) (ws_armed s) (ws_accepted s) (ws_ran s) (ws_dels s) (ws_reg s) (ws_tests s).
Definition set_works : gmap nat kwork_t -> wsys -> wsys := ltac:(field_setter wsys_eta ws_works).
Definition set_queues : gmap nat kworkqueue_t -> wsys -> wsys := ltac:(field_setter wsys_eta ws_queues).
Definition set_phase : (nat -> wphase) -> wsys -> wsys := ltac:(field_setter wsys_eta ws_phase).
Definition set_gives : list nat -> wsys -> wsys := ltac:(field_setter wsys_eta ws_gives).
Definition set_armed : gmap nat nat -> wsys -> wsys := ltac:(field_setter wsys_eta ws_armed).
Definition set_accepted : list (nat * nat) -> wsys -> wsys := ltac:(field_setter wsys_eta ws_accepted).
Definition set_ran : list (nat * nat) -> wsys -> wsys := ltac:(field_setter wsys_eta ws_ran).
Definition set_dels : gmap nat dphase -> wsys -> wsys := ltac:(field_setter wsys_eta ws_dels).
Definition set_reg : list nat -> wsys -> wsys := ltac:(field_setter wsys_eta ws_reg).
Definition set_tests : list (nat * bool) -> wsys -> wsys := ltac:(field_setter wsys_eta ws_tests).

Definition get_work (w : nat) : W kwork_t := m <- gets ws_works ;; lift (m !! w).
Definition put_work (w : nat) (x : kwork_t) : W unit := get_work w ;; modify (fun s => set_works (<[w := x]> (ws_works s)) s).
Definition get_wq (q : nat) : W kworkqueue_t := m <- gets ws_queues ;; lift (m !! q).
Definition put_wq (q : nat) (v : kworkqueue_t) : W unit := get_wq q ;; modify (fun s => set_queues (<[q := v]> (ws_queues s)) s).
Definition goto (q : nat) (p : wphase) : W unit := modify (fun s => set_phase (<[q := p]> (ws_phase s)) s).

(** [krhino_list_entry(node, kwork_t, work_node)]: the address of a list head
    is not inside a work. *)
Definition work_of (n : wnode) : W nat := match n with WNode w => ret w | _ => fault end.

Definition remove_one {A} `{EqDecision A} (q : A) : list A -> list A :=
  fix go l := match l with [] => [] | x :: r => if bool_decide (x = q) then r else x :: go r end.

(** ** Queues *)

Definition workqueue_is_exist (q : nat) : W kstat_t :=
  n <- (fuel <- list_fuel ;; n <- get_next WHead ;; klist_scan fuel (fun n => ret (bool_decide (n = WqNode q))) n WHead) ;;
  if bool_decide (n = WHead) then ret RHINO_WORKQUEUE_NOT_EXIST else ret RHINO_WORKQUEUE_EXIST.

(** The critical sections of the list of all queues. *)
Definition wq_link (q : nat) : W unit := klist_insert WHead (WqNode q) ;; modify (fun s => set_reg (ws_reg s ++ [q]) s).
Definition wq_unlink (q : nat) : W unit := klist_rm_init (WqNode q) ;; modify (fun s => set_reg (remove_one q (ws_reg s)) s).

(** [krhino_workqueue_create] up to the critical section that links the queue.
    While the call is under way no other task creates a queue in the same memory,
    so the answer of [workqueue_is_exist] stays true. *)
Definition workqueue_create_link (q : nat) (pri stack_size : Z) : W kstat_t :=
  if RHINO_CONFIG_PRI_MAX <=? pri then ret RHINO_BEYOND_MAX_PRI
  else if stack_size =? 0 then ret RHINO_TASK_INV_STACK_SIZE
  else
    e <- workqueue_is_exist q ;;
    if bool_decide (e = RHINO_WORKQUEUE_EXIST) then ret RHINO_WORKQUEUE_EXIST
    else
      klist_init (WqNode q) ;;
      klist_init (WList q) ;;
      modify (fun s => set_queues (<[q := mkWq None (Some 0)]> (ws_queues s)) s) ;;
      wq_link q ;;
      goto q PNew ;;
      ret RHINO_SUCCESS.

(** [krhino_task_create], which returns [tret]; when it fails it changes nothing,
    and the queue is unlinked. *)
Definition workqueue_create_task (q : nat) (tret : kstat_t) : W kstat_t :=
  if bool_decide (tret = RHINO_SUCCESS) then goto q PWait ;; ret RHINO_SUCCESS
  else
    goto q PGone ;;
    wq_unlink q ;;
    modify (fun s => set_dels (<[q := DFail]> (ws_dels s)) s) ;;
    ret tret.

(** [krhino_sem_del] of a queue without worker. *)
Definition workqueue_create_end (q : nat) : W kstat_t :=
  v <- get_wq q ;; put_wq q (mkWq (work_current v) None) ;;
  modify (fun s => set_dels (delete q (ws_dels s)) s) ;;
  ret RHINO_SUCCESS.

(** Without interruption.  [krhino_sem_create] succeeds. *)
Definition krhino_workqueue_create (q : nat) (pri stack_size : Z) (tret : kstat_t) : W kstat_t :=
  r <- workqueue_create_link q pri stack_size ;;
  if bool_decide (r = RHINO_SUCCESS) then
    r <- workqueue_create_task q tret ;;
    if bool_decide (r = RHINO_SUCCESS) then ret RHINO_SUCCESS else workqueue_create_end q ;; ret r
  else ret r.

(** [krhino_workqueue_del]: the critical section of [workqueue_is_exist]; the one
    that tests whether the queue is idle; the call of [krhino_task_del], which
    returns [tret], or fails because there is no worker; the call of
    [krhino_sem_del]; the last critical section. *)
Definition workqueue_del_exist (q : nat) : W kstat_t :=
  e <- workqueue_is_exist q ;;
  if bool_decide (e = RHINO_WORKQUEUE_NOT_EXIST) then ret RHINO_WORKQUEUE_NOT_EXIST
  else modify (fun s => set_tests ((q, false) :: ws_tests s) s) ;; ret RHINO_SUCCESS.

Definition workqueue_del_idle (q : nat) : W kstat_t :=
  modify (fun s => set_tests (remove_one (q, false) (ws_tests s)) s) ;;
  b <- is_klist_empty (WList q) ;;
  if negb b then ret RHINO_WORKQUEUE_BUSY
  else
    v <- get_wq q ;;
    if negb (bool_decide (work_current v = None)) then ret RHINO_WORKQUEUE_BUSY
    else modify (fun s => set_tests ((q, true) :: ws_tests s) s) ;; ret RHINO_SUCCESS.

Definition worker_exists (p : wphase) : bool := match p with PWait | PTaken | PRun => true | PNew | PGone => false end.

Definition workqueue_del_task (q : nat) (tret : kstat_t) : W kstat_t :=
  modify (fun s => set_tests (remove_one (q, true) (ws_tests s)) s) ;;
  if negb (bool_decide (tret = RHINO_SUCCESS)) then ret tret
  else
    ph <- gets ws_phase ;;
    if worker_exists (ph q) then
      goto q PGone ;; modify (fun s => set_dels (<[q := DTask]> (ws_dels s)) s) ;; ret RHINO_SUCCESS
    else ret RHINO_INV_TASK_STATE.

Definition workqueue_del_sem (q : nat) : W kstat_t :=
  v <- get_wq q ;;
  match wq_sem v with
  | Some _ => put_wq q (mkWq (work_current v) None) ;; modify (fun s => set_dels (<[q := DSem]> (ws_dels s)) s) ;; ret RHINO_SUCCESS
  | None => modify (fun s => set_dels (delete q (ws_dels s)) s) ;; ret RHINO_KOBJ_TYPE_ERR
  end.

Definition workqueue_del_unlink (q : nat) : W kstat_t :=
  modify (fun s => set_dels (delete q (ws_dels s)) s) ;; wq_unlink q ;; ret RHINO_SUCCESS.

(** Without interruption. *)
Definition krhino_workqueue_del (q : nat) (tret : kstat_t) : W kstat_t :=
  r <- workqueue_del_exist q ;;
  if negb (bool_decide (r = RHINO_SUCCESS)) then ret r
  else
    r <- workqueue_del_idle q ;;
    if negb (bool_decide (r = RHINO_SUCCESS)) then ret r
    else
      r <- workqueue_del_task q tret ;;
      if negb (bool_decide (r = RHINO_SUCCESS)) then ret r
      else
        r <- workqueue_del_sem q ;;
        if negb (bool_decide (r = RHINO_SUCCESS)) then ret r else workqueue_del_unlink q.

(** [g_workqueue_default] is queue 0. *)
Definition workqueue_init (tret : kstat_t) : W unit :=
  klist_init WHead ;;
  krhino_workqueue_create 0 RHINO_CONFIG_WORKQUEUE_TASK_PRIO RHINO_CONFIG_WORKQUEUE_STACK_SIZE tret ;; ret tt.

(** ** Works *)

(** [memset] and the fields; [created]: whether there is memory for the
    timer. *)
Definition krhino_work_init (w : nat) (handle arg dly : Z) (created : bool) : W kstat_t :=
  klist_init (WNode w) ;;
  modify (fun s => set_works (<[w := mkWork handle arg dly false None 0]> (ws_works s)) s) ;;
  if 0 <? dly then
    if created then put_work w (mkWork handle arg dly true None 0) ;; ret RHINO_SUCCESS
    else ret RHINO_NO_MEM
  else ret RHINO_SUCCESS.

(** The critical section of [krhino_work_run] and [work_timer_cb]; the
    semaphore is given afterwards. *)
Definition work_insert (q w : nat) : W kstat_t :=
  v <- get_wq q ;; x <- get_work w ;;
  if bool_decide (work_current v = Some w) then ret RHINO_WORKQUEUE_WORK_RUNNING
  else if wk_exit x =? 1 then ret RHINO_WORKQUEUE_WORK_EXIST
  else
    klist_rm_init (WNode w) ;;
    klist_insert (WList q) (WNode w) ;;
    put_work w (mkWork (wk_handle x) (wk_arg x) (wk_dly x) (wk_timer x) (Some q) 1) ;;
    modify (fun s => set_gives (ws_gives s ++ [q]) s) ;;
    modify (fun s => set_accepted (ws_accepted s ++ [(q, w)]) s) ;;
    ret RHINO_SUCCESS.

(** [sent]: whether the command to the timer task was accepted. *)
Definition krhino_work_run (q w : nat) (sent : bool) : W kstat_t :=
  x <- get_work w ;;
  if wk_dly x =? 0 then work_insert q w
  else if wk_timer x then
    if sent then modify (fun s => set_armed (<[w := q]> (ws_armed s)) s) ;; ret RHINO_SUCCESS
    else ret RHINO_BUF_QUEUE_FULL
  else fault.

Definition krhino_work_sched (w : nat) (sent : bool) : W kstat_t := krhino_work_run 0 w sent.

Definition work_timer_cb (w q : nat) : W unit := work_insert q w ;; ret tt.

(** [sent]: whether the timer task gets the command of [krhino_timer_stop],
    whose result the code does not look at. *)
Definition krhino_work_cancel (w : nat) (sent : bool) : W kstat_t :=
  x <- get_work w ;;
  match wk_wq x with
  | None =>
      when (0 <? wk_dly x) (if wk_timer x then when sent (modify (fun s => set_armed (delete w (ws_armed s)) s)) else fault) ;;
      ret RHINO_SUCCESS
  | Some q =>
      v <- get_wq q ;;
      if bool_decide (work_current v = Some w) then ret RHINO_WORKQUEUE_WORK_RUNNING
      else if wk_exit x =? 1 then ret RHINO_WORKQUEUE_WORK_EXIST
      else
        klist_rm_init (WNode w) ;;
        put_work w (mkWork (wk_handle x) (wk_arg x) (wk_dly x) (wk_timer x) None (wk_exit x)) ;;
        ret RHINO_SUCCESS
  end.

(** [worker_task]: the first critical section, and the second. *)
Definition worker_pick (q : nat) : W unit :=
  n <- get_next (WList q) ;; w <- work_of n ;;
  klist_rm_init (WNode w) ;;
  v <- get_wq q ;; put_wq q (mkWq (Some w) (wq_sem v)) ;;
  x <- get_work w ;; put_work w (mkWork (wk_handle x) (wk_arg x) (wk_dly x) (wk_timer x) (wk_wq x) 0) ;;
  modify (fun s => set_ran (ws_ran s ++ [(q, w)]) s).

Definition worker_clean (q : nat) : W unit := v <- get_wq q ;; put_wq q (mkWq None (wq_sem v)).

(** ** Actions *)

Inductive wact :=
  | WInit (w : nat) (handle arg dly : Z) (created : bool)
  | WRun (q w : nat) (sent : bool)
  | WCancel (w : nat) (sent : bool)
  | WFire (w : nat)    (* the timer of a delayed work is due *)
  | WGive (q : nat)    (* [krhino_sem_give] after a work was put into the list *)
  | WTake (q : nat)    (* [krhino_sem_take] of the worker returns *)
  | WPick (q : nat)
  | WDone (q : nat)    (* the handler returns *)
  | WCreate (q : nat) (pri stack_size : Z)
  | WCreateTask (q : nat) (tret : kstat_t)
  | WCreateEnd (q : nat)
  | WDel (q : nat)
  | WDelIdle (q : nat)
  | WDelTask (q : nat) (tret : kstat_t)
  | WDelSem (q : nat)
  | WDelEnd (q : nat).

(** The memory of a queue may be given to [krhino_workqueue_create]: it was not
    used yet, or belongs to a queue in the list of all queues (the call fails),
    or nothing refers to its list and semaphore any more and no call is about to
    delete the semaphore. *)
Definition may_create (q : nat) (s : wsys) : bool :=
  match ws_queues s !! q with
  | None => true
  | Some _ => bool_decide (q ∈ ws_reg s) || (bool_decide (k_next (ws_links s) !! WList q = Some (WList q)) && bool_decide (q ∉ ws_gives s) && bool_decide (ws_dels s !! q = None))
  end.

Definition on_work (w : nat) (f : W kstat_t) : W kstat_t :=
  s <- gets id ;; match ws_works s !! w with Some _ => f | None => ret RHINO_NULL_PTR end.
Definition on_queue (q : nat) (f : kworkqueue_t -> W kstat_t) : W kstat_t :=
  s <- gets id ;; match ws_queues s !! q with Some v => f v | None => ret RHINO_NULL_PTR end.

Definition wexec (act : wact) : W kstat_t :=
  s <- gets id ;;
  match act with
  | WInit w handle arg dly created =>
      match ws_works s !! w with None => krhino_work_init w handle arg dly created | Some _ => ret RHINO_NULL_PTR end
  | WRun q w sent =>
      on_queue q (fun _ => on_work w (
        x <- get_work w ;; if (wk_dly x =? 0) || wk_timer x then krhino_work_run q w sent else ret RHINO_NULL_PTR))
  | WCancel w sent => on_work w (
      x <- get_work w ;; if (wk_dly x =? 0) || wk_timer x then krhino_work_cancel w sent else ret RHINO_NULL_PTR)
  | WFire w =>
      match ws_armed s !! w with
      | Some q => modify (fun s => set_armed (delete w (ws_armed s)) s) ;; work_timer_cb w q ;; ret RHINO_SUCCESS
      | None => ret RHINO_NULL_PTR
      end
  | WGive q =>
      if bool_decide (q ∈ ws_gives s) then
        on_queue q (fun v =>
          modify (fun s => set_gives (remove_one q (ws_gives s)) s) ;;
          match wq_sem v with
          | Some n => put_wq q (mkWq (work_current v) (Some (n + 1))) ;; ret RHINO_SUCCESS
          | None => ret RHINO_KOBJ_TYPE_ERR
          end)
      else ret RHINO_NULL_PTR
  | WTake q =>
      on_queue q (fun v => match ws_phase s q, wq_sem v with
        | PWait, Some n => if 0 <? n then put_wq q (mkWq (work_current v) (Some (n - 1))) ;; goto q PTaken ;; ret RHINO_SUCCESS else ret RHINO_NULL_PTR
        | _, _ => ret RHINO_NULL_PTR end)
  | WPick q =>
      on_queue q (fun _ => match ws_phase s q with PTaken => worker_pick q ;; goto q PRun ;; ret RHINO_SUCCESS | _ => ret RHINO_NULL_PTR end)
  | WDone q =>
      on_queue q (fun _ => match ws_phase s q with PRun => worker_clean q ;; goto q PWait ;; ret RHINO_SUCCESS | _ => ret RHINO_NULL_PTR end)
  | WCreate q pri stack_size => if may_create q s then workqueue_create_link q pri stack_size else ret RHINO_NULL_PTR
  | WCreateTask q tret => match ws_phase s q with PNew => workqueue_create_task q tret | _ => ret RHINO_NULL_PTR end
  | WCreateEnd q => match ws_dels s !! q with Some DFail => workqueue_create_end q | _ => ret RHINO_NULL_PTR end
  | WDel q => workqueue_del_exist q
  | WDelIdle q => if bool_decide ((q, false) ∈ ws_tests s) then workqueue_del_idle q else ret RHINO_NULL_PTR
  | WDelTask q tret => if bool_decide ((q, true) ∈ ws_tests s) then workqueue_del_task q tret else ret RHINO_NULL_PTR
  | WDelSem q => match ws_dels s !! q with Some DTask => workqueue_del_sem q | _ => ret RHINO_NULL_PTR end
  | WDelEnd q => match ws_dels s !! q with Some DSem => workqueue_del_unlink q | _ => ret RHINO_NULL_PTR end
  end.

Fixpoint wrun (acts : list wact) : W (list kstat_t) :=
  match acts with
  | [] => ret []
  | act :: acts => r <- wexec act ;; rs <- wrun acts ;; ret (r :: rs)
  end.

(** Memory before [workqueue_init]: no lists, no works, no queues. *)
Definition wq_boot : wsys := mkWsys (mkL ∅ ∅) ∅ ∅ (fun _ => PGone) [] ∅ [] [] ∅ [] [].
