(* ===== verification/WqInv.v ===== *)
(** * The state of the work queues

    [winv s P]: the list of queue [q] holds the works [P q]; these are the
    works that are marked as queued, and for each of them the semaphore was or
    will be given once, as long as the queue has a worker.  The list of all
    queues holds the queues that were created and not deleted, and every worker
    belongs to one of them. *)

From stdpp Require Import functions.
From S2P Require Import Prelude.
From S2P Require Import Monad.
From S2P Require Import Links.
From S2P Require Import KState.
From S2P Require Import WorkQueue.

(** ** Lists *)

Section Links.
Context {S N I : Type} `{HL : HasLinks S N} `{EI : EqDecision I}.
Implicit Types (G : I -> list N) (i : I) (e : N) (s : S).

Lemma rings_drop l G i : rings l G -> rings l (<[i := []]> G).
Proof. intros HG. apply (rings_update l l); [done | done | constructor | by intros n j ?%elem_of_nil | done]. Qed.

Lemma unlinked_rm l G i a e b : rings l G -> G i = a ++ e :: b -> unlinked (<[i := a ++ b]> G) e.
Proof.
  intros HG Hi j. pose proof (rings_nodup _ _ HG i) as Hnd. rewrite Hi in Hnd. apply NoDup_app in Hnd as (_ & Hd & Hnd). apply NoDup_cons in Hnd as [Hb _].
  destruct (decide (i = j)) as [<-|Hij].
  - rewrite fn_lookup_insert, elem_of_app. intros [Ha|?]; [|done]. apply (Hd e Ha), elem_of_cons. by left.
  - rewrite fn_lookup_insert_ne by done. intros Hj. apply Hij. eapply (rings_disj _ _ HG); [|done]. rewrite Hi, elem_of_app, elem_of_cons. auto.
Qed.

(** [klist_rm_init] leaves the node in a ring of its own. *)
Lemma wp_klist_rm_init G i a e b j (Q : unit -> S -> Prop) s :
  rings (links_of s) G -> G i = a ++ e :: b -> <[i := a ++ b]> G j = [] ->
  (forall l', rings l' (<[j := [e]]> (<[i := a ++ b]> G)) -> Q tt (with_links l' s)) ->
  wp (klist_rm_init e) Q s.
Proof.
  intros HG Hi Hj HQ. unfold klist_rm_init. apply wp_bind, (wp_klist_rm G i a e b); [done | done|]. intros l' HG'.
  pose proof (unlinked_rm _ _ _ _ _ _ HG Hi) as Hu. red. simpl. rewrite !links_of_with, !with_links_with. simpl. apply HQ. by apply (rings_init l').
Qed.
End Links.

(** ** Invariant *)

Inductive widx := IQ (q : nat) | IW (w : nat) | IN (q : nat) | IH.

#[export] Instance widx_eq_dec : EqDecision widx.
Proof. solve_decision. Defined.

Definition queued (x : kwork_t) : bool := wk_exit x =? 1.

(** The lists in memory: those of the queues, the works in none, the list of all
    queues, and the queues that are not in it. *)
Definition wrings (s : wsys) (P : nat -> list nat) (i : widx) : list wnode :=
  match i with
  | IQ q => match ws_queues s !! q with Some _ => (WNode <$> P q) ++ [WList q] | None => [] end
  | IW w => match ws_works s !! w with Some x => if queued x then [] else [WNode w] | None => [] end
  | IN q => match ws_queues s !! q with Some _ => if decide (q ∈ ws_reg s) then [] else [WqNode q] | None => [] end
  | IH => (WqNode <$> ws_reg s) ++ [WHead]
  end.

Definition count_of (q : nat) (l : list nat) : nat := length (filter (fun x => x = q) l).
Definition taken (s : wsys) (q : nat) : nat := match ws_phase s q with PTaken => 1 | _ => 0 end.
Definition of_queue (q : nat) (l : list (nat * nat)) : list nat := (filter (fun x => x.1 = q) l).*2.

Record winv (s : wsys) (P : nat -> list nat) : Prop := mkWinv {
  wi_rings : rings (ws_links s) (wrings s P);
  wi_pend : forall q w, w ∈ P q <-> exists x, ws_works s !! w = Some x /\ wk_exit x = 1 /\ wk_wq x = Some q;
  wi_dom : forall w x q, ws_works s !! w = Some x -> wk_wq x = Some q -> is_Some (ws_queues s !! q);
  wi_sem : forall q v, ws_queues s !! q = Some v -> ws_phase s q <> PGone ->
    exists n, wq_sem v = Some n /\ 0 <= n /\ n + Z.of_nat (count_of q (ws_gives s)) + Z.of_nat (taken s q) = Z.of_nat (length (P q));
  wi_gives : forall q, q ∈ ws_gives s -> is_Some (ws_queues s !! q);
  wi_reg : forall q, q ∈ ws_reg s -> is_Some (ws_queues s !! q);
  wi_alive : forall q, ws_phase s q <> PGone -> q ∈ ws_reg s;
  wi_dels : forall q d, ws_dels s !! q = Some d -> is_Some (ws_queues s !! q) /\ ws_phase s q = PGone /\ (d <> DFail -> q ∈ ws_reg s);
  wi_tests : forall q b, (q, b) ∈ ws_tests s -> is_Some (ws_queues s !! q);
  wi_armed : forall w q, ws_armed s !! w = Some q -> is_Some (ws_works s !! w) /\ is_Some (ws_queues s !! q);
  wi_log : forall q, of_queue q (ws_accepted s) = of_queue q (ws_ran s) ++ P q;
}.

Lemma of_queue_snoc q l q' w : of_queue q (l ++ [(q', w)]) = of_queue q l ++ (if decide (q' = q) then [w] else []).
Proof.
  unfold of_queue. rewrite filter_app, fmap_app. f_equal. rewrite filter_cons. simpl. by case_decide.
Qed.

Lemma count_of_snoc q l q' : count_of q (l ++ [q']) = (count_of q l + (if decide (q' = q) then 1 else 0))%nat.
Proof. unfold count_of. rewrite filter_app, length_app, filter_cons. case_decide; done. Qed.

Lemma count_of_remove q l q' : q' ∈ l -> (count_of q (remove_one q' l) + (if decide (q' = q) then 1 else 0) = count_of q l)%nat.
Proof.
  unfold count_of. induction l as [|x l IH]; [by intros ?%elem_of_nil|]. intros Hin.
  change (remove_one q' (x :: l)) with (if bool_decide (x = q') then l else x :: remove_one q' l). case_bool_decide as E.
  - subst x. rewrite filter_cons. destruct (decide (q' = q)); simpl; lia.
  - apply elem_of_cons in Hin as [->|Hin]; [done|]. specialize (IH Hin). rewrite !filter_cons. destruct (decide (x = q)), (decide (q' = q)); simpl; lia.
Qed.

Section Ops.
Implicit Types (s : wsys) (P : nat -> list nat).

Lemma wp_get_work w x (Q : kwork_t -> wsys -> Prop) s : ws_works s !! w = Some x -> Q x s -> wp (get_work w) Q s.
Proof. intros Hx HQ. unfold get_work. by msteps. Qed.

Lemma wp_put_work w x (Q : unit -> wsys -> Prop) s : is_Some (ws_works s !! w) -> Q tt (set_works (<[w := x]> (ws_works s)) s) -> wp (put_work w x) Q s.
Proof. intros [x0 Hx] HQ. unfold put_work. by apply wp_bind, (wp_get_work w x0). Qed.

Lemma wp_get_wq q v (Q : kworkqueue_t -> wsys -> Prop) s : ws_queues s !! q = Some v -> Q v s -> wp (get_wq q) Q s.
Proof. intros Hx HQ. unfold get_wq. by msteps. Qed.

Lemma wp_put_wq q v (Q : unit -> wsys -> Prop) s : is_Some (ws_queues s !! q) -> Q tt (set_queues (<[q := v]> (ws_queues s)) s) -> wp (put_wq q v) Q s.
Proof. intros [x0 Hx] HQ. unfold put_wq. by apply wp_bind, (wp_get_wq q x0). Qed.

Lemma wp_wmodify (f : wsys -> wsys) (Q : unit -> wsys -> Prop) s : Q tt (f s) -> wp (modify f) Q s.
Proof. done. Qed.

(** Works that are not in a list. *)
Lemma not_queued s P w x q : winv s P -> ws_works s !! w = Some x -> queued x = false -> w ∉ P q.
Proof.
  intros Hi Hx Hq Hin. apply (wi_pend _ _ Hi) in Hin as (x' & Hx' & He & _). rewrite Hx in Hx'. injection Hx' as <-. unfold queued in Hq. lia.
Qed.

Definition with_wq (x : kwork_t) (o : option nat) (e : Z) : kwork_t := mkWork (wk_handle x) (wk_arg x) (wk_dly x) (wk_timer x) o e.

(** The state after [work_insert]. *)
Definition inserted s l' q w x : wsys :=
  mkWsys l' (<[w := with_wq x (Some q) 1]> (ws_works s)) (ws_queues s) (ws_phase s) (ws_gives s ++ [q]) (ws_armed s) (ws_accepted s ++ [(q, w)]) (ws_ran s) (ws_dels s) (ws_reg s) (ws_tests s).

Lemma pend_insert s P q w x : winv s P -> ws_works s !! w = Some x -> queued x = false -> forall q' w', w' ∈ <[q := P q ++ [w]]> P q' <->
  exists x', <[w := with_wq x (Some q) 1]> (ws_works s) !! w' = Some x' /\ wk_exit x' = 1 /\ wk_wq x' = Some q'.
Proof.
  intros Hi Hx Eq q' w'. destruct (decide (w' = w)) as [->|Hne].
  - rewrite lookup_insert_eq. destruct (decide (q = q')) as [<-|Hq].
    + rewrite fn_lookup_insert, elem_of_app, list_elem_of_singleton. split; [intros _; eexists; by split_and! | intros _; by right].
    + rewrite fn_lookup_insert_ne by done. split; [intros Hin; by destruct (not_queued s P w x q')|]. intros (x' & [= <-] & _ & E). simpl in E. congruence.
  - rewrite lookup_insert_ne by done. rewrite <- (wi_pend _ _ Hi). destruct (decide (q = q')) as [<-|Hq].
    + rewrite fn_lookup_insert, elem_of_app, list_elem_of_singleton. naive_solver.
    + by rewrite fn_lookup_insert_ne.
Qed.

(** A work that changes keeps its address, and its queue exists. *)
Lemma armed_upd s P w x' : winv s P -> forall w' q', ws_armed s !! w' = Some q' -> is_Some (<[w := x']> (ws_works s) !! w') /\ is_Some (ws_queues s !! q').
Proof.
  intros Hi w' q' Ha. destruct (wi_armed _ _ Hi w' q' Ha) as [? ?]. split; [|done]. destruct (decide (w = w')) as [<-|]; [rewrite lookup_insert_eq; eauto | by rewrite lookup_insert_ne].
Qed.

Lemma dom_upd s P w x' : winv s P -> (forall q, wk_wq x' = Some q -> is_Some (ws_queues s !! q)) ->
  forall w' y q', <[w := x']> (ws_works s) !! w' = Some y -> wk_wq y = Some q' -> is_Some (ws_queues s !! q').
Proof.
  intros Hi Hq w' y q'. destruct (decide (w = w')) as [<-|Hne]; [rewrite lookup_insert_eq | rewrite lookup_insert_ne by done; apply (wi_dom _ _ Hi)].
  intros [= <-]. apply Hq.
Qed.

Lemma winv_inserted s P q w x v l' : winv s P -> ws_queues s !! q = Some v -> ws_works s !! w = Some x -> queued x = false ->
  rings l' (<[IQ q := (WNode <$> P q) ++ [WNode w; WList q]]> (<[IW w := []]> (wrings s P))) -> winv (inserted s l' q w x) (<[q := P q ++ [w]]> P).
Proof.
  intros Hi Hv Hx Eq HG. split; cbn [ws_links ws_works ws_queues ws_phase ws_gives ws_armed ws_accepted ws_ran ws_dels ws_reg ws_tests inserted]; try apply Hi.
  - eapply rings_ext; [exact HG|]. intros [q'|w'|q'|]; cbn [wrings ws_queues ws_works ws_reg inserted]; [..|by rewrite !fn_lookup_insert_ne by done|by rewrite !fn_lookup_insert_ne by done].
    + destruct (decide (q = q')) as [<-|Hne]; [rewrite Hv, !fn_lookup_insert, fmap_app, <- app_assoc; done | by rewrite !fn_lookup_insert_ne by congruence].
    + rewrite fn_lookup_insert_ne by done. destruct (decide (w = w')) as [<-|Hne]; [by rewrite fn_lookup_insert, lookup_insert_eq|].
      by rewrite fn_lookup_insert_ne, lookup_insert_ne by congruence.
  - by apply pend_insert.
  - eapply dom_upd; [done|]. intros ? [= <-]. eauto.
  - intros q' v' Hv' Hph. destruct (wi_sem _ _ Hi q' v' Hv' Hph) as (n & E & Hn & Hs). exists n. split_and!; [done..|]. rewrite count_of_snoc. unfold taken in *. cbn [ws_phase inserted].
    destruct (decide (q = q')) as [<-|Hne]; [rewrite fn_lookup_insert, length_app; simpl; lia | rewrite fn_lookup_insert_ne by done; lia].
  - intros q' [Hg|Hg%list_elem_of_singleton]%elem_of_app; [by apply (wi_gives _ _ Hi) | subst; eauto].
  - by eapply armed_upd.
  - intros q'. rewrite of_queue_snoc, (wi_log _ _ Hi q').
    destruct (decide (q = q')) as [<-|Hne]; [by rewrite fn_lookup_insert, app_assoc | by rewrite fn_lookup_insert_ne, app_nil_r].
Qed.

(** Putting a work into the list of a queue. *)
Lemma wp_work_insert q w v x P (Q : kstat_t -> wsys -> Prop) s : winv s P -> ws_queues s !! q = Some v -> ws_works s !! w = Some x ->
  (work_current v = Some w -> Q RHINO_WORKQUEUE_WORK_RUNNING s) ->
  (queued x = true -> Q RHINO_WORKQUEUE_WORK_EXIST s) ->
  (forall l', work_current v <> Some w -> queued x = false -> winv (inserted s l' q w x) (<[q := P q ++ [w]]> P) -> Q RHINO_SUCCESS (inserted s l' q w x)) ->
  wp (work_insert q w) Q s.
Proof.
  intros Hi Hv Hx HR HE HS. unfold work_insert. apply wp_bind, (wp_get_wq q v); [done|]. apply wp_bind, (wp_get_work w x); [done|].
  case_bool_decide as Hcur; [by apply wp_ret, HR|]. fold (queued x). destruct (queued x) eqn:Eq; [by apply wp_ret, HE|].
  pose proof (wi_rings _ _ Hi) as HG. assert (Hw : wrings s P (IW w) = [] ++ WNode w :: []) by (simpl; by rewrite Hx, Eq).
  apply wp_bind, (wp_klist_rm_init (wrings s P) (IW w) [] (WNode w) [] (IW w)); [done | done | by rewrite fn_lookup_insert|]. intros l1 HG1.
  apply (rings_drop _ _ (IW w)) in HG1.
  assert (HG2 : rings l1 (<[IW w := []]> (wrings s P))).
  { eapply rings_ext; [exact HG1|]. intros i. destruct (decide (IW w = i)) as [<-|]; [by rewrite !fn_lookup_insert | by rewrite !fn_lookup_insert_ne by done]. }
  apply wp_bind, (wp_klist_insert (<[IW w := []]> (wrings s P)) (IQ q) (WNode <$> P q) (WList q) [] (WNode w)).
  - done.
  - rewrite fn_lookup_insert_ne by done. simpl. by rewrite Hv.
  - apply (unlinked_rm (ws_links s) (wrings s P) (IW w) [] (WNode w) []); done.
  - intros l2 HG3. apply wp_bind, wp_put_work; [simpl; eauto|]. apply wp_bind, wp_wmodify, wp_bind, wp_wmodify, wp_ret. apply (HS l2); [done | done|].
    by apply (winv_inserted s P q w x v).
Qed.

(** [krhino_work_cancel]: the work is in no list. *)
Lemma winv_cancelled s P w x l' : winv s P -> ws_works s !! w = Some x -> queued x = false -> rings l' (wrings s P) ->
  winv (set_works (<[w := with_wq x None (wk_exit x)]> (ws_works s)) (with_links l' s)) P.
Proof.
  intros Hi Hx Eq HG. split; cbn [ws_links ws_works ws_queues ws_phase ws_gives ws_armed ws_accepted ws_ran ws_dels ws_reg ws_tests set_works with_links wsys_links]; try apply Hi.
  - eapply rings_ext; [exact HG|]. intros [q'|w'|q'|]; try done. cbn [wrings ws_works set_works].
    destruct (decide (w = w')) as [<-|]; [|by rewrite lookup_insert_ne]. rewrite lookup_insert_eq, Hx. done.
  - intros q' w'. rewrite (wi_pend _ _ Hi). destruct (decide (w = w')) as [<-|]; [|by rewrite lookup_insert_ne].
    rewrite lookup_insert_eq, Hx. unfold queued in Eq. split; intros (y & [= <-] & E & _); simpl in E; lia.
  - by eapply dom_upd.
  - by eapply armed_upd.
Qed.

Lemma wp_cancel w sent x P (Q : kstat_t -> wsys -> Prop) s : winv s P -> ws_works s !! w = Some x -> (wk_dly x = 0 \/ wk_timer x = true) ->
  (wk_wq x = None -> wk_dly x <= 0 \/ sent = false -> Q RHINO_SUCCESS s) ->
  (wk_wq x = None -> 0 < wk_dly x -> sent = true -> Q RHINO_SUCCESS (set_armed (delete w (ws_armed s)) s)) ->
  (forall q v, wk_wq x = Some q -> ws_queues s !! q = Some v -> work_current v = Some w -> Q RHINO_WORKQUEUE_WORK_RUNNING s) ->
  (forall q, wk_wq x = Some q -> queued x = true -> Q RHINO_WORKQUEUE_WORK_EXIST s) ->
  (forall q l', wk_wq x = Some q -> queued x = false -> winv (set_works (<[w := with_wq x None (wk_exit x)]> (ws_works s)) (with_links l' s)) P ->
     Q RHINO_SUCCESS (set_works (<[w := with_wq x None (wk_exit x)]> (ws_works s)) (with_links l' s))) ->
  wp (krhino_work_cancel w sent) Q s.
Proof.
  intros Hi Hx Ht H0 H1 HR HE HS. unfold krhino_work_cancel. apply wp_bind, (wp_get_work w x); [done|]. destruct (wk_wq x) as [q|] eqn:Ewq.
  - destruct (wi_dom _ _ Hi w x q Hx Ewq) as [v Hv]. apply wp_bind, (wp_get_wq q v); [done|].
    case_bool_decide as Hcur; [by apply wp_ret, (HR q v)|]. fold (queued x). destruct (queued x) eqn:Eq; [by apply wp_ret, (HE q)|].
    apply wp_bind, (wp_klist_rm_init (wrings s P) (IW w) [] (WNode w) [] (IW w)); [apply Hi | simpl; by rewrite Hx, Eq | by rewrite fn_lookup_insert|].
    intros l1 HG1. apply wp_bind, wp_put_work; [simpl; eauto|]. apply wp_ret. apply (HS q l1); [done | done|]. apply winv_cancelled; [done | done | done|].
    eapply rings_ext; [exact HG1|]. intros i. destruct (decide (IW w = i)) as [<-|]; [rewrite fn_lookup_insert; simpl; by rewrite Hx, Eq | by rewrite !fn_lookup_insert_ne by done].
  - apply wp_bind. unfold when. destruct (Z.ltb_spec 0 (wk_dly x)); [|apply wp_ret, wp_ret, H0; auto].
    destruct Ht as [?| ->]; [lia|]. destruct sent; [by apply wp_wmodify, wp_ret, H1 | apply wp_ret, wp_ret, H0; auto].
Qed.

(** The worker takes the first work out of the list. *)
Definition picked s l' q w v x : wsys :=
  mkWsys l' (<[w := with_wq x (wk_wq x) 0]> (ws_works s)) (<[q := mkWq (Some w) (wq_sem v)]> (ws_queues s)) (<[q := PRun]> (ws_phase s)) (ws_gives s)
    (ws_armed s) (ws_accepted s) (ws_ran s ++ [(q, w)]) (ws_dels s) (ws_reg s) (ws_tests s).

Lemma queue_upd (m : gmap nat kworkqueue_t) q v v' q' : m !! q = Some v -> is_Some (m !! q') -> is_Some (<[q := v']> m !! q').
Proof. intros Hv Hs. destruct (decide (q = q')) as [<-|]; [rewrite lookup_insert_eq; eauto | by rewrite lookup_insert_ne]. Qed.

Lemma pend_picked s P q w r x : winv s P -> P q = w :: r -> ws_works s !! w = Some x -> wk_wq x = Some q -> NoDup (P q) -> forall q' w', w' ∈ <[q := r]> P q' <->
  exists x', <[w := with_wq x (wk_wq x) 0]> (ws_works s) !! w' = Some x' /\ wk_exit x' = 1 /\ wk_wq x' = Some q'.
Proof.
  intros Hi HP Hx Ewq Hnd q' w'. rewrite HP in Hnd. apply NoDup_cons in Hnd as [Hw _]. destruct (decide (w = w')) as [<-|Hne].
  - rewrite lookup_insert_eq. split; [|by intros (y & [= <-] & E & _)]. intros Hin. exfalso. destruct (decide (q = q')) as [<-|Hq].
    + by rewrite fn_lookup_insert in Hin.
    + rewrite fn_lookup_insert_ne in Hin by done. apply (wi_pend _ _ Hi) in Hin as (y & Hy & _ & Eq). rewrite Hx in Hy. injection Hy as <-. congruence.
  - rewrite lookup_insert_ne by done. rewrite <- (wi_pend _ _ Hi). destruct (decide (q = q')) as [<-|Hq]; [|by rewrite fn_lookup_insert_ne].
    rewrite fn_lookup_insert, HP, elem_of_cons. naive_solver.
Qed.

Lemma winv_picked s P q w r v x l' : winv s P -> ws_queues s !! q = Some v -> ws_phase s q = PTaken -> P q = w :: r -> ws_works s !! w = Some x ->
  wk_wq x = Some q -> NoDup (P q) -> rings l' (<[IW w := [WNode w]]> (<[IQ q := (WNode <$> r) ++ [WList q]]> (wrings s P))) -> winv (picked s l' q w v x) (<[q := r]> P).
Proof.
  intros Hi Hv Hph HP Hx Ewq Hnd HG. split; cbn [ws_links ws_works ws_queues ws_phase ws_gives ws_armed ws_accepted ws_ran ws_dels ws_reg ws_tests picked]; try apply Hi.
  - eapply rings_ext; [exact HG|]. intros [q'|w'|q'|]; cbn [wrings ws_queues ws_works ws_reg picked].
    + rewrite (fn_lookup_insert_ne _ (IW w) (IQ q')) by done.
      destruct (decide (q = q')) as [<-|Hne]; [by rewrite !fn_lookup_insert, lookup_insert_eq | by rewrite !fn_lookup_insert_ne, lookup_insert_ne by congruence].
    + destruct (decide (w = w')) as [<-|Hne]; [by rewrite fn_lookup_insert, lookup_insert_eq|].
      by rewrite !fn_lookup_insert_ne, lookup_insert_ne by congruence.
    + rewrite !fn_lookup_insert_ne by done. cbn [wrings]. destruct (decide (q = q')) as [<-|Hne]; [by rewrite lookup_insert_eq, Hv | by rewrite lookup_insert_ne].
    + by rewrite !fn_lookup_insert_ne by done.
  - by apply pend_picked.
  - intros w' y q' Hy Ey. eapply queue_upd; [done|]. revert w' y q' Hy Ey. eapply dom_upd; [done|]. intros q'. simpl. intros E. rewrite Ewq in E. injection E as <-. eauto.
  - intros q' v'. destruct (decide (q = q')) as [<-|Hne].
    + rewrite lookup_insert_eq. intros [= <-] _. cbn [wq_sem]. destruct (wi_sem _ _ Hi q v Hv) as (n & E & Hn & Hs); [congruence|]. exists n. split_and!; [done..|].
      unfold taken in *. cbn [ws_phase picked]. rewrite !fn_lookup_insert. rewrite Hph, HP in Hs. simpl in Hs. lia.
    + rewrite lookup_insert_ne, (fn_lookup_insert_ne _ q q') by done. intros Hv' Hph'. destruct (wi_sem _ _ Hi q' v' Hv' Hph') as (n & E & Hn & Hs). exists n. split_and!; [done..|].
      unfold taken in *. cbn [ws_phase picked]. by rewrite !fn_lookup_insert_ne by done.
  - intros q' Hg. eapply queue_upd; [done|]. by apply (wi_gives _ _ Hi).
  - intros q' Hg. eapply queue_upd; [done|]. by apply (wi_reg _ _ Hi).
  - intros q'. destruct (decide (q = q')) as [<-|Hne]; [intros _; apply (wi_alive _ _ Hi); congruence | rewrite fn_lookup_insert_ne by done; apply (wi_alive _ _ Hi)].
  - intros q' d Hd. destruct (wi_dels _ _ Hi q' d Hd) as (Hs & Hg & Hr). split_and!; [by eapply queue_upd | | done].
    destruct (decide (q = q')) as [<-|]; [congruence | by rewrite fn_lookup_insert_ne].
  - intros q' b Hb. eapply queue_upd; [done|]. by apply (wi_tests _ _ Hi q' b).
  - intros w' q' Ha. destruct (armed_upd s P w (with_wq x (wk_wq x) 0) Hi w' q' Ha). split; [done | by eapply queue_upd].
  - intros q'. rewrite of_queue_snoc, (wi_log _ _ Hi q').
    destruct (decide (q = q')) as [<-|Hne]; [by rewrite fn_lookup_insert, HP, <- app_assoc | by rewrite fn_lookup_insert_ne, app_nil_r].
Qed.

Lemma pend_nodup s P q : winv s P -> NoDup (P q).
Proof.
  intros Hi. destruct (ws_queues s !! q) as [v|] eqn:Hv.
  - pose proof (rings_nodup _ _ (wi_rings _ _ Hi) (IQ q)) as Hnd. simpl in Hnd. rewrite Hv in Hnd. apply NoDup_app in Hnd as [Hnd _]. by apply NoDup_fmap_1 in Hnd.
  - destruct (P q) as [|w r] eqn:HP; [constructor|]. exfalso. assert (Hin : w ∈ P q) by (rewrite HP; apply elem_of_cons; by left).
    apply (wi_pend _ _ Hi) in Hin as (x & Hx & _ & Ewq). destruct (wi_dom _ _ Hi w x q Hx Ewq) as [? ?]. congruence.
Qed.

(** A worker that took the semaphore finds a work. *)
Lemma taken_pending s P q v : winv s P -> ws_queues s !! q = Some v -> ws_phase s q = PTaken ->
  exists w r x, P q = w :: r /\ ws_works s !! w = Some x /\ queued x = true /\ wk_wq x = Some q.
Proof.
  intros Hi Hv Hph. destruct (wi_sem _ _ Hi q v Hv) as (n & E & Hn & Hs); [congruence|]. unfold taken in Hs. rewrite Hph in Hs. destruct (P q) as [|w r] eqn:HP; [simpl in Hs; lia|].
  assert (Hin : w ∈ P q) by (rewrite HP; apply elem_of_cons; by left). apply (wi_pend _ _ Hi) in Hin as (x & Hx & He & Ewq).
  exists w, r, x. split_and!; try done. unfold queued. lia.
Qed.

Lemma wp_pick q v P (Q : kstat_t -> wsys -> Prop) s : winv s P -> ws_queues s !! q = Some v -> ws_phase s q = PTaken ->
  (forall w r x l', P q = w :: r -> winv (picked s l' q w v x) (<[q := r]> P) -> Q RHINO_SUCCESS (picked s l' q w v x)) ->
  wp (worker_pick q ;; goto q PRun ;; ret RHINO_SUCCESS) Q s.
Proof.
  intros Hi Hv Hph HQ. destruct (taken_pending s P q v Hi Hv Hph) as (w & r & x & HP & Hx & Eq & Ewq). pose proof (pend_nodup s P q Hi) as Hnd.
  assert (HGq : wrings s P (IQ q) = (WNode <$> w :: r) ++ WList q :: []) by (simpl; by rewrite Hv, HP).
  unfold worker_pick. apply wp_bind, wp_bind, (wp_get_next (wrings s P) (IQ q) (WNode <$> w :: r) (WList q) []); [apply Hi | done|]. cbn [app hd fmap list_fmap].
  apply wp_bind, wp_ret. apply wp_bind, (wp_klist_rm_init (wrings s P) (IQ q) [] (WNode w) ((WNode <$> r) ++ [WList q]) (IW w)); [apply Hi | done | |].
  { rewrite fn_lookup_insert_ne by done. simpl. by rewrite Hx, Eq. }
  intros l1 HG1. apply wp_bind, (wp_get_wq q v); [done|]. apply wp_bind, wp_put_wq; [simpl; eauto|].
  apply wp_bind, (wp_get_work w x); [done|]. apply wp_bind, wp_put_work; [simpl; eauto|]. apply wp_wmodify, wp_bind, wp_wmodify, wp_ret.
  apply (HQ w r x l1); [done|]. by apply winv_picked.
Qed.
End Ops.

(** * Queues that come and go

    The list of all queues, creating and deleting queues, and the changes of a
    queue that leave the lists alone. *)

Lemma remove_one_split {A} `{EqDecision A} (q : A) l : q ∈ l -> exists a b, l = a ++ q :: b /\ (q ∉ a) /\ remove_one q l = a ++ b.
Proof.
  induction l as [|x l IH]; [by intros ?%elem_of_nil|]. intros Hin.
  change (remove_one q (x :: l)) with (if bool_decide (x = q) then l else x :: remove_one q l). case_bool_decide as E.
  - subst x. exists [], l. split_and!; [done | apply not_elem_of_nil | done].
  - apply elem_of_cons in Hin as [->|Hin]; [done|]. destruct (IH Hin) as (a & b & -> & Ha & ->). exists (x :: a), b. split_and!; [done | | done].
    apply not_elem_of_cons. split; congruence.
Qed.

Lemma elem_of_remove_one {A} `{EqDecision A} (q : A) l q' : q' ∈ remove_one q l -> q' ∈ l.
Proof.
  induction l as [|x l IH]; [done|]. change (remove_one q (x :: l)) with (if bool_decide (x = q) then l else x :: remove_one q l).
  case_bool_decide; rewrite !elem_of_cons; naive_solver.
Qed.

Lemma count_of_none q l : q ∉ l -> count_of q l = 0%nat.
Proof.
  intros Hg. unfold count_of. destruct (filter _ _) as [|y r] eqn:E; [done|]. exfalso.
  assert (Hy : y ∈ filter (fun x => x = q) l) by (rewrite E; apply elem_of_cons; by left). apply list_elem_of_filter in Hy as [-> Hy]. done.
Qed.

Section Life.
Implicit Types (s : wsys) (P : nat -> list nat).

(** Changes that do not concern works, lists or the phases of workers. *)
Lemma winv_armed s P m : winv s P -> (forall w q, m !! w = Some q -> is_Some (ws_works s !! w) /\ is_Some (ws_queues s !! q)) -> winv (set_armed m s) P.
Proof. intros [] Hm. by split. Qed.

(** A change of a queue, of the phase of its worker and of the calls under way. *)
Lemma winv_queue s P q v v' ph gives dels : winv s P -> ws_queues s !! q = Some v ->
  (forall q', q' <> q -> count_of q' gives = count_of q' (ws_gives s)) -> (forall q', q' ∈ gives -> q' ∈ ws_gives s) ->
  (ph <> PGone -> q ∈ ws_reg s /\ exists n, wq_sem v' = Some n /\ 0 <= n /\
     n + Z.of_nat (count_of q gives) + (match ph with PTaken => 1 | _ => 0 end) = Z.of_nat (length (P q))) ->
  (forall q' d, dels !! q' = Some d -> is_Some (ws_queues s !! q') /\ <[q := ph]> (ws_phase s) q' = PGone /\ (d <> DFail -> q' ∈ ws_reg s)) ->
  winv (set_dels dels (set_gives gives (set_phase (<[q := ph]> (ws_phase s)) (set_queues (<[q := v']> (ws_queues s)) s)))) P.
Proof.
  intros Hi Hv Hg Hin Hs Hd.
  split; cbn [ws_links ws_works ws_queues ws_phase ws_gives ws_armed ws_accepted ws_ran ws_dels ws_reg ws_tests set_dels set_gives set_phase set_queues]; try apply Hi.
  - eapply rings_ext; [apply Hi|]. intros [q'|w'|q'|]; try done; cbn [wrings ws_queues ws_reg set_dels set_gives set_phase set_queues];
      (destruct (decide (q = q')) as [<-|]; [by rewrite lookup_insert_eq, Hv | by rewrite lookup_insert_ne]).
  - intros w x q' Hx Ex. eapply queue_upd; [done|]. by eapply (wi_dom _ _ Hi).
  - intros q' y. unfold taken. cbn [ws_phase set_dels set_gives set_phase set_queues]. destruct (decide (q = q')) as [<-|Hne].
    + rewrite lookup_insert_eq, fn_lookup_insert. intros [= <-] Hph. destruct (Hs Hph) as (_ & n & E & Hn & Hs'). exists n. split_and!; [done..|]. destruct ph; lia.
    + rewrite lookup_insert_ne, fn_lookup_insert_ne by done. rewrite Hg by done. apply (wi_sem _ _ Hi).
  - intros q' Hq. eapply queue_upd; [done|]. by apply (wi_gives _ _ Hi), Hin.
  - intros q' Hq. eapply queue_upd; [done|]. by apply (wi_reg _ _ Hi).
  - intros q'. destruct (decide (q = q')) as [<-|]; [rewrite fn_lookup_insert; apply Hs | rewrite fn_lookup_insert_ne by done; apply (wi_alive _ _ Hi)].
  - intros q' d Hd'. destruct (Hd q' d Hd') as (? & ? & ?). split_and!; [by eapply queue_upd | done..].
  - intros q' b Hb. eapply queue_upd; [done|]. by apply (wi_tests _ _ Hi q' b).
  - intros w q' Ha. destruct (wi_armed _ _ Hi w q' Ha). split; [done | by eapply queue_upd].
Qed.

Lemma phase_id (f : nat -> wphase) q q' : <[q := f q]> f q' = f q'.
Proof. destruct (decide (q = q')) as [<-|]; [by rewrite fn_lookup_insert | by rewrite fn_lookup_insert_ne]. Qed.

(** States that differ only in what the invariant does not see. *)
Lemma winv_ext s s' P : winv s P -> ws_links s' = ws_links s -> ws_works s' = ws_works s -> ws_queues s' = ws_queues s -> (forall q, ws_phase s' q = ws_phase s q) ->
  ws_gives s' = ws_gives s -> ws_armed s' = ws_armed s -> ws_accepted s' = ws_accepted s -> ws_ran s' = ws_ran s -> ws_dels s' = ws_dels s -> ws_reg s' = ws_reg s -> (forall x, x ∈ ws_tests s' -> x ∈ ws_tests s) -> winv s' P.
Proof.
  intros [HG Hp Hd Hs Hg Hr Hl Hde Hte Ha Hlog] E1 E2 E3 E4 E5 E6 E7 E8 E9 E10 E11. split; rewrite ?E1, ?E2, ?E3, ?E5, ?E6, ?E7, ?E8, ?E9, ?E10; try done.
  - eapply rings_ext; [done|]. intros [q|w|q|]; simpl; by rewrite ?E2, ?E3, ?E10.
  - intros q v Hv. unfold taken. rewrite E4. by apply Hs.
  - intros q. rewrite E4. apply Hl.
  - intros q. rewrite E4. apply Hde.
  - intros q b Hb. by eapply Hte, E11.
Qed.

(** The deletions under way, when a worker that exists goes on. *)
Lemma dels_alive s P q ph : winv s P -> ws_phase s q <> PGone ->
  forall q' d, ws_dels s !! q' = Some d -> is_Some (ws_queues s !! q') /\ <[q := ph]> (ws_phase s) q' = PGone /\ (d <> DFail -> q' ∈ ws_reg s).
Proof.
  intros Hi Hph q' d Hd. destruct (wi_dels _ _ Hi q' d Hd) as (Hs & Hg & Hr). split_and!; [done | | done].
  rewrite fn_lookup_insert_ne; [done | congruence].
Qed.

(** ** The list of all queues *)

Lemma reg_rotated s P : winv s P -> rings (ws_links s) (<[IH := WHead :: (WqNode <$> ws_reg s)]> (wrings s P)).
Proof. intros Hi. apply (rings_rotate _ _ IH (WqNode <$> ws_reg s) [WHead]); [apply Hi | done]. Qed.

Lemma reg_nodup s P : winv s P -> NoDup (ws_reg s).
Proof.
  intros Hi. pose proof (rings_nodup _ _ (wi_rings _ _ Hi) IH) as Hnd. simpl in Hnd. apply NoDup_app in Hnd as [Hnd _]. by apply NoDup_fmap_1 in Hnd.
Qed.

Lemma wp_workqueue_is_exist q P (Q : kstat_t -> wsys -> Prop) s : winv s P ->
  Q (if decide (q ∈ ws_reg s) then RHINO_WORKQUEUE_EXIST else RHINO_WORKQUEUE_NOT_EXIST) s -> wp (workqueue_is_exist q) Q s.
Proof.
  intros Hi HQ. unfold workqueue_is_exist. apply wp_bind.
  apply (wp_scan_list (<[IH := WHead :: (WqNode <$> ws_reg s)]> (wrings s P)) IH WHead (WqNode <$> ws_reg s) _ (fun n => bool_decide (n = WqNode q)));
    [by apply (reg_rotated s P) | by rewrite fn_lookup_insert | done|].
  intros m1 m2 E Hm1 Hm2. destruct m2 as [|x m2]; simpl.
  - apply wp_ret. rewrite decide_False in HQ; [done|]. intros Hin. rewrite app_nil_r in E. subst m1. rewrite Forall_forall in Hm1.
    specialize (Hm1 (WqNode q) (list_elem_of_fmap_2 WqNode _ _ Hin)). by apply bool_decide_eq_false in Hm1.
  - specialize (Hm2 x eq_refl). apply bool_decide_eq_true in Hm2 as ->. rewrite bool_decide_false by done. apply wp_ret.
    rewrite decide_True in HQ; [done|]. assert (Hin : WqNode q ∈ WqNode <$> ws_reg s) by (rewrite E; apply elem_of_app; right; apply elem_of_cons; by left).
    by apply list_elem_of_fmap in Hin as (y & [= ->] & Hin).
Qed.

(** A queue without worker and deletion leaves the list of all queues. *)
Lemma wp_wq_unlink q P (Q : unit -> wsys -> Prop) s : winv s P -> q ∈ ws_reg s -> ws_phase s q = PGone -> ws_dels s !! q = None ->
  (forall l', winv (set_reg (remove_one q (ws_reg s)) (with_links l' s)) P -> Q tt (set_reg (remove_one q (ws_reg s)) (with_links l' s))) ->
  wp (wq_unlink q) Q s.
Proof.
  intros Hi Hr Hph Hd HQ. destruct (remove_one_split q _ Hr) as (a & b & E & Ha & Er). pose proof (reg_nodup s P Hi) as Hnd.
  assert (Hb : q ∉ a ++ b). { rewrite E in Hnd. apply NoDup_app in Hnd as (_ & _ & Hnd). apply NoDup_cons in Hnd as [Hb _]. rewrite elem_of_app. tauto. }
  assert (Hin : forall q', q' <> q -> q' ∈ a ++ b <-> q' ∈ ws_reg s) by (intros q' Hne; rewrite E, !elem_of_app, elem_of_cons; naive_solver).
  unfold wq_unlink. apply wp_bind, (wp_klist_rm_init (wrings s P) IH (WqNode <$> a) (WqNode q) ((WqNode <$> b) ++ [WHead]) (IN q)).
  - apply Hi.
  - simpl. by rewrite E, fmap_app, <- app_assoc.
  - rewrite fn_lookup_insert_ne by done. simpl. rewrite decide_True by done. by destruct (ws_queues s !! q).
  - intros l' HG. apply wp_wmodify, HQ. rewrite Er. destruct (wi_reg _ _ Hi q Hr) as [v Hv].
    split; cbn [ws_links ws_works ws_queues ws_phase ws_gives ws_armed ws_accepted ws_ran ws_dels ws_reg ws_tests set_reg with_links wsys_links]; try apply Hi.
    + eapply rings_ext; [exact HG|]. intros [q'|w'|q'|]; cbn [wrings ws_queues ws_works ws_reg set_reg]; try by rewrite !fn_lookup_insert_ne by done.
      * destruct (decide (q = q')) as [<-|Hne]; [rewrite fn_lookup_insert; simpl; by rewrite Hv, decide_False by done|].
        rewrite !fn_lookup_insert_ne by congruence. simpl. destruct (ws_queues s !! q'); [|done]. apply decide_ext. by apply Hin.
      * rewrite fn_lookup_insert_ne, fn_lookup_insert by done. by rewrite fmap_app, <- app_assoc.
    + intros q' Hq'. apply (wi_reg _ _ Hi), Hin; [by intros -> | done].
    + intros q' Hp. apply Hin; [by intros -> | by apply (wi_alive _ _ Hi)].
    + intros q' d Hd'. destruct (wi_dels _ _ Hi q' d Hd') as (? & ? & Hr'). split_and!; [done..|]. intros Hf. apply Hin; [congruence | by apply Hr'].
Qed.

(** ** Creating a queue *)

(** Nothing refers to the memory of queue [q]. *)
Definition unused s P (q : nat) : Prop := (q ∉ ws_reg s) /\ P q = [] /\ (q ∉ ws_gives s) /\ ws_dels s !! q = None.

Definition linked s l' (q : nat) : wsys :=
  set_reg (ws_reg s ++ [q]) (set_queues (<[q := mkWq None (Some 0)]> (ws_queues s)) (with_links l' s)).

Lemma unlinked_wnode s P w : winv s P -> ws_works s !! w = None -> unlinked (wrings s P) (WNode w).
Proof.
  intros Hi Hw [q|w'|q|] Hin; simpl in Hin.
  - destruct (ws_queues s !! q); [|by apply elem_of_nil in Hin]. apply elem_of_app in Hin as [Hin|Hin]; [|by apply list_elem_of_singleton in Hin].
    apply list_elem_of_fmap in Hin as (y & [= <-] & Hin). apply (wi_pend _ _ Hi) in Hin as (x & Hx & _). congruence.
  - destruct (ws_works s !! w') as [x|] eqn:Ex; [|by apply elem_of_nil in Hin]. destruct (queued x); [by apply elem_of_nil in Hin|].
    apply list_elem_of_singleton in Hin as [= <-]. congruence.
  - destruct (ws_queues s !! q); [|by apply elem_of_nil in Hin]. case_decide; [by apply elem_of_nil in Hin | by apply list_elem_of_singleton in Hin].
  - apply elem_of_app in Hin as [Hin|Hin]; [by apply list_elem_of_fmap in Hin as (? & ? & _) | by apply list_elem_of_singleton in Hin].
Qed.

Lemma unlinked_queue s P q : q ∉ ws_reg s -> let G := <[IQ q := []]> (<[IN q := []]> (wrings s P)) in unlinked G (WqNode q) /\ unlinked G (WList q).
Proof.
  intros Hr G. split; intros [q'|w|q'|]; unfold G.
  all: try (destruct (decide (q = q')) as [<-|Hne]; [rewrite ?fn_lookup_insert; try (rewrite fn_lookup_insert_ne, fn_lookup_insert by done); apply not_elem_of_nil|]).
  all: rewrite !fn_lookup_insert_ne by congruence; simpl; try destruct (ws_queues s !! q'); try destruct (ws_works s !! w) as [x|]; try destruct (queued x); try case_decide.
  all: rewrite ?elem_of_app, ?list_elem_of_fmap, ?list_elem_of_singleton, ?elem_of_nil; naive_solver.
Qed.

Lemma winv_linked s P q l' : winv s P -> unused s P q ->
  rings l' (<[IH := (WqNode <$> ws_reg s) ++ [WqNode q; WHead]]> (<[IQ q := [WList q]]> (<[IN q := []]> (wrings s P)))) -> winv (linked s l' q) P.
Proof.
  intros Hi (Hr & HP & Hg & Hd) HG.
  assert (Hup : forall q', is_Some (ws_queues s !! q') -> is_Some (<[q := mkWq None (Some 0)]> (ws_queues s) !! q')).
  { intros q' Hq'. destruct (decide (q = q')) as [<-|]; [rewrite lookup_insert_eq; eauto | by rewrite lookup_insert_ne]. }
  split; cbn [ws_links ws_works ws_queues ws_phase ws_gives ws_armed ws_accepted ws_ran ws_dels ws_reg ws_tests linked set_reg set_queues with_links wsys_links]; try apply Hi.
  - eapply rings_ext; [exact HG|]. intros [q'|w'|q'|]; cbn [wrings ws_queues ws_works ws_reg linked set_reg set_queues with_links wsys_links].
    + rewrite (fn_lookup_insert_ne _ IH) by done. destruct (decide (q = q')) as [<-|]; [by rewrite fn_lookup_insert, lookup_insert_eq, HP|].
      by rewrite !fn_lookup_insert_ne, lookup_insert_ne by congruence.
    + by rewrite !fn_lookup_insert_ne by done.
    + rewrite (fn_lookup_insert_ne _ IH), (fn_lookup_insert_ne _ (IQ q)) by done. destruct (decide (q = q')) as [<-|].
      * rewrite fn_lookup_insert, lookup_insert_eq, decide_True; [done|]. apply elem_of_app. right. by apply list_elem_of_singleton.
      * rewrite fn_lookup_insert_ne, lookup_insert_ne by congruence. simpl. destruct (ws_queues s !! q'); [|done].
        apply decide_ext. rewrite elem_of_app, list_elem_of_singleton. naive_solver.
    + rewrite fn_lookup_insert, fmap_app, <- app_assoc. done.
  - intros w x q' Hx Ex. by eapply Hup, (wi_dom _ _ Hi).
  - intros q' v. destruct (decide (q = q')) as [<-|]; [|rewrite lookup_insert_ne by done; apply (wi_sem _ _ Hi)].
    intros _ Hph. by destruct (Hr (wi_alive _ _ Hi q Hph)).
  - intros q' Hq'. by apply Hup, (wi_gives _ _ Hi).
  - intros q' [Hq'|Hq'%list_elem_of_singleton]%elem_of_app; [by apply Hup, (wi_reg _ _ Hi) | subst; rewrite lookup_insert_eq; eauto].
  - intros q' Hph. apply elem_of_app. left. by apply (wi_alive _ _ Hi).
  - intros q' d Hd'. destruct (wi_dels _ _ Hi q' d Hd') as (? & ? & Hr'). split_and!; [by apply Hup | done|].
    intros Hf. apply elem_of_app. left. by apply Hr'.
  - intros q' b Hb. by apply Hup, (wi_tests _ _ Hi q' b).
  - intros w q' Ha. destruct (wi_armed _ _ Hi w q' Ha). split; [done | by apply Hup].
Qed.

(** The lists of a new queue. *)
Lemma wp_link_new {A} q P (k : W A) (Q : A -> wsys -> Prop) s : winv s P -> unused s P q ->
  (forall l', winv (linked s l' q) P -> wp k Q (linked s l' q)) ->
  wp (klist_init (WqNode q) ;; klist_init (WList q) ;; modify (fun s => set_queues (<[q := mkWq None (Some 0)]> (ws_queues s)) s) ;; wq_link q ;; k) Q s.
Proof.
  intros Hi Hu HQ. destruct (unlinked_queue s P q (proj1 Hu)) as [U1 U2]. set (G := <[IQ q := []]> (<[IN q := []]> (wrings s P))) in *.
  assert (HG : rings (ws_links s) G) by (apply rings_drop, rings_drop, Hi).
  assert (Hn : G (IN q) = []) by (unfold G; rewrite fn_lookup_insert_ne by done; apply fn_lookup_insert).
  apply wp_bind, (wp_klist_init G (IN q)); [done..|]. intros l1 HG1. apply (rings_drop _ _ (IN q)) in HG1.
  assert (HG2 : rings l1 G).
  { eapply rings_ext; [exact HG1|]. intros i. destruct (decide (IN q = i)) as [<-|]; [by rewrite fn_lookup_insert | by rewrite !fn_lookup_insert_ne by done]. }
  apply wp_bind, (wp_klist_init G (IQ q)); [done | by unfold G; rewrite fn_lookup_insert | done|]. intros l2 HG3.
  assert (HG4 : rings l2 (<[IQ q := [WList q]]> (<[IN q := []]> (wrings s P)))).
  { eapply rings_ext; [exact HG3|]. intros i. unfold G. destruct (decide (IQ q = i)) as [<-|]; [by rewrite !fn_lookup_insert | by rewrite !(fn_lookup_insert_ne _ (IQ q)) by done]. }
  apply wp_bind, wp_wmodify. unfold wq_link.
  apply wp_bind, wp_bind, (wp_klist_insert (<[IQ q := [WList q]]> (<[IN q := []]> (wrings s P))) IH (WqNode <$> ws_reg s) WHead [] (WqNode q)).
  - done.
  - by rewrite !fn_lookup_insert_ne by done.
  - intros i. specialize (U1 i). unfold G in U1. destruct (decide (IQ q = i)) as [<-|].
    + rewrite fn_lookup_insert. by rewrite list_elem_of_singleton.
    + by rewrite (fn_lookup_insert_ne _ (IQ q)) in * by done.
  - intros l3 HG5. apply wp_wmodify, (HQ l3). by apply winv_linked.
Qed.

Lemma linked_queue s l' q : ws_queues (linked s l' q) !! q = Some (mkWq None (Some 0)).
Proof. apply lookup_insert_eq. Qed.

Lemma linked_reg s l' q : q ∈ ws_reg (linked s l' q).
Proof. apply elem_of_app. right. by apply list_elem_of_singleton. Qed.

(** What [krhino_workqueue_create] returns when the queues [O] exist; the queue is
    in the list of all queues afterwards when it succeeds. *)
Definition create_result (O : list nat) (q : nat) (pri stack_size : Z) (tret : kstat_t) : kstat_t :=
  if RHINO_CONFIG_PRI_MAX <=? pri then RHINO_BEYOND_MAX_PRI
  else if stack_size =? 0 then RHINO_TASK_INV_STACK_SIZE
  else if decide (q ∈ O) then RHINO_WORKQUEUE_EXIST
  else tret.

Definition create_post s P (q : nat) (pri stack_size : Z) (tret : kstat_t) (r : kstat_t) (s' : wsys) : Prop :=
  r = create_result (ws_reg s) q pri stack_size tret /\ winv s' P /\
  ws_reg s' = (if bool_decide (r = RHINO_SUCCESS) then ws_reg s ++ [q] else ws_reg s) /\
  (r = RHINO_SUCCESS -> ws_phase s' q = PWait).

Lemma remove_one_snoc (q : nat) l : q ∉ l -> remove_one q (l ++ [q]) = l.
Proof.
  intros Hq. destruct (remove_one_split q (l ++ [q])) as (a & b & E & Ha & ->); [apply elem_of_app; right; by apply list_elem_of_singleton|].
  destruct b as [|x b] using rev_ind; [|clear IHb].
  - apply app_inj_tail in E as [-> _]. apply app_nil_r.
  - rewrite app_comm_cons, app_assoc in E. apply app_inj_tail in E as [E _]. exfalso. apply Hq. rewrite E, elem_of_app, elem_of_cons. auto.
Qed.

(** Taking queues away, and calls that have tested something. *)
Lemma winv_dels s P m : winv s P -> (forall q d, m !! q = Some d -> is_Some (ws_queues s !! q) /\ ws_phase s q = PGone /\ (d <> DFail -> q ∈ ws_reg s)) ->
  winv (set_dels m s) P.
Proof. intros [] Hm. by split. Qed.

Lemma winv_tests s P m : winv s P -> (forall q b, (q, b) ∈ m -> is_Some (ws_queues s !! q)) -> winv (set_tests m s) P.
Proof. intros [] Hm. by split. Qed.

Lemma winv_untest s P x : winv s P -> winv (set_tests (remove_one x (ws_tests s)) s) P.
Proof. intros Hi. apply winv_tests; [done|]. intros q b Hb%elem_of_remove_one. by apply (wi_tests _ _ Hi q b). Qed.

Lemma winv_dels_delete s P q : winv s P -> winv (set_dels (delete q (ws_dels s)) s) P.
Proof.
  intros Hi. apply winv_dels; [done|]. intros q' d. destruct (decide (q = q')) as [<-|]; [by rewrite lookup_delete_eq | rewrite lookup_delete_ne by done; apply Hi].
Qed.

(** A queue whose worker is gone. *)
Lemma winv_gone s P q v v' m : winv s P -> ws_queues s !! q = Some v -> (forall q' d, m !! q' = Some d -> q' <> q -> ws_dels s !! q' = Some d) ->
  (forall d, m !! q = Some d -> d <> DFail -> q ∈ ws_reg s) ->
  winv (set_dels m (set_phase (<[q := PGone]> (ws_phase s)) (set_queues (<[q := v']> (ws_queues s)) s))) P.
Proof.
  intros Hi Hv Hm Hr. apply (winv_queue s P q v v' PGone (ws_gives s)); try done. intros q' d Hd. destruct (decide (q = q')) as [<-|].
  - rewrite fn_lookup_insert. split_and!; [by eexists | done | by apply Hr].
  - rewrite fn_lookup_insert_ne by done. apply (wi_dels _ _ Hi), Hm; congruence.
Qed.

Lemma wp_create_link q pri stack_size P s : winv s P -> (q ∈ ws_reg s \/ unused s P q) ->
  wp (workqueue_create_link q pri stack_size) (fun r s' => r = create_result (ws_reg s) q pri stack_size RHINO_SUCCESS /\ winv s' P /\
    (r <> RHINO_SUCCESS -> s' = s) /\ (r = RHINO_SUCCESS -> (q ∉ ws_reg s) /\ ws_reg s' = ws_reg s ++ [q] /\ ws_phase s' q = PNew)) s.
Proof.
  intros Hi Hu. unfold workqueue_create_link, create_result. destruct (RHINO_CONFIG_PRI_MAX <=? pri); [by apply wp_ret|].
  destruct (stack_size =? 0); [by apply wp_ret|]. apply wp_bind, (wp_workqueue_is_exist q P); [done|]. destruct (decide (q ∈ ws_reg s)) as [Hr|Hr].
  { rewrite bool_decide_true by done. by apply wp_ret. }
  rewrite bool_decide_false by done. destruct Hu as [?|Hu]; [done|]. apply (wp_link_new q P); [done..|]. intros l' Hl.
  destruct Hu as (_ & HP & Hg & Hd). apply wp_bind, wp_wmodify, wp_ret. split_and!; [done | | done | intros _; split_and!; [done | done | apply fn_lookup_insert]].
  eapply winv_ext; [apply (winv_queue (linked s l' q) P q (mkWq None (Some 0)) (mkWq None (Some 0)) PNew (ws_gives s) (ws_dels s))|..]; try done; [apply linked_queue | ..].
  - intros _. split; [apply linked_reg|]. exists 0. rewrite HP, count_of_none by done. done.
  - intros q' d Hd'. destruct (wi_dels _ _ Hl q' d Hd') as (? & ? & ?). split_and!; [done | | done]. rewrite fn_lookup_insert_ne; [done | congruence].
  - cbn. by rewrite insert_insert_eq.
Qed.

Lemma wp_create_task q tret P s : winv s P -> ws_phase s q = PNew ->
  wp (workqueue_create_task q tret) (fun r s' => r = tret /\ winv s' P /\
    if bool_decide (tret = RHINO_SUCCESS) then ws_reg s' = ws_reg s /\ ws_phase s' q = PWait
    else ws_reg s' = remove_one q (ws_reg s) /\ ws_dels s' !! q = Some DFail) s.
Proof.
  intros Hi Hph. assert (Hr : q ∈ ws_reg s) by (apply (wi_alive _ _ Hi); congruence). destruct (wi_reg _ _ Hi q Hr) as [v Hv].
  unfold workqueue_create_task. case_bool_decide as Et.
  - apply wp_bind, wp_wmodify, wp_ret. split_and!; [done | | done | apply fn_lookup_insert].
    destruct (wi_sem _ _ Hi q v Hv) as (n & E & Hn & Hs); [congruence|]. unfold taken in Hs. rewrite Hph in Hs.
    eapply winv_ext; [apply (winv_queue s P q v v PWait (ws_gives s) (ws_dels s))|..]; try done.
    + intros _. split; [done|]. exists n. split_and!; [done | lia..].
    + apply (dels_alive s P); [done | congruence].
    + simpl. by rewrite insert_id.
  - assert (Hd : ws_dels s !! q = None).
    { destruct (ws_dels s !! q) as [d|] eqn:E; [|done]. destruct (wi_dels _ _ Hi q d E) as (_ & ? & _). congruence. }
    assert (Hg : winv (set_phase (<[q := PGone]> (ws_phase s)) s) P).
    { eapply winv_ext; [apply (winv_gone s P q v v (ws_dels s))|..]; try done. simpl. by rewrite insert_id. }
    apply wp_bind, wp_wmodify, wp_bind, (wp_wq_unlink q P); [done | done | apply fn_lookup_insert | done|]. intros l' Hl.
    apply wp_bind, wp_wmodify, wp_ret. split_and!; [done | | done | apply lookup_insert_eq]. apply winv_dels; [done|].
    intros q' d. destruct (decide (q = q')) as [<-|]; [|rewrite lookup_insert_ne by done; apply (wi_dels _ _ Hl)].
    rewrite lookup_insert_eq. intros [= <-]. split_and!; [by eexists | apply fn_lookup_insert | done].
Qed.

Lemma wp_create_end q P s : winv s P -> ws_dels s !! q = Some DFail ->
  wp (workqueue_create_end q) (fun _ s' => winv s' P /\ ws_reg s' = ws_reg s) s.
Proof.
  intros Hi Hd. destruct (wi_dels _ _ Hi q _ Hd) as ([v Hv] & Hph & _). unfold workqueue_create_end.
  apply wp_bind, (wp_get_wq q v); [done|]. apply wp_bind, wp_put_wq; [eauto|]. apply wp_bind, wp_wmodify, wp_ret. split; [|done].
  eapply winv_ext; [apply (winv_gone s P q v (mkWq (work_current v) None) (delete q (ws_dels s)))|..]; try done.
  - intros q' d Hd' Hne. by rewrite lookup_delete_ne in Hd'.
  - intros d. by rewrite lookup_delete_eq.
  - intros q'. simpl. rewrite <- Hph. by rewrite phase_id.
Qed.

Lemma wp_create q pri stack_size tret P s : winv s P -> (q ∈ ws_reg s \/ unused s P q) ->
  wp (krhino_workqueue_create q pri stack_size tret) (create_post s P q pri stack_size tret) s.
Proof.
  intros Hi Hu. unfold krhino_workqueue_create. apply wp_bind. eapply wp_mono; [by apply (wp_create_link q pri stack_size P)|].
  intros r s1 (Er & Hi1 & Hno & Hyes). case_bool_decide as E.
  - destruct (Hyes E) as (Hq & Hreg & Hph). assert (Ec : create_result (ws_reg s) q pri stack_size tret = tret).
    { rewrite E in Er. unfold create_result in *. repeat case_match; done. }
    apply wp_bind. eapply wp_mono; [by apply (wp_create_task q tret P)|]. intros r2 s2 (-> & Hi2 & H2). unfold create_post. rewrite Ec. case_bool_decide as Et.
    + destruct H2 as [H2 H3]. apply wp_ret. rewrite <- Et, bool_decide_true, H2 by done. done.
    + destruct H2 as [H2 H3]. apply wp_bind. eapply wp_mono; [by apply (wp_create_end q P)|]. intros _ s3 [Hi3 H4]. apply wp_ret.
      rewrite bool_decide_false by done. split_and!; [done | done | | done]. rewrite H4, H2, Hreg. by apply remove_one_snoc.
  - rewrite (Hno E) in *. apply wp_ret. unfold create_post. rewrite bool_decide_false by done. split_and!; [|done..].
    rewrite Er in *. unfold create_result in *. repeat case_match; done.
Qed.

(** ** Deleting a queue *)

Lemma wp_list_empty q P v (Q : bool -> wsys -> Prop) s : winv s P -> ws_queues s !! q = Some v -> Q (bool_decide (P q = [])) s -> wp (is_klist_empty (WList q)) Q s.
Proof.
  intros Hi Hv HQ. apply (wp_is_klist_empty (<[IQ q := WList q :: (WNode <$> P q)]> (wrings s P)) (IQ q) _ (WNode <$> P q)).
  - apply (rings_rotate _ _ (IQ q) (WNode <$> P q) [WList q]); [apply Hi | simpl; by rewrite Hv].
  - apply fn_lookup_insert.
  - rewrite (bool_decide_ext _ (P q = [])); [done | by destruct (P q)].
Qed.

Lemma wp_del_exist q P (Q : kstat_t -> wsys -> Prop) s : winv s P ->
  (q ∉ ws_reg s -> Q RHINO_WORKQUEUE_NOT_EXIST s) -> (q ∈ ws_reg s -> Q RHINO_SUCCESS (set_tests ((q, false) :: ws_tests s) s)) ->
  wp (workqueue_del_exist q) Q s.
Proof.
  intros Hi HN HS. unfold workqueue_del_exist. apply wp_bind, (wp_workqueue_is_exist q P); [done|]. destruct (decide (q ∈ ws_reg s)) as [Hr|Hr].
  - rewrite bool_decide_false by done. by apply wp_bind, wp_wmodify, wp_ret, HS.
  - rewrite bool_decide_true by done. by apply wp_ret, HN.
Qed.

Lemma winv_test s P q b : winv s P -> is_Some (ws_queues s !! q) -> winv (set_tests ((q, b) :: ws_tests s) s) P.
Proof.
  intros Hi Hq. apply winv_tests; [done|]. intros q' b' [[= -> ->]|Hb]%elem_of_cons; [done | by apply (wi_tests _ _ Hi q' b')].
Qed.

Definition untested (q : nat) (b : bool) s : wsys := set_tests (remove_one (q, b) (ws_tests s)) s.

Lemma wp_del_idle q v P (Q : kstat_t -> wsys -> Prop) s : winv s P -> ws_queues s !! q = Some v ->
  (P q <> [] \/ work_current v <> None -> Q RHINO_WORKQUEUE_BUSY (untested q false s)) ->
  (P q = [] -> work_current v = None -> Q RHINO_SUCCESS (set_tests ((q, true) :: ws_tests (untested q false s)) (untested q false s))) ->
  wp (workqueue_del_idle q) Q s.
Proof.
  intros Hi Hv HB HS. unfold workqueue_del_idle. apply wp_bind, wp_wmodify, wp_bind, (wp_list_empty q P v); [by apply winv_untest | done|].
  destruct (bool_decide_reflect (P q = [])) as [HP|HP]; simpl; [|apply wp_ret, HB; auto]. apply wp_bind, (wp_get_wq q v); [done|].
  case_bool_decide; simpl; [apply wp_bind, wp_wmodify, wp_ret, HS; auto | apply wp_ret, HB; auto].
Qed.

Definition worker_gone (q : nat) s : wsys := set_dels (<[q := DTask]> (ws_dels s)) (set_phase (<[q := PGone]> (ws_phase s)) s).

Lemma wp_del_task q tret P (Q : kstat_t -> wsys -> Prop) s : winv s P ->
  (tret <> RHINO_SUCCESS -> Q tret (untested q true s)) ->
  (tret = RHINO_SUCCESS -> worker_exists (ws_phase s q) = false -> Q RHINO_INV_TASK_STATE (untested q true s)) ->
  (tret = RHINO_SUCCESS -> worker_exists (ws_phase s q) = true -> winv (worker_gone q (untested q true s)) P -> Q RHINO_SUCCESS (worker_gone q (untested q true s))) ->
  wp (workqueue_del_task q tret) Q s.
Proof.
  intros Hi HT HN HS. unfold workqueue_del_task. apply wp_bind, wp_wmodify. case_bool_decide as Et; simpl; [|by apply wp_ret, HT].
  apply wp_bind, wp_gets. simpl. destruct (worker_exists (ws_phase s q)) eqn:Ew; [|by apply wp_ret, HN]. apply wp_bind, wp_wmodify, wp_bind, wp_wmodify, wp_ret, HS; [done..|].
  assert (Hr : q ∈ ws_reg s) by (apply (wi_alive _ _ Hi); intros E; by rewrite E in Ew). destruct (wi_reg _ _ Hi q Hr) as [v Hv].
  eapply winv_ext; [apply (winv_gone (untested q true s) P q v v (<[q := DTask]> (ws_dels s))); [by apply winv_untest | done | ..]|..]; try done.
  - intros q' d Hd Hne. by rewrite lookup_insert_ne in Hd.
  - simpl. by rewrite insert_id.
Qed.

Definition sem_gone (q : nat) (v : kworkqueue_t) s : wsys :=
  set_dels (<[q := DSem]> (ws_dels s)) (set_queues (<[q := mkWq (work_current v) None]> (ws_queues s)) s).

Lemma wp_del_sem q v P (Q : kstat_t -> wsys -> Prop) s : winv s P -> ws_dels s !! q = Some DTask -> ws_queues s !! q = Some v ->
  (wq_sem v = None -> Q RHINO_KOBJ_TYPE_ERR (set_dels (delete q (ws_dels s)) s)) ->
  (wq_sem v <> None -> winv (sem_gone q v s) P -> Q RHINO_SUCCESS (sem_gone q v s)) ->
  wp (workqueue_del_sem q) Q s.
Proof.
  intros Hi Hd Hv HN HS. destruct (wi_dels _ _ Hi q DTask Hd) as (_ & Hph & Hr).
  unfold workqueue_del_sem. apply wp_bind, (wp_get_wq q v); [done|]. destruct (wq_sem v).
  - apply wp_bind, wp_put_wq; [eauto|]. apply wp_bind, wp_wmodify, wp_ret, HS; [done|].
    eapply winv_ext; [apply (winv_gone s P q v (mkWq (work_current v) None) (<[q := DSem]> (ws_dels s)))|..]; try done.
    + intros q' d Hd' Hne. by rewrite lookup_insert_ne in Hd'.
    + intros d _ _. by apply Hr.
    + intros q'. simpl. rewrite <- Hph. by rewrite phase_id.
  - apply wp_bind, wp_wmodify, wp_ret, HN. done.
Qed.

Lemma wp_del_unlink q P s : winv s P -> ws_dels s !! q = Some DSem -> wp (workqueue_del_unlink q) (fun r s' => winv s' P /\ r = RHINO_SUCCESS /\
  ws_reg s' = remove_one q (ws_reg s) /\ ws_phase s' = ws_phase s /\ ws_accepted s' = ws_accepted s /\ ws_ran s' = ws_ran s /\
  ws_queues s' = ws_queues s /\ ws_works s' = ws_works s) s.
Proof.
  intros Hi Hd. destruct (wi_dels _ _ Hi q DSem Hd) as (_ & Hph & Hr). unfold workqueue_del_unlink. apply wp_bind, wp_wmodify.
  apply wp_bind, (wp_wq_unlink q P); [by apply winv_dels_delete | by apply Hr | done | apply lookup_delete_eq|].
  intros l' Hi'. by apply wp_ret.
Qed.
End Life.
