(* ===== verification/WqExec.v ===== *)
(** * Every action of the work queues

    Each action keeps the state of the work queues; what holds after every
    schedule; a queue without worker runs nothing. *)

From stdpp Require Import functions.
From S2P Require Import Prelude.
From S2P Require Import Monad.
From S2P Require Import Links.
From S2P Require Import KState.
From S2P Require Import WorkQueue.
From S2P Require Import WqInv.

(** ** Every action *)

Section Exec.
Implicit Types (s : wsys) (P : nat -> list nat).

Definition wkept (_ : kstat_t) (s : wsys) : Prop := exists P, winv s P.

Lemma wkept_init s P w handle arg dly created : winv s P -> ws_works s !! w = None -> wp (krhino_work_init w handle arg dly created) wkept s.
Proof.
  intros Hi Hw. unfold krhino_work_init. apply wp_bind, (wp_klist_init (wrings s P) (IW w)); [apply Hi | simpl; by rewrite Hw | by apply unlinked_wnode|].
  intros l' HG. set (s1 := with_links l' s).
  assert (Hnew : forall t, winv (set_works (<[w := mkWork handle arg dly t None 0]> (ws_works s)) s1) P).
  { intros t. split; cbn [ws_links ws_works ws_queues ws_phase ws_gives ws_armed ws_accepted ws_ran ws_dels ws_reg ws_tests set_works s1 with_links wsys_links]; try apply Hi.
    - eapply rings_ext; [exact HG|]. intros [q|w'|q|]; cbn [wrings ws_works ws_queues ws_reg set_works s1 with_links wsys_links]; try by rewrite fn_lookup_insert_ne by done.
      destruct (decide (w = w')) as [<-|]; [by rewrite fn_lookup_insert, lookup_insert_eq | by rewrite fn_lookup_insert_ne, lookup_insert_ne by congruence].
    - intros q w'. rewrite (wi_pend _ _ Hi). destruct (decide (w = w')) as [<-|]; [|by rewrite lookup_insert_ne].
      rewrite lookup_insert_eq, Hw. split; [by intros (? & ? & _) | by intros (y & [= <-] & E & _)].
    - by eapply dom_upd.
    - by eapply armed_upd. }
  apply wp_bind, wp_wmodify. destruct (0 <? dly); [destruct created|]; [|by apply wp_ret; exists P; apply Hnew..].
  apply wp_bind, wp_put_work; [simpl; rewrite lookup_insert_eq; eauto|]. apply wp_ret. exists P. eapply winv_ext; [apply (Hnew true)|..]; try done.
  simpl. by rewrite insert_insert_eq.
Qed.

Lemma wkept_insert s P q w v x : winv s P -> ws_queues s !! q = Some v -> ws_works s !! w = Some x -> wp (work_insert q w) wkept s.
Proof. intros Hi Hv Hx. apply (wp_work_insert q w v x P); [done.. | | |]; unfold wkept; eauto. Qed.

Lemma wkept_run s P q w v x sent : winv s P -> ws_queues s !! q = Some v -> ws_works s !! w = Some x -> (wk_dly x = 0 \/ wk_timer x = true) ->
  wp (krhino_work_run q w sent) wkept s.
Proof.
  intros Hi Hv Hx Ht. unfold krhino_work_run. apply wp_bind, (wp_get_work w x); [done|]. destruct (Z.eqb_spec (wk_dly x) 0); [by eapply wkept_insert|].
  destruct Ht as [?| ->]; [done|]. destruct sent; [|apply wp_ret; by exists P]. apply wp_bind, wp_wmodify, wp_ret. exists P. apply winv_armed; [done|].
  intros w' q'. destruct (decide (w = w')) as [<-|]; [rewrite lookup_insert_eq; intros [= <-]; eauto | rewrite lookup_insert_ne by done; apply Hi].
Qed.

Lemma winv_disarm s P w : winv s P -> winv (set_armed (delete w (ws_armed s)) s) P.
Proof.
  intros Hi. apply winv_armed; [done|]. intros w' q'. destruct (decide (w = w')) as [<-|]; [by rewrite lookup_delete_eq | rewrite lookup_delete_ne by done; apply Hi].
Qed.

Lemma wkept_cancel s P w sent x : winv s P -> ws_works s !! w = Some x -> (wk_dly x = 0 \/ wk_timer x = true) -> wp (krhino_work_cancel w sent) wkept s.
Proof.
  intros Hi Hx Ht. apply (wp_cancel w sent x P); [done.. | | | | |]; unfold wkept; eauto. intros _ _ _. exists P. by apply winv_disarm.
Qed.

(** The semaphore is given: counted, or refused after its deletion. *)
Lemma wkept_give s P q v : winv s P -> q ∈ ws_gives s -> ws_queues s !! q = Some v ->
  wp (modify (fun s => set_gives (remove_one q (ws_gives s)) s) ;;
      match wq_sem v with
      | Some n => put_wq q (mkWq (work_current v) (Some (n + 1))) ;; ret RHINO_SUCCESS
      | None => ret RHINO_KOBJ_TYPE_ERR
      end) wkept s.
Proof.
  intros Hi Hg Hv. pose proof (fun q' => count_of_remove q' (ws_gives s) q Hg) as Hc.
  assert (Hne : forall q', q' <> q -> count_of q' (remove_one q (ws_gives s)) = count_of q' (ws_gives s)).
  { intros q' Hq. specialize (Hc q'). rewrite decide_False in Hc by congruence. lia. }
  assert (Hk : forall v', (forall n, wq_sem v = Some n -> wq_sem v' = Some (n + 1)) ->
    winv (set_gives (remove_one q (ws_gives s)) (set_queues (<[q := v']> (ws_queues s)) s)) P).
  { intros v' Hv'. eapply winv_ext; [apply (winv_queue s P q v v' (ws_phase s q) (remove_one q (ws_gives s)) (ws_dels s))|..]; try done.
    - intros q'. apply elem_of_remove_one.
    - intros Hph. split; [by apply (wi_alive _ _ Hi)|]. destruct (wi_sem _ _ Hi q v Hv Hph) as (n & E & Hn & Hs). exists (n + 1). split_and!; [by apply Hv' | lia|].
      specialize (Hc q). rewrite decide_True in Hc by done. unfold taken in Hs. destruct (ws_phase s q); lia.
    - intros q' d Hd. rewrite phase_id. by apply (wi_dels _ _ Hi).
    - intros q'. cbn. by rewrite phase_id. }
  apply wp_bind, wp_wmodify. destruct (wq_sem v) as [n|] eqn:En.
  - apply wp_bind, wp_put_wq; [eauto|]. apply wp_ret. exists P. apply (Hk (mkWq (work_current v) (Some (n + 1)))). by intros ? [= <-].
  - apply wp_ret. exists P. eapply winv_ext; [by apply (Hk v)|..]; try done. simpl. by rewrite insert_id.
Qed.

Lemma wkept_take s P q v n : winv s P -> ws_queues s !! q = Some v -> ws_phase s q = PWait -> wq_sem v = Some n -> 0 < n ->
  winv (set_phase (<[q := PTaken]> (ws_phase s)) (set_queues (<[q := mkWq (work_current v) (Some (n - 1))]> (ws_queues s)) s)) P.
Proof.
  intros Hi Hv Hph En Hn. destruct (wi_sem _ _ Hi q v Hv) as (m & E & _ & Hs); [congruence|]. rewrite En in E. injection E as <-. unfold taken in Hs. rewrite Hph in Hs.
  eapply winv_ext; [apply (winv_queue s P q v (mkWq (work_current v) (Some (n - 1))) PTaken (ws_gives s) (ws_dels s))|..]; try done.
  - intros _. split; [apply (wi_alive _ _ Hi); congruence|]. exists (n - 1). split_and!; [done | lia..].
  - apply (dels_alive s P); [done | congruence].
Qed.

Lemma wkept_done s P q v : winv s P -> ws_queues s !! q = Some v -> ws_phase s q = PRun ->
  winv (set_phase (<[q := PWait]> (ws_phase s)) (set_queues (<[q := mkWq None (wq_sem v)]> (ws_queues s)) s)) P.
Proof.
  intros Hi Hv Hph. destruct (wi_sem _ _ Hi q v Hv) as (n & E & Hn & Hs); [congruence|]. unfold taken in Hs. rewrite Hph in Hs.
  eapply winv_ext; [apply (winv_queue s P q v (mkWq None (wq_sem v)) PWait (ws_gives s) (ws_dels s))|..]; try done.
  - intros _. split; [apply (wi_alive _ _ Hi); congruence|]. exists n. split_and!; [done | lia..].
  - apply (dels_alive s P); [done | congruence].
Qed.

Lemma may_create_unused s P q : winv s P -> may_create q s = true -> q ∈ ws_reg s \/ unused s P q.
Proof.
  intros Hi. unfold may_create. intros H. destruct (decide (q ∈ ws_reg s)) as [Hr|Hr]; [by left|]. right.
  rewrite (bool_decide_false _ Hr) in H. destruct (ws_queues s !! q) as [v|] eqn:Hv; simpl in H.
  - apply andb_true_iff in H as [[Hl%bool_decide_eq_true Hg%bool_decide_eq_true]%andb_true_iff Hd%bool_decide_eq_true]. split_and!; [done | | done..].
    destruct (wp_run _ _ _ (wp_list_empty q P v (fun b s' => b = bool_decide (P q = []) /\ s' = s) s Hi Hv (conj eq_refl eq_refl))) as (b & s' & Hs & Eb & _).
    unfold is_klist_empty, get_next, bind, gets, lift in Hs. cbn in Hs. rewrite Hl in Hs. injection Hs as <- _. rewrite bool_decide_true in Eb by done.
    by apply eq_sym, bool_decide_eq_true in Eb.
  - split_and!; [done | ..].
    + destruct (P q) as [|w r] eqn:HP; [done|]. exfalso. assert (Hin : w ∈ P q) by (rewrite HP; apply elem_of_cons; by left).
      apply (wi_pend _ _ Hi) in Hin as (x & Hx & _ & Ewq). destruct (wi_dom _ _ Hi w x q Hx Ewq). congruence.
    + intros Hg. destruct (wi_gives _ _ Hi q Hg). congruence.
    + destruct (ws_dels s !! q) as [d|] eqn:E; [|done]. destruct (wi_dels _ _ Hi q d E) as ([? ?] & _). congruence.
Qed.

(** An action of a worker, of a queue that exists. *)
Lemma wkept_on_queue s P q f : winv s P -> (forall v, ws_queues s !! q = Some v -> wp (f v) wkept s) -> wp (on_queue q f) wkept s.
Proof. intros Hi Hf. unfold on_queue. apply wp_bind, wp_gets. cbn [id]. destruct (ws_queues s !! q) as [v|]; [by apply Hf | apply wp_ret; by exists P]. Qed.

Lemma wkept_on_work s P w f : winv s P -> (forall x, ws_works s !! w = Some x -> (wk_dly x = 0 \/ wk_timer x = true) -> wp f wkept s) ->
  wp (on_work w (x <- get_work w ;; if (wk_dly x =? 0) || wk_timer x then f else ret RHINO_NULL_PTR)) wkept s.
Proof.
  intros Hi Hf. assert (Hno : wp (ret RHINO_NULL_PTR) wkept s) by (apply wp_ret; by exists P). unfold on_work. apply wp_bind, wp_gets. cbn [id].
  destruct (ws_works s !! w) as [x|] eqn:Hx; [|exact Hno]. apply wp_bind, (wp_get_work w x); [done|]. destruct (_ || _) eqn:Eo; [|exact Hno].
  apply (Hf x); [done|]. apply orb_true_iff in Eo as [?|?]; [left; lia | by right].
Qed.

Lemma wkept_exec s P act : winv s P -> wp (wexec act) wkept s.
Proof.
  intros Hi. assert (Hno : wp (ret RHINO_NULL_PTR) wkept s) by (apply wp_ret; by exists P).
  assert (Hmono : forall f : W kstat_t, wp f (fun _ s' => winv s' P) s -> wp f wkept s) by (intros f Hf; eapply wp_mono; [exact Hf|]; intros r s' Hi'; by exists P).
  unfold wexec. apply wp_bind, wp_gets. cbn [id].
  destruct act as [w handle arg dly created|q w sent|w sent|w|q|q|q|q|q pri size|q tret|q|q|q|q tret|q|q].
  - destruct (ws_works s !! w) eqn:Hw; [exact Hno | by eapply wkept_init].
  - apply (wkept_on_queue s P); [done|]. intros v Hv. apply (wkept_on_work s P w (krhino_work_run q w sent)); [done|]. intros x Hx Ht. by apply (wkept_run s P q w v x).
  - apply (wkept_on_work s P w (krhino_work_cancel w sent)); [done|]. intros x Hx Ht. by apply (wkept_cancel s P w sent x).
  - destruct (ws_armed s !! w) as [q|] eqn:Ha; [|exact Hno]. destruct (wi_armed _ _ Hi w q Ha) as [[x Hx] [v Hv]].
    apply wp_bind, wp_wmodify, wp_bind. unfold work_timer_cb. apply wp_bind. eapply wp_mono; [by apply (wkept_insert _ P q w v x); [apply winv_disarm|..]|].
    intros r s' Hk. by apply wp_ret, wp_ret.
  - case_bool_decide as Hg; [|exact Hno]. apply (wkept_on_queue s P); [done|]. intros v Hv. by apply (wkept_give s P q v).
  - apply (wkept_on_queue s P); [done|]. intros v Hv. destruct (ws_phase s q) eqn:Hph; try exact Hno. destruct (wq_sem v) as [n|] eqn:En; [|exact Hno].
    destruct (Z.ltb_spec 0 n); [|exact Hno]. apply wp_bind, wp_put_wq; [eauto|]. apply wp_bind, wp_wmodify, wp_ret. exists P. by apply (wkept_take s P q v n).
  - apply (wkept_on_queue s P); [done|]. intros v Hv. destruct (ws_phase s q) eqn:Hph; try exact Hno. apply (wp_pick q v P); [done.. |]. intros w r x l' _ Hi'. by eexists.
  - apply (wkept_on_queue s P); [done|]. intros v Hv. destruct (ws_phase s q) eqn:Hph; try exact Hno.
    unfold worker_clean. apply wp_bind, wp_bind, (wp_get_wq q v); [done|]. apply wp_put_wq; [eauto|]. apply wp_bind, wp_wmodify, wp_ret. exists P. by apply (wkept_done s P q v).
  - destruct (may_create q s) eqn:Em; [|exact Hno]. apply Hmono. eapply wp_mono; [apply wp_create_link; [done | by apply may_create_unused]|]. by intros r s' (_ & Hi' & _).
  - destruct (ws_phase s q) eqn:Hph; try exact Hno. apply Hmono. eapply wp_mono; [by apply wp_create_task|]. by intros r s' (_ & Hi' & _).
  - destruct (ws_dels s !! q) as [[| |]|] eqn:Ed; try exact Hno. apply Hmono. eapply wp_mono; [by apply wp_create_end|]. by intros r s' [Hi' _].
  - apply Hmono, (wp_del_exist q P); [done..|]. intros Hr. by apply winv_test, (wi_reg _ _ Hi).
  - case_bool_decide as Ht; [|exact Hno]. destruct (wi_tests _ _ Hi q _ Ht) as [v Hv]. pose proof (winv_untest s P (q, false) Hi).
    apply Hmono, (wp_del_idle q v P); [done..|]. intros _ _. apply winv_test; [done | by exists v].
  - case_bool_decide as Ht; [|exact Hno]. pose proof (winv_untest s P (q, true) Hi). by apply Hmono, (wp_del_task q tret P).
  - destruct (ws_dels s !! q) as [[| |]|] eqn:Ed; try exact Hno. destruct (wi_dels _ _ Hi q _ Ed) as ([v Hv] & _).
    apply Hmono, (wp_del_sem q v P); [done.. | |done]. intros _. by apply winv_dels_delete.
  - destruct (ws_dels s !! q) as [[| |]|] eqn:Ed; try exact Hno. apply Hmono. eapply wp_mono; [by apply (wp_del_unlink q P)|]. by intros r s' [? _].
Qed.

Lemma wkept_wrun acts : forall s P, winv s P -> wp (wrun acts) (fun _ s' => exists P', winv s' P') s.
Proof.
  induction acts as [|act acts IHa]; intros s P Hi; simpl; [apply wp_ret; eauto|]. apply wp_bind. eapply wp_mono; [by eapply wkept_exec|].
  intros r s' [P' Hi']. apply wp_bind. eapply wp_mono; [by eapply IHa|]. intros rs s2 Hk. by apply wp_ret.
Qed.

(** ** Start *)

Lemma winv_boot l : rings l (<[IH := [WHead]]> (fun _ => [])) -> winv (with_links l wq_boot) (fun _ => []).
Proof.
  intros HG. split; try done.
  - eapply rings_ext; [exact HG|]. intros [q|w|q|]; try by rewrite fn_lookup_insert_ne by done. by rewrite fn_lookup_insert.
  - intros q w. split; [by intros ?%elem_of_nil | by intros (x & Hx & _)].
  - by intros q ?%elem_of_nil.
  - by intros q ?%elem_of_nil.
  - by intros q b ?%elem_of_nil.
Qed.

Lemma wp_workqueue_init tret (Q : unit -> wsys -> Prop) : (forall s, winv s (fun _ => []) -> Q tt s) -> wp (workqueue_init tret) Q wq_boot.
Proof.
  intros HQ. unfold workqueue_init. apply wp_bind, (wp_klist_init (fun _ => []) IH).
  - split; [done | constructor | by intros i j n ?%elem_of_nil].
  - done.
  - intros i. apply not_elem_of_nil.
  - intros l HG. apply winv_boot in HG. apply wp_bind. eapply wp_mono; [apply (wp_create _ _ _ _ _ _ HG); right; split_and!; try done; apply not_elem_of_nil|].
    intros r s (_ & Hi & _). by apply wp_ret, HQ.
Qed.

(** What holds after a schedule. *)
Lemma after_schedule tret acts (Q : wsys -> Prop) : (forall s P, winv s P -> Q s) -> wp (workqueue_init tret ;; wrun acts) (fun _ s => Q s) wq_boot.
Proof.
  intros HQ. apply wp_bind, wp_workqueue_init. intros s Hi. eapply wp_mono; [by eapply wkept_wrun|]. intros _ s' [P Hi']. by apply (HQ s' P).
Qed.

Lemma log_empty s P q : winv s P -> of_queue q (ws_accepted s) = of_queue q (ws_ran s) <-> P q = [].
Proof.
  intros Hi. rewrite (wi_log _ _ Hi q). split; [|intros ->; by rewrite app_nil_r]. intros E. apply (app_inv_head (of_queue q (ws_ran s))). by rewrite E, app_nil_r.
Qed.

(** The worker gets the semaphore and takes the first work. *)
Lemma wp_take_pick s P q v w r : winv s P -> ws_queues s !! q = Some v -> ws_phase s q = PWait -> q ∉ ws_gives s -> P q = w :: r ->
  wp (wrun [WTake q; WPick q]) (fun rs s' => rs = [RHINO_SUCCESS; RHINO_SUCCESS] /\ ws_ran s' = ws_ran s ++ [(q, w)]) s.
Proof.
  intros Hi Hv Hph Hg HP. destruct (wi_sem _ _ Hi q v Hv) as (n & En & Hn & Hs); [congruence|]. unfold taken in Hs. rewrite Hph, HP, count_of_none in Hs by done.
  simpl in Hs. assert (Hpos : 0 < n) by lia. pose proof (wkept_take s P q v n Hi Hv Hph En Hpos) as Hi1. set (v' := mkWq (work_current v) (Some (n - 1))) in *.
  set (s1 := set_phase _ _) in Hi1.
  cbn [wrun]. apply wp_bind. cbn [wexec]. apply wp_bind, wp_gets. unfold on_queue. apply wp_bind, wp_gets. cbn [id]. rewrite Hv, Hph, En.
  rewrite (proj2 (Z.ltb_lt 0 n)) by done. apply wp_bind, wp_put_wq; [eauto|]. apply wp_bind, wp_wmodify, wp_ret. fold v'.
  change (set_phase _ _) with s1. apply wp_bind, wp_bind, wp_bind, wp_gets, wp_bind, wp_gets. cbn [id].
  replace (ws_queues s1 !! q) with (Some v') by (symmetry; apply lookup_insert_eq). replace (ws_phase s1 q) with PTaken by (symmetry; apply fn_lookup_insert).
  apply (wp_pick q v' P); [done | apply lookup_insert_eq | apply fn_lookup_insert|]. intros w' r' x l' HP' _. rewrite HP in HP'. injection HP' as <- <-.
  by apply wp_bind, wp_ret, wp_ret, wp_ret.
Qed.

(** ** A queue without worker runs nothing *)

Definition quiet {A} (q : nat) (f : W A) : Prop := forall s a s', f s = Some (a, s') -> ws_phase s q = PGone ->
  ws_phase s' q = PGone /\ of_queue q (ws_ran s') = of_queue q (ws_ran s).

Lemma quiet_ret {A} q (a : A) : quiet q (ret a).
Proof. by intros s b s' [= _ <-]. Qed.
Lemma quiet_fault {A} q : quiet q (@fault wsys A).
Proof. by intros s b s'. Qed.
Lemma quiet_gets {A} q (f : wsys -> A) : quiet q (gets f).
Proof. by intros s b s' [= _ <-]. Qed.
Lemma quiet_lift {A} q (o : option A) : quiet q (@lift wsys A o).
Proof. destruct o; [apply quiet_ret | apply quiet_fault]. Qed.
Lemma quiet_bind {A B} q (f : W A) (k : A -> W B) : quiet q f -> (forall a, quiet q (k a)) -> quiet q (bind f k).
Proof.
  intros Hf Hk s b s'. unfold bind. destruct (f s) as [[a s1]|] eqn:E; [|done]. intros E' Hp. destruct (Hf _ _ _ E Hp) as [Hp1 <-]. by eapply Hk.
Qed.
Lemma quiet_modify q (f : wsys -> wsys) : (forall s, ws_phase (f s) = ws_phase s /\ ws_ran (f s) = ws_ran s) -> quiet q (modify f).
Proof. intros Hf s b s' [= _ <-] Hp. destruct (Hf s) as [-> ->]. done. Qed.
Lemma quiet_goto q q' ph : q' <> q \/ ph = PGone -> quiet q (goto q' ph).
Proof.
  intros Hq s b s' [= _ <-] Hp. split; [|done]. simpl. destruct (decide (q' = q)) as [->|]; [|by rewrite fn_lookup_insert_ne].
  rewrite fn_lookup_insert. by destruct Hq.
Qed.
Lemma quiet_ran q q' w : q' <> q -> quiet q (modify (fun s => set_ran (ws_ran s ++ [(q', w)]) s)).
Proof. intros Hq s b s' [= _ <-] Hp. split; [done|]. simpl. by rewrite of_queue_snoc, decide_False, app_nil_r. Qed.

Create HintDb quiet.
#[local] Hint Resolve quiet_ret quiet_fault quiet_gets quiet_lift quiet_goto quiet_ran : quiet.
Ltac quiet_tac :=
  repeat first [ solve [auto with quiet] | apply quiet_bind; [|intros ?] | (apply quiet_modify; intros ?; split; reflexivity)
               | match goal with |- quiet _ (match ?x with _ => _ end) => destruct x end
               | match goal with |- quiet _ (when ?b _) => destruct b; unfold when end ].

Lemma quiet_links q : (forall n, quiet q (klist_rm_init n)) /\ (forall h n, quiet q (klist_insert h n)) /\ (forall n, quiet q (klist_init n)) /\
  (forall n, quiet q (is_klist_empty n)) /\ forall n, quiet q (get_next n).
Proof.
  unfold klist_rm_init, klist_rm, klist_insert, klist_init, is_klist_empty, get_next, get_prev, put_next, put_prev, put_links. split_and!; intros; quiet_tac.
Qed.

Lemma quiet_scan q q' fuel : forall n, quiet q (klist_scan fuel (fun n => ret (bool_decide (n = WqNode q'))) n WHead).
Proof. destruct (quiet_links q) as (_ & _ & _ & _ & Hn). induction fuel as [|fuel IHf]; intros n; simpl; quiet_tac. Qed.

Lemma quiet_exist q q' : quiet q (workqueue_is_exist q').
Proof. destruct (quiet_links q) as (_ & _ & _ & _ & Hn). pose proof (quiet_scan q q'). unfold workqueue_is_exist, list_fuel. quiet_tac. Qed.

(** Only [krhino_workqueue_create] makes a worker. *)
Definition creates (q : nat) (act : wact) : bool := match act with WCreate q' _ _ => bool_decide (q' = q) | _ => false end.

(** Actions of a worker or of a call that creates the queue. *)
Lemma quiet_own q act : act = WTake q \/ act = WPick q \/ act = WDone q \/ (exists tret, act = WCreateTask q tret) -> quiet q (wexec act).
Proof.
  intros Ha s a s' E Hp. destruct Ha as [->|[->|[->|[tret ->]]]]; unfold wexec, on_queue, bind, gets in E; cbn in E; try destruct (ws_queues s !! q);
    rewrite ?Hp in E; by injection E as _ <-.
Qed.

Lemma quiet_exec q act : creates q act = false -> quiet q (wexec act).
Proof.
  intros Hc. destruct (quiet_links q) as (H1 & H2 & H3 & H4 & H5). pose proof (quiet_exist q). pose proof (quiet_own q) as Hsame.
  destruct act as [w handle arg dly created|q' w sent|w sent|w|q'|q'|q'|q'|q' pri size|q' tret|q'|q'|q'|q' tret|q'|q'].
  all: try (unfold wexec, on_queue, on_work, krhino_work_init, krhino_work_run, work_timer_cb, work_insert, krhino_work_cancel, worker_pick, worker_clean,
    workqueue_create_link, workqueue_create_end, workqueue_del_exist, workqueue_del_idle, workqueue_del_task, workqueue_del_sem, workqueue_del_unlink, wq_link, wq_unlink,
    get_work, put_work, get_wq, put_wq, work_of, get_work, get_wq; quiet_tac; fail).
  all: try (destruct (decide (q' = q)) as [->|Hq']; [solve [eauto 6]|]).
  all: try (simpl in Hc; apply bool_decide_eq_false in Hc).
  all: unfold wexec, on_queue, worker_pick, worker_clean, workqueue_create_link, workqueue_create_task, wq_link, wq_unlink, get_work, put_work, get_wq, put_wq, work_of, get_work, get_wq;
    quiet_tac.
Qed.

Lemma quiet_wrun q acts : Forall (fun act => creates q act = false) acts -> quiet q (wrun acts).
Proof. induction 1; simpl; [apply quiet_ret|]. pose proof quiet_exec. quiet_tac. Qed.

Lemma step_kept s P act r s' : winv s P -> wexec act s = Some (r, s') -> exists P', winv s' P'.
Proof. intros Hi E. destruct (wp_run _ _ _ (wkept_exec s P act Hi)) as (? & ? & E' & Hk). rewrite E in E'. injection E' as <- <-. exact Hk. Qed.

(** ** Deletion without interruption *)

Lemma remove_one_cons {A} `{EqDecision A} (x : A) l : remove_one x (x :: l) = l.
Proof. change (remove_one x (x :: l)) with (if bool_decide (x = x) then l else x :: remove_one x l). by rewrite bool_decide_true. Qed.

Lemma untested_test q b s : untested q b (set_tests ((q, b) :: ws_tests s) s) = s.
Proof. unfold untested. cbn [ws_tests set_tests]. rewrite remove_one_cons. by destruct s. Qed.

(** What [krhino_workqueue_del] returns when the queues [O] exist, the list of the
    queue is empty or not, and its worker is in phase [ph]. *)
Definition del_result (O : list nat) (q : nat) (v : kworkqueue_t) (empty : bool) (ph : wphase) (tret : kstat_t) : kstat_t :=
  if decide (q ∈ O) then
    if empty && bool_decide (work_current v = None) then
      if negb (bool_decide (tret = RHINO_SUCCESS)) then tret else if worker_exists ph then RHINO_SUCCESS else RHINO_INV_TASK_STATE
    else RHINO_WORKQUEUE_BUSY
  else RHINO_WORKQUEUE_NOT_EXIST.

Definition del_post s P (q : nat) (v : kworkqueue_t) (tret : kstat_t) (r : kstat_t) (s' : wsys) : Prop :=
  r = del_result (ws_reg s) q v (bool_decide (P q = [])) (ws_phase s q) tret /\ (r <> RHINO_SUCCESS -> s' = s) /\
  (r = RHINO_SUCCESS -> winv s' P /\ ws_reg s' = remove_one q (ws_reg s) /\ ws_phase s' q = PGone /\
     ws_queues s' !! q = Some (mkWq None None) /\ ws_works s' = ws_works s).

Lemma wp_workqueue_del q tret v P s : winv s P -> ws_queues s !! q = Some v -> wp (krhino_workqueue_del q tret) (del_post s P q v tret) s.
Proof.
  intros Hi Hv. unfold krhino_workqueue_del, del_post, del_result. apply wp_bind, (wp_del_exist q P); [done | |]; intros Hr.
  { simpl. apply wp_ret. by rewrite decide_False. }
  rewrite decide_True by done. simpl. assert (Hi1 : winv (set_tests ((q, false) :: ws_tests s) s) P) by (apply winv_test; [done | by exists v]).
  apply wp_bind, (wp_del_idle q v P); [done | done | |]; rewrite untested_test.
  { intros Hb. simpl. apply wp_ret. replace (bool_decide (P q = []) && bool_decide (work_current v = None)) with false; [done|].
    symmetry. apply andb_false_iff. rewrite !bool_decide_eq_false. tauto. }
  intros HP Hc. rewrite !bool_decide_true by done. simpl. assert (Hi2 : winv (set_tests ((q, true) :: ws_tests s) s) P) by (apply winv_test; [done | by exists v]).
  apply wp_bind, (wp_del_task q tret P); [done | ..]; rewrite untested_test.
  - intros Ht. rewrite bool_decide_false by done. by apply wp_ret.
  - intros -> Hw. cbn in Hw. simpl. rewrite Hw. by apply wp_ret.
  - intros -> Hw Hi3. cbn in Hw. simpl. rewrite Hw. destruct (wi_sem _ _ Hi q v Hv) as (n & En & _); [intros E; by rewrite E in Hw|].
    apply wp_bind, (wp_del_sem q v P); [done | apply lookup_insert_eq | done | congruence|]. intros _ Hi4. simpl.
    eapply wp_mono; [apply (wp_del_unlink q P); [done | apply lookup_insert_eq]|]. intros r s' (Hi5 & -> & Hreg & Hph & _ & _ & Hqs & Hws).
    split_and!; [done | done|]. intros _. rewrite Hph, Hqs, Hws. split_and!; [done | done | apply fn_lookup_insert | | done].
    simpl. by rewrite lookup_insert_eq, Hc.
Qed.

(** A deletion, with a work submitted after the test that the queue is idle. *)
Definition del_race (q w : nat) : list wact := [WDel q; WDelIdle q; WRun q w true; WDelTask q RHINO_SUCCESS; WGive q; WDelSem q; WDelEnd q].

Lemma run_del_task q s : (q, true) ∈ ws_tests s -> worker_exists (ws_phase s q) = true -> wexec (WDelTask q RHINO_SUCCESS) s =
  Some (RHINO_SUCCESS, worker_gone q (untested q true s)).
Proof. intros Ht Hw. unfold wexec, workqueue_del_task, bind, gets. cbn. rewrite !bool_decide_true by done. cbn [negb ws_phase set_tests]. by rewrite Hw. Qed.

Lemma run_give q v n s : q ∈ ws_gives s -> ws_queues s !! q = Some v -> wq_sem v = Some n -> wexec (WGive q) s =
  Some (RHINO_SUCCESS, set_queues (<[q := mkWq (work_current v) (Some (n + 1))]> (ws_queues s)) (set_gives (remove_one q (ws_gives s)) s)).
Proof.
  intros Hg Hv En. unfold wexec, on_queue, put_wq, get_wq, bind, gets, lift. cbn. rewrite bool_decide_true by done. cbn. rewrite Hv, En. cbn. by rewrite Hv.
Qed.

Lemma run_del_sem q v n s : ws_dels s !! q = Some DTask -> ws_queues s !! q = Some v -> wq_sem v = Some n -> wexec (WDelSem q) s =
  Some (RHINO_SUCCESS, sem_gone q v s).
Proof. intros Hd Hv En. unfold wexec, workqueue_del_sem, put_wq, get_wq, bind, gets, lift. cbn. rewrite Hd. cbn. rewrite Hv. cbn. rewrite En. cbn. by rewrite Hv. Qed.

(** The tests succeed. *)
Lemma run_del_tests s P q v : winv s P -> q ∈ ws_reg s -> ws_queues s !! q = Some v -> work_current v = None -> P q = [] ->
  wrun [WDel q; WDelIdle q] s = Some ([RHINO_SUCCESS; RHINO_SUCCESS], set_tests ((q, true) :: ws_tests s) s).
Proof.
  intros Hi Hr Hv Hcur HP. enough (wp (wrun [WDel q; WDelIdle q]) (fun r s' => r = [RHINO_SUCCESS; RHINO_SUCCESS] /\ s' = set_tests ((q, true) :: ws_tests s) s) s)
    as (? & ? & E & -> & ->)%wp_run by exact E.
  cbn [wrun]. apply wp_bind. unfold wexec at 1. apply wp_bind, wp_gets, (wp_del_exist q P); [done..|]. intros _. apply wp_bind, wp_bind. unfold wexec. apply wp_bind, wp_gets.
  cbn [id]. rewrite bool_decide_true by (apply elem_of_cons; by left).
  apply (wp_del_idle q v P); [apply winv_test; [done | by exists v] | done | by intros [?|?]|]. intros _ _. rewrite untested_test. by apply wp_bind, wp_ret, wp_ret, wp_ret.
Qed.

(** A work is accepted. *)
Lemma run_insert s P q v w x : winv s P -> ws_queues s !! q = Some v -> work_current v = None -> ws_works s !! w = Some x -> wk_dly x = 0 -> queued x = false ->
  exists s2, wexec (WRun q w true) s = Some (RHINO_SUCCESS, s2) /\ (exists P', winv s2 P') /\ ws_tests s2 = ws_tests s /\ ws_phase s2 = ws_phase s /\
    ws_queues s2 = ws_queues s /\ q ∈ ws_gives s2 /\ ws_accepted s2 = ws_accepted s ++ [(q, w)] /\ ws_ran s2 = ws_ran s.
Proof.
  intros Hi Hv Hcur Hx Hdly Hq.
  assert (E2 : wp (wexec (WRun q w true)) (fun r s' => r = RHINO_SUCCESS /\ exists l', s' = inserted s l' q w x /\ winv s' (<[q := P q ++ [w]]> P)) s).
  { unfold wexec, on_queue, on_work. apply wp_bind, wp_gets, wp_bind, wp_gets. cbn [id]. rewrite Hv.
    apply wp_bind, wp_gets. cbn [id]. rewrite Hx. apply wp_bind, (wp_get_work w x); [done|].
    rewrite (proj2 (Z.eqb_eq _ _) Hdly). simpl. unfold krhino_work_run. apply wp_bind, (wp_get_work w x); [done|]. rewrite (proj2 (Z.eqb_eq _ _) Hdly).
    apply (wp_work_insert q w v x P); try done; [congruence | congruence|]. eauto. }
  destruct (wp_run _ _ _ E2) as (? & s2 & Hs2 & -> & l' & -> & Hi2). exists (inserted s l' q w x). split_and!; try done; [eauto|].
  apply elem_of_app. right. by apply list_elem_of_singleton.
Qed.

Lemma del_race_runs s P q v w x : winv s P -> ws_phase s q = PWait -> ws_queues s !! q = Some v -> work_current v = None -> P q = [] ->
  ws_works s !! w = Some x -> wk_dly x = 0 -> queued x = false ->
  exists s', wrun (del_race q w) s = Some (repeat RHINO_SUCCESS 7, s') /\ (exists P', winv s' P') /\ ws_phase s' q = PGone /\
    ws_accepted s' = ws_accepted s ++ [(q, w)] /\ ws_ran s' = ws_ran s.
Proof.
  intros Hi Hph Hv Hcur HP Hx Hdly Hq. assert (Hr : q ∈ ws_reg s) by (apply (wi_alive _ _ Hi); congruence).
  destruct (wi_sem _ _ Hi q v Hv) as (n & En & _); [congruence|].
  pose proof (run_del_tests s P q v Hi Hr Hv Hcur HP) as E1. set (s1 := set_tests _ s) in E1.
  assert (Hi1 : winv s1 P) by (apply winv_test; [done | by exists v]).
  destruct (run_insert s1 P q v w x) as (s2 & E2 & [P2 Hi2] & Ht2 & Hp2 & Hq2 & Hg2 & Ha2 & Hr2); try done.
  assert (E3 : wexec (WDelTask q RHINO_SUCCESS) s2 = Some (RHINO_SUCCESS, worker_gone q (untested q true s2))).
  { apply run_del_task; [rewrite Ht2; apply elem_of_cons; by left | rewrite Hp2; cbn; by rewrite Hph]. }
  set (s3 := worker_gone _ _) in E3. destruct (step_kept _ _ _ _ _ Hi2 E3) as [P3 Hi3].
  assert (Hv3 : ws_queues s3 !! q = Some v) by (change (ws_queues s2 !! q = Some v); by rewrite Hq2).
  pose proof (run_give q v n s3 Hg2 Hv3 En) as E4. set (s4 := set_queues _ _) in E4. destruct (step_kept _ _ _ _ _ Hi3 E4) as [P4 Hi4].
  pose proof (run_del_sem q (mkWq (work_current v) (Some (n + 1))) (n + 1) s4 (lookup_insert_eq _ _ _) (lookup_insert_eq _ _ _) eq_refl) as E5.
  set (s5 := sem_gone _ _ _) in E5. destruct (step_kept _ _ _ _ _ Hi4 E5) as [P5 Hi5].
  destruct (wp_run _ _ _ (wp_del_unlink q P5 s5 Hi5 (lookup_insert_eq _ _ _))) as (? & s6 & E6 & Hi6 & -> & _ & Hp & Ha & Hn & _).
  assert (E6' : wexec (WDelEnd q) s5 = Some (RHINO_SUCCESS, s6)).
  { unfold wexec, bind, gets. cbn. rewrite lookup_insert_eq. exact E6. }
  exists s6. split_and!; [|by eauto| | by rewrite Ha | by rewrite Hn].
  - unfold del_race. unfold bind in *. cbn [wrun] in *. unfold bind in *. destruct (wexec (WDel q) s) as [[r0 s0]|]; [|done].
    destruct (wexec (WDelIdle q) s0) as [[r1 s01]|]; [|done]. cbn in E1. injection E1 as -> -> ->. rewrite E2, E3, E4, E5, E6'. done.
  - rewrite Hp. apply fn_lookup_insert.
Qed.
End Exec.
