(* ===== verification/SpecWq.v ===== *)
(** * Work queues: what they promise *)

From S2P Require Import Prelude.
From S2P Require Import Monad.
From S2P Require Import Links.
From S2P Require Import KState.
From S2P Require Import WorkQueue.
From S2P Require Import WqInv.
From S2P Require Import WqExec.

(** ** Claims *)

(** C24: Every work that a queue accepts is run by its worker at most once, in
    the order of acceptance, however the tasks, timers and workers interleave
    and queues are created and deleted: at any time the works accepted by a queue
    are those its worker has started, in the same order, followed by those in its
    list in memory; and these are the works that are marked as queued there.  No
    step faults: a worker that got the semaphore always finds a work in the
    list. *)
Theorem works_run_once (tret : kstat_t) (acts : list wact) :
  wp (workqueue_init tret ;; wrun acts) (fun _ s => forall q, is_Some (ws_queues s !! q) -> exists P,
    of_queue q (ws_accepted s) = of_queue q (ws_ran s) ++ P /\
    ring (ws_links s) ((WNode <$> P) ++ [WList q]) /\ NoDup P /\
    forall w, w ∈ P <-> exists x, ws_works s !! w = Some x /\ wk_exit x = 1 /\ wk_wq x = Some q) wq_boot.
Proof.
  apply after_schedule. intros s P Hi q [v Hv]. exists (P q). split; [apply Hi|]. split.
  { pose proof (rings_ring _ _ (wi_rings _ _ Hi) (IQ q)) as Hr. unfold wrings in Hr. by rewrite Hv in Hr. }
  split; [by eapply pend_nodup | apply Hi].
Qed.

(** C25: No accepted work is left behind by a queue that has its worker: when a
    worker waits although works are in its list, and every [krhino_sem_give] that
    belongs to them was made, the count of the semaphore is positive, so the
    worker goes on and runs the first of them. *)
Theorem works_not_lost (tret : kstat_t) (acts : list wact) :
  wp (workqueue_init tret ;; wrun acts) (fun _ s => forall q w r, is_Some (ws_queues s !! q) -> ws_phase s q = PWait -> q ∉ ws_gives s ->
    of_queue q (ws_accepted s) = of_queue q (ws_ran s) ++ w :: r ->
    exists s', wrun [WTake q; WPick q] s = Some ([RHINO_SUCCESS; RHINO_SUCCESS], s') /\ ws_ran s' = ws_ran s ++ [(q, w)]) wq_boot.
Proof.
  apply after_schedule. intros s P Hi q w r [v Hv] Hph Hg Hlog.
  rewrite (wi_log _ _ Hi q) in Hlog. apply app_inv_head in Hlog.
  destruct (wp_run _ _ _ (wp_take_pick s P q v w r Hi Hv Hph Hg Hlog)) as (rs & s' & Hs & -> & E). eauto.
Qed.

(** [krhino_work_cancel] cannot take back a work.  A queued work stays
    queued (RHINO_WORKQUEUE_WORK_EXIST); and a delayed work that was queued
    before is not stopped: the call succeeds, but the timer stays armed. *)
Theorem cancel_keeps_work (tret : kstat_t) (acts : list wact) :
  wp (workqueue_init tret ;; wrun acts) (fun _ s => forall w sent x q v, ws_works s !! w = Some x -> (wk_dly x = 0 \/ wk_timer x = true) ->
    wk_wq x = Some q -> ws_queues s !! q = Some v -> work_current v <> Some w ->
    if wk_exit x =? 1 then krhino_work_cancel w sent s = Some (RHINO_WORKQUEUE_WORK_EXIST, s)
    else exists s', krhino_work_cancel w sent s = Some (RHINO_SUCCESS, s') /\ ws_armed s' = ws_armed s) wq_boot.
Proof.
  apply after_schedule. intros s P Hi w sent x q v Hx Ht Ewq Hv Hcur.
  destruct (wp_run (krhino_work_cancel w sent) (fun r s' => if queued x then r = RHINO_WORKQUEUE_WORK_EXIST /\ s' = s
    else r = RHINO_SUCCESS /\ ws_armed s' = ws_armed s) s) as (r & s' & Hs & Hr).
  - apply (wp_cancel w sent x P); [done | done | done | congruence | congruence | ..].
    + intros q' v' Eq' Hv' Hc. rewrite Ewq in Eq'. injection Eq' as <-. congruence.
    + intros q' _ Eq'. by rewrite Eq'.
    + intros q' l' _ Eq' _. by rewrite Eq'.
  - unfold queued in Hr. destruct (wk_exit x =? 1); destruct Hr as [-> ?]; [by subst | eauto].
Qed.

(** C26: The list of all queues in memory holds each existing queue once, and every
    worker belongs to a queue in it, after every schedule in which creations and
    deletions (several of one queue, too) are interrupted between their critical
    sections.  From there, [krhino_workqueue_create] run on memory that is free to
    be used fails for a wrong priority or stack, for a queue that exists and when
    the worker cannot be created, without a trace in the list, and otherwise
    appends the queue, whose worker then waits.  [krhino_workqueue_del] refuses
    queues that do not exist and those with a pending or running work, and those
    whose worker [krhino_task_del] refuses to delete or is deleted already by
    another call; then nothing at all is changed.  Otherwise it succeeds: the
    worker is gone, the semaphore is deleted and the queue, and no other, is out of
    the list. *)
Theorem workqueue_lifecycle (tret : kstat_t) (acts : list wact) :
  wp (workqueue_init tret ;; wrun acts) (fun _ s => exists O,
    ring (ws_links s) ((WqNode <$> O) ++ [WHead]) /\ NoDup O /\ (forall q, ws_phase s q <> PGone -> q ∈ O) /\
    (forall q pri size t, may_create q s = true -> exists r s', krhino_workqueue_create q pri size t s = Some (r, s') /\
       r = create_result O q pri size t /\ ring (ws_links s') ((WqNode <$> if bool_decide (r = RHINO_SUCCESS) then O ++ [q] else O) ++ [WHead]) /\
       (r = RHINO_SUCCESS -> ws_phase s' q = PWait)) /\
    (forall q v t, ws_queues s !! q = Some v -> exists r s', krhino_workqueue_del q t s = Some (r, s') /\
       r = del_result O q v (bool_decide (of_queue q (ws_accepted s) = of_queue q (ws_ran s))) (ws_phase s q) t /\
       (r <> RHINO_SUCCESS -> s' = s) /\
       (r = RHINO_SUCCESS -> ring (ws_links s') ((WqNode <$> remove_one q O) ++ [WHead]) /\ ws_phase s' q = PGone /\
          ws_queues s' !! q = Some (mkWq None None) /\ ws_works s' = ws_works s))) wq_boot.
Proof.
  apply after_schedule. intros s P Hi. exists (ws_reg s). split_and!; [by apply (rings_ring _ _ (wi_rings _ _ Hi) IH) | by eapply reg_nodup | apply Hi | |].
  - intros q pri size t Hm. destruct (wp_run _ _ _ (wp_create q pri size t P s Hi (may_create_unused s P q Hi Hm))) as (r & s' & Hs & Hr & Hi' & Hreg & Hph).
    exists r, s'. split_and!; [done | done | | done]. rewrite <- Hreg. apply (rings_ring _ _ (wi_rings _ _ Hi') IH).
  - intros q v t Hv. rewrite (bool_decide_ext _ (P q = [])) by by apply log_empty.
    destruct (wp_run _ _ _ (wp_workqueue_del q t v P s Hi Hv)) as (r & s' & Hs & Hr & Hno & Hyes). exists r, s'. split_and!; [done.. |].
    intros E. destruct (Hyes E) as (Hi' & Hreg & ? & ? & ?). split_and!; [|done..]. rewrite <- Hreg. apply (rings_ring _ _ (wi_rings _ _ Hi') IH).
Qed.

(** C39: Deleting a queue can lose works.  [krhino_workqueue_del] tests that the
    queue is idle and only then deletes the worker: in every state where the test
    succeeds and a work is submitted before the worker is deleted, every call
    reports success, the work is accepted, and it is not run by any later
    schedule that does not create the queue anew. *)
Theorem delete_loses_work (tret : kstat_t) (acts : list wact) :
  wp (workqueue_init tret ;; wrun acts) (fun _ s => forall q v w x, ws_phase s q = PWait ->
    ws_queues s !! q = Some v -> work_current v = None -> of_queue q (ws_accepted s) = of_queue q (ws_ran s) ->
    ws_works s !! w = Some x -> wk_dly x = 0 -> wk_exit x <> 1 ->
    exists s', wrun (del_race q w) s = Some (repeat RHINO_SUCCESS 7, s') /\ of_queue q (ws_accepted s') = of_queue q (ws_ran s') ++ [w] /\
      forall acts', Forall (fun act => creates q act = false) acts' -> wp (wrun acts') (fun _ s'' => of_queue q (ws_ran s'') = of_queue q (ws_ran s')) s') wq_boot.
Proof.
  apply after_schedule. intros s P Hi q v w x Hph Hv Hcur Hlog Hx Hdly He.
  assert (HP : P q = []) by by apply (log_empty s P).
  assert (Hq : queued x = false) by (unfold queued; lia).
  destruct (del_race_runs s P q v w x) as (s' & Hs & [P' Hi'] & Hp & Ha & Hr); try done. exists s'. split_and!; [done | |].
  - rewrite Ha, Hr, of_queue_snoc, decide_True by done. by rewrite Hlog.
  - intros acts' Hc. destruct (wp_run _ _ _ (wkept_wrun acts' s' P' Hi')) as (rs & s'' & E & _). eapply run_wp; [exact E|]. by apply (quiet_wrun q acts' Hc s' rs s'').
Qed.

(** ** Examples *)

(** Two works of queue 0, one of them with a delay; the delayed one is armed
    again and cancelled, and still runs. *)
Definition wq_demo : list wact :=
  [WInit 1 10 0 0 true; WInit 2 20 0 5 true; WRun 0 1 true; WRun 0 1 true; WRun 0 2 true; WGive 0; WFire 2; WGive 0;
   WTake 0; WPick 0; WRun 0 1 true; WDone 0; WTake 0; WPick 0; WDone 0; WRun 0 2 true; WCancel 2 true; WFire 2; WGive 0; WTake 0; WPick 0].

Example wq_demo_runs : exists s, (workqueue_init RHINO_SUCCESS ;; wrun wq_demo) wq_boot =
  Some ([RHINO_SUCCESS; RHINO_SUCCESS; RHINO_SUCCESS; RHINO_WORKQUEUE_WORK_EXIST; RHINO_SUCCESS; RHINO_SUCCESS; RHINO_SUCCESS; RHINO_SUCCESS;
         RHINO_SUCCESS; RHINO_SUCCESS; RHINO_WORKQUEUE_WORK_RUNNING; RHINO_SUCCESS; RHINO_SUCCESS; RHINO_SUCCESS; RHINO_SUCCESS; RHINO_SUCCESS;
         RHINO_SUCCESS; RHINO_SUCCESS; RHINO_SUCCESS; RHINO_SUCCESS; RHINO_SUCCESS], s) /\ of_queue 0 (ws_ran s) = [1; 2; 2]%nat.
Proof. eexists. split; vm_compute; reflexivity. Qed.

(** A queue is created, runs a work and is deleted by two calls at once, of which
    one is refused; a third deletion and a creation with a wrong priority are
    refused; so is a work submitted while a creation fails. *)
Example wq_create_delete : exists s, (workqueue_init RHINO_SUCCESS ;; wrun
    [WCreate 3 20 100; WCreateTask 3 RHINO_SUCCESS; WCreate 3 20 100; WInit 1 10 0 0 true; WRun 3 1 true; WDel 3; WDelIdle 3; WGive 3; WTake 3; WPick 3; WDone 3;
     WDel 3; WDelIdle 3; WDel 3; WDelIdle 3; WDelTask 3 RHINO_SUCCESS; WDelTask 3 RHINO_SUCCESS; WDelSem 3; WDelEnd 3; WDel 3; WCreate 3 62 100;
     WCreate 4 20 100; WRun 4 1 true; WCreateTask 4 RHINO_NO_MEM; WCreateEnd 4; WGive 4]) wq_boot =
  Some ([RHINO_SUCCESS; RHINO_SUCCESS; RHINO_WORKQUEUE_EXIST; RHINO_SUCCESS; RHINO_SUCCESS; RHINO_SUCCESS; RHINO_WORKQUEUE_BUSY; RHINO_SUCCESS; RHINO_SUCCESS; RHINO_SUCCESS;
         RHINO_SUCCESS; RHINO_SUCCESS; RHINO_SUCCESS; RHINO_SUCCESS; RHINO_SUCCESS; RHINO_SUCCESS; RHINO_INV_TASK_STATE; RHINO_SUCCESS; RHINO_SUCCESS; RHINO_WORKQUEUE_NOT_EXIST;
         RHINO_BEYOND_MAX_PRI; RHINO_SUCCESS; RHINO_SUCCESS; RHINO_NO_MEM; RHINO_SUCCESS; RHINO_KOBJ_TYPE_ERR], s).
Proof. eexists. vm_compute. reflexivity. Qed.

(** When the queue of the timer task is full, a cancelled work runs all the
    same although the call reported success. *)
Example cancel_unsent : exists s, (workqueue_init RHINO_SUCCESS ;; wrun
    [WInit 2 20 0 5 true; WRun 0 2 true; WCancel 2 false; WFire 2; WGive 0; WTake 0; WPick 0]) wq_boot = Some (repeat RHINO_SUCCESS 7, s) /\
  of_queue 0 (ws_ran s) = [2%nat].
Proof. eexists. split; vm_compute; reflexivity. Qed.
