(* ===== verification/MmHeap.v ===== *)
(** * The heap (csi/libs/mm, kernel/misc/malloc.c)

    The memory is a map from word addresses to 32-bit words; an access outside
    it is a fault.  A chunk has a header of two words, its size and the size of
    the preceding chunk, whose bit 31 says whether the chunk is allocated; a
    free chunk has two more words, the links of the list of free chunks.  The
    list runs through the array [mm_nodelist] of the heap, whose entries have
    the layout of free chunks of size 0.  The configuration is that of the
    chip: four-byte sizes, one region, no error detection.  [malloc] and
    [free] mask interrupts, so that the functions run one at a time. *)

From S2P Require Import Prelude.
From S2P Require Import Monad.

(** ** Layout *)

Definition MM_MIN_SHIFT : Z := 4.
Definition MM_MAX_SHIFT : Z := 22.
Definition MM_MIN_CHUNK : Z := Z.shiftl 1 MM_MIN_SHIFT.
Definition MM_MAX_CHUNK : Z := Z.shiftl 1 MM_MAX_SHIFT.
Definition MM_NNODES : Z := MM_MAX_SHIFT - MM_MIN_SHIFT + 1.
Definition MM_GRAN_MASK : Z := MM_MIN_CHUNK - 1.
Definition MM_ALIGN_UP (a : Z) : Z := Z.land (u32 (a + MM_GRAN_MASK)) (u32 (Z.lnot MM_GRAN_MASK)).
Definition MM_ALIGN_DOWN (a : Z) : Z := Z.land a (u32 (Z.lnot MM_GRAN_MASK)).
Definition MM_ALLOC_BIT : Z := 0x80000000.
Definition SIZEOF_MM_ALLOCNODE : Z := 8.
Definition SIZEOF_MM_FREENODE : Z := SIZEOF_MM_ALLOCNODE + 2 * 4.

(** The addresses of the fields of a [struct mm_freenode_s]. *)
Definition n_size (node : Z) : Z := node.
Definition n_preceding (node : Z) : Z := node + 4.
Definition n_flink (node : Z) : Z := node + 8.
Definition n_blink (node : Z) : Z := node + 12.

(** [mm_nodelist] is the address of the array. *)
Record mm_heap_s := mkHeap {
  mm_mem : gmap Z Z;
  mm_nodelist : Z;
  mm_heapsize : Z;
  mm_heapstart : Z;
  mm_heapend : Z;
  g_max_used_size : Z;
}.

Definition set_mem (m : gmap Z Z) (s : mm_heap_s) : mm_heap_s :=
  mkHeap m (mm_nodelist s) (mm_heapsize s) (mm_heapstart s) (mm_heapend s) (g_max_used_size s).

Abbreviation HM := (st mm_heap_s).

Definition ld (a : Z) : HM Z := m <- gets mm_mem ;; lift (m !! a).
Definition sto (a v : Z) : HM unit := m <- gets mm_mem ;; lift (m !! a) ;; modify (set_mem (<[a := v]> m)).

Definition nodelist (i : Z) : HM Z := l <- gets mm_nodelist ;; ret (l + SIZEOF_MM_FREENODE * i).

(** The lists end at the latest when all words were visited. *)
Definition mem_fuel : HM nat := m <- gets mm_mem ;; ret (S (size m)).

(** ** mm_size2ndx.c, mm_addfreechunk.c *)

Fixpoint ndx_loop (fuel : nat) (size ndx : Z) : HM Z :=
  match fuel with
  | O => fault
  | S f => if 1 <? size then ndx_loop f (Z.shiftr size 1) (ndx + 1) else ret ndx
  end.

(** A [size_t] is 0 after 32 shifts. *)
Definition mm_size2ndx (size : Z) : HM Z :=
  if MM_MAX_CHUNK <=? size then ret (MM_NNODES - 1) else ndx_loop 33 (Z.shiftr size MM_MIN_SHIFT) 0.

Fixpoint place_loop (fuel : nat) (prev next nsize : Z) : HM (Z * Z) :=
  match fuel with
  | O => fault
  | S f =>
      if next =? 0 then ret (prev, next)
      else
        sz <- ld (n_size next) ;;
        if negb (sz =? 0) && (sz <? nsize) then n <- ld (n_flink next) ;; place_loop f next n nsize
        else ret (prev, next)
  end.

Definition mm_addfreechunk (node : Z) : HM unit :=
  nsize <- ld (n_size node) ;;
  ndx <- mm_size2ndx nsize ;;
  head <- nodelist ndx ;;
  next <- ld (n_flink head) ;;
  f <- mem_fuel ;;
  pn <- place_loop f head next nsize ;;
  sto (n_flink (fst pn)) node ;;
  sto (n_blink node) (fst pn) ;;
  sto (n_flink node) (snd pn) ;;
  if snd pn =? 0 then ret tt else sto (n_blink (snd pn)) node.

(** Taking a node out of the list, as mm_malloc.c and mm_free.c do. *)
Definition unlink (node : Z) : HM unit :=
  b <- ld (n_blink node) ;;
  n <- ld (n_flink node) ;;
  sto (n_flink b) n ;;
  n <- ld (n_flink node) ;;
  if n =? 0 then ret tt else b <- ld (n_blink node) ;; sto (n_blink n) b.

(** ** mm_mallinfo.c *)

Record mallinfo := mkInfo { arena : Z; ordblks : Z; mxordblk : Z; uordblks : Z; fordblks : Z }.

Fixpoint info_loop (fuel : nat) (node : Z) (i : mallinfo) : HM mallinfo :=
  match fuel with
  | O => fault
  | S f =>
      e <- gets mm_heapend ;;
      if node <? e then
        p <- ld (n_preceding node) ;;
        sz <- ld (n_size node) ;;
        info_loop f (node + sz)
          (if negb (Z.land p MM_ALLOC_BIT =? 0)
           then mkInfo (arena i) (ordblks i) (mxordblk i) (u32 (uordblks i + sz)) (fordblks i)
           else mkInfo (arena i) (ordblks i + 1) (if mxordblk i <? sz then sz else mxordblk i) (uordblks i) (u32 (fordblks i + sz)))
      else ret i
  end.

Definition mm_mallinfo : HM mallinfo :=
  a <- gets mm_heapstart ;;
  f <- mem_fuel ;;
  i <- info_loop f a (mkInfo 0 0 0 0 0) ;;
  hs <- gets mm_heapsize ;;
  ret (mkInfo (i32 hs) (ordblks i) (i32 (mxordblk i)) (i32 (u32 (uordblks i + SIZEOF_MM_ALLOCNODE))) (i32 (fordblks i))).

Definition mm_max_usedsize_update : HM Z :=
  info <- mm_mallinfo ;;
  g <- gets g_max_used_size ;;
  when (g <? uordblks info)
    (modify (fun s => mkHeap (mm_mem s) (mm_nodelist s) (mm_heapsize s) (mm_heapstart s) (mm_heapend s) (uordblks info))) ;;
  gets g_max_used_size.

Definition mm_get_max_usedsize : HM Z := gets g_max_used_size.

(** ** mm_malloc.c *)

Fixpoint fit_loop (fuel : nat) (node size : Z) : HM Z :=
  match fuel with
  | O => fault
  | S f =>
      if node =? 0 then ret node
      else
        sz <- ld (n_size node) ;;
        if sz <? size then n <- ld (n_flink node) ;; fit_loop f n size else ret node
  end.

(** The chunk [node] is cut to [size] bytes when a chunk fits into the rest. *)
Definition split (node size : Z) : HM unit :=
  nsize <- ld (n_size node) ;;
  let remaining := u32 (nsize - size) in
  when (SIZEOF_MM_FREENODE <=? remaining)
    (let next := node + nsize in
     let remainder := node + size in
     sto (n_size remainder) remaining ;;
     sto (n_preceding remainder) size ;;
     sto (n_size node) size ;;
     np <- ld (n_preceding next) ;;
     sto (n_preceding next) (Z.lor remaining (Z.land np MM_ALLOC_BIT)) ;;
     mm_addfreechunk remainder).

Definition mm_malloc (size : Z) : HM Z :=
  if size <? 1 then ret 0
  else
    let size := MM_ALIGN_UP (u32 (size + SIZEOF_MM_ALLOCNODE)) in
    ndx <- (if MM_MAX_CHUNK <=? size then ret (MM_NNODES - 1) else mm_size2ndx size) ;;
    head <- nodelist ndx ;;
    first <- ld (n_flink head) ;;
    f <- mem_fuel ;;
    node <- fit_loop f first size ;;
    r <- (if node =? 0 then ret 0
          else
            unlink node ;;
            split node size ;;
            p <- ld (n_preceding node) ;;
            sto (n_preceding node) (Z.lor p MM_ALLOC_BIT) ;;
            ret (node + SIZEOF_MM_ALLOCNODE)) ;;
    mm_max_usedsize_update ;;
    ret r.

(** ** mm_free.c *)

Definition mm_free (mem : Z) : HM unit :=
  if mem =? 0 then ret tt
  else
    let node := mem - SIZEOF_MM_ALLOCNODE in
    p <- ld (n_preceding node) ;;
    sto (n_preceding node) (Z.land p (u32 (Z.lnot MM_ALLOC_BIT))) ;;
    nsize <- ld (n_size node) ;;
    let next := node + nsize in
    np <- ld (n_preceding next) ;;
    next <- (if Z.land np MM_ALLOC_BIT =? 0 then
               xsize <- ld (n_size next) ;;
               let andbeyond := next + xsize in
               unlink next ;;
               nsize <- ld (n_size node) ;;
               xsize <- ld (n_size next) ;;
               sto (n_size node) (u32 (nsize + xsize)) ;;
               nsize <- ld (n_size node) ;;
               ap <- ld (n_preceding andbeyond) ;;
               sto (n_preceding andbeyond) (Z.lor nsize (Z.land ap MM_ALLOC_BIT)) ;;
               ret andbeyond
             else ret next) ;;
    p <- ld (n_preceding node) ;;
    let prev := node - p in
    pp <- ld (n_preceding prev) ;;
    node <- (if Z.land pp MM_ALLOC_BIT =? 0 then
               unlink prev ;;
               psize <- ld (n_size prev) ;;
               nsize <- ld (n_size node) ;;
               sto (n_size prev) (u32 (psize + nsize)) ;;
               psize <- ld (n_size prev) ;;
               np <- ld (n_preceding next) ;;
               sto (n_preceding next) (Z.lor psize (Z.land np MM_ALLOC_BIT)) ;;
               ret prev
             else ret node) ;;
    mm_addfreechunk node.

(** ** mm_initialize.c *)

Definition mm_addregion (heapstart heapsize : Z) : HM unit :=
  let heapbase := MM_ALIGN_UP heapstart in
  let heapend := MM_ALIGN_DOWN (u32 (heapstart + heapsize)) in
  let heapsize := u32 (heapend - heapbase) in
  modify (fun s => mkHeap (mm_mem s) (mm_nodelist s) (u32 (mm_heapsize s + heapsize)) heapbase (heapend - SIZEOF_MM_ALLOCNODE) (g_max_used_size s)) ;;
  sto (n_size heapbase) SIZEOF_MM_ALLOCNODE ;;
  sto (n_preceding heapbase) MM_ALLOC_BIT ;;
  let node := heapbase + SIZEOF_MM_ALLOCNODE in
  sto (n_size node) (u32 (heapsize - 2 * SIZEOF_MM_ALLOCNODE)) ;;
  sto (n_preceding node) SIZEOF_MM_ALLOCNODE ;;
  sto (n_size (heapend - SIZEOF_MM_ALLOCNODE)) SIZEOF_MM_ALLOCNODE ;;
  nsize <- ld (n_size node) ;;
  sto (n_preceding (heapend - SIZEOF_MM_ALLOCNODE)) (Z.lor nsize MM_ALLOC_BIT) ;;
  mm_addfreechunk node.

(** [memset(p, 0, 4 * n)] for [n] words. *)
Fixpoint zero_words (n : nat) (p : Z) : HM unit :=
  match n with O => ret tt | S n => sto p 0 ;; zero_words n (p + 4) end.

Fixpoint link_heads (n : nat) (i : Z) : HM unit :=
  match n with
  | O => ret tt
  | S n =>
      a <- nodelist (i - 1) ;;
      b <- nodelist i ;;
      sto (n_flink a) b ;;
      sto (n_blink b) a ;;
      link_heads n (i + 1)
  end.

Definition mm_initialize (heapstart heapsize : Z) : HM unit :=
  modify (fun s => mkHeap (mm_mem s) (mm_nodelist s) 0 (mm_heapstart s) (mm_heapend s) (g_max_used_size s)) ;;
  l <- nodelist 0 ;;
  zero_words (Z.to_nat (4 * MM_NNODES)) l ;;
  link_heads (Z.to_nat (MM_NNODES - 1)) 1 ;;
  mm_addregion heapstart heapsize.

(** The linker gives the region. *)
Definition mm_heap_initialize (heap_start heap_end : Z) : HM unit := mm_initialize heap_start (u32 (heap_end - heap_start)).

(** Total, used, free and peak bytes (lib_mallinfo.c). *)
Definition mm_get_mallinfo : HM (Z * Z * Z * Z) :=
  i <- mm_mallinfo ;;
  peak <- mm_get_max_usedsize ;;
  ret (arena i, uordblks i, fordblks i, peak).

(** ** kernel/misc/malloc.c *)

Definition malloc (size : Z) : HM Z := if size <? 1 then ret 0 else mm_malloc size.

Definition free (ptr : Z) : HM unit := mm_free ptr.

(** [memcpy] and [memset] of [n] bytes: whole words, then the low bytes of the
    last word. *)
Definition low_bytes (n : Z) : Z := 2 ^ (8 * n) - 1.

Fixpoint copy_words (n : nat) (dst src : Z) : HM unit :=
  match n with O => ret tt | S n => v <- ld src ;; sto dst v ;; copy_words n (dst + 4) (src + 4) end.

Definition memcpy (dst src n : Z) : HM unit :=
  copy_words (Z.to_nat (n / 4)) dst src ;;
  if n mod 4 =? 0 then ret tt
  else
    v <- ld (src + n / 4 * 4) ;;
    d <- ld (dst + n / 4 * 4) ;;
    sto (dst + n / 4 * 4) (Z.lor (Z.land v (low_bytes (n mod 4))) (Z.ldiff d (low_bytes (n mod 4)))).

Definition memset0 (dst n : Z) : HM unit :=
  zero_words (Z.to_nat (n / 4)) dst ;;
  if n mod 4 =? 0 then ret tt
  else d <- ld (dst + n / 4 * 4) ;; sto (dst + n / 4 * 4) (Z.ldiff d (low_bytes (n mod 4))).

Definition realloc (ptr size : Z) : HM Z :=
  new_ptr <- malloc size ;;
  if new_ptr =? 0 then ret new_ptr
  else
    (if ptr =? 0 then ret tt else memcpy new_ptr ptr size ;; free ptr) ;;
    ret new_ptr.

Definition calloc (nmemb size : Z) : HM Z :=
  let n := u32 (size * nmemb) in
  ptr <- malloc n ;;
  (if ptr =? 0 then ret tt else memset0 ptr n) ;;
  ret ptr.
