(* ===== verification/MmRep.v ===== *)
(** * Chunks and the list of free chunks

    The heap memory as a sequence of chunks and a list of free chunks in
    buckets: the predicates, and how they change with single words. *)

From S2P Require Import Prelude.
From S2P Require Import Monad.
From S2P Require Import MmHeap.

(** ** The chunks in memory *)

(** Size and whether it is allocated. *)
Abbreviation chunk := (Z * bool)%type.

Definition bits (pre : Z) (al : bool) : Z := if al then pre + MM_ALLOC_BIT else pre.

(** From address [a] on there are the headers of the chunks [cs]; the chunk
    before them has size [pre]. *)
Fixpoint hdrs (m : gmap Z Z) (a pre : Z) (cs : list chunk) : Prop :=
  match cs with
  | [] => True
  | c :: r => m !! a = Some (fst c) /\ m !! (a + 4) = Some (bits pre (snd c)) /\ hdrs m (a + fst c) (fst c) r
  end.

Fixpoint total (cs : list chunk) : Z := match cs with [] => 0 | c :: r => fst c + total r end.
Fixpoint last_size (pre : Z) (cs : list chunk) : Z := match cs with [] => pre | c :: r => last_size (fst c) r end.

(** The addresses of the chunks, and those of the free and of the allocated
    ones with their sizes. *)
Fixpoint addrs (a : Z) (cs : list chunk) : list Z := match cs with [] => [] | c :: r => a :: addrs (a + fst c) r end.
Fixpoint chunks (al : bool) (a : Z) (cs : list chunk) : list (Z * Z) :=
  match cs with [] => [] | c :: r => (if eqb (snd c) al then [(a, fst c)] else []) ++ chunks al (a + fst c) r end.
Abbreviation frees := (chunks false).
Abbreviation allocs := (chunks true).

Definition good (c : chunk) : Prop := 16 <= fst c /\ exists k, fst c = 16 * k.

Lemma total_app l1 l2 : total (l1 ++ l2) = total l1 + total l2.
Proof. induction l1 as [|c l1 IH]; simpl; lia. Qed.

Lemma last_size_app pre l1 l2 : last_size pre (l1 ++ l2) = last_size (last_size pre l1) l2.
Proof. revert pre. induction l1 as [|c l1 IH]; intros pre; simpl; [done | apply IH]. Qed.

Lemma hdrs_app m a pre l1 l2 : hdrs m a pre (l1 ++ l2) <-> hdrs m a pre l1 /\ hdrs m (a + total l1) (last_size pre l1) l2.
Proof.
  revert a pre. induction l1 as [|c l1 IH]; intros a pre; simpl; [rewrite Z.add_0_r; tauto|].
  rewrite IH, Z.add_assoc. tauto.
Qed.

Lemma chunks_app al a l1 l2 : chunks al a (l1 ++ l2) = chunks al a l1 ++ chunks al (a + total l1) l2.
Proof.
  revert a. induction l1 as [|c l1 IH]; intros a; simpl; [by rewrite Z.add_0_r|]. by rewrite IH, Z.add_assoc, app_assoc.
Qed.

Lemma addrs_app a l1 l2 : addrs a (l1 ++ l2) = addrs a l1 ++ addrs (a + total l1) l2.
Proof.
  revert a. induction l1 as [|c l1 IH]; intros a; simpl; [by rewrite Z.add_0_r|]. by rewrite IH, Z.add_assoc.
Qed.

Lemma total_pos cs : Forall good cs -> 0 <= total cs.
Proof. induction 1 as [|c cs [Hc _] _ IH]; simpl; lia. Qed.

Lemma total_16 cs : Forall good cs -> exists k, total cs = 16 * k.
Proof. induction 1 as [|c cs [_ [k Hk]] _ [j Hj]]; simpl; [by exists 0 | exists (k + j); lia]. Qed.

(** Memory that agrees on the headers. *)
Lemma hdrs_frame m m' a pre cs : hdrs m a pre cs ->
  (forall x, x ∈ addrs a cs -> m' !! x = m !! x /\ m' !! (x + 4) = m !! (x + 4)) -> hdrs m' a pre cs.
Proof.
  revert a pre. induction cs as [|c cs IH]; intros a pre Hh Hs; [done|]. simpl in *. destruct Hh as (H1 & H2 & H3).
  destruct (Hs a) as [E1 E2]; [apply elem_of_cons; by left|]. rewrite E1, E2. split; [done|]. split; [done|].
  apply IH; [done|]. intros x Hx. apply Hs, elem_of_cons. by right.
Qed.

Lemma addrs_range a cs x : Forall good cs -> x ∈ addrs a cs -> a <= x /\ x + 16 <= a + total cs /\ exists k, x = a + 16 * k.
Proof.
  intros Hg. revert a. induction Hg as [|c cs [Hc [k Hk]] Hg IH]; intros a Hx; simpl in *; [by apply elem_of_nil in Hx|].
  pose proof (total_pos cs Hg). apply elem_of_cons in Hx as [->|Hx].
  - split; [lia|]. split; [lia|]. exists 0. lia.
  - destruct (IH _ Hx) as (H1 & H2 & j & Hj). split; [lia|]. split; [lia|]. exists (k + j). lia.
Qed.

(** A chunk and its place. *)
Lemma chunks_split al a cs x sz : (x, sz) ∈ chunks al a cs -> exists l1 l2, cs = l1 ++ (sz, al) :: l2 /\ x = a + total l1.
Proof.
  revert a. induction cs as [|[s al'] cs IH]; intros a Hx; simpl in *; [by apply elem_of_nil in Hx|].
  apply elem_of_app in Hx as [Hx|Hx].
  - destruct (eqb al' al) eqn:E; [|by apply elem_of_nil in Hx]. apply eqb_prop in E as ->. apply list_elem_of_singleton in Hx as [= -> ->].
    exists [], cs. split; [done | simpl; lia].
  - destruct (IH _ Hx) as (l1 & l2 & -> & ->). exists ((s, al') :: l1), l2. split; [done | simpl; lia].
Qed.

Lemma chunks_mid al a l1 sz l2 : (a + total l1, sz) ∈ chunks al a (l1 ++ (sz, al) :: l2).
Proof. rewrite chunks_app. apply elem_of_app. right. simpl. rewrite eqb_reflx. apply elem_of_app. left. by apply list_elem_of_singleton. Qed.

Lemma chunks_hdr m al a pre cs x sz : hdrs m a pre cs -> (x, sz) ∈ chunks al a cs -> m !! x = Some sz.
Proof.
  intros Hh Hx. apply chunks_split in Hx as (l1 & l2 & -> & ->). apply hdrs_app in Hh as [_ (Hh & _)]. done.
Qed.

Lemma chunks_range al a cs x sz : Forall good cs -> (x, sz) ∈ chunks al a cs ->
  a <= x /\ x + sz <= a + total cs /\ good (sz, al) /\ exists k, x = a + 16 * k.
Proof.
  intros Hg Hx. apply chunks_split in Hx as (l1 & l2 & -> & ->). apply Forall_app in Hg as [Hg1 Hg2]. apply Forall_cons in Hg2 as [Hg Hg2].
  pose proof (total_pos _ Hg1). pose proof (total_pos _ Hg2). destruct (total_16 _ Hg1) as [k Hk]. rewrite total_app. simpl.
  split; [lia|]. split; [lia|]. split; [done|]. exists k. lia.
Qed.

(** Two chunks are the same or do not overlap. *)
Lemma chunks_disjoint al al' a cs x sz x' sz' : Forall good cs -> (x, sz) ∈ chunks al a cs -> (x', sz') ∈ chunks al' a cs ->
  (x = x' /\ sz = sz' /\ al = al') \/ x + sz <= x' \/ x' + sz' <= x.
Proof.
  intros Hg. revert a. induction Hg as [|[s b] cs [Hc _] Hg IH]; intros a Hx Hx'; simpl in *; [by apply elem_of_nil in Hx|].
  assert (Hr : forall al x sz, (x, sz) ∈ chunks al (a + s) cs -> a + s <= x) by (intros ? ? ? Hin; by apply chunks_range in Hin as [? _]).
  assert (Hh : forall al x sz, (x, sz) ∈ (if eqb b al then [(a, s)] else []) -> x = a /\ sz = s /\ b = al).
  { intros al0 x0 sz0 Hin. destruct (eqb b al0) eqn:E; [|by apply elem_of_nil in Hin]. apply list_elem_of_singleton in Hin as [= -> ->].
    by apply eqb_prop in E. }
  apply elem_of_app in Hx as [Hx|Hx]; apply elem_of_app in Hx' as [Hx'|Hx'].
  - apply Hh in Hx as (-> & -> & <-). apply Hh in Hx' as (-> & -> & <-). by left.
  - apply Hh in Hx as (-> & -> & <-). apply Hr in Hx'. right. left. lia.
  - apply Hh in Hx' as (-> & -> & <-). apply Hr in Hx. right. right. lia.
  - by apply (IH (a + s)).
Qed.

Lemma chunks_nodup al a cs : Forall good cs -> NoDup (chunks al a cs).*1.
Proof.
  intros Hg. revert a. induction Hg as [|[s b] cs [Hc _] Hg IH]; intros a; simpl; [constructor|]. rewrite fmap_app.
  apply NoDup_app. split; [destruct (eqb b al); simpl; [apply NoDup_singleton | constructor]|]. split; [|apply IH].
  intros x Hx Hx'. apply list_elem_of_fmap in Hx' as ([x' sz] & -> & Hx'). apply chunks_range in Hx' as [Hge _]; [|done]. simpl in *.
  destruct (eqb b al); simpl in Hx; [apply list_elem_of_singleton in Hx | by apply elem_of_nil in Hx]. lia.
Qed.

(** ** Doubly linked lists *)

Definition hdq (ns : list Z) (q : Z) : Z := match ns with [] => q | n :: _ => n end.
Fixpoint lst (p : Z) (ns : list Z) : Z := match ns with [] => p | n :: r => lst n r end.

(** The nodes [ns] are linked; [p] comes before them and [q] after them. *)
Fixpoint dls (m : gmap Z Z) (p : Z) (ns : list Z) (q : Z) : Prop :=
  match ns with
  | [] => True
  | n :: r => m !! (n + 12) = Some p /\ m !! (n + 8) = Some (hdq r q) /\ dls m n r q
  end.

Lemma hdq_app l1 l2 q : hdq (l1 ++ l2) q = hdq l1 (hdq l2 q).
Proof. by destruct l1. Qed.

Lemma dls_app m p l1 l2 q : dls m p (l1 ++ l2) q <-> dls m p l1 (hdq l2 q) /\ dls m (lst p l1) l2 q.
Proof.
  revert p. induction l1 as [|n l1 IH]; intros p; simpl; [tauto|]. rewrite IH, hdq_app. tauto.
Qed.

Lemma lst_app p l1 l2 : lst p (l1 ++ l2) = lst (lst p l1) l2.
Proof. revert p. induction l1 as [|n l1 IH]; intros p; simpl; [done | apply IH]. Qed.

Lemma dls_frame m m' p ns q : dls m p ns q -> (forall n, n ∈ ns -> m' !! (n + 8) = m !! (n + 8) /\ m' !! (n + 12) = m !! (n + 12)) -> dls m' p ns q.
Proof.
  revert p. induction ns as [|n ns IH]; intros p Hd Hs; [done|]. simpl in *. destruct Hd as (H1 & H2 & H3).
  destruct (Hs n) as [E1 E2]; [apply elem_of_cons; by left|]. rewrite E1, E2. split; [done|]. split; [done|].
  apply IH; [done|]. intros x Hx. apply Hs, elem_of_cons. by right.
Qed.

(** The link words of two nodes are different words. *)
Definition sep_nodes (ns : list Z) : Prop := NoDup ns /\ (forall n n', n ∈ ns -> n' ∈ ns -> n + 8 <> n' + 12) /\ 0 ∉ ns.

Lemma sep_nodes_perm ns ns' : ns ≡ₚ ns' -> sep_nodes ns -> sep_nodes ns'.
Proof.
  intros Hp (Hnd & Hs & H0). split; [by rewrite <- Hp|]. split; [|by rewrite <- Hp].
  intros n n' Hn Hn'. apply Hs; by rewrite Hp.
Qed.

Lemma sep_nodes_app ns ns' : sep_nodes (ns ++ ns') -> sep_nodes ns /\ sep_nodes ns'.
Proof.
  intros (Hnd & Hs & H0). apply NoDup_app in Hnd as (Hn1 & _ & Hn2). rewrite elem_of_app in H0.
  split; (split; [done|]; split; [|tauto]); intros n n' Hn Hn'; apply Hs; apply elem_of_app; tauto.
Qed.

(** The words of the nodes [ns'] change, those of [ns] do not. *)
Lemma sep_frame ns n n' : sep_nodes ns -> n ∈ ns -> n' ∈ ns -> n <> n' -> n + 8 <> n' + 8 /\ n + 8 <> n' + 12 /\ n + 12 <> n' + 8 /\ n + 12 <> n' + 12.
Proof. intros (_ & Hs & _) Hn Hn' Hne. pose proof (Hs n n' Hn Hn'). pose proof (Hs n' n Hn' Hn). lia. Qed.

(** [b], the last node before, is linked to the rest. *)
Lemma dls_link_nil m p l b q : sep_nodes (l ++ [b]) -> dls m p (l ++ [b]) q -> dls (<[b + 8 := 0]> m) p (l ++ [b]) 0.
Proof.
  intros Hsep Hd. apply dls_app in Hd as [H1 H2]. apply dls_app. simpl in *.
  assert (Hb : b ∈ l ++ [b]) by (apply elem_of_app; right; by apply list_elem_of_singleton).
  split.
  - eapply dls_frame; [done|]. intros x Hx. destruct Hsep as (Hnd & Hs & H0). assert (Hx' : x ∈ l ++ [b]) by (apply elem_of_app; by left).
    assert (Hne : b <> x). { intros ->. apply NoDup_app in Hnd as (_ & Hni & _). apply (Hni x Hx). by apply list_elem_of_singleton. }
    destruct (sep_frame _ b x (conj Hnd (conj Hs H0)) Hb Hx' Hne) as (? & ? & ? & ?). by rewrite !lookup_insert_ne.
  - destruct Hsep as (_ & Hs & _). destruct H2 as (H2 & _ & _). rewrite lookup_insert_ne by (by apply Hs).
    split; [done|]. split; [apply lookup_insert_eq | done].
Qed.

Lemma dls_link_cons m p l b q0 y n r q : sep_nodes (l ++ b :: n :: r) -> dls m p (l ++ [b]) q0 -> dls m y (n :: r) q ->
  dls (<[n + 12 := b]> (<[b + 8 := n]> m)) p (l ++ b :: n :: r) q.
Proof.
  intros Hsep Hd Hr. apply dls_app in Hd as [H1 H2]. simpl in *. destruct H2 as (H2 & _ & _). destruct Hr as (_ & Hr1 & Hr2).
  assert (Hperm : l ++ b :: n :: r ≡ₚ b :: n :: l ++ r) by (rewrite <- !Permutation_middle; done).
  pose proof (sep_nodes_perm _ _ Hperm Hsep) as Hsp. pose proof Hsp as (Hnd & Hs & _).
  apply NoDup_cons in Hnd as [Hb Hnd]. apply NoDup_cons in Hnd as [Hn _]. apply not_elem_of_cons in Hb as [Hbn Hb].
  assert (Ib : b ∈ b :: n :: l ++ r) by (apply elem_of_cons; by left).
  assert (In' : n ∈ b :: n :: l ++ r) by (apply elem_of_cons; right; apply elem_of_cons; by left).
  assert (Hoth : forall x, x ∈ l ++ r -> <[n + 12 := b]> (<[b + 8 := n]> m) !! (x + 8) = m !! (x + 8) /\
    <[n + 12 := b]> (<[b + 8 := n]> m) !! (x + 12) = m !! (x + 12)).
  { intros x Hx. assert (Ix : x ∈ b :: n :: l ++ r) by (apply elem_of_cons; right; apply elem_of_cons; by right).
    assert (Hbx : b <> x) by congruence. assert (Hnx : n <> x) by congruence.
    destruct (sep_frame _ b x Hsp Ib Ix Hbx) as (? & ? & ? & ?). destruct (sep_frame _ n x Hsp In' Ix Hnx) as (? & ? & ? & ?).
    by rewrite !lookup_insert_ne. }
  destruct (sep_frame _ b n Hsp Ib In' Hbn) as (? & ? & ? & ?). pose proof (Hs b b Ib Ib). pose proof (Hs n n In' In').
  apply dls_app. simpl. split; [|split; [|split; [|split; [|split]]]].
  - eapply dls_frame; [done|]. intros x Hx. apply Hoth, elem_of_app. by left.
  - by rewrite !lookup_insert_ne by congruence.
  - by rewrite lookup_insert_ne, lookup_insert_eq by congruence.
  - by rewrite lookup_insert_eq.
  - by rewrite !lookup_insert_ne by congruence.
  - eapply dls_frame; [done|]. intros x Hx. apply Hoth, elem_of_app. by right.
Qed.

(** ** Buckets *)

(** Address and size of the nodes of the list: each bucket after its entry of
    [mm_nodelist], which is at [h]. *)
Fixpoint cells (h : Z) (bk : list (list (Z * Z))) : list (Z * Z) :=
  match bk with [] => [] | b :: r => (h, 0) :: b ++ cells (h + 16) r end.

(** The bucket of a size. *)
Definition ndx (size : Z) : Z := if MM_MAX_CHUNK <=? size then 18 else Z.log2 (size / 16).

Definition by_size (c c' : Z * Z) : Prop := snd c <= snd c'.

(** The buckets from number [i] on: the right sizes, in order. *)
Fixpoint bk_ok (i : Z) (bk : list (list (Z * Z))) : Prop :=
  match bk with
  | [] => True
  | b :: r => Forall (fun c => ndx (snd c) = i /\ 0 < snd c) b /\ StronglySorted by_size b /\ bk_ok (i + 1) r
  end.

Lemma ndx_mono a b : 0 <= a <= b -> ndx a <= ndx b.
Proof.
  intros Hab. unfold ndx. destruct (Z.leb_spec MM_MAX_CHUNK a), (Z.leb_spec MM_MAX_CHUNK b); try lia.
  - transitivity (Z.log2 (262143)); [|done]. apply Z.log2_le_mono, Z.lt_succ_r, Z.div_lt_upper_bound; [lia|]. change MM_MAX_CHUNK with 4194304 in *. lia.
  - apply Z.log2_le_mono, Z.div_le_mono; lia.
Qed.

Lemma ndx_range a : 0 <= a -> 0 <= ndx a < 19.
Proof.
  intros Ha. split.
  - unfold ndx. destruct (_ <=? _); [done | apply Z.log2_nonneg].
  - pose proof (ndx_mono a (a + MM_MAX_CHUNK)) as Hm. assert (Hx : ndx (a + MM_MAX_CHUNK) = 18).
    { unfold ndx. by rewrite (proj2 (Z.leb_le _ _)) by lia. }
    change MM_MAX_CHUNK with 4194304 in *. lia.
Qed.

Lemma bk_ok_app i bk1 bk2 : bk_ok i (bk1 ++ bk2) <-> bk_ok i bk1 /\ bk_ok (i + Z.of_nat (length bk1)) bk2.
Proof.
  revert i. induction bk1 as [|b bk1 IH]; intros i; simpl; [rewrite Z.add_0_r; tauto|].
  rewrite IH. replace (i + 1 + Z.of_nat (length bk1)) with (i + Z.pos (Pos.of_succ_nat (length bk1))) by lia. tauto.
Qed.

Lemma cells_app h bk1 bk2 : cells h (bk1 ++ bk2) = cells h bk1 ++ cells (h + 16 * Z.of_nat (length bk1)) bk2.
Proof.
  revert h. induction bk1 as [|b bk1 IH]; intros h; simpl; [by rewrite Z.add_0_r|]. rewrite IH, <- app_assoc.
  by replace (h + 16 + 16 * Z.of_nat (length bk1)) with (h + 16 * Z.pos (Pos.of_succ_nat (length bk1))) by lia.
Qed.

Lemma bk_ok_elem i bk c : bk_ok i bk -> c ∈ concat bk -> i <= ndx (snd c) < i + Z.of_nat (length bk) /\ 0 < snd c.
Proof.
  revert i. induction bk as [|b bk IH]; intros i Hok Hc; simpl in *; [by apply elem_of_nil in Hc|].
  destruct Hok as (Hb & _ & Hok). apply elem_of_app in Hc as [Hc|Hc].
  - rewrite Forall_forall in Hb. destruct (Hb _ Hc). lia.
  - destruct (IH _ Hok Hc). lia.
Qed.

Lemma elem_of_cells h bk c : c ∈ cells h bk <-> c ∈ concat bk \/ exists i, 0 <= i < Z.of_nat (length bk) /\ c = (h + 16 * i, 0).
Proof.
  revert h. induction bk as [|b bk IH]; intros h; simpl.
  { rewrite elem_of_nil. split; [done|]. intros [?|(i & ? & _)]; [done | lia]. }
  rewrite elem_of_cons, !elem_of_app, IH. split.
  - intros [->|[?|[?|(i & Hi & ->)]]]; [right; exists 0; split; [lia | f_equal; lia] | tauto | tauto|].
    right. exists (i + 1). split; [lia | f_equal; lia].
  - intros [[?|?]|(i & Hi & ->)]; [tauto | tauto|]. destruct (decide (i = 0)) as [->|]; [left; f_equal; lia|].
    right. right. right. exists (i - 1). split; [lia | f_equal; lia].
Qed.

(** Taking a chunk out of its bucket. *)
Lemma sorted_del (l1 l2 : list (Z * Z)) x : StronglySorted by_size (l1 ++ x :: l2) -> StronglySorted by_size (l1 ++ l2).
Proof.
  induction l1 as [|c l1 IH]; simpl; intros Hs; apply StronglySorted_inv in Hs as [Hs Hc]; [done|]. constructor; [by apply IH|].
  apply Forall_app in Hc as [H1 H2]. apply Forall_cons in H2 as [_ H2]. apply Forall_app. done.
Qed.

Lemma sorted_ins (l1 l2 : list (Z * Z)) x : StronglySorted by_size (l1 ++ l2) -> Forall (fun c => by_size c x) l1 -> Forall (by_size x) l2 ->
  StronglySorted by_size (l1 ++ x :: l2).
Proof.
  induction l1 as [|c l1 IH]; simpl; intros Hs H1 H2; [by constructor|]. apply StronglySorted_inv in Hs as [Hs Hc].
  apply Forall_cons in H1 as [Hcx H1]. constructor; [by apply IH|]. apply Forall_app in Hc as [Hc1 Hc2]. apply Forall_app. split; [done|].
  by apply Forall_cons.
Qed.

(** A node that is not an entry of the array is in the middle of a bucket. *)
Lemma cells_in_bucket h i bk l1 x l2 : bk_ok i bk -> cells h bk = l1 ++ x :: l2 -> snd x <> 0 ->
  exists bk1 b1 b2 bk2, bk = bk1 ++ (b1 ++ x :: b2) :: bk2 /\
    l1 = cells h bk1 ++ (h + 16 * Z.of_nat (length bk1), 0) :: b1 /\ l2 = b2 ++ cells (h + 16 * Z.of_nat (length bk1) + 16) bk2.
Proof.
  revert h i l1. induction bk as [|b bk IH]; intros h i l1 Hok Hc Hx; simpl in *; [by destruct l1|]. destruct Hok as (_ & _ & Hok).
  destruct l1 as [|c l1]; simpl in Hc; [by injection Hc as <- _|]. injection Hc as <- Hc.
  destruct (decide (length b <= length l1)%nat) as [Hle|Hgt].
  - apply (f_equal (fun l => (take (length b) l, drop (length b) l))) in Hc. rewrite take_app_length, drop_app_length, take_app_le, drop_app_le in Hc by lia.
    injection Hc as Hb Hc. destruct (IH _ _ _ Hok Hc Hx) as (bk1 & b1 & b2 & bk2 & -> & Hl1 & ->).
    exists (b :: bk1), b1, b2, bk2. split; [done|]. cbn [cells length app].
    replace (h + 16 * Z.of_nat (S (length bk1))) with (h + 16 + 16 * Z.of_nat (length bk1)) by lia.
    split; [|done]. f_equal. rewrite <- app_assoc, <- Hl1, Hb at 1. symmetry. apply take_drop.
  - apply Nat.nle_gt in Hgt. pose proof Hc as Hc'. apply (f_equal (take (length l1))) in Hc. rewrite take_app_length, take_app_le in Hc by lia.
    apply (f_equal (drop (length l1))) in Hc'. rewrite drop_app_length, drop_app_le in Hc' by lia.
    destruct (drop (length l1) b) as [|y b2] eqn:Ed; [apply (f_equal length) in Ed; rewrite length_drop in Ed; simpl in Ed; lia|].
    simpl in Hc'. injection Hc' as <- <-. exists [], l1, b2, bk. simpl. rewrite Z.add_0_r. split; [|done].
    f_equal. transitivity (take (length l1) b ++ drop (length l1) b); [symmetry; apply take_drop | by rewrite Hc, Ed].
Qed.

Lemma bk_ok_edit i bk1 b b' bk2 : bk_ok i (bk1 ++ b :: bk2) -> 
  (Forall (fun c => ndx (snd c) = i + Z.of_nat (length bk1) /\ 0 < snd c) b -> StronglySorted by_size b ->
   Forall (fun c => ndx (snd c) = i + Z.of_nat (length bk1) /\ 0 < snd c) b' /\ StronglySorted by_size b') -> bk_ok i (bk1 ++ b' :: bk2).
Proof.
  rewrite !bk_ok_app. simpl. intros (H1 & H2 & H3 & H4) Hb. destruct (Hb H2 H3). done.
Qed.

(** * The heap invariant

    [hrep s cs bk out]: the memory of [s] holds the chunks [cs]; the free
    chunks are in the buckets [bk], except those in [out], which the code has
    in its hands. *)

(** The guard at the end; the one at the start is not followed by a free list
    word and treated apart. *)
Definition guard : chunk := (SIZEOF_MM_ALLOCNODE, true).

(** Where the region of [n] bytes at [a] and the array at [l] lie. *)
Record place (a l n : Z) : Prop := mkPlace {
  pl_align : exists k, a = 16 * k;
  pl_start : 0 < a;
  pl_end : a + n <= 2 ^ 32;
  pl_size : n < 2 ^ 31;
  pl_list : 0 < l;
  pl_apart : l + 304 <= a \/ a + n <= l;
}.

Record hrep (s : mm_heap_s) (cs : list chunk) (bk : list (list (Z * Z))) (out : list (Z * Z)) : Prop := mkHrep {
  hr_place : place (mm_heapstart s) (mm_nodelist s) (mm_heapsize s);
  hr_size : mm_heapsize s = total cs + 16;
  hr_end : mm_heapend s = mm_heapstart s + 8 + total cs;
  hr_good : Forall good cs;
  hr_words : forall k, mm_heapstart s <= 4 * k < mm_heapstart s + mm_heapsize s -> is_Some (mm_mem s !! (4 * k));
  hr_guard : mm_mem s !! mm_heapstart s = Some 8 /\ mm_mem s !! (mm_heapstart s + 4) = Some MM_ALLOC_BIT;
  hr_hdrs : hdrs (mm_mem s) (mm_heapstart s + 8) 8 (cs ++ [guard]);
  hr_heads : forall i, 0 <= i < 19 -> mm_mem s !! (mm_nodelist s + 16 * i) = Some 0;
  hr_dls : dls (mm_mem s) 0 (cells (mm_nodelist s) bk).*1 0;
  hr_len : length bk = 19%nat;
  hr_bk : bk_ok 0 bk;
  hr_frees : concat bk ++ out ≡ₚ frees (mm_heapstart s + 8) cs;
}.

(** The words of the allocated chunks behind their headers. *)
Definition payload (b : Z) (cs : list chunk) (w : Z) : Prop := exists x sz, (x, sz) ∈ allocs b cs /\ x + 8 <= w < x + sz.

Section Geometry.
Context (s : mm_heap_s) (cs : list chunk) (bk : list (list (Z * Z))) (out : list (Z * Z)) (Hr : hrep s cs bk out).
Local Abbreviation A := (mm_heapstart s).
Local Abbreviation B := (mm_heapstart s + 8).
Local Abbreviation L := (mm_nodelist s).
Local Abbreviation m := (mm_mem s).

Lemma free_node x sz : (x, sz) ∈ concat bk ++ out ->
  (exists k, x = 16 * k + 8) /\ B <= x /\ x + sz <= B + total cs /\ 16 <= sz /\ (x, sz) ∈ frees B cs /\ m !! x = Some sz.
Proof.
  rewrite (hr_frees _ _ _ _ Hr). intros Hx. destruct (chunks_range _ _ _ _ _ (hr_good _ _ _ _ Hr) Hx) as (H1 & H2 & [H3 _] & k & Hk).
  destruct (pl_align _ _ _ (hr_place _ _ _ _ Hr)) as [j Hj]. split; [exists (j + k); lia|]. split; [done|]. split; [done|]. split; [done|].
  split; [done|]. pose proof (hr_hdrs _ _ _ _ Hr) as Hh. apply hdrs_app in Hh as [Hh _]. by eapply chunks_hdr.
Qed.

(** The nodes of the list and those in hand. *)
Definition nodes_of : list Z := (cells L bk).*1 ++ out.*1.

Lemma node_cases n : n ∈ nodes_of ->
  (exists i, 0 <= i < 19 /\ n = L + 16 * i) \/ (exists k sz, n = 16 * k + 8 /\ B <= n /\ n + sz <= B + total cs /\ 16 <= sz /\ (n, sz) ∈ frees B cs).
Proof.
  unfold nodes_of. intros Hn.
  assert (Hc : forall c, c ∈ concat bk ++ out -> n = fst c ->
    exists k sz, n = 16 * k + 8 /\ B <= n /\ n + sz <= B + total cs /\ 16 <= sz /\ (n, sz) ∈ frees B cs).
  { intros [x sz] Hin ->. destruct (free_node x sz Hin) as ([k Hk] & ? & ? & ? & ? & _). exists k, sz. done. }
  apply elem_of_app in Hn as [Hn|Hn].
  - apply list_elem_of_fmap in Hn as (c & -> & Hn). apply elem_of_cells in Hn as [Hn|(i & Hi & ->)].
    + right. apply (Hc c); [apply elem_of_app; by left | done].
    + left. rewrite (hr_len _ _ _ _ Hr) in Hi. exists i. split; [lia | done].
  - apply list_elem_of_fmap in Hn as (c & -> & Hn). right. apply (Hc c); [apply elem_of_app; by right | done].
Qed.

Lemma nodes_apart n n' : n ∈ nodes_of -> n' ∈ nodes_of -> n + 8 <> n' + 12.
Proof.
  destruct (hr_place _ _ _ _ Hr) as [[j Hj] Ha He Hs Hl Hap]. pose proof (hr_size _ _ _ _ Hr).
  intros [(i & Hi & ->)|(k & sz & Hk & ? & ? & ? & _)]%node_cases [(i' & Hi' & ->)|(k' & sz' & Hk' & ? & ? & ? & _)]%node_cases; lia.
Qed.

Lemma cells_perm h b : cells h b ≡ₚ ((fun i => (h + 16 * Z.of_nat i, 0)) <$> seq 0 (length b)) ++ concat b.
Proof.
  revert h. induction b as [|x b IH]; intros h; [done|]. cbn [cells length seq fmap list_fmap app concat].
  replace (h + 16 * Z.of_nat 0) with h by lia. constructor. rewrite IH, <- (fmap_S_seq 0), <- list_fmap_compose.
  rewrite (Permutation_app_comm x), <- app_assoc. rewrite (Permutation_app_comm x). apply Permutation_app; [|done].
  erewrite list_fmap_ext; [reflexivity|]. intros i y _. simpl. f_equal. lia.
Qed.

Lemma nodes_sep : sep_nodes nodes_of.
Proof.
  destruct (hr_place _ _ _ _ Hr) as [[j Hj] Ha He Hs Hl Hap]. pose proof (hr_size _ _ _ _ Hr). split; [|split; [apply nodes_apart|]].
  - unfold nodes_of. rewrite cells_perm, (hr_len _ _ _ _ Hr), fmap_app, <- list_fmap_compose, <- app_assoc, <- fmap_app, (hr_frees _ _ _ _ Hr).
    apply NoDup_app. split; [|split; [|apply chunks_nodup, Hr]].
    + apply NoDup_fmap_2; [|apply NoDup_seq]. intros a b E. simpl in E. lia.
    + intros n Hn Hn'. apply list_elem_of_fmap in Hn as (i & -> & Hi). apply elem_of_seq in Hi. simpl in *.
      apply list_elem_of_fmap in Hn' as ([x sz] & E & Hn'). rewrite <- (hr_frees _ _ _ _ Hr) in Hn'.
      destruct (free_node x sz Hn') as ([k Hk] & ? & ? & ? & _). simpl in E. lia.
  - intros [(i & Hi & ?)|(k & sz & Hk & ? & _)]%node_cases; lia.
Qed.

Lemma hdr_addr x : x ∈ addrs B (cs ++ [guard]) -> (exists k, x = 16 * k + 8) /\ B <= x <= B + total cs.
Proof.
  destruct (pl_align _ _ _ (hr_place _ _ _ _ Hr)) as [j Hj]. rewrite addrs_app. intros [Hx|Hx]%elem_of_app.
  - destruct (addrs_range _ _ _ (hr_good _ _ _ _ Hr) Hx) as (H1 & H2 & k & Hk). split; [exists (j + k); lia | lia].
  - simpl in Hx. apply list_elem_of_singleton in Hx as ->. destruct (total_16 _ (hr_good _ _ _ _ Hr)) as [k Hk].
    pose proof (total_pos _ (hr_good _ _ _ _ Hr)). split; [exists (j + k); lia | lia].
Qed.

(** A link word is neither a word of a header nor of the contents of an
    allocated chunk. *)
Lemma link_not_hdr n x : n ∈ nodes_of -> x ∈ addrs B (cs ++ [guard]) -> (n + 8 <> x /\ n + 8 <> x + 4) /\ n + 12 <> x /\ n + 12 <> x + 4.
Proof.
  destruct (hr_place _ _ _ _ Hr) as [[j Hj] Ha He Hs Hl Hap]. pose proof (hr_size _ _ _ _ Hr).
  intros Hn ([k Hk] & Hx)%hdr_addr. apply node_cases in Hn as [(i & Hi & ->)|(k' & sz & Hk' & ? & ? & ? & _)]; lia.
Qed.

Lemma link_not_payload n w : n ∈ nodes_of -> payload B cs w -> w <> n + 8 /\ w <> n + 12.
Proof.
  destruct (hr_place _ _ _ _ Hr) as [[j Hj] Ha He Hs Hl Hap]. pose proof (hr_size _ _ _ _ Hr).
  intros Hn (x & sz & Hx & Hw). pose proof (chunks_range _ _ _ _ _ (hr_good _ _ _ _ Hr) Hx) as (H1 & H2 & _).
  apply node_cases in Hn as [(i & Hi & ->)|(k' & sz' & Hk' & ? & ? & ? & Hf)]; [lia|].
  destruct (chunks_disjoint _ _ _ _ _ _ _ _ (hr_good _ _ _ _ Hr) Hx Hf) as [(_ & _ & ?)|?]; [done | lia].
Qed.

(** The links change. *)
Lemma hrep_relink m' bk' out' :
  (forall w, (forall n, n ∈ nodes_of -> w <> n + 8 /\ w <> n + 12) -> m' !! w = m !! w) ->
  (forall w, is_Some (m !! w) -> is_Some (m' !! w)) -> dls m' 0 (cells L bk').*1 0 -> length bk' = 19%nat -> bk_ok 0 bk' ->
  concat bk' ++ out' ≡ₚ concat bk ++ out ->
  hrep (set_mem m' s) cs bk' out' /\ forall w, payload B cs w -> m' !! w = m !! w.
Proof.
  intros Hsame Hdom Hdls Hlen Hbk Hfr. pose proof (hr_place _ _ _ _ Hr) as [[j Hj] Ha He Hs Hl Hap]. pose proof (hr_size _ _ _ _ Hr) as Hsz.
  assert (Hlow : forall w, A <= w < B \/ (exists i, 0 <= i < 19 /\ w = L + 16 * i) -> m' !! w = m !! w).
  { intros w Hw. apply Hsame. intros n Hn. pose proof (total_pos _ (hr_good _ _ _ _ Hr)).
    apply node_cases in Hn as [(i & Hi & ->)|(k' & sz' & Hk' & ? & ? & ? & Hf)]; destruct Hw as [?|(i' & Hi' & ->)]; lia. }
  split; [|intros w Hw; apply Hsame; intros n Hn; by apply link_not_payload].
  constructor; cbn [mm_mem mm_nodelist mm_heapsize mm_heapstart mm_heapend set_mem]; try (apply Hr || done).
  - intros k Hk. apply Hdom, Hr. done.
  - rewrite !Hlow by lia. apply Hr.
  - eapply hdrs_frame; [apply Hr|]. intros x Hx. split; apply Hsame; intros n Hn; pose proof (link_not_hdr n x Hn Hx); lia.
  - intros i Hi. rewrite Hlow; [by apply Hr | eauto].
  - by rewrite Hfr, (hr_frees _ _ _ _ Hr).
Qed.
End Geometry.
