(* ===== verification/MmList.v ===== *)
(** * The list of free chunks: searching, adding, taking out *)

From S2P Require Import Prelude.
From S2P Require Import Monad.
From S2P Require Import MmHeap.
From S2P Require Import MmRep.

Implicit Types (s : mm_heap_s) (cs : list chunk) (bk : list (list (Z * Z))).

(** ** Words *)

Lemma wp_ld a v Q s : mm_mem s !! a = Some v -> Q v s -> wp (ld a) Q s.
Proof. intros Ha HQ. apply wp_bind, wp_gets, (wp_lift _ v); done. Qed.

Lemma wp_sto a v Q s : is_Some (mm_mem s !! a) -> Q tt (set_mem (<[a := v]> (mm_mem s)) s) -> wp (sto a v) Q s.
Proof. intros [v0 Ha] HQ. apply wp_bind, wp_gets, wp_bind, (wp_lift _ v0); done. Qed.

(** Only the memory changes, and not the contents of the chunks allocated in
    [cs]. *)
Definition kept cs s s' : Prop := s' = set_mem (mm_mem s') s /\ forall w, payload (mm_heapstart s + 8) cs w -> mm_mem s' !! w = mm_mem s !! w.

Lemma kept_refl cs s : kept cs s s.
Proof. split; [by destruct s | done]. Qed.

Lemma kept_trans cs s1 s2 s3 : kept cs s1 s2 -> kept cs s2 s3 -> kept cs s1 s3.
Proof.
  intros [E1 H1] [E2 H2]. split; [rewrite E2, E1; done|]. intros w Hw. rewrite H2; [by apply H1|]. by rewrite E1.
Qed.

(** ** mm_size2ndx *)

Lemma wp_ndx_loop fuel v acc Q s : 0 <= v -> Z.log2 v < Z.of_nat fuel -> Q (acc + Z.log2 v) s -> wp (ndx_loop fuel v acc) Q s.
Proof.
  revert v acc. induction fuel as [|fuel IH]; intros v acc Hv Hf HQ; [pose proof (Z.log2_nonneg v); lia|]. cbn [ndx_loop].
  destruct (Z.ltb_spec 1 v).
  - assert (E : Z.log2 (Z.shiftr v 1) = Z.log2 v - 1) by (rewrite Z.log2_shiftr by lia; pose proof (Z.log2_pos v ltac:(lia)); lia).
    apply IH; [apply Z.shiftr_nonneg; lia | lia|]. by replace (acc + 1 + Z.log2 (Z.shiftr v 1)) with (acc + Z.log2 v) by lia.
  - apply wp_ret. assert (Hv1 : v = 0 \/ v = 1) by lia. destruct Hv1 as [->| ->]; by rewrite Z.add_0_r in HQ.
Qed.

Lemma wp_size2ndx size Q s : 0 <= size < 2 ^ 32 -> Q (ndx size) s -> wp (mm_size2ndx size) Q s.
Proof.
  intros Hs HQ. unfold mm_size2ndx, ndx in *. destruct (Z.leb_spec MM_MAX_CHUNK size); [by apply wp_ret|].
  assert (E : Z.shiftr size MM_MIN_SHIFT = size / 16) by (unfold MM_MIN_SHIFT; by rewrite Z.shiftr_div_pow2).
  rewrite E. apply wp_ndx_loop; [apply Z.div_pos; lia | | done].
  assert (Hl : Z.log2 (size / 16) <= Z.log2 (2 ^ 32)) by (apply Z.log2_le_mono; transitivity size; [apply Z.div_le_upper_bound; lia | lia]).
  change (Z.log2 (2 ^ 32)) with 32 in Hl. lia.
Qed.

(** ** Walking along the list *)

Definition sized s (l : list (Z * Z)) : Prop := Forall (fun c => mm_mem s !! fst c = Some (snd c)) l.

Lemma cells_sized s cs bk out : hrep s cs bk out -> sized s (cells (mm_nodelist s) bk).
Proof.
  intros Hr. apply Forall_forall. intros c Hc. apply elem_of_cells in Hc as [Hc|(i & Hi & ->)].
  - destruct c as [x sz]. eapply free_node; [exact Hr|]. apply elem_of_app. by left.
  - apply (hr_heads _ _ _ _ Hr). rewrite (hr_len _ _ _ _ Hr) in Hi. lia.
Qed.

(** Every node has a word of its own. *)
Lemma cells_fuel s cs bk out : hrep s cs bk out -> (length (cells (mm_nodelist s) bk) <= size (mm_mem s))%nat.
Proof.
  intros Hr. pose proof (cells_sized _ _ _ _ Hr) as Hs. pose proof (nodes_sep _ _ _ _ Hr) as (Hnd & _). unfold nodes_of in Hnd.
  apply NoDup_app in Hnd as (Hnd & _). rewrite <- (length_fmap fst). rewrite <- (size_list_to_set (C := gset Z)) by done.
  rewrite <- size_dom. apply subseteq_size. intros x Hx. apply elem_of_list_to_set, list_elem_of_fmap in Hx as (c & -> & Hc).
  apply elem_of_dom. unfold sized in Hs. rewrite Forall_forall in Hs. rewrite (Hs c Hc). eauto.
Qed.

Lemma wp_fit_loop fuel : forall l p size Q s, dls (mm_mem s) p l.*1 0 -> sized s l -> 0 ∉ l.*1 -> (length l < fuel)%nat ->
  (forall q1 x sz q2, l = q1 ++ (x, sz) :: q2 -> Forall (fun c => snd c < size) q1 -> size <= sz -> Q x s) ->
  (Forall (fun c => snd c < size) l -> Q 0 s) -> wp (fit_loop fuel (hdq l.*1 0) size) Q s.
Proof.
  induction fuel as [|fuel IH]; intros l p size Q s Hd Hs H0 Hf Hyes Hno; [lia|]. cbn [fit_loop]. destruct l as [|[x sz] l]; simpl in *.
  { by apply wp_ret, Hno. }
  destruct Hd as (_ & Hn & Hd). apply Forall_cons in Hs as [Hx Hs]. simpl in Hx. apply not_elem_of_cons in H0 as [H0 H0'].
  rewrite (proj2 (Z.eqb_neq x 0)) by done. apply wp_bind, (wp_ld _ sz); [done|]. destruct (Z.ltb_spec sz size).
  - apply wp_bind, (wp_ld _ (hdq l.*1 0)); [done|]. apply (IH l x); [done | done | done | lia | |].
    + intros q1 x' sz' q2 -> Hq Hsz. apply (Hyes ((x, sz) :: q1) x' sz' q2); [done | by apply Forall_cons | done].
    + intros Hl. apply Hno. by apply Forall_cons.
  - apply wp_ret. by apply (Hyes [] x sz l).
Qed.

Lemma wp_place_loop fuel : forall b prev rest nsize Q s, dls (mm_mem s) prev (b ++ rest).*1 0 -> sized s (b ++ rest) -> 0 ∉ (b ++ rest).*1 ->
  (length b < fuel)%nat -> Forall (fun c => 0 < snd c) b -> (rest = [] \/ exists h r, rest = (h, 0) :: r) ->
  (forall b1 b2, b = b1 ++ b2 -> Forall (fun c => snd c < nsize) b1 -> (forall c, head b2 = Some c -> nsize <= snd c) ->
     Q (lst prev b1.*1, hdq (b2 ++ rest).*1 0) s) -> wp (place_loop fuel prev (hdq (b ++ rest).*1 0) nsize) Q s.
Proof.
  induction fuel as [|fuel IH]; intros b prev rest nsize Q s Hd Hs H0 Hf Hpos Hrest HQ; [lia|]. cbn [place_loop].
  destruct b as [|[x sz] b]; simpl in *.
  - assert (Hend : Q (prev, hdq rest.*1 0) s) by (by apply (HQ [] [])).
    destruct Hrest as [->|(h & r & ->)]; [by apply wp_ret|]. simpl in *. apply Forall_cons in Hs as [Hx Hs]. simpl in Hx.
    apply not_elem_of_cons in H0 as [H0 _]. rewrite (proj2 (Z.eqb_neq h 0)) by done. apply wp_bind, (wp_ld _ 0); [done|]. by apply wp_ret.
  - destruct Hd as (_ & Hn & Hd). apply Forall_cons in Hs as [Hx Hs]. apply Forall_cons in Hpos as [Hp Hpos]. simpl in Hx, Hp.
    apply not_elem_of_cons in H0 as [H0 H0']. rewrite (proj2 (Z.eqb_neq x 0)) by done. apply wp_bind, (wp_ld _ sz); [done|].
    rewrite (proj2 (Z.eqb_neq sz 0)) by lia. simpl. destruct (Z.ltb_spec sz nsize).
    + apply wp_bind, (wp_ld _ (hdq (b ++ rest).*1 0)); [done|]. apply (IH b x rest); [done | done | done | lia | done | done|].
      intros b1 b2 -> Hb1 Hb2. apply (HQ ((x, sz) :: b1) b2); [done | by apply Forall_cons | done].
    + apply wp_ret. apply (HQ [] ((x, sz) :: b)); [done | done|]. intros c [= <-]. done.
Qed.

(** ** Taking a node out *)

Lemma lst_snoc p l : l <> [] -> exists l', l = l' ++ [lst p l].
Proof.
  destruct l as [|x l' _] using rev_ind; [done|]. intros _. exists l'. by rewrite lst_app.
Qed.

Lemma dls_words m p ns q n : dls m p ns q -> n ∈ ns -> is_Some (m !! (n + 8)) /\ is_Some (m !! (n + 12)).
Proof.
  revert p. induction ns as [|x ns IH]; intros p Hd Hn; [by apply elem_of_nil in Hn|]. destruct Hd as (H1 & H2 & Hd).
  apply elem_of_cons in Hn as [->|Hn]; [eauto | by apply (IH x)].
Qed.

(** [b] is linked to the node [n] after it, or to nothing. *)
Definition relink (m : gmap Z Z) (b n : Z) : gmap Z Z := if n =? 0 then <[b + 8 := n]> m else <[n + 12 := b]> (<[b + 8 := n]> m).

Lemma dls_relink m p l b q0 y r : sep_nodes (l ++ b :: r) -> dls m p (l ++ [b]) q0 -> dls m y r 0 -> dls (relink m b (hdq r 0)) p (l ++ b :: r) 0.
Proof.
  intros Hsep Hl Hr. unfold relink. destruct r as [|n r]; simpl; [by apply (dls_link_nil m p l b q0)|].
  destruct (Z.eqb_spec n 0) as [->|]; [|by apply (dls_link_cons m p l b q0 y)]. exfalso. destruct Hsep as (_ & _ & H0). apply H0.
  apply elem_of_app. right. apply elem_of_cons. right. apply elem_of_cons. by left.
Qed.

Lemma relink_same m b n w : w <> b + 8 -> n = 0 \/ w <> n + 12 -> relink m b n !! w = m !! w.
Proof. intros H1 H2. unfold relink. destruct (Z.eqb_spec n 0); [|destruct H2; [done|]]; by rewrite !lookup_insert_ne. Qed.

Lemma relink_dom m b n w : is_Some (m !! w) -> is_Some (relink m b n !! w).
Proof. intros Hw. unfold relink. destruct (n =? 0); rewrite !lookup_insert_is_Some'; tauto. Qed.

Lemma wp_unlink_dls l b x r Q s : sep_nodes (l ++ b :: x :: r) -> dls (mm_mem s) 0 (l ++ b :: x :: r) 0 ->
  Q tt (set_mem (relink (mm_mem s) b (hdq r 0)) s) -> wp (unlink x) Q s.
Proof.
  intros Hsep Hd HQ. pose proof Hd as Hd'. apply dls_app in Hd' as [_ (_ & _ & Hxb & Hxf & Hr)].
  assert (Hb : b ∈ l ++ b :: x :: r) by (apply elem_of_app; right; apply elem_of_cons; by left).
  assert (Hx : x ∈ l ++ b :: x :: r) by (apply elem_of_app; right; apply elem_of_cons; right; apply elem_of_cons; by left).
  assert (Hbx : b <> x). { intros ->. destruct Hsep as (Hnd & _). apply NoDup_app in Hnd as (_ & _ & Hnd). apply NoDup_cons in Hnd as [Hnd _]. apply Hnd, elem_of_cons. by left. }
  destruct (dls_words _ _ _ _ b Hd Hb) as [Hb8 _]. destruct (sep_frame _ b x Hsep Hb Hx Hbx) as (H1 & H2 & _).
  unfold unlink, n_blink, n_flink. apply wp_bind, (wp_ld _ b); [done|]. apply wp_bind, (wp_ld _ (hdq r 0)); [done|]. apply wp_bind, wp_sto; [done|].
  apply wp_bind, (wp_ld _ (hdq r 0)); [simpl; by rewrite lookup_insert_ne|]. unfold relink in HQ. destruct (Z.eqb_spec (hdq r 0) 0) as [?|Hnz]; [by apply wp_ret|].
  apply wp_bind, (wp_ld _ b); [simpl; by rewrite lookup_insert_ne|]. apply wp_sto; [|done]. simpl.
  destruct r as [|n r]; simpl in *; [done|]. destruct Hr as (Hn12 & _). rewrite lookup_insert_is_Some'. right. eauto.
Qed.

Lemma wp_unlink x sz s cs bk out Q : hrep s cs bk out -> (x, sz) ∈ concat bk ->
  (forall s' bk', hrep s' cs bk' ((x, sz) :: out) -> kept cs s s' -> concat bk ≡ₚ (x, sz) :: concat bk' -> Q tt s') -> wp (unlink x) Q s.
Proof.
  intros Hr Hx HQ. set (L := mm_nodelist s). destruct (bk_ok_elem _ _ _ (hr_bk _ _ _ _ Hr) Hx) as [_ Hpos]. simpl in Hpos.
  assert (Hc : (x, sz) ∈ cells L bk) by (apply elem_of_cells; by left). apply list_elem_of_split in Hc as (l1 & l2 & Hc).
  destruct (cells_in_bucket _ _ _ _ _ _ (hr_bk _ _ _ _ Hr) Hc ltac:(simpl; lia)) as (bk1 & b1 & b2 & bk2 & Hbk & Hl1 & Hl2).
  set (bk' := bk1 ++ (b1 ++ b2) :: bk2).
  assert (Hc' : cells L bk' = l1 ++ l2) by (unfold bk'; rewrite cells_app, Hl1, Hl2; simpl; by rewrite <- !app_assoc).
  assert (Hperm : concat bk ≡ₚ (x, sz) :: concat bk').
  { rewrite Hbk. unfold bk'. rewrite !concat_app. simpl. rewrite <- !app_assoc. simpl. rewrite (app_assoc (concat bk1) b1 (_ :: _)), <- Permutation_middle. by rewrite <- app_assoc. }
  assert (Hne : l1.*1 <> []) by (rewrite Hl1, fmap_app; by destruct ((cells L bk1).*1)).
  destruct (lst_snoc 0 _ Hne) as [l0 Hl0]. set (b := lst 0 l1.*1) in *.
  pose proof (nodes_sep _ _ _ _ Hr) as Hsep. pose proof (hr_dls _ _ _ _ Hr) as Hd. fold L in Hd.
  assert (Hns : (cells L bk).*1 = l0 ++ b :: x :: l2.*1) by (rewrite Hc, fmap_app; simpl; rewrite Hl0, <- app_assoc; done).
  assert (Hin : forall n, n ∈ l0 ++ b :: x :: l2.*1 -> n ∈ nodes_of s bk out) by (intros n Hn; unfold nodes_of; fold L; rewrite Hns; apply elem_of_app; by left).
  assert (Hsep1 : sep_nodes (l0 ++ b :: x :: l2.*1)) by (rewrite <- Hns; exact (proj1 (sep_nodes_app _ _ Hsep))).
  rewrite Hns in Hd. apply (wp_unlink_dls l0 b x l2.*1); [done | done|].
  destruct (hrep_relink s cs bk out Hr (relink (mm_mem s) b (hdq l2.*1 0)) bk' ((x, sz) :: out)) as [Hr' Hk].
  - intros w Hw. apply relink_same; [apply Hw, Hin; apply elem_of_app; right; apply elem_of_cons; by left|].
    destruct l2 as [|n l2]; simpl; [by left | right]. apply Hw, Hin. apply elem_of_app. right. do 2 (apply elem_of_cons; right). apply elem_of_cons. by left.
  - intros w. apply relink_dom.
  - fold L. rewrite Hc', fmap_app, Hl0, <- app_assoc. simpl. apply dls_app in Hd as [Hd1 Hd2]. simpl in Hd2. destruct Hd2 as (Hd2 & Hd3 & Hd4 & Hd5 & Hd6).
    apply (dls_relink _ _ l0 b x x l2.*1); [| |done].
    + refine (proj1 (sep_nodes_app _ [x] _)). eapply sep_nodes_perm; [|exact Hsep1].
      rewrite <- app_assoc. simpl. rewrite (Permutation_app_comm l2.*1). done.
    + apply dls_app. simpl. done.
  - unfold bk'. pose proof (hr_len _ _ _ _ Hr) as Hlen. rewrite Hbk in Hlen. rewrite length_app in *. done.
  - unfold bk'. pose proof (hr_bk _ _ _ _ Hr) as Hok. rewrite Hbk in Hok. apply (bk_ok_edit _ _ _ _ _ Hok). intros Hf Hs. split; [|by eapply sorted_del].
    apply Forall_app in Hf as [? Hf]. apply Forall_cons in Hf as [_ ?]. by apply Forall_app.
  - rewrite Hperm. by rewrite <- Permutation_middle.
  - apply (HQ _ bk'); [done | by split | done].
Qed.

(** ** Adding a free chunk *)

(** The bucket for a size, with what comes before and after it. *)
Lemma bucket_at s cs bk out i : hrep s cs bk out -> 0 <= i < 19 -> exists bk1 b bk2, bk = bk1 ++ b :: bk2 /\ Z.of_nat (length bk1) = i /\
  cells (mm_nodelist s) bk = cells (mm_nodelist s) bk1 ++ (mm_nodelist s + 16 * i, 0) :: b ++ cells (mm_nodelist s + 16 * i + 16) bk2.
Proof.
  intros Hr Hi. pose proof (hr_len _ _ _ _ Hr) as Hlen. destruct (lookup_lt_is_Some_2 bk (Z.to_nat i)) as [b Hb]; [lia|].
  exists (take (Z.to_nat i) bk), b, (drop (S (Z.to_nat i)) bk). rewrite (take_drop_middle bk (Z.to_nat i) b Hb).
  assert (Hl : length (take (Z.to_nat i) bk) = Z.to_nat i) by (rewrite length_take; lia). split; [done|]. rewrite Hl. split; [lia|].
  rewrite <- (take_drop_middle bk (Z.to_nat i) b Hb) at 1. rewrite cells_app, Hl. simpl. by replace (16 * Z.of_nat (Z.to_nat i)) with (16 * i) by lia.
Qed.

Lemma sorted_from b2 n : StronglySorted by_size b2 -> (forall c, head b2 = Some c -> n <= snd c) -> Forall (fun c => n <= snd c) b2.
Proof.
  intros Hs Hh. destruct b2 as [|c b2]; [done|]. apply StronglySorted_inv in Hs as [_ Hs]. specialize (Hh c eq_refl). apply Forall_cons. split; [done|].
  eapply Forall_impl; [exact Hs|]. intros c' Hc'. unfold by_size in Hc'. lia.
Qed.

Lemma sorted_suffix (l1 l2 : list (Z * Z)) : StronglySorted by_size (l1 ++ l2) -> StronglySorted by_size l2.
Proof. induction l1 as [|c l1 IH]; [done|]. intros Hs. apply StronglySorted_inv in Hs as [Hs _]. by apply IH. Qed.

Lemma cells_first h bk : cells h bk = [] \/ exists h' r, cells h bk = (h', 0) :: r.
Proof. destruct bk as [|b bk]; simpl; [by left | right; eauto]. Qed.

(** The stores of [mm_addfreechunk]. *)
Lemma wp_link_in l b x r q0 y0 y1 y Q s : sep_nodes (l ++ b :: x :: r) -> dls (mm_mem s) 0 (l ++ [b]) q0 -> dls (mm_mem s) y0 [x] y1 -> dls (mm_mem s) y r 0 ->
  (forall m', dls m' 0 (l ++ b :: x :: r) 0 -> (forall w, (forall n, n ∈ l ++ b :: x :: r -> w <> n + 8 /\ w <> n + 12) -> m' !! w = mm_mem s !! w) ->
    (forall w, is_Some (mm_mem s !! w) -> is_Some (m' !! w)) -> Q tt (set_mem m' s)) ->
  wp (sto (n_flink b) x ;; sto (n_blink x) b ;; sto (n_flink x) (hdq r 0) ;; if hdq r 0 =? 0 then ret tt else sto (n_blink (hdq r 0)) x) Q s.
Proof.
  intros Hsep Hl Hx Hr HQ. pose proof Hx as (Hx12 & Hx8 & _).
  assert (Ib : b ∈ l ++ [b]) by (apply elem_of_app; right; by apply list_elem_of_singleton). destruct (dls_words _ _ _ _ b Hl Ib) as [Hb8 _].
  assert (Hsep2 : sep_nodes (l ++ [b; x])) by (refine (proj1 (sep_nodes_app _ r _)); by rewrite <- app_assoc).
  pose proof (dls_link_cons _ _ l b q0 y0 x [] y1 Hsep2 Hl Hx) as Hd1. set (m1 := <[x + 12 := b]> (<[b + 8 := x]> (mm_mem s))) in *.
  assert (Hperm : l ++ b :: x :: r ≡ₚ b :: x :: l ++ r) by (rewrite <- !Permutation_middle; done). pose proof (sep_nodes_perm _ _ Hperm Hsep) as Hsp.
  assert (Jb : b ∈ b :: x :: l ++ r) by (apply elem_of_cons; by left). assert (Jx : x ∈ b :: x :: l ++ r) by (apply elem_of_cons; right; apply elem_of_cons; by left).
  assert (Hr1 : dls m1 y r 0).
  { eapply dls_frame; [exact Hr|]. intros n Hn. pose proof Hsp as (Hnd & _). apply NoDup_cons in Hnd as [Hnb Hnd]. apply NoDup_cons in Hnd as [Hnx _].
    apply not_elem_of_cons in Hnb as [_ Hnb]. rewrite elem_of_app in Hnb, Hnx.
    assert (Jn : n ∈ b :: x :: l ++ r) by (do 2 (apply elem_of_cons; right); apply elem_of_app; by right).
    destruct (sep_frame _ b n Hsp Jb Jn) as (? & ? & ? & ?); [intros ->; tauto|]. destruct (sep_frame _ x n Hsp Jx Jn) as (? & ? & ? & ?); [intros ->; tauto|].
    unfold m1. by rewrite !lookup_insert_ne. }
  assert (Hd2 : dls (relink m1 x (hdq r 0)) 0 (l ++ b :: x :: r) 0).
  { pose proof (dls_relink m1 0 (l ++ [b]) x y1 y r) as Hd. rewrite <- !app_assoc in Hd. by apply Hd. }
  assert (Q2 : Q tt (set_mem (relink m1 x (hdq r 0)) s)).
  { apply HQ; [exact Hd2 | |].
    - intros w Hw. destruct (Hw b) as [? _]; [by rewrite Hperm|]. destruct (Hw x) as [? ?]; [by rewrite Hperm|].
      rewrite relink_same; [unfold m1; by rewrite !lookup_insert_ne | done|]. destruct r as [|n r]; simpl; [by left | right].
      apply Hw. apply elem_of_app. right. do 2 (apply elem_of_cons; right). apply elem_of_cons. by left.
    - intros w Hw. apply relink_dom. unfold m1. rewrite !lookup_insert_is_Some'. tauto. }
  unfold n_flink, n_blink. apply wp_bind, wp_sto; [done|]. apply wp_bind, wp_sto; [simpl; rewrite lookup_insert_is_Some'; right; eauto|].
  apply wp_bind, wp_sto; [simpl; rewrite !lookup_insert_is_Some'; right; right; eauto|]. unfold relink in Q2.
  destruct (Z.eqb_spec (hdq r 0) 0) as [E|Hnz]; [by apply wp_ret|]. apply wp_sto; [|exact Q2]. simpl. rewrite !lookup_insert_is_Some'. do 3 right.
  destruct r as [|n r]; simpl in *; [done|]. destruct Hr as (? & _). eauto.
Qed.

Lemma out_words s cs bk out x sz : hrep s cs bk out -> (x, sz) ∈ concat bk ++ out -> exists p q, dls (mm_mem s) p [x] q.
Proof.
  intros Hr Hx. destruct (free_node _ _ _ _ Hr x sz Hx) as ([k Hk] & H1 & H2 & H3 & _). pose proof (hr_size _ _ _ _ Hr).
  destruct (hr_words _ _ _ _ Hr (4 * k + 4)) as [q Hq]; [lia|]. destruct (hr_words _ _ _ _ Hr (4 * k + 5)) as [p Hp]; [lia|].
  exists p, q. simpl. replace (x + 12) with (4 * (4 * k + 5)) by lia. by replace (x + 8) with (4 * (4 * k + 4)) by lia.
Qed.

Lemma wp_addfreechunk x sz s cs bk out Q : hrep s cs bk ((x, sz) :: out) ->
  (forall s' bk', hrep s' cs bk' out -> kept cs s s' -> concat bk' ≡ₚ (x, sz) :: concat bk -> Q tt s') -> wp (mm_addfreechunk x) Q s.
Proof.
  intros Hr HQ. assert (Hx : (x, sz) ∈ concat bk ++ (x, sz) :: out) by (apply elem_of_app; right; apply elem_of_cons; by left).
  destruct (free_node _ _ _ _ Hr x sz Hx) as (_ & Hb & He & H16 & Hf & Hm). destruct (hr_place _ _ _ _ Hr) as [_ Ha Hend Hs _ _].
  pose proof (hr_size _ _ _ _ Hr). assert (Hi : 0 <= ndx sz < 19) by (apply ndx_range; lia).
  destruct (bucket_at _ _ _ _ (ndx sz) Hr Hi) as (bk1 & b & bk2 & Hbk & Hlen & Hc). set (L := mm_nodelist s) in *. set (h := L + 16 * ndx sz) in *.
  set (rest := cells (h + 16) bk2) in *. pose proof (hr_dls _ _ _ _ Hr) as Hd. fold L in Hd. pose proof (cells_sized _ _ _ _ Hr) as Hsz. fold L in Hsz.
  pose proof (nodes_sep _ _ _ _ Hr) as Hsep. pose proof (cells_fuel _ _ _ _ Hr) as Hfuel. fold L in Hfuel. rewrite Hc in Hfuel.
  rewrite length_app in Hfuel. simpl in Hfuel. rewrite length_app in Hfuel. pose proof (hr_bk _ _ _ _ Hr) as Hok. rewrite Hbk in Hok.
  pose proof Hok as Hok'. apply bk_ok_app in Hok' as (_ & Hbb & Hbs & _).
  unfold nodes_of in Hsep. fold L in Hsep. rewrite Hc in Hd, Hsz, Hsep. unfold sized in Hsz. apply Forall_app in Hsz as [_ Hsz]. apply Forall_cons in Hsz as [_ Hsz].
  pose proof Hd as Hd0. rewrite fmap_app in Hd0. apply dls_app in Hd0 as [Hd1 Hd2]. simpl in Hd2. destruct Hd2 as (Hd2 & Hd3 & Hd4).
  assert (H0 : 0 ∉ (b ++ rest).*1).
  { destruct Hsep as (_ & _ & H0). intros Hin. apply H0. apply elem_of_app. left. rewrite fmap_app. apply elem_of_app. right. simpl. apply elem_of_cons. by right. }
  unfold mm_addfreechunk. apply wp_bind, (wp_ld _ sz); [done|]. apply wp_bind, wp_size2ndx; [lia|]. unfold nodelist. apply wp_bind, wp_bind, wp_gets, wp_ret.
  change (SIZEOF_MM_FREENODE * ndx sz) with (16 * ndx sz). fold L h. apply wp_bind, (wp_ld _ (hdq (b ++ rest).*1 0)); [done|].
  unfold mem_fuel. apply wp_bind, wp_bind, wp_gets, wp_ret. apply wp_bind. apply wp_place_loop; [done | done | done | lia | | |].
  { eapply Forall_impl; [exact Hbb|]. by intros c [_ ?]. }
  { unfold rest. destruct (cells_first (h + 16) bk2) as [?|(? & ? & ?)]; eauto. }
  intros b1 b2 -> Hb1 Hb2. cbn [fst snd].
  set (l1 := (cells L bk1 ++ (h, 0) :: b1).*1). set (r := (b2 ++ rest).*1).
  assert (Hl1 : lst h b1.*1 = lst 0 l1) by (unfold l1; rewrite fmap_app, lst_app; done).
  assert (Hne : l1 <> []) by (unfold l1; rewrite fmap_app; by destruct ((cells L bk1).*1)).
  destruct (lst_snoc 0 _ Hne) as [l0 Hl0]. rewrite Hl1. set (pv := lst 0 l1) in *.
  set (bk' := bk1 ++ (b1 ++ (x, sz) :: b2) :: bk2).
  assert (Hc' : (cells L bk').*1 = l0 ++ pv :: x :: r).
  { unfold bk'. rewrite cells_app. cbn [cells]. rewrite Hlen. fold h rest. rewrite <- app_assoc. cbn [app]. rewrite app_comm_cons, app_assoc, fmap_app.
    fold l1. rewrite Hl0, <- app_assoc. done. }
  assert (Hold : (cells L bk1 ++ (h, 0) :: (b1 ++ b2) ++ rest).*1 = l0 ++ pv :: r).
  { rewrite <- app_assoc, app_comm_cons, app_assoc, fmap_app. fold l1 r. rewrite Hl0, <- app_assoc. done. }
  rewrite Hold in Hd, Hsep.
  assert (Hsepx : sep_nodes (l0 ++ pv :: x :: r)).
  { refine (proj1 (sep_nodes_app _ out.*1 _)). eapply sep_nodes_perm; [|exact Hsep]. simpl. rewrite <- !app_assoc. simpl. by rewrite <- (Permutation_middle r). }
  assert (Hin : forall n, n ∈ l0 ++ pv :: x :: r -> n ∈ nodes_of s bk ((x, sz) :: out)).
  { intros n Hn. unfold nodes_of. fold L. rewrite Hc, Hold. simpl. rewrite !elem_of_app, !elem_of_cons in Hn. rewrite !elem_of_app, !elem_of_cons. tauto. }
  destruct (out_words _ _ _ _ x sz Hr Hx) as (y0 & y1 & Hxw). 
  replace (l0 ++ pv :: r) with ((l0 ++ [pv]) ++ r) in Hd by (by rewrite <- app_assoc). apply dls_app in Hd as [Hda Hdb]. rewrite lst_app in Hdb. simpl in Hdb.
  apply (wp_link_in l0 pv x r (hdq r 0) y0 y1 pv); [done | done | done | done|]. intros m' Hm1 Hm2 Hm3.
  destruct (hrep_relink s cs bk ((x, sz) :: out) Hr m' bk' out) as [Hr' Hk].
  - intros w Hw. apply Hm2. intros n Hn. by apply Hw, Hin.
  - done.
  - fold L. by rewrite Hc'.
  - unfold bk'. pose proof (hr_len _ _ _ _ Hr) as Hl. rewrite Hbk in Hl. rewrite length_app in *. done.
  - apply (bk_ok_edit _ _ _ _ _ Hok). intros Hf1 Hf2. apply Forall_app in Hf1 as [Hf1a Hf1b]. split; [apply Forall_app; split; [done|]; apply Forall_cons; simpl; split; [lia | done]|].
    apply sorted_ins; [done | |].
    + eapply Forall_impl; [exact Hb1|]. intros c Hc1. unfold by_size. simpl in *. lia.
    + eapply Forall_impl; [eapply sorted_from; [by eapply sorted_suffix | exact Hb2]|]. done.
  - unfold bk'. rewrite Hbk, !concat_app. simpl. rewrite <- !app_assoc. simpl. by rewrite <- !Permutation_middle.
  - apply (HQ _ bk'); [done | by split|]. unfold bk'. rewrite Hbk, !concat_app. simpl. rewrite <- !app_assoc. simpl. by rewrite <- !Permutation_middle.
Qed.
