(* ===== verification/MmOps.v ===== *)
(** * Splitting, joining, allocating and freeing chunks *)

From S2P Require Import Prelude.
From S2P Require Import Monad.
From S2P Require Import MmHeap.
From S2P Require Import MmRep.
From S2P Require Import MmList.

Implicit Types (s : mm_heap_s) (cs : list chunk) (bk : list (list (Z * Z))).

(** ** The allocation bit *)

Lemma land_alloc p : 0 <= p < 2 ^ 31 -> Z.land p MM_ALLOC_BIT = 0.
Proof.
  intros Hp. apply Z.bits_inj'. intros n Hn. change MM_ALLOC_BIT with (2 ^ 31). rewrite Z.land_spec, Z.bits_0, Z.pow2_bits_eqb by lia.
  destruct (Z.eqb_spec 31 n) as [<-|]; [|apply andb_false_r]. rewrite andb_true_r. apply Z.bits_above_log2; [lia|].
  destruct (Z.eq_dec p 0) as [->|]; [done|]. apply Z.log2_lt_pow2; lia.
Qed.

Lemma lor_alloc p : 0 <= p < 2 ^ 31 -> Z.lor p MM_ALLOC_BIT = p + MM_ALLOC_BIT.
Proof. intros Hp. by rewrite <- Z.lxor_lor, <- Z.add_nocarry_lxor by (by apply land_alloc). Qed.

Lemma land_bits p al : 0 <= p < 2 ^ 31 -> Z.land (bits p al) MM_ALLOC_BIT = if al then MM_ALLOC_BIT else 0.
Proof.
  intros Hp. destruct al; simpl; [|by apply land_alloc]. rewrite <- lor_alloc by done. rewrite Z.land_lor_distr_l, land_alloc by done. done.
Qed.

Lemma lor_bits p q al : 0 <= p < 2 ^ 31 -> 0 <= q < 2 ^ 31 -> Z.lor p (Z.land (bits q al) MM_ALLOC_BIT) = bits p al.
Proof. intros Hp Hq. rewrite land_bits by done. destruct al; simpl; [by apply lor_alloc | apply Z.lor_0_r]. Qed.

Lemma clear_bit p : 0 <= p < 2 ^ 31 -> Z.land (bits p true) (u32 (Z.lnot MM_ALLOC_BIT)) = p.
Proof.
  intros Hp. simpl. rewrite <- lor_alloc by done. rewrite Z.land_lor_distr_l. change (u32 (Z.lnot MM_ALLOC_BIT)) with (Z.ones 31).
  rewrite Z.land_ones, Z.mod_small by lia. change (Z.land MM_ALLOC_BIT (Z.ones 31)) with 0. apply Z.lor_0_r.
Qed.

(** Reading memory after stores. *)
Ltac mlook := repeat first [rewrite lookup_insert_eq | rewrite lookup_insert_ne by lia]; done.

(** ** Changing headers *)

(** The chunks [mid] become [mid']; the header after them holds the new size
    of the chunk before it. *)
Section Headers.
Context (s : mm_heap_s) (l1 mid mid' l2 : list chunk) (bk : list (list (Z * Z))) (out out' : list (Z * Z)).
Context (Hr : hrep s (l1 ++ mid ++ l2) bk out) (Htot : total mid' = total mid) (Hgood : Forall good mid').
Local Abbreviation B := (mm_heapstart s + 8).
Local Abbreviation a0 := (mm_heapstart s + 8 + total l1).
Local Abbreviation m := (mm_mem s).

(** The words of the headers that change. *)
Definition touched (w : Z) : Prop := (exists k, w = 16 * k + 8 \/ w = 16 * k + 12) /\ a0 <= w <= a0 + total mid + 4 /\ w <> a0 + total mid.

Lemma touched_heads w i : touched w -> 0 <= i < 19 -> w <> mm_nodelist s + 16 * i /\ w <> mm_nodelist s + 16 * i + 8 /\ w <> mm_nodelist s + 16 * i + 12.
Proof.
  intros (_ & Hw & _) Hi. destruct (hr_place _ _ _ _ Hr) as [_ Ha He Hs Hl Hap]. pose proof (hr_size _ _ _ _ Hr) as Hsz.
  pose proof (hr_good _ _ _ _ Hr) as Hg. apply Forall_app in Hg as [Hg1 Hg2]. apply Forall_app in Hg2 as [Hg2 Hg3].
  rewrite !total_app in Hsz. pose proof (total_pos _ Hg1). pose proof (total_pos _ Hg3). lia.
Qed.

Lemma frees_swap o : out ≡ₚ frees a0 mid ++ o -> out' ≡ₚ frees a0 mid' ++ o -> concat bk ++ out' ≡ₚ frees B (l1 ++ mid' ++ l2).
Proof.
  intros Ho Ho'. pose proof (hr_frees _ _ _ _ Hr) as Hf. rewrite Ho in Hf. rewrite Ho'. rewrite !chunks_app in Hf |- *. rewrite Htot.
  apply (Permutation_app_inv_l (frees a0 mid)). rewrite (Permutation_app_comm (frees a0 mid) (frees B l1 ++ _)).
  assert (E : concat bk ++ o ≡ₚ frees B l1 ++ frees (a0 + total mid) l2).
  { apply (Permutation_app_inv_l (frees a0 mid)). rewrite (Permutation_app_comm _ (concat bk ++ o)), <- app_assoc, (Permutation_app_comm o), Hf.
    rewrite (Permutation_app_comm (frees a0 mid) (_ ++ _)), <- app_assoc. by rewrite (Permutation_app_comm (frees (a0 + total mid) l2)). }
  rewrite (Permutation_app_comm (frees a0 mid) (concat bk ++ _)). apply Permutation_app; [|done].
  rewrite (Permutation_app_comm (frees a0 mid')), app_assoc, E. rewrite <- app_assoc. apply Permutation_app; [done|]. apply Permutation_app_comm.
Qed.

Lemma hrep_headers m' nx l3 o :
  l2 ++ [guard] = nx :: l3 ->
  (forall w, ~ touched w -> m' !! w = m !! w) -> (forall w, is_Some (m !! w) -> is_Some (m' !! w)) ->
  hdrs m' a0 (last_size 8 l1) (mid' ++ [nx]) -> out ≡ₚ frees a0 mid ++ o -> out' ≡ₚ frees a0 mid' ++ o ->
  hrep (set_mem m' s) (l1 ++ mid' ++ l2) bk out'.
Proof.
  intros Hnx Hsame Hdom Hh Ho Ho'. pose proof (frees_swap o Ho Ho') as Hfr. destruct (hr_place _ _ _ _ Hr) as [[j Hj] Ha He Hs Hl Hap]. pose proof (hr_size _ _ _ _ Hr) as Hsz.
  pose proof (hr_good _ _ _ _ Hr) as Hg. apply Forall_app in Hg as [Hg1 Hg2]. apply Forall_app in Hg2 as [Hg2 Hg3].
  assert (Htot' : total (l1 ++ mid' ++ l2) = total (l1 ++ mid ++ l2)) by (rewrite !total_app; lia).
  assert (Hlow : forall w, w < a0 -> m' !! w = m !! w) by (intros w Hw; apply Hsame; intros (_ & ? & _); lia).
  assert (Hhigh : forall w, a0 + total mid + 4 < w -> m' !! w = m !! w) by (intros w Hw; apply Hsame; intros (_ & ? & _); lia).
  pose proof (total_pos _ Hg1) as Hp1. pose proof (hr_hdrs _ _ _ _ Hr) as Hold.
  constructor; cbn [mm_mem mm_nodelist mm_heapsize mm_heapstart mm_heapend set_mem]; try (apply Hr || done).
  - by rewrite Htot'.
  - rewrite Htot'. apply Hr.
  - rewrite !Forall_app. done.
  - intros k Hk. apply Hdom, Hr. done.
  - rewrite !Hlow by lia. apply Hr.
  - rewrite <- !app_assoc in Hold |- *. rewrite Hnx in Hold |- *. apply hdrs_app in Hold as [Ho1 Ho2]. apply hdrs_app. split.
    + eapply hdrs_frame; [exact Ho1|]. intros x Hx. destruct (addrs_range _ _ _ Hg1 Hx) as (? & ? & _). rewrite !Hlow by lia. done.
    + change (nx :: l3) with ([nx] ++ l3) in *. rewrite app_assoc in Ho2 |- *. apply hdrs_app in Ho2 as [_ Ho2]. apply hdrs_app. split; [exact Hh|].
      rewrite total_app, last_size_app in *. simpl in *. rewrite Htot. eapply hdrs_frame; [exact Ho2|]. intros x Hx.
      assert (Hnxp : 8 <= fst nx). { destruct l2 as [|c l]; injection Hnx as <- _; [done|]. apply Forall_cons in Hg3 as [[? _] _]. lia. }
      assert (Hlow' : a0 + (total mid + (fst nx + 0)) <= x).
      { destruct l2 as [|c l]; simpl in Hnx; injection Hnx as <- <-; [by apply elem_of_nil in Hx|]. apply Forall_cons in Hg3 as [_ Hg3].
        rewrite addrs_app in Hx. apply elem_of_app in Hx as [Hx|Hx]; [by destruct (addrs_range _ _ _ Hg3 Hx)|].
        simpl in Hx. apply list_elem_of_singleton in Hx as ->. pose proof (total_pos _ Hg3). lia. }
      rewrite !Hhigh by lia. done.
  - intros i Hi. rewrite Hsame; [by apply Hr|]. intros Ht. by destruct (touched_heads _ i Ht Hi).
  - eapply dls_frame; [apply Hr|]. intros n Hn.
    assert (Hn' : n ∈ nodes_of s bk out) by (apply elem_of_app; by left). apply (node_cases _ _ _ _ Hr) in Hn'.
    split; apply Hsame; intros Ht; destruct Hn' as [(i & Hi & ->)|(k & sz & Hk & _)].
    + by destruct (touched_heads _ i Ht Hi) as (_ & ? & _).
    + destruct Ht as ((k' & Hk') & _). lia.
    + by destruct (touched_heads _ i Ht Hi) as (_ & _ & ?).
    + destruct Ht as ((k' & Hk') & _). lia.
Qed.

(** The contents of the other chunks stay. *)
Lemma headers_kept m' : (forall w, ~ touched w -> m' !! w = m !! w) -> forall mid0, total mid0 = total mid -> Forall (fun c => snd c = false) mid0 ->
  kept (l1 ++ mid0 ++ l2) s (set_mem m' s).
Proof.
  intros Hsame mid0 Ht Hf. split; [done|]. intros w (x & sz & Hx & Hw). apply Hsame. intros (_ & Hw' & Hne).
  pose proof (hr_good _ _ _ _ Hr) as Hg. apply Forall_app in Hg as [Hg1 Hg2]. apply Forall_app in Hg2 as [Hg2 Hg3].
  rewrite !chunks_app in Hx. apply elem_of_app in Hx as [Hx|Hx]; [apply (chunks_range _ _ _ _ _ Hg1) in Hx as (_ & ? & _); lia|].
  apply elem_of_app in Hx as [Hx|Hx].
  - apply chunks_split in Hx as (u & v & -> & _). apply Forall_app in Hf as [_ Hf]. apply Forall_cons in Hf as [Hf _]. done.
  - apply (chunks_range _ _ _ _ _ Hg3) in Hx as (? & _). lia.
Qed.
End Headers.

(** ** Cutting a chunk *)

Lemma kept_allocs cs cs' s s' : allocs (mm_heapstart s + 8) cs = allocs (mm_heapstart s + 8) cs' -> kept cs s s' -> kept cs' s s'.
Proof. intros E [H1 H2]. split; [done|]. intros w (x & sz & Hx & Hw). apply H2. exists x, sz. by rewrite E. Qed.

(** The chunk at [a] and the header after it. *)
Lemma chunk_words s l1 c l2 bk out : hrep s (l1 ++ c :: l2) bk out -> let a := mm_heapstart s + 8 + total l1 in
  exists nx l3, l2 ++ [guard] = nx :: l3 /\ mm_mem s !! a = Some (fst c) /\ mm_mem s !! (a + 4) = Some (bits (last_size 8 l1) (snd c)) /\
    mm_mem s !! (a + fst c) = Some (fst nx) /\ mm_mem s !! (a + fst c + 4) = Some (bits (fst c) (snd nx)) /\ 0 <= last_size 8 l1 < 2 ^ 31 /\ 0 <= fst c < 2 ^ 31 /\
    (exists k, a = 16 * k + 8) /\ good c /\ mm_heapstart s + 8 <= a /\ a + fst c <= mm_heapstart s + 8 + total (l1 ++ c :: l2) /\ mm_heapstart s + mm_heapsize s = mm_heapstart s + 16 + total (l1 ++ c :: l2).
Proof.
  intros Hr a. pose proof (hr_hdrs _ _ _ _ Hr) as Hh. rewrite <- app_assoc in Hh. apply hdrs_app in Hh as [_ Hh]. cbn [app hdrs] in Hh.
  destruct Hh as (H1 & H2 & H3). pose proof (hr_good _ _ _ _ Hr) as Hg. apply Forall_app in Hg as [Hg1 Hg2]. apply Forall_cons in Hg2 as [Hc Hg2].
  destruct (hr_place _ _ _ _ Hr) as [[j Hj] _ _ Hs _ _]. pose proof (hr_size _ _ _ _ Hr) as Hsz. rewrite total_app in *. simpl in *.
  pose proof (total_pos _ Hg1). pose proof (total_pos _ Hg2). destruct (total_16 _ Hg1) as [k Hk].
  assert (Hl : 0 <= last_size 8 l1 < 2 ^ 31).
  { destruct l1 as [|b u _] using rev_ind; [done|]. rewrite last_size_app. simpl. apply Forall_app in Hg1 as [Hu Hb]. apply Forall_singleton in Hb as [Hb _].
    rewrite total_app in Hsz. simpl in Hsz. pose proof (total_pos _ Hu). destruct Hc as [Hc _]. lia. }
  assert (Hx : exists nx l3, l2 ++ [guard] = nx :: l3) by (destruct l2; simpl; eauto). destruct Hx as (nx & l3 & Hx). rewrite Hx in H3. destruct H3 as (H3 & H4 & _).
  exists nx, l3. destruct Hc as [Hc Hc']. unfold a. repeat (split; [done || lia|]). split; [exists (j + k); lia|]. split; [done|]. lia.
Qed.

(** What is left of a chunk of [sz] bytes when [size] are taken. *)
Definition rest_of (sz size : Z) : list chunk := if sz =? size then [] else [(sz - size, false)].

Lemma wp_split size sz s l1 l2 bk Q : let x := mm_heapstart s + 8 + total l1 in
  hrep s (l1 ++ (sz, false) :: l2) bk [(x, sz)] -> good (size, false) -> size <= sz ->
  (forall s' bk', hrep s' (l1 ++ (size, false) :: rest_of sz size ++ l2) bk' [(x, size)] -> kept (l1 ++ (sz, false) :: l2) s s' -> Q tt s') ->
  wp (split x size) Q s.
Proof.
  intros x Hr Hsize Hle HQ. destruct (chunk_words _ _ _ _ _ _ Hr) as (nx & l3 & Hnx & H1 & H2 & H3 & H4 & Hpre & Hsz & [k Hk] & Hg & Hb & He & Hhs).
  fold x in H1, H2, H3, H4, Hk, Hb, He. cbn [fst snd] in *. unfold split, n_size, n_preceding. apply wp_bind, (wp_ld _ sz); [done|].
  destruct Hsize as [Hs16 [ks Hks]], Hg as [_ [kz Hkz]]. cbn [fst] in *. unfold wrap. rewrite Z.mod_small by lia.
  unfold rest_of in HQ. destruct (Z.eqb_spec sz size) as [->|Hne].
  { replace (SIZEOF_MM_FREENODE <=? size - size) with false by (symmetry; apply Z.leb_gt; unfold SIZEOF_MM_FREENODE, SIZEOF_MM_ALLOCNODE; lia).
    apply (HQ s bk); [done | apply kept_refl]. }
  replace (SIZEOF_MM_FREENODE <=? sz - size) with true by (symmetry; apply Z.leb_le; unfold SIZEOF_MM_FREENODE, SIZEOF_MM_ALLOCNODE; lia).
  assert (Hw : forall w, (exists j, w = 4 * j) -> x <= w < x + sz -> is_Some (mm_mem s !! w)) by (intros w [j ->] Hw; apply Hr; lia).
  simpl. set (r := x + size). set (mem' := <[x + sz + 4 := bits (sz - size) nx.2]> (<[x := size]> (<[r + 4 := size]> (<[r := sz - size]> (mm_mem s))))).
  assert (Hst : forall (c : HM unit) P, wp c P (set_mem mem' s) ->
    wp (sto r (sz - size) ;; sto (r + 4) size ;; sto x size ;; np <- ld (x + sz + 4) ;; sto (x + sz + 4) (Z.lor (sz - size) (Z.land np MM_ALLOC_BIT)) ;; c) P s).
  { intros c P HP. apply wp_bind, wp_sto; [apply Hw; [exists (4 * k + 2 + 4 * ks); lia | lia]|].
    apply wp_bind, wp_sto; [simpl; rewrite lookup_insert_is_Some'; right; apply Hw; [exists (4 * k + 3 + 4 * ks); lia | lia]|].
    apply wp_bind, wp_sto; [simpl; rewrite !lookup_insert_is_Some'; eauto|].
    apply wp_bind, (wp_ld _ (bits sz nx.2)); [simpl; by rewrite !lookup_insert_ne by lia|]. rewrite lor_bits by lia.
    apply wp_bind, wp_sto; [simpl; rewrite !lookup_insert_is_Some'; eauto 7 | exact HP]. }
  assert (Hsame : forall w, ~ touched s l1 [(sz, false)] w -> mem' !! w = mm_mem s !! w).
  { intros w Hnt. unfold mem'. rewrite !lookup_insert_ne; [done|..]; intros <-; apply Hnt; unfold touched; fold x; cbn [total fst]; (split; [|lia]).
    - exists (k + ks). lia.
    - exists (k + ks). lia.
    - exists k. lia.
    - exists (k + kz). lia. }
  assert (Hr' : hrep (set_mem mem' s) (l1 ++ [(size, false); (sz - size, false)] ++ l2) bk [(r, sz - size); (x, size)]).
  { apply (hrep_headers s l1 [(sz, false)] [(size, false); (sz - size, false)] l2 bk [(x, sz)] _ Hr) with (nx := nx) (l3 := l3) (o := []); try done.
    - simpl. lia.
    - apply Forall_cons. split; [split; [done | by exists ks]|]. apply Forall_singleton. split; [simpl; lia | exists (kz - ks); simpl; lia].
    - intros w Hs. unfold mem'. rewrite !lookup_insert_is_Some'. tauto.
    - fold x r. simpl. fold r. replace (r + (sz - size)) with (x + sz) by lia. unfold mem'. repeat split; mlook.
    - fold x. simpl. apply Permutation_swap. }
  assert (Hk' : kept (l1 ++ (sz, false) :: l2) s (set_mem mem' s)).
  { apply (headers_kept s l1 [(sz, false)] l2 bk [(x, sz)] Hr mem' Hsame [(sz, false)]); [done | by apply Forall_singleton]. }
  apply Hst. apply (wp_addfreechunk r (sz - size) _ _ _ [(x, size)] Q Hr'). intros s' bk' Hr2 Hk2 _. apply (HQ s' bk'); [done|].
  eapply kept_trans; [exact Hk'|]. eapply kept_allocs; [|exact Hk2]. simpl. rewrite !chunks_app. simpl. do 2 f_equal. lia.
Qed.

(** The chunk in hand is marked as allocated. *)
Lemma wp_mark size s l1 l2 bk Q : let x := mm_heapstart s + 8 + total l1 in hrep s (l1 ++ (size, false) :: l2) bk [(x, size)] ->
  (forall s', hrep s' (l1 ++ (size, true) :: l2) bk [] -> kept (l1 ++ (size, false) :: l2) s s' -> Q tt s') ->
  wp (p <- ld (n_preceding x) ;; sto (n_preceding x) (Z.lor p MM_ALLOC_BIT)) Q s.
Proof.
  intros x Hr HQ. destruct (chunk_words _ _ _ _ _ _ Hr) as (nx & l3 & Hnx & H1 & H2 & H3 & H4 & Hpre & Hsz & [k Hk] & Hg & Hb & He & Hhs).
  fold x in H1, H2, H3, H4, Hk, Hb, He. cbn [fst snd] in *. destruct Hg as [Hg Hg']. cbn [fst] in *. unfold n_preceding.
  apply wp_bind, (wp_ld _ (last_size 8 l1)); [done|]. apply wp_sto; [eauto|]. rewrite lor_alloc by done.
  assert (Hsame : forall w, ~ touched s l1 [(size, false)] w -> <[x + 4 := last_size 8 l1 + MM_ALLOC_BIT]> (mm_mem s) !! w = mm_mem s !! w).
  { intros w Hnt. rewrite lookup_insert_ne; [done|]. intros <-. apply Hnt. unfold touched. fold x. cbn [total fst]. split; [exists k; lia | lia]. }
  apply HQ.
  - apply (hrep_headers s l1 [(size, false)] [(size, true)] l2 bk [(x, size)] [] Hr) with (nx := nx) (l3 := l3) (o := []); try done.
    + by apply Forall_singleton.
    + intros w. rewrite lookup_insert_is_Some'. tauto.
    + fold x. simpl. repeat split; mlook.
  - by apply (headers_kept s l1 [(size, false)] l2 bk [(x, size)] Hr _ Hsame [(size, false)]); [|apply Forall_singleton].
Qed.

(** ** Counting *)

(** Bytes in allocated chunks, in free chunks, number and largest of the free
    chunks. *)
Fixpoint used cs : Z := match cs with [] => 0 | c :: r => (if snd c then fst c else 0) + used r end.
Fixpoint unused cs : Z := match cs with [] => 0 | c :: r => (if snd c then 0 else fst c) + unused r end.
Fixpoint holes cs : Z := match cs with [] => 0 | c :: r => (if snd c then 0 else 1) + holes r end.
Fixpoint largest (n : Z) cs : Z := match cs with [] => n | c :: r => largest (if snd c then n else Z.max n (fst c)) r end.

Definition info_of cs : mallinfo := mkInfo (total cs + 16) (holes cs) (largest 0 cs) (used cs + 16) (unused cs).

Lemma used_unused cs : used cs + unused cs = total cs.
Proof. induction cs as [|c cs IH]; simpl; [done|]. destruct (snd c); lia. Qed.

Lemma used_pos cs : Forall good cs -> 0 <= used cs /\ 0 <= unused cs.
Proof. induction 1 as [|c cs [Hc _] _ IH]; simpl; [done|]. destruct (snd c); lia. Qed.

Lemma largest_bound n cs : Forall good cs -> 0 <= n -> n <= largest n cs <= n + total cs.
Proof.
  intros Hg. revert n. induction Hg as [|c cs [Hc _] Hg IH]; intros n Hn; simpl; [lia|]. pose proof (total_pos _ Hg).
  destruct (snd c); [specialize (IH n Hn) | specialize (IH (Z.max n (fst c)) ltac:(lia))]; lia.
Qed.

Lemma chunk_addrs_nodup a cs : Forall good cs -> NoDup (addrs a cs).
Proof.
  intros Hg. revert a. induction Hg as [|c cs [Hc _] Hg IH]; intros a; simpl; constructor; [|apply IH].
  intros Hin. destruct (addrs_range _ _ _ Hg Hin). lia.
Qed.

Lemma addrs_length a cs : length (addrs a cs) = length cs.
Proof. revert a. induction cs as [|c cs IH]; intros a; simpl; [done | by rewrite IH]. Qed.

Lemma chunks_fuel s cs bk out : hrep s cs bk out -> (length cs < size (mm_mem s))%nat.
Proof.
  intros Hr. pose proof (hr_good _ _ _ _ Hr) as Hg. set (B := mm_heapstart s + 8).
  assert (Hnd : NoDup (mm_heapstart s :: addrs B cs)).
  { constructor; [|by apply chunk_addrs_nodup]. intros Hin. destruct (addrs_range _ _ _ Hg Hin). unfold B in *. lia. }
  rewrite <- (addrs_length B cs). change (S (length (addrs B cs)) <= size (mm_mem s))%nat. change (S (length (addrs B cs))) with (length (mm_heapstart s :: addrs B cs)).
  rewrite <- (size_list_to_set (C := gset Z)) by done. rewrite <- size_dom. apply subseteq_size. intros x Hx. apply elem_of_list_to_set in Hx.
  apply elem_of_dom. apply elem_of_cons in Hx as [->|Hx]; [destruct (hr_guard _ _ _ _ Hr); eauto|].
  destruct (pl_align _ _ _ (hr_place _ _ _ _ Hr)) as [j Hj]. pose proof (hr_size _ _ _ _ Hr). destruct (addrs_range _ _ _ Hg Hx) as (? & ? & k & Hk).
  replace x with (4 * (4 * j + 2 + 4 * k)) by (unfold B in *; lia). apply Hr. unfold B in *. lia.
Qed.

Lemma wp_info_loop fuel : forall cs s a pre i Q, hdrs (mm_mem s) a pre cs -> a + total cs = mm_heapend s -> Forall good cs -> 0 <= pre < 2 ^ 31 -> total cs < 2 ^ 31 ->
  (length cs < fuel)%nat -> 0 <= uordblks i /\ uordblks i + total cs < 2 ^ 32 -> 0 <= fordblks i /\ fordblks i + total cs < 2 ^ 32 ->
  Q (mkInfo (arena i) (ordblks i + holes cs) (largest (mxordblk i) cs) (uordblks i + used cs) (fordblks i + unused cs)) s -> wp (info_loop fuel a i) Q s.
Proof.
  induction fuel as [|fuel IH]; intros cs s a pre i Q Hh He Hg Hp Ht Hf Hu Hfr HQ; [lia|]. cbn [info_loop]. apply wp_bind, wp_gets.
  destruct cs as [|[sz al] cs]; simpl in *.
  { rewrite (proj2 (Z.ltb_ge a (mm_heapend s))) by lia. apply wp_ret. rewrite !Z.add_0_r in HQ. by destruct i. }
  apply Forall_cons in Hg as [[Hc Hc'] Hg]. simpl in Hc. pose proof (total_pos _ Hg). destruct Hh as (H1 & H2 & H3).
  rewrite (proj2 (Z.ltb_lt a (mm_heapend s))) by lia. apply wp_bind, (wp_ld _ (bits pre al)); [done|]. apply wp_bind, (wp_ld _ sz); [done|].
  rewrite land_bits by done. destruct al; simpl.
  - apply (IH cs s (a + sz) sz); [done | lia | done | lia | lia | lia | | |]; cbn [uordblks fordblks arena ordblks mxordblk]; unfold wrap; rewrite ?Z.mod_small by lia; [lia | lia|].
    rewrite ?Z.add_0_l in HQ. by rewrite <- Z.add_assoc.
  - apply (IH cs s (a + sz) sz); [done | lia | done | lia | lia | lia | | |]; cbn [uordblks fordblks arena ordblks mxordblk]; unfold wrap; rewrite ?Z.mod_small by lia; [lia | lia|].
    rewrite ?Z.add_0_l in HQ. replace (if mxordblk i <? sz then sz else mxordblk i) with (Z.max (mxordblk i) sz) by (destruct (Z.ltb_spec (mxordblk i) sz); lia).
    by rewrite <- !Z.add_assoc.
Qed.

Lemma wp_mallinfo s cs bk out Q : hrep s cs bk out -> Q (info_of cs) s -> wp mm_mallinfo Q s.
Proof.
  intros Hr HQ. pose proof (hr_good _ _ _ _ Hr) as Hg. pose proof (hr_size _ _ _ _ Hr) as Hs. destruct (hr_place _ _ _ _ Hr) as [_ _ _ Hlt _ _].
  pose proof (total_pos _ Hg). destruct (hr_guard _ _ _ _ Hr) as [G1 G2]. pose proof (hr_hdrs _ _ _ _ Hr) as Hh. apply hdrs_app in Hh as [Hh _].
  destruct (used_pos _ Hg). pose proof (used_unused cs). pose proof (largest_bound 0 cs Hg). pose proof (hr_end _ _ _ _ Hr) as He.
  unfold mm_mallinfo, mem_fuel. apply wp_bind, wp_gets. apply wp_bind, wp_bind, wp_gets, wp_ret. apply wp_bind.
  pose proof (chunks_fuel _ _ _ _ Hr) as Hfu. destruct (size (mm_mem s)) as [|fu]; [lia|]. remember (S fu) as fu1 eqn:Hfu1. cbn [info_loop].
  apply wp_bind, wp_gets. rewrite (proj2 (Z.ltb_lt _ _)) by lia. apply wp_bind, (wp_ld _ MM_ALLOC_BIT); [done|]. apply wp_bind, (wp_ld _ 8); [done|].
  change (negb (Z.land MM_ALLOC_BIT MM_ALLOC_BIT =? 0)) with true. cbn iota. cbn [uordblks fordblks arena ordblks mxordblk].
  apply (wp_info_loop fu1 cs s (mm_heapstart s + 8) 8); [done | lia | done | lia | lia | lia | | |]; cbn [uordblks fordblks arena ordblks mxordblk].
  { change (u32 (0 + 8)) with 8. lia. }
  { lia. }
  apply wp_bind, wp_gets, wp_ret. cbn [uordblks fordblks arena ordblks mxordblk]. change (u32 (0 + 8)) with 8. rewrite !Z.add_0_l.
  assert (Hi : forall z, 0 <= z < 2 ^ 31 -> i32 z = z) by (intros z Hz; rewrite sign_small; rewrite wrap_small by lia; lia).
  unfold SIZEOF_MM_ALLOCNODE. rewrite (wrap_small 32 (8 + used cs + 8)) by lia. rewrite !Hi by lia. unfold info_of in HQ. rewrite Hs.
  by replace (8 + used cs + 8) with (used cs + 16) by lia.
Qed.

(** ** Best fit *)

Lemma cells_sorted h i bk u x v c : bk_ok i bk -> cells h bk = u ++ x :: v -> 0 < snd x -> c ∈ v -> 0 < snd c -> snd x <= snd c.
Proof.
  intros Hok Hc Hx Hin Hp. destruct (cells_in_bucket _ _ _ _ _ _ Hok Hc ltac:(lia)) as (bk1 & b1 & b2 & bk2 & -> & _ & ->).
  apply bk_ok_app in Hok as (_ & Hb & Hs & Hok). apply elem_of_app in Hin as [Hin|Hin].
  - apply sorted_suffix in Hs. apply StronglySorted_inv in Hs as [_ Hs]. rewrite Forall_forall in Hs. by apply Hs.
  - apply elem_of_cells in Hin as [Hin|(k & _ & ->)]; [|simpl in Hp; lia]. destruct (bk_ok_elem _ _ _ Hok Hin) as [Hi _].
    apply Forall_app in Hb as [_ Hb]. apply Forall_cons in Hb as [[Hb _] _]. apply Z.nlt_ge. intros Hlt. pose proof (ndx_mono (snd c) (snd x)). lia.
Qed.

(** The search of [mm_malloc] finds the smallest chunk that is large enough. *)
Lemma wp_search size s cs bk (k : Z -> HM Z) Q : hrep s cs bk [] -> 16 <= size < 2 ^ 32 ->
  (forall x sz, (x, sz) ∈ concat bk -> size <= sz -> (forall c, c ∈ concat bk -> size <= snd c -> sz <= snd c) -> wp (k x) Q s) ->
  ((forall c, c ∈ concat bk -> snd c < size) -> wp (k 0) Q s) ->
  wp (ndx <- (if MM_MAX_CHUNK <=? size then ret (MM_NNODES - 1) else mm_size2ndx size) ;;
      head <- nodelist ndx ;; first <- ld (n_flink head) ;; f <- mem_fuel ;; node <- fit_loop f first size ;; k node) Q s.
Proof.
  intros Hr Hs Hyes Hno. assert (Hi : 0 <= ndx size < 19) by (apply ndx_range; lia).
  assert (Hw : forall P : Z -> mm_heap_s -> Prop, P (ndx size) s -> wp (if MM_MAX_CHUNK <=? size then ret (MM_NNODES - 1) else mm_size2ndx size) P s).
  { intros P HP. destruct (MM_MAX_CHUNK <=? size) eqn:E; [|apply wp_size2ndx; [lia | done]]. apply wp_ret. unfold ndx in HP. by rewrite E in HP. }
  apply wp_bind, Hw. destruct (bucket_at _ _ _ _ (ndx size) Hr Hi) as (bk1 & b & bk2 & Hbk & Hlen & Hc). set (L := mm_nodelist s) in *.
  set (h := L + 16 * ndx size) in *. set (rest := cells (h + 16) bk2) in *. pose proof (hr_dls _ _ _ _ Hr) as Hd. fold L in Hd. rewrite Hc, fmap_app in Hd.
  apply dls_app in Hd as [_ (_ & Hd3 & Hd4)]. pose proof (cells_sized _ _ _ _ Hr) as Hsz. fold L in Hsz. rewrite Hc in Hsz. apply Forall_app in Hsz as [_ Hsz].
  apply Forall_cons in Hsz as [_ Hsz]. pose proof (cells_fuel _ _ _ _ Hr) as Hfuel. fold L in Hfuel. rewrite Hc, length_app in Hfuel. cbn [length] in Hfuel.
  pose proof (hr_bk _ _ _ _ Hr) as Hok. assert (Hsmall : forall c, c ∈ concat bk1 -> snd c < size).
  { intros c Hin. pose proof Hok as Hok'. rewrite Hbk in Hok'. apply bk_ok_app in Hok' as [Hok' _]. destruct (bk_ok_elem _ _ _ Hok' Hin) as [Hn _].
    apply Z.nle_gt. intros Hle. pose proof (ndx_mono size (snd c)). lia. }
  assert (Hcat : forall c, c ∈ concat bk -> c ∈ concat bk1 \/ c ∈ b ++ rest).
  { intros c. rewrite Hbk, concat_app. cbn [concat]. rewrite !elem_of_app. intros [?|[?|?]]; [tauto | tauto|]. right. right. apply elem_of_cells. by left. }
  unfold nodelist. apply wp_bind, wp_bind, wp_gets, wp_ret. change (SIZEOF_MM_FREENODE * ndx size) with (16 * ndx size). fold L h.
  apply wp_bind, (wp_ld _ (hdq (b ++ rest).*1 0)); [done|]. unfold mem_fuel. apply wp_bind, wp_bind, wp_gets, wp_ret.
  apply wp_bind, (wp_fit_loop _ (b ++ rest) h); [done | done | | lia | |].
  - pose proof (nodes_sep _ _ _ _ Hr) as (_ & _ & H0). intros Hin. apply H0. apply elem_of_app. left. fold L. rewrite Hc, fmap_app. apply elem_of_app. right.
    cbn [fmap list_fmap]. apply elem_of_cons. by right.
  - intros q1 x sz q2 Hq Hq1 Hle. assert (Hcx : cells L bk = (cells L bk1 ++ (h, 0) :: q1) ++ (x, sz) :: q2) by (rewrite Hc, Hq, <- app_assoc; done).
    apply (Hyes x sz); [| done|].
    + assert (Hin : (x, sz) ∈ cells L bk) by (rewrite Hcx; apply elem_of_app; right; apply elem_of_cons; by left).
      apply elem_of_cells in Hin as [?|(i & _ & [= _ ->])]; [done | lia].
    + intros c Hin Hcs. destruct (Hcat c Hin) as [?%Hsmall|Hin']; [lia|]. rewrite Hq in Hin'. apply elem_of_app in Hin' as [Hin'|Hin'].
      * rewrite Forall_forall in Hq1. specialize (Hq1 c Hin'). simpl in Hq1. lia.
      * apply elem_of_cons in Hin' as [->|Hin']; [done|]. by apply (cells_sorted L 0 bk _ _ _ c Hok Hcx); [simpl; lia | | lia].
  - intros Hall. apply Hno. intros c Hin. destruct (Hcat c Hin) as [?|Hin']; [by apply Hsmall|]. rewrite Forall_forall in Hall. by apply Hall.
Qed.

(** ** Allocating *)

(** The size of the chunk for a request of [n] bytes. *)
Definition chunk_size (n : Z) : Z := 16 * ((n + 23) / 16).

Lemma align_up a : 0 <= a < 2 ^ 32 - 15 -> MM_ALIGN_UP a = 16 * ((a + 15) / 16).
Proof.
  intros Ha. unfold MM_ALIGN_UP. change MM_GRAN_MASK with 15. rewrite wrap_small by lia. change (u32 (Z.lnot 15)) with (Z.shiftl (Z.ones 28) 4).
  apply Z.bits_inj'. intros n Hn. rewrite Z.land_spec. replace (16 * ((a + 15) / 16)) with (Z.shiftl (Z.shiftr (a + 15) 4) 4)
    by (rewrite Z.shiftl_mul_pow2, Z.shiftr_div_pow2 by lia; change (2 ^ 4) with 16; lia).
  destruct (Z.lt_ge_cases n 4).
  - rewrite !Z.shiftl_spec_low by lia. apply andb_false_r.
  - rewrite !Z.shiftl_spec, Z.shiftr_spec by lia. replace (n - 4 + 4) with n by lia. destruct (Z.lt_ge_cases (n - 4) 28).
    + rewrite Z.ones_spec_low by lia. apply andb_true_r.
    + rewrite Z.ones_spec_high by lia. rewrite andb_false_r. symmetry. apply Z.bits_above_log2; [lia|]. apply Z.log2_lt_pow2; [lia|].
      eapply Z.lt_le_trans; [|apply (Z.pow_le_mono_r 2 32); lia]. lia.
Qed.

Lemma chunk_size_spec n : 1 <= n < 2 ^ 32 - 23 ->
  MM_ALIGN_UP (u32 (n + SIZEOF_MM_ALLOCNODE)) = chunk_size n /\ good (chunk_size n, false) /\ n + 8 <= chunk_size n < 2 ^ 32 /\ chunk_size n < n + 24.
Proof.
  intros Hn. change SIZEOF_MM_ALLOCNODE with 8. rewrite wrap_small by lia. rewrite align_up by lia. unfold chunk_size.
  replace (n + 8 + 15) with (n + 23) by lia. pose proof (Z.mul_div_le (n + 23) 16 ltac:(lia)). pose proof (Z.mul_succ_div_gt (n + 23) 16 ltac:(lia)).
  split; [done|]. split; [split; [simpl; lia | by eexists]|]. lia.
Qed.

(** The heap stays where it is, with the contents of the chunks of [cs]. *)
Definition stays cs s s' : Prop := mm_nodelist s' = mm_nodelist s /\ mm_heapstart s' = mm_heapstart s /\ mm_heapsize s' = mm_heapsize s /\
  forall w, payload (mm_heapstart s + 8) cs w -> mm_mem s' !! w = mm_mem s !! w.

Lemma kept_stays cs s s' : kept cs s s' -> stays cs s s'.
Proof. intros [E Hd]. repeat split; [by rewrite E.. | done]. Qed.

Definition set_max (n : Z) s : mm_heap_s := mkHeap (mm_mem s) (mm_nodelist s) (mm_heapsize s) (mm_heapstart s) (mm_heapend s) n.

Lemma hrep_max n s cs bk out : hrep s cs bk out -> hrep (set_max n s) cs bk out.
Proof. intros Hr. constructor; apply Hr. Qed.

Lemma wp_max_update s cs bk out Q : hrep s cs bk out ->
  Q (Z.max (g_max_used_size s) (used cs + 16)) (set_max (Z.max (g_max_used_size s) (used cs + 16)) s) -> wp mm_max_usedsize_update Q s.
Proof.
  intros Hr HQ. unfold mm_max_usedsize_update. apply wp_bind, (wp_mallinfo s cs bk out); [done|]. apply wp_bind, wp_gets. cbn [info_of uordblks].
  destruct (Z.ltb_spec (g_max_used_size s) (used cs + 16)); unfold when.
  - apply wp_bind. eapply run_wp; [reflexivity|]. apply wp_gets. rewrite Z.max_r in HQ by lia. exact HQ.
  - apply wp_bind, wp_ret, wp_gets. rewrite Z.max_l in HQ by lia. destruct s. exact HQ.
Qed.

Lemma allocs_rest a l1 sz size l2 : allocs a (l1 ++ (size, false) :: rest_of sz size ++ l2) = allocs a (l1 ++ (sz, false) :: l2).
Proof.
  rewrite !chunks_app. f_equal. unfold rest_of. destruct (Z.eqb_spec sz size) as [->|]; [done|]. simpl. f_equal. lia.
Qed.

Lemma wp_mm_malloc n s cs bk Q : hrep s cs bk [] -> 1 <= n < 2 ^ 32 - 23 ->
  (forall s' bk' l1 sz l2, cs = l1 ++ (sz, false) :: l2 -> chunk_size n <= sz -> (forall x sz', (x, sz') ∈ frees (mm_heapstart s + 8) cs -> chunk_size n <= sz' -> sz <= sz') ->
    hrep s' (l1 ++ (chunk_size n, true) :: rest_of sz (chunk_size n) ++ l2) bk' [] -> stays cs s s' -> Q (mm_heapstart s + 8 + total l1 + 8) s') ->
  (forall s', (forall x sz, (x, sz) ∈ frees (mm_heapstart s + 8) cs -> sz < chunk_size n) -> hrep s' cs bk [] -> stays cs s s' -> Q 0 s') ->
  wp (mm_malloc n) Q s.
Proof.
  intros Hr Hn Hyes Hno. destruct (chunk_size_spec n Hn) as (Hal & Hg & Hcs & _). unfold mm_malloc. rewrite (proj2 (Z.ltb_ge n 1)) by lia. rewrite Hal.
  pose proof (hr_frees _ _ _ _ Hr) as Hf. rewrite app_nil_r in Hf.
  assert (Hnz : forall x sz, (x, sz) ∈ concat bk -> x <> 0).
  { intros x sz Hx. destruct (free_node _ _ _ _ Hr x sz) as (_ & ? & _); [by rewrite app_nil_r|]. pose proof (pl_start _ _ _ (hr_place _ _ _ _ Hr)). lia. }
  apply (wp_search (chunk_size n) s cs bk); [done | destruct Hg; simpl in *; lia | |].
  - intros x sz Hx Hle Hbest. rewrite (proj2 (Z.eqb_neq x 0)) by (by eapply Hnz). apply wp_bind, wp_bind, (wp_unlink x sz s cs bk []); [done | done|].
    intros s1 bk1 Hr1 Hk1 _. assert (Hx' : (x, sz) ∈ frees (mm_heapstart s + 8) cs) by (by rewrite <- Hf). apply chunks_split in Hx' as (l1 & l2 & Hcs2 & Hxa).
    pose proof Hk1 as [E1 _]. assert (Ha1 : mm_heapstart s1 = mm_heapstart s) by (by rewrite E1). rewrite Hxa, <- Ha1. rewrite Hxa, <- Ha1, Hcs2 in Hr1.
    apply wp_bind, (wp_split (chunk_size n) sz s1 l1 l2 bk1); [done | done | done|]. intros s2 bk2 Hr2 Hk2.
    pose proof Hk2 as [E2 _]. assert (Ha2 : mm_heapstart s2 = mm_heapstart s1) by (by rewrite E2). rewrite <- Ha2. rewrite <- Ha2 in Hr2.
    apply wp_assoc, wp_bind, (wp_mark (chunk_size n) s2 l1 (rest_of sz (chunk_size n) ++ l2) bk2); [done|]. intros s3 Hr3 Hk3.
    apply wp_ret. apply wp_bind, (wp_max_update s3 _ _ _ _ Hr3), wp_ret. rewrite Ha2, Ha1.
    apply (Hyes _ bk2 l1 sz l2); [done | done | | by apply hrep_max|].
    + intros x' sz' Hin Hle'. apply (Hbest (x', sz')); [by rewrite Hf | done].
    + assert (Hk : kept cs s s3).
      { eapply kept_trans; [exact Hk1|]. rewrite Hcs2. eapply kept_trans; [exact Hk2|]. eapply kept_allocs; [|exact Hk3].
        by rewrite (allocs_rest _ l1 sz (chunk_size n) l2). }
      apply kept_stays in Hk as (? & ? & ? & ?). by repeat split.
  - intros Hall. simpl. apply wp_bind, wp_ret, wp_bind, (wp_max_update s cs bk []); [done|]. apply wp_ret. apply Hno; [|by apply hrep_max | by repeat split].
    intros x sz Hin. apply (Hall (x, sz)). by rewrite Hf.
Qed.

(** * Freeing: a freed chunk is joined with its free neighbours *)


(** Joining with the chunk after, and with the chunk before. *)
Inductive join_next (sz : Z) : list chunk -> Z -> list chunk -> Prop :=
  | jn_free n r : join_next sz ((n, false) :: r) (sz + n) r
  | jn_alloc n r : join_next sz ((n, true) :: r) sz ((n, true) :: r)
  | jn_end : join_next sz [] sz [].

Inductive join_prev (sz : Z) : list chunk -> Z -> list chunk -> Prop :=
  | jp_free n r : join_prev sz (r ++ [(n, false)]) (n + sz) r
  | jp_alloc n r : join_prev sz (r ++ [(n, true)]) sz (r ++ [(n, true)])
  | jp_start : join_prev sz [] sz [].

(** The allocated chunk is marked as free. *)
Lemma wp_unmark size s l1 l2 bk (k : HM unit) Q : let x := mm_heapstart s + 8 + total l1 in hrep s (l1 ++ (size, true) :: l2) bk [] ->
  (forall s', hrep s' (l1 ++ (size, false) :: l2) bk [(x, size)] -> kept (l1 ++ (size, false) :: l2) s s' -> wp k Q s') ->
  wp (p <- ld (n_preceding x) ;; sto (n_preceding x) (Z.land p (u32 (Z.lnot MM_ALLOC_BIT))) ;; k) Q s.
Proof.
  intros x Hr HQ. destruct (chunk_words _ _ _ _ _ _ Hr) as (nx & l3 & Hnx & H1 & H2 & H3 & H4 & Hpre & Hsz & [j Hj] & Hg & Hb & He & Hhs).
  fold x in H1, H2, H3, H4, Hj, Hb, He. cbn [fst snd] in *. destruct Hg as [Hg Hg']. cbn [fst] in *. unfold n_preceding.
  apply wp_bind, (wp_ld _ (bits (last_size 8 l1) true)); [done|]. rewrite clear_bit by done. apply wp_bind, wp_sto; [eauto|].
  assert (Hsame : forall w, ~ touched s l1 [(size, true)] w -> <[x + 4 := last_size 8 l1]> (mm_mem s) !! w = mm_mem s !! w).
  { intros w Hnt. rewrite lookup_insert_ne; [done|]. intros <-. apply Hnt. unfold touched. fold x. cbn [total fst]. split; [exists j; lia | lia]. }
  apply HQ.
  - apply (hrep_headers s l1 [(size, true)] [(size, false)] l2 bk [] [(x, size)] Hr) with (nx := nx) (l3 := l3) (o := []); try done.
    + by apply Forall_singleton.
    + intros w. rewrite lookup_insert_is_Some'. tauto.
    + fold x. simpl. repeat split; mlook.
  - by apply (headers_kept s l1 [(size, true)] l2 bk [] Hr _ Hsame [(size, false)]); [|apply Forall_singleton].
Qed.

(** Two free chunks in hand become one. *)
Lemma wp_join (s1 s2 : Z) s l1 l2 bk out (k : HM Z) Q : let x := mm_heapstart s + 8 + total l1 in let y := x + s1 in
  hrep s (l1 ++ (s1, false) :: (s2, false) :: l2) bk out -> out ≡ₚ [(x, s1); (y, s2)] ->
  (forall s', hrep s' (l1 ++ (s1 + s2, false) :: l2) bk [(x, s1 + s2)] -> kept (l1 ++ (s1, false) :: (s2, false) :: l2) s s' -> wp k Q s') ->
  wp (a <- ld (n_size x) ;; b <- ld (n_size y) ;; sto (n_size x) (u32 (a + b)) ;; a <- ld (n_size x) ;;
      p <- ld (n_preceding (y + s2)) ;; sto (n_preceding (y + s2)) (Z.lor a (Z.land p MM_ALLOC_BIT)) ;; k) Q s.
Proof.
  intros x y Hr Hout HQ. destruct (chunk_words _ _ _ _ _ _ Hr) as (nx1 & l31 & Hnx1 & H1 & H2 & H3 & H4 & Hpre & Hsz & [j Hj] & Hg & Hb & _ & _).
  pose proof Hr as Hr0. replace (l1 ++ (s1, false) :: (s2, false) :: l2) with ((l1 ++ [(s1, false)]) ++ (s2, false) :: l2) in Hr0 by (by rewrite <- app_assoc).
  destruct (chunk_words _ _ _ _ _ _ Hr0) as (nx & l3 & Hnx & K1 & K2 & K3 & K4 & _ & Ksz & _ & Kg & Kb & Ke & Khs).
  rewrite total_app in K1, K2, K3, K4, Kb, Ke. cbn [total] in K1, K2, K3, K4, Kb, Ke. replace (mm_heapstart s + 8 + (total l1 + ((s1, false).1 + 0))) with y in * by (unfold y, x; simpl; lia).
  fold x in H1, H2, H3, H4, Hj, Hb. cbn [fst snd] in *. destruct Hg as [Hg [jg Hjg]], Kg as [Kg [kg Hkg]]. cbn [fst] in *.
  destruct (hr_place _ _ _ _ Hr) as [_ _ _ Hlt _ _]. pose proof (hr_size _ _ _ _ Hr) as Hszz. pose proof (hr_good _ _ _ _ Hr) as Hgg.
  apply Forall_app in Hgg as [Hg1 Hg2]. do 2 (apply Forall_cons in Hg2 as [_ Hg2]). pose proof (total_pos _ Hg1). pose proof (total_pos _ Hg2).
  rewrite total_app in Hszz. cbn [total fst] in Hszz. unfold n_size, n_preceding.
  apply wp_bind, (wp_ld _ s1); [done|]. apply wp_bind, (wp_ld _ s2); [done|]. rewrite (wrap_small 32 (s1 + s2)) by lia. apply wp_bind, wp_sto; [eauto|].
  apply wp_bind, (wp_ld _ (s1 + s2)); [simpl; mlook|]. apply wp_bind, (wp_ld _ (bits s2 nx.2)); [simpl; mlook|]. rewrite lor_bits by lia.
  apply wp_bind, wp_sto; [simpl; rewrite lookup_insert_is_Some'; eauto|]. cbn [mm_mem set_mem]. set (mem' := <[y + s2 + 4 := bits (s1 + s2) nx.2]> (<[x := s1 + s2]> (mm_mem s))).
  assert (Hsame : forall w, ~ touched s l1 [(s1, false); (s2, false)] w -> mem' !! w = mm_mem s !! w).
  { intros w Hnt. unfold mem'. rewrite !lookup_insert_ne; [done|..]; intros <-; apply Hnt; unfold touched; fold x; cbn [total fst]; (split; [|lia]).
    - exists j. lia.
    - exists (j + jg + kg). lia. }
  apply HQ.
  - apply (hrep_headers s l1 [(s1, false); (s2, false)] [(s1 + s2, false)] l2 bk out [(x, s1 + s2)] Hr) with (nx := nx) (l3 := l3) (o := []); try done.
    + simpl. lia.
    + apply Forall_singleton. split; [simpl; lia | exists (jg + kg); simpl; lia].
    + intros w Hs. unfold mem'. rewrite !lookup_insert_is_Some'. tauto.
    + fold x. simpl. replace (x + (s1 + s2)) with (y + s2) by lia. unfold mem'. repeat split; mlook.
  - apply (headers_kept s l1 [(s1, false); (s2, false)] l2 bk out Hr _ Hsame [(s1, false); (s2, false)]); [done|]. apply Forall_cons. split; [done | by apply Forall_singleton].
Qed.

(** A free chunk that is not in hand is in a bucket. *)
Lemma free_in_bucket s cs bk x sz y n : hrep s cs bk [(x, sz)] -> (y, n) ∈ frees (mm_heapstart s + 8) cs -> y <> x -> (y, n) ∈ concat bk.
Proof.
  intros Hr Hy Hne. rewrite <- (hr_frees _ _ _ _ Hr) in Hy. apply elem_of_app in Hy as [Hy|Hy]; [done|]. apply list_elem_of_singleton in Hy as [= -> _]. done.
Qed.

Lemma wp_free_next sz s l1 l2 bk Q : let x := mm_heapstart s + 8 + total l1 in hrep s (l1 ++ (sz, false) :: l2) bk [(x, sz)] ->
  (forall s' bk' n r, join_next sz l2 n r -> hrep s' (l1 ++ (n, false) :: r) bk' [(x, n)] -> kept (l1 ++ (sz, false) :: l2) s s' -> Q (x + n) s') ->
  wp (np <- ld (n_preceding (x + sz)) ;;
      if Z.land np MM_ALLOC_BIT =? 0 then
        xsize <- ld (n_size (x + sz)) ;;
        unlink (x + sz) ;;
        nsize0 <- ld (n_size x) ;; xsize0 <- ld (n_size (x + sz)) ;; sto (n_size x) (u32 (nsize0 + xsize0)) ;; nsize1 <- ld (n_size x) ;;
        ap <- ld (n_preceding (x + sz + xsize)) ;; sto (n_preceding (x + sz + xsize)) (Z.lor nsize1 (Z.land ap MM_ALLOC_BIT)) ;; ret (x + sz + xsize)
      else ret (x + sz)) Q s.
Proof.
  intros x Hr HQ. destruct (chunk_words _ _ _ _ _ _ Hr) as (nx & l3 & Hnx & H1 & H2 & H3 & H4 & Hpre & Hsz & [j Hj] & Hg & Hb & He & Hhs).
  fold x in H1, H2, H3, H4, Hj, Hb. cbn [fst snd] in *. destruct Hg as [Hg Hg']. cbn [fst] in Hg, Hg'.
  apply wp_bind, (wp_ld _ (bits sz nx.2)); [done|]. rewrite land_bits by done. destruct l2 as [|[n al] r]; simpl in Hnx; injection Hnx as <- <-; cbn [fst snd].
  { apply wp_ret, (HQ s bk sz []); [constructor | done | apply kept_refl]. }
  destruct al; cbn iota; [apply wp_ret, (HQ s bk sz ((n, true) :: r)); [constructor | done | apply kept_refl]|]. simpl Z.eqb. cbn iota.
  apply wp_bind, (wp_ld _ n); [done|]. assert (Hy : (x + sz, n) ∈ concat bk).
  { apply (free_in_bucket s _ bk x sz (x + sz) n Hr); [|lia]. pose proof (chunks_mid false (mm_heapstart s + 8) (l1 ++ [(sz, false)]) n r) as Hm.
    rewrite total_app, <- app_assoc in Hm. simpl in Hm. by replace (mm_heapstart s + 8 + (total l1 + (sz + 0))) with (x + sz) in Hm by (unfold x; lia). }
  apply wp_bind, (wp_unlink (x + sz) n s _ bk [(x, sz)] _ Hr Hy). intros s1 bk1 Hr1 Hk1 _. pose proof Hk1 as [E1 _].
  assert (Ha1 : mm_heapstart s1 = mm_heapstart s) by (by rewrite E1). pose proof (wp_join sz n s1 l1 r bk1 [(x + sz, n); (x, sz)] (ret (x + sz + n)) Q) as Hj'.
  rewrite Ha1 in Hj'. fold x in Hj'. apply Hj'; [done | apply Permutation_swap|]. intros s2 Hr2 Hk2. apply wp_ret.
  replace (x + sz + n) with (x + (sz + n)) by lia. apply (HQ s2 bk1 (sz + n) r); [constructor | done | by eapply kept_trans].
Qed.

Lemma wp_free_prev sz s l1 l2 bk (k : Z -> HM unit) Q : let x := mm_heapstart s + 8 + total l1 in hrep s (l1 ++ (sz, false) :: l2) bk [(x, sz)] ->
  (forall s' bk' n r, join_prev sz l1 n r -> let y := mm_heapstart s + 8 + total r in hrep s' (r ++ (n, false) :: l2) bk' [(y, n)] ->
    kept (l1 ++ (sz, false) :: l2) s s' -> wp (k y) Q s') ->
  wp (p <- ld (n_preceding x) ;; pp <- ld (n_preceding (x - p)) ;;
      node <- (if Z.land pp MM_ALLOC_BIT =? 0 then
        unlink (x - p) ;;
        psize <- ld (n_size (x - p)) ;; nsize <- ld (n_size x) ;; sto (n_size (x - p)) (u32 (psize + nsize)) ;; psize1 <- ld (n_size (x - p)) ;;
        np <- ld (n_preceding (x + sz)) ;; sto (n_preceding (x + sz)) (Z.lor psize1 (Z.land np MM_ALLOC_BIT)) ;; ret (x - p)
      else ret x) ;; k node) Q s.
Proof.
  intros x Hr HQ. destruct (chunk_words _ _ _ _ _ _ Hr) as (nx & l3 & Hnx & H1 & H2 & H3 & H4 & Hpre & Hsz & [j Hj] & Hg & Hb & He & Hhs).
  fold x in H1, H2, H3, H4, Hj, Hb. cbn [fst snd] in *. apply wp_bind, (wp_ld _ (last_size 8 l1)); [done|].
  destruct l1 as [|[n al] r _] using rev_ind.
  { simpl. apply wp_bind, (wp_ld _ MM_ALLOC_BIT).
    { unfold n_preceding, x. simpl. replace (mm_heapstart s + 8 + 0 - 8 + 4) with (mm_heapstart s + 4) by lia. apply Hr. }
    simpl. apply wp_bind, wp_ret. apply (HQ s bk sz []); [constructor | done | apply kept_refl]. }
  rewrite last_size_app. cbn [last_size fst]. pose proof Hr as Hr0. rewrite <- app_assoc in Hr0. cbn [app] in Hr0.
  destruct (chunk_words _ _ _ _ _ _ Hr0) as (nx' & l3' & _ & K1 & K2 & _ & _ & Kpre & Ksz & _ & [Kg _] & Kb & _ & _). cbn [fst snd] in *.
  set (y := mm_heapstart s + 8 + total r) in *. assert (Hxy : x = y + n) by (unfold x, y; rewrite total_app; simpl; lia).
  replace (x - n) with y by lia. apply wp_bind, (wp_ld _ (bits (last_size 8 r) al)); [done|]. apply wp_bind. rewrite land_bits by done.
  destruct al; [apply wp_ret, (HQ s bk sz (r ++ [(n, true)])); [constructor | done | apply kept_refl]|]. simpl Z.eqb. cbn iota.
  assert (Hy : (y, n) ∈ concat bk) by (apply (free_in_bucket s _ bk x sz y n Hr); [rewrite <- app_assoc; apply chunks_mid | lia]).
  apply wp_bind, (wp_unlink y n s _ bk [(x, sz)] _ Hr0); [done|]. intros s1 bk1 Hr1 Hk1 _. pose proof Hk1 as [E1 _].
  assert (Ha1 : mm_heapstart s1 = mm_heapstart s) by (by rewrite E1). pose proof (wp_join n sz s1 r l2 bk1 [(y, n); (x, sz)] (ret y) (fun a s' => wp (k a) Q s')) as Hj'.
  cbv zeta in Hj'. rewrite Ha1 in Hj'. fold y in Hj'. rewrite <- Hxy in Hj'. apply Hj'; [done | done|]. intros s2 Hr2 Hk2. apply wp_ret.
  apply (HQ s2 bk1 (n + sz) r); [constructor | done|]. rewrite <- app_assoc. by eapply kept_trans.
Qed.

Lemma join_next_allocs a sz l2 n r : join_next sz l2 n r -> allocs a ((n, false) :: r) = allocs a ((sz, false) :: l2).
Proof. intros [m t|m t|]; simpl; [f_equal; lia | done | done]. Qed.

Lemma join_prev_allocs a sz l1 n r l2 : join_prev sz l1 n r -> allocs a (r ++ (n, false) :: l2) = allocs a (l1 ++ (sz, false) :: l2).
Proof.
  intros [m t|m t|]; [|done | done]. rewrite <- app_assoc, !chunks_app. simpl. do 2 f_equal. lia.
Qed.

(** ** mm_free *)

Lemma wp_mm_free sz s l1 l2 bk Q : let x := mm_heapstart s + 8 + total l1 in hrep s (l1 ++ (sz, true) :: l2) bk [] ->
  (forall s' bk' n r m t, join_next sz l2 n r -> join_prev n l1 m t -> hrep s' (t ++ (m, false) :: r) bk' [] -> stays (l1 ++ (sz, false) :: l2) s s' -> Q tt s') ->
  wp (mm_free (x + 8)) Q s.
Proof.
  intros x Hr HQ. pose proof (pl_start _ _ _ (hr_place _ _ _ _ Hr)) as Hpos. destruct (chunk_words _ _ _ _ _ _ Hr) as (_ & _ & _ & _ & _ & _ & _ & _ & _ & _ & _ & Hb & _).
  fold x in Hb. unfold mm_free. rewrite (proj2 (Z.eqb_neq (x + 8) 0)) by lia. change SIZEOF_MM_ALLOCNODE with 8. replace (x + 8 - 8) with x by lia.
  apply (wp_unmark sz s l1 l2 bk); [done|]. fold x. intros s1 Hr1 Hk1. pose proof Hk1 as [E1 _]. assert (Ha1 : mm_heapstart s1 = mm_heapstart s) by (by rewrite E1).
  assert (Hx1 : mm_mem s1 !! x = Some sz). { destruct (chunk_words _ _ _ _ _ _ Hr1) as (_ & _ & _ & H1 & _). rewrite Ha1 in H1. done. }
  apply wp_bind, (wp_ld _ sz); [done|]. cbv zeta. apply wp_assoc, wp_bind.
  pose proof (wp_free_next sz s1 l1 l2 bk) as Hn. cbv zeta in Hn. rewrite Ha1 in Hn. fold x in Hn. apply Hn; [done|]. clear Hn. intros s2 bk2 n r Hjn Hr2 Hk2.
  pose proof Hk2 as [E2 _]. assert (Ha2 : mm_heapstart s2 = mm_heapstart s) by (by rewrite E2). 
  pose proof (wp_free_prev n s2 l1 r bk2 mm_addfreechunk Q) as Hp. cbv zeta in Hp. rewrite Ha2 in Hp. fold x in Hp. apply Hp; [done|]. clear Hp.
  intros s3 bk3 m t Hjp Hr3 Hk3. apply (wp_addfreechunk (mm_heapstart s + 8 + total t) m s3 (t ++ (m, false) :: r) bk3 []); [done|].
  intros s4 bk4 Hr4 Hk4 _. apply (HQ s4 bk4 n r m t); [done | done | done|]. apply kept_stays. eapply kept_trans; [exact Hk1|]. eapply kept_trans; [exact Hk2|].
  assert (E : forall b, allocs b (l1 ++ (n, false) :: r) = allocs b (l1 ++ (sz, false) :: l2)) by (intros b; rewrite !chunks_app; by rewrite (join_next_allocs _ _ _ _ _ Hjn)).
  eapply kept_trans; [eapply kept_allocs; [apply E | exact Hk3]|]. eapply kept_allocs; [|exact Hk4]. by rewrite (join_prev_allocs _ _ _ _ _ _ Hjp).
Qed.

(** * Setting up the heap *)

Implicit Types (m : gmap Z Z).

(** ** Clearing words *)

Lemma wp_zero_words n : forall p s Q, (forall i, 0 <= i < Z.of_nat n -> is_Some (mm_mem s !! (p + 4 * i))) ->
  (forall m', (forall i, 0 <= i < Z.of_nat n -> m' !! (p + 4 * i) = Some 0) -> (forall w, (forall i, 0 <= i < Z.of_nat n -> w <> p + 4 * i) -> m' !! w = mm_mem s !! w) ->
    (forall w, is_Some (mm_mem s !! w) -> is_Some (m' !! w)) -> Q tt (set_mem m' s)) -> wp (zero_words n p) Q s.
Proof.
  induction n as [|n IH]; intros p s Q Hd HQ; cbn [zero_words].
  { apply wp_ret. destruct s. apply HQ; [intros; lia | done | done]. }
  apply wp_bind, wp_sto; [replace p with (p + 4 * 0) by lia; apply Hd; lia|]. apply IH.
  - intros i Hi. simpl. rewrite lookup_insert_ne by lia. replace (p + 4 + 4 * i) with (p + 4 * (i + 1)) by lia. apply Hd. lia.
  - intros m' H1 H2 H3. apply HQ; [| |intros w Hw; apply H3; simpl; rewrite lookup_insert_is_Some'; by right].
    + intros i Hi. destruct (Z.eq_dec i 0) as [->|].
      * rewrite H2 by (intros; lia). simpl. replace (p + 4 * 0) with p by lia. apply lookup_insert_eq.
      * replace (p + 4 * i) with (p + 4 + 4 * (i - 1)) by lia. apply H1. lia.
    + intros w Hw. rewrite H2; [simpl; apply lookup_insert_ne; intros E; apply (Hw 0); lia|]. intros i Hi E. apply (Hw (i + 1)); lia.
Qed.

(** ** The empty list *)

Definition heads (l : Z) (n : nat) : list Z := (fun i => l + 16 * Z.of_nat i) <$> seq 0 n.

Lemma heads_S l n : heads l (S n) = heads l n ++ [l + 16 * Z.of_nat n].
Proof. unfold heads. by rewrite seq_S, fmap_app. Qed.

Lemma elem_of_heads l n x : x ∈ heads l n <-> exists i, 0 <= i < Z.of_nat n /\ x = l + 16 * i.
Proof.
  unfold heads. rewrite list_elem_of_fmap. split.
  - intros (i & -> & Hi). apply elem_of_seq in Hi. exists (Z.of_nat i). split; [lia | done].
  - intros (i & Hi & ->). exists (Z.to_nat i). split; [f_equal; lia | apply elem_of_seq; lia].
Qed.

Lemma heads_sep l n : 0 < l -> sep_nodes (heads l n).
Proof.
  intros Hl. split; [|split].
  - apply NoDup_fmap_2; [intros a b E; lia | apply NoDup_seq].
  - intros x y Hx Hy. apply elem_of_heads in Hx as (i & _ & ->). apply elem_of_heads in Hy as (j & _ & ->). lia.
  - intros Hx. apply elem_of_heads in Hx as (i & ? & ?). lia.
Qed.

Lemma cells_empty l n : (cells l (replicate n [])).*1 = heads l n.
Proof.
  revert l. induction n as [|n IH]; intros l; [done|]. cbn [replicate cells app fmap list_fmap fst]. unfold heads in *. cbn [seq fmap list_fmap].
  f_equal; [lia|]. rewrite IH, <- (fmap_S_seq 0 n), <- list_fmap_compose. apply list_fmap_ext. intros i x _. simpl. lia.
Qed.

(** Nodes that are not linked yet have zero links. *)
Lemma wp_link_heads l n : forall k s Q, mm_nodelist s = l -> 0 < l -> (0 < k)%nat -> dls (mm_mem s) 0 (heads l k) 0 ->
  (forall i, Z.of_nat k <= i < Z.of_nat (k + n) -> mm_mem s !! (l + 16 * i + 8) = Some 0 /\ mm_mem s !! (l + 16 * i + 12) = Some 0) ->
  (forall m', dls m' 0 (heads l (k + n)) 0 -> (forall w, (forall i, 0 <= i < Z.of_nat (k + n) -> w <> l + 16 * i + 8 /\ w <> l + 16 * i + 12) -> m' !! w = mm_mem s !! w) ->
    (forall w, is_Some (mm_mem s !! w) -> is_Some (m' !! w)) -> Q tt (set_mem m' s)) -> wp (link_heads n (Z.of_nat k)) Q s.
Proof.
  induction n as [|n IH]; intros k s Q Hl Hpos Hk Hd Hz HQ; cbn [link_heads].
  { apply wp_ret. destruct s. apply HQ; [by rewrite Nat.add_0_r | done | done]. }
  unfold nodelist. apply wp_bind, wp_bind, wp_gets, wp_ret. apply wp_bind, wp_bind, wp_gets, wp_ret. rewrite Hl. change SIZEOF_MM_FREENODE with 16.
  destruct k as [|k]; [lia|]. replace (Z.of_nat (S k) - 1) with (Z.of_nat k) by lia. set (a := l + 16 * Z.of_nat k). set (b := l + 16 * Z.of_nat (S k)).
  destruct (Hz (Z.of_nat (S k))) as [Hb8 Hb12]; [lia|]. fold b in Hb8, Hb12. rewrite heads_S in Hd. fold a in Hd.
  assert (Hsep : sep_nodes (heads l k ++ [a; b])).
  { pose proof (heads_sep l (S (S k)) Hpos) as Hs. rewrite !heads_S, <- app_assoc in Hs. done. }
  pose proof (dls_link_cons (mm_mem s) 0 (heads l k) a 0 0 b [] 0 Hsep Hd (conj Hb12 (conj Hb8 I))) as Hd'.
  assert (Ha8 : is_Some (mm_mem s !! (a + 8))) by (eapply dls_words; [exact Hd | apply elem_of_app; right; by apply list_elem_of_singleton]).
  unfold n_flink, n_blink. apply wp_bind, wp_sto; [done|]. apply wp_bind, wp_sto; [simpl; rewrite lookup_insert_is_Some'; eauto|]. simpl mm_mem.
  replace (Z.of_nat (S k) + 1) with (Z.of_nat (S (S k))) by lia. apply IH; [done | done | lia | | |].
  - rewrite !heads_S, <- app_assoc. exact Hd'.
  - intros i Hi. simpl. rewrite !lookup_insert_ne by (unfold a, b; lia). apply Hz. lia.
  - intros m' H1 H2 H3. simpl. replace (S (S k) + n)%nat with (S k + S n)%nat in H1 by lia.
    apply HQ; [done | |intros w Hw; apply H3; simpl; rewrite !lookup_insert_is_Some'; tauto]. intros w Hw. rewrite H2 by (intros i Hi; apply Hw; lia). simpl.
    destruct (Hw (Z.of_nat k)) as [Hw1 _]; [lia|]. destruct (Hw (Z.of_nat (S k))) as [_ Hw2]; [lia|]. fold a in Hw1. fold b in Hw2.
    by rewrite !lookup_insert_ne by congruence.
Qed.

(** ** The region *)

Definition region_base (start : Z) : Z := 16 * ((start + 15) / 16).
Definition region_end (start size : Z) : Z := 16 * ((start + size) / 16).

(** The memory given to the heap. *)
Record region_ok s (start size : Z) : Prop := mkRegion {
  rg_range : 0 < start /\ start + size < 2 ^ 32;
  rg_place : place (region_base start) (mm_nodelist s) (region_end start size - region_base start);
  rg_room : 32 <= region_end start size - region_base start;
  rg_words : forall k, region_base start <= 4 * k < region_end start size -> is_Some (mm_mem s !! (4 * k));
  rg_list : forall i, 0 <= i < 76 -> is_Some (mm_mem s !! (mm_nodelist s + 4 * i));
}.

Lemma align_down a : 0 <= a < 2 ^ 32 -> MM_ALIGN_DOWN a = 16 * (a / 16).
Proof.
  intros Ha. unfold MM_ALIGN_DOWN. change MM_GRAN_MASK with 15. change (u32 (Z.lnot 15)) with (Z.shiftl (Z.ones 28) 4).
  apply Z.bits_inj'. intros n Hn. rewrite Z.land_spec. replace (16 * (a / 16)) with (Z.shiftl (Z.shiftr a 4) 4)
    by (rewrite Z.shiftl_mul_pow2, Z.shiftr_div_pow2 by lia; change (2 ^ 4) with 16; lia).
  destruct (Z.lt_ge_cases n 4).
  - rewrite !Z.shiftl_spec_low by lia. apply andb_false_r.
  - rewrite !Z.shiftl_spec, Z.shiftr_spec by lia. replace (n - 4 + 4) with n by lia. destruct (Z.lt_ge_cases (n - 4) 28).
    + rewrite Z.ones_spec_low by lia. apply andb_true_r.
    + rewrite Z.ones_spec_high by lia. rewrite andb_false_r. symmetry. destruct (Z.eq_dec a 0) as [->|]; [apply Z.bits_0|].
      apply Z.bits_above_log2; [lia|]. apply Z.log2_lt_pow2; [lia|].
      eapply Z.lt_le_trans; [|apply (Z.pow_le_mono_r 2 32); lia]. lia.
Qed.

Lemma bk_ok_empty n i : bk_ok i (replicate n []).
Proof. revert i. induction n as [|n IH]; intros i; simpl; [done|]. split; [constructor|]. split; [constructor | apply IH]. Qed.

Lemma wp_addregion s start size Q : region_ok s start size -> mm_heapsize s = 0 ->
  dls (mm_mem s) 0 (heads (mm_nodelist s) 19) 0 -> (forall i, 0 <= i < 19 -> mm_mem s !! (mm_nodelist s + 16 * i) = Some 0) ->
  (forall s' bk, hrep s' [(region_end start size - region_base start - 16, false)] bk [] -> mm_nodelist s' = mm_nodelist s -> mm_heapstart s' = region_base start ->
    g_max_used_size s' = g_max_used_size s -> Q tt s') ->
  wp (mm_addregion start size) Q s.
Proof.
  intros [Hrg Hpl Hroom Hw Hl] Hhs Hd Hz HQ. set (b := region_base start) in *. set (e := region_end start size) in *.
  destruct Hpl as [[kb Hkb] Hb0 Hbe Hn Hl0 Hap].
  assert (Hke : exists ke, e = 16 * ke) by (by eexists). destruct Hke as [ke Hke].
  assert (Hup : MM_ALIGN_UP start = b) by (apply align_up; unfold e, region_end, b, region_base in *; pose proof (Z.mul_div_le (start + size) 16 ltac:(lia));
    pose proof (Z.mul_succ_div_gt (start + 15) 16 ltac:(lia)); lia).
  assert (Hdn : MM_ALIGN_DOWN (u32 (start + size)) = e).
  { unfold e, region_end. pose proof (Z.mul_div_le (start + size) 16 ltac:(lia)). pose proof (Z.mul_succ_div_gt (start + 15) 16 ltac:(lia)).
    assert (0 < start + size) by (unfold e, region_end, b, region_base in *; lia). rewrite wrap_small by lia. apply align_down. lia. }
  unfold mm_addregion. rewrite Hup, Hdn. rewrite (wrap_small 32 (e - b)) by lia. change SIZEOF_MM_ALLOCNODE with 8. rewrite (wrap_small 32 (e - b - 2 * 8)) by lia.
  apply wp_bind. eapply run_wp; [reflexivity|]. rewrite Hhs, (wrap_small 32 (0 + (e - b))) by lia. unfold n_size, n_preceding. replace (e - b - 2 * 8) with (e - b - 16) by lia.
  assert (W : forall w, (exists k, w = 4 * k) -> b <= w < e -> is_Some (mm_mem s !! w)) by (intros w [k ->] ?; by apply Hw).
  apply wp_bind, wp_sto; [simpl; apply W; [exists (4 * kb); lia | lia]|].
  apply wp_bind, wp_sto; [simpl; rewrite lookup_insert_is_Some'; right; apply W; [exists (4 * kb + 1); lia | lia]|].
  apply wp_bind, wp_sto; [simpl; rewrite !lookup_insert_is_Some'; do 2 right; apply W; [exists (4 * kb + 2); lia | lia]|].
  apply wp_bind, wp_sto; [simpl; rewrite !lookup_insert_is_Some'; do 3 right; apply W; [exists (4 * kb + 3); lia | lia]|].
  apply wp_bind, wp_sto; [simpl; rewrite !lookup_insert_is_Some'; do 4 right; apply W; [exists (4 * ke - 2); lia | lia]|].
  apply wp_bind, (wp_ld _ (e - b - 16)); [simpl; mlook|]. rewrite lor_alloc by lia.
  apply wp_bind, wp_sto; [simpl; rewrite !lookup_insert_is_Some'; do 5 right; apply W; [exists (4 * ke - 1); lia | lia]|]. cbn [mm_mem set_mem].
  set (m1 := <[e - 8 + 4 := _]> _). set (s1 := set_mem m1 _).
  assert (Hr : hrep s1 [(e - b - 16, false)] (replicate 19 []) [(b + 8, e - b - 16)]).
  { constructor; cbn [s1 set_mem mm_mem mm_nodelist mm_heapsize mm_heapstart mm_heapend total fst].
    - constructor; try done; try lia. by exists kb.
    - lia.
    - lia.
    - apply Forall_singleton. split; [simpl; lia | exists (ke - kb - 1); simpl; lia].
    - intros k Hk. unfold m1. rewrite !lookup_insert_is_Some'. do 6 right. apply Hw. lia.
    - unfold m1. split; mlook.
    - unfold m1. simpl. replace (b + 8 + (e - b - 16)) with (e - 8) by lia. repeat split; mlook.
    - intros i Hi. unfold m1. rewrite !lookup_insert_ne by lia. by apply Hz.
    - rewrite cells_empty. eapply dls_frame; [exact Hd|]. intros x Hx. apply elem_of_heads in Hx as (i & Hi & ->). unfold m1. by rewrite !lookup_insert_ne by lia.
    - done.
    - apply bk_ok_empty.
    - done. }
  apply (wp_addfreechunk (b + 8) (e - b - 16) s1 _ _ [] _ Hr). intros s' bk Hr' [E _] _. apply (HQ s' bk); [done | by rewrite E | by rewrite E | by rewrite E].
Qed.

Lemma wp_initialize s start size Q : region_ok s start size ->
  (forall s' bk, hrep s' [(region_end start size - region_base start - 16, false)] bk [] -> mm_nodelist s' = mm_nodelist s -> mm_heapstart s' = region_base start ->
    g_max_used_size s' = g_max_used_size s -> Q tt s') ->
  wp (mm_initialize start size) Q s.
Proof.
  intros Hrg HQ. pose proof (rg_place _ _ _ Hrg) as [Hal Hb0 Hbe Hn Hl0 Hap]. set (l := mm_nodelist s) in *.
  unfold mm_initialize. apply wp_bind. eapply run_wp; [reflexivity|]. unfold nodelist. apply wp_bind, wp_bind, wp_gets, wp_ret. cbn [mm_nodelist].
  replace (mm_nodelist s + SIZEOF_MM_FREENODE * 0) with l by (unfold l; lia). apply wp_bind. change (Z.to_nat (4 * MM_NNODES)) with 76%nat.
  apply wp_zero_words; [intros i Hi; simpl; by apply (rg_list _ _ _ Hrg)|]. intros m1 Hz1 Hs1 Hd1. cbn [set_mem mm_mem] in Hs1, Hd1.
  assert (Hz : forall i j, 0 <= i < 19 -> 0 <= j < 4 -> m1 !! (l + 16 * i + 4 * j) = Some 0).
  { intros i j Hi Hj. replace (l + 16 * i + 4 * j) with (l + 4 * (4 * i + j)) by lia. apply Hz1. lia. }
  apply wp_bind. change (Z.to_nat (MM_NNODES - 1)) with 18%nat. change 1 with (Z.of_nat 1).
  apply (wp_link_heads l 18 1); [done | done | lia | | |].
  - change (heads l 1) with [l + 16 * 0]. cbn [dls hdq]. replace (l + 16 * 0 + 12) with (l + 16 * 0 + 4 * 3) by lia. replace (l + 16 * 0 + 8) with (l + 16 * 0 + 4 * 2) by lia.
    split; [apply Hz; lia|]. split; [apply Hz; lia | done].
  - intros i Hi. simpl. replace (l + 16 * i + 8) with (l + 16 * i + 4 * 2) by lia. replace (l + 16 * i + 12) with (l + 16 * i + 4 * 3) by lia. split; apply Hz; lia.
  - intros m2 Hd2 Hs2 Hdom. cbn [set_mem mm_mem] in Hs2, Hdom. apply wp_addregion; [| done | exact Hd2 | |].
    + constructor; cbn [set_mem mm_mem mm_nodelist]; [apply Hrg | apply Hrg | apply Hrg | |]; intros k Hk; apply Hdom, Hd1; by apply Hrg.
    + intros i Hi. cbn [set_mem mm_mem mm_nodelist]. fold l. rewrite Hs2 by (intros j Hj; lia). replace (l + 16 * i) with (l + 16 * i + 4 * 0) by lia. apply Hz; lia.
    + intros s' bk Hr' E1 E2 E3. apply (HQ s' bk); [done | done | done | done].
Qed.
