(* ===== verification/SpecMm.v ===== *)
(** * The heap: what it promises *)

From S2P Require Import Prelude.
From S2P Require Import Monad.
From S2P Require Import MmHeap.
From S2P Require Import MmRep.
From S2P Require Import MmList.
From S2P Require Import MmOps.

Implicit Types (s : mm_heap_s) (cs : list chunk).

(** ** No two free chunks next to each other *)

Fixpoint apart (bs : list bool) : Prop :=
  match bs with
  | a :: ((b :: _) as r) => (a || b) = true /\ apart r
  | _ => True
  end.

Definition coalesced cs : Prop := apart cs.*2.

Lemma apart_mid u a v : apart (u ++ a :: v) <-> apart (u ++ [a]) /\ apart (a :: v).
Proof.
  induction u as [|b u IH]; simpl app; [simpl; destruct v; tauto|]. destruct u as [|c u]; simpl in *; [destruct v; simpl; tauto|]. tauto.
Qed.

Lemma apart_set u a v : apart (u ++ a :: v) -> apart (u ++ true :: v).
Proof.
  rewrite !(apart_mid u _ v). intros [Hu Hv]. split.
  - clear Hv. induction u as [|b u IH]; [done|]. destruct u as [|c u]; simpl in *; [by rewrite orb_true_r|]. tauto.
  - destruct v; [done|]. simpl in *. tauto.
Qed.

Lemma apart_malloc u v : apart (u ++ false :: v) -> apart (u ++ true :: v) /\ apart (u ++ true :: false :: v).
Proof.
  intros Ha. pose proof (apart_set _ _ _ Ha) as Hs. split; [done|]. apply apart_mid in Hs as [Hs _]. apply apart_mid in Ha as [_ Ha].
  apply apart_mid. split; [done|]. simpl. done.
Qed.

(** Between two allocated neighbours a chunk may be free. *)
Lemma apart_free u v : apart (u ++ true :: v) -> (u = [] \/ exists u', u = u' ++ [true]) -> (v = [] \/ exists v', v = true :: v') -> apart (u ++ false :: v).
Proof.
  intros Ha Hu Hv. apply apart_mid in Ha as [H1 H2]. apply apart_mid. split.
  - destruct Hu as [->|[u' ->]]; [done|]. rewrite <- app_assoc in *. simpl in *. apply apart_mid in H1 as [H1 _]. apply apart_mid. split; [done|]. done.
  - destruct Hv as [->|[v' ->]]; [done|]. simpl in *. tauto.
Qed.


Lemma coalesced_malloc l1 sz n l2 : coalesced (l1 ++ (sz, false) :: l2) -> coalesced (l1 ++ (n, true) :: rest_of sz n ++ l2).
Proof.
  unfold coalesced. rewrite !fmap_app. simpl. intros Ha. apply apart_malloc in Ha as [H1 H2]. unfold rest_of. by destruct (sz =? n).
Qed.

Lemma coalesced_free l1 sz l2 n r m t : coalesced (l1 ++ (sz, true) :: l2) -> join_next sz l2 n r -> join_prev n l1 m t -> coalesced (t ++ (m, false) :: r).
Proof.
  unfold coalesced. intros Ha Hn Hp. rewrite fmap_app in *. csimpl in *.
  assert (Hr : apart (l1.*2 ++ true :: r.*2) /\ (r.*2 = [] \/ exists v, r.*2 = true :: v)).
  { destruct Hn as [n' r|n' r|]; csimpl in *; [|eauto|eauto]. apply apart_mid in Ha as [H1 [_ H2]]. split.
    - apply apart_mid. split; [done|]. revert H2. generalize (r.*2) as v. intros [|b v]; [done|]. simpl. tauto.
    - revert H2. generalize (r.*2) as v. intros [|b v]; [by left|]. intros [H2 _]. right. simpl in H2. rewrite H2. eauto. }
  clear Ha Hn. destruct Hr as [Ha Hr].
  assert (Ht : apart (t.*2 ++ true :: r.*2) /\ (t.*2 = [] \/ exists u, t.*2 = u ++ [true])).
  { destruct Hp as [n' t|n' t|]; rewrite ?fmap_app in *; csimpl in *; [|eauto|eauto]. rewrite <- app_assoc in Ha. simpl in Ha. apply apart_mid in Ha as [H1 [_ H2]]. split.
    - apply apart_mid. split; [|done]. eapply apart_set. exact H1.
    - revert H1. generalize (t.*2) as bs. intros bs. destruct bs as [|b u _] using rev_ind; [by left|]. intros H1. right. rewrite <- app_assoc in H1. simpl in H1. apply apart_mid in H1 as [_ [H1 _]].
      rewrite orb_false_r in H1. rewrite H1. eauto. }
  destruct Ht as [Ht1 Ht2]. by apply apart_free.
Qed.

(** ** Clients

    A client allocates, frees what it was given, and writes words into its
    blocks.  [live] are its blocks with the sizes it asked for, [shadow] the
    words it wrote into them. *)

Inductive mm_op := OMalloc (n : Z) | OFree (p : Z) | OWrite (a v : Z).

Record client := mkClient { live : gmap Z Z; shadow : gmap Z Z }.

Definition may (op : mm_op) (c : client) : Prop :=
  match op with
  | OMalloc n => 0 <= n < 2 ^ 32 - 23
  | OFree p => p = 0 \/ is_Some (live c !! p)
  | OWrite a v => exists p n k, live c !! p = Some n /\ p <= a < p + n /\ a = 4 * k
  end.

Definition run_mm (op : mm_op) : HM Z :=
  match op with
  | OMalloc n => malloc n
  | OFree p => free p ;; ret 0
  | OWrite a v => sto a v ;; ret 0
  end.

Definition in_block (c : client) (p a : Z) : bool :=
  match live c !! p with Some n => (p <=? a) && (a <? p + n) | None => false end.

Definition after (op : mm_op) (r : Z) (c : client) : client :=
  match op with
  | OMalloc n => if r =? 0 then c else mkClient (<[r := n]> (live c)) (shadow c)
  | OFree p => mkClient (delete p (live c)) (filter (fun x => in_block c p (fst x) = false) (shadow c))
  | OWrite a v => mkClient (live c) (<[a := v]> (shadow c))
  end.

(** Everything that can happen after [mm_initialize] with [size] bytes at
    [start]. *)
Inductive heap_run (s0 : mm_heap_s) (start size : Z) : mm_heap_s -> client -> Prop :=
  | hr_init u s : mm_initialize start size s0 = Some (u, s) -> heap_run s0 start size s (mkClient ∅ ∅)
  | hr_step s c op r s' : heap_run s0 start size s c -> may op c -> run_mm op s = Some (r, s') -> heap_run s0 start size s' (after op r c).

(** ** The invariant of a run *)

Record run_inv (base n : Z) s (c : client) (cs : list chunk) (bk : list (list (Z * Z))) : Prop := mkRunInv {
  ri_rep : hrep s cs bk [];
  ri_base : mm_heapstart s = base;
  ri_size : mm_heapsize s = n;
  ri_apart : coalesced cs;
  ri_live : forall p k, live c !! p = Some k -> 1 <= k < 2 ^ 32 - 23 /\ (p - 8, chunk_size k) ∈ allocs (base + 8) cs;
  ri_alloc : forall x sz, (x, sz) ∈ allocs (base + 8) cs -> is_Some (live c !! (x + 8));
  ri_shadow : forall a v, shadow c !! a = Some v -> mm_mem s !! a = Some v /\ exists p k, live c !! p = Some k /\ p <= a < p + k;
}.

Lemma addrs_chunk a cs x : x ∈ addrs a cs -> exists al sz, (x, sz) ∈ chunks al a cs.
Proof.
  revert a. induction cs as [|[sz al] cs IH]; intros a Hx; simpl in *; [by apply elem_of_nil in Hx|]. apply elem_of_cons in Hx as [->|Hx].
  - exists al, sz. apply elem_of_app. left. rewrite eqb_reflx. by apply list_elem_of_singleton.
  - destruct (IH _ Hx) as (al' & sz' & Hin). exists al', sz'. apply elem_of_app. by right.
Qed.

Lemma payload_not_hdr s cs bk out w x : hrep s cs bk out -> payload (mm_heapstart s + 8) cs w -> x ∈ addrs (mm_heapstart s + 8) (cs ++ [guard]) -> w <> x /\ w <> x + 4.
Proof.
  intros Hr (y & sz & Hy & Hw) Hx. pose proof (hr_good _ _ _ _ Hr) as Hg. destruct (chunks_range _ _ _ _ _ Hg Hy) as (_ & He & _).
  rewrite addrs_app in Hx. apply elem_of_app in Hx as [Hx|Hx]; [|simpl in Hx; apply list_elem_of_singleton in Hx; lia].
  destruct (addrs_chunk _ _ _ Hx) as (al & sz' & Hin). destruct (chunks_range _ _ _ _ _ Hg Hin) as (_ & _ & [H16 _] & _). simpl in H16.
  destruct (chunks_disjoint _ _ _ _ _ _ _ _ Hg Hy Hin) as [(-> & _)|?]; lia.
Qed.

(** Words in blocks may be written. *)
Lemma hrep_write s cs bk a v : hrep s cs bk [] -> payload (mm_heapstart s + 8) cs a -> hrep (set_mem (<[a := v]> (mm_mem s)) s) cs bk [].
Proof.
  intros Hr Hp. pose proof Hp as (y & sz & Hy & Hw). destruct (chunks_range _ _ _ _ _ (hr_good _ _ _ _ Hr) Hy) as (Hb & He & _).
  destruct (hr_place _ _ _ _ Hr) as [_ _ _ _ _ Hap]. pose proof (hr_size _ _ _ _ Hr) as Hs.
  constructor; cbn [mm_mem mm_nodelist mm_heapsize mm_heapstart mm_heapend set_mem]; try apply Hr.
  - intros k Hk. rewrite lookup_insert_is_Some'. right. by apply Hr.
  - rewrite !lookup_insert_ne by lia. apply Hr.
  - eapply hdrs_frame; [apply Hr|]. intros x Hx. destruct (payload_not_hdr _ _ _ _ _ _ Hr Hp Hx). by rewrite !lookup_insert_ne by done.
  - intros i Hi. rewrite lookup_insert_ne by lia. by apply Hr.
  - eapply dls_frame; [apply Hr|]. intros n Hn. destruct (link_not_payload _ _ _ _ Hr n a) as [? ?]; [apply elem_of_app; by left | done|].
    by rewrite !lookup_insert_ne by done.
Qed.

Section Run.
Context (base n : Z).
Implicit Types (c : client) (bk : list (list (Z * Z))).

Lemma live_payload s c cs bk p k a : run_inv base n s c cs bk -> live c !! p = Some k -> p <= a < p + k -> payload (mm_heapstart s + 8) cs a.
Proof.
  intros [Hr Hb Hs Ha Hl Hal Hsh] Hp Hin. destruct (Hl p k Hp) as [Hk Hx]. rewrite Hb. exists (p - 8), (chunk_size k). split; [done|].
  destruct (chunk_size_spec k) as (_ & _ & ? & _); [lia|]. lia.
Qed.

Lemma allocs_disjoint a l1 l2 sz x sz' : Forall good (l1 ++ (sz, false) :: l2) -> (x, sz') ∈ allocs a (l1 ++ (sz, false) :: l2) -> x + sz' <= a + total l1 \/ a + total l1 + sz <= x.
Proof.
  intros Hg Hx. destruct (chunks_disjoint _ _ _ _ _ _ _ _ Hg Hx (chunks_mid false a l1 sz l2)) as [(_ & _ & ?)|?]; [done | lia].
Qed.

Lemma allocs_marked a l1 size l2 : allocs a (l1 ++ (size, true) :: l2) ≡ₚ (a + total l1, size) :: allocs a (l1 ++ (size, false) :: l2).
Proof. rewrite !chunks_app. simpl. by rewrite <- Permutation_middle. Qed.

Lemma inv_malloc s c cs bk k : run_inv base n s c cs bk -> 1 <= k < 2 ^ 32 - 23 ->
  wp (mm_malloc k) (fun r s' => exists cs' bk', run_inv base n s' (after (OMalloc k) r c) cs' bk') s.
Proof.
  intros [Hr Hb Hs Ha Hl Hal Hsh] Hk. apply (wp_mm_malloc k s cs bk); [done | done | |].
  - intros s' bk' l1 sz l2 -> Hle _ Hr' (E1 & E2 & E3 & Hd). exists (l1 ++ (chunk_size k, true) :: rest_of sz (chunk_size k) ++ l2), bk'.
    set (x := mm_heapstart s + 8 + total l1) in *. pose proof (pl_start _ _ _ (hr_place _ _ _ _ Hr)) as Hpos. pose proof (hr_good _ _ _ _ Hr) as Hg.
    assert (Hx8 : 0 < x) by (pose proof Hg as Hg'; apply Forall_app in Hg' as [Hg' _]; pose proof (total_pos _ Hg'); lia).
    cbn [after]. rewrite (proj2 (Z.eqb_neq (x + 8) 0)) by lia.
    assert (Hall : allocs (base + 8) (l1 ++ (chunk_size k, true) :: rest_of sz (chunk_size k) ++ l2) ≡ₚ (x, chunk_size k) :: allocs (base + 8) (l1 ++ (sz, false) :: l2)).
    { rewrite allocs_marked, allocs_rest. unfold x. by rewrite Hb. }
    constructor; cbn [live shadow]; [done | congruence | congruence | by apply coalesced_malloc | | |].
    + intros p j [[<- <-]|[Hne Hp]]%lookup_insert_Some; rewrite Hall.
      * split; [done|]. apply elem_of_cons. left. f_equal. lia.
      * destruct (Hl p j Hp) as [? ?]. split; [done|]. apply elem_of_cons. by right.
    + intros y sz' Hy. rewrite Hall in Hy. apply elem_of_cons in Hy as [[= -> _]|Hy]; rewrite lookup_insert_is_Some'; [by left | right; by eapply Hal].
    + intros a v Hv. destruct (Hsh a v Hv) as [Hm (p & j & Hp & Hin)]. split.
      * rewrite Hd; [done|]. eapply live_payload; [by constructor | exact Hp | exact Hin].
      * exists p, j. split; [|done]. rewrite lookup_insert_ne; [done|]. intros <-. destruct (Hl _ _ Hp) as [_ Hx]. replace (x + 8 - 8) with x in Hx by lia.
        rewrite <- Hb in Hx. apply (allocs_disjoint _ _ _ _ _ _ Hg) in Hx. destruct (chunk_size_spec j) as (_ & [? _] & _); [by apply (Hl _ _ Hp)|].
        destruct (chunk_size_spec k Hk) as (_ & [? _] & _). simpl in *. lia.
  - intros s' _ Hr' (E1 & E2 & E3 & Hd). exists cs, bk. cbn [after]. simpl. constructor; [done | congruence | congruence | done | done | done|].
    intros a v Hv. destruct (Hsh a v Hv) as [Hm (p & j & Hp & Hin)]. split; [|eauto]. rewrite Hd; [done|]. eapply live_payload; [by constructor | exact Hp | exact Hin].
Qed.

Lemma inv_free s c cs bk p k : run_inv base n s c cs bk -> live c !! p = Some k ->
  wp (mm_free p) (fun _ s' => exists cs' bk', run_inv base n s' (after (OFree p) 0 c) cs' bk') s.
Proof.
  intros [Hr Hb Hs Ha Hl Hal Hsh] Hp. destruct (Hl p k Hp) as [Hk Hx]. destruct (chunks_split _ _ _ _ _ Hx) as (l1 & l2 & -> & Hxa).
  set (sz := chunk_size k) in *. replace p with (mm_heapstart s + 8 + total l1 + 8) by lia. apply (wp_mm_free sz s l1 l2 bk); [done|].
  replace (mm_heapstart s + 8 + total l1 + 8) with p by lia. intros s' bk' j r m t Hjn Hjp Hr' (E1 & E2 & E3 & Hd). exists (t ++ (m, false) :: r), bk'.
  pose proof (allocs_marked (base + 8) l1 sz l2) as Hall. rewrite <- Hxa in Hall.
  assert (Hnew : allocs (base + 8) (t ++ (m, false) :: r) = allocs (base + 8) (l1 ++ (sz, false) :: l2)).
  { rewrite (join_prev_allocs _ _ _ _ _ r Hjp), !chunks_app. by rewrite (join_next_allocs _ _ _ _ _ Hjn). }
  assert (Hg : Forall good (l1 ++ (sz, false) :: l2)).
  { pose proof (hr_good _ _ _ _ Hr) as Hg. apply Forall_app in Hg as [? Hg]. apply Forall_cons in Hg as [? ?]. apply Forall_app. split; [done | by apply Forall_cons]. }
  assert (Hpne : forall q i, live c !! q = Some i -> q <> p -> (q - 8, chunk_size i) ∈ allocs (base + 8) (l1 ++ (sz, false) :: l2)).
  { intros q i Hq Hne. destruct (Hl q i Hq) as [_ Hqi]. rewrite Hall in Hqi. apply elem_of_cons in Hqi as [[= ? _]|?]; [lia | done]. }
  constructor; cbn [after live shadow]; [done | congruence | congruence | by eapply coalesced_free | | |].
  - intros q i [Hne Hq]%lookup_delete_Some. split; [by apply (Hl q i Hq)|]. rewrite Hnew. apply Hpne; [done | congruence].
  - intros y sz' Hy. rewrite Hnew in Hy. rewrite lookup_delete_ne.
    + apply (Hal y sz'). rewrite Hall. apply elem_of_cons. by right.
    + intros E. apply (allocs_disjoint _ _ _ _ _ _ Hg) in Hy as Hd'. destruct (chunk_size_spec k Hk) as (_ & [? _] & _).
      destruct (chunks_range _ _ _ _ _ Hg Hy) as (_ & _ & [? _] & _). simpl in *. fold sz in H. lia.
  - intros a v [Hv Hf]%map_lookup_filter_Some. cbn [fst] in Hf. destruct (Hsh a v Hv) as [Hm (q & i & Hq & Hin)].
    assert (Hne : q <> p). { intros ->. unfold in_block in Hf. rewrite Hq in Hf. apply andb_false_iff in Hf as [?%Z.leb_gt|?%Z.ltb_ge]; lia. }
    split; [|exists q, i; rewrite lookup_delete_ne by congruence; done]. rewrite Hd; [done|]. rewrite Hb. exists (q - 8), (chunk_size i).
    split; [by apply Hpne|]. destruct (chunk_size_spec i) as (_ & _ & ? & _); [by apply (Hl q i Hq)|]. lia.
Qed.

Lemma inv_write s c cs bk a v : run_inv base n s c cs bk -> may (OWrite a v) c ->
  wp (sto a v) (fun _ s' => run_inv base n s' (after (OWrite a v) 0 c) cs bk) s.
Proof.
  intros Hi (p & k & j & Hp & Hin & Haj). pose proof (live_payload _ _ _ _ _ _ a Hi Hp Hin) as Hpay. destruct Hi as [Hr Hb Hs Ha Hl Hal Hsh].
  pose proof Hpay as (y & sz & Hy & Hw). destruct (chunks_range _ _ _ _ _ (hr_good _ _ _ _ Hr) Hy) as (? & ? & _). pose proof (hr_size _ _ _ _ Hr).
  apply wp_sto; [rewrite Haj; apply Hr; lia|]. constructor; cbn [after live shadow]; try done; [by apply hrep_write|]. cbn [mm_mem set_mem].
  intros b w [[<- <-]|[Hne Hw']]%lookup_insert_Some; [rewrite lookup_insert_eq; eauto 6|]. rewrite lookup_insert_ne by done. by apply Hsh.
Qed.

Lemma inv_step s c cs bk op : run_inv base n s c cs bk -> may op c -> wp (run_mm op) (fun r s' => exists cs' bk', run_inv base n s' (after op r c) cs' bk') s.
Proof.
  intros Hi Hm. destruct op as [k|p|a v]; cbn [run_mm].
  - unfold malloc. simpl in Hm. destruct (Z.ltb_spec k 1); [|eapply inv_malloc; [done | lia]]. apply wp_ret. cbn [after]. eauto.
  - unfold free. apply wp_bind. destruct Hm as [->|[k Hk]].
    + apply wp_ret, wp_ret. exists cs, bk. destruct Hi as [Hr Hb Hs Ha Hl Hal Hsh]. assert (H0 : live c !! 0 = None).
      { apply eq_None_not_Some. intros [k Hk]. destruct (Hl 0 k Hk) as [_ Hx]. destruct (chunks_range _ _ _ _ _ (hr_good _ _ _ _ Hr) Hx) as (? & _).
        pose proof (pl_start _ _ _ (hr_place _ _ _ _ Hr)). lia. }
      constructor; cbn [after live shadow]; try done; rewrite delete_id by done; [done | done|]. intros a v [Hv _]%map_lookup_filter_Some. by apply Hsh.
    + eapply wp_mono; [by eapply inv_free|]. intros u s' (cs' & bk' & Hi'). apply wp_ret. eauto.
  - apply wp_bind. eapply wp_mono; [by eapply inv_write|]. intros u s' Hi'. apply wp_ret. exists cs, bk. exact Hi'.
Qed.
End Run.

Definition region_size (start size : Z) : Z := region_end start size - region_base start.

(** Every state of a run has the invariant. *)
Lemma heap_run_inv s0 start size s c : region_ok s0 start size -> heap_run s0 start size s c ->
  exists cs bk, run_inv (region_base start) (region_size start size) s c cs bk.
Proof.
  intros Hrg. induction 1 as [u s Hini|s c op r s' _ (cs & bk & Hi) Hm Hrun].
  - assert (Hw : wp (mm_initialize start size) (fun _ s => exists cs bk, run_inv (region_base start) (region_size start size) s (mkClient ∅ ∅) cs bk) s0).
    { apply wp_initialize; [done|]. intros s' bk Hr E1 E2 _. eexists _, bk. constructor; [exact Hr | done | | done | | |].
      - rewrite (hr_size _ _ _ _ Hr). unfold region_size. simpl. lia.
      - intros p k Hp. cbn [live] in Hp. by rewrite lookup_empty in Hp.
      - intros x sz Hx. by apply elem_of_nil in Hx.
      - intros a v Hv. cbn [shadow] in Hv. by rewrite lookup_empty in Hv. }
    unfold wp in Hw. rewrite Hini in Hw. exact Hw.
  - pose proof (inv_step _ _ _ _ _ _ _ Hi Hm) as Hw. unfold wp in Hw. rewrite Hrun in Hw. exact Hw.
Qed.

(** ** Claims *)

(** C17: A client that allocates with [malloc], fewer than 2^32 - 23 bytes at a
    time, frees blocks it holds (or NULL) and writes into them, in any order, is
    safe: no operation faults or hangs; its blocks are 16-byte aligned,
    lie inside the region, do not overlap, and every word written into a
    block that is still allocated has the value written last: neither
    [malloc] nor [free] touches it.  Not among the operations: larger
    requests, whose size wraps around ([malloc_hands_out_array]), and [realloc]
    and [calloc] ([realloc_reads_past_end], [calloc_wraps]). *)
Theorem heap_safe s0 start size s c : region_ok s0 start size -> heap_run s0 start size s c ->
  (forall op, may op c -> exists r s', run_mm op s = Some (r, s')) /\
  (forall p n, live c !! p = Some n -> (exists k, p = 16 * k) /\ region_base start + 16 <= p /\ p + n <= region_end start size - 8) /\
  (forall p n p' n', live c !! p = Some n -> live c !! p' = Some n' -> p <> p' -> p + n <= p' \/ p' + n' <= p) /\
  (forall a v, shadow c !! a = Some v -> mm_mem s !! a = Some v).
Proof.
  intros Hrg Hrun. destruct (heap_run_inv _ _ _ _ _ Hrg Hrun) as (cs & bk & Hi). pose proof Hi as [Hr Hb Hs Ha Hl Hal Hsh].
  pose proof (hr_good _ _ _ _ Hr) as Hg. pose proof (hr_size _ _ _ _ Hr) as Hsz. unfold region_size in Hs.
  destruct (pl_align _ _ _ (hr_place _ _ _ _ Hr)) as [j Hj]. rewrite Hb in Hj. split; [|split; [|split]].
  - intros op Hm. destruct (wp_run _ _ _ (inv_step _ _ _ _ _ _ op Hi Hm)) as (r & s' & E & _). eauto.
  - intros p n Hp. destruct (Hl p n Hp) as [Hn Hx]. destruct (chunk_size_spec n Hn) as (_ & _ & Hc & _).
    destruct (chunks_range _ _ _ _ _ Hg Hx) as (H1 & H2 & _ & k & Hk). split; [exists (j + k + 1); lia | lia].
  - intros p n p' n' Hp Hp' Hne. destruct (Hl p n Hp) as [Hn Hx]. destruct (Hl p' n' Hp') as [Hn' Hx'].
    destruct (chunk_size_spec n Hn) as (_ & _ & Hc & _). destruct (chunk_size_spec n' Hn') as (_ & _ & Hc' & _).
    destruct (chunks_disjoint _ _ _ _ _ _ _ _ Hg Hx Hx') as [(? & _)|?]; lia.
  - intros a v Hv. by apply Hsh.
Qed.


(** C19: For requests of fewer than 2^32 - 23 bytes [mm_malloc] is best fit: it
    cuts the block from the smallest free chunk that is large enough, the rest
    of which stays free, and returns NULL only if no free chunk is large enough
    or nothing was asked for; the contents of the allocated chunks stay, and no
    two free chunks become neighbours.  (The size of larger requests wraps
    around, see [malloc_size_wraps].) *)
Theorem malloc_best_fit s cs bk n : hrep s cs bk [] -> coalesced cs -> 0 <= n < 2 ^ 32 - 23 ->
  wp (mm_malloc n) (fun r s' => exists cs' bk', hrep s' cs' bk' [] /\ coalesced cs' /\ stays cs s s' /\
    ((r = 0 /\ cs' = cs /\ (n = 0 \/ forall sz, (sz, false) ∈ cs -> sz < chunk_size n)) \/
     (exists l1 sz l2, 0 < n /\ cs = l1 ++ (sz, false) :: l2 /\ chunk_size n <= sz /\ (forall sz', (sz', false) ∈ cs -> chunk_size n <= sz' -> sz <= sz') /\
        cs' = l1 ++ (chunk_size n, true) :: rest_of sz (chunk_size n) ++ l2 /\ r = mm_heapstart s + 16 + total l1))) s.
Proof.
  intros Hr Hc Hn0. destruct (decide (n = 0)) as [->|].
  { apply wp_ret. exists cs, bk. split; [done|]. split; [done|]. split; [done|]. left. auto. }
  assert (Hn : 1 <= n < 2 ^ 32 - 23) by lia. assert (Hin : forall sz, (sz, false) ∈ cs -> exists x, (x, sz) ∈ frees (mm_heapstart s + 8) cs).
  { intros sz (l1 & l2 & E)%list_elem_of_split. rewrite E. eexists. apply chunks_mid. }
  apply (wp_mm_malloc n s cs bk); [done | done | |].
  - intros s' bk' l1 sz l2 Hcs Hle Hbest Hr' Hst. eexists _, bk'. split; [exact Hr'|]. split; [apply coalesced_malloc; by rewrite <- Hcs|]. split; [done|]. right.
    exists l1, sz, l2. split; [lia|]. split; [done|]. split; [done|]. split; [|split; [done | lia]]. intros sz' Hsz' Hle'. destruct (Hin _ Hsz') as [x Hx]. by eapply Hbest.
  - intros s' Hall Hr' Hst. exists cs, bk. split; [done|]. split; [done|]. split; [done|]. left. split; [done|]. split; [done|]. right.
    intros sz Hsz. destruct (Hin _ Hsz) as [x Hx]. by eapply Hall.
Qed.

(** The size is not checked for overflow: a request of nearly 4 GB wraps
    around and is served like a request of one byte, in every state. *)
Theorem malloc_size_wraps s n : 2 ^ 32 - 7 <= n < 2 ^ 32 -> mm_malloc n s = mm_malloc 1 s.
Proof.
  intros Hn. unfold mm_malloc. rewrite (proj2 (Z.ltb_ge n 1)) by lia. change (1 <? 1) with false. cbv iota.
  assert (E : MM_ALIGN_UP (u32 (n + SIZEOF_MM_ALLOCNODE)) = MM_ALIGN_UP (u32 (1 + SIZEOF_MM_ALLOCNODE))); [|by rewrite E].
  unfold SIZEOF_MM_ALLOCNODE, wrap. replace (n + 8) with (n + 8 - 2 ^ 32 + 1 * 2 ^ 32) by lia. rewrite Z_mod_plus_full, Z.mod_small by lia.
  rewrite align_up by lia. replace ((n + 8 - 2 ^ 32 + 15) / 16) with 1 by (apply (Z.div_unique _ 16 1 (n + 8 - 2 ^ 32 - 1)); lia). done.
Qed.

(** ** Examples *)

Definition words (a : Z) (n : nat) : list (Z * Z) := (fun i => (a + 4 * Z.of_nat i, 0)) <$> seq 0 n.

(** 512 bytes of heap at 0x2000, the array at 0x1000. *)
Definition demo_heap : mm_heap_s := mkHeap (list_to_map (words 0x1000 76 ++ words 0x2000 128)) 0x1000 0 0 0 0.

Lemma words_in a n i : 0 <= i < Z.of_nat n -> a + 4 * i ∈ (words a n).*1.
Proof.
  intros Hi. unfold words. rewrite <- list_fmap_compose. apply list_elem_of_fmap. exists (Z.to_nat i). split; [simpl; lia | apply elem_of_seq; lia].
Qed.

Lemma demo_region : region_ok demo_heap 0x2000 512.
Proof.
  assert (Hd : forall w, w ∈ (words 0x1000 76).*1 \/ w ∈ (words 0x2000 128).*1 -> is_Some (mm_mem demo_heap !! w)).
  { intros w Hw. apply elem_of_dom. unfold demo_heap. cbn [mm_mem]. rewrite dom_list_to_map, elem_of_list_to_set, fmap_app. by apply elem_of_app. }
  constructor.
  - lia.
  - constructor; try done; [by exists 512|]. left. vm_compute. discriminate.
  - vm_compute. discriminate.
  - intros k Hk. change (region_base 0x2000) with 8192 in Hk. change (region_end 0x2000 512) with 8704 in Hk. apply Hd. right.
    replace (4 * k) with (0x2000 + 4 * (k - 2048)) by lia. apply words_in. lia.
  - intros i Hi. apply Hd. left. by apply words_in.
Qed.

(** An executable [may], and playing a list of operations. *)
Definition may_b (op : mm_op) (c : client) : bool :=
  match op with
  | OMalloc n => (0 <=? n) && (n <? 2 ^ 32 - 23)
  | OFree p => (p =? 0) || bool_decide (is_Some (live c !! p))
  | OWrite a v => existsb (fun b => (fst b <=? a) && (a <? fst b + snd b)) (map_to_list (live c)) && (a mod 4 =? 0)
  end.

Lemma may_b_may op c : may_b op c = true -> may op c.
Proof.
  destruct op as [n|p|a v]; simpl.
  - rewrite andb_true_iff, Z.leb_le, Z.ltb_lt. lia.
  - rewrite orb_true_iff, Z.eqb_eq, bool_decide_eq_true. done.
  - rewrite andb_true_iff, Z.eqb_eq. intros [Hex Ha]. apply existsb_exists in Hex as ([p n] & Hin & Hb). simpl in Hb. rewrite andb_true_iff, Z.leb_le, Z.ltb_lt in Hb.
    apply list_elem_of_In, elem_of_map_to_list in Hin. exists p, n, (a / 4). split; [done|]. split; [done|]. rewrite (Z.div_mod a 4) at 1 by lia. lia.
Qed.

Fixpoint play (ops : list mm_op) (s : mm_heap_s) (c : client) : option (mm_heap_s * client) :=
  match ops with
  | [] => Some (s, c)
  | op :: ops => if may_b op c then match run_mm op s with Some (r, s') => play ops s' (after op r c) | None => None end else None
  end.

Lemma play_run s0 start size ops : forall s c s' c', heap_run s0 start size s c -> play ops s c = Some (s', c') -> heap_run s0 start size s' c'.
Proof.
  induction ops as [|op ops IH]; intros s c s' c' Hrun Hp; simpl in Hp; [by injection Hp as <- <-|].
  destruct (may_b op c) eqn:Em; [|done]. destruct (run_mm op s) as [[r s1]|] eqn:Er; [|done]. eapply IH; [|exact Hp]. eapply hr_step; [done | by apply may_b_may | done].
Qed.

Definition demo_play (ops : list mm_op) : option (mm_heap_s * client) :=
  match mm_initialize 0x2000 512 demo_heap with Some (_, s) => play ops s (mkClient ∅ ∅) | None => None end.

Lemma demo_play_run ops s c : demo_play ops = Some (s, c) -> heap_run demo_heap 0x2000 512 s c.
Proof.
  unfold demo_play. destruct (mm_initialize 0x2000 512 demo_heap) as [[u s1]|] eqn:E; [|done]. apply play_run. by eapply hr_init.
Qed.

(** Three blocks, the one in the middle freed and used again. *)
Definition demo_use : list mm_op := [OMalloc 10; OMalloc 100; OMalloc 8; OWrite 8240 42; OWrite 8352 7; OFree 8240; OMalloc 20].

Lemma heap_safe_witness : exists s c, heap_run demo_heap 0x2000 512 s c /\ live c !! 8240 = Some 20 /\ mm_mem s !! 8352 = Some 7 /\
  forall op, may op c -> exists r s', run_mm op s = Some (r, s').
Proof.
  destruct (demo_play demo_use) as [[s c]|] eqn:E; [|vm_compute in E; discriminate]. exists s, c. pose proof (demo_play_run _ _ _ E) as Hrun.
  destruct (heap_safe demo_heap 0x2000 512 s c demo_region Hrun) as (H1 & _ & _ & H4). split; [exact Hrun|].
  assert (Hc : live c !! 8240 = Some 20 /\ shadow c !! 8352 = Some 7).
  { vm_compute in E. injection E as _ Ec. rewrite <- Ec. split; vm_compute; reflexivity. }
  split; [apply Hc|]. split; [apply H4, Hc | exact H1].
Defined.


Lemma malloc_best_fit_witness : exists s cs bk, hrep s cs bk [] /\ coalesced cs /\
  wp (mm_malloc 30) (fun r s' => exists cs' bk', hrep s' cs' bk' [] /\ coalesced cs' /\ stays cs s s' /\
    ((r = 0 /\ cs' = cs /\ (30 = 0 \/ forall sz, (sz, false) ∈ cs -> sz < chunk_size 30)) \/
     (exists l1 sz l2, 0 < 30 /\ cs = l1 ++ (sz, false) :: l2 /\ chunk_size 30 <= sz /\ (forall sz', (sz', false) ∈ cs -> chunk_size 30 <= sz' -> sz <= sz') /\
        cs' = l1 ++ (chunk_size 30, true) :: rest_of sz (chunk_size 30) ++ l2 /\ r = mm_heapstart s + 16 + total l1))) s.
Proof.
  destruct (demo_play demo_use) as [[s c]|] eqn:E; [|vm_compute in E; discriminate].
  destruct (heap_run_inv _ _ _ _ _ demo_region (demo_play_run _ _ _ E)) as (cs & bk & Hi). destruct Hi as [Hr _ _ Ha _ _ _]. exists s, cs, bk.
  split; [exact Hr|]. split; [exact Ha|]. apply (malloc_best_fit s cs bk 30 Hr Ha). lia.
Defined.

Lemma malloc_size_wraps_witness : exists s', (mm_initialize 0x2000 512 ;; mm_malloc (2 ^ 32 - 1)) demo_heap = Some (8208, s').
Proof.
  unfold bind. destruct (mm_initialize 0x2000 512 demo_heap) as [[u s]|] eqn:E; [|vm_compute in E; discriminate].
  rewrite (malloc_size_wraps s (2 ^ 32 - 1) ltac:(lia)). vm_compute in E. injection E as _ Es. rewrite <- Es. eexists. vm_compute. reflexivity.
Defined.

(** A request a little smaller than that is rounded up to size 0, and the entry
    of bucket 1 in the array of the heap itself is handed out. *)
Example malloc_hands_out_array : exists s', (mm_initialize 0x2000 512 ;; mm_malloc (2 ^ 32 - 16)) demo_heap = Some (0x1000 + 16 + 8, s').
Proof. eexists. vm_compute. reflexivity. Qed.

(** [calloc] multiplies modulo 2^32. *)
Example calloc_wraps : exists s', (mm_initialize 0x2000 512 ;; calloc (2 ^ 31 + 8) 2) demo_heap = Some (8208, s') /\
  mm_mem s' !! 8200 = Some 32.
Proof. eexists. split; vm_compute; reflexivity. Qed.

(** [realloc] copies as many bytes as the new block has, whatever the size of
    the old one: here it reads past the end of the heap. *)
Example realloc_reads_past_end : (mm_initialize 0x2000 512 ;; a <- malloc 296 ;; b <- malloc 184 ;; free a ;; realloc b 296) demo_heap = None /\
  exists s', (mm_initialize 0x2000 512 ;; a <- malloc 296 ;; b <- malloc 184 ;; free a ;; realloc b 180) demo_heap = Some (8208, s').
Proof. split; [vm_compute; reflexivity | eexists; vm_compute; reflexivity]. Qed.
