(* ===== verification/KvBlock.v ===== *)
(** * Key-value store: blocks (kernel/fs/kv2/block.c)

    The store keeps its entries in blocks of flash memory.  A block is a
    sequence of nodes followed by erased memory; a node is never changed, but
    its last word is cleared when it is removed, and a block without valid
    nodes is erased.  Nodes that a program writes carry their sizes; besides
    them there can be read-only lines of text of the form key=value.

    Positions and sizes are natural numbers: with blocks of at most 2^15 bytes
    none of the 16-bit fields of [kvnode_t] and [kvblock_t] wraps around.
    Flash memory is mapped ([CONFIG_NON_ADDRESS_FLASH] is not set), so that
    [mem_cache] is the block itself.  A read outside the block is a fault. *)

From stdpp Require Import functions.
From S2P Require Import Prelude.
From S2P Require Import Monad.

(** ** Flash memory

    What the store relies on: writing and erasing keep the length of a block,
    and writing changes nothing outside the range written. *)
Class FlashOps := mkFlashOps {
  flash_write : list Z -> nat -> list Z -> list Z;
  flash_erase : list Z -> list Z;
  flash_write_length mem pos data : length (flash_write mem pos data) = length mem;
  flash_write_frame mem pos data i :
    (i < pos \/ pos + length data <= i)%nat -> flash_write mem pos data !! i = mem !! i;
  flash_erase_length mem : length (flash_erase mem) = length mem;
}.

(** A flash that works: programming can only clear bits, erasing sets them. *)
Class NorFlash `{FlashOps} : Prop := mkNorFlash {
  nor_write mem pos data : (pos + length data <= length mem)%nat ->
    flash_write mem pos data =
      take pos mem ++ zip_with Z.land (take (length data) (drop pos mem)) data ++ drop (pos + length data) mem;
  nor_erase mem : flash_erase mem = replicate (length mem) 0xff;
}.

(** ** Data (kvset.h, block.h) *)

Record kvnode_t := mkNode {
  rw : Z;
  version : Z;
  val_size : nat;
  erase_flag : Z;
  head_offset : nat;
  value_offset : nat;
  next_offset : nat;
  node_size : nat;
  node_block : nat;   (* block->id *)
}.

Record kvblock_t := mkBlock {
  mem : list Z;
  bsize : nat;
  write_offset : nat;
  kv_size : nat;
  dirty_size : nat;
  count : nat;
  ro_count : nat;
}.

Record cache_node_t := mkCacheNode { c_hash : Z; c_block_id : Z; c_offset : Z }.

(** [struct kvset]; [num] is the number of blocks, [cache_num] that of the
    cache entries. *)
Record kv_t := mkKv {
  blocks : list kvblock_t;
  bid : nat;
  gc_bid : Z;
  cache : list cache_node_t;
}.

Definition ERASE_FLAG : Z := 0.
Definition NODE_VAILD (n : kvnode_t) : bool := negb (erase_flag n =? ERASE_FLAG).
Definition RW_FLAG_SIZE : nat := 5.
Definition node0 : kvnode_t := mkNode 0 0 0 0 0 0 0 0 0.

Abbreviation K := (st kv_t).

Definition block_get (i : nat) : K kvblock_t := bs <- gets blocks ;; lift (bs !! i).
Definition block_put (i : nat) (b : kvblock_t) : K unit :=
  modify (fun s => mkKv (<[i := b]> (blocks s)) (bid s) (gc_bid s) (cache s)).
Definition block_num : K nat := bs <- gets blocks ;; ret (length bs).
Definition set_mem (m : list Z) (b : kvblock_t) : kvblock_t :=
  mkBlock m (bsize b) (write_offset b) (kv_size b) (dirty_size b) (count b) (ro_count b).

Definition align4 (x : nat) : nat := if (x mod 4 =? 0)%nat then x else (4 - x mod 4 + x)%nat.

(** Bytes in memory: [byte m i] faults outside; [word m i] is the 32-bit value
    at [i], [bytes_from m i] what a pointer to [i] can read. *)
Definition byte (m : list Z) (i : nat) : option Z := m !! i.
Definition word (m : list Z) (i : nat) : option Z :=
  match m !! i, m !! (i + 1)%nat, m !! (i + 2)%nat, m !! (i + 3)%nat with
  | Some a, Some b, Some c, Some d => Some (a + 256 * (b + 256 * (c + 256 * d)))
  | _, _, _, _ => None
  end.

(** The loop of [keycmp]; [s] and [d] are what the two pointers read. *)
Fixpoint keycmp_loop (s d : list Z) (n : Z) : option Z :=
  match s, d with
  | x :: s', y :: d' =>
      if negb (x =? 0) && (x =? y) then
        if n - 1 <? 0 then Some (-1) else keycmp_loop s' d' (n - 1)
      else if (n =? 0) && (x =? 0) then Some 0
      else Some (x - y)
  | _, _ => None
  end.

Definition keycmp (s d : list Z) (n : Z) : option Z :=
  if n =? 0 then Some 0 else keycmp_loop s d n.

(** ** Flash access of a block (kv_flash_write and kv_flash_erase of kv2.c) *)

Section Block.
Context `{FlashOps}.

Definition block_erase (i : nat) : K unit :=
  b <- block_get i ;; block_put i (set_mem (flash_erase (mem b)) b).

Definition block_write (i : nat) (offset : nat) (data : list Z) : K unit :=
  b <- block_get i ;;
  when (offset + length data <=? bsize b)%nat (block_put i (set_mem (flash_write (mem b) offset data) b)).

Definition kvblock_gc (i : nat) : K unit :=
  block_erase i ;;
  b <- block_get i ;;
  block_put i (mkBlock (mem b) (bsize b) 0 0 0 0 (ro_count b)).

(** ** Nodes *)

Definition kvnode_rm (node : kvnode_t) : K unit :=
  if NODE_VAILD node && negb (rw node =? 0) then
    b <- block_get (node_block node) ;;
    if (1 <? Z.of_nat (count b) - Z.of_nat (ro_count b)) then
      block_write (node_block node) (next_offset node - 4) (replicate 4 ERASE_FLAG) ;;
      b <- block_get (node_block node) ;;
      block_put (node_block node)
        (mkBlock (mem b) (bsize b) (write_offset b) (kv_size b - node_size node) (dirty_size b + node_size node)
           (count b - 1) (ro_count b))
    else kvblock_gc (node_block node)
  else ret tt.

Definition kvblock_alloc_node (i : nat) (size : nat) : K (option nat) :=
  b <- block_get i ;;
  if (write_offset b + size <=? bsize b - 4)%nat then
    block_put i (mkBlock (mem b) (bsize b) (write_offset b + size) (kv_size b) (dirty_size b) (count b) (ro_count b)) ;;
    ret (Some (write_offset b))
  else ret None.

(** The bytes of a node up to its padding. *)
Definition size_hi (len size : nat) : Z := Z.lor (Z.land (Z.shiftr (Z.of_nat size) 8) 0xff) (Z.shiftl (Z.of_nat len) 2).

Definition node_bytes (key value : list Z) (version : Z) : list Z :=
  let len := length key in let size := length value in
  key ++ [0; Z.land (Z.of_nat size) 0xff; Z.land (size_hi len size) 0xff; Z.land version 0xff; 0x3d] ++
  value ++ [Z.land (size_hi len size) 0xff].

(** [junk] is what the bytes of the local array [buffer] hold before it is
    filled. *)
Definition kvblock_set (junk : nat -> Z) (i : nat) (key value : list Z) (version : Z) : K (option nat) :=
  let len := length key in let size := length value in
  if (len <=? 0)%nat || (0x3f <? len)%nat || (0x3ffff <? Z.of_nat size) then ret None
  else
    let malloc_size := align4 (len + size + RW_FLAG_SIZE + 1) in
    let node_size := (malloc_size + 4)%nat in
    offset <- kvblock_alloc_node i node_size ;;
    match offset with
    | None => ret None
    | Some offset =>
        let bytes := node_bytes key value version in
        let buffer := bytes ++ ((fun i => junk i mod 256) <$> seq (length bytes) (malloc_size - length bytes)) in
        block_write i offset buffer ;;
        b <- block_get i ;;
        if bool_decide (take malloc_size (drop offset (mem b)) = buffer) then
          block_put i (mkBlock (mem b) (bsize b) (write_offset b) (kv_size b + node_size) (dirty_size b) (count b + 1) (ro_count b)) ;;
          ret (Some offset)
        else
          block_write i (offset + malloc_size) (replicate 4 ERASE_FLAG) ;;
          ret None
    end.
End Block.

(** ** Searching a block *)

Definition isprint (c : Z) : bool := (0x20 <=? c) && (c <=? 0x7e).

(** Skip zero bytes. *)
Fixpoint skip_zeros (fuel : nat) (m : list Z) (size c : nat) : option nat :=
  match fuel with
  | O => None
  | S f =>
      if (c <? size)%nat then
        x ← byte m c; if x =? 0 then skip_zeros f m size (S c) else Some c
      else Some c
  end.

(** The node whose key ends at [c], if the bytes there are those of a node. *)
Definition rw_node (id : nat) (m : list Z) (size c : nat) : option (option kvnode_t) :=
  c1 ← byte m (c + 1); c2 ← byte m (c + 2); c4 ← byte m (c + 4);
  let value_size := Z.to_nat (Z.lor c1 (Z.land (Z.shiftl c2 8) 0x3ff)) in
  let key_size := Z.to_nat (Z.shiftr c2 2) in
  if negb (c4 =? 0x3d) || (size <=? c + value_size)%nat || (c <? key_size)%nat then Some None
  else
    cv ← byte m (c + value_size + RW_FLAG_SIZE);
    if negb (c2 =? cv) then Some None
    else
      let nsize := (align4 (key_size + value_size + RW_FLAG_SIZE + 1) + 4)%nat in
      c3 ← byte m (c + 3);
      flag ← word m (c - key_size + nsize - 4);
      if (nsize <? size)%nat then
        Some (Some (mkNode 1 c3 value_size flag (c - key_size) (c + RW_FLAG_SIZE) (c - key_size + nsize) nsize id))
      else None.

(** The loop of [kvblock_search]; [head] is where the node begins if it is a
    line of text, [delim] the last '='. *)
Fixpoint search_loop (fuel : nat) (id : nat) (m : list Z) (size head c : nat) (delim : option nat) : option (option kvnode_t) :=
  match fuel with
  | O => None
  | S f =>
      if (c <? size - 1)%nat then
        x ← byte m c;
        if x =? 0 then
          r ← rw_node id m size c;
          match r with
          | Some n => Some (Some n)
          | None => search_loop f id m size head (S c) delim
          end
        else if x =? 0x3d then search_loop f id m size head (S c) (Some c)
        else if x =? 0x0a then
          match delim with
          | Some d =>
              if (c + 1 - head <? size)%nat then
                Some (Some (mkNode 0 0 (c - d - 1) 0xffff head (d + 1) (c + 1) (c + 1 - head) id))
              else None
          | None => search_loop f id m size head (S c) delim
          end
        else if x =? 0x0d then search_loop f id m size head (S c) delim
        else search_loop f id m size head (S c) (if isprint x then delim else None)
      else Some None
  end.

(** [kvblock_search]: whether a node was found at or after [c], and what
    [node] then holds; without a node only its position and block are set. *)
Definition kvblock_search (i : nat) (c : nat) (node : kvnode_t) : K (bool * kvnode_t) :=
  b <- block_get i ;;
  head <- lift (skip_zeros (S (bsize b)) (mem b) (bsize b) c) ;;
  r <- lift (search_loop (S (bsize b)) i (mem b) (bsize b) head head None) ;;
  match r with
  | Some n => ret (true, n)
  | None => ret (false, mkNode (rw node) (version node) (val_size node) (erase_flag node) head (value_offset node)
                          (next_offset node) (node_size node) i)
  end.

(** What a pointer to [off] in block [i] reads. *)
Definition bytes_from (i off : nat) : K (list Z) :=
  b <- block_get i ;; ret (drop off (mem b)).

(** [kvblock_iter]: [fn] is called for every node ([exists_only = false]) or
    for every valid node, until it returns something other than 0.  A node
    has at least one byte, so a block has at most [bsize] nodes. *)
Fixpoint iter_loop (fuel i : nat) (exists_only : bool) (fn : kvnode_t -> K Z) (next : nat) (node : kvnode_t) : K Z :=
  match fuel with
  | O => fault
  | S f =>
      r <- kvblock_search i next node ;;
      let '(found, n) := r in
      if found : bool then
        (if negb exists_only || NODE_VAILD n then
           ret_ <- fn n ;;
           if ret_ =? 0 then iter_loop f i exists_only fn (next_offset n) n else ret ret_
         else iter_loop f i exists_only fn (next_offset n) n)
      else ret 0
  end.

Definition kvblock_iter (i : nat) (exists_only : bool) (fn : kvnode_t -> K Z) : K Z :=
  b <- block_get i ;;
  iter_loop (S (bsize b)) i exists_only fn 0 node0.

Definition NODE_ALL : bool := false.
Definition NODE_EXISTS : bool := true.

(** [keycmp] of a name with the key of a node; [value_offset - head_offset - 1]
    is an [int]. *)
Definition kvnode_cmp_name (node : kvnode_t) (key : list Z) : K Z :=
  d <- bytes_from (node_block node) (head_offset node) ;;
  lift (keycmp (key ++ [0]) d (Z.of_nat (value_offset node) - Z.of_nat (head_offset node) - 1)).

Section Block2.
Context `{FlashOps}.

(** Which of two nodes of the same key is removed as the older one. *)
Definition older (n1 n2 : kvnode_t) : option bool :=
  if (version n1 =? 255) && (version n2 =? 1) then Some true
  else if (version n1 =? 1) && (version n2 =? 255) then Some false
  else if version n1 <? version n2 then Some true
  else if version n2 <? version n1 then Some false
  else None.

(** The result is [Some true] for [node1], [Some false] for [node2]. *)
Definition kvblock_check_version (node1 node2 : kvnode_t) : K (option bool) :=
  s <- bytes_from (node_block node1) (head_offset node1) ;;
  d <- bytes_from (node_block node2) (head_offset node2) ;;
  c <- lift (keycmp s d (Z.of_nat (value_offset node2) - Z.of_nat (head_offset node2) - 1)) ;;
  if negb (c =? 0) then ret None
  else
    match older node1 node2 with
    | Some true => kvnode_rm node1 ;; ret (Some true)
    | Some false => kvnode_rm node2 ;; ret (Some false)
    | None => ret None
    end.

(** [_iter_find] with [kvblock_find]: the fields of [find_node_t] are threaded
    as a state of the iteration. *)
Fixpoint find_loop (fuel i : nat) (key : list Z) (next : nat) (node : kvnode_t) (cnt : Z) (found : option kvnode_t) :
    K (option kvnode_t) :=
  match fuel with
  | O => fault
  | S f =>
      r <- kvblock_search i next node ;;
      let '(ok, n) := r in
      if ok : bool then
        if NODE_VAILD n then
          c <- kvnode_cmp_name n key ;;
          let found' := if c =? 0 then Some n else found in
          if (c =? 0) && negb (rw n =? 0) then ret found'
          else if 0 <? cnt - 1 then find_loop f i key (next_offset n) n (cnt - 1) found'
          else ret found'
        else find_loop f i key (next_offset n) n cnt found
      else ret found
  end.

Definition kvblock_find (i : nat) (key : list Z) : K (option kvnode_t) :=
  b <- block_get i ;;
  find_loop (S (bsize b)) i key 0 node0 (Z.of_nat (count b)) None.

Definition kvblock_reset (i : nat) : K Z :=
  kvblock_iter i NODE_EXISTS (fun node => kvnode_rm node ;; ret 0).

Definition iter_calc (node : kvnode_t) : K Z :=
  let size := (next_offset node - head_offset node)%nat in
  b <- block_get (node_block node) ;;
  (if NODE_VAILD node then
     block_put (node_block node)
       (mkBlock (mem b) (bsize b) (write_offset b) (kv_size b + size) (dirty_size b) (count b + 1)
          (if rw node =? 0 then ro_count b + 1 else ro_count b))
   else
     block_put (node_block node)
       (mkBlock (mem b) (bsize b) (write_offset b) (kv_size b) (dirty_size b + size) (count b) (ro_count b))) ;;
  b <- block_get (node_block node) ;;
  block_put (node_block node)
    (mkBlock (mem b) (bsize b) (align4 (next_offset node)) (kv_size b) (dirty_size b) (count b) (ro_count b)) ;;
  ret 0.

(** The words after the last node that differ from the last word of the block
    are taken as written, in the first 512 bytes. *)
Fixpoint calc_tail (fuel : nat) (m : list Z) (magic : Z) (v off : nat) : option nat :=
  match fuel with
  | O => None
  | S f =>
      if (v <? 512 - 4)%nat then
        w ← word m v; calc_tail f m magic (v + 4) (if w =? magic then off else (v + 4)%nat)
      else Some off
  end.

Definition kvblock_calc (i : nat) : K unit :=
  b <- block_get i ;;
  block_put i (mkBlock (mem b) (bsize b) (write_offset b) 0 0 0 0) ;;
  kvblock_iter i NODE_ALL iter_calc ;;
  b <- block_get i ;;
  magic <- lift (word (mem b) (bsize b - 4)) ;;
  off <- lift (calc_tail 129 (mem b) magic (write_offset b) (write_offset b)) ;;
  block_put i (mkBlock (mem b) (bsize b) off (kv_size b) (dirty_size b) (count b) (ro_count b)).

(** The words of a block that differ from the first one. *)
Definition uniform (m : list Z) (size : nat) : option bool :=
  v0 ← word m 0;
  foldr (fun j acc => a ← acc; w ← word m (4 * j); Some (a && (w =? v0))) (Some true) (seq 1 (size / 4 - 1)).

Definition kvblock_init (i : nat) (m : list Z) (size : nat) : K unit :=
  b <- block_get i ;;
  block_put i (mkBlock m size (write_offset b) (kv_size b) (dirty_size b) (count b) (ro_count b)) ;;
  kvblock_calc i ;;
  b <- block_get i ;;
  if (count b =? 0)%nat then
    same <- lift (uniform (mem b) (bsize b)) ;;
    v0 <- lift (word (mem b) 0) ;;
    if negb same then kvblock_gc i
    else if v0 =? 0 then kvblock_gc i
    else ret tt
  else ret tt.
End Block2.
