(* ===== verification/KvSet.v ===== *)
(** * Key-value store: the set of blocks (kernel/fs/kv2/kvset.c, kv2.c)

    Entries are written to the current block; a block kept free takes the
    entries of other blocks when space runs out.  A cache of hashes in RAM
    says where the valid nodes are.  Keys are strings without their
    terminating zero. *)

From stdpp Require Import functions.
From S2P Require Import Prelude.
From S2P Require Import Monad.
From S2P Require Import KvBlock.

Definition set_bid (n : nat) : K unit := modify (fun s => mkKv (blocks s) n (gc_bid s) (cache s)).
Definition set_gc_bid (n : Z) : K unit := modify (fun s => mkKv (blocks s) (bid s) n (cache s)).
Definition set_cache (c : list cache_node_t) : K unit := modify (fun s => mkKv (blocks s) (bid s) (gc_bid s) c).

(** ** The cache *)

Definition key_hash (key : list Z) : Z :=
  fold_left (fun hash c => u32 (Z.shiftl hash 7 + Z.shiftl hash 1 + hash + c)) key 0.

Definition cache_free (c : cache_node_t) : bool := (c_offset c =? 0xffff) && (c_block_id c =? 0xffff).

(** The loop of [kv_cache_in]: the entry is there already ([None]), or the
    index of the first free entry, or the number of entries. *)
Fixpoint cache_slot (cs : list cache_node_t) (e : cache_node_t) (i : nat) : option nat :=
  match cs with
  | [] => Some i
  | c :: r =>
      if cache_free c then Some i
      else if (c_hash c =? c_hash e) && (c_block_id c =? c_block_id e) && (c_offset c =? c_offset e) then None
      else cache_slot r e (S i)
  end.

(** [realloc_ok n]: [realloc] to [n] entries succeeds. *)
Definition kv_cache_in (realloc_ok : nat -> bool) (key : list Z) (block_id offset : nat) : K Z :=
  cs <- gets cache ;;
  let e := mkCacheNode (key_hash key) (Z.of_nat block_id) (Z.of_nat offset) in
  match cache_slot cs e 0 with
  | None => ret 0
  | Some i =>
      if (i <? length cs)%nat then set_cache (<[i := e]> cs) ;; ret 0
      else if realloc_ok (S (length cs)) then set_cache (cs ++ [e]) ;; ret 0
      else ret (-1)
  end.

(** [kv_cache_out]: the loop has no bound on its index; it runs past the end
    of the cache when the entry is not there. *)
Fixpoint cache_find (cs : list cache_node_t) (block_id offset : Z) (i : nat) : option nat :=
  match cs with
  | [] => None
  | c :: r => if (c_offset c =? offset) && (c_block_id c =? block_id) then Some i else cache_find r block_id offset (S i)
  end.

Definition kv_cache_out (block_id offset : nat) : K Z :=
  cs <- gets cache ;;
  if (length cs =? 0)%nat then ret 0
  else
    i <- lift (cache_find cs (Z.of_nat block_id) (Z.of_nat offset) 0) ;;
    e <- lift (cs !! i) ;;
    set_cache (<[i := mkCacheNode (c_hash e) 0xffff 0xffff]> cs) ;;
    ret 0.

(** [_iter_cache_node]; the key of a node is read as a string. *)
Fixpoint c_string (m : list Z) : option (list Z) :=
  match m with [] => None | x :: r => if x =? 0 then Some [] else s ← c_string r; Some (x :: s) end.

Definition iter_cache_node (realloc_ok : nat -> bool) (node : kvnode_t) : K Z :=
  if NODE_VAILD node then
    d <- bytes_from (node_block node) (head_offset node) ;;
    key <- lift (c_string d) ;;
    kv_cache_in realloc_ok key (node_block node) (head_offset node)
  else ret 0.

(** ** Looking up *)

(** The loop of [kv_find] over the cache. *)
Fixpoint find_cached (cs : list cache_node_t) (hash : Z) (key : list Z) (node : kvnode_t) : K (Z * kvnode_t) :=
  match cs with
  | [] => ret (-1, node)
  | c :: r =>
      if (c_hash c =? hash) && negb (c_block_id c =? 0xffff) && negb (c_offset c =? 0xffff) then
        sr <- kvblock_search (Z.to_nat (c_block_id c)) (Z.to_nat (c_offset c)) node ;;
        let node' := snd sr in
        cmp_res <- kvnode_cmp_name node' key ;;
        if cmp_res =? 0 then ret (0, node') else find_cached r hash key node'
      else find_cached r hash key node
  end.

Definition kv_find (key : list Z) (node : kvnode_t) : K (Z * kvnode_t) :=
  cs <- gets cache ;;
  find_cached cs (key_hash key) key node.

(** [atoi] and the buffer of [kv_get] for read-only lines. *)
Fixpoint atoi_digits (s : list Z) (acc : Z) : Z :=
  match s with c :: r => if (0x30 <=? c) && (c <=? 0x39) then atoi_digits r (10 * acc + (c - 0x30)) else acc | [] => acc end.
Fixpoint atoi_skip (s : list Z) : list Z :=
  match s with c :: r => if (c =? 0x20) || ((9 <=? c) && (c <=? 13)) then atoi_skip r else s | [] => [] end.
Definition atoi (s : list Z) : Z :=
  match atoi_skip s with
  | c :: r => if c =? 0x2d then - atoi_digits r 0 else if c =? 0x2b then atoi_digits r 0 else atoi_digits (c :: r) 0
  | [] => 0
  end.

(** The result and the bytes copied to [value]. *)
Definition kv_get (key : list Z) (size : nat) : K (Z * list Z) :=
  r <- kv_find key node0 ;;
  let '(found, node) := r in
  if found =? 0 then
    v <- bytes_from (node_block node) (value_offset node) ;;
    if negb (rw node =? 0) then
      ret (Z.of_nat (val_size node), take (Nat.min (val_size node) size) v)
    else if (0 <? val_size node)%nat then
      q <- lift (v !! 0%nat) ;;
      if q =? 0x22 then
        let n := val_size node in
        e1 <- lift (v !! (n - 1)%nat) ;;
        let n := if e1 =? 0x0d then (n - 1)%nat else n in
        e2 <- lift (v !! (n - 1)%nat) ;;
        let n := if e2 =? 0x22 then (n - 1)%nat else n in
        if (n =? 0)%nat then fault (* memcpy of -1 bytes *)
        else ret (Z.of_nat n - 1, take (Nat.min (n - 1) size) (drop 1 v))
      else
        let num := u32 (atoi v) in
        ret (4, take (Nat.min 4 size) [Z.land num 0xff; Z.land (Z.shiftr num 8) 0xff; Z.land (Z.shiftr num 16) 0xff; Z.shiftr num 24])
    else ret (-1, [])
  else ret (-1, []).

Section Set_.
Context `{FlashOps} (junk : nat -> Z) (realloc_ok : nat -> bool).

(** ** Garbage collection *)

Definition deep_gc (target : nat) (node : kvnode_t) : K Z :=
  if rw node =? 1 then
    let version := if version node =? 255 then 1 else version node + 1 in
    d <- bytes_from (node_block node) (head_offset node) ;;
    key <- lift (c_string d) ;;
    v <- bytes_from (node_block node) (value_offset node) ;;
    offset <- kvblock_set junk target key (take (val_size node) v) version ;;
    match offset with
    | Some _ => kvnode_rm node ;; ret 0
    | None => ret 0
    end
  else ret 0.

(** The block with the least data that fits into the free block. *)
Fixpoint gc_min (bs : list kvblock_t) (i : nat) (gc : Z) (min_size : nat) (min_id : option nat) : option nat :=
  match bs with
  | [] => min_id
  | b :: r =>
      if (ro_count b =? 0)%nat && negb (Z.of_nat i =? gc) && (0 <? kv_size b)%nat && (kv_size b <? min_size)%nat
      then gc_min r (S i) gc (kv_size b) (Some i) else gc_min r (S i) gc min_size min_id
  end.

(** [gc_bid] as an index; [-1] is outside the array. *)
Definition gc_index : K nat := g <- gets gc_bid ;; if g <? 0 then fault else ret (Z.to_nat g).

Fixpoint gc_loop (fuel : nat) (new_gc_id : Z) : K Z :=
  match fuel with
  | O => fault
  | S f =>
      gc <- gc_index ;;
      g <- block_get gc ;;
      bs <- gets blocks ;;
      match gc_min bs 0 (Z.of_nat gc) (bsize g - write_offset g) None with
      | Some min_id =>
          kvblock_iter min_id NODE_EXISTS (deep_gc gc) ;;
          b <- block_get min_id ;;
          gc_loop f (if (count b =? 0)%nat then Z.of_nat min_id else new_gc_id)
      | None => ret new_gc_id
      end
  end.

Definition kv_gc : K Z :=
  n <- block_num ;;
  new_gc_id <- gc_loop (S n) (-1) ;;
  if negb (new_gc_id =? -1) then set_gc_bid new_gc_id ;; ret 0 else ret (-1).

(** ** Setting *)

(** The loop over the blocks; [exists_] and [node] are the result of the
    lookup.  [None]: no block has room. *)
Fixpoint set_loop (fuel : nat) (start_bid : nat) (key value : list Z) (version : Z) (exists_ : bool) (node : kvnode_t) :
    K (option Z) :=
  match fuel with
  | O => fault
  | S f =>
      n <- block_num ;;
      cur <- gets bid ;;
      b <- block_get cur ;;
      gc <- gets gc_bid ;;
      offset <- (if (ro_count b =? 0)%nat && negb (Z.of_nat cur =? gc) then kvblock_set junk cur key value version else ret None) ;;
      match offset with
      | Some offset =>
          when exists_ (kvnode_rm node ;; kv_cache_out (node_block node) (head_offset node) ;; ret tt) ;;
          r <- kv_cache_in realloc_ok key cur offset ;;
          ret (Some (if r =? 0 then Z.of_nat (length value) else r))
      | None =>
          set_bid ((cur + 1) mod n)%nat ;;
          cur' <- gets bid ;;
          if (cur' =? start_bid)%nat then ret None else set_loop f start_bid key value version exists_ node
      end
  end.

(** From [start2] on. *)
Definition set_blocks (key value : list Z) (version : Z) (exists_ : bool) (node : kvnode_t) : K (option Z) :=
  start <- gets bid ;;
  n <- block_num ;;
  set_loop (S n) start key value version exists_ node.

(** The version of the new node. *)
Definition next_version (exists_ : bool) (node : kvnode_t) (ver : Z) : Z :=
  (if exists_ then (if version node =? 255 then 0 else version node) else ver) + 1.

Definition kv_set (key value : option (list Z)) : K Z :=
  match key, value with
  | Some key, Some value =>
      if (length value =? 0)%nat || (498 <=? length key + length value)%nat then ret (-1)
      else
        r <- kv_find key node0 ;;
        let '(found, node) := r in
        let exists_ := found =? 0 in
        let ver := next_version exists_ node 0 in
        done <- set_blocks key value ver exists_ node ;;
        match done with
        | Some z => ret z
        | None =>
            g <- kv_gc ;;
            if g =? 0 then
              (if exists_ then
                 r <- kv_find key node ;;
                 let '(found, node) := r in
                 let exists_ := found =? 0 in
                 done <- set_blocks key value (next_version exists_ node ver) exists_ node ;;
                 ret (default (-1) done)
               else
                 done <- set_blocks key value ver exists_ node ;;
                 ret (default (-1) done))
            else ret (-1)
        end
  | _, _ => ret (-1)
  end.

Definition kv_rm (key : list Z) : K Z :=
  r <- kv_find key node0 ;;
  let '(found, node) := r in
  if found =? 0 then
    kvnode_rm node ;;
    kv_cache_out (node_block node) (head_offset node) ;;
    ret found
  else ret found.

Fixpoint reset_loop (n i : nat) : K unit :=
  match n with O => ret tt | S m => kvblock_reset i ;; reset_loop m (S i) end.

Definition kv_reset : K Z := n <- block_num ;; reset_loop n 0 ;; ret 0.

(** ** Start-up *)

(** [kv_iter]: [fn] for every valid node of every block. *)
Fixpoint iter_blocks (fn : kvnode_t -> K Z) (n i : nat) (ret_ : Z) : K Z :=
  match n with
  | O => ret ret_
  | S m => r <- kvblock_iter i NODE_EXISTS fn ;; if r =? 0 then iter_blocks fn m (S i) r else ret r
  end.

Definition kv_iter (fn : kvnode_t -> K Z) : K Z := n <- block_num ;; iter_blocks fn n 0 (-1).

(** [kv_verify]: every valid node is compared with the valid nodes after it.
    The inner loop over the nodes of block [j]; the result says whether
    [node_1] was removed. *)
Fixpoint verify_nodes_2 (fuel : nat) (node_1 : kvnode_t) (j next : nat) (node_2 : kvnode_t) : K bool :=
  match fuel with
  | O => fault
  | S f =>
      r <- kvblock_search j next node_2 ;;
      let '(found, node_2) := r in
      if found : bool then
        (if NODE_VAILD node_2 then
           d <- kvblock_check_version node_1 node_2 ;;
           match d with
           | Some true => ret true
           | _ => verify_nodes_2 f node_1 j (next_offset node_2) node_2
           end
         else verify_nodes_2 f node_1 j (next_offset node_2) node_2)
      else ret false
  end.

(** The loop over the blocks from [j] on; [n] of them are left. *)
Fixpoint verify_blocks_2 (n : nat) (node_1 : kvnode_t) (i j : nat) : K unit :=
  match n with
  | O => ret tt
  | S m =>
      b <- block_get j ;;
      let next := if (j =? i)%nat then next_offset node_1 else 0%nat in
      out <- verify_nodes_2 (S (bsize b)) node_1 j next node0 ;;
      if out : bool then ret tt else verify_blocks_2 m node_1 i (S j)
  end.

(** The loop over the nodes of block [i]; [n] blocks are left from [i] on. *)
Fixpoint verify_nodes_1 (fuel n i next : nat) (node_1 : kvnode_t) : K unit :=
  match fuel with
  | O => fault
  | S f =>
      r <- kvblock_search i next node_1 ;;
      let '(found, node_1) := r in
      if found : bool then
        when (NODE_VAILD node_1) (verify_blocks_2 n node_1 i i) ;;
        verify_nodes_1 f n i (next_offset node_1) node_1
      else ret tt
  end.

Fixpoint verify_blocks_1 (n i : nat) : K unit :=
  match n with
  | O => ret tt
  | S m => b <- block_get i ;; verify_nodes_1 (S (bsize b)) n i 0 node0 ;; verify_blocks_1 m (S i)
  end.

Definition kv_verify : K unit := n <- block_num ;; verify_blocks_1 n 0.

Definition kvblock_free_size (b : kvblock_t) : Z := Z.of_nat (bsize b) - Z.of_nat (write_offset b).

(** The new value of [g_kv_cached_size]. *)
Definition kv_set_cached_size (cached_size size : Z) : Z := if size =? 0 then cached_size else wrap 16 size.

(** The loop of [kv_init] over the blocks; [mems] is what is left of the flash
    memory. *)
Fixpoint init_blocks (mems : list (list Z)) (block_size i : nat) (gc_size : Z) : K unit :=
  match mems with
  | [] => ret tt
  | m :: r =>
      kvblock_init i m block_size ;;
      b <- block_get i ;;
      let v := kvblock_free_size b in
      if (gc_size <=? v) && (4 <? v) then
        set_gc_bid (Z.of_nat i) ;; init_blocks r block_size (S i) v
      else
        cur <- gets bid ;;
        when (cur =? 0)%nat (set_bid i) ;;
        init_blocks r block_size (S i) gc_size
  end.

Definition block0 : kvblock_t := mkBlock [] 0 0 0 0 0 0.
Definition free_cache : cache_node_t := mkCacheNode 0xffffffff 0xffff 0xffff.

(** [calloc_blocks] and [calloc_cache]: the two allocations succeed;
    [cached_size] is [g_kv_cached_size]. *)
Definition kv_init (calloc_blocks calloc_cache : bool) (cached_size : nat) (mems : list (list Z)) (block_size : nat) : K Z :=
  if calloc_blocks then
    modify (fun s => mkKv (replicate (length mems) block0) 0 (-1) (cache s)) ;;
    init_blocks mems block_size 0 0 ;;
    kv_verify ;;
    if calloc_cache then
      set_cache (replicate cached_size free_cache) ;;
      kv_iter (iter_cache_node realloc_ok)
    else set_cache [] ;; ret (-1)
  else modify (fun s => mkKv [] (bid s) (gc_bid s) (cache s)) ;; ret (-1).

(** ** The interface (kv2.c)

    [handle] is that of the flash partition, negative when it could not be
    opened.  The functions run one at a time, under [kv_lock]. *)

(** [partition_open] gives [handle]; [mems] are the sectors of the partition,
    of [sector_size] bytes each. *)
Definition kv2x_init (calloc_blocks calloc_cache : bool) (cached_size : nat) (handle : Z) (mems : list (list Z)) (sector_size : nat) : K Z :=
  if 0 <=? handle then kv_init calloc_blocks calloc_cache cached_size mems sector_size else ret (-1).

Definition kv_setdata (handle : Z) (key buf : option (list Z)) : K Z :=
  if handle <? 0 then ret (-1)
  else r <- kv_set key buf ;; ret (if 0 <=? r then 0 else -1).

(** The result and what is written to [buf]; [buf = false] is NULL. *)
Definition kv_getdata (handle : Z) (key : option (list Z)) (buf : bool) (bufsize : Z) : K (Z * list Z) :=
  if handle <? 0 then ret (-1, [])
  else
    match key with
    | Some k => if negb buf || (bufsize <=? 0) then ret (-1, []) else kv_get k (Z.to_nat bufsize)
    | None => ret (-1, [])
    end.

Definition kv_del (handle : Z) (key : list Z) : K Z := if handle <? 0 then ret (-1) else kv_rm key.

Definition kv_resetdata (handle : Z) : K Z := if handle <? 0 then ret (-1) else kv_reset.

(** The result and the [size] bytes of the buffer. *)
Definition nvram_get_val (handle : Z) (key : list Z) (size : nat) : K (Z * list Z) :=
  r <- kv_getdata handle (Some key) true (Z.of_nat size - 1) ;;
  ret (fst r, snd r ++ replicate (size - length (snd r)) 0).

(** [strlen] of the value faults for NULL; the handle is not looked at. *)
Definition nvram_set_val (key : list Z) (value : option (list Z)) : K Z :=
  match value with
  | Some v => kv_set (Some key) (Some v)
  | None => fault
  end.
End Set_.
