(* ===== verification/KvRep.v ===== *)
(** * What a block holds

    A block of the store represents a list of entries: the images of the
    entries one after the other, then erased memory.  [kvblock_search] at an
    entry finds that entry, at the end of the entries it finds nothing;
    [kvblock_set] appends an entry and [kvnode_rm] invalidates one or, when no
    other is valid, erases the block. *)

From stdpp Require Import functions.
From S2P Require Import Prelude.
From S2P Require Import Monad.
From S2P Require Import KvBlock.

(** ** Entries *)

Record entry := mkEntry { e_key : list Z; e_val : list Z; e_ver : Z; e_pad : list Z; e_valid : bool }.

Definition is_byte (x : Z) : Prop := 0 <= x < 256.

(** The size of the data before the padding, with padding, and of the whole
    node. *)
Definition raw_size (e : entry) : nat := (length (e_key e) + length (e_val e) + RW_FLAG_SIZE + 1)%nat.
Definition esize (e : entry) : nat := (align4 (raw_size e) + 4)%nat.

(** Keys are non-empty strings without line ends; sizes are those the header
    of a node can hold. *)
Record entry_ok (e : entry) : Prop := mkEntryOk {
  eo_len : (0 < length (e_key e) <= 63)%nat;
  eo_key : Forall (fun x => 0 < x < 256 /\ x <> 0x0a) (e_key e);
  eo_size : (length (e_val e) < 1024)%nat;
  eo_val : Forall is_byte (e_val e);
  eo_ver : is_byte (e_ver e);
  eo_pad : length (e_pad e) = (align4 (raw_size e) - raw_size e)%nat;
}.

Definition flag_bytes (valid : bool) : list Z := replicate 4 (if valid then 0xff else 0).
Definition image (e : entry) : list Z := node_bytes (e_key e) (e_val e) (e_ver e) ++ e_pad e ++ flag_bytes (e_valid e).

(** The node [kvblock_search] returns for entry [e] at [off] of block [i]. *)
Definition node_at (i off : nat) (e : entry) : kvnode_t :=
  mkNode 1 (e_ver e) (length (e_val e)) (if e_valid e then 2 ^ 32 - 1 else 0) off (off + length (e_key e) + RW_FLAG_SIZE)
    (off + esize e) (esize e) i.

Lemma align4_le x : (x <= align4 x)%nat.
Proof. unfold align4. destruct (_ =? _)%nat; lia. Qed.

Lemma align4_lt x : (align4 x < x + 4)%nat.
Proof. unfold align4. destruct (Nat.eqb_spec (x mod 4) 0); [lia|]. pose proof (Nat.mod_upper_bound x 4). lia. Qed.

Lemma align4_mod x : (align4 x mod 4 = 0)%nat.
Proof.
  unfold align4. destruct (Nat.eqb_spec (x mod 4) 0); [done|]. pose proof (Nat.mod_upper_bound x 4).
  pose proof (Nat.div_mod_eq x 4). replace (4 - x mod 4 + x)%nat with ((x / 4 + 1) * 4)%nat by lia. apply Nat.Div0.mod_mul.
Qed.

Lemma node_bytes_length key value ver : length (node_bytes key value ver) = (length key + length value + RW_FLAG_SIZE + 1)%nat.
Proof. unfold node_bytes, RW_FLAG_SIZE. rewrite !length_app. simpl. lia. Qed.

Lemma image_length e : entry_ok e -> length (image e) = esize e.
Proof.
  intros He. unfold image, flag_bytes, esize. rewrite !length_app, node_bytes_length, length_replicate, (eo_pad _ He).
  fold (raw_size e). pose proof (align4_le (raw_size e)). lia.
Qed.

(** The header of a node holds the two sizes: the high byte two bits of the
    size of the value and six of that of the key. *)
Definition hi_chk (k a : nat) : bool :=
  let hi := Z.land (Z.lor (Z.of_nat a) (Z.shiftl (Z.of_nat k) 2)) 0xff in
  (Z.land (Z.shiftl hi 8) 0x3ff =? Z.shiftl (Z.of_nat a) 8) && (Z.shiftr hi 2 =? Z.of_nat k).

Lemma hi_split k a : (k <= 63)%nat -> (a < 4)%nat -> hi_chk k a = true.
Proof.
  intros Hk Ha.
  assert (H : forallb (fun k => forallb (hi_chk k) (seq 0 4)) (seq 0 64) = true) by (vm_compute; reflexivity).
  rewrite forallb_forall in H. specialize (H k ltac:(apply in_seq; lia)). rewrite forallb_forall in H.
  apply H, in_seq. lia.
Qed.

Lemma size_split v : (v < 1024)%nat ->
  let a := Z.land (Z.shiftr (Z.of_nat v) 8) 0xff in
  0 <= a < 4 /\ Z.lor (Z.land (Z.of_nat v) 0xff) (Z.shiftl a 8) = Z.of_nat v.
Proof.
  intros Hv.
  assert (H : forallb (fun v => let a := Z.land (Z.shiftr (Z.of_nat v) 8) 0xff in
    (0 <=? a) && (a <? 4) && (Z.lor (Z.land (Z.of_nat v) 0xff) (Z.shiftl a 8) =? Z.of_nat v)) (seq 0 1024) = true)
    by (vm_compute; reflexivity).
  rewrite forallb_forall in H. specialize (H v ltac:(apply in_seq; lia)). cbv zeta in *. lia.
Qed.

Lemma sizes_roundtrip k v : (k <= 63)%nat -> (v < 1024)%nat ->
  let hi := Z.land (size_hi k v) 0xff in
  Z.to_nat (Z.lor (Z.land (Z.of_nat v) 0xff) (Z.land (Z.shiftl hi 8) 0x3ff)) = v /\ Z.to_nat (Z.shiftr hi 2) = k.
Proof.
  intros Hk Hv. destruct (size_split v Hv) as [Ha Hs]. unfold size_hi.
  set (a := Z.land (Z.shiftr (Z.of_nat v) 8) 0xff) in *.
  pose proof (hi_split k (Z.to_nat a) Hk ltac:(lia)) as Hh. unfold hi_chk in Hh. rewrite Z2Nat.id in Hh by lia.
  apply andb_true_iff in Hh as [H1 H2]. apply Z.eqb_eq in H1, H2. cbv zeta. rewrite H1, H2, Hs, !Nat2Z.id. done.
Qed.

(** ** Finding an entry *)

Section Search.
Implicit Types (m pre post : list Z) (i size c off : nat) (e : entry).

(** The loop runs over bytes that neither end a key nor a line. *)
Lemma search_over fuel id pre s post size head delim :
  Forall (fun x => x <> 0 /\ x <> 0x0a) s -> (length pre + length s <= size - 1)%nat ->
  exists delim', search_loop (length s + fuel) id (pre ++ s ++ post) size head (length pre) delim =
    search_loop fuel id (pre ++ s ++ post) size head (length pre + length s) delim'.
Proof.
  revert pre delim. induction s as [|x s IH]; intros pre delim Hs Hl; [exists delim; by rewrite Nat.add_0_r|].
  apply Forall_cons in Hs as [[Hx0 Hxn] Hs]. simpl in Hl |- *.
  destruct (Nat.ltb_spec (length pre) (size - 1)); [|lia]. unfold byte. rewrite list_lookup_middle by done. simpl.
  rewrite (proj2 (Z.eqb_neq x 0)), (proj2 (Z.eqb_neq x 10)) by done.
  assert (E : forall d, exists d', search_loop (length s + fuel) id (pre ++ x :: s ++ post) size head (S (length pre)) d =
    search_loop fuel id (pre ++ x :: s ++ post) size head (length pre + S (length s)) d').
  { intros d. destruct (IH (pre ++ [x]) d Hs) as [d' Hd']; [rewrite length_app; simpl; lia|]. exists d'.
    rewrite length_app in Hd'. simpl in Hd'. rewrite <- app_assoc in Hd'. simpl in Hd'.
    replace (length pre + 1)%nat with (S (length pre)) in Hd' by lia. rewrite Hd'. f_equal. lia. }
  destruct (x =? 61); [apply E|]. destruct (x =? 13); apply E.
Qed.

Lemma lookup_after {A} (pre post : list A) n : (pre ++ post) !! (length pre + n)%nat = post !! n.
Proof. rewrite lookup_app_r by lia. f_equal. lia. Qed.

Lemma word_after pre (a b c d : Z) post : word (pre ++ a :: b :: c :: d :: post) (length pre) = Some (a + 256 * (b + 256 * (c + 256 * d))).
Proof.
  unfold word. rewrite <- (Nat.add_0_r (length pre)) at 1. rewrite !lookup_after. done.
Qed.

(** The bytes of a node at the end of its key. *)
Definition after_key (e : entry) : list Z :=
  let hi := Z.land (size_hi (length (e_key e)) (length (e_val e))) 0xff in
  [0; Z.land (Z.of_nat (length (e_val e))) 0xff; hi; Z.land (e_ver e) 0xff; 0x3d] ++ e_val e ++ [hi] ++ e_pad e ++ flag_bytes (e_valid e).

Lemma image_key e : image e = e_key e ++ after_key e.
Proof. unfold image, after_key, node_bytes. by rewrite <- !app_assoc. Qed.

Lemma after_key_end e post : (after_key e ++ post) !! (5 + length (e_val e))%nat =
  Some (Z.land (size_hi (length (e_key e)) (length (e_val e))) 0xff).
Proof.
  unfold after_key. cbv zeta. rewrite (app_assoc _ (e_val e)), <- app_assoc. apply list_lookup_middle. by rewrite length_app.
Qed.

Lemma byte_land x : is_byte x -> Z.land x 0xff = x.
Proof. intros Hx. unfold is_byte in Hx. change 255 with (Z.ones 8). rewrite Z.land_ones by lia. apply Z.mod_small. lia. Qed.

Lemma flag_word pre e post : entry_ok e ->
  word (pre ++ image e ++ post) (length pre + esize e - 4) = Some (if e_valid e then 2 ^ 32 - 1 else 0).
Proof.
  intros He. unfold image. set (p := pre ++ node_bytes (e_key e) (e_val e) (e_ver e) ++ e_pad e).
  replace (pre ++ (node_bytes (e_key e) (e_val e) (e_ver e) ++ e_pad e ++ flag_bytes (e_valid e)) ++ post)
    with (p ++ flag_bytes (e_valid e) ++ post) by (unfold p; by rewrite <- !app_assoc).
  replace (length pre + esize e - 4)%nat with (length p).
  - unfold flag_bytes. simpl. rewrite word_after. by destruct (e_valid e).
  - unfold p, esize. rewrite !length_app, node_bytes_length, (eo_pad _ He). fold (raw_size e).
    pose proof (align4_le (raw_size e)). lia.
Qed.

Lemma rw_node_at i pre e post : entry_ok e -> (0 < length post)%nat ->
  rw_node i (pre ++ image e ++ post) (length (pre ++ image e ++ post)) (length pre + length (e_key e)) =
    Some (Some (node_at i (length pre) e)).
Proof.
  intros He Hp. pose proof (flag_word pre e post He) as Hw. revert Hw.
  destruct (sizes_roundtrip (length (e_key e)) (length (e_val e))) as [Hv Hk]; [apply He..|].
  assert (Hl : forall n, (pre ++ image e ++ post) !! (length pre + length (e_key e) + n)%nat = (after_key e ++ post) !! n).
  { intros n. rewrite image_key, <- app_assoc, app_assoc, <- length_app. apply lookup_after. }
  unfold rw_node, byte. rewrite !Hl.
  set (hi := Z.land (size_hi (length (e_key e)) (length (e_val e))) 0xff) in *.
  change ((after_key e ++ post) !! 1%nat) with (Some (Z.land (Z.of_nat (length (e_val e))) 0xff)).
  change ((after_key e ++ post) !! 2%nat) with (Some hi).
  change ((after_key e ++ post) !! 3%nat) with (Some (Z.land (e_ver e) 0xff)).
  change ((after_key e ++ post) !! 4%nat) with (Some 0x3d).
  cbn [mbind option_bind]. rewrite Hv, Hk.
  intros Hw.
  assert (Hll : length (pre ++ image e ++ post) = (length pre + esize e + length post)%nat).
  { rewrite !length_app, (image_length _ He). lia. }
  pose proof (align4_le (raw_size e)) as Ha. unfold raw_size, RW_FLAG_SIZE in Ha.
  assert (Hes : esize e = (align4 (raw_size e) + 4)%nat) by done. unfold raw_size, RW_FLAG_SIZE in Hes.
  rewrite Hll. destruct (Nat.leb_spec (length pre + esize e + length post) (length pre + length (e_key e) + length (e_val e))); [lia|].
  destruct (Nat.ltb_spec (length pre + length (e_key e)) (length (e_key e))); [lia|]. simpl.
  replace (length pre + length (e_key e) + length (e_val e) + RW_FLAG_SIZE)%nat
    with (length pre + length (e_key e) + (5 + length (e_val e)))%nat by (unfold RW_FLAG_SIZE; lia).
  rewrite Hl, after_key_end. fold hi. cbn [mbind option_bind]. rewrite Z.eqb_refl. cbn [negb].
  replace (length pre + length (e_key e) - length (e_key e))%nat with (length pre) by lia.
  fold (raw_size e) (esize e). rewrite Hw. simpl.
  destruct (Nat.ltb_spec (esize e) (length pre + esize e + length post)); [|lia].
  unfold node_at. rewrite (byte_land (e_ver e)) by apply He. done.
Qed.

(** [kvblock_search] at an entry. *)
Lemma search_at i pre e post fuel : entry_ok e -> (0 < length post)%nat ->
  search_loop (S (length (e_key e) + fuel)) i (pre ++ image e ++ post) (length (pre ++ image e ++ post)) (length pre) (length pre) None =
    Some (Some (node_at i (length pre) e)).
Proof.
  intros He Hp. replace (S (length (e_key e) + fuel)) with (length (e_key e) + S fuel)%nat by lia.
  assert (Hm : pre ++ image e ++ post = pre ++ e_key e ++ after_key e ++ post) by (by rewrite image_key, <- app_assoc).
  assert (Hll : length (pre ++ image e ++ post) = (length pre + esize e + length post)%nat).
  { rewrite !length_app, (image_length _ He). lia. }
  pose proof (align4_le (raw_size e)) as Ha. unfold raw_size, RW_FLAG_SIZE in Ha.
  assert (Hes : esize e = (align4 (raw_size e) + 4)%nat) by done. unfold raw_size, RW_FLAG_SIZE in Hes.
  destruct (search_over (S fuel) i pre (e_key e) (after_key e ++ post) (length (pre ++ image e ++ post)) (length pre) None)
    as [d Hd].
  { eapply Forall_impl; [apply He|]. simpl. intros x Hx. lia. }
  { lia. }
  rewrite <- Hm in Hd. rewrite Hd. simpl.
  destruct (Nat.ltb_spec (length pre + length (e_key e)) (length (pre ++ image e ++ post) - 1)); [|lia].
  unfold byte. assert (Hz : (pre ++ image e ++ post) !! (length pre + length (e_key e))%nat = Some 0).
  { rewrite Hm, app_assoc, <- length_app, <- (Nat.add_0_r (length (pre ++ e_key e))), lookup_after. done. }
  rewrite Hz. simpl. rewrite (rw_node_at i pre e post He Hp). done.
Qed.

(** In erased memory. *)
Lemma search_free i pre n fuel c head delim : (length pre <= c)%nat -> (length pre + n - c < fuel)%nat ->
  search_loop fuel i (pre ++ replicate n 0xff) (length pre + n) head c delim = Some None.
Proof.
  revert c delim. induction fuel as [|fuel IH]; intros c delim Hc Hf; [lia|]. simpl.
  destruct (Nat.ltb_spec c (length pre + n - 1)); [|done]. unfold byte.
  replace c with (length pre + (c - length pre))%nat at 1 by lia.
  rewrite lookup_after, lookup_replicate_2 by lia. simpl. apply IH; lia.
Qed.

Lemma skip_zeros_at fuel m size c x : byte m c = Some x -> x <> 0 -> skip_zeros (S fuel) m size c = Some c.
Proof. intros Hx Hn. simpl. destruct (_ <? _)%nat; [|done]. rewrite Hx. simpl. by rewrite (proj2 (Z.eqb_neq x 0)). Qed.
End Search.

(** * The blocks of the store as lists of entries

    [block_rep b es]: block [b] holds the entries [es], and its counters are
    those of [es].  [vlocs] lists the valid entries of all blocks with their
    places.  On this level [kvblock_search] finds an entry, [kvblock_set] adds
    one and [kvnode_rm] takes one away, whether it clears its last word or
    erases the block. *)

(** ** Representation of a block *)

Definition esizes (es : list entry) : nat := sum_list_with esize es.
Definition flat (es : list entry) : list Z := concat (image <$> es).
Definition valids (es : list entry) : list entry := filter (fun e => e_valid e = true) es.
Definition invalids (es : list entry) : list entry := filter (fun e => e_valid e = false) es.

(** The memory of a block that holds [es]. *)
Record mem_rep (m : list Z) (size : nat) (es : list entry) : Prop := mkMemRep {
  mr_ok : Forall entry_ok es;
  mr_mem : m = flat es ++ replicate (size - esizes es) 0xff;
  mr_room : (esizes es + 4 <= size)%nat;
}.

Record block_rep (b : kvblock_t) (es : list entry) : Prop := mkBlockRep {
  br_ok : Forall entry_ok es;
  br_mem : mem b = flat es ++ replicate (bsize b - write_offset b) 0xff;
  br_offset : write_offset b = esizes es;
  br_room : (write_offset b + 4 <= bsize b)%nat;
  br_size : (bsize b mod 4 = 0)%nat /\ Z.of_nat (bsize b) <= 2 ^ 15;
  br_count : count b = length (valids es);
  br_kv : kv_size b = esizes (valids es);
  br_dirty : dirty_size b = esizes (invalids es);
  br_ro : ro_count b = 0%nat;
}.

(** [with_block i b s]: block [i] of [s] replaced. *)
Definition with_block (i : nat) (b : kvblock_t) (s : kv_t) : kv_t := mkKv (<[i := b]> (blocks s)) (bid s) (gc_bid s) (cache s).

Lemma esizes_app es1 es2 : esizes (es1 ++ es2) = (esizes es1 + esizes es2)%nat.
Proof. unfold esizes. apply sum_list_with_app. Qed.

Lemma esizes_cons e es : esizes (e :: es) = (esize e + esizes es)%nat.
Proof. done. Qed.

Lemma flat_app es1 es2 : flat (es1 ++ es2) = flat es1 ++ flat es2.
Proof. unfold flat. by rewrite fmap_app, concat_app. Qed.

Lemma flat_cons e es : flat (e :: es) = image e ++ flat es.
Proof. done. Qed.

Lemma flat_length es : Forall entry_ok es -> length (flat es) = esizes es.
Proof.
  induction 1 as [|e es He _ IH]; [done|]. rewrite flat_cons, length_app, IH, image_length, esizes_cons; done.
Qed.

Lemma br_rep b es : block_rep b es -> mem_rep (mem b) (bsize b) es.
Proof. intros [Ho Hm Hw Hr _ _ _ _ _]. rewrite Hw in Hm, Hr. by constructor. Qed.

Lemma mr_length m size es : mem_rep m size es -> length m = size.
Proof. intros [Ho Hm Hr]. rewrite Hm, length_app, length_replicate, (flat_length es Ho). lia. Qed.

Lemma br_length b es : block_rep b es -> length (mem b) = bsize b.
Proof. intros Hb. by eapply mr_length, br_rep. Qed.

Lemma esize_pos e : (0 < esize e)%nat.
Proof. unfold esize. lia. Qed.

Lemma esize_mod e : (esize e mod 4 = 0)%nat.
Proof. unfold esize. rewrite <- (Nat.mul_1_l 4) at 1. rewrite Nat.Div0.mod_add. apply align4_mod. Qed.

Lemma esizes_mod es : (esizes es mod 4 = 0)%nat.
Proof.
  induction es as [|e es IH]; [done|]. rewrite esizes_cons, Nat.Div0.add_mod, esize_mod, IH. done.
Qed.

Lemma key_head e : entry_ok e -> exists x r, e_key e = x :: r /\ x <> 0.
Proof.
  intros He. pose proof (eo_len _ He). pose proof (eo_key _ He) as Hk. destruct (e_key e) as [|x r]; [simpl in *; lia|].
  apply Forall_cons in Hk as [Hx _]. exists x, r. split; [done | lia].
Qed.

(** ** Searching *)

Lemma wp_block_get i b Q s : blocks s !! i = Some b -> Q b s -> wp (block_get i) Q s.
Proof. intros Hb HQ. unfold block_get. by msteps. Qed.

Lemma wp_block_put i b Q s : Q tt (with_block i b s) -> wp (block_put i b) Q s.
Proof. done. Qed.

(** The memory of a block around an entry. *)
Lemma mr_mem_at m size pre e post : mem_rep m size (pre ++ e :: post) ->
  entry_ok e /\ length (flat pre) = esizes pre /\ exists rest, m = flat pre ++ image e ++ rest /\ (4 <= length rest)%nat.
Proof.
  intros [Ho Hm Hr]. apply Forall_app in Ho as [H1 H2]. apply Forall_cons in H2 as [H2 _]. split; [done|]. split; [by apply flat_length|].
  exists (flat post ++ replicate (size - esizes (pre ++ e :: post)) 0xff).
  rewrite Hm, flat_app, flat_cons, <- !app_assoc, length_app, length_replicate. split; [done | lia].
Qed.

Lemma br_mem_at b pre e post : block_rep b (pre ++ e :: post) ->
  exists rest, mem b = flat pre ++ image e ++ rest /\ (4 <= length rest)%nat.
Proof. intros Hb. by apply br_rep, mr_mem_at in Hb as (_ & _ & Hb). Qed.

Lemma entry_in b pre e post : block_rep b (pre ++ e :: post) -> entry_ok e /\ length (flat pre) = esizes pre.
Proof. intros Hb. by apply br_rep, mr_mem_at in Hb as (? & ? & _). Qed.

(** At an entry, valid or not. *)
Lemma wp_search_mem_at i b pre e post node Q s :
  blocks s !! i = Some b -> mem_rep (mem b) (bsize b) (pre ++ e :: post) -> Q (true, node_at i (esizes pre) e) s ->
  wp (kvblock_search i (esizes pre) node) Q s.
Proof.
  intros Hb Hr HQ. destruct (mr_mem_at _ _ _ _ _ Hr) as (He & Hl & rest & Hm & Hrest).
  unfold kvblock_search. apply wp_bind, (wp_block_get i b); [done|]. rewrite <- Hl.
  pose proof (mr_length _ _ _ Hr) as Hbl. destruct (key_head _ He) as (x & r & Hk & Hx).
  apply wp_bind. eapply wp_lift.
  { apply (skip_zeros_at _ _ _ _ x); [|done]. unfold byte. rewrite Hm, <- (Nat.add_0_r (length (flat pre))), lookup_after.
    by rewrite image_key, Hk. }
  apply wp_bind. eapply wp_lift.
  { rewrite Hm in Hbl. rewrite <- Hbl, Hm.
    replace (S (length (flat pre ++ image e ++ rest)))
      with (S (length (e_key e) + (length (flat pre ++ image e ++ rest) - length (e_key e)))).
    - apply search_at; [done | lia].
    - rewrite !length_app. pose proof (image_key e) as Hi. apply (f_equal length) in Hi. rewrite length_app in Hi. lia. }
  cbn iota. rewrite Hl. by apply wp_ret.
Qed.

Lemma wp_search_at i b pre e post node Q s :
  blocks s !! i = Some b -> block_rep b (pre ++ e :: post) -> Q (true, node_at i (esizes pre) e) s ->
  wp (kvblock_search i (esizes pre) node) Q s.
Proof. intros Hb Hr. by apply (wp_search_mem_at i b pre e post), br_rep. Qed.

(** After the last entry: no node is found. *)
Lemma wp_search_mem_end i b es off node Q s :
  blocks s !! i = Some b -> mem_rep (mem b) (bsize b) es -> (esizes es <= off <= bsize b)%nat ->
  (forall n, node_block n = i -> head_offset n = off -> value_offset n = value_offset node -> Q (false, n) s) ->
  wp (kvblock_search i off node) Q s.
Proof.
  intros Hb Hr Ho HQ. unfold kvblock_search. apply wp_bind, (wp_block_get i b); [done|].
  destruct Hr as [Hok Hmem Hroom]. pose proof (flat_length _ Hok) as Hfl.
  apply wp_bind. eapply (wp_lift _ off).
  { destruct (decide (off < bsize b)%nat).
    - apply (skip_zeros_at _ _ _ _ 0xff); [|done]. unfold byte. rewrite Hmem.
      rewrite lookup_app_r by lia. apply lookup_replicate. split; [done | lia].
    - simpl. destruct (Nat.ltb_spec off (bsize b)); [lia | done]. }
  apply wp_bind. eapply (wp_lift _ None).
  { rewrite Hmem. replace (bsize b) with (length (flat es) + (bsize b - esizes es))%nat at 1 3 by lia.
    apply search_free; lia. }
  by apply wp_ret, HQ.
Qed.

Lemma wp_search_end i b es off node Q s :
  blocks s !! i = Some b -> block_rep b es -> (esizes es <= off <= bsize b)%nat ->
  (forall n, node_block n = i -> head_offset n = off -> value_offset n = value_offset node -> Q (false, n) s) ->
  wp (kvblock_search i off node) Q s.
Proof. intros Hb Hr. by apply (wp_search_mem_end i b es), br_rep. Qed.

(** ** Writing to flash memory *)

Lemma land_ff data : Forall is_byte data -> zip_with Z.land (replicate (length data) 0xff) data = data.
Proof.
  induction 1 as [|x l Hx _ IH]; [done|]. simpl. rewrite IH, Z.land_comm, (byte_land x Hx). done.
Qed.

Section Flash.
Context `{NorFlash}.

Lemma write_free p n data : Forall is_byte data -> (length data <= n)%nat ->
  flash_write (p ++ replicate n 0xff) (length p) data = p ++ data ++ replicate (n - length data) 0xff.
Proof.
  intros Hd Hn. rewrite nor_write by (rewrite length_app, length_replicate; lia).
  rewrite take_app_length, drop_app_length, take_replicate, Nat.min_l, land_ff by done.
  rewrite drop_app_add, drop_replicate. done.
Qed.

Lemma write_zeros p old q : length old = 4%nat -> flash_write (p ++ old ++ q) (length p) (replicate 4 0) = p ++ replicate 4 0 ++ q.
Proof.
  intros Ho. rewrite nor_write by (rewrite !length_app, length_replicate; lia). rewrite length_replicate.
  rewrite take_app_length, drop_app_length, drop_app_add.
  destruct old as [|a [|b [|c [|d [|? ?]]]]]; try done. simpl. by rewrite !Z.land_0_r.
Qed.

(** ** Adding an entry *)

Definition key_ok (key : list Z) : Prop := (0 < length key <= 63)%nat /\ Forall (fun x => 0 < x < 256 /\ x <> 0x0a) key.

Definition key_size (key val : list Z) : nat := (align4 (length key + length val + RW_FLAG_SIZE + 1) + 4)%nat.

Lemma node_bytes_bytes key val ver : key_ok key -> Forall is_byte val -> Forall is_byte (node_bytes key val ver).
Proof.
  intros [_ Hk] Hv. unfold node_bytes. cbv zeta.
  assert (Hl : forall x, is_byte (Z.land x 0xff)).
  { intros x. unfold is_byte. change 255 with (Z.ones 8). rewrite Z.land_ones by lia. apply Z.mod_pos_bound. lia. }
  apply Forall_app. split; [eapply Forall_impl; [apply Hk|]; unfold is_byte; simpl; lia|].
  apply Forall_app. split; [|apply Forall_app; split; [done | apply Forall_singleton, Hl]].
  repeat (apply Forall_cons; split; [apply Hl || (unfold is_byte; lia)|]). done.
Qed.

Lemma valids_app l1 l2 : valids (l1 ++ l2) = valids l1 ++ valids l2.
Proof. apply filter_app. Qed.
Lemma invalids_app l1 l2 : invalids (l1 ++ l2) = invalids l1 ++ invalids l2.
Proof. apply filter_app. Qed.

Lemma block_rep_grow b es e : block_rep b es -> entry_ok e -> e_valid e = true ->
  (write_offset b + esize e <= bsize b - 4)%nat ->
  block_rep (mkBlock (flat es ++ image e ++ replicate (bsize b - write_offset b - esize e) 0xff) (bsize b)
    (write_offset b + esize e) (kv_size b + esize e) (dirty_size b) (count b + 1) (ro_count b)) (es ++ [e]).
Proof.
  intros Hb He Hv Hroom. pose proof (br_room _ _ Hb).
  assert (Hval : valids [e] = [e]) by (unfold valids; by rewrite filter_cons_True).
  assert (Hinv : invalids [e] = []) by (unfold invalids; rewrite filter_cons_False; [done | by rewrite Hv]).
  constructor; simpl.
  - apply Forall_app. split; [apply Hb | by constructor].
  - rewrite flat_app, flat_cons, <- !app_assoc. simpl. do 3 f_equal. lia.
  - rewrite esizes_app, <- (br_offset _ _ Hb). unfold esizes. simpl. lia.
  - lia.
  - apply Hb.
  - rewrite valids_app, Hval, length_app, (br_count _ _ Hb). done.
  - rewrite valids_app, Hval, esizes_app, (br_kv _ _ Hb). unfold esizes. simpl. lia.
  - rewrite invalids_app, Hinv, app_nil_r. apply Hb.
  - apply Hb.
Qed.

(** [kvblock_set] appends the entry if it fits. *)
Lemma wp_kvblock_set junk i b es key val ver Q s :
  blocks s !! i = Some b -> block_rep b es -> key_ok key -> Forall is_byte val -> (length val < 1024)%nat ->
  ((bsize b - 4 < write_offset b + key_size key val)%nat -> Q None s) ->
  (forall pad b', let e := mkEntry key val (Z.land ver 0xff) pad true in
    entry_ok e -> esize e = key_size key val -> block_rep b' (es ++ [e]) -> bsize b' = bsize b ->
    (write_offset b + key_size key val <= bsize b - 4)%nat ->
    Q (Some (esizes es)) (with_block i b' s)) ->
  wp (kvblock_set junk i key val ver) Q s.
Proof.
  intros Hb Hr [Hkl Hk] Hv Hvl Hfull HQ. unfold kvblock_set.
  destruct (Nat.leb_spec (length key) 0); [lia|]. destruct (Nat.ltb_spec 63 (length key)); [lia|].
  destruct (Z.ltb_spec 0x3ffff (Z.of_nat (length val))); [lia|]. cbn [orb].
  apply wp_bind. unfold kvblock_alloc_node. apply wp_bind, (wp_block_get i b); [done|]. fold (key_size key val).
  destruct (Nat.leb_spec (write_offset b + key_size key val) (bsize b - 4)) as [Hroom|Hroom]; [|apply wp_ret, wp_ret, Hfull; lia].
  clear Hfull. cbv zeta. rewrite node_bytes_length.
  set (m := (length key + length val + RW_FLAG_SIZE + 1)%nat).
  set (pad := (fun j => junk j mod 256) <$> seq m (align4 m - m)).
  specialize (HQ pad). cbv zeta in HQ. set (e := mkEntry key val (Z.land ver 0xff) pad true) in *.
  assert (He : entry_ok e).
  { constructor; simpl; try done.
    - unfold is_byte. change 255 with (Z.ones 8). rewrite Z.land_ones by lia. apply Z.mod_pos_bound. lia.
    - unfold pad. by rewrite length_fmap, length_seq. }
  assert (Hbytes : Forall is_byte (node_bytes key val ver ++ pad)).
  { apply Forall_app. split; [by apply node_bytes_bytes|]. apply Forall_fmap, Forall_true. intros j. apply Z.mod_pos_bound. lia. }
  assert (Hbl : length (node_bytes key val ver ++ pad) = align4 m).
  { rewrite length_app, node_bytes_length. unfold pad. rewrite length_fmap, length_seq. fold m. pose proof (align4_le m). lia. }
  assert (Himg : image e = (node_bytes key val ver ++ pad) ++ replicate 4 0xff).
  { unfold image, e, node_bytes. simpl. cbv zeta. rewrite <- Z.land_assoc. rewrite <- !app_assoc. done. }
  set (buf := node_bytes key val ver ++ pad) in *.
  pose proof (br_room _ _ Hr) as Hr4. pose proof (flat_length _ (br_ok _ _ Hr)) as Hfl. rewrite <- (br_offset _ _ Hr) in Hfl.
  assert (Hks : key_size key val = (align4 m + 4)%nat) by done.
  apply wp_bind, wp_block_put, wp_ret. unfold block_write. apply wp_bind, wp_bind.
  eapply wp_block_get; [simpl; apply list_lookup_insert_eq; by eapply lookup_lt_Some|]. simpl.
  rewrite Hbl. destruct (Nat.leb_spec (write_offset b + align4 m) (bsize b)); [|lia].
  unfold when. apply wp_block_put. simpl.
  apply wp_bind. eapply wp_block_get; [simpl; apply list_lookup_insert_eq; rewrite length_insert; by eapply lookup_lt_Some|]. simpl.
  rewrite (br_mem _ _ Hr), <- Hfl, write_free by (rewrite ?Hbl; lia || done).
  rewrite bool_decide_eq_true_2 by (rewrite drop_app_length, <- Hbl; apply take_app_length).
  apply wp_bind, wp_block_put, wp_ret. simpl. rewrite (br_offset _ _ Hr) in Hfl. rewrite Hfl.
  unfold with_block. simpl. rewrite !list_insert_insert_eq. simpl.
  apply HQ; [done | done | | done | done].
  pose proof (block_rep_grow b es e Hr He eq_refl Hroom) as Hg. rewrite Himg in Hg.
  rewrite (br_offset _ _ Hr) in Hg. rewrite <- !app_assoc in Hg.
  replace (replicate (bsize b - esizes es - length buf) 0xff)
    with (replicate 4 0xff ++ replicate (bsize b - esizes es - esize e) 0xff); [exact Hg|].
  rewrite <- replicate_add. f_equal. unfold esize. fold m. simpl. rewrite Hbl. unfold raw_size. simpl. fold m.
  rewrite (br_offset _ _ Hr) in *. lia.
Qed.
(** ** Removing an entry *)

Definition kill (e : entry) : entry := mkEntry (e_key e) (e_val e) (e_ver e) (e_pad e) false.

Lemma valids_cons e es : valids (e :: es) = if e_valid e then e :: valids es else valids es.
Proof. unfold valids. destruct (e_valid e) eqn:E; [by rewrite filter_cons_True | by rewrite filter_cons_False; [|rewrite E]]. Qed.

Lemma invalids_cons e es : invalids (e :: es) = if e_valid e then invalids es else e :: invalids es.
Proof. unfold invalids. destruct (e_valid e) eqn:E; [by rewrite filter_cons_False; [|rewrite E] | by rewrite filter_cons_True]. Qed.

Lemma block_rep_kill b pre e post m : block_rep b (pre ++ e :: post) -> e_valid e = true ->
  m = flat (pre ++ kill e :: post) ++ replicate (bsize b - write_offset b) 0xff ->
  block_rep (mkBlock m (bsize b) (write_offset b) (kv_size b - esize e) (dirty_size b + esize e) (count b - 1) (ro_count b))
    (pre ++ kill e :: post).
Proof.
  intros Hb Hv Hm. destruct (entry_in _ _ _ _ Hb) as [He _]. constructor; simpl; try apply Hb.
  - pose proof (br_ok _ _ Hb) as Ho. apply Forall_app in Ho as [H1 H2]. apply Forall_cons in H2 as [_ H2].
    apply Forall_app. split; [done|]. constructor; [|done]. by destruct He.
  - done.
  - rewrite (br_offset _ _ Hb), !esizes_app, !esizes_cons. done.
  - rewrite (br_count _ _ Hb), !valids_app, !valids_cons, Hv, !length_app. simpl. lia.
  - rewrite (br_kv _ _ Hb), !valids_app, !valids_cons, Hv, !esizes_app, esizes_cons. simpl. lia.
  - rewrite (br_dirty _ _ Hb), !invalids_app, !invalids_cons, Hv. simpl. rewrite !esizes_app, esizes_cons. unfold esize, raw_size.
    simpl. lia.
Qed.

Lemma block_rep_empty size : (4 <= size)%nat -> (size mod 4 = 0)%nat -> Z.of_nat size <= 2 ^ 15 ->
  block_rep (mkBlock (replicate size 0xff) size 0 0 0 0 0) [].
Proof. intros. constructor; simpl; try done. by rewrite Nat.sub_0_r. Qed.

(** Clearing the last word of an entry. *)
Lemma write_kill b pre e post : block_rep b (pre ++ e :: post) ->
  flash_write (mem b) (esizes pre + esize e - 4) (replicate 4 ERASE_FLAG) =
    flat (pre ++ kill e :: post) ++ replicate (bsize b - write_offset b) 0xff.
Proof.
  intros Hb. destruct (entry_in _ _ _ _ Hb) as [He Hl]. rewrite (br_mem _ _ Hb), !flat_app, !flat_cons, <- !app_assoc.
  set (q := flat post ++ _). unfold image. set (p := flat pre ++ node_bytes (e_key e) (e_val e) (e_ver e) ++ e_pad e).
  replace (esizes pre + esize e - 4)%nat with (length p).
  - pose proof (write_zeros p (flag_bytes (e_valid e)) q eq_refl) as Hw. unfold p in Hw |- *. rewrite <- !app_assoc in Hw |- *.
    exact Hw.
  - unfold p, esize. rewrite !length_app, node_bytes_length, (eo_pad _ He), Hl. fold (raw_size e).
    pose proof (align4_le (raw_size e)). lia.
Qed.

Lemma wp_kvnode_rm i b pre e post Q s :
  blocks s !! i = Some b -> block_rep b (pre ++ e :: post) -> e_valid e = true ->
  (forall b', (valids (pre ++ post) <> [] -> block_rep b' (pre ++ kill e :: post)) ->
    (valids (pre ++ post) = [] -> block_rep b' []) -> bsize b' = bsize b -> Q tt (with_block i b' s)) ->
  wp (kvnode_rm (node_at i (esizes pre) e)) Q s.
Proof.
  intros Hb Hr Hv HQ. unfold kvnode_rm, NODE_VAILD, node_at. cbn [erase_flag rw node_block next_offset node_size]. rewrite Hv.
  change (negb (2 ^ 32 - 1 =? ERASE_FLAG) && negb (1 =? 0)) with true. cbn iota.
  pose proof (lookup_lt_Some _ _ _ Hb) as Hi.
  assert (Hc : count b = S (length (valids (pre ++ post)))).
  { rewrite (br_count _ _ Hr), !valids_app, valids_cons, Hv, !length_app. simpl. lia. }
  apply wp_bind, (wp_block_get i b); [done|]. rewrite (br_ro _ _ Hr), Hc.
  destruct (Z.ltb_spec 1 (Z.of_nat (S (length (valids (pre ++ post)))) - Z.of_nat 0)) as [Hlt|Hle].
  - unfold block_write. apply wp_bind, wp_bind, (wp_block_get i b); [done|]. rewrite length_replicate.
    assert (Hsz : (esizes pre + esize e <= write_offset b)%nat).
    { rewrite (br_offset _ _ Hr), esizes_app, esizes_cons. lia. }
    pose proof (br_room _ _ Hr). pose proof (esize_pos e). assert (4 <= esize e)%nat by (unfold esize; lia).
    destruct (Nat.leb_spec (esizes pre + esize e - 4 + 4) (bsize b)); [|lia]. unfold when. apply wp_block_put.
    rewrite (write_kill _ _ _ _ Hr).
    apply wp_bind. eapply wp_block_get; [by apply list_lookup_insert_eq|]. simpl. apply wp_block_put.
    unfold with_block at 1. simpl. rewrite list_insert_insert_eq.
    apply HQ; [intros _; by apply block_rep_kill | | done].
    intros E. rewrite E in Hlt. simpl in Hlt. lia.
  - unfold kvblock_gc, block_erase. apply wp_bind, wp_bind, (wp_block_get i b); [done|]. apply wp_block_put.
    apply wp_bind. eapply wp_block_get; [by apply list_lookup_insert_eq|]. simpl. apply wp_block_put.
    unfold with_block at 1. simpl. rewrite list_insert_insert_eq.
    apply HQ; [intros E; destruct (valids (pre ++ post)); simpl in *; [done | lia] | | done].
    intros _. rewrite nor_erase, (br_length _ _ Hr), (br_ro _ _ Hr). pose proof (br_room _ _ Hr).
    apply block_rep_empty; [lia | apply Hr..].
Qed.
End Flash.

(** ** The places of the entries *)

Abbreviation loc := (nat * nat * entry)%type.

Fixpoint locs_from (i off : nat) (es : list entry) : list loc :=
  match es with [] => [] | e :: r => (i, off, e) :: locs_from i (off + esize e) r end.

Fixpoint locs_of (i : nat) (bess : list (list entry)) : list loc :=
  match bess with [] => [] | es :: r => locs_from i 0 es ++ locs_of (S i) r end.

Definition only_valid (ls : list loc) : list loc := filter (fun l => e_valid l.2 = true) ls.
Definition vlocs (bess : list (list entry)) : list loc := only_valid (locs_of 0 bess).

Lemma only_valid_app l1 l2 : only_valid (l1 ++ l2) = only_valid l1 ++ only_valid l2.
Proof. apply filter_app. Qed.

Lemma only_valid_cons l ls : only_valid (l :: ls) = if e_valid l.2 then l :: only_valid ls else only_valid ls.
Proof. unfold only_valid. destruct (e_valid l.2) eqn:E; [by rewrite filter_cons_True | by rewrite filter_cons_False; [|rewrite E]]. Qed.

Lemma locs_from_app i off es1 es2 : locs_from i off (es1 ++ es2) = locs_from i off es1 ++ locs_from i (off + esizes es1) es2.
Proof.
  revert off. induction es1 as [|e es IH]; intros off; simpl; [by rewrite Nat.add_0_r|]. rewrite IH. do 3 f_equal.
  unfold esizes. simpl. lia.
Qed.

Lemma only_valid_none i off es : valids es = [] -> only_valid (locs_from i off es) = [].
Proof.
  revert off. induction es as [|e es IH]; intros off; [done|]. simpl. rewrite only_valid_cons, valids_cons. simpl.
  destruct (e_valid e); [done|]. apply IH.
Qed.

Lemma elem_of_locs_from i off es j o e :
  (j, o, e) ∈ locs_from i off es <-> j = i /\ exists pre post, es = pre ++ e :: post /\ o = (off + esizes pre)%nat.
Proof.
  split.
  - revert off. induction es as [|x es IH]; intros off Hin; simpl in Hin; [by apply elem_of_nil in Hin|].
    apply elem_of_cons in Hin as [[= -> -> ->]|Hin].
    + split; [done|]. exists [], es. split; [done|]. unfold esizes. simpl. lia.
    + destruct (IH _ Hin) as (-> & pre & post & -> & ->). split; [done|]. exists (x :: pre), post. split; [done|].
      rewrite esizes_cons. lia.
  - intros (-> & pre & post & -> & ->). rewrite locs_from_app. apply elem_of_app. right. simpl. apply elem_of_cons. by left.
Qed.

(** The entries of the other blocks. *)
Lemma locs_insert i k bess es : bess !! k = Some es ->
  exists rest, forall es', only_valid (locs_of i (<[k := es']> bess)) ≡ₚ only_valid (locs_from (i + k) 0 es') ++ rest.
Proof.
  revert i k. induction bess as [|x bess IH]; intros i k Hk; [done|]. destruct k as [|k]; simpl in Hk.
  - injection Hk as ->. exists (only_valid (locs_of (S i) bess)). intros es'. simpl. rewrite only_valid_app, Nat.add_0_r. done.
  - destruct (IH (S i) k Hk) as [rest Hrest]. exists (only_valid (locs_from i 0 x) ++ rest). intros es'. simpl.
    rewrite only_valid_app, Hrest. replace (i + S k)%nat with (S i + k)%nat by lia. rewrite !app_assoc.
    apply Permutation_app_tail, Permutation_app_comm.
Qed.

Lemma elem_of_vlocs i off e bess : (i, off, e) ∈ vlocs bess ->
  e_valid e = true /\ exists es pre post, bess !! i = Some es /\ es = pre ++ e :: post /\ off = esizes pre.
Proof.
  unfold vlocs, only_valid. rewrite list_elem_of_filter. intros [Hv Hin]. split; [done|].
  assert (H : forall k, (i, off, e) ∈ locs_of k bess -> (k <= i)%nat /\ exists es pre post, bess !! (i - k)%nat = Some es /\
    es = pre ++ e :: post /\ off = esizes pre).
  { clear Hin Hv. induction bess as [|x bess IH]; intros k Hin; simpl in Hin; [by apply elem_of_nil in Hin|].
    apply elem_of_app in Hin as [Hin|Hin].
    - apply elem_of_locs_from in Hin as (-> & pre & post & -> & ->). split; [lia|]. rewrite Nat.sub_diag. by exists (pre ++ e :: post), pre, post.
    - destruct (IH _ Hin) as (Hk & es & pre & post & Hl & Hes & Ho). split; [lia|]. exists es, pre, post.
      replace (i - k)%nat with (S (i - S k))%nat by lia. done. }
  destruct (H 0%nat Hin) as [_ Hr]. by rewrite Nat.sub_0_r in Hr.
Qed.
