(* ===== verification/KvStore.v ===== *)
(** * The store as a finite map

    [kv_inv s bess M]: the blocks of [s] hold the entries [bess], no key is
    valid twice, the cache lists exactly the valid entries, and [M] maps the
    keys to the values of the valid entries.  The lookup through the cache
    finds the entry of a key if [M] has it. *)

From stdpp Require Import gmap functions.
From S2P Require Import Prelude.
From S2P Require Import Monad.
From S2P Require Import KvBlock.
From S2P Require Import KvSet.
From S2P Require Import KvRep.

Definition flash_rep (s : kv_t) (bess : list (list entry)) : Prop := Forall2 block_rep (blocks s) bess.

Definition lkey (l : loc) : list Z := e_key l.2.
Definition lpair (l : loc) : list Z * list Z := (e_key l.2, e_val l.2).
Definition lcache (l : loc) : cache_node_t := mkCacheNode (key_hash (e_key l.2)) (Z.of_nat l.1.1) (Z.of_nat l.1.2).

Definition live (cs : list cache_node_t) : list cache_node_t := filter (fun c => cache_free c = false) cs.
Definition content (bess : list (list entry)) : gmap (list Z) (list Z) := list_to_map (lpair <$> vlocs bess).

(** What is in flash memory. *)
Record flash_inv (s : kv_t) (bess : list (list entry)) (M : gmap (list Z) (list Z)) : Prop := mkFlashInv {
  fi_rep : flash_rep s bess;
  fi_num : Z.of_nat (length bess) <= 2 ^ 15;
  fi_keys : NoDup (lkey <$> vlocs bess);
  fi_map : M = content bess;
}.

Record kv_inv (s : kv_t) (bess : list (list entry)) (M : gmap (list Z) (list Z)) : Prop := mkKvInv {
  ki_flash : flash_inv s bess M;
  ki_cache : live (cache s) ≡ₚ lcache <$> vlocs bess;
  ki_bid : (bid s < length (blocks s))%nat;
}.

(** ** Adding and removing an entry *)

Lemma vlocs_append bess i es e : bess !! i = Some es -> e_valid e = true ->
  vlocs (<[i := es ++ [e]]> bess) ≡ₚ (i, esizes es, e) :: vlocs bess.
Proof.
  intros Hi Hv. destruct (locs_insert 0 i bess es Hi) as [rest Hrest]. unfold vlocs. rewrite (Hrest (es ++ [e])).
  pose proof (Hrest es) as Hold. rewrite list_insert_id in Hold by done. rewrite Hold.
  rewrite locs_from_app, only_valid_app. simpl. rewrite only_valid_cons. simpl. rewrite Hv. simpl.
  rewrite <- app_assoc. simpl. symmetry. apply Permutation_middle.
Qed.

(** The entries of a block after [kvnode_rm]. *)
Definition es_rm (pre : list entry) (e : entry) (post : list entry) : list entry :=
  match valids (pre ++ post) with [] => [] | _ => pre ++ kill e :: post end.

Lemma vlocs_rm bess i pre e post : bess !! i = Some (pre ++ e :: post) -> e_valid e = true ->
  vlocs bess ≡ₚ (i, esizes pre, e) :: vlocs (<[i := es_rm pre e post]> bess).
Proof.
  intros Hi Hv. destruct (locs_insert 0 i bess _ Hi) as [rest Hrest]. unfold vlocs. rewrite (Hrest (es_rm pre e post)).
  pose proof (Hrest (pre ++ e :: post)) as Hold. rewrite list_insert_id in Hold by done. rewrite Hold.
  rewrite locs_from_app, only_valid_app. simpl. rewrite only_valid_cons. simpl. rewrite Hv.
  rewrite <- Permutation_middle. simpl. apply Permutation_skip, Permutation_app_tail. unfold es_rm.
  destruct (valids (pre ++ post)) eqn:E.
  - rewrite valids_app in E. apply app_eq_nil in E as [E1 E2]. rewrite !only_valid_none by done. done.
  - rewrite locs_from_app, only_valid_app. simpl. rewrite only_valid_cons. simpl. done.
Qed.

(** ** The cache *)

Definition with_cache (cs : list cache_node_t) (s : kv_t) : kv_t := mkKv (blocks s) (bid s) (gc_bid s) cs.

Lemma live_app l1 l2 : live (l1 ++ l2) = live l1 ++ live l2.
Proof. apply filter_app. Qed.

Lemma live_cons c cs : live (c :: cs) = if cache_free c then live cs else c :: live cs.
Proof. unfold live. destruct (cache_free c) eqn:E; [rewrite filter_cons_False; [done | by rewrite E] | by rewrite filter_cons_True]. Qed.

Lemma cache_find_spec cs c k : c ∈ cs -> exists l1 c' l2, cs = l1 ++ c' :: l2 /\
  cache_find cs (c_block_id c) (c_offset c) k = Some (k + length l1)%nat /\ c_block_id c' = c_block_id c /\ c_offset c' = c_offset c.
Proof.
  revert k. induction cs as [|x cs IH]; intros k Hin; [by apply elem_of_nil in Hin|]. simpl.
  destruct ((c_offset x =? c_offset c) && (c_block_id x =? c_block_id c)) eqn:E.
  - exists [], x, cs. apply andb_true_iff in E as [E1 E2]. simpl. rewrite Nat.add_0_r. repeat split; lia.
  - apply elem_of_cons in Hin as [->|Hin]; [by rewrite !Z.eqb_refl in E|].
    destruct (IH (S k) Hin) as (l1 & c' & l2 & -> & Hf & Hc). exists (x :: l1), c', l2. split; [done|]. rewrite Hf.
    split; [f_equal; simpl; lia | done].
Qed.

(** [kv_cache_out] of an entry in the cache whose place is there only once. *)
Lemma wp_cache_out s c i off Q : c ∈ live (cache s) -> c_block_id c = Z.of_nat i -> c_offset c = Z.of_nat off ->
  (forall c', c' ∈ live (cache s) -> c_block_id c' = c_block_id c -> c_offset c' = c_offset c -> c' = c) ->
  (forall cs, live (cache s) ≡ₚ c :: live cs -> (exists x, x ∈ cs /\ cache_free x = true) -> Q 0 (with_cache cs s)) ->
  wp (kv_cache_out i off) Q s.
Proof.
  intros Hin Hi Ho Hu HQ. unfold kv_cache_out. apply wp_bind, wp_gets.
  pose proof Hin as Hin'. apply list_elem_of_filter in Hin' as [Hfree Hcs].
  destruct (cache_find_spec (cache s) c 0 Hcs) as (l1 & c' & l2 & Hsplit & Hf & Hb & Hof). rewrite Hi, Ho in Hf.
  destruct (Nat.eqb_spec (length (cache s)) 0) as [E|_]; [rewrite Hsplit, length_app in E; simpl in E; lia|].
  apply wp_bind. eapply wp_lift; [exact Hf|]. simpl. apply wp_bind. apply (wp_lift _ c'); [rewrite Hsplit; by apply list_lookup_middle|].
  apply wp_bind. assert (c' = c) as ->.
  { apply Hu; [|done..]. unfold live. apply list_elem_of_filter. split; [unfold cache_free in *; by rewrite Hb, Hof|].
    rewrite Hsplit. apply elem_of_app. right. apply elem_of_cons. by left. }
  apply (HQ (<[length l1 := mkCacheNode (c_hash c) 0xffff 0xffff]> (cache s))).
  - rewrite Hsplit, insert_app_r_alt, Nat.sub_diag by done. simpl. rewrite !live_app, !live_cons, Hfree. simpl.
    symmetry. apply Permutation_middle.
  - exists (mkCacheNode (c_hash c) 0xffff 0xffff). split; [|done]. apply list_elem_of_lookup. exists (length l1).
    apply list_lookup_insert_eq. rewrite Hsplit, length_app. simpl. lia.
Qed.

Lemma cache_slot_spec cs e k : cache_free e = false -> e ∉ live cs ->
  (exists l1 c l2, cs = l1 ++ c :: l2 /\ cache_free c = true /\ cache_slot cs e k = Some (k + length l1)%nat) \/
  (Forall (fun c => cache_free c = false) cs /\ cache_slot cs e k = Some (k + length cs)%nat).
Proof.
  intros He. revert k. induction cs as [|c cs IH]; intros k Hn; simpl; [right; split; [constructor | f_equal; lia]|].
  rewrite live_cons in Hn. destruct (cache_free c) eqn:Ec.
  - left. exists [], c, cs. simpl. split; [done|]. split; [done|]. f_equal; lia.
  - apply not_elem_of_cons in Hn as [Hne Hn].
    destruct ((c_hash c =? c_hash e) && (c_block_id c =? c_block_id e) && (c_offset c =? c_offset e)) eqn:Eq.
    { exfalso. apply Hne. destruct c, e. simpl in *. f_equal; lia. }
    destruct (IH (S k) Hn) as [(l1 & c' & l2 & -> & Hf & Hs)|[Hall Hs]].
    + left. exists (c :: l1), c', l2. split; [done|]. split; [done|]. rewrite Hs. f_equal. simpl. lia.
    + right. split; [by constructor|]. rewrite Hs. f_equal. lia.
Qed.

(** [kv_cache_in] of an entry that is not in the cache. *)
Lemma wp_cache_in realloc_ok s key i off Q : let e := mkCacheNode (key_hash key) (Z.of_nat i) (Z.of_nat off) in
  cache_free e = false -> e ∉ live (cache s) ->
  (forall cs, live cs ≡ₚ e :: live (cache s) -> Q 0 (with_cache cs s)) ->
  (Forall (fun c => cache_free c = false) (cache s) -> realloc_ok (S (length (cache s))) = false -> Q (-1) s) ->
  wp (kv_cache_in realloc_ok key i off) Q s.
Proof.
  intros e He Hn Hyes Hno. unfold kv_cache_in. apply wp_bind, wp_gets. fold e.
  destruct (cache_slot_spec (cache s) e 0 He Hn) as [(l1 & c & l2 & Hs & Hc & ->)|[Hall ->]]; simpl.
  - destruct (Nat.ltb_spec (length l1) (length (cache s))) as [_|Hl]; [|rewrite Hs, length_app in Hl; simpl in Hl; lia].
    apply wp_bind. apply (Hyes (<[length l1 := e]> (cache s))). rewrite Hs, insert_app_r_alt, Nat.sub_diag by done. simpl.
    rewrite !live_app, !live_cons, He, Hc. symmetry. apply Permutation_middle.
  - destruct (Nat.ltb_spec (length (cache s)) (length (cache s))) as [?|_]; [lia|].
    destruct (realloc_ok (S (length (cache s)))) eqn:Er; [|by apply wp_ret, Hno].
    apply wp_bind. apply (Hyes (cache s ++ [e])). rewrite live_app, live_cons, He. simpl. by rewrite <- Permutation_cons_append.
Qed.

Section Store.
Context `{NorFlash}.
Implicit Types (s : kv_t) (bess : list (list entry)) (M : gmap (list Z) (list Z)).

(** A state in which only the blocks differ. *)
Definition same_ram (s s' : kv_t) : Prop := bid s' = bid s /\ gc_bid s' = gc_bid s /\ cache s' = cache s.

Lemma flash_lookup s bess i es : flash_rep s bess -> bess !! i = Some es -> exists b, blocks s !! i = Some b /\ block_rep b es.
Proof. intros Hf Hi. destruct (Forall2_lookup_r _ _ _ _ _ Hf Hi) as (b & Hb & Hr). eauto. Qed.

Lemma flash_put s bess i b es : flash_rep s bess -> block_rep b es -> flash_rep (with_block i b s) (<[i := es]> bess).
Proof. intros Hf Hb. by apply Forall2_insert. Qed.

Lemma loc_entry s bess i off e : flash_rep s bess -> (i, off, e) ∈ vlocs bess ->
  entry_ok e /\ e_valid e = true /\ exists b pre post, blocks s !! i = Some b /\ bess !! i = Some (pre ++ e :: post) /\
    block_rep b (pre ++ e :: post) /\ off = esizes pre.
Proof.
  intros Hf Hl. destruct (elem_of_vlocs _ _ _ _ Hl) as (Hv & es & pre & post & Hi & -> & ->).
  destruct (flash_lookup _ _ _ _ Hf Hi) as (b & Hb & Hr). split; [apply (entry_in _ _ _ _ Hr)|]. split; [done|].
  exists b, pre, post. done.
Qed.

Lemma wp_loc_search s bess i off e node Q : flash_rep s bess -> (i, off, e) ∈ vlocs bess ->
  Q (true, node_at i off e) s -> wp (kvblock_search i off node) Q s.
Proof.
  intros Hf Hl HQ. destruct (loc_entry _ _ _ _ _ Hf Hl) as (_ & _ & b & pre & post & Hb & _ & Hr & ->).
  by apply (wp_search_at i b pre e post).
Qed.

(** [bess'] is [bess] without [l]. *)
Definition removed bess (l : loc) bess' : Prop := exists pre post,
  bess !! l.1.1 = Some (pre ++ l.2 :: post) /\ l.1.2 = esizes pre /\ e_valid l.2 = true /\
  bess' = <[l.1.1 := es_rm pre l.2 post]> bess.

Lemma removed_vlocs bess l bess' : removed bess l bess' -> vlocs bess ≡ₚ l :: vlocs bess'.
Proof. destruct l as [[i off] e]. intros (pre & post & Hi & Ho & Hv & ->). simpl in *. subst off. by apply vlocs_rm. Qed.

Lemma removed_length bess l bess' : removed bess l bess' -> length bess' = length bess.
Proof. intros (pre & post & _ & _ & _ & ->). apply length_insert. Qed.

Lemma wp_loc_remove s bess i off e Q : flash_rep s bess -> (i, off, e) ∈ vlocs bess ->
  (forall s' bess', flash_rep s' bess' -> same_ram s s' -> bsize <$> blocks s' = bsize <$> blocks s ->
    removed bess (i, off, e) bess' -> Q tt s') ->
  wp (kvnode_rm (node_at i off e)) Q s.
Proof.
  intros Hf Hl HQ. destruct (loc_entry _ _ _ _ _ Hf Hl) as (_ & Hv & b & pre & post & Hb & Hi & Hr & ->).
  apply (wp_kvnode_rm i b pre e post); [done..|]. intros b' H1 H2 Hs.
  apply (HQ _ (<[i := es_rm pre e post]> bess)).
  - apply flash_put; [done|]. unfold es_rm. destruct (valids (pre ++ post)); [by apply H2 | by apply H1].
  - done.
  - simpl. rewrite list_fmap_insert, Hs. apply list_insert_id. by rewrite list_lookup_fmap, Hb.
  - by exists pre, post.
Qed.

Lemma wp_loc_rm s bess i off e Q : flash_rep s bess -> (i, off, e) ∈ vlocs bess ->
  (forall s' bess', flash_rep s' bess' -> same_ram s s' -> length (blocks s') = length (blocks s) -> length bess' = length bess ->
    vlocs bess ≡ₚ (i, off, e) :: vlocs bess' -> Q tt s') ->
  wp (kvnode_rm (node_at i off e)) Q s.
Proof.
  intros Hf Hl HQ. apply (wp_loc_remove s bess); [done..|]. intros s' bess' Hf' Hram Hsz Hrm. apply (HQ s' bess'); try done.
  - apply (f_equal length) in Hsz. by rewrite !length_fmap in Hsz.
  - by eapply removed_length.
  - by apply removed_vlocs.
Qed.

Lemma same_place (l1 l2 : list entry) x y r1 r2 : l1 ++ x :: r1 = l2 ++ y :: r2 -> esizes l1 = esizes l2 ->
  l1 = l2 /\ x = y /\ r1 = r2.
Proof.
  revert l2. induction l1 as [|a l1 IH]; intros [|b l2] E Hs; simpl in E; [by injection E as -> ->|..].
  - rewrite esizes_cons in Hs. pose proof (esize_pos b). unfold esizes in Hs at 1. simpl in Hs. lia.
  - rewrite esizes_cons in Hs. pose proof (esize_pos a). unfold esizes in Hs at 2. simpl in Hs. lia.
  - injection E as <- E. rewrite !esizes_cons in Hs. destruct (IH l2 E) as (-> & -> & ->); [lia | done].
Qed.

Lemma loc_unique s bess i off e e' : flash_rep s bess -> (i, off, e) ∈ vlocs bess -> (i, off, e') ∈ vlocs bess -> e = e'.
Proof.
  intros Hf Hl Hl'. destruct (loc_entry _ _ _ _ _ Hf Hl) as (_ & _ & b & pre & post & _ & Hi & _ & Ho).
  destruct (loc_entry _ _ _ _ _ Hf Hl') as (_ & _ & b' & pre' & post' & _ & Hi' & _ & Ho').
  rewrite Hi in Hi'. injection Hi' as E. by apply same_place in E as (_ & ? & _); [|congruence].
Qed.

(** ** Comparing keys *)

Definition c_str (key : list Z) : Prop := Forall (fun x => x <> 0) key.

Lemma keycmp_loop_spec key k t1 tail n : c_str key -> c_str k -> Z.of_nat (length k) <= n ->
  exists r, keycmp_loop (key ++ 0 :: t1) (k ++ 0 :: tail) n = Some r /\ (r = 0 <-> key = k).
Proof.
  revert k n. induction key as [|x key IH]; intros [|y k] n Hkey Hk Hn; simpl in Hn |- *.
  - exists 0. split; [by destruct (_ && _) | done].
  - apply Forall_cons in Hk as [Hy _]. exists (0 - y). rewrite (proj2 (Z.eqb_neq n 0)) by lia. simpl.
    split; [done|]. split; [lia | done].
  - apply Forall_cons in Hkey as [Hx _]. exists (x - 0). rewrite (proj2 (Z.eqb_neq x 0)) by lia. cbn [negb andb]. rewrite andb_false_r.
    split; [done|]. split; [lia | done].
  - apply Forall_cons in Hkey as [Hx Hkey], Hk as [Hy Hk]. rewrite (proj2 (Z.eqb_neq x 0)) by lia. simpl.
    destruct (Z.eqb_spec x y) as [<-|Hxy].
    + destruct (Z.ltb_spec (n - 1) 0); [lia|]. destruct (IH k (n - 1) Hkey Hk) as (r & Hr & Hiff); [lia|].
      exists r. split; [done|]. rewrite Hiff. split; [by intros -> | by intros [=]].
    + exists (x - y). rewrite andb_false_r. split; [done|]. split; [lia | by intros [=]].
Qed.

Lemma entry_c_str e : entry_ok e -> c_str (e_key e).
Proof. intros He. eapply Forall_impl; [apply He|]. simpl. lia. Qed.

Lemma wp_loc_cmp s bess i off e key Q : flash_rep s bess -> (i, off, e) ∈ vlocs bess -> c_str key ->
  (forall r, r = 0 <-> key = e_key e -> Q r s) -> wp (kvnode_cmp_name (node_at i off e) key) Q s.
Proof.
  intros Hf Hl Hk HQ. destruct (loc_entry _ _ _ _ _ Hf Hl) as (He & Hv & b & pre & post & Hb & Hi & Hr & ->).
  destruct (br_mem_at _ _ _ _ Hr) as (rest & Hm & _). destruct (entry_in _ _ _ _ Hr) as [_ Hlen].
  unfold kvnode_cmp_name, bytes_from. apply wp_bind, wp_bind, (wp_block_get i b); [done|]. apply wp_ret.
  unfold node_at. cbn [head_offset value_offset]. rewrite Hm, <- Hlen, drop_app_length, image_key, <- app_assoc. unfold keycmp.
  rewrite (proj2 (Z.eqb_neq _ 0)) by (unfold RW_FLAG_SIZE; lia).
  assert (Ha : exists tl, after_key e ++ rest = 0 :: tl) by (unfold after_key; simpl; eauto). destruct Ha as [tl ->].
  destruct (keycmp_loop_spec key (e_key e) [] tl
    (Z.of_nat (length (flat pre) + length (e_key e) + RW_FLAG_SIZE) - Z.of_nat (length (flat pre)) - 1)) as (r & Hr' & Hiff);
    [done | by apply entry_c_str | unfold RW_FLAG_SIZE; lia|].
  by apply (wp_lift _ r), HQ.
Qed.

(** ** Lookup *)

Lemma lcache_live s bess l : flash_rep s bess -> Z.of_nat (length bess) <= 2 ^ 15 -> l ∈ vlocs bess ->
  c_block_id (lcache l) <> 0xffff /\ c_offset (lcache l) <> 0xffff.
Proof.
  destruct l as [[i off] e]. intros Hf Hn Hl. destruct (loc_entry _ _ _ _ _ Hf Hl) as (_ & _ & b & pre & post & _ & Hi & Hr & ->).
  simpl. apply lookup_lt_Some in Hi. split; [lia|]. pose proof (br_size _ _ Hr). pose proof (br_offset _ _ Hr) as Ho.
  pose proof (br_room _ _ Hr). rewrite esizes_app in Ho. lia.
Qed.

Lemma wp_find_cached s bess cs key node Q : flash_rep s bess -> Z.of_nat (length bess) <= 2 ^ 15 -> c_str key ->
  (forall c, c ∈ live cs -> exists l, l ∈ vlocs bess /\ c = lcache l) ->
  (forall i off e, (i, off, e) ∈ vlocs bess -> e_key e = key -> Q (0, node_at i off e) s) ->
  (forall n, (forall l, l ∈ vlocs bess -> lcache l ∈ cs -> lkey l <> key) -> Q (-1, n) s) ->
  wp (find_cached cs (key_hash key) key node) Q s.
Proof.
  intros Hf Hn Hk. revert node. induction cs as [|c cs IH]; intros node Hc Hyes Hno; simpl.
  { apply wp_ret, Hno. intros l _ Hl. by apply elem_of_nil in Hl. }
  assert (Hrest : forall x, x ∈ live cs -> exists l, l ∈ vlocs bess /\ x = lcache l).
  { intros x Hx. apply Hc. unfold live in *. rewrite filter_cons. case_decide; [apply elem_of_cons; by right | done]. }
  destruct ((c_hash c =? key_hash key) && negb (c_block_id c =? 0xffff) && negb (c_offset c =? 0xffff)) eqn:Ehit.
  - destruct (Hc c) as ([[i off] e] & Hl & ->).
    { unfold live. apply list_elem_of_filter. split; [|apply elem_of_cons; by left]. unfold cache_free.
      apply andb_true_iff in Ehit as [_ E]. by destruct (c_offset c =? 0xffff). }
    simpl. rewrite !Nat2Z.id. apply wp_bind. apply (wp_loc_search _ bess _ _ e); [done..|]. cbn [snd].
    apply wp_bind. apply (wp_loc_cmp _ bess _ _ e); [done..|]. intros r Hr. destruct (Z.eqb_spec r 0) as [->|Hr0].
    + apply wp_ret, Hyes; [done|]. symmetry. by apply Hr.
    + apply IH; [done..|]. intros n Hn'. apply Hno. intros l Hlin Hlc. apply elem_of_cons in Hlc as [Hlc|Hlc]; [|by apply Hn'].
      intros Hlk. destruct l as [[i' off'] e']. unfold lcache in Hlc. simpl in Hlc. injection Hlc as _ Ei Eo.
      apply Nat2Z.inj in Ei, Eo. subst i' off'. apply Hr0, Hr. rewrite <- Hlk. unfold lkey. simpl.
      f_equal. by apply (loc_unique s bess i off).
  - apply IH; [done..|]. intros n Hn'. apply Hno. intros l Hlin Hlc. apply elem_of_cons in Hlc as [Hlc|Hlc]; [|by apply Hn'].
    intros Hlk. destruct (lcache_live s bess l Hf Hn Hlin) as [H1 H2]. rewrite Hlc in H1, H2.
    rewrite (proj2 (Z.eqb_neq _ _) H1), (proj2 (Z.eqb_neq _ _) H2), !andb_true_r in Ehit. apply Z.eqb_neq in Ehit.
    apply Ehit. rewrite <- Hlc. unfold lkey in Hlk. simpl. by rewrite Hlk.
Qed.

Lemma content_lookup bess M key v : NoDup (lkey <$> vlocs bess) -> M = content bess ->
  M !! key = Some v <-> exists l, l ∈ vlocs bess /\ lkey l = key /\ e_val l.2 = v.
Proof.
  intros Hnd ->. unfold content.
  assert (Hfst : (lpair <$> vlocs bess).*1 = lkey <$> vlocs bess) by (rewrite <- list_fmap_compose; done).
  rewrite <- elem_of_list_to_map by (rewrite Hfst; done). rewrite list_elem_of_fmap. split.
  - intros (l & [= -> ->] & Hl). eauto.
  - intros (l & Hl & <- & <-). by exists l.
Qed.

(** [kv_find] finds the entry of a key. *)
Lemma wp_kv_find s bess M key node Q : kv_inv s bess M -> c_str key ->
  (forall i off e, (i, off, e) ∈ vlocs bess -> e_key e = key -> M !! key = Some (e_val e) -> Q (0, node_at i off e) s) ->
  (forall n, key ∉ (lkey <$> vlocs bess) -> M !! key = None -> Q (-1, n) s) ->
  wp (kv_find key node) Q s.
Proof.
  intros [[Hf Hnum Hnd HM] Hc Hbid] Hk Hyes Hno. unfold kv_find. apply wp_bind, wp_gets.
  assert (Hin : forall c, c ∈ live (cache s) <-> exists l, l ∈ vlocs bess /\ c = lcache l).
  { intros c. rewrite Hc, list_elem_of_fmap. split; intros (l & H1 & H2); by exists l. }
  apply (wp_find_cached s bess); [done..| | |].
  - intros c Hcin. by apply Hin.
  - intros i off e Hl He. apply Hyes; [done..|]. apply (content_lookup bess M key (e_val e) Hnd HM). by exists (i, off, e).
  - intros n Hn. assert (Hnot : key ∉ (lkey <$> vlocs bess)).
    { intros Hki. apply list_elem_of_fmap in Hki as (l & -> & Hl). apply (Hn l Hl); [|done].
      assert (Hlive : lcache l ∈ live (cache s)) by (apply Hin; eauto). by apply list_elem_of_filter in Hlive as [_ ?]. }
    apply Hno; [done|]. destruct (M !! key) as [v|] eqn:E; [|done].
    apply (content_lookup bess M key v Hnd HM) in E as (l & Hl & <- & _). exfalso. apply Hnot. by apply list_elem_of_fmap_2.
Qed.

(** ** Reading *)

Lemma wp_kv_get s bess M key size Q : kv_inv s bess M -> c_str key ->
  (forall v, M !! key = Some v -> Q (Z.of_nat (length v), take size v) s) ->
  (M !! key = None -> Q (-1, []) s) ->
  wp (kv_get key size) Q s.
Proof.
  intros Hinv Hk Hyes Hno. unfold kv_get. apply wp_bind, (wp_kv_find s bess M); [done..| |].
  - intros i off e Hl He HM. cbn iota. rewrite Z.eqb_refl. pose proof (fi_rep _ _ _ (ki_flash _ _ _ Hinv)) as Hf.
    destruct (loc_entry _ _ _ _ _ Hf Hl) as (Hok & _ & b & pre & post & Hb & _ & Hr & ->).
    destruct (br_mem_at _ _ _ _ Hr) as (rest & Hm & _). destruct (entry_in _ _ _ _ Hr) as [_ Hlen].
    unfold bytes_from. apply wp_bind, wp_bind, (wp_block_get i b); [done|]. apply wp_ret. unfold node_at.
    cbn [rw val_size value_offset]. change (negb (1 =? 0)) with true. cbn iota. apply wp_ret.
    specialize (Hyes _ HM). replace (take (length (e_val e) `min` size) (drop (esizes pre + length (e_key e) + RW_FLAG_SIZE) (mem b)))
      with (take size (e_val e)); [exact Hyes|].
    rewrite Hm, image_key. unfold after_key. cbv zeta. rewrite <- Hlen, <- !app_assoc.
    rewrite (app_assoc (flat pre)), (app_assoc (flat pre ++ e_key e)), drop_app_length'
      by (rewrite !length_app; unfold RW_FLAG_SIZE; simpl; lia).
    rewrite Nat.min_comm, <- take_take, take_app_length. done.
  - intros n _ HM. cbn iota. apply wp_ret. by apply Hno.
Qed.
End Store.
