(* ===== verification/KvOps.v ===== *)
(** * Setting and removing keys

    [kv_rm] deletes a key from the map of the store; [kv_set] inserts one,
    when one of the blocks that may be written has room for the entry: it
    writes the new entry before it removes the old one. *)

From stdpp Require Import gmap functions.
From S2P Require Import Prelude.
From S2P Require Import Monad.
From S2P Require Import KvBlock.
From S2P Require Import KvSet.
From S2P Require Import KvRep.
From S2P Require Import KvStore.

(** ** The map after a change *)

Lemma lpair_keys (ls : list loc) : (lpair <$> ls).*1 = lkey <$> ls.
Proof. by rewrite <- list_fmap_compose. Qed.

Lemma content_perm bess (ls : list loc) : NoDup (lkey <$> ls) -> vlocs bess ≡ₚ ls -> content bess = list_to_map (lpair <$> ls).
Proof. intros Hnd Hp. unfold content. apply list_to_map_proper; [rewrite lpair_keys, Hp | rewrite Hp]; done. Qed.

Lemma content_add bess bess' l : NoDup (lkey <$> vlocs bess) -> lkey l ∉ (lkey <$> vlocs bess) ->
  vlocs bess' ≡ₚ l :: vlocs bess ->
  NoDup (lkey <$> vlocs bess') /\ content bess' = <[lkey l := e_val l.2]> (content bess).
Proof.
  intros Hnd Hn Hp. assert (Hc : NoDup (lkey <$> (l :: vlocs bess))) by (simpl; by constructor). split; [by rewrite Hp|].
  by rewrite (content_perm bess' (l :: vlocs bess)).
Qed.

Lemma content_rm bess bess' l : NoDup (lkey <$> vlocs bess) -> vlocs bess ≡ₚ l :: vlocs bess' ->
  NoDup (lkey <$> vlocs bess') /\ (lkey l ∉ (lkey <$> vlocs bess')) /\ content bess' = delete (lkey l) (content bess).
Proof.
  intros Hnd Hp. pose proof Hnd as Hc. rewrite Hp in Hc. simpl in Hc. apply NoDup_cons in Hc as [Hn Hc]. split; [done|]. split; [done|].
  rewrite (content_perm bess (l :: vlocs bess')) by (done || simpl; by constructor). simpl. rewrite delete_insert_id; [done|].
  apply not_elem_of_list_to_map. by rewrite lpair_keys.
Qed.

Section Ops.
Context `{NorFlash}.
Implicit Types (s : kv_t) (bess : list (list entry)) (M : gmap (list Z) (list Z)).

(** The cache entry of a valid entry is there once. *)
Lemma cache_unique s bess M l c : kv_inv s bess M -> l ∈ vlocs bess -> c ∈ live (cache s) ->
  c_block_id c = c_block_id (lcache l) -> c_offset c = c_offset (lcache l) -> c = lcache l.
Proof.
  intros Hinv Hl Hc Hb Ho. rewrite (ki_cache _ _ _ Hinv) in Hc. apply list_elem_of_fmap in Hc as ([[i off] e] & -> & Hl').
  destruct l as [[i' off'] e']. simpl in Hb, Ho. apply Nat2Z.inj in Hb, Ho. subst. do 2 f_equal.
  by apply (loc_unique s bess i' off'); [apply Hinv|..].
Qed.

Lemma wp_forget s bess M s1 i off e Q : kv_inv s bess M -> (i, off, e) ∈ vlocs bess -> cache s1 = cache s ->
  (forall cs, live (cache s) ≡ₚ lcache (i, off, e) :: live cs -> (exists x, x ∈ cs /\ cache_free x = true) -> Q 0 (with_cache cs s1)) ->
  wp (kv_cache_out i off) Q s1.
Proof.
  intros Hinv Hl Hc HQ. apply (wp_cache_out s1 (lcache (i, off, e))); rewrite ?Hc; try done.
  - rewrite (ki_cache _ _ _ Hinv). by apply list_elem_of_fmap_2.
  - intros c' Hc'. by apply (cache_unique s bess M).
Qed.

Lemma wp_kv_rm s bess M key Q : kv_inv s bess M -> c_str key ->
  (forall v s' bess', M !! key = Some v -> kv_inv s' bess' (delete key M) -> Q 0 s') ->
  (M !! key = None -> Q (-1) s) ->
  wp (kv_rm key) Q s.
Proof.
  intros Hinv Hk Hyes Hno. unfold kv_rm. apply wp_bind, (wp_kv_find s bess M); [done..| |]; [|by intros; apply wp_ret, Hno].
  intros i off e Hl He HM. cbn iota. rewrite Z.eqb_refl. pose proof Hinv as [[Hf Hnum Hnd Hmap] Hc Hbid].
  apply wp_bind, (wp_loc_rm s bess); [done..|]. intros s1 bess' Hf' (Hb1 & Hg1 & Hc1) Hlen Hlen' Hp.
  cbn [node_block head_offset node_at]. apply wp_bind, (wp_forget s bess M s1 i off e); [done..|]. intros cs Hcs _.
  apply wp_ret. destruct (content_rm bess bess' _ Hnd Hp) as (Hnd' & _ & Hcont).
  apply (Hyes _ _ bess' HM). constructor; [constructor| |]; simpl.
  - done.
  - by rewrite Hlen'.
  - done.
  - rewrite Hcont, Hmap. unfold lkey. simpl. by rewrite He.
  - rewrite Hc, Hp in Hcs. simpl in Hcs. apply Permutation_cons_inv in Hcs. done.
  - rewrite Hb1, Hlen. done.
Qed.

(** ** Setting a key *)

Context (junk : nat -> Z) (realloc_ok : nat -> bool).

(** Block [i] may be written and has room. *)
Definition fits s (key val : list Z) (i : nat) : Prop :=
  exists b, blocks s !! i = Some b /\ Z.of_nat i <> gc_bid s /\ (write_offset b + key_size key val <= bsize b - 4)%nat.

(** The result of a lookup. *)
Definition looked_up bess (key : list Z) (exists_ : bool) (node : kvnode_t) : Prop :=
  if exists_ then exists i off e, (i, off, e) ∈ vlocs bess /\ e_key e = key /\ node = node_at i off e
  else key ∉ (lkey <$> vlocs bess).

(** The key is set; without memory for the cache the entry is in flash memory
    only. *)
Definition set_post s M (key val : list Z) (r : Z) (s' : kv_t) : Prop :=
  exists bess', length (blocks s') = length (blocks s) /\
    ((r = Z.of_nat (length val) /\ kv_inv s' bess' (<[key := val]> M)) \/
     (r = -1 /\ M !! key = None /\ realloc_ok (S (length (cache s))) = false /\ flash_inv s' bess' (<[key := val]> M))).

Lemma lcache_not_free l : Z.of_nat l.1.1 < 0xffff -> cache_free (lcache l) = false.
Proof. intros Hl. unfold cache_free. simpl. rewrite (proj2 (Z.eqb_neq (Z.of_nat l.1.1) 0xffff)) by lia. apply andb_false_r. Qed.

(** The entry is new in the cache. *)
Lemma wp_remember s0 s (ls : list loc) bess' M' key (val : list Z) i off e Q :
  flash_inv s bess' M' -> (bid s < length (blocks s))%nat -> length (blocks s) = length (blocks s0) ->
  vlocs bess' ≡ₚ (i, off, e) :: ls -> live (cache s) ≡ₚ lcache <$> ls ->
  e_key e = key -> (i < length bess')%nat ->
  (forall s', length (blocks s') = length (blocks s0) -> kv_inv s' bess' M' -> Q (Some (Z.of_nat (length val))) s') ->
  (Forall (fun c => cache_free c = false) (cache s) -> realloc_ok (S (length (cache s))) = false -> Q (Some (-1)) s) ->
  wp (bind (kv_cache_in realloc_ok key i off) (fun r => ret (Some (if r =? 0 then Z.of_nat (length val) else r)))) Q s.
Proof.
  intros Hfi Hbid Hlen Hp Hc <- Hi Hyes Hno. apply wp_bind. pose proof (fi_num _ _ _ Hfi) as Hn.
  apply (wp_cache_in realloc_ok s).
  - apply (lcache_not_free (i, off, e)). simpl. lia.
  - fold (lcache (i, off, e)). rewrite Hc, list_elem_of_fmap. intros ([[i' off'] e'] & [= Eh Ei Eo] & Hl).
    apply Nat2Z.inj in Ei, Eo. subst i' off'.
    pose proof (fi_keys _ _ _ Hfi) as Hnd. rewrite Hp in Hnd. simpl in Hnd. apply NoDup_cons in Hnd as [Hnot _].
    apply Hnot. apply list_elem_of_fmap. exists (i, off, e'). split; [|done]. unfold lkey. simpl. f_equal.
    apply (loc_unique s bess' i off); [apply Hfi | rewrite Hp; apply elem_of_cons; by left | rewrite Hp; apply elem_of_cons; by right].
  - intros cs Hcs. apply wp_ret. cbn iota. rewrite Z.eqb_refl. apply Hyes; [done|]. constructor; simpl; [by destruct Hfi | | done].
    rewrite Hcs, Hc, Hp. done.
  - intros Hall Hr. apply wp_ret. change (-1 =? 0) with false. cbn iota. by apply Hno.
Qed.

Lemma perm_swap_head {A} (x y : A) l l1 l2 : l1 ≡ₚ x :: l -> l1 ≡ₚ y :: l2 -> y ∈ l -> exists r, l ≡ₚ y :: r /\ l2 ≡ₚ x :: r.
Proof.
  intros H1 H2 Hy. apply elem_of_Permutation in Hy as [r Hr]. exists r. split; [done|].
  rewrite H1, Hr in H2. rewrite Permutation_swap in H2. apply Permutation_cons_inv in H2. by symmetry.
Qed.

(** What [kv_set] does after the entry was written at [(i, off)]. *)
Definition after_write (key val : list Z) (exists_ : bool) (node : kvnode_t) (i off : nat) : st kv_t (option Z) :=
  when exists_ (kvnode_rm node ;; kv_cache_out (node_block node) (head_offset node) ;; ret tt) ;;
  r <- kv_cache_in realloc_ok key i off ;;
  ret (Some (if r =? 0 then Z.of_nat (length val) else r)).

(** A new key. *)
Lemma wp_after_new s s1 bess bess1 M key val node i off e Q :
  kv_inv s bess M -> key ∉ (lkey <$> vlocs bess) -> flash_rep s1 bess1 -> same_ram s s1 ->
  length (blocks s1) = length (blocks s) -> length bess1 = length bess ->
  vlocs bess1 ≡ₚ (i, off, e) :: vlocs bess -> e_key e = key -> e_val e = val -> (i < length bess)%nat ->
  (forall r s', set_post s M key val r s' -> Q (Some r) s') ->
  wp (after_write key val false node i off) Q s1.
Proof.
  intros [[Hf Hnum Hnd Hmap] Hc Hbid] Hnew Hf1 (Hb1 & Hg1 & Hc1) Hl1 Hl2 Hp Hk Hv Hi HQ.
  destruct (content_add bess bess1 (i, off, e) Hnd) as [Hnd1 Hm1]; [unfold lkey; simpl; by rewrite Hk | done|].
  unfold lkey in Hm1. simpl in Hm1. rewrite Hk, Hv, <- Hmap in Hm1.
  assert (Hfi : flash_inv s1 bess1 (<[key := val]> M)) by (constructor; [done | by rewrite Hl2 | done | done]).
  assert (HMk : M !! key = None).
  { destruct (M !! key) as [v'|] eqn:E; [|done]. apply (content_lookup bess M) in E as (l & Hl & <- & _); [|done..]. destruct Hnew.
    by apply list_elem_of_fmap_2. }
  unfold after_write, when. apply wp_bind, wp_ret.
  apply (wp_remember s s1 (vlocs bess) bess1 (<[key := val]> M) key val i off e); try done.
  - rewrite Hb1, Hl1. done.
  - by rewrite Hc1.
  - by rewrite Hl2.
  - intros s' Hlen Hinv'. apply HQ. exists bess1. split; [done|]. by left.
  - intros _ Hr. rewrite Hc1 in Hr. apply HQ. exists bess1. split; [done|]. by right.
Qed.

(** A key that the store has: the old entry is removed, and its place in the
    cache is free again. *)
Lemma wp_after_old s s1 bess bess1 M key val i off e i0 off0 e0 Q :
  kv_inv s bess M -> (i0, off0, e0) ∈ vlocs bess -> e_key e0 = key -> flash_rep s1 bess1 -> same_ram s s1 ->
  length (blocks s1) = length (blocks s) -> length bess1 = length bess ->
  vlocs bess1 ≡ₚ (i, off, e) :: vlocs bess -> e_key e = key -> e_val e = val -> (i < length bess)%nat ->
  (forall r s', set_post s M key val r s' -> Q (Some r) s') ->
  wp (after_write key val true (node_at i0 off0 e0) i off) Q s1.
Proof.
  intros Hinv Hold Hk0 Hf1 (Hb1 & Hg1 & Hc1) Hl1 Hl2 Hp Hk Hv Hi HQ. pose proof Hinv as [[Hf Hnum Hnd Hmap] Hc Hbid].
  unfold after_write, when. apply wp_bind, wp_bind.
  apply (wp_loc_rm s1 bess1); [done | rewrite Hp; apply elem_of_cons; by right|].
  intros s2 bess2 Hf2 (Hb2 & Hg2 & Hc2) Hl3 Hl4 Hp2.
  cbn [node_block head_offset node_at]. apply wp_bind, (wp_forget s bess M s2 i0 off0 e0); [done | done | congruence|].
  intros cs Hcs (x & Hx & Hfree). apply wp_ret.
  destruct (perm_swap_head _ _ _ _ _ Hp Hp2 Hold) as (r & Hr & Hp3).
  pose proof Hnd as Hnd0. rewrite Hr in Hnd0. simpl in Hnd0. apply NoDup_cons in Hnd0 as [Hnotin Hndr].
  unfold lkey in Hnotin at 1. simpl in Hnotin. rewrite Hk0 in Hnotin.
  assert (Hndn : NoDup (lkey <$> ((i, off, e) :: r))) by (simpl; constructor; [unfold lkey at 1; simpl; by rewrite Hk | done]).
  assert (Hfi : flash_inv (with_cache cs s2) bess2 (<[key := val]> M)).
  { constructor; [done | rewrite Hl4, Hl2; done | by rewrite Hp3|].
    rewrite (content_perm bess2 _ Hndn Hp3), Hmap. rewrite (content_perm bess ((i0, off0, e0) :: r)); [|by rewrite <- Hr | done].
    simpl. unfold lpair. simpl. rewrite Hk, Hk0, Hv, insert_insert_eq. done. }
  assert (Hcr : live cs ≡ₚ lcache <$> r).
  { rewrite Hc, Hr in Hcs. simpl in Hcs. apply Permutation_cons_inv in Hcs. by symmetry. }
  apply (wp_remember s (with_cache cs s2) r bess2 (<[key := val]> M) key val i off e); try done.
  - simpl. rewrite Hb2, Hl3, Hb1, Hl1. done.
  - simpl. by rewrite Hl3.
  - by rewrite Hl4, Hl2.
  - intros s' Hlen Hinv'. apply HQ. exists bess2. split; [done|]. by left.
  - simpl. intros Hall _. rewrite Forall_forall in Hall. apply Hall in Hx. congruence.
Qed.

Definition with_bid (n : nat) s : kv_t := mkKv (blocks s) n (gc_bid s) (cache s).

Lemma kv_inv_bid s bess M n : kv_inv s bess M -> (n < length (blocks s))%nat -> kv_inv (with_bid n s) bess M.
Proof. intros [[] ? ?] Hn. constructor; [by constructor | done | done]. Qed.

(** One block is tried. *)
Lemma wp_try_block s bess M key val ver exists_ node Q :
  kv_inv s bess M -> key_ok key -> Forall is_byte val -> (length val < 1024)%nat -> looked_up bess key exists_ node ->
  (forall r s', fits s key val (bid s) -> set_post s M key val r s' -> Q (Some r) s') ->
  forall next, (~ fits s key val (bid s) -> wp next Q s) ->
  wp (b <- block_get (bid s) ;;
      gc <- gets gc_bid ;;
      offset <- (if (ro_count b =? 0)%nat && negb (Z.of_nat (bid s) =? gc) then kvblock_set junk (bid s) key val ver else ret None) ;;
      match offset with Some off => after_write key val exists_ node (bid s) off | None => next end) Q s.
Proof.
  intros Hinv Hk Hval Hvl Hlook Hyes next Hno. pose proof Hinv as [[Hf Hnum Hnd Hmap] Hc Hbid].
  destruct (lookup_lt_is_Some_2 (blocks s) (bid s) Hbid) as [b Hb].
  destruct (Forall2_lookup_l _ _ _ _ _ Hf Hb) as (es & Hes & Hr).
  apply wp_bind, (wp_block_get _ b); [done|]. apply wp_bind, wp_gets, wp_bind. rewrite (br_ro _ _ Hr), Nat.eqb_refl. cbn [andb].
  destruct (Z.eqb_spec (Z.of_nat (bid s)) (gc_bid s)) as [Hgc|Hgc]; cbn [negb].
  { apply wp_ret, Hno. by intros (b' & _ & ? & _). }
  apply (wp_kvblock_set junk (bid s) b es); [done..| |].
  - intros Hfull. apply Hno. intros (b' & Hb' & _ & Hroom). rewrite Hb in Hb'. injection Hb' as <-. lia.
  - intros pad b' e He Hsz Hr' Hbs Hroom. assert (Hfit : fits s key val (bid s)) by (by exists b).
    pose proof (flash_put _ _ (bid s) _ _ Hf Hr') as Hf1. pose proof (vlocs_append bess (bid s) es e Hes eq_refl) as Hp.
    assert (Hi : (bid s < length bess)%nat) by (rewrite <- (Forall2_length _ _ _ Hf); done).
    destruct exists_; simpl in Hlook.
    + destruct Hlook as (i0 & off0 & e0 & Hold & Hk0 & ->).
      eapply (wp_after_old s _ bess _ M key val (bid s) (esizes es) e); try done; [apply length_insert..|]. eauto.
    + eapply (wp_after_new s _ bess _ M key val node (bid s) (esizes es) e); try done; [apply length_insert..|]. eauto.
Qed.

Lemma fits_bid s key val n i : fits (with_bid n s) key val i <-> fits s key val i.
Proof. done. Qed.

Lemma set_post_bid s M key val n r s' : set_post (with_bid n s) M key val r s' -> set_post s M key val r s'.
Proof. done. Qed.

(** The blocks are tried in turn, each of them once. *)
Lemma wp_set_loop s bess M key val ver exists_ node start Q :
  kv_inv s bess M -> key_ok key -> Forall is_byte val -> (length val < 1024)%nat -> looked_up bess key exists_ node ->
  (start < length (blocks s))%nat ->
  (forall i r s', fits s key val i -> set_post s M key val r s' -> Q (Some r) s') ->
  ((forall i, ~ fits s key val i) -> Q None (with_bid start s)) ->
  forall fuel k, (k < length (blocks s))%nat -> (length (blocks s) - k < fuel)%nat ->
    (forall j, (j < k)%nat -> ~ fits s key val ((start + j) mod length (blocks s))%nat) ->
    wp (set_loop junk realloc_ok fuel start key val ver exists_ node) Q (with_bid ((start + k) mod length (blocks s)) s).
Proof.
  intros Hinv Hk Hval Hvl Hlook Hst Hyes Hno. set (n := length (blocks s)) in *.
  induction fuel as [|fuel IH]; intros k Hkn Hfuel Hpast; [lia|]. cbn [set_loop].
  apply wp_bind. unfold block_num. apply wp_bind, wp_gets, wp_ret. apply wp_bind, wp_gets. cbn [bid with_bid blocks].
  assert (Hcur : ((start + k) mod n < n)%nat) by (apply Nat.mod_upper_bound; lia).
  apply (wp_try_block (with_bid ((start + k) mod n) s) bess M); try done; [by apply kv_inv_bid | by eauto |].
  intros Hmiss. fold n. apply wp_bind. unfold set_bid. cbn. apply wp_bind, wp_gets. cbn [bid].
  assert (Hnext : (((start + k) mod n + 1) mod n = (start + S k) mod n)%nat).
  { rewrite Nat.Div0.add_mod_idemp_l. f_equal. lia. }
  rewrite Hnext. assert (Hpast' : forall j, (j < S k)%nat -> ~ fits s key val ((start + j) mod n)).
  { intros j Hj. destruct (decide (j = k)) as [->|]; [exact Hmiss | apply Hpast; lia]. }
  destruct (Nat.eqb_spec ((start + S k) mod n) start) as [E|E].
  - apply wp_ret. rewrite E. apply Hno. intros i (b & Hb & Hfit). pose proof (lookup_lt_Some _ _ _ Hb) as Hi. fold n in Hi.
    assert (Hk1 : S k = n).
    { destruct (decide (S k = n)); [done|]. exfalso. destruct (decide (start + S k < n)%nat).
      - rewrite Nat.mod_small in E by done. lia.
      - replace (start + S k)%nat with (start + S k - n + 1 * n)%nat in E by lia. rewrite Nat.Div0.mod_add, Nat.mod_small in E by lia. lia. }
    apply (Hpast' ((i + n - start) mod n)%nat); [rewrite Hk1; apply Nat.mod_upper_bound; lia|].
    rewrite Nat.Div0.add_mod_idemp_r. replace (start + (i + n - start))%nat with (i + 1 * n)%nat by lia.
    rewrite Nat.Div0.mod_add, Nat.mod_small by done. by exists b.
  - apply IH; [|lia|done]. destruct (decide (S k = n)) as [Ek|]; [|lia]. exfalso. apply E. rewrite Ek.
    replace (start + n)%nat with (start + 1 * n)%nat by lia. rewrite Nat.Div0.mod_add, Nat.mod_small; done.
Qed.

Lemma wp_set_blocks s bess M key val ver exists_ node Q :
  kv_inv s bess M -> key_ok key -> Forall is_byte val -> (length val < 1024)%nat -> looked_up bess key exists_ node ->
  (forall i r s', fits s key val i -> set_post s M key val r s' -> Q (Some r) s') ->
  ((forall i, ~ fits s key val i) -> Q None s) ->
  wp (set_blocks junk realloc_ok key val ver exists_ node) Q s.
Proof.
  intros Hinv Hk Hval Hvl Hlook Hyes Hno. pose proof (ki_bid _ _ _ Hinv) as Hbid.
  unfold set_blocks. apply wp_bind, wp_gets, wp_bind. unfold block_num. apply wp_bind, wp_gets, wp_ret.
  assert (E : s = with_bid (bid s) s) by (by destruct s).
  pose proof (wp_set_loop s bess M key val ver exists_ node (bid s) Q Hinv Hk Hval Hvl Hlook Hbid Hyes) as HL.
  rewrite <- E in HL. specialize (HL Hno (S (length (blocks s))) 0%nat ltac:(lia) ltac:(lia) ltac:(lia)).
  rewrite Nat.add_0_r, Nat.mod_small in HL by done. by rewrite <- E in HL.
Qed.

(** [kv_set] when a block has room, or garbage collection finds nothing to
    collect. *)
Lemma wp_kv_set s bess M key val Q :
  kv_inv s bess M -> key_ok key -> Forall is_byte val -> (0 < length val)%nat -> (length key + length val < 498)%nat ->
  (forall i r s', fits s key val i -> set_post s M key val r s' -> Q r s') ->
  ((forall i, ~ fits s key val i) -> wp (kv_gc junk) (fun g s' => g <> 0 /\ Q (-1) s') s) ->
  wp (kv_set junk realloc_ok (Some key) (Some val)) Q s.
Proof.
  intros Hinv Hk Hval Hv0 Hl HQ Hfull. unfold kv_set.
  destruct (Nat.eqb_spec (length val) 0); [lia|]. destruct (Nat.leb_spec 498 (length key + length val)); [lia|]. cbn [orb].
  assert (Hstr : c_str key) by (eapply Forall_impl; [apply Hk | simpl; lia]).
  assert (Hset : forall exists_ node ver k, looked_up bess key exists_ node ->
    wp (done <- set_blocks junk realloc_ok key val ver exists_ node ;;
        match done with Some z => ret z | None => g <- kv_gc junk ;; if g =? 0 then k else ret (-1) end) Q s).
  { intros ex node ver k Hlook. apply wp_bind, (wp_set_blocks s bess M); [done..| lia | done | intros i r s2 ? ?; by apply wp_ret, (HQ i) |].
    intros Hno. apply wp_bind. eapply wp_mono; [by apply Hfull|]. intros g s' [Hg Hq].
    rewrite (proj2 (Z.eqb_neq _ _) Hg). by apply wp_ret. }
  apply wp_bind, (wp_kv_find s bess M); [done..| |].
  - intros i' off e Hl' He _. cbn iota. cbv zeta. rewrite Z.eqb_refl. apply Hset. by exists i', off, e.
  - intros nd Hnot _. cbn iota. cbv zeta. change (-1 =? 0) with false. by apply Hset.
Qed.
End Ops.
