(* ===== verification/KvGc.v ===== *)
(** * Garbage collection

    [kv_gc] moves the valid entries of the fullest blocks that fit into the
    block kept free, and so erases them.  It ends, the flash memory holds the
    same map before and after, and the block kept free afterwards is empty. *)

From stdpp Require Import gmap functions.
From S2P Require Import Prelude.
From S2P Require Import Monad.
From S2P Require Import KvBlock.
From S2P Require Import KvSet.
From S2P Require Import KvRep.
From S2P Require Import KvStore.
From S2P Require Import KvOps.

Lemma c_string_at key tail : c_str key -> c_string (key ++ 0 :: tail) = Some key.
Proof. induction 1 as [|x key Hx _ IH]; [done|]. simpl. rewrite (proj2 (Z.eqb_neq x 0)) by done. by rewrite IH. Qed.

(** The bytes of an entry behind the pointers of its node. *)
Lemma entry_bytes b pre e post : block_rep b (pre ++ e :: post) ->
  c_string (drop (esizes pre) (mem b)) = Some (e_key e) /\
  take (length (e_val e)) (drop (esizes pre + length (e_key e) + RW_FLAG_SIZE) (mem b)) = e_val e.
Proof.
  intros Hr. destruct (br_mem_at _ _ _ _ Hr) as (rest & Hm & _). destruct (entry_in _ _ _ _ Hr) as [He Hlen].
  rewrite Hm, <- Hlen. split.
  - rewrite drop_app_length, image_key, <- app_assoc. unfold after_key. simpl. apply c_string_at. by apply entry_c_str.
  - rewrite image_key. unfold after_key. cbv zeta. rewrite <- !app_assoc.
    rewrite (app_assoc (flat pre)), (app_assoc (flat pre ++ e_key e)), drop_app_length'
      by (rewrite !length_app; unfold RW_FLAG_SIZE; simpl; lia).
    apply take_app_length.
Qed.

Lemma length_esizes es : (length es <= esizes es)%nat.
Proof. induction es as [|e es IH]; [done|]. rewrite esizes_cons. pose proof (esize_pos e). simpl. lia. Qed.

Lemma valids_le es : (esizes (valids es) <= esizes es)%nat.
Proof. induction es as [|e es IH]; [done|]. rewrite valids_cons, esizes_cons. destruct (e_valid e); rewrite ?esizes_cons; lia. Qed.

Section Gc.
Context `{NorFlash} (junk : nat -> Z).
Implicit Types (s : kv_t) (bess : list (list entry)) (M : gmap (list Z) (list Z)).

(** The same pairs of keys and values are valid. *)
Definition same_pairs bess bess' : Prop := lpair <$> vlocs bess' ≡ₚ lpair <$> vlocs bess.

Lemma same_pairs_inv s s' bess bess' M : flash_inv s bess M -> flash_rep s' bess' -> length bess' = length bess ->
  same_pairs bess bess' -> flash_inv s' bess' M.
Proof.
  unfold same_pairs. intros [Hf Hn Hnd HM] Hf' Hl Hp. constructor; [done | by rewrite Hl | |].
  - rewrite <- lpair_keys, Hp, lpair_keys. done.
  - rewrite HM. unfold content. apply list_to_map_proper; [by rewrite lpair_keys | by symmetry].
Qed.

(** What is done to one entry of block [m]: it moves to block [g]. *)
Lemma wp_move s bess m g pre e post gs bg Q :
  flash_rep s bess -> m <> g -> bess !! m = Some (pre ++ e :: post) -> bess !! g = Some gs -> blocks s !! g = Some bg ->
  e_valid e = true -> (write_offset bg + esize e <= bsize bg - 4)%nat ->
  (forall s' e' bg', let bess' := <[m := es_rm pre e post]> (<[g := gs ++ [e']]> bess) in
    flash_rep s' bess' -> same_ram s s' -> blocks s' !! g = Some bg' -> bsize bg' = bsize bg ->
    write_offset bg' = (write_offset bg + esize e)%nat -> same_pairs bess bess' ->
    (forall j, j <> m -> j <> g -> blocks s' !! j = blocks s !! j) -> bsize <$> blocks s' = bsize <$> blocks s -> Q 0 s') ->
  wp (deep_gc junk g (node_at m (esizes pre) e)) Q s.
Proof.
  intros Hf Hmg Hm Hg Hbg Hv Hroom HQ. destruct (flash_lookup _ _ _ _ Hf Hm) as (bm & Hbm & Hrm).
  destruct (flash_lookup _ _ _ _ Hf Hg) as (bg0 & Hbg0 & Hrg). rewrite Hbg in Hbg0. injection Hbg0 as <-.
  destruct (entry_bytes _ _ _ _ Hrm) as [Hkey Hval]. destruct (entry_in _ _ _ _ Hrm) as [He _].
  unfold deep_gc. cbn [rw node_at]. change (1 =? 1) with true. cbn iota. cbv zeta. unfold bytes_from.
  cbn [node_block head_offset value_offset version val_size node_at].
  apply wp_bind, wp_bind, (wp_block_get m bm); [done|]. apply wp_ret. apply wp_bind. eapply wp_lift; [exact Hkey|].
  apply wp_bind, wp_bind, (wp_block_get m bm); [done|]. apply wp_ret. rewrite Hval. apply wp_bind.
  assert (Hks : key_size (e_key e) (e_val e) = esize e) by done.
  apply (wp_kvblock_set junk g bg gs); try done; [by split; apply He | apply He | apply He | rewrite Hks; lia |].
  intros pad bg' e' He' Hsz Hr' Hbs _. rewrite Hks in Hsz. cbn iota.
  set (s1 := with_block g bg' s). pose proof (flash_put _ _ g _ _ Hf Hr') as Hf1. fold s1 in Hf1.
  assert (Hm1 : <[g := gs ++ [e']]> bess !! m = Some (pre ++ e :: post)) by (by rewrite list_lookup_insert_ne).
  assert (Hbm1 : blocks s1 !! m = Some bm) by (simpl; by rewrite list_lookup_insert_ne).
  apply wp_bind, (wp_kvnode_rm m bm pre e post); [done..|]. intros bm' Hk1 Hk2 Hbs'. apply wp_ret.
  assert (Hrm' : block_rep bm' (es_rm pre e post)).
  { unfold es_rm. destruct (valids (pre ++ post)); [by apply Hk2 | by apply Hk1]. }
  apply (HQ _ e' bg'); simpl.
  - by apply flash_put.
  - done.
  - rewrite list_lookup_insert_ne by done. apply list_lookup_insert_eq. by eapply lookup_lt_Some.
  - done.
  - rewrite (br_offset _ _ Hr'), esizes_app, (br_offset _ _ Hrg). unfold esizes at 2. simpl. lia.
  - unfold same_pairs. pose proof (vlocs_append bess g gs e' Hg eq_refl) as Hp1.
    pose proof (vlocs_rm _ m pre e post Hm1 Hv) as Hp2. rewrite Hp1 in Hp2. apply (fmap_Permutation lpair) in Hp2. simpl in Hp2.
    unfold lpair in Hp2 at 1 3. simpl in Hp2. apply Permutation_cons_inv in Hp2. by symmetry.
  - intros j Hj1 Hj2. rewrite !list_lookup_insert_ne by done. done.
  - rewrite !list_fmap_insert, Hbs, Hbs'. rewrite list_insert_id by (rewrite list_insert_id; by rewrite list_lookup_fmap, ?Hbm, ?Hbg).
    apply list_insert_id. by rewrite list_lookup_fmap, Hbg.
Qed.

(** What the collection of block [m] into block [g] keeps, from [s0] on. *)
Record moving (s0 : kv_t) (bess0 : list (list entry)) (m g : nat) (s : kv_t) (bess : list (list entry)) : Prop := mkMoving {
  mv_rep : flash_rep s bess;
  mv_ram : same_ram s0 s;
  mv_pairs : same_pairs bess0 bess;
  mv_frame : forall j, j <> m -> j <> g -> blocks s !! j = blocks s0 !! j;
  mv_sizes : bsize <$> blocks s = bsize <$> blocks s0;
}.

Lemma moving_refl s bess m g : flash_rep s bess -> moving s bess m g s bess.
Proof. intros Hf. constructor; [done | by repeat split | unfold same_pairs; done | done | done]. Qed.

Lemma moving_trans s0 bess0 m g s bess s' bess' : moving s0 bess0 m g s bess ->
  flash_rep s' bess' -> same_ram s s' -> same_pairs bess bess' -> (forall j, j <> m -> j <> g -> blocks s' !! j = blocks s !! j) ->
  bsize <$> blocks s' = bsize <$> blocks s -> moving s0 bess0 m g s' bess'.
Proof.
  intros [? (H1 & H2 & H3) Hp Hfr Hl] Hf (H1' & H2' & H3') Hp' Hfr' Hl'. constructor; try done.
  - repeat split; congruence.
  - unfold same_pairs in *. by rewrite Hp', Hp.
  - intros j Hj1 Hj2. rewrite Hfr', Hfr; done.
  - congruence.
Qed.

Lemma NODE_VAILD_at i off e : NODE_VAILD (node_at i off e) = e_valid e.
Proof. unfold NODE_VAILD, node_at. simpl. by destruct (e_valid e). Qed.

(** The block has been erased, or the entries before [off] are invalid and
    [rest] are those from [off] on. *)
Definition gc_pos (es : list entry) (off : nat) (rest : list entry) : Prop :=
  (valids rest <> [] /\ exists pre, es = pre ++ rest /\ off = esizes pre /\ valids pre = []) \/ (valids rest = [] /\ es = []).

Lemma wp_gc_iter s0 bess0 m g bg0 : m <> g -> forall rest fuel s bess es off node bm Q,
  moving s0 bess0 m g s bess -> bess !! m = Some es -> blocks s !! m = Some bm -> (off <= bsize bm)%nat -> blocks s !! g = Some bg0 ->
  gc_pos es off rest -> (write_offset bg0 + esizes (valids rest) <= bsize bg0 - 4)%nat -> (length rest < fuel)%nat ->
  (forall s' bess', moving s0 bess0 m g s' bess' -> bess' !! m = Some [] -> Q 0 s') ->
  wp (iter_loop fuel m NODE_EXISTS (deep_gc junk g) off node) Q s.
Proof.
  intros Hmg. revert bg0. intros bg0 rest. revert bg0.
  induction rest as [|e rest IH]; intros bg0 fuel s bess es off node bm Q Hmv Hm Hbm Hoff Hg Hpos Hroom Hfuel HQ;
    (destruct fuel as [|fuel]; [simpl in Hfuel; lia|]); pose proof (mv_rep _ _ _ _ _ _ Hmv) as Hf;
    destruct (flash_lookup _ _ _ _ Hf Hm) as (bm' & Hbm' & Hrm); rewrite Hbm in Hbm'; injection Hbm' as <-; cbn [iter_loop].
  { destruct Hpos as [[Hne _]|[_ ->]]; [done|]. apply wp_bind, (wp_search_end m bm []); [done..| |].
    { unfold esizes. simpl. lia. }
    intros n _ _ _. cbn iota. apply wp_ret. by apply (HQ s bess). }
  destruct Hpos as [(Hne & pre & -> & -> & Hpre)|[Hnone ->]].
  2: { apply wp_bind, (wp_search_end m bm []); [done..| |]; [unfold esizes; simpl; lia|].
       intros n _ _ _. cbn iota. apply wp_ret. by apply (HQ s bess). }
  apply wp_bind, (wp_search_at m bm pre e rest); [done..|]. cbn iota. rewrite NODE_VAILD_at. cbn [next_offset node_at].
  assert (Hnext : (esizes pre + esize e <= bsize bm)%nat).
  { pose proof (br_offset _ _ Hrm) as Ho. pose proof (br_room _ _ Hrm). rewrite esizes_app, esizes_cons in Ho. lia. }
  rewrite valids_cons in Hne, Hroom. cbn [negb NODE_EXISTS orb]. simpl in Hfuel. destruct (e_valid e) eqn:Hv.
  - rewrite esizes_cons in Hroom.
    assert (Hgs : exists gs, bess !! g = Some gs) by (destruct (Forall2_lookup_l _ _ _ _ _ Hf Hg) as (gs & ? & _); eauto).
    destruct Hgs as [gs Hgs]. apply wp_bind, (wp_move s bess m g pre e rest gs bg0); try done; [lia|].
    intros s' e' bg' bess' Hf' Hram Hg' Hbs Hwo Hpairs Hfr Hsz. cbn iota. change (0 =? 0) with true. cbn iota.
    assert (Hm' : bess' !! m = Some (es_rm pre e rest)).
    { apply list_lookup_insert_eq. rewrite length_insert. by eapply lookup_lt_Some. }
    destruct (flash_lookup _ _ _ _ Hf' Hm') as (bm' & Hbm' & Hrm').
    eapply (IH bg' fuel s' bess' (es_rm pre e rest) _ _ bm'); try done.
    + by eapply moving_trans.
    + apply (f_equal (lookup m)) in Hsz. rewrite !list_lookup_fmap, Hbm, Hbm' in Hsz. injection Hsz as ->. done.
    + unfold es_rm, gc_pos. rewrite valids_app, Hpre. simpl. destruct (valids rest) eqn:Er; [by right|]. left. split; [done|].
      exists (pre ++ [kill e]). rewrite <- app_assoc. split; [done|]. split; [rewrite esizes_app; unfold esizes; simpl; unfold esize, raw_size; simpl; lia|].
      rewrite valids_app, Hpre. done.
    + lia.
    + lia.
  - eapply (IH bg0 fuel s bess _ _ _ bm); try done; [|lia].
    left. split; [done|]. exists (pre ++ [e]). rewrite <- app_assoc. split; [done|].
    split; [rewrite esizes_app; unfold esizes; simpl; lia|]. rewrite valids_app, Hpre, valids_cons, Hv. done.
Qed.

(** The choice of the block. *)
Lemma gc_min_spec bs gc : forall i ms mid,
  (gc_min bs i gc ms mid = mid /\
    (forall k b, bs !! k = Some b -> ro_count b = 0%nat -> Z.of_nat (i + k) <> gc -> (0 < kv_size b)%nat -> (ms <= kv_size b)%nat)) \/
  (exists k b, gc_min bs i gc ms mid = Some (i + k)%nat /\ bs !! k = Some b /\ Z.of_nat (i + k) <> gc /\ (0 < kv_size b < ms)%nat).
Proof.
  induction bs as [|b bs IH]; intros i ms mid; cbn [gc_min]; [by left|].
  destruct ((ro_count b =? 0)%nat && negb (Z.of_nat i =? gc) && (0 <? kv_size b)%nat && (kv_size b <? ms)%nat) eqn:E.
  - rewrite !andb_true_iff, negb_true_iff, Nat.eqb_eq, Z.eqb_neq, !Nat.ltb_lt in E. destruct E as [[[Ero Egc] Epos] Ems].
    right. destruct (IH (S i) (kv_size b) (Some i)) as [[-> _]|(k & b' & -> & Hb & Hgc & Hs)].
    + exists 0%nat, b. rewrite Nat.add_0_r. done.
    + exists (S k), b'. replace (i + S k)%nat with (S i + k)%nat by lia. repeat split; done || lia.
  - rewrite !andb_false_iff, negb_false_iff, Nat.eqb_neq, Z.eqb_eq, !Nat.ltb_ge in E.
    destruct (IH (S i) ms mid) as [[-> Hnone]|(k & b' & -> & Hb & Hgc & Hs)].
    + left. split; [done|]. intros [|k] b' Hb Hro Hgc Hpos.
      * injection Hb as <-. rewrite Nat.add_0_r in Hgc. lia.
      * apply (Hnone k b' Hb Hro); [|done]. by replace (S i + k)%nat with (i + S k)%nat by lia.
    + right. exists (S k), b'. replace (i + S k)%nat with (S i + k)%nat by lia. done.
Qed.

(** The state [gc_loop] is in, from [s0] on; [r] is [new_gc_id]. *)
Record collected (s0 : kv_t) (bess0 : list (list entry)) (g : nat) (r : Z) (s : kv_t) (bess : list (list entry)) : Prop := mkCollected {
  co_rep : flash_rep s bess;
  co_ram : same_ram s0 s;
  co_pairs : same_pairs bess0 bess;
  co_sizes : bsize <$> blocks s = bsize <$> blocks s0;
  co_id : r = -1 /\ s = s0 \/ exists m, r = Z.of_nat m /\ m <> g /\ bess !! m = Some [];
}.

Lemma empty_rep b es : block_rep b [] -> block_rep b es -> es = [].
Proof.
  intros H1 H2. pose proof (br_offset _ _ H1) as Ho. rewrite (br_offset _ _ H2) in Ho. destruct es as [|e es]; [done|].
  rewrite esizes_cons in Ho. pose proof (esize_pos e). unfold esizes in Ho at 2. simpl in Ho. lia.
Qed.

(** One round: block [m] is emptied into block [g]. *)
Lemma wp_gc_round s0 bess0 g r s bess m bm bg Q :
  collected s0 bess0 g r s bess -> m <> g -> blocks s !! m = Some bm -> blocks s !! g = Some bg ->
  (0 < kv_size bm < bsize bg - write_offset bg)%nat ->
  (forall s' bess', collected s0 bess0 g (Z.of_nat m) s' bess' -> bess' !! m = Some [] ->
    (forall j, j <> m -> j <> g -> blocks s' !! j = blocks s !! j) -> Q 0 s') ->
  wp (kvblock_iter m NODE_EXISTS (deep_gc junk g)) Q s.
Proof.
  intros [Hf Hram Hp Hsz Hid] Hmg Hm Hg Hfit HQ. destruct (Forall2_lookup_l _ _ _ _ _ Hf Hm) as (es & Hes & Hrm).
  destruct (Forall2_lookup_l _ _ _ _ _ Hf Hg) as (gs & Hgs & Hrg).
  unfold kvblock_iter. apply wp_bind, (wp_block_get m bm); [done|].
  rewrite (br_kv _ _ Hrm) in Hfit. pose proof (br_room _ _ Hrm). pose proof (br_offset _ _ Hrm).
  eapply (wp_gc_iter s bess m g bg Hmg es _ s bess es 0 _ bm); try done.
  - by apply moving_refl.
  - lia.
  - left. split; [intros E; rewrite E in Hfit; unfold esizes in Hfit; simpl in Hfit; lia|]. by exists [].
  - pose proof (esizes_mod (valids es)) as E1. pose proof (esizes_mod gs) as E2. rewrite <- (br_offset _ _ Hrg) in E2.
    destruct (br_size _ _ Hrg) as [E3 _]. pose proof (br_room _ _ Hrg). apply Nat.Div0.div_exact in E1, E2, E3. lia.
  - pose proof (length_esizes es). lia.
  - intros s' bess' Hmv He. apply (HQ s' bess'); [|done|apply Hmv].
    destruct Hmv as [Hf' (Ha & Hb & Hc) Hp' Hfr Hsz']. destruct Hram as (Ha' & Hb' & Hc'). constructor; [done | | | |].
    + repeat split; congruence.
    + unfold same_pairs in *. by rewrite Hp', Hp.
    + congruence.
    + right. by exists m.
Qed.

Lemma wp_gc_loop s0 bess0 g Q : gc_bid s0 = Z.of_nat g -> (g < length (blocks s0))%nat -> forall fuel (L : list nat) s bess r,
  collected s0 bess0 g r s bess -> (length L < fuel)%nat ->
  (forall i b, blocks s !! i = Some b -> i <> g -> (0 < kv_size b)%nat -> i ∈ L) ->
  (forall r s' bess', collected s0 bess0 g r s' bess' ->
    (forall i b bg, blocks s' !! i = Some b -> i <> g -> (0 < kv_size b)%nat -> blocks s' !! g = Some bg ->
      (bsize bg - write_offset bg <= kv_size b)%nat) -> Q r s') ->
  wp (gc_loop junk fuel r) Q s.
Proof.
  intros Hg0 Hg. induction fuel as [|fuel IH]; intros L s bess r Hco Hfuel HL HQ; [lia|]. cbn [gc_loop].
  pose proof Hco as [Hf Hram Hp Hsz Hid]. destruct Hram as (_ & Hgc & _).
  unfold gc_index. apply wp_bind, wp_bind, wp_gets. rewrite Hgc, Hg0. destruct (Z.ltb_spec (Z.of_nat g) 0); [lia|].
  apply wp_ret. rewrite Nat2Z.id.
  assert (Hlen : length (blocks s) = length (blocks s0)) by (apply (f_equal length) in Hsz; by rewrite !length_fmap in Hsz).
  destruct (lookup_lt_is_Some_2 (blocks s) g) as [bg Hbg]; [by rewrite Hlen|].
  apply wp_bind, (wp_block_get g bg); [done|]. apply wp_bind, wp_gets.
  destruct (gc_min_spec (blocks s) (Z.of_nat g) 0 (bsize bg - write_offset bg) None) as [[-> Hnone]|(m & bm & -> & Hm & Hmg & Hfit)].
  - apply wp_ret, (HQ r s bess); [done|]. intros i b bg' Hb Hi Hpos Hbg'. rewrite Hbg in Hbg'. injection Hbg' as <-.
    apply (Hnone i b Hb); [|simpl; lia|done]. destruct (Forall2_lookup_l _ _ _ _ _ Hf Hb) as (? & _ & Hr). apply Hr.
  - simpl. simpl in Hmg. assert (m <> g) as Hmg' by lia.
    apply wp_bind, (wp_gc_round s0 bess0 g r s bess m bm bg); [done..|]. intros s' bess' Hco' He Hfr.
    destruct (flash_lookup _ _ _ _ (co_rep _ _ _ _ _ _ Hco') He) as (bm' & Hbm' & Hrm').
    apply wp_bind, (wp_block_get m bm'); [done|]. rewrite (br_count _ _ Hrm'). simpl.
    apply (IH (filter (fun i => i <> m) L) s' bess'); [done | | | done].
    + assert (Hin : m ∈ L) by (apply (HL m bm); [done | done | lia]).
      assert (length (filter (fun i => i <> m) L) < length L)%nat; [|lia].
      apply list_elem_of_split in Hin as (l1 & l2 & ->). rewrite filter_app, filter_cons_False, !length_app by lia. simpl.
      pose proof (length_filter (fun i => i <> m) l1). pose proof (length_filter (fun i => i <> m) l2). lia.
    + intros i b Hb Hi Hpos. apply list_elem_of_filter. destruct (decide (i = m)) as [->|Him].
      * rewrite Hbm' in Hb. injection Hb as <-. rewrite (br_kv _ _ Hrm') in Hpos. unfold esizes in Hpos. simpl in Hpos. lia.
      * split; [done|]. apply (HL i b); [by rewrite <- Hfr | done | done].
Qed.

(** [kv_gc] with a block kept free. *)
Lemma wp_kv_gc s bess M g Q : flash_inv s bess M -> gc_bid s = Z.of_nat g -> (g < length (blocks s))%nat ->
  (forall s' bess' m b, flash_inv s' bess' M -> gc_bid s' = Z.of_nat m -> m <> g -> blocks s' !! m = Some b -> write_offset b = 0%nat ->
    bid s' = bid s -> cache s' = cache s -> bsize <$> blocks s' = bsize <$> blocks s -> Q 0 s') ->
  ((forall i b bg, blocks s !! i = Some b -> i <> g -> (0 < kv_size b)%nat -> blocks s !! g = Some bg ->
      (bsize bg - write_offset bg <= kv_size b)%nat) -> Q (-1) s) ->
  wp (kv_gc junk) Q s.
Proof.
  intros Hfi Hg Hlt Hyes Hno. unfold kv_gc, block_num. apply wp_bind, wp_bind, wp_gets, wp_ret. apply wp_bind.
  apply (wp_gc_loop s bess g _ Hg Hlt (S (length (blocks s))) (seq 0 (length (blocks s))) s bess).
  - constructor; [apply Hfi | by repeat split | unfold same_pairs; done | done | by left].
  - rewrite length_seq. lia.
  - intros i b Hb _ _. apply elem_of_seq. apply lookup_lt_Some in Hb. lia.
  - intros r s' bess' [Hf (Hb & Hgc & Hc) Hp Hsz Hid] Hmax. destruct Hid as [[-> ->]|(m & -> & Hm & He)].
    + change (negb (-1 =? -1)) with false. cbn iota. by apply wp_ret, Hno.
    + rewrite (proj2 (Z.eqb_neq (Z.of_nat m) (-1))) by lia. cbn [negb]. apply wp_bind.
      destruct (flash_lookup _ _ _ _ Hf He) as (b & Hbm & Hrb).
      assert (Hlen : length bess' = length bess).
      { rewrite <- (Forall2_length _ _ _ Hf), <- (Forall2_length _ _ _ (fi_rep _ _ _ Hfi)).
        apply (f_equal length) in Hsz. by rewrite !length_fmap in Hsz. }
      apply (Hyes _ bess' m b); try done; [|apply (br_offset _ _ Hrb)].
      destruct (same_pairs_inv s s' bess bess' M Hfi Hf Hlen Hp). by constructor.
Qed.

(** A store in which garbage collection finds nothing to collect. *)
Definition gc_idle s : Prop :=
  exists g, gc_bid s = Z.of_nat g /\ (g < length (blocks s))%nat /\ fst <$> kv_gc junk s = Some (-1).

Lemma wp_kv_gc_idle s bess M (Q : Z -> kv_t -> Prop) : flash_inv s bess M -> gc_idle s -> Q (-1) s -> wp (kv_gc junk) Q s.
Proof.
  intros Hfi (g & Hg & Hlt & Hr) HQ. pose proof (wp_kv_gc s bess M g (fun r s' => r = 0 \/ s' = s) Hfi Hg Hlt) as Hw.
  unfold wp in *. destruct (kv_gc junk s) as [[r s']|]; [|done]. simpl in Hr. injection Hr as ->.
  destruct Hw as [?| ->]; [by left|by right|done|done].
Qed.
End Gc.
