(* ===== verification/KvVerify.v ===== *)
(** * Finishing interrupted changes

    The store may have lost power between the write of a new entry and the
    removal of the old one, so that a key is valid twice.  [kv_verify] compares
    every valid entry with the valid entries after it: it removes the older one
    of the two, and nothing else. *)

From stdpp Require Import gmap functions.
From S2P Require Import Prelude.
From S2P Require Import Monad.
From S2P Require Import KvBlock.
From S2P Require Import KvSet.
From S2P Require Import KvRep.
From S2P Require Import KvStore.
From S2P Require Import KvOps.
From S2P Require Import KvGc.

Section Verify.
Context `{NorFlash}.
Implicit Types (s : kv_t) (bess : list (list entry)) (M : gmap (list Z) (list Z)).

(** ** Comparing two entries *)

Definition next_ver (v : Z) : Z := if v =? 255 then 1 else v + 1.

(** The version numbers tell an entry from the one that replaces it. *)
Lemma older_next i1 o1 e1 i2 o2 e2 : is_byte (e_ver e1) -> e_ver e2 = next_ver (e_ver e1) ->
  older (node_at i1 o1 e1) (node_at i2 o2 e2) = Some true /\ older (node_at i2 o2 e2) (node_at i1 o1 e1) = Some false.
Proof.
  unfold is_byte, next_ver, older. cbn [version node_at]. intros Hb ->. destruct (Z.eqb_spec (e_ver e1) 255) as [->|Hn]; [done|].
  destruct (Z.eqb_spec (e_ver e1) 1) as [->|H1]; [done|]. rewrite !andb_false_r, andb_false_l. cbn iota.
  destruct (Z.eqb_spec (e_ver e1 + 1) 1); cbn [andb]; rewrite ?andb_false_r; (destruct (Z.ltb_spec (e_ver e1) (e_ver e1 + 1)); [|lia]);
    (destruct (Z.ltb_spec (e_ver e1 + 1) (e_ver e1)); [lia|]); done.
Qed.

Lemma loc_bytes s bess i off e Q : flash_rep s bess -> (i, off, e) ∈ vlocs bess ->
  (forall tl, Q (e_key e ++ 0 :: tl) s) -> wp (bytes_from i off) Q s.
Proof.
  intros Hf Hl HQ. destruct (loc_entry _ _ _ _ _ Hf Hl) as (He & Hv & b & pre & post & Hb & Hi & Hr & ->).
  destruct (br_mem_at _ _ _ _ Hr) as (rest & Hm & _). destruct (entry_in _ _ _ _ Hr) as [_ Hlen].
  unfold bytes_from. apply wp_bind, (wp_block_get i b); [done|]. apply wp_ret. rewrite Hm, <- Hlen, drop_app_length, image_key, <- app_assoc.
  unfold after_key. simpl. apply HQ.
Qed.

(** The names of two entries are compared. *)
Lemma wp_check_version s bess i1 o1 e1 i2 o2 e2 Q :
  flash_rep s bess -> (i1, o1, e1) ∈ vlocs bess -> (i2, o2, e2) ∈ vlocs bess ->
  (e_key e1 <> e_key e2 -> Q None s) ->
  (e_key e1 = e_key e2 -> wp (match older (node_at i1 o1 e1) (node_at i2 o2 e2) with
    | Some true => kvnode_rm (node_at i1 o1 e1) ;; ret (Some true)
    | Some false => kvnode_rm (node_at i2 o2 e2) ;; ret (Some false)
    | None => ret None end) Q s) ->
  wp (kvblock_check_version (node_at i1 o1 e1) (node_at i2 o2 e2)) Q s.
Proof.
  intros Hf H1 H2 Hne Heq. unfold kvblock_check_version. cbn [node_block head_offset value_offset node_at].
  destruct (loc_entry _ _ _ _ _ Hf H1) as (He1 & _). destruct (loc_entry _ _ _ _ _ Hf H2) as (He2 & _).
  apply wp_bind, (loc_bytes s bess _ _ e1); [done..|]. intros t1. apply wp_bind, (loc_bytes s bess _ _ e2); [done..|]. intros t2.
  apply wp_bind. unfold keycmp. rewrite (proj2 (Z.eqb_neq _ 0)) by (unfold RW_FLAG_SIZE; lia).
  destruct (keycmp_loop_spec (e_key e1) (e_key e2) t1 t2 (Z.of_nat (o2 + length (e_key e2) + RW_FLAG_SIZE) - Z.of_nat o2 - 1))
    as (r & Hr & Hiff); [by apply entry_c_str.. | unfold RW_FLAG_SIZE; lia|].
  apply (wp_lift _ r); [done|]. destruct (Z.eqb_spec r 0) as [->|Hr0]; cbn [negb].
  - by apply Heq, Hiff.
  - apply wp_ret, Hne. intros E. by apply Hr0, Hiff.
Qed.

(** ** Places in a block *)

(** The valid entries from place [off] of block [i] on, in this block and the
    later ones. *)
Definition rem bess (i off : nat) (rest : list entry) : list loc :=
  only_valid (locs_from i off rest) ++ only_valid (locs_of (S i) (drop (S i) bess)).

Lemma locs_of_split k i bess es : bess !! i = Some es ->
  locs_of k bess = locs_of k (take i bess) ++ locs_from (k + i) 0 es ++ locs_of (k + S i) (drop (S i) bess).
Proof.
  revert k i. induction bess as [|x bess IH]; intros k i Hi; [done|]. destruct i as [|i]; simpl in Hi.
  - injection Hi as ->. simpl. by rewrite Nat.add_0_r, Nat.add_1_r.
  - simpl. rewrite (IH (S k) i Hi), app_assoc. replace (k + S i)%nat with (S k + i)%nat by lia. by replace (k + S (S i))%nat with (S k + S i)%nat by lia.
Qed.

Lemma vlocs_suffix bess i es pre rest : bess !! i = Some es -> es = pre ++ rest ->
  exists front, vlocs bess = front ++ rem bess i (esizes pre) rest.
Proof.
  intros Hi ->. unfold vlocs, rem. rewrite (locs_of_split 0 i bess _ Hi), !only_valid_app, locs_from_app, only_valid_app. simpl.
  exists (only_valid (locs_of 0 (take i bess)) ++ only_valid (locs_from i 0 pre)). by rewrite <- !app_assoc.
Qed.

Lemma rem_vlocs bess i pre rest l : bess !! i = Some (pre ++ rest) -> l ∈ rem bess i (esizes pre) rest -> l ∈ vlocs bess.
Proof. intros Hi Hl. destruct (vlocs_suffix bess i _ pre rest Hi eq_refl) as [front ->]. apply elem_of_app. by right. Qed.

Lemma rem_cons bess i off e rest : rem bess i off (e :: rest) =
  (if e_valid e then [(i, off, e)] else []) ++ rem bess i (off + esize e) rest.
Proof. unfold rem. simpl. rewrite only_valid_cons. simpl. by destruct (e_valid e). Qed.

Lemma rem_next bess i es off : bess !! S i = Some es -> rem bess i off [] = rem bess (S i) 0 es.
Proof. intros Hi. unfold rem. simpl. rewrite (drop_S bess es (S i) Hi). simpl. by rewrite only_valid_app. Qed.

Lemma rem_end bess i off : length bess = S i -> rem bess i off [] = [].
Proof. intros Hl. unfold rem. rewrite drop_ge by lia. done. Qed.

(** ** The inner loops *)

(** Nothing is removed as long as the names differ. *)
Lemma wp_inner_nodes_none s bess i1 o1 e1 j bj : flash_rep s bess -> (i1, o1, e1) ∈ vlocs bess -> blocks s !! j = Some bj ->
  forall rest pre fuel node Q, bess !! j = Some (pre ++ rest) -> (length rest < fuel)%nat ->
  (forall l, l ∈ only_valid (locs_from j (esizes pre) rest) -> lkey l <> e_key e1) ->
  Q false s -> wp (verify_nodes_2 fuel (node_at i1 o1 e1) j (esizes pre) node) Q s.
Proof.
  intros Hf H1 Hbj. induction rest as [|e rest IH]; intros pre fuel node Q Hj Hfuel Hne HQ;
    (destruct fuel as [|fuel]; [simpl in Hfuel; lia|]); cbn [verify_nodes_2]; apply wp_bind;
    destruct (flash_lookup _ _ _ _ Hf Hj) as (b & Hb & Hr); rewrite Hbj in Hb; injection Hb as <-.
  - rewrite app_nil_r in Hr. apply (wp_search_end j bj pre); [done | done | |].
    { pose proof (br_offset _ _ Hr). pose proof (br_room _ _ Hr). lia. }
    intros n _ _ _. cbn iota. by apply wp_ret.
  - apply (wp_search_at j bj pre e rest); [done..|]. cbn iota. rewrite NODE_VAILD_at. cbn [next_offset node_at].
    assert (Hnext : (esizes pre + esize e)%nat = esizes (pre ++ [e])) by (rewrite esizes_app; unfold esizes; simpl; lia).
    assert (Hgo : wp (verify_nodes_2 fuel (node_at i1 o1 e1) j (esizes pre + esize e) (node_at j (esizes pre) e)) Q s).
    { rewrite Hnext. apply IH; [by rewrite <- app_assoc | simpl in Hfuel; lia | | done].
      intros l Hl. apply Hne. simpl. rewrite only_valid_cons, Hnext. destruct (e_valid _); [apply elem_of_cons; by right | done]. }
    destruct (e_valid e) eqn:Ev; [|done].
    assert (Hl : (j, esizes pre, e) ∈ only_valid (locs_from j (esizes pre) (e :: rest))).
    { simpl. rewrite only_valid_cons. simpl. rewrite Ev. apply elem_of_cons. by left. }
    assert (Hv : (j, esizes pre, e) ∈ vlocs bess).
    { apply (rem_vlocs bess j pre (e :: rest)); [done|]. unfold rem. apply elem_of_app. by left. }
    apply wp_bind, (wp_check_version s bess); [done..| |].
    + intros _. done.
    + intros E. destruct (Hne _ Hl). unfold lkey. simpl. done.
Qed.

Lemma wp_inner_blocks_none s bess i1 o1 e1 : flash_rep s bess -> (i1, o1, e1) ∈ vlocs bess ->
  forall n j Q, (j + n = length bess)%nat -> (i1 < j)%nat ->
  (forall l, l ∈ only_valid (locs_of j (drop j bess)) -> lkey l <> e_key e1) ->
  Q tt s -> wp (verify_blocks_2 n (node_at i1 o1 e1) i1 j) Q s.
Proof.
  intros Hf H1. induction n as [|n IH]; intros j Q Hn Hj Hne HQ; cbn [verify_blocks_2]; [by apply wp_ret|].
  destruct (lookup_lt_is_Some_2 bess j) as [es Hes]; [lia|]. destruct (flash_lookup _ _ _ _ Hf Hes) as (b & Hb & Hr).
  apply wp_bind, (wp_block_get j b); [done|]. destruct (Nat.eqb_spec j i1); [lia|]. apply wp_bind.
  rewrite (drop_S bess es j Hes) in Hne. simpl in Hne. rewrite only_valid_app in Hne.
  change 0%nat with (esizes []).
  apply (wp_inner_nodes_none s bess i1 o1 e1 j b Hf H1 Hb es []); [done | | |].
  - pose proof (length_esizes es). pose proof (br_offset _ _ Hr). pose proof (br_room _ _ Hr). lia.
  - intros l Hl. apply Hne, elem_of_app. by left.
  - apply IH; [lia | lia | | done]. intros l Hl. apply Hne, elem_of_app. by right.
Qed.

(** A block without entries. *)
Lemma wp_inner_nodes_empty s bess i1 o1 e1 j off fuel node bj Q : flash_rep s bess -> bess !! j = Some [] ->
  blocks s !! j = Some bj -> (off <= bsize bj)%nat -> (0 < fuel)%nat -> Q false s ->
  wp (verify_nodes_2 fuel (node_at i1 o1 e1) j off node) Q s.
Proof.
  intros Hf Hj Hb Ho Hfuel HQ. destruct (flash_lookup _ _ _ _ Hf Hj) as (b & Hb' & Hr). rewrite Hb in Hb'. injection Hb' as <-.
  destruct fuel as [|fuel]; [lia|]. cbn [verify_nodes_2]. apply wp_bind, (wp_search_end j bj []); [done | done | |].
  { unfold esizes. simpl. lia. }
  intros n _ _ _. cbn iota. by apply wp_ret.
Qed.

(** The entry that is removed of two entries of one key. *)
Definition replaced (l1 l2 lold : loc) : Prop :=
  lold = l1 /\ e_ver l2.2 = next_ver (e_ver l1.2) \/ lold = l2 /\ e_ver l1.2 = next_ver (e_ver l2.2).

(** The state after that. *)
Definition done_post s bess (lold : loc) (s' : kv_t) (bess' : list (list entry)) : Prop :=
  flash_rep s' bess' /\ same_ram s s' /\ bsize <$> blocks s' = bsize <$> blocks s /\ removed bess lold bess'.

Lemma block_size s s' j b b' : bsize <$> blocks s' = bsize <$> blocks s -> blocks s !! j = Some b -> blocks s' !! j = Some b' ->
  bsize b' = bsize b.
Proof. intros Hs Hb Hb'. apply (f_equal (lookup j)) in Hs. rewrite !list_lookup_fmap, Hb, Hb' in Hs. by injection Hs. Qed.

Lemma replaced_older s bess i1 o1 e1 i2 o2 e2 lold : flash_rep s bess -> (i1, o1, e1) ∈ vlocs bess -> (i2, o2, e2) ∈ vlocs bess ->
  replaced (i1, o1, e1) (i2, o2, e2) lold ->
  lold = (i1, o1, e1) /\ older (node_at i1 o1 e1) (node_at i2 o2 e2) = Some true \/
  lold = (i2, o2, e2) /\ older (node_at i1 o1 e1) (node_at i2 o2 e2) = Some false.
Proof.
  intros Hf H1 H2 Hr. destruct (loc_entry _ _ _ _ _ Hf H1) as (He1 & _). destruct (loc_entry _ _ _ _ _ Hf H2) as (He2 & _).
  destruct Hr as [[-> Hv]|[-> Hv]]; [left | right]; (split; [done|]); simpl in Hv.
  - by apply older_next; [apply He1|].
  - by apply (older_next i2 o2 e2 i1 o1 e1); [apply He2|].
Qed.

(** The other entry was removed: the loop goes on after its place. *)
Lemma wp_inner_nodes_after s bess i1 o1 e1 j bj pre e2 r2 s' bess' fuel node Q :
  flash_rep s bess -> (i1, o1, e1) ∈ vlocs bess -> blocks s !! j = Some bj -> bess !! j = Some (pre ++ e2 :: r2) ->
  done_post s bess (j, esizes pre, e2) s' bess' -> (i1, o1, e1) <> (j, esizes pre, e2) -> (length r2 < fuel)%nat ->
  (forall l, l ∈ only_valid (locs_from j (esizes pre + esize e2) r2) -> lkey l <> e_key e1) ->
  Q false s' -> wp (verify_nodes_2 fuel (node_at i1 o1 e1) j (esizes pre + esize e2) node) Q s'.
Proof.
  intros Hf H1 Hbj Hj (Hf' & Hram & Hsz & Hrm) Hdiff Hfuel Hne HQ. destruct (flash_lookup _ _ _ _ Hf Hj) as (b & Hb & Hr).
  rewrite Hbj in Hb. injection Hb as <-.
  assert (H1' : (i1, o1, e1) ∈ vlocs bess').
  { rewrite (removed_vlocs _ _ _ Hrm) in H1. by apply elem_of_cons in H1 as [E|H1]. }
  destruct Hrm as (pre' & post' & Hj' & Ho' & _ & Hb'). cbn [fst snd] in Hj', Ho', Hb'. rewrite Hj in Hj'. injection Hj' as Ees.
  apply same_place in Ees as (<- & _ & <-); [|done].
  assert (Hj1 : bess' !! j = Some (es_rm pre e2 r2)) by (rewrite Hb'; apply list_lookup_insert_eq; by eapply lookup_lt_Some).
  destruct (flash_lookup _ _ _ _ Hf' Hj1) as (bj' & Hbj' & Hr'). pose proof (block_size _ _ _ _ _ Hsz Hbj Hbj') as Hbs.
  unfold es_rm in Hj1. destruct (valids (pre ++ r2)) as [|v vs].
  - apply (wp_inner_nodes_empty s' bess' i1 o1 e1 j _ _ _ bj'); try done; [|lia]. rewrite Hbs.
    pose proof (br_offset _ _ Hr) as Ho. pose proof (br_room _ _ Hr). rewrite esizes_app, esizes_cons in Ho. lia.
  - assert (Hs : (esizes pre + esize e2)%nat = esizes (pre ++ [kill e2])).
    { rewrite esizes_app. unfold esizes at 3. simpl. unfold esize, raw_size. simpl. lia. }
    rewrite Hs in *. apply (wp_inner_nodes_none s' bess' i1 o1 e1 j bj' Hf' H1' Hbj' r2); [by rewrite <- app_assoc | done..].
Qed.

(** The loop over the nodes of a block that has the other entry. *)
Lemma wp_inner_nodes_hit s bess i1 o1 e1 j bj lold : flash_rep s bess -> (i1, o1, e1) ∈ vlocs bess -> blocks s !! j = Some bj ->
  forall r1 pre e2 r2 fuel node Q, bess !! j = Some (pre ++ r1 ++ e2 :: r2) -> (length (r1 ++ e2 :: r2) < fuel)%nat ->
  e_valid e2 = true -> e_key e2 = e_key e1 -> (i1, o1, e1) <> (j, esizes (pre ++ r1), e2) ->
  (forall l, l ∈ only_valid (locs_from j (esizes pre) (r1 ++ e2 :: r2)) -> lkey l = e_key e1 -> l = (j, esizes (pre ++ r1), e2)) ->
  replaced (i1, o1, e1) (j, esizes (pre ++ r1), e2) lold ->
  (forall s' bess', done_post s bess lold s' bess' -> lold = (i1, o1, e1) -> Q true s') ->
  (forall s' bess', done_post s bess lold s' bess' -> lold <> (i1, o1, e1) -> Q false s') ->
  wp (verify_nodes_2 fuel (node_at i1 o1 e1) j (esizes pre) node) Q s.
Proof.
  intros Hf H1 Hbj. induction r1 as [|e r1 IH]; intros pre e2 r2 fuel node Q Hj Hfuel Hv2 Hk2 Hdiff Huniq Hrep HT HF;
    (destruct fuel as [|fuel]; [simpl in Hfuel; lia|]); cbn [verify_nodes_2]; apply wp_bind;
    destruct (flash_lookup _ _ _ _ Hf Hj) as (b & Hb & Hr); rewrite Hbj in Hb; injection Hb as <-.
  - rewrite app_nil_r in *. simpl in Hj, Hfuel, Hr. apply (wp_search_at j bj pre e2 r2); [done..|]. cbn iota. rewrite NODE_VAILD_at, Hv2.
    cbn [next_offset node_at].
    assert (H2 : (j, esizes pre, e2) ∈ vlocs bess).
    { apply (rem_vlocs bess j pre (e2 :: r2)); [done|]. rewrite rem_cons, Hv2. apply elem_of_cons. by left. }
    apply wp_bind, (wp_check_version s bess); [done..| |]; [intros E; by destruct E|]. intros _.
    destruct (replaced_older _ _ _ _ _ _ _ _ _ Hf H1 H2 Hrep) as [[-> ->]|[-> ->]].
    + apply wp_bind, (wp_loc_remove s bess); [done..|]. intros s' bess' Hf' Hram Hsz Hrm. apply wp_ret. cbn iota. apply wp_ret.
      by apply (HT s' bess').
    + apply wp_bind, (wp_loc_remove s bess); [done..|]. intros s' bess' Hf' Hram Hsz Hrm. apply wp_ret. cbn iota.
      apply (wp_inner_nodes_after s bess i1 o1 e1 j bj pre e2 r2 s' bess'); try done; [lia | | apply (HF s' bess'); [done | by intros E; symmetry in E]].
      intros l Hl Hk. assert (Hl2 : l = (j, esizes pre, e2)).
      { apply Huniq; [|done]. simpl. rewrite only_valid_cons. simpl. rewrite Hv2. apply elem_of_cons. by right. }
      subst l. apply list_elem_of_filter in Hl as [_ Hl]. apply elem_of_locs_from in Hl as (_ & p & q & _ & Ho).
      pose proof (esize_pos e2). lia.
  - simpl in Hj, Hr, Hfuel. apply (wp_search_at j bj pre e (r1 ++ e2 :: r2)); [done..|]. cbn iota. rewrite NODE_VAILD_at. cbn [next_offset node_at].
    assert (Hnext : (esizes pre + esize e)%nat = esizes (pre ++ [e])) by (rewrite esizes_app; unfold esizes; simpl; lia).
    assert (Happ : pre ++ e :: r1 = (pre ++ [e]) ++ r1) by (by rewrite <- app_assoc).
    assert (Hgo : wp (verify_nodes_2 fuel (node_at i1 o1 e1) j (esizes pre + esize e) (node_at j (esizes pre) e)) Q s).
    { rewrite Hnext. rewrite Happ in *. apply (IH (pre ++ [e]) e2 r2); try done; [by rewrite <- app_assoc | lia |].
      intros l Hl. apply Huniq. simpl. rewrite only_valid_cons, Hnext. destruct (e_valid (j, esizes pre, e).2); [apply elem_of_cons; by right | done]. }
    destruct (e_valid e) eqn:Ev; [|done].
    assert (Hl : (j, esizes pre, e) ∈ only_valid (locs_from j (esizes pre) (e :: r1 ++ e2 :: r2))).
    { simpl. rewrite only_valid_cons. simpl. rewrite Ev. apply elem_of_cons. by left. }
    assert (Hv : (j, esizes pre, e) ∈ vlocs bess).
    { apply (rem_vlocs bess j pre (e :: r1 ++ e2 :: r2)); [done|]. unfold rem. apply elem_of_app. by left. }
    apply wp_bind, (wp_check_version s bess); [done..| |].
    + intros _. done.
    + intros E. exfalso. specialize (Huniq _ Hl (eq_sym E)). injection Huniq as Ho _. rewrite esizes_app, esizes_cons in Ho.
      pose proof (esize_pos e). lia.
Qed.

Lemma locs_of_ge k bess i off e : (i, off, e) ∈ locs_of k bess -> (k <= i)%nat.
Proof.
  revert k. induction bess as [|es bess IH]; intros k Hin; simpl in Hin; [by apply elem_of_nil in Hin|].
  apply elem_of_app in Hin as [Hin|Hin]; [apply elem_of_locs_from in Hin as [-> _]; lia | apply IH in Hin; lia].
Qed.

Lemma removed_drop bess l bess' k : removed bess l bess' -> (l.1.1 < k)%nat -> drop k bess' = drop k bess.
Proof. intros (pre & post & _ & _ & _ & ->) Hk. by apply drop_insert_lt. Qed.

Lemma nodes_fuel s bess j es b : flash_rep s bess -> bess !! j = Some es -> blocks s !! j = Some b -> (length es <= bsize b)%nat.
Proof.
  intros Hf Hj Hb. destruct (flash_lookup _ _ _ _ Hf Hj) as (b' & Hb' & Hr). rewrite Hb in Hb'. injection Hb' as <-.
  pose proof (length_esizes es). pose proof (br_offset _ _ Hr). pose proof (br_room _ _ Hr). lia.
Qed.

(** The loops over the later entries, one of which has the key. *)
Lemma wp_inner_blocks_hit s bess i1 o1 e1 l2 lold Q : flash_rep s bess -> (i1, o1, e1) ∈ vlocs bess ->
  lkey l2 = e_key e1 -> (i1, o1, e1) <> l2 -> replaced (i1, o1, e1) l2 lold ->
  (forall s' bess', done_post s bess lold s' bess' -> Q tt s') ->
  forall n j pre rest, (j + n = length bess)%nat -> (i1 <= j)%nat -> bess !! j = Some (pre ++ rest) ->
  (if (j =? i1)%nat then (o1 + esize e1)%nat else 0%nat) = esizes pre ->
  l2 ∈ rem bess j (esizes pre) rest -> (forall l, l ∈ rem bess j (esizes pre) rest -> lkey l = e_key e1 -> l = l2) ->
  wp (verify_blocks_2 n (node_at i1 o1 e1) i1 j) Q s.
Proof.
  intros Hf H1 Hk Hdiff Hrep HQ. induction n as [|n IH]; intros j pre rest Hn Hij Hj Hoff H2 Huniq.
  { apply lookup_lt_Some in Hj. lia. }
  cbn [verify_blocks_2]. destruct (flash_lookup _ _ _ _ Hf Hj) as (b & Hb & Hr). apply wp_bind, (wp_block_get j b); [done|].
  cbn [next_offset node_at]. rewrite Hoff. pose proof (nodes_fuel _ _ _ _ _ Hf Hj Hb) as Hfuel. rewrite length_app in Hfuel.
  unfold rem in H2. apply elem_of_app in H2 as [H2|H2].
  - destruct l2 as [[j2 o2] e2]. pose proof H2 as H2'. apply list_elem_of_filter in H2' as [Hv2 H2'].
    apply elem_of_locs_from in H2' as (-> & r1 & r2 & -> & ->). simpl in Hv2.
    assert (Ho : (esizes pre + esizes r1)%nat = esizes (pre ++ r1)) by (by rewrite esizes_app). rewrite Ho in *.
    apply wp_bind. apply (wp_inner_nodes_hit s bess i1 o1 e1 j b lold Hf H1 Hb r1 pre e2 r2); [done | lia | done | done | done | | done | |].
    + intros l Hl. apply Huniq. unfold rem. apply elem_of_app. by left.
    + intros s' bess' Hd _. cbn iota. by apply wp_ret, (HQ s' bess').
    + intros s' bess' Hd Hne. cbn iota. pose proof Hd as (Hf' & _ & _ & Hrm).
      destruct Hrep as [[-> _]|[-> _]]; [done|].
      apply (wp_inner_blocks_none s' bess'); [done | | rewrite (removed_length _ _ _ Hrm); lia | lia | | by apply (HQ s' bess')].
      * rewrite (removed_vlocs _ _ _ Hrm) in H1. by apply elem_of_cons in H1 as [E|H1].
      * rewrite (removed_drop _ _ _ (S j) Hrm) by (simpl; lia). intros l Hl Hlk.
        assert (l = (j, esizes (pre ++ r1), e2)) as ->.
        { apply Huniq; [|done]. unfold rem. apply elem_of_app. by right. }
        apply list_elem_of_filter in Hl as [_ Hl]. apply locs_of_ge in Hl. lia.
  - assert (Hge : (S j <= l2.1.1)%nat).
    { destruct l2 as [[j2 o2] e2]. apply list_elem_of_filter in H2 as [_ Hl]. by apply locs_of_ge in Hl. }
    apply wp_bind. apply (wp_inner_nodes_none s bess i1 o1 e1 j b Hf H1 Hb rest pre); [done | lia | |].
    + intros l Hl Hlk. assert (l = l2) as -> by (apply Huniq; [unfold rem; apply elem_of_app; by left | done]).
      destruct l2 as [[j2 o2] e2]. apply list_elem_of_filter in Hl as [_ Hl]. apply elem_of_locs_from in Hl as [-> _]. simpl in Hge. lia.
    + cbn iota. assert (Hlt : (S j < length bess)%nat).
      { destruct (decide (S j < length bess)%nat); [done|]. rewrite drop_ge in H2 by lia. by apply elem_of_nil in H2. }
      destruct (lookup_lt_is_Some_2 bess (S j) Hlt) as [es Hes].
      assert (Hrem : rem bess j (esizes pre) [] = rem bess (S j) 0 es) by (by apply rem_next).
      apply (IH (S j) [] es); [lia | lia | done | | |].
      * destruct (Nat.eqb_spec (S j) i1); [lia | done].
      * change (esizes []) with 0%nat. rewrite <- Hrem. unfold rem. apply elem_of_app. by right.
      * change (esizes []) with 0%nat. rewrite <- Hrem. intros l Hl. apply Huniq. unfold rem in Hl |- *.
        apply elem_of_app. right. simpl in Hl. done.
Qed.

(** ** The outer loops *)

(** The comparisons of one entry with those after it. *)
Lemma wp_inner_start_none s bess i pre e rest n Q : flash_rep s bess -> bess !! i = Some (pre ++ e :: rest) -> e_valid e = true ->
  (i + n = length bess)%nat -> (forall l, l ∈ rem bess i (esizes pre + esize e) rest -> lkey l <> e_key e) ->
  Q tt s -> wp (verify_blocks_2 n (node_at i (esizes pre) e) i i) Q s.
Proof.
  intros Hf Hi Hv Hn Hne HQ. pose proof (lookup_lt_Some _ _ _ Hi) as Hlt. destruct n as [|n]; [lia|]. cbn [verify_blocks_2].
  destruct (flash_lookup _ _ _ _ Hf Hi) as (b & Hb & Hr). apply wp_bind, (wp_block_get i b); [done|]. rewrite Nat.eqb_refl.
  cbn [next_offset node_at]. pose proof (nodes_fuel _ _ _ _ _ Hf Hi Hb) as Hfuel. rewrite length_app in Hfuel. simpl in Hfuel.
  assert (H1 : (i, esizes pre, e) ∈ vlocs bess).
  { apply (rem_vlocs bess i pre (e :: rest)); [done|]. rewrite rem_cons, Hv. apply elem_of_cons. by left. }
  assert (Hnext : (esizes pre + esize e)%nat = esizes (pre ++ [e])) by (rewrite esizes_app; unfold esizes; simpl; lia). rewrite Hnext in *.
  apply wp_bind, (wp_inner_nodes_none s bess i (esizes pre) e i b Hf H1 Hb rest); [by rewrite <- app_assoc | lia | |].
  - intros l Hl. apply Hne. unfold rem. apply elem_of_app. by left.
  - cbn iota. apply (wp_inner_blocks_none s bess); [done | done | lia | lia | | done].
    intros l Hl. apply Hne. unfold rem. apply elem_of_app. by right.
Qed.

(** Without two entries of one key nothing changes. *)
Lemma wp_outer_nodes_none s bess i b n Q : flash_rep s bess -> blocks s !! i = Some b -> (i + n = length bess)%nat -> Q tt s ->
  forall rest pre fuel node, bess !! i = Some (pre ++ rest) -> (length rest < fuel)%nat ->
  NoDup (lkey <$> rem bess i (esizes pre) rest) ->
  wp (verify_nodes_1 fuel n i (esizes pre) node) Q s.
Proof.
  intros Hf Hb Hn HQ. induction rest as [|e rest IH]; intros pre fuel node Hi Hfuel Hnd;
    (destruct fuel as [|fuel]; [simpl in Hfuel; lia|]); cbn [verify_nodes_1]; apply wp_bind;
    destruct (flash_lookup _ _ _ _ Hf Hi) as (b' & Hb' & Hr); rewrite Hb in Hb'; injection Hb' as <-.
  - rewrite app_nil_r in Hr. apply (wp_search_end i b pre); [done | done | |].
    { pose proof (br_offset _ _ Hr). pose proof (br_room _ _ Hr). lia. }
    intros nd _ _ _. cbn iota. by apply wp_ret.
  - apply (wp_search_at i b pre e rest); [done..|]. cbn iota. rewrite NODE_VAILD_at. cbn [next_offset node_at].
    assert (Hnext : (esizes pre + esize e)%nat = esizes (pre ++ [e])) by (rewrite esizes_app; unfold esizes; simpl; lia).
    rewrite rem_cons, fmap_app in Hnd. apply NoDup_app in Hnd as (_ & Hnot & Hnd).
    assert (Hgo : wp (verify_nodes_1 fuel n i (esizes pre + esize e) (node_at i (esizes pre) e)) Q s).
    { rewrite Hnext in *. apply IH; [by rewrite <- app_assoc | simpl in Hfuel; lia | done]. }
    apply wp_bind. unfold when. destruct (e_valid e) eqn:Ev; [|by apply wp_ret].
    apply (wp_inner_start_none s bess i pre e rest); [done..| |done].
    intros l Hl Hk. apply (Hnot (e_key e)); [simpl; apply elem_of_cons; by left|]. rewrite <- Hk. by apply list_elem_of_fmap_2.
Qed.

Lemma wp_outer_nodes_empty s bess i b n off fuel node Q : flash_rep s bess -> bess !! i = Some [] -> blocks s !! i = Some b ->
  (off <= bsize b)%nat -> (0 < fuel)%nat -> Q tt s -> wp (verify_nodes_1 fuel n i off node) Q s.
Proof.
  intros Hf Hi Hb Ho Hfuel HQ. destruct (flash_lookup _ _ _ _ Hf Hi) as (b' & Hb' & Hr). rewrite Hb in Hb'. injection Hb' as <-.
  destruct fuel as [|fuel]; [lia|]. cbn [verify_nodes_1]. apply wp_bind, (wp_search_end i b []); [done | done | |].
  { unfold esizes. simpl. lia. }
  intros nd _ _ _. cbn iota. by apply wp_ret.
Qed.

Lemma esizes_fmap es : esizes es = sum_list (esize <$> es).
Proof. induction es as [|e es IH]; [done|]. rewrite esizes_cons, IH. done. Qed.

(** After a removal the places of the other entries are the same, or their
    block is blank. *)
Lemma removed_place bess l bess' i pre rest : removed bess l bess' -> bess !! i = Some (pre ++ rest) ->
  bess' !! i = Some [] \/ exists pre' rest', bess' !! i = Some (pre' ++ rest') /\ esizes pre' = esizes pre /\ length rest' = length rest.
Proof.
  intros (p & q & Hi & _ & _ & ->) Hes. destruct (decide (i = l.1.1)) as [->|Hne].
  - rewrite Hi in Hes. injection Hes as Ees. rewrite list_lookup_insert_eq by (by eapply lookup_lt_Some).
    unfold es_rm. destruct (valids (p ++ q)); [by left|]. right. set (es' := p ++ kill l.2 :: q).
    assert (Hsz : esize <$> es' = esize <$> (pre ++ rest)) by (rewrite <- Ees; unfold es'; by rewrite !fmap_app).
    exists (take (length pre) es'), (drop (length pre) es'). rewrite take_drop. split; [done|].
    assert (Hlen : length es' = (length pre + length rest)%nat).
    { apply (f_equal length) in Hsz. by rewrite !length_fmap, length_app in Hsz. }
    split; [|rewrite length_drop; lia]. rewrite !esizes_fmap. f_equal.
    rewrite fmap_take, Hsz, <- fmap_take, take_app_length. done.
  - right. exists pre, rest. rewrite list_lookup_insert_ne by done. done.
Qed.

(** Two entries of one key: [lnew] replaces [lold]. *)
Record twice bess (lold lnew : loc) (T : list loc) : Prop := mkTwice {
  tw_perm : vlocs bess ≡ₚ lold :: T;
  tw_keys : NoDup (lkey <$> T);
  tw_new : lnew ∈ T;
  tw_key : lkey lnew = lkey lold;
  tw_ver : e_ver lnew.2 = next_ver (e_ver lold.2);
}.

Lemma twice_ne bess lold lnew T : twice bess lold lnew T -> lold <> lnew.
Proof.
  intros Ht E. pose proof (tw_ver _ _ _ _ Ht) as Hv. rewrite E in Hv. unfold next_ver in Hv. destruct (Z.eqb_spec (e_ver lnew.2) 255); lia.
Qed.

Lemma keys_inj (T : list loc) l l' : NoDup (lkey <$> T) -> l ∈ T -> l' ∈ T -> lkey l = lkey l' -> l = l'.
Proof.
  intros Hnd Hl Hl' E. apply list_elem_of_lookup in Hl as [i Hi], Hl' as [j Hj]. assert (i = j) as ->; [|congruence].
  apply (NoDup_lookup (lkey <$> T) i j (lkey l)); [done | by rewrite list_lookup_fmap, Hi | by rewrite list_lookup_fmap, Hj, E].
Qed.

Lemma twice_nodup bess lold lnew T : twice bess lold lnew T -> NoDup (vlocs bess).
Proof.
  intros Ht. rewrite (tw_perm _ _ _ _ Ht). constructor; [|by eapply NoDup_fmap_1, Ht]. intros Hin.
  apply (twice_ne _ _ _ _ Ht). apply (keys_inj T); [apply Ht | done | apply Ht | symmetry; apply Ht].
Qed.

Lemma twice_pair bess lold lnew T l l' : twice bess lold lnew T -> l ∈ vlocs bess -> l' ∈ vlocs bess -> l <> l' -> lkey l = lkey l' ->
  l = lold /\ l' = lnew \/ l = lnew /\ l' = lold.
Proof.
  intros Ht Hl Hl' Hne Hk. rewrite (tw_perm _ _ _ _ Ht) in Hl, Hl'. pose proof (tw_key _ _ _ _ Ht) as Hk'.
  apply elem_of_cons in Hl as [->|Hl], Hl' as [->|Hl'].
  - done.
  - left. split; [done|]. apply (keys_inj T); [apply Ht | done | apply Ht | congruence].
  - right. split; [|done]. apply (keys_inj T); [apply Ht | done | apply Ht | congruence].
  - destruct Hne. apply (keys_inj T); [apply Ht | done..].
Qed.

(** The entry is met whose key is there twice. *)
Lemma wp_inner_start_hit s bess lold lnew T i pre e rest n Q :
  flash_rep s bess -> twice bess lold lnew T -> bess !! i = Some (pre ++ e :: rest) -> e_valid e = true -> (i + n = length bess)%nat ->
  e_key e = lkey lold -> lold ∈ rem bess i (esizes pre) (e :: rest) -> lnew ∈ rem bess i (esizes pre) (e :: rest) ->
  (forall s' bess', done_post s bess lold s' bess' -> Q tt s') ->
  wp (verify_blocks_2 n (node_at i (esizes pre) e) i i) Q s.
Proof.
  intros Hf Ht Hi Hv Hn Hk Hold Hnew HQ. set (l1 := (i, esizes pre, e)).
  assert (Hnext : (esizes pre + esize e)%nat = esizes (pre ++ [e])) by (rewrite esizes_app; unfold esizes; simpl; lia).
  assert (Hsub : forall l, l ∈ rem bess i (esizes pre) (e :: rest) -> l ∈ vlocs bess) by (intros l; by apply rem_vlocs).
  rewrite rem_cons, Hv in Hold, Hnew, Hsub. fold l1 in Hold, Hnew, Hsub.
  assert (H1 : l1 ∈ vlocs bess) by (apply Hsub, elem_of_cons; by left).
  assert (Hnot : l1 ∉ rem bess i (esizes pre + esize e) rest).
  { destruct (vlocs_suffix bess i _ pre (e :: rest) Hi eq_refl) as [front Hsuf]. pose proof (twice_nodup _ _ _ _ Ht) as Hnd.
    rewrite Hsuf, rem_cons, Hv in Hnd. apply NoDup_app in Hnd as (_ & _ & Hnd). simpl in Hnd. by apply NoDup_cons in Hnd as [? _]. }
  assert (Hother : exists l2, l2 ∈ rem bess i (esizes pre + esize e) rest /\ lkey l2 = e_key e /\ replaced l1 l2 lold).
  { destruct (decide (lkey l1 = lkey lold)) as [_|[]]; [|done]. simpl in Hold, Hnew.
    apply elem_of_cons in Hold as [Eo|Hold].
    - apply elem_of_cons in Hnew as [En|Hnew]; [destruct (twice_ne _ _ _ _ Ht); congruence|].
      exists lnew. split; [done|]. split; [rewrite (tw_key _ _ _ _ Ht); congruence|]. left. rewrite <- Eo. split; [done | apply Ht].
    - assert (Hne : l1 <> lold) by (intros E; by rewrite E in Hnot).
      exists lold. split; [done|]. split; [congruence|]. right. split; [done|].
      destruct (twice_pair _ _ _ _ l1 lold Ht H1) as [[? ?]|[-> _]]; [by apply Hsub, elem_of_cons; right | done | done | done | apply Ht]. }
  destruct Hother as (l2 & H2 & Hk2 & Hrep). rewrite Hnext in *.
  assert (Hne : l1 <> l2) by (intros E; by rewrite E in Hnot).
  assert (H2v : l2 ∈ vlocs bess) by (apply Hsub, elem_of_cons; by right).
  apply (wp_inner_blocks_hit s bess i (esizes pre) e l2 lold Q Hf H1 Hk2 Hne Hrep HQ n i (pre ++ [e]) rest); [done | done | by rewrite <- app_assoc | | done |].
  - rewrite Nat.eqb_refl. exact Hnext.
  - intros l Hl Hlk. pose proof (twice_ne _ _ _ _ Ht).
    assert (Hlv : l ∈ vlocs bess) by (apply Hsub, elem_of_cons; by right).
    assert (l1 <> l) by (intros E; by rewrite E in Hnot).
    destruct (twice_pair _ _ _ _ l1 l Ht H1 Hlv) as [[? ?]|[? ?]]; [done | done | |];
      (destruct (twice_pair _ _ _ _ l1 l2 Ht H1 H2v) as [[? ?]|[? ?]]; [done | done | |]); congruence.
Qed.

Lemma done_nodup s bess lold lnew T s' bess' : twice bess lold lnew T -> done_post s bess lold s' bess' -> vlocs bess' ≡ₚ T /\ NoDup (lkey <$> vlocs bess').
Proof.
  intros Ht (_ & _ & _ & Hrm). apply removed_vlocs in Hrm. rewrite (tw_perm _ _ _ _ Ht) in Hrm. apply Permutation_cons_inv in Hrm.
  split; [by symmetry|]. rewrite <- Hrm. apply Ht.
Qed.

Lemma rem_nodup bess i pre rest : bess !! i = Some (pre ++ rest) -> NoDup (lkey <$> vlocs bess) ->
  NoDup (lkey <$> rem bess i (esizes pre) rest).
Proof.
  intros Hi Hnd. destruct (vlocs_suffix bess i _ pre rest Hi eq_refl) as [front Hs]. rewrite Hs, fmap_app in Hnd.
  by apply NoDup_app in Hnd as (_ & _ & Hnd).
Qed.

(** After the removal the rest of the block is passed. *)
Lemma wp_outer_nodes_after s bess lold lnew T s' bess' i b pre rest fuel n node Q :
  twice bess lold lnew T -> done_post s bess lold s' bess' -> bess !! i = Some (pre ++ rest) -> blocks s !! i = Some b ->
  (esizes pre <= bsize b)%nat -> (i + n = length bess)%nat -> (length rest < fuel)%nat -> Q tt s' ->
  wp (verify_nodes_1 fuel n i (esizes pre) node) Q s'.
Proof.
  intros Ht Hd Hi Hb Hle Hn Hfuel HQ. destruct (done_nodup _ _ _ _ _ _ _ Ht Hd) as [_ Hnd]. destruct Hd as (Hf' & _ & Hsz & Hrm).
  pose proof (removed_length _ _ _ Hrm) as Hlen. pose proof (lookup_lt_Some _ _ _ Hi) as Hlt.
  destruct (lookup_lt_is_Some_2 bess' i) as [es' Hes']; [by rewrite Hlen|].
  destruct (flash_lookup _ _ _ _ Hf' Hes') as (b' & Hb' & _). pose proof (block_size _ _ _ _ _ Hsz Hb Hb') as Hbs.
  destruct (removed_place _ _ _ _ _ _ Hrm Hi) as [He|(pre' & rest' & He & Hp & Hl)].
  - apply (wp_outer_nodes_empty s' bess' i b'); [done | done | done | lia | lia | done].
  - rewrite <- Hp. apply (wp_outer_nodes_none s' bess' i b' n Q Hf' Hb' ltac:(lia) HQ rest'); [done | lia|]. by apply rem_nodup.
Qed.

Lemma wp_outer_nodes s bess lold lnew T i b n Q : flash_rep s bess -> twice bess lold lnew T -> blocks s !! i = Some b ->
  (i + n = length bess)%nat -> (forall s' bess', done_post s bess lold s' bess' -> Q tt s') ->
  forall rest pre fuel node, bess !! i = Some (pre ++ rest) -> (length rest < fuel)%nat ->
  lold ∈ rem bess i (esizes pre) rest -> lnew ∈ rem bess i (esizes pre) rest ->
  (lold ∈ rem bess i (esizes (pre ++ rest)) [] -> lnew ∈ rem bess i (esizes (pre ++ rest)) [] -> Q tt s) ->
  wp (verify_nodes_1 fuel n i (esizes pre) node) Q s.
Proof.
  intros Hf Ht Hb Hn HQ. induction rest as [|e rest IH]; intros pre fuel node Hi Hfuel Ho Hw Hno;
    (destruct fuel as [|fuel]; [simpl in Hfuel; lia|]); cbn [verify_nodes_1]; apply wp_bind;
    destruct (flash_lookup _ _ _ _ Hf Hi) as (b' & Hb' & Hr); rewrite Hb in Hb'; injection Hb' as <-;
    pose proof (br_offset _ _ Hr) as Hof; pose proof (br_room _ _ Hr) as Hroom.
  - rewrite app_nil_r in *. apply (wp_search_end i b pre); [done | done | lia|]. intros nd _ _ _. cbn iota. by apply wp_ret, Hno.
  - apply (wp_search_at i b pre e rest); [done..|]. cbn iota. rewrite NODE_VAILD_at. cbn [next_offset node_at].
    assert (Hnext : (esizes pre + esize e)%nat = esizes (pre ++ [e])) by (rewrite esizes_app; unfold esizes; simpl; lia).
    assert (Happ : pre ++ e :: rest = (pre ++ [e]) ++ rest) by (by rewrite <- app_assoc).
    simpl in Hfuel.
    assert (Hskip : lold ∈ rem bess i (esizes pre + esize e) rest -> lnew ∈ rem bess i (esizes pre + esize e) rest ->
      wp (verify_nodes_1 fuel n i (esizes pre + esize e) (node_at i (esizes pre) e)) Q s).
    { rewrite Hnext. intros Ho' Hw'. rewrite Happ in *. by apply IH; [|lia|..]. }
    pose proof (rem_vlocs bess i pre (e :: rest)) as Hsub.
    rewrite rem_cons in Ho, Hw. apply wp_bind. unfold when. destruct (e_valid e) eqn:Ev; [|by apply wp_ret, Hskip].
    destruct (decide (e_key e = lkey lold)) as [Hk|Hk].
    + apply (wp_inner_start_hit s bess lold lnew T i pre e rest); [done..| | |]; [by rewrite rem_cons, Ev | by rewrite rem_cons, Ev|].
      intros s' bess' Hd. rewrite Hnext. rewrite Happ in *. rewrite esizes_app in Hof.
      apply (wp_outer_nodes_after s bess lold lnew T s' bess' i b _ rest); try done; [lia | lia |]. by apply (HQ s' bess').
    + assert (Hne : forall l, lkey l = lkey lold -> l ∈ [(i, esizes pre, e)] ++ rem bess i (esizes pre + esize e) rest ->
        l ∈ rem bess i (esizes pre + esize e) rest).
      { intros l Hlk Hl. simpl in Hl. apply elem_of_cons in Hl as [->|Hl]; [by destruct Hk | done]. }
      apply (wp_inner_start_none s bess i pre e rest); [done..| |].
      * intros l Hl Hlk.
        assert (Hlv : l ∈ vlocs bess) by (apply Hsub; [done|]; rewrite rem_cons, Ev; apply elem_of_cons; by right).
        assert (H1 : (i, esizes pre, e) ∈ vlocs bess) by (apply Hsub; [done|]; rewrite rem_cons, Ev; apply elem_of_cons; by left).
        pose proof (tw_key _ _ _ _ Ht) as Hkk.
        destruct (twice_pair _ _ _ _ l (i, esizes pre, e) Ht Hlv H1) as [[-> E]|[-> E]]; [|done|congruence|congruence].
        intros E. subst l. destruct (vlocs_suffix bess i _ pre (e :: rest) Hi eq_refl) as [front Hs].
        pose proof (twice_nodup _ _ _ _ Ht) as Hnd. rewrite Hs, rem_cons, Ev in Hnd. apply NoDup_app in Hnd as (_ & _ & Hnd).
        simpl in Hnd. by apply NoDup_cons in Hnd as [? _].
      * apply Hskip; apply Hne; [done | done | apply Ht | done].
Qed.

(** The loop over the blocks. *)
Lemma wp_outer_blocks_none s bess Q : flash_rep s bess -> NoDup (lkey <$> vlocs bess) -> Q tt s ->
  forall n i, (i + n = length bess)%nat -> wp (verify_blocks_1 n i) Q s.
Proof.
  intros Hf Hnd HQ. induction n as [|n IH]; intros i Hn; cbn [verify_blocks_1]; [by apply wp_ret|].
  destruct (lookup_lt_is_Some_2 bess i) as [es Hes]; [lia|]. destruct (flash_lookup _ _ _ _ Hf Hes) as (b & Hb & _).
  pose proof (nodes_fuel _ _ _ _ _ Hf Hes Hb). apply wp_bind, (wp_block_get i b); [done|]. apply wp_bind.
  change 0%nat with (esizes []). apply (wp_outer_nodes_none s bess i b (S n) _ Hf Hb Hn (IH (S i) ltac:(lia)) es []); [done | lia|].
  by apply (rem_nodup bess i [] es).
Qed.

Lemma wp_outer_blocks s bess lold lnew T Q : flash_rep s bess -> twice bess lold lnew T ->
  (forall s' bess', done_post s bess lold s' bess' -> Q tt s') ->
  forall n i es, (i + n = length bess)%nat -> bess !! i = Some es -> lold ∈ rem bess i 0 es -> lnew ∈ rem bess i 0 es ->
  wp (verify_blocks_1 n i) Q s.
Proof.
  intros Hf Ht HQ. induction n as [|n IH]; intros i es Hn Hes Ho Hw; [apply lookup_lt_Some in Hes; lia|]. cbn [verify_blocks_1].
  destruct (flash_lookup _ _ _ _ Hf Hes) as (b & Hb & _). pose proof (nodes_fuel _ _ _ _ _ Hf Hes Hb).
  apply wp_bind, (wp_block_get i b); [done|]. apply wp_bind. change 0%nat with (esizes []).
  apply (wp_outer_nodes s bess lold lnew T i b (S n) _ Hf Ht Hb Hn) with (rest := es); [|done|lia|done|done|].
  - intros s' bess' Hd. destruct (done_nodup _ _ _ _ _ _ _ Ht Hd) as [_ Hnd]. pose proof Hd as (Hf' & _ & _ & Hrm).
    apply (wp_outer_blocks_none s' bess'); [done | done | by apply (HQ s' bess') | rewrite (removed_length _ _ _ Hrm); lia].
  - simpl. intros Ho' Hw'. assert (Hlt : (S i < length bess)%nat).
    { destruct (decide (S i < length bess)%nat); [done|]. rewrite rem_end in Ho' by lia. by apply elem_of_nil in Ho'. }
    destruct (lookup_lt_is_Some_2 bess (S i) Hlt) as [es' Hes']. rewrite (rem_next bess i es' _ Hes') in Ho', Hw'.
    by apply (IH (S i) es'); [lia|..].
Qed.

(** [kv_verify] without and with a key that is there twice. *)
Lemma wp_kv_verify_none s bess Q : flash_rep s bess -> NoDup (lkey <$> vlocs bess) -> Q tt s -> wp kv_verify Q s.
Proof.
  intros Hf Hnd HQ. unfold kv_verify, block_num. apply wp_bind, wp_bind, wp_gets, wp_ret.
  apply (wp_outer_blocks_none s bess); [done..|]. by rewrite (Forall2_length _ _ _ Hf).
Qed.

Lemma wp_kv_verify_twice s bess lold lnew T Q : flash_rep s bess -> twice bess lold lnew T ->
  (forall s' bess', done_post s bess lold s' bess' -> Q tt s') -> wp kv_verify Q s.
Proof.
  intros Hf Ht HQ. unfold kv_verify, block_num. apply wp_bind, wp_bind, wp_gets, wp_ret. rewrite (Forall2_length _ _ _ Hf).
  assert (Hold : lold ∈ vlocs bess) by (rewrite (tw_perm _ _ _ _ Ht); apply elem_of_cons; by left).
  assert (Hnew : lnew ∈ vlocs bess) by (rewrite (tw_perm _ _ _ _ Ht); apply elem_of_cons; right; apply Ht).
  destruct bess as [|es r] eqn:E; [by apply elem_of_nil in Hold|]. rewrite <- E in *.
  assert (Hes : bess !! 0%nat = Some es) by (by rewrite E).
  assert (Hrem : vlocs bess = rem bess 0 0 es) by (rewrite E; unfold vlocs, rem; simpl; by rewrite only_valid_app).
  rewrite Hrem in Hold, Hnew. by apply (wp_outer_blocks s bess lold lnew T Q Hf Ht HQ (length bess) 0 es).
Qed.
End Verify.

(** * Start-up of the store

    [kvblock_init] counts what a block holds and erases a block without valid
    entries that is not blank.  [init_blocks] does so for all blocks. *)

(** ** Counting *)

Record counted (b : kvblock_t) (es : list entry) : Prop := mkCounted {
  cn_offset : write_offset b = esizes es;
  cn_count : count b = length (valids es);
  cn_kv : kv_size b = esizes (valids es);
  cn_dirty : dirty_size b = esizes (invalids es);
  cn_ro : ro_count b = 0%nat;
}.

Lemma counted_rep b es : mem_rep (mem b) (bsize b) es -> counted b es -> (bsize b mod 4 = 0)%nat -> Z.of_nat (bsize b) <= 2 ^ 15 ->
  block_rep b es.
Proof. intros [Ho Hm Hr] [Hw ? ? ? ?] H1 H2. constructor; rewrite ?Hw; done. Qed.

Lemma with_block_twice i b b' s : with_block i b (with_block i b' s) = with_block i b s.
Proof. unfold with_block. simpl. by rewrite list_insert_insert_eq. Qed.

Lemma lookup_with_block i b s b0 : blocks s !! i = Some b0 -> blocks (with_block i b s) !! i = Some b.
Proof. intros Hb. apply list_lookup_insert_eq. by eapply lookup_lt_Some. Qed.

Lemma align4_id x : (x mod 4 = 0)%nat -> align4 x = x.
Proof. intros Hx. unfold align4. by rewrite Hx. Qed.

(** One entry is counted. *)
Lemma wp_iter_calc i b pre e Q s : blocks s !! i = Some b -> counted b pre ->
  (forall b', mem b' = mem b -> bsize b' = bsize b -> counted b' (pre ++ [e]) -> Q 0 (with_block i b' s)) ->
  wp (iter_calc (node_at i (esizes pre) e)) Q s.
Proof.
  intros Hb [Hw Hc Hk Hd Hr] HQ. unfold iter_calc. cbn [next_offset head_offset node_block rw node_at].
  replace (esizes pre + esize e - esizes pre)%nat with (esize e) by lia. rewrite NODE_VAILD_at.
  assert (Hal : align4 (esizes pre + esize e) = esizes (pre ++ [e])).
  { replace (esizes pre + esize e)%nat with (esizes (pre ++ [e])) by (rewrite esizes_app; unfold esizes; simpl; lia).
    apply align4_id, esizes_mod. }
  rewrite Hal. change (1 =? 0) with false. cbn iota. apply wp_bind, (wp_block_get i b); [done|].
  destruct (e_valid e) eqn:Ev; (apply wp_bind, wp_block_put, wp_bind; eapply wp_block_get; [by eapply lookup_with_block|]);
    apply wp_bind, wp_block_put, wp_ret; cbn [mem bsize kv_size dirty_size count ro_count]; rewrite with_block_twice;
    (apply HQ; [done | done|]); constructor; cbn [write_offset kv_size dirty_size count ro_count];
    rewrite ?valids_app, ?invalids_app, ?valids_cons, ?invalids_cons, ?Ev, ?length_app, ?esizes_app, ?Hc, ?Hk, ?Hd; try done;
    unfold esizes; simpl; lia.
Qed.

(** [kvblock_iter] with [_iter_calc]. *)
Lemma wp_calc_iter i : forall rest pre fuel node s b Q,
  blocks s !! i = Some b -> mem_rep (mem b) (bsize b) (pre ++ rest) -> counted b pre -> (length rest < fuel)%nat ->
  (forall b', mem b' = mem b -> bsize b' = bsize b -> counted b' (pre ++ rest) -> Q 0 (with_block i b' s)) ->
  wp (iter_loop fuel i NODE_ALL iter_calc (esizes pre) node) Q s.
Proof.
  induction rest as [|e rest IH]; intros pre fuel node s b Q Hb Hr Hc Hfuel HQ; (destruct fuel as [|fuel]; [simpl in Hfuel; lia|]);
    cbn [iter_loop]; apply wp_bind.
  - rewrite app_nil_r in Hr, HQ. apply (wp_search_mem_end i b pre); [done | done | pose proof (mr_room _ _ _ Hr); lia|].
    intros n _ _ _. cbn iota. apply wp_ret. replace s with (with_block i b s); [by apply HQ|].
    unfold with_block. rewrite list_insert_id by done. by destruct s.
  - apply (wp_search_mem_at i b pre e rest); [done..|]. cbn iota. change (negb NODE_ALL || _) with true. cbn iota.
    apply wp_bind, (wp_iter_calc i b pre e); [done..|]. intros b' Hm Hs Hc'. change (0 =? 0) with true. cbn iota.
    cbn [next_offset node_at].
    replace (esizes pre + esize e)%nat with (esizes (pre ++ [e])) by (rewrite esizes_app; unfold esizes; simpl; lia).
    apply (IH (pre ++ [e]) fuel _ _ b'); [by eapply lookup_with_block | by rewrite <- app_assoc, Hm, Hs | done | simpl in Hfuel; lia|].
    intros b2 Hm2 Hs2 Hc2. rewrite with_block_twice. apply HQ; [congruence | congruence|]. by rewrite <- app_assoc in Hc2.
Qed.

(** The words of erased memory, and the search for written ones. *)
Lemma word_free m size es v : mem_rep m size es -> (esizes es <= v)%nat -> (v + 4 <= size)%nat -> word m v = Some (2 ^ 32 - 1).
Proof.
  intros [Ho Hm Hr] Hv Hs. assert (H : forall j, (v <= j < v + 4)%nat -> m !! j = Some 0xff).
  { intros j Hj. rewrite Hm, lookup_app_r by (rewrite flat_length by done; lia). apply lookup_replicate.
    rewrite flat_length by done. split; [done | lia]. }
  unfold word. rewrite !H by lia. done.
Qed.

Lemma calc_tail_free m size es : mem_rep m size es -> (512 <= size)%nat -> forall fuel v off,
  (esizes es <= v)%nat -> (512 <= v + 4 * fuel)%nat -> (0 < fuel)%nat -> calc_tail fuel m (2 ^ 32 - 1) v off = Some off.
Proof.
  intros Hr Hs. induction fuel as [|fuel IH]; intros v off Hv Hf H0; [lia|]. cbn [calc_tail].
  destruct (Nat.ltb_spec v (512 - 4)); [|done]. rewrite (word_free m size es) by (done || lia). cbn [mbind option_bind].
  rewrite Z.eqb_refl. apply IH; lia.
Qed.

Lemma word_total m i : (i + 4 <= length m)%nat -> exists w, word m i = Some w.
Proof.
  intros Hi. unfold word. destruct (lookup_lt_is_Some_2 m i) as [a ->]; [lia|].
  destruct (lookup_lt_is_Some_2 m (i + 1)) as [b ->]; [lia|]. destruct (lookup_lt_is_Some_2 m (i + 2)) as [c ->]; [lia|].
  destruct (lookup_lt_is_Some_2 m (i + 3)) as [d ->]; [lia|]. eauto.
Qed.

Lemma uniform_total m size : length m = size -> (4 <= size)%nat -> exists r, uniform m size = Some r.
Proof.
  intros Hl Hs. unfold uniform. destruct (word_total m 0) as [v0 ->]; [lia|]. cbn [mbind option_bind].
  assert (H : forall js, Forall (fun j => (4 * j + 4 <= length m)%nat) js ->
    exists r, foldr (fun j acc => a ← acc; w ← word m (4 * j); Some (a && (w =? v0))) (Some true) js = Some r).
  { induction 1 as [|j js Hj _ [r IH]]; [by exists true|]. cbn [foldr]. rewrite IH. destruct (word_total m (4 * j) Hj) as [w ->].
    cbn [mbind option_bind]. eauto. }
  apply H, Forall_forall. intros j Hj. apply elem_of_seq in Hj. pose proof (Nat.Div0.mul_div_le size 4). lia.
Qed.

Section Init.
Context `{NorFlash}.
Implicit Types (s : kv_t) (bess : list (list entry)) (M : gmap (list Z) (list Z)).

(** What a block holds after it was read: the same, unless nothing is valid. *)
Definition kept (es es' : list entry) : Prop := es' = es \/ valids es = [] /\ es' = [].

Lemma wp_kvblock_calc i b es Q s : blocks s !! i = Some b -> write_offset b = 0%nat -> mem_rep (mem b) (bsize b) es ->
  (512 <= bsize b)%nat ->
  (forall b', mem b' = mem b -> bsize b' = bsize b -> counted b' es -> Q tt (with_block i b' s)) ->
  wp (kvblock_calc i) Q s.
Proof.
  intros Hb Hw Hr Hs HQ. pose proof (mr_room _ _ _ Hr) as Hroom. unfold kvblock_calc.
  apply wp_bind, (wp_block_get i b); [done|]. rewrite Hw. apply wp_bind, wp_block_put. apply wp_bind. unfold kvblock_iter.
  apply wp_bind. eapply wp_block_get; [by eapply lookup_with_block|]. cbn [bsize].
  pose proof (length_esizes es). set (b1 := mkBlock (mem b) (bsize b) 0 0 0 0 0).
  apply (wp_calc_iter i es [] _ _ _ b1); [by eapply lookup_with_block | done | by constructor | lia|].
  intros b2 Hm2 Hs2 Hc2. cbn [mem bsize app b1] in Hm2, Hs2, Hc2. rewrite with_block_twice. apply wp_bind. eapply wp_block_get; [by eapply lookup_with_block|].
  rewrite Hm2, Hs2, (cn_offset _ _ Hc2). apply wp_bind. eapply wp_lift; [apply (word_free _ _ _ _ Hr); lia|].
  apply wp_bind. eapply wp_lift; [apply (calc_tail_free _ _ _ Hr Hs); lia|].
  apply wp_block_put. rewrite with_block_twice. apply HQ; [done | done|]. by destruct Hc2.
Qed.

Lemma wp_kvblock_init i b m size es Q s : blocks s !! i = Some b -> write_offset b = 0%nat -> mem_rep m size es ->
  (512 <= size)%nat -> (size mod 4 = 0)%nat -> Z.of_nat size <= 2 ^ 15 ->
  (forall b' es', block_rep b' es' -> bsize b' = size -> kept es es' -> Q tt (with_block i b' s)) ->
  wp (kvblock_init i m size) Q s.
Proof.
  intros Hb Hw Hr Hs Hm4 Hs15 HQ. unfold kvblock_init. apply wp_bind, (wp_block_get i b); [done|]. apply wp_bind, wp_block_put.
  apply wp_bind. eapply (wp_kvblock_calc i _ es); [by eapply lookup_with_block | done..|]. intros b1 Hm1 Hs1 Hc1.
  cbn [mem bsize] in Hm1, Hs1. rewrite with_block_twice. apply wp_bind. eapply wp_block_get; [by eapply lookup_with_block|].
  assert (Hr1 : block_rep b1 es) by (apply counted_rep; rewrite ?Hm1, ?Hs1; done).
  destruct (Nat.eqb_spec (count b1) 0) as [Hz|]; [|apply wp_ret, (HQ b1 es); [done | done | by left]].
  rewrite Hm1, Hs1. pose proof (mr_length _ _ _ Hr) as Hl. destruct (uniform_total m size Hl) as [u Hu]; [lia|].
  destruct (word_total m 0) as [v0 Hv0]; [lia|].
  apply wp_bind, (wp_lift _ u); [done|]. apply wp_bind, (wp_lift _ v0); [done|].
  assert (Hgc : wp (kvblock_gc i) Q (with_block i b1 s)).
  { unfold kvblock_gc, block_erase. apply wp_bind, wp_bind. eapply wp_block_get; [by eapply lookup_with_block|].
    apply wp_block_put, wp_bind. rewrite with_block_twice. eapply wp_block_get; [by eapply lookup_with_block|].
    apply wp_block_put. rewrite with_block_twice. cbn [mem bsize ro_count set_mem]. rewrite nor_erase, Hm1, Hs1, Hl, (cn_ro _ _ Hc1).
    apply (HQ _ []); [apply block_rep_empty; done || lia | done|]. right. split; [|done].
    apply nil_length_inv. by rewrite <- (cn_count _ _ Hc1). }
  destruct u; cbn [negb]; [|done]. destruct (v0 =? 0); [done|]. apply wp_ret, (HQ b1 es); [done | done | by left].
Qed.
End Init.
