(* ===== verification/KvBoot.v ===== *)
(** * Start-up of the store: [kv_init]

    From the contents of the flash memory [kv_init] builds a store that holds
    the map of the valid entries, with the newer one of two entries of the
    same key. *)

From stdpp Require Import gmap functions.
From S2P Require Import Prelude.
From S2P Require Import Monad.
From S2P Require Import KvBlock.
From S2P Require Import KvSet.
From S2P Require Import KvRep.
From S2P Require Import KvStore.
From S2P Require Import KvOps.
From S2P Require Import KvGc.
From S2P Require Import KvVerify.

Section Boot.
Context `{NorFlash}.
Implicit Types (s : kv_t) (bess : list (list entry)) (M : gmap (list Z) (list Z)).

(** ** The blocks *)

Lemma kept_vlocs ess bess i : Forall2 kept ess bess -> only_valid (locs_of i bess) = only_valid (locs_of i ess).
Proof.
  intros Hk. revert i. induction Hk as [|es es' ess bess Hk _ IH]; intros i; [done|]. simpl. rewrite !only_valid_app, IH. f_equal.
  destruct Hk as [->|[Hn ->]]; [done|]. by rewrite (only_valid_none i 0 es).
Qed.

(** The current block and the block kept free, among [n] blocks. *)
Definition ids_ok (n : nat) s : Prop := (bid s = 0%nat \/ (bid s < n)%nat) /\ -1 <= gc_bid s < Z.of_nat n.

Lemma ids_ok_mono n m s : ids_ok n s -> (n <= m)%nat -> ids_ok m s.
Proof. unfold ids_ok. lia. Qed.

Lemma wp_init_blocks size : (512 <= size)%nat -> (size mod 4 = 0)%nat -> Z.of_nat size <= 2 ^ 15 ->
  forall mems ess, Forall2 (fun m es => mem_rep m size es) mems ess -> forall bs bess gc_size s Q,
  blocks s = bs ++ replicate (length mems) block0 -> Forall2 block_rep bs bess -> ids_ok (length bs) s ->
  (forall s' bess', flash_rep s' (bess ++ bess') -> Forall2 kept ess bess' -> ids_ok (length bs + length mems) s' -> Q tt s') ->
  wp (init_blocks mems size (length bs) gc_size) Q s.
Proof.
  intros Hs512 Hs4 Hs15. induction 1 as [|m es mems ess Hm _ IH]; intros bs bess gc_size s Q Hb Hbs Hid HQ; cbn [init_blocks].
  { apply wp_ret, (HQ s []); [|done|by rewrite Nat.add_0_r]. unfold flash_rep. by rewrite Hb, !app_nil_r. }
  simpl in Hb.
  assert (Hi : blocks s !! length bs = Some block0) by (rewrite Hb; by apply list_lookup_middle).
  apply wp_bind, (wp_kvblock_init _ block0 m size es); [done..|]. intros b' es' Hr Hsz Hk.
  apply wp_bind, (wp_block_get _ b'); [by eapply lookup_with_block|].
  assert (Hb' : blocks (with_block (length bs) b' s) = (bs ++ [b']) ++ replicate (length mems) block0).
  { simpl. rewrite Hb, insert_app_r_alt, Nat.sub_diag by done. simpl. by rewrite <- app_assoc. }
  assert (Hbs' : Forall2 block_rep (bs ++ [b']) (bess ++ [es'])) by (apply Forall2_app; [done | by constructor]).
  assert (Hl : length (bs ++ [b']) = S (length bs)) by (rewrite length_app; simpl; lia).
  assert (Hgo : forall gc s1, blocks s1 = (bs ++ [b']) ++ replicate (length mems) block0 -> ids_ok (S (length bs)) s1 ->
    wp (init_blocks mems size (S (length bs)) gc) Q s1).
  { intros gc s1 Hb1 Hid1. rewrite <- Hl. apply (IH (bs ++ [b']) (bess ++ [es'])); [done | done | by rewrite Hl|].
    intros s' bess' Hf' Hk' Hid'. apply (HQ s' (es' :: bess')); [by rewrite <- app_assoc in Hf' | by constructor|].
    rewrite Hl in Hid'. simpl. by replace (length bs + S (length mems))%nat with (S (length bs) + length mems)%nat by lia. }
  unfold ids_ok in Hid. cbv zeta. destruct ((gc_size <=? kvblock_free_size b') && (4 <? kvblock_free_size b')).
  - apply wp_bind. unfold set_gc_bid. apply Hgo; [done|]. unfold ids_ok. simpl. lia.
  - apply wp_bind, wp_gets, wp_bind. simpl bid. unfold when. destruct (Nat.eqb_spec (bid s) 0); [|apply wp_ret];
      (apply Hgo; [done | unfold ids_ok; simpl; lia]).
Qed.

(** ** The cache *)

Context (realloc_ok : nat -> bool).

(** The cache holds [ls], or there was no memory for it. *)
Definition filled s (ls : list loc) (r : Z) (s' : kv_t) : Prop :=
  (r = 0 /\ exists cs, s' = with_cache cs s /\ live cs ≡ₚ lcache <$> ls) \/ (r = -1 /\ (exists cs, s' = with_cache cs s) /\ exists n, realloc_ok n = false).

Lemma flash_rep_cache s bess cs : flash_rep s bess -> flash_rep (with_cache cs s) bess.
Proof. done. Qed.

Lemma with_cache_twice cs cs' s : with_cache cs (with_cache cs' s) = with_cache cs s.
Proof. done. Qed.

Lemma wp_fill_node s bess cs front l back Q : flash_rep s bess -> Z.of_nat (length bess) <= 2 ^ 15 -> NoDup (vlocs bess) ->
  vlocs bess = front ++ l :: back -> live cs ≡ₚ lcache <$> front ->
  (forall r s', filled s (front ++ [l]) r s' -> Q r s') ->
  wp (iter_cache_node realloc_ok (node_at l.1.1 l.1.2 l.2)) Q (with_cache cs s).
Proof.
  destruct l as [[i off] e]. intros Hf Hn Hnd Hs Hc HQ. cbn [fst snd].
  assert (Hl : (i, off, e) ∈ vlocs bess) by (rewrite Hs; apply elem_of_app; right; apply elem_of_cons; by left).
  destruct (loc_entry _ _ _ _ _ Hf Hl) as (He & Hv & b & pre & post & Hb & Hi & Hr & ->).
  unfold iter_cache_node. rewrite NODE_VAILD_at, Hv. cbn [node_block head_offset node_at].
  apply wp_bind, (loc_bytes (with_cache cs s) bess i (esizes pre) e); [done..|]. intros tl.
  apply wp_bind, (wp_lift _ (e_key e)); [by apply c_string_at, entry_c_str|].
  apply (wp_cache_in realloc_ok).
  - apply (lcache_not_free (i, esizes pre, e)). simpl. apply lookup_lt_Some in Hi. lia.
  - fold (lcache (i, esizes pre, e)). simpl cache. rewrite Hc, list_elem_of_fmap. intros ([[i' o'] e'] & [= _ Ei Eo] & Hl').
    apply Nat2Z.inj in Ei, Eo. subst i' o'.
    assert (e = e') as <-.
    { apply (loc_unique s bess i (esizes pre)); [done | done|]. rewrite Hs. apply elem_of_app. by left. }
    rewrite Hs in Hnd. apply NoDup_app in Hnd as (_ & Hnot & _). apply (Hnot _ Hl'). apply elem_of_cons. by left.
  - intros cs' Hcs'. apply HQ. left. split; [done|]. exists cs'. split; [done|]. rewrite Hcs'. simpl cache. rewrite Hc, fmap_app. simpl.
    by rewrite Permutation_cons_append.
  - intros _ Hre. apply HQ. right. split; [done|]. split; [by exists cs | eauto].
Qed.

Lemma wp_fill_nodes s bess i b Q : flash_rep s bess -> Z.of_nat (length bess) <= 2 ^ 15 -> NoDup (vlocs bess) -> blocks s !! i = Some b ->
  forall rest pre fuel node cs front, bess !! i = Some (pre ++ rest) -> (length rest < fuel)%nat ->
  vlocs bess = front ++ rem bess i (esizes pre) rest -> live cs ≡ₚ lcache <$> front ->
  (forall r s', filled s (front ++ only_valid (locs_from i (esizes pre) rest)) r s' -> Q r s') ->
  wp (iter_loop fuel i NODE_EXISTS (iter_cache_node realloc_ok) (esizes pre) node) Q (with_cache cs s).
Proof.
  intros Hf Hn Hnd Hb. induction rest as [|e rest IH]; intros pre fuel node cs front Hi Hfuel Hs Hc HQ;
    (destruct fuel as [|fuel]; [simpl in Hfuel; lia|]); cbn [iter_loop]; apply wp_bind;
    destruct (flash_lookup _ _ _ _ Hf Hi) as (b' & Hb' & Hr); rewrite Hb in Hb'; injection Hb' as <-.
  - rewrite app_nil_r in Hr. apply (wp_search_end i b pre); [done | done | |].
    { pose proof (br_offset _ _ Hr). pose proof (br_room _ _ Hr). lia. }
    intros nd _ _ _. cbn iota. apply wp_ret, HQ. left. split; [done|]. exists cs. split; [done|]. simpl. by rewrite app_nil_r.
  - apply (wp_search_at i b pre e rest); [done..|]. cbn iota. rewrite NODE_VAILD_at. cbn [next_offset node_at].
    change (negb NODE_EXISTS || e_valid e) with (e_valid e).
    assert (Hnext : (esizes pre + esize e)%nat = esizes (pre ++ [e])) by (rewrite esizes_app; unfold esizes; simpl; lia).
    assert (Happ : pre ++ e :: rest = (pre ++ [e]) ++ rest) by (by rewrite <- app_assoc).
    rewrite rem_cons in Hs. simpl locs_from in HQ. rewrite only_valid_cons in HQ. simpl in HQ. simpl in Hfuel.
    rewrite Hnext in *. rewrite Happ in *. destruct (e_valid e) eqn:Ev.
    + apply wp_bind, (wp_fill_node s bess cs front (i, esizes pre, e) (rem bess i (esizes (pre ++ [e])) rest)); [done..|].
      intros r s' [(-> & cs' & -> & Hc')|(-> & Hcs & Hre)]; cbn iota.
      * change (0 =? 0) with true. cbn iota.
        apply (IH (pre ++ [e]) fuel _ cs' (front ++ [(i, esizes pre, e)])); [done | lia | by rewrite <- app_assoc | done|].
        rewrite <- app_assoc. done.
      * change (-1 =? 0) with false. cbn iota. apply wp_ret, HQ. by right.
    + by apply (IH (pre ++ [e]) fuel _ cs front); [|lia|..].
Qed.

Lemma wp_fill_blocks s bess Q : flash_rep s bess -> Z.of_nat (length bess) <= 2 ^ 15 -> NoDup (vlocs bess) ->
  forall n i es r0 cs front, (i + S n = length bess)%nat -> bess !! i = Some es ->
  vlocs bess = front ++ rem bess i 0 es -> live cs ≡ₚ lcache <$> front ->
  (forall r s', filled s (vlocs bess) r s' -> Q r s') ->
  wp (iter_blocks (iter_cache_node realloc_ok) (S n) i r0) Q (with_cache cs s).
Proof.
  intros Hf Hl Hnd. induction n as [|n IH]; intros i es r0 cs front Hn Hes Hs Hc HQ; cbn [iter_blocks]; apply wp_bind; unfold kvblock_iter;
    destruct (flash_lookup _ _ _ _ Hf Hes) as (b & Hb & _); pose proof (nodes_fuel _ _ _ _ _ Hf Hes Hb);
    apply wp_bind, (wp_block_get i b); try done; change 0%nat with (esizes []);
    apply (wp_fill_nodes s bess i b _ Hf Hl Hnd Hb es []  _ _ cs front); try done; try lia;
    intros r s' Hfill; change (esizes []) with 0%nat in Hfill.
  - assert (E : front ++ only_valid (locs_from i 0 es) = vlocs bess).
    { rewrite Hs. unfold rem. by rewrite (drop_ge bess (S i)), app_nil_r by lia. }
    rewrite E in Hfill. destruct (r =? 0); by apply wp_ret, HQ.
  - destruct Hfill as [(-> & cs' & -> & Hc')|(-> & Hcs & Hre)]; cbn iota.
    + change (0 =? 0) with true. cbn iota. destruct (lookup_lt_is_Some_2 bess (S i)) as [es' Hes']; [lia|].
      apply (IH (S i) es' 0 cs' (front ++ only_valid (locs_from i 0 es))); [lia | done | | done | done].
      rewrite Hs, <- app_assoc. f_equal. rewrite <- (rem_next bess i es' 0 Hes'). unfold rem. done.
    + change (-1 =? 0) with false. cbn iota. apply wp_ret, HQ. by right.
Qed.

(** ** The whole start-up *)

(** What flash memory with the entries [ess] means: [T] are the valid entries,
    without an entry that a newer one replaces. *)
Definition recovers (ess : list (list entry)) (T : list loc) : Prop :=
  (vlocs ess ≡ₚ T /\ NoDup (lkey <$> T)) \/ exists lold lnew, twice ess lold lnew T.

Lemma twice_vlocs ess bess lold lnew T : vlocs bess = vlocs ess -> twice ess lold lnew T -> twice bess lold lnew T.
Proof. intros E [Hp Hk Hn Hkk Hv]. constructor; [by rewrite E | done..]. Qed.

Lemma recovers_nodup bess T : recovers bess T -> NoDup (lkey <$> T).
Proof. intros [[_ Hnd]|(lold & lnew & Ht)]; [done | apply Ht]. Qed.

(** [kv_verify] leaves [T]. *)
Lemma wp_kv_verify s bess T Q : flash_rep s bess -> recovers bess T ->
  (forall s' bess', flash_rep s' bess' -> same_ram s s' -> length bess' = length bess -> vlocs bess' ≡ₚ T -> Q tt s') -> wp kv_verify Q s.
Proof.
  intros Hf [[Hp Hnd]|(lold & lnew & Ht)] HQ.
  - apply (wp_kv_verify_none s bess); [done | by rewrite Hp|]. by apply (HQ s bess).
  - apply (wp_kv_verify_twice s bess lold lnew T); [done..|]. intros s' bess' Hd.
    destruct (done_nodup _ _ _ _ _ _ _ Ht Hd) as [Hp _]. destruct Hd as (Hf' & Hram & _ & Hrm).
    by apply (HQ s' bess'); [|..|eapply removed_length|].
Qed.

Lemma live_free n : live (replicate n free_cache) = [].
Proof. induction n as [|n IH]; [done|]. simpl replicate. rewrite live_cons. done. Qed.

Lemma wp_kv_init cached_size mems ess T size s Q :
  (512 <= size)%nat -> (size mod 4 = 0)%nat -> Z.of_nat size <= 2 ^ 15 -> (0 < length mems)%nat -> Z.of_nat (length mems) <= 2 ^ 15 ->
  Forall2 (fun m es => mem_rep m size es) mems ess -> recovers ess T ->
  (forall s' bess, kv_inv s' bess (list_to_map (lpair <$> T)) -> ids_ok (length mems) s' -> length (blocks s') = length mems -> Q 0 s') ->
  (forall s' bess n, flash_inv s' bess (list_to_map (lpair <$> T)) -> realloc_ok n = false -> Q (-1) s') ->
  wp (kv_init realloc_ok true true cached_size mems size) Q s.
Proof.
  intros Hs512 Hs4 Hs15 Hm0 Hm15 Hrep Hrec Hyes Hno. unfold kv_init. apply wp_bind.
  set (s0 := mkKv (replicate (length mems) block0) 0 (-1) (cache s)). change (wp (modify _) ?P s) with (P tt s0).
  apply wp_bind, (wp_init_blocks size Hs512 Hs4 Hs15 mems ess Hrep [] [] 0 s0); [done | done | unfold ids_ok; simpl; lia|].
  simpl app. simpl length. intros s1 bess1 Hf1 Hk1 Hid1. pose proof (kept_vlocs _ _ 0 Hk1) as Hv1. fold (vlocs bess1) (vlocs ess) in Hv1.
  assert (Hrec1 : recovers bess1 T).
  { destruct Hrec as [[Hp Hnd]|(lold & lnew & Ht)]; [left; by rewrite Hv1 | right; exists lold, lnew; by eapply twice_vlocs]. }
  assert (Hlen1 : length bess1 = length mems) by (by rewrite <- (Forall2_length _ _ _ Hk1), (Forall2_length _ _ _ Hrep)).
  apply wp_bind, (wp_kv_verify s1 bess1 T); [done..|]. intros s2 bess2 Hf2 (Hb2 & Hg2 & _) Hlen2 Hp2.
  pose proof (recovers_nodup _ _ Hrec1) as Hnd. pose proof (Forall2_length _ _ _ Hf2) as Hl2.
  assert (Hfi : forall cs, flash_inv (with_cache cs s2) bess2 (list_to_map (lpair <$> T))).
  { intros cs. constructor; [done | lia | by rewrite Hp2|]. symmetry. by apply content_perm. }
  cbn iota. apply wp_bind. set (cs0 := replicate cached_size free_cache). change (wp (set_cache cs0) ?P s2) with (P tt (with_cache cs0 s2)).
  unfold kv_iter, block_num. apply wp_bind, wp_bind, wp_gets, wp_ret. simpl blocks. rewrite Hl2, Hlen2, Hlen1.
  destruct (length mems) as [|n] eqn:En; [lia|].
  destruct (lookup_lt_is_Some_2 bess2 0) as [es Hes]; [lia|].
  apply (wp_fill_blocks s2 bess2) with (es := es) (front := []).
  - done.
  - lia.
  - apply (NoDup_fmap_1 lkey). by rewrite Hp2.
  - simpl. lia.
  - done.
  - destruct bess2 as [|x r]; [done|]. injection Hes as ->. unfold vlocs, rem. simpl. by rewrite only_valid_app.
  - unfold cs0. by rewrite live_free.
  - intros r s' [(-> & cs & -> & Hc)|(-> & [cs ->] & k & Hre)].
    + apply (Hyes _ bess2).
      * constructor; [apply Hfi | done|]. simpl. unfold ids_ok in Hid1. lia.
      * unfold ids_ok in *. simpl. lia.
      * simpl. lia.
    + by apply (Hno _ bess2 k).
Qed.
End Boot.
