(* ===== verification/Demo.v ===== *)
(** * Concrete runs

    A system of eight tasks, a semaphore, a mutex, an event, a queue and two
    buffer queues, started from
    power-on with the kernel's own operations.  The states it passes through
    satisfy the invariant; they are the inputs of the witnesses. *)

From stdpp Require Import functions.
From S2P Require Import Prelude.
From S2P Require Import Monad.
From S2P Require Import Links.
From S2P Require Import KState.
From S2P Require Import Bitmap.
From S2P Require Import Sched.
From S2P Require Import Pend.
From S2P Require Import Inv.
From S2P Require Import MInv.
From S2P Require Import RingBuf.
From S2P Require Import ObjInv.
From S2P Require Import Resched.
From S2P Require Import Prio.
From S2P Require Import Tick.
From S2P Require Import Sem.
From S2P Require Import Mutex.
From S2P Require Import Event.
From S2P Require Import Queue.
From S2P Require Import BufQueue.
From S2P Require Import Task.
From S2P Require Import Sys.
From S2P Require Import Check.

(** Memory at power-on: everything is zero, except a message of the
    application at address 10. *)
Definition power_on : kstate :=
  mkK (mkL ∅ ∅) (mkRq [] [0; 0] 0) ∅ (mkG RHINO_STOPPED 0 0 0 None None 0 false false)
    (mkObjs ∅ ∅ ∅ ∅ ∅ ∅) (<[10%nat := 1]> (<[11%nat := 2]> (<[12%nat := 3]> ∅))).

Definition mk (t : tid) (pri : Z) : M kstat_t :=
  krhino_task_create (Some t) (Some "task"%string) pri 0 (Some 0%nat) 64 (Some 0%nat) true.

(** Tasks 1 to 7 with priorities 10, 20, 30, 25, 15, 30, 30. *)
Definition boot : M unit :=
  krhino_init (ret tt) (ret tt) ;;
  mk 1 10 ;; mk 2 20 ;; mk 3 30 ;; mk 4 25 ;; mk 5 15 ;; mk 6 30 ;; mk 7 30 ;;
  krhino_sem_create (Some 0%nat) (Some "sem"%string) 0 ;;
  krhino_mutex_create (Some 1%nat) (Some "mutex"%string) ;;
  krhino_event_create (Some 2%nat) (Some "event"%string) 0 ;;
  krhino_queue_create (Some 3%nat) (Some "queue"%string) (Some (100%nat, replicate 16 0)) 4 ;;
  krhino_buf_queue_create (Some 4%nat) (Some "buf"%string) (Some (replicate 32 0)) 32 8 ;;
  krhino_fix_buf_queue_create (Some 5%nat) (Some "fix"%string) (Some (replicate 12 0)) 3 4 ;;
  krhino_start ;;
  ret tt.

(** A tick interrupt. *)
Definition tick_isr : M unit :=
  krhino_intrpt_enter ;; krhino_tick_proc ;; krhino_intrpt_exit.

(** Each call is made by the task that is running at that point: task 1 waits
    for the semaphore, 5 sleeps, 2 sleeps for one tick, 4 waits for the event,
    3 takes the mutex; after the tick, 2 waits for the mutex. *)
Definition script : M unit :=
  krhino_sem_take (Some 0%nat) 5 ;;
  krhino_task_sleep 3 ;;
  krhino_task_sleep 1 ;;
  krhino_event_get (Some 2%nat) 6 RHINO_AND (Some 0%nat) RHINO_WAIT_FOREVER ;;
  krhino_mutex_lock (Some 1%nat) RHINO_WAIT_FOREVER ;;
  tick_isr ;;
  krhino_mutex_lock (Some 1%nat) RHINO_WAIT_FOREVER ;;
  ret tt.

Definition final {T : Type} (m : M T) (s : kstate) : kstate :=
  match m s with Some (_, s') => s' | None => s end.

(** The control block of a task that exists. *)
Definition tcb (s : kstate) (t : tid) : ktask_t :=
  default (new_task 0 0 false K_OBJ_STATIC_ALLOC) (tcbs s !! t).

Definition started : kstate := Eval vm_compute in final boot power_on.
Definition busy : kstate := Eval vm_compute in final script started.

Definition started_queues : list (lid * list tid) :=
  [(LTick, []); (LBlk 0, []); (LBlk 1, []); (LBlk 2, []); (LBlk 3, []); (LBlk 4, []); (LBlk 5, []);
   (LReady 10, [1%nat]); (LReady 15, [5%nat]); (LReady 20, [2%nat]); (LReady 25, [4%nat]); (LReady 30, [3; 6; 7]%nat);
   (LReady 61, [0%nat])].

Definition busy_queues : list (lid * list tid) :=
  [(LTick, [5; 1]%nat); (LBlk 0, [1%nat]); (LBlk 1, [2%nat]); (LBlk 2, [4%nat]); (LBlk 3, []); (LBlk 4, []); (LBlk 5, []);
   (LReady 20, [3%nat]); (LReady 30, [6; 7]%nat); (LReady 61, [0%nat])].

Lemma started_kwf : kwf started (qget started_queues).
Proof. apply (kwf_chk_sound _ _ []). refine (bool_decide_unpack _ _). vm_compute. exact I. Qed.

Lemma busy_kwf : kwf busy (qget busy_queues).
Proof. apply (kwf_chk_sound _ _ [(3%nat, [1%nat])]). refine (bool_decide_unpack _ _). vm_compute. exact I. Qed.

(** After the semaphore is given: task 1 is awake and runs. *)
Definition woke : kstate := Eval vm_compute in final (krhino_sem_give (Some 0%nat)) busy.

Definition woke_queues : list (lid * list tid) :=
  [(LTick, [5%nat]); (LBlk 0, []); (LBlk 1, [2%nat]); (LBlk 2, [4%nat]); (LBlk 3, []); (LBlk 4, []); (LBlk 5, []);
   (LReady 10, [1%nat]); (LReady 20, [3%nat]); (LReady 30, [6; 7]%nat); (LReady 61, [0%nat])].

Lemma woke_kwf : kwf woke (qget woke_queues).
Proof. apply (kwf_chk_sound _ _ [(3%nat, [1%nat])]). refine (bool_decide_unpack _ _). vm_compute. exact I. Qed.

(** Task 1 waits for the queue, then task 3 for the first buffer queue, with
    its buffer at 20 and its length variable at 40; task 6 runs and sends to
    the second buffer queue. *)
Definition receiving : kstate := Eval vm_compute in final
  (krhino_queue_recv (Some 3%nat) RHINO_WAIT_FOREVER (Some 41%nat) ;;
   krhino_buf_queue_recv (Some 4%nat) 9 (Some 20%nat) (Some 40%nat) ;;
   krhino_buf_queue_send (Some 5%nat) (Some 10%nat) 3) woke.

Definition receiving_queues : list (lid * list tid) :=
  [(LTick, [5; 3]%nat); (LBlk 0, []); (LBlk 1, [2%nat]); (LBlk 2, [4%nat]); (LBlk 3, [1%nat]); (LBlk 4, [3%nat]); (LBlk 5, []);
   (LReady 30, [6; 7]%nat); (LReady 61, [0%nat])].

Lemma receiving_kwf : kwf receiving (qget receiving_queues).
Proof. apply (kwf_chk_sound _ _ [(3%nat, [1%nat])]). refine (bool_decide_unpack _ _). vm_compute. exact I. Qed.

(** Task 6 sends 77 to the queue: task 1 runs. *)
Definition received : kstate := Eval vm_compute in final (krhino_queue_back_send (Some 3%nat) 77) receiving.

Definition received_queues : list (lid * list tid) :=
  [(LTick, [5; 3]%nat); (LBlk 0, []); (LBlk 1, [2%nat]); (LBlk 2, [4%nat]); (LBlk 3, []); (LBlk 4, [3%nat]); (LBlk 5, []);
   (LReady 10, [1%nat]); (LReady 30, [6; 7]%nat); (LReady 61, [0%nat])].

Lemma received_kwf : kwf received (qget received_queues).
Proof. apply (kwf_chk_sound _ _ [(3%nat, [1%nat])]). refine (bool_decide_unpack _ _). vm_compute. exact I. Qed.

(** *** The queues of these states *)

Definition queue_at (s : kstate) (o : oid) : kqueue_t :=
  default (mkQueue (ringbuf_init [] 0 0) 0 0 0 0 0) (kqueues (ob s) !! o).
Definition bufq_at (s : kstate) (o : oid) : kbuf_queue_t :=
  default (mkBufq (ringbuf_init [] 0 0) 0 0 0 0 0) (bufqs (ob s) !! o).

Lemma receiving_queue : queue_rep (queue_at receiving 3) [].
Proof.
  split; [|try reflexivity; try (vm_compute; done)..|constructor].
  apply fix_chk_sound. refine (bool_decide_unpack _ _). vm_compute. exact I.
Qed.

Lemma received_queue : queue_rep (queue_at received 3) [].
Proof.
  split; [|try reflexivity; try (vm_compute; done)..|constructor].
  apply fix_chk_sound. refine (bool_decide_unpack _ _). vm_compute. exact I.
Qed.

Lemma receiving_dyn : bufq_rep (bufq_at receiving 4) [].
Proof.
  split; [|reflexivity|vm_compute; done]. change (dyn_rep (bq_ringbuf (bufq_at receiving 4)) []).
  split_and!; [|reflexivity..|constructor]. apply rb_chk_sound. refine (bool_decide_unpack _ _). vm_compute. exact I.
Qed.

Lemma receiving_fix : bufq_rep (bufq_at receiving 5) [[1; 2; 3]].
Proof.
  split; [|reflexivity|vm_compute; done]. change (fix_rep (bq_ringbuf (bufq_at receiving 5)) [[1; 2; 3]]).
  apply fix_chk_sound. refine (bool_decide_unpack _ _). vm_compute. exact I.
Qed.
