(* ===== verification/SpecLpm.v ===== *)
(** * Low-power mode: the theorems

    Sleeping through ticks is invisible to the kernel: the state after
    [lpm_handle] is the one the same number of tick interrupts would have
    left.  The wake-up the board programs lies before every deadline, and the
    OSAL clock is brought forward by the time that passed.  All of it holds
    with the crystal and with the tracked RC oscillator the board is built
    with. *)

From stdpp Require Import functions.
From S2P Require Import Prelude.
From S2P Require Import Monad.
From S2P Require Import Links.
From S2P Require Import KState.
From S2P Require Import Bitmap.
From S2P Require Import Sched.
From S2P Require Import Pend.
From S2P Require Import Inv.
From S2P Require Import Resched.
From S2P Require Import Tick.
From S2P Require Import TimeConv.
From S2P Require Import Lpm.
From S2P Require Import Check.
From S2P Require Import Demo.

Section Handle.
Variable HZ : Z.
Variable cf : config.
Implicit Types (s : kstate) (A : queues) (rd : readings) (w : wakeup) (p : pm_ctx_t) (o : soc_t).

(** [lpm_handle] with what its calls return. *)
Lemma lpm_handle_run rd w p o s A n st o1 k lt o2 :
  kwf s A -> policy p <> LPM_POLICY_NO_POWER_SAVE ->
  aos_kernel_suspend (with_gl (set_primask true (gl s)) s) = Some (n, with_gl (set_primask true (gl s)) s) ->
  sys_soc_suspend HZ cf rd (set_suspend_tick (u32 n) p) o = Some (st, o1) ->
  sys_soc_resume HZ cf w st o1 = Some (k, lt, o2) ->
  lpm_handle HZ cf rd w p o s =
    (when (negb (k =? 0)) (aos_kernel_resume k) ;; critical_exit false ;; ret (set_suspend_tick (u32 n) p, o2))
      (with_gl (set_primask true (gl s)) s).
Proof.
  intros HW Hp Hn Hs Hr. unfold lpm_handle. rewrite (proj2 (Z.eqb_neq _ _) Hp).
  unfold critical_enter, cpu_intrpt_save, bind at 1 2 3, gets, mod_gl, ret at 1. rewrite (kw_mask _ _ HW).
  change (mkK _ _ _ _ _ _) with (with_gl (set_primask true (gl s)) s).
  unfold bind at 1. rewrite Hn, Hs. unfold lift at 1. unfold bind at 1. simpl ret. cbn [ret]. rewrite Hr. done.
Qed.

(** The ticks that passed are made up for, given that none of them lies
    beyond the kernel's answer. *)
Lemma lpm_handle_exact rd w p o s A n st o1 k lt o2 :
  kwf s A -> policy p <> LPM_POLICY_NO_POWER_SAVE ->
  aos_kernel_suspend (with_gl (set_primask true (gl s)) s) = Some (n, with_gl (set_primask true (gl s)) s) ->
  sys_soc_suspend HZ cf rd (set_suspend_tick (u32 n) p) o = Some (st, o1) ->
  sys_soc_resume HZ cf w st o1 = Some (k, lt, o2) -> 0 <= k < 2 ^ 31 -> quiet (k - 1) s A ->
  exists s' A', lpm_handle HZ cf rd w p o s = Some ((set_suspend_tick (u32 n) p, o2), s') /\ kwf s' A' /\
    caught_up k s = Some (tt, s') /\ g_tick_count (gl s') = u64 (g_tick_count (gl s) + k) /\
    A' LTick = filter (fun u => tick_rest (gl s) (tcbs s) u <> k) (A LTick).
Proof.
  intros HW Hp Hn Hs Hr Hk Hq. rewrite (lpm_handle_run _ _ _ _ s A n st o1 k lt o2) by done.
  destruct (Z.eqb_spec k 0) as [->|Hne].
  - exists s, A. split_and!; [|done|done| |].
    + enough (wp (critical_exit false ;; ret (set_suspend_tick (u32 n) p, o2)) (fun r s' => r = (set_suspend_tick (u32 n) p, o2) /\ s' = s)
        (with_gl (set_primask true (gl s)) s)) as (? & ? & Hx & -> & ->)%wp_run by (unfold when, negb, bind at 1, ret at 1; exact Hx).
      apply wp_bind, (wp_exit_noop A); [done|]. by apply wp_ret.
    + rewrite Z.add_0_r, wrap_small; [done|]. apply (kw_gl _ _ HW).
    + symmetry. apply (due_none (gl s)). intros u Hu. pose proof (kg_tick _ _ (kw_good _ _ HW) u Hu). lia.
  - destruct (resume_caught_up k s A HW ltac:(lia) Hq) as (s' & A' & Hc & HW' & Ht & Hg & Hx).
    exists s', A'. split_and!; [|done..]. unfold bind in Hx |- *. simpl. destruct (aos_kernel_resume k _) as [[[] s1]|]; [|done].
    by rewrite Hx.
Qed.
End Handle.

Definition masked (s : kstate) : kstate := with_gl (set_primask true (gl s)) s.

(** ** Concrete values

    The configuration of the board (board_init.c; hal_init switches the
    tracking of the RC oscillator on, clock.c), a quiet time without link
    layer events, an RC oscillator that is 1 percent slow, and a wake-up 26
    RTC ticks after the comparator matched. *)
Definition board : config := mkConfig true 1350 1500 30000000 60 56.
Definition at_rest : readings := mkReadings false 990 1000 0 60000 0 true false 3945 1010.
Definition soc0 : soc_t := mkSoc 0 SYSTEM_SLEEP_MODE false 0 0 0 0 3906 3906 0 0 3 100 600.
Definition pm0 : pm_ctx_t := mkPm 2 0 0 50 10000 0 true.
Definition woken : wakeup := mkWakeup 1640 1642 0 2400 300.
Definition soc1 : soc_t := Eval vm_compute in
  from_option snd soc0 (sys_soc_suspend 100 board at_rest (set_suspend_tick 2 pm0) soc0).

Lemma board_ok : config_ok board.
Proof. by split. Qed.

Lemma at_rest_ok : readings_ok at_rest.
Proof. by split. Qed.

Lemma soc0_tracked : tracked board soc0.
Proof. by split. Qed.

Lemma hz_100 : whole_ms 100.
Proof. by split. Qed.

(** C30: on a board that is up again within its wake-up allowance, with the
    32 kHz clock from the crystal or from a tracked RC oscillator whose average
    is within 5 percent of 32768 Hz, a pass of [lpm_handle] in the idle task
    returns and leaves the kernel in the state in which handling the ticks that
    passed one by one and rescheduling would have left it: the clock moved on
    by [k], the tasks whose time was over are woken and no other, and the task
    with the highest priority runs.  The tick rate divides 1000, the allowance
    is 125 microseconds or more and sleeps are limited to 400 seconds or less
    ([config_ok]; the board has 1350 microseconds and 30 seconds). *)
Theorem lpm_skips_ticks HZ cf rd w p o s A :
  kwf s A -> policy p <> LPM_POLICY_NO_POWER_SAVE ->
  whole_ms HZ -> config_ok cf -> readings_ok rd -> 0 <= g_osalTickTrim_mod o <= 4 -> tracked cf o ->
  (forall n o1, aos_kernel_suspend (masked s) = Some (n, masked s) ->
     sys_soc_suspend HZ cf rd (set_suspend_tick (u32 n) p) o = Some (SYS_POWER_STATE_STOP, o1) -> prompt cf w o1) ->
  exists n st o1 k lt o2 s' A',
    aos_kernel_suspend (masked s) = Some (n, masked s) /\
    sys_soc_suspend HZ cf rd (set_suspend_tick (u32 n) p) o = Some (st, o1) /\
    sys_soc_resume HZ cf w st o1 = Some (k, lt, o2) /\
    lpm_handle HZ cf rd w p o s = Some ((set_suspend_tick (u32 n) p, o2), s') /\ kwf s' A' /\
    caught_up k s = Some (tt, s') /\ g_tick_count (gl s') = u64 (g_tick_count (gl s) + k) /\
    A' LTick = filter (fun u => tick_rest (gl s) (tcbs s) u <> k) (A LTick).
Proof.
  intros HW Hp Hz Hc Hrd Hm Htr Hpr. destruct (suspend_quiet (masked s) A (kwf_enter _ _ HW)) as (n & Hn & Hr & Hq).
  set (p1 := set_suspend_tick (u32 n) p). assert (Hpt : 0 <= suspend_tick p1 < 2 ^ 32) by (apply wrap_range; lia).
  destruct (suspend_ends HZ cf rd p1 o) as [[st o1] Hs].
  { intros Ht. specialize (Htr Ht). unfold CRY32_8_CYCLE_16MHZ_CYCLE_MIN, CRY32_8_CYCLE_16MHZ_CYCLE_MAX in Htr. lia. }
  assert (is_Some (sys_soc_resume HZ cf w st o1)) as [[[k lt] o2] Hres].
  { destruct st; [done|]. unfold sys_soc_resume. by rewrite (suspend_flag HZ cf rd p1 o o1 Hs). }
  destruct (board_in_time HZ cf rd w p1 o st o1 k lt o2) as [Hk Hle]; try done.
  { intros ->. by apply (Hpr n). }
  assert (n < 0 \/ k <= n) as Hkn.
  { destruct (Z.lt_ge_cases n 0); [by left|right]. simpl in Hle. rewrite wrap_small in Hle by lia. done. }
  destruct (lpm_handle_exact HZ cf rd w p o s A n st o1 k lt o2) as (s' & A' & H1 & H2 & H3 & H4 & H5); [try done..|].
  { by apply (Hq k). }
  by exists n, st, o1, k, lt, o2, s', A'.
Qed.

Lemma lpm_skips_ticks_witness :
  exists n st o1 k lt o2 s' A',
    aos_kernel_suspend (masked busy) = Some (n, masked busy) /\
    sys_soc_suspend 100 board at_rest (set_suspend_tick (u32 n) pm0) soc0 = Some (st, o1) /\
    sys_soc_resume 100 board woken st o1 = Some (k, lt, o2) /\
    lpm_handle 100 board at_rest woken pm0 soc0 busy = Some ((set_suspend_tick (u32 n) pm0, o2), s') /\ kwf s' A' /\
    caught_up k busy = Some (tt, s') /\ g_tick_count (gl s') = u64 (g_tick_count (gl busy) + k) /\
    A' LTick = filter (fun u => tick_rest (gl busy) (tcbs busy) u <> k) (qget busy_queues LTick).
Proof.
  apply (lpm_skips_ticks 100 board at_rest woken pm0 soc0 busy (qget busy_queues));
    [exact busy_kwf|discriminate|exact hz_100|exact board_ok|exact at_rest_ok|split; discriminate|exact soc0_tracked|].
  intros n o1 Hn Hs. assert (E : aos_kernel_suspend (masked busy) = Some (2, masked busy)) by (vm_compute; reflexivity).
  rewrite E in Hn. injection Hn as <-.
  assert (Es : sys_soc_suspend 100 board at_rest (set_suspend_tick (u32 2) pm0) soc0 = Some (SYS_POWER_STATE_STOP, soc1))
    by (vm_compute; reflexivity).
  rewrite Es in Hs. injection Hs as <-. repeat split; vm_compute; discriminate.
Defined.

(** C31: when the board goes to sleep, with the crystal or with a tracked RC
    oscillator whose average is within 5 percent of 32768 Hz, the comparator of
    the RTC is set so early that by the measured length of an RTC tick
    [WAKEUP_ADVANCE] microseconds (less the 125 the conversions may be off) are
    left until the kernel's next deadline, until the link layer's timer and
    until the next OSAL timer expire, and the 24-bit counter does not overflow
    before; the 32-bit products of the code, which may wrap, never make the
    sleep longer.  The average stays within its 5 percent as long as the
    counter measures no period below them.  The tick rate divides 1000, and the
    configuration is one of [config_ok]. *)
Theorem sleep_before_deadline HZ cf rd p o o1 :
  whole_ms HZ -> config_ok cf -> readings_ok rd -> 0 <= suspend_tick p < 2 ^ 32 -> tracked cf o ->
  sys_soc_suspend HZ cf rd p o = Some (SYS_POWER_STATE_STOP, o1) ->
  let d := rtc_period cf o1 * (comparator0 o1 - sleep_tick o1) + 512 * (WAKEUP_ADVANCE cf - 125) in
  d <= 512 * kernel_us HZ p /\ d <= 512 * ll_remain_time o1 /\
  (ll_idle rd = false -> ll_remain_time o1 = LL_remainder_time rd) /\
  (u32 (osal_next_timeout rd * 1000) <> 0 -> d <= 512 * (osal_next_timeout rd * 1000)) /\
  sleep_tick o1 = rtc_sleep rd /\ 0 <= comparator0 o1 <= 2 ^ 24 - 9 /\ sleep_flag o1 = true /\
  (CRY32_8_CYCLE_16MHZ_CYCLE_MIN <= tracking_temp (tracking_reg rd) -> tracked cf o1).
Proof.
  intros Hz Hc Hrd Hp Htr Hs. pose proof (suspend_flag HZ cf rd p o o1 Hs) as Hf.
  destruct (suspend_stop HZ cf rd p o o1 Hz Hc Hrd Hp Htr Hs) as (next & o0 & Hn & Hk & Hl & Hi & Ho & _ & Htr0 & Hn0 & He).
  destruct (enter_in_time cf rd next o0 o1 Hrd Hn Htr0 Hn0 He) as (E1 & _ & E2 & _ & Ht1 & Hcmp & Hend). intros d.
  assert (Hd : d <= 512 * (next + WAKEUP_ADVANCE cf)) by (unfold d; lia).
  rewrite E2. split; [lia|]. split; [lia|]. split; [done|]. split; [intros Hne; specialize (Ho Hne); lia|]. done.
Qed.

Lemma sleep_before_deadline_witness :
  rtc_period board soc1 * (comparator0 soc1 - sleep_tick soc1) + 512 * (WAKEUP_ADVANCE board - 125) <= 512 * kernel_us 100 (set_suspend_tick 2 pm0).
Proof.
  refine (proj1 (sleep_before_deadline 100 board at_rest (set_suspend_tick 2 pm0) soc0 soc1 _ _ _ _ _ _));
    [exact hz_100|exact board_ok|exact at_rest_ok|split; [discriminate|reflexivity]|exact soc0_tracked|vm_compute; reflexivity].
Defined.

(** The OSAL clock in quarters of a microsecond, with the parts carried
    over. *)
Definition osal_quarters (o : soc_t) : Z := 4 * (625 * osal_sys_tick o + rtc_mod_value o) + g_osalTickTrim_mod o.

Record carry_ok (o : soc_t) : Prop := mkCarryOk {
  cy_trim : 0 <= g_osalTickTrim_mod o <= 4;
  cy_mod : 0 <= rtc_mod_value o <= 625;
}.

(** The OSAL clock in microseconds. *)
Definition osal_us (o : soc_t) : Z := 625 * osal_sys_tick o + rtc_mod_value o.

(** C32: waking up brings the OSAL clock forward by the time between going to
    sleep and waking up and the software delay: the RTC ticks that passed,
    taken at the length the code measured (or at 32768 Hz), to less than a
    microsecond, and the software delay to a quarter of one, with the carried
    parts kept in range.  When the 24-bit counter overflowed in between, one
    RTC tick is missing.  The ticks reported to the kernel are the whole ticks
    of the time the OSAL clock was moved by, and what is left, less than one
    tick, is dropped.  The tick rate divides 1000, and the 32-bit OSAL clock
    does not overflow. *)
Theorem sleep_clocks HZ cf w o :
  whole_ms HZ -> sleep_flag o = true -> period_ok cf o ->
  0 <= sleep_tick o < 2 ^ 24 -> 0 <= rtc_wake w < 2 ^ 24 -> rtc_wake w <> sleep_tick o ->
  carry_ok o -> 0 <= osal_sys_tick o < 2 ^ 32 - 2 ^ 23 ->
  exists k lt o', sys_soc_resume HZ cf w SYS_POWER_STATE_STOP o = Some (k, lt, o') /\ carry_ok o' /\
    let ticks := elapsed w o - (if rtc_wake w <? sleep_tick o then 1 else 0) in
    let moved := osal_quarters o' - osal_quarters o - sw_quarters cf w in
    rtc_period cf o * ticks - 512 < 128 * moved < rtc_period cf o * ticks + 512 /\
    let rest := osal_us o' - osal_us o - k * (1000 / HZ * 1000) in 0 <= rest < 1000 / HZ * 1000.
Proof.
  intros Hz Hf Hp Hs Hw Hne [Ht Hm] Ho.
  assert (is_Some (sys_soc_resume HZ cf w SYS_POWER_STATE_STOP o)) as [[[k lt] o'] Hr] by (unfold sys_soc_resume; by rewrite Hf).
  exists k, lt, o'. destruct (resume_ticks HZ cf w o k lt o' Hz Hr) as (-> & _ & ->).
  destruct (dlt_tick_elapsed w o Hw Hs Hne) as [Ed Hd]. destruct (sleep_total_bound cf w o Hp Hd) as [Hst Hb]. rewrite Ed in Hb.
  destruct (slept_us_eq cf w o Hst Ht) as (Eu & H3). set (o1 := tick_trim cf w (set_g_wakeup_rtc_tick (rtc_wake' w) o)) in *.
  destruct (tick_trim_sum cf w (set_g_wakeup_rtc_tick (rtc_wake' w) o) Ht) as (Hm1 & _ & Es). fold o1 in Hm1, Es. simpl in Es.
  assert (Hu : 0 <= slept_us cf w o < 2 ^ 32) by (apply wrap_range; lia).
  assert (E1 : rtc_mod_value o1 = rtc_mod_value o /\ osal_sys_tick o1 = osal_sys_tick o)
    by (unfold o1, tick_trim; by destruct (4 <? _)). destruct E1 as [Em1 Eo1].
  destruct (osal_advance_sum (slept_us cf w o) o1) as [Hm2 Eo2]; rewrite ?Em1, ?Eo1; [lia|done|lia|Z.to_euclidean_division_equations; lia|].
  assert (Eg : g_osalTickTrim_mod (osal_advance (slept_us cf w o) o1) = g_osalTickTrim_mod o1) by (unfold osal_advance; by destruct (625 <? _)).
  split; [done|]. split; [split; simpl; rewrite ?Eg; done|]. intros ticks moved. split.
  - replace moved with (4 * sleep_total cf w o); [fold ticks in Hb; lia|].
    unfold moved, osal_quarters. simpl. rewrite Eg, Eo2, Em1, Eo1, Eu. lia.
  - unfold osal_us. simpl. rewrite Eo2, Em1, Eo1. pose proof (period_range HZ Hz). rewrite Z.div_div by lia.
    pose proof (Z.mul_div_le (slept_us cf w o) (1000 * (1000 / HZ)) ltac:(lia)).
    pose proof (Z.mul_succ_div_gt (slept_us cf w o) (1000 * (1000 / HZ)) ltac:(lia)). lia.
Qed.

Lemma sleep_clocks_witness :
  exists k lt o', sys_soc_resume 100 board woken SYS_POWER_STATE_STOP soc1 = Some (k, lt, o') /\ carry_ok o' /\
    let ticks := elapsed woken soc1 - (if rtc_wake woken <? sleep_tick soc1 then 1 else 0) in
    let moved := osal_quarters o' - osal_quarters soc1 - sw_quarters board woken in
    rtc_period board soc1 * ticks - 512 < 128 * moved < rtc_period board soc1 * ticks + 512 /\
    let rest := osal_us o' - osal_us soc1 - k * (1000 / 100 * 1000) in 0 <= rest < 1000 / 100 * 1000.
Proof.
  apply (sleep_clocks 100 board woken soc1);
    [exact hz_100|reflexivity|split; discriminate|split; [discriminate|reflexivity]|split; [discriminate|reflexivity]|discriminate
    |repeat split; discriminate|split; [discriminate|reflexivity]].
Defined.

(** The dropped part is not carried over: after a sleep of 19.5 ms the kernel
    clock, which ticks every 10 ms, has moved on by 10 ms. *)
Example kernel_clock_lags :
  slept_us board woken soc1 = 19455 /\
  ((fun r => r.1.1) <$> sys_soc_resume 100 board woken SYS_POWER_STATE_STOP soc1) = Some 1.
Proof. by vm_compute. Qed.

(** Whatever the counter measures, going to sleep returns as long as the
    measured period is sane, which every measurement keeps. *)
Theorem tracking_returns HZ cf rd p o reg :
  track_ok o -> is_Some (sys_soc_suspend HZ cf rd p o) /\ track_ok (tracking_read reg o).
Proof. intros Ho. split; [apply suspend_ends; by destruct Ho|]. by apply tracking_read_ok. Qed.
