(* ===== verification/SpecIpc.v ===== *)
(** * What the inter-task communication services promise

    One inductive relation per operation of k_sem.c, k_mutex.c and k_event.c:
    its constructors are the operation's outcomes, each with the condition
    under which the code takes it, the result and the effect on the kernel
    state.  The theorems say that the operation, started in any well-formed
    state, ends without a fault in exactly such an outcome and in a
    well-formed state. *)

From stdpp Require Import functions.
From S2P Require Import Prelude.
From S2P Require Import Monad.
From S2P Require Import Links.
From S2P Require Import KState.
From S2P Require Import Bitmap.
From S2P Require Import Sched.
From S2P Require Import Pend.
From S2P Require Import Inv.
From S2P Require Import MInv.
From S2P Require Import ObjInv.
From S2P Require Import Resched.
From S2P Require Import Block.
From S2P Require Import Prio.
From S2P Require Import PrioInv.
From S2P Require Import Tick.
From S2P Require Import Sem.
From S2P Require Import Mutex.
From S2P Require Import Event.
From S2P Require Import Task.
From S2P Require Import Sys.
From S2P Require Import Check.
From S2P Require Import Demo.

(** ** Refinement of an outcome relation

    [implements m s P]: from [s] the code [m] does not fault, and its result
    and final state are an outcome [P] allows and form a well-formed state. *)
Definition implements {R : Type} (m : M R) (s : kstate) (P : R -> kstate -> queues -> Prop) : Prop :=
  exists r s' A', m s = Some (r, s') /\ P r s' A' /\ kwf s' A'.

Lemma wp_implements {R : Type} (m : M R) s (P : R -> kstate -> queues -> Prop) :
  wp m (fun r s' => exists A', P r s' A' /\ kwf s' A') s -> implements m s P.
Proof. intros (r & s' & Hr & A' & HP & HW)%wp_run. by exists r, s', A'. Qed.

(** Prove an outcome with the constructor of its branch. *)
Ltac outcome := intros; cbn zeta in *; eexists; split; [econstructor; eassumption|try eassumption].

Section Outcomes.
Context (s : kstate) (A : queues) (o : oid).

(** *** Semaphores *)
Section Sem.
Context (v : ksem_t).

Inductive give_outcome : kstat_t -> kstate -> queues -> Prop :=
  | GiveOverflow : A (LBlk o) = [] -> count v = 2 ^ 32 - 1 -> give_outcome RHINO_SEM_OVF s A
  | GiveCounted : A (LBlk o) = [] -> count v < 2 ^ 32 - 1 ->
      give_outcome RHINO_SUCCESS (with_sem s o (counted v)) A
  | GiveWoken t ts s' A' : A (LBlk o) = t :: ts -> woken s s' A A' t o BLK_FINISH ->
      give_outcome RHINO_SUCCESS s' A'.

Inductive give_all_outcome : kstat_t -> kstate -> queues -> Prop :=
  | GiveAllOverflow : A (LBlk o) = [] -> count v = 2 ^ 32 - 1 -> give_all_outcome RHINO_SEM_OVF s A
  | GiveAllCounted : A (LBlk o) = [] -> count v < 2 ^ 32 - 1 ->
      give_all_outcome RHINO_SUCCESS (with_sem s o (counted v)) A
  | GiveAllWoken s' A' : A (LBlk o) <> [] -> woken_all s s' A A' o BLK_FINISH -> ob s' = ob s ->
      give_all_outcome RHINO_SUCCESS s' A'.

(** The caller is task [a] with control block [x]. *)
Inductive take_outcome (a : tid) (x : ktask_t) (ticks : Z) : callres kstat_t -> kstate -> queues -> Prop :=
  | TakeInIsr : 0 < g_intrpt_nested_level (gl s) ->
      take_outcome a x ticks (Returned RHINO_NOT_CALLED_BY_INTRPT) s A
  | TakeTaken : g_intrpt_nested_level (gl s) = 0 -> 0 < count v ->
      take_outcome a x ticks (Returned RHINO_SUCCESS) (with_sem s o (taken v)) A
  | TakeNoWait : g_intrpt_nested_level (gl s) = 0 -> count v = 0 -> ticks = RHINO_NO_WAIT ->
      take_outcome a x ticks (Returned RHINO_NO_PEND_WAIT) s A
  | TakeLocked : g_intrpt_nested_level (gl s) = 0 -> count v = 0 -> ticks <> RHINO_NO_WAIT ->
      0 < g_sched_lock (gl s) -> take_outcome a x ticks (Returned RHINO_SCHED_DISABLE) s A
  | TakeBlocked s' A' : g_intrpt_nested_level (gl s) = 0 -> count v = 0 -> ticks <> RHINO_NO_WAIT ->
      g_sched_lock (gl s) = 0 -> caller_blocked s s' A A' a x o ticks ->
      take_outcome a x ticks (Switched pend_end) s' A'.

Inductive count_set_outcome (c : Z) : kstat_t -> kstate -> queues -> Prop :=
  | CountSetInIsr : 0 < g_intrpt_nested_level (gl s) -> count_set_outcome c RHINO_NOT_CALLED_BY_INTRPT s A
  | CountSetWaiting : g_intrpt_nested_level (gl s) = 0 -> A (LBlk o) <> [] ->
      count_set_outcome c RHINO_SEM_TASK_WAITING s A
  | CountSetDone : g_intrpt_nested_level (gl s) = 0 -> A (LBlk o) = [] ->
      count_set_outcome c RHINO_SUCCESS
        (with_sem s o (mkSem c (Z.max (peak_count v) c) (sem_mm_alloc_flag v))) A.
End Sem.

(** *** Mutexes *)
Section Mutex.
Context (v : kmutex_t) (a : tid) (x : ktask_t).

Inductive lock_outcome (ticks : Z) : callres kstat_t -> kstate -> queues -> Prop :=
  | LockInIsr : 0 < g_intrpt_nested_level (gl s) -> lock_outcome ticks (Returned RHINO_NOT_CALLED_BY_INTRPT) s A
  | LockNested : g_intrpt_nested_level (gl s) = 0 -> mutex_task v = Some a ->
      lock_outcome ticks (Returned RHINO_MUTEX_OWNER_NESTED) (with_mutex s o (nested v)) A
  | LockFree : g_intrpt_nested_level (gl s) = 0 -> mutex_task v = None ->
      lock_outcome ticks (Returned RHINO_SUCCESS) (own s a x o v) A
  | LockNoWait u : g_intrpt_nested_level (gl s) = 0 -> mutex_task v = Some u -> u <> a -> ticks = RHINO_NO_WAIT ->
      lock_outcome ticks (Returned RHINO_NO_PEND_WAIT) s A
  | LockLocked u : g_intrpt_nested_level (gl s) = 0 -> mutex_task v = Some u -> u <> a -> ticks <> RHINO_NO_WAIT ->
      0 < g_sched_lock (gl s) -> lock_outcome ticks (Returned RHINO_SCHED_DISABLE) s A
  | LockBlocked u s' A' : g_intrpt_nested_level (gl s) = 0 -> mutex_task v = Some u -> u <> a ->
      ticks <> RHINO_NO_WAIT -> g_sched_lock (gl s) = 0 -> lock_blocked s s' A A' a x o ticks ->
      lock_outcome ticks (Switched pend_end) s' A'.

Inductive unlock_outcome : kstat_t -> kstate -> queues -> Prop :=
  | UnlockInIsr : 0 < g_intrpt_nested_level (gl s) -> unlock_outcome RHINO_NOT_CALLED_BY_INTRPT s A
  | UnlockNotOwner : g_intrpt_nested_level (gl s) = 0 -> mutex_task v <> Some a ->
      unlock_outcome RHINO_MUTEX_NOT_RELEASED_BY_OWNER s A
  | UnlockNested : g_intrpt_nested_level (gl s) = 0 -> mutex_task v = Some a -> u32 (owner_nested v - 1) <> 0 ->
      unlock_outcome RHINO_MUTEX_OWNER_NESTED (with_mutex s o (set_nested (u32 (owner_nested v - 1)) v)) A
  | UnlockFree s' : g_intrpt_nested_level (gl s) = 0 -> mutex_task v = Some a -> u32 (owner_nested v - 1) = 0 ->
      A (LBlk o) = [] -> let_loose s s' o a x -> unlock_outcome RHINO_SUCCESS s' A
  | UnlockPassed w ws s' A' : g_intrpt_nested_level (gl s) = 0 -> mutex_task v = Some a ->
      u32 (owner_nested v - 1) = 0 -> A (LBlk o) = w :: ws -> passed s s' A A' o v a x w ->
      unlock_outcome RHINO_SUCCESS s' A'.
End Mutex.

(** *** Events *)
Section Event.
Context (v : kevent_t) (fl opt : Z) (out : nat) (ticks : Z) (a : tid) (x : ktask_t).

Inductive get_outcome : callres kstat_t -> kstate -> queues -> Prop :=
  | GetInIsr : 0 < g_intrpt_nested_level (gl s) -> get_outcome (Returned RHINO_NOT_CALLED_BY_INTRPT) s A
  | GetMet : g_intrpt_nested_level (gl s) = 0 -> flags_met (flags v) fl opt = true ->
      get_outcome (Returned RHINO_SUCCESS)
        (with_event (with_um s (<[out := flags v]> (umem s))) o (set_flags (got_flags (flags v) fl opt) v)) A
  | GetNoWait : g_intrpt_nested_level (gl s) = 0 -> flags_met (flags v) fl opt = false -> ticks = RHINO_NO_WAIT ->
      get_outcome (Returned RHINO_NO_PEND_WAIT) s A
  | GetLocked : g_intrpt_nested_level (gl s) = 0 -> flags_met (flags v) fl opt = false -> ticks <> RHINO_NO_WAIT ->
      0 < g_sched_lock (gl s) -> get_outcome (Returned RHINO_SCHED_DISABLE) s A
  | GetBlocked s' A' : g_intrpt_nested_level (gl s) = 0 -> flags_met (flags v) fl opt = false ->
      ticks <> RHINO_NO_WAIT -> g_sched_lock (gl s) = 0 ->
      caller_blocked (with_request s a x fl opt out) s' A A' a (requesting fl opt out x) o ticks ->
      get_outcome (Switched pend_end) s' A'.
End Event.
End Outcomes.

(** ** Semaphores *)

(** C33: [krhino_sem_give] on a semaphore nobody waits for adds one to the
    count (and reports the overflow at 2^32-1 without changing anything); on a
    semaphore with waiting tasks it leaves the count alone and makes the first
    waiting task ready, with [BLK_FINISH] as its wake-up reason, off the tick
    list, after which the highest-priority ready task runs;
    [krhino_sem_give_all] does the same for every task on the waiting list. *)
Theorem sem_give_implements s A o v :
  kwf s A -> has_type s o RHINO_SEM_OBJ_TYPE -> sems (ob s) !! o = Some v ->
  implements (krhino_sem_give (Some o)) s (give_outcome s A o v) /\
  implements (krhino_sem_give_all (Some o)) s (give_all_outcome s A o v).
Proof.
  intros. split; apply wp_implements; [apply (wp_sem_give s A o v)|apply (wp_sem_give_all s A o v)]; try done; outcome.
Qed.

Lemma sem_give_implements_witness :
  implements (krhino_sem_give (Some 0%nat)) busy (give_outcome busy (qget busy_queues) 0 (mkSem 0 0 1)) /\
  implements (krhino_sem_give_all (Some 0%nat)) busy (give_all_outcome busy (qget busy_queues) 0 (mkSem 0 0 1)).
Proof.
  apply (sem_give_implements busy (qget busy_queues)).
  - exact busy_kwf.
  - by exists (mkBlk BLK_POLICY_PRI RHINO_SEM_OBJ_TYPE).
  - reflexivity.
Defined.

(** C34: [krhino_sem_take] by a task takes one unit when the count is
    positive; otherwise it refuses ([RHINO_NO_PEND_WAIT] without waiting time,
    [RHINO_SCHED_DISABLE] under a scheduler lock, [RHINO_NOT_CALLED_BY_INTRPT]
    in an interrupt) without changing the state, or blocks the caller: it
    leaves the ready list, joins the semaphore's waiting list behind the tasks
    of its priority and, unless it waits forever, the tick list, and the
    highest-priority ready task runs. *)
Theorem sem_take_implements s A o v ticks a x :
  kwf s A -> has_type s o RHINO_SEM_OBJ_TYPE -> sems (ob s) !! o = Some v ->
  g_active_task (gl s) = Some a -> tcbs s !! a = Some x -> prio x <> RHINO_IDLE_PRI ->
  ticks = RHINO_NO_WAIT \/ timeout_ok ticks ->
  implements (krhino_sem_take (Some o) ticks) s (take_outcome s A o v a x ticks).
Proof.
  intros. apply wp_implements, (wp_sem_take s A o v ticks a x);
    [done..|outcome|outcome|outcome|outcome|outcome].
Qed.

Lemma sem_take_implements_witness :
  implements (krhino_sem_take (Some 0%nat) 7) busy
    (take_outcome busy (qget busy_queues) 0 (mkSem 0 0 1) 3 (tcb busy 3) 7).
Proof.
  apply (sem_take_implements busy (qget busy_queues)).
  - exact busy_kwf.
  - by exists (mkBlk BLK_POLICY_PRI RHINO_SEM_OBJ_TYPE).
  - reflexivity.
  - reflexivity.
  - reflexivity.
  - vm_compute. discriminate.
  - right. right. lia.
Defined.

(** [krhino_sem_count_set] sets the count only outside interrupts and
    only when no task waits, and keeps the peak count the maximum of all
    counts the semaphore has had. *)
Theorem sem_count_set_implements s A o v c :
  kwf s A -> has_type s o RHINO_SEM_OBJ_TYPE -> sems (ob s) !! o = Some v -> 0 <= c < 2 ^ 32 ->
  implements (krhino_sem_count_set (Some o) c) s (count_set_outcome s A o v c).
Proof. intros. apply wp_implements, (wp_sem_count_set s A o v c); [done..|outcome|outcome|outcome]. Qed.

Lemma sem_count_set_implements_witness :
  implements (krhino_sem_count_set (Some 0%nat) 4) started (count_set_outcome started (qget started_queues) 0 (mkSem 0 0 1) 4).
Proof.
  apply (sem_count_set_implements started (qget started_queues)).
  - exact started_kwf.
  - by exists (mkBlk BLK_POLICY_PRI RHINO_SEM_OBJ_TYPE).
  - reflexivity.
  - lia.
Defined.

(** ** Mutexes *)

(** C5: [krhino_mutex_lock]: a free mutex goes to the caller; the owner
    locking it again only deepens the nesting (at 2^32-1 levels the error
    handler stops the system: the call does not return); a mutex held by another task makes the caller wait, and then the owner and
    every task up the chain of owners with a worse priority is raised to
    exactly the caller's priority and nothing else changes about them
    (priority inheritance), with every waiting list kept in priority order. *)
Theorem mutex_lock_implements s A m v ticks a x :
  kwf s A -> has_type s m RHINO_MUTEX_OBJ_TYPE -> mutexes (ob s) !! m = Some v ->
  g_active_task (gl s) = Some a -> tcbs s !! a = Some x -> prio x <> RHINO_IDLE_PRI ->
  ticks = RHINO_NO_WAIT \/ timeout_ok ticks ->
  if bool_decide (lock_overflows s a v) then krhino_mutex_lock (Some m) ticks s = None
  else implements (krhino_mutex_lock (Some m) ticks) s (lock_outcome s A m v a x ticks).
Proof.
  intros HW. intros. case_bool_decide as Ho; [destruct Ho as (? & ? & ?); by apply (mutex_lock_hangs s A m v ticks a)|].
  apply wp_implements, (wp_mutex_lock s A m v ticks a x); [done..| |by unfold lock_overflows in Ho; naive_solver| | | | |]; outcome.
Qed.

Lemma mutex_lock_implements_witness :
  implements (krhino_mutex_lock (Some 1%nat) 7) busy
    (lock_outcome busy (qget busy_queues) 1 (mkMutex (Some 3%nat) None 1 1) 3 (tcb busy 3) 7).
Proof.
  refine (mutex_lock_implements busy (qget busy_queues) 1 (mkMutex (Some 3%nat) None 1 1) 7 3 (tcb busy 3) _ _ _ _ _ _ _).
  - exact busy_kwf.
  - by exists (mkBlk BLK_POLICY_PRI RHINO_MUTEX_OBJ_TYPE).
  - reflexivity.
  - reflexivity.
  - reflexivity.
  - vm_compute. discriminate.
  - right. right. lia.
Defined.

(** C6: [krhino_mutex_unlock]: only the owner can unlock; an inner level of a
    nested lock only counts down; the outermost unlock frees a mutex nobody
    waits for, and otherwise hands it to the first, hence highest-priority,
    waiting task, which becomes ready as the owner with one nesting level,
    while no task but these two changes.  The caller's priority falls back to
    what the mutexes it still holds require (that is part of [kwf]). *)
Theorem mutex_unlock_implements s A m v a x :
  kwf s A -> has_type s m RHINO_MUTEX_OBJ_TYPE -> mutexes (ob s) !! m = Some v ->
  g_active_task (gl s) = Some a -> tcbs s !! a = Some x ->
  implements (krhino_mutex_unlock (Some m)) s (unlock_outcome s A m v a x).
Proof. intros. apply wp_implements, (wp_mutex_unlock s A m v a x); [done..| | | | |]; outcome. Qed.

Lemma mutex_unlock_implements_witness :
  implements (krhino_mutex_unlock (Some 1%nat)) busy
    (unlock_outcome busy (qget busy_queues) 1 (mkMutex (Some 3%nat) None 1 1) 3 (tcb busy 3)).
Proof.
  apply (mutex_unlock_implements busy (qget busy_queues) 1 _ 3 (tcb busy 3)).
  - exact busy_kwf.
  - by exists (mkBlk BLK_POLICY_PRI RHINO_MUTEX_OBJ_TYPE).
  - reflexivity.
  - reflexivity.
  - reflexivity.
Defined.

(** ** Events *)

(** C40: [krhino_event_set] with [RHINO_OR] sets flags and wakes exactly the
    waiting tasks whose request the new flags meet, in list order, giving each
    the flags it was woken by; the flags the woken tasks asked to clear are
    cleared after the pass, not before, so that one set can wake several
    tasks; the others keep waiting in their order.  With [RHINO_AND] it masks
    the flags and does nothing else: removing flags cannot meet a request. *)
Theorem event_set_implements s A e v fl :
  kwf s A -> has_type s e RHINO_EVENT_OBJ_TYPE -> events (ob s) !! e = Some v -> 0 <= fl < 2 ^ 32 ->
  implements (krhino_event_set (Some e) fl RHINO_OR) s
    (fun r s' A' => r = RHINO_SUCCESS /\ event_set_post s s' A A' e v fl) /\
  implements (krhino_event_set (Some e) fl RHINO_AND) s
    (fun r s' A' => r = RHINO_SUCCESS /\ s' = with_event s e (set_flags (Z.land (flags v) fl) v) /\ A' = A).
Proof.
  intros. split; apply wp_implements.
  - apply (wp_event_set_or s A e v fl); [done..|]. intros s' A' ??. by exists A'.
  - apply (wp_event_set_and s A e v fl); [done..|]. intros ?. by exists A.
Qed.

Lemma event_set_implements_witness :
  implements (krhino_event_set (Some 2%nat) 6 RHINO_OR) busy
    (fun r s' A' => r = RHINO_SUCCESS /\ event_set_post busy s' (qget busy_queues) A' 2 (mkEvent 0 1) 6) /\
  implements (krhino_event_set (Some 2%nat) 6 RHINO_AND) busy
    (fun r s' A' => r = RHINO_SUCCESS /\
       s' = with_event busy 2 (set_flags (Z.land 0 6) (mkEvent 0 1)) /\ A' = qget busy_queues).
Proof.
  apply (event_set_implements busy (qget busy_queues) 2 (mkEvent 0 1)).
  - exact busy_kwf.
  - by exists (mkBlk BLK_POLICY_PRI RHINO_EVENT_OBJ_TYPE).
  - reflexivity.
  - lia.
Defined.

(** [krhino_event_get] with any of the four options returns at once with
    the current flags when they meet the request, clearing the requested
    flags under a [_CLEAR] option; otherwise it refuses without changing the
    state or blocks the caller with its request recorded. *)
Theorem event_get_implements s A e v fl opt out ticks a x :
  kwf s A -> has_type s e RHINO_EVENT_OBJ_TYPE -> events (ob s) !! e = Some v -> valid_opt opt ->
  0 <= fl < 2 ^ 32 -> g_active_task (gl s) = Some a -> tcbs s !! a = Some x -> prio x <> RHINO_IDLE_PRI ->
  ticks = RHINO_NO_WAIT \/ timeout_ok ticks ->
  implements (krhino_event_get (Some e) fl opt (Some out) ticks) s (get_outcome s A e v fl opt out ticks a x).
Proof. intros. apply wp_implements, (wp_event_get s A e v fl opt out ticks a x); [done..| | | | |]; outcome. Qed.

Lemma event_get_implements_witness :
  implements (krhino_event_get (Some 2%nat) 3 RHINO_OR_CLEAR (Some 1%nat) RHINO_WAIT_FOREVER) busy
    (get_outcome busy (qget busy_queues) 2 (mkEvent 0 1) 3 RHINO_OR_CLEAR 1 RHINO_WAIT_FOREVER 3 (tcb busy 3)).
Proof.
  apply (event_get_implements busy (qget busy_queues)).
  - exact busy_kwf.
  - by exists (mkBlk BLK_POLICY_PRI RHINO_EVENT_OBJ_TYPE).
  - reflexivity.
  - right. right. right. reflexivity.
  - lia.
  - reflexivity.
  - reflexivity.
  - vm_compute. discriminate.
  - right. left. reflexivity.
Defined.

(** ** All services *)

Lemma wp_equals {R : Type} (m : M R) (r : R) s s' :
  wp m (fun r1 s1 => r1 = r /\ s1 = s') s -> m s = Some (r, s').
Proof. intros (r1 & s1 & Hr & -> & ->)%wp_run. done. Qed.

Lemma wp_exact {R : Type} (m : M R) (r : R) s :
  wp m (fun r' s' => r' = r /\ s' = s) s -> m s = Some (r, s).
Proof. apply wp_equals. Qed.

(** When a task that blocked runs again, the rest of its blocking call
    returns the status of the reason it was woken for (success, timeout or
    deletion of the object) and changes nothing. *)
Theorem pend_end_reports s A a x :
  kwf s A -> g_active_task (gl s) = Some a -> tcbs s !! a = Some x -> blk_state x <> BLK_INVALID ->
  pend_end s = Some (wake_status (blk_state x), s).
Proof.
  intros HW Ha Hx Hb. apply wp_exact. unfold pend_end, active_get, pend_state_end_proc, task_get.
  apply wp_bind, (wp_kwf_enter A); [done|]. wsteps.
  apply (run_wp _ _ _ (wake_status (blk_state x)) (with_gl (set_primask true (gl s)) s)); [by destruct (blk_state x)|].
  by apply (wp_exit_ret A).
Qed.

Lemma pend_end_reports_witness :
  krhino_sem_give (Some 0%nat) busy = Some (RHINO_SUCCESS, woke) /\ pend_end woke = Some (RHINO_SUCCESS, woke).
Proof.
  split; [vm_compute; reflexivity|].
  apply (pend_end_reports woke (qget woke_queues) 1 (tcb woke 1)).
  - exact woke_kwf.
  - reflexivity.
  - reflexivity.
  - discriminate.
Defined.
