(* ===== verification/SpecQueue.v ===== *)
(** * What the message services promise

    The outcomes of k_queue.c and k_buf_queue.c in terms of the messages a
    queue holds, the delivery of a message to a waiting task from end to end,
    and the creation and deletion of kernel objects and tasks. *)

From stdpp Require Import functions.
From S2P Require Import Prelude.
From S2P Require Import Monad.
From S2P Require Import Links.
From S2P Require Import KState.
From S2P Require Import Bitmap.
From S2P Require Import Sched.
From S2P Require Import Pend.
From S2P Require Import Inv.
From S2P Require Import MInv.
From S2P Require Import RingBuf.
From S2P Require Import ObjInv.
From S2P Require Import Resched.
From S2P Require Import Block.
From S2P Require Import Sem.
From S2P Require Import Mutex.
From S2P Require Import MutexDel.
From S2P Require Import Event.
From S2P Require Import Queue.
From S2P Require Import BufQueue.
From S2P Require Import Create.
From S2P Require Import Task.
From S2P Require Import TaskDel.
From S2P Require Import Check.
From S2P Require Import Demo.
From S2P Require Import SpecIpc.

(** ** Objects of another type *)




(** ** Outcomes *)

Section QueueOutcomes.
Context (s : kstate) (A : queues) (o : oid) (v : kqueue_t) (ms : list Z).

(** The queue holds [ms] and is sent [m]. *)
Inductive send_outcome (m : Z) : kstat_t -> kstate -> queues -> Prop :=
  | SendFull : Z.of_nat (length ms) = q_size v -> send_outcome m RHINO_QUEUE_FULL s A
  | SendStored v' : A (LBlk o) = [] -> Z.of_nat (length ms) < q_size v -> queue_rep v' (ms ++ [m]) ->
      q_size v' = q_size v -> send_outcome m RHINO_SUCCESS (with_queue s o v' (umem s)) A
  | SendHanded t ts s' A' : ms = [] -> A (LBlk o) = t :: ts -> released s s' A A' t o (delivered m) ->
      send_outcome m RHINO_SUCCESS s' A'.

Inductive all_send_outcome (m : Z) : kstat_t -> kstate -> queues -> Prop :=
  | AllSendFull : Z.of_nat (length ms) = q_size v -> all_send_outcome m RHINO_QUEUE_FULL s A
  | AllSendStored v' : A (LBlk o) = [] -> Z.of_nat (length ms) < q_size v -> queue_rep v' (ms ++ [m]) ->
      q_size v' = q_size v -> all_send_outcome m RHINO_SUCCESS (with_queue s o v' (umem s)) A
  | AllSendHanded s' A' : ms = [] -> A (LBlk o) <> [] -> woken_with s s' A A' o (delivered m) -> ob s' = ob s ->
      all_send_outcome m RHINO_SUCCESS s' A'.

Inductive recv_outcome (a : tid) (x : ktask_t) (ticks : Z) (out : nat) : callres kstat_t -> kstate -> queues -> Prop :=
  | RecvInIsr : 0 < g_intrpt_nested_level (gl s) -> ticks <> RHINO_NO_WAIT ->
      recv_outcome a x ticks out (Returned RHINO_NOT_CALLED_BY_INTRPT) s A
  | RecvTaken m ms' v' : g_intrpt_nested_level (gl s) = 0 \/ ticks = RHINO_NO_WAIT -> ms = m :: ms' -> queue_rep v' ms' ->
      recv_outcome a x ticks out (Returned RHINO_SUCCESS) (with_queue s o v' (<[out := m]> (umem s))) A
  | RecvNoWait : ms = [] -> ticks = RHINO_NO_WAIT ->
      recv_outcome a x ticks out (Returned RHINO_NO_PEND_WAIT) (with_out s out 0) A
  | RecvLocked : ms = [] -> ticks <> RHINO_NO_WAIT -> g_intrpt_nested_level (gl s) = 0 -> 0 < g_sched_lock (gl s) ->
      recv_outcome a x ticks out (Returned RHINO_SCHED_DISABLE) (with_out s out 0) A
  | RecvBlocked s' A' : ms = [] -> ticks <> RHINO_NO_WAIT -> g_intrpt_nested_level (gl s) = 0 -> g_sched_lock (gl s) = 0 ->
      caller_blocked s s' A A' a x o ticks -> recv_outcome a x ticks out (Switched (queue_recv_end out)) s' A'.
End QueueOutcomes.

Section BufqOutcomes.
Context (s : kstate) (A : queues) (o : oid) (v : kbuf_queue_t) (ms : list (list Z)).

Inductive buf_send_outcome (msg : nat) (size : Z) : kstat_t -> kstate -> queues -> Prop :=
  | BufSendTooLong : max_msg_size v < size -> buf_send_outcome msg size RHINO_BUF_QUEUE_MSG_SIZE_OVERFLOW s A
  | BufSendEmpty : size = 0 -> size <= max_msg_size v -> buf_send_outcome msg size RHINO_INV_PARAM s A
  | BufSendRefused : 0 < size <= max_msg_size v -> A (LBlk o) = [] ->
      ring_verdict (bq_ringbuf v) (Z.to_nat size) <> RHINO_SUCCESS ->
      buf_send_outcome msg size (full_status (ring_verdict (bq_ringbuf v) (Z.to_nat size))) s A
  | BufSendStored v' : 0 < size <= max_msg_size v -> A (LBlk o) = [] ->
      ring_verdict (bq_ringbuf v) (Z.to_nat size) = RHINO_SUCCESS ->
      bufq_rep v' (ms ++ [cells_read (umem s) msg (ring_copied (bq_ringbuf v) (Z.to_nat size))]) ->
      buf_send_outcome msg size RHINO_SUCCESS (with_bufq s o v' (umem s)) A
  | BufSendHanded t ts x s' A' : 0 < size <= max_msg_size v -> A (LBlk o) = t :: ts -> ms = [] -> tcbs s !! t = Some x ->
      released (redata s (ob s) (cells_write (umem s) (Z.to_nat (task_msg x)) (cells_read (umem s) msg (Z.to_nat size))))
        s' A A' t o (filled size) ->
      buf_send_outcome msg size RHINO_SUCCESS s' A'.

Inductive buf_recv_outcome (a : tid) (x : ktask_t) (ticks : Z) (buf size : nat) : callres kstat_t -> kstate -> queues -> Prop :=
  | BufRecvInIsr : 0 < g_intrpt_nested_level (gl s) -> ticks <> RHINO_NO_WAIT ->
      buf_recv_outcome a x ticks buf size (Returned RHINO_NOT_CALLED_BY_INTRPT) s A
  | BufRecvTaken d ms' v' : g_intrpt_nested_level (gl s) = 0 \/ ticks = RHINO_NO_WAIT -> ms = d :: ms' -> bufq_rep v' ms' ->
      buf_recv_outcome a x ticks buf size (Returned RHINO_SUCCESS)
        (with_bufq s o v' (pop_store (is_fixed v) buf size d (umem s))) A
  | BufRecvNoWait : ms = [] -> ticks = RHINO_NO_WAIT ->
      buf_recv_outcome a x ticks buf size (Returned RHINO_NO_PEND_WAIT) (with_out s size 0) A
  | BufRecvLocked : ms = [] -> ticks <> RHINO_NO_WAIT -> g_intrpt_nested_level (gl s) = 0 -> 0 < g_sched_lock (gl s) ->
      buf_recv_outcome a x ticks buf size (Returned RHINO_SCHED_DISABLE) (with_out s size 0) A
  | BufRecvBlocked s' A' : ms = [] -> ticks <> RHINO_NO_WAIT -> g_intrpt_nested_level (gl s) = 0 -> g_sched_lock (gl s) = 0 ->
      caller_blocked (with_buf s a x buf) s' A A' a (set_task_msg (Z.of_nat buf) x) o ticks ->
      buf_recv_outcome a x ticks buf size (Switched (buf_queue_recv_end size)) s' A'.
End BufqOutcomes.

(** ** Queues *)

(** Sending to a message queue that holds [ms]: a full queue refuses and
    nothing changes; if nobody waits the message is appended behind [ms];
    otherwise the queue was empty and the message goes to the first waiting
    task ([krhino_queue_back_send]) or to all of them
    ([krhino_queue_all_send]), which become ready. *)
Theorem queue_send_implements s A o v ms m :
  kwf s A -> has_type s o RHINO_QUEUE_OBJ_TYPE -> kqueues (ob s) !! o = Some v -> queue_rep v ms -> 0 <= m < 2 ^ 32 ->
  implements (krhino_queue_back_send (Some o) m) s (send_outcome s A o v ms m) /\
  implements (krhino_queue_all_send (Some o) m) s (all_send_outcome s A o v ms m).
Proof.
  intros HW Ht Hv Hr Hm. split; apply wp_implements, (wp_msg_send s A o v ms); try done; outcome; done.
Qed.

Lemma queue_send_implements_witness :
  implements (krhino_queue_back_send (Some 3%nat) 77) receiving
    (send_outcome receiving (qget receiving_queues) 3 (queue_at receiving 3) [] 77) /\
  implements (krhino_queue_all_send (Some 3%nat) 77) receiving
    (all_send_outcome receiving (qget receiving_queues) 3 (queue_at receiving 3) [] 77).
Proof.
  apply (queue_send_implements receiving (qget receiving_queues)).
  - exact receiving_kwf.
  - exists (mkBlk BLK_POLICY_PRI RHINO_QUEUE_OBJ_TYPE). split; reflexivity.
  - reflexivity.
  - exact receiving_queue.
  - lia.
Defined.

(** Receiving from a message queue that holds [ms]: the first message is
    taken (also inside an interrupt, when the caller does not wait); from an
    empty queue the call stores NULL and refuses, or blocks the caller on the
    queue, in priority order, with its timeout. *)
Theorem queue_recv_implements s A o v ms ticks out a x :
  kwf s A -> has_type s o RHINO_QUEUE_OBJ_TYPE -> kqueues (ob s) !! o = Some v -> queue_rep v ms ->
  g_active_task (gl s) = Some a -> tcbs s !! a = Some x ->
  ticks = RHINO_NO_WAIT \/ timeout_ok ticks /\ prio x <> RHINO_IDLE_PRI ->
  implements (krhino_queue_recv (Some o) ticks (Some out)) s (recv_outcome s A o ms a x ticks out).
Proof.
  intros HW Ht Hv Hr Ha Hx Hto. apply wp_implements, (wp_queue_recv s A o v ms ticks out a x); try done; outcome.
Qed.

Lemma queue_recv_implements_witness :
  implements (krhino_queue_recv (Some 3%nat) 9 (Some 41%nat)) received
    (recv_outcome received (qget received_queues) 3 [] 1 (tcb received 1) 9 41).
Proof.
  apply (queue_recv_implements received (qget received_queues) 3 (queue_at received 3)).
  - exact received_kwf.
  - exists (mkBlk BLK_POLICY_PRI RHINO_QUEUE_OBJ_TYPE). split; reflexivity.
  - reflexivity.
  - exact received_queue.
  - reflexivity.
  - reflexivity.
  - right. split; [right; lia|discriminate].
Defined.

(** C9: a message sent to a queue a task waits for arrives: the send succeeds,
    and whenever that task runs next, the rest of its [krhino_queue_recv]
    returns success with the message in the caller's variable. *)
Theorem queue_delivers s A o v t ts m :
  kwf s A -> has_type s o RHINO_QUEUE_OBJ_TYPE -> kqueues (ob s) !! o = Some v -> A (LBlk o) = t :: ts ->
  0 <= m < 2 ^ 32 ->
  exists s', krhino_queue_back_send (Some o) m s = Some (RHINO_SUCCESS, s') /\
    forall s2 A2 out, kwf s2 A2 -> g_active_task (gl s2) = Some t -> tcbs s2 !! t = tcbs s' !! t ->
      exists s3, queue_recv_end out s2 = Some (RHINO_SUCCESS, s3) /\ umem s3 !! out = Some m.
Proof.
  intros HW Ht Hv HA Hm. destruct (queue_obj s A o HW Ht) as (v' & ms & Hv' & Hr & Hw). simplify_eq.
  destruct ms as [|z ms]; [|by rewrite Hw in HA].
  destruct (wp_run (krhino_queue_back_send (Some o) m)
    (fun st s' => st = RHINO_SUCCESS /\ exists A', released s s' A A' t o (delivered m)) s) as (st & s' & Hs & -> & A' & Hrel).
  { apply (wp_msg_send s A o v []); try done; try congruence.
    - intros E. simpl in E. pose proof (qr_size _ _ Hr). lia.
    - intros t' ts' s' A' _ _ E _ Hrel. rewrite HA in E. injection E as <- <-. split; [done|]. by exists A'. }
  destruct Hrel as (x & top & Hx & Htc & _). exists s'. split; [done|]. intros s2 A2 out HW2 Ha Et.
  rewrite Htc, lookup_insert_eq in Et.
  destruct (wp_run (queue_recv_end out) (fun st s3 => st = RHINO_SUCCESS /\ umem s3 !! out = Some m) s2)
    as (st & s3 & H3 & -> & Hu); [|eauto].
  apply (wp_queue_recv_end s2 A2 t (delivered m x)); try done. intros z _. split; [done|]. apply lookup_insert_eq.
Qed.

Lemma queue_delivers_witness :
  exists s', krhino_queue_back_send (Some 3%nat) 77 receiving = Some (RHINO_SUCCESS, s') /\
    forall s2 A2 out, kwf s2 A2 -> g_active_task (gl s2) = Some 1%nat -> tcbs s2 !! 1%nat = tcbs s' !! 1%nat ->
      exists s3, queue_recv_end out s2 = Some (RHINO_SUCCESS, s3) /\ umem s3 !! out = Some 77.
Proof.
  apply (queue_delivers receiving (qget receiving_queues) 3 (queue_at receiving 3) 1 []).
  - exact receiving_kwf.
  - exists (mkBlk BLK_POLICY_PRI RHINO_QUEUE_OBJ_TYPE). split; reflexivity.
  - reflexivity.
  - reflexivity.
  - lia.
Defined.

(** ** Buffer queues *)

(** Sending a byte message to a buffer queue that holds [ms]: messages
    longer than the limit and empty ones are refused; if nobody waits the
    message is appended when the ring buffer has room for it and its header,
    and refused otherwise; if tasks wait, the bytes are copied into the
    buffer of the first one, which is told the length and made ready. *)
Theorem buf_queue_send_implements s A o v ms msg size :
  kwf s A -> has_type s o RHINO_BUF_QUEUE_OBJ_TYPE -> bufqs (ob s) !! o = Some v -> bufq_rep v ms -> 0 <= size ->
  length (cells_read (umem s) msg (Z.to_nat size)) = Z.to_nat size ->
  length (cells_read (umem s) msg (ring_copied (bq_ringbuf v) (Z.to_nat size))) = ring_copied (bq_ringbuf v) (Z.to_nat size) ->
  implements (krhino_buf_queue_send (Some o) (Some msg) size) s (buf_send_outcome s A o v ms msg size).
Proof.
  intros HW Ht Hv Hr Hs Hd1 Hd2. apply wp_implements, (wp_buf_queue_send s A o v ms); try done; outcome.
Qed.

Lemma buf_queue_send_implements_witness :
  implements (krhino_buf_queue_send (Some 4%nat) (Some 10%nat) 3) receiving
    (buf_send_outcome receiving (qget receiving_queues) 4 (bufq_at receiving 4) [] 10 3).
Proof.
  apply (buf_queue_send_implements receiving (qget receiving_queues)).
  - exact receiving_kwf.
  - exists (mkBlk BLK_POLICY_PRI RHINO_BUF_QUEUE_OBJ_TYPE). split; reflexivity.
  - reflexivity.
  - exact receiving_dyn.
  - lia.
  - reflexivity.
  - reflexivity.
Defined.

(** Receiving from a buffer queue that holds [ms]: the first message and
    its length are stored in the caller's memory; from an empty queue the
    call stores length zero and refuses, or blocks the caller with its buffer
    recorded. *)
Theorem buf_queue_recv_implements s A o v ms ticks buf size a x :
  kwf s A -> has_type s o RHINO_BUF_QUEUE_OBJ_TYPE -> bufqs (ob s) !! o = Some v -> bufq_rep v ms ->
  g_active_task (gl s) = Some a -> tcbs s !! a = Some x ->
  ticks = RHINO_NO_WAIT \/ timeout_ok ticks /\ prio x <> RHINO_IDLE_PRI ->
  implements (krhino_buf_queue_recv (Some o) ticks (Some buf) (Some size)) s
    (buf_recv_outcome s A o v ms a x ticks buf size).
Proof.
  intros HW Ht Hv Hr Ha Hx Hto. apply wp_implements, (wp_buf_queue_recv s A o v ms ticks buf size a x); try done; outcome.
Qed.

Lemma buf_queue_recv_implements_witness :
  implements (krhino_buf_queue_recv (Some 5%nat) 9 (Some 20%nat) (Some 40%nat)) receiving
    (buf_recv_outcome receiving (qget receiving_queues) 5 (bufq_at receiving 5) [[1; 2; 3]] 6 (tcb receiving 6) 9 20 40).
Proof.
  apply (buf_queue_recv_implements receiving (qget receiving_queues)).
  - exact receiving_kwf.
  - exists (mkBlk BLK_POLICY_PRI RHINO_BUF_QUEUE_OBJ_TYPE). split; reflexivity.
  - reflexivity.
  - exact receiving_fix.
  - reflexivity.
  - reflexivity.
  - right. split; [right; lia|discriminate].
Defined.

(** A message of the size of a block, or of any size in a queue without
    blocks, is stored as it is. *)
Lemma copied_full v n : rb_type (bq_ringbuf v) = RINGBUF_TYPE_DYN \/ n = rb_blk_size (bq_ringbuf v) -> ring_copied (bq_ringbuf v) n = n.
Proof. unfold ring_copied. intros [-> | ->]; [done|by destruct (_ =? _)]. Qed.

(** C10: round trip through a buffer queue: a message that is stored in an
    empty queue and then received arrives byte for byte in the receiver's
    buffer, with the length it was sent with, and leaves the queue empty.  In a
    queue of fixed-size blocks that holds for messages that fill a block;
    shorter ones come back padded to a block. *)
Theorem buf_queue_roundtrip s A o v msg size buf len :
  let n := Z.to_nat size in
  kwf s A -> has_type s o RHINO_BUF_QUEUE_OBJ_TYPE -> bufqs (ob s) !! o = Some v -> bufq_rep v [] -> A (LBlk o) = [] ->
  rb_type (bq_ringbuf v) = RINGBUF_TYPE_DYN \/ n = rb_blk_size (bq_ringbuf v) ->
  0 < size <= max_msg_size v -> ring_verdict (bq_ringbuf v) n = RHINO_SUCCESS ->
  length (cells_read (umem s) msg n) = n ->
  (len < buf \/ buf + n <= len)%nat ->
  exists s1 s2 v2, krhino_buf_queue_send (Some o) (Some msg) size s = Some (RHINO_SUCCESS, s1) /\
    krhino_buf_queue_recv (Some o) RHINO_NO_WAIT (Some buf) (Some len) s1 = Some (Returned RHINO_SUCCESS, s2) /\
    cells_read (umem s2) buf n = cells_read (umem s) msg n /\ umem s2 !! len = Some size /\
    bufqs (ob s2) !! o = Some v2 /\ bufq_rep v2 [].
Proof.
  intros n HW Ht Hv Hr HA Hfx Hsz Hvd Hd2 Hlen.
  assert (En : ring_copied (bq_ringbuf v) n = n) by by apply copied_full.
  assert (Esz : size = Z.of_nat n) by (unfold n; lia).
  destruct (wp_run (krhino_buf_queue_send (Some o) (Some msg) size) (fun st s1 => st = RHINO_SUCCESS /\
    exists v1, s1 = with_bufq s o v1 (umem s) /\ kwf s1 A /\ bufq_rep v1 [cells_read (umem s) msg n]) s)
    as (st & s1 & H1 & -> & v1 & E1 & HW1 & Hr1).
  { apply (wp_buf_queue_send s A o v []); fold n; rewrite ?En; try done; try lia; try congruence. intros v1 _ _ _ Hr1 HW1. eauto. }
  destruct (ki_active _ _ (kw_inv _ _ HW1)) as (a & x & Ha & Hx).
  assert (Hv1 : bufqs (ob s1) !! o = Some v1) by (rewrite E1; apply lookup_insert_eq).
  assert (Ht1 : has_type s1 o RHINO_BUF_QUEUE_OBJ_TYPE) by by rewrite E1.
  destruct (wp_run (krhino_buf_queue_recv (Some o) RHINO_NO_WAIT (Some buf) (Some len)) (fun st s2 =>
    st = Returned RHINO_SUCCESS /\ exists v2, bufq_rep v2 [] /\
      s2 = with_bufq s1 o v2 (pop_store (is_fixed v1) buf len (cells_read (umem s) msg n) (umem s1))) s1)
    as (st & s2 & H2 & -> & v2 & Hr2 & E2).
  { apply (wp_buf_queue_recv s1 A o v1 [cells_read (umem s) msg n] _ buf len a x); try done; [by left|].
    intros d ms' v2 um _ [= <- <-] Hr2 _. eauto. }
  exists s1, s2, v2. split_and!; [done|done|..].
  - rewrite E2. simpl. rewrite <- Hd2 at 2. apply pop_store_read. by rewrite Hd2.
  - rewrite E2, Esz. simpl. rewrite <- Hd2 at 2. apply pop_store_read. by rewrite Hd2.
  - rewrite E2. apply lookup_insert_eq.
  - done.
Qed.

Lemma buf_queue_roundtrip_witness :
  exists s1 s2 v2, krhino_buf_queue_send (Some 4%nat) (Some 10%nat) 3 busy = Some (RHINO_SUCCESS, s1) /\
    krhino_buf_queue_recv (Some 4%nat) RHINO_NO_WAIT (Some 20%nat) (Some 40%nat) s1 = Some (Returned RHINO_SUCCESS, s2) /\
    cells_read (umem s2) 20 3 = cells_read (umem busy) 10 3 /\ umem s2 !! 40%nat = Some 3 /\
    bufqs (ob s2) !! 4%nat = Some v2 /\ bufq_rep v2 [].
Proof.
  apply (buf_queue_roundtrip busy (qget busy_queues) 4 (bufq_at receiving 4) 10 3 20 40).
  - exact busy_kwf.
  - exists (mkBlk BLK_POLICY_PRI RHINO_BUF_QUEUE_OBJ_TYPE). split; reflexivity.
  - reflexivity.
  - exact receiving_dyn.
  - reflexivity.
  - left. reflexivity.
  - split; [lia|discriminate].
  - reflexivity.
  - reflexivity.
  - vm_compute. lia.
Defined.

(** A byte message sent to a buffer queue a task waits for arrives: the
    send succeeds with the bytes in the buffer that task passed, and whenever
    the task runs next, the rest of its [krhino_buf_queue_recv] returns
    success with the length in the caller's variable. *)
Theorem buf_queue_delivers s A o v t ts x msg size :
  let n := Z.to_nat size in
  kwf s A -> has_type s o RHINO_BUF_QUEUE_OBJ_TYPE -> bufqs (ob s) !! o = Some v -> A (LBlk o) = t :: ts ->
  tcbs s !! t = Some x -> 0 < size <= max_msg_size v -> length (cells_read (umem s) msg n) = n ->
  length (cells_read (umem s) msg (ring_copied (bq_ringbuf v) n)) = ring_copied (bq_ringbuf v) n ->
  exists s', krhino_buf_queue_send (Some o) (Some msg) size s = Some (RHINO_SUCCESS, s') /\
    cells_read (umem s') (Z.to_nat (task_msg x)) n = cells_read (umem s) msg n /\
    forall s2 A2 len, kwf s2 A2 -> g_active_task (gl s2) = Some t -> tcbs s2 !! t = tcbs s' !! t ->
      exists s3, buf_queue_recv_end len s2 = Some (RHINO_SUCCESS, s3) /\ umem s3 !! len = Some size.
Proof.
  intros n HW Ht Hv HA Hx Hsz Hd1 Hd2.
  destruct (so_bufq _ _ _ (oi_store _ _ (kg_obj _ _ (kw_good _ _ HW)) o) Ht) as (v' & Hv' & ms & Hr & Hw).
  assert (v' = v) as -> by congruence.
  destruct (wp_run (krhino_buf_queue_send (Some o) (Some msg) size) (fun st s' => st = RHINO_SUCCESS /\
    exists A', released (redata s (ob s) (cells_write (umem s) (Z.to_nat (task_msg x)) (cells_read (umem s) msg n)))
      s' A A' t o (filled size)) s) as (st & s' & Hs & -> & A' & Hrel).
  { apply (wp_buf_queue_send s A o v ms); try done; try lia; try congruence.
    intros t' ts' x' s' A' _ E _ Hx' _ Hrel. rewrite HA in E. injection E as <- <-. rewrite Hx in Hx'. injection Hx' as <-.
    split; [done|]. by exists A'. }
  destruct Hrel as (x' & top & Hx' & Htc & _ & _ & Hum & _). simpl in Hx', Htc, Hum. assert (x' = x) as -> by congruence.
  exists s'. split_and!; [done|rewrite Hum; rewrite <- Hd1 at 2; apply cells_read_write|]. intros s2 A2 len HW2 Ha Et.
  rewrite Htc, lookup_insert_eq in Et.
  destruct (wp_run (buf_queue_recv_end len) (fun st s3 => st = RHINO_SUCCESS /\ umem s3 !! len = Some size) s2)
    as (st & s3 & H3 & -> & Hu); [|eauto].
  apply (wp_buf_queue_recv_end s2 A2 t (filled size x)); try done. intros z _. split; [done|]. apply lookup_insert_eq.
Qed.

Lemma buf_queue_delivers_witness :
  exists s', krhino_buf_queue_send (Some 4%nat) (Some 10%nat) 3 receiving = Some (RHINO_SUCCESS, s') /\
    cells_read (umem s') 20 3 = cells_read (umem receiving) 10 3 /\
    forall s2 A2 len, kwf s2 A2 -> g_active_task (gl s2) = Some 3%nat -> tcbs s2 !! 3%nat = tcbs s' !! 3%nat ->
      exists s3, buf_queue_recv_end len s2 = Some (RHINO_SUCCESS, s3) /\ umem s3 !! len = Some 3.
Proof.
  apply (buf_queue_delivers receiving (qget receiving_queues) 4 (bufq_at receiving 4) 3 [] (tcb receiving 3) 10 3).
  - exact receiving_kwf.
  - exists (mkBlk BLK_POLICY_PRI RHINO_BUF_QUEUE_OBJ_TYPE). split; reflexivity.
  - reflexivity.
  - reflexivity.
  - reflexivity.
  - split; [lia|discriminate].
  - reflexivity.
  - reflexivity.
Defined.
