(* ===== verification/SpecLife.v ===== *)
(** * Creating and deleting objects and tasks

    The life cycle of kernel objects: created from memory that is not in use,
    deleted with every waiting task told so; and of tasks: a deleted task
    leaves every list and hands its mutexes over. *)

From stdpp Require Import functions.
From S2P Require Import Prelude.
From S2P Require Import Monad.
From S2P Require Import Links.
From S2P Require Import KState.
From S2P Require Import Bitmap.
From S2P Require Import Sched.
From S2P Require Import Pend.
From S2P Require Import Inv.
From S2P Require Import MInv.
From S2P Require Import RingBuf.
From S2P Require Import ObjInv.
From S2P Require Import Resched.
From S2P Require Import Block.
From S2P Require Import Sem.
From S2P Require Import Mutex.
From S2P Require Import MutexDel.
From S2P Require Import Event.
From S2P Require Import Queue.
From S2P Require Import BufQueue.
From S2P Require Import Create.
From S2P Require Import Task.
From S2P Require Import TaskDel.
From S2P Require Import Check.
From S2P Require Import Demo.
From S2P Require Import SpecIpc.

(** ** Creation *)

(** A new object of kind [ty] with contents [P]; nothing else changed. *)
Definition new_obj (s : kstate) (A : queues) (o : oid) (ty : kobj_type_t) (P : kobjs -> Prop)
    (st : kstat_t) (s' : kstate) (A' : queues) : Prop :=
  st = RHINO_SUCCESS /\ A' = A /\ obj_created s s' A o ty /\ P (ob s').

Lemma new_obj_intro s A o ty (P : kobjs -> Prop) s' :
  obj_created s s' A o ty -> P (ob s') -> exists A', new_obj s A o ty P RHINO_SUCCESS s' A' /\ kwf s' A'.
Proof. intros HC HP. exists A. split; [done|]. by destruct HC as (os & _ & _ & HW). Qed.

(** Creating a semaphore, mutex, event, message queue or buffer queue in
    memory that is not in use (never created, or deleted and without waiting
    tasks) yields a well-formed object in its initial state (the given count
    or flags, no owner, no messages) that nobody waits for, and changes no
    other object, no task and no list. *)
Theorem create_implements s A o name :
  kwf s A -> unused s A o ->
  (forall c, 0 <= c < 2 ^ 32 -> implements (krhino_sem_create (Some o) (Some name) c) s
     (new_obj s A o RHINO_SEM_OBJ_TYPE (fun os => sems os !! o = Some (mkSem c c K_OBJ_STATIC_ALLOC)))) /\
  implements (krhino_mutex_create (Some o) (Some name)) s
    (new_obj s A o RHINO_MUTEX_OBJ_TYPE (fun os => exists v, mutexes os !! o = Some v /\ mutex_task v = None)) /\
  (forall fl, 0 <= fl < 2 ^ 32 -> implements (krhino_event_create (Some o) (Some name) fl) s
     (new_obj s A o RHINO_EVENT_OBJ_TYPE (fun os => events os !! o = Some (mkEvent fl K_OBJ_STATIC_ALLOC)))) /\
  (forall addr mem n, 0 < 4 * n < 2 ^ 32 -> 4 * n <= Z.of_nat (length mem) ->
     implements (krhino_queue_create (Some o) (Some name) (Some (addr, mem)) n) s
       (new_obj s A o RHINO_QUEUE_OBJ_TYPE (fun os => exists v, kqueues os !! o = Some v /\ queue_rep v [] /\ q_size v = n))) /\
  (forall mem size max, 0 < size < 2 ^ 32 -> size <= Z.of_nat (length mem) -> 0 < max ->
     implements (krhino_buf_queue_create (Some o) (Some name) (Some mem) size max) s
       (new_obj s A o RHINO_BUF_QUEUE_OBJ_TYPE (fun os => exists v, bufqs os !! o = Some v /\ bufq_rep v [] /\ max_msg_size v = max))) /\
  (forall mem n k, 0 < n -> 0 < n * k < 2 ^ 32 -> n * k <= Z.of_nat (length mem) ->
     implements (krhino_fix_buf_queue_create (Some o) (Some name) (Some mem) n k) s
       (new_obj s A o RHINO_BUF_QUEUE_OBJ_TYPE (fun os => exists v, bufqs os !! o = Some v /\ bufq_rep v [] /\ max_msg_size v = n))).
Proof.
  intros HW Hu. split_and!; intros; apply wp_implements.
  - apply (wp_sem_create s A); [done..|]. intros. by apply new_obj_intro.
  - apply (wp_mutex_create s A); [done..|]. intros. apply new_obj_intro; eauto.
  - apply (wp_event_create s A); [done..|]. intros. by apply new_obj_intro.
  - apply (wp_queue_create s A); [done..|]. intros. apply new_obj_intro; eauto.
  - apply (wp_buf_queue_create s A); [done..|]. intros. apply new_obj_intro; eauto.
  - apply (wp_fix_buf_queue_create s A); [done..|]. intros. apply new_obj_intro; eauto.
Qed.

Lemma create_implements_witness :
  implements (krhino_mutex_create (Some 9%nat) (Some "m"%string)) busy
    (new_obj busy (qget busy_queues) 9 RHINO_MUTEX_OBJ_TYPE (fun os => exists v, mutexes os !! 9%nat = Some v /\ mutex_task v = None)).
Proof.
  assert (unused busy (qget busy_queues) 9) as Hu.
  { split; [reflexivity|]. intros b Hb. vm_compute in Hb. discriminate Hb. }
  exact (proj1 (proj2 (create_implements busy (qget busy_queues) 9 "m"%string busy_kwf Hu))).
Defined.

(** ** Deletion *)

(** Deleting a statically allocated semaphore, event, message queue or
    buffer queue outside interrupts makes all its waiting tasks ready with
    [BLK_DEL], so that their blocking call reports the deletion, takes the
    type off the object, so that later calls are refused, and leaves the
    waiting lists of the other objects alone. *)
Theorem delete_wakes_all s A o :
  kwf s A -> g_intrpt_nested_level (gl s) = 0 ->
  let deleted ty r s' A' := r = RHINO_SUCCESS /\ woken_all s s' A A' o BLK_DEL /\ ~ has_type s' o ty in
  (forall v, has_type s o RHINO_SEM_OBJ_TYPE -> sems (ob s) !! o = Some v -> sem_mm_alloc_flag v = K_OBJ_STATIC_ALLOC ->
     implements (krhino_sem_del (Some o)) s (deleted RHINO_SEM_OBJ_TYPE)) /\
  (forall v, has_type s o RHINO_EVENT_OBJ_TYPE -> events (ob s) !! o = Some v -> event_mm_alloc_flag v = K_OBJ_STATIC_ALLOC ->
     implements (krhino_event_del (Some o)) s (deleted RHINO_EVENT_OBJ_TYPE)) /\
  (forall v, has_type s o RHINO_QUEUE_OBJ_TYPE -> kqueues (ob s) !! o = Some v -> q_mm_alloc_flag v = K_OBJ_STATIC_ALLOC ->
     implements (krhino_queue_del (Some o)) s (deleted RHINO_QUEUE_OBJ_TYPE)) /\
  (forall v, has_type s o RHINO_BUF_QUEUE_OBJ_TYPE -> bufqs (ob s) !! o = Some v -> bq_mm_alloc_flag v = K_OBJ_STATIC_ALLOC ->
     implements (krhino_buf_queue_del (Some o)) s (deleted RHINO_BUF_QUEUE_OBJ_TYPE)).
Proof.
  intros HW Hn deleted. split_and!; intros v Ht Hv Hf; apply wp_implements.
  - apply (wp_sem_del s A o v); [done..|]. intros s' A' ???. by exists A'.
  - apply (wp_event_del s A o v); [done..|]. intros s' A' ???. by exists A'.
  - apply (wp_queue_del s A o v); [done..|]. intros s' A' ???. by exists A'.
  - apply (wp_buf_queue_del s A o v); [done..|]. intros s' A' ???. by exists A'.
Qed.

Lemma delete_wakes_all_witness :
  implements (krhino_queue_del (Some 3%nat)) receiving
    (fun r s' A' => r = RHINO_SUCCESS /\ woken_all receiving s' (qget receiving_queues) A' 3 BLK_DEL /\
       ~ has_type s' 3 RHINO_QUEUE_OBJ_TYPE).
Proof.
  apply (proj1 (proj2 (proj2 (delete_wakes_all receiving (qget receiving_queues) 3 receiving_kwf eq_refl))) (queue_at receiving 3)).
  - exists (mkBlk BLK_POLICY_PRI RHINO_QUEUE_OBJ_TYPE). split; reflexivity.
  - reflexivity.
  - reflexivity.
Defined.

(** The outcomes of [krhino_mutex_del] and [krhino_task_del]. *)
Section DelOutcomes.
Context (s : kstate) (A : queues).

Inductive mutex_del_outcome (m : oid) (v : kmutex_t) : kstat_t -> kstate -> queues -> Prop :=
  | MutexDelInIsr : 0 < g_intrpt_nested_level (gl s) -> mutex_del_outcome m v RHINO_NOT_CALLED_BY_INTRPT s A
  | MutexDelDynamic : g_intrpt_nested_level (gl s) = 0 -> mutex_mm_alloc_flag v <> K_OBJ_STATIC_ALLOC ->
      mutex_del_outcome m v RHINO_KOBJ_DEL_ERR s A
  | MutexDelDone s' A' : g_intrpt_nested_level (gl s) = 0 -> mutex_mm_alloc_flag v = K_OBJ_STATIC_ALLOC ->
      mutex_deleted s s' A A' m -> mutex_del_outcome m v RHINO_SUCCESS s' A'.

Inductive task_del_outcome (t : tid) (x : ktask_t) : kstat_t -> kstate -> queues -> Prop :=
  | TaskDelInIsr : 0 < g_intrpt_nested_level (gl s) -> task_del_outcome t x RHINO_NOT_CALLED_BY_INTRPT s A
  | TaskDelDynamic : g_intrpt_nested_level (gl s) = 0 -> task_mm_alloc_flag x <> K_OBJ_STATIC_ALLOC ->
      task_del_outcome t x RHINO_KOBJ_DEL_ERR s A
  | TaskDelLocked : g_intrpt_nested_level (gl s) = 0 -> g_active_task (gl s) = Some t -> 0 < g_sched_lock (gl s) ->
      task_del_outcome t x RHINO_SCHED_DISABLE s A
  | TaskDelDone s' A' : g_intrpt_nested_level (gl s) = 0 -> task_deleted s s' A A' t x ->
      task_del_outcome t x RHINO_SUCCESS s' A'.
End DelOutcomes.

(** Deleting a mutex outside interrupts takes it from its owner, whose
    priority (and that of the tasks up the chain of owners) is recomputed
    without it, and makes every task that waits for it ready with [BLK_DEL];
    the waiting lists of the other objects keep their members. *)
Theorem mutex_del_implements s A m v :
  kwf s A -> has_type s m RHINO_MUTEX_OBJ_TYPE -> mutexes (ob s) !! m = Some v ->
  implements (krhino_mutex_del (Some m)) s (mutex_del_outcome s A m v).
Proof. intros. apply wp_implements, (wp_mutex_del s A m v); [done..| | |]; outcome. Qed.

Lemma mutex_del_implements_witness :
  implements (krhino_mutex_del (Some 1%nat)) busy
    (mutex_del_outcome busy (qget busy_queues) 1 (mkMutex (Some 3%nat) None 1 1)).
Proof.
  apply (mutex_del_implements busy (qget busy_queues)).
  - exact busy_kwf.
  - by exists (mkBlk BLK_POLICY_PRI RHINO_MUTEX_OBJ_TYPE).
  - reflexivity.
Defined.

(** C8: deleting a task of the application, in whatever state it is, takes it
    out of the ready queue, the tick list and the waiting list it is in;
    every mutex it held goes to the task that waited first for it, or
    becomes free; the owner of a mutex it waited for has its priority
    recomputed; and the highest-priority ready task runs. *)
Theorem task_del_implements s A t x :
  kwf s A -> tcbs s !! t = Some x -> live (task_state x) = true -> prio x <> RHINO_IDLE_PRI ->
  implements (krhino_task_del (Some t)) s (task_del_outcome s A t x).
Proof. intros. apply wp_implements, (wp_task_del s A t x); [done..| | | |]; outcome. Qed.

Lemma task_del_implements_witness :
  implements (krhino_task_del (Some 3%nat)) busy (task_del_outcome busy (qget busy_queues) 3 (tcb busy 3)).
Proof.
  apply (task_del_implements busy (qget busy_queues)).
  - exact busy_kwf.
  - reflexivity.
  - reflexivity.
  - discriminate.
Defined.
