(* ===== verification/SpecTimer.v ===== *)
(** * What the timer service promises

    Commands reach the timer task as they were meant and do what they say;
    the timer task never faults and never hangs; as long as it runs on time
    every timer is run at its time, and all timers due at a tick are run at
    that tick.  Two theorems show where the code falls short: when the timer
    task is late, and when a timer is given a period out of range. *)

From stdpp Require Import functions.
From S2P Require Import Prelude.
From S2P Require Import Monad.
From S2P Require Import Links.
From S2P Require Import KState.
From S2P Require Import Bitmap.
From S2P Require Import Sched.
From S2P Require Import Pend.
From S2P Require Import Inv.
From S2P Require Import MInv.
From S2P Require Import RingBuf.
From S2P Require Import ObjInv.
From S2P Require Import Resched.
From S2P Require Import Block.
From S2P Require Import BufQueue.
From S2P Require Import Task.
From S2P Require Import Timer.
From S2P Require Import TimerInv.
From S2P Require Import TimerTask.
From S2P Require Import TimerApi.
From S2P Require Import Sys.
From S2P Require Import Check.
From S2P Require Import Demo.
From S2P Require Import SpecIpc.

(** ** Concrete timers *)

(** A checker for [tinv]. *)
Section TimerCheck.
Implicit Types (s : tstate) (L : list nat) (t : nat) (x : ktimer_t).

Definition timer_chk L t x : Prop :=
  (t ∈ L /\ to_head x = Some NTimerHead /\ timer_state x = TIMER_ACTIVE /\ timer_obj_type x = RHINO_TIMER_OBJ_TYPE \/
   (t ∉ L) /\ to_head x = None /\ timer_state x = TIMER_DEACTIVE) /\ timer_ok x.

#[export] Instance timer_ok_dec x : Decision (timer_ok x).
Proof. unfold timer_ok. apply _. Defined.

Definition tinv_chk s L : Prop :=
  ring (t_links s) (tring L tt) /\ NoDup (tring L tt) /\ Forall (fun t => is_Some (timers s !! t)) L /\
  map_Forall (timer_chk L) (timers s).

#[export] Instance timer_chk_dec L t x : Decision (timer_chk L t x).
Proof. unfold timer_chk. apply _. Defined.

#[export] Instance tinv_chk_dec s L : Decision (tinv_chk s L).
Proof. unfold tinv_chk. apply _. Defined.

Lemma tinv_chk_sound s L : tinv_chk s L -> tinv s L.
Proof.
  intros (Hr & Hnd & HL & Hm). split.
  - split; [by intros []..|]. by intros [] [].
  - intros t. split.
    + intros Ht. destruct (proj1 (Forall_forall _ _) HL t Ht) as [x Hx]. exists x. split; [done|].
      destruct (Hm _ _ Hx) as [[(_ & -> & _)|(? & _)] _]; done.
    + intros (x & Hx & Hh). destruct (Hm _ _ Hx) as [[(? & _)|(_ & ? & _)] _]; done.
  - intros t x Hx. destruct (Hm _ _ Hx) as [[(_ & Eh & Es & Ey)|(_ & Eh & Es)] _]; rewrite Eh, Es; split; naive_solver.
  - intros t x Hx. apply (Hm _ _ Hx).
Qed.
End TimerCheck.

(** After [ktimer_init]; timers 1, 2 and 3 with first times 4, 5, 6, periods
    10, 10 and 20, and timer 4, which runs once after 5 ticks. *)
Definition idle_timers : tstate :=
  mkT (mkL {[NTimerHead := NTimerHead]} {[NTimerHead := NTimerHead]})
    (list_to_map (imap (fun i '(first, round) => (S i, timer_fields 7 first round 0 RHINO_TIMER_OBJ_TYPE K_OBJ_STATIC_ALLOC))
       [(4, 10); (5, 10); (6, 20); (5, 0)])) 0 [].

Definition plain_cb (t : nat) (num : Z) : k_timer_queue_cb := mkCb t num 0 0 0.

Definition start_timers (ts : list nat) : st tstate timer_pc :=
  foldr (fun t m => timer_task_received RHINO_SUCCESS (plain_cb t TIMER_CMD_START) 0 ;; m) (ret AtLoop) ts.

Definition tfinal {T : Type} (m : st tstate T) (s : tstate) : tstate :=
  match m s with Some (_, s') => s' | None => s end.

(** All four started at time 0. *)
Definition busy_timers : tstate := Eval vm_compute in tfinal (start_timers [1; 2; 3; 4]%nat) idle_timers.

Lemma idle_timers_inv : tinv idle_timers [].
Proof. apply tinv_chk_sound. refine (bool_decide_unpack _ _). vm_compute. exact I. Qed.

Lemma busy_timers_inv : tinv busy_timers [1; 2; 4; 3]%nat.
Proof. apply tinv_chk_sound. refine (bool_decide_unpack _ _). vm_compute. exact I. Qed.


(** The queue of a system with a timer service, on top of [started]. *)
Definition timer_system : kstate := Eval vm_compute in final
  (krhino_fix_buf_queue_create (Some 50%nat) (Some "timer_queue"%string) (Some (replicate 480 0)) sizeof_cb RHINO_CONFIG_TIMER_MSG_NUM ;;
   umem_copy 200 (replicate 24 0)) started.

Definition timer_system_queues : list (lid * list tid) := (LBlk 50, []) :: started_queues.

Lemma timer_system_kwf : kwf timer_system (qget timer_system_queues).
Proof. apply (kwf_chk_sound _ _ []). refine (bool_decide_unpack _ _). vm_compute. exact I. Qed.

Lemma timer_system_queue : timer_queue_ok timer_system 50 (bufq_at timer_system 50) [].
Proof.
  split_and!; [exists (mkBlk BLK_POLICY_PRI RHINO_BUF_QUEUE_OBJ_TYPE); split; reflexivity|reflexivity| |reflexivity..].
  split; [|reflexivity|vm_compute; done]. change (fix_rep (bq_ringbuf (bufq_at timer_system 50)) []).
  apply fix_chk_sound. refine (bool_decide_unpack _ _). vm_compute. exact I.
Qed.

(** ** Theorems *)

(** Every call of the timer interface with a timer sends the command it
    stands for: when the call succeeds, the bytes that are stored in the
    timer queue, or copied into the buffer of the waiting timer task, decode
    to the timer, the command and the data of the call; a full queue is
    reported; times of 2^64 - 1 are refused. *)
Theorem timer_command_sent s A o v ms cb t :
  kwf s A -> timer_queue_ok s o v ms -> length (cells_read (umem s) cb 24) = 24%nat -> Z.of_nat t < 2 ^ 32 ->
  let sends m P := implements m s (command_sent s A o v ms cb P) in
  sends (krhino_timer_start o cb (Some t)) (fun c => cb_timer c = t /\ cb_num c = TIMER_CMD_START) /\
  sends (krhino_timer_stop o cb (Some t)) (fun c => cb_timer c = t /\ cb_num c = TIMER_CMD_STOP) /\
  sends (krhino_timer_del o cb (Some t)) (fun c => cb_timer c = t /\ cb_num c = TIMER_CMD_DEL) /\
  (forall arg, 0 <= arg < 2 ^ 32 ->
     sends (krhino_timer_arg_change o cb (Some t) arg) (fun c => cb_timer c = t /\ cb_num c = TIMER_ARG_CHG /\ u_arg c = arg) /\
     sends (krhino_timer_arg_change_auto o cb (Some t) arg)
       (fun c => cb_timer c = t /\ cb_num c = TIMER_ARG_CHG_AUTO /\ u_arg c = arg)) /\
  (forall first round, 0 <= first < 2 ^ 64 - 1 -> 0 <= round < 2 ^ 64 - 1 ->
     sends (krhino_timer_change o cb (Some t) first round)
       (fun c => cb_timer c = t /\ cb_num c = TIMER_CMD_CHG /\ cb_first c = first /\ u_round c = round)).
Proof.
  intros HW HT Hl Ht sends. split_and!; try (intros arg Ha; split); try intros first round Hf Hr; apply wp_implements.
  1-3: apply (wp_plain_command s A o v ms cb t); eauto.
  1-2: apply (wp_arg_command s A o v ms cb t); eauto.
  apply (wp_change_command s A o v ms cb t first round); eauto; lia.
Qed.

Lemma timer_command_sent_witness :
  implements (krhino_timer_change 50 200 (Some 1%nat) 5 7) timer_system
    (command_sent timer_system (qget timer_system_queues) 50 (bufq_at timer_system 50) [] 200
       (fun c => cb_timer c = 1%nat /\ cb_num c = TIMER_CMD_CHG /\ cb_first c = 5 /\ u_round c = 7)).
Proof.
  destruct (timer_command_sent timer_system (qget timer_system_queues) 50 (bufq_at timer_system 50) [] 200 1)
    as (_ & _ & _ & _ & H).
  - exact timer_system_kwf.
  - exact timer_system_queue.
  - reflexivity.
  - lia.
  - apply H; lia.
Defined.

(** The timer task carries out a command by its outcome: a timer that is
    started is put into the list behind the timers that are due no later, a
    timer that is stopped is taken out, changes apply to timers that are not
    active, and everything else is dropped; the list holds exactly the
    active timers afterwards and stays in order of time if it was. *)
Theorem timer_command_implements s L cb :
  tinv s L -> cb_ok s cb ->
  exists s' L', timer_cmd_proc cb s = Some (tt, s') /\ command_done s L cb s' L' /\ tinv s' L' /\ (tsorted s L -> tsorted s' L').
Proof.
  intros HI Hcb.
  assert (wp (timer_cmd_proc cb) (fun _ s' => exists L', command_done s L cb s' L' /\ tinv s' L' /\ (tsorted s L -> tsorted s' L')) s)
    as ([] & s' & E & L' & H)%wp_run; [|by exists s', L'].
  apply (wp_timer_cmd_proc s L); [done..|]. intros s' L' ?????. by exists L'.
Qed.

Lemma timer_command_implements_witness :
  exists s' L', timer_cmd_proc (mkCb 2 TIMER_ARG_CHG_AUTO 0 0 9) busy_timers = Some (tt, s') /\
    command_done busy_timers [1; 2; 4; 3]%nat (mkCb 2 TIMER_ARG_CHG_AUTO 0 0 9) s' L' /\ tinv s' L' /\
    (tsorted busy_timers [1; 2; 4; 3]%nat -> tsorted s' L').
Proof.
  apply timer_command_implements.
  - exact busy_timers_inv.
  - split_and!; [vm_compute; eauto|by right|discriminate].
Defined.





(** All timers that are due at a tick are run at that tick: when the timer
    task reaches its loop in time, it runs every timer that is due exactly
    once, in order, re-arms the periodic ones for one period later,
    deactivates the others, touches no other timer, and then waits for the
    first of the remaining timers, or for a command if there is none. *)
Theorem timers_due_all_run now s L :
  let at_now s := set_timer_count now s in
  tinv s L -> tsorted (at_now s) L ->
  exists s' L', timer_task_run (replicate (S (length L)) now) s = Some (wait_pc (at_now s') L', s') /\
    fired (at_now s) (at_now s') (dues (at_now s) L) /\ tinv s' L' /\ Forall (fun t => 0 < rest (at_now s') t) L'.
Proof.
  intros at_now HI Hs. destruct (tsorted_split _ _ Hs) as (D & R & -> & HD & HR). rewrite (dues_split _ D R) by done.
  assert (wp (timer_task_run (replicate (S (length (D ++ R))) now)) (fun pc s' => exists L', pc = wait_pc (at_now s') L' /\
    fired (at_now s) (at_now s') D /\ tinv s' L' /\ Forall (fun t => 0 < rest (at_now s') t) L') s)
    as (pc & s' & E & L' & -> & H)%wp_run; [|by exists s', L'].
  apply (wp_task_run now _ s D R); [done..|rewrite length_app; lia|]. intros s' R' ????. by exists R'.
Qed.

Lemma timers_due_all_run_witness :
  let at_now s := set_timer_count 4 s in
  exists s' L', timer_task_run (replicate 5 4) busy_timers = Some (wait_pc (at_now s') L', s') /\
    fired (at_now busy_timers) (at_now s') (dues (at_now busy_timers) [1; 2; 4; 3]%nat) /\ tinv s' L' /\
    Forall (fun t => 0 < rest (at_now s') t) L'.
Proof.
  apply (timers_due_all_run 4 busy_timers [1; 2; 4; 3]%nat).
  - exact busy_timers_inv.
  - split; [|repeat constructor]. repeat constructor; vm_compute; discriminate.
Defined.

(** ** Where the code falls short *)

(** When the timer task is two ticks late, a pass over the list can leave a
    timer that is due behind a periodic timer it puts back in front of it:
    timers 1, 2 and 3 are set for ticks 4, 5 and 6; the task runs at tick 6,
    runs 1 and 2, and then waits for ten ticks, although timer 3 is due. *)
Definition late_run : st tstate timer_pc :=
  start_timers [1; 2; 3]%nat ;;
  timer_task_timed RHINO_BLK_TIMEOUT (plain_cb 0 0) 6 ;;
  timer_task_run [6; 6; 6].

Theorem late_pass_skips_due_timer :
  exists s', late_run idle_timers = Some (AtRecvFor 10, s') /\
    (run_timer <$> calls s') = [1; 2]%nat /\ due_b s' 3 = true /\ (tm_match <$> timers s' !! 3%nat) = Some 6.
Proof. exists (tfinal late_run idle_timers). split_and!; vm_compute; reflexivity. Qed.

(** [krhino_timer_change] accepts any period below 2^64 - 1, unlike
    [krhino_timer_create]; with a period of 2^64 - 2 the timer is due again as
    soon as it was run: the timer task runs its callback without end in the
    same tick and never waits. *)
Definition spinning (runs : list timer_run) : tstate :=
  mkT (mkL {[NTimerHead := NTimer 1; NTimer 1 := NTimerHead]} {[NTimerHead := NTimer 1; NTimer 1 := NTimerHead]})
    {[1%nat := mkTimer (Some NTimerHead) 7 0 (2 ^ 64 - 1) (2 ^ 64 - 2) 1 (2 ^ 64 - 2) RHINO_TIMER_OBJ_TYPE TIMER_ACTIVE K_OBJ_STATIC_ALLOC]}
    1 runs.

Theorem timer_change_period_unchecked n runs :
  timer_task_run (replicate n 1) (spinning runs) = Some (AtLoop, spinning (runs ++ replicate n (mkRun 1 7 0 (2 ^ 64 - 1) 1))).
Proof.
  revert runs. induction n as [|n IH]; intros runs; [by rewrite app_nil_r|].
  change (replicate (S n) (mkRun 1 7 0 (2 ^ 64 - 1) 1)) with (mkRun 1 7 0 (2 ^ 64 - 1) 1 :: replicate n (mkRun 1 7 0 (2 ^ 64 - 1) 1)).
  rewrite cons_middle, app_assoc, <- IH. simpl. reflexivity.
Qed.

(** Such a state is reached by the commands to change and start a timer. *)
Definition to_spinning : st tstate timer_pc :=
  timer_task_received RHINO_SUCCESS (mkCb 1 TIMER_CMD_CHG 1 (2 ^ 64 - 2) 0) 0 ;;
  timer_task_received RHINO_SUCCESS (plain_cb 1 TIMER_CMD_START) 0 ;;
  timer_task_run [1].

Lemma timer_change_period_accepted :
  let s := set_timers {[1%nat := timer_fields 7 5 0 0 RHINO_TIMER_OBJ_TYPE K_OBJ_STATIC_ALLOC]} idle_timers in
  to_spinning s = Some (AtLoop, spinning [mkRun 1 7 0 1 1]).
Proof. vm_compute. reflexivity. Qed.
