(* ===== verification/SpecKv.v ===== *)
(** * The key-value store: what it promises *)

From stdpp Require Import gmap functions.
From S2P Require Import Prelude.
From S2P Require Import Monad.
From S2P Require Import KvBlock.
From S2P Require Import KvSet.
From S2P Require Import KvRep.
From S2P Require Import KvStore.
From S2P Require Import KvOps.
From S2P Require Import KvGc.
From S2P Require Import KvVerify.
From S2P Require Import KvBoot.

(** ** A flash memory

    Writing clears bits; outside the memory nothing is written. *)

Definition nor_write_fn (mem : list Z) (pos : nat) (data : list Z) : list Z :=
  if (pos + length data <=? length mem)%nat
  then take pos mem ++ zip_with Z.land (take (length data) (drop pos mem)) data ++ drop (pos + length data) mem
  else mem.

Lemma nor_write_fn_length mem pos data : length (nor_write_fn mem pos data) = length mem.
Proof.
  unfold nor_write_fn. destruct (Nat.leb_spec (pos + length data) (length mem)); [|done].
  rewrite !length_app, length_zip_with, !length_take, !length_drop. lia.
Qed.

Lemma nor_write_fn_frame mem pos data i : (i < pos \/ pos + length data <= i)%nat -> nor_write_fn mem pos data !! i = mem !! i.
Proof.
  unfold nor_write_fn. destruct (Nat.leb_spec (pos + length data) (length mem)); [|done]. intros [Hi|Hi].
  - rewrite lookup_app_l by (rewrite length_take; lia). by apply lookup_take_lt.
  - rewrite app_assoc, lookup_app_r by (rewrite length_app, length_zip_with, !length_take, length_drop; lia).
    rewrite length_app, length_zip_with, !length_take, length_drop, lookup_drop. f_equal. lia.
Qed.

#[export] Instance nor_ops : FlashOps.
Proof.
  refine (mkFlashOps nor_write_fn (fun mem => replicate (length mem) 0xff) nor_write_fn_length nor_write_fn_frame _).
  intros mem. apply length_replicate.
Defined.

#[export] Instance nor_flash : NorFlash.
Proof.
  constructor; [|done]. intros mem pos data Hl. simpl. unfold nor_write_fn.
  by destruct (Nat.leb_spec (pos + length data) (length mem)); [|lia].
Qed.

(** ** The store is a map *)

Section Claims.
Context `{NorFlash} (junk : nat -> Z) (realloc_ok : nat -> bool).
Implicit Types (s : kv_t) (bess : list (list entry)) (M : gmap (list Z) (list Z)).











(** ** Garbage collection *)

(** C16: Garbage collection ends without a fault and loses nothing from flash
    memory.  With a block kept free, kv_gc returns 0 when it emptied a block:
    the flash memory then holds the same map, the block kept free is another
    one and blank, and the cache and the current block are those of before.
    It returns -1 and changes nothing when no other block with entries fits
    into the free space of that block. *)
Theorem kv_gc_keeps_map s bess M g :
  flash_inv s bess M -> gc_bid s = Z.of_nat g -> (g < length (blocks s))%nat ->
  wp (kv_gc junk) (fun r s' =>
    (r = 0 /\ (exists bess', flash_inv s' bess' M) /\ bid s' = bid s /\ cache s' = cache s /\
      exists m b, gc_bid s' = Z.of_nat m /\ m <> g /\ blocks s' !! m = Some b /\ write_offset b = 0%nat) \/
    (r = -1 /\ s' = s /\ forall i b bg, blocks s !! i = Some b -> i <> g -> (0 < kv_size b)%nat -> blocks s !! g = Some bg ->
      (bsize bg - write_offset bg <= kv_size b)%nat)) s.
Proof.
  intros Hfi Hg Hlt. apply (wp_kv_gc junk s bess M g); [done..| |].
  - intros s' bess' m b Hfi' Hgc Hm Hb Hw Hbid Hc _. left. split; [done|]. split; [by exists bess'|]. eauto 10.
  - intros Hmax. by right.
Qed.

(** ** Power failures *)

(** C15: kv_init recovers the store from flash memory.  When the blocks hold
    entries that no two share a key, or of which one was written to replace
    another that is still there, the store after kv_init is consistent and
    holds the map of the entries without the replaced one.  Only when the cache
    cannot be enlarged is -1 returned, and flash memory holds that map. *)
Theorem kv_init_recovers cached_size mems ess T size s :
  (512 <= size)%nat -> (size mod 4 = 0)%nat -> Z.of_nat size <= 2 ^ 15 -> (0 < length mems)%nat -> Z.of_nat (length mems) <= 2 ^ 15 ->
  Forall2 (fun m es => mem_rep m size es) mems ess -> recovers ess T ->
  wp (kv_init realloc_ok true true cached_size mems size) (fun r s' => exists bess,
    (r = 0 /\ kv_inv s' bess (list_to_map (lpair <$> T))) \/
    (r = -1 /\ flash_inv s' bess (list_to_map (lpair <$> T)) /\ exists n, realloc_ok n = false)) s.
Proof.
  intros H1 H2 H3 H4 H5 Hr Hrec. apply (wp_kv_init realloc_ok cached_size mems ess T size); [done..| |].
  - intros s' bess Hinv _ _. exists bess. by left.
  - intros s' bess n Hfi Hn. exists bess. right. eauto.
Qed.

(** The memory of consistent blocks of one size. *)
Lemma flash_mems s bess size : flash_rep s bess -> Forall (fun b => bsize b = size) (blocks s) ->
  Forall2 (fun m es => mem_rep m size es) (mem <$> blocks s) bess.
Proof.
  intros Hf Hs. apply Forall2_fmap_l. induction Hf as [|b es bs bess Hb _ IH]; [constructor|].
  apply Forall_cons in Hs as [<- Hs]. constructor; [by apply br_rep | by apply IH].
Qed.

(** [kv_set] up to the write of the new entry to block [i]; then the power
    fails, and the store starts again. *)
Definition set_cut_off (i : nat) (key val : list Z) (cached_size size : nat) : K Z :=
  r <- kv_find key node0 ;;
  let '(found, node) := r in
  kvblock_set junk i key val (next_version (found =? 0) node 0) ;;
  mems <- gets (fun s => mem <$> blocks s) ;;
  kv_init realloc_ok true true cached_size mems size.

Lemma next_version_next i off e : is_byte (e_ver e) -> Z.land (next_version true (node_at i off e) 0) 0xff = next_ver (e_ver e).
Proof.
  intros He. unfold next_version, next_ver. cbn [version node_at]. destruct (Z.eqb_spec (e_ver e) 255) as [_|]; [done|].
  apply byte_land. unfold is_byte in *. lia.
Qed.

(** The entries after the write. *)
Lemma set_recovers s bess M key val i es e : kv_inv s bess M -> bess !! i = Some es -> e_valid e = true -> e_key e = key -> e_val e = val ->
  (key ∉ (lkey <$> vlocs bess) \/ exists l, l ∈ vlocs bess /\ lkey l = key /\ e_ver e = next_ver (e_ver l.2)) ->
  exists T, recovers (<[i := es ++ [e]]> bess) T /\ list_to_map (lpair <$> T) = <[key := val]> M.
Proof.
  intros [[Hf Hnum Hnd Hmap] _ _] Hi Hv Hk Hval Hold. pose proof (vlocs_append bess i es e Hi Hv) as Hp.
  set (ln := (i, esizes es, e)) in *. assert (Hln : lpair ln = (key, val)) by (unfold lpair; simpl; by rewrite Hk, Hval).
  destruct Hold as [Hnew|(l & Hl & Hlk & Hver)].
  - exists (ln :: vlocs bess). split; [left; split; [done|]; simpl; constructor; [unfold lkey; simpl; by rewrite Hk | done]|].
    rewrite fmap_cons, Hln. simpl. by rewrite Hmap.
  - apply elem_of_Permutation in Hl as [r Hr]. pose proof Hnd as Hnd'. rewrite Hr in Hnd'. simpl in Hnd'. apply NoDup_cons in Hnd' as [Hn Hndr].
    assert (HndT : NoDup (lkey <$> (ln :: r))) by (simpl; constructor; [unfold lkey at 1; simpl; rewrite Hk, <- Hlk; done | done]).
    exists (ln :: r). split.
    + right. exists l, ln. constructor.
      * rewrite Hp, Hr. apply Permutation_swap.
      * done.
      * apply elem_of_cons. by left.
      * unfold lkey at 1. simpl. congruence.
      * done.
    + rewrite fmap_cons, Hln, Hmap. simpl. rewrite (content_perm bess (l :: r)) by (done || by rewrite <- Hr). simpl.
      unfold lkey in Hlk. rewrite Hlk, insert_insert_eq. done.
Qed.

(** C14: Setting a key survives a power failure between its two changes of
    flash memory.  When the power fails after the new entry was written and
    before the old entry of the key was removed, the store holds the new value
    after the next start, and all other keys keep theirs, whatever the version
    numbers (their wrap-around included). *)
Theorem kv_set_power_failure s bess M i key val cached_size size :
  kv_inv s bess M -> Forall (fun b => bsize b = size) (blocks s) -> (512 <= size)%nat ->
  key_ok key -> Forall is_byte val -> (length val < 1024)%nat -> fits s key val i ->
  wp (set_cut_off i key val cached_size size) (fun r s' => exists bess',
    (r = 0 /\ kv_inv s' bess' (<[key := val]> M)) \/
    (r = -1 /\ flash_inv s' bess' (<[key := val]> M) /\ exists n, realloc_ok n = false)) s.
Proof.
  intros Hinv Hsize H512 Hk Hv Hvl Hfit. pose proof Hinv as [[Hf Hnum Hnd Hmap] _ Hbid].
  destruct Hfit as (b & Hb & _ & Hroom). destruct (Forall2_lookup_l _ _ _ _ _ Hf Hb) as (es & Hes & Hr).
  assert (Hbs : bsize b = size) by (by apply (Forall_lookup_1 _ _ _ _ Hsize Hb)).
  assert (Hgo : forall ver, (key ∉ (lkey <$> vlocs bess) \/ exists l, l ∈ vlocs bess /\ lkey l = key /\ Z.land ver 0xff = next_ver (e_ver l.2)) ->
    wp (kvblock_set junk i key val ver ;; mems <- gets (fun s => mem <$> blocks s) ;; kv_init realloc_ok true true cached_size mems size)
      (fun r s' => exists bess', (r = 0 /\ kv_inv s' bess' (<[key := val]> M)) \/
        (r = -1 /\ flash_inv s' bess' (<[key := val]> M) /\ exists n, realloc_ok n = false)) s).
  { intros ver Hver. apply wp_bind, (wp_kvblock_set junk i b es); [done..| lia |]. intros pad b' e He Hsz Hr' Hbs' _.
    apply wp_bind, wp_gets. pose proof (flash_put _ _ i _ _ Hf Hr') as Hf'.
    destruct (set_recovers s bess M key val i es e Hinv Hes eq_refl eq_refl eq_refl Hver) as (T & Hrec & <-).
    assert (Hlen : length (mem <$> blocks (with_block i b' s)) = length bess) by (by rewrite length_fmap, (Forall2_length _ _ _ Hf'), length_insert).
    pose proof (br_size _ _ Hr) as [Hs4 Hs15]. rewrite Hbs in Hs4, Hs15. pose proof (Forall2_length _ _ _ Hf).
    pose proof (lookup_lt_Some _ _ _ Hes).
    apply (wp_kv_init realloc_ok cached_size _ (<[i := es ++ [e]]> bess) T size); [done..| lia | lia | | done | |].
    - apply flash_mems; [done|]. simpl. apply Forall_insert; [done | congruence].
    - intros s' bess' Hinv' _ _. exists bess'. by left.
    - intros s' bess' n Hfi Hn. exists bess'. right. eauto. }
  unfold set_cut_off. apply wp_bind, (wp_kv_find s bess M); [done | eapply Forall_impl; [apply Hk | simpl; lia] | |].
  - intros i' off e Hl He _. cbn iota. apply Hgo. right. exists (i', off, e). split; [done|]. split; [done|].
    apply next_version_next. destruct (loc_entry _ _ _ _ _ Hf Hl) as [Hok _]. apply Hok.
  - intros n Hn _. cbn iota. apply Hgo. by left.
Qed.
End Claims.

(** ** A store with one entry *)

Definition e1 : entry := mkEntry [65] [1; 2] 1 [7; 7; 7] true.
Definition demo_block : kvblock_t := mkBlock (image e1 ++ replicate 496 0xff) 512 16 16 0 1 0.
Definition blank_block : kvblock_t := mkBlock (replicate 512 0xff) 512 0 0 0 0 0.
Definition demo_store : kv_t := mkKv [demo_block; blank_block] 0 1 [lcache (0%nat, 0%nat, e1); free_cache].
Definition demo_map : gmap (list Z) (list Z) := {[ [65] := [1; 2] ]}.
Definition no_junk (i : nat) : Z := 7.
Definition always (n : nat) : bool := true.

Lemma e1_ok : entry_ok e1.
Proof.
  constructor; [simpl; lia | | simpl; lia | | unfold is_byte; simpl; lia | done];
    repeat (apply Forall_cons; split; [unfold is_byte; lia|]); done.
Qed.

Lemma demo_block_rep : block_rep demo_block [e1].
Proof. constructor; try (vm_compute; reflexivity); [apply Forall_singleton, e1_ok | simpl; lia | split; [done | simpl; lia]]. Qed.

Lemma blank_block_rep : block_rep blank_block [].
Proof. apply block_rep_empty; [lia | done | lia]. Qed.

Lemma demo_flash : flash_inv demo_store [[e1]; []] demo_map.
Proof.
  constructor.
  - constructor; [apply demo_block_rep | constructor; [apply blank_block_rep | constructor]].
  - simpl. lia.
  - vm_compute. repeat constructor. by intros ?%elem_of_nil.
  - apply map_eq. intros k. unfold demo_map, content. by vm_compute.
Qed.

Lemma demo_inv : kv_inv demo_store [[e1]; []] demo_map.
Proof. constructor; [apply demo_flash | by vm_compute | simpl; lia]. Qed.


Lemma kv_gc_keeps_map_witness :
  flash_inv demo_store [[e1]; []] demo_map /\
  wp (kv_gc no_junk) (fun r s' =>
    (r = 0 /\ (exists bess', flash_inv s' bess' demo_map) /\ bid s' = bid demo_store /\ cache s' = cache demo_store /\
      exists m b, gc_bid s' = Z.of_nat m /\ m <> 1%nat /\ blocks s' !! m = Some b /\ write_offset b = 0%nat) \/
    (r = -1 /\ s' = demo_store /\ forall i b bg, blocks demo_store !! i = Some b -> i <> 1%nat -> (0 < kv_size b)%nat ->
      blocks demo_store !! 1%nat = Some bg -> (bsize bg - write_offset bg <= kv_size b)%nat)) demo_store.
Proof.
  split; [apply demo_flash|]. apply (kv_gc_keeps_map no_junk demo_store [[e1]; []] demo_map 1).
  - apply demo_flash.
  - reflexivity.
  - simpl. lia.
Defined.

(** The key of [e1] with a newer value. *)
Definition e2 : entry := mkEntry [65] [5; 6] 2 [7; 7; 7] true.
Definition twice_mem : list Z := image e1 ++ image e2 ++ replicate 480 0xff.

Lemma e2_ok : entry_ok e2.
Proof.
  constructor; [simpl; lia | | simpl; lia | | unfold is_byte; simpl; lia | done];
    repeat (apply Forall_cons; split; [unfold is_byte; lia|]); done.
Qed.

Lemma twice_rep : mem_rep twice_mem 512 [e1; e2].
Proof.
  constructor; [apply Forall_cons; split; [apply e1_ok | apply Forall_singleton, e2_ok] | by vm_compute | vm_compute; lia].
Qed.

Lemma twice_recovers : recovers [[e1; e2]] [(0%nat, 16%nat, e2)].
Proof.
  right. exists (0%nat, 0%nat, e1), (0%nat, 16%nat, e2). constructor; try done; [|by apply list_elem_of_singleton].
  simpl. apply NoDup_singleton.
Qed.

Lemma kv_init_recovers_witness : recovers [[e1; e2]] [(0%nat, 16%nat, e2)] /\
  wp (kv_init always true true 4 [twice_mem] 512) (fun r s' => exists bess,
    (r = 0 /\ kv_inv s' bess (list_to_map (lpair <$> [(0%nat, 16%nat, e2)]))) \/
    (r = -1 /\ flash_inv s' bess (list_to_map (lpair <$> [(0%nat, 16%nat, e2)])) /\ exists n, always n = false)) demo_store.
Proof.
  split; [apply twice_recovers|].
  apply (kv_init_recovers always 4 [twice_mem] [[e1; e2]] [(0%nat, 16%nat, e2)] 512 demo_store).
  - lia.
  - reflexivity.
  - lia.
  - simpl. lia.
  - simpl. lia.
  - constructor; [apply twice_rep | constructor].
  - apply twice_recovers.
Defined.

Lemma kv_set_power_failure_witness : kv_inv demo_store [[e1]; []] demo_map /\
  wp (set_cut_off no_junk always 0 [65] [9] 4 512) (fun r s' => exists bess',
    (r = 0 /\ kv_inv s' bess' (<[[65] := [9]]> demo_map)) \/
    (r = -1 /\ flash_inv s' bess' (<[[65] := [9]]> demo_map) /\ exists n, always n = false)) demo_store.
Proof.
  split; [apply demo_inv|]. apply (kv_set_power_failure no_junk always demo_store [[e1]; []] demo_map 0 [65] [9] 4 512).
  - apply demo_inv.
  - apply Forall_cons; split; [done | by apply Forall_singleton].
  - lia.
  - split; [simpl; lia | apply Forall_singleton; lia].
  - apply Forall_singleton. unfold is_byte. lia.
  - simpl. lia.
  - exists demo_block. split; [done|]. split; [done|]. vm_compute. lia.
Defined.

(** ** Keys that garbage collection loses *)

Definition boot : K Z := kv_init always true true 4 (replicate 3 (replicate 512 0xff)) 512.
Definition put (c : Z) (n : nat) : K Z := kv_set no_junk always (Some [c]) (Some (replicate n c)).

(** Three blocks; [op] is called when the two that may be written are nearly
    full.  The answers to a read of key 65 before [op], of [op], to a read
    after it, and to a read after a restart. *)
Definition before_and_after (op : K Z) : K (Z * Z * Z * Z) :=
  boot ;; put 65 100 ;; put 66 400 ;; put 67 250 ;; put 67 20 ;;
  a <- kv_get [65] 100 ;;
  r <- op ;;
  b <- kv_get [65] 100 ;;
  mems <- gets (fun s => mem <$> blocks s) ;;
  kv_init always true true 4 mems 512 ;;
  c <- kv_get [65] 100 ;;
  ret (fst a, r, fst b, fst c).

(** Garbage collection leaves the cache as it is, so that the keys it moves
    are not found until the next start: setting another key makes kv_gc run;
    the value of key 65, which could be read before and is in flash memory, is
    then reported as missing. *)
Example gc_hides_moved_key : fst <$> before_and_after (put 68 110) demo_store = Some (100, 110, -1, 100).
Proof. vm_compute. reflexivity. Qed.

(** The same happens when kv_set refuses a key that is too long: it runs
    kv_gc before it returns -1. *)
Example refused_key_hides_key :
  fst <$> before_and_after (kv_set no_junk always (Some (replicate 64 68)) (Some [1])) demo_store = Some (100, -1, -1, 100).
Proof. vm_compute. reflexivity. Qed.
