(* ===== verification/SpecTask.v ===== *)
(** * What the scheduler and the task services promise

    As in [SpecIpc]: an outcome relation per operation of k_task.c, k_sched.c,
    k_sys.c and k_tick.c, and the theorem that the operation implements it. *)

From stdpp Require Import functions.
From S2P Require Import Prelude.
From S2P Require Import Monad.
From S2P Require Import Links.
From S2P Require Import KState.
From S2P Require Import Bitmap.
From S2P Require Import Sched.
From S2P Require Import Pend.
From S2P Require Import Inv.
From S2P Require Import MInv.
From S2P Require Import ObjInv.
From S2P Require Import Resched.
From S2P Require Import Block.
From S2P Require Import Prio.
From S2P Require Import PrioInv.
From S2P Require Import Tick.
From S2P Require Import Sem.
From S2P Require Import Mutex.
From S2P Require Import Event.
From S2P Require Import Task.
From S2P Require Import Sys.
From S2P Require Import Check.
From S2P Require Import Demo.
From S2P Require Import SpecIpc.

Section Outcomes.
Context (s : kstate) (A : queues).

Inductive suspend_outcome (t : tid) (x : ktask_t) : kstat_t -> kstate -> queues -> Prop :=
  | SuspendIdle : prio x = RHINO_IDLE_PRI -> suspend_outcome t x RHINO_TASK_SUSPEND_NOT_ALLOWED s A
  | SuspendLocked : prio x <> RHINO_IDLE_PRI -> g_active_task (gl s) = Some t -> 0 < g_sched_lock (gl s) ->
      suspend_outcome t x RHINO_SCHED_DISABLE s A
  | SuspendOvf : prio x <> RHINO_IDLE_PRI -> is_susp (task_state x) = true -> suspend_count x = 255 ->
      suspend_outcome t x RHINO_SUSPENDED_COUNT_OVF s A
  | SuspendDone s' A' : prio x <> RHINO_IDLE_PRI -> (is_susp (task_state x) = true -> suspend_count x <> 255) ->
      suspend_post s s' A A' t x -> suspend_outcome t x RHINO_SUCCESS s' A'.

Inductive resume_outcome (t : tid) (x : ktask_t) : kstat_t -> kstate -> queues -> Prop :=
  | ResumeNot : task_state x = K_RDY \/ task_state x = K_SLEEP \/ task_state x = K_PEND ->
      resume_outcome t x RHINO_TASK_NOT_SUSPENDED s A
  | ResumeDone s' A' : is_susp (task_state x) = true -> resume_post s s' A A' t x ->
      resume_outcome t x RHINO_SUCCESS s' A'.

Inductive sleep_outcome (a : tid) (x : ktask_t) (ticks : Z) : callres kstat_t -> kstate -> queues -> Prop :=
  | SleepZero : ticks = 0 -> sleep_outcome a x ticks (Returned RHINO_INV_PARAM) s A
  | SleepInIsr : ticks <> 0 -> 0 < g_intrpt_nested_level (gl s) ->
      sleep_outcome a x ticks (Returned RHINO_NOT_CALLED_BY_INTRPT) s A
  | SleepLocked : ticks <> 0 -> g_intrpt_nested_level (gl s) = 0 -> 0 < g_sched_lock (gl s) ->
      sleep_outcome a x ticks (Returned RHINO_SCHED_DISABLE) s A
  | SleepDone s' A' : ticks <> 0 -> no_sched (gl s) = false -> slept s s' A A' a x ticks ->
      sleep_outcome a x ticks (Switched pend_end) s' A'.

Inductive create_outcome (t : tid) (pri ticks size : Z) (autorun : bool) : kstat_t -> kstate -> queues -> Prop :=
  | CreateStack : size = 0 -> create_outcome t pri ticks size autorun RHINO_TASK_INV_STACK_SIZE s A
  | CreatePri : size <> 0 -> RHINO_CONFIG_PRI_MAX <= pri ->
      create_outcome t pri ticks size autorun RHINO_BEYOND_MAX_PRI s A
  | CreateInIsr : size <> 0 -> pri < RHINO_CONFIG_PRI_MAX -> 0 < g_intrpt_nested_level (gl s) ->
      create_outcome t pri ticks size autorun RHINO_NOT_CALLED_BY_INTRPT s A
  | CreateIdle : size <> 0 -> pri = RHINO_IDLE_PRI -> g_intrpt_nested_level (gl s) = 0 ->
      create_outcome t pri ticks size autorun RHINO_IDLE_TASK_EXIST s A
  | CreateDone s' A' : size <> 0 -> 0 <= pri < RHINO_IDLE_PRI -> g_intrpt_nested_level (gl s) = 0 ->
      created s s' A A' t (new_task pri ticks autorun K_OBJ_STATIC_ALLOC) ->
      create_outcome t pri ticks size autorun RHINO_SUCCESS s' A'.

Inductive pri_change_outcome (t : tid) (x : ktask_t) (p : Z) : kstat_t * option Z -> kstate -> queues -> Prop :=
  | PriChangeIdle : RHINO_IDLE_PRI <= prio x \/ RHINO_IDLE_PRI <= p ->
      pri_change_outcome t x p (RHINO_PRI_CHG_NOT_ALLOWED, None) s A
  | PriChangeInIsr : prio x < RHINO_IDLE_PRI -> p < RHINO_IDLE_PRI -> 0 < g_intrpt_nested_level (gl s) ->
      pri_change_outcome t x p (RHINO_NOT_CALLED_BY_INTRPT, None) s A
  | PriChangeDone s' A' : prio x < RHINO_IDLE_PRI -> p < RHINO_IDLE_PRI -> g_intrpt_nested_level (gl s) = 0 ->
      rebased s s' A A' t x p -> pri_change_outcome t x p (RHINO_SUCCESS, Some (prio x)) s' A'.

Inductive lock_sched_outcome : kstat_t -> kstate -> queues -> Prop :=
  | DisableInIsr : 0 < g_intrpt_nested_level (gl s) -> lock_sched_outcome RHINO_NOT_CALLED_BY_INTRPT s A
  | DisableOvf : g_intrpt_nested_level (gl s) = 0 -> g_sched_lock (gl s) = SCHED_MAX_LOCK_COUNT -> lock_sched_outcome RHINO_SCHED_LOCK_COUNT_OVF s A
  | DisableDone : g_intrpt_nested_level (gl s) = 0 -> g_sched_lock (gl s) < SCHED_MAX_LOCK_COUNT ->
      lock_sched_outcome RHINO_SUCCESS (with_lock (g_sched_lock (gl s) + 1) s) A.

Inductive unlock_sched_outcome : kstat_t -> kstate -> queues -> Prop :=
  | EnableInIsr : 0 < g_intrpt_nested_level (gl s) -> unlock_sched_outcome RHINO_NOT_CALLED_BY_INTRPT s A
  | EnableNot : g_intrpt_nested_level (gl s) = 0 -> g_sched_lock (gl s) = 0 ->
      unlock_sched_outcome RHINO_SCHED_ALREADY_ENABLED s A
  | EnableInner : g_intrpt_nested_level (gl s) = 0 -> 1 < g_sched_lock (gl s) ->
      unlock_sched_outcome RHINO_SCHED_DISABLE (with_lock (g_sched_lock (gl s) - 1) s) A
  | EnableLast top : g_intrpt_nested_level (gl s) = 0 -> g_sched_lock (gl s) = 1 -> top_ready A top ->
      unlock_sched_outcome RHINO_SUCCESS (with_gl (resched top (set_g_sched_lock 0 (gl s))) s) A.

Inductive isr_enter_outcome : kstat_t -> kstate -> queues -> Prop :=
  | EnterDone : g_intrpt_nested_level (gl s) < RHINO_CONFIG_INTRPT_MAX_NESTED_LEVEL ->
      isr_enter_outcome RHINO_SUCCESS (with_nest (g_intrpt_nested_level (gl s) + 1) s) A.

Inductive isr_exit_outcome : unit -> kstate -> queues -> Prop :=
  | ExitNested : 1 < g_intrpt_nested_level (gl s) \/ 0 < g_sched_lock (gl s) ->
      isr_exit_outcome tt (with_nest (g_intrpt_nested_level (gl s) - 1) s) A
  | ExitSched top : g_intrpt_nested_level (gl s) = 1 -> g_sched_lock (gl s) = 0 -> top_ready A top ->
      isr_exit_outcome tt (with_gl (resched top (set_g_intrpt_nested_level 0 (gl s))) s) A.
End Outcomes.

(** ** Tasks *)

(** [krhino_task_suspend]: a ready task leaves the ready list, a sleeping
    or waiting one keeps its place and only changes state, a suspended one
    counts the request (refused at 255); the idle task, and the running task
    under a scheduler lock, are refused; then the highest-priority ready task
    runs.  [krhino_task_resume] takes back one suspension; with the last one
    the task goes back to what it did before: it is made ready, or keeps
    sleeping or waiting for its object; a task that is not suspended is
    refused. *)
Theorem task_suspend_implements s A t x :
  kwf s A -> tcbs s !! t = Some x -> live (task_state x) = true ->
  implements (krhino_task_suspend (Some t)) s (suspend_outcome s A t x) /\
  implements (krhino_task_resume (Some t)) s (resume_outcome s A t x).
Proof.
  intros. split; apply wp_implements.
  - apply (wp_task_suspend s A t x); [done..| | | |]; outcome.
  - apply (wp_task_resume s A t x); [done..| |]; outcome.
Qed.

Lemma task_suspend_implements_witness :
  implements (krhino_task_suspend (Some 3%nat)) busy (suspend_outcome busy (qget busy_queues) 3 (tcb busy 3)) /\
  implements (krhino_task_resume (Some 3%nat)) busy (resume_outcome busy (qget busy_queues) 3 (tcb busy 3)).
Proof. apply (task_suspend_implements busy (qget busy_queues)); [exact busy_kwf|reflexivity|reflexivity]. Defined.

(** [krhino_task_sleep] takes the caller off the ready list and puts it
    on the tick list, due in exactly [ticks] ticks, in the order of the time
    left; zero ticks, an interrupt and a scheduler lock are refused. *)
Theorem task_sleep_implements s A a x ticks :
  kwf s A -> g_active_task (gl s) = Some a -> tcbs s !! a = Some x -> prio x <> RHINO_IDLE_PRI -> 0 <= ticks < 2 ^ 63 ->
  implements (krhino_task_sleep ticks) s (sleep_outcome s A a x ticks).
Proof. intros. apply wp_implements, (wp_task_sleep s A a x ticks); [done..| | | |]; outcome. Qed.

Lemma task_sleep_implements_witness :
  implements (krhino_task_sleep 9) busy (sleep_outcome busy (qget busy_queues) 3 (tcb busy 3) 9).
Proof.
  apply (task_sleep_implements busy (qget busy_queues)); [exact busy_kwf|reflexivity|reflexivity| |lia].
  vm_compute. discriminate.
Defined.

(** [krhino_task_yield] moves the first ready task of the caller's
    priority behind the others of that priority and changes nothing else. *)
Theorem task_yield_rotates s A a x :
  kwf s A -> g_active_task (gl s) = Some a -> tcbs s !! a = Some x -> task_state x = K_RDY ->
  implements krhino_task_yield s (fun r s' A' => r = RHINO_SUCCESS /\ yielded s s' A A' x).
Proof. intros. apply wp_implements, (wp_task_yield s A a x); [done..|]. intros s' A' ??. by exists A'. Qed.

Lemma task_yield_rotates_witness :
  implements krhino_task_yield busy (fun r s' A' => r = RHINO_SUCCESS /\ yielded busy s' (qget busy_queues) A' (tcb busy 3)).
Proof. apply (task_yield_rotates busy (qget busy_queues) 3); [exact busy_kwf|reflexivity..]. Defined.

(** [krhino_task_create] for a fresh control block checks the stack size,
    the priority, the context and the uniqueness of the idle task in that
    order; it then adds exactly one task, suspended or last in the ready list
    of its priority, in the latter case preempting the caller if its priority
    is higher. *)
Theorem task_create_implements s A t name pri ticks stk size entry autorun :
  kwf s A -> tcbs s !! t = None -> 0 <= pri -> 0 < g_idle_task_spawned (gl s) ->
  implements (krhino_task_create (Some t) (Some name) pri ticks (Some stk) size (Some entry) autorun) s
    (create_outcome s A t pri ticks size autorun).
Proof.
  intros. apply wp_implements, (wp_task_create s A t name pri ticks stk size entry autorun); [done|done|done| | | | |done|]; outcome.
Qed.

Lemma task_create_implements_witness :
  implements (krhino_task_create (Some 8%nat) (Some "new"%string) 12 0 (Some 0%nat) 64 (Some 0%nat) true) busy
    (create_outcome busy (qget busy_queues) 8 12 0 64 true).
Proof. apply (task_create_implements busy (qget busy_queues)); [exact busy_kwf|reflexivity|lia|vm_compute; reflexivity]. Defined.

(** [krhino_task_pri_change] sets the base priority of a task; the
    actual priorities of the task and of the tasks it waits on are the only
    other fields that change, and they change to what priority inheritance
    asks for (that is part of [kwf]); the old priority is reported. *)
Theorem task_pri_change_implements s A t x p :
  kwf s A -> tcbs s !! t = Some x -> live (task_state x) = true -> 0 <= p ->
  implements (krhino_task_pri_change (Some t) p false) s (pri_change_outcome s A t x p).
Proof. intros. apply wp_implements, (wp_krhino_task_pri_change s A t x p); [done..| | |]; outcome. Qed.

Lemma task_pri_change_implements_witness :
  implements (krhino_task_pri_change (Some 2%nat) 5 false) busy
    (pri_change_outcome busy (qget busy_queues) 2 (tcb busy 2) 5).
Proof. apply (task_pri_change_implements busy (qget busy_queues)); [exact busy_kwf|reflexivity|reflexivity|lia]. Defined.

(** ** Scheduler lock and interrupts *)

(** The scheduler lock counts its nesting, up to 200 levels; releasing
    the last level runs the highest-priority ready task at once, an inner
    level only counts down. *)
Theorem sched_lock_implements s A :
  kwf s A -> implements krhino_sched_disable s (lock_sched_outcome s A) /\
    implements krhino_sched_enable s (unlock_sched_outcome s A).
Proof.
  intros. split; apply wp_implements; [apply (wp_sched_disable s A)|apply (wp_sched_enable s A)]; try done; outcome.
Qed.

Lemma sched_lock_implements_witness :
  implements krhino_sched_disable (with_lock 1 busy) (lock_sched_outcome (with_lock 1 busy) (qget busy_queues)) /\
  implements krhino_sched_enable (with_lock 1 busy) (unlock_sched_outcome (with_lock 1 busy) (qget busy_queues)).
Proof. apply (sched_lock_implements (with_lock 1 busy)). apply kwf_locked; [exact busy_kwf|reflexivity|vm_compute; split; congruence]. Defined.

(** [krhino_intrpt_enter] counts the interrupt nesting up to 188 levels
    and stops the system beyond; [krhino_intrpt_exit] counts down and, at
    the outermost level with the scheduler unlocked, makes the processor
    continue with the highest-priority ready task. *)
Theorem intrpt_implements s A :
  kwf s A ->
  (if g_intrpt_nested_level (gl s) =? RHINO_CONFIG_INTRPT_MAX_NESTED_LEVEL then krhino_intrpt_enter s = None
   else implements krhino_intrpt_enter s (isr_enter_outcome s A)) /\
  (0 < g_intrpt_nested_level (gl s) -> implements krhino_intrpt_exit s (isr_exit_outcome s A)).
Proof.
  intros HW. split; [|intros].
  - destruct (Z.eqb_spec (g_intrpt_nested_level (gl s)) RHINO_CONFIG_INTRPT_MAX_NESTED_LEVEL) as [E|E]; [by apply (intrpt_enter_hangs s A)|].
    apply wp_implements, (wp_intrpt_enter s A); [done|done|].
    intros s' HW'. exists A. split; [|done]. constructor. pose proof (go_nest _ (kw_gl _ _ HW')) as Hn. simpl in Hn. lia.
  - apply wp_implements, (wp_intrpt_exit s A); [done..| |]; outcome.
Qed.

Lemma intrpt_implements_witness :
  implements krhino_intrpt_exit (with_nest 1 busy) (isr_exit_outcome (with_nest 1 busy) (qget busy_queues)).
Proof.
  apply (intrpt_implements (with_nest 1 busy)); [|vm_compute; reflexivity].
  apply kwf_nest; [exact busy_kwf|vm_compute; split; congruence|left; lia].
Defined.

(** ** Time *)

Lemma busy_isr_kwf : kwf (with_nest 1 busy) (qget busy_queues).
Proof. apply kwf_nest; [exact busy_kwf|vm_compute; split; congruence|left; lia]. Qed.

(** A tick wakes exactly the tasks of the tick list that are due, whatever
    the tick counter's wrap-around: a sleeping task becomes ready, a waiting
    one leaves its object with [BLK_TIMEOUT] (and priority inheritance is
    undone), suspended ones stay suspended; all others stay on the tick list
    in order. *)
Theorem tick_wakes_due s A :
  kwf s A -> 0 < g_intrpt_nested_level (gl s) ->
  implements (tick_list_update 1) s (fun _ s' A' => tick_post s s' A A').
Proof. intros. apply wp_implements, (wp_tick_list_update s A); [done..|]. intros s' A' ??. by exists A'. Qed.

Lemma tick_wakes_due_witness :
  implements (tick_list_update 1) (with_nest 1 busy) (fun _ s' A' => tick_post (with_nest 1 busy) s' (qget busy_queues) A').
Proof. apply (tick_wakes_due (with_nest 1 busy)); [exact busy_isr_kwf|vm_compute; reflexivity]. Defined.

(** The time slice accounting of one tick, at the priority [p] of the running
    task: nothing happens when the first ready task is alone or runs FIFO;
    otherwise its slice is charged, and when it is used up the task goes to
    the end of the list with a full slice. *)
Definition sliced_after (s s' : kstate) (A A' : queues) (p : Z) : Prop :=
  (s' = s /\ A' = A /\
   (forall u v r x, A (LReady p) = u :: v :: r -> tcbs s !! u = Some x -> sched_policy x = KSCHED_FIFO)) \/
  exists u v r x, A (LReady p) = u :: v :: r /\ tcbs s !! u = Some x /\ sched_policy x <> KSCHED_FIFO /\
    slice_post s s' A A' p u x (v :: r) /\ gl s' = gl s /\ ob s' = ob s.

(** Round-robin: the time slice accounting charges the first ready task of
    the running priority and rotates the list exactly when its slice is used
    up. *)
Theorem time_slice_rotates s A a y :
  kwf s A -> 0 < g_intrpt_nested_level (gl s) -> g_active_task (gl s) = Some a -> tcbs s !! a = Some y ->
  implements time_slice_update s (fun _ s' A' => sliced_after s s' A A' (prio y)).
Proof.
  intros. apply wp_implements, (wp_time_slice_update s A a y); [done..| |].
  - intros Hf. exists A. split; [by left|done].
  - intros u v r x s' A' HA Hu Hp HW' Hs Hg Ho. exists A'. split; [|done]. right. by exists u, v, r, x.
Qed.

Lemma time_slice_rotates_witness :
  implements time_slice_update (with_nest 1 busy)
    (fun _ s' A' => sliced_after (with_nest 1 busy) s' (qget busy_queues) A' (prio (tcb busy 3))).
Proof.
  apply (time_slice_rotates (with_nest 1 busy) (qget busy_queues) 3);
    [exact busy_isr_kwf|vm_compute; reflexivity|reflexivity|reflexivity].
Defined.

Section Timeouts.
Implicit Types (s : kstate) (A : queues) (t : tid) (x : ktask_t).

Lemma expire_all_one ts tc t x : NoDup ts -> t ∈ ts -> tc !! t = Some x -> expire_all ts tc !! t = Some (expired x).
Proof.
  revert tc. induction ts as [|u ts IH]; intros tc Hnd Hin Hx; [set_solver|].
  apply NoDup_cons in Hnd as [Hu Hnd]. simpl. destruct (decide (u = t)) as [->|Hne].
  - rewrite expire_all_other by done. by rewrite lookup_alter_eq, Hx.
  - apply IH; [done|set_solver|]. by rewrite lookup_alter_ne.
Qed.

(** One tick, seen from one task. *)
Lemma tick_one s s' A A' t x :
  kwf s A -> tick_post s s' A A' -> tcbs s !! t = Some x -> t ∈ A LTick ->
  (tick_rest (gl s) (tcbs s) t = 1 -> ~ t ∈ A' LTick /\ exists p, tcbs s' !! t = Some (set_prio p (expired x))) /\
  (tick_rest (gl s) (tcbs s) t <> 1 -> t ∈ A' LTick /\ (exists p, tcbs s' !! t = Some (set_prio p x)) /\
     tick_rest (gl s') (tcbs s') t = tick_rest (gl s) (tcbs s) t - 1).
Proof.
  intros HW (Hp & HA & Hg & _) Hx Ht.
  assert (Hnd : NoDup (A LTick)) by (apply (kinv_nodup s A LTick), kw_inv, HW).
  split; intros Hr; split_and!; try (rewrite HA, list_elem_of_filter; tauto).
  - eexists. rewrite (Hp t). rewrite (expire_all_one _ _ t x); [done|by apply NoDup_filter| |done].
    by apply list_elem_of_filter.
  - eexists. rewrite (Hp t). rewrite expire_all_other; [by rewrite Hx|]. rewrite list_elem_of_filter. tauto.
  - rewrite (tick_rest_prio_only _ _ _ _ Hp), match_expire_all, Hg. apply tick_rest_ticked.
    by apply (kg_tick _ _ (kw_good _ _ HW)).
Qed.

Lemma ticks_one s A :
  kwf s A -> 0 < g_intrpt_nested_level (gl s) ->
  exists s' A', tick_list_update 1 s = Some (tt, s') /\ kwf s' A' /\ tick_post s s' A A' /\
    0 < g_intrpt_nested_level (gl s').
Proof.
  intros HW Hn. destruct (wp_run _ _ _ (wp_tick_list_update s A (fun _ s' => exists A', kwf s' A' /\ tick_post s s' A A')
    HW Hn (fun s' A' H1 H2 => ex_intro _ A' (conj H1 H2)))) as ([] & s' & Hr & A' & HW' & Hpost).
  exists s', A'. split_and!; [done..|]. destruct Hpost as (_ & _ & -> & _). done.
Qed.

Lemma run_ticks_before k s A t x :
  kwf s A -> 0 < g_intrpt_nested_level (gl s) -> tcbs s !! t = Some x -> t ∈ A LTick ->
  Z.of_nat k < tick_rest (gl s) (tcbs s) t ->
  exists s' A' p, run_ticks k s = Some (tt, s') /\ kwf s' A' /\ 0 < g_intrpt_nested_level (gl s') /\ t ∈ A' LTick /\
    tcbs s' !! t = Some (set_prio p x) /\ tick_rest (gl s') (tcbs s') t = tick_rest (gl s) (tcbs s) t - Z.of_nat k.
Proof.
  revert s A x. induction k as [|k IH]; intros s A x HW Hn Hx Ht Hk.
  - exists s, A, (prio x). split_and!; [done..|by rewrite set_prio_id|lia].
  - destruct (ticks_one s A HW Hn) as (s1 & A1 & Hr & HW1 & Hpost & Hn1).
    destruct (tick_one s s1 A A1 t x HW Hpost Hx Ht) as [_ H2]. destruct H2 as (Ht1 & (p & Hx1) & Hr1); [lia|].
    destruct (IH s1 A1 (set_prio p x) HW1 Hn1 Hx1 Ht1) as (s2 & A2 & p2 & Hr2 & HW2 & Hn2 & Ht2 & Hx2 & Hk2); [lia|].
    exists s2, A2, p2. split_and!; [|done..|lia]. simpl. unfold bind. by rewrite Hr.
Qed.

Lemma run_ticks_snoc k s s1 s2 :
  run_ticks k s = Some (tt, s1) -> tick_list_update 1 s1 = Some (tt, s2) -> run_ticks (S k) s = Some (tt, s2).
Proof.
  revert s. induction k as [|k IH]; intros s H1 H2.
  - simpl in *. injection H1 as ->. unfold bind. by rewrite H2.
  - change (run_ticks (S (S k)) s) with (bind (tick_list_update 1) (fun _ => run_ticks (S k)) s).
    simpl in H1. unfold bind in *. destruct (tick_list_update 1 s) as [[[] s0]|]; [|done]. by apply IH.
Qed.
End Timeouts.

(** C7: a task on the tick list with [n] ticks to go is untouched, its
    priority apart, by the next [n-1] ticks, and the [n]-th tick takes it off
    the list and ends its sleep or its wait: timeouts are exact, whatever
    other tasks are due in the meantime and wherever the 64-bit counter
    wraps. *)
Theorem timeout_exact n s A t x :
  kwf s A -> 0 < g_intrpt_nested_level (gl s) -> tcbs s !! t = Some x -> t ∈ A LTick ->
  tick_rest (gl s) (tcbs s) t = Z.of_nat n ->
  (forall k, (k < n)%nat -> exists s' A' p, run_ticks k s = Some (tt, s') /\ kwf s' A' /\ t ∈ A' LTick /\
     tcbs s' !! t = Some (set_prio p x)) /\
  exists s' A' p, run_ticks n s = Some (tt, s') /\ kwf s' A' /\ ~ t ∈ A' LTick /\
    tcbs s' !! t = Some (set_prio p (expired x)).
Proof.
  intros HW Hn Hx Ht Hr. split.
  - intros k Hk. destruct (run_ticks_before k s A t x) as (s' & A' & p & ? & ? & _ & ? & ? & _); [done..|lia|].
    by exists s', A', p.
  - pose proof (kg_tick _ _ (kw_good _ _ HW) t Ht) as Hpos. destruct n as [|k]; [lia|].
    destruct (run_ticks_before k s A t x) as (s1 & A1 & p1 & H1 & HW1 & Hn1 & Ht1 & Hx1 & Hr1); [done..|lia|].
    destruct (ticks_one s1 A1 HW1 Hn1) as (s2 & A2 & H2 & HW2 & Hpost & _).
    destruct (tick_one s1 s2 A1 A2 t _ HW1 Hpost Hx1 Ht1) as [He _]. destruct He as (Ht2 & p & Hx2); [lia|].
    rewrite expired_set_prio in Hx2. exists s2, A2, p. split_and!; [by eapply run_ticks_snoc|done..].
Qed.

Lemma timeout_exact_witness :
  exists s' A' p, run_ticks 4 (with_nest 1 busy) = Some (tt, s') /\ kwf s' A' /\ ~ 1%nat ∈ A' LTick /\
    tcbs s' !! 1%nat = Some (set_prio p (expired (tcb busy 1))).
Proof.
  apply (timeout_exact 4 (with_nest 1 busy) (qget busy_queues) 1 (tcb busy 1)).
  - exact busy_isr_kwf.
  - vm_compute. reflexivity.
  - reflexivity.
  - vm_compute. right. left.
  - vm_compute. reflexivity.
Defined.

(** ** A deviation *)

(** [krhino_task_del] of the idle task is refused, but on that path the
    function returns without leaving its critical section: interrupts stay
    masked. *)
Theorem task_del_idle_stays_masked s A t x :
  kwf s A -> g_intrpt_nested_level (gl s) = 0 -> tcbs s !! t = Some x -> prio x = RHINO_IDLE_PRI ->
  krhino_task_del (Some t) s = Some (RHINO_TASK_DEL_NOT_ALLOWED, with_gl (set_primask true (gl s)) s).
Proof.
  intros HW Hn Hx Hp. apply wp_equals. unfold krhino_task_del, task_get.
  apply wp_bind, (wp_kwf_enter A); [done|]. wsteps. simpl g_intrpt_nested_level. rewrite Hn. simpl.
  wsteps. rewrite Hp. by apply wp_ret.
Qed.

Lemma task_del_idle_stays_masked_witness :
  krhino_task_del (Some 0%nat) busy = Some (RHINO_TASK_DEL_NOT_ALLOWED, with_gl (set_primask true (gl busy)) busy).
Proof. apply (task_del_idle_stays_masked busy (qget busy_queues) 0 (tcb busy 0)); [exact busy_kwf|reflexivity..]. Defined.
