(* ===== verification/SpecKernel.v ===== *)
(** * What holds in every reachable state of the kernel

    Reachable means: from a well-formed state by any sequence of the calls of
    [Kernel], made by tasks or interrupt handlers within the calling
    contract. *)

From stdpp Require Import functions.
From S2P Require Import Prelude.
From S2P Require Import Monad.
From S2P Require Import Links.
From S2P Require Import KState.
From S2P Require Import Bitmap.
From S2P Require Import Sched.
From S2P Require Import Pend.
From S2P Require Import Inv.
From S2P Require Import MInv.
From S2P Require Import RingBuf.
From S2P Require Import ObjInv.
From S2P Require Import Resched.
From S2P Require Import Block.
From S2P Require Import Prio.
From S2P Require Import PrioInv.
From S2P Require Import Tick.
From S2P Require Import Sem.
From S2P Require Import Mutex.
From S2P Require Import Event.
From S2P Require Import Task.
From S2P Require Import Sys.
From S2P Require Import Kernel.
From S2P Require Import Check.
From S2P Require Import Demo.

(** ** The statements, on the control blocks and objects alone *)

(** [u] is blocked on a mutex that [t] owns. *)
Definition blocked_on (s : kstate) (t u : tid) : Prop :=
  exists m v y, has_type s m RHINO_MUTEX_OBJ_TYPE /\ mutexes (ob s) !! m = Some v /\ mutex_task v = Some t /\
    tcbs s !! u = Some y /\ pended (task_state y) = true /\ task_blk_obj y = Some m.

(** Task [y] waits for object [o]. *)
Definition waits_for (y : ktask_t) (o : oid) : Prop := pended (task_state y) = true /\ task_blk_obj y = Some o.

Section Consequences.
Context (s : kstate) (A : queues) (HW : kwf s A).

Lemma kwf_running :
  no_sched (gl s) = false ->
  exists a x, g_active_task (gl s) = Some a /\ tcbs s !! a = Some x /\ task_state x = K_RDY /\
    forall u y, tcbs s !! u = Some y -> task_state y = K_RDY -> prio x <= prio y.
Proof.
  intros Hn. destruct (kw_top _ _ HW Hn) as (a & Ha & h & r & [Hmin _] & HA).
  pose proof (kw_inv _ _ HW) as HI.
  assert (exists x, tcbs s !! a = Some x /\ in_list x (LReady h)) as (x & Hx & Hr & Hp).
  { apply (ki_mem _ _ HI). rewrite HA. set_solver. }
  exists a, x. split_and!; [done..|]. intros u y Hu Hy.
  assert (Hin : u ∈ A (LReady (prio y))) by (apply (ki_mem _ _ HI); by exists y).
  pose proof (ok_prio _ _ (ki_task _ _ HI _ _ Hu)). rewrite Hp.
  destruct (Z.le_gt_cases h (prio y)) as [|Hlt]; [done|]. rewrite Hmin in Hin by lia. set_solver.
Qed.

Lemma blocked_on_waits C t u : minv None s C -> blocked_on s t u <-> waits A C t u.
Proof.
  intros HM. pose proof (kw_inv _ _ HW) as HI. split.
  - intros (m & v & y & Ht & Hv & Ho & Hu & Hp & Hb). exists m. split.
    + apply (mi_own _ _ _ HM). split_and!; [done|done|by exists v].
    + apply (ki_mem _ _ HI). by exists y.
  - intros (m & Hm & Hu). apply (mi_own _ _ _ HM) in Hm as (_ & Ht & v & Hv & Ho).
    apply (ki_mem _ _ HI) in Hu as (y & Hy & Hp & Hb). by exists m, v, y.
Qed.

Lemma kwf_inheritance t x :
  tcbs s !! t = Some x -> live (task_state x) = true -> is_min (tcbs s) (b_prio x) (blocked_on s t) (prio x).
Proof.
  intros Hx Hl. destruct (kg_mutex _ _ (kw_good _ _ HW)) as (C & HM & HP).
  apply (is_min_ext (tcbs s) (tcbs s) _ (waits A C t)); [|intros u; by apply blocked_on_waits|done].
  rewrite <- (base_of_lookup _ _ _ Hx). by apply (HP t).
Qed.

Lemma kwf_no_lost_wakeup o y u :
  tcbs s !! u = Some y -> waits_for y o ->
  (forall v, has_type s o RHINO_SEM_OBJ_TYPE -> sems (ob s) !! o = Some v -> count v = 0) /\
  (forall v, has_type s o RHINO_MUTEX_OBJ_TYPE -> mutexes (ob s) !! o = Some v -> mutex_task v <> None) /\
  (forall v, has_type s o RHINO_EVENT_OBJ_TYPE -> events (ob s) !! o = Some v ->
     flags_met (flags v) (pend_flags y) (pend_option y) = false) /\
  (forall v, has_type s o RHINO_QUEUE_OBJ_TYPE -> kqueues (ob s) !! o = Some v -> q_cur_num v = 0) /\
  (forall v, has_type s o RHINO_BUF_QUEUE_OBJ_TYPE -> bufqs (ob s) !! o = Some v -> ringbuf_is_empty (bq_ringbuf v) = true).
Proof.
  intros Hu [Hp Ho]. pose proof (kw_inv _ _ HW) as HI. destruct (kw_good _ _ HW) as [_ _ _ (C & HM & _) HO].
  assert (Hin : u ∈ A (LBlk o)) by (apply (ki_mem _ _ HI); by exists y).
  split_and!; intros v Ht Hv.
  - destruct (oi_sem _ _ HO o Ht) as (v' & Hv' & Hc & _ & Hw). simplify_eq.
    destruct (Z.eq_dec (count v) 0) as [|Hz]; [done|]. rewrite Hw in Hin by lia. set_solver.
  - destruct (mi_wait _ _ _ HM u y o Hu Hp Ho Ht) as (t & Hc & _); [done|].
    apply (mi_own _ _ _ HM) in Hc as (_ & _ & v' & Hv' & Ht'). simplify_eq. by rewrite Ht'.
  - destruct (oi_event _ _ HO o Ht) as (v' & Hv' & _ & Hw); [done|]. simplify_eq. by apply (Hw u y).
  - destruct (so_queue _ _ _ (oi_store _ _ HO o) Ht) as (v' & Hv' & ms & Hr & Hw). simplify_eq.
    destruct ms as [|m ms]; [by rewrite (qr_num _ _ Hr)|]. rewrite Hw in Hin by done. set_solver.
  - destruct (so_bufq _ _ _ (oi_store _ _ HO o) Ht) as (v' & Hv' & ms & Hr & Hw). simplify_eq.
    destruct ms as [|m ms]; [by rewrite (ring_is_empty (rep := ring_rep) _ _ (br_ring _ _ Hr))|].
    rewrite Hw in Hin by done. set_solver.
Qed.
End Consequences.

(** ** The theorems *)

(** C1: no fault, ever: from a well-formed state, along any sequence of
    kernel calls within the calling contract, every state is well-formed, and
    in every such state every further call ends without following a NULL,
    uninitialised or wrongly typed pointer, with all loops terminating, in a
    well-formed state - except the two calls that exceed what the kernel
    counts (188 nested interrupts, 2^32-1 nested locks of one mutex), which
    end in the error handler and do not return. *)
Theorem kernel_safe s s' :
  kwf_ex s -> rtc kstep s s' ->
  kwf_ex s' /\ forall c, kcall_ok s' c ->
    if call_hangs s' c then kcall_run c s' = None else exists s'', kcall_run c s' = Some (tt, s'') /\ kwf_ex s''.
Proof.
  intros HW Hr. pose proof (reach_kwf s s' HW Hr) as [A' HW']. split; [by exists A'|]. intros c Hok.
  destruct (call_hangs s' c) eqn:Hh; [by apply (kcall_hangs s' A')|].
  destruct (wp_run _ _ _ (kcall_safe s' A' c HW' Hok Hh)) as ([] & s'' & Hrun & HW''). by exists s''.
Qed.

Lemma kernel_safe_witness :
  exists s'', kcall_run (CSemGive 0) busy = Some (tt, s'') /\ kwf_ex s''.
Proof.
  refine (proj2 (kernel_safe busy busy _ _) (CSemGive 0) _).
  - exists (qget busy_queues). exact busy_kwf.
  - constructor.
  - exists (mkBlk BLK_POLICY_PRI RHINO_SEM_OBJ_TYPE). split; reflexivity.
Defined.

(** C2: in every reachable state outside interrupts and scheduler locks, the
    running task is ready and no ready task has a higher priority. *)
Theorem running_is_highest s s' :
  kwf_ex s -> rtc kstep s s' -> no_sched (gl s') = false ->
  exists a x, g_active_task (gl s') = Some a /\ tcbs s' !! a = Some x /\ task_state x = K_RDY /\
    forall u y, tcbs s' !! u = Some y -> task_state y = K_RDY -> prio x <= prio y.
Proof. intros HW Hr. destruct (reach_kwf s s' HW Hr) as [A' HW']. by apply (kwf_running s' A'). Qed.

Lemma running_is_highest_witness :
  exists a x, g_active_task (gl woke) = Some a /\ tcbs woke !! a = Some x /\ task_state x = K_RDY /\
    forall u y, tcbs woke !! u = Some y -> task_state y = K_RDY -> prio x <= prio y.
Proof.
  apply (running_is_highest busy woke).
  - exists (qget busy_queues). exact busy_kwf.
  - apply rtc_once. apply (KStep busy (CSemGive 0)); [|vm_compute; reflexivity].
    exists (mkBlk BLK_POLICY_PRI RHINO_SEM_OBJ_TYPE). split; reflexivity.
  - reflexivity.
Defined.

(** C3: priority inheritance: in every reachable state the priority of every
    task is the highest of its own base priority and the priorities of the
    tasks blocked on mutexes it owns, along chains of owners; no priority
    stays raised after its cause is gone. *)
Theorem priority_inheritance s s' t x :
  kwf_ex s -> rtc kstep s s' -> tcbs s' !! t = Some x -> live (task_state x) = true ->
  is_min (tcbs s') (b_prio x) (blocked_on s' t) (prio x).
Proof. intros HW Hr. destruct (reach_kwf s s' HW Hr) as [A' HW']. by apply (kwf_inheritance s' A'). Qed.

Lemma priority_inheritance_witness :
  is_min (tcbs busy) 30 (blocked_on busy 3) 20.
Proof.
  apply (priority_inheritance busy busy 3 (tcb busy 3)).
  - exists (qget busy_queues). exact busy_kwf.
  - constructor.
  - reflexivity.
  - reflexivity.
Defined.

(** C4: no lost wake-up: in every reachable state, a task that waits for a
    semaphore waits for one with count zero, a task that waits for a mutex
    waits for one that is owned, a task that waits for event flags waits for
    flags that do not meet its request, and a task that waits for a message
    waits for a queue that holds none. *)
Theorem no_lost_wakeup s s' u y o :
  kwf_ex s -> rtc kstep s s' -> tcbs s' !! u = Some y -> waits_for y o ->
  (forall v, has_type s' o RHINO_SEM_OBJ_TYPE -> sems (ob s') !! o = Some v -> count v = 0) /\
  (forall v, has_type s' o RHINO_MUTEX_OBJ_TYPE -> mutexes (ob s') !! o = Some v -> mutex_task v <> None) /\
  (forall v, has_type s' o RHINO_EVENT_OBJ_TYPE -> events (ob s') !! o = Some v ->
     flags_met (flags v) (pend_flags y) (pend_option y) = false) /\
  (forall v, has_type s' o RHINO_QUEUE_OBJ_TYPE -> kqueues (ob s') !! o = Some v -> q_cur_num v = 0) /\
  (forall v, has_type s' o RHINO_BUF_QUEUE_OBJ_TYPE -> bufqs (ob s') !! o = Some v -> ringbuf_is_empty (bq_ringbuf v) = true).
Proof. intros HW Hr. destruct (reach_kwf s s' HW Hr) as [A' HW']. by apply (kwf_no_lost_wakeup s' A'). Qed.

Lemma no_lost_wakeup_witness :
  events (ob busy) !! 2%nat = Some (mkEvent 0 1) /\ flags_met 0 6 RHINO_AND = false.
Proof.
  split; [reflexivity|].
  apply (no_lost_wakeup busy busy 4 (tcb busy 4) 2) with (v := mkEvent 0 1).
  - exists (qget busy_queues). exact busy_kwf.
  - constructor.
  - reflexivity.
  - split; reflexivity.
  - exists (mkBlk BLK_POLICY_PRI RHINO_EVENT_OBJ_TYPE). split; reflexivity.
  - reflexivity.
Defined.
