(* ===== verification/SpecData.v ===== *)
(** * What the data structures promise

    Theorems about the parts of the kernel that do not depend on the global
    state: linked lists, bitmaps, ready queue, ring buffers, byte FIFO and
    block pool; and two places where the code does not do what it means to. *)

From stdpp Require Import functions.
From S2P Require Import Prelude.
From S2P Require Import Monad.
From S2P Require Import Links.
From S2P Require Import KState.
From S2P Require Import Bitmap.
From S2P Require Import Sched.
From S2P Require Import Pend.
From S2P Require Import Inv.
From S2P Require Import MInv.
From S2P Require Import ObjInv.
From S2P Require Import Resched.
From S2P Require Import Block.
From S2P Require Import Prio.
From S2P Require Import PrioInv.
From S2P Require Import Tick.
From S2P Require Import Sem.
From S2P Require Import Mutex.
From S2P Require Import Event.
From S2P Require Import Task.
From S2P Require Import Sys.
From S2P Require Import Check.
From S2P Require Import Demo.
From S2P Require Import RingBuf.
From S2P Require Import Fifo.
From S2P Require Import MmBlk.

(** ** Linked lists, bitmaps, ready queue *)

(** A total run that yields nothing but a new link memory. *)
Lemma run_ex {St Node : Type} `{HasLinks St Node} (m : st St unit) (P : links Node -> Prop) s0 s :
  wp m (fun _ s' => exists l, s' = with_links l s /\ P l) s0 -> exists l, m s0 = Some (tt, with_links l s) /\ P l.
Proof. intros ([] & s' & E & l & -> & HP)%wp_run. eauto. Qed.

(** The doubly linked lists of k_list.h implement sequences, in every state
    with a link memory: where the rings hold the disjoint lists [G],
    [klist_insert q e] puts a fresh node right before [q] and [klist_rm] takes
    a node out, each in its own list and without a change to any other; taking
    out what was inserted gives the old lists back. *)
Theorem klist_refines_lists {St Node Ix : Type} `{HL : HasLinks St Node} `{EI : EqDecision Ix}
    (G : Ix -> list Node) (i : Ix) a q b e (s : St) :
  rings (links_of s) G -> G i = a ++ q :: b -> unlinked G e ->
  exists l1, klist_insert q e s = Some (tt, with_links l1 s) /\ rings l1 (<[i := a ++ e :: q :: b]> G) /\
    exists l2, klist_rm e (with_links l1 s) = Some (tt, with_links l2 s) /\ rings l2 G.
Proof.
  intros HG Hi He. set (G1 := <[i := a ++ e :: q :: b]> G).
  assert (exists l1, klist_insert q e s = Some (tt, with_links l1 s) /\ rings l1 G1) as (l1 & E1 & H1).
  { apply (run_ex (klist_insert q e)), (wp_klist_insert G i a q b e); eauto. }
  assert (exists l2, klist_rm e (with_links l1 s) = Some (tt, with_links l2 s) /\ rings l2 (<[i := a ++ q :: b]> G1))
    as (l2 & E2 & H2).
  { apply (run_ex (klist_rm e)), (wp_klist_rm G1 i a e (q :: b)); [by rewrite links_of_with|apply fn_lookup_insert|].
    intros l' H'. exists l'. by rewrite with_links_with. }
  exists l1. split_and!; [done..|].
  exists l2. split; [done|]. eapply rings_ext; [exact H2|]. intros j.
  destruct (decide (i = j)) as [<-|]; [by rewrite fn_lookup_insert|]. unfold G1.
  by rewrite !fn_lookup_insert_ne.
Qed.

Lemma klist_refines_lists_witness :
  let s := with_lm (mkL {[NBlk 0 := NBlk 0]} {[NBlk 0 := NBlk 0]}) started in
  let G := <[LBlk 0 := [NBlk 0]]> (fun _ : lid => []) in
  exists l1, klist_insert (NBlk 0) (NTask 3) s = Some (tt, with_links l1 s) /\
    rings l1 (<[LBlk 0 := [NTask 3; NBlk 0]]> G) /\
    exists l2, klist_rm (NTask 3) (with_links l1 s) = Some (tt, with_links l2 s) /\ rings l2 G.
Proof.
  apply (klist_refines_lists (<[LBlk 0 := [NBlk 0]]> (fun _ : lid => [])) (LBlk 0) [] (NBlk 0) [] (NTask 3)
    (with_lm (mkL {[NBlk 0 := NBlk 0]} {[NBlk 0 := NBlk 0]}) started)).
  - split.
    + intros i. destruct (decide (i = LBlk 0)) as [->|]; [|by rewrite fn_lookup_insert_ne].
      rewrite fn_lookup_insert. vm_compute. split; reflexivity.
    + intros i. destruct (decide (i = LBlk 0)) as [->|]; [|rewrite fn_lookup_insert_ne by done; constructor].
      rewrite fn_lookup_insert. apply NoDup_singleton.
    + intros i j n. destruct (decide (i = LBlk 0)) as [->|], (decide (j = LBlk 0)) as [->|];
        rewrite ?fn_lookup_insert, ?fn_lookup_insert_ne by done; set_solver.
  - by rewrite fn_lookup_insert.
  - intros i. destruct (decide (i = LBlk 0)) as [->|]; rewrite ?fn_lookup_insert, ?fn_lookup_insert_ne by done; set_solver.
Defined.

(** [krhino_find_first_bit] on a bitmap with a set bit returns the number
    of its first set bit, across words. *)
Theorem find_first_bit_is_first bm :
  Forall word_ok bm -> (exists w, w ∈ bm /\ w <> 0) ->
  exists n, krhino_find_first_bit bm = Some n /\ first_bit bm n.
Proof. apply find_first_bit_first. Qed.

Lemma find_first_bit_is_first_witness :
  exists n, krhino_find_first_bit [0; 0x00008001] = Some n /\ first_bit [0; 0x00008001] n.
Proof.
  apply (find_first_bit_is_first [0; 0x00008001]).
  - repeat constructor; vm_compute; congruence.
  - exists 0x00008001. split; [right; left|discriminate].
Defined.

(** [ffs32_msb] and [ffs32_lsb] return one plus the number of the highest
    and of the lowest set bit of a word, and zero for zero. *)
Theorem ffs32_correct :
  ffs32_msb 0 = Some 0 /\ ffs32_lsb 0 = Some 0 /\
  forall w, 0 < w < 2 ^ 32 -> ffs32_msb w = Some (Z.log2 w + 1) /\ exists k, low_bit w k /\ ffs32_lsb w = Some (k + 1).
Proof. split_and!; [done..|]. intros w Hw. split; [by apply ffs32_msb_spec|by apply ffs32_lsb_spec]. Qed.

Section ReadyQueue.
Context (bl : gmap oid blk_obj_t) (A : queues) (t : tid) (x : ktask_t) (s : kstate).

(** A run that changes links and run queue only. *)
Lemma wp_run_lq (m : M unit) A' :
  wp m (fun _ s' => exists l' q', s' = with_lq l' q' s /\ srep l' q' bl A') s ->
  exists l' q', m s = Some (tt, with_lq l' q' s) /\ srep l' q' bl A'.
Proof. intros ([] & s' & Hr & l' & q' & -> & H)%wp_run. by exists l', q'. Qed.
End ReadyQueue.

(** C36: the ready queue (lists, heads, bitmap and highest ready priority
    together) represents one sequence of tasks per priority:
    [ready_list_add] puts a task at the end of its list, or at the front when
    its priority is not the running one; [ready_list_rm] takes a task out,
    also the last of its priority, and finds the next highest priority again;
    [ready_list_head_to_tail] rotates. *)
Theorem ready_queue_refines bl A t x s :
  srep (lm s) (rq s) bl A -> tcbs s !! t = Some x -> 0 <= prio x < RHINO_CONFIG_PRI_MAX ->
  (forall a y, g_active_task (gl s) = Some a -> tcbs s !! a = Some y -> tfree A (LReady (prio x)) t ->
     exists l' q', ready_list_add t s = Some (tt, with_lq l' q' s) /\
       srep l' q' bl (<[LReady (prio x) := add_pos (prio x) (prio y) t (A (LReady (prio x)))]> A)) /\
  (forall a b, A (LReady (prio x)) = a ++ t :: b -> has_ready (<[LReady (prio x) := a ++ b]> A) ->
     exists l' q', ready_list_rm t s = Some (tt, with_lq l' q' s) /\ srep l' q' bl (<[LReady (prio x) := a ++ b]> A)) /\
  (forall u r, A (LReady (prio x)) = u :: r ->
     exists l' q', ready_list_head_to_tail t s = Some (tt, with_lq l' q' s) /\
       srep l' q' bl (<[LReady (prio x) := r ++ [u]]> A)).
Proof.
  intros Hs Ht Hp. split_and!; intros; apply wp_run_lq.
  - eapply (wp_ready_list_add bl A t x); [done..|]. eauto.
  - eapply (wp_ready_list_rm bl A t x); [done..|]. eauto.
  - eapply (wp_ready_list_head_to_tail bl A t x); [done..|]. eauto.
Qed.

Lemma ready_queue_refines_witness :
  exists l' q', ready_list_rm 3 busy = Some (tt, with_lq l' q' busy) /\
    srep l' q' (blks (ob busy)) (<[LReady 20 := []]> (qget busy_queues)).
Proof.
  eapply (ready_queue_refines (blks (ob busy)) (qget busy_queues) 3 (tcb busy 3) busy) with (a := []) (b := []).
  - exact (ki_rep _ _ (kw_inv _ _ busy_kwf)).
  - reflexivity.
  - vm_compute. split; congruence.
  - reflexivity.
  - exists 61. vm_compute. congruence.
Defined.

(** ** Ring buffers *)

(** The length header of a message (one to three bytes) is read back as
    the length, for every length up to 2^22 - 1, and its first byte alone
    tells how many bytes it has. *)
Theorem ringbuf_header_roundtrip n :
  0 <= n <= RINGBUF_LEN_3BYTES_MAXVALUE ->
  exists k b rest, header n = b :: rest /\ length (header n) = k /\ COMPRESS_LEN n = k /\ (0 < k <= 3)%nat /\
    decode_len_bytes b = Some k /\ ringbuf_headlen_decompress k (header n) = n.
Proof. apply header_spec. Qed.

Lemma ringbuf_header_roundtrip_witness :
  exists k b rest, header 300 = b :: rest /\ length (header 300) = k /\ COMPRESS_LEN 300 = k /\ (0 < k <= 3)%nat /\
    decode_len_bytes b = Some k /\ ringbuf_headlen_decompress k (header 300) = 300.
Proof. apply (ringbuf_header_roundtrip 300). vm_compute. split; congruence. Defined.

(** C37: a ring buffer of variable-length messages answers every sequence of
    pushes and pops exactly as a queue of messages with as many bytes of room
    does, across all wrap-arounds of head, tail and length header: messages
    come out complete, in order and once, a push is refused exactly when the
    message with its header does not fit, a pop exactly when the queue is
    empty. *)
Theorem dyn_ringbuf_is_queue ops r ms :
  dyn_rep r ms -> Forall op_ok ops ->
  exists r', ring_run ops r = Some (fst (queue_run (rb_end r) ops ms), r') /\
    dyn_rep r' (snd (queue_run (rb_end r) ops ms)).
Proof. intros Hr Hops. destruct (ring_run_queue ops r ms Hr Hops) as (r' & ? & ? & _). by exists r'. Qed.

Definition demo_ops : list ring_op := [RPush [1; 2; 3]; RPush [4; 5]; RPop; RPush [6; 7; 8]; RPush [9]; RPop; RPop; RPop].

Lemma dyn_ringbuf_is_queue_witness :
  exists r', ring_run demo_ops (ringbuf_init (replicate 8 0) RINGBUF_TYPE_DYN 0) =
      Some ([(RHINO_SUCCESS, []); (RHINO_SUCCESS, []); (RHINO_SUCCESS, [1; 2; 3]); (RHINO_SUCCESS, []);
             (RHINO_RINGBUF_FULL, []); (RHINO_SUCCESS, [4; 5]); (RHINO_SUCCESS, [6; 7; 8]); (RHINO_RINGBUF_EMPTY, [])], r') /\
    dyn_rep r' [].
Proof.
  apply (dyn_ringbuf_is_queue demo_ops (ringbuf_init (replicate 8 0) RINGBUF_TYPE_DYN 0) []).
  - destruct (init_ok (replicate 8 0) RINGBUF_TYPE_DYN 0) as [H1 H2]; [simpl; lia|]. split_and!; [exact H1|reflexivity|exact H2|constructor].
  - repeat constructor; vm_compute; congruence.
Defined.

(** A ring buffer of fixed-size blocks is a FIFO of [blk_size]-byte
    blocks that holds exactly as many as fit: a push stores the first
    [blk_size] bytes of the data behind the others or, when full, is refused;
    a pop gives the oldest block or reports empty. *)
Theorem fix_ringbuf_is_fifo r ms n :
  fix_rep r ms -> rb_end r = (n * rb_blk_size r)%nat ->
  (forall data len, (rb_blk_size r <= length data)%nat ->
     if (length ms <? n)%nat then
       exists r', ringbuf_push r data len = Some (RHINO_SUCCESS, r') /\ fix_rep r' (ms ++ [take (rb_blk_size r) data])
     else ringbuf_push r data len = Some (RHINO_RINGBUF_FULL, r)) /\
  match ms with
  | [] => ringbuf_pop r = Some (RHINO_RINGBUF_EMPTY, [], r)
  | d :: rest => exists r', ringbuf_pop r = Some (RHINO_SUCCESS, d, r') /\ fix_rep r' rest
  end.
Proof.
  intros Hr Hn. destruct (fix_full r ms n Hr Hn) as [_ Hfull]. split.
  - intros data len Hd. pose proof (fix_push r ms data len Hr Hd) as Hp.
    destruct (Nat.ltb_spec (length ms) n) as [Hlt|Hge].
    + rewrite (proj2 Hfull Hlt) in Hp. destruct Hp as (r' & ? & ? & _). by exists r'.
    + destruct (rb_blk_size r <=? rb_freesize r)%nat; [|done]. pose proof (proj1 Hfull eq_refl). lia.
  - destruct ms as [|d rest]; [by apply fix_pop_empty|]. destruct (fix_pop r rest d Hr) as (r' & ? & ? & _). by exists r'.
Qed.

Lemma fix_ringbuf_is_fifo_witness :
  exists r', ringbuf_push (ringbuf_init (replicate 8 0) RINGBUF_TYPE_FIX 4) [1; 2; 3; 4; 5] 4 = Some (RHINO_SUCCESS, r') /\
    fix_rep r' [[1; 2; 3; 4]].
Proof.
  apply (fix_ringbuf_is_fifo (ringbuf_init (replicate 8 0) RINGBUF_TYPE_FIX 4) [] 2).
  - destruct (init_ok (replicate 8 0) RINGBUF_TYPE_FIX 4) as [H1 H2]; [simpl; lia|].
    split_and!; [exact H1|reflexivity|simpl; lia|exists 2%nat; reflexivity|exists 0%nat; reflexivity|exists 0%nat; reflexivity|exact H2|constructor].
  - reflexivity.
  - simpl. lia.
Defined.

(** ** Byte FIFO *)

(** The byte FIFO of k_fifo.c keeps its bytes in order with free-running
    32-bit indices that wrap around: [fifo_in] appends as much of the buffer as
    there is room for and reports how much that is; [fifo_out] and
    [fifo_out_peek] give the oldest bytes, the former removing them;
    [fifo_out_all] empties the FIFO. *)
Theorem fifo_refines_bytes f :
  fifo_ok f ->
  (forall buf len, 0 <= len <= Z.of_nat (length buf) -> let l := Z.min len (fifo_free_bytes f) in
     exists f', fifo_in f buf len = Some (l, f') /\ fifo_ok f' /\
       fifo_contents f' = fifo_contents f ++ take (Z.to_nat l) buf) /\
  (forall len, 0 <= len -> let l := Z.min len (fifo_used f) in
     fifo_out_peek f len = Some (l, take (Z.to_nat l) (fifo_contents f)) /\
     exists f', fifo_out f len = Some (l, take (Z.to_nat l) (fifo_contents f), f') /\ fifo_ok f' /\
       fifo_contents f' = drop (Z.to_nat l) (fifo_contents f)) /\
  exists f', fifo_out_all f = Some (fifo_used f, fifo_contents f, f') /\ fifo_ok f' /\ fifo_contents f' = [].
Proof.
  intros Hf. split_and!.
  - intros buf len Hl l. destruct (fifo_in_spec f buf len Hf Hl) as (f' & ? & ? & ? & _). by exists f'.
  - intros len Hl l. split; [by apply fifo_peek_spec|by apply fifo_out_spec].
  - by apply fifo_out_all_spec.
Qed.

Lemma fifo_refines_bytes_witness :
  exists f', fifo_in (mkFifo (2 ^ 32 - 1) (2 ^ 32 - 1) 3 [0; 0; 0; 0] 4 4) [7; 8; 9] 3 = Some (3, f') /\ fifo_ok f' /\
    fifo_contents f' = [7; 8; 9].
Proof.
  apply (fifo_refines_bytes (mkFifo (2 ^ 32 - 1) (2 ^ 32 - 1) 3 [0; 0; 0; 0] 4 4)).
  - split; simpl; [exists 2; split; [lia|reflexivity]|reflexivity|reflexivity|lia|lia|vm_compute; congruence|reflexivity].
  - simpl. lia.
Defined.

(** ** Block pool *)

(** A block pool set up over a region hands out pairwise different
    blocks of the region, each until it is given back, and reports
    [RHINO_NO_MEM] exactly when none is left: initialisation lists every
    whole block, an allocation takes the first free block off the list, a
    release puts the block back. *)
Theorem mblk_pool_refines fuel p start bs size mem :
  0 < bs -> 2 * bs <= size -> 0 <= start -> start + size + bs < 2 ^ 32 ->
  start mod 4 = 0 -> bs mod 4 = 0 -> size mod 4 = 0 -> (Z.to_nat (size / bs) <= fuel)%nat ->
  (exists p' mem', krhino_mblk_pool_init fuel p start bs size mem = Some (RHINO_SUCCESS, p', mem') /\
     pool_rep p' mem' (blocks start bs (Z.to_nat (size / bs)))) /\
  (forall q m L, pool_rep q m L ->
     match L with
     | [] => krhino_mblk_alloc q m = Some (RHINO_NO_MEM, 0, q)
     | b :: r => exists q', krhino_mblk_alloc q m = Some (RHINO_SUCCESS, b, q') /\ pool_rep q' m r
     end) /\
  (forall q m L b, pool_rep q m L -> b ∉ L -> mp_blk_avail q < mp_blk_whole q ->
     exists q' m', krhino_mblk_free q b m = (RHINO_SUCCESS, q', m') /\ pool_rep q' m' (b :: L)).
Proof.
  intros H1 H2 H3 H4 H5 H6 H7 H8. split_and!.
  - destruct (mblk_pool_init_spec fuel p start bs size mem H1 H2 H3 H4 H5 H6 H7 H8) as (p' & mem' & ? & ? & _). by exists p', mem'.
  - intros q m L HL. pose proof (mblk_alloc_spec q m L HL) as Ha. destruct L as [|b r]; [done|].
    destruct Ha as (q' & ? & ? & _). by exists q'.
  - intros q m L b HL Hb Hlt. destruct (mblk_free_spec q m L b HL Hb Hlt) as (q' & m' & ? & ? & _). by exists q', m'.
Qed.

Lemma mblk_pool_refines_witness :
  exists p' mem', krhino_mblk_pool_init 3 (mkPool RHINO_OBJ_TYPE_NONE 0 0 0 0) 0x1000 16 48 ∅ = Some (RHINO_SUCCESS, p', mem') /\
    pool_rep p' mem' [0x1000; 0x1010; 0x1020].
Proof.
  apply (mblk_pool_refines 3 (mkPool RHINO_OBJ_TYPE_NONE 0 0 0 0) 0x1000 16 48 ∅); try (vm_compute; congruence); try lia; reflexivity.
Defined.

(** ** Deviations *)

(** [krhino_mblk_pool_init] does not reject a block size of zero, and then
    its linking loop does not end, however long it runs. *)
Theorem mblk_pool_init_zero_diverges fuel p start size mem :
  0 <= start -> 0 < size -> start + size < 2 ^ 32 -> start mod 4 = 0 -> size mod 4 = 0 ->
  krhino_mblk_pool_init fuel p start 0 size mem = None.
Proof.
  intros H1 H2 H3 H4 H5. unfold krhino_mblk_pool_init. rewrite Z.shiftl_0_l. change (u32 0) with 0.
  rewrite (proj2 (Z.ltb_ge size 0)) by lia. rewrite !aligned_land by (done || lia).
  assert (E : forall fuel blks cur mem, pool_link fuel 0 (u32 (start + size)) blks cur start mem = None).
  { rewrite (wrap_small 32 (start + size)) by lia. clear fuel mem. intros fuel.
    induction fuel as [|n IH]; intros; simpl; rewrite (proj2 (Z.ltb_lt _ _)) by lia; [done|].
    rewrite Z.add_0_r, (wrap_small 32 start) by lia. apply IH. }
  rewrite Z.add_0_r, (wrap_small 32 start) by lia. by rewrite E.
Qed.

Lemma mblk_pool_init_zero_diverges_witness :
  krhino_mblk_pool_init 100 (mkPool RHINO_OBJ_TYPE_NONE 0 0 0 0) 0x1000 0 64 ∅ = None.
Proof. apply mblk_pool_init_zero_diverges; try lia; reflexivity. Defined.
